(* ===== verification/_CoqProject ===== *)
-Q . S2P
Prelude.v
Memory.v
Pmm.v
Alloc.v
Heap.v
Task.v
Sched.v
SchedSpec.v
Kthread.v
Sync.v
Vmm.v
Disk.v
Fat32.v
Fat32Spec.v
Fat32Dir.v
Tokenizer.v
TokenizerSpec.v
Notepad.v
NotepadSpec.v
Vfs.v
BootInfo.v
Boot.v
Initrd.v
Ring.v
Keyboard.v
Mouse.v
Input.v
Window.v
Terminal.v
Wm.v
WmSpec.v
Framebuffer.v
Font.v
Acpi.v
Float.v
Simd.v
Arena.v
Tensor.v
Quant.v
Ops.v
Attention.v
AttentionSpec.v
Transformer.v
Model.v
Gguf.v
Files.v
Loader.v
Inference.v
Canvas.v
AppLife.v
Notes.v
Explorer.v
AiChat.v
Settings.v
Apps.v
AppsSpec.v
Paint.v
Ports.v
Vga.v
Readline.v
Shell.v
ShellKernel.v
CommandSpec.v
Gdt.v
Serial.v
Idt.v
ReportSpec.v
Panic.v
Pci.v
Apic.v
Pit.v
Irqs.v
Ahci.v
