(* ===== verification/Prelude.v ===== *)
(** * AIOS: a verification library of the kernel

    AIOS (src/) is a bare-metal x86-64 kernel in C: it boots through
    Multiboot2, manages pages, a heap and address spaces, schedules kernel
    threads, reads and writes FAT32 volumes and a ramdisk, drives keyboard and
    mouse, shows a desktop of windows, and runs a language model whose text
    goes through a byte-pair tokenizer.  This library translates the kernel's
    core logic, function by function, into executable Rocq definitions and
    proves what makes each part correct, on every branch, at the machine's
    integer widths.

    ** How the code is modelled

    - An integer of w bits is a [Z]; every operation that can leave the range
      is written with its wrap-around ([u8], [u16], [u32], [u64], [s16],
      [s32]).  Signed overflow, undefined in C, is taken to wrap.
    - Memory is a function from addresses to bytes (Memory.v) with
      little-endian loads and stores; a static array is a total function with
      a pointwise update; a C struct is a record; NULL is 0, or -1 where a
      pointer is kept as the index of a static slot.
    - A stateful function takes and returns the record of its file's statics.
      The result is an [option] where the code can fail to return: [None] is a
      loop that outlives its fuel, or a trap.  Every such function has a
      theorem that enough fuel gives [Some]; the bound is stated there: the
      number of blocks of the heap, slots of the task table, clusters of the
      volume, tags of the boot block, windows of the list, events to handle.
    - Interrupt handlers and calls under an interrupt-disabling lock are
      atomic steps; Sync.v, where the interleaving is the point, models the
      locks themselves as programs of atomic steps under any schedule.
    - Function pointers are values of a type of their own, interpreted by a
      parameter or a class on the state of the rest of the system.

    ** The parts, from the bottom up

    A file holds the data and operations of a component and, after them, its
    invariants and theorems; for the largest ones these are in a file of their
    own whose name ends in Spec (and Fat32Dir.v).

    Prelude.v: integers, counted loops ([for_up], [find_up], [count_up]), bit
    lemmas, tactics.  Memory.v: bytes, loads, stores, copies.  Ports.v: port
    input and output as a class of operations of the outside world.

    Memory management.  Pmm.v (kernel/pmm.c): the frame bitmap; the boot-time
    scan of the memory map computes exactly the free frames, and allocation is
    first fit.  Alloc.v: the interface [Allocator] with its laws
    [AllocatorSpec], against which every client of the heap is verified.
    Heap.v (kernel/heap.c): headers in memory refine a list of blocks that
    tiles the heap; allocation refines first fit and is safe (aligned, disjoint
    from live blocks), freeing coalesces completely; it is the instance of the
    interface.  Vmm.v (kernel/vmm.c): mapping and unmapping change the
    translation of exactly one page; initialisation gives the identity map.
    BootInfo.v (kernel/mb2_modules.c, [find_mmap_tag]) and Boot.v
    ([kernel_main]): the walk over the Multiboot2 tags, and that the pages
    handed out after boot avoid kernel and heap.

    Processor.  Gdt.v (kernel/gdt.c): the segment tables in memory decode to
    the segments meant, and nothing else is written.  Idt.v (kernel/idt.c,
    isr_stubs.asm): the gates decode to the stubs; an interrupt is invisible to
    the code it interrupts, except for three vectors whose stubs are wrong.
    Apic.v (kernel/apic.c), Pit.v (kernel/pit.c): programming the interrupt
    controllers and the timer, and the busy wait.  Irqs.v (kernel_main.c): in
    every step of the boot an unmasked line has a handler.  Pci.v
    (kernel/pci.c): the scan finds the functions present.  Acpi.v
    (kernel/acpi.c): the walk over the tables, power-off and reset as lists of
    port writes.

    Tasks.  Task.v (kernel/task.c, switch_context.asm): a context switch
    resumes the other task where it stopped; a new task starts at its entry.
    Sched.v, SchedSpec.v (kernel/sched.c, the timer interrupt): the circular
    ready queue and the sleep queue, linked through the task slots, refine two
    lists; round robin serves every ready task within a bounded number of
    ticks and sleepers wake when due.  Kthread.v (kernel/kthread.c): a thread
    runs the function it was created with.  Sync.v (kernel/sync.c): mutual
    exclusion and the semaphore's count under every interleaving.

    Storage.  Disk.v: the block device, the two calls of kernel/ahci.h as a
    class with laws, and a ramdisk as its instance.  Ahci.v (kernel/ahci.c):
    the driver; its transfers on port 0 refine that ramdisk.  Fat32.v,
    Fat32Spec.v, Fat32Dir.v (kernel/fat32.c): allocation finds the first run
    and links it, chains are freed, what is written is read back, a created
    file is found and the others stay.  Vfs.v (kernel/fs/vfs.c): reads through
    a descriptor.  Files.v: its four calls as the class [FileSys] that their
    clients use.  Initrd.v (scripts/mkinitrd.py, kernel/initrd.c,
    kernel/fs/vfs_initrd.c): every file packed into an image is found in it.

    Text.  Vga.v (kernel/vga.c): the screen shows the end of an endless roll.
    Serial.v (kernel/serial.c): the serial line.  ReportSpec.v and Panic.v
    (kernel/panic.c, pf_handler.c): what a report of several texts leaves in
    sight; a page fault is reported completely.  Readline.v
    (kernel/shell/terminal.c), Shell.v and ShellKernel.v (kernel/shell/shell.c
    and the calls it makes): line editing, the splitting into words, every
    command, and a command typed key by key is run.  CommandSpec.v: cat on the
    FAT32 volume.

    Language model.  Tokenizer.v, TokenizerSpec.v (kernel/llm/tokenizer.c):
    encoding on linked nodes computes byte-pair encoding; the hash table of
    merges agrees with the list of rules.  Float.v: the interface [FloatOps] of
    32-bit float operations, with an IEEE instance, and memory as an array of
    floats; everything below is verified for any instance, so no theorem
    depends on a property of rounding.  Simd.v (kernel/simd.c): the vector
    paths compute what the scalar loops compute, and fault on unaligned rows.
    Arena.v: the allocator as clients of float buffers see it.  Tensor.v,
    Ops.v, Quant.v (kernel/llm/tensor.c, ops.c, quant.c): tensors, the
    operations on them and the products with quantised rows.  Attention.v,
    AttentionSpec.v (kernel/llm/attention.c): one token's attention with the
    key/value cache and grouped heads is the textbook formula.  Transformer.v,
    Model.v (kernel/llm/transformer.c, model.c): the decoder block in both
    styles, one step of the model, the model's memory and the sampler.
    Gguf.v, Loader.v (kernel/llm/loader.c): the bytes of a weight file, half
    precision, dequantisation; the load of a file a writer encodes, and the
    refusal of one that breaks the format, over the interfaces [FileSys] and
    [Arena].  Inference.v (kernel/llm/inference.c): the engine that ties
    loader, tokenizer, model and sampler together, and that it never answers.

    Input and desktop.  Ring.v: the ring buffer of the drivers refines a
    bounded queue.  Keyboard.v and Mouse.v (kernel/keyboard.c, mouse.c): what
    is typed is read; packets become movements.  Input.v
    (kernel/gui/input*.c): the queue of GUI events and the callbacks that fill
    it.  Window.v (kernel/gui/window.c): the list of windows implements a
    stacking order.  Framebuffer.v, Font.v, Canvas.v (kernel/gfx/): every
    primitive stays on the screen, text is drawn as its glyphs.  Wm.v,
    WmSpec.v (kernel/gui/wm.c, taskbar.c, start_menu.c, desktop.c): the event
    loop over any applications that obey the class [GuiAppsSpec], clicks,
    focus and dragging.  Paint.v: what the window manager draws.  Terminal.v
    (kernel/apps/terminal_gui.c): the grid of characters, and a key's way from
    the interrupt to it.  Explorer.v, Notes.v, AiChat.v, Settings.v
    (kernel/apps/explorer.c, notepad_simple.c, ai_chat_simple.c, settings.c):
    the other applications; AppLife.v, Apps.v, AppsSpec.v: opening them, the
    five together, and that the desktop with them keeps its invariants under
    any sequence of events.  Notepad.v, NotepadSpec.v (kernel/apps/notepad.c,
    left out of the kernel's build): the gap buffer and every key of the
    editor.

    Theorems about defects of the code state exactly what the code does.
    Where a defect limits a theorem, its hypotheses name the limit (three
    interrupt vectors, the ports of the disk controller behind the first, the
    floats behind the key buffer, files of several small clusters) and its
    comment says so.

    ** Not modelled

    The entry from the boot loader in assembly (boot/kernel_entry.asm), the
    sources left out of the build other than the notepad
    (kernel/apps/ai_chat.c, keyboard_gui_hook.c, vga_phase51.c) and shell/ai.c.
    Of [kernel_main] the memory set-up and the interrupt steps are modelled,
    not the order of all its other calls.  Functions that only print a state
    for diagnosis are left out ([fat32_sector0_test], [tensor_print],
    [acpi_dump_info], [pmm_dump_stats], [simd_print_features]), and so are log
    messages in most files (Apic.v, Ahci.v, Irqs.v, Idt.v and Panic.v have them).  The stubs save no
    SSE registers; the models of interrupts and switches have integer registers
    only.  Devices are classes of operations with laws that an instance
    shows to be satisfiable. *)

From stdpp Require Export base tactics numbers list gmap strings.

Declare Scope aios_scope.
Delimit Scope aios_scope with aios.

#[export] Set Default Goal Selector "!".
Local Open Scope Z_scope.

(** ** Machine integers: a w-bit value is a [Z]; every C operation that may
    leave the range is written with its wrap-around. *)

Definition u8 (x : Z) : Z := x mod 2 ^ 8.
Definition u16 (x : Z) : Z := x mod 2 ^ 16.
Definition u32 (x : Z) : Z := x mod 2 ^ 32.
Definition u64 (x : Z) : Z := x mod 2 ^ 64.
Definition s16 (x : Z) : Z := (x + 2 ^ 15) mod 2 ^ 16 - 2 ^ 15.
Definition s32 (x : Z) : Z := (x + 2 ^ 31) mod 2 ^ 32 - 2 ^ 31.

Create HintDb aios.
Create Rewrite HintDb aios_rw.

(** [wlia]: linear arithmetic after turning in-range wraps into identities. *)
Lemma u8_small x : 0 <= x < 2 ^ 8 -> u8 x = x.
Proof. apply Z.mod_small. Qed.
Lemma u16_small x : 0 <= x < 2 ^ 16 -> u16 x = x.
Proof. apply Z.mod_small. Qed.
Lemma u32_small x : 0 <= x < 2 ^ 32 -> u32 x = x.
Proof. apply Z.mod_small. Qed.
Lemma u64_small x : 0 <= x < 2 ^ 64 -> u64 x = x.
Proof. apply Z.mod_small. Qed.
Lemma s32_small x : - 2 ^ 31 <= x < 2 ^ 31 -> s32 x = x.
Proof. intros H. unfold s32. rewrite Z.mod_small; lia. Qed.
Lemma s16_small x : - 2 ^ 15 <= x < 2 ^ 15 -> s16 x = x.
Proof. intros H. unfold s16. rewrite Z.mod_small; lia. Qed.
Lemma u8_range x : 0 <= u8 x < 2 ^ 8.
Proof. apply Z.mod_pos_bound. lia. Qed.
Lemma u16_range x : 0 <= u16 x < 2 ^ 16.
Proof. apply Z.mod_pos_bound. lia. Qed.
Lemma u32_range x : 0 <= u32 x < 2 ^ 32.
Proof. apply Z.mod_pos_bound. lia. Qed.
Lemma u64_range x : 0 <= u64 x < 2 ^ 64.
Proof. apply Z.mod_pos_bound. lia. Qed.
Lemma s32_range x : - 2 ^ 31 <= s32 x < 2 ^ 31.
Proof. unfold s32. pose proof (Z.mod_pos_bound (x + 2 ^ 31) (2 ^ 32)). lia. Qed.
Lemma s16_range x : - 2 ^ 15 <= s16 x < 2 ^ 15.
Proof. unfold s16. pose proof (Z.mod_pos_bound (x + 2 ^ 15) (2 ^ 16)). lia. Qed.

#[export] Hint Resolve u8_range u16_range u32_range u64_range s32_range s16_range : aios.

(** Remove every wrap whose argument is provably in range. *)
Ltac unwrap :=
  repeat match goal with
  | |- context [u64 ?x] => rewrite (u64_small x) by lia
  | |- context [u32 ?x] => rewrite (u32_small x) by lia
  | |- context [u16 ?x] => rewrite (u16_small x) by lia
  | |- context [u8 ?x] => rewrite (u8_small x) by lia
  | |- context [s32 ?x] => rewrite (s32_small x) by lia
  | H : context [u64 ?x] |- _ => rewrite (u64_small x) in H by lia
  | H : context [u32 ?x] |- _ => rewrite (u32_small x) in H by lia
  | H : context [u16 ?x] |- _ => rewrite (u16_small x) in H by lia
  | H : context [u8 ?x] |- _ => rewrite (u8_small x) in H by lia
  | H : context [s32 ?x] |- _ => rewrite (s32_small x) in H by lia
  end.

(** Turn boolean comparisons of hypotheses and goal into propositions. *)
Ltac b2p :=
  repeat match goal with
  | H : (_ && _)%bool = true |- _ => apply andb_prop in H; destruct H
  | H : (_ || _)%bool = false |- _ => apply orb_false_elim in H; destruct H
  | H : negb _ = true |- _ => apply negb_true_iff in H
  | H : negb _ = false |- _ => apply negb_false_iff in H
  | H : (_ <? _) = true |- _ => apply Z.ltb_lt in H
  | H : (_ <? _) = false |- _ => apply Z.ltb_ge in H
  | H : (_ <=? _) = true |- _ => apply Z.leb_le in H
  | H : (_ <=? _) = false |- _ => apply Z.leb_gt in H
  | H : (_ =? _) = true |- _ => apply Z.eqb_eq in H
  | H : (_ =? _) = false |- _ => apply Z.eqb_neq in H
  end.

(** [lia] with division and remainder by constants. *)
Ltac dlia := Z.div_mod_to_equations; lia.

(** Split on the comparisons the goal tests. *)
Ltac zcase :=
  match goal with
  | |- context [?a <? ?b] => destruct (Z.ltb_spec a b)
  | |- context [?a <=? ?b] => destruct (Z.leb_spec a b)
  | |- context [?a =? ?b] => destruct (Z.eqb_spec a b)
  end.

(** ** Static arrays: total functions with a pointwise update. *)

Section Arrays.
Context {A : Type}.

Definition upd (f : Z -> A) (i : Z) (v : A) : Z -> A :=
  fun j => if i =? j then v else f j.

Definition fill (f : Z -> A) (i n : Z) (v : A) : Z -> A :=
  fun j => if (i <=? j) && (j <? i + n) then v else f j.

Lemma upd_eq f i v : upd f i v i = v.
Proof. unfold upd. by rewrite Z.eqb_refl. Qed.

Lemma upd_ne f i j v : i <> j -> upd f i v j = f j.
Proof. intros H. unfold upd. zcase; [lia | done]. Qed.

Lemma upd_spec f i j v : upd f i v j = if decide (i = j) then v else f j.
Proof. unfold upd. zcase; case_decide; done. Qed.
End Arrays.

(** ** Counted loops *)

(** [for_up n i body s] runs [for (; i < i0 + n; i++) s = body(i, s)]. *)
Fixpoint for_up {T : Type} (n : nat) (i : Z) (body : Z -> T -> T) (s : T) : T :=
  match n with
  | O => s
  | S n' => for_up n' (i + 1) body (body i s)
  end.

Lemma for_up_inv {T : Type} (I : Z -> T -> Prop) n i body s :
  I i s ->
  (forall j t, i <= j < i + Z.of_nat n -> I j t -> I (j + 1) (body j t)) ->
  I (i + Z.of_nat n) (for_up n i body s).
Proof.
  revert i s. induction n as [|n IH]; intros i s H0 Hs; cbn [for_up].
  - by replace (i + Z.of_nat 0) with i by lia.
  - replace (i + Z.of_nat (S n)) with ((i + 1) + Z.of_nat n) by lia.
    apply IH.
    + apply Hs; [lia | done].
    + intros j t Hj. apply Hs. lia.
Qed.

Lemma for_up_ext {T : Type} n i (b1 b2 : Z -> T -> T) s :
  (forall j t, i <= j < i + Z.of_nat n -> b1 j t = b2 j t) ->
  for_up n i b1 s = for_up n i b2 s.
Proof.
  revert i s. induction n as [|n IH]; intros i s H; cbn [for_up]; [done|].
  rewrite H by lia. apply IH. intros. apply H. lia.
Qed.

Lemma for_up_app {T : Type} n m i (b : Z -> T -> T) s :
  for_up (n + m) i b s = for_up m (i + Z.of_nat n) b (for_up n i b s).
Proof.
  revert i s. induction n as [|n IH]; intros i s.
  - cbn [for_up Nat.add]. by replace (i + Z.of_nat 0) with i by lia.
  - cbn [for_up Nat.add]. rewrite IH. f_equal. lia.
Qed.

(** The memset-style loop over an array is [fill]. *)
Lemma for_up_fill {A : Type} n i (v : A) f j :
  for_up n i (fun k g => upd g k v) f j = fill f i (Z.of_nat n) v j.
Proof.
  revert i f. induction n as [|n IH]; intros i f; cbn [for_up].
  - unfold fill. destruct (Z.leb_spec i j), (Z.ltb_spec j (i + Z.of_nat 0)); simpl; lia || done.
  - rewrite IH. unfold fill, upd.
    destruct (Z.leb_spec (i + 1) j), (Z.leb_spec i j), (Z.eqb_spec i j),
      (Z.ltb_spec j (i + 1 + Z.of_nat n)), (Z.ltb_spec j (i + Z.of_nat (S n))); simpl; lia || done.
Qed.

(** [find_up n i p] is [for (; i < i0 + n; i++) if (p(i)) return i]. *)
Fixpoint find_up (n : nat) (i : Z) (p : Z -> bool) : option Z :=
  match n with
  | O => None
  | S n' => if p i then Some i else find_up n' (i + 1) p
  end.

Lemma find_up_Some n i p k :
  find_up n i p = Some k ->
  i <= k < i + Z.of_nat n /\ p k = true /\ (forall j, i <= j < k -> p j = false).
Proof.
  revert i. induction n as [|n IH]; intros i; cbn [find_up]; [done|].
  destruct (p i) eqn:E.
  - intros [= <-]. split; [lia|]. split; [done|]. intros. lia.
  - intros H. apply IH in H as (H1 & H2 & H3). split; [lia|]. split; [done|].
    intros j Hj. destruct (decide (j = i)) as [->|]; [done|]. apply H3. lia.
Qed.

Lemma find_up_None n i p :
  find_up n i p = None <-> (forall j, i <= j < i + Z.of_nat n -> p j = false).
Proof.
  revert i. induction n as [|n IH]; intros i; cbn [find_up].
  - split; [intros; lia | done].
  - destruct (p i) eqn:E.
    + split; [done|]. intros H. rewrite H in E; [done | lia].
    + rewrite IH. split; intros H j Hj.
      * destruct (decide (j = i)) as [->|]; [done|]. apply H. lia.
      * apply H. lia.
Qed.

Lemma find_up_first n i p k :
  i <= k < i + Z.of_nat n -> p k = true -> (forall j, i <= j < k -> p j = false) ->
  find_up n i p = Some k.
Proof.
  intros Hk Hp Hf. destruct (find_up n i p) as [k'|] eqn:E.
  - apply find_up_Some in E as (H1 & H2 & H3).
    destruct (Z.lt_trichotomy k k') as [H|[->|H]]; [|done|].
    + rewrite H3 in Hp; [done | lia].
    + rewrite Hf in H2; [done | lia].
  - rewrite find_up_None in E. rewrite E in Hp; done.
Qed.

(** [count_up n i p]: how many [j] in [[i, i+n)] satisfy [p]. *)
Fixpoint count_up (n : nat) (i : Z) (p : Z -> bool) : Z :=
  match n with
  | O => 0
  | S n' => (if p i then 1 else 0) + count_up n' (i + 1) p
  end.

Lemma count_up_bound n i p : 0 <= count_up n i p <= Z.of_nat n.
Proof.
  revert i. induction n as [|n IH]; intros i; cbn [count_up]; [lia|].
  specialize (IH (i + 1)). destruct (p i); lia.
Qed.

Lemma count_up_ext n i p q :
  (forall j, i <= j < i + Z.of_nat n -> p j = q j) -> count_up n i p = count_up n i q.
Proof.
  revert i. induction n as [|n IH]; intros i H; cbn [count_up]; [done|].
  rewrite H by lia. f_equal. apply IH. intros. apply H. lia.
Qed.

(** Flipping one index changes the count by one. *)
Lemma count_up_flip n i p q f :
  i <= f < i + Z.of_nat n -> p f = true -> q f = false ->
  (forall j, j <> f -> p j = q j) ->
  count_up n i p = count_up n i q + 1.
Proof.
  revert i. induction n as [|n IH]; intros i Hf Hp Hq H; cbn [count_up]; [lia|].
  destruct (decide (i = f)) as [->|Hne].
  - rewrite Hp, Hq. rewrite (count_up_ext n (f + 1) p q); [lia|].
    intros j Hj. apply H. lia.
  - rewrite (H i) by done. rewrite (IH (i + 1)); [lia| lia | done..].
Qed.

Lemma count_up_zero n i p :
  (forall j, i <= j < i + Z.of_nat n -> p j = false) -> count_up n i p = 0.
Proof.
  revert i. induction n as [|n IH]; intros i H; cbn [count_up]; [done|].
  rewrite H by lia. rewrite IH; [lia|]. intros. apply H. lia.
Qed.

(** ** Bit-level facts shared by the drivers *)

Lemma land_ones_mod x n : 0 <= n -> Z.land x (2 ^ n - 1) = x mod 2 ^ n.
Proof. intros. rewrite <- Z.land_ones by done. by rewrite Z.ones_equiv, Z.sub_1_r. Qed.

Lemma testbit_above x k n : 0 <= x < 2 ^ n -> n <= k -> Z.testbit x k = false.
Proof.
  intros Hx Hk. destruct (decide (x = 0)) as [->|]; [apply Z.testbit_0_l|].
  apply Z.bits_above_log2; [lia|].
  apply Z.log2_lt_pow2; [lia|].
  assert (2 ^ n <= 2 ^ k); [|lia].
  apply Z.pow_le_mono_r; lia.
Qed.

(** Clearing the low [k] bits of a [w]-bit value: [x & ~(2^k - 1)]. *)
Lemma land_align x k w :
  0 <= k <= w -> 0 <= x < 2 ^ w -> Z.land x (Z.lnot (2 ^ k - 1) mod 2 ^ w) = 2 ^ k * (x / 2 ^ k).
Proof.
  intros Hk Hx. rewrite Z.mul_comm, <- Z.shiftl_mul_pow2, <- Z.shiftr_div_pow2 by lia.
  replace (2 ^ k - 1) with (Z.ones k) by (rewrite Z.ones_equiv; lia).
  apply Z.bits_inj'. intros i Hi. rewrite Z.land_spec, Z.shiftl_spec by lia.
  destruct (Z.ltb_spec i w).
  - rewrite Z.mod_pow2_bits_low, Z.lnot_spec by lia. destruct (Z.ltb_spec i k).
    + rewrite Z.ones_spec_low, (Z.testbit_neg_r _ (i - k)) by lia. by rewrite andb_false_r.
    + rewrite Z.ones_spec_high, Z.shiftr_spec by lia. rewrite andb_true_r. f_equal. lia.
  - rewrite Z.mod_pow2_bits_high, andb_false_r by lia. symmetry.
    rewrite Z.shiftr_spec by lia. apply (testbit_above _ _ w); lia.
Qed.

Lemma land_low_mask x m w :
  0 <= w -> 0 <= m < 2 ^ w -> Z.land x m = Z.land (x mod 2 ^ w) m.
Proof.
  intros Hw Hm. rewrite <- Z.land_ones by done.
  rewrite <- Z.land_assoc, (Z.land_comm (Z.ones w)), Z.land_ones by done.
  by rewrite (Z.mod_small m).
Qed.

(** Fields of a word that do not overlap. *)
Lemma land_disjoint a f k : 0 <= k -> a mod 2 ^ k = 0 -> 0 <= f < 2 ^ k -> Z.land a f = 0.
Proof.
  intros Hk Ha Hf. apply Z.bits_inj'. intros i Hi. rewrite Z.land_spec, Z.bits_0.
  destruct (decide (i < k)).
  - rewrite <- (Z.mod_pow2_bits_low a k i), Ha, Z.bits_0 by lia. done.
  - rewrite (testbit_above f i k), andb_false_r by lia. done.
Qed.

Lemma lor_disjoint a f k : 0 <= k -> a mod 2 ^ k = 0 -> 0 <= f < 2 ^ k -> Z.lor a f = a + f.
Proof. intros Hk Ha Hf. rewrite <- Z.add_lor_land, (land_disjoint a f k) by done. lia. Qed.

Lemma lor_bound a b n : 0 <= n -> 0 <= a < 2 ^ n -> 0 <= b < 2 ^ n -> 0 <= Z.lor a b < 2 ^ n.
Proof.
  intros Hn Ha Hb. replace (Z.lor a b) with (Z.lor a b mod 2 ^ n).
  { apply Z.mod_pos_bound. apply Z.pow_pos_nonneg; lia. }
  rewrite <- Z.land_ones, Z.land_lor_distr_l, !Z.land_ones by done. by rewrite !Z.mod_small.
Qed.

Lemma mod_pow2_align a k : 0 <= k -> (2 ^ k * a) mod 2 ^ k = 0.
Proof. intros. rewrite Z.mul_comm. apply Z.mod_mul. assert (0 < 2 ^ k) by (by apply Z.pow_pos_nonneg). lia. Qed.

(** Characters and strings are lists of byte values. *)
Definition chr (c : Ascii.ascii) : Z := Z.of_nat (Ascii.nat_of_ascii c).

Fixpoint bytes_of (s : string) : list Z :=
  match s with
  | EmptyString => []
  | String c r => chr c :: bytes_of r
  end.
