(* ===== verification/Memory.v ===== *)
(** Byte-addressed memory: the physical RAM the kernel reads and writes
    through pointers, with the little-endian loads and stores of the C
    integer types.  Used by the allocators, the page tables, the boot-info
    and ramdisk parsers and (as a disk image) by the FAT32 driver. *)

From S2P Require Import Prelude.
Local Open Scope Z_scope.

(** Every address holds a byte; contents are arbitrary until written. *)
Definition mem := Z -> Z.

Definition bytes_ok (m : mem) : Prop := forall a, 0 <= m a < 256.

Fixpoint load_le (n : nat) (m : mem) (a : Z) : Z :=
  match n with
  | O => 0
  | S n' => m a + 256 * load_le n' m (a + 1)
  end.

Definition store_le (n : nat) (m : mem) (a v : Z) : mem :=
  fun x => if (a <=? x) && (x <? a + Z.of_nat n)
           then (v / 2 ^ (8 * (x - a))) mod 256 else m x.

Definition load8 (m : mem) (a : Z) : Z := m a.
Definition load16 := load_le 2.
Definition load32 := load_le 4.
Definition load64 := load_le 8.
Definition store8 := store_le 1.
Definition store16 := store_le 2.
Definition store32 := store_le 4.
Definition store64 := store_le 8.

(** Two memories agree on [[a, a+n)]. *)
Definition agree (m m' : mem) (a n : Z) : Prop :=
  forall x, a <= x < a + n -> m x = m' x.

Lemma load_le_agree n m m' a :
  agree m m' a (Z.of_nat n) -> load_le n m a = load_le n m' a.
Proof.
  revert a. induction n as [|n IH]; intros a H; cbn [load_le]; [done|].
  rewrite (H a) by lia. rewrite (IH (a + 1)); [done|].
  intros x Hx. apply H. lia.
Qed.

Lemma load_le_range n m a : bytes_ok m -> 0 <= load_le n m a < 2 ^ (8 * Z.of_nat n).
Proof.
  intros Hb. revert a. induction n as [|n IH]; intros a; cbn [load_le]; [done|].
  specialize (IH (a + 1)). specialize (Hb a).
  replace (8 * Z.of_nat (S n)) with (8 + 8 * Z.of_nat n) by lia.
  rewrite Z.pow_add_r by lia. change (2 ^ 8) with 256. lia.
Qed.

Lemma store_le_outside n m a v x :
  ~ (a <= x < a + Z.of_nat n) -> store_le n m a v x = m x.
Proof.
  intros H. unfold store_le.
  destruct (Z.leb_spec a x), (Z.ltb_spec x (a + Z.of_nat n)); simpl; done || lia.
Qed.

Lemma store_le_bytes_ok n m a v : bytes_ok m -> bytes_ok (store_le n m a v).
Proof.
  intros H x. unfold store_le. destruct (_ && _)%bool; [|done].
  apply Z.mod_pos_bound. lia.
Qed.

Lemma load_le_store_le n m a v : load_le n (store_le n m a v) a = v mod 2 ^ (8 * Z.of_nat n).
Proof.
  revert m a v. induction n as [|n IH]; intros m a v.
  - cbn [load_le]. by rewrite Z.mod_1_r.
  - cbn [load_le].
    replace (load_le n (store_le (S n) m a v) (a + 1))
      with (load_le n (store_le n m (a + 1) (v / 256)) (a + 1)).
    + rewrite IH. unfold store_le.
      destruct (Z.leb_spec a a), (Z.ltb_spec a (a + Z.of_nat (S n))); simpl; try lia.
      rewrite Z.sub_diag, Z.mul_0_r, Z.div_1_r.
      replace (8 * Z.of_nat (S n)) with (8 + 8 * Z.of_nat n) by lia.
      rewrite Z.pow_add_r by lia. change (2 ^ 8) with 256.
      rewrite Z.rem_mul_r by (try lia; apply Z.pow_pos_nonneg; lia). done.
    + apply load_le_agree. intros x Hx. unfold store_le.
      destruct (Z.leb_spec (a + 1) x), (Z.leb_spec a x),
        (Z.ltb_spec x (a + 1 + Z.of_nat n)), (Z.ltb_spec x (a + Z.of_nat (S n))); simpl; try lia.
      f_equal. change 256 with (2 ^ 8).
      rewrite Z.div_div by (try lia; apply Z.pow_pos_nonneg; lia).
      rewrite <- Z.pow_add_r by lia. do 2 f_equal. lia.
Qed.

Lemma load_le_store_other k n m a b v :
  b + Z.of_nat k <= a \/ a + Z.of_nat n <= b ->
  load_le k (store_le n m a v) b = load_le k m b.
Proof.
  intros H. apply load_le_agree. intros x Hx. apply store_le_outside. lia.
Qed.

Lemma load64_store64 m a v : load64 (store64 m a v) a = u64 v.
Proof. apply load_le_store_le. Qed.
Lemma load32_store32 m a v : load32 (store32 m a v) a = u32 v.
Proof. apply load_le_store_le. Qed.
Lemma load16_store16 m a v : load16 (store16 m a v) a = u16 v.
Proof. apply load_le_store_le. Qed.

Lemma load64_range m a : bytes_ok m -> 0 <= load64 m a < 2 ^ 64.
Proof. apply (load_le_range 8). Qed.
Lemma load32_range m a : bytes_ok m -> 0 <= load32 m a < 2 ^ 32.
Proof. apply (load_le_range 4). Qed.
Lemma load16_range m a : bytes_ok m -> 0 <= load16 m a < 2 ^ 16.
Proof. apply (load_le_range 2). Qed.

#[export] Hint Resolve store_le_bytes_ok load64_range load32_range load16_range : aios.

(** [mem_simpl]: resolve loads after stores whose ranges [lia] can compare. *)
Ltac mem_simpl :=
  unfold load64, load32, load16, store64, store32, store16, store8 in *;
  repeat first
    [ rewrite load_le_store_le
    | rewrite load_le_store_other by (left; lia)
    | rewrite load_le_store_other by (right; lia) ].

(** Copying [n] bytes upwards, one at a time: [while (n--) *d++ = *s++]. *)
Fixpoint copy_up (n : nat) (m : mem) (d s : Z) : mem :=
  match n with
  | O => m
  | S n' => copy_up n' (upd m d (m s)) (d + 1) (s + 1)
  end.

(** Writing the same byte [n] times upwards: [while (n--) *p++ = v]. *)
Fixpoint set_up (n : nat) (m : mem) (d v : Z) : mem :=
  match n with
  | O => m
  | S n' => set_up n' (upd m d v) (d + 1) v
  end.

Lemma copy_up_outside n m d s x :
  ~ (d <= x < d + Z.of_nat n) -> copy_up n m d s x = m x.
Proof.
  revert m d s. induction n as [|n IH]; intros m d s H; cbn [copy_up]; [done|].
  rewrite IH by lia. apply upd_ne. lia.
Qed.

(** An upward copy is right when the destination does not lie inside the
    part of the source that is still to be read. *)
Lemma copy_up_inside n m d s x :
  d <= s \/ s + Z.of_nat n <= d ->
  d <= x < d + Z.of_nat n -> copy_up n m d s x = m (s + (x - d)).
Proof.
  revert m d s. induction n as [|n IH]; intros m d s Hd Hx; cbn [copy_up]; [lia|].
  destruct (decide (x = d)) as [->|Hne].
  - rewrite copy_up_outside by lia. rewrite upd_eq. f_equal. lia.
  - rewrite IH by lia. rewrite upd_ne by lia. f_equal. lia.
Qed.

Lemma set_up_spec n m d v x :
  set_up n m d v x = if (d <=? x) && (x <? d + Z.of_nat n) then v else m x.
Proof.
  revert m d. induction n as [|n IH]; intros m d; cbn [set_up].
  - destruct (Z.leb_spec d x), (Z.ltb_spec x (d + Z.of_nat 0)); simpl; done || lia.
  - rewrite IH. unfold upd.
    destruct (Z.leb_spec (d + 1) x), (Z.leb_spec d x), (Z.eqb_spec d x),
      (Z.ltb_spec x (d + 1 + Z.of_nat n)), (Z.ltb_spec x (d + Z.of_nat (S n)));
      simpl; done || lia.
Qed.

(** The NUL-terminated string at [a], of at most [fuel] characters. *)
Fixpoint cstr (fuel : nat) (m : mem) (a : Z) : list Z :=
  match fuel with
  | O => []
  | S n => if m a =? 0 then [] else m a :: cstr n m (a + 1)
  end.

(** ** Bytes of memory as a list *)

(** [n] bytes of memory. *)
Definition bytes_at (m : mem) (a n : Z) : list Z := map (fun i => m (a + i)) (seqZ 0 n).

Lemma bytes_at_length m a n : length (bytes_at m a n) = Z.to_nat n.
Proof. unfold bytes_at. by rewrite length_map, length_seqZ. Qed.

Lemma bytes_at_lookup m a n i : 0 <= i < n -> bytes_at m a n !! Z.to_nat i = Some (m (a + i)).
Proof.
  intros Hi. unfold bytes_at. change (map (fun i => m (a + i))) with (fmap (M := list) (fun i => m (a + i))).
  rewrite list_lookup_fmap, lookup_seqZ_lt by lia. cbn. do 2 f_equal. lia.
Qed.

Lemma bytes_at_eq m a n l :
  length l = Z.to_nat n -> (forall i, 0 <= i < n -> m (a + i) = nth (Z.to_nat i) l 0) -> bytes_at m a n = l.
Proof.
  intros Hl E. apply list_eq. intros k. destruct (decide (k < length l)%nat).
  - replace k with (Z.to_nat (Z.of_nat k)) by lia. rewrite bytes_at_lookup, E by lia.
    rewrite nth_lookup. destruct (lookup_lt_is_Some_2 l (Z.to_nat (Z.of_nat k)) ltac:(lia)) as [v ->]. done.
  - rewrite !lookup_ge_None_2; [done | lia | rewrite bytes_at_length; lia].
Qed.

Lemma bytes_at_nth m a n i : 0 <= i < n -> nth (Z.to_nat i) (bytes_at m a n) 0 = m (a + i).
Proof. intros Hi. by rewrite nth_lookup, bytes_at_lookup by done. Qed.

Lemma bytes_at_agree m m' a n : agree m m' a n -> bytes_at m' a n = bytes_at m a n.
Proof.
  intros E. apply bytes_at_eq; [apply bytes_at_length|]. intros i Hi. rewrite bytes_at_nth by done. symmetry. apply E. lia.
Qed.

Lemma bytes_at_app m a n k : 0 <= n -> 0 <= k -> bytes_at m a (n + k) = bytes_at m a n ++ bytes_at m (a + n) k.
Proof.
  intros Hn Hk. apply bytes_at_eq; [rewrite length_app, !bytes_at_length; lia|]. intros i Hi.
  destruct (decide (i < n)).
  - rewrite app_nth1 by (rewrite bytes_at_length; lia). by rewrite bytes_at_nth by lia.
  - rewrite app_nth2 by (rewrite bytes_at_length; lia). rewrite bytes_at_length.
    replace (Z.to_nat i - Z.to_nat n)%nat with (Z.to_nat (i - n)) by lia. rewrite bytes_at_nth by lia. f_equal. lia.
Qed.

(** The bytes [l] stand at [a]. *)
Definition seg (m : mem) (a : Z) (l : list Z) : Prop := bytes_at m a (Z.of_nat (length l)) = l.

Lemma seg_app m a l1 l2 : seg m a (l1 ++ l2) <-> seg m a l1 /\ seg m (a + Z.of_nat (length l1)) l2.
Proof.
  unfold seg. rewrite length_app, Nat2Z.inj_add, bytes_at_app by lia. split.
  - intros E. apply app_inj_1 in E; [done|]. rewrite bytes_at_length. lia.
  - intros [-> ->]. done.
Qed.

Lemma seg_nth m a l i : seg m a l -> 0 <= i < Z.of_nat (length l) -> m (a + i) = nth (Z.to_nat i) l 0.
Proof. intros E Hi. rewrite <- E at 1. by rewrite bytes_at_nth. Qed.

Lemma seg_cons m a c l : seg m a (c :: l) <-> m a = c /\ seg m (a + 1) l.
Proof.
  change (c :: l) with ([c] ++ l). rewrite seg_app. cbn [length]. split; intros [H1 H2]; (split; [|done]).
  - pose proof (seg_nth _ _ _ 0 H1 ltac:(cbn; lia)) as E. cbn in E. by rewrite Z.add_0_r in E.
  - apply bytes_at_eq; [done|]. intros i Hi. cbn [length] in Hi. replace i with 0 by lia. by rewrite Z.add_0_r, H1.
Qed.

Lemma seg_bytes_at m a n : 0 <= n -> seg m a (bytes_at m a n).
Proof. intros Hn. unfold seg. rewrite bytes_at_length. by rewrite Z2Nat.id. Qed.

(** Little-endian bytes. *)
Fixpoint le_bytes (n : nat) (v : Z) : list Z :=
  match n with O => [] | S n' => v mod 256 :: le_bytes n' (v / 256) end.

Lemma le_bytes_length n v : length (le_bytes n v) = n.
Proof. revert v. induction n as [|n IH]; intros v; [done|]. cbn [le_bytes length]. by rewrite IH. Qed.

Lemma load_le_seg n m a v : seg m a (le_bytes n v) -> load_le n m a = v mod 2 ^ (8 * Z.of_nat n).
Proof.
  revert a v. induction n as [|n IH]; intros a v; cbn [le_bytes load_le]; [by rewrite Z.mod_1_r|].
  rewrite seg_cons. intros [-> H]. rewrite (IH _ _ H). replace (8 * Z.of_nat (S n)) with (8 + 8 * Z.of_nat n) by lia.
  rewrite Z.pow_add_r by lia. change (2 ^ 8) with 256. rewrite Z.rem_mul_r by (try lia; apply Z.pow_pos_nonneg; lia). done.
Qed.
