(* ===== verification/Pmm.v ===== *)
(** Physical memory manager (kernel/pmm.c): the frame bitmap, the boot-time
    scan of the Multiboot2 memory map and the single-page and contiguous
    allocators. *)

From S2P Require Import Prelude Memory.
Local Open Scope Z_scope.

Definition PAGE_SIZE : Z := 4096.
Definition MAX_FRAMES : Z := 1024 * 1024.
Definition PMM_ALLOC_FAIL : Z := 2 ^ 64 - 1.

(** The three statics of pmm.c. *)
Record pmm := mk_pmm {
  bitmap : Z -> Z;
  total_frames : Z;
  free_frames : Z;
}.

Definition bm_set (bm : Z -> Z) (f : Z) : Z -> Z :=
  upd bm (Z.shiftr f 3)
    (u8 (Z.lor (bm (Z.shiftr f 3)) (u8 (Z.shiftl 1 (Z.land f 7))))).

Definition bm_clear (bm : Z -> Z) (f : Z) : Z -> Z :=
  upd bm (Z.shiftr f 3)
    (u8 (Z.land (bm (Z.shiftr f 3)) (u8 (Z.lnot (Z.shiftl 1 (Z.land f 7)))))).

Definition bm_test (bm : Z -> Z) (f : Z) : bool :=
  negb (Z.land (Z.shiftr (bm (Z.shiftr f 3)) (Z.land f 7)) 1 =? 0).

(** [bm_set(f); free_frames--] and [bm_clear(f); free_frames++]. *)
Definition take_frame (f : Z) (st : pmm) : pmm :=
  mk_pmm (bm_set (bitmap st) f) (total_frames st) (u64 (free_frames st - 1)).

Definition release_frame (f : Z) (st : pmm) : pmm :=
  mk_pmm (bm_clear (bitmap st) f) (total_frames st) (u64 (free_frames st + 1)).

Fixpoint mark_used_loop (n : nat) (f : Z) (st : pmm) : pmm :=
  match n with
  | O => st
  | S n' =>
      if MAX_FRAMES <=? f then st
      else mark_used_loop n' (f + 1)
             (if bm_test (bitmap st) f then st else take_frame f st)
  end.

Definition pmm_mark_used (phys_addr page_count : Z) (st : pmm) : pmm :=
  mark_used_loop (Z.to_nat page_count) (phys_addr / PAGE_SIZE) st.

Fixpoint mark_free_loop (n : nat) (f : Z) (st : pmm) : pmm :=
  match n with
  | O => st
  | S n' =>
      if MAX_FRAMES <=? f then st
      else mark_free_loop n' (f + 1)
             (if bm_test (bitmap st) f then release_frame f st else st)
  end.

Definition pmm_mark_free (phys_addr page_count : Z) (st : pmm) : pmm :=
  mark_free_loop (Z.to_nat page_count) (phys_addr / PAGE_SIZE) st.

Definition pmm_alloc_page (st : pmm) : Z * pmm :=
  match find_up (Z.to_nat (total_frames st - 1)) 1
          (fun i => negb (bm_test (bitmap st) i)) with
  | Some i => (u64 (i * PAGE_SIZE), take_frame i st)
  | None => (PMM_ALLOC_FAIL, st)
  end.

Definition pmm_free_page (phys_addr : Z) (st : pmm) : pmm :=
  if phys_addr =? PMM_ALLOC_FAIL then st
  else
    let frame := phys_addr / PAGE_SIZE in
    if total_frames st <=? frame then st
    else if bm_test (bitmap st) frame then release_frame frame st else st.

(** The scan of [pmm_alloc_contiguous]: [Some run_start] when a run of
    [page_count] free frames ends inside the [n] frames from [i] on. *)
Fixpoint contiguous_scan (n : nat) (i : Z) (bm : Z -> Z)
    (page_count run_start run_len : Z) : option Z :=
  match n with
  | O => None
  | S n' =>
      if negb (bm_test bm i) then
        let run_start' := if run_len =? 0 then i else run_start in
        let run_len' := run_len + 1 in
        if run_len' =? page_count then Some run_start'
        else contiguous_scan n' (i + 1) bm page_count run_start' run_len'
      else contiguous_scan n' (i + 1) bm page_count run_start 0
  end.

Definition pmm_alloc_contiguous (page_count : Z) (st : pmm) : Z * pmm :=
  if page_count =? 0 then (PMM_ALLOC_FAIL, st)
  else
    match contiguous_scan (Z.to_nat (total_frames st - 1)) 1 (bitmap st) page_count 0 0 with
    | Some run_start =>
        (u64 (run_start * PAGE_SIZE),
         mk_pmm (for_up (Z.to_nat page_count) 0
                   (fun j bm => bm_set bm (run_start + j)) (bitmap st))
           (total_frames st) (u64 (free_frames st - page_count)))
    | None => (PMM_ALLOC_FAIL, st)
    end.

Definition pmm_get_total_pages (st : pmm) : Z := total_frames st.
Definition pmm_get_free_pages (st : pmm) : Z := free_frames st.

(** One available region of the memory map: frames [[frame_start, frame_end)]. *)
Definition region_start (base : Z) : Z := u64 (base + PAGE_SIZE - 1) / PAGE_SIZE.
Definition region_end (base length : Z) : Z :=
  let e := u64 (base + length) / PAGE_SIZE in
  if MAX_FRAMES <? e then MAX_FRAMES else e.

Definition add_region (base length : Z) (st : pmm) : pmm :=
  let frame_start := region_start base in
  let frame_end := region_end base length in
  if frame_end <=? frame_start then st
  else
    let st' := for_up (Z.to_nat (frame_end - frame_start)) frame_start release_frame st in
    mk_pmm (bitmap st')
      (if total_frames st' <? frame_end then frame_end else total_frames st')
      (free_frames st').

(** The walk over the entries of the memory-map tag; [None] when the fuel
    runs out before [off] reaches the end of the tag. *)
Fixpoint mmap_loop (fuel : nat) (m : mem) (entry_base entry_size tag_data_size off : Z)
    (st : pmm) : option pmm :=
  if off <? tag_data_size then
    match fuel with
    | O => None
    | S fuel' =>
        let base := load64 m (entry_base + off) in
        let length := load64 m (entry_base + off + 8) in
        let type := load32 m (entry_base + off + 16) in
        mmap_loop fuel' m entry_base entry_size tag_data_size (u32 (off + entry_size))
          (if type =? 1 then add_region base length st else st)
    end
  else Some st.

Definition pmm_init (fuel : nat) (m : mem)
    (mmap_tag_addr mmap_tag_size kernel_start kernel_end : Z) (st : pmm) : option pmm :=
  let st0 := mk_pmm (fill (bitmap st) 0 (MAX_FRAMES / 8) 0xFF) 0 0 in
  let entry_size := load32 m (mmap_tag_addr + 8) in
  let tag_data_size := u32 (mmap_tag_size - 16) in
  let entry_base := mmap_tag_addr + 16 in
  st1 ← mmap_loop fuel m entry_base entry_size tag_data_size 0 st0;
  let st2 := pmm_mark_used 0 256 st1 in
  let ks := kernel_start / PAGE_SIZE in
  let ke := u64 (kernel_end + PAGE_SIZE - 1) / PAGE_SIZE in
  Some (pmm_mark_used (u64 (ks * PAGE_SIZE)) (u64 (ke - ks)) st2).

(** ** Bitmap lemmas *)

Lemma bm_test_bit bm f : bm_test bm f = Z.testbit (bm (Z.shiftr f 3)) (Z.land f 7).
Proof.
  unfold bm_test.
  assert (0 <= Z.land f 7) by (apply Z.land_nonneg; lia).
  change 1 with (Z.ones 1). rewrite Z.land_ones by lia. change (2 ^ 1) with 2.
  rewrite <- Z.bit0_mod, Z.shiftr_spec, Z.add_0_l by lia.
  by destruct (Z.testbit _ _).
Qed.

Lemma low3_range f : 0 <= Z.land f 7 < 8.
Proof. change 7 with (Z.ones 3). rewrite Z.land_ones by lia. apply Z.mod_pos_bound. lia. Qed.

Lemma frame_split f : f = 8 * Z.shiftr f 3 + Z.land f 7.
Proof.
  change 7 with (Z.ones 3). rewrite Z.land_ones, Z.shiftr_div_pow2 by lia.
  change (2 ^ 3) with 8. pose proof (Z.div_mod f 8 ltac:(lia)). lia.
Qed.

Lemma u8_testbit x k : 0 <= k < 8 -> Z.testbit (u8 x) k = Z.testbit x k.
Proof. intros. unfold u8. apply Z.mod_pow2_bits_low. lia. Qed.

Lemma shiftl1_testbit a k : 0 <= a -> Z.testbit (Z.shiftl 1 a) k = (a =? k).
Proof. intros. rewrite Z.shiftl_1_l. rewrite Z.pow2_bits_eqb by done. done. Qed.

Lemma bm_test_set bm f g : bm_test (bm_set bm f) g = (f =? g) || bm_test bm g.
Proof.
  rewrite !bm_test_bit. unfold bm_set, upd.
  pose proof (low3_range f). pose proof (low3_range g).
  pose proof (frame_split f). pose proof (frame_split g).
  destruct (Z.eqb_spec (Z.shiftr f 3) (Z.shiftr g 3)) as [E|E].
  - rewrite u8_testbit, Z.lor_spec, u8_testbit, shiftl1_testbit, E by lia.
    rewrite orb_comm. f_equal.
    destruct (Z.eqb_spec (Z.land f 7) (Z.land g 7)), (Z.eqb_spec f g); done || lia.
  - destruct (Z.eqb_spec f g); [congruence | done].
Qed.

Lemma bm_test_clear bm f g : bm_test (bm_clear bm f) g = negb (f =? g) && bm_test bm g.
Proof.
  rewrite !bm_test_bit. unfold bm_clear, upd.
  pose proof (low3_range f). pose proof (low3_range g).
  pose proof (frame_split f). pose proof (frame_split g).
  destruct (Z.eqb_spec (Z.shiftr f 3) (Z.shiftr g 3)) as [E|E].
  - rewrite u8_testbit, Z.land_spec, u8_testbit, Z.lnot_spec, shiftl1_testbit, E by lia.
    rewrite andb_comm. do 2 f_equal.
    destruct (Z.eqb_spec (Z.land f 7) (Z.land g 7)), (Z.eqb_spec f g); done || lia.
  - destruct (Z.eqb_spec f g); [congruence | done].
Qed.

#[export] Hint Rewrite bm_test_set bm_test_clear : aios_rw.

(** The abstract view of a bitmap: [used st f] says frame [f] is in use. *)
Definition used (st : pmm) (f : Z) : bool := bm_test (bitmap st) f.

Definition free_count (st : pmm) : Z :=
  count_up (Z.to_nat MAX_FRAMES) 0 (fun f => negb (used st f)).

(** The accounting invariant: [free_frames] is the number of clear bits. *)
Record pmm_inv (st : pmm) : Prop := {
  inv_total : 0 <= total_frames st <= MAX_FRAMES;
  inv_free : free_frames st = free_count st;
}.

Lemma free_count_range st : 0 <= free_count st <= MAX_FRAMES.
Proof. unfold free_count. pose proof (count_up_bound (Z.to_nat MAX_FRAMES) 0 (fun f => negb (used st f))). unfold MAX_FRAMES in *. lia. Qed.

Lemma free_count_ext st st' : (forall g, used st g = used st' g) -> free_count st = free_count st'.
Proof. intros H. apply count_up_ext. intros. by rewrite H. Qed.

Lemma free_count_take st f :
  0 <= f < MAX_FRAMES -> used st f = false ->
  free_count (take_frame f st) = free_count st - 1.
Proof.
  intros Hf Hu. unfold free_count.
  rewrite (count_up_flip _ 0 (fun g => negb (used st g))
             (fun g => negb (used (take_frame f st) g)) f); [lia| | | |].
  - unfold MAX_FRAMES in *. lia.
  - by rewrite Hu.
  - unfold used, take_frame; simpl. by rewrite bm_test_set, Z.eqb_refl.
  - intros j Hj. unfold used, take_frame; simpl. rewrite bm_test_set.
    destruct (Z.eqb_spec f j); [congruence | done].
Qed.

Lemma free_count_release st f :
  0 <= f < MAX_FRAMES -> used st f = true ->
  free_count (release_frame f st) = free_count st + 1.
Proof.
  intros Hf Hu. unfold free_count.
  rewrite (count_up_flip _ 0 (fun g => negb (used (release_frame f st) g))
             (fun g => negb (used st g)) f); [lia| | | |].
  - unfold MAX_FRAMES in *. lia.
  - unfold used, release_frame; simpl. by rewrite bm_test_clear, Z.eqb_refl.
  - by rewrite Hu.
  - intros j Hj. unfold used, release_frame; simpl. rewrite bm_test_clear.
    destruct (Z.eqb_spec f j); [congruence | done].
Qed.

Lemma take_inv f st :
  0 <= f < MAX_FRAMES -> used st f = false -> pmm_inv st -> pmm_inv (take_frame f st).
Proof.
  intros Hf Hu [Ht Hc]. split; [done|].
  rewrite free_count_take by done. simpl.
  pose proof (free_count_range (take_frame f st)) as Hr.
  rewrite free_count_take in Hr by done. unfold MAX_FRAMES in Hr.
  rewrite Hc, u64_small; lia.
Qed.

Lemma release_inv f st :
  0 <= f < MAX_FRAMES -> used st f = true -> pmm_inv st -> pmm_inv (release_frame f st).
Proof.
  intros Hf Hu [Ht Hc]. split; [done|].
  rewrite free_count_release by done. simpl.
  pose proof (free_count_range st) as Hr. unfold MAX_FRAMES in Hr.
  rewrite Hc, u64_small; lia.
Qed.

#[export] Hint Resolve take_inv release_inv : aios.

(** ** The operations *)

Lemma mark_used_loop_spec n f st :
  0 <= f -> pmm_inv st ->
  pmm_inv (mark_used_loop n f st) /\
  total_frames (mark_used_loop n f st) = total_frames st /\
  (forall g, 0 <= g < MAX_FRAMES ->
    used (mark_used_loop n f st) g = used st g || ((f <=? g) && (g <? f + Z.of_nat n))).
Proof.
  revert f st. induction n as [|n IH]; intros f st Hf Hi; cbn [mark_used_loop].
  - split; [done|]. split; [done|]. intros g Hg.
    destruct (Z.leb_spec f g), (Z.ltb_spec g (f + Z.of_nat 0)); simpl; try lia; by rewrite orb_false_r.
  - destruct (Z.leb_spec MAX_FRAMES f).
    + split; [done|]. split; [done|]. intros g Hg.
      destruct (Z.leb_spec f g); [lia|]. simpl. by rewrite orb_false_r.
    + set (st1 := if bm_test (bitmap st) f then st else take_frame f st).
      assert (pmm_inv st1 /\ total_frames st1 = total_frames st /\
              forall g, used st1 g = used st g || (f =? g)) as (H1 & H2 & H3).
      { unfold st1. destruct (bm_test (bitmap st) f) eqn:E.
        - split; [done|]. split; [done|]. intros g.
          destruct (Z.eqb_spec f g) as [<-|]; [|by rewrite orb_false_r].
          unfold used. by rewrite E.
        - split; [by apply take_inv|]. split; [done|]. intros g.
          unfold used, take_frame; simpl. by rewrite bm_test_set, orb_comm. }
      destruct (IH (f + 1) st1) as (I1 & I2 & I3); [lia | done |].
      split; [done|]. split; [congruence|]. intros g Hg.
      rewrite I3, H3, <- orb_assoc by done. f_equal.
      destruct (Z.eqb_spec f g), (Z.leb_spec (f + 1) g), (Z.leb_spec f g),
        (Z.ltb_spec g (f + 1 + Z.of_nat n)), (Z.ltb_spec g (f + Z.of_nat (S n))); simpl; done || lia.
Qed.

Lemma mark_free_loop_spec n f st :
  0 <= f -> pmm_inv st ->
  pmm_inv (mark_free_loop n f st) /\
  total_frames (mark_free_loop n f st) = total_frames st /\
  (forall g, 0 <= g < MAX_FRAMES ->
    used (mark_free_loop n f st) g = used st g && negb ((f <=? g) && (g <? f + Z.of_nat n))).
Proof.
  revert f st. induction n as [|n IH]; intros f st Hf Hi; cbn [mark_free_loop].
  - split; [done|]. split; [done|]. intros g Hg.
    destruct (Z.leb_spec f g), (Z.ltb_spec g (f + Z.of_nat 0)); simpl; try lia; by rewrite andb_true_r.
  - destruct (Z.leb_spec MAX_FRAMES f).
    + split; [done|]. split; [done|]. intros g Hg.
      destruct (Z.leb_spec f g); [lia|]. simpl. by rewrite andb_true_r.
    + set (st1 := if bm_test (bitmap st) f then release_frame f st else st).
      assert (pmm_inv st1 /\ total_frames st1 = total_frames st /\
              forall g, used st1 g = used st g && negb (f =? g)) as (H1 & H2 & H3).
      { unfold st1. destruct (bm_test (bitmap st) f) eqn:E.
        - split; [by apply release_inv|]. split; [done|]. intros g.
          unfold used, release_frame; simpl. by rewrite bm_test_clear, andb_comm.
        - split; [done|]. split; [done|]. intros g.
          destruct (Z.eqb_spec f g) as [<-|]; [|by rewrite andb_true_r].
          unfold used. by rewrite E. }
      destruct (IH (f + 1) st1) as (I1 & I2 & I3); [lia | done |].
      split; [done|]. split; [congruence|]. intros g Hg.
      rewrite I3, H3, <- andb_assoc by done. f_equal.
      destruct (Z.eqb_spec f g), (Z.leb_spec (f + 1) g), (Z.leb_spec f g),
        (Z.ltb_spec g (f + 1 + Z.of_nat n)), (Z.ltb_spec g (f + Z.of_nat (S n))); simpl; done || lia.
Qed.

(** The run search: what a result and a failure mean. *)
Definition free_run (bm : Z -> Z) (s n : Z) : Prop :=
  forall j, s <= j < s + n -> bm_test bm j = false.

Lemma contiguous_scan_spec n i bm cnt rs rl :
  0 < cnt -> 0 <= rl < cnt ->
  (0 < rl -> rs + rl = i) -> free_run bm (i - rl) rl ->
  match contiguous_scan n i bm cnt rs rl with
  | Some r => i - rl <= r /\ r + cnt <= i + Z.of_nat n /\ free_run bm r cnt /\
              (forall s, i - rl <= s < r -> ~ free_run bm s cnt)
  | None => forall s, i - rl <= s -> s + cnt <= i + Z.of_nat n -> ~ free_run bm s cnt
  end.
Proof.
  intros Hc. revert i rs rl. induction n as [|n IH]; intros i rs rl Hl Hrs Hrun; cbn [contiguous_scan].
  { intros s H1 H2. lia. }
  destruct (bm_test bm i) eqn:E; simpl.
  - specialize (IH (i + 1) rs 0).
    assert (forall s, i - rl <= s <= i -> ~ free_run bm s cnt) as Hno.
    { intros s Hs Hf. rewrite (Hf i) in E; [done | lia]. }
    destruct (contiguous_scan n (i + 1) bm cnt rs 0) as [r|].
    + destruct IH as (I1 & I2 & I3 & I4); [lia..| |].
      { intros j Hj. lia. }
      split; [lia|]. split; [lia|]. split; [done|]. intros s Hs.
      destruct (decide (s <= i)); [apply Hno; lia | apply I4; lia].
    + intros s H1 H2. destruct (decide (s <= i)); [apply Hno; lia|].
      apply IH; try lia. intros j Hj. lia.
  - set (rs' := if rl =? 0 then i else rs).
    assert (rs' + (rl + 1) = i + 1) as Hrs'.
    { unfold rs'. destruct (Z.eqb_spec rl 0); lia. }
    assert (free_run bm (i + 1 - (rl + 1)) (rl + 1)) as Hrun'.
    { intros j Hj. destruct (decide (j = i)) as [->|]; [done|]. apply Hrun. lia. }
    destruct (Z.eqb_spec (rl + 1) cnt) as [Heq|Hne].
    + split; [lia|]. split; [lia|]. split.
      * intros j Hj. apply Hrun'. lia.
      * intros s Hs. lia.
    + specialize (IH (i + 1) rs' (rl + 1)).
      replace (i + 1 - (rl + 1)) with (i - rl) in IH by lia.
      replace (i + 1 - (rl + 1)) with (i - rl) in Hrun' by lia.
      destruct (contiguous_scan n (i + 1) bm cnt rs' (rl + 1)) as [r|].
      * destruct IH as (I1 & I2 & I3 & I4); [lia | lia | done |].
        split; [lia|]. split; [lia|]. done.
      * intros s H1 H2. apply IH; [lia | lia | done | lia | lia].
Qed.

(** Setting a run of [n] frames one after the other. *)
Lemma set_run_test n rs bm g :
  bm_test (for_up n 0 (fun j b => bm_set b (rs + j)) bm) g =
  ((rs <=? g) && (g <? rs + Z.of_nat n)) || bm_test bm g.
Proof.
  pose proof (for_up_inv (fun i b => forall g, bm_test b g =
      ((rs <=? g) && (g <? rs + i)) || bm_test bm g) n 0
      (fun j b => bm_set b (rs + j)) bm) as H.
  rewrite Z.add_0_l in H. apply H; clear g H.
  - intros g. destruct (Z.leb_spec rs g), (Z.ltb_spec g (rs + 0)); simpl; done || lia.
  - intros j b Hj Hb g. rewrite bm_test_set, Hb, orb_assoc. f_equal.
    destruct (Z.eqb_spec (rs + j) g), (Z.leb_spec rs g), (Z.ltb_spec g (rs + j)),
      (Z.ltb_spec g (rs + (j + 1))); simpl; done || lia.
Qed.

Lemma count_up_run n i p q rs k :
  i <= rs -> rs + Z.of_nat k <= i + Z.of_nat n ->
  (forall j, rs <= j < rs + Z.of_nat k -> p j = true) ->
  (forall j, q j = p j && negb ((rs <=? j) && (j <? rs + Z.of_nat k))) ->
  count_up n i p = count_up n i q + Z.of_nat k.
Proof.
  revert q. induction k as [|k IH]; intros q H1 H2 Hp Hq.
  - rewrite (count_up_ext n i p q); [lia|]. intros j Hj. rewrite Hq.
    destruct (Z.leb_spec rs j), (Z.ltb_spec j (rs + Z.of_nat 0)); simpl; try lia; by rewrite andb_true_r.
  - set (q' := fun j => p j && negb ((rs <=? j) && (j <? rs + Z.of_nat k))).
    rewrite (IH q'); [| lia | lia | intros; apply Hp; lia | done].
    rewrite (count_up_flip n i q' q (rs + Z.of_nat k)); [lia | lia | | |].
    + unfold q'. rewrite Hp by lia.
      destruct (Z.leb_spec rs (rs + Z.of_nat k)), (Z.ltb_spec (rs + Z.of_nat k) (rs + Z.of_nat k)); simpl; done || lia.
    + rewrite Hq.
      destruct (Z.leb_spec rs (rs + Z.of_nat k)), (Z.ltb_spec (rs + Z.of_nat k) (rs + Z.of_nat (S k)));
        simpl; try lia; by rewrite andb_false_r.
    + intros j Hj. rewrite Hq. unfold q'. do 2 f_equal.
      destruct (Z.leb_spec rs j), (Z.ltb_spec j (rs + Z.of_nat k)), (Z.ltb_spec j (rs + Z.of_nat (S k)));
        simpl; done || lia.
Qed.

Lemma total_find_range st k :
  pmm_inv st -> 1 <= k < 1 + Z.of_nat (Z.to_nat (total_frames st - 1)) ->
  1 <= k < total_frames st /\ 0 <= k < MAX_FRAMES.
Proof. intros [Ht _] Hk. lia. Qed.

Lemma pmm_alloc_page_cases st :
  pmm_inv st ->
  (pmm_alloc_page st = (PMM_ALLOC_FAIL, st) /\ forall f, 1 <= f < total_frames st -> used st f = true) \/
  (exists f, 1 <= f < total_frames st /\ used st f = false /\
    (forall g, 1 <= g < f -> used st g = true) /\
    pmm_alloc_page st = (f * PAGE_SIZE, take_frame f st)).
Proof.
  intros Hi. unfold pmm_alloc_page.
  destruct (find_up _ 1 _) as [f|] eqn:E.
  - right. apply find_up_Some in E as (H1 & H2 & H3).
    destruct (total_find_range st f Hi H1) as [Hf Hm].
    exists f. split; [done|]. split; [by apply negb_true_iff in H2|]. split.
    + intros g Hg. apply negb_false_iff. by apply H3.
    + unfold PAGE_SIZE, MAX_FRAMES in *. rewrite u64_small; [done | lia].
  - left. split; [done|]. rewrite find_up_None in E. intros f Hf.
    apply negb_false_iff, E. lia.
Qed.

(** The page allocator is first-fit and complete.  It fails exactly when
    every frame above frame 0 is in use and then changes nothing; otherwise it
    returns the address of the lowest free frame, sets that one bit, and
    counts the free frames down by one. *)
Theorem pmm_alloc_page_first_fit st :
  pmm_inv st ->
  let '(p, st') := pmm_alloc_page st in
  pmm_inv st' /\ total_frames st' = total_frames st /\
  ((p = PMM_ALLOC_FAIL /\ st' = st /\ forall f, 1 <= f < total_frames st -> used st f = true) \/
   (exists f, p = f * PAGE_SIZE /\ 1 <= f < total_frames st /\ used st f = false /\
     (forall g, 1 <= g < f -> used st g = true) /\
     (forall g, used st' g = (f =? g) || used st g) /\
     free_frames st' = free_frames st - 1)).
Proof.
  intros Hi. destruct (pmm_alloc_page_cases st Hi) as [[-> Hf]|(f & Hf & Hu & Hlow & ->)].
  - split; [done|]. split; [done|]. by left.
  - assert (0 <= f < MAX_FRAMES) as Hm by (destruct Hi; lia).
    assert (pmm_inv (take_frame f st)) as Hi' by auto with aios.
    split; [done|]. split; [done|]. right. exists f.
    repeat (split; [done || lia|]). split.
    + intros g. apply bm_test_set.
    + destruct Hi as [_ Hc], Hi' as [_ Hc']. rewrite Hc', Hc. by apply free_count_take.
Qed.

(** Allocating a page and freeing it again restores every bit and the
    free count, and the next allocation returns the same page. *)
Theorem pmm_alloc_free_roundtrip st p st' :
  pmm_inv st -> pmm_alloc_page st = (p, st') -> p <> PMM_ALLOC_FAIL ->
  let st'' := pmm_free_page p st' in
  (forall g, used st'' g = used st g) /\
  free_frames st'' = free_frames st /\ total_frames st'' = total_frames st /\
  (pmm_alloc_page st'').1 = p.
Proof.
  intros Hi Ha Hp. simpl.
  destruct (pmm_alloc_page_cases st Hi) as [[E _]|(f & Hf & Hu & Hlow & E)];
    rewrite E in Ha; injection Ha as <- <-; [done|].
  assert (0 <= f < MAX_FRAMES) as Hm by (destruct Hi; lia).
  assert (pmm_free_page (f * PAGE_SIZE) (take_frame f st) = release_frame f (take_frame f st)) as ->.
  { unfold pmm_free_page. destruct (Z.eqb_spec (f * PAGE_SIZE) PMM_ALLOC_FAIL); [done|].
    replace (f * PAGE_SIZE / PAGE_SIZE) with f by (unfold PAGE_SIZE; dlia).
    simpl. destruct (Z.leb_spec (total_frames st) f); [lia|].
    by rewrite bm_test_set, Z.eqb_refl. }
  assert (forall g, used (release_frame f (take_frame f st)) g = used st g) as Hused.
  { intros g. unfold used; simpl. rewrite bm_test_clear, bm_test_set.
    destruct (Z.eqb_spec f g) as [<-|]; simpl; [|done]. by rewrite <- Hu. }
  assert (pmm_inv (release_frame f (take_frame f st))) as Hi'.
  { apply release_inv; auto with aios. unfold used; simpl. by rewrite bm_test_set, Z.eqb_refl. }
  split; [done|]. split.
  - destruct Hi as [_ Hc], Hi' as [_ Hc']. rewrite Hc', Hc.
    apply count_up_ext. intros. by rewrite Hused.
  - split; [done|]. unfold pmm_alloc_page.
    rewrite (find_up_first _ 1 _ f); simpl.
    + unfold PAGE_SIZE, MAX_FRAMES in *. rewrite u64_small; [done | lia].
    + lia.
    + change (negb (used (release_frame f (take_frame f st)) f) = true). by rewrite Hused, Hu.
    + intros j Hj. change (negb (used (release_frame f (take_frame f st)) j) = false).
      by rewrite Hused, Hlow.
Qed.

(** The contiguous allocator finds the lowest run of [n] free frames in
    [[1, total)] if there is one and fails otherwise; on success exactly the
    frames of that run become used and the count drops by [n]. *)
Theorem pmm_alloc_contiguous_first_fit n st :
  pmm_inv st -> 0 < n ->
  let '(p, st') := pmm_alloc_contiguous n st in
  pmm_inv st' /\ total_frames st' = total_frames st /\
  ((p = PMM_ALLOC_FAIL /\ st' = st /\
    forall s, 1 <= s -> s + n <= total_frames st -> ~ free_run (bitmap st) s n) \/
   (exists s, p = s * PAGE_SIZE /\ 1 <= s /\ s + n <= total_frames st /\
     free_run (bitmap st) s n /\ (forall s', 1 <= s' < s -> ~ free_run (bitmap st) s' n) /\
     (forall g, used st' g = ((s <=? g) && (g <? s + n)) || used st g) /\
     free_frames st' = free_frames st - n)).
Proof.
  intros Hi Hn. unfold pmm_alloc_contiguous. destruct (Z.eqb_spec n 0); [lia|].
  pose proof (contiguous_scan_spec (Z.to_nat (total_frames st - 1)) 1 (bitmap st) n 0 0
                Hn ltac:(lia) ltac:(lia) ltac:(intros j Hj; lia)) as Hs.
  destruct (contiguous_scan _ _ _ _ _ _) as [s|].
  - destruct Hs as (H1 & H2 & H3 & H4).
    assert (s + n <= total_frames st) as He by lia.
    assert (1 <= s) as Hs1 by lia. clear H1 H2.
    pose proof (inv_total st Hi) as Ht.
    set (bm' := for_up _ _ _ _).
    assert (forall g, bm_test bm' g = ((s <=? g) && (g <? s + n)) || used st g) as Hbm.
    { intros g. unfold bm'. rewrite set_run_test, Z2Nat.id by lia. done. }
    assert (free_count (mk_pmm bm' (total_frames st) (u64 (free_frames st - n))) = free_count st - n) as Hfc.
    { unfold free_count. rewrite (count_up_run _ 0 (fun f => negb (used st f))
        (fun f => negb (bm_test bm' f)) s (Z.to_nat n)).
      - unfold used at 1. cbn [bitmap]. lia.
      - lia.
      - unfold MAX_FRAMES in *. lia.
      - intros j Hj. unfold used. rewrite H3 by lia. done.
      - intros j. rewrite Hbm, negb_orb, andb_comm. by rewrite Z2Nat.id by lia. }
    pose proof (free_count_range (mk_pmm bm' (total_frames st) (u64 (free_frames st - n)))) as Hr.
    pose proof (free_count_range st) as Hr0. unfold MAX_FRAMES in Hr, Hr0, Ht.
    destruct Hi as [_ Hc].
    assert (u64 (free_frames st - n) = free_frames st - n) as Hu by (apply u64_small; lia).
    split. { split; [done|]. rewrite Hfc. simpl. lia. }
    split; [done|]. right. exists s.
    split; [unfold PAGE_SIZE; rewrite u64_small; lia|].
    split; [done|]. split; [done|]. split; [done|].
    split; [intros; apply H4; lia|]. split; [done|]. cbn [free_frames]. lia.
  - split; [done|]. split; [done|]. left. split; [done|]. split; [done|].
    intros s H1 H2. apply Hs; lia.
Qed.

(** Marking and freeing keep the accounting invariant: [free_frames] stays
    the exact number of clear bits, each operation changes only the frames it
    names, and freeing an address outside the managed range does nothing. *)
Theorem pmm_mark_free_invariant st addr count :
  pmm_inv st -> 0 <= addr ->
  (pmm_inv (pmm_mark_used addr count st) /\
   forall g, 0 <= g < MAX_FRAMES -> used (pmm_mark_used addr count st) g =
     used st g || ((addr / PAGE_SIZE <=? g) && (g <? addr / PAGE_SIZE + Z.max 0 count))) /\
  (pmm_inv (pmm_mark_free addr count st) /\
   forall g, 0 <= g < MAX_FRAMES -> used (pmm_mark_free addr count st) g =
     used st g && negb ((addr / PAGE_SIZE <=? g) && (g <? addr / PAGE_SIZE + Z.max 0 count))) /\
  (pmm_inv (pmm_free_page addr st) /\
   (total_frames st * PAGE_SIZE <= addr -> pmm_free_page addr st = st) /\
   (forall g, g <> addr / PAGE_SIZE -> used (pmm_free_page addr st) g = used st g)).
Proof.
  intros Hi Ha.
  assert (0 <= addr / PAGE_SIZE) as Hf by (apply Z.div_pos; unfold PAGE_SIZE; lia).
  split; [|split].
  - destruct (mark_used_loop_spec (Z.to_nat count) (addr / PAGE_SIZE) st Hf Hi) as (H1 & _ & H3).
    split; [done|]. intros g Hg. unfold pmm_mark_used. rewrite H3 by done. do 3 f_equal. lia.
  - destruct (mark_free_loop_spec (Z.to_nat count) (addr / PAGE_SIZE) st Hf Hi) as (H1 & _ & H3).
    split; [done|]. intros g Hg. unfold pmm_mark_free. rewrite H3 by done. do 4 f_equal. lia.
  - unfold pmm_free_page. destruct (addr =? PMM_ALLOC_FAIL); [done|].
    destruct (Z.leb_spec (total_frames st) (addr / PAGE_SIZE)); [done|].
    destruct (bm_test (bitmap st) (addr / PAGE_SIZE)) eqn:E; [|done].
    pose proof (inv_total st Hi).
    split; [apply release_inv; [lia | done | done]|]. split.
    + intros Hlt. unfold PAGE_SIZE in *. dlia.
    + intros g Hg. unfold used; simpl. rewrite bm_test_clear.
      destruct (Z.eqb_spec (addr / PAGE_SIZE) g); [congruence | done].
Qed.

(** ** Boot-time initialisation *)

Lemma region_bounds base length : 0 <= region_start base /\ region_end base length <= MAX_FRAMES.
Proof.
  unfold region_start, region_end, PAGE_SIZE. split.
  - apply Z.div_pos; [apply u64_range | lia].
  - zcase; lia.
Qed.

(** The loop [for (f = s; f < s + n; f++) { bm_clear(f); free_frames++; }]. *)
Lemma release_loop_spec n s st :
  let st' := for_up n s release_frame st in
  total_frames st' = total_frames st /\
  (forall g, used st' g = used st g && negb ((s <=? g) && (g <? s + Z.of_nat n))) /\
  (0 <= s -> s + Z.of_nat n <= MAX_FRAMES ->
   (forall g, s <= g < s + Z.of_nat n -> used st g = true) -> pmm_inv st -> pmm_inv st') /\
  free_frames st' = (if decide (n = 0%nat) then free_frames st else u64 (free_frames st + Z.of_nat n)).
Proof.
  revert s st. induction n as [|n IH]; intros s st; cbn [for_up].
  - split; [done|]. split; [|split; [done|]]; [|by case_decide].
    intros g. destruct (Z.leb_spec s g), (Z.ltb_spec g (s + Z.of_nat 0)); simpl; try lia; by rewrite andb_true_r.
  - destruct (IH (s + 1) (release_frame s st)) as (I1 & I2 & I3 & I4).
    assert (forall g, used (release_frame s st) g = used st g && negb (s =? g)) as Hr.
    { intros g. unfold used; simpl. by rewrite bm_test_clear, andb_comm. }
    split; [by rewrite I1|]. split; [|split].
    + intros g. rewrite I2, Hr, <- andb_assoc. f_equal.
      destruct (Z.eqb_spec s g), (Z.leb_spec (s + 1) g), (Z.leb_spec s g),
        (Z.ltb_spec g (s + 1 + Z.of_nat n)), (Z.ltb_spec g (s + Z.of_nat (S n))); simpl; done || lia.
    + intros H1 H2 Hu Hi. apply I3; [lia | lia | |].
      * intros g Hg. rewrite Hr, Hu by lia. destruct (Z.eqb_spec s g); done || lia.
      * apply release_inv; [lia | apply Hu; lia | done].
    + rewrite I4. cbn [free_frames release_frame]. rewrite (decide_False (P := S n = 0%nat)) by done.
      case_decide; [by subst|]. unfold u64. rewrite Zplus_mod_idemp_l. f_equal. lia.
Qed.

Definition in_region (base length g : Z) : bool :=
  (region_start base <=? g) && (g <? region_end base length).

Lemma in_region_frame base length g : in_region base length g = true -> 0 <= g < MAX_FRAMES.
Proof.
  intros H. unfold in_region in H. b2p. pose proof (region_bounds base length). lia.
Qed.

Lemma add_region_spec base length st :
  0 <= total_frames st <= MAX_FRAMES ->
  let st' := add_region base length st in
  0 <= total_frames st' <= MAX_FRAMES /\
  (forall g, used st' g = used st g && negb (in_region base length g)) /\
  ((forall g, in_region base length g = true -> used st g = true) -> pmm_inv st -> pmm_inv st').
Proof.
  intros Ht. destruct (region_bounds base length) as [Hs He].
  unfold add_region, in_region.
  destruct (Z.leb_spec (region_end base length) (region_start base)).
  - split; [done|]. split; [|done]. intros g.
    destruct (Z.leb_spec (region_start base) g), (Z.ltb_spec g (region_end base length));
      simpl; try lia; by rewrite andb_true_r.
  - destruct (release_loop_spec (Z.to_nat (region_end base length - region_start base))
                (region_start base) st) as (I1 & I2 & I3 & _).
    rewrite Z2Nat.id, Zplus_minus in I2, I3 by lia.
    cbn [total_frames]. rewrite I1. split; [zcase; lia|]. split; [done|].
    intros Hu Hi. destruct I3 as [_ Hc]; [done | done | | done |].
    + intros g Hg. apply Hu. destruct (Z.leb_spec (region_start base) g),
        (Z.ltb_spec g (region_end base length)); done || lia.
    + split; [cbn [total_frames]; zcase; lia|].
      cbn [free_frames]. rewrite Hc. by apply free_count_ext.
Qed.

(** The map: entry [k] of the tag covers frame [f]. *)
Definition covers (m : mem) (eb esz k f : Z) : bool :=
  (load32 m (eb + k * esz + 16) =? 1) &&
  in_region (load64 m (eb + k * esz)) (load64 m (eb + k * esz + 8)) f.

Definition disjoint_map (m : mem) (eb esz size : Z) : Prop :=
  forall j k f, 0 <= j < k -> k * esz < size -> covers m eb esz j f = true -> covers m eb esz k f = false.

Lemma mmap_loop_spec fuel m eb esz size k st :
  0 < esz -> 0 <= k -> size + esz <= 2 ^ 32 -> size < (k + Z.of_nat fuel) * esz + 1 ->
  disjoint_map m eb esz size ->
  pmm_inv st ->
  (forall f, 0 <= f < MAX_FRAMES -> used st f = false <->
     exists j, 0 <= j < k /\ j * esz < size /\ covers m eb esz j f = true) ->
  k * esz <= size + esz ->
  exists st', mmap_loop fuel m eb esz size (k * esz) st = Some st' /\ pmm_inv st' /\
    (forall f, 0 <= f < MAX_FRAMES -> used st' f = false <->
      exists j, 0 <= j /\ j * esz < size /\ covers m eb esz j f = true).
Proof.
  intros Hesz. revert k st. induction fuel as [|fuel IH]; intros k st Hk Hsz Hf Hd Hi Hu Hke; cbn [mmap_loop].
  - destruct (Z.ltb_spec (k * esz) size); [lia|].
    exists st. split; [done|]. split; [done|]. intros f Hfr. rewrite Hu by done.
    split; intros (j & H1 & H2 & H3); exists j; (split; [nia|done]).
  - destruct (Z.ltb_spec (k * esz) size) as [Hlt|Hge].
    + set (st1 := if _ =? 1 then _ else _).
      assert (forall f, used st1 f = used st f && negb (covers m eb esz k f)) as H1.
      { intros f. unfold st1, covers. destruct (_ =? 1); simpl; [|by rewrite andb_true_r].
        apply add_region_spec, Hi. }
      assert (pmm_inv st1) as H2.
      { unfold st1. destruct (_ =? 1) eqn:E; [|done].
        apply add_region_spec; [apply Hi | | done]. intros g Hg.
        apply not_false_iff_true. rewrite Hu by (by eapply in_region_frame). intros (j & Hj1 & Hj2 & Hj3).
        specialize (Hd j k g Hj1 Hlt Hj3). unfold covers in Hd. rewrite E, Hg in Hd. done. }
      rewrite u32_small by nia.
      replace (k * esz + esz) with ((k + 1) * esz) by lia.
      apply IH; [lia | lia | nia | done | done | | nia].
      intros f Hfr. rewrite H1, andb_false_iff, negb_false_iff, Hu by done. split.
      * intros [(j & A & B & C)|C]; [exists j | exists k]; repeat split; done || lia.
      * intros (j & A & B & C). destruct (decide (j = k)) as [->|]; [by right|].
        left. exists j. split; [lia | done].
    + exists st. split; [done|]. split; [done|]. intros f Hfr. rewrite Hu by done.
      split; intros (j & A & B & C); exists j; [split; [lia|done]|]. split; [nia | done].
Qed.

Lemma all_used_test g : bm_test (fun _ => 255) g = true.
Proof.
  rewrite bm_test_bit. change 255 with (Z.ones 8). pose proof (low3_range g).
  apply Z.ones_spec_low. lia.
Qed.

Lemma fill_used bm g :
  0 <= g < MAX_FRAMES -> bm_test (fill bm 0 (MAX_FRAMES / 8) 0xFF) g = true.
Proof.
  intros Hg. rewrite bm_test_bit. pose proof (frame_split g). pose proof (low3_range g).
  unfold fill. change (MAX_FRAMES / 8) with 131072. unfold MAX_FRAMES in *.
  destruct (Z.leb_spec 0 (Z.shiftr g 3)), (Z.ltb_spec (Z.shiftr g 3) (0 + 131072)); simpl; try lia.
  change 255 with (Z.ones 8). apply Z.ones_spec_low. lia.
Qed.

Lemma free_count_zero st : (forall g, 0 <= g < MAX_FRAMES -> used st g = true) -> free_count st = 0.
Proof.
  intros H. apply count_up_zero. intros j Hj. rewrite H; [done|]. unfold MAX_FRAMES in *. lia.
Qed.

Lemma in_range_iff a b x : ((a <=? x) && (x <? b)) = true <-> a <= x < b.
Proof. destruct (Z.leb_spec a x), (Z.ltb_spec x b); simpl; split; done || lia. Qed.

(** What the boot-time scan leaves. *)
Lemma pmm_init_ok fuel m tag size ks ke st :
  let esz := load32 m (tag + 8) in
  bytes_ok m -> 0 < esz -> 16 <= size < 2 ^ 32 -> size - 16 + esz <= 2 ^ 32 ->
  size - 16 <= Z.of_nat fuel * esz ->
  disjoint_map m (tag + 16) esz (size - 16) ->
  0 <= ks <= ke -> ke < 2 ^ 63 ->
  exists st', pmm_init fuel m tag size ks ke st = Some st' /\ pmm_inv st' /\
    forall f, 0 <= f < MAX_FRAMES ->
      (used st' f = false <->
       (exists k, 0 <= k /\ k * esz < size - 16 /\ covers m (tag + 16) esz k f = true) /\
       256 <= f /\ ~ (ks / PAGE_SIZE <= f < (ke + PAGE_SIZE - 1) / PAGE_SIZE)).
Proof.
  intros esz Hb Hesz Hsz Hsz2 Hfuel Hd Hk Hke. unfold pmm_init. fold esz.
  set (st0 := mk_pmm _ 0 0).
  assert (pmm_inv st0) as Hi0.
  { split; [unfold MAX_FRAMES; simpl; lia|]. rewrite free_count_zero; [done|].
    intros g Hg. by apply fill_used. }
  rewrite (u32_small (size - 16)) by lia.
  destruct (mmap_loop_spec fuel m (tag + 16) esz (size - 16) 0 st0)
    as (st1 & E & Hi1 & Hu1); [done | lia | lia | lia | done | done | | lia |].
  { intros f Hf. split; [|intros (j & ? & _); lia]. intros H.
    unfold used in H. simpl in H. by rewrite fill_used in H. }
  rewrite Z.mul_0_l in E. rewrite E. simpl.
  destruct (mark_used_loop_spec (Z.to_nat 256) (0 / PAGE_SIZE) st1) as (Hi2 & _ & Hu2);
    [done | done|].
  assert (0 <= ks / PAGE_SIZE) as Hksp by (apply Z.div_pos; unfold PAGE_SIZE; lia).
  assert (u64 (ks / PAGE_SIZE * PAGE_SIZE) / PAGE_SIZE = ks / PAGE_SIZE) as Hks.
  { rewrite u64_small; unfold PAGE_SIZE in *; dlia. }
  assert (u64 (u64 (ke + PAGE_SIZE - 1) / PAGE_SIZE - ks / PAGE_SIZE) =
          (ke + PAGE_SIZE - 1) / PAGE_SIZE - ks / PAGE_SIZE) as Hcnt.
  { rewrite (u64_small (ke + _ - 1)) by (unfold PAGE_SIZE; lia).
    rewrite u64_small; unfold PAGE_SIZE in *; dlia. }
  rewrite Hcnt. unfold pmm_mark_used at 1. rewrite Hks.
  destruct (mark_used_loop_spec (Z.to_nat ((ke + PAGE_SIZE - 1) / PAGE_SIZE - ks / PAGE_SIZE))
              (ks / PAGE_SIZE) (pmm_mark_used 0 256 st1)) as (Hi3 & _ & Hu3); [done | done |].
  eexists. split; [done|]. split; [done|]. intros f Hf.
  rewrite Hu3 by done. rewrite Z2Nat.id by (unfold PAGE_SIZE in *; dlia).
  unfold pmm_mark_used. rewrite Hu2 by done. change (0 / PAGE_SIZE) with 0.
  change (Z.of_nat (Z.to_nat 256)) with 256.
  rewrite !orb_false_iff, Hu1 by done. rewrite Zplus_minus.
  pose proof (in_range_iff 0 (0 + 256) f) as R1.
  pose proof (in_range_iff (ks / PAGE_SIZE) ((ke + PAGE_SIZE - 1) / PAGE_SIZE) f) as R2.
  rewrite <- !not_true_iff_false, R1, R2. intuition lia.
Qed.

(** C4: boot initialisation.  For a well-formed memory map whose available
    regions do not overlap, [pmm_init] terminates (one unit of fuel per entry
    and one more is enough); afterwards a frame is free exactly when it lies
    in an available region, above the low 1 MB and outside the kernel image,
    and [free_frames] is the exact number of free frames. *)
Theorem pmm_init_correct fuel m tag size ks ke st :
  let esz := load32 m (tag + 8) in
  bytes_ok m -> 0 < esz -> 16 <= size < 2 ^ 32 -> size - 16 + esz <= 2 ^ 32 ->
  size - 16 <= Z.of_nat fuel * esz ->
  disjoint_map m (tag + 16) esz (size - 16) ->
  0 <= ks <= ke -> ke < 2 ^ 63 ->
  exists st', pmm_init fuel m tag size ks ke st = Some st' /\ pmm_inv st' /\
    forall f, 0 <= f < MAX_FRAMES ->
      (used st' f = false <->
       (exists k, 0 <= k /\ k * esz < size - 16 /\ covers m (tag + 16) esz k f = true) /\
       256 <= f /\ ~ (ks / PAGE_SIZE <= f < (ke + PAGE_SIZE - 1) / PAGE_SIZE)).
Proof. apply pmm_init_ok. Qed.

(** [pmm_init] counts a frame once per available region that covers it.
    When the frames of a region are already free, adding the region changes no
    bit but raises [free_frames], so overlapping entries of the firmware map
    leave the counter above the true number of free frames. *)
Theorem add_region_overlap_miscounts base length st :
  pmm_inv st -> region_start base < region_end base length ->
  (forall g, in_region base length g = true -> used st g = false) ->
  let st' := add_region base length st in
  (forall g, used st' g = used st g) /\
  free_frames st' = free_count st' + (region_end base length - region_start base) /\
  ~ pmm_inv st'.
Proof.
  intros Hi Hlt Hfree. simpl.
  destruct (add_region_spec base length st) as (_ & Hu & _); [apply Hi|].
  destruct (region_bounds base length) as [Hs He].
  assert (forall g, used (add_region base length st) g = used st g) as Hsame.
  { intros g. rewrite Hu. destruct (in_region base length g) eqn:E; simpl; [|by rewrite andb_true_r].
    by rewrite Hfree. }
  assert (free_frames (add_region base length st) =
          free_count st + (region_end base length - region_start base)) as Hc.
  { unfold add_region. destruct (Z.leb_spec (region_end base length) (region_start base)); [lia|].
    cbn [free_frames].
    destruct (release_loop_spec (Z.to_nat (region_end base length - region_start base))
                (region_start base) st) as (_ & _ & _ & ->).
    rewrite decide_False by lia. rewrite (inv_free _ Hi).
    pose proof (free_count_range st). unfold MAX_FRAMES in *. rewrite u64_small; lia. }
  split; [done|].
  rewrite (free_count_ext (add_region base length st) st) by done.
  split; [done|]. intros [_ Hbad]. rewrite (free_count_ext _ st) in Hbad by done. lia.
Qed.

(** ** Concrete instances *)

(** 512 managed frames of which 260 and 261 are free. *)
Definition demo : pmm :=
  release_frame 260 (release_frame 261 (mk_pmm (fun _ => 255) 512 0)).

Lemma demo_inv : pmm_inv demo.
Proof.
  apply release_inv; [unfold MAX_FRAMES; lia | reflexivity |].
  apply release_inv; [unfold MAX_FRAMES; lia | reflexivity |].
  split; [unfold MAX_FRAMES; simpl; lia|].
  rewrite free_count_zero; [done|]. intros. apply all_used_test.
Qed.

Lemma pmm_alloc_page_first_fit_witness :
  pmm_inv demo /\ pmm_inv (pmm_alloc_page demo).2 /\ (pmm_alloc_page demo).1 = 260 * PAGE_SIZE.
Proof.
  split; [exact demo_inv|]. pose proof (pmm_alloc_page_first_fit demo demo_inv) as H.
  split; [exact (proj1 H) | reflexivity].
Defined.

Lemma pmm_alloc_free_roundtrip_witness :
  (pmm_alloc_page (pmm_free_page (260 * PAGE_SIZE) (take_frame 260 demo))).1 = 260 * PAGE_SIZE.
Proof.
  pose proof (pmm_alloc_free_roundtrip demo (260 * PAGE_SIZE) (take_frame 260 demo) demo_inv
    ltac:(vm_compute; reflexivity) ltac:(vm_compute; discriminate)) as (_ & _ & _ & H).
  exact H.
Defined.

Lemma pmm_alloc_contiguous_first_fit_witness :
  pmm_inv (pmm_alloc_contiguous 2 demo).2 /\ (pmm_alloc_contiguous 2 demo).1 = 260 * PAGE_SIZE.
Proof.
  pose proof (pmm_alloc_contiguous_first_fit 2 demo demo_inv ltac:(lia)) as H.
  split; [exact (proj1 H) | reflexivity].
Defined.

Lemma pmm_mark_free_invariant_witness :
  pmm_inv demo /\ pmm_inv (pmm_mark_used (260 * PAGE_SIZE) 1 demo).
Proof.
  split; [exact demo_inv|].
  exact (proj1 (proj1 (pmm_mark_free_invariant demo (260 * PAGE_SIZE) 1 demo_inv ltac:(vm_compute; discriminate)))).
Defined.

(** A boot map with one available region of eight pages at 1 MB. *)
Definition demo_map : mem :=
  store32 (store64 (store64 (store32 (fun _ => 0) 0x9008 24) 0x9010 0x100000) 0x9018 0x8000) 0x9020 1.

Lemma pmm_init_correct_witness :
  let r := pmm_init 2 demo_map 0x9000 40 0x100000 0x102000 (mk_pmm (fun _ => 0) 0 0) in
  (exists st', r = Some st' /\ pmm_inv st') /\
  match r with
  | Some st' => used st' 258 = false /\ used st' 257 = true /\ free_frames st' = 6
  | None => False
  end.
Proof.
  assert (load32 demo_map (0x9000 + 8) = 24) as Hesz by reflexivity.
  split; [|vm_compute; auto].
  destruct (pmm_init_correct 2 demo_map 0x9000 40 0x100000 0x102000 (mk_pmm (fun _ => 0) 0 0))
    as (st' & E & Hi & _); rewrite ?Hesz; try lia.
  - repeat apply store_le_bytes_ok. intros a. lia.
  - intros j k f Hjk Hk. lia.
  - exists st'. exact (conj E Hi).
Defined.

Lemma add_region_overlap_miscounts_witness :
  ~ pmm_inv (add_region (260 * PAGE_SIZE) (2 * PAGE_SIZE) demo).
Proof.
  apply (add_region_overlap_miscounts (260 * PAGE_SIZE) (2 * PAGE_SIZE) demo demo_inv).
  - vm_compute. reflexivity.
  - intros g Hg. unfold in_region in Hg. apply in_range_iff in Hg.
    change (260 <= g < 262) in Hg.
    assert (g = 260 \/ g = 261) as [-> | ->] by lia; reflexivity.
Defined.
