(* ===== verification/Alloc.v ===== *)
(** The allocator interface: what kernel/heap.c promises to its clients
    (kernel/task.c, kernel/gui/window.c, kernel/apps/notepad.c).  The clients
    are verified against the class; Heap.v provides the instance. *)

From S2P Require Import Prelude Memory.
Local Open Scope Z_scope.

(** The operations a client calls, and the memory it reads and writes. *)
Class Allocator (A : Type) := {
  a_alloc : Z -> A -> option (Z * A);
  a_free : Z -> A -> option A;
  a_mem : A -> mem;
  a_set_mem : A -> mem -> A;
}.

(** [a_owns s p n]: [p] is a live allocation of at least [n] bytes. *)
Class AllocatorSpec (A : Type) `{Allocator A} := {
  a_inv : A -> Prop;
  a_owns : A -> Z -> Z -> Prop;
  a_max : Z;
  a_max_bound : 2 ^ 31 <= a_max;
  a_owns_range s p n : a_inv s -> a_owns s p n -> 0 < p /\ p + n < 2 ^ 63 /\ p mod 16 = 0;
  a_alloc_spec n s :
    a_inv s -> 0 < n <= a_max ->
    exists p s', a_alloc n s = Some (p, s') /\ a_inv s' /\
      (p = 0 -> s' = s) /\
      (p <> 0 -> a_owns s' p n /\
        forall q k, a_owns s q k -> 0 <= k ->
          a_owns s' q k /\ (p + n <= q \/ q + k <= p) /\ agree (a_mem s) (a_mem s') q k);
  a_free_spec p n s :
    a_inv s -> a_owns s p n ->
    exists s', a_free p s = Some s' /\ a_inv s' /\
      forall q k, a_owns s q k -> q <> p -> 0 <= k -> a_owns s' q k /\ agree (a_mem s) (a_mem s') q k;
  a_write_spec p n s m' :
    a_inv s -> a_owns s p n ->
    (forall x, ~ (p <= x < p + n) -> m' x = a_mem s x) ->
    a_inv (a_set_mem s m') /\ (forall q k, a_owns s q k -> a_owns (a_set_mem s m') q k);
  a_mem_set_mem s m' : a_mem (a_set_mem s m') = m';
}.
