(* ===== verification/Heap.v ===== *)
(** Kernel heap (kernel/heap.c): the first-fit free-list allocator whose block
    headers live in memory, with splitting, coalescing, aligned allocation and
    reallocation.  The concrete operations walk the headers in byte memory;
    the abstract specification is a list of blocks that tiles the heap. *)

From S2P Require Import Prelude Memory Alloc.
Local Open Scope Z_scope.

Definition HEADER_SIZE : Z := 32.  (* size 8, free 4, magic 4, next 8; aligned(16) *)
Definition MIN_SPLIT : Z := HEADER_SIZE + 16.
Definition HEAP_MAGIC : Z := 0xA110C8ED.

(** The header fields of the block at [p]. *)
Definition hsize (m : mem) (p : Z) : Z := load64 m p.
Definition hfree (m : mem) (p : Z) : Z := load32 m (p + 8).
Definition hmagic (m : mem) (p : Z) : Z := load32 m (p + 12).
Definition hnext (m : mem) (p : Z) : Z := load64 m (p + 16).

Definition set_hsize (m : mem) (p v : Z) : mem := store64 m p v.
Definition set_hfree (m : mem) (p v : Z) : mem := store32 m (p + 8) v.
Definition set_hmagic (m : mem) (p v : Z) : mem := store32 m (p + 12) v.
Definition set_hnext (m : mem) (p v : Z) : mem := store64 m (p + 16) v.

(** The memory and the two statics of heap.c. *)
Record heap := mk_heap { hmem : mem; heap_head : Z; heap_total : Z }.

Definition set_mem (h : heap) (m : mem) : heap := mk_heap m (heap_head h) (heap_total h).

(** Fuel for a walk over the blocks: each block has a header of its own. *)
Definition heap_fuel (h : heap) : nat := Z.to_nat (heap_total h / HEADER_SIZE + 1).

Definition heap_init (heap_start heap_size : Z) (m : mem) : heap :=
  let p := heap_start in
  let m := set_hsize m p (u64 (heap_size - HEADER_SIZE)) in
  let m := set_hfree m p 1 in
  let m := set_hmagic m p HEAP_MAGIC in
  let m := set_hnext m p 0 in
  mk_heap m p heap_size.

Definition kmemset (m : mem) (dst val n : Z) : mem := set_up (Z.to_nat n) m dst (u8 val).

Definition kmemcpy (m : mem) (dst src n : Z) : mem := copy_up (Z.to_nat n) m dst src.

Fixpoint kmemcmp_loop (n : nat) (m : mem) (a b : Z) : Z :=
  match n with
  | O => 0
  | S n' => if m a =? m b then kmemcmp_loop n' m (a + 1) (b + 1) else m a - m b
  end.

Definition kmemcmp (m : mem) (a b n : Z) : Z := kmemcmp_loop (Z.to_nat n) m a b.

Fixpoint coalesce_loop (fuel : nat) (m : mem) (cur : Z) : option mem :=
  if (cur =? 0) || (hnext m cur =? 0) then Some m
  else
    match fuel with
    | O => None
    | S fuel' =>
        let next := hnext m cur in
        if negb (hfree m cur =? 0) && negb (hfree m next =? 0)
           && (hmagic m next =? HEAP_MAGIC)
        then
          let m1 := set_hsize m cur (u64 (hsize m cur + u64 (HEADER_SIZE + hsize m next))) in
          let m2 := set_hnext m1 cur (hnext m1 (hnext m1 cur)) in
          coalesce_loop fuel' m2 cur
        else coalesce_loop fuel' m next
    end.

Definition coalesce (h : heap) : option heap :=
  m ← coalesce_loop (heap_fuel h) (hmem h) (heap_head h);
  Some (set_mem h m).

(** [size = (size + 15u) & ~15u]: the mask [~15u] is a 32-bit constant, so the
    conjunction also clears bits 32 to 63 of the 64-bit size. *)
Definition round16 (size : Z) : Z := Z.land (u64 (size + 15)) (u32 (Z.lnot 15)).

Definition split_block (m : mem) (cur size : Z) : mem :=
  let nb := cur + HEADER_SIZE + size in
  let m := set_hsize m nb (u64 (hsize m cur - size - HEADER_SIZE)) in
  let m := set_hfree m nb 1 in
  let m := set_hmagic m nb HEAP_MAGIC in
  let m := set_hnext m nb (hnext m cur) in
  let m := set_hnext m cur nb in
  set_hsize m cur size.

Fixpoint kmalloc_loop (fuel : nat) (m : mem) (cur size : Z) : option (mem * Z) :=
  if cur =? 0 then Some (m, 0)
  else
    match fuel with
    | O => None
    | S fuel' =>
        if negb (hfree m cur =? 0) && (hmagic m cur =? HEAP_MAGIC) && (size <=? hsize m cur)
        then
          let m1 := if u64 (size + MIN_SPLIT) <=? hsize m cur then split_block m cur size else m in
          Some (set_hfree m1 cur 0, cur + HEADER_SIZE)
        else kmalloc_loop fuel' m (hnext m cur) size
    end.

Definition kmalloc (size : Z) (h : heap) : option (Z * heap) :=
  if size =? 0 then Some (0, h)
  else
    '(m, p) ← kmalloc_loop (heap_fuel h) (hmem h) (heap_head h) (round16 size);
    Some (p, set_mem h m).

Definition kfree (ptr : Z) (h : heap) : option heap :=
  if ptr =? 0 then Some h
  else
    let blk := ptr - HEADER_SIZE in
    if negb (hmagic (hmem h) blk =? HEAP_MAGIC) then Some h
    else if negb (hfree (hmem h) blk =? 0) then Some h
    else coalesce (set_mem h (set_hfree (hmem h) blk 1)).

Definition kcalloc (count elem_size : Z) (h : heap) : option (Z * heap) :=
  let total := u64 (count * elem_size) in
  '(ptr, h1) ← kmalloc total h;
  if ptr =? 0 then Some (ptr, h1)
  else Some (ptr, set_mem h1 (kmemset (hmem h1) ptr 0 total)).

Definition kmalloc_aligned (size alignment : Z) (h : heap) : option (Z * heap) :=
  if (alignment =? 0) || negb (Z.land alignment (alignment - 1) =? 0) then Some (0, h)
  else
    let alignment := if alignment <? 8 then 8 else alignment in
    '(raw, h1) ← kmalloc (u64 (size + alignment + 8)) h;
    if raw =? 0 then Some (0, h1)
    else
      let aligned := Z.land (u64 (raw + 8 + alignment - 1)) (u64 (Z.lnot (alignment - 1))) in
      Some (aligned, set_mem h1 (store64 (hmem h1) (aligned - 8) raw)).

Definition kfree_aligned (aligned_ptr : Z) (h : heap) : option heap :=
  if aligned_ptr =? 0 then Some h
  else kfree (load64 (hmem h) (aligned_ptr - 8)) h.

Definition krealloc (ptr new_size : Z) (h : heap) : option (Z * heap) :=
  if ptr =? 0 then kmalloc new_size h
  else if new_size =? 0 then h1 ← kfree ptr h; Some (0, h1)
  else
    let blk := ptr - HEADER_SIZE in
    if negb (hmagic (hmem h) blk =? HEAP_MAGIC) then Some (0, h)
    else if new_size <=? hsize (hmem h) blk then Some (ptr, h)
    else
      '(np, h1) ← kmalloc new_size h;
      if np =? 0 then Some (0, h1)
      else
        let h2 := set_mem h1 (kmemcpy (hmem h1) np ptr (hsize (hmem h1) blk)) in
        h3 ← kfree ptr h2;
        Some (np, h3).

Fixpoint heap_stats_loop (fuel : nat) (m : mem) (cur : Z) (free used blocks : Z) : option (Z * Z * Z) :=
  if cur =? 0 then Some (free, used, blocks)
  else
    match fuel with
    | O => None
    | S fuel' =>
        if negb (hfree m cur =? 0)
        then heap_stats_loop fuel' m (hnext m cur) (u64 (free + hsize m cur)) used (blocks + 1)
        else heap_stats_loop fuel' m (hnext m cur) free (u64 (used + hsize m cur)) (blocks + 1)
    end.

(** The three numbers [heap_dump_stats] prints: free bytes, used bytes, blocks. *)
Definition heap_dump_stats (h : heap) : option (Z * Z * Z) :=
  heap_stats_loop (heap_fuel h) (hmem h) (heap_head h) 0 0 0.

(** ** Abstract heap: the list of blocks in address order *)

Record blk := mk_blk { bsz : Z; bfr : bool }.

Fixpoint span (bl : list blk) : Z :=
  match bl with [] => 0 | b :: r => HEADER_SIZE + bsz b + span r end.

Fixpoint blocks_at (a : Z) (bl : list blk) : list (Z * blk) :=
  match bl with [] => [] | b :: r => (a, b) :: blocks_at (a + HEADER_SIZE + bsz b) r end.

Definition fl (b : bool) : Z := if b then 1 else 0.

Definition link (a : Z) (r : list blk) : Z := match r with [] => 0 | _ => a end.

(** The headers in memory from address [a] on are exactly those of [bl]. *)
Fixpoint chain (m : mem) (a : Z) (bl : list blk) : Prop :=
  match bl with
  | [] => True
  | b :: r =>
      hsize m a = bsz b /\ hfree m a = fl (bfr b) /\ hmagic m a = HEAP_MAGIC /\
      hnext m a = link (a + HEADER_SIZE + bsz b) r /\
      chain m (a + HEADER_SIZE + bsz b) r
  end.

Definition blk_ok (b : blk) : Prop := 0 <= bsz b /\ bsz b mod 16 = 0.

Record heap_inv (h : heap) (bl : list blk) : Prop := {
  hi_chain : chain (hmem h) (heap_head h) bl;
  hi_ne : bl <> [];
  hi_ok : Forall blk_ok bl;
  hi_span : span bl = heap_total h;
  hi_head : 0 < heap_head h /\ heap_head h mod 16 = 0;
  hi_top : heap_head h + heap_total h < 2 ^ 63;
}.

(** First fit with splitting, on the block list. *)
Fixpoint amalloc (size a : Z) (bl : list blk) : option (Z * list blk) :=
  match bl with
  | [] => None
  | b :: r =>
      if bfr b && (size <=? bsz b) then
        Some (a + HEADER_SIZE,
              if size + MIN_SPLIT <=? bsz b
              then mk_blk size false :: mk_blk (bsz b - size - HEADER_SIZE) true :: r
              else mk_blk (bsz b) false :: r)
      else '(p, r') ← amalloc size (a + HEADER_SIZE + bsz b) r; Some (p, b :: r')
  end.

Definition merge (b : blk) (r : list blk) : list blk :=
  match r with
  | c :: r' => if bfr b && bfr c then mk_blk (bsz b + HEADER_SIZE + bsz c) true :: r' else b :: r
  | [] => [b]
  end.

Definition acoalesce (bl : list blk) : list blk := foldr merge [] bl.

(** Release the block whose payload starts at [p]. *)
Fixpoint arelease (p a : Z) (bl : list blk) : list blk :=
  match bl with
  | [] => []
  | b :: r => if p =? a + HEADER_SIZE then mk_blk (bsz b) true :: r
              else b :: arelease p (a + HEADER_SIZE + bsz b) r
  end.

(** No two neighbouring free blocks. *)
Fixpoint coalesced (bl : list blk) : Prop :=
  match bl with
  | b :: ((c :: _) as r) => bfr b && bfr c = false /\ coalesced r
  | _ => True
  end.

(** ** Structural lemmas *)

Lemma span_nonneg bl : Forall blk_ok bl -> 0 <= span bl.
Proof.
  induction 1 as [|b r [Hb _] _ IH]; cbn [span]; [lia|]. unfold HEADER_SIZE. lia.
Qed.

Lemma span_length bl : Forall blk_ok bl -> HEADER_SIZE * Z.of_nat (length bl) <= span bl.
Proof.
  induction 1 as [|b r [Hb _] _ IH]; cbn [span length]; [lia|]. unfold HEADER_SIZE in *. lia.
Qed.

Lemma heap_fuel_enough h bl : heap_inv h bl -> (length bl <= heap_fuel h)%nat.
Proof.
  intros [_ _ Hok Hs _ _]. pose proof (span_length bl Hok). unfold heap_fuel.
  rewrite <- Hs. unfold HEADER_SIZE in *. Z.div_mod_to_equations. lia.
Qed.

(** The next field of a block is never confused with the end of the list. *)
Lemma link_nonzero a r : 0 < a -> link a r = 0 <-> r = [].
Proof. intros H. destruct r; simpl; split; done || lia. Qed.

Lemma chain_agree m m' a bl :
  Forall blk_ok bl -> agree m m' a (span bl) -> chain m a bl -> chain m' a bl.
Proof.
  intros Hok. revert a. induction Hok as [|b r [Hb _] Hr IH]; intros a Hag; cbn [chain]; [done|].
  pose proof (span_nonneg r Hr) as Hs. cbn [span] in Hag. unfold HEADER_SIZE in *.
  intros (H1 & H2 & H3 & H4 & H5).
  unfold hsize, hfree, hmagic, hnext, load64, load32 in *.
  rewrite <- !(load_le_agree _ m m') by (intros x Hx; apply Hag; lia).
  repeat (split; [done|]). apply IH; [|done]. intros x Hx. apply Hag. lia.
Qed.

(** The blocks tile the heap: two entries are equal or disjoint. *)
Lemma blocks_at_range a bl x b :
  Forall blk_ok bl -> (x, b) ∈ blocks_at a bl ->
  blk_ok b /\ a <= x /\ x + HEADER_SIZE + bsz b <= a + span bl.
Proof.
  intros Hok. revert a. induction Hok as [|c r Hc Hr IH]; intros a; cbn [blocks_at span].
  - intros H. by apply not_elem_of_nil in H.
  - pose proof (span_nonneg r Hr). destruct Hc as [Hc Hc16].
    intros [[= -> ->]|H']%elem_of_cons.
    + split; [done|]. unfold HEADER_SIZE. lia.
    + apply IH in H' as (Hb & H1 & H2). split; [done|]. unfold HEADER_SIZE in *. lia.
Qed.

Lemma blocks_disjoint a bl x b y c :
  Forall blk_ok bl -> (x, b) ∈ blocks_at a bl -> (y, c) ∈ blocks_at a bl ->
  (x, b) = (y, c) \/ x + HEADER_SIZE + bsz b <= y \/ y + HEADER_SIZE + bsz c <= x.
Proof.
  intros Hok. revert a. induction Hok as [|d r Hd Hr IH]; intros a; cbn [blocks_at].
  { intros H. by apply not_elem_of_nil in H. }
  intros [Hx|Hx]%elem_of_cons [Hy|Hy]%elem_of_cons.
  - left. congruence.
  - injection Hx as -> ->. apply blocks_at_range in Hy; [|done]. right. lia.
  - injection Hy as -> ->. apply blocks_at_range in Hx; [|done]. right. lia.
  - by apply (IH (a + HEADER_SIZE + bsz d)).
Qed.

Lemma blocks_at_chain m a bl x b :
  chain m a bl -> (x, b) ∈ blocks_at a bl ->
  hsize m x = bsz b /\ hfree m x = fl (bfr b) /\ hmagic m x = HEAP_MAGIC.
Proof.
  revert a. induction bl as [|c r IH]; intros a; cbn [chain blocks_at].
  - intros _ H. by apply not_elem_of_nil in H.
  - intros (H1 & H2 & H3 & _ & H5) [[= -> ->]|H]%elem_of_cons; [done|]. by apply (IH _ H5).
Qed.

Lemma blocks_at_mod16 a bl x b :
  Forall blk_ok bl -> a mod 16 = 0 -> (x, b) ∈ blocks_at a bl -> x mod 16 = 0.
Proof.
  intros Hok. revert a. induction Hok as [|c r [_ Hc] Hr IH]; intros a Ha; cbn [blocks_at].
  - intros H. by apply not_elem_of_nil in H.
  - intros [[= -> ->]|H]%elem_of_cons; [done|]. apply (IH (a + HEADER_SIZE + bsz c)); [|done].
    unfold HEADER_SIZE. dlia.
Qed.

(** ** Coalescing *)

Lemma bsz_merge_span b r : span (merge b r) = HEADER_SIZE + bsz b + span r.
Proof. destruct r as [|c r]; cbn [merge span]; [done|]. destruct (_ && _)%bool; cbn [span bsz]; lia. Qed.

Lemma acoalesce_span bl : span (acoalesce bl) = span bl.
Proof.
  induction bl as [|b r IH]; cbn [acoalesce foldr span]; [done|].
  rewrite bsz_merge_span. unfold acoalesce in IH. lia.
Qed.

Lemma acoalesce_ok bl : Forall blk_ok bl -> Forall blk_ok (acoalesce bl).
Proof.
  induction 1 as [|b r Hb Hr IH]; cbn [acoalesce foldr]; [constructor|].
  fold (acoalesce r). destruct (acoalesce r) as [|c r']; cbn [merge]; [by apply Forall_singleton|].
  inversion IH as [|? ? [Hc Hc16] Hr']; subst. destruct Hb as [Hb Hb16].
  destruct (_ && _)%bool; constructor; try done.
  split; cbn [bsz]; unfold HEADER_SIZE; [lia | dlia].
Qed.

Lemma acoalesce_nil bl : acoalesce bl = [] <-> bl = [].
Proof.
  destruct bl as [|b r]; [done|]. cbn [acoalesce foldr].
  destruct (foldr merge [] r) as [|c r']; cbn [merge]; [done|]. by destruct (_ && _)%bool.
Qed.

Lemma merge_coalesced b r : coalesced r -> coalesced (merge b r).
Proof.
  destruct r as [|c r]; [done|]. cbn [merge]. intros H.
  destruct (bfr b && bfr c) eqn:E; [|by cbn [coalesced]].
  apply andb_prop in E as [Eb Ec]. destruct r as [|d r]; [done|]. cbn [coalesced bfr] in *.
  destruct H as [H1 H2]. split; [|done]. by rewrite Ec in H1.
Qed.

Lemma acoalesce_coalesced bl : coalesced (acoalesce bl).
Proof. induction bl as [|b r IH]; [done|]. by apply merge_coalesced. Qed.

Lemma acoalesce_id bl : coalesced bl -> acoalesce bl = bl.
Proof.
  induction bl as [|b r IH]; [done|]. intros H. cbn [acoalesce foldr]. fold (acoalesce r).
  destruct r as [|c r]; [done|]. destruct H as [H1 H2]. rewrite IH by done.
  cbn [merge]. by rewrite H1.
Qed.

(** Merging left to right, as the loop does, gives the same list. *)
Lemma acoalesce_step b c r :
  bfr b && bfr c = true ->
  acoalesce (mk_blk (bsz b + HEADER_SIZE + bsz c) true :: r) = acoalesce (b :: c :: r).
Proof.
  intros [Hb Hc]%andb_prop. cbn [acoalesce foldr]. fold (acoalesce r).
  destruct (acoalesce r) as [|d r']; cbn [merge bfr bsz].
  - by rewrite Hb, Hc.
  - rewrite Hc. simpl. destruct (bfr d) eqn:E; cbn [merge bfr bsz]; rewrite ?Hb, ?Hc; simpl; [|done].
    do 2 f_equal. lia.
Qed.

(** The chain after absorbing the second block into the first. *)
Lemma chain_absorb m a b c r :
  0 < a -> a + span (b :: c :: r) < 2 ^ 63 -> Forall blk_ok (b :: c :: r) ->
  chain m a (b :: c :: r) -> bfr b = true ->
  let m1 := set_hsize m a (u64 (hsize m a + u64 (HEADER_SIZE + hsize m (hnext m a)))) in
  let m2 := set_hnext m1 a (hnext m1 (hnext m1 a)) in
  chain m2 a (mk_blk (bsz b + HEADER_SIZE + bsz c) true :: r) /\
  (forall x, ~ (a <= x < a + HEADER_SIZE) -> m2 x = m x).
Proof.
  intros Ha Ht Hok Hch Hb. inversion Hok as [|? ? [Hb0 _] Hok']; subst.
  inversion Hok' as [|? ? [Hc0 _] Hr]; subst. pose proof (span_nonneg r Hr).
  cbn [span] in Ht. unfold HEADER_SIZE in *.
  cbn [chain] in Hch. destruct Hch as (H1 & H2 & H3 & H4 & G1 & G2 & G3 & G4 & G5).
  cbn [link] in H4.
  assert (forall x, ~ (a <= x < a + 32) ->
    set_hnext (set_hsize m a (bsz b + 32 + bsz c)) a (link (a + 32 + bsz b + 32 + bsz c) r) x = m x) as Hout.
  { intros x Hx. unfold set_hnext, set_hsize, store64. rewrite !store_le_outside by lia. done. }
  cbn [chain bsz bfr]. rewrite H4, H1, G1.
  rewrite (u64_small (32 + bsz c)), u64_small by lia.
  replace (bsz b + (32 + bsz c)) with (bsz b + 32 + bsz c) by lia.
  set (m1 := set_hsize m a (bsz b + 32 + bsz c)) in *.
  assert (hnext m1 a = a + 32 + bsz b) as En.
  { unfold m1, hnext, set_hsize. mem_simpl. exact H4. }
  assert (hnext m1 (a + 32 + bsz b) = link (a + 32 + bsz b + 32 + bsz c) r) as En2.
  { unfold m1, hnext, set_hsize. mem_simpl. exact G4. }
  cbv zeta. rewrite En, En2.
  split; [|done].
  assert (0 <= link (a + 32 + bsz b + 32 + bsz c) r < 2 ^ 64) as Hl by (destruct r; simpl; lia).
  unfold HEADER_SIZE in *.
  replace (a + 32 + (bsz b + 32 + bsz c)) with (a + 32 + bsz b + 32 + bsz c) by lia.
  unfold hsize, hfree, hmagic, hnext, set_hnext, m1, set_hsize in *. mem_simpl.
  split; [rewrite Z.mod_small; lia|]. split; [by rewrite Hb in H2|]. split; [done|].
  split; [by apply Z.mod_small|].
  eapply chain_agree; [done | | exact G5]. intros x Hx. rewrite !store_le_outside by lia. done.
Qed.

(** [x] lies in the header of a free block. *)
Definition free_header (a : Z) (bl : list blk) (x : Z) : Prop :=
  exists y b, (y, b) ∈ blocks_at a bl /\ bfr b = true /\ y <= x < y + HEADER_SIZE.

Lemma acoalesce_head b r :
  exists d r', acoalesce (b :: r) = d :: r' /\ bfr d = bfr b.
Proof.
  cbn [acoalesce foldr]. fold (acoalesce r). destruct (acoalesce r) as [|d r']; cbn [merge]; [by eauto|].
  destruct (bfr b && bfr d) eqn:E; [|by eauto].
  apply andb_prop in E as [E _]. eauto.
Qed.

Lemma acoalesce_keep b c r :
  bfr b && bfr c = false -> acoalesce (b :: c :: r) = b :: acoalesce (c :: r).
Proof.
  intros E. change (acoalesce (b :: c :: r)) with (merge b (acoalesce (c :: r))).
  destruct (acoalesce_head c r) as (d & r' & -> & Ed). cbn [merge]. by rewrite Ed, E.
Qed.

(** A header outside the modified range is read back unchanged. *)
Lemma header_keep m m' a s f n r :
  (forall x, a <= x < a + HEADER_SIZE -> m' x = m x) ->
  hsize m a = s /\ hfree m a = f /\ hmagic m a = HEAP_MAGIC /\ hnext m a = n /\ r ->
  hsize m' a = s /\ hfree m' a = f /\ hmagic m' a = HEAP_MAGIC /\ hnext m' a = n /\ r.
Proof.
  intros H (H1 & H2 & H3 & H4 & H5). unfold HEADER_SIZE in H.
  unfold hsize, hfree, hmagic, hnext, load64, load32 in *.
  rewrite !(load_le_agree _ m' m) by (intros x Hx; apply H; lia). done.
Qed.

Lemma free_header_tail a b r x :
  free_header (a + HEADER_SIZE + bsz b) r x -> free_header a (b :: r) x.
Proof. intros (y & c & H1 & H2 & H3). exists y, c. split; [|done]. cbn [blocks_at]. by right. Qed.

Lemma free_header_range a bl x :
  Forall blk_ok bl -> free_header a bl x -> a <= x < a + span bl.
Proof.
  intros Hok (y & b & H1 & _ & H3). apply blocks_at_range in H1 as ([H _] & ? & ?); [|done].
  unfold HEADER_SIZE in *. lia.
Qed.

Lemma coalesce_loop_spec fuel m a bl :
  (length bl <= fuel)%nat -> 0 < a -> a + span bl < 2 ^ 63 -> Forall blk_ok bl -> chain m a bl ->
  exists m', coalesce_loop fuel m (link a bl) = Some m' /\ chain m' a (acoalesce bl) /\
    forall x, ~ free_header a bl x -> m' x = m x.
Proof.
  revert m a bl. induction fuel as [|fuel IH]; intros m a bl Hf Ha Ht Hok Hch.
  { destruct bl as [|b r]; [|simpl in Hf; lia]. by exists m. }
  destruct bl as [|b [|c r]].
  - by exists m.
  - cbn [coalesce_loop link]. destruct Hch as (H1 & H2 & H3 & H4 & H5).
    simpl in H4. rewrite H4, orb_true_r. by exists m.
  - pose proof Hok as Hok0. inversion Hok as [|? ? [Hb _] Hok']; subst.
    pose proof (span_nonneg _ Hok') as Hsp.
    pose proof Hch as (H1 & H2 & H3 & H4 & H5).
    pose proof H5 as (G1 & G2 & G3 & _).
    cbn [coalesce_loop link] in *.
    destruct (Z.eqb_spec a 0); [lia|].
    rewrite H4. destruct (Z.eqb_spec (a + HEADER_SIZE + bsz b) 0); [unfold HEADER_SIZE in *; lia|].
    simpl orb. rewrite H2, G2, G3, Z.eqb_refl, andb_true_r.
    destruct (bfr b && bfr c) eqn:E.
    + pose proof (chain_absorb m a b c r Ha Ht Hok Hch ltac:(by apply andb_prop in E as [? _])) as [Hm Hk].
      cbv zeta in Hm, Hk. rewrite H4 in Hm, Hk.
      apply andb_prop in E as [Eb Ec]. rewrite Eb, Ec. cbn [fl negb andb Z.eqb].
      inversion Hok' as [|? ? [Hc Hc16] Hr]; subst. inversion Hok0 as [|? ? [_ Hb16] _]; subst.
      destruct (IH _ a (mk_blk (bsz b + HEADER_SIZE + bsz c) true :: r) ltac:(simpl in *; lia) Ha ltac:(cbn [span bsz] in *; lia)
        ltac:(constructor; [split; cbn [bsz]; unfold HEADER_SIZE; [lia | dlia] | done]) Hm) as (m' & I1 & I2 & I3).
      exists m'. split; [exact I1|].
      rewrite acoalesce_step in I2 by (by rewrite Eb, Ec). split; [done|].
      intros x Hx. rewrite I3.
      * apply Hk. intros Hx2. apply Hx. exists a, b. split; [cbn [blocks_at]; by left | done].
      * intros (y & d & Hy & Hd & Hyx). apply Hx. cbn [blocks_at bsz] in Hy.
        apply elem_of_cons in Hy as [[= -> ->]|Hy].
        { exists a, b. split; [cbn [blocks_at]; by left | done]. }
        exists y, d. split; [|done]. cbn [blocks_at]. right. right.
        by replace (a + HEADER_SIZE + bsz b + HEADER_SIZE + bsz c)
          with (a + HEADER_SIZE + (bsz b + HEADER_SIZE + bsz c)) by lia.
    + replace (negb (fl (bfr b) =? 0) && negb (fl (bfr c) =? 0)) with false
        by (destruct (bfr b), (bfr c); done).
      cbn [span] in Ht.
      destruct (IH m (a + HEADER_SIZE + bsz b) (c :: r) ltac:(simpl in *; lia)
        ltac:(unfold HEADER_SIZE in *; lia) ltac:(cbn [span]; lia) Hok' H5) as (m' & I1 & I2 & I3).
      exists m'. split; [exact I1|]. rewrite acoalesce_keep by done. split.
      * cbn [chain]. eapply header_keep; [|split; [exact H1|]; split; [exact H2|];
          split; [exact H3|]; split; [|exact I2]].
        { intros x Hx. apply I3. intros Hfh. apply free_header_range in Hfh; [|done]. lia. }
        rewrite H4. destruct (acoalesce_head c r) as (d & r' & -> & _). done.
      * intros x Hx. apply I3. intros Hfh. by apply Hx, free_header_tail.
Qed.

(** ** First fit *)

Lemma split_block_spec m a b r size :
  0 < a -> a + span (b :: r) < 2 ^ 63 -> Forall blk_ok (b :: r) ->
  0 <= size -> size + MIN_SPLIT <= bsz b -> chain m a (b :: r) ->
  let m1 := set_hfree (split_block m a size) a 0 in
  chain m1 a (mk_blk size false :: mk_blk (bsz b - size - HEADER_SIZE) true :: r) /\
  (forall x, ~ (a <= x < a + HEADER_SIZE) -> ~ (a + HEADER_SIZE <= x < a + HEADER_SIZE + bsz b) -> m1 x = m x).
Proof.
  intros Ha Ht Hok Hs Hfit Hch. inversion Hok as [|? ? [Hb _] Hr]; subst.
  pose proof (span_nonneg r Hr). cbn [span] in Ht. unfold MIN_SPLIT, HEADER_SIZE in *.
  destruct Hch as (H1 & H2 & H3 & H4 & H5). unfold HEADER_SIZE in *.
  unfold split_block. unfold HEADER_SIZE. rewrite H1. rewrite (u64_small (bsz b - size - 32)) by lia.
  set (s := bsz b - size - 32).
  assert (0 <= link (a + 32 + bsz b) r < 2 ^ 64) as Hl by (destruct r; simpl; lia).
  cbv zeta.
  replace (hnext (set_hmagic (set_hfree (set_hsize m (a + 32 + size) s) (a + 32 + size) 1)
              (a + 32 + size) HEAP_MAGIC) a) with (link (a + 32 + bsz b) r).
  2: { rewrite <- H4. unfold hnext, set_hmagic, set_hfree, set_hsize. mem_simpl. done. }
  split.
  - cbn [chain bsz bfr fl]. unfold HEADER_SIZE.
    replace (a + 32 + size + 32 + s) with (a + 32 + bsz b) by (unfold s; lia).
    unfold hsize, hfree, hmagic, hnext, set_hnext, set_hmagic, set_hfree, set_hsize in *.
    mem_simpl. rewrite !Z.mod_small by (unfold s, HEAP_MAGIC; lia).
    cbn [link]. repeat (split; [done|]).
    eapply chain_agree; [done | | exact H5]. intros x Hx. unfold s in *.
    rewrite !store_le_outside by lia. done.
  - intros x Hx1 Hx2. unfold set_hnext, set_hmagic, set_hfree, set_hsize, store64, store32.
    rewrite !store_le_outside by lia. done.
Qed.

Lemma amalloc_span size a bl p bl' :
  amalloc size a bl = Some (p, bl') -> span bl' = span bl /\ bl' <> [].
Proof.
  revert a p bl'. induction bl as [|b r IH]; intros a p bl'; cbn [amalloc]; [done|].
  destruct (bfr b && (size <=? bsz b)).
  - intros [= <- <-]. destruct (_ <=? _); cbn [span bsz]; split; done || lia.
  - destruct (amalloc size (a + HEADER_SIZE + bsz b) r) as [[p' r']|] eqn:E; [|done].
    intros [= <- <-]. apply IH in E as [E _]. cbn [span]. split; [lia | done].
Qed.

Lemma amalloc_ok size a bl p bl' :
  0 <= size -> size mod 16 = 0 -> Forall blk_ok bl ->
  amalloc size a bl = Some (p, bl') -> Forall blk_ok bl'.
Proof.
  intros Hs Hs16 Hok. revert a p bl'. induction Hok as [|b r [Hb Hb16] Hr IH]; intros a p bl'; cbn [amalloc]; [done|].
  destruct (bfr b && (size <=? bsz b)) eqn:E.
  - intros [= <- <-]. unfold MIN_SPLIT, HEADER_SIZE. destruct (Z.leb_spec (size + (32 + 16)) (bsz b)).
    + constructor; [done|]. constructor; [|done]. split; cbn [bsz]; [lia | dlia].
    + by constructor.
  - destruct (amalloc size (a + HEADER_SIZE + bsz b) r) as [[p' r']|] eqn:E2; [|done].
    intros [= <- <-]. constructor; [done|]. by eapply IH.
Qed.

(** The block the allocation used, and that nothing else changed. *)
Definition served (m m' : mem) (a : Z) (bl : list blk) (p size : Z) : Prop :=
  exists y b, (y, b) ∈ blocks_at a bl /\ bfr b = true /\ p = y + HEADER_SIZE /\ size <= bsz b /\
    forall x, ~ (y <= x < y + HEADER_SIZE + bsz b) -> m' x = m x.

Lemma served_tail m m' a b r p size :
  served m m' (a + HEADER_SIZE + bsz b) r p size -> served m m' a (b :: r) p size.
Proof. intros (y & c & H1 & H2). exists y, c. split; [|done]. cbn [blocks_at]. by right. Qed.

Lemma kmalloc_loop_spec fuel m a bl size :
  (length bl <= fuel)%nat -> 0 < a -> a + span bl < 2 ^ 63 -> Forall blk_ok bl -> chain m a bl ->
  0 <= size < 2 ^ 32 ->
  exists m' p, kmalloc_loop fuel m (link a bl) size = Some (m', p) /\
    match amalloc size a bl with
    | None => p = 0 /\ m' = m
    | Some (p', bl') => p = p' /\ chain m' a bl' /\ served m m' a bl p size
    end.
Proof.
  revert m a bl. induction fuel as [|fuel IH]; intros m a bl Hf Ha Ht Hok Hch Hs.
  { destruct bl as [|b r]; [|simpl in Hf; lia]. by exists m, 0. }
  destruct bl as [|b r]; [by exists m, 0|].
  pose proof Hok as Hok0. inversion Hok as [|? ? [Hb _] Hr]; subst.
  pose proof (span_nonneg _ Hr) as Hsp.
  pose proof Hch as (H1 & H2 & H3 & H4 & H5).
  cbn [kmalloc_loop link amalloc]. destruct (Z.eqb_spec a 0); [lia|].
  rewrite H2, H3, Z.eqb_refl, andb_true_r, H1.
  replace (negb (fl (bfr b) =? 0)) with (bfr b) by (by destruct (bfr b)).
  destruct (bfr b && (size <=? bsz b)) eqn:E.
  - apply andb_prop in E as [Eb Es]. apply Z.leb_le in Es.
    rewrite u64_small by (unfold MIN_SPLIT, HEADER_SIZE; lia).
    do 2 eexists. split; [done|]. split; [done|].
    destruct (Z.leb_spec (size + MIN_SPLIT) (bsz b)).
    + destruct (split_block_spec m a b r size) as [Hc Hk]; [done..| lia | done | done|].
      split; [exact Hc|]. exists a, b. split; [cbn [blocks_at]; by left|].
      split; [done|]. split; [done|]. split; [done|]. intros x Hx. apply Hk; unfold HEADER_SIZE in *; lia.
    + split.
      * cbn [chain bsz bfr fl]. unfold HEADER_SIZE in *.
        unfold hsize, hfree, hmagic, hnext, set_hfree in *. mem_simpl.
        split; [done|]. split; [done|]. split; [done|]. split; [done|].
        eapply chain_agree; [done | | exact H5]. intros x Hx. rewrite store_le_outside by lia. done.
      * exists a, b. split; [cbn [blocks_at]; by left|].
        split; [done|]. split; [done|]. split; [done|]. intros x Hx.
        unfold set_hfree, store32, HEADER_SIZE in *. apply store_le_outside. lia.
  - rewrite H4. cbn [span] in Ht.
    destruct (IH m (a + HEADER_SIZE + bsz b) r) as (m' & p & I1 & I2);
      [simpl in *; lia | unfold HEADER_SIZE in *; lia | lia | done | done | done |].
    exists m', p. split; [exact I1|].
    destruct (amalloc size (a + HEADER_SIZE + bsz b) r) as [[p' r']|] eqn:E2; simpl; [|done].
    destruct I2 as (I2 & I3 & I4). split; [done|]. split; [|by apply served_tail].
    eapply header_keep; [|split; [exact H1|]; split; [exact H2|]; split; [exact H3|]; split; [|exact I3]].
    + destruct I4 as (y & c & Hy & _ & _ & _ & Hk). intros x Hx. apply Hk.
      apply blocks_at_range in Hy; [|done]. lia.
    + rewrite H4. apply amalloc_span in E2 as [_ Hne]. destruct r' as [|]; [done|].
      destruct r as [|]; [|done]. destruct I4 as (y & c & Hy & _). by apply not_elem_of_nil in Hy.
Qed.

(** The requested size, rounded up to 16; correct below 4 GB. *)
Lemma round16_small size :
  0 <= size <= 2 ^ 32 - 16 ->
  size <= round16 size < size + 16 /\ round16 size mod 16 = 0 /\ 0 <= round16 size < 2 ^ 32.
Proof.
  intros Hs. unfold round16. rewrite u64_small by lia.
  change (u32 (Z.lnot 15)) with (Z.lnot (2 ^ 4 - 1) mod 2 ^ 32).
  rewrite land_align by lia. change (2 ^ 4) with 16.
  split; [dlia|]. split; [|dlia]. rewrite Z.mul_comm. apply Z.mod_mul. lia.
Qed.

Lemma amalloc_blocks size a bl p bl' :
  amalloc size a bl = Some (p, bl') ->
  (forall y c, (y, c) ∈ blocks_at a bl -> bfr c = false -> (y, c) ∈ blocks_at a bl') /\
  (exists b', (p - HEADER_SIZE, b') ∈ blocks_at a bl' /\ bfr b' = false /\ size <= bsz b').
Proof.
  revert a p bl'. induction bl as [|b r IH]; intros a p bl'; cbn [amalloc]; [done|].
  destruct (bfr b && (size <=? bsz b)) eqn:E.
  - apply andb_prop in E as [Eb Es]. apply Z.leb_le in Es. intros [= <- <-].
    replace (a + HEADER_SIZE - HEADER_SIZE) with a by lia.
    split.
    + intros y c Hy Hc. cbn [blocks_at] in Hy. apply elem_of_cons in Hy as [[= -> ->]|Hy]; [congruence|].
      destruct (_ <=? _); cbn [blocks_at bsz]; right; [right|done].
      by replace (a + HEADER_SIZE + size + HEADER_SIZE + (bsz b - size - HEADER_SIZE))
        with (a + HEADER_SIZE + bsz b) by lia.
    + destruct (_ <=? _); (eexists; split; [cbn [blocks_at]; by left|]; split; [done|]; cbn [bsz]; lia).
  - destruct (amalloc size (a + HEADER_SIZE + bsz b) r) as [[p' r']|] eqn:E2; [|done].
    intros [= <- <-]. apply IH in E2 as [I1 (b' & I2 & I3)]. split.
    + intros y c Hy Hc. cbn [blocks_at] in *. apply elem_of_cons in Hy as [Hy|Hy]; [rewrite Hy; by left|].
      right. by apply I1.
    + exists b'. split; [cbn [blocks_at]; by right | done].
Qed.

Lemma kmalloc_spec size h bl :
  heap_inv h bl -> 0 < size <= 2 ^ 32 - 16 ->
  exists p h', kmalloc size h = Some (p, h') /\
    match amalloc (round16 size) (heap_head h) bl with
    | None => p = 0 /\ h' = h
    | Some (p', bl') =>
        p = p' /\ heap_inv h' bl' /\ heap_head h' = heap_head h /\
        served (hmem h) (hmem h') (heap_head h) bl p (round16 size)
    end.
Proof.
  intros Hi Hs. pose proof (heap_fuel_enough h bl Hi) as Hf. destruct Hi as [Hc Hne Hok Hsp [Hh Hh16] Ht].
  destruct (round16_small size ltac:(lia)) as (R1 & R2 & R3).
  unfold kmalloc. destruct (Z.eqb_spec size 0); [lia|].
  destruct (kmalloc_loop_spec (heap_fuel h) (hmem h) (heap_head h) bl (round16 size))
    as (m' & p & E & Hr); [done | done | lia | done | done | done |].
  replace (link (heap_head h) bl) with (heap_head h) in E by (by destruct bl).
  rewrite E. simpl. do 2 eexists. split; [done|].
  destruct (amalloc _ _ _) as [[p' bl']|] eqn:Ea.
  - destruct Hr as (-> & Hc' & Hsv). split; [done|]. split; [|done].
    pose proof (amalloc_span _ _ _ _ _ Ea) as [Hsp' Hne'].
    split; cbn [heap_head heap_total hmem set_mem]; try done; [|lia].
    eapply amalloc_ok; [| |exact Hok|exact Ea]; lia.
  - destruct Hr as [-> ->]. split; [done|]. by destruct h.
Qed.

Lemma arelease_chain m a bl p b :
  Forall blk_ok bl -> chain m a bl -> (p - HEADER_SIZE, b) ∈ blocks_at a bl ->
  chain (set_hfree m (p - HEADER_SIZE) 1) a (arelease p a bl).
Proof.
  intros Hok. revert a. induction Hok as [|c r [Hc _] Hr IH]; intros a; cbn [chain arelease blocks_at].
  { intros _ H. by apply not_elem_of_nil in H. }
  intros (H1 & H2 & H3 & H4 & H5) Hp.
  destruct (Z.eqb_spec p (a + HEADER_SIZE)) as [->|Hne].
  - replace (a + HEADER_SIZE - HEADER_SIZE) with a by lia.
    unfold HEADER_SIZE in *. cbn [chain bsz bfr fl]. unfold HEADER_SIZE.
    unfold hsize, hfree, hmagic, hnext, set_hfree in *. mem_simpl.
    repeat (split; [done|]). eapply chain_agree; [done | | exact H5].
    intros x Hx. rewrite store_le_outside by lia. done.
  - apply elem_of_cons in Hp as [[= Hp _]|Hp]; [lia|].
    pose proof (blocks_at_range _ _ _ _ Hr Hp) as ([Hb _] & Hlo & _).
    cbn [chain]. eapply header_keep; [|split; [exact H1|]; split; [exact H2|];
      split; [exact H3|]; split; [|by apply IH]].
    + intros x Hx. unfold set_hfree, store32, HEADER_SIZE in *. apply store_le_outside. lia.
    + rewrite H4. destruct r as [|d r']; [done|]. cbn [arelease]. by destruct (_ =? _).
Qed.

Lemma arelease_ok p a bl : Forall blk_ok bl -> Forall blk_ok (arelease p a bl).
Proof.
  intros H. revert a. induction H as [|c r Hc Hr IH]; intros a; cbn [arelease]; [constructor|].
  destruct (_ =? _); constructor; try done.
Qed.

Lemma arelease_span p a bl : span (arelease p a bl) = span bl /\ length (arelease p a bl) = length bl.
Proof.
  revert a. induction bl as [|c r IH]; intros a; cbn [arelease]; [done|].
  destruct (_ =? _); [done|]. cbn [span length]. destruct (IH (a + HEADER_SIZE + bsz c)). lia.
Qed.

Lemma arelease_blocks p a bl y c :
  (y, c) ∈ blocks_at a (arelease p a bl) ->
  (y, c) ∈ blocks_at a bl \/ (p = y + HEADER_SIZE /\ bfr c = true).
Proof.
  revert a. induction bl as [|d r IH]; intros a; cbn [arelease]; [by left|].
  destruct (Z.eqb_spec p (a + HEADER_SIZE)) as [->|Hne]; cbn [blocks_at bsz].
  - intros [[= -> ->]|H]%elem_of_cons; [by right|]. left. by right.
  - intros [H|H]%elem_of_cons; [left; rewrite H; by left|].
    apply IH in H as [H|H]; [left; by right | by right].
Qed.

Lemma kfree_spec p h bl b :
  heap_inv h bl -> (p - HEADER_SIZE, b) ∈ blocks_at (heap_head h) bl -> bfr b = false ->
  exists h', kfree p h = Some h' /\
    heap_inv h' (acoalesce (arelease p (heap_head h) bl)) /\
    heap_head h' = heap_head h /\
    (forall x, ~ (p - HEADER_SIZE <= x < p) -> ~ free_header (heap_head h) bl x ->
      hmem h' x = hmem h x).
Proof.
  intros Hi Hp Hb. pose proof (heap_fuel_enough h bl Hi) as Hf.
  pose proof Hi as [Hc Hne Hok Hsp [Hh Hh16] Ht].
  pose proof (blocks_at_chain _ _ _ _ _ Hc Hp) as (_ & Hfree & Hmag).
  pose proof (blocks_at_range _ _ _ _ Hok Hp) as ([Hb0 _] & Hlo & Hhi).
  pose proof (arelease_span p (heap_head h) bl) as [Hrs Hrl].
  unfold kfree. destruct (Z.eqb_spec p 0); [unfold HEADER_SIZE in *; lia|].
  rewrite Hmag, Hfree, Hb. simpl. unfold coalesce. cbn [set_mem hmem heap_head].
  change (heap_fuel (set_mem h _)) with (heap_fuel h).
  destruct (coalesce_loop_spec (heap_fuel h) (set_hfree (hmem h) (p - HEADER_SIZE) 1)
      (heap_head h) (arelease p (heap_head h) bl)) as (m' & E & Hc' & Hk);
    [lia | done | lia | by apply arelease_ok | by eapply arelease_chain |].
  replace (link (heap_head h) (arelease p (heap_head h) bl)) with (heap_head h) in E.
  2: { destruct bl; [done|]. cbn [arelease]. by destruct (_ =? _). }
  rewrite E. simpl. eexists. split; [done|]. split; [|split; [done|]].
  - split; cbn [hmem heap_head heap_total set_mem]; try done.
    + rewrite acoalesce_nil. intros H. rewrite H in Hrl. by destruct bl.
    + by apply acoalesce_ok, arelease_ok.
    + rewrite acoalesce_span. lia.
  - cbn [hmem set_mem]. intros x Hx1 Hx2. rewrite Hk.
    + unfold set_hfree, store32, HEADER_SIZE in *. apply store_le_outside. lia.
    + intros (y & c & Hy & Hcf & Hyx). apply arelease_blocks in Hy as [Hy|[-> _]].
      * apply Hx2. by exists y, c.
      * lia.
Qed.

(** ** Properties *)

(** C1: [kmalloc] refines first fit with splitting on the block list: the walk
    over the headers always ends, fails (with the heap unchanged) exactly when
    no free block is large enough, and otherwise returns the address the
    abstract allocator computes and leaves headers that represent its result. *)
Theorem kmalloc_refines_first_fit size h bl :
  heap_inv h bl -> 0 < size <= 2 ^ 32 - 16 ->
  exists p h', kmalloc size h = Some (p, h') /\
    match amalloc (round16 size) (heap_head h) bl with
    | None => p = 0 /\ h' = h /\ Forall (fun b => bfr b = true -> bsz b < round16 size) bl
    | Some (p', bl') => p = p' /\ heap_inv h' bl' /\ heap_head h' = heap_head h
    end.
Proof.
  intros Hi Hs. destruct (kmalloc_spec size h bl Hi Hs) as (p & h' & E & H).
  exists p, h'. split; [done|]. destruct (amalloc _ _ _) as [[p' bl']|] eqn:Ea.
  - destruct H as (? & ? & ? & _). done.
  - destruct H as [-> ->]. split; [done|]. split; [done|]. clear E Hi Hs.
    revert Ea. generalize (heap_head h). induction bl as [|b r IH]; intros a Ea; [constructor|].
    cbn [amalloc] in Ea. destruct (bfr b && (round16 size <=? bsz b)) eqn:Eb; [done|].
    destruct (amalloc (round16 size) (a + HEADER_SIZE + bsz b) r) as [[]|] eqn:Er; [done|].
    constructor; [|by eapply IH]. intros Hb. rewrite Hb in Eb. simpl in Eb. by apply Z.leb_gt.
Qed.

(** The facts about a successful [kmalloc] its clients rely on. *)
Lemma kmalloc_fresh size h bl p h' :
  heap_inv h bl -> 0 < size <= 2 ^ 32 - 16 -> kmalloc size h = Some (p, h') -> p <> 0 ->
  p mod 16 = 0 /\
  exists bl' b, heap_inv h' bl' /\ (p - HEADER_SIZE, b) ∈ blocks_at (heap_head h) bl' /\
    bfr b = false /\ size <= bsz b /\
    forall y c, (y, c) ∈ blocks_at (heap_head h) bl -> bfr c = false ->
      (y, c) ∈ blocks_at (heap_head h) bl' /\
      (p + bsz b <= y \/ y + HEADER_SIZE + bsz c <= p - HEADER_SIZE) /\
      agree (hmem h) (hmem h') (y + HEADER_SIZE) (bsz c).
Proof.
  intros Hi Hs E Hp. destruct (kmalloc_spec size h bl Hi Hs) as (p0 & h0 & E0 & H).
  rewrite E in E0. injection E0 as <- <-.
  destruct (amalloc _ _ _) as [[p' bl']|] eqn:Ea; [|by destruct H as [-> _]].
  destruct H as (<- & Hi' & Hh & (z & d & Hz & Hd & Hpz & Hdz & Hk)).
  destruct (amalloc_blocks _ _ _ _ _ Ea) as [Hkeep (b & Hb & Hbf & Hbs)].
  destruct (round16_small size ltac:(lia)) as (R1 & _ & _).
  pose proof Hi as [_ _ Hok _ [_ Hh16] _]. pose proof Hi' as [_ _ Hok' _ _ _].
  split. { pose proof (blocks_at_mod16 _ _ _ _ Hok Hh16 Hz). rewrite Hpz. unfold HEADER_SIZE. dlia. }
  exists bl', b. split; [done|]. split; [done|]. split; [done|]. split; [lia|].
  intros y c Hy Hc. split; [by apply Hkeep|].
  assert ((y, c) <> (z, d)) as Hne by congruence.
  destruct (blocks_disjoint _ _ _ _ _ _ Hok Hy Hz) as [|Hyz]; [done|].
  destruct (blocks_disjoint _ _ _ _ _ _ Hok' Hb (Hkeep y c Hy Hc)) as [Heq|Hd'].
  - injection Heq as Heq1 Heq2. pose proof (blocks_at_range _ _ _ _ Hok Hy) as ([? _] & _).
    pose proof (blocks_at_range _ _ _ _ Hok Hz) as ([? _] & _). unfold HEADER_SIZE in *. lia.
  - split; [lia|]. intros x Hx. symmetry. apply Hk. unfold HEADER_SIZE in *. lia.
Qed.

(** C2: a block returned by [kmalloc] is 16-byte aligned, at least as large as
    requested and disjoint from every block allocated before; those blocks
    stay allocated at the same place and their contents do not change. *)
Theorem kmalloc_safe size h bl p h' :
  heap_inv h bl -> 0 < size <= 2 ^ 32 - 16 -> kmalloc size h = Some (p, h') -> p <> 0 ->
  p mod 16 = 0 /\
  exists bl' b, heap_inv h' bl' /\ (p - HEADER_SIZE, b) ∈ blocks_at (heap_head h) bl' /\
    bfr b = false /\ size <= bsz b /\
    forall y c, (y, c) ∈ blocks_at (heap_head h) bl -> bfr c = false ->
      (y, c) ∈ blocks_at (heap_head h) bl' /\
      (p + bsz b <= y \/ y + HEADER_SIZE + bsz c <= p - HEADER_SIZE) /\
      agree (hmem h) (hmem h') (y + HEADER_SIZE) (bsz c).
Proof. apply kmalloc_fresh. Qed.

(** [kfree] on null, free and allocated blocks. *)
Lemma kfree_cases p h bl b :
  heap_inv h bl -> (p - HEADER_SIZE, b) ∈ blocks_at (heap_head h) bl ->
  (bfr b = true -> kfree p h = Some h) /\ kfree 0 h = Some h /\
  (bfr b = false ->
   exists h', kfree p h = Some h' /\
    heap_inv h' (acoalesce (arelease p (heap_head h) bl)) /\
    coalesced (acoalesce (arelease p (heap_head h) bl)) /\
    forall y c, (y, c) ∈ blocks_at (heap_head h) bl -> bfr c = false -> (y, c) <> (p - HEADER_SIZE, b) ->
      agree (hmem h) (hmem h') (y + HEADER_SIZE) (bsz c)).
Proof.
  intros Hi Hp. pose proof Hi as [Hc _ Hok _ [Hh _] _].
  pose proof (blocks_at_chain _ _ _ _ _ Hc Hp) as (_ & Hfree & Hmag).
  split; [|split; [done|]].
  - intros Hb. unfold kfree. destruct (p =? 0); [done|]. rewrite Hmag, Hfree, Hb. done.
  - intros Hb. destruct (kfree_spec p h bl b Hi Hp Hb) as (h' & E & Hi' & _ & Hk).
    exists h'. split; [done|]. split; [done|]. split; [apply acoalesce_coalesced|].
    intros y c Hy Hcf Hne x Hx. symmetry. apply Hk.
    + destruct (blocks_disjoint _ _ _ _ _ _ Hok Hy Hp) as [?|?]; [done|].
      pose proof (blocks_at_range _ _ _ _ Hok Hp) as ([? _] & _). unfold HEADER_SIZE in *. lia.
    + intros (z & d & Hz & Hdf & Hzx).
      destruct (blocks_disjoint _ _ _ _ _ _ Hok Hy Hz) as [?|?]; [congruence|].
      pose proof (blocks_at_range _ _ _ _ Hok Hz) as ([? _] & _). unfold HEADER_SIZE in *. lia.
Qed.

(** C3: [kfree] on an allocated block always ends; it releases that block,
    merges all neighbouring free blocks (none remain adjacent), keeps the heap
    well formed and changes no byte of any other allocated block.  Freeing a
    block that is already free, or the null pointer, changes nothing. *)
Theorem kfree_correct p h bl b :
  heap_inv h bl -> (p - HEADER_SIZE, b) ∈ blocks_at (heap_head h) bl ->
  (bfr b = true -> kfree p h = Some h) /\ kfree 0 h = Some h /\
  (bfr b = false ->
   exists h', kfree p h = Some h' /\
    heap_inv h' (acoalesce (arelease p (heap_head h) bl)) /\
    coalesced (acoalesce (arelease p (heap_head h) bl)) /\
    forall y c, (y, c) ∈ blocks_at (heap_head h) bl -> bfr c = false -> (y, c) <> (p - HEADER_SIZE, b) ->
      agree (hmem h) (hmem h') (y + HEADER_SIZE) (bsz c)).
Proof. apply kfree_cases. Qed.

Lemma arelease_amalloc size a bl p bl' :
  Forall blk_ok bl -> coalesced bl -> 0 <= size ->
  amalloc size a bl = Some (p, bl') -> acoalesce (arelease p a bl') = bl.
Proof.
  intros Hok. revert a p bl'. induction Hok as [|b r [Hb _] Hr IH]; intros a p bl' Hco Hs; cbn [amalloc]; [done|].
  assert (coalesced r) as Hcr by (destruct r; [done | by destruct Hco]).
  destruct (bfr b && (size <=? bsz b)) eqn:E.
  - apply andb_prop in E as [Eb _]. intros [= <- <-].
    destruct (_ <=? _); cbn [arelease bsz]; rewrite Z.eqb_refl.
    + rewrite <- (acoalesce_step (mk_blk size true) (mk_blk (bsz b - size - HEADER_SIZE) true)) by done.
      cbn [bsz]. replace (size + HEADER_SIZE + (bsz b - size - HEADER_SIZE)) with (bsz b) by lia.
      rewrite acoalesce_id; destruct b; cbn in *; by subst.
    + rewrite acoalesce_id; destruct b; cbn in *; by subst.
  - destruct (amalloc size (a + HEADER_SIZE + bsz b) r) as [[p' r']|] eqn:E2; [|done].
    intros [= <- <-]. destruct (amalloc_blocks _ _ _ _ _ E2) as [_ (b' & Hb' & _)].
    pose proof (IH _ _ _ Hcr Hs E2) as IH'.
    cbn [arelease]. destruct (Z.eqb_spec p' (a + HEADER_SIZE)) as [->|Hne].
    + exfalso. clear - E2 Hr Hb. revert E2. intros E2.
      assert (forall s x l q l', Forall blk_ok l -> amalloc s x l = Some (q, l') -> x + HEADER_SIZE <= q) as Hge.
      { clear. intros s x l q l' Hok. revert x q l'. induction Hok as [|c l [Hc _] _ IH]; intros x q l'; cbn [amalloc]; [done|].
        destruct (_ && _)%bool; [intros [= <- _]; lia|].
        destruct (amalloc s _ l) as [[]|] eqn:E; [|done]. intros [= <- _]. apply IH in E. unfold HEADER_SIZE in *. lia. }
      apply Hge in E2; [|done]. unfold HEADER_SIZE in *. lia.
    + cbn [acoalesce foldr]. fold (acoalesce (arelease p' (a + HEADER_SIZE + bsz b) r')).
      rewrite IH'. change (merge b r = b :: r). destruct r as [|c r0]; [done|]. cbn [merge].
      destruct Hco as [-> _]. done.
Qed.

(** On a coalesced heap, allocating and then freeing the result gives back
    exactly the same list of blocks: splitting leaves nothing behind. *)
Theorem kmalloc_kfree_roundtrip size h bl p h' :
  heap_inv h bl -> coalesced bl -> 0 < size <= 2 ^ 32 - 16 ->
  kmalloc size h = Some (p, h') -> p <> 0 ->
  exists h'', kfree p h' = Some h'' /\ heap_inv h'' bl.
Proof.
  intros Hi Hco Hs E Hp. destruct (kmalloc_spec size h bl Hi Hs) as (p0 & h0 & E0 & H).
  rewrite E in E0. injection E0 as <- <-.
  destruct (round16_small size ltac:(lia)) as (R1 & _ & R3).
  destruct (amalloc _ _ _) as [[p' bl']|] eqn:Ea; [|by destruct H as [-> _]].
  destruct H as (<- & Hi' & Hh & _). rewrite <- Hh in Ea.
  destruct (amalloc_blocks _ _ _ _ _ Ea) as [_ (b & Hb & Hbf & _)].
  destruct (kfree_spec p h' bl' b Hi' Hb Hbf) as (h'' & E2 & Hi'' & _).
  exists h''. split; [done|]. pose proof Hi as [_ _ Hok _ _ _].
  rewrite <- (arelease_amalloc _ _ _ _ _ Hok Hco (proj1 R3) Ea). done.
Qed.

(** The rounding mask [~15u] is 32 bits wide, so a request of 4 GB or more
    is served as if its upper 32 bits were zero: the block returned is as
    large as the remainder modulo 2^32 asks for, not as large as requested. *)
Theorem kmalloc_truncates_to_32_bits size h :
  0 < size mod 2 ^ 32 -> 0 <= size < 2 ^ 64 - 16 ->
  kmalloc size h = kmalloc (size mod 2 ^ 32) h.
Proof.
  intros Hr Hs. unfold kmalloc. pose proof (Z.mod_pos_bound size (2 ^ 32)) as Hb.
  destruct (Z.eqb_spec size 0) as [->|]; [done|].
  destruct (Z.eqb_spec (size mod 2 ^ 32) 0); [lia|].
  replace (round16 size) with (round16 (size mod 2 ^ 32)); [done|].
  unfold round16. rewrite !u64_small by lia.
  rewrite (land_low_mask (size + 15) _ 32) by (try lia; apply u32_range).
  rewrite (land_low_mask (size mod 2 ^ 32 + 15) _ 32) by (try lia; apply u32_range).
  by rewrite Zplus_mod_idemp_l.
Qed.

(** Writing inside the payload of a block keeps every header. *)
Lemma chain_payload m m' a bl x b :
  Forall blk_ok bl -> chain m a bl -> (x, b) ∈ blocks_at a bl ->
  (forall z, ~ (x + HEADER_SIZE <= z < x + HEADER_SIZE + bsz b) -> m' z = m z) -> chain m' a bl.
Proof.
  intros Hok. revert a. induction Hok as [|c r [Hc _] Hr IH]; intros a; cbn [chain blocks_at].
  { intros _ H. by apply not_elem_of_nil in H. }
  intros (H1 & H2 & H3 & H4 & H5) Hx Hk.
  apply elem_of_cons in Hx as [Hx|Hx].
  - injection Hx as -> ->. eapply header_keep; [|split; [exact H1|]; split; [exact H2|];
      split; [exact H3|]; split; [exact H4|]].
    + intros z Hz. apply Hk. lia.
    + eapply chain_agree; [done| |exact H5]. intros z Hz. symmetry. apply Hk. lia.
  - pose proof (blocks_at_range _ _ _ _ Hr Hx) as (_ & Hlo & _).
    eapply header_keep; [|split; [exact H1|]; split; [exact H2|];
      split; [exact H3|]; split; [exact H4 | by apply IH]].
    intros z Hz. apply Hk. unfold HEADER_SIZE in *. lia.
Qed.

Lemma heap_inv_payload h m' bl x b :
  heap_inv h bl -> (x, b) ∈ blocks_at (heap_head h) bl ->
  (forall z, ~ (x + HEADER_SIZE <= z < x + HEADER_SIZE + bsz b) -> m' z = hmem h z) ->
  heap_inv (set_mem h m') bl.
Proof.
  intros [Hc Hne Hok Hsp Hh Ht] Hx Hk. split; try done. cbn [set_mem hmem heap_head].
  by eapply chain_payload.
Qed.

(** [heap_init] sets up a heap of one free block, so that the first
    allocation that fits succeeds; later operations never change the span. *)
Lemma heap_init_correct start size m :
  0 < start -> start mod 16 = 0 -> HEADER_SIZE <= size -> size mod 16 = 0 -> start + size < 2 ^ 63 ->
  heap_inv (heap_init start size m) [mk_blk (size - HEADER_SIZE) true].
Proof.
  intros H1 H2 H3 H4 H5. unfold HEADER_SIZE in *. split; cbn [heap_init heap_head heap_total]; try done.
  - unfold heap_init, HEADER_SIZE. cbn [hmem heap_head chain bsz bfr fl link].
    unfold hsize, hfree, hmagic, hnext, set_hsize, set_hfree, set_hmagic, set_hnext.
    rewrite u64_small by lia. mem_simpl. rewrite !Z.mod_small by (unfold HEAP_MAGIC; lia). done.
  - apply Forall_singleton. split; cbn [bsz]; [lia | dlia].
  - cbn [span bsz]. unfold HEADER_SIZE. lia.
Qed.

Lemma pow2_is_pow2 k : 0 <= k -> Z.land (2 ^ k) (2 ^ k - 1) = 0.
Proof.
  intros Hk. rewrite land_ones_mod by done. apply Z.mod_same. assert (0 < 2 ^ k) by (apply Z.pow_pos_nonneg; lia). lia.
Qed.

(** [kmalloc_aligned] returns an address that is a multiple of the (power
    of two) alignment, whose [size] bytes lie inside one allocated block, and
    [kfree_aligned] finds that block again: it frees exactly the raw pointer. *)
Theorem kmalloc_aligned_correct size k h bl p h' :
  heap_inv h bl -> 3 <= k < 31 -> 0 <= size < 2 ^ 30 ->
  kmalloc_aligned size (2 ^ k) h = Some (p, h') -> p <> 0 ->
  p mod 2 ^ k = 0 /\
  exists bl' raw b, heap_inv h' bl' /\ (raw - HEADER_SIZE, b) ∈ blocks_at (heap_head h') bl' /\
    bfr b = false /\ raw + 8 <= p /\ p + size <= raw + bsz b /\
    kfree_aligned p h' = kfree raw h'.
Proof.
  intros Hi Hk Hs. unfold kmalloc_aligned.
  assert (2 ^ 3 <= 2 ^ k < 2 ^ 31) as Hp2.
  { split; [apply Z.pow_le_mono_r; lia | apply Z.pow_lt_mono_r; lia]. }
  rewrite pow2_is_pow2 by lia. destruct (Z.eqb_spec (2 ^ k) 0); [lia|].
  destruct (Z.ltb_spec (2 ^ k) 8); [lia|]. simpl.
  rewrite (u64_small (size + 2 ^ k + 8)) by lia.
  destruct (kmalloc (size + 2 ^ k + 8) h) as [[raw h1]|] eqn:E; [|done]. simpl.
  destruct (Z.eqb_spec raw 0) as [->|Hraw]; [intros [= <- _]; done|].
  destruct (kmalloc_spec (size + 2 ^ k + 8) h bl Hi ltac:(lia)) as (p0 & h0 & E0 & Hr).
  rewrite E in E0. injection E0 as <- <-.
  destruct (kmalloc_fresh (size + 2 ^ k + 8) _ _ _ _ Hi ltac:(lia) E Hraw) as (Hr16 & bl' & b & Hi1 & Hb & Hbf & Hbs & _).
  assert (heap_head h1 = heap_head h) as Hh.
  { destruct (amalloc _ _ _) as [[]|]; [by destruct Hr as (_ & _ & ? & _) | by destruct Hr as [_ ->]]. }
  rewrite <- Hh in Hb. pose proof Hi1 as [_ _ Hok1 Hsp1 [Hh1 _] Ht1].
  pose proof (blocks_at_range _ _ _ _ Hok1 Hb) as ([Hb0 _] & Hlo & Hhi).
  unfold HEADER_SIZE in Hlo, Hhi.
  rewrite (u64_small (raw + 8 + 2 ^ k - 1)) by lia. unfold u64. rewrite land_align by lia.
  set (q := (raw + 8 + 2 ^ k - 1) / 2 ^ k).
  assert (raw + 8 <= 2 ^ k * q <= raw + 8 + 2 ^ k - 1) as Hq.
  { unfold q. pose proof (Z.div_mod (raw + 8 + 2 ^ k - 1) (2 ^ k) ltac:(lia)).
    pose proof (Z.mod_pos_bound (raw + 8 + 2 ^ k - 1) (2 ^ k) ltac:(lia)). lia. }
  clearbody q. intros [= <- <-] Hp.
  split; [rewrite Z.mul_comm; apply Z.mod_mul; lia|].
  exists bl', raw, b. split; [|split; [exact Hb|]].
  - eapply heap_inv_payload; [exact Hi1 | exact Hb |]. intros z Hz.
    unfold store64, HEADER_SIZE in *. apply store_le_outside. lia.
  - split; [done|]. split; [lia|]. split; [lia|].
    unfold kfree_aligned. destruct (Z.eqb_spec (2 ^ k * q) 0); [lia|].
    cbn [hmem set_mem]. rewrite load64_store64, u64_small by lia. done.
Qed.

(** Growing a block with [krealloc].  A request that fits is served in
    place.  Otherwise, if memory is found, the new block holds the old contents
    and the old block is released; if none is found the result is null and the
    old block is untouched. *)
Theorem krealloc_correct ptr new_size h bl b :
  heap_inv h bl -> (ptr - HEADER_SIZE, b) ∈ blocks_at (heap_head h) bl -> bfr b = false ->
  0 < new_size <= 2 ^ 32 - 16 ->
  (new_size <= bsz b -> krealloc ptr new_size h = Some (ptr, h)) /\
  (bsz b < new_size ->
   exists np h', krealloc ptr new_size h = Some (np, h') /\
     ((np = 0 /\ h' = h) \/
      (np <> 0 /\ (exists bl', heap_inv h' bl' /\ coalesced bl') /\
       forall i, 0 <= i < bsz b -> hmem h' (np + i) = hmem h (ptr + i)))).
Proof.
  intros Hi Hp Hbf Hs. pose proof Hi as [Hc _ Hok Hsp [Hh _] Ht].
  pose proof (blocks_at_chain _ _ _ _ _ Hc Hp) as (Hsz & _ & Hmag).
  pose proof (blocks_at_range _ _ _ _ Hok Hp) as ([Hb0 _] & Hlo & _).
  unfold krealloc. destruct (Z.eqb_spec ptr 0); [unfold HEADER_SIZE in *; lia|].
  destruct (Z.eqb_spec new_size 0); [lia|]. rewrite Hmag, Hsz. simpl.
  split.
  { intros Hle. destruct (Z.leb_spec new_size (bsz b)); [done | lia]. }
  intros Hlt. destruct (Z.leb_spec new_size (bsz b)); [lia|].
  destruct (kmalloc_spec new_size h bl Hi Hs) as (np & h1 & E & Hr). rewrite E. simpl.
  destruct (Z.eqb_spec np 0) as [->|Hnp].
  { do 2 eexists. split; [done|]. left. split; [done|].
    destruct (amalloc _ _ _) as [[p' bl']|] eqn:Ea; [|by destruct Hr].
    destruct Hr as (<- & _ & _ & (z & d & Hz & _ & Hpz & _)).
    pose proof (blocks_at_range _ _ _ _ Hok Hz) as (_ & ? & _). unfold HEADER_SIZE in *. lia. }
  destruct (kmalloc_fresh _ _ _ _ _ Hi Hs E Hnp) as (_ & bl1 & nb & Hi1 & Hnb & Hnbf & Hnbs & Hold).
  destruct (Hold _ _ Hp Hbf) as (Hp1 & Hdis & Hag).
  assert (heap_head h1 = heap_head h) as Hh1.
  { destruct (amalloc _ _ _) as [[]|]; [by destruct Hr as (_ & _ & ? & _) | by destruct Hr as [_ ->]]. }
  rewrite <- Hh1 in Hnb, Hp1. pose proof Hi1 as [Hc1 _ Hok1 _ _ _].
  pose proof (blocks_at_chain _ _ _ _ _ Hc1 Hp1) as (Hsz1 & _ & _). rewrite Hsz1.
  set (m2 := kmemcpy (hmem h1) np ptr (bsz b)).
  assert (heap_inv (set_mem h1 m2) bl1) as Hi2.
  { eapply heap_inv_payload; [exact Hi1 | exact Hnb |]. intros z Hz. unfold m2, kmemcpy.
    apply copy_up_outside. unfold HEADER_SIZE in *. lia. }
  destruct (kfree_spec ptr (set_mem h1 m2) bl1 b Hi2 Hp1 Hbf) as (h3 & E3 & Hi3 & _ & Hk3).
  rewrite E3. simpl. do 2 eexists. split; [done|]. right. split; [done|]. split.
  { eexists. split; [exact Hi3 | apply acoalesce_coalesced]. }
  unfold HEADER_SIZE in *. intros i Hii. rewrite Hk3.
  - cbn [hmem set_mem]. unfold m2, kmemcpy. rewrite copy_up_inside by lia.
    rewrite (Hag (ptr + i)) by lia. f_equal. lia.
  - lia.
  - intros (y & c & Hy & Hcf & Hyx). cbn [heap_head set_mem] in Hy.
    destruct (blocks_disjoint _ _ _ _ _ _ Hok1 Hy Hnb) as [?|?]; [congruence|].
    pose proof (blocks_at_range _ _ _ _ Hok1 Hy) as ([? _] & _). unfold HEADER_SIZE in *. lia.
Qed.

(** ** The heap implements the allocator interface *)

Lemma chain_unique m a bl bl' :
  Forall blk_ok bl -> Forall blk_ok bl' -> span bl = span bl' ->
  chain m a bl -> chain m a bl' -> bl = bl'.
Proof.
  intros Hok. revert a bl'. induction Hok as [|[s f] r [Hb _] Hr IH]; intros a bl' Hok' Hs H H'.
  - destruct Hok' as [|[s' f'] r' [Hb' _] Hr']; [done|]. pose proof (span_nonneg r' Hr').
    cbn [span bsz] in *. unfold HEADER_SIZE in *. lia.
  - destruct Hok' as [|[s' f'] r' [Hb' _] Hr'].
    { pose proof (span_nonneg r Hr). cbn [span bsz] in *. unfold HEADER_SIZE in *. lia. }
    cbn [chain bsz bfr] in *. destruct H as (H1 & H2 & _ & _ & H5), H' as (G1 & G2 & _ & _ & G5).
    assert (s' = s) as -> by congruence.
    assert (f' = f) as -> by (rewrite H2 in G2; by destruct f, f').
    f_equal. apply (IH (a + HEADER_SIZE + s)); try done. cbn [span bsz] in Hs. lia.
Qed.

Lemma heap_inv_unique h bl bl' : heap_inv h bl -> heap_inv h bl' -> bl = bl'.
Proof.
  intros [Hc _ Hok Hs _ _] [Hc' _ Hok' Hs' _ _]. eapply chain_unique; try done. congruence.
Qed.

Lemma merge_blocks a b r y c :
  bfr c = false ->
  (y, c) ∈ (a, b) :: blocks_at (a + HEADER_SIZE + bsz b) r -> (y, c) ∈ blocks_at a (merge b r).
Proof.
  intros Hc Hy. destruct r as [|d r]; cbn [merge].
  { cbn [blocks_at] in *. exact Hy. }
  destruct (bfr b && bfr d) eqn:E; [|exact Hy]. apply andb_prop in E as [Eb Ed].
  cbn [blocks_at bsz] in *. apply elem_of_cons in Hy as [[= -> ->]|Hy]; [congruence|].
  apply elem_of_cons in Hy as [[= -> ->]|Hy]; [congruence|]. right.
  by replace (a + HEADER_SIZE + (bsz b + HEADER_SIZE + bsz d))
    with (a + HEADER_SIZE + bsz b + HEADER_SIZE + bsz d) by lia.
Qed.

Lemma acoalesce_blocks a bl y c :
  bfr c = false -> (y, c) ∈ blocks_at a bl -> (y, c) ∈ blocks_at a (acoalesce bl).
Proof.
  intros Hc. revert a. induction bl as [|b r IH]; intros a; cbn [blocks_at].
  { intros H. by apply not_elem_of_nil in H. }
  intros Hy. cbn [acoalesce foldr]. apply merge_blocks; [done|].
  apply elem_of_cons in Hy as [Hy|Hy]; [rewrite Hy; by left|]. right. by apply IH.
Qed.

Lemma arelease_blocks_keep p a bl y c :
  (y, c) ∈ blocks_at a bl -> p <> y + HEADER_SIZE -> (y, c) ∈ blocks_at a (arelease p a bl).
Proof.
  revert a. induction bl as [|d r IH]; intros a; cbn [blocks_at arelease]; [done|].
  intros Hy Hp. apply elem_of_cons in Hy as [Hy|Hy].
  - injection Hy as -> ->. destruct (Z.eqb_spec p (a + HEADER_SIZE)); [lia|]. cbn [blocks_at]. by left.
  - destruct (Z.eqb_spec p (a + HEADER_SIZE)); cbn [blocks_at bsz]; right; [done | by apply IH].
Qed.

(** [p] is the payload of an allocated block of at least [n] bytes. *)
Definition heap_owns (h : heap) (p n : Z) : Prop :=
  exists bl b, heap_inv h bl /\ (p - HEADER_SIZE, b) ∈ blocks_at (heap_head h) bl /\
    bfr b = false /\ n <= bsz b.

#[export] Instance heap_allocator : Allocator heap :=
  { a_alloc := kmalloc; a_free := kfree; a_mem := hmem; a_set_mem := set_mem }.

Lemma heap_alloc_spec n h :
  (exists bl, heap_inv h bl) -> 0 < n <= 2 ^ 32 - 16 ->
  exists p h', kmalloc n h = Some (p, h') /\ (exists bl, heap_inv h' bl) /\
    (p = 0 -> h' = h) /\
    (p <> 0 -> heap_owns h' p n /\
      forall q k, heap_owns h q k -> 0 <= k ->
        heap_owns h' q k /\ (p + n <= q \/ q + k <= p) /\ agree (hmem h) (hmem h') q k).
Proof.
  intros [bl Hi] Hn. destruct (kmalloc_spec n h bl Hi Hn) as (p & h' & E & Hr).
  exists p, h'. split; [done|].
  destruct (amalloc _ _ _) as [[p' bl1]|] eqn:Ea.
  2: { destruct Hr as [-> ->]. split; [by eexists|]. done. }
  destruct Hr as (<- & Hi1 & Hh & (z & d & Hz & _ & Hpz & _)).
  split; [by eexists|]. split.
  { intros ->. pose proof Hi as [_ _ Hok _ [Hhd _] _].
    pose proof (blocks_at_range _ _ _ _ Hok Hz) as (_ & ? & _). unfold HEADER_SIZE in *. lia. }
  intros Hp. destruct (kmalloc_fresh n h bl p h' Hi Hn E Hp) as (_ & bl2 & b & Hi2 & Hb & Hbf & Hbs & Hold).
  rewrite <- Hh in Hb. split; [by exists bl2, b|].
  intros q k (bl0 & c & Hi0 & Hq & Hcf & Hk) Hk0.
  rewrite (heap_inv_unique _ _ _ Hi0 Hi) in Hq.
  destruct (Hold _ _ Hq Hcf) as (Hq' & Hd & Hag). unfold HEADER_SIZE in *.
  split; [|split].
  - exists bl2, c. rewrite Hh. done.
  - lia.
  - intros x Hx. apply Hag. lia.
Qed.

Lemma heap_free_spec p n h :
  (exists bl, heap_inv h bl) -> heap_owns h p n ->
  exists h', kfree p h = Some h' /\ (exists bl, heap_inv h' bl) /\
    forall q k, heap_owns h q k -> q <> p -> 0 <= k -> heap_owns h' q k /\ agree (hmem h) (hmem h') q k.
Proof.
  intros _ (bl & b & Hi & Hb & Hbf & _). pose proof Hi as [_ _ Hok _ _ _].
  destruct (kfree_spec p h bl b Hi Hb Hbf) as (h' & E & Hi' & Hh & _).
  destruct (kfree_cases p h bl b Hi Hb) as (_ & _ & Hc). destruct (Hc Hbf) as (h2 & E2 & _ & _ & Hag).
  rewrite E in E2. injection E2 as <-.
  exists h'. split; [done|]. split; [by eexists|].
  intros q k (bl0 & c & Hi0 & Hq & Hcf & Hk) Hqp Hk0.
  rewrite (heap_inv_unique _ _ _ Hi0 Hi) in Hq. split.
  - exists (acoalesce (arelease p (heap_head h) bl)), c. split; [done|]. rewrite Hh.
    split; [|done]. apply acoalesce_blocks; [done|]. apply arelease_blocks_keep; [done | lia].
  - intros x Hx. apply (Hag (q - HEADER_SIZE) c Hq Hcf); [|lia]. intros [= Heq _]. lia.
Qed.

Lemma heap_write_spec p n h m' :
  (exists bl, heap_inv h bl) -> heap_owns h p n ->
  (forall x, ~ (p <= x < p + n) -> m' x = hmem h x) ->
  (exists bl, heap_inv (set_mem h m') bl) /\ (forall q k, heap_owns h q k -> heap_owns (set_mem h m') q k).
Proof.
  intros _ (bl & b & Hi & Hb & Hbf & Hn) Hk.
  assert (heap_inv (set_mem h m') bl) as Hi'.
  { eapply heap_inv_payload; [done.. |]. intros x Hx. apply Hk. unfold HEADER_SIZE in *. lia. }
  split; [by eexists|]. intros q k (bl0 & c & Hi0 & Hq & Hc).
  rewrite (heap_inv_unique _ _ _ Hi0 Hi) in Hq. by exists bl, c.
Qed.

Lemma heap_owns_range h p n :
  (exists bl, heap_inv h bl) -> heap_owns h p n -> 0 < p /\ p + n < 2 ^ 63 /\ p mod 16 = 0.
Proof.
  intros _ (bl & b & [_ _ Hok Hs [Hh Hh16] Ht] & Hb & _ & Hn).
  pose proof (blocks_at_range _ _ _ _ Hok Hb) as (_ & Hlo & Hhi).
  pose proof (blocks_at_mod16 _ _ _ _ Hok Hh16 Hb) as Hm. unfold HEADER_SIZE in *.
  split; [lia|]. split; [lia | dlia].
Qed.

#[export] Instance heap_allocator_spec : AllocatorSpec heap := {
  a_inv h := exists bl, heap_inv h bl;
  a_owns := heap_owns;
  a_max := 2 ^ 32 - 16;
  a_max_bound := ltac:(lia);
  a_owns_range := heap_owns_range;
  a_alloc_spec := heap_alloc_spec;
  a_free_spec := heap_free_spec;
  a_write_spec := heap_write_spec;
  a_mem_set_mem := fun h m => eq_refl;
}.

(** ** Concrete instances: a 1 KB heap at address 4096 *)

Definition demo_heap : heap := heap_init 4096 1024 (fun _ => 0).

Lemma demo_heap_inv : heap_inv demo_heap [mk_blk 992 true].
Proof. apply (heap_init_correct 4096 1024 (fun _ => 0)); unfold HEADER_SIZE; lia || done. Qed.

Definition demo_block : heap := match kmalloc 40 demo_heap with Some (_, h) => h | None => demo_heap end.

Lemma demo_block_eq : kmalloc 40 demo_heap = Some (4128, demo_block).
Proof. reflexivity. Qed.

Lemma demo_block_inv : heap_inv demo_block [mk_blk 48 false; mk_blk 912 true].
Proof.
  destruct (kmalloc_spec 40 demo_heap _ demo_heap_inv ltac:(lia)) as (p & h' & E & H).
  rewrite demo_block_eq in E. injection E as <- <-. exact (proj1 (proj2 H)).
Qed.

Lemma kmalloc_refines_first_fit_witness :
  exists p h', kmalloc 40 demo_heap = Some (p, h') /\ p = 4128 /\
    heap_inv h' [mk_blk 48 false; mk_blk 912 true].
Proof.
  destruct (kmalloc_refines_first_fit 40 demo_heap [mk_blk 992 true] demo_heap_inv ltac:(lia))
    as (p & h' & E & H1 & H2 & _).
  exists p, h'. exact (conj E (conj H1 H2)).
Defined.

Lemma kmalloc_safe_witness : 4128 mod 16 = 0 /\ exists bl' b, heap_inv demo_block bl' /\ (4128 - HEADER_SIZE, b) ∈ blocks_at 4096 bl' /\ 40 <= bsz b.
Proof.
  destruct (kmalloc_safe 40 demo_heap _ 4128 demo_block demo_heap_inv ltac:(lia) demo_block_eq ltac:(lia))
    as (H & bl' & b & H1 & H2 & _ & H3 & _).
  split; [exact H | exists bl', b; exact (conj H1 (conj H2 H3))].
Defined.

Lemma demo_block_in : (4128 - HEADER_SIZE, mk_blk 48 false) ∈ blocks_at (heap_head demo_block) [mk_blk 48 false; mk_blk 912 true].
Proof. cbn [blocks_at]. by left. Qed.

Lemma kfree_correct_witness :
  exists h', kfree 4128 demo_block = Some h' /\ heap_inv h' [mk_blk 992 true].
Proof.
  destruct (kfree_correct 4128 demo_block _ _ demo_block_inv demo_block_in) as (_ & _ & H).
  destruct (H eq_refl) as (h' & E & Hi & _). exists h'. exact (conj E Hi).
Defined.

Lemma kmalloc_kfree_roundtrip_witness :
  exists h'', kfree 4128 demo_block = Some h'' /\ heap_inv h'' [mk_blk 992 true].
Proof.
  exact (kmalloc_kfree_roundtrip 40 demo_heap _ 4128 demo_block demo_heap_inv I ltac:(lia) demo_block_eq ltac:(lia)).
Defined.

Lemma kmalloc_truncates_to_32_bits_witness :
  kmalloc (2 ^ 32 + 40) demo_heap = Some (4128, demo_block).
Proof.
  rewrite (kmalloc_truncates_to_32_bits (2 ^ 32 + 40) demo_heap) by (vm_compute; intuition congruence).
  reflexivity.
Defined.


Lemma kmalloc_aligned_correct_witness :
  exists p h', kmalloc_aligned 20 64 demo_heap = Some (p, h') /\ p <> 0 /\ p mod 2 ^ 6 = 0.
Proof.
  eexists _, _. split; [reflexivity|]. split; [vm_compute; discriminate|].
  refine (proj1 (kmalloc_aligned_correct 20 6 demo_heap _ _ _ demo_heap_inv _ _ eq_refl _));
    [lia | lia | vm_compute; discriminate].
Defined.

Lemma krealloc_correct_witness :
  krealloc 4128 48 demo_block = Some (4128, demo_block) /\
  exists np h', krealloc 4128 100 demo_block = Some (np, h') /\
    ((np = 0 /\ h' = demo_block) \/
      (np <> 0 /\ (exists bl', heap_inv h' bl' /\ coalesced bl') /\
       forall i, 0 <= i < 48 -> hmem h' (np + i) = hmem demo_block (4128 + i))).
Proof.
  split.
  - apply (krealloc_correct 4128 48 demo_block _ _ demo_block_inv demo_block_in eq_refl ltac:(lia)). simpl. lia.
  - apply (krealloc_correct 4128 100 demo_block _ _ demo_block_inv demo_block_in eq_refl ltac:(lia)). simpl. lia.
Defined.

Definition big_heap : heap := heap_init 65536 65536 (fun _ => 0).

Lemma big_heap_inv : a_inv big_heap.
Proof. exists [mk_blk 65504 true]. apply (heap_init_correct 65536 65536); vm_compute; done. Qed.
