(* ===== verification/Task.v ===== *)
(** Tasks (kernel/task.c) and the context switch (kernel/switch_context.asm):
    the table of task slots, task creation over an abstract allocator, the
    initial stack frame, and the save and restore of the callee-saved
    registers.  A [task_t *] is an index into [g_tasks]; [NULL] is -1. *)

From S2P Require Import Prelude Memory Alloc Heap.
Local Open Scope Z_scope.

Definition TASK_MAX : Z := 32.
Definition TASK_NAME_LEN : Z := 32.
Definition NULL : Z := -1.

Inductive task_state := TASK_DEAD | TASK_READY | TASK_RUNNING | TASK_BLOCKED | TASK_SLEEPING.

#[export] Instance task_state_eq_dec : EqDecision task_state.
Proof. solve_decision. Defined.

Record task := mk_task {
  pid : Z;
  name : Z -> Z;
  state : task_state;
  t_rsp : Z;
  cr3 : Z;
  stack_base : Z;
  stack_size : Z;
  next : Z;
  prev : Z;
  wake_tick : Z;
  ticks_run : Z;
}.

(** [kmemzero(t, sizeof(task_t))]: in a zeroed slot the two link pointers are
    null. *)
Definition zero_task : task := mk_task 0 (fun _ => 0) TASK_DEAD 0 0 0 0 NULL NULL 0 0.

Definition set_state (s : task_state) (t : task) : task :=
  mk_task (pid t) (name t) s (t_rsp t) (cr3 t) (stack_base t) (stack_size t) (next t) (prev t) (wake_tick t) (ticks_run t).
Definition set_rsp (v : Z) (t : task) : task :=
  mk_task (pid t) (name t) (state t) v (cr3 t) (stack_base t) (stack_size t) (next t) (prev t) (wake_tick t) (ticks_run t).
Definition set_stack_base (v : Z) (t : task) : task :=
  mk_task (pid t) (name t) (state t) (t_rsp t) (cr3 t) v (stack_size t) (next t) (prev t) (wake_tick t) (ticks_run t).
Definition set_next (v : Z) (t : task) : task :=
  mk_task (pid t) (name t) (state t) (t_rsp t) (cr3 t) (stack_base t) (stack_size t) v (prev t) (wake_tick t) (ticks_run t).
Definition set_prev (v : Z) (t : task) : task :=
  mk_task (pid t) (name t) (state t) (t_rsp t) (cr3 t) (stack_base t) (stack_size t) (next t) v (wake_tick t) (ticks_run t).
Definition set_wake_tick (v : Z) (t : task) : task :=
  mk_task (pid t) (name t) (state t) (t_rsp t) (cr3 t) (stack_base t) (stack_size t) (next t) (prev t) v (ticks_run t).
Definition set_ticks_run (v : Z) (t : task) : task :=
  mk_task (pid t) (name t) (state t) (t_rsp t) (cr3 t) (stack_base t) (stack_size t) (next t) (prev t) (wake_tick t) v.

(** [t->field = v] for the task in slot [i]. *)
Definition alter_task (f : task -> task) (i : Z) (ts : Z -> task) : Z -> task := upd ts i (f (ts i)).

(** The copy loop of [kstrncpy]: [src] is null or a NUL-terminated array. *)
Fixpoint kstrncpy_loop (fuel : nat) (dst : Z -> Z) (src : option (Z -> Z)) (i n : Z) : (Z -> Z) * Z :=
  match fuel with
  | O => (dst, i)
  | S fuel' =>
      match src with
      | Some s =>
          if (i + 1 <? n) && negb (s i =? 0)
          then kstrncpy_loop fuel' (upd dst i (s i)) src (i + 1) n
          else (dst, i)
      | None => (dst, i)
      end
  end.

Definition kstrncpy (dst : Z -> Z) (src : option (Z -> Z)) (n : Z) : Z -> Z :=
  let '(d, i) := kstrncpy_loop (Z.to_nat n) dst src 0 n in upd d i 0.

(** A string literal as the array the compiler lays out. *)
Definition c_string (l : list Z) : Z -> Z := fun i => default 0 (if i <? 0 then None else l !! Z.to_nat i).

(** ** The machine context *)

Record cpu := mk_cpu {
  rip : Z; rsp : Z; rbp : Z; rbx : Z; r12 : Z; r13 : Z; r14 : Z; r15 : Z
}.

Definition push (v : Z) (ms : mem * Z) : mem * Z :=
  let sp := u64 (ms.2 - 8) in (store64 ms.1 sp v, sp).

Definition pop (m : mem) (sp : Z) : Z * Z := (load64 m sp, u64 (sp + 8)).

(** [call switch_context] and the pushes: the return address [rip c] and the
    six callee-saved registers go on the current stack; the result is the
    memory and the stack pointer stored through [rdi]. *)
Definition save_context (m : mem) (c : cpu) : mem * Z :=
  push (r15 c) (push (r14 c) (push (r13 c) (push (r12 c) (push (rbx c) (push (rbp c)
    (push (rip c) (m, rsp c))))))).

(** [mov rsp, rsi], the six pops and [ret]. *)
Definition load_context (m : mem) (rsi : Z) : cpu :=
  let '(x15, s1) := pop m rsi in
  let '(x14, s2) := pop m s1 in
  let '(x13, s3) := pop m s2 in
  let '(x12, s4) := pop m s3 in
  let '(xbx, s5) := pop m s4 in
  let '(xbp, s6) := pop m s5 in
  let '(xip, s7) := pop m s6 in
  mk_cpu xip s7 xbp xbx x12 x13 x14 x15.

Definition CONTEXT_SIZE : Z := 56.

Definition cpu_ok (c : cpu) : Prop :=
  Forall (fun v => 0 <= v < 2 ^ 64) [rip c; rbp c; rbx c; r12 c; r13 c; r14 c; r15 c].

(** ** The task table *)

Section Tasks.
Context {A : Type} `{Allocator A}.

(** [task_entry_trampoline], the code address the assembler defines. *)
Variable task_entry_trampoline : Z.

(** The statics of task.c and the allocator it calls. *)
Record tasks := mk_tasks {
  g_tasks : Z -> task;
  g_next_pid : Z;
  g_current : Z;
  alloc : A;
}.

Definition set_tasks (f : Z -> task) (s : tasks) : tasks := mk_tasks f (g_next_pid s) (g_current s) (alloc s).
Definition set_alloc (a : A) (s : tasks) : tasks := mk_tasks (g_tasks s) (g_next_pid s) (g_current s) a.

Definition task_init (s : tasks) : tasks :=
  let z := fill (g_tasks s) 0 TASK_MAX zero_task in
  let t0 := mk_task 0 (kstrncpy (name (z 0)) (Some (c_string (bytes_of "kmain"))) TASK_NAME_LEN)
              TASK_RUNNING (t_rsp (z 0)) 0 0 0 NULL NULL (wake_tick (z 0)) (ticks_run (z 0)) in
  mk_tasks (upd z 0 t0) 1 0 (alloc s).

(** [stack_size] after the minimum and the rounding. *)
Definition round_stack (stack_size : Z) : Z :=
  let s := if stack_size <? 4096 then 4096 else stack_size in
  Z.land (u32 (s + 15)) (u32 (Z.lnot 15)).

(** The synthetic frame below [stack_top]; returns the memory and [sp]. *)
Definition init_frame (m : mem) (stack_top entry : Z) : mem * Z :=
  push 0 (push 0 (push 0 (push 0 (push 0 (push 0
    (push task_entry_trampoline (push entry (m, stack_top)))))))).

(** [None]: the allocator did not return; [Some (NULL, s)]: the call failed. *)
Definition task_create (entry stack_sz : Z) (nm : option (Z -> Z)) (s : tasks) : option (Z * tasks) :=
  match find_up 31 1 (fun i => bool_decide (state (g_tasks s i) = TASK_DEAD)) with
  | None => Some (NULL, s)
  | Some i =>
      let sz := round_stack stack_sz in
      '(stack, a1) ← a_alloc sz (alloc s);
      if stack =? 0 then Some (NULL, set_alloc a1 s)
      else
        let m1 := set_up (Z.to_nat sz) (a_mem a1) stack 0 in
        let stack_top := Z.land (u64 (stack + sz)) (u64 (Z.lnot 15)) in
        let '(m2, sp) := init_frame m1 stack_top entry in
        let t := mk_task (g_next_pid s)
                   (kstrncpy (name zero_task) (Some (default (c_string (bytes_of "?")) nm)) TASK_NAME_LEN)
                   TASK_READY sp 0 stack sz NULL NULL 0 0 in
        Some (i, mk_tasks (upd (g_tasks s) i t) (u32 (g_next_pid s + 1)) (g_current s) (a_set_mem a1 m2))
  end.

Definition task_destroy (t : Z) (s : tasks) : option tasks :=
  if (t =? NULL) || bool_decide (state (g_tasks s t) = TASK_DEAD) then Some s
  else
    s1 ← (if negb (stack_base (g_tasks s t) =? 0) then
            a1 ← a_free (stack_base (g_tasks s t)) (alloc s);
            Some (set_tasks (alter_task (set_stack_base 0) t (g_tasks s)) (set_alloc a1 s))
          else Some s);
    Some (set_tasks (alter_task (set_state TASK_DEAD) t (g_tasks s1)) s1).

Definition task_get_current (s : tasks) : Z := g_current s.
Definition task_set_current (t : Z) (s : tasks) : tasks := mk_tasks (g_tasks s) (g_next_pid s) t (alloc s).

(** The callback is run on the slots in index order; it may change [ctx]. *)
Definition task_foreach {T : Type} (cb : Z -> T -> T) (ctx : T) (s : tasks) : T :=
  for_up (Z.to_nat TASK_MAX) 0
    (fun i c => if bool_decide (state (g_tasks s i) = TASK_DEAD) then c else cb i c) ctx.

(** [switch_context(&curr->rsp, next->rsp)] on the running CPU. *)
Definition switch_context (curr : Z) (next_rsp : Z) (c : cpu) (s : tasks) : cpu * tasks :=
  let '(m1, sp) := save_context (a_mem (alloc s)) c in
  (load_context m1 next_rsp,
   set_tasks (alter_task (set_rsp sp) curr (g_tasks s)) (set_alloc (a_set_mem (alloc s) m1) s)).

End Tasks.
Arguments tasks A : clear implicits.

(** ** The stack frame of a suspended task *)

Lemma push_eq v m sp : 8 <= sp < 2 ^ 64 -> push v (m, sp) = (store64 m (sp - 8) v, sp - 8).
Proof. intros H. unfold push. cbn [fst snd]. by rewrite u64_small by lia. Qed.

(** [frame m sp vs]: the quadwords [vs] lie in [m] from [sp] upwards. *)
Fixpoint frame (m : mem) (sp : Z) (vs : list Z) : Prop :=
  match vs with
  | [] => True
  | v :: r => load64 m sp = v /\ frame m (sp + 8) r
  end.

Lemma frame_agree m m' sp vs :
  agree m m' sp (8 * Z.of_nat (length vs)) -> frame m sp vs -> frame m' sp vs.
Proof.
  revert sp. induction vs as [|v r IH]; intros sp Ha; [done|]. cbn [frame length] in *.
  intros [H1 H2]. split.
  - rewrite <- H1. symmetry. apply (load_le_agree 8). intros x Hx. apply Ha. lia.
  - apply IH; [|done]. intros x Hx. apply Ha. lia.
Qed.

Lemma frame_push m sp v vs :
  0 <= v < 2 ^ 64 -> frame m sp vs -> frame (store64 m (sp - 8) v) (sp - 8) (v :: vs).
Proof.
  intros Hv Hf. split; [rewrite load64_store64; by apply u64_small|].
  replace (sp - 8 + 8) with sp by lia. eapply frame_agree; [|exact Hf].
  intros x Hx. unfold store64. rewrite store_le_outside by lia. done.
Qed.

(** Pushing a list of values, the last one first on the stack. *)
Lemma pushes_frame vs m top :
  8 * Z.of_nat (length vs) <= top < 2 ^ 64 -> Forall (fun v => 0 <= v < 2 ^ 64) vs ->
  exists m', foldr push (m, top) vs = (m', top - 8 * Z.of_nat (length vs)) /\
    frame m' (top - 8 * Z.of_nat (length vs)) vs /\
    (forall x, ~ (top - 8 * Z.of_nat (length vs) <= x < top) -> m' x = m x).
Proof.
  intros Hb Hv. induction Hv as [|v r Hv Hr IH]; cbn [foldr length] in *.
  { exists m. split; [f_equal; lia|]. done. }
  destruct IH as (m' & E & Hf & Ho); [lia|]. rewrite E, push_eq by lia.
  replace (top - 8 * Z.of_nat (S (length r))) with (top - 8 * Z.of_nat (length r) - 8) by lia.
  eexists. split; [done|]. split; [by apply frame_push|].
  intros x Hx. unfold store64. rewrite store_le_outside by lia. apply Ho. lia.
Qed.

Lemma load_context_frame m sp a b c d e f g :
  0 <= sp -> sp + CONTEXT_SIZE < 2 ^ 64 -> frame m sp [a; b; c; d; e; f; g] ->
  load_context m sp = mk_cpu g (sp + CONTEXT_SIZE) f e d c b a.
Proof.
  unfold CONTEXT_SIZE. intros H0 H1 (<- & <- & <- & <- & <- & <- & <- & _). unfold load_context, pop.
  repeat match goal with
  | |- context [u64 (?x + 8)] =>
      lazymatch x with context [u64 _] => fail | _ => rewrite (u64_small (x + 8)) by lia end
  end.
  f_equal. lia.
Qed.

Lemma save_context_spec m c :
  cpu_ok c -> CONTEXT_SIZE <= rsp c < 2 ^ 64 ->
  exists m', save_context m c = (m', rsp c - CONTEXT_SIZE) /\
    frame m' (rsp c - CONTEXT_SIZE) [r15 c; r14 c; r13 c; r12 c; rbx c; rbp c; rip c] /\
    (forall x, ~ (rsp c - CONTEXT_SIZE <= x < rsp c) -> m' x = m x).
Proof.
  intros Hc Hr. apply (pushes_frame [r15 c; r14 c; r13 c; r12 c; rbx c; rbp c; rip c]); [done|].
  unfold cpu_ok in Hc. rewrite !Forall_cons in *. intuition.
Qed.

Lemma kstrncpy_loop_spec fuel dst src i n len :
  0 <= i <= len -> (forall j, i <= j < len -> src j <> 0) -> src len = 0 -> i < n ->
  n - i <= Z.of_nat fuel ->
  let e := Z.min len (n - 1) in
  exists d, kstrncpy_loop fuel dst (Some src) i n = (d, e) /\
    (forall j, i <= j < e -> d j = src j) /\ (forall j, ~ (i <= j < e) -> d j = dst j).
Proof.
  revert dst i. induction fuel as [|fuel IH]; intros dst i Hi Hne H0 Hin Hf; [lia|].
  cbn [kstrncpy_loop]. destruct (Z.ltb_spec (i + 1) n) as [Hl|Hl], (Z.eqb_spec (src i) 0) as [E|E]; cbn [andb negb].
  - assert (i = len) as -> by (destruct (decide (i = len)); [done|]; exfalso; apply (Hne i); [lia | done]).
    rewrite Z.min_l by lia. eexists. split; [done|]. split; [intros; lia | done].
  - assert (i <> len) by congruence.
    destruct (IH (upd dst i (src i)) (i + 1)) as (d & Ed & H1 & H2); [lia | intros; apply Hne; lia | done | lia | lia |].
    exists d. split; [done|]. split.
    + intros j Hj. destruct (decide (j = i)) as [->|]; [|apply H1; lia].
      rewrite H2 by lia. apply upd_eq.
    + intros j Hj. rewrite H2 by lia. apply upd_ne. lia.
  - assert (i = len) as -> by (destruct (decide (i = len)); [done|]; exfalso; apply (Hne i); [lia | done]).
    rewrite Z.min_l by lia. eexists. split; [done|]. split; [intros; lia | done].
  - replace (Z.min len (n - 1)) with i by (destruct (Z.min_spec len (n - 1)); lia).
    eexists. split; [done|]. split; [intros; lia | done].
Qed.

(** [kstrncpy] copies at most [n - 1] characters and always terminates. *)
Lemma kstrncpy_spec dst src n len :
  0 <= len -> (forall j, 0 <= j < len -> src j <> 0) -> src len = 0 -> 0 < n ->
  let e := Z.min len (n - 1) in
  (forall j, 0 <= j < e -> kstrncpy dst (Some src) n j = src j) /\
  kstrncpy dst (Some src) n e = 0 /\
  (forall j, ~ (0 <= j <= e) -> kstrncpy dst (Some src) n j = dst j).
Proof.
  intros Hl Hne H0 Hn e. unfold kstrncpy.
  destruct (kstrncpy_loop_spec (Z.to_nat n) dst src 0 n len) as (d & E & H1 & H2); [lia | done | done | lia | lia |].
  rewrite E. fold e. split; [|split].
  - intros j Hj. rewrite upd_ne by lia. by apply H1.
  - apply upd_eq.
  - intros j Hj. rewrite upd_ne by lia. apply H2. lia.
Qed.

Lemma land_not15_32 s : 0 <= s < 2 ^ 32 -> Z.land s (u32 (Z.lnot 15)) = 16 * (s / 16).
Proof. intros Hs. apply (land_align s 4 32); lia. Qed.
Lemma land_not15_64 s : 0 <= s < 2 ^ 64 -> Z.land s (u64 (Z.lnot 15)) = 16 * (s / 16).
Proof. intros Hs. apply (land_align s 4 64); lia. Qed.

(** Up to 4 GiB - 16 the stack size is the request rounded up to 16, and at
    least one page. *)
Lemma round_stack_spec sz :
  0 <= sz <= 2 ^ 32 - 16 ->
  round_stack sz mod 16 = 0 /\ Z.max 4096 sz <= round_stack sz < Z.max 4096 sz + 16.
Proof.
  intros Hs. unfold round_stack. set (s := if sz <? 4096 then 4096 else sz).
  assert (s = Z.max 4096 sz) as Hm by (unfold s; zcase; lia). clearbody s. subst s.
  rewrite u32_small by lia. rewrite land_not15_32 by lia. split; dlia.
Qed.

(** Requests just below 4 GiB wrap to a zero-sized stack. *)
Lemma round_stack_wraps sz : 2 ^ 32 - 16 < sz < 2 ^ 32 -> round_stack sz = 0.
Proof.
  intros Hs. unfold round_stack. destruct (Z.ltb_spec sz 4096); [lia|].
  rewrite land_not15_32 by apply u32_range. unfold u32. dlia.
Qed.

(** ** Creation and destruction over any correct allocator *)

Section TaskSpec.
Context {A : Type} `{AllocatorSpec A}.
Variable tr : Z.
Hypothesis tr_range : 0 <= tr < 2 ^ 64.

Lemma init_frame_spec m top entry :
  64 <= top < 2 ^ 64 -> 0 <= entry < 2 ^ 64 ->
  exists m', init_frame tr m top entry = (m', top - 64) /\
    frame m' (top - 64) [0; 0; 0; 0; 0; 0; tr; entry] /\
    (forall x, ~ (top - 64 <= x < top) -> m' x = m x).
Proof.
  intros Ht He. apply (pushes_frame [0; 0; 0; 0; 0; 0; tr; entry]); [done|].
  repeat (constructor; [done || lia |]). constructor.
Qed.

(** What [task_create] leaves in the slot, in memory and in the allocator. *)
Definition created (entry sz i : Z) (s s' : tasks A) : Prop :=
  let t := g_tasks s' i in
  1 <= i < TASK_MAX /\ state (g_tasks s i) = TASK_DEAD /\
  (forall j, 1 <= j < i -> state (g_tasks s j) <> TASK_DEAD) /\
  (forall j, j <> i -> g_tasks s' j = g_tasks s j) /\
  g_current s' = g_current s /\ g_next_pid s' = u32 (g_next_pid s + 1) /\
  pid t = g_next_pid s /\ state t = TASK_READY /\ next t = NULL /\ prev t = NULL /\
  a_owns (alloc s') (stack_base t) (stack_size t) /\
  stack_size t mod 16 = 0 /\ Z.max 4096 sz <= stack_size t < Z.max 4096 sz + 16 /\
  t_rsp t = stack_base t + stack_size t - 64 /\
  frame (a_mem (alloc s')) (t_rsp t) [0; 0; 0; 0; 0; 0; tr; entry] /\
  (forall q k, a_owns (alloc s) q k -> 0 <= k ->
     a_owns (alloc s') q k /\ (stack_base t + stack_size t <= q \/ q + k <= stack_base t) /\
     agree (a_mem (alloc s)) (a_mem (alloc s')) q k).

Lemma task_create_spec entry sz nm s :
  a_inv (alloc s) -> 0 <= sz <= 2 ^ 31 - 16 -> 0 <= entry < 2 ^ 64 ->
  exists i s', task_create tr entry sz nm s = Some (i, s') /\ a_inv (alloc s') /\
    ((i = NULL /\ s' = s /\
      ((forall j, 1 <= j < TASK_MAX -> state (g_tasks s j) <> TASK_DEAD) \/
       a_alloc (round_stack sz) (alloc s) = Some (0, alloc s))) \/
     created entry sz i s s').
Proof.
  intros Hi Hsz He. unfold task_create.
  destruct (round_stack_spec sz ltac:(lia)) as [Hr16 Hr].
  destruct (find_up _ _ _) as [i|] eqn:Ef.
  2: { rewrite find_up_None in Ef. exists NULL, s. repeat (split; [done|]). left. repeat (split; [done|]). left.
       intros j Hj Hd. specialize (Ef j ltac:(unfold TASK_MAX in *; lia)).
       by rewrite bool_decide_eq_false in Ef. }
  apply find_up_Some in Ef as (Hir & Hd & Hlow). apply bool_decide_eq_true in Hd.
  pose proof a_max_bound as Hmax.
  destruct (a_alloc_spec (round_stack sz) (alloc s) Hi ltac:(lia)) as (p & a1 & Ea & Hi1 & Hnull & Hp).
  rewrite Ea. cbn [mbind option_bind]. destruct (Z.eqb_spec p 0) as [->|Hne].
  { rewrite (Hnull eq_refl) in *. exists NULL. destruct s as [gt gp gc al]; cbn in *.
    eexists. repeat (split; [done|]). left. repeat (split; [done|]). by right. }
  destruct (Hp Hne) as [Hown Hold]. destruct (a_owns_range _ _ _ Hi1 Hown) as (Hpos & Hhi & Hp16).
  set (n := round_stack sz) in *.
  set (m1 := set_up (Z.to_nat n) (a_mem a1) p 0).
  assert (Z.land (u64 (p + n)) (u64 (Z.lnot 15)) = p + n) as ->.
  { rewrite u64_small by lia. rewrite land_not15_64 by lia. dlia. }
  destruct (init_frame_spec m1 (p + n) entry) as (m2 & E2 & Hfr & Ho); [lia | done |]. rewrite E2.
  do 2 eexists. split; [done|].
  destruct (a_write_spec p n a1 m2 Hi1 Hown) as [Hi2 Hown2].
  { intros x Hx. rewrite Ho by lia. unfold m1. rewrite set_up_spec.
    destruct (Z.leb_spec p x), (Z.ltb_spec x (p + Z.of_nat (Z.to_nat n))); simpl; done || lia. }
  split; [exact Hi2|]. right. unfold created. cbn [g_tasks g_next_pid g_current alloc].
  rewrite upd_eq, a_mem_set_mem. cbn [pid state next prev stack_base stack_size t_rsp].
  unfold TASK_MAX. repeat (split; [first [done | lia | by apply Hown2]|]).
  split; [intros j Hj; specialize (Hlow j Hj); by rewrite bool_decide_eq_false in Hlow|].
  split; [intros; apply upd_ne; congruence|].
  repeat (split; [first [done | lia | by apply Hown2]|]).
  intros q k Hq Hk. destruct (Hold q k Hq Hk) as (Hq1 & Hdis & Hag).
  split; [by apply Hown2|]. split; [lia|]. intros x Hx. rewrite Ho by lia.
  unfold m1. rewrite set_up_spec. rewrite (Hag x Hx).
  destruct (Z.leb_spec p x), (Z.ltb_spec x (p + Z.of_nat (Z.to_nat n))); simpl; done || lia.
Qed.

(** [task_create] takes the lowest dead slot, gives the task a fresh pid
    and a stack of its own, at least as large as asked and one page, and
    leaves the other tasks and all other allocated memory alone.  It fails
    only when no slot is dead or the allocator has no memory, and then changes
    nothing. *)
Theorem task_create_correct entry sz nm s :
  a_inv (alloc s) -> 0 <= sz <= 2 ^ 31 - 16 -> 0 <= entry < 2 ^ 64 ->
  exists i s', task_create tr entry sz nm s = Some (i, s') /\ a_inv (alloc s') /\
    ((i = NULL /\ s' = s /\
      ((forall j, 1 <= j < TASK_MAX -> state (g_tasks s j) <> TASK_DEAD) \/
       a_alloc (round_stack sz) (alloc s) = Some (0, alloc s))) \/
     (i <> NULL /\ state (g_tasks s i) = TASK_DEAD /\
      (forall j, 1 <= j < i -> state (g_tasks s j) <> TASK_DEAD) /\
      (forall j, j <> i -> g_tasks s' j = g_tasks s j) /\
      pid (g_tasks s' i) = g_next_pid s /\ state (g_tasks s' i) = TASK_READY /\
      a_owns (alloc s') (stack_base (g_tasks s' i)) (stack_size (g_tasks s' i)) /\
      Z.max 4096 sz <= stack_size (g_tasks s' i) /\
      forall q k, a_owns (alloc s) q k -> 0 <= k ->
        a_owns (alloc s') q k /\
        (stack_base (g_tasks s' i) + stack_size (g_tasks s' i) <= q \/ q + k <= stack_base (g_tasks s' i)) /\
        agree (a_mem (alloc s)) (a_mem (alloc s')) q k)).
Proof.
  intros Hi Hsz He. destruct (task_create_spec entry sz nm s Hi Hsz He) as (i & s' & E & Hi' & Hc).
  exists i, s'. split; [done|]. split; [done|]. destruct Hc as [Hc|Hc]; [by left|]. right.
  unfold created, NULL in *. intuition lia.
Qed.

(** The first switch to a new task enters [task_entry_trampoline] with
    cleared callee-saved registers and the entry point on top of a stack that
    is 16-byte aligned once it is popped. *)
Theorem task_first_dispatch entry sz nm s i s' :
  a_inv (alloc s) -> 0 <= sz <= 2 ^ 31 - 16 -> 0 <= entry < 2 ^ 64 ->
  task_create tr entry sz nm s = Some (i, s') -> i <> NULL ->
  let t := g_tasks s' i in
  let top := stack_base t + stack_size t in
  load_context (a_mem (alloc s')) (t_rsp t) = mk_cpu tr (top - 8) 0 0 0 0 0 0 /\
  pop (a_mem (alloc s')) (top - 8) = (entry, top) /\ top mod 16 = 0 /\
  stack_base t <= t_rsp t.
Proof.
  intros Hi Hsz He E Hn. destruct (task_create_spec entry sz nm s Hi Hsz He) as (i' & s2 & E' & Hi' & Hc).
  rewrite E in E'. injection E' as <- <-. destruct Hc as [[? _]|Hc]; [done|].
  destruct Hc as (_ & _ & _ & _ & _ & _ & _ & _ & _ & _ & Hown & H16 & Hs & Hr & Hf & _).
  cbv zeta. set (t := g_tasks s' i) in *.
  destruct (a_owns_range _ _ _ Hi' Hown) as (Hpos & Hhi & Hp16).
  destruct Hf as (F1 & F2 & F3 & F4 & F5 & F6 & F7 & F8 & _).
  rewrite Hr in *. split; [|split; [|split]].
  - rewrite (load_context_frame _ _ 0 0 0 0 0 0 tr); [|lia | unfold CONTEXT_SIZE; lia | by repeat split].
    f_equal. unfold CONTEXT_SIZE. lia.
  - unfold pop. rewrite u64_small by lia.
    replace (stack_base t + stack_size t - 64 + 8 + 8 + 8 + 8 + 8 + 8 + 8)
      with (stack_base t + stack_size t - 8) in F8 by lia.
    rewrite F8. f_equal. lia.
  - rewrite Z.add_mod by lia. by rewrite Hp16, H16.
  - lia.
Qed.

(** C8: a task that is switched out resumes with the same registers, stack
    pointer and return address when it is switched in again, provided the
    56 bytes it left on its stack and its saved stack pointer are intact. *)
Theorem switch_context_resumes curr next_rsp c s c2 o s2 :
  cpu_ok c -> CONTEXT_SIZE <= rsp c < 2 ^ 64 ->
  let s1 := (switch_context curr next_rsp c s).2 in
  t_rsp (g_tasks s2 curr) = t_rsp (g_tasks s1 curr) ->
  agree (a_mem (alloc s1)) (a_mem (alloc s2)) (rsp c - CONTEXT_SIZE) CONTEXT_SIZE ->
  CONTEXT_SIZE <= rsp c2 < 2 ^ 64 -> cpu_ok c2 ->
  (rsp c2 <= rsp c - CONTEXT_SIZE \/ rsp c <= rsp c2 - CONTEXT_SIZE) ->
  (switch_context o (t_rsp (g_tasks s2 curr)) c2 s2).1 = c.
Proof.
  intros Hc Hr s1 Hrsp Hag Hr2 Hc2 Hdis. subst s1. unfold switch_context in *.
  destruct (save_context_spec (a_mem (alloc s)) c Hc Hr) as (m1 & E1 & Hf & _). rewrite E1 in *.
  cbn [fst snd set_tasks set_alloc g_tasks alloc] in *.
  unfold alter_task in Hrsp. rewrite upd_eq in Hrsp. cbn [t_rsp set_rsp] in Hrsp.
  rewrite a_mem_set_mem in Hag. rewrite Hrsp.
  destruct (save_context_spec (a_mem (alloc s2)) c2 Hc2 Hr2) as (m3 & E3 & _ & Ho). rewrite E3. cbn [fst].
  unfold CONTEXT_SIZE in *.
  rewrite (load_context_frame _ _ (r15 c) (r14 c) (r13 c) (r12 c) (rbx c) (rbp c) (rip c)).
  - destruct c. cbn. f_equal. unfold CONTEXT_SIZE. lia.
  - lia.
  - unfold CONTEXT_SIZE. lia.
  - eapply frame_agree; [|exact Hf]. intros x Hx. cbn [length] in Hx.
    rewrite Hag by lia. symmetry. apply Ho. lia.
Qed.

(** Destroying a live task frees its stack and marks the slot dead, so
    that [task_create] can take it; destroying a dead task does nothing. *)
Theorem task_destroy_correct t s :
  a_inv (alloc s) -> t <> NULL ->
  (stack_base (g_tasks s t) <> 0 -> a_owns (alloc s) (stack_base (g_tasks s t)) (stack_size (g_tasks s t))) ->
  exists s', task_destroy t s = Some s' /\ a_inv (alloc s') /\
    (state (g_tasks s t) = TASK_DEAD -> s' = s) /\
    state (g_tasks s' t) = TASK_DEAD /\
    (state (g_tasks s t) <> TASK_DEAD -> stack_base (g_tasks s' t) = 0) /\
    (forall j, j <> t -> g_tasks s' j = g_tasks s j) /\
    (forall q k, a_owns (alloc s) q k -> q <> stack_base (g_tasks s t) -> 0 <= k ->
       a_owns (alloc s') q k /\ agree (a_mem (alloc s)) (a_mem (alloc s')) q k).
Proof.
  intros Hi Hn Hown. unfold task_destroy. destruct (Z.eqb_spec t NULL); [done|]. cbn [orb].
  case_bool_decide as Hd.
  { exists s. repeat (split; [done|]). intros. by split. }
  destruct (Z.eqb_spec (stack_base (g_tasks s t)) 0) as [Hz|Hz]; cbn [negb mbind option_bind].
  { eexists. split; [done|]. cbn [set_tasks g_tasks alloc]. unfold alter_task. rewrite upd_eq.
    split; [done|]. repeat (split; [done|]). split; [intros; apply upd_ne; congruence|]. intros. by split. }
  destruct (a_free_spec _ _ _ Hi (Hown Hz)) as (a1 & Ea & Hi1 & Hk). rewrite Ea. cbn [mbind option_bind].
  eexists. split; [done|]. cbn [set_tasks set_alloc g_tasks alloc]. unfold alter_task. rewrite !upd_eq.
  split; [done|]. repeat (split; [done|]). split; [|intros; by apply Hk].
  intros j Hj. rewrite !upd_ne by congruence. done.
Qed.

End TaskSpec.

(** ** Concrete instances: the boot task over a 64 KB heap *)

Definition boot : tasks heap := task_init (mk_tasks (fun _ => zero_task) 0 NULL big_heap).

Lemma boot_inv : a_inv (alloc boot).
Proof. exact big_heap_inv. Qed.

Definition boot1 : tasks heap :=
  match task_create 4096 8192 5000 None boot with Some (_, s) => s | None => boot end.

Lemma boot1_eq : task_create 4096 8192 5000 None boot = Some (1, boot1).
Proof.
  assert (fst <$> task_create 4096 8192 5000 None boot = Some 1) as H by (vm_compute; reflexivity).
  unfold boot1. destruct (task_create 4096 8192 5000 None boot) as [[i s]|]; [|done].
  cbn in H. by injection H as ->.
Qed.

Lemma task_create_correct_witness :
  exists i s', task_create 4096 8192 5000 None boot = Some (i, s') /\ a_inv (alloc s') /\
    (i = NULL \/ pid (g_tasks s' i) = 1).
Proof.
  destruct (task_create_correct 4096 ltac:(lia) 8192 5000 None boot boot_inv ltac:(lia) ltac:(lia))
    as (i & s' & E & Hi & H).
  exists i, s'. split; [exact E|]. split; [exact Hi|].
  destruct H as [[H _]|(_ & _ & _ & _ & H & _)]; [left; exact H | right; exact H].
Defined.

Lemma task_first_dispatch_witness :
  let t := g_tasks boot1 1 in
  load_context (a_mem (alloc boot1)) (t_rsp t) = mk_cpu 4096 (stack_base t + stack_size t - 8) 0 0 0 0 0 0.
Proof.
  exact (proj1 (task_first_dispatch 4096 ltac:(lia) 8192 5000 None boot 1 boot1 boot_inv
    ltac:(lia) ltac:(lia) boot1_eq ltac:(discriminate))).
Defined.

Definition demo_cpu : cpu := mk_cpu 11 1000 12 13 14 15 16 17.
Definition other_cpu : cpu := mk_cpu 21 500 22 23 24 25 26 27.

Lemma switch_context_resumes_witness :
  let s1 := (switch_context 0 (t_rsp (g_tasks boot1 1)) demo_cpu boot1).2 in
  (switch_context 1 (t_rsp (g_tasks s1 0)) other_cpu s1).1 = demo_cpu.
Proof.
  apply (switch_context_resumes 0 (t_rsp (g_tasks boot1 1)) demo_cpu boot1 other_cpu 1);
    try (unfold CONTEXT_SIZE, demo_cpu, other_cpu; cbn [rsp]; lia); try reflexivity;
    try (repeat constructor; discriminate).
Defined.

Lemma task_destroy_correct_witness :
  exists s', task_destroy 1 boot1 = Some s' /\ state (g_tasks s' 1) = TASK_DEAD.
Proof.
  destruct (task_create_spec 4096 ltac:(lia) 8192 5000 None boot boot_inv ltac:(lia) ltac:(lia))
    as (i & s' & E & Hi & H).
  rewrite boot1_eq in E. injection E as <- <-. destruct H as [[H _]|H]; [discriminate|].
  destruct (task_destroy_correct 1 boot1 Hi ltac:(discriminate)) as (s' & E & _ & _ & Hd & _).
  - intros _. exact (proj1 (proj2 (proj2 (proj2 (proj2 (proj2 (proj2 (proj2 (proj2 (proj2 (proj2 H))))))))))).
  - exists s'. exact (conj E Hd).
Defined.
