(* ===== verification/Sched.v ===== *)
(** The round-robin scheduler (kernel/sched.c) and the timer interrupt that
    drives it (kernel/pit.c, [pit_irq_handler] of kernel/kernel_main.c): the
    circular doubly linked ready queue and the singly linked sleep queue that
    share the link fields of the task slots, and their refinement to two
    lists. *)

From S2P Require Import Prelude Memory Alloc Heap Task.
Local Open Scope Z_scope.

Definition SCHED_TICK_QUANTUM : Z := 10.

Section Sched.
Context {A : Type} `{Allocator A}.

(** The statics of sched.c, the task table and the tick counter of pit.c. *)
Record sched := mk_sched {
  ts : tasks A;
  g_ready_head : Z;
  g_ready_count : Z;
  g_sleep_head : Z;
  g_quantum_left : Z;
  g_ticks : Z;
}.

Definition tk (s : sched) : Z -> task := g_tasks (ts s).

Definition with_ts (x : tasks A) (s : sched) : sched :=
  mk_sched x (g_ready_head s) (g_ready_count s) (g_sleep_head s) (g_quantum_left s) (g_ticks s).
Definition with_head (x : Z) (s : sched) : sched :=
  mk_sched (ts s) x (g_ready_count s) (g_sleep_head s) (g_quantum_left s) (g_ticks s).
Definition with_count (x : Z) (s : sched) : sched :=
  mk_sched (ts s) (g_ready_head s) x (g_sleep_head s) (g_quantum_left s) (g_ticks s).
Definition with_sleep (x : Z) (s : sched) : sched :=
  mk_sched (ts s) (g_ready_head s) (g_ready_count s) x (g_quantum_left s) (g_ticks s).
Definition with_quantum (x : Z) (s : sched) : sched :=
  mk_sched (ts s) (g_ready_head s) (g_ready_count s) (g_sleep_head s) x (g_ticks s).
Definition with_ticks (x : Z) (s : sched) : sched :=
  mk_sched (ts s) (g_ready_head s) (g_ready_count s) (g_sleep_head s) (g_quantum_left s) x.

(** A store to a field of the task in slot [i]. *)
Definition on_task (f : task -> task) (i : Z) (s : sched) : sched :=
  with_ts (set_tasks (alter_task f i (g_tasks (ts s))) (ts s)) s.

Definition rq_push_back (t : Z) (s : sched) : sched :=
  let s := on_task (set_next NULL) t s in
  let s := on_task (set_prev NULL) t s in
  let s :=
    if g_ready_head s =? NULL then
      let s := with_head t s in
      let s := on_task (set_next t) t s in
      on_task (set_prev t) t s
    else
      let tail := prev (tk s (g_ready_head s)) in
      let s := on_task (set_next t) tail s in
      let s := on_task (set_prev tail) t s in
      let s := on_task (set_next (g_ready_head s)) t s in
      on_task (set_prev t) (g_ready_head s) s in
  with_count (s32 (g_ready_count s + 1)) s.

Definition rq_remove (t : Z) (s : sched) : sched :=
  if (g_ready_count s =? 0) || (next (tk s t) =? NULL) then s
  else
    let s :=
      if next (tk s t) =? t then with_head NULL s
      else
        let s := on_task (set_next (next (tk s t))) (prev (tk s t)) s in
        let s := on_task (set_prev (prev (tk s t))) (next (tk s t)) s in
        if g_ready_head s =? t then with_head (next (tk s t)) s else s in
    let s := on_task (set_next NULL) t s in
    let s := on_task (set_prev NULL) t s in
    with_count (s32 (g_ready_count s - 1)) s.

Definition rq_pop_front (s : sched) : Z * sched :=
  if g_ready_head s =? NULL then (NULL, s)
  else let t := g_ready_head s in (t, rq_remove t s).

Definition sq_push (t : Z) (s : sched) : sched :=
  let s := on_task (set_next (g_sleep_head s)) t s in
  with_sleep t s.

(** The pointer [pp] of [sq_wake_due]: to [g_sleep_head] or to a next field. *)
Inductive link_ptr := SleepHead | NextOf (t : Z).

Definition read_link (pp : link_ptr) (s : sched) : Z :=
  match pp with SleepHead => g_sleep_head s | NextOf t => next (tk s t) end.

Definition write_link (pp : link_ptr) (v : Z) (s : sched) : sched :=
  match pp with SleepHead => with_sleep v s | NextOf t => on_task (set_next v) t s end.

Fixpoint sq_wake_loop (fuel : nat) (pp : link_ptr) (s : sched) : option sched :=
  let t := read_link pp s in
  if t =? NULL then Some s
  else
    match fuel with
    | O => None
    | S fuel' =>
        if wake_tick (tk s t) <=? g_ticks s then
          let s := write_link pp (next (tk s t)) s in
          let s := on_task (set_next NULL) t s in
          let s := on_task (set_prev NULL) t s in
          let s := on_task (set_state TASK_READY) t s in
          sq_wake_loop fuel' pp (rq_push_back t s)
        else sq_wake_loop fuel' (NextOf t) s
    end.

(** Each task is on the sleep list at most once: [TASK_MAX] rounds suffice. *)
Definition sq_wake_due (s : sched) : option sched := sq_wake_loop (Z.to_nat TASK_MAX) SleepHead s.

(** [None] is a kernel panic or an allocator that does not return. *)
Definition sched_init (trampoline idle_task_fn : Z) (s : sched) : option sched :=
  let s := with_quantum SCHED_TICK_QUANTUM (with_sleep NULL (with_count 0 (with_head NULL s))) in
  '(idle, t) ← task_create trampoline idle_task_fn 4096 (Some (c_string (bytes_of "idle"))) (ts s);
  if idle =? NULL then None else Some (rq_push_back idle (with_ts t s)).

Definition sched_add (t : Z) (s : sched) : option sched :=
  if t =? NULL then None
  else Some (rq_push_back t (on_task (set_state TASK_READY) t s)).

(** The result pairs the CPU that runs afterwards with the new state. *)
(** The second half of [do_switch]: dispatch [nxt] and switch contexts. *)
Definition dispatch (curr nxt : Z) (c : cpu) (s : sched) : cpu * sched :=
  let s := on_task (set_state TASK_RUNNING) nxt s in
  let s := with_ts (task_set_current nxt (ts s)) s in
  let s := with_quantum SCHED_TICK_QUANTUM s in
  let '(c', t') := switch_context curr (t_rsp (tk s nxt)) c (ts s) in
  (c', with_ts t' s).

Definition do_switch (c : cpu) (s : sched) : cpu * sched :=
  if g_ready_count s =? 0 then (c, s)
  else
    let curr := task_get_current (ts s) in
    let '(nxt, s) := rq_pop_front s in
    if nxt =? curr then (c, rq_push_back nxt s)
    else
      let s :=
        if decide (state (tk s curr) = TASK_RUNNING)
        then rq_push_back curr (on_task (set_state TASK_READY) curr s) else s in
      dispatch curr nxt c s.

Definition sched_tick (c : cpu) (s : sched) : option (cpu * sched) :=
  let curr := task_get_current (ts s) in
  let s := if negb (curr =? NULL)
           then on_task (set_ticks_run (u64 (ticks_run (tk s curr) + 1))) curr s else s in
  s ← sq_wake_due s;
  let s := if 0 <? g_quantum_left s then with_quantum (g_quantum_left s - 1) s else s in
  Some (if g_quantum_left s =? 0 then do_switch c s else (c, s)).

Definition sched_yield (c : cpu) (s : sched) : cpu * sched := do_switch c (with_quantum 0 s).

Definition sched_sleep (ms : Z) (c : cpu) (s : sched) : cpu * sched :=
  let curr := task_get_current (ts s) in
  let s := on_task (set_state TASK_SLEEPING) curr s in
  let s := on_task (set_wake_tick (u64 (g_ticks s + ms))) curr s in
  let s := sq_push curr s in
  do_switch c (with_quantum 0 s).

(** Up to the halt loop after [do_switch]. *)
Definition sched_exit (c : cpu) (s : sched) : cpu * sched :=
  let curr := task_get_current (ts s) in
  let s := on_task (set_state TASK_DEAD) curr s in
  do_switch c (with_quantum 0 s).

Definition sched_current (s : sched) : Z := task_get_current (ts s).

Definition pit_tick (s : sched) : sched := with_ticks (u64 (g_ticks s + 1)) s.

(** The timer interrupt; the end-of-interrupt write has no effect here. *)
Definition pit_irq_handler (c : cpu) (s : sched) : option (cpu * sched) := sched_tick c (pit_tick s).

End Sched.
Arguments sched A : clear implicits.

(** ** Linked representations of lists of tasks *)

Fixpoint links (f : Z -> task) (l : list Z) : Prop :=
  match l with
  | x :: (y :: _) as r => next (f x) = y /\ prev (f y) = x /\ links f r
  | _ => True
  end.

(** The circular list [l] hangs off [hd]. *)
Definition ring (f : Z -> task) (hd : Z) (l : list Z) : Prop :=
  match head l, last l with
  | Some x, Some y => hd = x /\ links f l /\ next (f y) = x /\ prev (f x) = y
  | _, _ => hd = NULL
  end.

(** The NULL-terminated list [l] starts at [hd]. *)
Fixpoint slist (f : Z -> task) (hd : Z) (l : list Z) : Prop :=
  match l with
  | [] => hd = NULL
  | x :: r => hd = x /\ slist f (next (f x)) r
  end.

Lemma links_agree f f' l y :
  (forall a, a ∈ l -> next (f' a) = next (f a)) ->
  (forall b, b ∈ tail (l ++ [y]) -> prev (f' b) = prev (f b)) ->
  links f (l ++ [y]) -> links f' (l ++ [y]).
Proof.
  induction l as [|a r IH]; [done|]. intros Hn Hp. destruct r as [|b r].
  - cbn. intros (H1 & H2 & _). rewrite Hn, Hp by (cbn; set_solver). done.
  - cbn [app links] in *. intros (H1 & H2 & H3). rewrite Hn, Hp by (cbn; set_solver).
    split; [done|]. split; [done|]. apply IH; [set_solver | | done].
    cbn [tail app] in *. intros. apply Hp. set_solver.
Qed.

Lemma links_snoc f l y z :
  links f (l ++ [y; z]) <-> links f (l ++ [y]) /\ next (f y) = z /\ prev (f z) = y.
Proof.
  induction l as [|a r IH]; [cbn; tauto|]. destruct r as [|b r]; [cbn; tauto|].
  cbn [app links] in *. rewrite IH. tauto.
Qed.

Lemma last_split {T : Type} (l : list T) y : last l = Some y -> exists l0, l = l0 ++ [y].
Proof. apply last_Some. Qed.

Lemma NoDup_snoc_last {T : Type} (l0 : list T) y a : NoDup (l0 ++ [y]) -> a ∈ l0 -> a <> y.
Proof. rewrite NoDup_app. intros (_ & H & _) Ha ->. apply (H y Ha). by left. Qed.

Lemma NoDup_tail_head {T : Type} (l : list T) x a : NoDup l -> head l = Some x -> a ∈ tail l -> a <> x.
Proof. destruct l; [done|]. cbn. intros Hd [= ->] Ha ->. by apply NoDup_cons in Hd as [? _]. Qed.

Lemma elem_of_tail {T : Type} (l : list T) a : a ∈ tail l -> a ∈ l.
Proof. destruct l; [done|]. cbn. by right. Qed.

Lemma ring_frame f f' hd l :
  (forall a, a ∈ l -> next (f' a) = next (f a) /\ prev (f' a) = prev (f a)) ->
  ring f hd l -> ring f' hd l.
Proof.
  intros Ha. unfold ring. destruct (head l) as [x|] eqn:Eh; [|done].
  destruct (last l) as [y|] eqn:El; [|done]. apply last_split in El as [l0 ->].
  assert (x ∈ l0 ++ [y]) as Hx by (by apply head_Some_elem_of).
  intros (-> & Hl & H1 & H2). split; [done|].
  rewrite (proj1 (Ha y ltac:(set_solver))), (proj2 (Ha x Hx)). split; [|done].
  eapply links_agree; [| |done].
  - intros a Hin. apply Ha. set_solver.
  - intros b Hb. apply Ha. by apply elem_of_tail.
Qed.

(** Relinking one more element behind the last. *)
Lemma ring_snoc f f' hd l t :
  ring f hd l -> NoDup (l ++ [t]) ->
  (forall j, j ∈ l -> last l <> Some j -> next (f' j) = next (f j)) ->
  (forall j, j ∈ l -> head l <> Some j -> prev (f' j) = prev (f j)) ->
  (forall y, last l = Some y -> next (f' y) = t /\ prev (f' t) = y) ->
  next (f' t) = default t (head l) -> prev (f' (default t (head l))) = t ->
  ring f' (default t (head l)) (l ++ [t]).
Proof.
  intros Hr Hd Hn Hp Hy Ht Hx. unfold ring in *. rewrite last_snoc.
  destruct l as [|x m]; [cbn in *; done|]. cbn [head app default from_option id] in *.
  change (x :: m ++ [t]) with ((x :: m) ++ [t]) in *. apply NoDup_app in Hd as (Hd & _ & _).
  destruct (last (x :: m)) as [y|] eqn:El; [|by apply last_None in El].
  destruct (Hy y eq_refl) as [Hy1 Hy2]. destruct Hr as (_ & Hl & _ & _).
  split; [done|]. split; [|done]. apply last_split in El as [l0 El]. rewrite El in *.
  rewrite <- app_assoc. apply links_snoc. split; [|done].
  eapply links_agree; [| | exact Hl].
  - intros a Ha. apply Hn; [set_solver|]. intros [= ->]. by apply (NoDup_snoc_last _ _ _ Hd Ha).
  - intros b Hb. apply Hp; [by apply elem_of_tail|]. rewrite <- El in *. cbn in Hb.
    intros [= ->]. by apply NoDup_cons in Hd as [? _].
Qed.

(** Unlinking the head. *)
Lemma ring_uncons f f' x m z y :
  ring f x (x :: m) -> NoDup (x :: m) -> head m = Some z -> last m = Some y ->
  (forall j, j ∈ m -> j <> y -> next (f' j) = next (f j)) ->
  (forall j, j ∈ m -> j <> z -> prev (f' j) = prev (f j)) ->
  next (f' y) = z -> prev (f' z) = y -> ring f' z m.
Proof.
  intros Hr Hd Hz Hy Hn Hp H1 H2. apply NoDup_cons in Hd as [_ Hd]. unfold ring in *. rewrite Hz, Hy.
  split; [done|]. split; [|done].
  assert (links f m) as Hl.
  { cbn [head] in Hr. destruct (last (x :: m)) eqn:E; [|by apply last_None in E]. destruct Hr as (_ & Hl & _).
    destruct m; [done|]. apply Hl. }
  apply last_split in Hy as [m0 ->]. eapply links_agree; [| | exact Hl].
  - intros a Ha. apply Hn; [set_solver|]. by apply (NoDup_snoc_last m0).
  - intros b Hb. apply Hp; [by apply elem_of_tail|]. by apply (NoDup_tail_head _ _ _ Hd Hz).
Qed.

(** The neighbours [rq_remove] reads at the head. *)
Lemma ring_ends f x m : ring f x (x :: m) ->
  next (f x) = default x (head m) /\ prev (f x) = default x (last m).
Proof.
  unfold ring. cbn [head]. destruct m as [|z m]; [cbn; tauto|].
  change (last (x :: z :: m)) with (last (z :: m)).
  destruct (last (z :: m)) eqn:E; [|by apply last_None in E]. cbn. tauto.
Qed.

Lemma slist_agree f f' hd l :
  (forall a, a ∈ l -> next (f' a) = next (f a)) -> slist f hd l -> slist f' hd l.
Proof.
  revert hd. induction l as [|x r IH]; intros hd Ha; [done|]. cbn [slist].
  intros [-> H]. split; [done|]. rewrite Ha by (by left). apply IH; [|done]. intros. apply Ha. by right.
Qed.

Lemma slist_read f hd l t r :
  slist f hd (l ++ t :: r) -> match last l with None => hd = t | Some p => next (f p) = t end.
Proof.
  revert hd. induction l as [|a l IH]; intros hd; [cbn; by intros [? _]|]. intros [-> Hl].
  specialize (IH _ Hl). destruct l as [|b l]; [done|].
  change (last (a :: b :: l)) with (last (b :: l)). destruct (last (b :: l)) eqn:E; [exact IH | by apply last_None in E].
Qed.

Lemma slist_end f hd l :
  slist f hd l -> match last l with None => hd = NULL | Some p => next (f p) = NULL end.
Proof.
  revert hd. induction l as [|a l IH]; intros hd; [done|]. intros [-> Hl].
  specialize (IH _ Hl). destruct l as [|b l]; [done|].
  change (last (a :: b :: l)) with (last (b :: l)). destruct (last (b :: l)) eqn:E; [exact IH | by apply last_None in E].
Qed.

(** Unlinking [t] behind the last element of [l]. *)
Lemma slist_unlink f f' hd hd' l t r :
  NoDup (l ++ t :: r) -> slist f hd (l ++ t :: r) ->
  (forall a, a ∈ l ++ r -> last l <> Some a -> next (f' a) = next (f a)) ->
  match last l with None => hd' = next (f t) | Some p => hd' = hd /\ next (f' p) = next (f t) end ->
  slist f' hd' (l ++ r).
Proof.
  revert hd hd'. induction l as [|p l IH]; intros hd hd' Hd.
  - cbn. intros [_ Hl] Ha ->. eapply slist_agree; [|exact Hl]. intros a Hin. by apply Ha.
  - cbn [app slist]. intros [-> Hl] Ha Hm. apply NoDup_cons in Hd as [Hp Hd].
    destruct l as [|b l].
    + destruct Hm as [-> Hm]. split; [done|]. cbn [app]. rewrite Hm. destruct Hl as [_ Hl].
      eapply slist_agree; [|exact Hl]. intros a Hin. apply Ha; [by right|]. intros [= <-]. set_solver.
    + change (last (p :: b :: l)) with (last (b :: l)) in *.
      destruct (last (b :: l)) as [y|] eqn:El; [|by apply last_None in El].
      destruct Hm as [-> Hm]. split; [done|].
      assert (next (f' p) = next (f p)) as ->.
      { apply Ha; [by left|]. intros [= ->]. apply Hp. apply last_Some_elem_of in El. set_solver. }
      apply (IH (next (f p))); [done | done | |].
      * intros a Hin Hne. apply Ha; [by right | done].
      * done.
Qed.

(** ** The queue operations *)

(** A task without its two link fields. *)
Definition body (t : task) : task := set_next 0 (set_prev 0 t).

Section Queues.
Context {A : Type} `{Allocator A}.
Implicit Type s : sched A.

(** What the ready-queue operations do not touch. *)
Definition rest s := (g_sleep_head s, g_quantum_left s, g_ticks s, g_current (ts s), g_next_pid (ts s), alloc (ts s)).

Ltac on_slots :=
  unfold tk, on_task, alter_task, body; cbn [ts with_ts with_head with_count set_tasks g_tasks];
  unfold upd; repeat case_match; b2p; subst; try done; try congruence.

Lemma body_on_next v i s j : body (tk (on_task (set_next v) i s) j) = body (tk s j).
Proof. unfold tk, on_task, alter_task. cbn. rewrite upd_spec. case_decide; [by subst | done]. Qed.
Lemma body_on_prev v i s j : body (tk (on_task (set_prev v) i s) j) = body (tk s j).
Proof. unfold tk, on_task, alter_task. cbn. rewrite upd_spec. case_decide; [by subst | done]. Qed.
Lemma tk_with_count v s j : tk (with_count v s) j = tk s j.
Proof. done. Qed.
Lemma tk_with_head v s j : tk (with_head v s) j = tk s j.
Proof. done. Qed.
Hint Rewrite body_on_next body_on_prev tk_with_count tk_with_head : aios_rw.

Lemma ring_head f hd x m : ring f hd (x :: m) -> hd = x.
Proof.
  unfold ring. cbn [head]. destruct (last (x :: m)) eqn:E; [by intros [? _] | by apply last_None in E].
Qed.

Lemma rq_push_back_spec t l s :
  ring (tk s) (g_ready_head s) l -> NoDup (l ++ [t]) -> NULL ∉ l ++ [t] ->
  let s' := rq_push_back t s in
  ring (tk s') (g_ready_head s') (l ++ [t]) /\
  (forall j, body (tk s' j) = body (tk s j)) /\
  (forall j, j ∉ l ++ [t] -> tk s' j = tk s j) /\
  g_ready_count s' = s32 (g_ready_count s + 1) /\ rest s' = rest s.
Proof.
  intros Hr Hd Hn. cbv zeta. destruct l as [|x m].
  - cbn in Hr. unfold rq_push_back.
    cbn [g_ready_head with_ts on_task]. rewrite Hr. change (NULL =? NULL) with true. cbv iota.
    split; [unfold ring; cbn [head last app g_ready_head with_head with_count on_task with_ts links]; on_slots|].
    split; [intros j; by autorewrite with aios_rw|]. split; [|done]. intros j Hj. apply not_elem_of_cons in Hj as [? _]. on_slots.
  - pose proof (ring_head _ _ _ _ Hr) as Hh. pose proof Hr as Hr'. rewrite Hh in Hr'.
    destruct (ring_ends _ _ _ Hr') as [Hnx Hpx]. clear Hr'.
    assert (t <> x /\ t ∉ m) as [Htx Htm].
    { apply NoDup_app in Hd as (_ & Hd & _). split; intros Hx; apply (Hd t); set_solver. }
    assert (x <> NULL) as Hx0 by set_solver.
    set (y := default x (last m)) in *.
    assert (last (x :: m) = Some y) as Hl.
    { subst y. destruct m as [|z m]; [done|]. change (last (x :: z :: m)) with (last (z :: m)).
      destruct (last (z :: m)) eqn:E; [done | by apply last_None in E]. }
    clearbody y.
    assert (y ∈ x :: m) as Hy by by apply last_Some_elem_of.
    assert (t <> y) as Hty by set_solver.
    unfold rq_push_back. cbn [g_ready_head with_ts on_task]. rewrite Hh.
    destruct (Z.eqb_spec x NULL); [done|].
    assert (prev (tk (on_task (set_prev NULL) t (on_task (set_next NULL) t s)) x) = y) as ->.
    { rewrite <- Hpx. on_slots. }
    split; [|split; [|split; [|done]]].
    + match goal with |- ring _ ?h _ => replace h with x by exact (eq_sym Hh) end.
      apply (ring_snoc (tk s) _ (g_ready_head s) (x :: m) t); cbn [head default from_option id]; [done | done | | | | | ].
      * intros j Hj Hjl. assert (j <> y) by congruence. assert (j <> t) by set_solver. on_slots.
      * intros j Hj Hjl. assert (j <> x) by congruence. assert (j <> t) by set_solver. on_slots.
      * rewrite Hl. intros ? [= <-]. split; on_slots.
      * on_slots.
      * on_slots.
    + intros j. by autorewrite with aios_rw.
    + intros j Hj. assert (j <> t /\ j <> x /\ j <> y) as (? & ? & ?).
      { repeat split; intros ->; apply Hj; set_solver. }
      on_slots.
Qed.

Lemma rq_pop_front_spec x m s :
  ring (tk s) (g_ready_head s) (x :: m) -> NoDup (x :: m) -> NULL ∉ x :: m -> g_ready_count s <> 0 ->
  exists s', rq_pop_front s = (x, s') /\
    ring (tk s') (g_ready_head s') m /\
    (forall j, body (tk s' j) = body (tk s j)) /\
    (forall j, j ∉ x :: m -> tk s' j = tk s j) /\
    g_ready_count s' = s32 (g_ready_count s - 1) /\ rest s' = rest s.
Proof.
  intros Hr Hd Hn Hc. pose proof (ring_head _ _ _ _ Hr) as Hh. rewrite Hh in Hr.
  destruct (ring_ends _ _ _ Hr) as [Hnx Hpx].
  assert (x <> NULL) as Hx0 by set_solver.
  unfold rq_pop_front. rewrite Hh. destruct (Z.eqb_spec x NULL); [done|].
  eexists. split; [done|]. unfold rq_remove. destruct (Z.eqb_spec (g_ready_count s) 0); [done|].
  cbn [orb]. destruct m as [|z m].
  - cbn in Hnx. rewrite Hnx. destruct (Z.eqb_spec x NULL); [done|]. rewrite Z.eqb_refl.
    split; [done|]. split; [intros j; by autorewrite with aios_rw|]. split; [|done].
    intros j Hj. assert (j <> x) by set_solver. on_slots.
  - cbn [head default from_option id] in Hnx. rewrite Hnx, Hpx.
    assert (x <> z /\ z <> NULL) as [Hxz Hz0].
    { split; [|set_solver]. apply NoDup_cons in Hd as [Hd _]. set_solver. }
    destruct (last (z :: m)) as [y|] eqn:El; [|by apply last_None in El]. cbn [default from_option id].
    assert (y ∈ z :: m) as Hy by by apply last_Some_elem_of.
    apply NoDup_cons in Hd as Hd'. destruct Hd' as [Hxm _].
    assert (x <> y) as Hxy by (intros ->; done).
    destruct (Z.eqb_spec z NULL); [done|]. destruct (Z.eqb_spec z x); [congruence|].
    assert (next (tk (on_task (set_next z) y s) x) = z) as Hnx2 by (rewrite <- Hnx at 2; on_slots).
    assert (prev (tk (on_task (set_next z) y s) x) = y) as Hpx2 by (rewrite <- Hpx at 2; cbn [default from_option id]; on_slots).
    rewrite Hnx2, Hpx2.
    cbn [g_ready_head with_ts on_task]. rewrite Hh, Z.eqb_refl.
    assert (next (tk (on_task (set_prev y) z (on_task (set_next z) y s)) x) = z) as Hnx3.
    { rewrite <- Hnx2 at 2. on_slots. }
    rewrite Hnx3. cbn [g_ready_head with_ts with_head with_count on_task].
    split; [|split; [|split; [|done]]].
    + apply (ring_uncons (tk s) _ x (z :: m) z y); try done.
      * intros j Hj Hjy. assert (j <> x) by (intros ->; done). on_slots.
      * intros j Hj Hjz. assert (j <> x) by (intros ->; done). on_slots.
      * on_slots.
      * on_slots.
    + intros j. by autorewrite with aios_rw.
    + intros j Hj. assert (j <> x /\ j <> z /\ j <> y) as (? & ? & ?).
      { repeat split; intros ->; apply Hj; set_solver. }
      on_slots.
Qed.

End Queues.

(** ** Well-formed queues *)

Definition slot_ok (t : Z) : Prop := 0 <= t < TASK_MAX.

(** [rd]: the ready queue, next to run first.  [sl]: the sleeping tasks with
    their wake-up ticks, last to sleep first. *)
Record queues (f : Z -> task) (hd cnt sh : Z) (rd : list Z) (sl : list (Z * Z)) : Prop := {
  q_ring : ring f hd rd;
  q_count : cnt = Z.of_nat (length rd);
  q_ready : Forall (fun t => state (f t) = TASK_READY) rd;
  q_slist : slist f sh sl.*1;
  q_sleep : Forall (fun p => state (f p.1) = TASK_SLEEPING /\ wake_tick (f p.1) = p.2) sl;
  q_nodup : NoDup (rd ++ sl.*1);
  q_slots : Forall slot_ok (rd ++ sl.*1);
}.

Lemma slots_length l : NoDup l -> Forall slot_ok l -> Z.of_nat (length l) <= TASK_MAX.
Proof.
  intros Hd Hs. assert (l ⊆+ seqZ 0 TASK_MAX) as Hsub.
  { apply NoDup_submseteq; [done|]. intros x Hx. rewrite Forall_forall in Hs.
    specialize (Hs x Hx). apply elem_of_seqZ. unfold slot_ok in Hs. lia. }
  apply submseteq_length in Hsub. rewrite length_seqZ in Hsub. unfold TASK_MAX in *. lia.
Qed.

Lemma slot_not_null t : slot_ok t -> t <> NULL.
Proof. unfold slot_ok, NULL. lia. Qed.

Lemma slots_not_null l : Forall slot_ok l -> NULL ∉ l.
Proof. rewrite Forall_forall. intros Hl Hn. by apply (slot_not_null NULL); [apply Hl|]. Qed.

(** The fields the queues depend on. *)
Definition view (t : task) := (next t, prev t, state t, wake_tick t).

Lemma queues_frame f f' hd cnt sh rd sl :
  (forall j, j ∈ rd ++ sl.*1 -> view (f' j) = view (f j)) -> queues f hd cnt sh rd sl -> queues f' hd cnt sh rd sl.
Proof.
  unfold view. intros Hf [H1 H2 H3 H4 H5 H6 H7].
  assert (forall p, p ∈ sl -> p.1 ∈ rd ++ sl.*1) as Hf2.
  { intros p Hp. apply elem_of_app. right. by apply list_elem_of_fmap_2. }
  constructor; [| done | | | | done | done].
  - eapply ring_frame; [|exact H1]. intros a Ha. specialize (Hf a ltac:(set_solver)). split; congruence.
  - rewrite Forall_forall in *. intros x Hx. specialize (Hf x ltac:(set_solver)). specialize (H3 x Hx). congruence.
  - eapply slist_agree; [|exact H4]. intros a Ha. specialize (Hf a ltac:(set_solver)). congruence.
  - rewrite Forall_forall in *. intros p Hp. specialize (Hf _ (Hf2 _ Hp)). destruct (H5 p Hp). split; congruence.
Qed.

Section Wake.
Context {A : Type} `{Allocator A}.
Implicit Type s : sched A.

Definition qrel s := queues (tk s) (g_ready_head s) (g_ready_count s) (g_sleep_head s).

(** Everything of a task but its state and links. *)
Definition core (t : task) : task := set_state TASK_DEAD (body t).

Lemma body_core t t' : body t = body t' -> core t = core t'.
Proof. unfold core. by intros ->. Qed.

Lemma body_fields t t' : body t = body t' -> state t = state t' /\ wake_tick t = wake_tick t' /\ t_rsp t = t_rsp t'.
Proof. destruct t, t'. unfold body. cbn. intros [=]. subst. done. Qed.

Lemma qrel_push t s rd sl :
  qrel s rd sl -> t ∉ rd ++ sl.*1 -> slot_ok t -> state (tk s t) = TASK_READY ->
  let s' := rq_push_back t s in
  qrel s' (rd ++ [t]) sl /\ (forall j, body (tk s' j) = body (tk s j)) /\
  (forall j, j ∉ rd ++ [t] -> tk s' j = tk s j) /\ rest s' = rest s.
Proof.
  intros [H1 H2 H3 H4 H5 H6 H7] Ht Hs Hst. cbv zeta.
  assert (NoDup (rd ++ [t])) as Hd.
  { apply NoDup_app in H6 as (? & ? & ?). apply NoDup_app. split; [done|]. split; [set_solver|]. apply NoDup_singleton. }
  assert (Forall slot_ok (rd ++ [t])) as Hr.
  { apply Forall_app in H7 as [? _]. apply Forall_app. by rewrite Forall_singleton. }
  destruct (rq_push_back_spec t rd s H1 Hd (slots_not_null _ Hr)) as (R1 & R2 & R3 & R4 & R5).
  split; [|done]. set (s' := rq_push_back t s) in *. clearbody s'.
  pose proof (f_equal (fun p => p.1.1.1.1.1) R5) as Rs. cbn in Rs.
  assert (forall p, p ∈ sl -> tk s' p.1 = tk s p.1) as Hk.
  { intros p Hp. apply R3. apply (list_elem_of_fmap_2 fst) in Hp. apply NoDup_app in H6 as (_ & H6 & _). set_solver. }
  constructor.
  - done.
  - rewrite R4, H2, length_app. cbn [length]. pose proof (slots_length _ Hd Hr) as Hlen.
    rewrite length_app in Hlen. cbn [length] in Hlen. unfold TASK_MAX in *. rewrite s32_small by lia. lia.
  - rewrite Forall_app, Forall_singleton. rewrite Forall_forall in *.
    split; [intros x Hx|]; rewrite (proj1 (body_fields _ _ (R2 _))); auto.
  - rewrite Rs. eapply slist_agree; [|exact H4]. intros a Ha. rewrite R3; [done|].
    apply NoDup_app in H6 as (_ & H6 & _). set_solver.
  - rewrite Forall_forall in *. intros p Hp. rewrite Hk by done. auto.
  - apply NoDup_app in H6 as (? & ? & ?). apply NoDup_app. split; [done|]. split; [set_solver | done].
  - apply Forall_app in H7 as [_ H7]. by apply Forall_app.
Qed.

Lemma qrel_pop x rd s sl :
  qrel s (x :: rd) sl ->
  exists s', rq_pop_front s = (x, s') /\ qrel s' rd sl /\
    (forall j, body (tk s' j) = body (tk s j)) /\
    (forall j, j ∉ x :: rd -> tk s' j = tk s j) /\ rest s' = rest s.
Proof.
  intros [H1 H2 H3 H4 H5 H6 H7].
  pose proof (proj1 (proj1 (NoDup_app _ _) H6)) as Hd. pose proof (proj1 (proj1 (Forall_app _ _ _) H7)) as Hr.
  destruct (rq_pop_front_spec x rd s H1 Hd (slots_not_null _ Hr)) as (s' & E & R1 & R2 & R3 & R4 & R5).
  { rewrite H2. cbn [length]. lia. }
  exists s'. split; [done|]. split; [|done].
  pose proof (f_equal (fun p => p.1.1.1.1.1) R5) as Rs. cbn in Rs.
  assert (forall j, j ∈ sl.*1 -> tk s' j = tk s j) as Hk.
  { intros j Hj. apply R3. apply NoDup_app in H6 as (_ & H6 & _). set_solver. }
  cbn [app] in H6, H7. apply NoDup_cons in H6 as [_ H6]. apply Forall_cons in H7 as [_ H7].
  apply Forall_cons in H3 as [_ H3].
  constructor; [done | | | | | done | done].
  - rewrite R4, H2. cbn [length]. pose proof (slots_length _ Hd Hr) as Hlen. cbn [length] in Hlen.
    unfold TASK_MAX in *. rewrite s32_small by lia. lia.
  - rewrite Forall_forall in *. intros y Hy. rewrite (proj1 (body_fields _ _ (R2 _))). auto.
  - rewrite Rs. eapply slist_agree; [|exact H4]. intros a Ha. by rewrite Hk.
  - rewrite Forall_forall in *. intros p Hp. rewrite Hk by (by apply list_elem_of_fmap_2). auto.
Qed.

(** What [sq_wake_due] leaves alone. *)
Definition others s := (g_quantum_left s, g_ticks s, g_current (ts s), g_next_pid (ts s), alloc (ts s)).

Lemma rest_others s s' : rest s' = rest s -> others s' = others s.
Proof. unfold rest, others. by intros [= _ -> -> -> -> ->]. Qed.

Definition link_of (pre : list (Z * Z)) : link_ptr :=
  match last pre.*1 with None => SleepHead | Some p => NextOf p end.

Definition unlink (pp : link_ptr) (t : Z) s : sched A :=
  on_task (set_state TASK_READY) t (on_task (set_prev NULL) t (on_task (set_next NULL) t
    (write_link pp (next (tk s t)) s))).

Lemma tk_unlink pp t s j : tk (unlink pp t s) j =
  if decide (j = t) then set_state TASK_READY (set_prev NULL (set_next NULL (tk s t)))
  else match pp with
       | NextOf p => if decide (j = p) then set_next (next (tk s t)) (tk s p) else tk s j
       | SleepHead => tk s j
       end.
Proof.
  unfold unlink, tk, on_task, write_link, alter_task, on_task, alter_task, tk.
  destruct pp as [|p]; cbn; rewrite !upd_spec; repeat case_decide; subst; try done; congruence.
Qed.

Lemma qrel_unlink pre t w suf rd s :
  qrel s rd (pre ++ (t, w) :: suf) ->
  let s' := unlink (link_of pre) t s in
  qrel s' rd (pre ++ suf) /\ state (tk s' t) = TASK_READY /\
  (forall j, core (tk s' j) = core (tk s j)) /\
  (forall j, j ∉ (pre ++ (t, w) :: suf).*1 -> tk s' j = tk s j) /\ others s' = others s.
Proof.
  intros [H1 H2 H3 H4 H5 H6 H7]. cbv zeta. set (s' := unlink (link_of pre) t s).
  rewrite fmap_app, fmap_cons in *. cbn [fst] in *.
  assert (NoDup (pre.*1 ++ t :: suf.*1)) as Hd by (by apply NoDup_app in H6 as (_ & _ & ?)).
  assert (forall p, last pre.*1 = Some p -> p ∈ pre.*1) as Hlast by (intros; by apply last_Some_elem_of).
  assert (forall j, j ∉ pre.*1 ++ t :: suf.*1 -> tk s' j = tk s j) as Hfr.
  { intros j Hj. unfold s'. rewrite tk_unlink, decide_False by set_solver. unfold link_of.
    destruct (last pre.*1) as [p|] eqn:El; [|done]. specialize (Hlast p eq_refl).
    rewrite decide_False by set_solver. done. }
  assert (forall j, j ∈ rd -> tk s' j = tk s j) as Hrd.
  { intros j Hj. apply Hfr. apply NoDup_app in H6 as (_ & H6 & _). auto. }
  assert (t ∉ pre.*1 ++ suf.*1) as Ht.
  { apply NoDup_app in Hd as (_ & Hd & Hd'). apply NoDup_cons in Hd' as [? _]. rewrite elem_of_app.
    intros [?|?]; [|done]. apply (Hd t); [done|]. by left. }
  assert (forall j, j ∈ pre.*1 ++ suf.*1 -> state (tk s' j) = state (tk s j) /\ wake_tick (tk s' j) = wake_tick (tk s j) /\
    (last pre.*1 <> Some j -> next (tk s' j) = next (tk s j))) as Hsl.
  { intros j Hj. unfold s'. rewrite tk_unlink, decide_False by congruence. unfold link_of.
    destruct (last pre.*1) as [p|]; [|done]. case_decide; [subst; done | done]. }
  assert (g_ready_head s' = g_ready_head s /\ g_ready_count s' = g_ready_count s) as [Hh Hc].
  { unfold s', unlink, link_of. by destruct (last pre.*1). }
  split; [|split; [|split; [|split]]].
  - constructor.
    + rewrite Hh. eapply ring_frame; [|exact H1]. intros a Ha. rewrite Hrd by done. done.
    + by rewrite Hc.
    + rewrite Forall_forall in *. intros x Hx. rewrite Hrd by done. auto.
    + rewrite fmap_app. apply (slist_unlink (tk s) (tk s') (g_sleep_head s) _ _ t); [done | done | |].
      * intros a Ha Hne. by apply Hsl.
      * unfold s', unlink, link_of. destruct (last pre.*1) as [p|] eqn:El; [|done].
        split; [done|]. fold (unlink (NextOf p) t s). rewrite tk_unlink, decide_False by (specialize (Hlast p eq_refl); set_solver).
        by rewrite decide_True.
    + rewrite Forall_forall in *. intros p Hp.
      destruct (Hsl p.1) as (-> & -> & _). { rewrite <- fmap_app. by apply list_elem_of_fmap_2. }
      apply H5. set_solver.
    + rewrite fmap_app. apply NoDup_app in H6 as (Ha & Hb & _). apply NoDup_app. split; [done|].
      split; [set_solver|]. apply NoDup_app in Hd as (Hc1 & Hdd & He).
      apply NoDup_cons in He as [_ He]. apply NoDup_app. split; [done|]. split; [set_solver | done].
    + rewrite fmap_app. rewrite !Forall_app, Forall_cons in *. tauto.
  - unfold s'. rewrite tk_unlink, decide_True; done.
  - intros j. unfold s'. rewrite tk_unlink. case_decide; [by subst|]. destruct (link_of pre); [done|].
    case_decide; [by subst | done].
  - exact Hfr.
  - unfold s', unlink, link_of. by destruct (last pre.*1).
Qed.

Definition is_due (now : Z) (p : Z * Z) : bool := p.2 <=? now.

Definition due (now : Z) (sl : list (Z * Z)) : list Z := (filter (fun p => is_due now p = true) sl).*1.
Definition still (now : Z) (sl : list (Z * Z)) : list (Z * Z) := filter (fun p => is_due now p = false) sl.

Lemma due_cons now p sl :
  due now (p :: sl) = (if is_due now p then [p.1] else []) ++ due now sl.
Proof. unfold due. rewrite filter_cons. by destruct (is_due now p). Qed.
Lemma still_cons now p sl :
  still now (p :: sl) = (if is_due now p then [] else [p]) ++ still now sl.
Proof. unfold still. rewrite filter_cons. by destruct (is_due now p). Qed.

Lemma others_ticks s s' : others s' = others s -> g_ticks s' = g_ticks s.
Proof. unfold others. by intros [= _ -> _ _ _]. Qed.

Lemma sq_wake_loop_spec fuel pre suf rd s :
  qrel s rd (pre ++ suf) -> (length suf <= fuel)%nat ->
  exists s', sq_wake_loop fuel (link_of pre) s = Some s' /\
    qrel s' (rd ++ due (g_ticks s) suf) (pre ++ still (g_ticks s) suf) /\
    (forall j, core (tk s' j) = core (tk s j)) /\
    (forall j, j ∉ rd ++ (pre ++ suf).*1 -> tk s' j = tk s j) /\ others s' = others s.
Proof.
  revert fuel pre rd s. induction suf as [|[t w] suf IH]; intros fuel pre rd s Hq Hfuel.
  - assert (read_link (link_of pre) s = NULL) as Hr.
    { pose proof (slist_end _ _ _ (q_slist _ _ _ _ _ _ Hq)) as He. rewrite app_nil_r in He.
      unfold link_of. by destruct (last pre.*1). }
    exists s. split; [destruct fuel; cbn [sq_wake_loop]; by rewrite Hr|].
    unfold due, still. cbn [filter list_filter fmap list_fmap]. by rewrite app_nil_r.
  - assert (read_link (link_of pre) s = t) as Hr.
    { pose proof (q_slist _ _ _ _ _ _ Hq) as He. rewrite fmap_app, fmap_cons in He.
      apply slist_read in He. unfold link_of. by destruct (last pre.*1). }
    pose proof (q_slots _ _ _ _ _ _ Hq) as Hs. rewrite fmap_app, fmap_cons, !Forall_app, Forall_cons in Hs.
    destruct Hs as (_ & _ & Hst & _). cbn [fst] in Hst.
    pose proof (q_sleep _ _ _ _ _ _ Hq) as Hw. rewrite Forall_app, Forall_cons in Hw.
    destruct Hw as (_ & [_ Hw] & _). cbn [fst snd] in Hw.
    destruct fuel as [|fuel]; cbn [length] in Hfuel; [lia|].
    cbn [sq_wake_loop]. rewrite Hr. destruct (Z.eqb_spec t NULL) as [->|_]; [by apply slot_not_null in Hst|].
    rewrite Hw, due_cons, still_cons. change (is_due (g_ticks s) (t, w)) with (w <=? g_ticks s). cbn [fst].
    destruct (w <=? g_ticks s) eqn:Ed.
    + destruct (qrel_unlink _ _ _ _ _ _ Hq) as (Q1 & Q2 & Q3 & Q4 & Q5).
      fold (unlink (link_of pre) t s). set (s1 := unlink (link_of pre) t s) in *. clearbody s1.
      pose proof (q_nodup _ _ _ _ _ _ Hq) as Hd. rewrite fmap_app, fmap_cons in Hd. cbn [fst] in Hd.
      assert (t ∉ rd ++ (pre ++ suf).*1) as Ht.
      { rewrite fmap_app. rewrite (app_assoc rd) in *. rewrite <- Permutation_middle in Hd.
        by apply NoDup_cons in Hd as [? _]. }
      destruct (qrel_push t s1 rd (pre ++ suf) Q1 Ht Hst Q2) as (P1 & P2 & P3 & P4).
      destruct (IH fuel pre (rd ++ [t]) _ P1 ltac:(lia)) as (s' & E & R1 & R2 & R3 & R4).
      apply rest_others in P4. rewrite (others_ticks _ _ P4), (others_ticks _ _ Q5) in R1.
      exists s'. split; [done|]. split; [by rewrite app_assoc|]. split.
      { intros j. rewrite R2, (body_core _ _ (P2 j)). apply Q3. }
      split; [|congruence]. intros j Hj. rewrite fmap_app, fmap_cons in Hj. cbn [fst] in Hj.
      rewrite R3, P3, Q4; [done | | | ]; rewrite ?fmap_app, ?fmap_cons; cbn [fst]; set_solver.
    + replace (NextOf t) with (link_of (pre ++ [(t, w)])) by (unfold link_of; rewrite fmap_app; change [(t, w)].*1 with [t]; by rewrite last_snoc).
      replace (pre ++ (t, w) :: suf) with ((pre ++ [(t, w)]) ++ suf) in * by (by rewrite <- app_assoc).
      destruct (IH fuel _ rd s Hq ltac:(lia)) as (s' & E & R1 & R2). exists s'. split; [done|].
      split; [|done]. rewrite <- app_assoc in R1. exact R1.
Qed.

Lemma sq_wake_due_spec s rd sl :
  qrel s rd sl ->
  exists s', sq_wake_due s = Some s' /\ qrel s' (rd ++ due (g_ticks s) sl) (still (g_ticks s) sl) /\
    (forall j, core (tk s' j) = core (tk s j)) /\
    (forall j, j ∉ rd ++ sl.*1 -> tk s' j = tk s j) /\ others s' = others s.
Proof.
  intros Hq. apply (sq_wake_loop_spec _ [] sl); [done|].
  pose proof (q_nodup _ _ _ _ _ _ Hq) as Hd. pose proof (q_slots _ _ _ _ _ _ Hq) as Hs.
  pose proof (slots_length _ Hd Hs) as Hlen. rewrite length_app, length_fmap in Hlen.
  unfold TASK_MAX in *. lia.
Qed.

End Wake.
