(* ===== verification/SchedSpec.v ===== *)
(** The specification of the scheduler of Sched.v over two lists, and the
    refinement: every operation of kernel/sched.c does to the linked queues
    what the specification does to the lists.  Fairness and wake-up times are
    proved on the specification and hold for the code by refinement. *)

From S2P Require Import Prelude Memory Alloc Heap Task Sched.
Local Open Scope Z_scope.

(** ** The abstract scheduler *)

(** The specification: the running task, the ready queue (next to run first),
    the sleeping tasks with their wake-up ticks, the ticks left and the time. *)
Record asched := mk_asched {
  acur : Z;
  aready : list Z;
  asleep : list (Z * Z);
  aquantum : Z;
  aticks : Z;
}.

(** Dispatch the head of the queue; [back] is what happens to the running task. *)
Definition aswitch (back : list Z) (a : asched) : asched :=
  match aready a with
  | [] => a
  | n :: r => mk_asched n (r ++ back) (asleep a) SCHED_TICK_QUANTUM (aticks a)
  end.

Definition awake (a : asched) : asched :=
  mk_asched (acur a) (aready a ++ due (aticks a) (asleep a)) (still (aticks a) (asleep a)) (aquantum a) (aticks a).

Definition atick (a : asched) : asched :=
  let a := awake (mk_asched (acur a) (aready a) (asleep a) (aquantum a) (u64 (aticks a + 1))) in
  let q := if 0 <? aquantum a then aquantum a - 1 else aquantum a in
  let a := mk_asched (acur a) (aready a) (asleep a) q (aticks a) in
  if q =? 0 then aswitch [acur a] a else a.

Definition set_aquantum (q : Z) (a : asched) : asched := mk_asched (acur a) (aready a) (asleep a) q (aticks a).

Definition ayield (a : asched) : asched := aswitch [acur a] (set_aquantum 0 a).

Definition asleep_op (ms : Z) (a : asched) : asched :=
  aswitch [] (mk_asched (acur a) (aready a) ((acur a, u64 (aticks a + ms)) :: asleep a) 0 (aticks a)).

Definition aexit (a : asched) : asched := aswitch [] (set_aquantum 0 a).

Definition aadd (t : Z) (a : asched) : asched :=
  mk_asched (acur a) (aready a ++ [t]) (asleep a) (aquantum a) (aticks a).

(** All tasks the scheduler knows. *)
Definition members (a : asched) : list Z := acur a :: aready a ++ (asleep a).*1.

(** One kernel entry: the timer interrupt or a call by the running task. *)
Inductive op := Tick | Yield | Sleep (ms : Z) | Exit | Add (t : Z).

(** [None]: the operation is not possible in [a]; the idle task, which never
    sleeps nor exits, rules that out for sleep and exit. *)
Definition arun (o : op) (a : asched) : option asched :=
  match o with
  | Tick => Some (atick a)
  | Yield => Some (ayield a)
  | Sleep ms => if decide (aready a = []) then None else Some (asleep_op ms a)
  | Exit => if decide (aready a = []) then None else Some (aexit a)
  | Add t => if decide (t ∈ members a \/ ~ slot_ok t) then None else Some (aadd t a)
  end.

Fixpoint aruns (os : list op) (a : asched) : option asched :=
  match os with
  | [] => Some a
  | o :: r => a' ← arun o a; aruns r a'
  end.

Section Refine.
Context {A : Type} `{Allocator A}.
Implicit Type s : sched A.

(** The refinement relation, which is also the invariant of sched.c. *)
Record rel s (a : asched) : Prop := {
  r_cur : g_current (ts s) = acur a;
  r_run : state (tk s (acur a)) = TASK_RUNNING;
  r_slot : slot_ok (acur a);
  r_queues : qrel s (aready a) (asleep a);
  r_quantum : g_quantum_left s = aquantum a;
  r_ticks : g_ticks s = aticks a;
}.

Lemma tk_on_task f i s j : tk (on_task f i s) j = if decide (i = j) then f (tk s i) else tk s j.
Proof. unfold tk, on_task, alter_task. cbn. apply upd_spec. Qed.

Lemma qrel_view s s' rd sl :
  (forall j, j ∈ rd ++ sl.*1 -> view (tk s' j) = view (tk s j)) ->
  g_ready_head s' = g_ready_head s -> g_ready_count s' = g_ready_count s -> g_sleep_head s' = g_sleep_head s ->
  qrel s rd sl -> qrel s' rd sl.
Proof. unfold qrel. intros Hv -> -> ->. by apply queues_frame. Qed.

Lemma qrel_on_task f i s rd sl : i ∉ rd ++ sl.*1 -> qrel s rd sl -> qrel (on_task f i s) rd sl.
Proof.
  intros Hi. apply qrel_view; [|done..]. intros j Hj. rewrite tk_on_task, decide_False; [done|]. by intros ->.
Qed.

Lemma qrel_state_ready s rd sl t : qrel s rd sl -> t ∈ rd -> state (tk s t) = TASK_READY.
Proof. intros Hq. pose proof (q_ready _ _ _ _ _ _ Hq) as Hf. rewrite Forall_forall in Hf. apply Hf. Qed.

Lemma qrel_state_sleep s rd sl t : qrel s rd sl -> t ∈ sl.*1 -> state (tk s t) = TASK_SLEEPING.
Proof.
  intros Hq Ht. apply list_elem_of_fmap in Ht as (p & -> & Hp).
  pose proof (q_sleep _ _ _ _ _ _ Hq) as Hf. rewrite Forall_forall in Hf. by apply Hf.
Qed.

Lemma qrel_not_member s rd sl t :
  qrel s rd sl -> state (tk s t) <> TASK_READY -> state (tk s t) <> TASK_SLEEPING -> t ∉ rd ++ sl.*1.
Proof.
  intros Hq H1 H2 Ht. apply elem_of_app in Ht as [Ht|Ht].
  - by apply (qrel_state_ready _ _ _ _ Hq) in Ht.
  - by apply (qrel_state_sleep _ _ _ _ Hq) in Ht.
Qed.

(** The part of [do_switch] that handles the outgoing task. *)
Lemma requeue_spec cur s rd sl :
  qrel s rd sl -> slot_ok cur ->
  let run := decide (state (tk s cur) = TASK_RUNNING) in
  let s' := if run then rq_push_back cur (on_task (set_state TASK_READY) cur s) else s in
  qrel s' (rd ++ if run then [cur] else []) sl /\
  (forall j, j ∉ cur :: rd -> tk s' j = tk s j) /\ (forall j, core (tk s' j) = core (tk s j)) /\
  state (tk s' cur) = (if run then TASK_READY else state (tk s cur)) /\ others s' = others s.
Proof.
  intros Hq Hs. cbv zeta. destruct (decide _) as [Hr|Hr].
  2: { rewrite app_nil_r. done. }
  assert (cur ∉ rd ++ sl.*1) as Hc by (apply (qrel_not_member _ _ _ _ Hq); congruence).
  pose proof (qrel_on_task (set_state TASK_READY) cur s rd sl Hc Hq) as Hq1.
  destruct (qrel_push cur _ rd sl Hq1 Hc Hs) as (P1 & P2 & P3 & P4).
  { by rewrite tk_on_task, decide_True. }
  split; [done|]. split; [|split; [|split]].
  - intros j Hj. rewrite P3 by set_solver. rewrite tk_on_task, decide_False; [done|]. set_solver.
  - intros j. rewrite (body_core _ _ (P2 j)), tk_on_task. case_decide; [by subst | done].
  - rewrite (proj1 (body_fields _ _ (P2 _))). by rewrite tk_on_task, decide_True.
  - by apply rest_others in P4.
Qed.

Lemma core_rsp t t' : core t = core t' -> t_rsp t = t_rsp t' /\ wake_tick t = wake_tick t'.
Proof. destruct t, t'. unfold core, body. cbn. intros [=]. by subst. Qed.

(** The effect of [dispatch], slot by slot. *)
Lemma dispatch_spec curr nxt c s :
  curr <> nxt ->
  let '(m, sp) := save_context (a_mem (alloc (ts s))) c in
  exists s', dispatch curr nxt c s = (load_context m (t_rsp (tk s nxt)), s') /\
    (forall j, tk s' j = if decide (curr = j) then set_rsp sp (tk s curr)
                         else if decide (nxt = j) then set_state TASK_RUNNING (tk s nxt) else tk s j) /\
    g_ready_head s' = g_ready_head s /\ g_ready_count s' = g_ready_count s /\ g_sleep_head s' = g_sleep_head s /\
    g_current (ts s') = nxt /\ g_quantum_left s' = SCHED_TICK_QUANTUM /\ g_ticks s' = g_ticks s.
Proof.
  intros Hne. unfold dispatch, switch_context, tk.
  cbn [ts with_ts with_quantum on_task task_set_current alloc set_tasks g_tasks].
  destruct (save_context (a_mem (alloc (ts s))) c) as [m sp].
  assert (alter_task (set_state TASK_RUNNING) nxt (g_tasks (ts s)) nxt = set_state TASK_RUNNING (g_tasks (ts s) nxt)) as ->.
  { unfold alter_task. by rewrite upd_eq. }
  eexists. split; [done|]. split; [|done]. intros j. cbn. unfold alter_task. rewrite !upd_spec.
  repeat case_decide; subst; done || congruence.
Qed.

Lemma do_switch_spec c n rd sl s :
  let cur := g_current (ts s) in
  qrel s (n :: rd) sl -> slot_ok cur -> state (tk s cur) <> TASK_READY ->
  let run := decide (state (tk s cur) = TASK_RUNNING) in
  exists s', do_switch c s =
      (load_context (save_context (a_mem (alloc (ts s))) c).1 (t_rsp (tk s n)), s') /\
    rel s' (mk_asched n (rd ++ if run then [cur] else []) sl SCHED_TICK_QUANTUM (g_ticks s)) /\
    state (tk s' cur) = (if run then TASK_READY else state (tk s cur)) /\
    t_rsp (tk s' cur) = (save_context (a_mem (alloc (ts s))) c).2 /\
    (forall j, core (set_rsp 0 (tk s' j)) = core (set_rsp 0 (tk s j))).
Proof.
  intros cur Hq Hs Hst run.
  assert (cur ∉ n :: rd) as Hcur by (intros Hin; by apply (qrel_state_ready _ _ _ _ Hq) in Hin).
  unfold do_switch. rewrite (q_count _ _ _ _ _ _ Hq). cbn [length].
  destruct (Z.eqb_spec (Z.of_nat (S (length rd))) 0); [lia|].
  pose proof (q_nodup _ _ _ _ _ _ Hq) as Hd. pose proof (q_slots _ _ _ _ _ _ Hq) as Hsl.
  cbn [app] in Hd, Hsl. apply NoDup_cons in Hd as [Hn Hd]. apply Forall_cons in Hsl as [Hns Hsl].
  destruct (qrel_pop _ _ _ _ Hq) as (s1 & -> & Q1 & Q2 & Q3 & Q4).
  unfold task_get_current. fold cur. assert (n <> cur) as Hne by set_solver.
  destruct (Z.eqb_spec n cur) as [|_]; [done|].
  assert (state (tk s1 cur) = state (tk s cur)) as Hst1 by (by rewrite Q3).
  pose proof (requeue_spec cur s1 rd sl Q1 Hs) as R. cbv zeta in R. rewrite Hst1 in *. fold run in R. fold run.
  destruct R as (R1 & R2 & R3 & R4 & R5).
  set (s2 := if run then _ else _) in *. clearbody s2.
  assert (n ∉ (rd ++ if run then [cur] else []) ++ sl.*1) as Hn2 by (destruct run; set_solver).
  pose proof (rest_others _ _ Q4) as Ho. rewrite <- R5 in Ho. unfold others in Ho. injection Ho as _ Ht _ _ Ha.
  pose proof (dispatch_spec cur n c s2 ltac:(done)) as D. rewrite <- Ha.
  destruct (save_context (a_mem (alloc (ts s2))) c) as [m sp].
  destruct D as (s' & -> & D1 & D2 & D3 & D4 & D5 & D6 & D7). cbn [fst snd].
  exists s'. split.
  { f_equal. f_equal. rewrite (proj1 (core_rsp _ _ (R3 n))). by rewrite (proj2 (proj2 (body_fields _ _ (Q2 n)))). }
  split; [|split; [|split]].
  - constructor; cbn [acur aready asleep aquantum aticks]; [done | | done | | done | congruence].
    + rewrite D1, decide_False by done. by rewrite decide_True.
    + eapply qrel_view; [|done..|exact R1]. intros j Hj. rewrite D1. case_decide; [by subst|].
      case_decide; [subst; set_solver | done].
  - rewrite D1, decide_True by done. exact R4.
  - rewrite D1, decide_True by done. done.
  - intros j. assert (core (tk s2 j) = core (tk s j)) as Hc by (by rewrite R3, (body_core _ _ (Q2 j))).
    change (set_rsp 0 (core (tk s' j)) = set_rsp 0 (core (tk s j))). rewrite <- Hc, D1.
    destruct (decide (cur = j)) as [<-|]; [done|]. by destruct (decide (n = j)) as [<-|].
Qed.

Lemma rel_cur_not_member s a : rel s a -> acur a ∉ aready a ++ (asleep a).*1.
Proof. intros [_ Hr _ Hq _ _]. apply (qrel_not_member _ _ _ _ Hq); congruence. Qed.

Lemma rel_nodup s a : rel s a -> NoDup (members a).
Proof.
  intros Hr. unfold members. apply NoDup_cons. split; [by eapply rel_cur_not_member|].
  by destruct Hr as [_ _ _ [] _ _].
Qed.

(** A switch away from a running task, with an empty or non-empty queue. *)
Lemma do_switch_running c s a :
  rel s a -> exists s', do_switch c s = ((do_switch c s).1, s') /\ rel s' (aswitch [acur a] a).
Proof.
  intros Hr. pose proof Hr as [Hc Hrun Hs Hq Hqu Ht]. unfold aswitch. destruct (aready a) as [|n r] eqn:Ea.
  - unfold do_switch. rewrite (q_count _ _ _ _ _ _ Hq). cbn. by exists s.
  - destruct (do_switch_spec c n r (asleep a) s) as (s' & E & R & _); [done | by rewrite Hc | congruence |].
    rewrite E. exists s'. split; [done|]. rewrite Hc, Hrun in R. rewrite decide_True in R by done.
    by rewrite Ht in R.
Qed.

(** A switch away from a task that just blocked or exited. *)
Lemma do_switch_blocked c s cur rd sl n r q :
  qrel s rd sl -> rd = n :: r -> g_current (ts s) = cur -> slot_ok cur ->
  state (tk s cur) <> TASK_READY -> state (tk s cur) <> TASK_RUNNING ->
  exists s', do_switch c s = ((do_switch c s).1, s') /\
    rel s' (aswitch [] (mk_asched cur rd sl q (g_ticks s))) /\ state (tk s' cur) = state (tk s cur) /\
    (forall j, core (set_rsp 0 (tk s' j)) = core (set_rsp 0 (tk s j))).
Proof.
  intros Hq -> Hc Hs H1 H2.
  destruct (do_switch_spec c n r sl s) as (s' & E & R & Hst & _ & Hk); [done | by rewrite Hc | by rewrite Hc |].
  rewrite Hc in *. rewrite decide_False in R by done. rewrite decide_False in Hst by done.
  rewrite E. by exists s'.
Qed.

Lemma tick_refines c s a :
  rel s a -> exists c' s', pit_irq_handler c s = Some (c', s') /\ rel s' (atick a).
Proof.
  intros Hr. pose proof (rel_cur_not_member _ _ Hr) as Hnot. destruct Hr as [Hc Hrun Hs Hq Hqu Ht].
  unfold pit_irq_handler, sched_tick, task_get_current. cbn [ts pit_tick with_ticks].
  rewrite Hc. destruct (Z.eqb_spec (acur a) NULL) as [E|_]; [by apply slot_not_null in Hs|]. cbn [negb].
  set (s1 := on_task _ (acur a) (pit_tick s)).
  assert (qrel s1 (aready a) (asleep a)) as Hq1.
  { apply qrel_on_task; [done|]. eapply qrel_view; [..|exact Hq]; done. }
  destruct (sq_wake_due_spec s1 _ _ Hq1) as (s2 & E2 & Q2 & Q3 & Q4 & Q5). rewrite E2. cbn [mbind option_bind].
  assert (state (tk s2 (acur a)) = TASK_RUNNING) as Hrun2.
  { rewrite Q4 by done. unfold s1. by rewrite tk_on_task, decide_True. }
  unfold others in Q5. injection Q5 as Eq Et Ec _ _. cbn in Eq, Et, Ec. rewrite Ht in *.
  change (g_ticks s1) with (u64 (g_ticks s + 1)) in Q2. rewrite Ht in Q2.
  set (q := if 0 <? aquantum a then aquantum a - 1 else aquantum a).
  set (a2 := mk_asched (acur a) (aready a ++ due (u64 (aticks a + 1)) (asleep a))
               (still (u64 (aticks a + 1)) (asleep a)) q (u64 (aticks a + 1))).
  set (s3 := if 0 <? g_quantum_left s2 then _ else _).
  assert (rel s3 a2) as R3.
  { unfold s3, a2, q. rewrite Eq, Hqu. destruct (0 <? aquantum a); constructor; cbn; congruence || done. }
  assert (atick a = if q =? 0 then aswitch [acur a] a2 else a2) as -> by done.
  replace (g_quantum_left s3) with q by (symmetry; apply (r_quantum _ _ R3)).
  destruct (q =? 0); [|by exists c, s3].
  destruct (do_switch_running c s3 a2 R3) as (s4 & E4 & R4). rewrite E4. by do 2 eexists.
Qed.

Lemma rel_set_quantum q s a : rel s a -> rel (with_quantum q s) (set_aquantum q a).
Proof. intros [H1 H2 H3 H4 H5 H6]. by constructor. Qed.

Lemma sleep_refines ms c s a :
  rel s a -> aready a <> [] ->
  exists c' s', sched_sleep ms c s = (c', s') /\ rel s' (asleep_op ms a) /\ state (tk s' (acur a)) = TASK_SLEEPING.
Proof.
  intros Hr Hne. pose proof (rel_cur_not_member _ _ Hr) as Hnot. pose proof (rel_nodup _ _ Hr) as Hd.
  destruct Hr as [Hc Hrun Hs Hq Hqu Ht]. destruct (aready a) as [|n r] eqn:Ea; [done|]. rewrite <- Ea in *.
  unfold sched_sleep, task_get_current. rewrite Hc. cbn [g_ticks on_task with_ts]. rewrite Ht.
  set (s1 := on_task (set_wake_tick _) _ _).
  assert (qrel s1 (aready a) (asleep a)) as Hq1 by (apply qrel_on_task; [done | by apply qrel_on_task]).
  assert (forall j, tk (sq_push (acur a) s1) j = if decide (acur a = j)
     then set_next (g_sleep_head s) (set_wake_tick (u64 (aticks a + ms)) (set_state TASK_SLEEPING (tk s (acur a)))) else tk s j) as Htk.
  { intros j. unfold sq_push, s1. change (tk (with_sleep ?x ?y)) with (tk y).
    rewrite !tk_on_task. repeat case_decide; subst; done. }
  destruct (do_switch_blocked c (with_quantum 0 (sq_push (acur a) s1)) (acur a) (aready a)
    ((acur a, u64 (aticks a + ms)) :: asleep a) n r 0) as (s' & E & R & S & _); try done.
  - destruct Hq1 as [H1 H2 H3 H4 H5 H6 H7].
    assert (forall j, j ∈ aready a ++ (asleep a).*1 -> tk (with_quantum 0 (sq_push (acur a) s1)) j = tk s1 j) as Hk.
    { intros j Hj. change (tk (sq_push (acur a) s1) j = tk s1 j). rewrite Htk, decide_False by congruence.
      unfold s1. by rewrite !tk_on_task, !decide_False by congruence. }
    constructor.
    + eapply ring_frame; [|exact H1]. intros b Hb. by rewrite Hk by set_solver.
    + exact H2.
    + rewrite Forall_forall in *. intros x Hx. rewrite Hk by set_solver. auto.
    + cbn [fmap list_fmap fst slist]. split; [done|].
      change (tk (with_quantum 0 (sq_push (acur a) s1)) (acur a)) with (tk (sq_push (acur a) s1) (acur a)).
      rewrite Htk, decide_True by done. cbn [next set_next].
      eapply slist_agree; [|exact H4]. intros b Hb. by rewrite Hk by set_solver.
    + constructor.
      * cbn [fst snd]. change (tk (with_quantum 0 (sq_push (acur a) s1)) (acur a)) with (tk (sq_push (acur a) s1) (acur a)).
        rewrite Htk, decide_True by done. done.
      * rewrite Forall_forall in *. intros p Hp. rewrite Hk; [auto|]. apply elem_of_app. right. by apply list_elem_of_fmap_2.
    + cbn [fmap list_fmap fst]. rewrite <- Permutation_middle. exact Hd.
    + cbn [fmap list_fmap fst]. rewrite Forall_app, Forall_cons in *. tauto.
  - change (state (tk (sq_push (acur a) s1) (acur a)) <> TASK_READY). by rewrite Htk, decide_True.
  - change (state (tk (sq_push (acur a) s1) (acur a)) <> TASK_RUNNING). by rewrite Htk, decide_True.
  - do 2 eexists. split; [exact E|]. split.
    + exact R || (cbn in R; rewrite Ht in R; exact R).
    + rewrite S. change (state (tk (sq_push (acur a) s1) (acur a)) = TASK_SLEEPING). by rewrite Htk, decide_True.
Qed.

Lemma exit_refines c s a :
  rel s a -> aready a <> [] ->
  exists c' s', sched_exit c s = (c', s') /\ rel s' (aexit a) /\ state (tk s' (acur a)) = TASK_DEAD /\
    stack_base (tk s' (acur a)) = stack_base (tk s (acur a)).
Proof.
  intros Hr Hne. pose proof (rel_cur_not_member _ _ Hr) as Hnot.
  destruct Hr as [Hc Hrun Hs Hq Hqu Ht]. destruct (aready a) as [|n r] eqn:Ea; [done|]. rewrite <- Ea in *.
  unfold sched_exit, task_get_current. rewrite Hc.
  set (s1 := with_quantum 0 (on_task (set_state TASK_DEAD) (acur a) s)).
  assert (state (tk s1 (acur a)) = TASK_DEAD) as Hst.
  { unfold s1. change (tk (with_quantum 0 ?y)) with (tk y). by rewrite tk_on_task, decide_True. }
  destruct (do_switch_blocked c s1 (acur a) (aready a) (asleep a) n r 0) as (s' & E & R & S & Hk);
    [by apply qrel_on_task | done | done | done | congruence.. |].
  do 2 eexists. split; [exact E|]. split; [|split; [congruence|]].
  - unfold aexit, set_aquantum. rewrite <- Ht. exact R.
  - specialize (Hk (acur a)). unfold s1 in Hk. change (tk (with_quantum 0 ?y)) with (tk y) in Hk.
    rewrite tk_on_task, decide_True in Hk by done. by injection Hk.
Qed.

Lemma add_refines t s a :
  rel s a -> t ∉ members a -> slot_ok t ->
  exists s', sched_add t s = Some s' /\ rel s' (aadd t a) /\
    (forall j, pid (tk s' j) = pid (tk s j)) /\ g_next_pid (ts s') = g_next_pid (ts s).
Proof.
  intros [Hc Hrun Hs Hq Hqu Ht] Hm Hts. unfold members in Hm. apply not_elem_of_cons in Hm as [Hne Hm].
  unfold sched_add. destruct (Z.eqb_spec t NULL); [by apply slot_not_null in Hts|].
  eexists. split; [done|].
  destruct (qrel_push t (on_task (set_state TASK_READY) t s) (aready a) (asleep a)) as (Q1 & Q2 & Q3 & Q4);
    [by apply qrel_on_task | done | done | by rewrite tk_on_task, decide_True |].
  set (s' := rq_push_back t _) in *. clearbody s'.
  unfold rest in Q4. injection Q4 as E1 E2 E3 E4 E5 E6.
  split; [|split; [|done]].
  - constructor; cbn [acur aready asleep aquantum aticks aadd]; [by rewrite E4 | | done | done | by rewrite E2 | by rewrite E3].
    rewrite (proj1 (body_fields _ _ (Q2 _))). by rewrite tk_on_task, decide_False.
  - intros j. pose proof (f_equal pid (Q2 j)) as Hp. cbn [pid body set_next set_prev] in Hp. rewrite Hp, tk_on_task.
    case_decide; by subst.
Qed.

(** ** Runs of the concrete scheduler *)

Definition crun (o : op) (x : cpu * sched A) : option (cpu * sched A) :=
  let '(c, s) := x in
  match o with
  | Tick => pit_irq_handler c s
  | Yield => Some (sched_yield c s)
  | Sleep ms => Some (sched_sleep ms c s)
  | Exit => Some (sched_exit c s)
  | Add t => s' ← sched_add t s; Some (c, s')
  end.

Fixpoint cruns (os : list op) (x : cpu * sched A) : option (cpu * sched A) :=
  match os with
  | [] => Some x
  | o :: r => x' ← crun o x; cruns r x'
  end.

Lemma crun_refines o c s a a' :
  rel s a -> arun o a = Some a' -> exists c' s', crun o (c, s) = Some (c', s') /\ rel s' a'.
Proof.
  intros Hr. destruct o as [| |ms| |t]; cbn [arun crun].
  - intros [= <-]. by apply tick_refines.
  - intros [= <-]. destruct (do_switch_running c (with_quantum 0 s) (set_aquantum 0 a)) as (s' & E & R);
      [by apply rel_set_quantum|]. exists (do_switch c (with_quantum 0 s)).1, s'. split; [|done].
    unfold sched_yield. by rewrite <- E.
  - case_decide as Hne; [done|]. intros [= <-].
    destruct (sleep_refines ms c s a Hr Hne) as (c' & s' & -> & R & _). by exists c', s'.
  - case_decide as Hne; [done|]. intros [= <-].
    destruct (exit_refines c s a Hr Hne) as (c' & s' & -> & R & _). by exists c', s'.
  - case_decide as Hne; [done|]. intros [= <-].
    destruct (add_refines t s a Hr) as (s' & -> & R & _); [tauto | apply dec_stable; tauto |]. by exists c, s'.
Qed.

Lemma cruns_refines os c s a a' :
  rel s a -> aruns os a = Some a' -> exists c' s', cruns os (c, s) = Some (c', s') /\ rel s' a'.
Proof.
  revert c s a. induction os as [|o os IH]; intros c s a Hr; cbn [aruns cruns].
  { intros [= <-]. by exists c, s. }
  destruct (arun o a) as [a1|] eqn:E; cbn [mbind option_bind]; [|done]. intros Ha.
  destruct (crun_refines o c s a a1 Hr E) as (c1 & s1 & -> & R1). cbn [mbind option_bind]. eauto.
Qed.

(** Leaving the CPU with the idle task among the runnable ones. *)
Definition allowed (idle : Z) (o : op) (a : asched) : Prop :=
  match o with
  | Sleep _ | Exit => acur a <> idle
  | Add t => t ∉ members a /\ slot_ok t
  | _ => True
  end.

Lemma aswitch_runnable i back a :
  i ∈ aready a \/ (i = acur a /\ (aready a = [] \/ i ∈ back)) ->
  i ∈ acur (aswitch back a) :: aready (aswitch back a).
Proof.
  unfold aswitch. destruct (aready a) as [|n r] eqn:E; [rewrite E; set_solver|]. cbn [acur aready]. set_solver.
Qed.

Lemma arun_progress idle o a :
  idle ∈ acur a :: aready a -> allowed idle o a ->
  exists a', arun o a = Some a' /\ idle ∈ acur a' :: aready a'.
Proof.
  intros Hi Ho. rewrite elem_of_cons in Hi.
  assert (acur a <> idle -> aready a <> []) as Hne.
  { intros Hne E. rewrite E in Hi. destruct Hi as [?|Hi]; [congruence | by apply not_elem_of_nil in Hi]. }
  destruct o as [| |ms| |t]; cbn [arun allowed] in *.
  - eexists. split; [done|]. unfold atick. cbn [acur aready asleep aquantum aticks awake].
    destruct (_ =? 0); [apply aswitch_runnable|]; cbn [acur aready]; set_solver.
  - eexists. split; [done|]. apply aswitch_runnable. cbn [acur aready set_aquantum]. set_solver.
  - rewrite decide_False by auto. eexists. split; [done|]. apply aswitch_runnable. cbn [acur aready].
    left. destruct Hi; [congruence | done].
  - rewrite decide_False by auto. eexists. split; [done|]. apply aswitch_runnable. cbn [acur aready set_aquantum].
    left. destruct Hi; [congruence | done].
  - rewrite decide_False by tauto. eexists. split; [done|]. cbn [acur aready aadd]. set_solver.
Qed.

(** A task created in a dead slot is not yet known to the scheduler. *)
Lemma rel_create t ts' s a :
  rel s a -> state (tk s t) = TASK_DEAD -> (forall j, j <> t -> g_tasks ts' j = tk s j) ->
  g_current ts' = g_current (ts s) -> t ∉ members a /\ rel (with_ts ts' s) a.
Proof.
  intros Hr Hdead Hfr Hcur. pose proof Hr as [R1 R2 R3 R4 R5 R6].
  assert (t <> acur a) as Hne by congruence.
  assert (t ∉ aready a ++ (asleep a).*1) as Hnm by (apply (qrel_not_member _ _ _ _ R4); congruence).
  split; [by apply not_elem_of_cons|].
  constructor; try done.
  - change (g_current ts' = acur a). congruence.
  - change (state (g_tasks ts' (acur a)) = TASK_RUNNING). by rewrite Hfr.
  - apply (qrel_view s); [|done..]. intros j Hj. change (view (g_tasks ts' j) = view (tk s j)).
    rewrite Hfr; [done|]. by intros ->.
Qed.

(** *** Bounded waiting on the specification *)

Definition wait (k : nat) (a : asched) : Z := SCHED_TICK_QUANTUM * Z.of_nat k + Z.max 1 (aquantum a).

Definition is_tick (o : op) : Z := match o with Tick => 1 | _ => 0 end.

Fixpoint ticks_in (os : list op) : Z :=
  match os with [] => 0 | o :: r => is_tick o + ticks_in r end.

Definition quantum_ok (a : asched) : Prop := 0 <= aquantum a <= SCHED_TICK_QUANTUM.

Lemma aswitch_wait t k back a :
  aready a !! k = Some t -> quantum_ok (aswitch back a) /\
  (acur (aswitch back a) = t \/
   exists k', aready (aswitch back a) !! k' = Some t /\ wait k' (aswitch back a) <= SCHED_TICK_QUANTUM * Z.of_nat k).
Proof.
  unfold aswitch, wait, quantum_ok, SCHED_TICK_QUANTUM. destruct (aready a) as [|n r] eqn:E; [by destruct k|].
  cbn [acur aready aquantum]. intros Hk. split; [lia|]. destruct k as [|k]; [by injection Hk; left|]. right.
  cbn in Hk. exists k. split; [by apply lookup_app_l_Some|]. lia.
Qed.

Lemma arun_wait o a a' t k :
  quantum_ok a -> aready a !! k = Some t -> arun o a = Some a' ->
  quantum_ok a' /\
  (acur a' = t \/ exists k', aready a' !! k' = Some t /\ wait k' a' + is_tick o <= wait k a).
Proof.
  intros Hq Hk. unfold wait at 2. destruct o as [| |ms| |x]; cbn [arun is_tick]; unfold ayield, asleep_op, aexit.
  - intros [= <-]. unfold atick. cbn [acur aready asleep aquantum aticks awake]. unfold quantum_ok in *.
    set (q := if 0 <? aquantum a then _ else _). set (a1 := mk_asched _ _ _ q _).
    assert (aready a1 !! k = Some t) as Hk1 by (by apply lookup_app_l_Some).
    destruct (Z.eqb_spec q 0) as [Hq0|Hq0].
    + destruct (aswitch_wait t k [acur a] a1 Hk1) as [? [?|(k' & ? & ?)]]; [by eauto|].
      split; [done|]. right. exists k'. split; [done|]. lia.
    + assert (q = aquantum a - 1 /\ 0 < aquantum a) as [Eq Hpos] by (subst q; destruct (Z.ltb_spec 0 (aquantum a)); lia).
      cbn [aquantum a1]. split; [lia|]. right. exists k. split; [done|]. unfold wait. cbn [aquantum a1]. lia.
  - intros [= <-]. destruct (aswitch_wait t k [acur a] (set_aquantum 0 a) Hk) as [? [?|(k' & ? & ?)]]; [by eauto|].
    split; [done|]. right. exists k'. split; [done|]. lia.
  - case_decide; [done|]. intros [= <-].
    destruct (aswitch_wait t k [] (mk_asched (acur a) (aready a) ((acur a, u64 (aticks a + ms)) :: asleep a) 0 (aticks a)) Hk)
      as [? [?|(k' & ? & ?)]]; [by eauto|]. split; [done|]. right. exists k'. split; [done|]. lia.
  - case_decide; [done|]. intros [= <-].
    destruct (aswitch_wait t k [] (set_aquantum 0 a) Hk) as [? [?|(k' & ? & ?)]]; [by eauto|].
    split; [done|]. right. exists k'. split; [done|]. lia.
  - case_decide; [done|]. intros [= <-]. split; [done|]. right. exists k. split; [by apply lookup_app_l_Some|].
    unfold wait. cbn [aquantum aadd]. lia.
Qed.

Lemma aruns_wait os a a' t k :
  quantum_ok a -> aready a !! k = Some t -> aruns os a = Some a' -> wait k a <= ticks_in os ->
  exists os1 os2 a1, os = os1 ++ os2 /\ aruns os1 a = Some a1 /\ acur a1 = t.
Proof.
  revert a k. induction os as [|o os IH]; intros a k Hq Hk; cbn [aruns ticks_in].
  { intros _. unfold wait, quantum_ok, SCHED_TICK_QUANTUM in *. lia. }
  destruct (arun o a) as [a1|] eqn:E; cbn; [|done]. intros Hr Ht.
  destruct (arun_wait o a a1 t k Hq Hk E) as [Hq1 [Hc|(k' & Hk' & Hw)]].
  - exists [o], os, a1. split; [done|]. cbn [aruns]. by rewrite E.
  - destruct (IH a1 k' Hq1 Hk' Hr ltac:(lia)) as (os1 & os2 & a2 & -> & E2 & Hc).
    exists (o :: os1), os2, a2. split; [done|]. cbn [aruns]. by rewrite E.
Qed.

(** ** The properties of the scheduler *)

(** C5: the linked queues of sched.c implement the two-list specification.
    From related states, every sequence of timer interrupts and of calls to
    [sched_yield], [sched_sleep], [sched_exit] and [sched_add] that the
    specification allows runs to the end without a panic and reaches related
    states: same running task, same ready order, same sleepers and wake-up
    ticks, same quantum; the links stay well formed. *)
Theorem sched_refines_lists os c s a a' :
  rel s a -> aruns os a = Some a' -> exists c' s', cruns os (c, s) = Some (c', s') /\ rel s' a'.
Proof. apply cruns_refines. Qed.

(** C7: while the idle task is runnable and neither sleeps nor exits, no
    operation is stuck: [sched_sleep] and [sched_exit] always find a task to
    switch to, and the idle task stays runnable. *)
Theorem sched_progress idle o c s a :
  rel s a -> idle ∈ acur a :: aready a -> allowed idle o a ->
  exists c' s' a', crun o (c, s) = Some (c', s') /\ arun o a = Some a' /\ rel s' a' /\
    idle ∈ acur a' :: aready a'.
Proof.
  intros Hr Hi Ho. destruct (arun_progress idle o a Hi Ho) as (a' & Ea & Hi').
  destruct (crun_refines o c s a a' Hr Ea) as (c' & s' & Ec & Hr'). by exists c', s', a'.
Qed.

(** C6: bounded waiting.  A task with [k] tasks before it in the ready queue
    runs before [10 * (k + 1)] timer ticks have passed, whatever the tasks do
    meanwhile. *)
Theorem round_robin_bounded_wait os c s a a' k t :
  rel s a -> quantum_ok a -> aready a !! k = Some t -> aruns os a = Some a' ->
  SCHED_TICK_QUANTUM * (Z.of_nat k + 1) <= ticks_in os ->
  exists os1 os2 c1 s1, os = os1 ++ os2 /\ cruns os1 (c, s) = Some (c1, s1) /\ sched_current s1 = t.
Proof.
  intros Hr Hq Hk Ha Ht. destruct (aruns_wait os a a' t k Hq Hk Ha) as (os1 & os2 & a1 & E & E1 & Hc).
  { unfold wait, quantum_ok, SCHED_TICK_QUANTUM in *. lia. }
  destruct (cruns_refines os1 c s a a1 Hr E1) as (c1 & s1 & E2 & R1).
  exists os1, os2, c1, s1. split; [done|]. split; [done|]. rewrite <- Hc. apply (r_cur _ _ R1).
Qed.

Lemma elem_of_due now p sl : p ∈ sl -> is_due now p = true -> p.1 ∈ due now sl.
Proof. intros Hp Hd. unfold due. apply list_elem_of_fmap_2. by apply list_elem_of_filter. Qed.

Lemma elem_of_still now p sl : p ∈ sl -> is_due now p = false -> p ∈ still now sl.
Proof. intros Hp Hd. unfold still. by apply list_elem_of_filter. Qed.

Lemma atick_lists a :
  let now := u64 (aticks a + 1) in
  asleep (atick a) = still now (asleep a) /\ aticks (atick a) = now /\
  (forall t, t ∈ due now (asleep a) -> t ∈ acur (atick a) :: aready (atick a)).
Proof.
  unfold atick, awake, aswitch. cbn [acur aready asleep aquantum aticks].
  destruct (_ =? 0); cbn [acur aready asleep aquantum aticks].
  - destruct (aready a ++ due (u64 (aticks a + 1)) (asleep a)) as [|n r] eqn:E; cbn [acur aready asleep aticks].
    + split; [done|]. split; [done|]. intros t Ht. apply app_nil in E as [_ E]. rewrite E in Ht. set_solver.
    + split; [done|]. split; [done|]. intros t Ht.
      assert (t ∈ n :: r) by (rewrite <- E; set_solver). set_solver.
  - split; [done|]. split; [done|]. set_solver.
Qed.

(** The timer interrupt wakes exactly the sleepers whose wake-up tick has
    come: a sleeper still sleeps after the interrupt if and only if the new
    tick count is below its wake-up tick. *)
Theorem tick_wakes_due c s a c' s' t :
  rel s a -> t ∈ (asleep a).*1 -> pit_irq_handler c s = Some (c', s') ->
  state (tk s' t) = TASK_SLEEPING <-> g_ticks s' < wake_tick (tk s t).
Proof.
  intros Hr Ht Hp. destruct (tick_refines c s a Hr) as (c2 & s2 & E & R). rewrite Hp in E. injection E as <- <-.
  destruct Hr as [_ _ _ Hq _ _]. pose proof (q_sleep _ _ _ _ _ _ Hq) as Hw. rewrite Forall_forall in Hw.
  apply list_elem_of_fmap in Ht as (p & -> & Hin). destruct (Hw p Hin) as [_ ->].
  destruct (atick_lists a) as (Es & Et & Hdue). destruct R as [_ Rrun _ Rq _ Rt].
  rewrite Rt, Et. destruct (is_due (u64 (aticks a + 1)) p) eqn:Ed.
  - specialize (Hdue _ (elem_of_due _ _ _ Hin Ed)). unfold is_due in Ed. b2p.
    split; [|lia]. intros Hs. apply elem_of_cons in Hdue as [Hd|Hd]; [rewrite Hd in Hs; congruence|].
    apply (qrel_state_ready _ _ _ _ Rq) in Hd. congruence.
  - assert (p ∈ asleep (atick a)) as Hp' by (rewrite Es; by apply elem_of_still).
    unfold is_due in Ed. b2p. split; [done|]. intros _.
    apply (qrel_state_sleep _ _ _ _ Rq). by apply list_elem_of_fmap_2.
Qed.

(** Yielding saves the context of the running task on its stack and in
    its slot and loads the context the head of the ready queue saved; that
    task runs with a full quantum and the old one waits at the back. *)
Theorem sched_yield_switches c s a n r :
  rel s a -> aready a = n :: r ->
  let '(m, sp) := save_context (a_mem (alloc (ts s))) c in
  exists s', sched_yield c s = (load_context m (t_rsp (tk s n)), s') /\
    t_rsp (tk s' (acur a)) = sp /\
    rel s' (mk_asched n (r ++ [acur a]) (asleep a) SCHED_TICK_QUANTUM (aticks a)).
Proof.
  intros [Hc Hrun Hs Hq Hqu Ht] Ea. rewrite Ea in Hq.
  destruct (do_switch_spec c n r (asleep a) (with_quantum 0 s)) as (s' & E & R & _ & Hsp & _).
  - exact Hq.
  - cbn. by rewrite Hc.
  - cbn [ts with_quantum]. rewrite Hc. change (tk (with_quantum 0 s)) with (tk s). congruence.
  - unfold sched_yield. cbn [ts with_quantum] in *. rewrite Hc in *.
    change (tk (with_quantum 0 s)) with (tk s) in *. rewrite decide_True in R by done.
    destruct (save_context _ c) as [m sp]. exists s'. split; [exact E|]. split; [exact Hsp|].
    cbn [g_ticks with_quantum] in R. by rewrite Ht in R.
Qed.

(** A task that exits is marked dead but keeps its stack: nothing frees
    it, and [task_destroy], which only frees the stacks of live tasks, then
    does nothing, so the stack is lost when [task_create] reuses the slot. *)
Theorem sched_exit_leaks_stack c s a :
  rel s a -> aready a <> [] ->
  exists c' s', sched_exit c s = (c', s') /\ state (tk s' (acur a)) = TASK_DEAD /\
    stack_base (tk s' (acur a)) = stack_base (tk s (acur a)) /\
    task_destroy (acur a) (ts s') = Some (ts s').
Proof.
  intros Hr Hne. pose proof (r_slot _ _ Hr) as Hs.
  destruct (exit_refines c s a Hr Hne) as (c' & s' & E & _ & Hst & Hb).
  exists c', s'. split; [done|]. split; [done|]. split; [done|]. unfold task_destroy.
  unfold tk in Hst. by rewrite Hst, bool_decide_true, orb_true_r by done.
Qed.

(** The idle task takes its turn like any other: at the head of the
    ready queue it is dispatched for a full quantum while other tasks wait. *)
Theorem idle_is_not_last_resort c s a idle t r :
  rel s a -> aready a = idle :: t :: r ->
  exists s', sched_yield c s = ((sched_yield c s).1, s') /\ sched_current s' = idle /\
    g_quantum_left s' = SCHED_TICK_QUANTUM /\ state (tk s' t) = TASK_READY.
Proof.
  intros Hr Ea. destruct (do_switch_running c (with_quantum 0 s) (set_aquantum 0 a)) as (s' & E & R);
    [by apply rel_set_quantum|]. exists s'. split; [done|]. unfold aswitch in R. cbn [aready set_aquantum] in R.
  rewrite Ea in R. destruct R as [R1 _ _ R2 R3 _]. split; [done|]. split; [done|].
  apply (qrel_state_ready _ _ _ _ R2). cbn. by left.
Qed.

End Refine.

(** ** Start-up, over any correct allocator *)

Section Init.
Context {A : Type} `{AllocatorSpec A}.
Variable tr : Z.
Hypothesis tr_range : 0 <= tr < 2 ^ 64.

(** [sched_init] establishes the invariant: the boot task runs with a
    full quantum and the idle task it creates is the only ready task.  It
    panics only when no slot or no memory is left for the idle task. *)
Theorem sched_init_correct entry (s : sched A) :
  a_inv (alloc (ts s)) -> 0 <= entry < 2 ^ 64 ->
  state (tk s (g_current (ts s))) = TASK_RUNNING -> slot_ok (g_current (ts s)) ->
  (sched_init tr entry s = None /\
    ((forall j, 1 <= j < TASK_MAX -> state (tk s j) <> TASK_DEAD) \/
     a_alloc (round_stack 4096) (alloc (ts s)) = Some (0, alloc (ts s)))) \/
  exists i s', sched_init tr entry s = Some s' /\ a_inv (alloc (ts s')) /\
    state (tk s i) = TASK_DEAD /\ pid (tk s' i) = g_next_pid (ts s) /\
    rel s' (mk_asched (g_current (ts s)) [i] [] SCHED_TICK_QUANTUM (g_ticks s)).
Proof.
  intros Hi He Hrun Hs. unfold sched_init. cbn [ts with_quantum with_sleep with_count with_head].
  destruct (task_create_spec tr tr_range entry 4096 (Some (c_string (bytes_of "idle"))) (ts s) Hi ltac:(lia) He)
    as (i & t' & -> & Hi' & Hc). cbn [mbind option_bind].
  destruct Hc as [(-> & _ & Hc)|Hc]; [left; by split|].
  destruct Hc as (Hsl & Hdead & _ & Hfr & Hcur & _ & Hpid & Hrdy & _ & _ & _).
  right. destruct (Z.eqb_spec i NULL) as [->|_]; [unfold NULL in *; lia|].
  set (s1 := with_ts t' _).
  destruct (qrel_push i s1 [] []) as (Q1 & Q2 & Q3 & Q4).
  { constructor; try done; by constructor. }
  { set_solver. }
  { unfold slot_ok. lia. }
  { done. }
  exists i. eexists. split; [done|]. cbn [app] in Q1.
  set (s' := rq_push_back i s1) in *. clearbody s'. unfold rest in Q4. injection Q4 as E1 E2 E3 E4 E5 E6.
  assert (i <> g_current (ts s)) as Hne by (intros ->; unfold tk in Hrun; congruence).
  rewrite E6. split; [done|]. split; [done|]. split.
  { pose proof (f_equal pid (Q2 i)) as Hp. change (pid (tk s' i) = pid (g_tasks t' i)) in Hp. congruence. }
  constructor; cbn [acur aready asleep aquantum aticks]; [by rewrite E4 | | done | done | done | done].
  rewrite (proj1 (body_fields _ _ (Q2 _))). change (state (g_tasks t' (g_current (ts s))) = TASK_RUNNING).
  rewrite Hfr; [done | congruence].
Qed.

End Init.

(** ** Concrete instances: the boot task and the idle task *)

Definition pre_sched : sched heap := mk_sched boot NULL 0 NULL 0 0.
Definition demo_sched : sched heap :=
  match sched_init 4096 8192 pre_sched with Some s => s | None => pre_sched end.
Definition demo_a : asched := mk_asched 0 [1] [] 10 0.

Lemma demo_sched_init :
  sched_init 4096 8192 pre_sched = Some demo_sched /\ rel demo_sched demo_a.
Proof.
  destruct (sched_init_correct 4096 ltac:(lia) 8192 pre_sched boot_inv ltac:(lia) eq_refl ltac:(done))
    as [[E _]|(i & s' & E & _ & _ & _ & R)].
  - exfalso. assert (match sched_init 4096 8192 pre_sched with Some _ => true | None => false end = true) as Hs
      by (vm_compute; reflexivity). by rewrite E in Hs.
  - assert (g_ready_head demo_sched = 1) as Hh by (vm_compute; reflexivity).
    unfold demo_sched in *. rewrite E in *. split; [done|].
    pose proof (ring_head _ _ _ _ (q_ring _ _ _ _ _ _ (r_queues _ _ R))) as Hi.
    cbn [aready] in Hi. replace i with 1 in R by congruence. exact R.
Qed.

Definition demo_rel : rel demo_sched demo_a := proj2 demo_sched_init.

(** With a second task in slot 2 behind the idle task. *)
Definition demo_two : sched heap :=
  match sched_add 2 demo_sched with Some s => s | None => demo_sched end.
Definition demo_two_a : asched := mk_asched 0 [1; 2] [] 10 0.

Lemma demo_two_rel : rel demo_two demo_two_a.
Proof.
  destruct (add_refines 2 demo_sched demo_a demo_rel) as (s & E & R & _).
  - unfold members. cbn. intros Hm. repeat (apply elem_of_cons in Hm as [?|Hm]; [lia|]). by apply not_elem_of_nil in Hm.
  - unfold slot_ok, TASK_MAX. lia.
  - unfold demo_two. by rewrite E.
Qed.

(** The boot task asleep for five ticks, the idle task running. *)
Definition demo_asleep : sched heap := (sched_sleep 5 demo_cpu demo_sched).2.
Definition demo_asleep_a : asched := mk_asched 1 [] [(0, 5)] 10 0.

Lemma demo_asleep_rel : rel demo_asleep demo_asleep_a.
Proof.
  destruct (sleep_refines 5 demo_cpu demo_sched demo_a demo_rel ltac:(done)) as (c' & s' & E & R & _).
  unfold demo_asleep. rewrite E. exact R.
Qed.

Lemma sched_refines_lists_witness :
  exists c' s', cruns [Yield; Tick; Yield; Sleep 3; Tick] (demo_cpu, demo_sched) = Some (c', s') /\
    rel s' (mk_asched 1 [] [(0, 4)] 9 2).
Proof. apply (sched_refines_lists _ demo_cpu demo_sched demo_a _ demo_rel). reflexivity. Defined.

Lemma sched_progress_witness :
  exists c' s' a', crun Exit (demo_cpu, demo_sched) = Some (c', s') /\ rel s' a' /\ 1 ∈ acur a' :: aready a'.
Proof.
  destruct (sched_progress 1 Exit demo_cpu demo_sched demo_a demo_rel) as (c' & s' & a' & E & _ & R & Hi).
  - right. left.
  - discriminate.
  - exists c', s', a'. exact (conj E (conj R Hi)).
Defined.

Lemma round_robin_bounded_wait_witness :
  exists os1 os2 c1 s1, repeat Tick 20 = os1 ++ os2 /\
    cruns os1 (demo_cpu, demo_two) = Some (c1, s1) /\ sched_current s1 = 2.
Proof.
  destruct (aruns (repeat Tick 20) demo_two_a) as [a'|] eqn:E; [|discriminate].
  refine (round_robin_bounded_wait (repeat Tick 20) demo_cpu demo_two demo_two_a a' 1 2 demo_two_rel _ eq_refl E _);
    vm_compute; repeat split; discriminate.
Defined.

Lemma tick_wakes_due_witness :
  exists c' s', pit_irq_handler demo_cpu demo_asleep = Some (c', s') /\
    (state (tk s' 0) = TASK_SLEEPING <-> g_ticks s' < wake_tick (tk demo_asleep 0)).
Proof.
  destruct (tick_refines demo_cpu demo_asleep demo_asleep_a demo_asleep_rel) as (c' & s' & E & _).
  exists c', s'. split; [exact E|].
  apply (tick_wakes_due demo_cpu demo_asleep demo_asleep_a c' s' 0 demo_asleep_rel); [left | exact E].
Defined.

Lemma sched_yield_switches_witness :
  exists c' s', sched_yield demo_cpu demo_two = (c', s') /\
    rel s' (mk_asched 1 [2; 0] [] SCHED_TICK_QUANTUM 0).
Proof.
  pose proof (sched_yield_switches demo_cpu demo_two demo_two_a 1 [2] demo_two_rel eq_refl) as H.
  destruct (save_context _ _) as [m sp]. destruct H as (s' & E & _ & R).
  exact (ex_intro _ _ (ex_intro _ s' (conj E R))).
Defined.

Lemma sched_exit_leaks_stack_witness :
  exists c' s', sched_exit demo_cpu demo_sched = (c', s') /\ task_destroy 0 (ts s') = Some (ts s').
Proof.
  destruct (sched_exit_leaks_stack demo_cpu demo_sched demo_a demo_rel ltac:(discriminate)) as (c' & s' & E & _ & _ & H).
  exists c', s'. exact (conj E H).
Defined.

Lemma idle_is_not_last_resort_witness :
  exists s', sched_yield demo_cpu demo_two = ((sched_yield demo_cpu demo_two).1, s') /\ sched_current s' = 1.
Proof.
  destruct (idle_is_not_last_resort demo_cpu demo_two demo_two_a 1 2 [] demo_two_rel eq_refl) as (s' & E & Hc & _).
  exists s'. exact (conj E Hc).
Defined.

Lemma sched_init_correct_witness :
  sched_init 4096 8192 pre_sched = None \/
  exists i s', sched_init 4096 8192 pre_sched = Some s' /\ rel s' (mk_asched 0 [i] [] 10 0).
Proof.
  destruct (sched_init_correct 4096 ltac:(lia) 8192 pre_sched boot_inv ltac:(lia) eq_refl)
    as [[E _]|(i & s' & E & _ & _ & _ & R)].
  - unfold slot_ok, TASK_MAX. cbn. lia.
  - left. exact E.
  - right. exists i, s'. exact (conj E R).
Defined.
