(* ===== verification/Kthread.v ===== *)
(** Kernel threads (kernel/kthread.c): the table that carries the function
    and argument of a new thread from [kthread_create] to the trampoline the
    scheduler starts it with. *)

From S2P Require Import Prelude Memory Alloc Heap Task Sched SchedSpec.
Local Open Scope Z_scope.

Definition KTHREAD_MAX : Z := 128.

Record kthread_slot := mk_slot { k_fn : Z; k_arg : Z; k_pid : Z }.

Definition set_k_pid (v : Z) (x : kthread_slot) : kthread_slot := mk_slot (k_fn x) (k_arg x) v.

Section Kthread.
Context {A : Type} `{Allocator A}.
Variables task_entry_trampoline kthread_trampoline_addr : Z.

Record kthreads := mk_kthreads {
  sch : sched A;
  g_slots : Z -> kthread_slot;
  g_slots_init : bool;
}.

Definition slots_init (k : kthreads) : kthreads :=
  if g_slots_init k then k
  else mk_kthreads (sch k)
         (for_up (Z.to_nat KTHREAD_MAX) 0 (fun i sl => upd sl i (set_k_pid (-1) (sl i))) (g_slots k)) true.

Definition slot_alloc (k : kthreads) : option Z :=
  find_up (Z.to_nat KTHREAD_MAX) 0 (fun i => k_pid (g_slots k i) =? -1).

(** The result is the handle, [NULL] for KTHREAD_INVALID. *)
Definition kthread_create (fn arg stack_sz : Z) (nm : option (Z -> Z)) (k : kthreads) : option (Z * kthreads) :=
  let k := slots_init k in
  match slot_alloc k with
  | None => Some (NULL, k)
  | Some slot =>
      let sz := if 0xFFFFFFFF <? stack_sz then 0xFFFFFFFF else stack_sz in
      '(t, ts') ← task_create task_entry_trampoline kthread_trampoline_addr (u32 sz) nm (ts (sch k));
      let k := mk_kthreads (with_ts ts' (sch k)) (g_slots k) (g_slots_init k) in
      if t =? NULL then Some (NULL, k)
      else
        let sl := upd (g_slots k) slot (mk_slot fn arg (s32 (pid (tk (sch k) t)))) in
        s' ← sched_add t (sch k);
        Some (t, mk_kthreads s' sl (g_slots_init k))
  end.

(** The trampoline up to the call [fn(arg)]: [Some (fn, arg)], or [None] when
    it found no slot and exits. *)
Definition kthread_trampoline (k : kthreads) : option (Z * Z) * kthreads :=
  let self := task_get_current (ts (sch k)) in
  let my_pid := if negb (self =? NULL) then s32 (pid (tk (sch k) self)) else -1 in
  match find_up (Z.to_nat KTHREAD_MAX) 0 (fun i => k_pid (g_slots k i) =? my_pid) with
  | None => (None, k)
  | Some slot =>
      (Some (k_fn (g_slots k slot), k_arg (g_slots k slot)),
       mk_kthreads (sch k) (upd (g_slots k) slot (set_k_pid (-1) (g_slots k slot))) (g_slots_init k))
  end.

Definition kthread_exit (c : cpu) (k : kthreads) : cpu * kthreads :=
  let '(c', s') := sched_exit c (sch k) in (c', mk_kthreads s' (g_slots k) (g_slots_init k)).

(** One evaluation of the loop test of [kthread_join]: done, or yield. *)
Definition kthread_join_step (t : Z) (c : cpu) (k : kthreads) : option (cpu * kthreads) :=
  if (t =? NULL) || bool_decide (state (tk (sch k) t) = TASK_DEAD) then None
  else let '(c', s') := sched_yield c (sch k) in Some (c', mk_kthreads s' (g_slots k) (g_slots_init k)).

Definition kthread_self (k : kthreads) : Z := task_get_current (ts (sch k)).

(** Occupied slots carry distinct pids that were handed out before. *)
Record kinv (k : kthreads) : Prop := {
  ki_init : g_slots_init k = true;
  ki_old : forall i, 0 <= i < KTHREAD_MAX -> k_pid (g_slots k i) = -1 \/ 0 <= k_pid (g_slots k i) < g_next_pid (ts (sch k));
  ki_distinct : forall i j, 0 <= i < KTHREAD_MAX -> 0 <= j < KTHREAD_MAX ->
    k_pid (g_slots k i) = k_pid (g_slots k j) -> k_pid (g_slots k i) <> -1 -> i = j;
}.

Lemma find_pid k p i :
  kinv k -> 0 <= i < KTHREAD_MAX -> k_pid (g_slots k i) = p -> p <> -1 ->
  find_up (Z.to_nat KTHREAD_MAX) 0 (fun j => k_pid (g_slots k j) =? p) = Some i.
Proof.
  intros [_ _ Hd] Hi <- Hp. apply find_up_first.
  - unfold KTHREAD_MAX in *. lia.
  - apply Z.eqb_refl.
  - intros j Hj. apply Z.eqb_neq. intros E. assert (j = i); [|lia].
    apply Hd; unfold KTHREAD_MAX in *; [lia | lia | done | congruence].
Qed.

(** The trampoline of a task whose slot holds [fn] and [arg]. *)
Lemma trampoline_call k slot t fn arg p :
  kinv k -> 0 <= slot < KTHREAD_MAX -> g_slots k slot = mk_slot fn arg p -> 0 <= p < 2 ^ 31 ->
  g_current (ts (sch k)) = t -> t <> NULL -> pid (tk (sch k) t) = p ->
  exists k', kthread_trampoline k = (Some (fn, arg), k') /\ kinv k'.
Proof.
  intros Hk Hs Hsl Hp Hc Ht Hpid. unfold kthread_trampoline, task_get_current. rewrite Hc.
  destruct (Z.eqb_spec t NULL); [done|]. cbn [negb]. rewrite Hpid, s32_small by lia.
  rewrite (find_pid k p slot Hk Hs); [|by rewrite Hsl | lia]. rewrite Hsl. cbn [k_fn k_arg].
  eexists. split; [done|]. destruct Hk as [I1 I2 I3]. constructor; cbn [g_slots_init g_slots sch]; [done | |].
  - intros i Hi. rewrite upd_spec. case_decide; [by left | by apply I2].
  - intros i j Hi Hj. rewrite !upd_spec. repeat case_decide; subst; cbn; try done; try congruence; by apply I3.
Qed.

(** Filling a free slot with a pid not handed out before. *)
Lemma kinv_fill k s' slot fn arg :
  kinv k -> 0 <= slot < KTHREAD_MAX -> 0 <= g_next_pid (ts (sch k)) ->
  g_next_pid (ts s') = g_next_pid (ts (sch k)) + 1 ->
  kinv (mk_kthreads s' (upd (g_slots k) slot (mk_slot fn arg (g_next_pid (ts (sch k))))) (g_slots_init k)).
Proof.
  intros [Hin Hold Hdist] Hs H0 Hn. constructor; cbn [g_slots_init g_slots sch]; [done | |].
  - intros i Hi. rewrite upd_spec, Hn. case_decide; cbn; [right; lia|]. destruct (Hold i Hi); [by left | right; lia].
  - intros i j Hi Hj. rewrite !upd_spec. repeat case_decide; subst; cbn; try done.
    + intros E. specialize (Hold j Hj). lia.
    + intros E. specialize (Hold i Hi). lia.
    + by apply Hdist.
Qed.

End Kthread.
Arguments kthreads A : clear implicits.

Section KthreadSpec.
Context {A : Type} `{AllocatorSpec A}.
Variables tr kt : Z.
Hypothesis tr_range : 0 <= tr < 2 ^ 64.
Hypothesis kt_range : 0 <= kt < 2 ^ 64.

(** A thread gets its own function and argument.  [kthread_create] either
    fails, leaving the queues alone, or puts one new task with a fresh pid at the
    back of the ready queue and records [fn] and [arg] in a slot; the table
    keeps its invariant, and in every later state in which that slot is
    untouched and the task is the running one, its trampoline calls exactly
    [fn(arg)] and frees the slot. *)
Theorem kthread_runs_its_function fn arg sz nm k a :
  kinv k -> rel (sch k) a -> a_inv (alloc (ts (sch k))) -> 0 <= sz <= 2 ^ 31 - 16 ->
  0 <= g_next_pid (ts (sch k)) < 2 ^ 31 - 1 ->
  exists t k', kthread_create tr kt fn arg sz nm k = Some (t, k') /\ kinv k' /\
    ((t = NULL /\ rel (sch k') a) \/
     (t <> NULL /\ t ∉ members a /\ rel (sch k') (aadd t a) /\ pid (tk (sch k') t) = g_next_pid (ts (sch k)) /\
      exists slot, forall k2 : kthreads A, kinv k2 -> g_slots k2 slot = g_slots k' slot ->
        g_current (ts (sch k2)) = t -> pid (tk (sch k2) t) = pid (tk (sch k') t) ->
        exists k3, kthread_trampoline k2 = (Some (fn, arg), k3) /\ kinv k3)).
Proof.
  intros Hk Hr Ha Hs Hp. pose proof Hk as [Hin _ _]. unfold kthread_create, slots_init. rewrite Hin.
  unfold slot_alloc. destruct (find_up _ _ _) as [slot|] eqn:Ef.
  2: { exists NULL, k. split; [done|]. split; [done|]. by left. }
  apply find_up_Some in Ef as (Hsl & _).
  assert (0 <= slot < KTHREAD_MAX) as Hsl' by (unfold KTHREAD_MAX in *; lia). clear Hsl.
  destruct (Z.ltb_spec 0xFFFFFFFF sz); [lia|]. rewrite u32_small by lia.
  destruct (task_create_spec tr tr_range kt sz nm (ts (sch k)) Ha Hs kt_range) as (t & ts' & -> & _ & Hc).
  cbn [mbind option_bind]. destruct Hc as [(-> & -> & _)|Hc].
  { exists NULL, k. destruct k as [[] ? ?]. cbn in *. split; [done|]. split; [done|]. by left. }
  destruct Hc as (Htr & Hdead & _ & Hfr & Hcur & Hnp & Hpid & _). rewrite u32_small in Hnp by lia.
  destruct (Z.eqb_spec t NULL) as [->|Htn]; [unfold NULL in *; lia|].
  cbn [sch g_slots g_slots_init].
  destruct (rel_create t ts' (sch k) a Hr Hdead Hfr Hcur) as [Hm Hr1].
  destruct (add_refines t _ a Hr1 Hm ltac:(unfold slot_ok, TASK_MAX in *; lia)) as (s2 & E2 & R2 & Hp2 & Hn2).
  rewrite E2. cbn [mbind option_bind].
  change (pid (tk (with_ts ts' (sch k)) t)) with (pid (g_tasks ts' t)). rewrite Hpid, s32_small by lia.
  pose proof (kinv_fill k s2 slot fn arg Hk Hsl' ltac:(lia) ltac:(by rewrite Hn2)) as Hk'.
  do 2 eexists. split; [done|]. split; [done|]. right. split; [done|]. split; [done|]. split; [done|].
  assert (pid (tk s2 t) = g_next_pid (ts (sch k))) as Hpid2 by (rewrite Hp2; exact Hpid).
  split; [done|]. exists slot. cbn [g_slots sch]. rewrite upd_eq. intros k2 Hk2 Hs2 Hc2 Hpk.
  eapply trampoline_call; [done | done | done | | done | done | congruence]. lia.
Qed.

End KthreadSpec.

(** ** Concrete instance: a thread on the demo scheduler *)

Definition demo_kthreads : kthreads heap :=
  slots_init (mk_kthreads demo_sched (fun _ => mk_slot 0 0 0) false).

Lemma demo_kinv : kinv demo_kthreads.
Proof.
  assert (forall i, 0 <= i < KTHREAD_MAX -> k_pid (g_slots demo_kthreads i) = -1) as Hs.
  { intros i Hi. unfold demo_kthreads, slots_init. cbn [g_slots_init g_slots].
    assert (forall n j f, (forall x, 0 <= x < j -> k_pid (f x) = -1) -> forall x, 0 <= x < j + Z.of_nat n -> 0 <= j ->
      k_pid (for_up n j (fun i (sl : Z -> kthread_slot) => upd sl i (set_k_pid (-1) (sl i))) f x) = -1) as Hl.
    { induction n as [|n IH]; intros j f Hf x Hx Hj; cbn [for_up]; [apply Hf; lia|].
      apply (IH (j + 1)); [|lia | lia]. intros y Hy. rewrite upd_spec. case_decide; [done|]. apply Hf. lia. }
    apply (Hl _ 0); unfold KTHREAD_MAX in *; lia. }
  constructor; [done | |].
  - intros i Hi. left. by apply Hs.
  - intros i j Hi Hj _. by rewrite Hs.
Qed.

Lemma demo_alloc_inv : a_inv (alloc (ts demo_sched)).
Proof.
  destruct (sched_init_correct 4096 ltac:(lia) 8192 pre_sched boot_inv ltac:(lia) eq_refl ltac:(done))
    as [[E _]|(i & s' & E & Hi & _)]; rewrite (proj1 demo_sched_init) in E; [done|]. by injection E as ->.
Qed.

Lemma kthread_runs_its_function_witness :
  exists t k', kthread_create 4096 5000 6000 7 8192 None demo_kthreads = Some (t, k') /\ kinv k'.
Proof.
  destruct (kthread_runs_its_function 4096 5000 ltac:(lia) ltac:(lia) 6000 7 8192 None demo_kthreads demo_a demo_kinv
    demo_rel demo_alloc_inv ltac:(lia) ltac:(vm_compute; split; [discriminate | reflexivity])) as (t & k' & E & Hk & _).
  exists t, k'. exact (conj E Hk).
Defined.
