(* ===== verification/Sync.v ===== *)
(** Synchronisation primitives (kernel/sync.c): the xchg spinlock, the
    yield-spinning mutex and the counting semaphore, as programs of atomic
    steps that any number of threads interleave.  A schedule is a list of
    thread numbers; every theorem holds for every schedule. *)

From S2P Require Import Prelude.
Local Open Scope Z_scope.

Definition MUTEX_WAITER_MAX : Z := 16.
Definition SEM_WAITER_MAX : Z := 16.

(** ** Spinlock *)

(** The two loops of [spin_lock]: about to xchg, or polling [lock->locked]. *)
Inductive spin := SpinTry | SpinPoll.

(** [atomic_xchg]: the old value and the new memory word. *)
Definition atomic_xchg (locked new_val : Z) : Z * Z := (locked, new_val).

(** One step of [spin_lock]: the word after it, and [None] once acquired. *)
Definition spin_lock_step (sp : spin) (locked : Z) : Z * option spin :=
  match sp with
  | SpinTry =>
      let '(old, l) := atomic_xchg locked 1 in
      (l, if old =? 0 then None else Some SpinPoll)
  | SpinPoll => (locked, if locked =? 0 then Some SpinTry else Some SpinPoll)
  end.

Definition spin_unlock (locked : Z) : Z := 0.

Definition spin_try_lock (locked : Z) : Z * bool :=
  let '(old, l) := atomic_xchg locked 1 in (l, old =? 0).

(** ** Waiter lists *)

Definition add_waiter (max pid : Z) (ws : Z -> Z) (n : Z) : (Z -> Z) * Z :=
  if n <? max then (upd ws n pid, u32 (n + 1)) else (ws, n).

(** The first entry of [pid] is replaced by the last one. *)
Definition remove_waiter (pid : Z) (ws : Z -> Z) (n : Z) : (Z -> Z) * Z :=
  match find_up (Z.to_nat n) 0 (fun i => ws i =? pid) with
  | Some i => let n' := u32 (n - 1) in (upd (upd ws i (ws n')) n' 0, n')
  | None => (ws, n)
  end.

(** ** Mutex *)

Record mutex := mk_mutex {
  locked : Z;
  owner_pid : Z;
  waiters : Z -> Z;
  nwaiters : Z;
  guard : Z;
}.

Definition mutex_init (m : mutex) : mutex := mk_mutex 0 0 (fill (waiters m) 0 MUTEX_WAITER_MAX 0) 0 0.

(** Where a thread is: outside, at an atomic step of [mutex_lock], in its
    critical section, in [mutex_unlock] or in [mutex_try_lock]. *)
Inductive mpc :=
  | MOut
  | MFast                 (* the first xchg of mutex_lock *)
  | MFastOwner            (* owner_pid = my_pid; return *)
  | MRegister (sp : spin) (* spin_lock_irqsave(&m->guard) *)
  | MAddWaiter
  | MRegistered           (* spin_unlock_irqrestore *)
  | MSpin                 (* while (atomic_xchg(...)) sched_yield() *)
  | MOwner                (* owner_pid = my_pid *)
  | MCleanup (sp : spin)
  | MRemoveWaiter
  | MCleaned
  | MCrit                 (* mutex_lock has returned *)
  | MUnlockOwner          (* owner_pid = 0 *)
  | MUnlock               (* locked = 0 *)
  | MTry
  | MTryOwner.

Inductive mcall := CallLock | CallTryLock | CallUnlock.

Definition set_locked (v : Z) (m : mutex) := mk_mutex v (owner_pid m) (waiters m) (nwaiters m) (guard m).
Definition set_owner (v : Z) (m : mutex) := mk_mutex (locked m) v (waiters m) (nwaiters m) (guard m).
Definition set_guard (v : Z) (m : mutex) := mk_mutex (locked m) (owner_pid m) (waiters m) (nwaiters m) v.
Definition set_waiters (w : (Z -> Z) * Z) (m : mutex) := mk_mutex (locked m) (owner_pid m) w.1 w.2 (guard m).

(** One atomic step of the thread with pid [p]; [c] is the call it makes when
    it is free to choose.  A failed [mutex_try_lock] goes back to [MOut]. *)
Definition mutex_step (c : mcall) (p : Z) (pc : mpc) (m : mutex) : mpc * mutex :=
  match pc with
  | MOut => (match c with CallLock => MFast | CallTryLock => MTry | CallUnlock => MOut end, m)
  | MFast =>
      let '(old, l) := atomic_xchg (locked m) 1 in
      (if old =? 0 then MFastOwner else MRegister SpinTry, set_locked l m)
  | MFastOwner => (MCrit, set_owner p m)
  | MRegister sp =>
      let '(g, r) := spin_lock_step sp (guard m) in
      (match r with None => MAddWaiter | Some sp' => MRegister sp' end, set_guard g m)
  | MAddWaiter => (MRegistered, set_waiters (add_waiter MUTEX_WAITER_MAX p (waiters m) (nwaiters m)) m)
  | MRegistered => (MSpin, set_guard (spin_unlock (guard m)) m)
  | MSpin =>
      let '(old, l) := atomic_xchg (locked m) 1 in
      (if old =? 0 then MOwner else MSpin, set_locked l m)
  | MOwner => (MCleanup SpinTry, set_owner p m)
  | MCleanup sp =>
      let '(g, r) := spin_lock_step sp (guard m) in
      (match r with None => MRemoveWaiter | Some sp' => MCleanup sp' end, set_guard g m)
  | MRemoveWaiter => (MCleaned, set_waiters (remove_waiter p (waiters m) (nwaiters m)) m)
  | MCleaned => (MCrit, set_guard (spin_unlock (guard m)) m)
  | MCrit => (match c with CallUnlock => MUnlockOwner | _ => MCrit end, m)
  | MUnlockOwner => (MUnlock, set_owner 0 m)
  | MUnlock => (MOut, set_locked 0 m)
  | MTry =>
      let '(old, l) := atomic_xchg (locked m) 1 in
      (if old =? 0 then MTryOwner else MOut, set_locked l m)
  | MTryOwner => (MCrit, set_owner p m)
  end.

(** All threads and the mutex; [pid_of i] is the pid of thread [i]. *)
Record msys := mk_msys { mpcs : Z -> mpc; mtx : mutex }.

Definition msys_step (pid_of : Z -> Z) (x : Z * mcall) (s : msys) : msys :=
  let '(pc, m) := mutex_step x.2 (pid_of x.1) (mpcs s x.1) (mtx s) in
  mk_msys (upd (mpcs s) x.1 pc) m.

Fixpoint mrun (pid_of : Z -> Z) (sch : list (Z * mcall)) (s : msys) : msys :=
  match sch with
  | [] => s
  | x :: r => mrun pid_of r (msys_step pid_of x s)
  end.

(** ** Semaphore *)

Record sem := mk_sem {
  count : Z;
  swaiters : Z -> Z;
  snwaiters : Z;
  sguard : Z;
}.

Definition sem_init (initial_count : Z) (s : sem) : sem :=
  mk_sem initial_count (fill (swaiters s) 0 SEM_WAITER_MAX 0) 0 0.

(** All fields but the guard are accessed with the guard held, so the body of
    a critical section is one step. *)
Inductive spc :=
  | SOut
  | SWait (sp : spin)       (* sem_wait: fast path, taking the guard *)
  | SWaitBody
  | SWaitGot                (* count taken: release and return *)
  | SWaitReg                (* registered: release the guard *)
  | SLoop (sp : spin)       (* the yield-spin loop, taking the guard *)
  | SLoopBody
  | SLoopGot
  | SLoopFail               (* release the guard, then sched_yield *)
  | SPost (sp : spin)
  | SPostBody
  | SPostDone
  | STry (sp : spin)
  | STryBody
  | STryDone (ok : bool)
  | SValue (sp : spin)
  | SValueBody
  | SValueDone (v : Z).

Inductive scall := CallWait | CallPost | CallTry | CallValue.

Definition set_count (v : Z) (s : sem) := mk_sem v (swaiters s) (snwaiters s) (sguard s).
Definition set_swaiters (w : (Z -> Z) * Z) (s : sem) := mk_sem (count s) w.1 w.2 (sguard s).
Definition set_sguard (v : Z) (s : sem) := mk_sem (count s) (swaiters s) (snwaiters s) v.

Definition guarded (k : spin -> spc) (body : spc) (sp : spin) (s : sem) : spc * sem :=
  let '(g, r) := spin_lock_step sp (sguard s) in
  (match r with None => body | Some sp' => k sp' end, set_sguard g s).

Definition sem_step (c : scall) (p : Z) (pc : spc) (s : sem) : spc * sem :=
  let unlock s := set_sguard (spin_unlock (sguard s)) s in
  match pc with
  | SOut => (match c with CallWait => SWait SpinTry | CallPost => SPost SpinTry
             | CallTry => STry SpinTry | CallValue => SValue SpinTry end, s)
  | SWait sp => guarded SWait SWaitBody sp s
  | SWaitBody =>
      if 0 <? count s then (SWaitGot, set_count (s32 (count s - 1)) s)
      else (SWaitReg, set_swaiters (add_waiter SEM_WAITER_MAX p (swaiters s) (snwaiters s)) s)
  | SWaitGot => (SOut, unlock s)
  | SWaitReg => (SLoop SpinTry, unlock s)
  | SLoop sp => guarded SLoop SLoopBody sp s
  | SLoopBody =>
      if 0 <? count s
      then (SLoopGot, set_swaiters (remove_waiter p (swaiters s) (snwaiters s)) (set_count (s32 (count s - 1)) s))
      else (SLoopFail, s)
  | SLoopGot => (SOut, unlock s)
  | SLoopFail => (SLoop SpinTry, unlock s)
  | SPost sp => guarded SPost SPostBody sp s
  | SPostBody => (SPostDone, set_count (s32 (count s + 1)) s)
  | SPostDone => (SOut, unlock s)
  | STry sp => guarded STry STryBody sp s
  | STryBody => if 0 <? count s then (STryDone true, set_count (s32 (count s - 1)) s) else (STryDone false, s)
  | STryDone ok => (SOut, unlock s)
  | SValue sp => guarded SValue SValueBody sp s
  | SValueBody => (SValueDone (count s), s)
  | SValueDone v => (SOut, unlock s)
  end.

(** Units given and taken so far, for the specification. *)
Record ssys := mk_ssys { spcs : Z -> spc; smp : sem; given : Z; taken : Z }.

Definition ssys_step (pid_of : Z -> Z) (x : Z * scall) (s : ssys) : ssys :=
  let '(pc, m) := sem_step x.2 (pid_of x.1) (spcs s x.1) (smp s) in
  mk_ssys (upd (spcs s) x.1 pc) m
    (given s + match spcs s x.1 with SPostBody => 1 | _ => 0 end)
    (taken s + match pc with
               | SWaitGot | SLoopGot | STryDone true => 1 | _ => 0 end).

Fixpoint srun (pid_of : Z -> Z) (sch : list (Z * scall)) (s : ssys) : ssys :=
  match sch with
  | [] => s
  | x :: r => srun pid_of r (ssys_step pid_of x s)
  end.

(** ** Exclusion: a lock word and the threads that hold it *)

(** At most one thread satisfies [h], and the word is 1 while one does. *)
Definition exclusive {T : Type} (h : T -> bool) (pcs : Z -> T) (word : Z) : Prop :=
  (forall i j, h (pcs i) = true -> h (pcs j) = true -> i = j) /\
  (forall i, h (pcs i) = true -> word = 1).

Section Exclusive.
Context {T : Type} (h : T -> bool).
Implicit Types (pcs : Z -> T) (pc : T).

(** A step that neither takes nor gives up the lock. *)
Lemma exclusive_keep pcs i pc w : h pc = h (pcs i) -> exclusive h pcs w -> exclusive h (upd pcs i pc) w.
Proof.
  intros Hp [H1 H2]. assert (forall j, h (upd pcs i pc j) = h (pcs j)) as E.
  { intros j. rewrite upd_spec. case_decide; congruence. }
  split; [intros x y; rewrite !E; apply H1 | intros x; rewrite E; apply H2].
Qed.

Lemma exclusive_take pcs i pc : exclusive h pcs 0 -> exclusive h (upd pcs i pc) 1.
Proof.
  intros [_ H2]. split; [|done]. intros x y. rewrite !upd_spec.
  repeat case_decide; subst; try done; intros Hx Hy;
    try specialize (H2 _ Hx); try specialize (H2 _ Hy); done.
Qed.

(** A failed attempt writes 1 over 1. *)
Lemma exclusive_busy pcs i pc w :
  h pc = h (pcs i) -> w <> 0 -> exclusive h pcs w -> exclusive h (upd pcs i pc) 1.
Proof.
  intros Hp Hw He. apply (exclusive_keep _ _ _ _ Hp) in He as [H1 H2]. by split.
Qed.

Lemma exclusive_release pcs i pc w :
  h (pcs i) = true -> h pc = false -> exclusive h pcs w -> exclusive h (upd pcs i pc) 0.
Proof.
  intros Hi Hp [H1 H2]. split.
  - intros x y. rewrite !upd_spec. repeat case_decide; subst; try congruence. apply H1.
  - intros x. rewrite upd_spec. case_decide; subst; [congruence|]. intros Hx. by destruct (H1 i x Hi Hx).
Qed.

End Exclusive.

Lemma spin_step_cases sp w : 
  let '(w', r) := spin_lock_step sp w in
  (r = None /\ w = 0 /\ w' = 1) \/ (exists sp', r = Some sp' /\ (w' = w \/ (w <> 0 /\ w' = 1))).
Proof.
  destruct sp; cbn.
  - destruct (Z.eqb_spec w 0); [by left | right; eauto].
  - right. destruct (w =? 0); eauto.
Qed.

(** Taking a lock through [spin_lock], one step. *)
Lemma exclusive_spin {T : Type} (h : T -> bool) pcs i (k : spin -> T) body sp w :
  h (pcs i) = false -> h body = true -> (forall sp', h (k sp') = false) -> exclusive h pcs w ->
  let '(w', r) := spin_lock_step sp w in
  exclusive h (upd pcs i (match r with None => body | Some sp' => k sp' end)) w'.
Proof.
  intros Hi Hb Hk He. pose proof (spin_step_cases sp w) as Hs. destruct (spin_lock_step sp w) as [w' r].
  destruct Hs as [(-> & -> & ->)|(sp' & -> & [->|[Hw ->]])].
  - by apply exclusive_take.
  - apply exclusive_keep; [|done]. by rewrite Hk.
  - eapply exclusive_busy; [|done..]. by rewrite Hk.
Qed.

Lemma add_waiter_bound max p ws n : 0 <= n <= max -> max < 2 ^ 32 -> 0 <= (add_waiter max p ws n).2 <= max.
Proof.
  intros Hn Hm. unfold add_waiter. destruct (Z.ltb_spec n max); cbn; [|lia]. rewrite u32_small; lia.
Qed.

Lemma remove_waiter_bound max p ws n : 0 <= n <= max -> max < 2 ^ 32 -> 0 <= (remove_waiter p ws n).2 <= max.
Proof.
  intros Hn Hm. unfold remove_waiter. destruct (find_up _ _ _) eqn:E; cbn; [|lia].
  apply find_up_Some in E as (? & _). rewrite u32_small; lia.
Qed.

(** ** Mutex: the invariant of every schedule *)

Definition m_owns (pc : mpc) : bool :=
  match pc with
  | MFastOwner | MOwner | MCleanup _ | MRemoveWaiter | MCleaned | MCrit | MUnlockOwner | MUnlock | MTryOwner => true
  | _ => false
  end.

Definition m_guarded (pc : mpc) : bool :=
  match pc with MAddWaiter | MRegistered | MRemoveWaiter | MCleaned => true | _ => false end.

(** The steps at which [owner_pid] names the thread. *)
Definition m_named (pc : mpc) : bool :=
  match pc with MCleanup _ | MRemoveWaiter | MCleaned | MCrit | MUnlockOwner => true | _ => false end.

Record minv (pid_of : Z -> Z) (s : msys) : Prop := {
  mi_lock : exclusive m_owns (mpcs s) (locked (mtx s));
  mi_guard : exclusive m_guarded (mpcs s) (guard (mtx s));
  mi_owner : forall i, m_named (mpcs s i) = true -> owner_pid (mtx s) = pid_of i;
  mi_waiters : 0 <= nwaiters (mtx s) <= MUTEX_WAITER_MAX;
}.

Lemma m_named_owns pc : m_named pc = true -> m_owns pc = true.
Proof. by destruct pc. Qed.

(** A step that keeps [owner_pid] and names no new thread. *)
Lemma owner_keep (pid_of : Z -> Z) (pcs : Z -> mpc) i pc (o : Z) :
  (m_named pc = true -> m_named (pcs i) = true) ->
  (forall j, m_named (pcs j) = true -> o = pid_of j) ->
  forall j, m_named (upd pcs i pc j) = true -> o = pid_of j.
Proof. intros Hp H j. rewrite upd_spec. case_decide; subst; auto. Qed.

(** A step of the owner that writes [owner_pid]. *)
Lemma owner_write (pid_of : Z -> Z) (pcs : Z -> mpc) i pc (o : Z) w :
  exclusive m_owns pcs w -> m_owns (pcs i) = true -> (m_named pc = true -> o = pid_of i) ->
  forall j, m_named (upd pcs i pc j) = true -> o = pid_of j.
Proof.
  intros [H1 _] Hi Hp j. rewrite upd_spec. case_decide; subst; [done|].
  intros Hj%m_named_owns. by destruct (H1 i j Hi Hj).
Qed.

(** The four parts of the invariant after one step of the thread whose
    position is known by [Ei]. *)
Ltac mutex_inv Ei :=
  constructor; cbn [mpcs mtx locked owner_pid nwaiters guard set_locked set_owner set_guard set_waiters];
  first
  [ assumption
  | apply exclusive_keep; [by rewrite Ei | assumption]
  | apply owner_keep; [by rewrite ?Ei | assumption]
  | apply exclusive_take; match goal with E : ?w = 0, H : exclusive _ _ ?w |- _ => by rewrite E in H end
  | eapply exclusive_busy; [by rewrite Ei | eassumption | eassumption]
  | eapply exclusive_release; [by rewrite Ei | done | eassumption]
  | eapply owner_write; [eassumption | by rewrite Ei | done]
  | by apply add_waiter_bound
  | by apply remove_waiter_bound ].

Lemma msys_step_inv pid_of x s : minv pid_of s -> minv pid_of (msys_step pid_of x s).
Proof.
  destruct x as [i c], s as [pcs m]. intros [H1 H2 H3 H4]. cbn [mpcs mtx] in *.
  unfold msys_step. cbn [fst snd mpcs mtx].
  destruct (pcs i) as [| | |sp| | | | |sp| | | | | | |] eqn:Ei; cbn [mutex_step atomic_xchg spin_unlock];
    try (destruct c; mutex_inv Ei); try (destruct (Z.eqb_spec (locked m) 0); mutex_inv Ei); try mutex_inv Ei.
  - pose proof (exclusive_spin m_guarded pcs i MRegister MAddWaiter sp (guard m) ltac:(by rewrite Ei) eq_refl ltac:(done) H2).
    destruct (spin_lock_step sp (guard m)) as [g [sp'|]]; mutex_inv Ei.
  - pose proof (exclusive_spin m_guarded pcs i MCleanup MRemoveWaiter sp (guard m) ltac:(by rewrite Ei) eq_refl ltac:(done) H2).
    destruct (spin_lock_step sp (guard m)) as [g [sp'|]]; mutex_inv Ei.
Qed.

Lemma mrun_inv pid_of sch s : minv pid_of s -> minv pid_of (mrun pid_of sch s).
Proof.
  revert s. induction sch as [|x r IH]; intros s Hi; cbn [mrun]; [done|]. apply IH. by apply msys_step_inv.
Qed.

Definition msys_init (m : mutex) : msys := mk_msys (fun _ => MOut) (mutex_init m).

Lemma msys_init_inv pid_of m : minv pid_of (msys_init m).
Proof. by constructor. Qed.

(** C9: mutual exclusion.  However the steps of any number of threads
    interleave, at most one thread is between the return of [mutex_lock] (or a
    successful [mutex_try_lock]) and its [mutex_unlock]; while it is there the
    lock word is set and [owner_pid] is its pid.  The waiter list never
    outgrows its array. *)
Theorem mutex_exclusion pid_of sch m i j :
  let s := mrun pid_of sch (msys_init m) in
  (mpcs s i = MCrit -> mpcs s j = MCrit -> i = j) /\
  (mpcs s i = MCrit -> locked (mtx s) = 1 /\ owner_pid (mtx s) = pid_of i) /\
  0 <= nwaiters (mtx s) <= MUTEX_WAITER_MAX.
Proof.
  cbv zeta. destruct (mrun_inv pid_of sch _ (msys_init_inv pid_of m)) as [[H1 H2] _ H3 H4].
  split; [|split; [|done]].
  - intros Hi Hj. apply H1; by rewrite ?Hi, ?Hj.
  - intros Hi. split; [apply (H2 i) | apply H3]; by rewrite Hi.
Qed.

(** [n] steps of thread [i] alone. *)
Definition solo {C : Type} (n : nat) (i : Z) (c : C) : list (Z * C) := repeat (i, c) n.

Lemma mutex_solo pid_of n i c pcs m pc pc' m' :
  pcs i = pc -> mutex_step c (pid_of i) pc m = (pc', m') ->
  mrun pid_of (solo (S n) i c) (mk_msys pcs m) = mrun pid_of (solo n i c) (mk_msys (upd pcs i pc') m').
Proof. intros Hp E. cbn [solo repeat mrun]. unfold msys_step. cbn. by rewrite Hp, E. Qed.

(** No explicit wake-up is needed.  Once the holder has released the
    mutex, a thread that spins in [mutex_lock] enters its critical section
    within five steps of its own and has left the waiter list. *)
Theorem mutex_unlock_lets_in pid_of s i c :
  mpcs s i = MSpin -> locked (mtx s) = 0 -> guard (mtx s) = 0 ->
  let s' := mrun pid_of (solo 5 i c) s in
  mpcs s' i = MCrit /\ owner_pid (mtx s') = pid_of i /\ guard (mtx s') = 0 /\
  (waiters (mtx s'), nwaiters (mtx s')) = remove_waiter (pid_of i) (waiters (mtx s)) (nwaiters (mtx s)).
Proof.
  intros Hp Hl Hg. destruct s as [pcs [l o ws n g]]. cbn [mpcs mtx locked guard] in *. subst l g. cbv zeta.
  erewrite mutex_solo; [|exact Hp | reflexivity].
  do 4 (erewrite mutex_solo; [|apply upd_eq | reflexivity]). cbn. rewrite upd_eq.
  repeat (split; [done|]). symmetry. apply surjective_pairing.
Qed.

(** ** Semaphore *)

Definition s_guarded (pc : spc) : bool :=
  match pc with
  | SOut | SWait _ | SLoop _ | SPost _ | STry _ | SValue _ => false
  | _ => true
  end.

Record sinv (init : Z) (s : ssys) : Prop := {
  si_guard : exclusive s_guarded (spcs s) (sguard (smp s));
  si_count : count (smp s) = init + given s - taken s;
  si_nonneg : 0 <= count (smp s);
  si_counts : 0 <= given s /\ 0 <= taken s;
  si_waiters : 0 <= snwaiters (smp s) <= SEM_WAITER_MAX;
}.

Lemma ssys_step_inv init pid_of x s :
  init + given s < 2 ^ 31 - 1 -> sinv init s ->
  sinv init (ssys_step pid_of x s) /\ given (ssys_step pid_of x s) <= given s + 1.
Proof.
  destruct x as [i c], s as [pcs m gv tkn]. intros Hb [H1 H2 H3 H4 H5].
  cbn [spcs smp given taken] in *.
  assert (forall sp k body, s_guarded (pcs i) = false -> s_guarded body = true -> (forall sp', s_guarded (k sp') = false) ->
    let '(pc, m') := guarded k body sp m in
    exclusive s_guarded (upd pcs i pc) (sguard m') /\ count m' = count m /\ snwaiters m' = snwaiters m /\
    (pc = body \/ exists sp', pc = k sp')) as Hsp.
  { intros sp k body Hi Hbd Hk. unfold guarded.
    pose proof (exclusive_spin s_guarded pcs i k body sp (sguard m) Hi Hbd Hk H1) as He.
    destruct (spin_lock_step sp (sguard m)) as [g [sp'|]]; (split; [exact He|]); eauto. }
  assert (forall pc, s_guarded (pcs i) = true -> s_guarded pc = false -> exclusive s_guarded (upd pcs i pc) 0) as Hrel.
  { intros pc Hi Hp. by eapply exclusive_release. }
  assert (forall pc, s_guarded pc = s_guarded (pcs i) -> exclusive s_guarded (upd pcs i pc) (sguard m)) as Hkeep.
  { intros. by apply exclusive_keep. }
  assert (0 < count m -> s32 (count m - 1) = count m - 1) as Hdec by (intros; apply s32_small; lia).
  assert (s32 (count m + 1) = count m + 1) as Hinc by (apply s32_small; lia).
  pose proof (add_waiter_bound SEM_WAITER_MAX (pid_of i) (swaiters m) (snwaiters m) H5 ltac:(done)) as Ha.
  pose proof (remove_waiter_bound SEM_WAITER_MAX (pid_of i) (swaiters m) (snwaiters m) H5 ltac:(done)) as Hr.
  unfold ssys_step. cbn [fst snd spcs smp given taken].
  destruct (pcs i) as [|sp| | | |sp| | | |sp| | |sp| |ok|sp| |v] eqn:Ei; cbn [sem_step];
    try match goal with |- context [guarded ?k ?b ?sp m] =>
      specialize (Hsp sp k b eq_refl eq_refl ltac:(done)); destruct (guarded k b sp m) as [pc m'];
      destruct Hsp as (? & ? & ? & [->|[? ->]]) end;
    try destruct c; try (destruct (Z.ltb_spec 0 (count m)));
    (split; [constructor; cbn; try (by apply Hrel); try (by apply Hkeep); try assumption; try lia | cbn; lia]).
Qed.

Lemma srun_inv init pid_of sch s :
  init + given s + Z.of_nat (length sch) < 2 ^ 31 -> sinv init s -> sinv init (srun pid_of sch s).
Proof.
  revert s. induction sch as [|x r IH]; intros s Hb Hi; cbn [srun length] in *; [done|].
  destruct (ssys_step_inv init pid_of x s ltac:(lia) Hi) as [Hi' Hg]. apply IH; [lia | done].
Qed.

Definition ssys_init (initial_count : Z) (s : sem) : ssys := mk_ssys (fun _ => SOut) (sem_init initial_count s) 0 0.

(** Conservation.  In every interleaving the count equals the initial
    count plus the completed posts minus the completed waits (and successful
    [sem_trywait]s) and is never negative, so at most [init] plus the posts
    threads have ever passed [sem_wait]; two threads are never both inside the
    guarded sections; the waiter list never outgrows its array. *)
Theorem sem_conservation init pid_of sch s i j :
  0 <= init -> init + Z.of_nat (length sch) < 2 ^ 31 ->
  let x := srun pid_of sch (ssys_init init s) in
  count (smp x) = init + given x - taken x /\ taken x <= init + given x /\
  (s_guarded (spcs x i) = true -> s_guarded (spcs x j) = true -> i = j) /\
  0 <= snwaiters (smp x) <= SEM_WAITER_MAX.
Proof.
  intros H0 Hb. cbv zeta. destruct (srun_inv init pid_of sch (ssys_init init s)) as [[H1 _] H2 H3 H4 H5].
  - cbn. lia.
  - constructor; cbn; try lia; done || unfold SEM_WAITER_MAX; lia.
  - split; [done|]. split; [lia|]. split; [apply H1 | done].
Qed.

Lemma sem_solo pid_of n i c pcs m gv tkn pc pc' m' :
  pcs i = pc -> sem_step c (pid_of i) pc m = (pc', m') ->
  exists gv' tkn', srun pid_of (solo (S n) i c) (mk_ssys pcs m gv tkn) =
    srun pid_of (solo n i c) (mk_ssys (upd pcs i pc') m' gv' tkn').
Proof. intros Hp E. cbn [solo repeat srun]. unfold ssys_step. cbn. rewrite Hp, E. by do 2 eexists. Qed.

Ltac sem_solo_step H :=
  edestruct sem_solo as (? & ? & ->); [H | reflexivity |].

(** [sem_wait] does not block while units are left: with the guard free
    and a positive count it returns after three steps of the thread, having
    taken one unit, on the fast path as well as from the yield loop. *)
Theorem sem_wait_takes_unit pid_of s i c :
  0 < count (smp s) < 2 ^ 31 -> sguard (smp s) = 0 ->
  spcs s i = SWait SpinTry \/ spcs s i = SLoop SpinTry ->
  let s' := srun pid_of (solo 3 i c) s in
  spcs s' i = SOut /\ count (smp s') = count (smp s) - 1 /\ sguard (smp s') = 0.
Proof.
  intros Hc Hg Hp. destruct s as [pcs [k ws m g] gv tkn]. cbn [spcs smp count sguard] in *. subst g. cbv zeta.
  assert (0 <? k = true) as Hk by (apply Z.ltb_lt; lia).
  assert (s32 (k - 1) = k - 1) as Hs by (apply s32_small; lia).
  destruct Hp as [Hp|Hp]; sem_solo_step ltac:(exact Hp).
  - edestruct sem_solo as (? & ? & ->); [apply upd_eq | cbn; rewrite Hk, Hs; reflexivity |].
    sem_solo_step ltac:(apply upd_eq). cbn. by rewrite upd_eq.
  - edestruct sem_solo as (? & ? & ->); [apply upd_eq | cbn; rewrite Hk, Hs; reflexivity |].
    sem_solo_step ltac:(apply upd_eq). cbn. by rewrite upd_eq.
Qed.

(** ** Concrete instances *)

Definition demo_mutex : mutex := mk_mutex 0 0 (upd (fun _ => 0) 0 7) 1 0.

Lemma mutex_unlock_lets_in_witness :
  let s' := mrun (fun i => i) (solo 5 7 CallLock) (mk_msys (fun i => if i =? 7 then MSpin else MOut) demo_mutex) in
  mpcs s' 7 = MCrit /\ owner_pid (mtx s') = 7.
Proof.
  destruct (mutex_unlock_lets_in (fun i => i) (mk_msys (fun i => if i =? 7 then MSpin else MOut) demo_mutex) 7 CallLock
    eq_refl eq_refl eq_refl) as (H1 & H2 & _).
  exact (conj H1 H2).
Defined.

Definition demo_sem : sem := mk_sem 0 (fun _ => 0) 0 0.

Lemma sem_conservation_witness :
  let x := srun (fun i => i) (solo 4 1 CallWait ++ solo 3 2 CallPost) (ssys_init 2 demo_sem) in
  count (smp x) = 2 + given x - taken x.
Proof.
  exact (proj1 (sem_conservation 2 (fun i => i) (solo 4 1 CallWait ++ solo 3 2 CallPost) demo_sem 1 2
    ltac:(lia) ltac:(reflexivity))).
Defined.

Lemma sem_wait_takes_unit_witness :
  let s' := srun (fun i => i) (solo 3 1 CallWait) (mk_ssys (fun _ => SWait SpinTry) (mk_sem 2 (fun _ => 0) 0 0) 0 0) in
  spcs s' 1 = SOut /\ count (smp s') = 1 /\ sguard (smp s') = 0.
Proof.
  exact (sem_wait_takes_unit (fun i => i) (mk_ssys (fun _ => SWait SpinTry) (mk_sem 2 (fun _ => 0) 0 0) 0 0) 1 CallWait
    ltac:(cbn; lia) eq_refl (or_introl eq_refl)).
Defined.
