(* ===== verification/Vmm.v ===== *)
(** Virtual memory manager (kernel/vmm.c): four-level page tables in byte
    memory, their pages taken from the physical memory manager or from the
    static pool, and the mapping they represent. *)

From S2P Require Import Prelude Memory Pmm.
Local Open Scope Z_scope.

Definition PAGE_PRESENT : Z := 1.
Definition PAGE_WRITE : Z := 2.
Definition PAGE_NOCACHE : Z := 2 ^ 4.
Definition PAGE_NX : Z := 2 ^ 63.
Definition PHYS_ADDR_MASK : Z := u64 (Z.lnot 0xFFF).
Definition ENTRIES_PER_TABLE : Z := 512.
Definition STATIC_PT_PAGES : Z := 160.
Definition IDENTITY_MAP_PAGES : Z := 64 * 1024 * 1024 / PAGE_SIZE.

(** [PML4_IDX], [PDPT_IDX], [PD_IDX], [PT_IDX] are levels 3, 2, 1 and 0. *)
Definition table_idx (level v : Z) : Z := Z.land (Z.shiftr v (12 + 9 * level)) 0x1FF.
Definition PML4_IDX := table_idx 3.
Definition PDPT_IDX := table_idx 2.
Definition PD_IDX := table_idx 1.
Definition PT_IDX := table_idx 0.

Definition entry (m : mem) (table idx : Z) : Z := load64 m (table + 8 * idx).
Definition set_entry (m : mem) (table idx e : Z) : mem := store64 m (table + 8 * idx) e.
Definition present (e : Z) : bool := negb (Z.land e PAGE_PRESENT =? 0).
Definition child_of (e : Z) : Z := Z.land e PHYS_ADDR_MASK.

(** The statics of vmm.c, the physical allocator and memory. *)
Record vmm := mk_vmm {
  vmem : mem;
  vpmm : pmm;
  static_pt_used : Z;
  current_pml4_phys : Z;
}.

Definition with_mem (m : mem) (s : vmm) : vmm := mk_vmm m (vpmm s) (static_pt_used s) (current_pml4_phys s).

Section Vmm.
(** The address the linker gives the static pool. *)
Variable static_pt_pool : Z.

(** [None]: the pool is exhausted and the CPU halts. *)
Definition alloc_from_static_pool (s : vmm) : option (Z * vmm) :=
  if STATIC_PT_PAGES <=? static_pt_used s then None
  else Some (static_pt_pool + static_pt_used s * 4096,
             mk_vmm (vmem s) (vpmm s) (u32 (static_pt_used s + 1)) (current_pml4_phys s)).

Definition alloc_table (s : vmm) : option (Z * vmm) :=
  let '(phys, p) := pmm_alloc_page (vpmm s) in
  let s := mk_vmm (vmem s) p (static_pt_used s) (current_pml4_phys s) in
  if negb (phys =? PMM_ALLOC_FAIL) then
    Some (phys, with_mem (for_up (Z.to_nat ENTRIES_PER_TABLE) 0 (fun i m => set_entry m phys i 0) (vmem s)) s)
  else alloc_from_static_pool s.

Definition get_or_create (table idx flags : Z) (s : vmm) : option (Z * vmm) :=
  s ← (if negb (present (entry (vmem s) table idx)) then
         '(child, s) ← alloc_table s;
         Some (with_mem (set_entry (vmem s) table idx
                 (Z.lor (Z.lor (Z.lor child flags) PAGE_PRESENT) PAGE_WRITE)) s)
       else Some s);
  Some (child_of (entry (vmem s) table idx), s).

Definition vmm_map_page (virt phys flags : Z) (s : vmm) : option vmm :=
  let pml4 := current_pml4_phys s in
  '(pdpt, s) ← get_or_create pml4 (PML4_IDX virt) 0 s;
  if pdpt =? 0 then Some s else
  '(pd, s) ← get_or_create pdpt (PDPT_IDX virt) 0 s;
  if pd =? 0 then Some s else
  '(pt, s) ← get_or_create pd (PD_IDX virt) 0 s;
  if pt =? 0 then Some s else
  Some (with_mem (set_entry (vmem s) pt (PT_IDX virt)
          (Z.lor (Z.lor (Z.land phys PHYS_ADDR_MASK) flags) PAGE_PRESENT)) s).

Definition vmm_unmap_page (virt : Z) (s : vmm) : vmm :=
  let m := vmem s in
  let pml4 := current_pml4_phys s in
  if negb (present (entry m pml4 (PML4_IDX virt))) then s else
  let pdpt := child_of (entry m pml4 (PML4_IDX virt)) in
  if negb (present (entry m pdpt (PDPT_IDX virt))) then s else
  let pd := child_of (entry m pdpt (PDPT_IDX virt)) in
  if negb (present (entry m pd (PD_IDX virt))) then s else
  let pt := child_of (entry m pd (PD_IDX virt)) in
  with_mem (set_entry m pt (PT_IDX virt) 0) s.

Definition vmm_virt_to_phys (virt : Z) (s : vmm) : Z :=
  let m := vmem s in
  let pml4 := current_pml4_phys s in
  if negb (present (entry m pml4 (PML4_IDX virt))) then PMM_ALLOC_FAIL else
  let pdpt := child_of (entry m pml4 (PML4_IDX virt)) in
  if negb (present (entry m pdpt (PDPT_IDX virt))) then PMM_ALLOC_FAIL else
  let pd := child_of (entry m pdpt (PDPT_IDX virt)) in
  if negb (present (entry m pd (PD_IDX virt))) then PMM_ALLOC_FAIL else
  let pt := child_of (entry m pd (PD_IDX virt)) in
  if negb (present (entry m pt (PT_IDX virt))) then PMM_ALLOC_FAIL else
  Z.lor (Z.land (entry m pt (PT_IDX virt)) PHYS_ADDR_MASK) (Z.land virt 0xFFF).

Fixpoint map_range_loop (n : nat) (i virt_start phys_start flags : Z) (s : vmm) : option vmm :=
  match n with
  | O => Some s
  | S n' =>
      s' ← vmm_map_page (u64 (virt_start + i * PAGE_SIZE)) (u64 (phys_start + i * PAGE_SIZE)) flags s;
      map_range_loop n' (i + 1) virt_start phys_start flags s'
  end.

Definition vmm_map_range (virt_start phys_start count flags : Z) (s : vmm) : option vmm :=
  map_range_loop (Z.to_nat count) 0 virt_start phys_start flags s.

Definition vmm_map_mmio (phys_base page_count : Z) (s : vmm) : option vmm :=
  vmm_map_range phys_base phys_base page_count (Z.lor (Z.lor PAGE_PRESENT PAGE_WRITE) PAGE_NOCACHE) s.

(** Loading CR3 has no effect on the tables. *)
Definition vmm_switch_directory (pml4_phys : Z) (s : vmm) : vmm :=
  mk_vmm (vmem s) (vpmm s) (static_pt_used s) pml4_phys.

Definition vmm_get_current_pml4 (s : vmm) : Z := current_pml4_phys s.

Definition vmm_init (s : vmm) : option vmm :=
  '(pml4, s) ← alloc_table s;
  let s := mk_vmm (vmem s) (vpmm s) (static_pt_used s) pml4 in
  s ← vmm_map_range 0 0 IDENTITY_MAP_PAGES (Z.lor PAGE_PRESENT PAGE_WRITE) s;
  Some (vmm_switch_directory (current_pml4_phys s) s).

End Vmm.

(** ** The mapping a table tree represents *)

(** The leaf entry for [v] below the table [t] of level [n]; 0 if a level is
    absent. *)
Fixpoint leaf (n : nat) (m : mem) (t v : Z) : Z :=
  let e := entry m t (table_idx (Z.of_nat n) v) in
  match n with
  | O => e
  | S k => if present e then leaf k m (child_of e) v else 0
  end.

(** The level-0 table on the path of [v]. *)
Fixpoint walk (n : nat) (m : mem) (t v : Z) : option Z :=
  match n with
  | O => Some t
  | S k => let e := entry m t (table_idx (Z.of_nat n) v) in
           if present e then walk k m (child_of e) v else None
  end.

(** The mapping of the current address space. *)
Definition mapping (s : vmm) (v : Z) : Z := leaf 3 (vmem s) (current_pml4_phys s) v.

Lemma present_0 : present 0 = false.
Proof. done. Qed.

Lemma leaf_walk n m t v :
  leaf n m t v = match walk n m t v with Some pt => entry m pt (PT_IDX v) | None => 0 end.
Proof.
  revert t. induction n as [|n IH]; intros t; cbn [leaf walk]; [done|].
  destruct (present _); [apply IH | done].
Qed.

Lemma virt_to_phys_mapping v s :
  vmm_virt_to_phys v s =
    if present (mapping s v) then Z.lor (Z.land (mapping s v) PHYS_ADDR_MASK) (Z.land v 0xFFF) else PMM_ALLOC_FAIL.
Proof.
  unfold vmm_virt_to_phys, mapping, PML4_IDX, PDPT_IDX, PD_IDX, PT_IDX. cbn [leaf].
  change (Z.of_nat 3) with 3. change (Z.of_nat 2) with 2. change (Z.of_nat 1) with 1. change (Z.of_nat 0) with 0.
  repeat (destruct (present (entry _ _ (table_idx _ _))); cbn [negb]; rewrite ?present_0; try done).
Qed.

(** *** Indices *)

Lemma table_idx_range k v : 0 <= table_idx k v < 512.
Proof. unfold table_idx. change 0x1FF with (2 ^ 9 - 1). rewrite land_ones_mod by lia. apply Z.mod_pos_bound. lia. Qed.

Lemma table_idx_eq k v : 0 <= k -> table_idx k v = (v / 2 ^ (12 + 9 * k)) mod 512.
Proof.
  intros Hk. unfold table_idx. change 0x1FF with (2 ^ 9 - 1). rewrite land_ones_mod by lia.
  rewrite Z.shiftr_div_pow2 by lia. done.
Qed.

(** Two addresses on the same page, in 48-bit address space. *)
Definition same_page (v v' : Z) : Prop := (v / 4096) mod 2 ^ 36 = (v' / 4096) mod 2 ^ 36.

#[export] Instance same_page_dec v v' : Decision (same_page v v') := Z.eq_dec _ _.

Lemma same_page_idx v v' :
  same_page v v' <-> (forall k, 0 <= k <= 3 -> table_idx k v = table_idx k v').
Proof.
  assert (forall w, (w / 4096) mod 2 ^ 36 =
    table_idx 0 w + 512 * table_idx 1 w + 2 ^ 18 * table_idx 2 w + 2 ^ 27 * table_idx 3 w) as E.
  { intros w. rewrite !table_idx_eq by lia.
    change (12 + 9 * 0) with 12. change (12 + 9 * 1) with (12 + 9). change (12 + 9 * 2) with (12 + 18). change (12 + 9 * 3) with (12 + 27).
    rewrite !Z.pow_add_r by lia. change (2 ^ 12) with 4096. rewrite <- !Z.div_div by lia.
    set (x := w / 4096). dlia. }
  unfold same_page. rewrite !E. split.
  - intros H k Hk. pose proof (table_idx_range 0 v). pose proof (table_idx_range 0 v').
    pose proof (table_idx_range 1 v). pose proof (table_idx_range 1 v').
    pose proof (table_idx_range 2 v). pose proof (table_idx_range 2 v').
    pose proof (table_idx_range 3 v). pose proof (table_idx_range 3 v').
    assert (k = 0 \/ k = 1 \/ k = 2 \/ k = 3) as [->|[->|[->| ->]]] by lia; lia.
  - intros H. rewrite !H by lia. done.
Qed.

(** *** Entries *)

Lemma entry_set_eq m t i e : entry (set_entry m t i e) t i = u64 e.
Proof. apply load64_store64. Qed.

Lemma entry_set_ne m t i e t' i' :
  t mod 4096 = 0 -> t' mod 4096 = 0 -> 0 <= i < 512 -> 0 <= i' < 512 -> (t <> t' \/ i <> i') ->
  entry (set_entry m t i e) t' i' = entry m t' i'.
Proof.
  intros Ht Ht' Hi Hi' Hne. unfold entry, set_entry, load64, store64. apply load_le_store_other.
  change (Z.of_nat 8) with 8. dlia.
Qed.

Lemma land_page_mask x : 0 <= x < 2 ^ 64 -> Z.land x PHYS_ADDR_MASK = 4096 * (x / 4096).
Proof. intros Hx. unfold PHYS_ADDR_MASK, u64. apply (land_align x 12 64); lia. Qed.

(** A page address with flag bits in its low 12 bits. *)
Lemma page_flags a f :
  0 <= a < 2 ^ 64 -> a mod 4096 = 0 -> 0 <= f < 4096 ->
  0 <= Z.lor a f < 2 ^ 64 /\ child_of (Z.lor a f) = a /\ present (Z.lor a f) = present f.
Proof.
  intros Ha Hm Hf. rewrite (lor_disjoint a f 12) by done. split; [dlia|]. split.
  - unfold child_of. rewrite land_page_mask by dlia. dlia.
  - unfold present, PAGE_PRESENT. change 1 with (2 ^ 1 - 1). rewrite !land_ones_mod by lia.
    do 2 f_equal. change (2 ^ 1) with 2. dlia.
Qed.

(** ** The invariant: who owns which page *)

Section Invariant.
Variable pool : Z.
Hypothesis pool_aligned : pool mod 4096 = 0.
Hypothesis pool_range : 0 < pool /\ pool + STATIC_PT_PAGES * 4096 <= 2 ^ 52.

(** A page [alloc_table] may still hand out. *)
Definition free_page (s : vmm) (p : Z) : Prop :=
  (exists f, p = f * 4096 /\ 1 <= f < total_frames (vpmm s) /\ used (vpmm s) f = false) \/
  (exists k, p = pool + k * 4096 /\ static_pt_used s <= k < STATIC_PT_PAGES).

(** [L] maps every page-table page in use to its level. *)
Record alloc_ok (s : vmm) (L : gmap Z nat) : Prop := {
  a_pmm : pmm_inv (vpmm s);
  a_used : 0 <= static_pt_used s <= STATIC_PT_PAGES;
  a_fresh : forall p, free_page s p -> L !! p = None;
  a_pool : forall k f, 0 <= k < STATIC_PT_PAGES -> 1 <= f < total_frames (vpmm s) ->
    f * 4096 = pool + k * 4096 -> used (vpmm s) f = true;
  a_zero : forall k i, static_pt_used s <= k < STATIC_PT_PAGES -> 0 <= i < 512 ->
    entry (vmem s) (pool + k * 4096) i = 0;
  a_tab : forall t n, L !! t = Some n -> t mod 4096 = 0 /\ 0 < t /\ t + 4096 <= 2 ^ 52;
}.

Record tree_ok (m : mem) (root : Z) (L : gmap Z nat) : Prop := {
  t_root : L !! root = Some 3%nat;
  t_child : forall t n i, L !! t = Some (S n) -> 0 <= i < 512 -> present (entry m t i) = true ->
    L !! child_of (entry m t i) = Some n;
  t_inj : forall t n i t' n' i', L !! t = Some (S n) -> L !! t' = Some (S n') -> 0 <= i < 512 -> 0 <= i' < 512 ->
    present (entry m t i) = true -> present (entry m t' i') = true ->
    child_of (entry m t i) = child_of (entry m t' i') -> t = t' /\ i = i';
}.

Lemma clear_page_spec p m :
  p mod 4096 = 0 ->
  let m' := for_up (Z.to_nat ENTRIES_PER_TABLE) 0 (fun i m => set_entry m p i 0) m in
  (forall i, 0 <= i < 512 -> entry m' p i = 0) /\
  (forall t i, t mod 4096 = 0 -> t <> p -> 0 <= i < 512 -> entry m' t i = entry m t i).
Proof.
  intros Hp. cbv zeta.
  pose proof (for_up_inv (fun j m' => 0 <= j /\ (forall i, 0 <= i < j -> i < 512 -> entry m' p i = 0) /\
    (forall t i, t mod 4096 = 0 -> t <> p -> 0 <= i < 512 -> entry m' t i = entry m t i))
    (Z.to_nat ENTRIES_PER_TABLE) 0 (fun i m => set_entry m p i 0) m) as H.
  unfold ENTRIES_PER_TABLE in *. destruct H as (_ & H1 & H2).
  - split; [done|]. split; [intros; lia | done].
  - intros j m' Hj (H0 & H1 & H2). split; [lia|]. split.
    + intros i Hi Hi2. destruct (decide (i = j)) as [->|]; [by rewrite entry_set_eq|].
      rewrite entry_set_ne by (done || lia). apply H1; lia.
    + intros t i Ht Hne Hi. rewrite entry_set_ne by (done || lia). by apply H2.
  - split; [|done]. intros i Hi. apply H1; lia.
Qed.

Lemma alloc_table_spec s L :
  alloc_ok s L ->
  match alloc_table pool s with
  | None => static_pt_used s = STATIC_PT_PAGES
  | Some (c, s') =>
      (forall n, alloc_ok s' (<[c := n]> L)) /\ L !! c = None /\ c mod 4096 = 0 /\ 0 < c < 2 ^ 52 /\
      (forall i, 0 <= i < 512 -> entry (vmem s') c i = 0) /\
      (forall t i, t mod 4096 = 0 -> t <> c -> 0 <= i < 512 -> entry (vmem s') t i = entry (vmem s) t i) /\
      current_pml4_phys s' = current_pml4_phys s /\ static_pt_used s' <= static_pt_used s + 1
  end.
Proof.
  intros [H1 H2 H3 H4 H5 H6]. unfold alloc_table.
  destruct (pmm_alloc_page_cases (vpmm s) H1) as [[-> Hall]|(f & Hf & Hu & Hlow & ->)].
  - rewrite Z.eqb_refl. cbn [negb]. unfold alloc_from_static_pool. cbn [static_pt_used].
    destruct (Z.leb_spec STATIC_PT_PAGES (static_pt_used s)) as [|Hlt]; [lia|].
    set (c := pool + static_pt_used s * 4096).
    assert (c mod 4096 = 0) as Hc by (unfold c; dlia).
    assert (L !! c = None) as HL by (apply H3; right; exists (static_pt_used s); split; [done | lia]).
    rewrite u32_small by (unfold STATIC_PT_PAGES in *; lia).
    cbn [vmem vpmm static_pt_used current_pml4_phys].
    split; [|repeat split; try done; try (unfold c, STATIC_PT_PAGES in *; lia); intros; by apply H5].
    intros n. constructor; cbn [vmem vpmm static_pt_used current_pml4_phys with_mem].
    + done.
    + lia.
    + intros p Hp. rewrite lookup_insert_None. split.
      * apply H3. destruct Hp as [Hp|(k & -> & Hk)]; [by left|]. right. exists k. cbn in Hk. split; [done | lia].
      * intros Hpc. destruct Hp as [(g & -> & Hg & Hug)|(k & -> & Hk)]; cbn [vpmm static_pt_used with_mem] in *.
        -- rewrite (H4 (static_pt_used s) g) in Hug; [done | lia | lia | unfold c in Hpc; lia].
        -- unfold c in Hpc. lia.
    + done.
    + intros k i Hk. apply H5. lia.
    + intros t k Hk. apply lookup_insert_Some in Hk as [[<- _]|[_ Hk]]; [|by eapply H6].
      split; [done|]. unfold c, STATIC_PT_PAGES in *. lia.
  - assert (0 <= f < MAX_FRAMES) as Hfm by (destruct H1; lia). unfold PAGE_SIZE.
    destruct (Z.eqb_spec (f * 4096) PMM_ALLOC_FAIL) as [|_]; [unfold PMM_ALLOC_FAIL, MAX_FRAMES in *; lia|].
    cbn [negb vmem vpmm static_pt_used current_pml4_phys with_mem].
    assert ((f * 4096) mod 4096 = 0) as Hc by (apply Z.mod_mul; lia).
    assert (L !! (f * 4096) = None) as HL by (apply H3; left; by exists f).
    destruct (clear_page_spec (f * 4096) (vmem s) Hc) as [Z1 Z2].
    set (m' := for_up _ _ _ _) in *. clearbody m'.
    assert (forall k, 0 <= k < STATIC_PT_PAGES -> pool + k * 4096 <> f * 4096) as Hnp.
    { intros k Hk E. rewrite (H4 k f) in Hu; done. }
    split; [|repeat split; try done; unfold MAX_FRAMES in *; lia].
    intros n. constructor; cbn [vmem vpmm static_pt_used current_pml4_phys with_mem].
    + by apply take_inv.
    + done.
    + intros p Hp. rewrite lookup_insert_None. destruct Hp as [(g & -> & Hg & Hug)|(k & -> & Hk)]; cbn [vpmm static_pt_used with_mem] in *.
      * change (bm_test (bm_set (bitmap (vpmm s)) f) g = false) in Hug. rewrite bm_test_set in Hug. apply orb_false_elim in Hug as [Hne Hug].
        b2p. split; [|lia]. apply H3. left. by exists g.
      * split; [apply H3; right; by exists k|]. intros E. symmetry in E. by apply Hnp in E; [|lia].
    + intros k g Hk Hg E. change (bm_test (bm_set (bitmap (vpmm s)) f) g = true). rewrite bm_test_set.
      change (bm_test (bitmap (vpmm s)) g) with (used (vpmm s) g). rewrite (H4 k g Hk Hg E). apply orb_true_r.
    + intros k i Hk Hi. rewrite Z2; [by apply H5 | dlia | | done]. apply Hnp. lia.
    + intros t k Hk. apply lookup_insert_Some in Hk as [[<- _]|[_ Hk]]; [|by eapply H6].
      split; [done|]. unfold MAX_FRAMES in *. lia.
Qed.

(** A missing entry that becomes a link to a fresh, empty table changes no
    translation. *)
Lemma leaf_extend m m' root L t0 i0 n0 c :
  tree_ok m root L -> L !! t0 = Some (S n0) -> 0 <= i0 < 512 ->
  present (entry m t0 i0) = false -> child_of (entry m' t0 i0) = c ->
  (forall i, 0 <= i < 512 -> entry m' c i = 0) ->
  (forall t i, is_Some (L !! t) -> 0 <= i < 512 -> (t <> t0 \/ i <> i0) -> entry m' t i = entry m t i) ->
  forall n t v, L !! t = Some n -> leaf n m' t v = leaf n m t v.
Proof.
  intros Ht H0 Hi0 Hnp Hc Hz Hsame.
  assert (forall n v, leaf n m' c v = 0) as Hzero.
  { intros n v. destruct n as [|n]; cbn [leaf]; rewrite Hz by apply table_idx_range; done. }
  induction n as [|n IH]; intros t v HL; cbn [leaf].
  - rewrite Hsame; [done | by eexists | apply table_idx_range |]. left. intros ->. congruence.
  - pose proof (table_idx_range (Z.of_nat (S n)) v) as Hr. set (i := table_idx _ v) in *.
    destruct (decide (t = t0 /\ i = i0)) as [[-> ->]|Hne].
    + rewrite Hnp. destruct (present (entry m' t0 i0)); [|done]. rewrite Hc. apply Hzero.
    + assert (t <> t0 \/ i <> i0) as Hd by (destruct (decide (t = t0)); [right; tauto | by left]).
      rewrite Hsame by (first [by eexists | done]).
      destruct (present (entry m t i)) eqn:Ep; [|done]. apply IH. by apply (t_child _ _ _ Ht t n i).
Qed.

(** What one table step of [vmm_map_page] guarantees. *)
Definition step_ok (s s' : vmm) (L L' : gmap Z nat) : Prop :=
  alloc_ok s' L' /\ tree_ok (vmem s') (current_pml4_phys s') L' /\ L ⊆ L' /\
  current_pml4_phys s' = current_pml4_phys s /\
  (forall n t v, L !! t = Some n -> leaf n (vmem s') t v = leaf n (vmem s) t v) /\
  (forall t i, is_Some (L !! t) -> 0 <= i < 512 -> present (entry (vmem s) t i) = true ->
     entry (vmem s') t i = entry (vmem s) t i).

Lemma step_ok_refl s L : alloc_ok s L -> tree_ok (vmem s) (current_pml4_phys s) L -> step_ok s s L L.
Proof. intros. split; [done|]. split; [done|]. by split. Qed.

Lemma step_ok_trans s1 s2 s3 L1 L2 L3 : step_ok s1 s2 L1 L2 -> step_ok s2 s3 L2 L3 -> step_ok s1 s3 L1 L3.
Proof.
  intros (A1 & A2 & A3 & A4 & A5 & A6) (B1 & B2 & B3 & B4 & B5 & B6).
  split; [done|]. split; [done|]. split; [by etrans|]. split; [congruence|]. split.
  - intros n t v Ht. rewrite B5 by (by eapply lookup_weaken). by apply A5.
  - intros t i [n Ht] Hi Hp. assert (L2 !! t = Some n) by (by eapply lookup_weaken).
    assert (entry (vmem s2) t i = entry (vmem s1) t i) as E by (by apply A6).
    rewrite B6; [done | by eexists | done | by rewrite E].
Qed.

(** Inserting the fresh page [c] below the missing entry [(t, i)]. *)
Lemma tree_extend s m' L t i n c :
  alloc_ok s L -> tree_ok (vmem s) (current_pml4_phys s) L -> L !! t = Some (S n) -> 0 <= i < 512 ->
  present (entry (vmem s) t i) = false -> L !! c = None ->
  child_of (entry m' t i) = c ->
  (forall j, 0 <= j < 512 -> entry m' c j = 0) ->
  (forall t' j, is_Some (L !! t') -> 0 <= j < 512 -> (t' <> t \/ j <> i) -> entry m' t' j = entry (vmem s) t' j) ->
  tree_ok m' (current_pml4_phys s) (<[c := n]> L).
Proof.
  intros Ha [T1 T2 T3] Ht Hi Hnp HL Hch Hz Hsame.
  assert (forall t' n' j, <[c := n]> L !! t' = Some (S n') -> 0 <= j < 512 -> present (entry m' t' j) = true ->
    (t' = t /\ j = i /\ n' = n) \/
    (L !! t' = Some (S n') /\ present (entry (vmem s) t' j) = true /\ entry m' t' j = entry (vmem s) t' j)) as Hcase.
  { intros t' n' j Hl Hj Hp. apply lookup_insert_Some in Hl as [[<- _]|[Hne Hl]].
    - by rewrite Hz in Hp.
    - destruct (decide (t' = t /\ j = i)) as [[-> ->]|Hd]; [left; split; [done|]; split; [done|]; congruence|].
      right. assert (entry m' t' j = entry (vmem s) t' j) as E.
      { apply Hsame; [by eexists | done |]. destruct (decide (t' = t)); [right; tauto | by left]. }
      by rewrite <- E. }
  assert (forall t' n' j, L !! t' = Some (S n') -> 0 <= j < 512 -> present (entry (vmem s) t' j) = true ->
    child_of (entry (vmem s) t' j) <> c) as Hnc.
  { intros t' n' j Hl Hj Hp E. specialize (T2 t' n' j Hl Hj Hp). rewrite E in T2. congruence. }
  constructor.
  - rewrite lookup_insert_ne; [done|]. intros ->. congruence.
  - intros t' n' j Hl Hj Hp. destruct (Hcase t' n' j Hl Hj Hp) as [(-> & -> & ->)|(Hl' & Hp' & E)].
    + rewrite Hch. apply lookup_insert_eq.
    + rewrite E. rewrite lookup_insert_ne; [by apply T2 | symmetry; by eapply Hnc].
  - intros t1 n1 i1 t2 n2 i2 Hl1 Hl2 Hi1 Hi2 Hp1 Hp2 E.
    destruct (Hcase _ _ _ Hl1 Hi1 Hp1) as [(-> & -> & ->)|(Hl1' & Hp1' & E1)],
             (Hcase _ _ _ Hl2 Hi2 Hp2) as [(-> & -> & ->)|(Hl2' & Hp2' & E2)]; [done | | |].
    + rewrite Hch, E2 in E. symmetry in E. by eapply Hnc in E.
    + rewrite Hch, E1 in E. by eapply Hnc in E.
    + rewrite E1, E2 in E. by apply (T3 t1 n1 i1 t2 n2 i2).
Qed.

Lemma get_or_create_spec s L t n i :
  alloc_ok s L -> tree_ok (vmem s) (current_pml4_phys s) L -> L !! t = Some (S n) -> 0 <= i < 512 ->
  match get_or_create pool t i 0 s with
  | None => static_pt_used s = STATIC_PT_PAGES /\ present (entry (vmem s) t i) = false
  | Some (c, s') => exists L', step_ok s s' L L' /\ L' !! c = Some n /\ c <> 0 /\
      present (entry (vmem s') t i) = true /\ child_of (entry (vmem s') t i) = c /\
      static_pt_used s' <= static_pt_used s + 1 /\ (present (entry (vmem s) t i) = true -> s' = s)
  end.
Proof.
  intros Ha Ht HL Hi. unfold get_or_create. destruct (present (entry (vmem s) t i)) eqn:Ep; cbn [negb mbind option_bind].
  - exists L. pose proof (t_child _ _ _ Ht t n i HL Hi Ep) as Hc. split; [by apply step_ok_refl|].
    split; [done|]. split; [destruct (a_tab _ _ Ha _ _ Hc); lia|]. split; [done|]. split; [done|]. split; [lia | done].
  - pose proof (alloc_table_spec s L Ha) as Hs. destruct (alloc_table pool s) as [[c s1]|]; [|done].
    destruct Hs as (Hok & Hc0 & Hcm & Hcr & Hz & Hsame & Hroot & Hst). cbn [mbind option_bind].
    rewrite Z.lor_0_r. replace (Z.lor (Z.lor c PAGE_PRESENT) PAGE_WRITE) with (Z.lor c 3) by (by rewrite <- Z.lor_assoc).
    destruct (page_flags c 3) as (Hr & Hch & Hpr); [lia | done | lia |].
    destruct (a_tab _ _ Ha _ _ HL) as (Htm & Ht0 & _).
    assert (t <> c) as Htc by congruence.
    set (m' := set_entry (vmem s1) t i (Z.lor c 3)).
    assert (entry m' t i = Z.lor c 3) as Eti by (unfold m'; by rewrite entry_set_eq, u64_small).
    assert (forall t' j, is_Some (<[c := n]> L !! t') -> 0 <= j < 512 -> (t' <> t \/ j <> i) -> entry m' t' j = entry (vmem s1) t' j) as Hm'.
    { intros t' j [k Hk] Hj Hne. unfold m'. apply entry_set_ne; try done; [|destruct Hne; [left; congruence | right; congruence]].
      by eapply (a_tab _ _ (Hok n)). }
    assert (forall j, 0 <= j < 512 -> entry m' c j = 0) as Hz'.
    { intros j Hj. rewrite Hm'; [by apply Hz | rewrite lookup_insert_eq; by eexists | done | left; congruence]. }
    assert (forall t' j, is_Some (L !! t') -> 0 <= j < 512 -> (t' <> t \/ j <> i) -> entry m' t' j = entry (vmem s) t' j) as Hold.
    { intros t' j [k Hk] Hj Hne. assert (t' <> c) by congruence.
      rewrite Hm'; [|rewrite lookup_insert_ne by congruence; by eexists | done | done].
      apply Hsame; [by eapply (a_tab _ _ Ha) | done | done]. }
    cbn [vmem with_mem]. fold m'. rewrite Eti, Hch. exists (<[c := n]> L). cbn [static_pt_used with_mem].
    split; [|split; [apply lookup_insert_eq|]; split; [lia|]; split; [by rewrite Hpr|]; split; [done|]; split; [lia | done]].
    split; [|split; [|split; [by apply insert_subseteq | split; [done | split]]]].
    + destruct (Hok n) as [A1 A2 A3 A4 A5 A6]. constructor; try done.
      intros k j Hk Hj. rewrite <- (A5 k j Hk Hj). unfold m'. cbn [vmem with_mem].
      apply entry_set_ne; [done | dlia | done | done |]. left. intros E.
      assert (<[c := n]> L !! t = None) as Hn by (apply A3; right; by exists k).
      rewrite lookup_insert_ne in Hn by congruence. congruence.
    + cbn [current_pml4_phys with_mem]. rewrite Hroot. apply (tree_extend s m' L t i n c); try done. by rewrite Eti.
    + intros k t' v. apply (leaf_extend (vmem s) m' (current_pml4_phys s) L t i n c); try done. by rewrite Eti.
    + intros t' j Hs' Hj Hp. apply Hold; [done | done |]. destruct (decide (t' = t)) as [->|]; [right; intros ->; congruence | by left].
Qed.

(** *** Paths *)

Lemma walk_level m root L n t v p : tree_ok m root L -> L !! t = Some n -> walk n m t v = Some p -> L !! p = Some 0%nat.
Proof.
  intros Ht. revert t. induction n as [|n IH]; intros t HL; cbn [walk]; [by intros [= <-]|].
  destruct (present _) eqn:Ep; [|done]. apply IH. apply (t_child _ _ _ Ht t n _ HL (table_idx_range _ _) Ep).
Qed.

Lemma walk_inj m root L n t t' v v' p :
  tree_ok m root L -> L !! t = Some n -> L !! t' = Some n -> walk n m t v = Some p -> walk n m t' v' = Some p ->
  t = t' /\ forall k, 1 <= k <= Z.of_nat n -> table_idx k v = table_idx k v'.
Proof.
  intros Ht. revert t t'. induction n as [|n IH]; intros t t' HL HL'; cbn [walk].
  { intros [= ->] [= ->]. split; [done | lia]. }
  destruct (present (entry m t _)) eqn:Ep; [|done]. destruct (present (entry m t' _)) eqn:Ep'; [|done].
  pose proof (table_idx_range (Z.of_nat (S n)) v) as Hi. pose proof (table_idx_range (Z.of_nat (S n)) v') as Hi'.
  intros Hw Hw'. destruct (IH _ _ (t_child _ _ _ Ht _ _ _ HL Hi Ep) (t_child _ _ _ Ht _ _ _ HL' Hi' Ep') Hw Hw') as [Hc Hk].
  destruct (t_inj _ _ _ Ht _ _ _ _ _ _ HL HL' Hi Hi' Ep Ep' Hc) as [-> Heq]. split; [done|].
  intros k Hk2. destruct (decide (k = Z.of_nat (S n))) as [->|]; [done|]. apply Hk. lia.
Qed.

Lemma walk_idx n m t v v' :
  (forall k, 1 <= k <= Z.of_nat n -> table_idx k v = table_idx k v') -> walk n m t v = walk n m t v'.
Proof.
  revert t. induction n as [|n IH]; intros t Hk; cbn [walk]; [done|]. rewrite Hk by lia.
  destruct (present _); [|done]. apply IH. intros. apply Hk. lia.
Qed.

(** Writing a leaf entry changes no path. *)
Lemma walk_store s L pt i e n t v :
  alloc_ok s L -> tree_ok (vmem s) (current_pml4_phys s) L -> L !! pt = Some 0%nat -> 0 <= i < 512 ->
  L !! t = Some n -> walk n (set_entry (vmem s) pt i e) t v = walk n (vmem s) t v.
Proof.
  intros Ha Ht Hpt Hi. revert t. induction n as [|n IH]; intros t HL; cbn [walk]; [done|].
  pose proof (table_idx_range (Z.of_nat (S n)) v) as Hr.
  rewrite entry_set_ne; [| by eapply (a_tab _ _ Ha) | by eapply (a_tab _ _ Ha) | done | done | left; congruence].
  destruct (present _) eqn:Ep; [|done]. apply IH. by apply (t_child _ _ _ Ht t n).
Qed.

Lemma mapping_store s L pt v e v' :
  alloc_ok s L -> tree_ok (vmem s) (current_pml4_phys s) L ->
  walk 3 (vmem s) (current_pml4_phys s) v = Some pt ->
  mapping (with_mem (set_entry (vmem s) pt (PT_IDX v) e) s) v' =
    if decide (same_page v v') then u64 e else mapping s v'.
Proof.
  intros Ha Ht Hw. pose proof (walk_level _ _ _ _ _ _ _ Ht (t_root _ _ _ Ht) Hw) as Hpt.
  pose proof (table_idx_range 0 v) as Hi. pose proof (table_idx_range 0 v') as Hi'.
  unfold mapping. cbn [vmem current_pml4_phys with_mem]. rewrite !leaf_walk.
  rewrite (walk_store s L) by (done || apply (t_root _ _ _ Ht)).
  case_decide as Hs.
  - rewrite same_page_idx in Hs. rewrite <- (walk_idx 3 _ _ v) by (intros; apply Hs; lia). rewrite Hw.
    unfold PT_IDX. rewrite <- (Hs 0) by lia. apply entry_set_eq.
  - destruct (walk 3 _ _ v') as [p|] eqn:Hw'; [|done].
    pose proof (walk_level _ _ _ _ _ _ _ Ht (t_root _ _ _ Ht) Hw') as Hp.
    apply entry_set_ne; [by eapply (a_tab _ _ Ha) | by eapply (a_tab _ _ Ha) | done | done |].
    destruct (decide (pt = p)) as [<-|]; [right | by left]. intros E. apply Hs.
    apply same_page_idx. intros k Hk. destruct (decide (k = 0)) as [->|]; [done|].
    destruct (walk_inj _ _ _ _ _ _ _ _ _ Ht (t_root _ _ _ Ht) (t_root _ _ _ Ht) Hw Hw') as [_ H]. apply H. lia.
Qed.

(** A write to a leaf entry keeps the invariant. *)
Lemma leaf_write_ok s L pt i e :
  alloc_ok s L -> tree_ok (vmem s) (current_pml4_phys s) L -> L !! pt = Some 0%nat -> 0 <= i < 512 ->
  let s' := with_mem (set_entry (vmem s) pt i e) s in
  alloc_ok s' L /\ tree_ok (vmem s') (current_pml4_phys s') L.
Proof.
  intros Ha [T1 T2 T3] Hpt Hi. cbv zeta. destruct (a_tab _ _ Ha _ _ Hpt) as (Hm & _).
  assert (forall t n j, L !! t = Some (S n) -> 0 <= j < 512 ->
    entry (set_entry (vmem s) pt i e) t j = entry (vmem s) t j) as Hk.
  { intros t n j Ht Hj. apply entry_set_ne; [done | by eapply (a_tab _ _ Ha) | done | done | left; congruence]. }
  split.
  - destruct Ha as [A1 A2 A3 A4 A5 A6]. constructor; try done. intros k j Hk2 Hj.
    rewrite <- (A5 k j Hk2 Hj). cbn [vmem with_mem]. apply entry_set_ne; [done | dlia | done | done |].
    left. intros ->. assert (L !! (pool + k * 4096) = None) by (apply A3; right; by exists k). congruence.
  - cbn [vmem current_pml4_phys with_mem]. constructor; [done | |].
    + intros t n j Ht Hj. rewrite (Hk t n j Ht Hj). by apply T2.
    + intros t n j t' n' j' Ht Ht' Hj Hj'. rewrite (Hk _ _ _ Ht Hj), (Hk _ _ _ Ht' Hj'). by apply (T3 t n j t' n' j').
Qed.

(** How many tables are missing on the path of [v]. *)
Fixpoint missing (n : nat) (m : mem) (t v : Z) : Z :=
  match n with
  | O => 0
  | S k => let e := entry m t (table_idx (Z.of_nat n) v) in
           if present e then missing k m (child_of e) v else Z.of_nat n
  end.

Lemma missing_range n m t v : 0 <= missing n m t v <= Z.of_nat n.
Proof.
  revert t. induction n as [|n IH]; intros t; cbn [missing]; [lia|].
  destruct (present _); [|lia]. specialize (IH (child_of (entry m t (table_idx (Z.of_nat (S n)) v)))). lia.
Qed.

(** The three [get_or_create] calls of [vmm_map_page], as a recursion. *)
Fixpoint path (n : nat) (t v : Z) (s : vmm) : option (Z * vmm) :=
  match n with
  | O => Some (t, s)
  | S k => '(c, s) ← get_or_create pool t (table_idx (Z.of_nat n) v) 0 s; path k c v s
  end.

Lemma path_spec n t v s L :
  alloc_ok s L -> tree_ok (vmem s) (current_pml4_phys s) L -> L !! t = Some n ->
  match path n t v s with
  | None => STATIC_PT_PAGES < static_pt_used s + missing n (vmem s) t v
  | Some (pt, s') => exists L', step_ok s s' L L' /\ L' !! pt = Some 0%nat /\
      walk n (vmem s') t v = Some pt /\ static_pt_used s' <= static_pt_used s + missing n (vmem s) t v
  end.
Proof.
  revert t s L. induction n as [|n IH]; intros t s L Ha Ht HL; cbn [path].
  { exists L. split; [by apply step_ok_refl|]. split; [done|]. split; [done|]. cbn. lia. }
  pose proof (table_idx_range (Z.of_nat (S n)) v) as Hi.
  pose proof (get_or_create_spec s L t n _ Ha Ht HL Hi) as Hg. cbn [walk missing].
  set (i := table_idx (Z.of_nat (S n)) v) in *.
  destruct (get_or_create pool t i 0 s) as [[c s1]|]; cbn [mbind option_bind].
  2: { destruct Hg as [-> ->]. lia. }
  destruct Hg as (L1 & Hs1 & Hc & _ & Hp & Hch & Hu & Hsame).
  pose proof Hs1 as (Ha1 & Ht1 & Hsub & Hroot & _ & _).
  specialize (IH c s1 L1 Ha1 Ht1 Hc). pose proof (missing_range n (vmem s1) c v) as Hm.
  assert (static_pt_used s1 + missing n (vmem s1) c v <= static_pt_used s +
    (if present (entry (vmem s) t i) then missing n (vmem s) (child_of (entry (vmem s) t i)) v else Z.of_nat (S n))) as Hle.
  { destruct (present (entry (vmem s) t i)) eqn:Ep; [|lia]. specialize (Hsame eq_refl). subst s1. rewrite Hch. lia. }
  destruct (path n c v s1) as [[pt s2]|]; [|lia].
  destruct IH as (L2 & Hs2 & Hpt & Hw & Hu2). exists L2. split; [by eapply step_ok_trans|]. split; [done|].
  split; [|lia]. destruct Hs2 as (_ & _ & _ & _ & _ & Hkeep).
  rewrite Hkeep; [|eexists; by eapply lookup_weaken | done | done]. by rewrite Hp, Hch.
Qed.

Lemma map_page_path v phys flags s L :
  alloc_ok s L -> tree_ok (vmem s) (current_pml4_phys s) L ->
  vmm_map_page pool v phys flags s =
    '(pt, s') ← path 3 (current_pml4_phys s) v s;
    Some (with_mem (set_entry (vmem s') pt (PT_IDX v) (Z.lor (Z.lor (Z.land phys PHYS_ADDR_MASK) flags) PAGE_PRESENT)) s').
Proof.
  intros Ha Ht. unfold vmm_map_page. cbn [path]. pose proof (t_root _ _ _ Ht) as HL.
  pose proof (get_or_create_spec s L _ 2 (PML4_IDX v) Ha Ht HL (table_idx_range _ _)) as H1.
  change (table_idx (Z.of_nat 3) v) with (PML4_IDX v).
  destruct (get_or_create pool _ (PML4_IDX v) 0 s) as [[c1 s1]|]; [|done]. cbn [mbind option_bind].
  destruct H1 as (L1 & (Ha1 & Ht1 & _) & HL1 & Hc1 & _). destruct (Z.eqb_spec c1 0); [done|].
  pose proof (get_or_create_spec s1 L1 _ 1 (PDPT_IDX v) Ha1 Ht1 HL1 (table_idx_range _ _)) as H2.
  change (table_idx (Z.of_nat 2) v) with (PDPT_IDX v).
  destruct (get_or_create pool c1 (PDPT_IDX v) 0 s1) as [[c2 s2]|]; [|done]. cbn [mbind option_bind].
  destruct H2 as (L2 & (Ha2 & Ht2 & _) & HL2 & Hc2 & _). destruct (Z.eqb_spec c2 0); [done|].
  pose proof (get_or_create_spec s2 L2 _ 0 (PD_IDX v) Ha2 Ht2 HL2 (table_idx_range _ _)) as H3.
  change (table_idx (Z.of_nat 1) v) with (PD_IDX v).
  destruct (get_or_create pool c2 (PD_IDX v) 0 s2) as [[c3 s3]|]; [|done]. cbn [mbind option_bind].
  destruct H3 as (L3 & _ & _ & Hc3 & _). by destruct (Z.eqb_spec c3 0).
Qed.

(** The page-table invariant of a whole state. *)
Definition vmm_ok (s : vmm) : Prop :=
  exists L, alloc_ok s L /\ tree_ok (vmem s) (current_pml4_phys s) L.

Definition leaf_entry (phys flags : Z) : Z := Z.lor (Z.lor (Z.land phys PHYS_ADDR_MASK) flags) PAGE_PRESENT.

Lemma map_page_spec v phys flags s :
  vmm_ok s ->
  match vmm_map_page pool v phys flags s with
  | None => STATIC_PT_PAGES < static_pt_used s + missing 3 (vmem s) (current_pml4_phys s) v
  | Some s' => vmm_ok s' /\ current_pml4_phys s' = current_pml4_phys s /\
      (forall v', mapping s' v' = if decide (same_page v v') then u64 (leaf_entry phys flags) else mapping s v') /\
      static_pt_used s' <= static_pt_used s + missing 3 (vmem s) (current_pml4_phys s) v /\
      is_Some (walk 3 (vmem s') (current_pml4_phys s') v)
  end.
Proof.
  intros (L & Ha & Ht). rewrite (map_page_path _ _ _ _ L Ha Ht).
  pose proof (path_spec 3 _ v s L Ha Ht (t_root _ _ _ Ht)) as Hp.
  destruct (path 3 _ v s) as [[pt s1]|]; [|done]. cbn [mbind option_bind].
  destruct Hp as (L1 & (Ha1 & Ht1 & _ & Hr & Hl & _) & Hpt & Hw & Hu). rewrite <- Hr in Hw.
  split; [|split; [done|split; [|split; [done|]]]].
  - exists L1. apply leaf_write_ok; [done | done | done | apply table_idx_range].
  - intros v'. rewrite (mapping_store _ L1) by done. case_decide; [done|].
    unfold mapping. rewrite Hr. apply Hl, (t_root _ _ _ Ht).
  - cbn [vmem current_pml4_phys with_mem]. exists pt.
    rewrite (walk_store s1 L1) by (done || apply (t_root _ _ _ Ht1) || apply table_idx_range). done.
Qed.

Lemma low_12 v : Z.land v 0xFFF = v mod 4096.
Proof. apply (land_ones_mod v 12). lia. Qed.

(** A leaf entry with flags in the low 12 bits translates exactly. *)
Lemma leaf_entry_translates phys flags v :
  0 <= phys < 2 ^ 64 -> 0 <= flags < 4096 ->
  let e := leaf_entry phys flags in
  u64 e = e /\ present e = true /\
  Z.lor (Z.land e PHYS_ADDR_MASK) (Z.land v 0xFFF) = phys - phys mod 4096 + v mod 4096.
Proof.
  intros Hp Hf. unfold leaf_entry, PAGE_PRESENT. cbv zeta. rewrite land_page_mask, <- Z.lor_assoc by done.
  pose proof (lor_bound flags 1 12 ltac:(lia) Hf ltac:(lia)) as Hl.
  destruct (page_flags (4096 * (phys / 4096)) (Z.lor flags 1)) as (H1 & H2 & H3);
    [dlia | apply (mod_pow2_align _ 12); lia | done |].
  split; [by apply u64_small|]. split.
  - rewrite H3. unfold present, PAGE_PRESENT. rewrite Z.land_lor_distr_l. apply negb_true_iff, Z.eqb_neq.
    intros E%Z.lor_eq_0_iff. destruct E as [_ E]. done.
  - unfold child_of in H2. rewrite H2, low_12.
    rewrite (lor_disjoint _ _ 12); [|lia | apply (mod_pow2_align _ 12); lia | apply Z.mod_pos_bound; lia].
    pose proof (Z.div_mod phys 4096). lia.
Qed.

Lemma virt_to_phys_same v v' s : mapping s v = mapping s v' -> v = v' -> vmm_virt_to_phys v s = vmm_virt_to_phys v' s.
Proof. by intros _ ->. Qed.

(** C10: [vmm_map_page] maps exactly one page.  With three static pages left
    it always returns; afterwards every address of the page translates to the
    corresponding address of the physical page, every other address translates
    as before, including those below freshly created tables, and the tables
    stay well formed. *)
Theorem vmm_map_page_correct v phys flags s :
  vmm_ok s -> 0 <= phys < 2 ^ 64 -> 0 <= flags < 4096 ->
  (static_pt_used s + 3 <= STATIC_PT_PAGES -> is_Some (vmm_map_page pool v phys flags s)) /\
  forall s', vmm_map_page pool v phys flags s = Some s' ->
    vmm_ok s' /\
    (forall w, same_page v w -> vmm_virt_to_phys w s' = phys - phys mod 4096 + w mod 4096) /\
    (forall w, ~ same_page v w -> vmm_virt_to_phys w s' = vmm_virt_to_phys w s).
Proof.
  intros Hok Hp Hf. pose proof (map_page_spec v phys flags s Hok) as H.
  pose proof (missing_range 3 (vmem s) (current_pml4_phys s) v) as Hm.
  destruct (vmm_map_page pool v phys flags s) as [s1|]; [|split; [lia | done]].
  split; [by eexists|]. intros s' [= <-]. destruct H as (Hok' & _ & Hmap & _). split; [done|].
  split; intros w Hw; rewrite !virt_to_phys_mapping, Hmap.
  - rewrite decide_True by done. destruct (leaf_entry_translates phys flags w Hp Hf) as (-> & -> & E). exact E.
  - by rewrite decide_False.
Qed.

(** [vmm_unmap_page] makes its page untranslatable and changes the
    translation of no other address. *)
Theorem vmm_unmap_page_correct v s :
  vmm_ok s ->
  let s' := vmm_unmap_page v s in
  vmm_ok s' /\ (forall w, same_page v w -> vmm_virt_to_phys w s' = PMM_ALLOC_FAIL) /\
  (forall w, ~ same_page v w -> vmm_virt_to_phys w s' = vmm_virt_to_phys w s).
Proof.
  intros (L & Ha & Ht). cbv zeta.
  assert (vmm_unmap_page v s = match walk 3 (vmem s) (current_pml4_phys s) v with
    | Some pt => with_mem (set_entry (vmem s) pt (PT_IDX v) 0) s | None => s end) as ->.
  { unfold vmm_unmap_page, PML4_IDX, PDPT_IDX, PD_IDX. cbn [walk].
    change (Z.of_nat 3) with 3. change (Z.of_nat 2) with 2. change (Z.of_nat 1) with 1.
    by repeat (destruct (present (entry _ _ (table_idx _ _))); cbn [negb]). }
  destruct (walk 3 _ _ v) as [pt|] eqn:Hw.
  - pose proof (walk_level _ _ _ _ _ _ _ Ht (t_root _ _ _ Ht) Hw) as Hpt.
    split; [exists L; by apply leaf_write_ok, table_idx_range|].
    split; intros w Hs; rewrite !virt_to_phys_mapping, (mapping_store _ L) by done.
    + by rewrite decide_True.
    + by rewrite decide_False.
  - split; [by exists L|]. split; [|done]. intros w Hs. rewrite virt_to_phys_mapping. unfold mapping.
    rewrite same_page_idx in Hs. rewrite leaf_walk, <- (walk_idx 3 _ _ v) by (intros; apply Hs; lia). by rewrite Hw.
Qed.

(** The no-execute bit survives in the result of [vmm_virt_to_phys]:
    PHYS_ADDR_MASK only clears the low 12 bits, so the translation of a page
    mapped with PAGE_NX is off by 2^63. *)
Theorem virt_to_phys_keeps_nx v phys s s' :
  vmm_ok s -> 0 <= phys < 2 ^ 52 -> vmm_map_page pool v phys PAGE_NX s = Some s' ->
  vmm_virt_to_phys v s' = 2 ^ 63 + (phys - phys mod 4096 + v mod 4096).
Proof.
  intros Hok Hp E. pose proof (map_page_spec v phys PAGE_NX s Hok) as H. rewrite E in H.
  destruct H as (_ & _ & Hmap & _). rewrite virt_to_phys_mapping, Hmap, decide_True by done.
  assert (leaf_entry phys PAGE_NX = leaf_entry (2 ^ 63 + phys) 0) as ->.
  { unfold leaf_entry, PAGE_NX. rewrite Z.lor_0_r, !land_page_mask by lia. f_equal.
    rewrite Z.lor_comm, (lor_disjoint (2 ^ 63) _ 63); [dlia | lia | done | dlia]. }
  destruct (leaf_entry_translates (2 ^ 63 + phys) 0 v ltac:(lia) ltac:(lia)) as (-> & -> & ->). dlia.
Qed.

(** *** Start-up *)

Lemma missing_path n m t w v p k :
  walk n m t w = Some p -> (forall j, k < j <= Z.of_nat n -> table_idx j v = table_idx j w) -> 0 <= k ->
  missing n m t v <= k.
Proof.
  revert t. induction n as [|n IH]; intros t; cbn [walk missing]; [lia|]. intros Hw Hj Hk.
  destruct (decide (Z.of_nat (S n) <= k)) as [Hle|Hlt].
  - destruct (present (entry m t (table_idx (Z.of_nat (S n)) v))); [|done].
    pose proof (missing_range n m (child_of (entry m t (table_idx (Z.of_nat (S n)) v))) v). lia.
  - rewrite (Hj (Z.of_nat (S n))) by lia. destruct (present _); [|done]. apply IH; [done | | done].
    intros j Hj2. apply Hj. lia.
Qed.

(** The page number of an address. *)
Definition page_no (v : Z) : Z := (v / 4096) mod 2 ^ 36.

Definition pages_after (i : Z) : Z := if i =? 0 then 1 else 3 + (i + 511) / 512.

Record identity_to (i : Z) (s : vmm) : Prop := {
  id_ok : vmm_ok s;
  id_map : forall v, mapping s v = if page_no v <? i then leaf_entry (page_no v * 4096) 3 else 0;
  id_used : static_pt_used s <= pages_after i;
  id_path : 0 < i -> is_Some (walk 3 (vmem s) (current_pml4_phys s) ((i - 1) * 4096));
}.

Lemma identity_step i s :
  0 <= i < 2 ^ 15 -> identity_to i s ->
  exists s', vmm_map_page pool (i * 4096) (i * 4096) 3 s = Some s' /\ identity_to (i + 1) s'.
Proof.
  intros Hi [I1 I2 I3 I4].
  assert (missing 3 (vmem s) (current_pml4_phys s) (i * 4096) <= pages_after (i + 1) - pages_after i) as Hm.
  { unfold pages_after. destruct (Z.eqb_spec i 0) as [->|Hi0].
    - pose proof (missing_range 3 (vmem s) (current_pml4_phys s) (0 * 4096)). change (if 0 + 1 =? 0 then 1 else 3 + (0 + 1 + 511) `div` 512) with 4. lia.
    - destruct (Z.eqb_spec (i + 1) 0); [lia|]. destruct (I4 ltac:(lia)) as [p Hw].
      etransitivity; [apply (missing_path _ _ _ _ _ _ (if i mod 512 =? 0 then 1 else 0) Hw)|].
      + intros j Hj. rewrite !table_idx_eq by (destruct (i mod 512 =? 0); lia).
        assert (j = 1 \/ j = 2 \/ j = 3) as [->|[->| ->]] by (destruct (i mod 512 =? 0); lia).
        * destruct (Z.eqb_spec (i mod 512) 0); [lia|]. change (2 ^ (12 + 9 * 1)) with (4096 * 512). dlia.
        * change (2 ^ (12 + 9 * 2)) with (4096 * 512 * 512). dlia.
        * change (2 ^ (12 + 9 * 3)) with (4096 * 512 * 512 * 512). dlia.
      + destruct (i mod 512 =? 0); lia.
      + destruct (Z.eqb_spec (i mod 512) 0); dlia. }
  pose proof (map_page_spec (i * 4096) (i * 4096) 3 s I1) as H.
  destruct (vmm_map_page pool (i * 4096) (i * 4096) 3 s) as [s'|].
  2: { exfalso. assert (pages_after (i + 1) <= 160); [|unfold STATIC_PT_PAGES in *; lia].
       unfold pages_after. destruct (Z.eqb_spec (i + 1) 0); dlia. }
  destruct H as (H1 & H2 & H3 & H4 & H5). exists s'. split; [done|]. constructor; [done | | lia |].
  - intros v. rewrite H3, I2.
    assert (same_page (i * 4096) v <-> i = page_no v) as Hsp.
    { unfold same_page, page_no. by rewrite Z.div_mul, Z.mod_small by lia. }
    destruct (decide (same_page (i * 4096) v)) as [Hs|Hs]; rewrite Hsp in Hs.
    + rewrite <- Hs. destruct (Z.ltb_spec i (i + 1)); [|lia]. apply (leaf_entry_translates (i * 4096) 3 v); lia.
    + destruct (Z.ltb_spec (page_no v) i), (Z.ltb_spec (page_no v) (i + 1)); lia || done.
  - intros _. by replace (i + 1 - 1) with i by lia.
Qed.

Lemma identity_range n i s :
  0 <= i -> i + Z.of_nat n <= 2 ^ 15 -> identity_to i s ->
  exists s', map_range_loop pool n i 0 0 3 s = Some s' /\ identity_to (i + Z.of_nat n) s'.
Proof.
  revert i s. induction n as [|n IH]; intros i s Hi Hn Hid; cbn [map_range_loop].
  { exists s. by replace (i + Z.of_nat 0) with i by lia. }
  unfold PAGE_SIZE. rewrite Z.add_0_l, u64_small by lia.
  destruct (identity_step i s ltac:(lia) Hid) as (s1 & -> & Hid1). cbn [mbind option_bind].
  destruct (IH (i + 1) s1) as (s' & -> & Hid'); [lia | lia | done |].
  exists s'. split; [done|]. by replace (i + Z.of_nat (S n)) with (i + 1 + Z.of_nat n) by lia.
Qed.

Lemma identity_count n s :
  0 <= n <= 2 ^ 15 -> identity_to 0 s ->
  exists s', vmm_map_range pool 0 0 n (Z.lor PAGE_PRESENT PAGE_WRITE) s = Some s' /\ identity_to n s'.
Proof.
  intros Hn Hid. destruct (identity_range (Z.to_nat n) 0 s) as (s' & E & Hid'); [lia | lia | done |].
  exists s'. split; [exact E|]. by rewrite Z.add_0_l, Z2Nat.id in Hid' by lia.
Qed.

(** A fresh top-level table maps nothing. *)
Lemma identity_zero s c :
  alloc_ok s (<[c := 3%nat]> ∅) -> (forall i, 0 <= i < 512 -> entry (vmem s) c i = 0) -> static_pt_used s <= 1 ->
  identity_to 0 (mk_vmm (vmem s) (vpmm s) (static_pt_used s) c).
Proof.
  intros Hok Hz Hu. constructor; cbn [static_pt_used]; [| | exact Hu | lia].
  - exists (<[c := 3%nat]> ∅). split; [destruct Hok as [A1 A2 A3 A4 A5 A6]; by constructor|].
    assert (forall t n i, <[c := 3%nat]> (∅ : gmap Z nat) !! t = Some (S n) -> 0 <= i < 512 -> present (entry (vmem s) t i) <> true) as Hno.
    { intros t n i Ht Hi. apply lookup_insert_Some in Ht as [[<- _]|[_ Ht]]; [|done]. by rewrite Hz. }
    constructor; cbn [vmem current_pml4_phys].
    + apply lookup_insert_eq.
    + intros t n i Ht Hi Hp. by apply (Hno t n i Ht Hi) in Hp.
    + intros t n i t' n' i' Ht _ Hi _ Hp. by apply (Hno t n i Ht Hi) in Hp.
  - intros v. destruct (Z.ltb_spec (page_no v) 0) as [Hneg|_].
    { unfold page_no in Hneg. pose proof (Z.mod_pos_bound (v / 4096) (2 ^ 36)). lia. }
    unfold mapping. cbn [leaf vmem current_pml4_phys]. by rewrite Hz by apply table_idx_range.
Qed.

Lemma identity_translates n s v :
  identity_to n s -> 0 <= v < 2 ^ 48 ->
  vmm_virt_to_phys v s = if v <? n * 4096 then v else PMM_ALLOC_FAIL.
Proof.
  intros [_ Hm _ _] Hv. rewrite virt_to_phys_mapping, Hm.
  assert (page_no v = v / 4096) as -> by (unfold page_no; dlia).
  destruct (Z.ltb_spec (v / 4096) n), (Z.ltb_spec v (n * 4096)); [| dlia.. | done].
  destruct (leaf_entry_translates (v / 4096 * 4096) 3 v) as (_ & -> & ->); dlia.
Qed.

(** [vmm_init] with the number of pages left open. *)
Lemma identity_init n s :
  0 <= n <= 2 ^ 15 -> alloc_ok s ∅ -> static_pt_used s = 0 ->
  exists s', ('(pml4, s) ← alloc_table pool s;
    let s := mk_vmm (vmem s) (vpmm s) (static_pt_used s) pml4 in
    s ← vmm_map_range pool 0 0 n (Z.lor PAGE_PRESENT PAGE_WRITE) s;
    Some (vmm_switch_directory (current_pml4_phys s) s)) = Some s' /\ identity_to n s'.
Proof.
  intros Hn Ha Hu. pose proof (alloc_table_spec s ∅ Ha) as Hs.
  destruct (alloc_table pool s) as [[c s1]|]; [|unfold STATIC_PT_PAGES in Hs; lia]. cbn [mbind option_bind].
  destruct Hs as (Hok & _ & _ & _ & Hz & _ & _ & Hu1).
  pose proof (identity_zero s1 c (Hok 3%nat) Hz ltac:(lia)) as Hid.
  destruct (identity_count n _ Hn Hid) as (s3 & -> & Hid3). cbn [mbind option_bind].
  exists s3. split; [by destruct s3 | done].
Qed.

(** [vmm_init] always returns with an identity map of exactly the first
    64 MB: below, every address translates to itself; the rest of the 48-bit
    space is unmapped.  It takes at most 35 pages from the static pool, the 32
    page tables and one table of each higher level. *)
Theorem vmm_init_identity s :
  alloc_ok s ∅ -> static_pt_used s = 0 ->
  exists s', vmm_init pool s = Some s' /\ vmm_ok s' /\ static_pt_used s' <= 35 /\
    (forall v, 0 <= v < 64 * 1024 * 1024 -> vmm_virt_to_phys v s' = v) /\
    (forall v, 64 * 1024 * 1024 <= v < 2 ^ 48 -> vmm_virt_to_phys v s' = PMM_ALLOC_FAIL).
Proof.
  intros Ha Hu. destruct (identity_init IDENTITY_MAP_PAGES s ltac:(by vm_compute) Ha Hu) as (s3 & E & Hid3).
  exists s3. split; [exact E|]. split; [apply Hid3|]. split; [apply (id_used _ _ Hid3)|].
  change (64 * 1024 * 1024) with (IDENTITY_MAP_PAGES * 4096).
  split; intros v Hv; rewrite (identity_translates _ _ _ Hid3) by (change (IDENTITY_MAP_PAGES * 4096) with (2 ^ 26) in Hv; lia).
  - destruct (Z.ltb_spec v (IDENTITY_MAP_PAGES * 4096)); [done | lia].
  - destruct (Z.ltb_spec v (IDENTITY_MAP_PAGES * 4096)); [lia | done].
Qed.

End Invariant.

(** ** Concrete instance: an empty physical allocator and the static pool at 1 MB *)

Definition demo_pool : Z := 2 ^ 20.
Definition demo_vmm : vmm := mk_vmm (fun _ => 0) (mk_pmm (fun _ => 255) 0 0) 0 0.

Lemma demo_alloc_ok : alloc_ok demo_pool demo_vmm ∅.
Proof.
  constructor; cbn [vpmm static_pt_used vmem demo_vmm total_frames].
  - constructor; cbn [total_frames free_frames]; [unfold MAX_FRAMES; lia|].
    symmetry. apply free_count_zero. intros g _. apply all_used_test.
  - unfold STATIC_PT_PAGES. lia.
  - done.
  - intros. lia.
  - done.
  - done.
Qed.

Lemma demo_booted : exists s, vmm_ok demo_pool s /\ static_pt_used s <= 35.
Proof.
  destruct (identity_init demo_pool ltac:(done) ltac:(done) 16384 demo_vmm ltac:(lia) demo_alloc_ok eq_refl) as (s & _ & H).
  exists s. split; [apply (id_ok _ _ _ H) | apply (id_used _ _ _ H)].
Qed.

Lemma vmm_map_page_correct_witness :
  exists s s', vmm_map_page demo_pool 0x40000123 0x9000 3 s = Some s' /\ vmm_virt_to_phys 0x40000123 s' = 0x9123.
Proof.
  destruct demo_booted as (s & Hok & Hu).
  destruct (vmm_map_page_correct demo_pool ltac:(done) ltac:(done) 0x40000123 0x9000 3 s Hok ltac:(lia) ltac:(lia)) as [Hs H].
  destruct (Hs ltac:(unfold STATIC_PT_PAGES; lia)) as [s' E]. exists s, s'. split; [exact E|].
  exact (proj1 (proj2 (H s' E)) 0x40000123 eq_refl).
Defined.

Lemma vmm_unmap_page_correct_witness :
  exists s, vmm_ok demo_pool s /\ vmm_virt_to_phys 0x5000 (vmm_unmap_page 0x5000 s) = PMM_ALLOC_FAIL.
Proof.
  destruct demo_booted as (s & Hok & _). exists s. split; [exact Hok|].
  exact (proj1 (proj2 (vmm_unmap_page_correct demo_pool ltac:(done) 0x5000 s Hok)) 0x5000 eq_refl).
Defined.

Lemma virt_to_phys_keeps_nx_witness :
  exists s s', vmm_map_page demo_pool 0x5000 0x9000 PAGE_NX s = Some s' /\ vmm_virt_to_phys 0x5000 s' = 2 ^ 63 + 0x9000.
Proof.
  destruct demo_booted as (s & Hok & Hu).
  pose proof (map_page_spec demo_pool ltac:(done) ltac:(done) 0x5000 0x9000 PAGE_NX s Hok) as H.
  pose proof (missing_range 3 (vmem s) (current_pml4_phys s) 0x5000).
  destruct (vmm_map_page demo_pool 0x5000 0x9000 PAGE_NX s) as [s'|] eqn:E; [|unfold STATIC_PT_PAGES in H; lia].
  exists s, s'. split; [exact E|].
  exact (virt_to_phys_keeps_nx demo_pool ltac:(done) ltac:(done) 0x5000 0x9000 s s' Hok ltac:(lia) E).
Defined.

Lemma vmm_init_identity_witness :
  exists s', vmm_init demo_pool demo_vmm = Some s' /\ vmm_virt_to_phys 0xB8000 s' = 0xB8000.
Proof.
  destruct (vmm_init_identity demo_pool ltac:(done) ltac:(done) demo_vmm demo_alloc_ok eq_refl) as (s' & E & _ & _ & H & _).
  exists s'. split; [exact E | apply H; lia].
Defined.
