(* ===== verification/Disk.v ===== *)
(** The block device under the file system: the two entry points of the AHCI
    driver (kernel/ahci.h) the FAT32 driver calls, as an interface.  The
    driver itself is in Ahci.v, where its transfers are shown to do to port 0
    what the ramdisk below does; what kernel/fat32.c relies on is stated as the
    laws of the class. *)

From S2P Require Import Prelude Memory.
Local Open Scope Z_scope.

Definition SECTOR : Z := 512.

(** [bd_read port lba count d]: the bytes read, [None] for the result -1.
    [bd_write port lba count bytes d]: the device after the write. *)
Class BlockDev (D : Type) := {
  bd_read : Z -> Z -> Z -> D -> option mem;
  bd_write : Z -> Z -> Z -> mem -> D -> option D;
}.

(** [n] bytes of [b] placed at [a] of [m]. *)
Definition overlay (m : mem) (a n : Z) (b : mem) : mem :=
  fun x => if (a <=? x) && (x <? a + n) then b (x - a) else m x.

(** A transfer of at most 128 sectors inside the capacity succeeds, reads
    return what is stored, and writes store exactly the sectors named. *)
Class BlockDevSpec (D : Type) `{BlockDev D} := {
  bd_bytes : Z -> D -> mem;
  bd_capacity : Z -> D -> Z;
  bd_read_ok port lba count d :
    0 <= lba -> 0 < count <= 128 -> lba + count <= bd_capacity port d ->
    exists b, bd_read port lba count d = Some b /\
      forall i, 0 <= i < count * SECTOR -> b i = bd_bytes port d (lba * SECTOR + i);
  bd_write_ok port lba count b d :
    0 <= lba -> 0 < count <= 128 -> lba + count <= bd_capacity port d ->
    exists d', bd_write port lba count b d = Some d' /\
      bd_capacity port d' = bd_capacity port d /\
      forall x, bd_bytes port d' x = overlay (bd_bytes port d) (lba * SECTOR) (count * SECTOR) b x;
}.

Lemma overlay_outside m a n b x : ~ (a <= x < a + n) -> overlay m a n b x = m x.
Proof. intros Hx. unfold overlay. destruct (Z.leb_spec a x), (Z.ltb_spec x (a + n)); simpl; done || lia. Qed.

Lemma overlay_inside m a n b x : a <= x < a + n -> overlay m a n b x = b (x - a).
Proof. intros Hx. unfold overlay. destruct (Z.leb_spec a x), (Z.ltb_spec x (a + n)); simpl; done || lia. Qed.

(** A disk held in memory is a block device. *)
Record ramdisk := mk_ramdisk { rd_bytes : mem; rd_sectors : Z }.

Definition rd_in_range (lba count : Z) (d : ramdisk) : bool :=
  (0 <=? lba) && (0 <? count) && (count <=? 128) && (lba + count <=? rd_sectors d).

#[export] Instance ramdisk_dev : BlockDev ramdisk := {
  bd_read port lba count d :=
    if rd_in_range lba count d then Some (fun i => rd_bytes d (lba * SECTOR + i)) else None;
  bd_write port lba count b d :=
    if rd_in_range lba count d
    then Some (mk_ramdisk (overlay (rd_bytes d) (lba * SECTOR) (count * SECTOR) b) (rd_sectors d)) else None;
}.

Lemma rd_in_range_true lba count d :
  0 <= lba -> 0 < count <= 128 -> lba + count <= rd_sectors d -> rd_in_range lba count d = true.
Proof. intros. unfold rd_in_range. rewrite !andb_true_iff, !Z.leb_le, Z.ltb_lt. lia. Qed.

#[export] Instance ramdisk_spec : BlockDevSpec ramdisk.
Proof.
  refine {| bd_bytes := fun _ => rd_bytes; bd_capacity := fun _ => rd_sectors |}.
  - intros port lba count d H1 H2 H3. cbn. rewrite rd_in_range_true by done. by eexists.
  - intros port lba count b d H1 H2 H3. cbn. rewrite rd_in_range_true by done. by eexists.
Defined.
