(* ===== verification/Fat32.v ===== *)
(** The FAT32 driver (kernel/fat32.c) over a block device: mounting, the
    file allocation table, cluster chains, allocation, reading and writing
    files, the directory and long file names. *)

From S2P Require Import Prelude Memory Disk.
Local Open Scope Z_scope.

Definition FAT32_EOC_MIN : Z := 0x0FFFFFF8.
Definition FAT32_BAD : Z := 0x0FFFFFF7.
Definition FAT32_FREE : Z := 0.
Definition FAT_ATTR_VOLUME_ID : Z := 0x08.
Definition FAT_ATTR_ARCHIVE : Z := 0x20.
Definition FAT_ATTR_LFN : Z := 0x0F.

(** Offsets of [fat32_bpb_t] and [fat32_dir_entry_t], both packed. *)
Definition bpb_bytes_per_sector (b : mem) : Z := load16 b 0x0B.
Definition bpb_sectors_per_cluster (b : mem) : Z := load8 b 0x0D.
Definition bpb_reserved_sectors (b : mem) : Z := load16 b 0x0E.
Definition bpb_num_fats (b : mem) : Z := load8 b 0x10.
Definition bpb_root_entry_count (b : mem) : Z := load16 b 0x11.
Definition bpb_total_sectors_16 (b : mem) : Z := load16 b 0x13.
Definition bpb_fat_size_16 (b : mem) : Z := load16 b 0x16.
Definition bpb_total_sectors_32 (b : mem) : Z := load32 b 0x20.
Definition bpb_fat_size_32 (b : mem) : Z := load32 b 0x24.
Definition bpb_root_cluster (b : mem) : Z := load32 b 0x2C.

Definition DIR_ENTRY_SIZE : Z := 32.
Definition de_name (b : mem) (de i : Z) : Z := load8 b (de + i).
Definition de_ext (b : mem) (de i : Z) : Z := load8 b (de + 0x08 + i).
Definition de_attr (b : mem) (de : Z) : Z := load8 b (de + 0x0B).
Definition de_cluster_hi (b : mem) (de : Z) : Z := load16 b (de + 0x14).
Definition de_cluster_lo (b : mem) (de : Z) : Z := load16 b (de + 0x1A).
Definition de_file_size (b : mem) (de : Z) : Z := load32 b (de + 0x1C).

Definition to_upper (c : Z) : Z := if (97 <=? c) && (c <=? 122) then c - 32 else c.

(** [memcpy_k] between two arrays. *)
Definition memcpy_k (dst : mem) (d : Z) (src : mem) (s n : Z) : mem :=
  for_up (Z.to_nat n) 0 (fun i m => upd m (d + i) (src (s + i))) dst.

(** [memcmp_k(a, b, n) == 0]. *)
Fixpoint memcmp_loop (n : nat) (i : Z) (a b : mem) : Z :=
  match n with
  | O => 0
  | S n' => if a i =? b i then memcmp_loop n' (i + 1) a b else a i - b i
  end.
Definition memcmp_k (a b : mem) (n : Z) : Z := memcmp_loop (Z.to_nat n) 0 a b.

Section Fat32.
Context {D : Type} `{BlockDev D}.

(** The statics of fat32.c, the device below and the memory of the callers. *)
Record fat32 := mk_fat32 {
  dev : D;
  ram : mem;
  g_port : Z;
  g_part_lba : Z;
  g_fat_lba : Z;
  g_data_lba : Z;
  g_root_cluster : Z;
  g_spc : Z;
  g_ready : bool;
  g_num_fats : Z;
  g_fat_sectors : Z;
  g_total_clusters : Z;
  s_sector : mem;
  s_cluster_buf : mem;
}.

Definition set_dev (d : D) (s : fat32) : fat32 :=
  mk_fat32 d (ram s) (g_port s) (g_part_lba s) (g_fat_lba s) (g_data_lba s) (g_root_cluster s) (g_spc s) (g_ready s)
    (g_num_fats s) (g_fat_sectors s) (g_total_clusters s) (s_sector s) (s_cluster_buf s).
Definition set_ram (m : mem) (s : fat32) : fat32 :=
  mk_fat32 (dev s) m (g_port s) (g_part_lba s) (g_fat_lba s) (g_data_lba s) (g_root_cluster s) (g_spc s) (g_ready s)
    (g_num_fats s) (g_fat_sectors s) (g_total_clusters s) (s_sector s) (s_cluster_buf s).
Definition set_sector (b : mem) (s : fat32) : fat32 :=
  mk_fat32 (dev s) (ram s) (g_port s) (g_part_lba s) (g_fat_lba s) (g_data_lba s) (g_root_cluster s) (g_spc s) (g_ready s)
    (g_num_fats s) (g_fat_sectors s) (g_total_clusters s) b (s_cluster_buf s).
Definition set_cluster_buf (b : mem) (s : fat32) : fat32 :=
  mk_fat32 (dev s) (ram s) (g_port s) (g_part_lba s) (g_fat_lba s) (g_data_lba s) (g_root_cluster s) (g_spc s) (g_ready s)
    (g_num_fats s) (g_fat_sectors s) (g_total_clusters s) (s_sector s) b.

(** [read_sector(lba, s_sector)]: 0, or -1 with the buffer as it was. *)
Definition read_sector (lba : Z) (s : fat32) : Z * fat32 :=
  match bd_read (g_port s) lba 1 (dev s) with
  | Some b => (0, set_sector (overlay (s_sector s) 0 512 b) s)
  | None => (-1, s)
  end.

Definition write_sector (lba : Z) (s : fat32) : Z * fat32 :=
  match bd_write (g_port s) lba 1 (s_sector s) (dev s) with
  | Some d => (0, set_dev d s)
  | None => (-1, s)
  end.

(** [None]: the division by [g_spc = 0] traps. *)
Definition fat32_init (ahci_port partition_lba : Z) (s : fat32) : option (Z * fat32) :=
  let s := mk_fat32 (dev s) (ram s) ahci_port partition_lba (g_fat_lba s) (g_data_lba s) (g_root_cluster s) (g_spc s)
             false (g_num_fats s) (g_fat_sectors s) (g_total_clusters s) (s_sector s) (s_cluster_buf s) in
  let '(rc, s) := read_sector partition_lba s in
  if negb (rc =? 0) then Some (-1, s)
  else
    let b := s_sector s in
    if negb (bpb_bytes_per_sector b =? 512) then Some (-1, s)
    else if negb (bpb_root_entry_count b =? 0) || negb (bpb_fat_size_16 b =? 0) then Some (-1, s)
    else
      let spc := bpb_sectors_per_cluster b in
      let fat_lba := u32 (partition_lba + bpb_reserved_sectors b) in
      let fat_sectors := u32 (bpb_num_fats b * bpb_fat_size_32 b) in
      let data_lba := u32 (fat_lba + fat_sectors) in
      let total_sectors := if negb (bpb_total_sectors_16 b =? 0) then bpb_total_sectors_16 b else bpb_total_sectors_32 b in
      let data_sectors := u32 (total_sectors - u32 (bpb_reserved_sectors b + fat_sectors)) in
      if spc =? 0 then None
      else Some (0, mk_fat32 (dev s) (ram s) ahci_port partition_lba fat_lba data_lba (bpb_root_cluster b) spc true
                      (bpb_num_fats b) (bpb_fat_size_32 b) (data_sectors / spc) b (s_cluster_buf s)).

Definition cluster_lba (cluster : Z) (s : fat32) : Z :=
  u64 (g_data_lba s + u64 (u32 (cluster - 2) * g_spc s)).

(** Into [s_cluster_buf], the only buffer the driver itself passes. *)
Definition fat32_read_cluster (cluster : Z) (s : fat32) : Z * fat32 :=
  if negb (g_ready s) || (cluster <? 2) then (-1, s)
  else
    match bd_read (g_port s) (cluster_lba cluster s) (g_spc s) (dev s) with
    | Some b => (0, set_cluster_buf (overlay (s_cluster_buf s) 0 (g_spc s * 512) b) s)
    | None => (-1, s)
    end.

Definition fat_sector_lba (cluster : Z) (s : fat32) : Z := g_fat_lba s + cluster / 128.
Definition fat_entry_offset (cluster : Z) : Z := (cluster mod 128) * 4.

Definition fat32_next_cluster (cluster : Z) (s : fat32) : Z * fat32 :=
  if negb (g_ready s) then (0, s)
  else
    let '(rc, s) := read_sector (fat_sector_lba cluster s) s in
    if negb (rc =? 0) then (0, s)
    else (Z.land (load32 (s_sector s) (fat_entry_offset cluster)) 0x0FFFFFFF, s).

Definition fat32_read_fat_entry (cluster : Z) (s : fat32) : Z * fat32 :=
  if negb (g_ready s) || (cluster <? 2) then (FAT32_BAD, s)
  else
    let '(rc, s) := read_sector (fat_sector_lba cluster s) s in
    if negb (rc =? 0) then (FAT32_BAD, s)
    else (Z.land (load32 (s_sector s) (fat_entry_offset cluster)) 0x0FFFFFFF, s).

(** The loop over the copies of the FAT: 0, or -1 at the first failure. *)
Fixpoint write_fat_copies (n : nat) (f fat_sector_offset : Z) (s : fat32) : Z * fat32 :=
  match n with
  | O => (0, s)
  | S n' =>
      let '(rc, s) := write_sector (u64 (g_fat_lba s + f * g_fat_sectors s + fat_sector_offset)) s in
      if negb (rc =? 0) then (-1, s) else write_fat_copies n' (f + 1) fat_sector_offset s
  end.

Definition fat32_write_fat_entry (cluster value : Z) (s : fat32) : Z * fat32 :=
  if negb (g_ready s) || (cluster <? 2) then (-1, s)
  else if (g_num_fats s =? 0) || (g_fat_sectors s =? 0) then (-1, s)
  else
    let '(rc, s) := read_sector (fat_sector_lba cluster s) s in
    if negb (rc =? 0) then (-1, s)
    else
      let newval := Z.land value 0x0FFFFFFF in
      let s := set_sector (store32 (s_sector s) (fat_entry_offset cluster) newval) s in
      write_fat_copies (Z.to_nat (g_num_fats s)) 0 (cluster / 128) s.

(** Linking the run: entry [i] of [count] points to the next cluster. *)
Fixpoint link_run (n : nat) (i run_start count : Z) (s : fat32) : Z * fat32 :=
  match n with
  | O => (run_start, s)
  | S n' =>
      let cur := u32 (run_start + i) in
      let nxt := if u32 (i + 1) <? count then u32 (cur + 1) else FAT32_EOC_MIN in
      let '(rc, s) := fat32_write_fat_entry cur nxt s in
      if negb (rc =? 0) then (0, s) else link_run n' (i + 1) run_start count s
  end.

(** The scan over clusters [c], [c + 1], ... of the next [n]. *)
Fixpoint alloc_scan (n : nat) (c run_start run_len count : Z) (s : fat32) : Z * fat32 :=
  match n with
  | O => (0, s)
  | S n' =>
      let '(val, s) := fat32_read_fat_entry c s in
      if val =? FAT32_FREE then
        let run_start := if run_len =? 0 then c else run_start in
        let run_len := u32 (run_len + 1) in
        if run_len =? count then link_run (Z.to_nat count) 0 run_start count s
        else alloc_scan n' (c + 1) run_start run_len count s
      else alloc_scan n' (c + 1) run_start 0 count s
  end.

Definition fat32_alloc_contiguous (count : Z) (s : fat32) : Z * fat32 :=
  if negb (g_ready s) || (count =? 0) then (0, s)
  else if g_total_clusters s =? 0 then (0, s)
  else alloc_scan (Z.to_nat (u32 (g_total_clusters s + 1) - 1)) 2 0 0 count s.

Definition fat32_alloc_clusters (count : Z) (s : fat32) : Z * fat32 := fat32_alloc_contiguous count s.

(** The test of every chain loop. *)
Definition in_chain (cluster : Z) : bool := (2 <=? cluster) && (cluster <? FAT32_EOC_MIN).

(** [None] when the chain is longer than the fuel. *)
Fixpoint free_chain_loop (fuel : nat) (cluster : Z) (s : fat32) : option (Z * fat32) :=
  if in_chain cluster then
    match fuel with
    | O => None
    | S fuel' =>
        let '(nxt, s) := fat32_next_cluster cluster s in
        let '(rc, s) := fat32_write_fat_entry cluster FAT32_FREE s in
        if negb (rc =? 0) then Some (-1, s) else free_chain_loop fuel' nxt s
    end
  else Some (0, s).

Definition fat32_free_chain (fuel : nat) (first_cluster : Z) (s : fat32) : option (Z * fat32) :=
  if negb (g_ready s) || (first_cluster <? 2) then Some (-1, s) else free_chain_loop fuel first_cluster s.

Definition fat32_write_cluster (cluster : Z) (s : fat32) : Z * fat32 :=
  if negb (g_ready s) || (cluster <? 2) then (-1, s)
  else
    match bd_write (g_port s) (cluster_lba cluster s) (g_spc s) (s_cluster_buf s) (dev s) with
    | Some d => (0, set_dev d s)
    | None => (-1, s)
    end.

Definition fat32_clear_cluster (cluster : Z) (s : fat32) : Z * fat32 :=
  let bytes := u32 (g_spc s * 512) in
  fat32_write_cluster cluster (set_cluster_buf (fill (s_cluster_buf s) 0 bytes 0) s).

Fixpoint read_file_loop (fuel : nat) (cluster dst bytes_read max_bytes : Z) (s : fat32) : option (Z * fat32) :=
  if in_chain cluster then
    match fuel with
    | O => None
    | S fuel' =>
        let '(rc, s) := fat32_read_cluster cluster s in
        if negb (rc =? 0) then Some (-1, s)
        else
          let cluster_bytes := u32 (g_spc s * 512) in
          let to_copy := if max_bytes <? u32 (bytes_read + cluster_bytes) then u32 (max_bytes - bytes_read) else cluster_bytes in
          let s := set_ram (memcpy_k (ram s) (dst + bytes_read) (s_cluster_buf s) 0 to_copy) s in
          let bytes_read := u32 (bytes_read + to_copy) in
          if max_bytes <=? bytes_read then Some (s32 bytes_read, s)
          else
            let '(nxt, s) := fat32_next_cluster cluster s in
            read_file_loop fuel' nxt dst bytes_read max_bytes s
    end
  else Some (s32 bytes_read, s).

Definition fat32_read_file (fuel : nat) (first_cluster buf max_bytes : Z) (s : fat32) : option (Z * fat32) :=
  if negb (g_ready s) || (buf =? 0) || (max_bytes =? 0) then Some (-1, s)
  else read_file_loop fuel first_cluster buf 0 max_bytes s.

Fixpoint write_file_loop (fuel : nat) (cluster buf written size : Z) (s : fat32) : option (Z * fat32) :=
  let finish s := Some (if 0 <? written then s32 written else -1, s) in
  if in_chain cluster && (written <? size) then
    match fuel with
    | O => None
    | S fuel' =>
        let cluster_bytes := u32 (g_spc s * 512) in
        let chunk := u32 (size - written) in
        let chunk := if cluster_bytes <? chunk then cluster_bytes else chunk in
        let b := memcpy_k (s_cluster_buf s) 0 (ram s) (buf + written) chunk in
        let b := fill b chunk (cluster_bytes - chunk) 0 in
        let '(rc, s) := fat32_write_cluster cluster (set_cluster_buf b s) in
        if negb (rc =? 0) then Some (-1, s)
        else
          let written := u32 (written + chunk) in
          if size <=? written then Some (if 0 <? written then s32 written else -1, s)
          else
            let '(nxt, s) := fat32_next_cluster cluster s in
            write_file_loop fuel' nxt buf written size s
    end
  else finish s.

Definition fat32_write_file (fuel : nat) (first_cluster buf size : Z) (s : fat32) : option (Z * fat32) :=
  if negb (g_ready s) || (buf =? 0) || (size =? 0) then Some (-1, s)
  else write_file_loop fuel first_cluster buf 0 size s.

(** *** Directories *)

(** The 11 name characters of the entry at [de], in upper case. *)
Definition entry_name83 (b : mem) (de : Z) : mem :=
  fun j => to_upper (if j <? 8 then de_name b de j else de_ext b de (j - 8)).

Definition entry_cluster (b : mem) (de : Z) : Z := Z.lor (Z.shiftl (de_cluster_hi b de) 16) (de_cluster_lo b de).

(** What one pass over the entries of a cluster ends with. *)
Inductive dir_scan := Found (cluster size : Z) | EndOfDir | NextCluster.

Fixpoint find_scan (n : nat) (de : Z) (name83 : mem) (b : mem) : dir_scan :=
  match n with
  | O => NextCluster
  | S n' =>
      if de_name b de 0 =? 0x00 then EndOfDir
      else if de_name b de 0 =? 0xE5 then find_scan n' (de + DIR_ENTRY_SIZE) name83 b
      else if de_attr b de =? FAT_ATTR_LFN then find_scan n' (de + DIR_ENTRY_SIZE) name83 b
      else if negb (Z.land (de_attr b de) FAT_ATTR_VOLUME_ID =? 0) then find_scan n' (de + DIR_ENTRY_SIZE) name83 b
      else if memcmp_k (entry_name83 b de) name83 11 =? 0 then Found (entry_cluster b de) (de_file_size b de)
      else find_scan n' (de + DIR_ENTRY_SIZE) name83 b
  end.

Definition entries_in_cluster (s : fat32) : Z := g_spc s * 512 / DIR_ENTRY_SIZE.

(** The inner option is the result: [Some (cluster, size)] for 0, [None] for -1. *)
Fixpoint find_file_loop (fuel : nat) (cluster : Z) (name83 : mem) (s : fat32) : option (option (Z * Z) * fat32) :=
  if in_chain cluster then
    match fuel with
    | O => None
    | S fuel' =>
        let '(rc, s) := fat32_read_cluster cluster s in
        if negb (rc =? 0) then Some (None, s)
        else
          match find_scan (Z.to_nat (entries_in_cluster s)) 0 name83 (s_cluster_buf s) with
          | Found c sz => Some (Some (c, sz), s)
          | EndOfDir => Some (None, s)
          | NextCluster =>
              let '(nxt, s) := fat32_next_cluster cluster s in
              find_file_loop fuel' nxt name83 s
          end
    end
  else Some (None, s).

Definition fat32_find_file (fuel : nat) (dir_cluster : Z) (name83 : mem) (s : fat32) : option (option (Z * Z) * fat32) :=
  if negb (g_ready s) then Some (None, s) else find_file_loop fuel dir_cluster name83 s.

(** Zeroing the entry at [de] and filling it in. *)
Definition write_dir_entry (b : mem) (de : Z) (name83 : mem) (first_cluster size : Z) : mem :=
  let b := for_up 32 0 (fun j b => upd b (de + j) 0) b in
  let b := for_up 8 0 (fun j b => upd b (de + j) (name83 j)) b in
  let b := for_up 3 0 (fun j b => upd b (de + 0x08 + j) (name83 (8 + j))) b in
  let b := store8 b (de + 0x0B) FAT_ATTR_ARCHIVE in
  let b := store16 b (de + 0x1A) (u16 (Z.land first_cluster 0xFFFF)) in
  let b := store16 b (de + 0x14) (u16 (Z.shiftr first_cluster 16)) in
  store32 b (de + 0x1C) size.

(** Clearing [n] clusters from [c] on. *)
Fixpoint clear_clusters (n : nat) (c : Z) (s : fat32) : Z * fat32 :=
  match n with
  | O => (0, s)
  | S n' =>
      let '(rc, s) := fat32_clear_cluster c s in
      if negb (rc =? 0) then (-1, s) else clear_clusters n' (u32 (c + 1)) s
  end.

Definition free_slot (b : mem) (i : Z) : bool :=
  (de_name b (DIR_ENTRY_SIZE * i) 0 =? 0x00) || (de_name b (DIR_ENTRY_SIZE * i) 0 =? 0xE5).

(** The search for a free entry; [inr last] when the chain ends without one. *)
Fixpoint create_slot_loop (fuel : nat) (cluster last_cluster : Z) (name83 : mem) (first_cluster size : Z) (s : fat32) :
    option ((Z + Z) * fat32) :=
  if in_chain cluster then
    match fuel with
    | O => None
    | S fuel' =>
        let '(rc, s) := fat32_read_cluster cluster s in
        if negb (rc =? 0) then Some (inl (-1), s)
        else
          match find_up (Z.to_nat (entries_in_cluster s)) 0 (free_slot (s_cluster_buf s)) with
          | Some i =>
              let b := write_dir_entry (s_cluster_buf s) (DIR_ENTRY_SIZE * i) name83 first_cluster size in
              let '(rc, s) := fat32_write_cluster cluster (set_cluster_buf b s) in
              Some (inl (if negb (rc =? 0) then -1 else 0), s)
          | None =>
              let '(nxt, s) := fat32_next_cluster cluster s in
              create_slot_loop fuel' nxt cluster name83 first_cluster size s
          end
    end
  else Some (inr last_cluster, s).

(** Extending the directory by one cluster that holds the new entry first. *)
Definition create_extend (last_cluster : Z) (name83 : mem) (first_cluster size : Z) (s : fat32) : Z * fat32 :=
  let '(new_dir_cluster, s) := fat32_alloc_contiguous 1 s in
  if new_dir_cluster =? 0 then (-1, s)
  else
    let '(rc, s) := if 2 <=? last_cluster then fat32_write_fat_entry last_cluster new_dir_cluster s else (0, s) in
    if negb (rc =? 0) then (-1, s)
    else
      let '(rc, s) := fat32_clear_cluster new_dir_cluster s in
      if negb (rc =? 0) then (-1, s)
      else
        let s := set_cluster_buf (write_dir_entry (s_cluster_buf s) 0 name83 first_cluster size) s in
        let '(rc, s) := fat32_write_cluster new_dir_cluster s in
        (if negb (rc =? 0) then -1 else 0, s).

Definition needed_clusters (size : Z) (s : fat32) : Z :=
  let cluster_bytes := u32 (g_spc s * 512) in
  let n := u32 (size + cluster_bytes - 1) / cluster_bytes in
  if n =? 0 then 1 else n.

(** The result pairs the return code with [*out_first_cluster] (0: not set). *)
Definition fat32_create_file (fuel : nat) (dir_cluster : Z) (name83 : mem) (data size : Z) (s : fat32) :
    option ((Z * Z) * fat32) :=
  if negb (g_ready s) || (dir_cluster <? 2) then Some ((-1, 0), s)
  else
    let '(first_cluster, s) := fat32_alloc_contiguous (needed_clusters size s) s in
    if first_cluster =? 0 then Some ((-1, 0), s)
    else
      '(ok, s) ← (if negb (data =? 0) && (0 <? size) then
                    '(n, s) ← fat32_write_file fuel first_cluster data size s;
                    Some (n =? s32 size, s)
                  else
                    let '(rc, s) := clear_clusters (Z.to_nat (needed_clusters size s)) first_cluster s in
                    Some (rc =? 0, s));
      if negb ok then Some ((-1, 0), s)
      else
        '(r, s) ← create_slot_loop fuel dir_cluster 0 name83 first_cluster size s;
        match r with
        | inl rc => Some ((rc, if rc =? 0 then first_cluster else 0), s)
        | inr last_cluster =>
            let '(rc, s) := create_extend last_cluster name83 first_cluster size s in
            Some ((rc, if rc =? 0 then first_cluster else 0), s)
        end.

End Fat32.
Arguments fat32 D : clear implicits.

(** ** Long file names *)

Definition FAT32_MAX_LFN_CHARS : Z := 255.
Definition FAT32_LFN_ENTRY_CHARS : Z := 13.

Record lfn_state := mk_lfn { lfn_name : Z -> Z; seq_total : Z; in_use : bool }.

Definition lfn_reset (st : lfn_state) : lfn_state := mk_lfn (upd (lfn_name st) 0 0) 0 false.

(** The byte offsets of the 13 characters of an entry: three blocks. *)
Definition lfn_offsets : list Z :=
  flat_map (fun '(off, cnt) => map (fun i => off + 2 * i) (seqZ 0 cnt)) [(1, 5); (14, 6); (28, 2)].

(** The two nested loops of [lfn_add_entry], which stop at a terminator. *)
Fixpoint lfn_chars (offs : list Z) (raw : mem) (index_base : Z) (nm : Z -> Z) : Z -> Z :=
  match offs with
  | [] => nm
  | off :: r =>
      let u := Z.lor (load8 raw off) (Z.shiftl (load8 raw (off + 1)) 8) in
      if u =? 0 then (if index_base <? FAT32_MAX_LFN_CHARS then upd nm index_base 0 else nm)
      else if u =? 0xFFFF then nm
      else if FAT32_MAX_LFN_CHARS <=? index_base then nm
      else lfn_chars r raw (index_base + 1) (upd nm index_base (to_upper (Z.land u 0xFF)))
  end.

Definition lfn_add_entry (raw : mem) (st : lfn_state) : lfn_state :=
  let seq := load8 raw 0 in
  let ord := Z.land seq 0x1F in
  if (ord =? 0) || (20 <? ord) then mk_lfn (lfn_name st) (seq_total st) false
  else
    let start := negb (Z.land seq 0x40 =? 0) in
    if negb start && negb (in_use st) then st
    else
      let st := if start then mk_lfn (fill (lfn_name st) 0 (FAT32_MAX_LFN_CHARS + 1) 0) ord true else st in
      let index_base := (ord - 1) * FAT32_LFN_ENTRY_CHARS in
      if FAT32_MAX_LFN_CHARS <=? index_base then st
      else mk_lfn (lfn_chars lfn_offsets raw index_base (lfn_name st)) (seq_total st) (in_use st).

Definition lfn_finalize (st : lfn_state) : lfn_state :=
  if negb (in_use st) then st
  else
    let max_chars := if FAT32_MAX_LFN_CHARS <? seq_total st * FAT32_LFN_ENTRY_CHARS
                     then FAT32_MAX_LFN_CHARS else seq_total st * FAT32_LFN_ENTRY_CHARS in
    match find_up (Z.to_nat max_chars) 0 (fun i => lfn_name st i =? 0) with
    | Some _ => st
    | None => mk_lfn (upd (lfn_name st) max_chars 0) (seq_total st) (in_use st)
    end.

Fixpoint str_to_upper_loop (n : nat) (i : Z) (src dst : Z -> Z) : (Z -> Z) * Z :=
  match n with
  | O => (dst, i)
  | S n' => if src i =? 0 then (dst, i) else str_to_upper_loop n' (i + 1) src (upd dst i (to_upper (src i)))
  end.

Definition str_to_upper (src dst : Z -> Z) (dst_len : Z) : Z -> Z :=
  let '(d, i) := str_to_upper_loop (Z.to_nat (dst_len - 1)) 0 src dst in upd d i 0.

(** [None] when neither string ends within the fuel. *)
Fixpoint str_equals_ci (fuel : nat) (i : Z) (a b : Z -> Z) : option bool :=
  if (a i =? 0) && (b i =? 0) then Some true
  else if negb (to_upper (a i) =? to_upper (b i)) then Some false
  else match fuel with O => None | S fuel' => str_equals_ci fuel' (i + 1) a b end.

(** The loop of [build_name83] over the characters from [src] on. *)
Fixpoint name83_loop (fuel : nat) (name : Z -> Z) (src : Z) (out : Z -> Z) (i_name i_ext : Z) (in_ext : bool) :
    option ((Z -> Z) * Z) :=
  let c := name src in
  if c =? 0 then Some (out, i_name)
  else
    match fuel with
    | O => None
    | S fuel' =>
        let go := name83_loop fuel' name (src + 1) in
        if c =? 46 then go out i_name i_ext true
        else if c =? 32 then go out i_name i_ext in_ext
        else if negb in_ext then
          (if 8 <=? i_name then go out i_name i_ext in_ext
           else go (upd out i_name (to_upper c)) (i_name + 1) i_ext in_ext)
        else
          (if 11 <=? i_ext then go out i_name i_ext in_ext
           else go (upd out i_ext (to_upper c)) i_name (i_ext + 1) in_ext)
    end.

Definition build_name83 (fuel : nat) (name out : Z -> Z) : option (bool * (Z -> Z)) :=
  '(o, i_name) ← name83_loop fuel name 0 (fill out 0 11 32) 0 8 false;
  Some (0 <? i_name, o).

Section FindLfn.
Context {D : Type} `{BlockDev D}.

(** One short entry of [fat32_find_file_lfn]: whether it matches, by the long
    name collected before it or by its 8.3 name. *)
Definition lfn_match (lfn : lfn_state) (target_up name83 : Z -> Z) (have_name83 : bool) (b : mem) (de : Z) : option bool :=
  m ← (if in_use lfn then str_equals_ci 256 0 (lfn_name lfn) target_up else Some false);
  Some (m || (have_name83 && (memcmp_k (entry_name83 b de) name83 11 =? 0))).

Fixpoint lfn_scan (n : nat) (de : Z) (lfn : lfn_state) (target_up name83 : Z -> Z) (have_name83 : bool) (b : mem) :
    option (dir_scan * lfn_state) :=
  match n with
  | O => Some (NextCluster, lfn)
  | S n' =>
      let next lfn := lfn_scan n' (de + DIR_ENTRY_SIZE) lfn target_up name83 have_name83 b in
      if de_name b de 0 =? 0x00 then Some (EndOfDir, lfn)
      else if de_name b de 0 =? 0xE5 then next (lfn_reset lfn)
      else if de_attr b de =? FAT_ATTR_LFN then next (lfn_add_entry (fun i => b (de + i)) lfn)
      else if negb (Z.land (de_attr b de) FAT_ATTR_VOLUME_ID =? 0) then next (lfn_reset lfn)
      else
        let lfn := lfn_finalize lfn in
        m ← lfn_match lfn target_up name83 have_name83 b de;
        if (m : bool) then Some (Found (entry_cluster b de) (de_file_size b de), lfn)
        else next (lfn_reset lfn)
  end.

Fixpoint find_lfn_loop (fuel : nat) (cluster : Z) (lfn : lfn_state) (target_up name83 : Z -> Z) (have_name83 : bool)
    (s : fat32 D) : option (option (Z * Z) * fat32 D) :=
  if in_chain cluster then
    match fuel with
    | O => None
    | S fuel' =>
        let '(rc, s) := fat32_read_cluster cluster s in
        if negb (rc =? 0) then Some (None, s)
        else
          '(r, lfn) ← lfn_scan (Z.to_nat (entries_in_cluster s)) 0 lfn target_up name83 have_name83 (s_cluster_buf s);
          match r with
          | Found c sz => Some (Some (c, sz), s)
          | EndOfDir => Some (None, s)
          | NextCluster =>
              let '(nxt, s) := fat32_next_cluster cluster s in
              find_lfn_loop fuel' nxt lfn target_up name83 have_name83 s
          end
    end
  else Some (None, s).

(** The arrays the function declares start with arbitrary contents. *)
Definition fat32_find_file_lfn (fuel : nat) (stack_name stack_target stack_83 : Z -> Z)
    (dir_cluster : Z) (name : Z -> Z) (s : fat32 D) : option (option (Z * Z) * fat32 D) :=
  if negb (g_ready s) || (dir_cluster <? 2) then Some (None, s)
  else
    let target_up := str_to_upper name stack_target 256 in
    '(have_name83, name83) ← build_name83 256 target_up stack_83;
    find_lfn_loop fuel dir_cluster (lfn_reset (mk_lfn stack_name 0 false)) target_up name83 have_name83 s.

End FindLfn.
