(* ===== verification/Fat32Spec.v ===== *)
(** Correctness of the FAT32 driver of Fat32.v over any block device that
    obeys the laws of Disk.v: the allocation table, allocation, cluster
    chains, files and directories. *)

From S2P Require Import Prelude Memory Disk Fat32.
Local Open Scope Z_scope.

Section Volume.
Context {D : Type} {BD : BlockDev D} {BS : BlockDevSpec D}.
Implicit Type s : fat32 D.

(** ** The volume on the disk *)

Definition disk s : mem := bd_bytes (g_port s) (dev s).

(** The geometry a mounted volume has; every sector of it can be transferred. *)
Record vol_ok s : Prop := {
  v_ready : g_ready s = true;
  v_spc : 1 <= g_spc s <= 128;
  v_fats : 1 <= g_num_fats s <= 255;
  v_fat_sectors : 1 <= g_fat_sectors s;
  v_fat_lba : 0 <= g_fat_lba s;
  v_data_lba : g_data_lba s = g_fat_lba s + g_num_fats s * g_fat_sectors s;
  v_total : 1 <= g_total_clusters s <= FAT32_BAD - 2;
  v_fat_size : (g_total_clusters s + 2) * 4 <= g_fat_sectors s * 512;
  v_lba32 : g_data_lba s + g_total_clusters s * g_spc s < 2 ^ 32;
  v_capacity : g_data_lba s + g_total_clusters s * g_spc s <= bd_capacity (g_port s) (dev s);
}.

Definition valid s (c : Z) : Prop := 2 <= c < g_total_clusters s + 2.

Definition geometry s :=
  (g_port s, g_fat_lba s, g_data_lba s, g_spc s, g_ready s, g_num_fats s, g_fat_sectors s, g_total_clusters s,
   bd_capacity (g_port s) (dev s)).

Lemma vol_ok_geometry s s' : geometry s' = geometry s -> vol_ok s -> vol_ok s'.
Proof.
  unfold geometry. intros [= E1 E2 E3 E4 E5 E6 E7 E8 E9] [V1 V2 V3 V4 V5 V6 V7 V8 V9 V10].
  constructor; congruence || (rewrite ?E1, ?E2, ?E3, ?E4, ?E5, ?E6, ?E7, ?E8, ?E9; assumption).
Qed.

Lemma geometry_valid s s' c : geometry s' = geometry s -> valid s' c <-> valid s c.
Proof. unfold geometry, valid. by intros [= _ _ _ _ _ _ _ -> _]. Qed.

(** The address of an entry in copy [f] of the table, and the entry. *)
Definition fat_addr s (f c : Z) : Z := (g_fat_lba s + f * g_fat_sectors s) * 512 + 4 * c.
Definition fat s (c : Z) : Z := Z.land (load32 (disk s) (fat_addr s 0 c)) 0x0FFFFFFF.

(** Byte [i] of cluster [c]. *)
Definition cluster_bytes s : Z := g_spc s * 512.
Definition cluster_addr s (c : Z) : Z := (g_data_lba s + (c - 2) * g_spc s) * 512.
Definition cdata s (c i : Z) : Z := disk s (cluster_addr s c + i).

Lemma cluster_lba_eq s c : vol_ok s -> valid s c -> cluster_lba c s = g_data_lba s + (c - 2) * g_spc s.
Proof.
  intros [V1 V2 V3 V4 V5 V6 V7 V8 V9 V10] Hc. unfold cluster_lba, valid, FAT32_BAD in *.
  rewrite (u32_small (c - 2)) by lia.
  assert (0 <= (c - 2) * g_spc s <= g_total_clusters s * g_spc s) as Hp by (clear - V2 V7 Hc; nia).
  assert (0 <= g_num_fats s * g_fat_sectors s) as Hf by (clear - V3 V4; nia).
  revert Hp. generalize ((c - 2) * g_spc s). intros p Hp.
  rewrite (u64_small p) by lia. apply u64_small. lia.
Qed.

Lemma cluster_in_range s c :
  vol_ok s -> valid s c ->
  0 <= g_data_lba s + (c - 2) * g_spc s /\
  g_data_lba s + (c - 2) * g_spc s + g_spc s <= bd_capacity (g_port s) (dev s).
Proof. intros [V1 V2 V3 V4 V5 V6 V7 V8 V9 V10] Hc. unfold valid in *. split; nia. Qed.

Lemma fat_sector_in_range s f c :
  vol_ok s -> 0 <= c < g_total_clusters s + 2 -> 0 <= f < g_num_fats s ->
  0 <= g_fat_lba s + f * g_fat_sectors s + c / 128 /\
  c / 128 < g_fat_sectors s /\
  g_fat_lba s + f * g_fat_sectors s + c / 128 < g_data_lba s /\
  g_data_lba s <= bd_capacity (g_port s) (dev s) /\ g_data_lba s < 2 ^ 32.
Proof.
  intros [V1 V2 V3 V4 V5 V6 V7 V8 V9 V10] Hc Hf. assert (0 <= c / 128 < g_fat_sectors s) by dlia.
  assert (0 <= f * g_fat_sectors s) by nia. assert ((f + 1) * g_fat_sectors s <= g_num_fats s * g_fat_sectors s) by nia.
  assert (0 <= g_total_clusters s * g_spc s) by nia. lia.
Qed.

(** A loaded 32-bit word only depends on its four bytes. *)
Lemma load32_shift m m' a a' :
  (forall i, 0 <= i < 4 -> m (a + i) = m' (a' + i)) -> load32 m a = load32 m' a'.
Proof.
  intros E. unfold load32. cbn [load_le].
  replace (m a) with (m' a') by (rewrite <- (Z.add_0_r a'), <- E by lia; f_equal; lia).
  replace (a + 1 + 1) with (a + 2) by lia. replace (a + 2 + 1) with (a + 3) by lia.
  replace (a' + 1 + 1) with (a' + 2) by lia. replace (a' + 2 + 1) with (a' + 3) by lia.
  rewrite !E by lia. done.
Qed.

(** ** Reading the table *)

Lemma read_sector_ok s lba :
  vol_ok s -> 0 <= lba < g_data_lba s ->
  exists b, read_sector lba s = (0, set_sector b s) /\ forall i, 0 <= i < 512 -> b i = disk s (lba * 512 + i).
Proof.
  intros V Hl. unfold read_sector.
  destruct (bd_read_ok (g_port s) lba 1 (dev s)) as (b & -> & Hb); [lia | lia | |].
  { destruct V. nia. }
  eexists. split; [done|]. intros i Hi. rewrite overlay_inside by lia. rewrite Z.sub_0_r. apply Hb. unfold SECTOR. lia.
Qed.

Lemma fat_word_ok s c b :
  (forall i, 0 <= i < 512 -> b i = disk s (fat_sector_lba c s * 512 + i)) -> 0 <= c ->
  load32 b (fat_entry_offset c) = load32 (disk s) (fat_addr s 0 c).
Proof.
  intros Hb Hc. apply load32_shift. intros i Hi. unfold fat_entry_offset, fat_addr, fat_sector_lba in *.
  rewrite Hb by dlia. f_equal. dlia.
Qed.

Lemma read_fat_entry_ok s c :
  vol_ok s -> valid s c -> exists b, fat32_read_fat_entry c s = (fat s c, set_sector b s).
Proof.
  intros V Hc. unfold fat32_read_fat_entry. rewrite (v_ready _ V). unfold valid in Hc.
  destruct (Z.ltb_spec c 2); [lia|]. cbn [negb orb].
  destruct (fat_sector_in_range s 0 c V ltac:(lia) ltac:(destruct V; lia)) as (H1 & _ & H2 & _).
  destruct (read_sector_ok s (fat_sector_lba c s) V) as (b & -> & Hb); [unfold fat_sector_lba; lia|].
  cbn [Z.eqb negb s_sector set_sector]. exists b. by rewrite (fat_word_ok s) by (done || lia).
Qed.

Lemma next_cluster_ok s c :
  vol_ok s -> valid s c -> exists b, fat32_next_cluster c s = (fat s c, set_sector b s).
Proof.
  intros V Hc. unfold fat32_next_cluster. rewrite (v_ready _ V). unfold valid in Hc. cbn [negb].
  destruct (fat_sector_in_range s 0 c V ltac:(lia) ltac:(destruct V; lia)) as (H1 & _ & H2 & _).
  destruct (read_sector_ok s (fat_sector_lba c s) V) as (b & -> & Hb); [unfold fat_sector_lba; lia|].
  cbn [Z.eqb negb s_sector set_sector]. exists b. by rewrite (fat_word_ok s) by (done || lia).
Qed.

(** ** Writing the table *)

(** What a driver step that only touches the table leaves alone. *)
Record frame s s' : Prop := {
  fr_geo : geometry s' = geometry s;
  fr_root : g_root_cluster s' = g_root_cluster s;
  fr_ram : ram s' = ram s;
}.

#[export] Instance frame_refl : Reflexive frame.
Proof. done. Qed.
#[export] Instance frame_trans : Transitive frame.
Proof. intros s s' s'' [E1 E2 E3] [F1 F2 F3]. constructor; congruence. Qed.

Lemma frame_sector s b : frame s (set_sector b s).
Proof. done. Qed.

Lemma frame_ok s s' : frame s s' -> vol_ok s -> vol_ok s'.
Proof. intros [E _ _]. by apply vol_ok_geometry. Qed.

Lemma frame_valid s s' c : frame s s' -> valid s' c <-> valid s c.
Proof. intros [E _ _]. by apply geometry_valid. Qed.

Lemma frame_addr s s' f c : frame s s' -> fat_addr s' f c = fat_addr s f c.
Proof. intros [E _ _]. unfold fat_addr. injection E as _ -> _ _ _ _ -> _ _. done. Qed.

Lemma frame_cluster_addr s s' c : frame s s' -> cluster_addr s' c = cluster_addr s c.
Proof. intros [E _ _]. unfold cluster_addr. injection E as _ _ -> -> _ _ _ _ _. done. Qed.

Lemma write_sector_ok s lba :
  vol_ok s -> 0 <= lba < g_data_lba s ->
  exists s', write_sector lba s = (0, s') /\ frame s s' /\ s_sector s' = s_sector s /\
    forall x, disk s' x = overlay (disk s) (lba * 512) 512 (s_sector s) x.
Proof.
  intros V Hl. unfold write_sector.
  destruct (bd_write_ok (g_port s) lba 1 (s_sector s) (dev s)) as (d & -> & Hc & Hd); [lia | lia | |].
  { destruct V. nia. }
  eexists. split; [done|]. split; [|done]. constructor; try done. unfold geometry. cbn. by rewrite Hc.
Qed.

(** The first byte of sector [k] of copy [f]. *)
Definition copy_addr s (f k : Z) : Z := (g_fat_lba s + f * g_fat_sectors s + k) * 512.

Lemma frame_copy_addr s s' f k : frame s s' -> copy_addr s' f k = copy_addr s f k.
Proof. intros [E _ _]. unfold copy_addr. injection E as _ -> _ _ _ _ -> _ _. done. Qed.

Lemma copy_lba_range s f k :
  vol_ok s -> 0 <= f < g_num_fats s -> 0 <= k < g_fat_sectors s ->
  0 <= g_fat_lba s + f * g_fat_sectors s + k < g_data_lba s /\ g_data_lba s < 2 ^ 32.
Proof.
  intros [V1 V2 V3 V4 V5 V6 V7 V8 V9 V10] Hf Hk. clear V8 V10.
  assert (0 <= f * g_fat_sectors s) by nia. assert ((f + 1) * g_fat_sectors s <= g_num_fats s * g_fat_sectors s) by nia.
  assert (0 <= g_total_clusters s * g_spc s) by nia. lia.
Qed.

Lemma copies_apart s f f' k i :
  vol_ok s -> 0 <= k < g_fat_sectors s -> f <> f' -> 0 <= i < 512 ->
  ~ (copy_addr s f' k <= copy_addr s f k + i < copy_addr s f' k + 512).
Proof.
  intros V Hk Hne Hi. unfold copy_addr. assert (1 <= g_fat_sectors s) by apply V.
  assert (f * g_fat_sectors s + g_fat_sectors s <= f' * g_fat_sectors s \/
          f' * g_fat_sectors s + g_fat_sectors s <= f * g_fat_sectors s) by nia.
  lia.
Qed.

Lemma write_fat_copies_ok n f k s :
  vol_ok s -> 0 <= f -> f + Z.of_nat n <= g_num_fats s -> 0 <= k < g_fat_sectors s ->
  exists s', write_fat_copies n f k s = (0, s') /\ frame s s' /\
    (forall f' i, f <= f' < f + Z.of_nat n -> 0 <= i < 512 -> disk s' (copy_addr s f' k + i) = s_sector s i) /\
    (forall x, (forall f', f <= f' < f + Z.of_nat n -> ~ (copy_addr s f' k <= x < copy_addr s f' k + 512)) ->
       disk s' x = disk s x).
Proof.
  revert f s. induction n as [|n IH]; intros f s V Hf Hn Hk; cbn [write_fat_copies].
  { exists s. split_and!; try done. intros. lia. }
  destruct (copy_lba_range s f k V ltac:(lia) Hk) as [Hl1 Hl2]. rewrite u64_small by lia.
  destruct (write_sector_ok s (g_fat_lba s + f * g_fat_sectors s + k) V Hl1) as (s1 & -> & F1 & Eb & Hd1).
  fold (copy_addr s f k) in Hd1. cbn [Z.eqb negb].
  pose proof (frame_ok _ _ F1 V) as V1.
  assert (g_num_fats s1 = g_num_fats s /\ g_fat_sectors s1 = g_fat_sectors s) as [En Es]
    by (destruct F1 as [E _ _]; injection E; auto).
  destruct (IH (f + 1) s1 V1) as (s' & -> & F2 & Hin & Hout); [lia | lia | lia |].
  exists s'. split; [done|]. split; [by etrans|]. split.
  - intros f' i Hf' Hi. destruct (decide (f' = f)) as [->|Hne].
    + rewrite Hout; [|intros f2 Hf2; rewrite (frame_copy_addr _ _ _ _ F1); by apply copies_apart; try lia].
      rewrite Hd1, overlay_inside by lia. f_equal. lia.
    + rewrite <- (frame_copy_addr _ _ _ _ F1), Hin, Eb by lia. done.
  - intros x Hx. rewrite Hout.
    + rewrite Hd1. apply overlay_outside. apply Hx. lia.
    + intros f' Hf'. rewrite (frame_copy_addr _ _ _ _ F1). apply Hx. lia.
Qed.

(** A step that changes the disk only inside the copies of the table. *)
Record table_step s s' : Prop := {
  ts_frame : frame s s';
  ts_data : forall x, x < g_fat_lba s * 512 \/ g_data_lba s * 512 <= x -> disk s' x = disk s x;
}.

#[export] Instance table_step_refl : Reflexive table_step.
Proof. intros s. by constructor. Qed.
#[export] Instance table_step_trans : Transitive table_step.
Proof.
  intros s s' s'' [F D1] [F' D2]. constructor; [by etrans|]. intros x Hx. rewrite <- D1 by done. apply D2.
  destruct F as [E _ _]. injection E as _ -> -> _ _ _ _ _ _. done.
Qed.

Lemma table_step_sector s b : table_step s (set_sector b s).
Proof. by constructor. Qed.

Lemma table_step_cdata s s' c i :
  table_step s s' -> vol_ok s -> valid s c -> 0 <= i -> cdata s' c i = cdata s c i.
Proof.
  intros [F Hd] V Hc Hi. unfold cdata. rewrite (frame_cluster_addr _ _ _ F). apply Hd. right.
  unfold cluster_addr. destruct (cluster_in_range s c V Hc). destruct V, Hc. nia.
Qed.

(** The copies of the table agree. *)
Definition fat_word s (f c : Z) : Z := load32 (disk s) (fat_addr s f c).
Definition mirrored s : Prop :=
  forall f c, 0 <= f < g_num_fats s -> 0 <= c < g_total_clusters s + 2 -> fat_word s f c = fat_word s 0 c.

Lemma fat_addr_copy s f c : 0 <= c -> fat_addr s f c = copy_addr s f (c / 128) + (c mod 128) * 4.
Proof. intros. unfold fat_addr, copy_addr. dlia. Qed.

Lemma frame_fields s s' :
  frame s s' -> g_num_fats s' = g_num_fats s /\ g_fat_sectors s' = g_fat_sectors s /\
  g_total_clusters s' = g_total_clusters s /\ g_spc s' = g_spc s /\ g_ready s' = g_ready s.
Proof. intros [E _ _]. injection E. auto. Qed.

Lemma write_fat_entry_ok s c v :
  vol_ok s -> valid s c ->
  exists s', fat32_write_fat_entry c v s = (0, s') /\ table_step s s' /\
    forall f c', 0 <= f < g_num_fats s -> 0 <= c' < g_total_clusters s + 2 ->
      fat_word s' f c' = if c' =? c then Z.land v 0x0FFFFFFF
                      else fat_word s (if c' / 128 =? c / 128 then 0 else f) c'.
Proof.
  intros V Hc. unfold fat32_write_fat_entry. rewrite (v_ready _ V). pose proof Hc as [Hc1 Hc2].
  assert (1 <= g_num_fats s /\ 1 <= g_fat_sectors s) as [Hn Hs] by (split; apply V).
  destruct (Z.ltb_spec c 2); [lia|]. destruct (Z.eqb_spec (g_num_fats s) 0); [lia|].
  destruct (Z.eqb_spec (g_fat_sectors s) 0); [lia|]. cbn [negb orb].
  destruct (fat_sector_in_range s 0 c V ltac:(lia) ltac:(lia)) as (L1 & L2 & L3 & L4 & L5).
  destruct (read_sector_ok s (fat_sector_lba c s) V) as (b & -> & Hb); [unfold fat_sector_lba; lia|].
  cbn [Z.eqb negb s_sector set_sector].
  set (s1 := set_sector _ (set_sector b s)).
  assert (frame s s1) as F1 by done. pose proof (frame_ok _ _ F1 V) as V1.
  assert (0 <= c / 128) by dlia.
  destruct (write_fat_copies_ok (Z.to_nat (g_num_fats s)) 0 (c / 128) s1 V1)
    as (s' & E & F2 & Hin & Hout); [lia | cbn; lia | cbn; lia |].
  change (g_num_fats s1) with (g_num_fats s). rewrite E. exists s'. split; [done|].
  assert (frame s s') as F by (by etrans). split.
  { constructor; [done|]. intros x Hx. rewrite Hout; [done|]. intros f' Hf'.
    destruct (copy_lba_range s f' (c / 128) V ltac:(lia) ltac:(lia)) as [? ?].
    change (copy_addr s1 f' (c / 128)) with (copy_addr s f' (c / 128)). unfold copy_addr.
    assert (0 <= f' * g_fat_sectors s) by nia. lia. }
  intros f c' Hf Hc'. unfold fat_word. rewrite (frame_addr _ _ _ _ F).
  rewrite fat_addr_copy by lia.
  destruct (Z.eqb_spec (c' / 128) (c / 128)) as [Eq|Hne].
  - rewrite (load32_shift _ (s_sector s1) _ (c' mod 128 * 4)).
    2:{ intros i Hi. rewrite Eq, <- Z.add_assoc. change (copy_addr s f (c / 128)) with (copy_addr s1 f (c / 128)).
        rewrite Hin by dlia. f_equal. }
    cbn [s1 s_sector set_sector]. unfold fat_entry_offset. destruct (Z.eqb_spec c' c) as [->|Hne].
    + rewrite load32_store32. apply u32_small. change 0x0FFFFFFF with (2 ^ 28 - 1). rewrite land_ones_mod by lia.
      pose proof (Z.mod_pos_bound v (2 ^ 28) ltac:(lia)). lia.
    + assert (c' mod 128 <> c mod 128) by (intros ?; apply Hne; dlia).
      unfold load32, store32. rewrite load_le_store_other by lia.
      fold load32. rewrite <- (fat_word_ok s c' b) by (done || unfold fat_sector_lba in *; rewrite ?Eq; done || lia).
      done.
  - destruct (Z.eqb_spec c' c) as [->|_]; [done|].
    apply load32_shift. intros i Hi. rewrite Hout; [by rewrite fat_addr_copy by lia|].
    intros f' Hf'. change (copy_addr s1 f' (c / 128)) with (copy_addr s f' (c / 128)). unfold copy_addr.
    destruct (fat_sector_in_range s 0 c' V Hc' ltac:(lia)) as (_ & L6 & _). assert (0 <= c' / 128) by dlia.
    assert (f = f' \/ f + 1 <= f' \/ f' + 1 <= f) as [->|Hff] by lia; [dlia|].
    assert (f * g_fat_sectors s + g_fat_sectors s <= f' * g_fat_sectors s \/
            f' * g_fat_sectors s + g_fat_sectors s <= f * g_fat_sectors s) as Hsep by nia.
    clear - Hsep L6 L2 H1 H0 Hne Hi. assert (0 <= c' mod 128 < 128) by (apply Z.mod_pos_bound; lia). lia.
Qed.

(** [s'] holds the table [g], and nothing else changed. *)
Record table_to s s' (g : Z -> Z) : Prop := {
  tt_step : table_step s s';
  tt_fat : forall c, valid s c -> fat s' c = g c;
  tt_mirrored : mirrored s -> mirrored s';
}.

Lemma table_to_refl s : table_to s s (fat s).
Proof. by constructor. Qed.

Lemma table_to_sector s b : table_to s (set_sector b s) (fat s).
Proof. by constructor. Qed.

Lemma table_to_ext s s' g g' : (forall c, valid s c -> g c = g' c) -> table_to s s' g -> table_to s s' g'.
Proof. intros E [H1 H2 H3]. constructor; [done | | done]. intros c Hc. by rewrite H2, E. Qed.

Lemma table_to_trans s s1 s2 g1 g2 : table_to s s1 g1 -> table_to s1 s2 g2 -> table_to s s2 g2.
Proof.
  intros [S1 T1 M1] [S2 T2 M2]. constructor; [by etrans | | auto].
  intros c Hc. apply T2. by rewrite (frame_valid _ _ _ (ts_frame _ _ S1)).
Qed.

Lemma table_to_ok s s' g : table_to s s' g -> vol_ok s -> vol_ok s'.
Proof. intros [[F _] _ _]. by apply frame_ok. Qed.

Lemma table_to_valid s s' g c : table_to s s' g -> valid s' c <-> valid s c.
Proof. intros [[F _] _ _]. by apply frame_valid. Qed.

Lemma entry_value v : 0 <= v < 2 ^ 28 -> Z.land v 0x0FFFFFFF = v.
Proof. intros. change 0x0FFFFFFF with (2 ^ 28 - 1). rewrite land_ones_mod by lia. by apply Z.mod_small. Qed.

Lemma fat_range s c : 0 <= fat s c < 2 ^ 28.
Proof.
  unfold fat. change 0x0FFFFFFF with (2 ^ 28 - 1). rewrite land_ones_mod by lia. apply Z.mod_pos_bound. lia.
Qed.

Lemma set_entry_ok s c v :
  vol_ok s -> valid s c -> 0 <= v < 2 ^ 28 ->
  exists s', fat32_write_fat_entry c v s = (0, s') /\ table_to s s' (fun c' => if c' =? c then v else fat s c').
Proof.
  intros V Hc Hv. destruct (write_fat_entry_ok s c v V Hc) as (s' & E & S & Hent). exists s'. split; [done|].
  rewrite (entry_value v Hv) in Hent. pose proof (frame_fields _ _ (ts_frame _ _ S)) as (En & _ & Et & _).
  assert (1 <= g_num_fats s) by apply V.
  constructor; [done | |].
  - intros c' [H1 H2]. unfold fat. fold (fat_word s' 0 c') (fat_word s 0 c'). rewrite Hent by lia.
    destruct (c' =? c); [by apply entry_value|]. by destruct (_ =? _).
  - intros M f c' Hf Hc'. rewrite En in Hf. rewrite Et in Hc'. rewrite !Hent by lia.
    destruct (c' =? c); [done|]. destruct (c' / 128 =? c / 128); [done|]. by apply M.
Qed.

Lemma vol_ok_sector s b : vol_ok s -> vol_ok (set_sector b s).
Proof. by apply frame_ok. Qed.
Hint Resolve vol_ok_sector : core.

Lemma table_to_from_sector s b s' g : table_to (set_sector b s) s' g -> table_to s s' g.
Proof. apply table_to_trans with (g1 := fat s). apply table_to_sector. Qed.
Hint Resolve table_to_from_sector : core.

(** ** Allocation *)

(** The table after the run [r .. r + n) has been linked from cluster [a] on. *)
Definition linked (g : Z -> Z) (a r n : Z) : Z -> Z :=
  fun c => if (a <=? c) && (c <? r + n) then (if c + 1 <? r + n then c + 1 else FAT32_EOC_MIN) else g c.

Lemma link_run_ok k i r n s :
  vol_ok s -> 2 <= r -> 0 <= i -> i + Z.of_nat k = n -> r + n <= g_total_clusters s + 2 ->
  exists s', link_run k i r n s = (r, s') /\ table_to s s' (linked (fat s) (r + i) r n).
Proof.
  revert i s. induction k as [|k IH]; intros i s V Hr Hi Hn Ht; cbn [link_run].
  { exists s. split; [done|]. eapply table_to_ext, table_to_refl. intros c _. unfold linked.
    destruct (Z.leb_spec (r + i) c), (Z.ltb_spec c (r + n)); simpl; done || lia. }
  assert (g_total_clusters s <= FAT32_BAD - 2) as Hb by apply V. unfold FAT32_BAD in Hb.
  set (nxt := if _ <? n then _ else _).
  rewrite (u32_small (r + i)) in * by lia.
  assert (nxt = if r + i + 1 <? r + n then r + i + 1 else FAT32_EOC_MIN) as En.
  { subst nxt. unwrap. destruct (Z.ltb_spec (i + 1) n), (Z.ltb_spec (r + i + 1) (r + n)); done || lia. }
  assert (0 <= nxt < 2 ^ 28) as Hx by (rewrite En; unfold FAT32_EOC_MIN; zcase; lia).
  destruct (set_entry_ok s (r + i) nxt V ltac:(unfold valid; lia) Hx) as (s1 & -> & T1). cbn [Z.eqb negb].
  destruct (IH (i + 1) s1) as (s' & -> & T2); [by eapply table_to_ok | lia | lia | lia | |].
  { destruct (frame_fields _ _ (ts_frame _ _ (tt_step _ _ _ T1))) as (_ & _ & -> & _). lia. }
  exists s'. split; [done|]. eapply table_to_ext; [|by eapply table_to_trans].
  intros c Hc. unfold linked. rewrite (tt_fat _ _ _ T1) by done.
  destruct (Z.eqb_spec c (r + i)) as [->|Hne].
  - destruct (Z.leb_spec (r + (i + 1)) (r + i)), (Z.leb_spec (r + i) (r + i)); simpl; try lia.
    rewrite En. destruct (Z.ltb_spec (r + i) (r + n)); done || lia.
  - destruct (Z.leb_spec (r + (i + 1)) c), (Z.leb_spec (r + i) c); simpl; done || lia.
Qed.

Definition free_run s (r n : Z) : Prop :=
  2 <= r /\ r + n <= g_total_clusters s + 2 /\ forall c, r <= c < r + n -> fat s c = FAT32_FREE.

(** What the scan knows before looking at cluster [c]: the [k] clusters below
    it are free, the one before them is not, and no earlier run is long enough. *)
Record scanned s (c r k n : Z) : Prop := {
  sc_pos : 2 <= c - k /\ 0 <= k < n;
  sc_start : k > 0 -> r = c - k;
  sc_free : forall x, c - k <= x < c -> fat s x = FAT32_FREE;
  sc_left : c - k = 2 \/ fat s (c - k - 1) <> FAT32_FREE;
  sc_first : forall x, free_run s x n -> c < x + n;
}.

Lemma scanned_free_first s c r k n x :
  scanned s c r k n -> free_run s x n -> x < c - k -> c + 1 < x + n.
Proof.
  intros [P1 P2 P3 P4 P5] Hx Hlt. pose proof (P5 x Hx). destruct Hx as (H1 & H2 & H3).
  destruct P4 as [P4|P4]; [lia|]. destruct (decide (c + 1 < x + n)); [done|]. destruct P4. apply H3. lia.
Qed.

Lemma scanned_step_free s c r k n :
  scanned s c r k n -> fat s c = FAT32_FREE -> k + 1 < n ->
  scanned s (c + 1) (if k =? 0 then c else r) (k + 1) n.
Proof.
  intros S Hf Hk. pose proof S as [P1 P2 P3 P4 P5]. constructor.
  - lia.
  - intros _. destruct (Z.eqb_spec k 0); [lia|]. rewrite P2; lia.
  - intros x Hx. destruct (decide (x = c)) as [->|]; [done|]. apply P3. lia.
  - replace (c + 1 - (k + 1)) with (c - k) by lia. done.
  - intros x Hx. destruct (decide (x < c - k)); [by eapply scanned_free_first|]. lia.
Qed.

Lemma scanned_step_used s c r k n :
  scanned s c r k n -> fat s c <> FAT32_FREE -> scanned s (c + 1) r 0 n.
Proof.
  intros S Hf. pose proof S as [P1 P2 P3 P4 P5]. constructor; try lia.
  - right. by replace (c + 1 - 0 - 1) with c by lia.
  - intros x Hx. pose proof (P5 x Hx). destruct Hx as (H1 & H2 & H3).
    destruct (decide (x + n = c + 1)); [|lia]. destruct Hf. apply H3. lia.
Qed.

Lemma alloc_scan_ok m c r k n s :
  vol_ok s -> n < 2 ^ 32 -> scanned s c r k n -> c + Z.of_nat m = g_total_clusters s + 2 ->
  exists r' s', alloc_scan m c r k n s = (r', s') /\
    ((r' = 0 /\ table_to s s' (fat s) /\ forall x, ~ free_run s x n) \/
     (free_run s r' n /\ (forall x, free_run s x n -> r' <= x) /\ table_to s s' (linked (fat s) r' r' n))).
Proof.
  revert c r k s. induction m as [|m IH]; intros c r k s V Hn S Hm; cbn [alloc_scan].
  { exists 0, s. split; [done|]. left. split; [done|]. split; [apply table_to_refl|].
    intros x Hx. pose proof (sc_first _ _ _ _ _ S x Hx). destruct Hx. lia. }
  pose proof S as [P1 P2 P3 P4 P5].
  destruct (read_fat_entry_ok s c V ltac:(unfold valid; lia)) as (b & ->).
  rewrite (u32_small (k + 1)) by lia.
  destruct (Z.eqb_spec (fat s c) FAT32_FREE) as [Ef|Ef].
  - destruct (Z.eqb_spec (k + 1) n) as [En|En].
    + set (r' := if k =? 0 then c else r).
      assert (r' = c - k) as Er by (subst r'; destruct (Z.eqb_spec k 0); [lia | apply P2; lia]).
      destruct (link_run_ok (Z.to_nat n) 0 r' n (set_sector b s)) as (s' & -> & T); [auto | lia | lia | lia | cbn; lia |].
      exists r', s'. split; [done|]. right. split; [|split].
      * split; [lia|]. split; [lia|]. intros x Hx. destruct (decide (x = c)) as [->|]; [done|]. apply P3. lia.
      * intros x Hx. destruct (decide (x < c - k)); [|lia].
        pose proof (scanned_free_first _ _ _ _ _ _ S Hx). lia.
      * replace (r' + 0) with r' in T by lia. eauto.
    + destruct (IH (c + 1) (if k =? 0 then c else r) (k + 1) (set_sector b s)) as (r' & s' & -> & HH);
        [auto | done | | cbn; lia |].
      { destruct (scanned_step_free s c r k n S Ef ltac:(lia)). by constructor. }
      exists r', s'. split; [done|]. destruct HH as [(? & ? & ?)|(? & ? & ?)]; [left | right]; eauto.
  - destruct (IH (c + 1) r 0 (set_sector b s)) as (r' & s' & -> & HH); [auto | done | | cbn; lia |].
    { destruct (scanned_step_used s c r k n S Ef). by constructor. }
    exists r', s'. split; [done|]. destruct HH as [(? & ? & ?)|(? & ? & ?)]; [left | right]; eauto.
Qed.

(** [fat32_alloc_contiguous] takes the first run of [n] free clusters and
    links it into a chain, or changes nothing when there is none. *)
Lemma alloc_contiguous_ok s n :
  vol_ok s -> 1 <= n < 2 ^ 32 ->
  exists r s', fat32_alloc_contiguous n s = (r, s') /\
    ((r = 0 /\ table_to s s' (fat s) /\ forall x, ~ free_run s x n) \/
     (free_run s r n /\ (forall x, free_run s x n -> r <= x) /\ table_to s s' (linked (fat s) r r n))).
Proof.
  intros V Hn. unfold fat32_alloc_contiguous. rewrite (v_ready _ V).
  assert (1 <= g_total_clusters s <= FAT32_BAD - 2) as Ht by apply V. unfold FAT32_BAD in Ht.
  destruct (Z.eqb_spec n 0); [lia|]. destruct (Z.eqb_spec (g_total_clusters s) 0); [lia|]. cbn [negb orb].
  rewrite u32_small by lia. apply alloc_scan_ok; [done | lia | | lia].
  constructor; try lia. intros x [Hx _]. lia.
Qed.

(** ** Clusters *)

(** [s'] holds the table [g] and the cluster contents [h]. *)
Record vol_to s s' (g : Z -> Z) (h : Z -> Z -> Z) : Prop := {
  vt_frame : frame s s';
  vt_fat : forall c, valid s c -> fat s' c = g c;
  vt_data : forall c i, valid s c -> 0 <= i < cluster_bytes s -> cdata s' c i = h c i;
  vt_mirrored : mirrored s -> mirrored s';
}.

Lemma table_to_vol s s' g : vol_ok s -> table_to s s' g -> vol_to s s' g (cdata s).
Proof.
  intros V [S F M]. constructor; [apply S | done | | done].
  intros c i Hc Hi. apply table_step_cdata; done || lia.
Qed.

Lemma vol_to_refl s : vol_to s s (fat s) (cdata s).
Proof. by constructor. Qed.

Lemma frame_cluster_bytes s s' : frame s s' -> cluster_bytes s' = cluster_bytes s.
Proof. intros F. unfold cluster_bytes. by destruct (frame_fields _ _ F) as (_ & _ & _ & -> & _). Qed.

Lemma vol_to_trans s s1 s2 g1 g2 h1 h2 : vol_to s s1 g1 h1 -> vol_to s1 s2 g2 h2 -> vol_to s s2 g2 h2.
Proof.
  intros [F1 T1 D1 M1] [F2 T2 D2 M2]. constructor; [by etrans | | | auto].
  - intros c Hc. apply T2. by rewrite (frame_valid _ _ _ F1).
  - intros c i Hc Hi. apply D2; [by rewrite (frame_valid _ _ _ F1) | by rewrite (frame_cluster_bytes _ _ F1)].
Qed.

Lemma vol_to_ext s s' g g' h h' :
  (forall c, valid s c -> g c = g' c) -> (forall c i, valid s c -> 0 <= i < cluster_bytes s -> h c i = h' c i) ->
  vol_to s s' g h -> vol_to s s' g' h'.
Proof.
  intros Eg Eh [F T Dt M]. constructor; [done | | | done].
  - intros c Hc. by rewrite T, Eg.
  - intros c i Hc Hi. by rewrite Dt, Eh.
Qed.

Lemma vol_to_ok s s' g h : vol_to s s' g h -> vol_ok s -> vol_ok s'.
Proof. intros [F _ _ _]. by apply frame_ok. Qed.

Lemma vol_to_buf s b : vol_to s (set_cluster_buf b s) (fat s) (cdata s).
Proof. by constructor. Qed.

Lemma vol_to_sector s b : vol_to s (set_sector b s) (fat s) (cdata s).
Proof. by constructor. Qed.

Lemma vol_to_from_buf s b s' g h : vol_to (set_cluster_buf b s) s' g h -> vol_to s s' g h.
Proof. apply vol_to_trans with (g1 := fat s) (h1 := cdata s), vol_to_buf. Qed.

Lemma vol_to_from_sector s b s' g h : vol_to (set_sector b s) s' g h -> vol_to s s' g h.
Proof. apply vol_to_trans with (g1 := fat s) (h1 := cdata s), vol_to_sector. Qed.

Lemma vol_ok_buf s b : vol_ok s -> vol_ok (set_cluster_buf b s).
Proof. by apply frame_ok. Qed.
Hint Resolve vol_ok_buf : core.

Lemma cluster_bytes_range s : vol_ok s -> 512 <= cluster_bytes s <= 65536.
Proof. intros V. unfold cluster_bytes. pose proof (v_spc _ V). lia. Qed.

Lemma read_cluster_ok s c :
  vol_ok s -> valid s c ->
  exists b, fat32_read_cluster c s = (0, set_cluster_buf b s) /\ forall i, 0 <= i < cluster_bytes s -> b i = cdata s c i.
Proof.
  intros V Hc. unfold fat32_read_cluster. rewrite (v_ready _ V). destruct (Z.ltb_spec c 2); [unfold valid in Hc; lia|].
  cbn [negb orb]. rewrite cluster_lba_eq by done. destruct (cluster_in_range s c V Hc).
  destruct (bd_read_ok (g_port s) (g_data_lba s + (c - 2) * g_spc s) (g_spc s) (dev s)) as (b & -> & Hb);
    [done | destruct V; lia | lia |].
  eexists. split; [done|]. intros i Hi. rewrite overlay_inside by (unfold cluster_bytes in Hi; lia).
  rewrite Z.sub_0_r. apply Hb. done.
Qed.

Lemma clusters_apart s c c' i :
  0 <= i < cluster_bytes s -> c <> c' -> ~ (cluster_addr s c <= cluster_addr s c' + i < cluster_addr s c + cluster_bytes s).
Proof.
  unfold cluster_addr, cluster_bytes. intros Hi Hne.
  assert ((c - 2) * g_spc s + g_spc s <= (c' - 2) * g_spc s \/ (c' - 2) * g_spc s + g_spc s <= (c - 2) * g_spc s)
    by (assert (0 <= g_spc s) by lia; nia).
  lia.
Qed.

Lemma table_below_data s c i :
  vol_ok s -> valid s c -> forall f x, 0 <= f < g_num_fats s -> 0 <= x < g_total_clusters s + 2 -> 0 <= i < 4 ->
  fat_addr s f x + i < cluster_addr s c.
Proof.
  intros V Hc f x Hf Hx Hi. destruct (fat_sector_in_range s f x V Hx Hf) as (_ & _ & Hl & _).
  unfold fat_addr, cluster_addr. assert (0 <= (c - 2) * g_spc s) as Hq by (destruct V, Hc; nia).
  clear - Hl Hq Hi. revert Hl Hq. generalize (f * g_fat_sectors s) as p. generalize ((c - 2) * g_spc s) as q. intros. dlia.
Qed.

Lemma write_cluster_ok s c :
  vol_ok s -> valid s c ->
  exists s', fat32_write_cluster c s = (0, s') /\ s_cluster_buf s' = s_cluster_buf s /\
    vol_to s s' (fat s) (fun c' i => if c' =? c then s_cluster_buf s i else cdata s c' i).
Proof.
  intros V Hc. unfold fat32_write_cluster. rewrite (v_ready _ V).
  destruct (Z.ltb_spec c 2); [unfold valid in Hc; lia|].
  cbn [negb orb]. rewrite cluster_lba_eq by done. destruct (cluster_in_range s c V Hc).
  destruct (bd_write_ok (g_port s) (g_data_lba s + (c - 2) * g_spc s) (g_spc s) (s_cluster_buf s) (dev s))
    as (d & -> & Ec & Hd); [done | destruct V; lia | lia |].
  eexists. split; [done|]. split; [done|].
  assert (frame s (set_dev d s)) as F by (constructor; [unfold geometry; cbn; by rewrite Ec | done..]).
  change (forall x, disk (set_dev d s) x = overlay (disk s) (cluster_addr s c) (cluster_bytes s) (s_cluster_buf s) x) in Hd.
  assert (forall f x, 0 <= f < g_num_fats s -> 0 <= x < g_total_clusters s + 2 ->
    fat_word (set_dev d s) f x = fat_word s f x) as Hent.
  { intros f x Hf Hx. apply load32_shift. intros i Hi. rewrite Hd, (frame_addr _ _ _ _ F).
    apply overlay_outside. pose proof (table_below_data s c i V Hc f x Hf Hx Hi). lia. }
  constructor; [done | | |].
  - intros x [Hx1 Hx2]. unfold fat. fold (fat_word (set_dev d s) 0 x) (fat_word s 0 x). rewrite Hent; [done | | lia].
    destruct V. lia.
  - intros c' i Hc' Hi. unfold cdata. rewrite Hd, (frame_cluster_addr _ _ _ F).
    destruct (Z.eqb_spec c' c) as [->|Hne].
    + rewrite overlay_inside by lia. f_equal. lia.
    + apply overlay_outside, clusters_apart; done || lia.
  - intros M f x Hf Hx. cbn in Hf, Hx. rewrite !Hent; [by apply M | destruct V; lia | done..].
Qed.

(** ** Chains *)

(** [l] is the list of clusters a chain loop visits from [c] on. *)
Fixpoint chain s (c : Z) (l : list Z) : Prop :=
  match l with
  | [] => in_chain c = false
  | x :: r => x = c /\ valid s c /\ chain s (fat s c) r
  end.

Lemma valid_in_chain s c : vol_ok s -> valid s c -> in_chain c = true.
Proof.
  intros V [H1 H2]. assert (g_total_clusters s <= FAT32_BAD - 2) as Ht by apply V.
  unfold in_chain, FAT32_BAD, FAT32_EOC_MIN in *. rewrite andb_true_iff, Z.leb_le, Z.ltb_lt. lia.
Qed.

Lemma fat_chain_unique s c l l' : vol_ok s -> chain s c l -> chain s c l' -> l = l'.
Proof.
  intros V. revert c l'. induction l as [|x l IH]; intros c [|y l']; cbn [chain]; try done.
  - intros E (-> & Hv & _). by rewrite (valid_in_chain s) in E.
  - intros (-> & Hv & _) E. by rewrite (valid_in_chain s) in E.
  - intros (-> & _ & C) (-> & _ & C'). f_equal. by eapply IH.
Qed.

Lemma chain_suffix s c l x : chain s c l -> x ∈ l -> exists l', chain s x l' /\ (length l' <= length l)%nat /\ valid s x.
Proof.
  revert c. induction l as [|y l IH]; intros c; cbn [chain]; [by rewrite elem_of_nil|].
  intros (-> & Hv & C) [->|Hx]%elem_of_cons.
  - exists (c :: l). split; [done|]. split; [done|done].
  - destruct (IH _ C Hx) as (l' & C' & Hl & Hv'). exists l'. split; [done|]. split; [cbn [length]; lia | done].
Qed.

(** A chain that ends does not come back to a cluster. *)
Lemma chain_nodup s c l : vol_ok s -> chain s c l -> NoDup l.
Proof.
  intros V. revert c. induction l as [|x l IH]; intros c C; [apply NoDup_nil_2|].
  pose proof C as (-> & Hv & C'). apply NoDup_cons. split; [|by eapply IH].
  intros Hx. destruct (chain_suffix _ _ _ _ C' Hx) as (l' & C2 & Hl & _).
  rewrite (fat_chain_unique _ _ _ _ V C2 C) in Hl. cbn [length] in Hl. lia.
Qed.

Lemma chain_valid s c l x : chain s c l -> x ∈ l -> valid s x.
Proof. intros C Hx. by destruct (chain_suffix _ _ _ _ C Hx) as (? & _ & _ & ?). Qed.

Lemma chain_ext s s' c l :
  frame s s' -> (forall x, x ∈ l -> valid s x -> fat s' x = fat s x) -> chain s c l -> chain s' c l.
Proof.
  intros F. revert c. induction l as [|x l IH]; intros c E; cbn [chain]; [done|].
  intros (-> & Hv & C). split; [done|]. split; [by apply (frame_valid _ _ _ F)|].
  rewrite E by (done || apply elem_of_cons; auto). apply IH; [|done]. intros y Hy. apply E. apply elem_of_cons. auto.
Qed.

Lemma free_chain_loop_ok fuel c l s :
  vol_ok s -> chain s c l -> (length l <= fuel)%nat ->
  exists s', free_chain_loop fuel c s = Some (0, s') /\
    table_to s s' (fun x => if decide (x ∈ l) then FAT32_FREE else fat s x).
Proof.
  revert c l s. induction fuel as [|fuel IH]; intros c [|x l] s V C Hl; cbn [free_chain_loop]; cbn [length] in Hl.
  1,3: cbn [chain] in C; rewrite C; exists s; split; [done|]; eapply table_to_ext, table_to_refl; intros y _;
    by rewrite decide_False by apply not_elem_of_nil.
  - lia.
  - pose proof (chain_nodup _ _ _ V C) as Hnd. apply NoDup_cons in Hnd as [Hni _].
    destruct C as (-> & Hv & C). rewrite (valid_in_chain s) by done.
    destruct (next_cluster_ok s c V Hv) as (b & ->).
    destruct (set_entry_ok (set_sector b s) c FAT32_FREE) as (s1 & -> & T1); [auto | done | done |].
    apply table_to_from_sector in T1. cbn [Z.eqb negb].
    destruct (IH (fat s c) l s1) as (s' & -> & T2); [by eapply table_to_ok | | lia |].
    { eapply chain_ext; [apply T1 | | done]. intros y Hy Hvy. rewrite (tt_fat _ _ _ T1) by done.
      destruct (Z.eqb_spec y c) as [->|]; done. }
    exists s'. split; [done|]. eapply table_to_ext; [|by eapply table_to_trans].
    intros y Hy. cbn beta. rewrite (tt_fat _ _ _ T1) by done.
    change (fat (set_sector b s) y) with (fat s y).
    destruct (Z.eqb_spec y c) as [->|Hne].
    + rewrite (decide_True (P := c ∈ c :: l)) by (apply elem_of_cons; auto). by case_decide.
    + apply decide_ext. rewrite elem_of_cons. naive_solver.
Qed.

(** ** Files *)

(** Byte [p] of a file whose clusters are [l], in the contents [h]. *)
Fixpoint file_byte (h : Z -> Z -> Z) (cb : Z) (l : list Z) (p : Z) : Z :=
  match l with
  | [] => 0
  | c :: r => if p <? cb then h c p else file_byte h cb r (p - cb)
  end.

Definition capacity s (l : list Z) : Z := Z.of_nat (length l) * cluster_bytes s.

Lemma file_byte_ext h h' cb l p :
  0 <= p -> 0 < cb -> (forall c i, c ∈ l -> 0 <= i < cb -> h c i = h' c i) -> file_byte h cb l p = file_byte h' cb l p.
Proof.
  intros Hp Hcb. revert p Hp. induction l as [|c l IH]; intros p Hp E; cbn [file_byte]; [done|].
  destruct (Z.ltb_spec p cb).
  - apply E; [apply elem_of_cons; auto | lia].
  - apply IH; [lia|]. intros. apply E; [apply elem_of_cons; auto | lia].
Qed.

Lemma memcpy_k_spec dst d src a n x :
  0 <= n -> memcpy_k dst d src a n x = if (d <=? x) && (x <? d + n) then src (a + (x - d)) else dst x.
Proof.
  intros Hn. unfold memcpy_k.
  pose proof (for_up_inv (fun k m => forall x, m x = if (d <=? x) && (x <? d + k) then src (a + (x - d)) else dst x)
    (Z.to_nat n) 0 (fun i m => upd m (d + i) (src (a + i))) dst) as Hinv. cbn beta in Hinv.
  rewrite Hinv.
  - replace (0 + Z.of_nat (Z.to_nat n)) with n by lia. done.
  - intros y. destruct (Z.leb_spec d y), (Z.ltb_spec y (d + 0)); simpl; done || lia.
  - intros k m Hk Hm y. unfold upd. rewrite Hm.
    destruct (Z.eqb_spec (d + k) y) as [E|Hne], (Z.leb_spec d y), (Z.ltb_spec y (d + k)), (Z.ltb_spec y (d + (k + 1)));
      simpl; try done; try lia. f_equal. lia.
Qed.


(** Reading changes the caller's memory and the driver's buffers only. *)
Definition same_volume s s' : Prop := exists m, vol_to (set_ram m s) s' (fat s) (cdata s).

Lemma vol_ok_ram s m : vol_ok s -> vol_ok (set_ram m s).
Proof. intros V. by eapply (vol_ok_geometry s). Qed.
Hint Resolve vol_ok_ram : core.

Lemma same_volume_ok s s' : vol_ok s -> same_volume s s' -> vol_ok s'.
Proof. intros V (m & T). eapply vol_to_ok; [done | auto]. Qed.

Lemma same_volume_trans s s1 s2 : same_volume s s1 -> same_volume s1 s2 -> same_volume s s2.
Proof.
  intros (m1 & [F1 T1 D1 M1]) (m2 & [F2 T2 D2 M2]). exists m2.
  assert (frame (set_ram m2 s) (set_ram m2 s1)) as F by (destruct F1; constructor; [done..]).
  assert (forall c, valid (set_ram m2 s1) c <-> valid s c) as Hv by (intros c; apply (frame_valid _ _ c F1)).
  assert (cluster_bytes (set_ram m2 s1) = cluster_bytes s) as Hcb by apply (frame_cluster_bytes _ _ F1).
  constructor; [by etrans | | | ].
  - intros c Hc. rewrite T2 by (by apply Hv). by apply T1.
  - intros c i Hc Hi. rewrite D2 by (by apply Hv || rewrite Hcb). by apply D1.
  - intros M. apply M2, M1, M.
Qed.

Lemma same_volume_buf s b : same_volume s (set_cluster_buf b s).
Proof. exists (ram s). by constructor. Qed.
Lemma same_volume_sector s b : same_volume s (set_sector b s).
Proof. exists (ram s). by constructor. Qed.
Lemma same_volume_ram s m : same_volume s (set_ram m s).
Proof. exists m. by constructor. Qed.
Lemma same_volume_refl s : same_volume s s.
Proof. exists (ram s). by constructor. Qed.

Lemma same_volume_chain s s' c l : same_volume s s' -> chain s c l -> chain s' c l.
Proof.
  intros (m & [F T _ _]) C. eapply (chain_ext (set_ram m s)); [done | | ].
  - intros x _ Hx. rewrite T by done. done.
  - clear - C. revert c C. induction l as [|x l IH]; intros c; cbn [chain]; [done|].
    intros (E & Hv & C). split; [done|]. split; [done|]. by apply IH.
Qed.

Lemma read_file_loop_ok fuel c l dst br mx s :
  vol_ok s -> chain s c l -> (length l <= fuel)%nat -> 0 <= br < mx -> mx < 2 ^ 31 ->
  exists s', read_file_loop fuel c dst br mx s = Some (Z.min mx (br + capacity s l), s') /\ same_volume s s' /\
    (forall x, ram s' x = if (dst + br <=? x) && (x <? dst + Z.min mx (br + capacity s l))
                          then file_byte (cdata s) (cluster_bytes s) l (x - (dst + br)) else ram s x).
Proof.
  revert c l br s. induction fuel as [|fuel IH]; intros c [|x l] br s V C Hl Hbr Hmx; cbn [read_file_loop];
    cbn [length] in Hl.
  1,3: cbn [chain] in C; rewrite C; unfold capacity; cbn [length]; exists s; rewrite s32_small by lia;
    replace (Z.min mx _) with br by lia;
    (split; [done|]; split; [apply same_volume_refl|]; intros y;
     destruct (Z.leb_spec (dst + br) y), (Z.ltb_spec y (dst + br)); simpl; done || lia).
  - lia.
  - destruct C as (-> & Hv & C). rewrite (valid_in_chain s) by done.
    destruct (read_cluster_ok s c V Hv) as (b & -> & Hb). cbn [Z.eqb negb].
    pose proof (cluster_bytes_range s V) as Hcb. fold (cluster_bytes s).
    change (g_spc (set_cluster_buf b s)) with (g_spc s). fold (cluster_bytes s).
    rewrite (u32_small (cluster_bytes s)) by lia. rewrite (u32_small (br + cluster_bytes s)) by lia.
    set (tc := if mx <? br + cluster_bytes s then _ else _).
    assert (tc = Z.min (cluster_bytes s) (mx - br)) as Etc.
    { subst tc. destruct (Z.ltb_spec mx (br + cluster_bytes s)); [rewrite u32_small by lia|]; lia. }
    rewrite (u32_small (br + tc)) by lia. clearbody tc.
    assert (capacity s (c :: l) = cluster_bytes s + capacity s l) as Ec by (unfold capacity; cbn [length]; lia).
    assert (0 <= capacity s l) as Hc0 by (unfold capacity; lia).
    set (s1 := set_ram _ _).
    assert (forall y, ram s1 y = if (dst + br <=? y) && (y <? dst + br + tc) then b (y - (dst + br)) else ram s y) as Hr1.
    { intros y. cbn [s1 ram set_ram set_cluster_buf s_cluster_buf]. rewrite memcpy_k_spec by lia. done. }
    assert (same_volume s s1) as S1.
    { eapply same_volume_trans; [apply (same_volume_buf s b) | apply same_volume_ram]. }
    destruct (Z.leb_spec mx (br + tc)) as [Hend|Hmore].
    + exists s1. rewrite s32_small by lia. replace (Z.min mx _) with (br + tc) by lia. split; [done|]. split; [done|].
      intros y. rewrite Hr1, Z.add_assoc. cbn [file_byte].
      destruct (Z.leb_spec (dst + br) y), (Z.ltb_spec y (dst + br + tc)); simpl; try done.
      destruct (Z.ltb_spec (y - (dst + br)) (cluster_bytes s)); [|lia]. apply Hb. lia.
    + assert (tc = cluster_bytes s) as -> by lia.
      pose proof (same_volume_ok _ _ V S1) as V1. pose proof (same_volume_chain _ _ _ _ S1 C) as C1.
      assert (valid s1 c) as Hv1 by done.
      destruct (next_cluster_ok s1 c V1 Hv1) as (b2 & ->).
      change (fat s1 c) with (fat s c). set (s2 := set_sector b2 s1).
      assert (same_volume s s2) as S2 by (eapply same_volume_trans; [done | apply same_volume_sector]).
      destruct (IH (fat s c) l (br + cluster_bytes s) s2) as (s' & -> & S' & Hr').
      { exact (same_volume_ok _ _ V S2). } { exact (same_volume_chain _ _ _ _ S2 C). } { lia. } { lia. } { done. }
      change (capacity s2 l) with (capacity s l) in *. change (cluster_bytes s2) with (cluster_bytes s) in *.
      exists s'. rewrite Ec, Z.add_assoc. split; [done|]. split; [by eapply same_volume_trans|].
      intros y. rewrite Hr'. change (ram s2 y) with (ram s1 y). rewrite Hr1. cbn [file_byte].
      change (cdata s2) with (cdata s).
      replace (y - (dst + (br + cluster_bytes s))) with (y - (dst + br) - cluster_bytes s) by lia.
      set (m := Z.min mx _). assert (br + cluster_bytes s <= m) as Hm by lia. clearbody m.
      specialize (Hb (y - (dst + br))). clear - Hm Hb Hcb. rewrite !Z.add_assoc.
      destruct (Z.leb_spec (dst + br + cluster_bytes s) y), (Z.leb_spec (dst + br) y), (Z.ltb_spec y (dst + m)),
        (Z.ltb_spec y (dst + br + cluster_bytes s)), (Z.ltb_spec (y - (dst + br)) (cluster_bytes s));
        simpl; try done; try lia.
Qed.

(** The bytes a write of [size] bytes from [buf] leaves in a file, with the
    rest of the last cluster zeroed. *)
Definition wanted (m : mem) (buf size p : Z) : Z := if p <? size then m (buf + p) else 0.

Lemma write_file_loop_ok fuel c l buf w size s :
  vol_ok s -> chain s c l -> (length l <= fuel)%nat -> 0 <= w < size -> size < 2 ^ 31 -> (0 < w \/ l <> []) ->
  exists s' h, write_file_loop fuel c buf w size s = Some (Z.min size (w + capacity s l), s') /\
    vol_to s s' (fat s) h /\
    (forall c' i, valid s c' -> 0 <= i < cluster_bytes s -> c' ∉ l -> h c' i = cdata s c' i) /\
    (forall p, 0 <= p < capacity s l -> p - p mod cluster_bytes s < size - w ->
       file_byte h (cluster_bytes s) l p = wanted (ram s) buf size (w + p)).
Proof.
  revert c l w s. induction fuel as [|fuel IH]; intros c [|x l] w s V C Hl Hw Hsz Hne; cbn [write_file_loop];
    cbn [length] in Hl.
  1,3: cbn [chain] in C; rewrite C; cbn [andb]; destruct Hne as [Hne|]; [|done];
    destruct (Z.ltb_spec 0 w); [|lia]; unfold capacity; cbn [length]; exists s, (cdata s); rewrite s32_small by lia;
    replace (Z.min size _) with w by lia; (split; [done|]; split; [apply vol_to_refl|]; split; [done|]; intros; lia).
  - lia.
  - pose proof (chain_nodup _ _ _ V C) as Hnd. apply NoDup_cons in Hnd as [Hni _].
    destruct C as (-> & Hv & C). rewrite (valid_in_chain s) by done.
    destruct (Z.ltb_spec w size); [|lia]. cbn [andb].
    pose proof (cluster_bytes_range s V) as Hcb. fold (cluster_bytes s).
    rewrite (u32_small (cluster_bytes s)), (u32_small (size - w)) by lia.
    set (ck := if cluster_bytes s <? size - w then _ else _).
    assert (ck = Z.min (cluster_bytes s) (size - w)) as Eck by (subst ck; zcase; lia). clearbody ck.
    set (b := fill _ _ _ _).
    assert (forall i, 0 <= i < cluster_bytes s -> b i = wanted (ram s) buf size (w + i)) as Hb.
    { intros i Hi. subst b. unfold fill, wanted. rewrite memcpy_k_spec by lia.
      destruct (Z.ltb_spec (w + i) size), (Z.leb_spec ck i), (Z.ltb_spec i (ck + (cluster_bytes s - ck))); simpl; try done; try lia.
      - destruct (Z.leb_spec 0 i), (Z.ltb_spec i (0 + ck)); simpl; try lia. f_equal. lia. }
    clearbody b.
    destruct (write_cluster_ok (set_cluster_buf b s) c) as (s1 & -> & _ & T1); [auto | done |].
    apply vol_to_from_buf in T1. cbn [Z.eqb negb s_cluster_buf set_cluster_buf] in *.
    change (fat (set_cluster_buf b s)) with (fat s) in T1. change (cdata (set_cluster_buf b s)) with (cdata s) in T1.
    rewrite (u32_small (w + ck)) by lia.
    assert (capacity s (c :: l) = cluster_bytes s + capacity s l) as Ec by (unfold capacity; cbn [length]; lia).
    assert (0 <= capacity s l) as Hc0 by (unfold capacity; lia).
    pose proof (vol_to_ok _ _ _ _ T1 V) as V1.
    destruct (Z.leb_spec size (w + ck)) as [Hend|Hmore].
    + destruct (Z.ltb_spec 0 (w + ck)); [|lia]. rewrite s32_small by lia.
      eexists s1, _. replace (Z.min size _) with (w + ck) by lia. split; [done|]. split; [done|]. cbn beta. split.
      * intros c' i _ _ Hin. destruct (Z.eqb_spec c' c) as [->|]; [|done]. destruct Hin. apply elem_of_cons. auto.
      * intros p Hp Hlt. cbn [file_byte]. assert (p < cluster_bytes s) as Hp1 by
          (pose proof (Z.mod_pos_bound p (cluster_bytes s)); destruct (Z.ltb_spec p (cluster_bytes s)); [done|];
           pose proof (Z.div_mod p (cluster_bytes s)); assert (1 <= p / cluster_bytes s) by (apply Z.div_le_lower_bound; lia); nia).
        destruct (Z.ltb_spec p (cluster_bytes s)); [|lia]. rewrite Z.eqb_refl. apply Hb. lia.
    + assert (ck = cluster_bytes s) as -> by lia.
      destruct (next_cluster_ok s1 c V1) as (b2 & ->); [by apply (frame_valid _ _ _ (vt_frame _ _ _ _ T1))|].
      rewrite (vt_fat _ _ _ _ T1 c Hv).
      assert (vol_to s (set_sector b2 s1) (fat s1) (cdata s1)) as T2
        by (eapply vol_to_trans; [apply T1 | apply (vol_to_sector s1)]).
      destruct (frame_fields _ _ (vt_frame _ _ _ _ T2)) as (_ & _ & _ & Espc & _).
      pose proof (vt_frame _ _ _ _ T2) as F2.
      assert (cluster_bytes (set_sector b2 s1) = cluster_bytes s) as Ecb by apply (frame_cluster_bytes _ _ F2).
      assert (capacity (set_sector b2 s1) l = capacity s l) as Ecap by (unfold capacity; by rewrite Ecb).
      destruct (IH (fat s c) l (w + cluster_bytes s) (set_sector b2 s1)) as (s' & h & -> & T3 & Hout & Hin);
        [auto | | lia | lia | done | lia |].
      { eapply chain_ext; [done| |done]. intros y _ Hvy. change (fat (set_sector b2 s1) y) with (fat s1 y). by apply T1. }
      rewrite Ecb, Ecap in *. exists s', h. rewrite Ec, Z.add_assoc. split; [done|].
      assert (forall c' i, valid s c' -> 0 <= i < cluster_bytes s -> c' ∉ l ->
        h c' i = if c' =? c then b i else cdata s c' i) as Hout'.
      { intros c' i Hvc Hi Hin'. rewrite Hout; [|by apply (frame_valid _ _ _ F2) | done | done].
        change (cdata s1 c' i = (if c' =? c then b i else cdata s c' i)). by rewrite (vt_data _ _ _ _ T1). }
      split; [|split].
      * eapply vol_to_ext; [| |eapply vol_to_trans; [apply T2 | apply T3]]; [|done].
        intros y Hy. change (fat (set_sector b2 s1) y) with (fat s1 y). by apply T1.
      * intros c' i Hvc Hi [Hnc Hnl]%not_elem_of_cons. rewrite Hout' by done. by destruct (Z.eqb_spec c' c).
      * intros p Hp Hlt. cbn [file_byte]. destruct (Z.ltb_spec p (cluster_bytes s)).
        -- rewrite Hout', Z.eqb_refl by (done || lia). apply Hb. lia.
        -- rewrite Hin; [|lia|].
           ++ change (ram (set_sector b2 s1)) with (ram s1). rewrite (fr_ram _ _ (vt_frame _ _ _ _ T1)). f_equal. lia.
           ++ rewrite <- (Z_mod_plus_full (p - cluster_bytes s) 1), Z.mul_1_l, Z.sub_add. lia.
Qed.

(** ** What the driver's operations do *)

Lemma linked_chain s s' r n :
  1 <= n -> free_run s r n -> frame s s' -> (forall c, valid s c -> fat s' c = linked (fat s) r r n c) ->
  chain s' r (seqZ r n).
Proof.
  intros Hn (H1 & H2 & _) F T.
  assert (forall k x, x + Z.of_nat k = r + n -> r <= x -> (0 < k)%nat -> chain s' x (seqZ x (Z.of_nat k))) as Hgen.
  { induction k as [|k IH]; intros x Hx Hr Hk; [lia|]. rewrite seqZ_cons by lia. cbn [chain]. split; [done|].
    assert (valid s x) as Hv by (unfold valid; lia). split; [by apply (frame_valid _ _ x F)|].
    rewrite (T x Hv). unfold linked.
    destruct (Z.leb_spec r x), (Z.ltb_spec x (r + n)); simpl; try lia.
    replace (Z.pred (Z.of_nat (S k))) with (Z.of_nat k) by lia. replace (Z.succ x) with (x + 1) by lia.
    destruct (Z.ltb_spec (x + 1) (r + n)).
    - apply IH; lia.
    - by replace k with O by lia. }
  replace n with (Z.of_nat (Z.to_nat n)) by lia. apply Hgen; lia.
Qed.

(** [fat32_alloc_contiguous] finds the first run of [n] free clusters when
    there is one, links it into a chain of exactly those clusters, and leaves
    every other table entry and every file's data alone; otherwise it returns 0
    and changes no entry.  The copies of the table stay equal. *)
Theorem fat32_alloc_correct s n :
  vol_ok s -> 1 <= n < 2 ^ 32 ->
  exists r s', fat32_alloc_contiguous n s = (r, s') /\ (mirrored s -> mirrored s') /\
    (forall c i, valid s c -> 0 <= i < cluster_bytes s -> cdata s' c i = cdata s c i) /\
    ((r = 0 /\ (forall x, ~ free_run s x n) /\ forall c, valid s c -> fat s' c = fat s c) \/
     (free_run s r n /\ (forall x, free_run s x n -> r <= x) /\ chain s' r (seqZ r n) /\
      forall c, valid s c -> ~ (r <= c < r + n) -> fat s' c = fat s c)).
Proof.
  intros V Hn. destruct (alloc_contiguous_ok s n V Hn) as (r & s' & E & HH). exists r, s'. split; [done|].
  assert (exists g, table_to s s' g) as [g T] by (destruct HH as [(_ & T & _)|(_ & _ & T)]; eauto).
  split; [apply T|]. split.
  { intros c i Hc Hi. eapply vt_data; [by apply table_to_vol | done..]. }
  destruct HH as [(-> & T' & Hno)|(Hf & Hm & T')].
  - left. split; [done|]. split; [done|]. apply T'.
  - right. split; [done|]. split; [done|]. split; [eapply linked_chain; [lia | done | apply T' | apply T']|].
    intros c Hc Hout. rewrite (tt_fat _ _ _ T') by done. unfold linked.
    destruct (Z.leb_spec r c), (Z.ltb_spec c (r + n)); simpl; done || lia.
Qed.

(** With fuel for its length, [fat32_free_chain] terminates, frees every
    cluster of the chain and no other, and touches no data. *)
Theorem fat32_free_chain_correct fuel c l s :
  vol_ok s -> chain s c l -> l <> [] -> (length l <= fuel)%nat ->
  exists s', fat32_free_chain fuel c s = Some (0, s') /\
    (forall x, x ∈ l -> fat s' x = FAT32_FREE) /\
    (forall x, valid s x -> x ∉ l -> fat s' x = fat s x) /\
    (forall x i, valid s x -> 0 <= i < cluster_bytes s -> cdata s' x i = cdata s x i) /\
    (mirrored s -> mirrored s').
Proof.
  intros V C Hne Hl. unfold fat32_free_chain. rewrite (v_ready _ V).
  assert (valid s c) as Hv by (destruct l as [|x l]; [done | apply C]).
  destruct (Z.ltb_spec c 2); [unfold valid in Hv; lia|]. cbn [negb orb].
  destruct (free_chain_loop_ok fuel c l s V C Hl) as (s' & E & T). exists s'. split; [done|]. split; [|split; [|split]].
  - intros x Hx. rewrite (tt_fat _ _ _ T) by (by eapply chain_valid). by rewrite decide_True.
  - intros x Hvx Hx. rewrite (tt_fat _ _ _ T) by done. by rewrite decide_False.
  - intros x i Hvx Hi. eapply vt_data; [by apply table_to_vol | done..].
  - apply T.
Qed.

Lemma write_file_ok fuel c l buf size s :
  vol_ok s -> chain s c l -> l <> [] -> (length l <= fuel)%nat -> buf <> 0 -> 0 < size < 2 ^ 31 ->
  exists s' h, fat32_write_file fuel c buf size s = Some (Z.min size (capacity s l), s') /\
    vol_to s s' (fat s) h /\
    (forall c' i, valid s c' -> 0 <= i < cluster_bytes s -> c' ∉ l -> h c' i = cdata s c' i) /\
    (forall p, 0 <= p < Z.min size (capacity s l) -> file_byte h (cluster_bytes s) l p = ram s (buf + p)).
Proof.
  intros V C Hne Hl Hb Hs. unfold fat32_write_file. rewrite (v_ready _ V).
  destruct (Z.eqb_spec buf 0), (Z.eqb_spec size 0); try lia. cbn [negb orb].
  destruct (write_file_loop_ok fuel c l buf 0 size s V C Hl) as (s' & h & E & T & Ho & Hi); [lia | lia | auto |].
  exists s', h. split; [done|]. split; [done|]. split; [done|]. intros p Hp.
  pose proof (Z.mod_pos_bound p (cluster_bytes s)) as Hm. pose proof (cluster_bytes_range s V).
  rewrite Hi by lia. unfold wanted. destruct (Z.ltb_spec (0 + p) size); [f_equal|]; lia.
Qed.

Lemma read_file_ok fuel c l dst mx s :
  vol_ok s -> chain s c l -> (length l <= fuel)%nat -> dst <> 0 -> 0 < mx < 2 ^ 31 ->
  exists s', fat32_read_file fuel c dst mx s = Some (Z.min mx (capacity s l), s') /\ same_volume s s' /\
    (forall x, ram s' x = if (dst <=? x) && (x <? dst + Z.min mx (capacity s l))
                          then file_byte (cdata s) (cluster_bytes s) l (x - dst) else ram s x).
Proof.
  intros V C Hl Hb Hs. unfold fat32_read_file. rewrite (v_ready _ V).
  destruct (Z.eqb_spec dst 0), (Z.eqb_spec mx 0); try lia. cbn [negb orb].
  destruct (read_file_loop_ok fuel c l dst 0 mx s V C Hl) as (s' & E & T & Hr); [lia | lia |].
  exists s'. split; [done|]. split; [done|]. intros x. rewrite Hr. by rewrite !Z.add_0_r.
Qed.

(** C12: what [fat32_write_file] writes to a chain [fat32_read_file] reads back,
    up to the capacity of the chain; neither touches the table, any other
    cluster, or memory outside the destination. *)
Theorem fat32_write_read_roundtrip fuel c l buf dst size s :
  vol_ok s -> chain s c l -> l <> [] -> (length l <= fuel)%nat -> buf <> 0 -> dst <> 0 -> 0 < size < 2 ^ 31 ->
  let n := Z.min size (capacity s l) in
  exists s1 s2, fat32_write_file fuel c buf size s = Some (n, s1) /\ fat32_read_file fuel c dst size s1 = Some (n, s2) /\
    (forall p, 0 <= p < n -> ram s2 (dst + p) = ram s (buf + p)) /\
    (forall x, ~ (dst <= x < dst + n) -> ram s2 x = ram s x) /\
    (forall x, valid s x -> fat s2 x = fat s x) /\
    (forall x i, valid s x -> 0 <= i < cluster_bytes s -> x ∉ l -> cdata s2 x i = cdata s x i).
Proof.
  intros V C Hne Hl Hb Hd Hs n.
  destruct (write_file_ok fuel c l buf size s V C Hne Hl Hb Hs) as (s1 & h & E1 & T1 & Ho & Hi).
  pose proof (vol_to_ok _ _ _ _ T1 V) as V1. pose proof (vt_frame _ _ _ _ T1) as F1.
  pose proof (frame_cluster_bytes _ _ F1) as Ecb.
  assert (chain s1 c l) as C1 by (eapply chain_ext; [done | intros x _ Hx; by apply T1 | done]).
  assert (capacity s1 l = capacity s l) as Ecap by (unfold capacity; by rewrite Ecb).
  destruct (read_file_ok fuel c l dst size s1 V1 C1 Hl Hd Hs) as (s2 & E2 & (m & [F2 Tf Td _]) & Hr).
  rewrite Ecap, ?Ecb in *. fold n in E1, E2, Hr, Hi. exists s1, s2. split; [done|]. split; [done|].
  pose proof (cluster_bytes_range s V). split; [|split; [|split]].
  - intros p Hp. rewrite Hr.
    destruct (Z.leb_spec dst (dst + p)), (Z.ltb_spec (dst + p) (dst + n)); simpl; try lia.
    replace (dst + p - dst) with p by lia. rewrite <- Hi by done. apply file_byte_ext; [lia | lia |].
    intros x i Hx Hxi. apply T1; [by eapply chain_valid | done].
  - intros x Hx. rewrite Hr, (fr_ram _ _ F1).
    destruct (Z.leb_spec dst x), (Z.ltb_spec x (dst + n)); simpl; done || lia.
  - intros x Hx. rewrite Tf by (by apply (frame_valid _ _ _ F1)). by apply T1.
  - intros x i Hx Hxi Hnx. rewrite Td; [|by apply (frame_valid _ _ x F1)| by change (0 <= i < cluster_bytes s1); rewrite Ecb].
    rewrite (vt_data _ _ _ _ T1) by done. by apply Ho.
Qed.

(** The parameters of a boot sector that describe a volume the driver's 32-bit
    arithmetic can address and the device can hold. *)
Record bpb_ok (b : mem) (lba cap : Z) : Prop := {
  bk_bytes : bytes_ok b;
  bk_sector : bpb_bytes_per_sector b = 512;
  bk_fat32 : bpb_root_entry_count b = 0 /\ bpb_fat_size_16 b = 0;
  bk_spc : 1 <= bpb_sectors_per_cluster b <= 128;
  bk_fats : 1 <= bpb_num_fats b /\ 1 <= bpb_fat_size_32 b;
  bk_lba : 0 <= lba;
}.

Definition bpb_total_sectors (b : mem) : Z :=
  if bpb_total_sectors_16 b =? 0 then bpb_total_sectors_32 b else bpb_total_sectors_16 b.
Definition bpb_overhead (b : mem) : Z := bpb_reserved_sectors b + bpb_num_fats b * bpb_fat_size_32 b.

(** Mounting a volume whose boot sector is sane gives the driver a geometry it
    can work with, with the clusters the sectors after the tables make. *)
Lemma fat32_init_ok s port lba b0 :
  0 <= lba -> lba < bd_capacity port (dev s) ->
  (forall i, 0 <= i < 512 -> b0 i = bd_bytes port (dev s) (lba * 512 + i)) ->
  bpb_ok b0 lba (bd_capacity port (dev s)) ->
  lba + bpb_total_sectors b0 < 2 ^ 32 -> lba + bpb_total_sectors b0 <= bd_capacity port (dev s) ->
  let clusters := (bpb_total_sectors b0 - bpb_overhead b0) / bpb_sectors_per_cluster b0 in
  bpb_overhead b0 < 2 ^ 32 -> 1 <= clusters <= FAT32_BAD - 2 -> (clusters + 2) * 4 <= bpb_fat_size_32 b0 * 512 ->
  exists s', fat32_init port lba s = Some (0, s') /\ vol_ok s' /\ g_total_clusters s' = clusters /\
    g_root_cluster s' = bpb_root_cluster b0 /\ dev s' = dev s /\ ram s' = ram s.
Proof.
  intros Hl Hcap Hb0 [Hbok Hsec [Hrc Hf16] Hspc [Hnf Hfs] _] H32 Htot clusters Hov Hcl Hfat.
  unfold fat32_init, read_sector. cbn [g_port dev].
  destruct (bd_read_ok port lba 1 (dev s)) as (b & -> & Hb); [done | lia | lia |]. cbn [Z.eqb negb set_sector s_sector].
  set (ov := overlay _ 0 512 b).
  assert (forall i, 0 <= i < 512 -> ov i = b0 i) as Hov0.
  { intros i Hi. unfold ov. rewrite overlay_inside, Z.sub_0_r, Hb0 by lia. apply Hb. unfold SECTOR. lia. }
  assert (forall n a, 0 <= a -> a + Z.of_nat n <= 512 -> load_le n ov a = load_le n b0 a) as Hld.
  { intros n a Ha Hn. apply load_le_agree. intros x Hx. apply Hov0. lia. }
  assert (bpb_bytes_per_sector ov = bpb_bytes_per_sector b0 /\ bpb_root_entry_count ov = bpb_root_entry_count b0 /\
    bpb_fat_size_16 ov = bpb_fat_size_16 b0 /\ bpb_sectors_per_cluster ov = bpb_sectors_per_cluster b0 /\
    bpb_reserved_sectors ov = bpb_reserved_sectors b0 /\ bpb_num_fats ov = bpb_num_fats b0 /\
    bpb_fat_size_32 ov = bpb_fat_size_32 b0 /\ bpb_total_sectors_16 ov = bpb_total_sectors_16 b0 /\
    bpb_total_sectors_32 ov = bpb_total_sectors_32 b0 /\ bpb_root_cluster ov = bpb_root_cluster b0)
    as (-> & -> & -> & -> & -> & -> & -> & -> & -> & ->).
  { split_and!; (apply Hld; lia) || (apply Hov0; lia). }
  clearbody ov. rewrite Hsec, Hrc, Hf16. cbn [Z.eqb Pos.eqb negb orb].
  destruct (Z.eqb_spec (bpb_sectors_per_cluster b0) 0); [lia|].
  assert (0 <= bpb_reserved_sectors b0 < 2 ^ 16) as Hr by by apply load16_range.
  assert (0 <= bpb_num_fats b0 < 256) as Hn by apply Hbok.
  set (fz := bpb_num_fats b0 * bpb_fat_size_32 b0) in *.
  assert (1 <= fz) as Hfz by (subst fz; nia). unfold bpb_overhead in *. fold fz in clusters, Hcl, Hfat, Hov |- *.
  assert ((if negb (bpb_total_sectors_16 b0 =? 0) then bpb_total_sectors_16 b0 else bpb_total_sectors_32 b0) = bpb_total_sectors b0)
    as -> by (unfold bpb_total_sectors; by destruct (_ =? _)).
  assert (clusters * bpb_sectors_per_cluster b0 <= bpb_total_sectors b0 - (bpb_reserved_sectors b0 + fz)) as Hcd.
  { unfold clusters. rewrite Z.mul_comm. apply Z.mul_div_le. lia. }
  assert ((bpb_total_sectors b0 - (bpb_reserved_sectors b0 + fz)) / bpb_sectors_per_cluster b0 = clusters) as Ecl by done.
  assert (fz = bpb_num_fats b0 * bpb_fat_size_32 b0) as Efz by done. clearbody clusters fz.
  assert (bpb_sectors_per_cluster b0 <= clusters * bpb_sectors_per_cluster b0) by nia.
  rewrite (u32_small (lba + bpb_reserved_sectors b0)), (u32_small fz), (u32_small (lba + bpb_reserved_sectors b0 + fz)),
    (u32_small (bpb_reserved_sectors b0 + fz)), (u32_small (bpb_total_sectors b0 - _)) by lia.
  rewrite Ecl. eexists. split; [done|]. split; [|done].
  constructor; cbn [g_ready g_spc g_num_fats g_fat_sectors g_fat_lba g_data_lba g_total_clusters g_port dev set_sector]; try done; lia.
Qed.

End Volume.

(** ** A small volume: two copies of a one-sector table, eight one-sector
    clusters, and a file in clusters 2 and 4. *)
Definition demo_disk : ramdisk :=
  mk_ramdisk (store32 (store32 (store32 (store32 (fun _ => 0) (512 + 8) 4) (512 + 16) FAT32_EOC_MIN)
                (1024 + 8) 4) (1024 + 16) FAT32_EOC_MIN) 11.
Definition demo_fat32 : fat32 ramdisk :=
  mk_fat32 demo_disk (fun a => a mod 251) 0 0 1 3 2 1 true 2 1 8 (fun _ => 0) (fun _ => 0).

Lemma demo_fat32_ok : vol_ok demo_fat32.
Proof. constructor; unfold FAT32_BAD; cbn; lia || reflexivity. Qed.
Lemma demo_chain : chain demo_fat32 2 [2; 4].
Proof.
  cbn [chain]. assert (fat demo_fat32 2 = 4) as -> by (vm_compute; reflexivity).
  split_and!; try done; unfold valid; cbn; lia.
Qed.

Lemma fat32_alloc_correct_witness : exists r s', fat32_alloc_contiguous 3 demo_fat32 = (r, s') /\ chain s' r (seqZ r 3).
Proof.
  destruct (fat32_alloc_correct demo_fat32 3 demo_fat32_ok ltac:(lia)) as (r & s' & E & _ & _ & HH).
  exists r, s'. split; [done|]. destruct HH as [(-> & Hno & _)|(_ & _ & C & _)]; [|done].
  exfalso. apply (Hno 5). split; [lia|]. split; [cbn; lia|]. intros c Hc.
  assert (c = 5 \/ c = 6 \/ c = 7) as [->|[->| ->]] by lia; vm_compute; done.
Defined.

Lemma fat32_free_chain_correct_witness : exists s', fat32_free_chain 2 2 demo_fat32 = Some (0, s') /\ fat s' 4 = 0.
Proof.
  destruct (fat32_free_chain_correct 2 2 [2; 4] demo_fat32 demo_fat32_ok demo_chain ltac:(done) ltac:(cbn; lia))
    as (s' & E & Hf & _).
  exists s'. split; [done|]. apply Hf. apply elem_of_cons. right. apply elem_of_cons. by left.
Defined.

Lemma fat32_write_read_roundtrip_witness : exists s1 s2,
  fat32_write_file 2 2 5000 700 demo_fat32 = Some (700, s1) /\ fat32_read_file 2 2 9000 700 s1 = Some (700, s2) /\
  ram s2 9600 = ram demo_fat32 5600.
Proof.
  destruct (fat32_write_read_roundtrip 2 2 [2; 4] 5000 9000 700 demo_fat32 demo_fat32_ok demo_chain ltac:(done)
    ltac:(cbn; lia) ltac:(lia) ltac:(lia) ltac:(lia)) as (s1 & s2 & E1 & E2 & Hr & _).
  exists s1, s2. change (Z.min 700 _) with 700 in *. split; [done|]. split; [done|]. apply (Hr 600). lia.
Defined.
