(* ===== verification/Fat32Dir.v ===== *)
(** Directories of the FAT32 driver: what a lookup computes from the contents
    of the directory's clusters, where a new entry goes, and that a created
    file is found again and holds the data it was created with. *)

From S2P Require Import Prelude Memory Disk Fat32 Fat32Spec.
Local Open Scope Z_scope.

(** ** One cluster of entries *)

Lemma memcmp_loop_ext n i a a' b b' :
  (forall j, i <= j < i + Z.of_nat n -> a j = a' j /\ b j = b' j) -> memcmp_loop n i a b = memcmp_loop n i a' b'.
Proof.
  revert i. induction n as [|n IH]; intros i E; cbn [memcmp_loop]; [done|].
  destruct (E i ltac:(lia)) as [-> ->]. destruct (_ =? _); [|done]. apply IH. intros. apply E. lia.
Qed.

Lemma memcmp_loop_refl n i a : memcmp_loop n i a a = 0.
Proof. revert i. induction n as [|n IH]; intros i; cbn [memcmp_loop]; [done|]. by rewrite Z.eqb_refl. Qed.

(** Two buffers that agree on the 32 bytes of an entry. *)
Definition same_entry (b b' : mem) (de : Z) : Prop := forall i, de <= i < de + 32 -> b i = b' i.

Lemma entry_name83_same b b' de j : same_entry b b' de -> 0 <= j < 11 -> entry_name83 b de j = entry_name83 b' de j.
Proof.
  intros E Hj. unfold entry_name83, de_name, de_ext, load8. destruct (Z.ltb_spec j 8); by rewrite E by lia.
Qed.

Lemma load_same_entry n b b' de k :
  same_entry b b' de -> 0 <= k -> k + Z.of_nat n <= 32 -> load_le n b (de + k) = load_le n b' (de + k).
Proof. intros E Hk Hn. apply load_le_agree. intros x Hx. apply E. lia. Qed.

(** The verdict on one entry: [None] passes on to the next one. *)
Definition entry_verdict (b : mem) (de : Z) (name83 : mem) : option dir_scan :=
  if de_name b de 0 =? 0x00 then Some EndOfDir
  else if de_name b de 0 =? 0xE5 then None
  else if de_attr b de =? FAT_ATTR_LFN then None
  else if negb (Z.land (de_attr b de) FAT_ATTR_VOLUME_ID =? 0) then None
  else if memcmp_k (entry_name83 b de) name83 11 =? 0 then Some (Found (entry_cluster b de) (de_file_size b de))
  else None.

Lemma find_scan_unfold n de name83 b :
  find_scan (S n) de name83 b =
  match entry_verdict b de name83 with Some r => r | None => find_scan n (de + DIR_ENTRY_SIZE) name83 b end.
Proof. unfold entry_verdict. cbn [find_scan]. by repeat case_match. Qed.

Lemma entry_verdict_same b b' de name83 : same_entry b b' de -> entry_verdict b de name83 = entry_verdict b' de name83.
Proof.
  intros E. unfold entry_verdict, entry_cluster, de_name, de_attr, de_cluster_hi, de_cluster_lo, de_file_size, load8.
  rewrite !(E (de + 0)), !(E (de + 0x0B)) by lia. unfold load16, load32.
  rewrite (load_same_entry 2 b b' de 0x14), (load_same_entry 2 b b' de 0x1A), (load_same_entry 4 b b' de 0x1C) by (done || lia).
  unfold memcmp_k. rewrite (memcmp_loop_ext _ 0 (entry_name83 b de) (entry_name83 b' de) name83 name83); [done|].
  intros j Hj. split; [|done]. apply entry_name83_same; done || lia.
Qed.

Lemma find_scan_ext n de name83 b b' :
  (forall i, de <= i < de + 32 * Z.of_nat n -> b i = b' i) -> find_scan n de name83 b = find_scan n de name83 b'.
Proof.
  revert de. induction n as [|n IH]; intros de E; [done|]. rewrite !find_scan_unfold.
  rewrite (entry_verdict_same b b'); [|intros i Hi; apply E; lia].
  destruct (entry_verdict _ _ _); [done|]. apply IH. intros i Hi. unfold DIR_ENTRY_SIZE in Hi. apply E. lia.
Qed.

Lemma free_slot_verdict b i name83 :
  free_slot b i = false ->
  entry_verdict b (DIR_ENTRY_SIZE * i) name83 = None \/
  exists c z, entry_verdict b (DIR_ENTRY_SIZE * i) name83 = Some (Found c z).
Proof.
  unfold free_slot, entry_verdict. intros [E1 E2]%orb_false_iff. rewrite E1, E2. repeat case_match; eauto.
Qed.

(** Before the first free slot a scan never ends the directory, and entry
    [k] is reached unchanged when it is the only one that differs. *)
Lemma find_scan_skip n j k name83 b b' :
  0 <= j <= k -> k < j + Z.of_nat n ->
  (forall i, j <= i < k -> free_slot b i = false) -> (forall i, j <= i < k -> same_entry b b' (DIR_ENTRY_SIZE * i)) ->
  (forall c z, find_scan n (DIR_ENTRY_SIZE * j) name83 b <> Found c z) ->
  find_scan n (DIR_ENTRY_SIZE * j) name83 b' =
  match entry_verdict b' (DIR_ENTRY_SIZE * k) name83 with
  | Some r => r
  | None => find_scan (Z.to_nat (j + Z.of_nat n - k - 1)) (DIR_ENTRY_SIZE * (k + 1)) name83 b'
  end.
Proof.
  revert j. induction n as [|n IH]; intros j Hj Hk Hf Hs Hno; [lia|]. rewrite find_scan_unfold.
  destruct (decide (j = k)) as [->|Hne].
  - replace (DIR_ENTRY_SIZE * k + DIR_ENTRY_SIZE) with (DIR_ENTRY_SIZE * (k + 1)) by lia.
    by replace (Z.to_nat (k + Z.of_nat (S n) - k - 1)) with n by lia.
  - rewrite <- (entry_verdict_same b b') by (apply Hs; lia).
    rewrite find_scan_unfold in Hno.
    destruct (free_slot_verdict b j name83 (Hf j ltac:(lia))) as [Ev|(c & z & Ev)]; rewrite Ev in Hno |- *.
    + replace (DIR_ENTRY_SIZE * j + DIR_ENTRY_SIZE) with (DIR_ENTRY_SIZE * (j + 1)) in * by lia.
      rewrite (IH (j + 1)); [|lia|lia|intros; apply Hf; lia|intros; apply Hs; lia|done].
      by replace (j + 1 + Z.of_nat n - k - 1) with (j + Z.of_nat (S n) - k - 1) by lia.
    + by destruct (Hno c z).
Qed.

Lemma find_scan_full n j name83 b :
  0 <= j -> (forall i, j <= i < j + Z.of_nat n -> free_slot b i = false) ->
  find_scan n (DIR_ENTRY_SIZE * j) name83 b <> EndOfDir.
Proof.
  revert j. induction n as [|n IH]; intros j Hj Hf; [done|]. rewrite find_scan_unfold.
  destruct (free_slot_verdict b j name83 (Hf j ltac:(lia))) as [->|(c & z & ->)]; [|done].
  replace (DIR_ENTRY_SIZE * j + DIR_ENTRY_SIZE) with (DIR_ENTRY_SIZE * (j + 1)) by lia.
  apply IH; [lia|]. intros. apply Hf. lia.
Qed.

(** ** The entry [fat32_create_file] writes *)

Lemma write_dir_entry_outside b de name83 first size x :
  ~ (de <= x < de + 32) -> write_dir_entry b de name83 first size x = b x.
Proof.
  intros Hx. unfold write_dir_entry, store8, store16, store32.
  rewrite !store_le_outside by lia.
  assert (forall n k (f : Z -> Z) (m : mem), 0 <= k -> k + Z.of_nat n <= 32 ->
    for_up n 0 (fun j b => upd b (de + k + j) (f j)) m x = m x) as Hloop.
  { intros n k f m Hk Hn.
    apply (for_up_inv (fun j m' => m' x = m x) n 0 (fun j b => upd b (de + k + j) (f j)) m); [done|].
    intros j t Hj Ht. rewrite upd_ne by lia. done. }
  rewrite (Hloop 3%nat 8) by lia.
  pose proof (Hloop 8%nat 0) as H8. pose proof (Hloop 32%nat 0 (fun _ => 0)) as H32. rewrite Z.add_0_r in *.
  rewrite H8 by lia. by rewrite H32 by lia.
Qed.

(** The names [build_name83] makes: upper case, and not marked free. *)
Definition good_name (name83 : mem) : Prop :=
  (forall j, 0 <= j < 11 -> to_upper (name83 j) = name83 j) /\ name83 0 <> 0x00 /\ name83 0 <> 0xE5.

Lemma write_dir_entry_name b de name83 first size j :
  0 <= j < 11 -> entry_name83 (write_dir_entry b de name83 first size) de j = to_upper (name83 j).
Proof.
  intros Hj. unfold entry_name83, de_name, de_ext, load8, write_dir_entry, store8, store16, store32. f_equal.
  assert (forall n k (f : Z -> Z) (m : mem) y,
    for_up n 0 (fun j b => upd b (de + k + j) (f j)) m (de + y) =
    if (k <=? y) && (y <? k + Z.of_nat n) then f (y - k) else m (de + y)) as Hloop.
  { intros n k f m y. pose proof (for_up_inv (fun i m' => forall y, m' (de + y) = if (k <=? y) && (y <? k + i) then f (y - k) else m (de + y))
      n 0 (fun j b => upd b (de + k + j) (f j)) m) as Hinv. cbn beta in Hinv. apply Hinv.
    - intros z. destruct (Z.leb_spec k z), (Z.ltb_spec z (k + 0)); simpl; done || lia.
    - intros i t Hi Ht z. unfold upd. rewrite Ht.
      destruct (Z.eqb_spec (de + k + i) (de + z)), (Z.leb_spec k z), (Z.ltb_spec z (k + i)), (Z.ltb_spec z (k + (i + 1)));
        simpl; try done; try lia. f_equal. lia. }
  destruct (Z.ltb_spec j 8).
  - rewrite !store_le_outside by lia. rewrite (Hloop 3%nat 8 (fun j => name83 (8 + j))).
    destruct (Z.leb_spec 8 j); [lia|]. cbn [andb].
    pose proof (Hloop 8%nat 0 name83) as H8. rewrite Z.add_0_r in H8. rewrite H8.
    destruct (Z.leb_spec 0 j), (Z.ltb_spec j (0 + Z.of_nat 8)); simpl; try lia. f_equal. lia.
  - replace (de + 0x08 + (j - 8)) with (de + j) by lia. rewrite !store_le_outside by lia.
    rewrite (Hloop 3%nat 8 (fun j => name83 (8 + j))).
    destruct (Z.leb_spec 8 j), (Z.ltb_spec j (8 + Z.of_nat 3)); simpl; try lia. f_equal. lia.
Qed.

Lemma split_cluster c : 0 <= c < 2 ^ 32 ->
  Z.lor (Z.shiftl (u16 (u16 (Z.shiftr c 16))) 16) (u16 (u16 (Z.land c 0xFFFF))) = c.
Proof.
  intros Hc. change 0xFFFF with (2 ^ 16 - 1). rewrite land_ones_mod, Z.shiftr_div_pow2, Z.shiftl_mul_pow2 by lia.
  assert (0 <= c / 2 ^ 16 < 2 ^ 16) by dlia. pose proof (Z.mod_pos_bound c (2 ^ 16) ltac:(lia)).
  rewrite (u16_small (c / 2 ^ 16)), (u16_small (c mod 2 ^ 16)), !u16_small by done.
  rewrite (lor_disjoint _ _ 16); [|lia|by apply Z.mod_mul|done]. rewrite Z.mul_comm. symmetry. by apply Z.div_mod.
Qed.

(** What a lookup of [other] makes of the entry written for [name83]. *)
Lemma write_dir_entry_verdict b de name83 first size other :
  good_name name83 -> 0 <= first < 2 ^ 32 -> 0 <= size < 2 ^ 32 ->
  entry_verdict (write_dir_entry b de name83 first size) de other = if memcmp_k name83 other 11 =? 0 then Some (Found first size) else None.
Proof.
  intros (Hup & H0 & HE5) Hf Hs. set (b' := write_dir_entry _ _ _ _ _).
  assert (forall j, 0 <= j < 11 -> entry_name83 b' de j = name83 j) as Hname
    by (intros j Hj; unfold b'; rewrite write_dir_entry_name, Hup by done; done).
  assert (de_attr b' de = FAT_ATTR_ARCHIVE) as Ea.
  { unfold de_attr, load8, b', write_dir_entry, store16, store32. rewrite !store_le_outside by lia.
    unfold store8, store_le. destruct (Z.leb_spec (de + 11) (de + 11)), (Z.ltb_spec (de + 11) (de + 11 + Z.of_nat 1));
      simpl; try lia. by rewrite Z.sub_diag. }
  assert (entry_cluster b' de = first) as Ecl.
  { unfold entry_cluster, de_cluster_hi, de_cluster_lo, b', write_dir_entry, store8, store16, store32, load16.
    rewrite !(load_le_store_other 2 4) by lia. rewrite load_le_store_le.
    rewrite (load_le_store_other 2 2 _ (de + 20)) by lia. rewrite load_le_store_le.
    change (2 ^ (8 * Z.of_nat 2)) with (2 ^ 16). by apply split_cluster. }
  assert (de_file_size b' de = size) as Esz.
  { unfold de_file_size, b', write_dir_entry. rewrite load32_store32. by apply u32_small. }
  assert (de_name b' de 0 <> 0x00 /\ de_name b' de 0 <> 0xE5) as [N0 NE].
  { specialize (Hname 0 ltac:(lia)). unfold entry_name83 in Hname. cbn [Z.ltb Z.compare] in Hname.
    unfold to_upper in Hname.
    assert (name83 0 <> 0x00 /\ name83 0 <> 0xE5 /\ ~ (97 <= name83 0 <= 122)) as (G1 & G2 & G3).
    { split_and!; [done..|]. specialize (Hup 0 ltac:(lia)). unfold to_upper in Hup.
      destruct (Z.leb_spec 97 (name83 0)), (Z.leb_spec (name83 0) 122); simpl in Hup; lia. }
    destruct (Z.leb_spec 97 (de_name b' de 0)), (Z.leb_spec (de_name b' de 0) 122); simpl in Hname; lia. }
  clearbody b'. unfold entry_verdict. rewrite Ea, Ecl, Esz.
  destruct (Z.eqb_spec (de_name b' de 0) 0), (Z.eqb_spec (de_name b' de 0) 0xE5); try done.
  unfold memcmp_k. rewrite (memcmp_loop_ext _ 0 _ name83 other other); [done|].
  intros j Hj. split; [|done]. apply Hname. lia.
Qed.

Lemma write_dir_entry_found b de name83 first size :
  good_name name83 -> 0 <= first < 2 ^ 32 -> 0 <= size < 2 ^ 32 ->
  entry_verdict (write_dir_entry b de name83 first size) de name83 = Some (Found first size).
Proof. intros Hg Hf Hs. rewrite write_dir_entry_verdict by done. unfold memcmp_k. by rewrite memcmp_loop_refl. Qed.

(** Two names that differ. *)
Definition other_name (a b : mem) : Prop := exists j, 0 <= j < 11 /\ a j <> b j.

Lemma memcmp_loop_other n i a b : (exists j, i <= j < i + Z.of_nat n /\ a j <> b j) -> memcmp_loop n i a b <> 0.
Proof.
  revert i. induction n as [|n IH]; intros i (j & Hj & Hne); cbn [memcmp_loop]; [lia|].
  destruct (Z.eqb_spec (a i) (b i)); [|lia]. apply IH. exists j. split; [|done]. assert (j <> i) by (by intros ->). lia.
Qed.

Section Directory.
Context {D : Type} {BD : BlockDev D} {BS : BlockDevSpec D}.
Implicit Type s : fat32 D.

Hint Resolve vol_ok_sector vol_ok_buf vol_ok_ram : core.

(** ** Lookup *)

(** What a lookup finds in the clusters [l] of a directory with contents [h],
    [n] entries to a cluster. *)
Fixpoint lookup_dir (h : Z -> Z -> Z) (n : nat) (l : list Z) (name83 : mem) : option (Z * Z) :=
  match l with
  | [] => None
  | c :: r =>
      match find_scan n 0 name83 (h c) with
      | Found cl sz => Some (cl, sz)
      | EndOfDir => None
      | NextCluster => lookup_dir h n r name83
      end
  end.

Definition entries s : nat := Z.to_nat (entries_in_cluster s).

Lemma entries_bytes s : vol_ok s -> 32 * Z.of_nat (entries s) = cluster_bytes s /\ 16 <= Z.of_nat (entries s).
Proof.
  intros V. unfold entries, entries_in_cluster, cluster_bytes, DIR_ENTRY_SIZE. pose proof (v_spc _ V).
  replace (g_spc s * 512) with (g_spc s * 16 * 32) by lia. rewrite Z.div_mul by lia. lia.
Qed.

Lemma lookup_dir_ext s h h' l name83 :
  vol_ok s -> (forall c i, c ∈ l -> 0 <= i < cluster_bytes s -> h c i = h' c i) ->
  lookup_dir h (entries s) l name83 = lookup_dir h' (entries s) l name83.
Proof.
  intros V. destruct (entries_bytes s V) as [En _]. induction l as [|c l IH]; intros E; cbn [lookup_dir]; [done|].
  rewrite (find_scan_ext _ 0 _ (h c) (h' c)).
  - rewrite IH; [done|]. intros. apply E; [apply elem_of_cons; auto | done].
  - intros i Hi. apply E; [apply elem_of_cons; auto | lia].
Qed.

Lemma find_file_loop_ok fuel c l name83 s :
  vol_ok s -> chain s c l -> (length l <= fuel)%nat ->
  exists s', find_file_loop fuel c name83 s = Some (lookup_dir (cdata s) (entries s) l name83, s') /\ same_volume s s'.
Proof.
  revert c l s. induction fuel as [|fuel IH]; intros c [|x l] s V C Hl; cbn [find_file_loop]; cbn [length] in Hl.
  1,3: cbn [chain] in C; rewrite C; exists s; split; [done | apply same_volume_refl].
  - lia.
  - destruct C as (-> & Hv & C). rewrite (valid_in_chain s) by done.
    destruct (read_cluster_ok s c V Hv) as (b & -> & Hb). cbn [Z.eqb negb lookup_dir s_cluster_buf set_cluster_buf].
    change (entries_in_cluster (set_cluster_buf b s)) with (entries_in_cluster s). fold (entries s).
    destruct (entries_bytes s V) as [En _].
    rewrite (find_scan_ext _ 0 _ b (cdata s c)) by (intros i Hi; apply Hb; lia).
    pose proof (same_volume_buf s b) as Sb.
    destruct (find_scan (entries s) 0 name83 (cdata s c)) as [cl sz| |].
    + by eexists.
    + by eexists.
    + destruct (next_cluster_ok (set_cluster_buf b s) c) as (b2 & ->); [auto | done |].
      change (fat (set_cluster_buf b s) c) with (fat s c). set (s2 := set_sector b2 _).
      assert (same_volume s s2) as S2 by (eapply same_volume_trans; [done | apply same_volume_sector]).
      destruct (IH (fat s c) l s2) as (s' & -> & S'); [exact (same_volume_ok _ _ V S2) | | lia |].
      { exact (same_volume_chain _ _ _ _ S2 C). }
      exists s'. split; [done|]. by eapply same_volume_trans.
Qed.

(** [fat32_find_file] ends within the length of the directory and returns
    what the entries of its clusters say, changing nothing on the disk. *)
Theorem fat32_find_file_correct fuel c l name83 s :
  vol_ok s -> chain s c l -> (length l <= fuel)%nat ->
  exists s', fat32_find_file fuel c name83 s = Some (lookup_dir (cdata s) (entries s) l name83, s') /\ same_volume s s'.
Proof. intros V C Hl. unfold fat32_find_file. rewrite (v_ready _ V). by apply find_file_loop_ok. Qed.

(** ** Where a new entry goes *)

Fixpoint slot_dir (h : Z -> Z -> Z) (n : nat) (l : list Z) : option (Z * Z) :=
  match l with
  | [] => None
  | c :: r => match find_up n 0 (free_slot (h c)) with Some i => Some (c, i) | None => slot_dir h n r end
  end.

Lemma free_slot_ext n b b' :
  (forall i, 0 <= i < 32 * Z.of_nat n -> b i = b' i) -> find_up n 0 (free_slot b) = find_up n 0 (free_slot b').
Proof.
  intros E. assert (forall i, 0 <= i < Z.of_nat n -> free_slot b i = free_slot b' i) as Hs.
  { intros i Hi. unfold free_slot, de_name, load8, DIR_ENTRY_SIZE. by rewrite !E by lia. }
  destruct (find_up n 0 (free_slot b')) as [k|] eqn:Eb.
  - apply find_up_Some in Eb as (H1 & H2 & H3). apply find_up_first; [done | by rewrite Hs by lia |].
    intros j Hj. rewrite Hs by lia. by apply H3.
  - apply find_up_None. intros j Hj. rewrite Hs by lia. by apply (proj1 (find_up_None _ _ _) Eb).
Qed.

Lemma slot_dir_ext s h h' l :
  vol_ok s -> (forall c i, c ∈ l -> 0 <= i < cluster_bytes s -> h c i = h' c i) ->
  slot_dir h (entries s) l = slot_dir h' (entries s) l.
Proof.
  intros V. destruct (entries_bytes s V) as [En _]. induction l as [|c l IH]; intros E; cbn [slot_dir]; [done|].
  rewrite (free_slot_ext _ (h c) (h' c)).
  - rewrite IH; [done|]. intros. apply E; [apply elem_of_cons; auto | done].
  - intros i Hi. apply E; [apply elem_of_cons; auto | lia].
Qed.

(** Contents with the entry for a file put at entry [i] of cluster [c]. *)
Definition put_entry (h : Z -> Z -> Z) (c i : Z) (name83 : mem) (first size : Z) : Z -> Z -> Z :=
  fun c' => if c' =? c then write_dir_entry (h c) (DIR_ENTRY_SIZE * i) name83 first size else h c'.

(** A name that was not found is found where its entry is put. *)
Lemma lookup_put s h l c i name83 first size :
  vol_ok s -> NoDup l -> good_name name83 -> 0 <= first < 2 ^ 32 -> 0 <= size < 2 ^ 32 ->
  lookup_dir h (entries s) l name83 = None -> slot_dir h (entries s) l = Some (c, i) ->
  lookup_dir (put_entry h c i name83 first size) (entries s) l name83 = Some (first, size).
Proof.
  intros V Hnd Hg Hf Hs. induction l as [|x l IH]; cbn [lookup_dir slot_dir]; [done|]. apply NoDup_cons in Hnd as [Hx Hnd].
  intros Hl. destruct (find_up _ 0 (free_slot (h x))) as [k|] eqn:Ef.
  - intros [= -> ->]. apply find_up_Some in Ef as (H1 & H2 & H3). unfold put_entry at 1. rewrite Z.eqb_refl.
    assert (find_scan (entries s) 0 name83 (write_dir_entry (h c) (DIR_ENTRY_SIZE * i) name83 first size) = Found first size) as ->; [|done].
    change 0 with (DIR_ENTRY_SIZE * 0). rewrite (find_scan_skip _ 0 i _ (h c)); [| lia | lia | done | | ].
    + by rewrite write_dir_entry_found.
    + intros j Hj y Hy. symmetry. apply write_dir_entry_outside. unfold DIR_ENTRY_SIZE in *. lia.
    + intros cl sz E. change (DIR_ENTRY_SIZE * 0) with 0 in E. by rewrite E in Hl.
  - intros Hsl. assert (x <> c) as Hne.
    { intros ->. apply Hx. clear -Hsl. induction l as [|y l IH]; cbn [slot_dir] in Hsl; [done|].
      apply elem_of_cons. destruct (find_up _ _ _); [injection Hsl as ->; auto | auto]. }
    unfold put_entry at 1. destruct (Z.eqb_spec x c); [done|].
    assert (forall j, 0 <= j < 0 + Z.of_nat (entries s) -> free_slot (h x) j = false) as Hfull by by apply find_up_None.
    pose proof (find_scan_full (entries s) 0 name83 (h x) ltac:(lia) Hfull) as Hend. change (DIR_ENTRY_SIZE * 0) with 0 in Hend.
    destruct (find_scan (entries s) 0 name83 (h x)); [done | done |]. by apply IH.
Qed.

(** The scan for another name passes over the new entry. *)
Lemma find_scan_other n j k b name83 first size other (b' := write_dir_entry b (DIR_ENTRY_SIZE * k) name83 first size) :
  good_name name83 -> 0 <= first < 2 ^ 32 -> 0 <= size < 2 ^ 32 -> other_name name83 other ->
  0 <= j <= k -> k < j + Z.of_nat n -> free_slot b k = true ->
  find_scan n (DIR_ENTRY_SIZE * j) other b <> EndOfDir -> find_scan n (DIR_ENTRY_SIZE * j) other b' = find_scan n (DIR_ENTRY_SIZE * j) other b.
Proof.
  intros Hg Hf Hs Ho. revert j. induction n as [|n IH]; intros j Hj Hk Hfree; [done|]. rewrite !find_scan_unfold.
  replace (DIR_ENTRY_SIZE * j + DIR_ENTRY_SIZE) with (DIR_ENTRY_SIZE * (j + 1)) by lia. destruct (decide (j = k)) as [->|Hne].
  - unfold b' at 1. rewrite write_dir_entry_verdict by done. destruct (Z.eqb_spec (memcmp_k name83 other 11) 0) as [E|_]; [by apply memcmp_loop_other in E|].
    unfold free_slot in Hfree. unfold entry_verdict. destruct (de_name b (DIR_ENTRY_SIZE * k) 0 =? 0); [done|]. cbn [orb] in Hfree. rewrite Hfree. intros _.
    apply find_scan_ext. intros i Hi. apply write_dir_entry_outside. unfold DIR_ENTRY_SIZE in *. lia.
  - rewrite (entry_verdict_same b' b) by (intros i Hi; apply write_dir_entry_outside; unfold DIR_ENTRY_SIZE in *; lia).
    destruct (entry_verdict b (DIR_ENTRY_SIZE * j) other); [done|]. apply IH; lia || done.
Qed.

(** Names that were found are found with the same file as before. *)
Lemma lookup_put_other s h l c i name83 first size other v :
  vol_ok s -> NoDup l -> good_name name83 -> 0 <= first < 2 ^ 32 -> 0 <= size < 2 ^ 32 -> other_name name83 other ->
  slot_dir h (entries s) l = Some (c, i) -> lookup_dir h (entries s) l other = Some v ->
  lookup_dir (put_entry h c i name83 first size) (entries s) l other = Some v.
Proof.
  intros V Hnd Hg Hf Hs Ho. induction l as [|x l IH]; cbn [lookup_dir slot_dir]; [done|]. apply NoDup_cons in Hnd as [Hx Hnd].
  destruct (find_up _ 0 (free_slot (h x))) as [k|] eqn:Ef.
  - intros [= -> ->]. apply find_up_Some in Ef as (H1 & H2 & _). unfold put_entry at 1. rewrite Z.eqb_refl. intros Hl.
    pose proof (find_scan_other (entries s) 0 i (h c) name83 first size other Hg Hf Hs Ho ltac:(lia) ltac:(lia) H2) as E.
    change (DIR_ENTRY_SIZE * 0) with 0 in E. destruct (find_scan (entries s) 0 other (h c)) as [cl sz| |]; [by rewrite E | done |].
    rewrite E by done. rewrite <- Hl. apply lookup_dir_ext; [done|]. intros y j Hy _. unfold put_entry. by destruct (Z.eqb_spec y c) as [->|].
  - intros Hsl Hl. unfold put_entry at 1. destruct (Z.eqb_spec x c) as [->|].
    { destruct Hx. clear -Hsl. induction l as [|y l IH]; cbn [slot_dir] in Hsl; [done|].
      apply elem_of_cons. destruct (find_up _ _ _); [injection Hsl as ->; auto | auto]. }
    destruct (find_scan (entries s) 0 other (h x)); [done | done |]. by apply IH.
Qed.

Lemma lookup_dir_app h n l l2 other v : lookup_dir h n l other = Some v -> lookup_dir h n (l ++ l2) other = Some v.
Proof. induction l as [|x l IH]; cbn [lookup_dir app]; [done|]. by destruct (find_scan n 0 other (h x)). Qed.

(** The entry a search for a free slot gives was free. *)
Lemma slot_dir_free h n l c i : slot_dir h n l = Some (c, i) -> c ∈ l /\ free_slot (h c) i = true.
Proof.
  induction l as [|x l IH]; cbn [slot_dir]; [done|]. destruct (find_up n 0 (free_slot (h x))) as [k|] eqn:Ef.
  - intros [= -> ->]. apply find_up_Some in Ef as (_ & H2 & _). split; [by left | done].
  - intros E. destruct (IH E). split; [by right | done].
Qed.

(** The same for a directory that had to grow by the cluster [d]. *)
Lemma lookup_grow s h l d name83 first size :
  vol_ok s -> d ∉ l -> good_name name83 -> 0 <= first < 2 ^ 32 -> 0 <= size < 2 ^ 32 ->
  lookup_dir h (entries s) l name83 = None -> slot_dir h (entries s) l = None ->
  lookup_dir (put_entry h d 0 name83 first size) (entries s) (l ++ [d]) name83 = Some (first, size).
Proof.
  intros V Hd Hg Hf Hs. induction l as [|x l IH]; cbn [lookup_dir slot_dir app].
  - intros _ _. unfold put_entry. rewrite Z.eqb_refl.
    destruct (entries s) eqn:En; [pose proof (entries_bytes s V); lia|].
    rewrite find_scan_unfold. change (DIR_ENTRY_SIZE * 0) with 0. by rewrite write_dir_entry_found.
  - apply not_elem_of_cons in Hd as [Hne Hd]. intros Hl.
    destruct (find_up _ 0 (free_slot (h x))) eqn:Ef; [done|]. intros Hsl.
    unfold put_entry at 1. destruct (Z.eqb_spec x d); [done|].
    pose proof (find_scan_full (entries s) 0 name83 (h x) ltac:(lia) ltac:(by apply find_up_None)) as Hend.
    change (DIR_ENTRY_SIZE * 0) with 0 in Hend.
    destruct (find_scan (entries s) 0 name83 (h x)); [done | done |]. by apply IH.
Qed.

Lemma write_dir_entry_ext b b' de name83 first size x :
  b x = b' x -> write_dir_entry b de name83 first size x = write_dir_entry b' de name83 first size x.
Proof.
  intros E. unfold write_dir_entry, store8, store16, store32.
  assert (forall n (m m' : mem) v a, m x = m' x -> store_le n m a v x = store_le n m' a v x) as Hst.
  { intros n m m' v a Em. unfold store_le. by destruct (_ && _). }
  assert (forall n k (f : Z -> Z) (m m' : mem) (i : Z), m x = m' x ->
    for_up n i (fun j b => upd b (k + j) (f j)) m x = for_up n i (fun j b => upd b (k + j) (f j)) m' x) as Hloop.
  { intros n k f. induction n as [|n IH]; intros m m' i Em; cbn [for_up]; [done|]. apply IH. unfold upd.
    by destruct (_ =? _). }
  apply Hst, Hst, Hst, Hst. apply (Hloop 3%nat (de + 0x08) (fun j => name83 (8 + j))).
  apply (Hloop 8%nat de name83). by apply (Hloop 32%nat de (fun _ => 0)).
Qed.

Lemma last_default (l : list Z) a b : l <> [] -> List.last l a = List.last l b.
Proof. induction l as [|x l IH]; [done|]. intros _. destruct l as [|y l]; [done|]. by apply IH. Qed.

Lemma create_slot_loop_ok fuel c l lst name83 first size s :
  vol_ok s -> chain s c l -> (length l <= fuel)%nat ->
  exists s', match slot_dir (cdata s) (entries s) l with
    | Some (x, i) =>
        create_slot_loop fuel c lst name83 first size s = Some (inl 0, s') /\
        vol_to s s' (fat s) (put_entry (cdata s) x i name83 first size)
    | None =>
        create_slot_loop fuel c lst name83 first size s = Some (inr (List.last l lst), s') /\
        vol_to s s' (fat s) (cdata s)
    end.
Proof.
  revert c l lst s. induction fuel as [|fuel IH]; intros c [|x l] lst s V C Hl; cbn [create_slot_loop]; cbn [length] in Hl.
  1,3: cbn [chain] in C; rewrite C; exists s; split; [done | apply vol_to_refl].
  - lia.
  - destruct C as (-> & Hv & C). rewrite (valid_in_chain s) by done.
    destruct (read_cluster_ok s c V Hv) as (b & -> & Hb). cbn [Z.eqb negb slot_dir s_cluster_buf set_cluster_buf].
    change (entries_in_cluster (set_cluster_buf b s)) with (entries_in_cluster s). fold (entries s).
    destruct (entries_bytes s V) as [En _].
    rewrite (free_slot_ext _ b (cdata s c)) by (intros i Hi; apply Hb; lia).
    destruct (find_up _ 0 (free_slot (cdata s c))) as [i|].
    + set (s1 := set_cluster_buf _ _). destruct (write_cluster_ok s1 c) as (s' & -> & _ & T); [unfold s1; auto | done |].
      exists s'. split; [done|]. apply vol_to_from_buf, vol_to_from_buf in T.
      eapply vol_to_ext; [done | | done]. intros c' j Hc' Hj. unfold put_entry. cbn beta.
      destruct (Z.eqb_spec c' c) as [->|]; [|done]. apply write_dir_entry_ext. by apply Hb.
    + destruct (next_cluster_ok (set_cluster_buf b s) c) as (b2 & ->); [auto | done |].
      change (fat (set_cluster_buf b s) c) with (fat s c).
      destruct (IH (fat s c) l c (set_sector b2 (set_cluster_buf b s))) as (s' & HH); [auto | | lia |].
      { eapply chain_ext; [| |done]; done. }
      change (entries (set_sector b2 (set_cluster_buf b s))) with (entries s) in HH.
      change (cdata (set_sector b2 (set_cluster_buf b s))) with (cdata s) in HH.
      exists s'. destruct (slot_dir (cdata s) (entries s) l) as [[y i]|]; destruct HH as [-> T].
      * split; [done|]. by apply vol_to_from_sector, vol_to_from_buf in T.
      * split; [|by apply vol_to_from_sector, vol_to_from_buf in T]. destruct l as [|y l]; [done|].
        by rewrite (last_default (c :: y :: l) lst c).
Qed.

(** The last cluster of a chain, and linking another cluster behind it. *)
Lemma chain_last s c l lst : chain s c l -> l <> [] -> valid s (List.last l lst) /\ List.last l lst ∈ l.
Proof.
  revert c lst. induction l as [|x l IH]; intros c lst; cbn [chain]; [done|]. intros (-> & Hv & C) _.
  destruct l as [|y l]; [split; [done|]; cbn; apply elem_of_cons; auto|].
  destruct (IH _ lst C ltac:(done)) as [H1 H2]. change (List.last (c :: y :: l) lst) with (List.last (y :: l) lst).
  split; [done|]. apply elem_of_cons. auto.
Qed.

Lemma chain_grow s s' c l d lst :
  frame s s' -> chain s c l -> NoDup l -> l <> [] -> valid s d -> in_chain (fat s' d) = false ->
  (forall x, x ∈ l -> fat s' x = if x =? List.last l lst then d else fat s x) -> chain s' c (l ++ [d]).
Proof.
  intros F C Hnd Hne Hd Hend. revert c C. induction l as [|x l IH]; intros c C Hx; [done|].
  destruct C as (-> & Hv & C). cbn [app chain]. split; [done|]. split; [by apply (frame_valid _ _ _ F)|].
  apply NoDup_cons in Hnd as [Hni Hnd]. rewrite (Hx c) by (apply elem_of_cons; auto).
  destruct l as [|y l].
  - cbn [List.last app chain]. rewrite Z.eqb_refl. split; [done|]. split; [by apply (frame_valid _ _ _ F) | done].
  - change (List.last (c :: y :: l) lst) with (List.last (y :: l) lst) in *.
    destruct (chain_last s _ _ lst C ltac:(done)) as [_ Hin].
    destruct (Z.eqb_spec c (List.last (y :: l) lst)) as [E|_]; [by rewrite <- E in Hin|].
    apply IH; [done | done | done |]. intros z Hz. apply Hx. apply elem_of_cons. auto.
Qed.

(** ** Creating a file *)

Lemma clear_cluster_ok s c :
  vol_ok s -> valid s c ->
  exists s', fat32_clear_cluster c s = (0, s') /\ (forall i, 0 <= i < cluster_bytes s -> s_cluster_buf s' i = 0) /\
    vol_to s s' (fat s) (fun c' i => if c' =? c then 0 else cdata s c' i).
Proof.
  intros V Hc. unfold fat32_clear_cluster. fold (cluster_bytes s). pose proof (cluster_bytes_range s V).
  rewrite u32_small by lia. set (b := fill _ _ _ _).
  assert (forall i, 0 <= i < cluster_bytes s -> b i = 0) as Hb.
  { intros i Hi. unfold b, fill. destruct (Z.leb_spec 0 i), (Z.ltb_spec i (0 + cluster_bytes s)); simpl; done || lia. }
  destruct (write_cluster_ok (set_cluster_buf b s) c) as (s' & -> & Eb & T); [auto | done |].
  exists s'. split; [done|]. cbn [s_cluster_buf set_cluster_buf] in *. split; [intros i Hi; rewrite Eb; by apply Hb|].
  apply vol_to_from_buf in T. eapply vol_to_ext; [done | | done].
  intros c' i _ Hi. cbn beta. destruct (c' =? c); [by apply Hb | done].
Qed.

(** The directory [l] extended by the cluster [d]. *)
Definition extended (g : Z -> Z) (l : list Z) (d : Z) : Z -> Z :=
  fun x => if x =? List.last l 0 then d else if x =? d then FAT32_EOC_MIN else g x.

Lemma create_extend_ok s c l lst name83 first size :
  vol_ok s -> chain s c l -> l <> [] -> (forall x, x ∈ l -> fat s x <> FAT32_FREE) ->
  exists s', ((forall x, ~ free_run s x 1) /\ fst (create_extend (List.last l lst) name83 first size s) = -1) \/
    exists d, free_run s d 1 /\ create_extend (List.last l lst) name83 first size s = (0, s') /\
      vol_to s s' (extended (fat s) l d) (put_entry (fun c' i => if c' =? d then 0 else cdata s c' i) d 0 name83 first size).
Proof.
  intros V C Hne Hused. unfold create_extend. rewrite (last_default l lst 0) by done. set (q := List.last l 0).
  destruct (chain_last s c l 0 C Hne) as [Hq Hql]. fold q in Hq, Hql.
  destruct (alloc_contiguous_ok s 1 V ltac:(lia)) as (d & s1 & -> & [(-> & T1 & Hno)|(Hd & _ & T1)]).
  { exists s. left. split; [done|]. done. }
  destruct Hd as (Hd1 & Hd2 & Hd3). assert (valid s d) as Hvd by (unfold valid; lia).
  destruct (Z.eqb_spec d 0); [lia|]. destruct (Z.leb_spec 2 q); [|unfold valid in Hq; lia].
  assert (q <> d) as Hqd by (intros <-; apply (Hused q Hql), Hd3; lia).
  pose proof (table_to_ok _ _ _ T1 V) as V1.
  assert (0 <= d < 2 ^ 28) as Hd28.
  { assert (g_total_clusters s <= FAT32_BAD - 2) by apply V. unfold FAT32_BAD in *. lia. }
  destruct (set_entry_ok s1 q d V1) as (s2 & -> & T2); [by apply (table_to_valid _ _ _ q T1) | done |]. cbn [Z.eqb negb].
  pose proof (table_to_trans _ _ _ _ _ T1 T2) as T12. pose proof (table_to_vol _ _ _ V T12) as T.
  pose proof (table_to_ok _ _ _ T12 V) as V2.
  destruct (clear_cluster_ok s2 d V2) as (s3 & -> & Hz & T3); [by apply (table_to_valid _ _ _ d T12)|]. cbn [Z.eqb negb].
  pose proof (vol_to_ok _ _ _ _ T3 V2) as V3.
  set (s4 := set_cluster_buf _ s3).
  destruct (write_cluster_ok s4 d) as (s' & -> & _ & T4);
    [unfold s4; auto | by apply (frame_valid _ _ _ (vt_frame _ _ _ _ T3)), (table_to_valid _ _ _ d T12) |].
  apply vol_to_from_buf in T4. cbn [Z.eqb negb]. exists s'. right. exists d. split; [done|]. split; [done|].
  pose proof (vol_to_trans _ _ _ _ _ _ _ T T3) as TA. pose proof (vol_to_trans _ _ _ _ _ _ _ TA T4) as TB.
  eapply vol_to_ext; [| |exact TB].
  - intros x Hx. change (fat s4 x) with (fat s3 x). rewrite (vt_fat _ _ _ _ TA x Hx), (vt_fat _ _ _ _ T x Hx).
    unfold extended. fold q. destruct (Z.eqb_spec x q); [done|]. rewrite (tt_fat _ _ _ T1 x Hx). unfold linked.
    destruct (Z.leb_spec d x), (Z.ltb_spec x (d + 1)), (Z.eqb_spec x d), (Z.ltb_spec (x + 1) (d + 1)); simpl; done || lia.
  - intros c' i Hc' Hi. unfold put_entry. rewrite Z.eqb_refl. destruct (Z.eqb_spec c' d) as [->|Hcd].
    + apply write_dir_entry_ext. rewrite Hz; [done|].
      by rewrite (frame_cluster_bytes _ _ (vt_frame _ _ _ _ T)).
    + change (cdata s4 c' i) with (cdata s3 c' i). rewrite (vt_data _ _ _ _ TA c' i Hc' Hi).
      destruct (Z.eqb_spec c' d); [done|]. by apply (vt_data _ _ _ _ T).
Qed.

Lemma needed_clusters_spec s size :
  vol_ok s -> 0 < size < 2 ^ 31 ->
  1 <= needed_clusters size s < 2 ^ 31 /\ size <= needed_clusters size s * cluster_bytes s.
Proof.
  intros V Hs. unfold needed_clusters. fold (cluster_bytes s). pose proof (cluster_bytes_range s V).
  rewrite (u32_small (cluster_bytes s)), (u32_small (size + cluster_bytes s - 1)) by lia.
  pose proof (Z.div_mod (size + cluster_bytes s - 1) (cluster_bytes s) ltac:(lia)) as Hdm.
  pose proof (Z.mod_pos_bound (size + cluster_bytes s - 1) (cluster_bytes s) ltac:(lia)) as Hm.
  set (n := (size + cluster_bytes s - 1) / cluster_bytes s) in *.
  assert (1 <= n) by (apply Z.div_le_lower_bound; lia).
  assert (n < 2 ^ 31) by (apply Z.div_lt_upper_bound; nia).
  destruct (Z.eqb_spec n 0); lia.
Qed.

Lemma create_data_ok fuel data size s r s1 (n := needed_clusters size s) :
  vol_ok s -> 0 < size < 2 ^ 31 -> data <> 0 -> (Z.to_nat n <= fuel)%nat ->
  free_run s r n -> table_to s s1 (linked (fat s) r r n) ->
  exists s2 h, fat32_write_file fuel r data size s1 = Some (size, s2) /\
    vol_to s s2 (linked (fat s) r r n) h /\
    (forall c i, valid s c -> 0 <= i < cluster_bytes s -> c ∉ seqZ r n -> h c i = cdata s c i) /\
    (forall p, 0 <= p < size -> file_byte h (cluster_bytes s) (seqZ r n) p = ram s (data + p)).
Proof.
  intros V Hs Hd Hf Hrun T1. destruct (needed_clusters_spec s size V Hs) as [Hn1 Hn2]. fold n in Hn1, Hn2.
  pose proof (table_to_ok _ _ _ T1 V) as V1. pose proof (table_to_vol _ _ _ V T1) as T1v.
  pose proof (linked_chain _ _ _ _ (proj1 Hn1) Hrun (vt_frame _ _ _ _ T1v) (vt_fat _ _ _ _ T1v)) as C1. pose proof (vt_frame _ _ _ _ T1v) as F1.
  pose proof (frame_cluster_bytes _ _ F1) as Ecb.
  destruct (write_file_ok fuel r (seqZ r n) data size s1 V1 C1) as (s2 & h & E & T2 & Ho & Hi); try done.
  { intros E. apply (f_equal length) in E. rewrite length_seqZ in E. cbn [length] in E. lia. }
  { by rewrite length_seqZ. }
  replace (Z.min size (capacity s1 (seqZ r n))) with size in *
    by (unfold capacity; rewrite length_seqZ, Ecb; lia).
  rewrite Ecb, (fr_ram _ _ F1) in *. exists s2, h. split; [done|]. split; [|split; [|done]].
  - eapply vol_to_ext; [| |exact (vol_to_trans _ _ _ _ _ _ _ T1v T2)]; [|done]. intros c Hc. by apply T1.
  - intros c i Hc Hi' Hnr. rewrite Ho; [by apply T1v | by apply (frame_valid _ _ c F1) | done | done].
Qed.

(** What a volume [s'] must hold after the file was created in the run
    [r .. r + n) and entered into the directory at [dir]. *)
Record created s s' (dir : Z) (l l' : list Z) (name83 : mem) (r n size data : Z) : Prop := {
  cr_ok : vol_ok s';
  cr_cb : cluster_bytes s' = cluster_bytes s;
  cr_run : free_run s r n;
  cr_dir : chain s' dir l' /\ (length l' <= S (length l))%nat;
  cr_entry : lookup_dir (cdata s') (entries s') l' name83 = Some (r, size);
  cr_file : chain s' r (seqZ r n);
  cr_bytes : forall p, 0 <= p < size -> file_byte (cdata s') (cluster_bytes s') (seqZ r n) p = ram s (data + p);
  cr_fat : forall c, valid s c -> fat s c <> FAT32_FREE -> c ∉ l -> fat s' c = fat s c;
  cr_data : forall c i, valid s c -> 0 <= i < cluster_bytes s -> fat s c <> FAT32_FREE -> c ∉ l -> cdata s' c i = cdata s c i;
  cr_slots : forall c i, c ∈ l -> 0 <= i < Z.of_nat (entries s) -> free_slot (cdata s c) i = false -> same_entry (cdata s c) (cdata s' c) (DIR_ENTRY_SIZE * i);
  cr_others : forall other v, other_name name83 other -> lookup_dir (cdata s) (entries s) l other = Some v -> lookup_dir (cdata s') (entries s') l' other = Some v;
}.

Lemma linked_outside g r n c : c ∉ seqZ r n -> linked g r r n c = g c.
Proof.
  intros Hc. unfold linked. destruct (Z.leb_spec r c), (Z.ltb_spec c (r + n)); simpl; try done.
  destruct Hc. apply elem_of_seqZ. lia.
Qed.

Lemma used_not_in_run s r n c : free_run s r n -> fat s c <> FAT32_FREE -> c ∉ seqZ r n.
Proof. intros (_ & _ & Hf) Hc Hin. apply elem_of_seqZ in Hin. by apply Hc, Hf. Qed.

(** The step that enters the file: [d] is the extra directory cluster, if any. *)
Lemma created_intro s s2 s3 dir l l' name83 r n size data g h h3 :
  vol_ok s -> free_run s r n -> 1 <= n ->
  (forall x, x ∈ l -> fat s x <> FAT32_FREE) ->
  (forall c i, valid s c -> 0 <= i < cluster_bytes s -> c ∉ seqZ r n -> h c i = cdata s c i) ->
  (forall p, 0 <= p < size -> file_byte h (cluster_bytes s) (seqZ r n) p = ram s (data + p)) ->
  vol_to s s2 (linked (fat s) r r n) h -> vol_to s2 s3 g h3 ->
  (forall c, valid s c -> fat s2 c <> FAT32_FREE -> c ∉ l -> g c = fat s2 c) ->
  (forall c i, valid s c -> 0 <= i < cluster_bytes s -> fat s2 c <> FAT32_FREE -> c ∉ l -> h3 c i = cdata s2 c i) ->
  chain s3 dir l' -> (length l' <= S (length l))%nat ->
  lookup_dir (cdata s3) (entries s3) l' name83 = Some (r, size) ->
  (forall c i, c ∈ l -> 0 <= i < Z.of_nat (entries s) -> free_slot (cdata s c) i = false -> same_entry (cdata s c) (cdata s3 c) (DIR_ENTRY_SIZE * i)) ->
  (forall other v, other_name name83 other -> lookup_dir (cdata s) (entries s) l other = Some v -> lookup_dir (cdata s3) (entries s3) l' other = Some v) ->
  created s s3 dir l l' name83 r n size data.
Proof.
  intros V Hrun Hn Hused Hh Hbytes T2 T3 Hg Hh3 Hdir Hlen Hlook Hslots Hothers.
  pose proof (vol_to_trans _ _ _ _ _ _ _ T2 T3) as T.
  pose proof (frame_cluster_bytes _ _ (vt_frame _ _ _ _ T)) as Ecb.
  assert (forall c, c ∈ seqZ r n -> valid s c /\ fat s2 c <> FAT32_FREE /\ c ∉ l) as Hr.
  { intros c Hc. pose proof Hc as Hc'. apply elem_of_seqZ in Hc'. destruct Hrun as (R1 & R2 & R3).
    assert (valid s c) as Hv by (unfold valid; lia). split; [done|]. split.
    - rewrite (vt_fat _ _ _ _ T2) by done. unfold linked, FAT32_EOC_MIN, FAT32_FREE.
      destruct (Z.leb_spec r c), (Z.ltb_spec c (r + n)); simpl; try lia. zcase; lia.
    - intros Hl. apply (Hused c Hl), R3. lia. }
  constructor; try done.
  - by eapply vol_to_ok.
  - eapply (chain_ext s2); [apply T3 | |].
    + intros c Hc _. destruct (Hr c Hc) as (Hv & Hf & Hl).
      rewrite (vt_fat _ _ _ _ T3) by (by apply (frame_valid _ _ _ (vt_frame _ _ _ _ T2))). by apply Hg.
    + by eapply linked_chain; [| | apply T2 | apply T2].
  - intros p Hp. rewrite Ecb, <- Hbytes by done. pose proof (cluster_bytes_range s V).
    apply file_byte_ext; [lia | lia |]. intros c i Hc Hi. destruct (Hr c Hc) as (Hv & Hf & Hl).
    rewrite (vt_data _ _ _ _ T) by done. rewrite Hh3 by done. by apply T2.
  - intros c Hc Hf Hl. rewrite (vt_fat _ _ _ _ T) by done. pose proof (used_not_in_run _ _ _ _ Hrun Hf) as Ho.
    assert (fat s2 c = fat s c) as E2 by (rewrite (vt_fat _ _ _ _ T2) by done; by apply linked_outside).
    rewrite Hg by (done || by rewrite E2). done.
  - intros c i Hc Hi Hf Hl. rewrite (vt_data _ _ _ _ T) by done. pose proof (used_not_in_run _ _ _ _ Hrun Hf) as Ho.
    assert (fat s2 c = fat s c) as E2 by (rewrite (vt_fat _ _ _ _ T2) by done; by apply linked_outside).
    rewrite Hh3 by (done || by rewrite E2). rewrite (vt_data _ _ _ _ T2) by done. by apply Hh.
Qed.

(** Entering the file once its data is written, in a free slot or in a new
    directory cluster. *)
Section Enter.
Context (fuel : nat) (dir : Z) (l : list Z) (name83 : mem) (r n size data : Z) (s s2 : fat32 D) (h : Z -> Z -> Z).
Hypothesis V : vol_ok s.
Hypothesis C : chain s dir l.
Hypothesis Hne : l <> [].
Hypothesis Hused : forall x, x ∈ l -> fat s x <> FAT32_FREE.
Hypothesis Hg : good_name name83.
Hypothesis Hno : lookup_dir (cdata s) (entries s) l name83 = None.
Hypothesis Hrun : free_run s r n.
Hypothesis Hn : 1 <= n.
Hypothesis Hs : 0 < size < 2 ^ 31.
Hypothesis T2 : vol_to s s2 (linked (fat s) r r n) h.
Hypothesis Hh : forall c i, valid s c -> 0 <= i < cluster_bytes s -> c ∉ seqZ r n -> h c i = cdata s c i.
Hypothesis Hb : forall p, 0 <= p < size -> file_byte h (cluster_bytes s) (seqZ r n) p = ram s (data + p).

Local Lemma enter_ok : vol_ok s2.
Proof. exact (vol_to_ok _ _ _ _ T2 V). Qed.

Local Lemma enter_frame : frame s s2.
Proof. apply T2. Qed.

Local Lemma enter_dir x : x ∈ l -> valid s x /\ x ∉ seqZ r n /\ fat s2 x = fat s x.
Proof.
  intros Hx. pose proof (chain_valid _ _ _ _ C Hx) as Hv. pose proof (used_not_in_run _ _ _ _ Hrun (Hused x Hx)) as Ho.
  split; [done|]. split; [done|]. rewrite (vt_fat _ _ _ _ T2) by done. by apply linked_outside.
Qed.

Local Lemma enter_chain : chain s2 dir l.
Proof. eapply chain_ext; [apply enter_frame | intros x Hx _; by apply enter_dir | apply C]. Qed.

Local Lemma enter_entries s' : frame s s' -> entries s' = entries s.
Proof. intros F. unfold entries, entries_in_cluster. by destruct (frame_fields _ _ F) as (_ & _ & _ & -> & _). Qed.

(** The directory is not touched by the writing of the file's data. *)
Local Lemma enter_data c i : c ∈ l -> 0 <= i < cluster_bytes s -> cdata s2 c i = cdata s c i.
Proof. intros Hc Hi. destruct (enter_dir c Hc) as (Hv & Ho & _). rewrite (vt_data _ _ _ _ T2) by done. by apply Hh. Qed.

Local Lemma enter_lookup name : lookup_dir (cdata s2) (entries s) l name = lookup_dir (cdata s) (entries s) l name.
Proof. apply lookup_dir_ext; [done|]. apply enter_data. Qed.

Local Lemma enter_free c i : c ∈ l -> 0 <= i < Z.of_nat (entries s) -> free_slot (cdata s2 c) i = free_slot (cdata s c) i.
Proof.
  intros Hc Hi. destruct (entries_bytes s V) as [En _]. unfold free_slot, de_name, load8, DIR_ENTRY_SIZE. by rewrite !enter_data by (done || lia).
Qed.

Local Lemma enter_bounds : 0 <= r < 2 ^ 32 /\ 0 <= size < 2 ^ 32.
Proof.
  destruct Hrun as (R1 & R2 & R3). assert (g_total_clusters s <= FAT32_BAD - 2) by apply V. unfold FAT32_BAD in *. lia.
Qed.

Local Lemma enter_slot s3 x i :
  slot_dir (cdata s2) (entries s) l = Some (x, i) -> vol_to s2 s3 (fat s2) (put_entry (cdata s2) x i name83 r size) ->
  created s s3 dir l l name83 r n size data.
Proof.
  intros Es T3. pose proof (vt_frame _ _ _ _ T3) as F3. pose proof enter_frame as F2. destruct enter_bounds as [Hr32 Hs32].
  assert (x ∈ l) as Hx.
  { clear -Es. induction l as [|y l' IH]; cbn [slot_dir] in Es; [done|]. apply elem_of_cons.
    destruct (find_up _ _ _); [injection Es as ->; auto | auto]. }
  assert (forall c j, c ∈ l -> 0 <= j < cluster_bytes s -> cdata s3 c j = put_entry (cdata s2) x i name83 r size c j) as Ed.
  { intros c j Hc Hj. apply T3; [by apply (frame_valid _ _ _ F2), enter_dir | by rewrite (frame_cluster_bytes _ _ F2)]. }
  destruct (slot_dir_free _ _ _ _ _ Es) as [_ Hfree]. destruct (entries_bytes s V) as [En _].
  eapply (created_intro s s2 s3 dir l l); try done; [ | | lia | | |].
  - intros c j _ _ _ Hc. unfold put_entry. by destruct (Z.eqb_spec c x) as [->|].
  - eapply chain_ext; [done | | apply enter_chain]. intros c _ Hc. by apply T3.
  - rewrite (enter_entries s3) by (by etrans). rewrite (lookup_dir_ext s _ (put_entry (cdata s2) x i name83 r size)).
    + apply lookup_put; try done; [by eapply chain_nodup | by rewrite enter_lookup].
    + done.
    + done.
  - intros c k Hc Hk Hfk y Hy. unfold DIR_ENTRY_SIZE in Hy. rewrite Ed by (done || lia). unfold put_entry. destruct (Z.eqb_spec c x) as [->|].
    + rewrite write_dir_entry_outside; [symmetry; apply enter_data; done || lia|]. assert (k <> i) by (intros ->; rewrite enter_free in Hfree by done; congruence).
      unfold DIR_ENTRY_SIZE. lia.
    + symmetry. apply enter_data; done || lia.
  - intros other v Ho Hv. rewrite (enter_entries s3) by (by etrans). rewrite (lookup_dir_ext s _ (put_entry (cdata s2) x i name83 r size)) by done.
    apply lookup_put_other; try done; [by eapply chain_nodup | by rewrite enter_lookup].
Qed.

Section Grow.
Context (s3 : fat32 D).
Hypothesis Es : slot_dir (cdata s2) (entries s) l = None.
Hypothesis T3 : vol_to s2 s3 (fat s2) (cdata s2).

Local Lemma grow_frame : frame s s3.
Proof. etrans; [apply enter_frame | apply T3]. Qed.

Local Lemma grow_fat c : valid s c -> fat s3 c = fat s2 c.
Proof. intros Hc. apply T3. by apply (frame_valid _ _ _ enter_frame). Qed.

Local Lemma grow_data c i : valid s c -> 0 <= i < cluster_bytes s -> cdata s3 c i = cdata s2 c i.
Proof.
  intros Hc Hi. apply T3; [by apply (frame_valid _ _ _ enter_frame) | by rewrite (frame_cluster_bytes _ _ enter_frame)].
Qed.

Local Lemma grow_chain : chain s3 dir l.
Proof. eapply (chain_ext s2); [apply T3 | intros c _ Hc; by apply T3 | apply enter_chain]. Qed.

Local Lemma grow_used y : y ∈ l -> fat s3 y <> FAT32_FREE.
Proof. intros Hy. destruct (enter_dir y Hy) as (Hv & _ & E). rewrite grow_fat, E by done. by apply Hused. Qed.

Local Lemma grow_full : (forall x, ~ free_run s3 x 1) -> forall x, valid s x -> fat s x = FAT32_FREE -> r <= x < r + n.
Proof.
  intros Hfull y Hy Hfy. destruct (decide (r <= y < r + n)) as [|Hout]; [done|].
  destruct (Hfull y). split; [unfold valid in Hy; lia|].
  destruct (frame_fields _ _ grow_frame) as (_ & _ & -> & _). split; [unfold valid in Hy; lia|].
  intros c Hc. assert (c = y) as -> by lia. rewrite grow_fat, (vt_fat _ _ _ _ T2) by done.
  rewrite linked_outside; [done|]. rewrite elem_of_seqZ. lia.
Qed.

Local Lemma grow_created s4 d :
  free_run s3 d 1 ->
  vol_to s3 s4 (extended (fat s3) l d) (put_entry (fun c' i => if c' =? d then 0 else cdata s3 c' i) d 0 name83 r size) ->
  created s s4 dir l (l ++ [d]) name83 r n size data.
Proof.
  intros (D1 & D2 & D3) T4. pose proof grow_frame as F. pose proof grow_chain as C3. destruct enter_bounds as [Hr32 Hs32].
  destruct (frame_fields _ _ F) as (_ & _ & Et & _). rewrite Et in D2.
  assert (valid s d) as Hvd by (unfold valid; lia). assert (fat s3 d = FAT32_FREE) as Hfd by (apply D3; lia).
  assert (d ∉ l) as Hdn by (intros Hdin; by apply (grow_used d Hdin)).
  destruct (chain_last s3 dir l 0 C3 Hne) as [_ Hlast].
  assert (forall c i, c ∈ l -> 0 <= i < cluster_bytes s -> cdata s4 c i = cdata s c i) as Ed.
  { intros c i Hc Hi. rewrite (vt_data _ _ _ _ T4) by (by apply (frame_valid _ _ _ F), enter_dir || by rewrite (frame_cluster_bytes _ _ F)).
    unfold put_entry. destruct (Z.eqb_spec c d) as [->|]; [done|]. rewrite grow_data by (done || by apply enter_dir). by apply enter_data. }
  eapply (created_intro s s2 s4 dir l (l ++ [d])) with
    (g := extended (fat s3) l d)
    (h3 := put_entry (fun c' i => if c' =? d then 0 else cdata s3 c' i) d 0 name83 r size); try done.
  - exact (vol_to_trans _ _ _ _ _ _ _ T3 T4).
  - intros c Hc Hfc Hcl. unfold extended. rewrite grow_fat by done.
    destruct (Z.eqb_spec c (List.last l 0)) as [->|]; [done|]. destruct (Z.eqb_spec c d) as [->|]; [|done].
    by rewrite grow_fat in Hfd.
  - intros c i Hc Hi Hfc Hcl. unfold put_entry. destruct (Z.eqb_spec c d) as [->|]; [by rewrite grow_fat in Hfd|].
    by apply grow_data.
  - eapply (chain_grow s3 s4 dir l d 0); [apply T4 | done | by eapply chain_nodup | done | by apply (frame_valid _ _ _ F) | |].
    + rewrite (vt_fat _ _ _ _ T4) by (by apply (frame_valid _ _ _ F)). unfold extended.
      destruct (Z.eqb_spec d (List.last l 0)) as [E|]; [by rewrite <- E in Hlast|]. by rewrite Z.eqb_refl.
    + intros y Hy. rewrite (vt_fat _ _ _ _ T4) by (apply (frame_valid _ _ _ F); by apply enter_dir). unfold extended.
      destruct (Z.eqb_spec y (List.last l 0)); [done|]. by destruct (Z.eqb_spec y d) as [->|].
  - rewrite length_app. cbn [length]. lia.
  - rewrite (enter_entries s4) by (etrans; [exact F | apply T4]).
    set (h0 := fun c' i => if c' =? d then 0 else cdata s3 c' i) in *.
    assert (forall c i, c ∈ l -> 0 <= i < cluster_bytes s -> h0 c i = cdata s2 c i) as Hh0.
    { intros c i Hc Hi. unfold h0. destruct (Z.eqb_spec c d) as [->|]; [done|]. apply grow_data; [by apply enter_dir | done]. }
    rewrite (lookup_dir_ext s _ (put_entry h0 d 0 name83 r size)); [| done |].
    + apply lookup_grow; try done; [rewrite <- Hno, <- enter_lookup; by apply lookup_dir_ext | rewrite <- Es; by apply slot_dir_ext].
    + intros c i Hc Hi. apply T4; [|by rewrite (frame_cluster_bytes _ _ F)]. apply (frame_valid _ _ _ F).
      apply elem_of_app in Hc as [Hc|Hc]; [by apply enter_dir|]. apply elem_of_cons in Hc as [->|Hc]; [done|].
      by apply elem_of_nil in Hc.
  - intros c k Hc Hk _ y Hy. destruct (entries_bytes s V) as [En _]. unfold DIR_ENTRY_SIZE in Hy. symmetry. apply Ed; done || lia.
  - intros other v _ Hv. rewrite (enter_entries s4) by (etrans; [exact F | apply T4]). apply lookup_dir_app. rewrite <- Hv. apply lookup_dir_ext; done.
Qed.
End Grow.

Lemma create_enter_ok :
  (length l <= fuel)%nat ->
  exists res s3, create_slot_loop fuel dir 0 name83 r size s2 = Some (res, s3) /\
    match res with
    | inl rc => rc = 0 /\ created s s3 dir l l name83 r n size data
    | inr q => exists s4,
        (fst (create_extend q name83 r size s3) = -1 /\ forall x, valid s x -> fat s x = FAT32_FREE -> r <= x < r + n) \/
        (create_extend q name83 r size s3 = (0, s4) /\ exists d, created s s4 dir l (l ++ [d]) name83 r n size data)
    end.
Proof.
  intros Hl. destruct (create_slot_loop_ok fuel dir l 0 name83 r size s2 enter_ok enter_chain Hl) as (s3 & HH).
  rewrite (enter_entries s2 enter_frame) in HH.
  destruct (slot_dir (cdata s2) (entries s) l) as [[x i]|] eqn:Es; destruct HH as [-> T3].
  - exists (inl 0), s3. split; [done|]. split; [done|]. by eapply enter_slot.
  - exists (inr (List.last l 0)), s3. split; [done|].
    destruct (create_extend_ok s3 dir l 0 name83 r size) as (s4 & [[Hfull Erc]|(d & Hd & -> & T4)]); try done.
    + exact (vol_to_ok _ _ _ _ T3 enter_ok).
    + by apply (grow_chain s3).
    + intros y Hy. by apply (grow_used s3).
    + exists s3. left. split; [done|]. by apply (grow_full s3).
    + exists s4. right. split; [done|]. exists d. by apply (grow_created s3 Es T3).
Qed.
End Enter.

Lemma created_use fuel s s' dir l l' name83 r n size data dst :
  created s s' dir l l' name83 r n size data -> vol_ok s -> (length l + Z.to_nat n < fuel)%nat ->
  dst <> 0 -> 0 < size < 2 ^ 31 -> size <= n * cluster_bytes s ->
  (exists s'', fat32_find_file fuel dir name83 s' = Some (Some (r, size), s'')) /\
  (exists s'', fat32_read_file fuel r dst size s' = Some (size, s'') /\
     forall p, 0 <= p < size -> ram s'' (dst + p) = ram s (data + p)) /\
  (forall other v, other_name name83 other -> lookup_dir (cdata s) (entries s) l other = Some v ->
    exists s'', fat32_find_file fuel dir other s' = Some (Some v, s'')) /\
  (forall c i, c ∈ l -> 0 <= i < Z.of_nat (entries s) -> free_slot (cdata s c) i = false -> same_entry (cdata s c) (cdata s' c) (DIR_ENTRY_SIZE * i)) /\
  (forall c, valid s c -> fat s c <> FAT32_FREE -> c ∉ l -> fat s' c = fat s c /\
     forall i, 0 <= i < cluster_bytes s -> cdata s' c i = cdata s c i).
Proof.
  intros [V' Ecb Hrun [Cd Hlen] He Cf Hb Hf Hdt Hsl Hot] V Hfuel Hdst Hs Hn.
  split; [|split; [|split; [|split; [done|]]]].
  - unfold fat32_find_file. rewrite (v_ready _ V').
    destruct (find_file_loop_ok fuel dir l' name83 s' V' Cd ltac:(lia)) as (s'' & -> & _). rewrite He. by eexists.
  - destruct (read_file_ok fuel r (seqZ r n) dst size s' V' Cf) as (s'' & E & _ & Hr); [rewrite length_seqZ; lia | done..|].
    replace (Z.min size _) with size in * by (unfold capacity; rewrite length_seqZ, Ecb; pose proof (cluster_bytes_range s V); nia).
    exists s''. split; [done|]. intros p Hp. rewrite Hr.
    destruct (Z.leb_spec dst (dst + p)), (Z.ltb_spec (dst + p) (dst + size)); simpl; try lia.
    replace (dst + p - dst) with p by lia. by apply Hb.
  - intros other v Ho Hv. unfold fat32_find_file. rewrite (v_ready _ V').
    destruct (find_file_loop_ok fuel dir l' other s' V' Cd ltac:(lia)) as (s'' & -> & _). exists s''. by rewrite (Hot other v Ho Hv).
  - intros c Hc Hfc Hcl. split; [by apply Hf|]. intros i Hi. by apply Hdt.
Qed.

(** C11: creating a file under a name the directory does not hold either fails
    with -1 because the volume or the directory is full, or succeeds; then the
    name is found with the file's first cluster and size, reading the file
    returns the data it was created with, every other name the directory held
    is found with the file it had, no entry in use is changed, and every other
    file keeps its clusters and contents. *)
Theorem fat32_create_then_find fuel dir l name83 data size dst s (n := needed_clusters size s) :
  vol_ok s -> chain s dir l -> l <> [] -> (forall x, x ∈ l -> fat s x <> FAT32_FREE) -> good_name name83 ->
  (length l + Z.to_nat n < fuel)%nat -> data <> 0 -> dst <> 0 -> 0 < size < 2 ^ 31 ->
  lookup_dir (cdata s) (entries s) l name83 = None ->
  exists rc first s', fat32_create_file fuel dir name83 data size s = Some ((rc, first), s') /\
    ((rc = -1 /\ ((forall x, ~ free_run s x n) \/
        exists r, free_run s r n /\ forall x, valid s x -> fat s x = FAT32_FREE -> r <= x < r + n)) \/
     (rc = 0 /\
      (exists s'', fat32_find_file fuel dir name83 s' = Some (Some (first, size), s'')) /\
      (exists s'', fat32_read_file fuel first dst size s' = Some (size, s'') /\
         forall p, 0 <= p < size -> ram s'' (dst + p) = ram s (data + p)) /\
      (forall other v, other_name name83 other -> lookup_dir (cdata s) (entries s) l other = Some v ->
        exists s'', fat32_find_file fuel dir other s' = Some (Some v, s'')) /\
      (forall c i, c ∈ l -> 0 <= i < Z.of_nat (entries s) -> free_slot (cdata s c) i = false -> same_entry (cdata s c) (cdata s' c) (DIR_ENTRY_SIZE * i)) /\
      (forall c, valid s c -> fat s c <> FAT32_FREE -> c ∉ l -> fat s' c = fat s c /\
         forall i, 0 <= i < cluster_bytes s -> cdata s' c i = cdata s c i))).
Proof.
  intros V C Hne Hused Hg Hf Hd Hdst Hs Hno. destruct (needed_clusters_spec s size V Hs) as [Hn1 Hn2]. fold n in Hn1, Hn2.
  assert (valid s dir) as Hv by (destruct l as [|x l']; [done | apply C]).
  unfold fat32_create_file. rewrite (v_ready _ V). destruct (Z.ltb_spec dir 2); [unfold valid in Hv; lia|]. cbn [negb orb].
  fold n. destruct (alloc_contiguous_ok s n V ltac:(lia)) as (r & s1 & -> & [(-> & T1 & Hfull)|(Hrun & _ & T1)]).
  { exists (-1), 0, s1. split; [done|]. left. auto. }
  destruct (Z.eqb_spec r 0) as [->|]; [destruct Hrun; lia|].
  destruct (Z.eqb_spec data 0); [done|]. destruct (Z.ltb_spec 0 size); [|lia]. cbn [negb andb].
  destruct (create_data_ok fuel data size s r s1 V Hs Hd ltac:(lia) Hrun T1) as (s2 & h & -> & T2 & Hh & Hb).
  cbn [mbind option_bind]. rewrite s32_small, Z.eqb_refl by lia. cbn [negb].
  destruct (create_enter_ok fuel dir l name83 r n size data s s2 h V C Hne Hused Hg Hno Hrun ltac:(lia) Hs T2 Hh Hb
    ltac:(lia)) as (res & s3 & -> & HH). cbn [mbind option_bind].
  destruct res as [rc|q].
  - destruct HH as [-> Hcr]. exists 0, r, s3. split; [done|]. right. split; [done|]. eapply (created_use fuel s); done || lia.
  - destruct HH as (s4 & [[Erc Hfull]|(-> & d & Hcr)]).
    + destruct (create_extend q name83 r size s3) as [rc s5]. cbn in Erc. subst rc.
      exists (-1), 0, s5. split; [done|]. left. split; [done|]. right. by exists r.
    + exists 0, r, s4. split; [done|]. right. split; [done|]. eapply (created_use fuel s); done || lia.
Qed.

End Directory.

(** ** A volume whose root directory (cluster 2) is empty *)
Definition hello_txt : mem := fun j => nth (Z.to_nat j) [72; 69; 76; 76; 79; 32; 32; 32; 84; 88; 84] 0.
Definition demo_root : fat32 ramdisk :=
  mk_fat32 (mk_ramdisk (store32 (store32 (fun _ => 0) (512 + 8) FAT32_EOC_MIN) (1024 + 8) FAT32_EOC_MIN) 11)
    (fun a => a mod 251) 0 0 1 3 2 1 true 2 1 8 (fun _ => 0) (fun _ => 0).

Lemma demo_root_ok : vol_ok demo_root.
Proof. constructor; unfold FAT32_BAD; cbn; lia || reflexivity. Qed.
Lemma demo_root_chain : chain demo_root 2 [2].
Proof.
  cbn [chain]. assert (fat demo_root 2 = FAT32_EOC_MIN) as -> by (vm_compute; reflexivity).
  split_and!; try done; unfold valid; cbn; lia.
Qed.
Lemma hello_txt_good : good_name hello_txt.
Proof.
  split; [|done]. intros j Hj.
  assert (j = 0 \/ j = 1 \/ j = 2 \/ j = 3 \/ j = 4 \/ j = 5 \/ j = 6 \/ j = 7 \/ j = 8 \/ j = 9 \/ j = 10) as Hc by lia.
  repeat destruct Hc as [->|Hc]; try reflexivity. by rewrite Hc.
Qed.
Lemma demo_root_free c : 3 <= c < 10 -> fat demo_root c = FAT32_FREE.
Proof.
  intros Hc. assert (c = 3 \/ c = 4 \/ c = 5 \/ c = 6 \/ c = 7 \/ c = 8 \/ c = 9) as Hx by lia.
  destruct Hx as [->|[->|[->|[->|[->|[->| ->]]]]]]; vm_compute; reflexivity.
Qed.

Lemma fat32_find_file_correct_witness : exists s', fat32_find_file 1 2 hello_txt demo_root = Some (None, s').
Proof.
  destruct (fat32_find_file_correct 1 2 [2] hello_txt demo_root demo_root_ok demo_root_chain ltac:(cbn; lia))
    as (s' & E & _).
  exists s'. rewrite E. vm_compute lookup_dir. reflexivity.
Defined.

Lemma demo_root_used x : x ∈ [2] -> fat demo_root x <> FAT32_FREE.
Proof. intros [->|Hx]%elem_of_cons; [vm_compute; done | by apply elem_of_nil in Hx]. Qed.
Lemma demo_root_empty : lookup_dir (cdata demo_root) (entries demo_root) [2] hello_txt = None.
Proof. vm_compute. reflexivity. Qed.
Lemma demo_root_room : ~ ((forall x, ~ free_run demo_root x 2) \/
  exists r, free_run demo_root r 2 /\ forall x, valid demo_root x -> fat demo_root x = FAT32_FREE -> r <= x < r + 2).
Proof.
  intros [Hno|(r & _ & Hall)].
  - apply (Hno 3). split; [lia|]. split; [cbn; lia|]. intros c Hc. apply demo_root_free. lia.
  - pose proof (Hall 3) as H3. pose proof (Hall 9) as H9.
    assert (r <= 3 < r + 2) by (apply H3; [unfold valid; cbn; lia | apply demo_root_free; lia]).
    assert (r <= 9 < r + 2) by (apply H9; [unfold valid; cbn; lia | apply demo_root_free; lia]). lia.
Qed.

Lemma fat32_create_then_find_witness : exists first s' s'',
  fat32_create_file 9 2 hello_txt 5000 700 demo_root = Some ((0, first), s') /\
  fat32_find_file 9 2 hello_txt s' = Some (Some (first, 700), s'').
Proof.
  assert (1 + Z.to_nat (needed_clusters 700 demo_root) < 9)%nat as Hf
    by (change (needed_clusters 700 demo_root) with 2; lia).
  pose proof (fat32_create_then_find 9 2 [2] hello_txt 5000 700 9000 demo_root demo_root_ok demo_root_chain
    ltac:(done) demo_root_used hello_txt_good Hf ltac:(lia) ltac:(lia) ltac:(lia) demo_root_empty) as HH.
  change (needed_clusters 700 demo_root) with 2 in HH.
  destruct HH as (rc & first & s' & E & [[-> Hno]|(-> & (s'' & Hf') & _)]).
  - by destruct demo_root_room.
  - exists first, s', s''. split; [exact E | exact Hf'].
Defined.
