(* ===== verification/Tokenizer.v ===== *)
(** The BPE tokenizer (kernel/llm/tokenizer.c): vocabulary lookup, the hash
    table of merge rules, building, encoding and decoding.  Strings are lists
    of byte values; the arrays the tokenizer allocates are kept as functions
    beside the addresses the allocator returned for them. *)

From S2P Require Import Prelude Memory Alloc.
Local Open Scope Z_scope.

Definition TOK_MAX_VOCAB : Z := 32000.
Definition TOK_MAX_TOKEN_LEN : Z := 64.
Definition TOK_MAX_TEXT : Z := 65536.

Inductive tok_err := TOK_OK | TOK_ERR_OOM | TOK_ERR_OVERFLOW | TOK_ERR_INVALID.

#[export] Instance tok_err_eq_dec : EqDecision tok_err.
Proof. solve_decision. Defined.

(** [score] is the bit pattern of the float. *)
Record vocab_entry := mk_vocab_entry { token_str : list Z; score : Z; ve_id : Z; is_special : bool }.
Record bpe_merge := mk_merge { m_left : Z; m_right : Z; m_result : Z }.
Record tokenizer_config := mk_tok_config {
  bos_id : Z; eos_id : Z; unk_id : Z; pad_id : Z; add_bos : bool; add_eos : bool; byte_fallback : bool;
}.

(** ** The hash table of merge rules *)

Definition MERGE_HASH_SIZE : Z := 65536.
Definition MERGE_EMPTY : Z := 0xFFFFFFFF.

Record merge_slot := mk_slot { slot_key : Z; slot_rank : Z }.
Definition merge_table := Z -> merge_slot.

Definition merge_key (left right : Z) : Z := Z.lor (u64 (Z.shiftl left 32)) right.

Definition merge_hash (left right : Z) : Z :=
  let k := merge_key left right in
  let k := Z.lxor k (Z.shiftr k 33) in
  let k := u64 (k * 0xff51afd7ed558ccd) in
  let k := Z.lxor k (Z.shiftr k 33) in
  u32 (Z.land k (MERGE_HASH_SIZE - 1)).

Definition probe_slot (idx probe : Z) : Z := Z.land (u32 (idx + probe)) (MERGE_HASH_SIZE - 1).

Definition slot_empty (ht : merge_table) (i : Z) : bool := slot_rank (ht i) =? MERGE_EMPTY.

Definition merge_lookup (ht : merge_table) (left right : Z) : Z :=
  let key := merge_key left right in
  let idx := merge_hash left right in
  match find_up (Z.to_nat MERGE_HASH_SIZE) 0
          (fun p => slot_empty ht (probe_slot idx p) || (slot_key (ht (probe_slot idx p)) =? key)) with
  | Some p => if slot_empty ht (probe_slot idx p) then MERGE_EMPTY else slot_rank (ht (probe_slot idx p))
  | None => MERGE_EMPTY
  end.

(** Inserting rule [r] at the first empty slot of its probe sequence. *)
Definition merge_insert (merges : Z -> bpe_merge) (r : Z) (ht : merge_table) : merge_table :=
  let left := m_left (merges r) in
  let right := m_right (merges r) in
  let idx := merge_hash left right in
  match find_up (Z.to_nat MERGE_HASH_SIZE) 0 (fun p => slot_empty ht (probe_slot idx p)) with
  | Some p => upd ht (probe_slot idx p) (mk_slot (merge_key left right) r)
  | None => ht
  end.

Definition merge_table_empty : merge_table := fun _ => mk_slot 0xFFFFFFFFFFFFFFFF MERGE_EMPTY.

Definition merge_table_build (merges : Z -> bpe_merge) (n_merges : Z) : merge_table :=
  for_up (Z.to_nat n_merges) 0 (merge_insert merges) merge_table_empty.

(** ** Strings *)

Fixpoint tok_strlen (s : list Z) : Z :=
  match s with
  | [] => 0
  | c :: r => if c =? 0 then 0 else 1 + tok_strlen r
  end.

(** A list ends with a NUL that is not written out. *)
Fixpoint tok_strncmp (a b : list Z) (n : nat) : Z :=
  match n with
  | O => 0
  | S n' =>
      let ca := hd 0 a in
      let cb := hd 0 b in
      if negb (ca =? cb) then ca - cb else if ca =? 0 then 0 else tok_strncmp (tl a) (tl b) n'
  end.

Definition tok_isspace (c : Z) : bool := (c =? 32) || (c =? 9) || (c =? 10) || (c =? 13).

Definition utf8_seq_len (b : Z) : Z :=
  if Z.land b 0x80 =? 0x00 then 1
  else if Z.land b 0xE0 =? 0xC0 then 2
  else if Z.land b 0xF0 =? 0xE0 then 3
  else if Z.land b 0xF8 =? 0xF0 then 4
  else 1.

Definition SP_MARKER : list Z := [0xE2; 0x96; 0x81].
Definition SP_MARKER_LEN : Z := 3.

(** ** The tokenizer *)

(** [p_vocab], [p_merges] and [p_index] are the pointers (0: NULL). *)
Record tokenizer := mk_tok {
  p_vocab : Z; vocab : Z -> vocab_entry;
  p_merges : Z; merges : Z -> bpe_merge;
  p_index : Z; merge_index : merge_table;
  vocab_size : Z; n_merges : Z;
  tcfg : tokenizer_config;
}.

Definition zero_entry : vocab_entry := mk_vocab_entry [] 0 0 false.
Definition zero_config : tokenizer_config := mk_tok_config 0 0 0 0 false false false.
Definition zero_tok : tokenizer :=
  mk_tok 0 (fun _ => zero_entry) 0 (fun _ => mk_merge 0 0 0) 0 (fun _ => mk_slot 0 0) 0 0 zero_config.

Definition tokenizer_init_defaults : tokenizer_config := mk_tok_config 1 2 0 0 true false true.

Definition tokenizer_str_to_token (tok : tokenizer) (str : list Z) (str_len : Z) : Z :=
  match find_up (Z.to_nat (vocab_size tok)) 0
          (fun i => let vs := token_str (vocab tok i) in
                    (tok_strlen vs =? str_len) && (tok_strncmp vs str (Z.to_nat str_len) =? 0)) with
  | Some i => i
  | None => unk_id (tcfg tok)
  end.

Definition tokenizer_token_to_str (tok : tokenizer) (id : Z) : list Z :=
  if vocab_size tok <=? id then bytes_of "<unk>" else token_str (vocab tok id).

Definition set_vocab (p : Z) (v : Z -> vocab_entry) (n : Z) (c : tokenizer_config) (t : tokenizer) : tokenizer :=
  mk_tok p v (p_merges t) (merges t) (p_index t) (merge_index t) n (n_merges t) c.
Definition set_merges (p : Z) (ms : Z -> bpe_merge) (n : Z) (t : tokenizer) : tokenizer :=
  mk_tok (p_vocab t) (vocab t) p ms (p_index t) (merge_index t) (vocab_size t) n (tcfg t).
Definition set_index (p : Z) (ht : merge_table) (t : tokenizer) : tokenizer :=
  mk_tok (p_vocab t) (vocab t) (p_merges t) (merges t) p ht (vocab_size t) (n_merges t) (tcfg t).

(** One vocabulary entry: the string cut to the field. *)
Definition build_entry (vocab_strings : Z -> list Z) (scores : option (Z -> Z)) (cfg : tokenizer_config) (i : Z) : vocab_entry :=
  let s := vocab_strings i in
  let slen := tok_strlen s in
  let slen := if TOK_MAX_TOKEN_LEN <=? slen then TOK_MAX_TOKEN_LEN - 1 else slen in
  mk_vocab_entry (take (Z.to_nat slen) s) (match scores with Some f => f i | None => 0 end) i
    ((i =? bos_id cfg) || (i =? eos_id cfg) || (i =? unk_id cfg) || (i =? pad_id cfg)).

(** One merge rule: its result is the token of the joined strings. *)
Definition build_merge (tok : tokenizer) (merges_left merges_right : Z -> Z) (i : Z) : bpe_merge :=
  let ls := token_str (vocab tok (merges_left i)) in
  let rs := token_str (vocab tok (merges_right i)) in
  let ll := tok_strlen ls in
  let rl := tok_strlen rs in
  let cl := if TOK_MAX_TOKEN_LEN * 2 <=? ll + rl then TOK_MAX_TOKEN_LEN * 2 - 1 else ll + rl in
  let combined := take (Z.to_nat cl) (take (Z.to_nat ll) ls ++ take (Z.to_nat rl) rs) in
  mk_merge (merges_left i) (merges_right i) (tokenizer_str_to_token tok combined cl).

Section Heap.
Context {A : Type} `{Allocator A}.

(** [if (p) kfree(p)]. *)
Definition free_if (p : Z) (h : A) : option A := if p =? 0 then Some h else a_free p h.

Definition tokenizer_free (tok : tokenizer) (h : A) : option (tokenizer * A) :=
  h ← free_if (p_vocab tok) h;
  h ← free_if (p_merges tok) h;
  h ← free_if (p_index tok) h;
  Some (zero_tok, h).

Definition SIZEOF_VOCAB_ENTRY : Z := 76.
Definition SIZEOF_BPE_MERGE : Z := 12.
Definition SIZEOF_MERGE_SLOT : Z := 16.

(** The part of [tokenizer_build] after the merge rules. *)
Definition build_index (tok : tokenizer) (n : Z) (h : A) : option (tok_err * tokenizer * A) :=
  '(p, h) ← a_alloc (SIZEOF_MERGE_SLOT * MERGE_HASH_SIZE) h;
  if p =? 0 then '(tok, h) ← tokenizer_free tok h; Some (TOK_ERR_OOM, tok, h)
  else Some (TOK_OK, set_index p (merge_table_build (merges tok) n) tok, h).

Definition tokenizer_build (vocab_strings : Z -> list Z) (scores : option (Z -> Z)) (vsize : Z)
    (merges_left merges_right : Z -> Z) (n : Z) (cfg : tokenizer_config) (h : A) : option (tok_err * tokenizer * A) :=
  if (vsize =? 0) || (TOK_MAX_VOCAB <? vsize) then Some (TOK_ERR_INVALID, zero_tok, h)
  else
    '(p, h) ← a_alloc (SIZEOF_VOCAB_ENTRY * vsize) h;
    if p =? 0 then Some (TOK_ERR_OOM, zero_tok, h)
    else
      let v := for_up (Z.to_nat vsize) 0 (fun i v => upd v i (build_entry vocab_strings scores cfg i)) (fun _ => zero_entry) in
      let tok := set_vocab p v vsize cfg zero_tok in
      if 0 <? n then
        '(q, h) ← a_alloc (SIZEOF_BPE_MERGE * n) h;
        if q =? 0 then '(tok, h) ← tokenizer_free tok h; Some (TOK_ERR_OOM, tok, h)
        else
          let ms := for_up (Z.to_nat n) 0 (fun i ms => upd ms i (build_merge tok merges_left merges_right i)) (merges tok) in
          build_index (set_merges q ms n tok) n h
      else build_index tok n h.

End Heap.

(** ** Encoding *)

Definition NODE_NONE : Z := 0xFFFFFFFF.
Definition MAX_NODES : Z := TOK_MAX_TEXT + 8.

Record bpe_node := mk_node { node_id : Z; node_prev : Z; node_next : Z }.

Definition hex_digit (d : Z) : Z := if d <? 10 then 48 + d else 65 + d - 10.

Definition byte_token_str (byte : Z) : list Z :=
  [60; 48; 120; hex_digit (Z.shiftr byte 4); hex_digit (Z.land byte 0x0F); 62].

Definition byte_to_token_id (tok : tokenizer) (byte : Z) : Z :=
  let id := tokenizer_str_to_token tok [byte] 1 in
  if negb (id =? unk_id (tcfg tok)) then id else tokenizer_str_to_token tok (byte_token_str byte) 6.

Definition text_at (text : list Z) (i : Z) : Z := nth (Z.to_nat i) text 0.

(** The second half of the loop body: one character at [i], as a token or
    byte by byte.  [None]: no room for another node. *)
Definition emit_char (tok : tokenizer) (text : list Z) (text_len i : Z) (ids : list Z) (max_nodes : Z) :
    option (list Z * Z) :=
  let clen := utf8_seq_len (text_at text i) in
  let tid := tokenizer_str_to_token tok (drop (Z.to_nat i) text) clen in
  if (i + clen <=? text_len) && negb (tid =? unk_id (tcfg tok)) then
    if max_nodes <=? Z.of_nat (length ids) then None else Some (ids ++ [tid], i + clen)
  else if max_nodes <=? Z.of_nat (length ids) then None
  else Some (ids ++ [byte_to_token_id tok (text_at text i)], i + 1).

(** The first half, at the start of a word: the marker joined with the
    character ([inr]: done with it), or the marker alone ([inl]). *)
Definition emit_marker (tok : tokenizer) (text : list Z) (text_len i : Z) (ids : list Z) (max_nodes : Z) :
    option (list Z + list Z * Z) :=
  let clen := utf8_seq_len (text_at text i) in
  let with_marker := SP_MARKER ++ take (Z.to_nat clen) (drop (Z.to_nat i) text) in
  let tid := tokenizer_str_to_token tok with_marker (SP_MARKER_LEN + clen) in
  if (i + clen <=? text_len) && negb (tid =? unk_id (tcfg tok)) then
    if max_nodes <=? Z.of_nat (length ids) then None else Some (inr (ids ++ [tid], i + clen))
  else
    let marker_id := tokenizer_str_to_token tok SP_MARKER SP_MARKER_LEN in
    if max_nodes <=? Z.of_nat (length ids) then None else Some (inl (ids ++ [marker_id])).

Definition word_start (text : list Z) (i : Z) : bool := (i =? 0) || tok_isspace (text_at text (i - 1)).

(** The ids in [node_ids]; an error (no room) leaves none. *)
Fixpoint pre_tokenize_loop (fuel : nat) (tok : tokenizer) (text : list Z) (text_len i : Z) (ids : list Z) (max_nodes : Z) :
    list Z :=
  if i <? text_len then
    match fuel with
    | O => []
    | S fuel' =>
        if tok_isspace (text_at text i) then pre_tokenize_loop fuel' tok text text_len (i + 1) ids max_nodes
        else
          let char ids :=
            match emit_char tok text text_len i ids max_nodes with
            | Some (ids, i) => pre_tokenize_loop fuel' tok text text_len i ids max_nodes
            | None => []
            end in
          if word_start text i then
            match emit_marker tok text text_len i ids max_nodes with
            | Some (inr (ids, i)) => pre_tokenize_loop fuel' tok text text_len i ids max_nodes
            | Some (inl ids) => char ids
            | None => []
            end
          else char ids
    end
  else ids.

Definition pre_tokenize (tok : tokenizer) (text : list Z) (text_len max_nodes : Z) : list Z :=
  pre_tokenize_loop (Z.to_nat text_len) tok text text_len 0 [] max_nodes.

(** The node list before the first merge. *)
Definition init_nodes (ids : list Z) : Z -> bpe_node :=
  let n := Z.of_nat (length ids) in
  for_up (length ids) 0
    (fun i s => upd s i (mk_node (text_at ids i) (if i =? 0 then NODE_NONE else i - 1)
                           (if i =? n - 1 then NODE_NONE else i + 1)))
    (fun _ => mk_node 0 0 0).

(** The scan for the lowest rank from node [i] on. *)
Fixpoint best_scan (fuel : nat) (ht : merge_table) (s : Z -> bpe_node) (i best_rank best_node : Z) : option (Z * Z) :=
  if i =? NODE_NONE then Some (best_rank, best_node)
  else
    let j := node_next (s i) in
    if j =? NODE_NONE then Some (best_rank, best_node)
    else
      match fuel with
      | O => None
      | S fuel' =>
          let rank := merge_lookup ht (node_id (s i)) (node_id (s j)) in
          if rank <? best_rank then best_scan fuel' ht s j rank i else best_scan fuel' ht s j best_rank best_node
      end.

(** Replacing node [i] by the result and unlinking the node after it. *)
Definition merge_nodes (result i : Z) (s : Z -> bpe_node) : Z -> bpe_node :=
  let j := node_next (s i) in
  let s := upd s i (mk_node result (node_prev (s i)) (node_next (s i))) in
  let jnext := node_next (s j) in
  let s := upd s i (mk_node (node_id (s i)) (node_prev (s i)) jnext) in
  let s := if negb (jnext =? NODE_NONE) then upd s jnext (mk_node (node_id (s jnext)) i (node_next (s jnext))) else s in
  upd s j (mk_node NODE_NONE (node_prev (s j)) (node_next (s j))).

(** The merge loop; [changed] is true whenever an iteration starts. *)
Fixpoint merge_loop (fuel : nat) (tok : tokenizer) (s : Z -> bpe_node) (live : Z) : option (Z -> bpe_node) :=
  if 1 <? live then
    match fuel with
    | O => None
    | S fuel' =>
        '(best_rank, best_node) ← best_scan (Z.to_nat live) (merge_index tok) s 0 MERGE_EMPTY NODE_NONE;
        if best_node =? NODE_NONE then Some s
        else merge_loop fuel' tok (merge_nodes (m_result (merges tok best_rank)) best_node s) (u32 (live - 1))
    end
  else Some s.

(** Step 4; the ids written so far come back with an overflow. *)
Definition push_id (max_ids id : Z) (out : list Z) : tok_err * list Z :=
  if max_ids <=? Z.of_nat (length out) then (TOK_ERR_OVERFLOW, out) else (TOK_OK, out ++ [id]).

Fixpoint collect (fuel : nat) (s : Z -> bpe_node) (i max_ids : Z) (out : list Z) : option (tok_err * list Z) :=
  if i =? NODE_NONE then Some (TOK_OK, out)
  else
    match fuel with
    | O => None
    | S fuel' =>
        if node_id (s i) =? NODE_NONE then collect fuel' s (node_next (s i)) max_ids out
        else
          match push_id max_ids (node_id (s i)) out with
          | (TOK_OK, out) => collect fuel' s (node_next (s i)) max_ids out
          | r => Some r
          end
    end.

(** The result: the error, the ids written to [ids_out], and [*n_out]. *)
Definition tokenizer_encode (tok : tokenizer) (text : list Z) (text_len max_ids : Z) : option (tok_err * list Z * Z) :=
  if text_len =? 0 then
    Some (if add_bos (tcfg tok) then (TOK_OK, [bos_id (tcfg tok)], 1) else (TOK_OK, [], 0))
  else if TOK_MAX_TEXT <? text_len then Some (TOK_ERR_OVERFLOW, [], 0)
  else
    let ids := pre_tokenize tok text text_len MAX_NODES in
    if Z.of_nat (length ids) =? 0 then Some (TOK_ERR_INVALID, [], 0)
    else
      let s := init_nodes ids in
      s ← (if negb (p_index tok =? 0) then merge_loop (length ids) tok s (Z.of_nat (length ids)) else Some s);
      match (if add_bos (tcfg tok) then push_id max_ids (bos_id (tcfg tok)) [] else (TOK_OK, [])) with
      | (TOK_OK, out) =>
          '(e, out) ← collect (length ids) s 0 max_ids out;
          match e with
          | TOK_OK =>
              let '(e, out) := if add_eos (tcfg tok) then push_id max_ids (eos_id (tcfg tok)) out else (TOK_OK, out) in
              Some (e, out, match e with TOK_OK => Z.of_nat (length out) | _ => 0 end)
          | _ => Some (e, out, 0)
          end
      | (e, out) => Some (e, out, 0)
      end.

(** ** Decoding *)

Definition hex_value (c : Z) : option Z :=
  if (48 <=? c) && (c <=? 57) then Some (c - 48)
  else if (65 <=? c) && (c <=? 70) then Some (c - 65 + 10)
  else if (97 <=? c) && (c <=? 102) then Some (c - 97 + 10)
  else None.

Definition decode_hex_byte (s : list Z) : Z :=
  let c i := nth i s 0 in
  if negb (c 0%nat =? 60) || negb (c 1%nat =? 48) || negb (c 2%nat =? 120) then -1
  else if negb (c 5%nat =? 62) || negb (c 6%nat =? 0) then -1
  else
    match hex_value (c 3%nat) with
    | None => -1
    | Some hi => match hex_value (c 4%nat) with None => -1 | Some lo => Z.lor (Z.shiftl hi 4) lo end
    end.

(** One token appended to the buffer [out]; [None] is the overflow. *)
Definition decode_token (tok : tokenizer) (t id buf_size : Z) (out : list Z) : option (list Z) :=
  if (id =? bos_id (tcfg tok)) || (id =? eos_id (tcfg tok)) then Some out
  else if vocab_size tok <=? id then Some out
  else
    let s := token_str (vocab tok id) in
    let slen := tok_strlen s in
    let pos := Z.of_nat (length out) in
    if (slen =? 6) && (nth 0 s 0 =? 60) && (nth 1 s 0 =? 48) && (nth 2 s 0 =? 120) && (0 <=? decode_hex_byte s) then
      if buf_size <=? pos + 1 then None else Some (out ++ [decode_hex_byte s])
    else
      let append out s slen :=
        if 0 <? slen then
          if buf_size <=? Z.of_nat (length out) + slen then None else Some (out ++ take (Z.to_nat slen) s)
        else Some out in
      if (SP_MARKER_LEN <=? slen) && (nth 0 s 0 =? 0xE2) && (nth 1 s 0 =? 0x96) && (nth 2 s 0 =? 0x81) then
        if negb (t =? 0) then
          if buf_size <=? pos + 1 then None else append (out ++ [32]) (drop 3 s) (slen - SP_MARKER_LEN)
        else append out (drop 3 s) (slen - SP_MARKER_LEN)
      else append out s slen.

Fixpoint decode_loop (tok : tokenizer) (t : Z) (ids : list Z) (buf_size : Z) (out : list Z) : option (list Z) :=
  match ids with
  | [] => Some out
  | id :: r => out ← decode_token tok t id buf_size out; decode_loop tok (t + 1) r buf_size out
  end.

(** The bytes before the terminating NUL, [*len_out] of them. *)
Definition tokenizer_decode (tok : tokenizer) (ids : list Z) (buf_size : Z) : tok_err * list Z :=
  match decode_loop tok 0 ids buf_size [] with
  | Some out => (TOK_OK, out)
  | None => (TOK_ERR_OVERFLOW, [])
  end.
