(* ===== verification/TokenizerSpec.v ===== *)
(** Correctness of the tokenizer: the hash table finds the first rule for a
    pair, pre-tokenising always fits the node array, the merge loop on linked
    nodes computes byte-pair encoding of a list and terminates, and byte
    tokens decode to their bytes. *)

From S2P Require Import Prelude Memory Alloc Tokenizer.
Local Open Scope Z_scope.

(** ** The hash table *)

Definition is_u32 (x : Z) : Prop := 0 <= x < 2 ^ 32.

Lemma merge_key_eq l r : is_u32 l -> is_u32 r -> merge_key l r = l * 2 ^ 32 + r.
Proof.
  intros Hl Hr. unfold merge_key, is_u32 in *. rewrite Z.shiftl_mul_pow2 by lia. rewrite u64_small by lia.
  apply (lor_disjoint _ _ 32); [lia | by apply Z.mod_mul | done].
Qed.

Lemma merge_key_inj l r l' r' :
  is_u32 l -> is_u32 r -> is_u32 l' -> is_u32 r' -> merge_key l r = merge_key l' r' -> l = l' /\ r = r'.
Proof. intros H1 H2 H3 H4. rewrite !merge_key_eq by done. unfold is_u32 in *. lia. Qed.

Lemma merge_hash_range l r : 0 <= merge_hash l r < MERGE_HASH_SIZE.
Proof.
  unfold merge_hash, MERGE_HASH_SIZE. change (65536 - 1) with (2 ^ 16 - 1). rewrite land_ones_mod by lia.
  set (k := Z.lxor _ _). pose proof (Z.mod_pos_bound k (2 ^ 16) ltac:(lia)). rewrite u32_small by lia. lia.
Qed.

Lemma probe_slot_eq idx p :
  0 <= idx < MERGE_HASH_SIZE -> 0 <= p < MERGE_HASH_SIZE -> probe_slot idx p = (idx + p) mod MERGE_HASH_SIZE.
Proof.
  unfold probe_slot, MERGE_HASH_SIZE. intros H1 H2. rewrite u32_small by lia.
  change (65536 - 1) with (2 ^ 16 - 1). by rewrite land_ones_mod by lia.
Qed.

Lemma probe_slot_range idx p :
  0 <= idx < MERGE_HASH_SIZE -> 0 <= p < MERGE_HASH_SIZE -> 0 <= probe_slot idx p < MERGE_HASH_SIZE.
Proof. intros. rewrite probe_slot_eq by done. by apply Z.mod_pos_bound. Qed.

(** Every slot is on every probe sequence. *)
Lemma probe_slot_onto idx i :
  0 <= idx < MERGE_HASH_SIZE -> 0 <= i < MERGE_HASH_SIZE -> exists p, 0 <= p < MERGE_HASH_SIZE /\ probe_slot idx p = i.
Proof.
  intros H1 H2. exists ((i - idx) mod MERGE_HASH_SIZE).
  pose proof (Z.mod_pos_bound (i - idx) MERGE_HASH_SIZE ltac:(done)). split; [done|].
  rewrite probe_slot_eq by done. rewrite Z.add_mod_idemp_r by done.
  replace (idx + (i - idx)) with i by lia. by apply Z.mod_small.
Qed.

Lemma probe_slot_inj idx p q :
  0 <= idx < MERGE_HASH_SIZE -> 0 <= p < MERGE_HASH_SIZE -> 0 <= q < MERGE_HASH_SIZE ->
  probe_slot idx p = probe_slot idx q -> p = q.
Proof. intros H1 H2 H3. rewrite !probe_slot_eq by done. unfold MERGE_HASH_SIZE in *. intros E. dlia. Qed.

Section Table.
Context (ms : Z -> bpe_merge).
Hypothesis ms_u32 : forall r, is_u32 (m_left (ms r)) /\ is_u32 (m_right (ms r)).

Definition rule_key (r : Z) : Z := merge_key (m_left (ms r)) (m_right (ms r)).
Definition rule_hash (r : Z) : Z := merge_hash (m_left (ms r)) (m_right (ms r)).

(** The table after the first [k] rules. *)
Record table_ok (ht : merge_table) (k : Z) : Prop := {
  tb_slots : forall i, 0 <= i < MERGE_HASH_SIZE ->
    slot_empty ht i = true \/ exists r, 0 <= r < k /\ ht i = mk_slot (rule_key r) r;
  tb_rules : forall r, 0 <= r < k -> exists p, 0 <= p < MERGE_HASH_SIZE /\
    ht (probe_slot (rule_hash r) p) = mk_slot (rule_key r) r /\
    forall q, 0 <= q < p -> slot_empty ht (probe_slot (rule_hash r) q) = false /\
      (slot_key (ht (probe_slot (rule_hash r) q)) = rule_key r -> slot_rank (ht (probe_slot (rule_hash r) q)) < r);
  tb_count : count_up (Z.to_nat MERGE_HASH_SIZE) 0 (slot_empty ht) = MERGE_HASH_SIZE - k;
}.

Lemma count_up_all n i p : (forall j, i <= j < i + Z.of_nat n -> p j = true) -> count_up n i p = Z.of_nat n.
Proof.
  revert i. induction n as [|n IH]; intros i E; cbn [count_up]; [done|].
  rewrite E by lia. rewrite IH; [lia|]. intros. apply E. lia.
Qed.

Lemma table_ok_empty : table_ok merge_table_empty 0.
Proof.
  constructor.
  - intros i _. by left.
  - intros r Hr. lia.
  - rewrite count_up_all by done. rewrite Z2Nat.id by done. lia.
Qed.

Lemma table_ok_room ht k idx :
  table_ok ht k -> k < MERGE_HASH_SIZE -> 0 <= idx < MERGE_HASH_SIZE ->
  exists p, find_up (Z.to_nat MERGE_HASH_SIZE) 0 (fun p => slot_empty ht (probe_slot idx p)) = Some p.
Proof.
  intros T Hk Hi. destruct (find_up _ _ _) as [p|] eqn:E; [by eexists|]. rewrite find_up_None in E.
  pose proof (tb_count _ _ T) as Hc. rewrite count_up_zero in Hc; [lia|].
  intros i Hi2. rewrite Z2Nat.id in * by done. destruct (probe_slot_onto idx i) as (p & Hp & <-); [done | lia |].
  apply E. lia.
Qed.

Lemma table_ok_insert ht k :
  table_ok ht k -> 0 <= k < MERGE_HASH_SIZE -> table_ok (merge_insert ms k ht) (k + 1).
Proof.
  intros T Hk. unfold merge_insert. fold (rule_hash k) (rule_key k).
  pose proof (merge_hash_range (m_left (ms k)) (m_right (ms k))) as Hh. fold (rule_hash k) in Hh.
  destruct (table_ok_room ht k (rule_hash k) T ltac:(lia) Hh) as (p & E). rewrite E.
  apply find_up_Some in E as (Hp & He & Hq). rewrite Z2Nat.id in Hp by done.
  set (i0 := probe_slot (rule_hash k) p) in *.
  pose proof (probe_slot_range (rule_hash k) p Hh ltac:(lia)) as Hi0. fold i0 in Hi0.
  assert (k =? MERGE_EMPTY = false) as Hke by (apply Z.eqb_neq; unfold MERGE_EMPTY, MERGE_HASH_SIZE in *; lia).
  set (ht' := upd ht i0 _).
  assert (forall i, slot_empty ht i = false -> ht' i = ht i) as Hkeep.
  { intros i Hi. apply upd_ne. intros <-. congruence. }
  constructor.
  - intros i Hi. destruct (decide (i0 = i)) as [<-|Hne].
    + right. exists k. split; [lia|]. apply upd_eq.
    + unfold slot_empty, ht'. rewrite upd_ne by done. destruct (tb_slots _ _ T i Hi) as [|(r & Hr & Er)]; [by left|].
      right. exists r. split; [lia | done].
  - intros r Hr. destruct (decide (r = k)) as [->|Hne].
    + exists p. split; [lia|]. split; [apply upd_eq|]. intros q Hq1.
      specialize (Hq q ltac:(lia)). cbn beta in Hq. unfold slot_empty. rewrite Hkeep by done. split; [done|].
      intros _. destruct (tb_slots _ _ T (probe_slot (rule_hash k) q)) as [|(r & Hr' & ->)];
        [apply probe_slot_range; lia | congruence | cbn; lia].
    + destruct (tb_rules _ _ T r ltac:(lia)) as (p' & Hp' & E' & Hq'). exists p'. split; [done|]. split.
      * rewrite Hkeep, E'; [done|]. unfold slot_empty. rewrite E'. cbn. apply Z.eqb_neq.
        unfold MERGE_EMPTY, MERGE_HASH_SIZE in *. lia.
      * intros q Hq1. destruct (Hq' q Hq1) as [H1 H2]. unfold slot_empty. by rewrite Hkeep.
  - pose proof (tb_count _ _ T) as Hc.
    rewrite (count_up_flip _ _ (slot_empty ht) (slot_empty ht') i0) in Hc; [lia | rewrite Z2Nat.id; [lia|done] | done | |].
    + unfold slot_empty, ht'. by rewrite upd_eq.
    + intros j Hj. unfold slot_empty, ht'. by rewrite upd_ne.
Qed.

Lemma merge_table_build_ok n : 0 <= n <= MERGE_HASH_SIZE -> table_ok (merge_table_build ms n) n.
Proof.
  intros Hn. unfold merge_table_build.
  pose proof (for_up_inv (fun k t => table_ok t k) (Z.to_nat n) 0 (merge_insert ms) merge_table_empty table_ok_empty) as Hinv.
  replace (0 + Z.of_nat (Z.to_nat n)) with n in Hinv by lia. apply Hinv.
  intros j t Hj Ht. apply table_ok_insert; [done | lia].
Qed.

(** The first rule for a pair. *)
Definition first_rule (n l r : Z) : option Z := find_up (Z.to_nat n) 0 (fun i => (m_left (ms i) =? l) && (m_right (ms i) =? r)).

Lemma rule_key_eq k l r :
  is_u32 l -> is_u32 r -> rule_key k = merge_key l r <-> (m_left (ms k) =? l) && (m_right (ms k) =? r) = true.
Proof.
  intros Hl Hr. rewrite andb_true_iff, !Z.eqb_eq. destruct (ms_u32 k) as [H1 H2]. split.
  - unfold rule_key. intros E. exact (merge_key_inj _ _ _ _ H1 H2 Hl Hr E).
  - unfold rule_key. by intros [-> ->].
Qed.

Lemma merge_lookup_first n l r :
  0 <= n <= MERGE_HASH_SIZE -> is_u32 l -> is_u32 r ->
  merge_lookup (merge_table_build ms n) l r = match first_rule n l r with Some k => k | None => MERGE_EMPTY end.
Proof.
  intros Hn Hl Hr. pose proof (merge_table_build_ok n Hn) as T. set (ht := merge_table_build ms n) in *. clearbody ht.
  unfold merge_lookup. set (h := merge_hash l r). pose proof (merge_hash_range l r) as Hh. fold h in Hh.
  assert (forall k, 0 <= k < n -> (m_left (ms k) =? l) && (m_right (ms k) =? r) = true -> rule_hash k = h) as Hhash.
  { intros k _ E. apply andb_true_iff in E as [E1%Z.eqb_eq E2%Z.eqb_eq]. unfold rule_hash, h. by rewrite E1, E2. }
  destruct (find_up (Z.to_nat MERGE_HASH_SIZE) _ _) as [p|] eqn:Ef.
  - apply find_up_Some in Ef as (Hp & Hcond & Hbefore). rewrite Z2Nat.id in Hp by done.
    set (i := probe_slot h p) in *. pose proof (probe_slot_range h p Hh ltac:(lia)) as Hi. fold i in Hi.
    assert (forall k, 0 <= k < n -> (m_left (ms k) =? l) && (m_right (ms k) =? r) = true -> slot_empty ht i = false /\
      (slot_key (ht i) = merge_key l r -> slot_rank (ht i) <= k)) as Hle.
    { intros k Hk E. destruct (tb_rules _ _ T k Hk) as (p' & Hp' & E' & Hq'). rewrite (Hhash k Hk E) in *.
      pose proof (proj2 (rule_key_eq k l r Hl Hr) E) as Ek.
      destruct (Z.lt_trichotomy p p') as [Hlt|[->|Hgt]].
      - destruct (Hq' p ltac:(lia)) as [H1 H2]. fold i in H1, H2. split; [done|]. rewrite <- Ek. intros Hx. apply H2 in Hx. lia.
      - subst i. unfold slot_empty. rewrite E'. cbn. split; [|lia]. apply Z.eqb_neq.
        unfold MERGE_EMPTY, MERGE_HASH_SIZE in *. lia.
      - specialize (Hbefore p' ltac:(lia)). cbn beta in Hbefore. apply orb_false_iff in Hbefore as [_ Hb].
        rewrite E' in Hb. cbn in Hb. rewrite Ek, Z.eqb_refl in Hb. done. }
    destruct (slot_empty ht i) eqn:Ee.
    + destruct (first_rule n l r) as [k|] eqn:Er; [|done]. apply find_up_Some in Er as (Hk & E & _).
      destruct (Hle k ltac:(lia) E). done.
    + cbn [orb] in Hcond. apply Z.eqb_eq in Hcond.
      destruct (tb_slots _ _ T i Hi) as [|(k & Hk & Ek)]; [congruence|]. rewrite Ek in Hcond |- *. cbn in Hcond |- *.
      apply (rule_key_eq k l r Hl Hr) in Hcond. unfold first_rule. rewrite (find_up_first _ _ _ k); [done | lia | done |].
      intros j Hj. apply not_true_is_false. intros Ej. destruct (Hle j ltac:(lia) Ej) as [_ Hx]. rewrite Ek in Hx. cbn in Hx.
      specialize (Hx (proj2 (rule_key_eq k l r Hl Hr) Hcond)). lia.
  - rewrite find_up_None in Ef. destruct (first_rule n l r) as [k|] eqn:Er; [|done].
    apply find_up_Some in Er as (Hk & E & _). destruct (tb_rules _ _ T k ltac:(lia)) as (p' & Hp' & E' & _).
    rewrite (Hhash k ltac:(lia) E) in E'. specialize (Ef p' ltac:(rewrite Z2Nat.id; [lia|done])). cbn beta in Ef.
    rewrite E' in Ef. cbn in Ef. rewrite (proj2 (rule_key_eq k l r Hl Hr) E), Z.eqb_refl, orb_true_r in Ef. done.
Qed.

End Table.

(** Looking a pair up in the table built from the rules gives the rank of
    the first rule for that pair, whatever the hash collisions, as long as
    there are at most as many rules as slots. *)
Theorem merge_lookup_correct (ms : Z -> bpe_merge) n l r :
  (forall k, is_u32 (m_left (ms k)) /\ is_u32 (m_right (ms k))) -> 0 <= n <= MERGE_HASH_SIZE -> is_u32 l -> is_u32 r ->
  merge_lookup (merge_table_build ms n) l r =
  match find_up (Z.to_nat n) 0 (fun i => (m_left (ms i) =? l) && (m_right (ms i) =? r)) with Some k => k | None => MERGE_EMPTY end.
Proof. intros Hms. exact (merge_lookup_first ms Hms n l r). Qed.

#[local] Opaque merge_lookup.

(** ** Byte-pair encoding of a list *)

Section Bpe.
Context (rank : Z -> Z -> Z) (result : Z -> Z).

(** The lowest rank among the adjacent pairs, and the position of the first
    pair that has it. *)
Fixpoint best_pair (l : list Z) (pos : nat) (best : Z * option nat) : Z * option nat :=
  match l with
  | a :: ((b :: _) as r) => best_pair r (S pos) (if rank a b <? fst best then (rank a b, Some pos) else best)
  | _ => best
  end.

Definition merge_once (l : list Z) : option (list Z) :=
  match best_pair l 0 (MERGE_EMPTY, None) with
  | (k, Some p) => Some (take p l ++ result k :: drop (p + 2) l)
  | (_, None) => None
  end.

Fixpoint bpe (fuel : nat) (l : list Z) : list Z :=
  match fuel with
  | O => l
  | S fuel' => match merge_once l with None => l | Some l' => bpe fuel' l' end
  end.

Lemma best_pair_cons a b l pos best :
  best_pair (a :: b :: l) pos best =
  best_pair (b :: l) (S pos) (if rank a b <? fst best then (rank a b, Some pos) else best).
Proof. done. Qed.

Lemma best_pair_pos l pos best p :
  snd (best_pair l pos best) = Some p -> snd best = Some p \/ (pos <= p /\ p + 1 < pos + length l)%nat.
Proof.
  revert pos best. induction l as [|a l IH]; intros pos best; cbn [best_pair]; [auto|].
  destruct l as [|b l]; [auto|]. intros E. apply IH in E as [E|E]; [|right; cbn [length] in *; lia].
  destruct (rank a b <? fst best); [injection E as <-; right; cbn [length]; lia | auto].
Qed.

Lemma merge_once_length l l' : merge_once l = Some l' -> length l = S (length l').
Proof.
  unfold merge_once. destruct (best_pair l 0 _) as [k [p|]] eqn:E; [|done]. intros [= <-].
  pose proof (best_pair_pos l 0 (MERGE_EMPTY, None) p) as Hp. rewrite E in Hp.
  destruct (Hp eq_refl) as [|Hp']; [done|]. rewrite length_app, length_take. cbn [length]. rewrite length_drop. lia.
Qed.

(** What [best_pair] finds is the first pair of the lowest rank. *)
Definition pair_rank (l : list Z) (i : nat) : option Z :=
  match l !! i, l !! S i with Some a, Some b => Some (rank a b) | _, _ => None end.

Lemma best_pair_spec l pos best k p :
  best_pair l pos best = (k, p) ->
  (k = fst best /\ p = snd best /\ forall i r, pair_rank l i = Some r -> fst best <= r) \/
  exists i, p = Some (pos + i)%nat /\ pair_rank l i = Some k /\ k < fst best /\
    (forall j r, pair_rank l j = Some r -> k <= r) /\ (forall j r, (j < i)%nat -> pair_rank l j = Some r -> k < r).
Proof.
  revert pos best. induction l as [|a l IH]; intros pos best; cbn [best_pair].
  { intros ->. left. split_and!; [done..|]. intros i r. unfold pair_rank. by rewrite lookup_nil. }
  destruct l as [|b l].
  { intros ->. left. split_and!; [done..|]. intros i r. unfold pair_rank. by destruct i. }
  intros E. assert (forall j r, pair_rank (a :: b :: l) (S j) = Some r <-> pair_rank (b :: l) j = Some r) as Hs by done.
  assert (pair_rank (a :: b :: l) 0 = Some (rank a b)) as H0 by done.
  apply IH in E as [(-> & -> & Hge)|(i & -> & Hi & Hlt & Hmin & Hfst)].
  - destruct (Z.ltb_spec (rank a b) (fst best)) as [Hb|Hb].
    + right. exists O. cbn [fst snd] in *. split; [f_equal; lia|]. split; [done|]. split; [done|]. split; [|lia].
      intros [|j] r Hr; [rewrite H0 in Hr; by injection Hr as -> | apply Hs in Hr; by apply Hge in Hr].
    + left. split_and!; [done..|]. intros [|j] r Hr; [rewrite H0 in Hr; by injection Hr as <- | apply Hs in Hr; by apply Hge in Hr].
  - right. exists (S i). split; [f_equal; lia|]. split; [done|].
    assert (k < rank a b /\ k < fst best) as [Ha Hb] by (destruct (Z.ltb_spec (rank a b) (fst best)); cbn [fst] in Hlt; lia).
    split; [done|]. split.
    + intros [|j] r Hr; [rewrite H0 in Hr; injection Hr as <-; lia | apply Hs in Hr; by apply Hmin in Hr].
    + intros [|j] r Hj Hr; [rewrite H0 in Hr; injection Hr as <-; lia | apply Hs in Hr; apply Hfst in Hr; lia].
Qed.

(** [bpe] ends: with fuel for the length no pair is left to merge. *)
Lemma bpe_done fuel l : (length l <= fuel)%nat -> merge_once (bpe fuel l) = None.
Proof.
  revert l. induction fuel as [|fuel IH]; intros l Hl; cbn [bpe].
  - by destruct l; [|cbn [length] in Hl; lia].
  - destruct (merge_once l) as [l'|] eqn:E; [|done]. apply IH. apply merge_once_length in E. lia.
Qed.

End Bpe.

(** ** Linked nodes *)

(** The nodes on the list from [i] on, in order. *)
Fixpoint path (s : Z -> bpe_node) (i : Z) (xs : list Z) : Prop :=
  match xs with
  | [] => i = NODE_NONE
  | x :: r => i = x /\ x <> NODE_NONE /\ path s (node_next (s x)) r
  end.

Definition ids_of (s : Z -> bpe_node) (xs : list Z) : list Z := map (fun x => node_id (s x)) xs.

Lemma path_not_none s i xs x : path s i xs -> x ∈ xs -> x <> NODE_NONE.
Proof.
  revert i. induction xs as [|y xs IH]; intros i P Hx; [by apply elem_of_nil in Hx|]. destruct P as (-> & Hy & P).
  apply elem_of_cons in Hx as [->|Hx]; [done | by eapply IH].
Qed.

Lemma path_ext s s' i xs : (forall x, x ∈ xs -> node_next (s' x) = node_next (s x)) -> path s i xs -> path s' i xs.
Proof.
  revert i. induction xs as [|x xs IH]; intros i E; cbn [path]; [done|]. intros (-> & Hx & P).
  split; [done|]. split; [done|]. rewrite E by (apply elem_of_cons; auto). apply IH; [|done].
  intros y Hy. apply E. apply elem_of_cons. auto.
Qed.

Lemma ids_of_ext s s' xs : (forall x, x ∈ xs -> node_id (s' x) = node_id (s x)) -> ids_of s' xs = ids_of s xs.
Proof.
  induction xs as [|x xs IH]; intros E; [done|]. cbn. rewrite E by (apply elem_of_cons; auto). f_equal.
  apply IH. intros y Hy. apply E. apply elem_of_cons. auto.
Qed.

Lemma best_scan_path fuel ht s i xs pos br bn :
  path s i xs -> (length xs <= fuel)%nat ->
  best_scan fuel ht s i br bn = Some
    (let '(k, p) := best_pair (merge_lookup ht) (ids_of s xs) pos (br, None) in
     (k, match p with Some q => nth (q - pos) xs 0 | None => bn end)).
Proof.
  assert (forall l p b b0, fst b = fst b0 ->
    best_pair (merge_lookup ht) l p b =
    (fst (best_pair (merge_lookup ht) l p b0),
     match snd (best_pair (merge_lookup ht) l p (fst b0, None)) with Some q => Some q | None => snd b end)) as Hb.
  { induction l as [|a l IH]; intros p [b1 b2] [c1 c2]; cbn [fst snd]; intros ->; cbn [best_pair]; [done|].
    destruct l as [|b l]; [done|]. cbn [fst]. destruct (merge_lookup ht a b <? c1).
    - rewrite (IH (S p) (merge_lookup ht a b, Some p) (merge_lookup ht a b, Some p)) by done. cbn [fst snd].
      by destruct (snd (best_pair _ _ _ (merge_lookup ht a b, None))).
    - rewrite (IH (S p) (c1, b2) (c1, c2)) by done. cbn [fst snd]. done. }
  revert i xs pos br bn. induction fuel as [|fuel IH]; intros i xs pos br bn P Hl.
  { destruct xs; [|cbn [length] in Hl; lia]. cbn [path] in P. subst i. cbn. done. }
  destruct xs as [|x xs]; cbn [path] in P.
  { subst i. done. }
  destruct P as (-> & Hx & P). cbn [best_scan]. destruct (Z.eqb_spec x NODE_NONE); [done|].
  destruct xs as [|y xs]; cbn [path] in P.
  { rewrite P. done. }
  destruct P as (Ey & Hy & P). rewrite Ey. destruct (Z.eqb_spec y NODE_NONE); [done|].
  cbn [length] in Hl. assert (path s y (y :: xs)) as Py by done.
  change (ids_of s (x :: y :: xs)) with (node_id (s x) :: node_id (s y) :: ids_of s xs). rewrite best_pair_cons.
  change (node_id (s y) :: ids_of s xs) with (ids_of s (y :: xs)). cbn [fst].
  destruct (merge_lookup ht (node_id (s x)) (node_id (s y)) <? br).
  - rewrite (IH y (y :: xs) (S pos) _ _ Py) by (cbn [length]; lia).
    rewrite (Hb (ids_of s (y :: xs)) (S pos) (merge_lookup ht (node_id (s x)) (node_id (s y)), Some pos)
      (merge_lookup ht (node_id (s x)) (node_id (s y)), None)) by done. cbn [fst snd].
    pose proof (best_pair_pos (merge_lookup ht) (ids_of s (y :: xs)) (S pos) (merge_lookup ht (node_id (s x)) (node_id (s y)), None)) as Hp.
    destruct (best_pair _ _ _ _) as [k [q|]]; cbn [fst snd] in *.
    + destruct (Hp q eq_refl) as [|Hq]; [done|]. do 2 f_equal. by replace (q - pos)%nat with (S (q - S pos)) by lia.
    + by rewrite Nat.sub_diag.
  - rewrite (IH y (y :: xs) (S pos) _ _ Py) by (cbn [length]; lia).
    pose proof (best_pair_pos (merge_lookup ht) (ids_of s (y :: xs)) (S pos) (br, None)) as Hp.
    destruct (best_pair _ _ _ _) as [k [q|]]; cbn [snd] in *; [|done].
    destruct (Hp q eq_refl) as [|Hq]; [done|]. do 2 f_equal. by replace (q - pos)%nat with (S (q - S pos)) by lia.
Qed.

Lemma merge_nodes_next r i s x :
  node_next (s i) <> i ->
  node_next (merge_nodes r i s x) = if x =? i then node_next (s (node_next (s i))) else node_next (s x).
Proof.
  intros Hne. unfold merge_nodes. set (j := node_next (s i)) in *. rewrite upd_eq. cbn [node_next].
  rewrite (upd_ne s i j) by done. set (jn := node_next (s j)).
  assert (forall (b : bool) (f : Z -> bpe_node) nd, node_next nd = node_next (f jn) ->
    node_next ((if b then upd f jn nd else f) x) = node_next (f x)) as Hb.
  { intros [] f nd E; [|done]. rewrite upd_spec. case_decide as Hd; [by rewrite <- Hd, E | done]. }
  rewrite upd_spec. case_decide as Hd.
  - subst x. cbn [node_next]. rewrite Hb by done. rewrite upd_ne, upd_ne by done. by destruct (Z.eqb_spec j i).
  - rewrite Hb by done. rewrite upd_spec. destruct (Z.eqb_spec x i) as [->|]; case_decide; try done.
    rewrite upd_ne; done.
Qed.

Lemma merge_nodes_id r i s x :
  node_next (s i) <> i ->
  node_id (merge_nodes r i s x) = if x =? node_next (s i) then NODE_NONE else if x =? i then r else node_id (s x).
Proof.
  intros Hne. unfold merge_nodes. set (j := node_next (s i)) in *. rewrite upd_eq. cbn [node_next].
  rewrite (upd_ne s i j) by done. set (jn := node_next (s j)).
  assert (forall (b : bool) (f : Z -> bpe_node) nd, node_id nd = node_id (f jn) ->
    node_id ((if b then upd f jn nd else f) x) = node_id (f x)) as Hb.
  { intros [] f nd E; [|done]. rewrite upd_spec. case_decide as Hd; [by rewrite <- Hd, E | done]. }
  rewrite upd_spec. case_decide as Hd.
  - subst x. by rewrite Z.eqb_refl.
  - destruct (Z.eqb_spec x j); [done|]. rewrite Hb by done. rewrite upd_spec.
    destruct (Z.eqb_spec x i) as [->|]; case_decide; try done. rewrite upd_ne; done.
Qed.

(** Merging the node at position [p] with the next one. *)
Lemma merge_nodes_path s h xs r p i :
  path s h xs -> NoDup xs -> nth_error xs p = Some i -> (S p < length xs)%nat ->
  let xs' := take (S p) xs ++ drop (p + 2) xs in
  path (merge_nodes r i s) h xs' /\
  ids_of (merge_nodes r i s) xs' = take p (ids_of s xs) ++ r :: drop (p + 2) (ids_of s xs).
Proof.
  revert h xs. induction p as [|p IH]; intros h xs P Hnd Hi Hp.
  - destruct xs as [|x [|y xs]]; cbn [length] in Hp; [lia | lia |]. injection Hi as ->.
    destruct P as (-> & Hx & Ey & Hy & P). apply NoDup_cons in Hnd as [Hxy Hnd]. apply NoDup_cons in Hnd as [Hyn _].
    apply not_elem_of_cons in Hxy as [Hxy Hxn].
    assert (node_next (s i) <> i) as Hne by (rewrite Ey; done).
    cbn [take drop app Nat.add]. rewrite take_0. cbn [app path ids_of map]. split.
    + split; [done|]. split; [done|]. rewrite merge_nodes_next, Z.eqb_refl by done. rewrite Ey.
      apply (path_ext s); [|done]. intros z Hz. rewrite merge_nodes_next by done.
      destruct (Z.eqb_spec z i) as [->|]; done.
    + rewrite merge_nodes_id, Ey, Z.eqb_refl by done. destruct (Z.eqb_spec i y); [done|]. rewrite !drop_0. f_equal.
      apply ids_of_ext. intros z Hz. rewrite merge_nodes_id, Ey by done.
      destruct (Z.eqb_spec z y) as [->|]; [done|]. by destruct (Z.eqb_spec z i) as [->|].
  - destruct xs as [|x xs]; [done|]. cbn [length] in Hp. destruct P as (-> & Hx & P).
    apply NoDup_cons in Hnd as [Hxn Hnd]. cbn [nth_error] in Hi.
    assert (exists j, nth_error xs (S p) = Some j /\ node_next (s i) = j /\ i <> j /\ x <> i /\ x <> j) as (j & Hj & Ej & Hij & Hxi & Hxj).
    { clear -P Hnd Hi Hp Hxn. assert (exists j, nth_error xs (S p) = Some j) as [j Hj].
      { destruct (nth_error xs (S p)) eqn:E; [by eexists|]. apply nth_error_None in E. lia. }
      exists j. split; [done|].
      assert (i ∈ xs /\ j ∈ xs) as [Hix Hjx] by (split; apply list_elem_of_In; by eapply nth_error_In).
      assert (i <> j).
      { intros ->. apply NoDup_ListNoDup in Hnd. rewrite NoDup_nth_error in Hnd.
        specialize (Hnd p (S p)). rewrite Hi, Hj in Hnd. assert (p = S p) by (apply Hnd; [lia | done]). lia. }
      split; [|split; [done|]; split; intros ->; done].
      clear -P Hi Hj. revert P Hi Hj. generalize (node_next (s x)). induction p as [|p IHp] in xs |- *; intros h P Hi Hj.
      - destruct xs as [|a [|b xs]]; try done. injection Hi as ->. injection Hj as ->. by destruct P as (_ & _ & E & _).
      - destruct xs as [|a xs]; [done|]. destruct P as (_ & _ & P). by eapply (IHp xs). }
    destruct (IH (node_next (s x)) xs P Hnd Hi ltac:(lia)) as [P' E'].
    assert (node_next (s i) <> i) as Hne by congruence.
    cbn [take drop app Nat.add path ids_of map]. split.
    + split; [done|]. split; [done|]. rewrite merge_nodes_next by done. destruct (Z.eqb_spec x i); [done|]. apply P'.
    + f_equal; [|apply E']. rewrite merge_nodes_id, Ej by done.
      destruct (Z.eqb_spec x j), (Z.eqb_spec x i); done.
Qed.

(** The loop on linked nodes is byte-pair encoding of the ids on the list. *)
Lemma merge_loop_path fuel tok s xs :
  path s 0 xs -> NoDup xs -> (length xs <= fuel)%nat -> Z.of_nat (length xs) < 2 ^ 32 ->
  exists s' xs', merge_loop fuel tok s (Z.of_nat (length xs)) = Some s' /\ path s' 0 xs' /\ (length xs' <= length xs)%nat /\
    ids_of s' xs' = bpe (merge_lookup (merge_index tok)) (fun k => m_result (merges tok k)) (length xs) (ids_of s xs).
Proof.
  revert s xs. induction fuel as [|fuel IH]; intros s xs P Hnd Hl H32; cbn [merge_loop].
  { destruct xs; [|cbn [length] in Hl; lia]. cbn. by exists s, []. }
  destruct (Z.ltb_spec 1 (Z.of_nat (length xs))) as [Hlive|Hlive].
  2:{ exists s, xs. split_and!; try done. destruct xs as [|x [|y xs]]; try done. cbn [length] in Hlive. lia. }
  rewrite (best_scan_path _ _ _ 0 xs 0) by (done || lia). cbn [mbind option_bind].
  destruct (length xs) as [|m] eqn:El; [lia|]. cbn [bpe]. unfold merge_once.
  pose proof (best_pair_pos (merge_lookup (merge_index tok)) (ids_of s xs) 0 (MERGE_EMPTY, None)) as Hpos.
  destruct (best_pair _ (ids_of s xs) 0 _) as [k [p|]]; cbn [snd] in Hpos.
  2:{ cbn. exists s, xs. split_and!; [done | done | lia | done]. }
  destruct (Hpos p eq_refl) as [|Hp]; [done|]. unfold ids_of in Hp. rewrite length_map, El in Hp.
  rewrite Nat.sub_0_r. set (i := nth p xs 0).
  assert (nth_error xs p = Some i) as Hi by (apply nth_error_nth'; lia).
  assert (i <> NODE_NONE) as Hin.
  { eapply path_not_none; [exact P|]. apply list_elem_of_In. by eapply nth_error_In. }
  destruct (Z.eqb_spec i NODE_NONE); [done|].
  destruct (merge_nodes_path s 0 xs (m_result (merges tok k)) p i P Hnd Hi ltac:(lia)) as [P' E'].
  set (xs' := take (S p) xs ++ drop (p + 2) xs) in *.
  assert (length xs' = m) as El' by (unfold xs'; rewrite length_app, length_take, length_drop; lia).
  assert (NoDup xs') as Hnd'.
  { eapply sublist_NoDup; [exact Hnd|]. unfold xs'. rewrite <- (take_drop (S p) xs) at 3.
    apply sublist_app; [done|]. replace (p + 2)%nat with (S p + 1)%nat by lia. rewrite <- drop_drop. apply sublist_drop. }
  replace (u32 (Z.of_nat (S m) - 1)) with (Z.of_nat (length xs')) by (rewrite u32_small by lia; lia).
  destruct (IH (merge_nodes (m_result (merges tok k)) i s) xs' P' Hnd') as (s' & ys & E & Py & Hly & Hy); [lia | lia |].
  rewrite E. exists s', ys. split; [done|]. split; [done|]. split; [lia|]. by rewrite Hy, E', El'.
Qed.

Lemma init_nodes_spec ids i :
  0 <= i < Z.of_nat (length ids) ->
  node_id (init_nodes ids i) = text_at ids i /\
  node_next (init_nodes ids i) = if i =? Z.of_nat (length ids) - 1 then NODE_NONE else i + 1.
Proof.
  intros Hi. unfold init_nodes. set (body := fun _ _ => _).
  pose proof (for_up_inv (fun k (s : Z -> bpe_node) => forall x, 0 <= x < k ->
    node_id (s x) = text_at ids x /\ node_next (s x) = if x =? Z.of_nat (length ids) - 1 then NODE_NONE else x + 1)
    (length ids) 0 body (fun _ => mk_node 0 0 0)) as Hinv. cbn beta in Hinv. apply Hinv; [lia| |lia].
  intros k s Hk IH x Hx. unfold body. rewrite upd_spec. case_decide as Hd; [by subst x|]. apply IH. lia.
Qed.

Lemma init_nodes_path ids :
  Z.of_nat (length ids) < NODE_NONE -> ids <> [] ->
  path (init_nodes ids) 0 (seqZ 0 (Z.of_nat (length ids))) /\ ids_of (init_nodes ids) (seqZ 0 (Z.of_nat (length ids))) = ids.
Proof.
  intros Hl Hne. split.
  - assert (forall k x, 0 <= x -> x + Z.of_nat k = Z.of_nat (length ids) -> (0 < k)%nat -> path (init_nodes ids) x (seqZ x (Z.of_nat k))) as Hg.
    { induction k as [|k IH]; intros x Hx Hk Hk0; [lia|]. rewrite seqZ_cons by lia. cbn [path].
      split; [done|]. split; [lia|]. destruct (init_nodes_spec ids x ltac:(lia)) as [_ ->].
      replace (Z.pred (Z.of_nat (S k))) with (Z.of_nat k) by lia. replace (Z.succ x) with (x + 1) by lia.
      destruct (Z.eqb_spec x (Z.of_nat (length ids) - 1)); [by replace k with O by lia | apply IH; lia]. }
    apply Hg; [lia | lia |]. destruct ids; [done | cbn [length]; lia].
  - apply list_eq. intros i. unfold ids_of. change (map (fun x => node_id (init_nodes ids x)))
      with (fmap (M := list) (fun x => node_id (init_nodes ids x))). rewrite list_lookup_fmap.
    destruct (decide (i < length ids)%nat).
    + rewrite lookup_seqZ_lt by lia. cbn. rewrite (proj1 (init_nodes_spec ids (0 + Z.of_nat i) ltac:(lia))).
      unfold text_at. replace (Z.to_nat (0 + Z.of_nat i)) with i by lia. rewrite nth_lookup.
      by destruct (lookup_lt_is_Some_2 ids i ltac:(lia)) as [v ->].
    + rewrite lookup_seqZ_ge by lia. cbn. symmetry. apply lookup_ge_None_2. lia.
Qed.

Lemma push_id_spec mx id out :
  push_id mx id out = if Z.of_nat (length out) + 1 <=? mx then (TOK_OK, out ++ [id]) else (TOK_ERR_OVERFLOW, out).
Proof. unfold push_id. destruct (Z.leb_spec mx (Z.of_nat (length out))), (Z.leb_spec (Z.of_nat (length out) + 1) mx); done || lia. Qed.

Lemma push_opt (flag : bool) mx id out :
  Z.of_nat (length out) <= mx ->
  (if flag then push_id mx id out else (TOK_OK, out)) =
  let full := out ++ (if flag then [id] else []) in
  if Z.of_nat (length full) <=? mx then (TOK_OK, full) else (TOK_ERR_OVERFLOW, take (Z.to_nat mx) full).
Proof.
  intros Ho. destruct flag; cbn zeta.
  - rewrite push_id_spec, length_app. cbn [length].
    destruct (Z.leb_spec (Z.of_nat (length out) + 1) mx), (Z.leb_spec (Z.of_nat (length out + 1)) mx); try done; try lia.
    rewrite take_app_le, take_ge by lia. done.
  - rewrite app_nil_r. destruct (Z.leb_spec (Z.of_nat (length out)) mx); [done | lia].
Qed.

Lemma collect_spec fuel s i xs mx out :
  path s i xs -> (length xs <= fuel)%nat -> (forall x, x ∈ ids_of s xs -> x <> NODE_NONE) -> Z.of_nat (length out) <= mx ->
  collect fuel s i mx out = Some
    (if Z.of_nat (length (out ++ ids_of s xs)) <=? mx then (TOK_OK, out ++ ids_of s xs)
     else (TOK_ERR_OVERFLOW, take (Z.to_nat mx) (out ++ ids_of s xs))).
Proof.
  revert i xs out. induction fuel as [|fuel IH]; intros i [|x xs] out P Hl Hn Ho; cbn [length] in Hl; [|lia| |].
  1,2: cbn [path] in P; subst i; cbn [collect ids_of map]; rewrite Z.eqb_refl, app_nil_r;
    destruct (Z.leb_spec (Z.of_nat (length out)) mx); done || lia.
  destruct P as (-> & Hx & P). cbn [collect]. destruct (Z.eqb_spec x NODE_NONE); [done|].
  change (ids_of s (x :: xs)) with (node_id (s x) :: ids_of s xs) in *.
  destruct (Z.eqb_spec (node_id (s x)) NODE_NONE) as [E|_].
  { destruct (Hn (node_id (s x))); [apply elem_of_cons; auto | done]. }
  rewrite push_id_spec. rewrite length_app. cbn [length].
  destruct (Z.leb_spec (Z.of_nat (length out) + 1) mx).
  - rewrite (IH (node_next (s x)) xs); [| done | lia | intros y Hy; apply Hn; apply elem_of_cons; auto | rewrite length_app; cbn [length]; lia].
    rewrite <- app_assoc. cbn [app]. rewrite !length_app. cbn [length]. done.
  - destruct (Z.leb_spec (Z.of_nat (length out + S (length (ids_of s xs)))) mx); [lia|].
    do 2 f_equal. rewrite take_app_le by lia. rewrite take_ge by lia. done.
Qed.

(** ** Pre-tokenising *)

Record tok_ok (tok : tokenizer) : Prop := {
  tk_vocab : 0 < vocab_size tok <= TOK_MAX_VOCAB;
  tk_unk : is_u32 (unk_id (tcfg tok)) /\ unk_id (tcfg tok) <> NODE_NONE;
  tk_results : forall k, m_result (merges tok k) <> NODE_NONE;
  tk_rules : forall k, is_u32 (m_left (merges tok k)) /\ is_u32 (m_right (merges tok k));
  tk_index : p_index tok <> 0;
  tk_count : 0 <= n_merges tok <= MERGE_HASH_SIZE;
  tk_table : merge_index tok = merge_table_build (merges tok) (n_merges tok);
}.

Lemma str_to_token_range tok str n :
  0 < vocab_size tok -> 0 <= tokenizer_str_to_token tok str n < vocab_size tok \/ tokenizer_str_to_token tok str n = unk_id (tcfg tok).
Proof.
  intros Hv. unfold tokenizer_str_to_token. destruct (find_up _ _ _) as [i|] eqn:E; [|auto].
  apply find_up_Some in E as (Hi & _). left. lia.
Qed.

Lemma str_to_token_not_none tok str n : tok_ok tok -> tokenizer_str_to_token tok str n <> NODE_NONE.
Proof.
  intros T. pose proof (tk_vocab _ T). destruct (tk_unk _ T) as [_ Hu].
  destruct (str_to_token_range tok str n ltac:(lia)) as [Hr| ->]; [|done]. unfold TOK_MAX_VOCAB, NODE_NONE in *. lia.
Qed.

Lemma byte_to_token_not_none tok b : tok_ok tok -> byte_to_token_id tok b <> NODE_NONE.
Proof. intros T. unfold byte_to_token_id. destruct (negb _); by apply str_to_token_not_none. Qed.

Lemma utf8_seq_len_range b : 1 <= utf8_seq_len b <= 4.
Proof. unfold utf8_seq_len. repeat case_match; lia. Qed.

(** The loop never runs out of room: a node per byte, and one more for every
    word start, which the white space before it pays for. *)
Definition slack (text : list Z) (i : Z) : Z := if word_start text i then 0 else 1.

Lemma slack_range text i : 0 <= slack text i <= 1.
Proof. unfold slack. destruct (word_start _ _); lia. Qed.

Definition all_space (text : list Z) (i n : Z) : Prop := forall j, i <= j < n -> tok_isspace (text_at text j) = true.

Lemma emit_char_ok tok text n i ids mx :
  0 <= i < n -> Z.of_nat (length ids) < mx ->
  exists id i', emit_char tok text n i ids mx = Some (ids ++ [id], i') /\ i < i' <= n /\ (tok_ok tok -> id <> NODE_NONE).
Proof.
  intros Hi Hm. unfold emit_char. pose proof (utf8_seq_len_range (text_at text i)).
  destruct (Z.leb_spec mx (Z.of_nat (length ids))); [lia|].
  destruct (Z.leb_spec (i + utf8_seq_len (text_at text i)) n); [destruct (negb _)|]; cbn [andb];
    (eexists _, _; split; [reflexivity|]; split; [lia|]; intros T);
    auto using str_to_token_not_none, byte_to_token_not_none.
Qed.

Lemma emit_marker_ok tok text n i ids mx :
  0 <= i < n -> Z.of_nat (length ids) < mx ->
  exists id, (tok_ok tok -> id <> NODE_NONE) /\
    (emit_marker tok text n i ids mx = Some (inl (ids ++ [id])) \/
     exists i', emit_marker tok text n i ids mx = Some (inr (ids ++ [id], i')) /\ i < i' <= n).
Proof.
  intros Hi Hm. unfold emit_marker. pose proof (utf8_seq_len_range (text_at text i)).
  destruct (Z.leb_spec mx (Z.of_nat (length ids))); [lia|].
  destruct (Z.leb_spec (i + utf8_seq_len (text_at text i)) n); [destruct (negb _)|]; cbn [andb];
    (eexists; split; [intros T; by apply str_to_token_not_none|]).
  - right. eexists. split; [reflexivity | lia].
  - left. reflexivity.
  - left. reflexivity.
Qed.

Lemma slack_next text i i' : 0 <= i -> tok_isspace (text_at text i) = false -> i < i' -> i + 2 <= i' + slack text i'.
Proof.
  intros H0 Hs Hi. pose proof (slack_range text i'). destruct (decide (i' = i + 1)) as [->|]; [|lia].
  unfold slack, word_start. replace (i + 1 - 1) with i by lia. rewrite Hs. destruct (Z.eqb_spec (i + 1) 0); cbn [orb]; lia.
Qed.

Lemma snoc_not_none (l : list Z) id :
  id <> NODE_NONE -> (forall x, x ∈ l -> x <> NODE_NONE) -> forall x, x ∈ l ++ [id] -> x <> NODE_NONE.
Proof.
  intros Hid Hl x [Hin|Hin]%elem_of_app; [by apply Hl|]. apply elem_of_cons in Hin as [->|Hin]; [done|].
  by apply elem_of_nil in Hin.
Qed.

(** What the loop from [i] with [ids] gathered ends with. *)
Definition goal_of (tok : tokenizer) (text : list Z) (n i : Z) (ids out : list Z) : Prop :=
  Z.of_nat (length out) <= n + 1 /\ (out = [] <-> ids = [] /\ all_space text i n) /\
  (tok_ok tok -> (forall x, x ∈ ids -> x <> NODE_NONE) -> forall x, x ∈ out -> x <> NODE_NONE).

Lemma pre_tokenize_loop_ok fuel tok text n i ids :
  0 <= i <= n -> n - i <= Z.of_nat fuel -> n <= TOK_MAX_TEXT -> Z.of_nat (length ids) <= i + slack text i ->
  goal_of tok text n i ids (pre_tokenize_loop fuel tok text n i ids MAX_NODES).
Proof.
  revert i ids. induction fuel as [|fuel IH]; intros i ids Hi Hf Hn Hl; cbn [pre_tokenize_loop].
  { destruct (Z.ltb_spec i n); [lia|]. pose proof (slack_range text i). split; [lia|]. split; [|auto]. split; [|tauto].
    intros ->. split; [done|]. intros j Hj. lia. }
  pose proof (slack_range text i) as Hs. destruct (Z.ltb_spec i n).
  2:{ split; [lia|]. split; [|auto]. split; [|tauto]. intros ->. split; [done|]. intros j Hj. lia. }
  assert (MAX_NODES = n + 8 + (TOK_MAX_TEXT - n)) as HM by (unfold MAX_NODES; lia).
  destruct (tok_isspace (text_at text i)) eqn:Esp.
  - destruct (IH (i + 1) ids) as (H1 & H2 & H3); [lia | lia | lia | |].
    { assert (slack text (i + 1) = 0) as ->; [|lia]. unfold slack, word_start. replace (i + 1 - 1) with i by lia. by rewrite Esp, orb_true_r. }
    split; [done|]. split; [|done]. rewrite H2. split; (intros [-> Ha]; split; [done|]); intros j Hj.
    + destruct (decide (j = i)) as [->|]; [done|]. apply Ha. lia.
    + apply Ha. lia.
  - assert (forall ids' i', ids' <> [] -> i < i' <= n -> Z.of_nat (length ids') <= i + 2 ->
      (tok_ok tok -> (forall x, x ∈ ids -> x <> NODE_NONE) -> forall x, x ∈ ids' -> x <> NODE_NONE) ->
      goal_of tok text n i ids (pre_tokenize_loop fuel tok text n i' ids' MAX_NODES)) as Hgo.
    { intros ids' i' Hne Hi' Hl' Hids. pose proof (slack_next text i i' ltac:(lia) Esp ltac:(lia)).
      destruct (IH i' ids') as (H1 & H2 & H3); [lia | lia | lia | lia |].
      split; [done|]. split; [|intros T Hx; by apply H3, Hids]. rewrite H2. split; [by intros [-> _]|].
      intros [_ Ha]. rewrite Ha in Esp by lia. done. }
    assert (forall ids1, Z.of_nat (length ids1) <= i + 1 ->
      (tok_ok tok -> (forall x, x ∈ ids -> x <> NODE_NONE) -> forall x, x ∈ ids1 -> x <> NODE_NONE) ->
      goal_of tok text n i ids
        match emit_char tok text n i ids1 MAX_NODES with
        | Some (ids2, i2) => pre_tokenize_loop fuel tok text n i2 ids2 MAX_NODES
        | None => []
        end) as Hchar.
    { intros ids1 Hl1 Hids1. destruct (emit_char_ok tok text n i ids1 MAX_NODES) as (id & i' & -> & Hi' & Hid); [lia | lia |].
      apply Hgo; [by destruct ids1 | done | rewrite length_app; cbn [length]; lia|].
      intros T Hx. apply snoc_not_none; auto. }
    destruct (word_start text i) eqn:Ew; [|by apply Hchar; [lia | auto]].
    assert (slack text i = 0) as Es0 by (unfold slack; by rewrite Ew).
    destruct (emit_marker_ok tok text n i ids MAX_NODES) as (id & Hid & [-> | (i' & -> & Hi')]); [lia | lia | |].
    + apply Hchar; [rewrite length_app; cbn [length]; lia|]. intros T Hx. apply snoc_not_none; auto.
    + apply Hgo; [by destruct ids | done | rewrite length_app; cbn [length]; lia|]. intros T Hx. apply snoc_not_none; auto.
Qed.

(** Pre-tokenising never overflows the node array: a text of at most
    [TOK_MAX_TEXT] bytes gives at most one node more than it has bytes, and
    none exactly when it is all white space. *)
Theorem pre_tokenize_fits tok text n :
  0 <= n <= TOK_MAX_TEXT ->
  Z.of_nat (length (pre_tokenize tok text n MAX_NODES)) <= n + 1 < MAX_NODES /\
  (pre_tokenize tok text n MAX_NODES = [] <-> forall j, 0 <= j < n -> tok_isspace (text_at text j) = true).
Proof.
  intros Hn. unfold pre_tokenize.
  destruct (pre_tokenize_loop_ok (Z.to_nat n) tok text n 0 []) as (H1 & H2 & _); [lia | lia | lia | |].
  { pose proof (slack_range text 0). cbn [length]. lia. }
  split; [split; [done | unfold MAX_NODES; lia]|]. rewrite H2. unfold all_space. tauto.
Qed.

Lemma pre_tokenize_ids tok text n :
  tok_ok tok -> 0 <= n <= TOK_MAX_TEXT -> forall x, x ∈ pre_tokenize tok text n MAX_NODES -> x <> NODE_NONE.
Proof.
  intros T Hn. unfold pre_tokenize.
  destruct (pre_tokenize_loop_ok (Z.to_nat n) tok text n 0 []) as (_ & _ & H3); [lia | lia | lia | |].
  { pose proof (slack_range text 0). cbn [length]. lia. }
  apply H3; [done|]. intros x Hx. by apply elem_of_nil in Hx.
Qed.

Lemma bpe_not_none rank result fuel l :
  (forall k, result k <> NODE_NONE) -> (forall x, x ∈ l -> x <> NODE_NONE) ->
  forall x, x ∈ bpe rank result fuel l -> x <> NODE_NONE.
Proof.
  intros Hr. revert l. induction fuel as [|fuel IH]; intros l Hl; cbn [bpe]; [done|].
  destruct (merge_once rank result l) as [l'|] eqn:E; [|done]. apply IH. intros x Hx.
  unfold merge_once in E. destruct (best_pair rank l 0 _) as [k [p|]]; [|done]. injection E as <-.
  apply elem_of_app in Hx as [Hx|Hx].
  - apply Hl. rewrite <- (take_drop p l). apply elem_of_app. auto.
  - apply elem_of_cons in Hx as [->|Hx]; [done|]. apply Hl.
    rewrite <- (take_drop (p + 2) l). apply elem_of_app. auto.
Qed.

(** The ids an encoding ends with when there is room for them. *)
Definition encoding (tok : tokenizer) (text : list Z) (n : Z) : list Z :=
  let ids := pre_tokenize tok text n MAX_NODES in
  (if add_bos (tcfg tok) then [bos_id (tcfg tok)] else []) ++
  bpe (merge_lookup (merge_index tok)) (fun k => m_result (merges tok k)) (length ids) ids ++
  (if add_eos (tcfg tok) then [eos_id (tcfg tok)] else []).

(** C13: [tokenizer_encode] terminates and its loop on linked nodes computes
    byte-pair encoding of the pre-tokenised text: the result is the encoding
    with the markers the configuration asks for, cut off with an overflow
    error when it does not fit, and an error only for white space; no rule
    applies to the merged ids any more. *)
Theorem tokenizer_encode_correct tok text n max_ids :
  tok_ok tok -> 0 < n <= TOK_MAX_TEXT -> 0 <= max_ids ->
  let ids := pre_tokenize tok text n MAX_NODES in
  let rank := merge_lookup (merge_index tok) in
  let result := fun k => m_result (merges tok k) in
  tokenizer_encode tok text n max_ids = Some
    (if decide (ids = []) then (TOK_ERR_INVALID, [], 0)
     else if Z.of_nat (length (encoding tok text n)) <=? max_ids
          then (TOK_OK, encoding tok text n, Z.of_nat (length (encoding tok text n)))
          else (TOK_ERR_OVERFLOW, take (Z.to_nat max_ids) (encoding tok text n), 0)) /\
  merge_once rank result (bpe rank result (length ids) ids) = None.
Proof.
  intros T Hn Hm ids rank result. split; [|by apply bpe_done].
  unfold tokenizer_encode, encoding. fold ids.
  destruct (Z.eqb_spec n 0); [lia|]. destruct (Z.ltb_spec TOK_MAX_TEXT n); [lia|].
  destruct (decide (ids = [])) as [E|Hne]; [by rewrite E|].
  destruct (Z.eqb_spec (Z.of_nat (length ids)) 0) as [E0|_]; [by destruct ids; [|cbn [length] in E0; lia]|].
  destruct (Z.eqb_spec (p_index tok) 0) as [Ep|_]; [by destruct (tk_index _ T)|]. cbn [negb].
  assert (Z.of_nat (length ids) <= n + 1) as Hlen.
  { unfold ids, pre_tokenize.
    destruct (pre_tokenize_loop_ok (Z.to_nat n) tok text n 0 []) as (H1 & _ & _); [lia | lia | lia | | done].
    pose proof (slack_range text 0). cbn [length]. lia. }
  assert (Z.of_nat (length ids) < NODE_NONE) as HlN by (unfold NODE_NONE, TOK_MAX_TEXT in *; lia).
  destruct (init_nodes_path ids HlN Hne) as [P0 E0]. set (xs := seqZ 0 (Z.of_nat (length ids))) in *.
  assert (length xs = length ids) as Elx by (unfold xs; rewrite length_seqZ; lia).
  destruct (merge_loop_path (length ids) tok (init_nodes ids) xs P0) as (s & ys & Em & Py & Hly & Ey);
    [apply NoDup_seqZ | lia | unfold TOK_MAX_TEXT in *; lia |].
  rewrite Elx in Em, Hly. rewrite Em. cbn [mbind option_bind]. rewrite Elx, E0 in Ey. fold rank result in Ey |- *.
  set (out := bpe rank result (length ids) ids) in *.
  assert (forall x, x ∈ ids_of s ys -> x <> NODE_NONE) as Hnn.
  { rewrite Ey. apply bpe_not_none; [intros k; apply T|]. apply pre_tokenize_ids; [done | lia]. }
  set (b := if add_bos (tcfg tok) then [bos_id (tcfg tok)] else []).
  set (e := if add_eos (tcfg tok) then [eos_id (tcfg tok)] else []).
  rewrite (push_opt _ max_ids (bos_id (tcfg tok)) []) by (cbn [length]; lia). cbn [app]. fold b.
  destruct (Z.leb_spec (Z.of_nat (length b)) max_ids) as [Hb|Hb].
  2:{ destruct (Z.leb_spec (Z.of_nat (length (b ++ out ++ e))) max_ids) as [Hx|]; [rewrite !length_app in *; lia|].
      by rewrite take_app_le by lia. }
  rewrite (collect_spec _ s 0 ys) by done || lia. rewrite Ey. cbn [mbind option_bind].
  destruct (Z.leb_spec (Z.of_nat (length (b ++ out))) max_ids) as [Ho|Ho].
  2:{ rewrite app_assoc. destruct (Z.leb_spec (Z.of_nat (length ((b ++ out) ++ e))) max_ids) as [Hx|]; [rewrite !length_app in *; lia|].
      by rewrite (take_app_le (b ++ out) e) by lia. }
  rewrite push_opt by done. fold e. rewrite <- app_assoc. cbn zeta.
  by destruct (Z.leb_spec (Z.of_nat (length (b ++ out ++ e))) max_ids).
Qed.

(** ** Building *)

Section Build.
Context {A : Type} `{Allocator A}.

Lemma build_loop_merges tok ml mr n k :
  for_up (Z.to_nat n) 0 (fun i ms => upd ms i (build_merge tok ml mr i)) (fun _ => mk_merge 0 0 0) k =
  if (0 <=? k) && (k <? n) then build_merge tok ml mr k else mk_merge 0 0 0.
Proof.
  pose proof (for_up_inv (fun j (ms : Z -> bpe_merge) => forall x, ms x = if (0 <=? x) && (x <? j) then build_merge tok ml mr x else mk_merge 0 0 0)
    (Z.to_nat n) 0 (fun i ms => upd ms i (build_merge tok ml mr i)) (fun _ => mk_merge 0 0 0)) as Hinv. cbn beta in Hinv.
  rewrite Hinv.
  - destruct (Z.leb_spec 0 k), (Z.ltb_spec k n), (Z.ltb_spec k (0 + Z.of_nat (Z.to_nat n))); simpl; done || lia.
  - intros x. destruct (Z.leb_spec 0 x), (Z.ltb_spec x 0); simpl; done || lia.
  - intros j ms Hj IH x. rewrite upd_spec, IH. case_decide as Hd.
    + subst x. destruct (Z.leb_spec 0 j), (Z.ltb_spec j (j + 1)); simpl; done || lia.
    + destruct (Z.leb_spec 0 x), (Z.ltb_spec x j), (Z.ltb_spec x (j + 1)); simpl; done || lia.
Qed.

(** A tokenizer that was built is fit for encoding. *)
Lemma tokenizer_build_ok vs sc vsize ml mr n cfg h tok h' :
  (forall i, is_u32 (ml i) /\ is_u32 (mr i)) -> 0 <= n <= MERGE_HASH_SIZE -> 0 <= vsize ->
  is_u32 (unk_id cfg) -> unk_id cfg <> NODE_NONE ->
  tokenizer_build vs sc vsize ml mr n cfg h = Some (TOK_OK, tok, h') -> tok_ok tok /\ vocab_size tok = vsize /\ tcfg tok = cfg.
Proof.
  intros Hm Hn Hv Hu1 Hu2. unfold tokenizer_build. destruct (Z.eqb_spec vsize 0); [done|].
  destruct (Z.ltb_spec TOK_MAX_VOCAB vsize); [done|]. cbn [orb].
  destruct (a_alloc _ h) as [[p h1]|]; [|done]. cbn [mbind option_bind]. destruct (Z.eqb_spec p 0); [done|].
  set (v := for_up _ _ _ _). set (tok0 := set_vocab p v vsize cfg zero_tok).
  assert (forall q ms, (forall k, m_result (ms k) <> NODE_NONE /\ is_u32 (m_left (ms k)) /\ is_u32 (m_right (ms k))) ->
    forall t, t = tok0 /\ n = 0 /\ ms = merges tok0 \/ t = set_merges q ms n tok0 ->
    forall h2, build_index t n h2 = Some (TOK_OK, tok, h') -> tok_ok tok /\ vocab_size tok = vsize /\ tcfg tok = cfg) as Hidx.
  { intros q ms Hms t Ht h2. unfold build_index. destruct (a_alloc _ h2) as [[r h3]|]; [|done]. cbn [mbind option_bind].
    destruct (Z.eqb_spec r 0).
    { unfold tokenizer_free. repeat (destruct (free_if _ _); cbn [mbind option_bind]; [|done]). done. }
    intros [= <- _].
    assert (merges t = ms /\ n_merges t = n /\ vocab_size t = vsize /\ tcfg t = cfg) as (E1 & E2 & E3 & E4)
      by (destruct Ht as [(-> & -> & ->)| ->]; done).
    split; [|done]. constructor; cbn; rewrite ?E1, ?E2, ?E3, ?E4; try done; try lia; apply Hms. }
  destruct (Z.ltb_spec 0 n).
  - destruct (a_alloc _ h1) as [[q h2]|]; [|done]. cbn [mbind option_bind]. destruct (Z.eqb_spec q 0).
    { unfold tokenizer_free. repeat (destruct (free_if _ _); cbn [mbind option_bind]; [|done]). done. }
    eapply Hidx; [|right; reflexivity]. intros k. change (merges tok0) with (fun _ : Z => mk_merge 0 0 0).
    rewrite build_loop_merges. destruct (_ && _); [|done]. unfold build_merge. cbn [m_result m_left m_right].
    split; [|apply Hm]. match goal with |- tokenizer_str_to_token ?t ?a ?b <> _ => destruct (str_to_token_range t a b) as [Hr|Hr] end.
    + cbn. lia.
    + cbn [tok0 vocab_size set_vocab] in Hr. unfold NODE_NONE, TOK_MAX_VOCAB in *. lia.
    + by rewrite Hr.
  - eapply (Hidx 0 (merges tok0)); [done | left; split; [done|]; split; [lia|done]].
Qed.

End Build.

(** ** Byte tokens *)

Lemma strncmp_take a b :
  tok_strlen a = Z.of_nat (length b) -> tok_strncmp a b (length b) = 0 -> (forall x, x ∈ b -> x <> 0) ->
  take (length b) a = b /\ nth (length b) a 0 = 0.
Proof.
  revert a. induction b as [|y b IH]; intros a; cbn [length tok_strncmp].
  - destruct a as [|x a]; cbn [tok_strlen]; [done|]. destruct (Z.eqb_spec x 0) as [->|]; [done|].
    intros E. assert (0 <= tok_strlen a); [|lia]. clear. induction a as [|z a IH]; cbn [tok_strlen]; [lia|]. destruct (z =? 0); lia.
  - destruct a as [|x a]; cbn [tok_strlen hd tl]; [lia|]. destruct (Z.eqb_spec x 0) as [->|Hx]; [lia|].
    intros E. destruct (Z.eqb_spec x y) as [->|]; cbn [negb]; [|lia]. destruct (Z.eqb_spec y 0); [done|]. intros E' Hnz.
    destruct (IH a ltac:(lia) E') as [H1 H2]; [intros z Hz; apply Hnz; apply elem_of_cons; auto|].
    cbn [take nth]. by rewrite H1.
Qed.

Lemma hex_value_digit d : 0 <= d < 16 -> hex_value (hex_digit d) = Some d /\ hex_digit d <> 0.
Proof.
  intros Hd. unfold hex_digit, hex_value. destruct (Z.ltb_spec d 10).
  - destruct (Z.leb_spec 48 (48 + d)), (Z.leb_spec (48 + d) 57); cbn [andb]; try lia. split; [f_equal; lia | lia].
  - destruct (Z.leb_spec 48 (65 + d - 10)), (Z.leb_spec (65 + d - 10) 57); cbn [andb]; try lia.
    destruct (Z.leb_spec 65 (65 + d - 10)), (Z.leb_spec (65 + d - 10) 70); cbn [andb]; try lia. split; [f_equal; lia | lia].
Qed.

Lemma nibbles b : 0 <= b < 256 ->
  0 <= Z.shiftr b 4 < 16 /\ 0 <= Z.land b 0x0F < 16 /\ Z.lor (Z.shiftl (Z.shiftr b 4) 4) (Z.land b 0x0F) = b.
Proof.
  intros Hb. change 0x0F with (2 ^ 4 - 1). rewrite land_ones_mod, Z.shiftr_div_pow2, Z.shiftl_mul_pow2 by lia.
  change (2 ^ 4) with 16. split; [dlia|]. split; [dlia|].
  rewrite (lor_disjoint _ _ 4); [dlia | lia | change (2 ^ 4) with 16; by apply Z.mod_mul | change (2 ^ 4) with 16; dlia].
Qed.

Lemma decode_hex_byte_prefix s b :
  0 <= b < 256 -> take 6 s = byte_token_str b -> nth 6 s 0 = 0 -> decode_hex_byte s = b.
Proof.
  intros Hb Ht H6. destruct (nibbles b Hb) as (Hh & Hl & Eb).
  destruct (hex_value_digit _ Hh) as [E1 _], (hex_value_digit _ Hl) as [E2 _].
  do 6 (destruct s as [|? s]; [done|]). unfold byte_token_str in Ht. cbn [take] in Ht. injection Ht as -> -> -> -> -> ->.
  unfold decode_hex_byte. cbn [nth] in *. rewrite H6. cbn [Z.eqb Pos.eqb negb orb]. by rewrite E1, E2.
Qed.

Lemma byte_decodes tok t b buf_size out :
  0 <= b < 256 -> byte_to_token_id tok b <> unk_id (tcfg tok) ->
  byte_to_token_id tok b <> bos_id (tcfg tok) -> byte_to_token_id tok b <> eos_id (tcfg tok) ->
  Z.of_nat (length out) + 1 < buf_size ->
  decode_token tok t (byte_to_token_id tok b) buf_size out = Some (out ++ [b]).
Proof.
  intros Hb Hu H1 H2 Hs. set (id := byte_to_token_id tok b) in *.
  assert (exists str, (str = [b] /\ b <> 0 \/ str = byte_token_str b) /\ 0 <= id < vocab_size tok /\
    tok_strlen (token_str (vocab tok id)) = Z.of_nat (length str) /\ take (length str) (token_str (vocab tok id)) = str /\
    nth (length str) (token_str (vocab tok id)) 0 = 0) as (str & Hstr & Hid & Hlen & Htake & Hnul).
  { assert (forall str, tokenizer_str_to_token tok str (Z.of_nat (length str)) = id -> (forall x, x ∈ str -> x <> 0) ->
      0 <= id < vocab_size tok /\ tok_strlen (token_str (vocab tok id)) = Z.of_nat (length str) /\
      take (length str) (token_str (vocab tok id)) = str /\ nth (length str) (token_str (vocab tok id)) 0 = 0) as Hf.
    { intros str E Hnz. unfold tokenizer_str_to_token in E. destruct (find_up _ _ _) as [i|] eqn:Ef; [|by rewrite <- E in Hu].
      subst i. apply find_up_Some in Ef as (Hi & Hp & _). apply andb_true_iff in Hp as [Hp1%Z.eqb_eq Hp2%Z.eqb_eq].
      rewrite Nat2Z.id in Hp2. split; [lia|]. split; [done|]. by apply strncmp_take. }
    unfold id, byte_to_token_id in *. destruct (Z.eqb_spec (tokenizer_str_to_token tok [b] 1) (unk_id (tcfg tok))) as [E|E]; cbn [negb] in *.
    - exists (byte_token_str b). split; [auto|]. apply Hf; [done|]. intros x Hx. destruct (nibbles b Hb) as (Hh & Hl & _).
      destruct (hex_value_digit _ Hh) as [_ N1], (hex_value_digit _ Hl) as [_ N2]. unfold byte_token_str in Hx.
      repeat (apply elem_of_cons in Hx as [->|Hx]; [done|]). by apply elem_of_nil in Hx.
    - exists [b]. assert (b <> 0) as Hb0.
      { intros ->. apply E. unfold tokenizer_str_to_token. destruct (find_up _ _ _) as [i|] eqn:Ef; [|done]. exfalso.
        apply find_up_Some in Ef as (_ & Hp & _). apply andb_true_iff in Hp as [Hp1%Z.eqb_eq Hp2%Z.eqb_eq].
        destruct (token_str (vocab tok i)) as [|c r]; [done|]. change (Z.to_nat 1) with 1%nat in Hp2.
        cbn [tok_strlen tok_strncmp hd] in Hp1, Hp2. destruct (Z.eqb_spec c 0) as [->|Hc]; [done|]. cbn [negb] in Hp2. lia. }
      split; [auto|]. apply Hf; [done|]. intros x [->|Hx]%elem_of_cons; [done | by apply elem_of_nil in Hx]. }
  unfold decode_token. destruct (Z.eqb_spec id (bos_id (tcfg tok))), (Z.eqb_spec id (eos_id (tcfg tok))); try done.
  cbn [orb]. destruct (Z.leb_spec (vocab_size tok) id); [lia|]. rewrite Hlen.
  destruct Hstr as [[-> Hb0]| ->].
  - cbn [length] in *. change (Z.of_nat 1) with 1. change (1 =? 6) with false. change (SP_MARKER_LEN <=? 1) with false.
    change (0 <? 1) with true. cbn [andb]. destruct (Z.leb_spec buf_size (Z.of_nat (length out) + 1)); [lia|].
    do 2 f_equal. exact Htake.
  - change (length (byte_token_str b)) with 6%nat in *. rewrite (decode_hex_byte_prefix _ b Hb Htake Hnul).
    set (s := token_str (vocab tok id)) in *. clearbody s. do 6 (destruct s as [|? s]; [done|]).
    unfold byte_token_str in Htake. cbn [take] in Htake. injection Htake as -> -> -> _ _ _. cbn [nth].
    destruct (Z.leb_spec 0 b); [|lia]. change (Z.of_nat 6 =? 6) with true. cbn [andb Z.eqb Pos.eqb].
    destruct (Z.leb_spec buf_size (Z.of_nat (length out) + 1)); [lia | done].
Qed.

(** Any byte string survives the byte tokens: decoding the tokens
    [byte_to_token_id] gives for its bytes returns it, when the vocabulary has
    a token for each byte that is not a marker and the buffer has room. *)
Theorem byte_tokens_roundtrip tok bytes buf_size :
  (forall b, b ∈ bytes -> 0 <= b < 256 /\ byte_to_token_id tok b <> unk_id (tcfg tok) /\
     byte_to_token_id tok b <> bos_id (tcfg tok) /\ byte_to_token_id tok b <> eos_id (tcfg tok)) ->
  Z.of_nat (length bytes) < buf_size ->
  tokenizer_decode tok (map (byte_to_token_id tok) bytes) buf_size = (TOK_OK, bytes).
Proof.
  intros Hb Hs. assert (forall t out, Z.of_nat (length out + length bytes) < buf_size ->
    decode_loop tok t (map (byte_to_token_id tok) bytes) buf_size out = Some (out ++ bytes)) as Hg.
  { clear Hs. induction bytes as [|b bytes IH]; intros t out Hs; cbn [map decode_loop]; [by rewrite app_nil_r|].
    cbn [length] in Hs. destruct (Hb b) as (H1 & H2 & H3 & H4); [apply elem_of_cons; auto|].
    rewrite byte_decodes by (done || lia). cbn [mbind option_bind]. rewrite IH.
    - by rewrite <- app_assoc.
    - intros x Hx. apply Hb. apply elem_of_cons. auto.
    - rewrite length_app. cbn [length]. lia. }
  unfold tokenizer_decode. rewrite Hg by (cbn [length]; lia). done.
Qed.

(** ** A vocabulary of seven tokens and one rule *)
Definition demo_strings (i : Z) : list Z :=
  nth (Z.to_nat i) [bytes_of "<unk>"; bytes_of "<s>"; bytes_of "</s>"; SP_MARKER; bytes_of "a"; bytes_of "b"; bytes_of "ab"] [].
Definition demo_rules : Z -> bpe_merge := fun k => if k =? 0 then mk_merge 4 5 6 else mk_merge 0 0 0.
Definition demo_tok : tokenizer :=
  mk_tok 16 (build_entry demo_strings None tokenizer_init_defaults) 32 demo_rules 48 (merge_table_build demo_rules 1) 7 1
    tokenizer_init_defaults.

Lemma demo_rules_u32 k : is_u32 (m_left (demo_rules k)) /\ is_u32 (m_right (demo_rules k)).
Proof. unfold demo_rules, is_u32. destruct (k =? 0); cbn; lia. Qed.

Lemma demo_tok_ok : tok_ok demo_tok.
Proof.
  constructor; cbn [demo_tok vocab_size tcfg unk_id tokenizer_init_defaults merges p_index n_merges merge_index].
  - unfold TOK_MAX_VOCAB. lia.
  - unfold is_u32, NODE_NONE. lia.
  - intros k. unfold demo_rules, NODE_NONE. destruct (k =? 0); cbn; lia.
  - apply demo_rules_u32.
  - lia.
  - unfold MERGE_HASH_SIZE. lia.
  - reflexivity.
Qed.

Lemma merge_lookup_correct_witness : merge_lookup (merge_table_build demo_rules 1) 4 5 = 0.
Proof.
  rewrite (merge_lookup_correct demo_rules 1 4 5 demo_rules_u32) by (unfold is_u32, MERGE_HASH_SIZE; lia). reflexivity.
Defined.

Lemma pre_tokenize_fits_witness : Z.of_nat (length (pre_tokenize demo_tok (bytes_of "ab") 2 MAX_NODES)) <= 3.
Proof. apply (pre_tokenize_fits demo_tok (bytes_of "ab") 2). unfold TOK_MAX_TEXT. lia. Defined.

Lemma demo_encoding : encoding demo_tok (bytes_of "ab") 2 = [1; 3; 6].
Proof. vm_compute. reflexivity. Qed.

Lemma demo_pre_tokens : pre_tokenize demo_tok (bytes_of "ab") 2 MAX_NODES = [3; 4; 5].
Proof. vm_compute. reflexivity. Qed.

Lemma tokenizer_encode_correct_witness : tokenizer_encode demo_tok (bytes_of "ab") 2 10 = Some (TOK_OK, [1; 3; 6], 3).
Proof.
  destruct (tokenizer_encode_correct demo_tok (bytes_of "ab") 2 10 demo_tok_ok) as [E _];
    [unfold TOK_MAX_TEXT; lia | lia |].
  rewrite demo_encoding, demo_pre_tokens in E. exact E.
Defined.

Lemma byte_tokens_roundtrip_witness :
  tokenizer_decode demo_tok (map (byte_to_token_id demo_tok) (bytes_of "ab")) 3 = (TOK_OK, bytes_of "ab").
Proof.
  apply (byte_tokens_roundtrip demo_tok (bytes_of "ab") 3).
  - intros b [->|[->|Hb]%elem_of_cons]%elem_of_cons; [| |by apply elem_of_nil in Hb]; split_and!; vm_compute; congruence.
  - cbn. lia.
Defined.
