(* ===== verification/Notepad.v ===== *)
(** The text editor (kernel/apps/notepad.c): its gap buffer in heap memory
    over the allocator interface, the cursor and line utilities, opening,
    saving and the key handler.  The file calls and the window lookup the
    editor makes are functions the kernel does not define (vfs_open_create,
    wm_get_window and others), so they are parameters here; drawing is modelled
    by what it does to the editor's state. *)

From S2P Require Import Prelude Memory Alloc.
Local Open Scope Z_scope.

Definition NP_MAX_TEXT : Z := 256 * 1024.
Definition NP_GAP_INITIAL : Z := 4096.
Definition NP_MAX_PATH : Z := 256.
Definition NP_MAX_FILENAME : Z := 64.
Definition NP_BLINK_MS : Z := 500.
Definition STATUS_H : Z := 20.
Definition PADDING : Z := 4.
Definition FONT_H : Z := 16.
Definition MOD_CTRL : Z := 0x01.
Definition SC_BACKSPACE : Z := 0x0E.
Definition SC_DELETE : Z := 0x53.
Definition SC_ENTER : Z := 0x1C.
Definition SC_LEFT : Z := 0x4B.
Definition SC_RIGHT : Z := 0x4D.
Definition SC_UP : Z := 0x48.
Definition SC_DOWN : Z := 0x50.
Definition SC_HOME : Z := 0x47.
Definition SC_END : Z := 0x4F.
Definition SC_PGUP : Z := 0x49.
Definition SC_PGDN : Z := 0x51.

Record gap_buf := mk_gap { buf : Z; buf_size : Z; gap_start : Z; gap_end : Z }.

Record notepad := mk_np {
  gbuf : gap_buf;
  np_cursor : Z; sel_start : Z; has_sel : bool;
  scroll_line : Z; cursor_line : Z; cursor_col : Z;
  modified : bool; cursor_visible : bool; last_blink_tick : Z;
  filepath : list Z; filename : list Z; win_id : Z;
}.

(** What the editor asks of the rest of the system, over a state of its own:
    the window manager and the file calls. *)
Class Services (F : Type) := {
  window_height : Z -> F -> option Z;   (* wm_get_window(id)->h, None for no such window *)
  wm_create_window : F -> Z * F;
  wm_destroy_window : Z -> F -> F;
  vfs_open : list Z -> F -> Z * F;
  vfs_open_create : list Z -> F -> Z * F;
  vfs_size : Z -> F -> Z;
  vfs_read : Z -> Z -> F -> list Z * F;
  vfs_write : Z -> list Z -> F -> F;
  vfs_close : Z -> F -> F;
}.

Section Notepad.
Context {A : Type} `{Allocator A}.
Context {F : Type} {SV : Services F}.

Definition np_memcpy (h : A) (d s n : Z) : A := a_set_mem h (copy_up (Z.to_nat n) (a_mem h) d s).

Definition gb_text_len (g : gap_buf) : Z := buf_size g - (gap_end g - gap_start g).

Definition gb_char_at (g : gap_buf) (h : A) (pos : Z) : Z :=
  if pos <? gap_start g then a_mem h (buf g + pos) else a_mem h (buf g + (gap_end g + (pos - gap_start g))).

Definition gb_move_gap (g : gap_buf) (pos : Z) (h : A) : gap_buf * A :=
  let gap_size := gap_end g - gap_start g in
  if pos <? gap_start g then
    let delta := gap_start g - pos in
    (mk_gap (buf g) (buf_size g) pos (pos + gap_size), np_memcpy h (buf g + gap_end g - delta) (buf g + pos) delta)
  else if gap_start g <? pos then
    let delta := pos - gap_start g in
    (mk_gap (buf g) (buf_size g) pos (pos + gap_size), np_memcpy h (buf g + gap_start g) (buf g + gap_end g) delta)
  else (g, h).

(** [kfree(NULL)] does nothing. *)
Definition np_kfree (p : Z) (h : A) : option A := if p =? 0 then Some h else a_free p h.

Definition gb_grow (g : gap_buf) (min_gap : Z) (h : A) : option (bool * gap_buf * A) :=
  let cur_gap := gap_end g - gap_start g in
  if min_gap <=? cur_gap then Some (true, g, h)
  else
    let need := min_gap - cur_gap in
    let new_size := buf_size g + need + NP_GAP_INITIAL in
    '(newbuf, h) ← a_alloc new_size h;
    if newbuf =? 0 then Some (false, g, h)
    else
      let h := np_memcpy h newbuf (buf g) (gap_start g) in
      let post_len := buf_size g - gap_end g in
      let new_gap_end := new_size - post_len in
      let h := np_memcpy h (newbuf + new_gap_end) (buf g + gap_end g) post_len in
      h ← np_kfree (buf g) h;
      Some (true, mk_gap newbuf new_size (gap_start g) new_gap_end, h).

Definition gb_put (g : gap_buf) (c : Z) (h : A) : gap_buf * A :=
  (mk_gap (buf g) (buf_size g) (gap_start g + 1) (gap_end g), a_set_mem h (upd (a_mem h) (buf g + gap_start g) c)).

Definition gb_insert (g : gap_buf) (c : Z) (h : A) : option (bool * gap_buf * A) :=
  if gap_end g <=? gap_start g then
    '(ok, g, h) ← gb_grow g NP_GAP_INITIAL h;
    if negb ok then Some (false, g, h) else let '(g, h) := gb_put g c h in Some (true, g, h)
  else let '(g, h) := gb_put g c h in Some (true, g, h).

Definition gb_backspace (g : gap_buf) : gap_buf :=
  if 0 <? gap_start g then mk_gap (buf g) (buf_size g) (gap_start g - 1) (gap_end g) else g.

Definition gb_delete (g : gap_buf) : gap_buf :=
  if gap_end g <? buf_size g then mk_gap (buf g) (buf_size g) (gap_start g) (gap_end g + 1) else g.

Definition gb_init (g : gap_buf) (h : A) : option (bool * gap_buf * A) :=
  '(p, h) ← a_alloc NP_GAP_INITIAL h;
  if p =? 0 then Some (false, mk_gap 0 (buf_size g) (gap_start g) (gap_end g), h)
  else Some (true, mk_gap p NP_GAP_INITIAL 0 NP_GAP_INITIAL, h).

Definition gb_zero : gap_buf := mk_gap 0 0 0 0.

Definition gb_free (g : gap_buf) (h : A) : option (gap_buf * A) :=
  h ← np_kfree (buf g) h; Some (gb_zero, h).

(** ** Lines *)

(** Line and column after the bytes of the pre-gap part. *)
Definition cursor_step (m : mem) (b : Z) (i : Z) (lc : Z * Z) : Z * Z :=
  if m (b + i) =? 10 then (u32 (fst lc + 1), 0) else (fst lc, u32 (snd lc + 1)).

Definition np_cursor_pos (g : gap_buf) (h : A) : Z * Z :=
  for_up (Z.to_nat (gap_start g)) 0 (cursor_step (a_mem h) (buf g)) (0, 0).

Fixpoint line_start_loop (n : nat) (i line target_line : Z) (g : gap_buf) (h : A) : option Z :=
  match n with
  | O => None
  | S n' =>
      if line =? target_line then Some i
      else line_start_loop n' (i + 1) (if gb_char_at g h i =? 10 then u32 (line + 1) else line) target_line g h
  end.

Definition np_line_start (g : gap_buf) (h : A) (target_line : Z) : Z :=
  let len := gb_text_len g in
  match line_start_loop (Z.to_nat len) 0 0 target_line g h with Some i => i | None => len end.

Definition np_line_len (g : gap_buf) (h : A) (line : Z) : Z :=
  let start := np_line_start g h line in
  let len := gb_text_len g in
  u32 (match find_up (Z.to_nat (len - start)) start (fun i => gb_char_at g h i =? 10) with Some i => i - start | None => len - start end).

Definition np_line_count (g : gap_buf) (h : A) : Z :=
  for_up (Z.to_nat (gb_text_len g)) 0 (fun i lines => if gb_char_at g h i =? 10 then u32 (lines + 1) else lines) 1.

(** ** The editor *)

Definition set_gbuf (g : gap_buf) (np : notepad) : notepad :=
  mk_np g (np_cursor np) (sel_start np) (has_sel np) (scroll_line np) (cursor_line np) (cursor_col np) (modified np)
    (cursor_visible np) (last_blink_tick np) (filepath np) (filename np) (win_id np).
Definition set_modified (b : bool) (np : notepad) : notepad :=
  mk_np (gbuf np) (np_cursor np) (sel_start np) (has_sel np) (scroll_line np) (cursor_line np) (cursor_col np) b
    (cursor_visible np) (last_blink_tick np) (filepath np) (filename np) (win_id np).
Definition set_scroll (n : Z) (np : notepad) : notepad :=
  mk_np (gbuf np) (np_cursor np) (sel_start np) (has_sel np) n (cursor_line np) (cursor_col np) (modified np)
    (cursor_visible np) (last_blink_tick np) (filepath np) (filename np) (win_id np).
Definition set_pos (lc : Z * Z) (np : notepad) : notepad :=
  mk_np (gbuf np) (np_cursor np) (sel_start np) (has_sel np) (scroll_line np) (fst lc) (snd lc) (modified np)
    (cursor_visible np) (last_blink_tick np) (filepath np) (filename np) (win_id np).
Definition set_sel (start cursor : Z) (np : notepad) : notepad :=
  mk_np (gbuf np) cursor start true (scroll_line np) (cursor_line np) (cursor_col np) (modified np)
    (cursor_visible np) (last_blink_tick np) (filepath np) (filename np) (win_id np).
Definition set_blink (b : bool) (t : Z) (np : notepad) : notepad :=
  mk_np (gbuf np) (np_cursor np) (sel_start np) (has_sel np) (scroll_line np) (cursor_line np) (cursor_col np) (modified np)
    b t (filepath np) (filename np) (win_id np).
Definition set_file (path name : list Z) (np : notepad) : notepad :=
  mk_np (gbuf np) (np_cursor np) (sel_start np) (has_sel np) (scroll_line np) (cursor_line np) (cursor_col np) (modified np)
    (cursor_visible np) (last_blink_tick np) path name (win_id np).

Definition np_update_cursor_pos (np : notepad) (h : A) : notepad := set_pos (np_cursor_pos (gbuf np) h) np.

Definition vis_lines (wh : Z) : Z := u32 (u32 (wh - STATUS_H) - PADDING * 2) / FONT_H.

(** What drawing does to the editor: clamping the scroll position. *)
Definition notepad_draw (np : notepad) (h : A) (f : F) : notepad :=
  match window_height (win_id np) f with
  | None => np
  | Some wh =>
      let total_lines := np_line_count (gbuf np) h in
      if (total_lines <? u32 (scroll_line np + vis_lines wh)) && (vis_lines wh <? total_lines)
      then set_scroll (u32 (total_lines - vis_lines wh)) np else np
  end.

Definition np_save (np : notepad) (h : A) (f : F) : bool * notepad * F :=
  if match filepath np with [] => true | _ => false end then (false, np, f)
  else
    let '(fd, f) := vfs_open_create (filepath np) f in
    if fd <? 0 then (false, np, f)
    else
      let g := gbuf np in
      let pre := gap_start g in
      let post := buf_size g - gap_end g in
      let f := if 0 <? pre then vfs_write fd (bytes_at (a_mem h) (buf g) pre) f else f in
      let f := if 0 <? post then vfs_write fd (bytes_at (a_mem h) (buf g + gap_end g) post) f else f in
      let f := vfs_close fd f in
      (true, set_modified false np, f).

(** Moving the gap, then the cursor position. *)
Definition np_goto (np : notepad) (pos : Z) (h : A) : notepad * A :=
  let '(g, h) := gb_move_gap (gbuf np) pos h in
  (np_update_cursor_pos (set_gbuf g np) h, h).

(** The target of the up and down keys. *)
Definition line_target (np : notepad) (target_line : Z) (h : A) : Z :=
  let tlen := np_line_len (gbuf np) h target_line in
  let target_col := if tlen <? cursor_col np then tlen else cursor_col np in
  np_line_start (gbuf np) h target_line + target_col.

Definition np_ctrl (np : notepad) (ascii : Z) (h : A) (f : F) : option (notepad * A * F) :=
  let k := Z.lor ascii 0x20 in
  if k =? 115 then let '(_, np, f) := np_save np h f in Some (notepad_draw np h f, h, f)
  else if k =? 110 then
    '(g, h) ← gb_free (gbuf np) h;
    '(_, g, h) ← gb_init g h;
    let np := mk_np g 0 (sel_start np) (has_sel np) 0 0 0 false (cursor_visible np) (last_blink_tick np) []
                (bytes_of "Untitled") (win_id np) in
    Some (notepad_draw np h f, h, f)
  else if k =? 97 then
    let '(np, h) := np_goto (set_sel 0 (gb_text_len (gbuf np)) np) (gb_text_len (gbuf np)) h in
    Some (notepad_draw np h f, h, f)
  else Some (np, h, f).

(** The navigation keys; [None]: not one of them. *)
Definition np_navigate (np : notepad) (scancode : Z) (h : A) : option (notepad * A) :=
  let pos := gap_start (gbuf np) in
  let len := gb_text_len (gbuf np) in
  if scancode =? SC_LEFT then Some (if 0 <? pos then np_goto np (pos - 1) h else (np, h))
  else if scancode =? SC_RIGHT then Some (if pos <? len then np_goto np (pos + 1) h else (np, h))
  else if scancode =? SC_UP then
    Some (if 0 <? cursor_line np then
            let '(np, h) := np_goto np (line_target np (cursor_line np - 1) h) h in
            (if cursor_line np <? scroll_line np then set_scroll (cursor_line np) np else np, h)
          else (np, h))
  else if scancode =? SC_DOWN then
    Some (if u32 (cursor_line np + 1) <? np_line_count (gbuf np) h
          then np_goto np (line_target np (u32 (cursor_line np + 1)) h) h else (np, h))
  else if scancode =? SC_HOME then Some (np_goto np (np_line_start (gbuf np) h (cursor_line np)) h)
  else if scancode =? SC_END then
    Some (np_goto np (np_line_start (gbuf np) h (cursor_line np) + np_line_len (gbuf np) h (cursor_line np)) h)
  else if scancode =? SC_DELETE then Some (set_modified true (set_gbuf (gb_delete (gbuf np)) np), h)
  else if scancode =? SC_PGUP then Some (set_scroll (if 10 <=? scroll_line np then scroll_line np - 10 else 0) np, h)
  else if scancode =? SC_PGDN then Some (set_scroll (u32 (scroll_line np + 10)) np, h)
  else None.

(** Inserting a character, successful or not. *)
Definition np_type (np : notepad) (c : Z) (h : A) : option (notepad * A) :=
  '(_, g, h) ← gb_insert (gbuf np) c h;
  Some (np_update_cursor_pos (set_modified true (set_gbuf g np)) h, h).

Definition np_auto_scroll (np : notepad) (f : F) : notepad :=
  match window_height (win_id np) f with
  | None => np
  | Some wh =>
      if u32 (scroll_line np + vis_lines wh) <=? cursor_line np
      then set_scroll (u32 (cursor_line np - vis_lines wh + 1)) np else np
  end.

(** [ascii] as a signed [char]. *)
Definition notepad_on_key (np : notepad) (ascii scancode mods : Z) (h : A) (f : F) : option (notepad * A * F) :=
  if negb (Z.land mods MOD_CTRL =? 0) then np_ctrl np ascii h f
  else if ascii =? 0 then
    match np_navigate np scancode h with
    | Some (np, h) => Some (notepad_draw np h f, h, f)
    | None => Some (np, h, f)
    end
  else if (scancode =? SC_BACKSPACE) || (ascii =? 8) then
    let np := np_update_cursor_pos (set_modified true (set_gbuf (gb_backspace (gbuf np)) np)) h in
    Some (notepad_draw np h f, h, f)
  else if (scancode =? SC_ENTER) || (ascii =? 13) || (ascii =? 10) then
    '(np, h) ← np_type np 10 h;
    Some (notepad_draw (np_auto_scroll np f) h f, h, f)
  else if (0x20 <=? ascii) && (ascii <? 0x7F) then
    '(np, h) ← np_type np ascii h;
    Some (notepad_draw np h f, h, f)
  else Some (np, h, f).

Definition notepad_tick (np : notepad) (now : Z) (h : A) (f : F) : notepad :=
  if NP_BLINK_MS <=? u64 (now - last_blink_tick np)
  then notepad_draw (set_blink (negb (cursor_visible np)) now np) h f else np.

(** The part of a path after its last slash within the first [n] characters. *)
Fixpoint base_name (n : nat) (path fname : list Z) : list Z :=
  match n, path with
  | S n', c :: r => base_name n' r (if c =? 47 then r else fname)
  | _, _ => fname
  end.

(** The bytes of a file stored at the start of the buffer. *)
Definition store_bytes (m : mem) (a : Z) (l : list Z) : mem :=
  fun x => if (a <=? x) && (x <? a + Z.of_nat (length l)) then nth (Z.to_nat (x - a)) l 0 else m x.

Definition np_load (np : notepad) (fd : Z) (h : A) (f : F) : option (notepad * A * F) :=
  let fsize := vfs_size fd f in
  if (0 <? fsize) && (fsize <=? NP_MAX_TEXT) then
    '(ok, g, h) ← gb_grow (gbuf np) fsize h;
    if (ok : bool) then
      let '(data, f) := vfs_read fd fsize f in
      let h := a_set_mem h (store_bytes (a_mem h) (buf g) data) in
      let nr := Z.of_nat (length data) in
      let g := if 0 <? nr then mk_gap (buf g) (buf_size g) nr (buf_size g) else g in
      Some (set_gbuf g np, h, f)
    else Some (set_gbuf g np, h, f)
  else Some (np, h, f).

Definition SIZEOF_NOTEPAD : Z := 408.

(** The pointer to the new editor and its contents; 0 is NULL. *)
Definition notepad_open (path : list Z) (g_ticks : Z) (h : A) (f : F) : option (Z * notepad * A * F) :=
  let np0 := mk_np gb_zero 0 0 false 0 0 0 false false 0 [] [] 0 in
  '(p, h) ← a_alloc SIZEOF_NOTEPAD h;
  if p =? 0 then Some (0, np0, h, f)
  else
    '(ok, g, h) ← gb_init gb_zero h;
    if negb ok then h ← np_kfree p h; Some (0, np0, h, f)
    else
      let '(win, f) := wm_create_window f in
      let np := mk_np g 0 0 false 0 0 0 false true g_ticks [] [] win in
      '(np, h, f) ←
        (if match path with [] => false | _ => true end then
           let '(fd, f) := vfs_open path f in
           if 0 <=? fd then
             '(np, h, f) ← np_load np fd h f;
             let f := vfs_close fd f in
             let plen := if NP_MAX_PATH <=? Z.of_nat (length path) then NP_MAX_PATH - 1 else Z.of_nat (length path) in
             let fname := base_name (Z.to_nat plen) path path in
             let fnlen := if NP_MAX_FILENAME <=? Z.of_nat (length fname) then NP_MAX_FILENAME - 1 else Z.of_nat (length fname) in
             Some (set_file (take (Z.to_nat plen) path) (take (Z.to_nat fnlen) fname) np, h, f)
           else Some (set_file [] (bytes_of "(new file)") np, h, f)
         else Some (set_file [] (bytes_of "Untitled") np, h, f));
      let '(g, h) := gb_move_gap (gbuf np) 0 h in
      let np := set_gbuf g np in
      Some (p, notepad_draw np h f, h, f).

Definition notepad_close (p : Z) (np : notepad) (h : A) (f : F) : option (A * F) :=
  if p =? 0 then Some (h, f)
  else
    '(_, h) ← gb_free (gbuf np) h;
    let f := wm_destroy_window (win_id np) f in
    h ← np_kfree p h;
    Some (h, f).

End Notepad.
