(* ===== verification/NotepadSpec.v ===== *)
(** What the editor's gap buffer represents, that editing keys do to the text
    what they say, and exactly which text moving the gap to the left leaves. *)

From S2P Require Import Prelude Memory Alloc Heap Notepad.
Local Open Scope Z_scope.

(** An upward copy onto itself repeats what lies before the destination. *)
Lemma copy_up_overlap n m s g i :
  0 < g -> 0 <= i < Z.of_nat n -> copy_up n m (s + g) s (s + g + i) = m (s + i mod g).
Proof.
  revert m s i. induction n as [|n IH]; intros m s i Hg Hi; cbn [copy_up]; [lia|].
  destruct (decide (i = 0)) as [->|Hne].
  - rewrite copy_up_outside by lia. rewrite Z.add_0_r, upd_eq, Z.mod_0_l by lia. f_equal. lia.
  - replace (s + g + 1) with (s + 1 + g) by lia. replace (s + g + i) with (s + 1 + g + (i - 1)) by lia.
    rewrite IH by lia. pose proof (Z.mod_pos_bound (i - 1) g Hg) as Hm.
    pose proof (Z.div_mod (i - 1) g ltac:(lia)) as Hd.
    destruct (decide ((i - 1) mod g = g - 1)) as [E|E].
    + rewrite E. replace (s + 1 + (g - 1)) with (s + g) by lia. rewrite upd_eq.
      assert (i mod g = 0) as ->; [|f_equal; lia]. symmetry. apply (Z.mod_unique _ _ ((i - 1) / g + 1)); lia.
    + rewrite upd_ne by lia. f_equal. assert (i mod g = (i - 1) mod g + 1); [|lia].
      symmetry. apply (Z.mod_unique _ _ ((i - 1) / g)); lia.
Qed.

Section Spec.
Context {A : Type} {AL : Allocator A} {AS : AllocatorSpec A}.

(** The buffer holds [pre] before the gap and [post] after it. *)
Record gap_rep (g : gap_buf) (h : A) (pre post : list Z) : Prop := {
  gr_inv : a_inv h;
  gr_owns : a_owns h (buf g) (buf_size g);
  gr_gap : 0 <= gap_start g <= gap_end g /\ gap_end g <= buf_size g /\ 0 < buf_size g;
  gr_pre : bytes_at (a_mem h) (buf g) (gap_start g) = pre;
  gr_post : bytes_at (a_mem h) (buf g + gap_end g) (buf_size g - gap_end g) = post;
}.

Lemma gap_rep_length g h pre post :
  gap_rep g h pre post -> Z.of_nat (length pre) = gap_start g /\ Z.of_nat (length post) = buf_size g - gap_end g.
Proof. intros [_ _ Hg <- <-]. rewrite !bytes_at_length. lia. Qed.

(** Writing inside the buffer. *)
Lemma gap_write g h m' :
  a_inv h -> a_owns h (buf g) (buf_size g) -> (forall x, ~ (buf g <= x < buf g + buf_size g) -> m' x = a_mem h x) ->
  a_inv (a_set_mem h m') /\ a_owns (a_set_mem h m') (buf g) (buf_size g).
Proof.
  intros Hi Ho Hm. destruct (a_write_spec (buf g) (buf_size g) h m' Hi Ho Hm) as [H1 H2]. split; [done|]. by apply H2.
Qed.

Lemma gb_put_rep g h c pre post :
  gap_rep g h pre post -> gap_start g < gap_end g ->
  gap_rep (fst (gb_put g c h)) (snd (gb_put g c h)) (pre ++ [c]) post.
Proof.
  intros [Hi Ho Hg Hpre Hpost] Hlt. cbn [gb_put fst snd].
  destruct (gap_write g h (upd (a_mem h) (buf g + gap_start g) c)) as [Hi' Ho']; [done | done | |].
  { intros x Hx. apply upd_ne. lia. }
  constructor; cbn [buf buf_size gap_start gap_end]; try done; [lia | |]; rewrite a_mem_set_mem.
  - rewrite bytes_at_app by lia. f_equal.
    + rewrite <- Hpre. apply bytes_at_agree. intros x Hx. symmetry. apply upd_ne. lia.
    + apply bytes_at_eq; [done|]. intros i Hi1. replace i with 0 by lia. by rewrite Z.add_0_r, upd_eq.
  - rewrite <- Hpost. apply bytes_at_agree. intros x Hx. symmetry. apply upd_ne. lia.
Qed.

(** A grown buffer holds the same text around a wider gap. *)
Lemma gb_grow_rep g h mn pre post :
  gap_rep g h pre post -> buf g <> 0 -> 0 < mn <= 2 ^ 29 -> buf_size g <= 2 ^ 30 ->
  exists ok g' h', gb_grow g mn h = Some (ok, g', h') /\
    if (ok : bool)
    then gap_rep g' h' pre post /\ mn <= gap_end g' - gap_start g' /\ buf g' <> 0 /\
         gap_end g' - gap_start g' = (if mn <=? gap_end g - gap_start g then gap_end g - gap_start g else mn + NP_GAP_INITIAL)
    else g' = g /\ h' = h /\ mn > gap_end g - gap_start g /\ a_alloc (buf_size g + (mn - (gap_end g - gap_start g)) + NP_GAP_INITIAL) h = Some (0, h).
Proof.
  intros [Hi Ho Hg Hpre Hpost] Hb Hmn Hsz. unfold gb_grow, np_kfree.
  destruct (Z.leb_spec mn (gap_end g - gap_start g)).
  { exists true, g, h. split; [done|]. split; [done|]. split; [lia|]. split; done. }
  set (nsz := buf_size g + (mn - (gap_end g - gap_start g)) + NP_GAP_INITIAL).
  assert (buf_size g < nsz < 2 ^ 31 + 2 ^ 30) as Hn by (unfold nsz, NP_GAP_INITIAL in *; lia).
  pose proof a_max_bound as Hmax.
  destruct (a_alloc_spec nsz h Hi) as (p & h1 & Ea & Hi1 & H0 & H1); [unfold nsz, NP_GAP_INITIAL in *; lia|]. rewrite Ea.
  cbn [mbind option_bind]. destruct (Z.eqb_spec p 0) as [->|Hp].
  { assert (h1 = h) as -> by auto. exists false, g, h. split; [done|]. split; [done|]. split; [done|]. split; [lia | done]. }
  destruct (H1 Hp) as [Hop Hold]. destruct (Hold _ _ Ho ltac:(lia)) as (Ho1 & Hdis & Hag).
  set (ng := mk_gap p nsz (gap_start g) (nsz - (buf_size g - gap_end g))).
  set (h2 := np_memcpy h1 p (buf g) (gap_start g)).
  destruct (gap_write ng h1 (copy_up (Z.to_nat (gap_start g)) (a_mem h1) p (buf g))) as [Hi2 Ho2]; [done | done | |].
  { intros x Hx. cbn [ng buf buf_size] in Hx. apply copy_up_outside. lia. }
  fold (np_memcpy h1 p (buf g) (gap_start g)) in Hi2, Ho2. fold h2 in Hi2, Ho2.
  assert (a_owns h2 (buf g) (buf_size g)) as Hob2.
  { eapply (a_write_spec p nsz h1); [done | done | | done]. intros x Hx. apply copy_up_outside. lia. }
  set (d3 := p + (nsz - (buf_size g - gap_end g))). set (n3 := buf_size g - gap_end g). set (h3 := np_memcpy h2 d3 (buf g + gap_end g) n3).
  assert (forall x, ~ (p <= x < p + nsz) -> copy_up (Z.to_nat n3) (a_mem h2) d3 (buf g + gap_end g) x = a_mem h2 x) as Hout3.
  { intros x Hx. apply copy_up_outside. unfold d3, n3 in *. lia. }
  destruct (gap_write ng h2 _ Hi2 Ho2 Hout3) as [Hi3 Ho3].
  fold (np_memcpy h2 d3 (buf g + gap_end g) n3) in Hi3, Ho3. fold h3 in Hi3, Ho3.
  assert (a_owns h3 (buf g) (buf_size g)) as Hob3.
  { apply (proj2 (a_write_spec p nsz h2 _ Hi2 Ho2 Hout3)). done. }
  destruct (Z.eqb_spec (buf g) 0); [done|].
  destruct (a_free_spec (buf g) (buf_size g) h3 Hi3 Hob3) as (h4 & -> & Hi4 & Hfr). cbn [mbind option_bind].
  destruct (Hfr p nsz Ho3) as [Ho4 Hag4]; [lia | lia |].
  exists true, ng, h4. split; [done|]. split; [|split; [cbn [ng gap_end gap_start]; unfold nsz, NP_GAP_INITIAL; lia | split; [done|]]].
  2:{ cbn [ng gap_end gap_start]. unfold nsz. lia. }
  assert (forall x, ~ (p <= x < p + nsz) -> a_mem h2 x = a_mem h1 x) as Hm2.
  { intros x Hx. unfold h2, np_memcpy. rewrite a_mem_set_mem. apply copy_up_outside. lia. }
  constructor; cbn [ng buf buf_size gap_start gap_end]; try done; [lia | |].
  - rewrite <- Hpre. apply bytes_at_eq; [apply bytes_at_length|]. intros i Hi'. rewrite bytes_at_nth by done.
    rewrite <- Hag4 by lia. unfold h3, np_memcpy. rewrite a_mem_set_mem, copy_up_outside by (unfold d3, n3; lia).
    unfold h2, np_memcpy. rewrite a_mem_set_mem, copy_up_inside by lia. rewrite <- Hag by lia. f_equal. lia.
  - rewrite <- Hpost. replace (nsz - (nsz - (buf_size g - gap_end g))) with n3 by (unfold n3; lia).
    apply bytes_at_eq; [apply bytes_at_length|]. intros i Hi'. fold n3 d3. rewrite bytes_at_nth by done.
    rewrite <- Hag4 by (unfold d3, n3 in *; lia). unfold h3, np_memcpy. rewrite a_mem_set_mem, copy_up_inside by (unfold d3, n3 in *; lia).
    rewrite Hm2 by (unfold n3 in *; lia). rewrite <- Hag by (unfold n3 in *; lia). f_equal. lia.
Qed.

(** The gap is used up, and the heap has no block for a wider one. *)
Definition no_room (g : gap_buf) (h : A) : Prop := gap_start g = gap_end g /\ a_alloc (buf_size g + 2 * NP_GAP_INITIAL) h = Some (0, h).

Lemma gb_insert_rep g h c pre post :
  gap_rep g h pre post -> buf g <> 0 -> buf_size g <= 2 ^ 30 ->
  exists ok g' h', gb_insert g c h = Some (ok, g', h') /\ buf g' <> 0 /\
    if (ok : bool) then gap_rep g' h' (pre ++ [c]) post else gap_rep g' h' pre post /\ no_room g h.
Proof.
  intros R Hb Hs. unfold gb_insert. destruct (Z.leb_spec (gap_end g) (gap_start g)).
  - destruct (gb_grow_rep g h NP_GAP_INITIAL pre post R Hb) as (ok & g' & h' & -> & HH); [done | done |].
    cbn [mbind option_bind]. destruct ok; cbn [negb].
    + destruct HH as (R' & Hgap & Hb' & _). unfold gb_put. eexists true, _, _. split; [done|]. split; [done|].
      apply (gb_put_rep g' h' c pre post R'). unfold NP_GAP_INITIAL in *. lia.
    + destruct HH as (-> & -> & _ & Ea). exists false, g, h. split; [done|]. split; [done|]. split; [done|]. destruct R as [_ _ Hg _ _].
      assert (gap_start g = gap_end g) as E by lia. split; [done|]. rewrite <- Ea. f_equal. lia.
  - eexists true, _, _. split; [done|]. split; [done|]. by apply (gb_put_rep g h c pre post R).
Qed.

Lemma gb_backspace_rep g h pre post : gap_rep g h pre post -> gap_rep (gb_backspace g) h (take (length pre - 1) pre) post.
Proof.
  intros R. destruct (gap_rep_length _ _ _ _ R) as [Hl _]. pose proof R as [Hi Ho Hg Hpre Hpost]. unfold gb_backspace.
  destruct (Z.ltb_spec 0 (gap_start g)).
  - constructor; cbn [buf buf_size gap_start gap_end]; try done; [lia|].
    rewrite <- Hpre. replace (gap_start g) with (gap_start g - 1 + 1) at 2 3 by lia.
    rewrite bytes_at_app by lia. rewrite length_app, !bytes_at_length.
    rewrite take_app_le by (rewrite bytes_at_length; lia). rewrite take_ge; [done|]. rewrite bytes_at_length. cbn. lia.
  - destruct pre; [done | cbn [length] in Hl; lia].
Qed.

Lemma gb_delete_rep g h pre post : gap_rep g h pre post -> gap_rep (gb_delete g) h pre (drop 1 post).
Proof.
  intros R. destruct (gap_rep_length _ _ _ _ R) as [_ Hl]. pose proof R as [Hi Ho Hg Hpre Hpost]. unfold gb_delete.
  destruct (Z.ltb_spec (gap_end g) (buf_size g)).
  - constructor; cbn [buf buf_size gap_start gap_end]; try done; [lia|]. rewrite <- Hpost.
    replace (buf_size g - gap_end g) with (1 + (buf_size g - (gap_end g + 1))) by lia.
    rewrite bytes_at_app by lia. rewrite drop_app_ge by (rewrite bytes_at_length; lia). rewrite bytes_at_length.
    change (1 - Z.to_nat 1)%nat with O. rewrite drop_0. f_equal; lia.
  - destruct post; [done | cbn [length] in Hl; lia].
Qed.

(** The bytes a forward copy leaves when it moves [l] up by a gap of [gs]. *)
Definition dragged (gs : Z) (l : list Z) : list Z :=
  map (fun i => nth (Z.to_nat (if gs =? 0 then i else i mod gs)) l 0) (seqZ 0 (Z.of_nat (length l))).

Lemma dragged_id gs l : gs = 0 \/ Z.of_nat (length l) <= gs -> dragged gs l = l.
Proof.
  intros Hgs. change (dragged gs l) with (bytes_at (fun i => nth (Z.to_nat (if gs =? 0 then i else i mod gs)) l 0) 0 (Z.of_nat (length l))).
  apply bytes_at_eq; [lia|]. intros i Hi. rewrite Z.add_0_l. destruct (Z.eqb_spec gs 0); [done|]. by rewrite Z.mod_small by lia.
Qed.

Lemma gb_move_left_rep g h pos pre post :
  gap_rep g h pre post -> 0 <= pos < gap_start g ->
  gap_rep (fst (gb_move_gap g pos h)) (snd (gb_move_gap g pos h)) (take (Z.to_nat pos) pre)
    (dragged (gap_end g - gap_start g) (drop (Z.to_nat pos) pre) ++ post).
Proof.
  intros R Hp. destruct (gap_rep_length _ _ _ _ R) as [Hl _]. pose proof R as [Hi Ho Hg Hpre Hpost]. unfold gb_move_gap.
  destruct (Z.ltb_spec pos (gap_start g)); [|lia]. cbn [fst snd].
  set (gs := gap_end g - gap_start g) in *. set (dl := gap_start g - pos). set (s0 := buf g + pos).
  replace (buf g + gap_end g - dl) with (s0 + gs) by (unfold s0, dl, gs; lia).
  destruct (gap_write g h (copy_up (Z.to_nat dl) (a_mem h) (s0 + gs) s0)) as [Hi' Ho']; [done | done | |].
  { intros x Hx. apply copy_up_outside. unfold s0, gs, dl. lia. }
  constructor; cbn [buf buf_size gap_start gap_end]; try done; [lia | |]; unfold np_memcpy; rewrite a_mem_set_mem.
  - rewrite <- Hpre. replace (gap_start g) with (pos + dl) by (unfold dl; lia). rewrite bytes_at_app by (unfold dl; lia).
    rewrite take_app_le, take_ge by (rewrite bytes_at_length; lia). apply bytes_at_agree. intros x Hx. symmetry.
    apply copy_up_outside. unfold s0, gs. lia.
  - replace (buf_size g - (pos + gs)) with (dl + (buf_size g - gap_end g)) by (unfold dl, gs; lia).
    rewrite bytes_at_app by (unfold dl; lia). f_equal.
    + assert (drop (Z.to_nat pos) pre = bytes_at (a_mem h) s0 dl) as ->.
      { rewrite <- Hpre. replace (gap_start g) with (pos + dl) by (unfold dl; lia). rewrite bytes_at_app by (unfold dl; lia).
        rewrite drop_app_ge by (rewrite bytes_at_length; lia). rewrite bytes_at_length, Nat.sub_diag, drop_0. done. }
      unfold dragged. rewrite bytes_at_length. rewrite Z2Nat.id by (unfold dl; lia).
      apply bytes_at_eq; [by rewrite length_map, length_seqZ|]. intros i Hi1.
      set (f := fun j => nth _ (bytes_at (a_mem h) s0 dl) 0). change (map f (seqZ 0 dl)) with (bytes_at f 0 dl).
      rewrite bytes_at_nth by done. unfold f. rewrite Z.add_0_l. replace (buf g + (pos + gs) + i) with (s0 + gs + i) by (unfold s0; lia).
      destruct (Z.eqb_spec gs 0) as [E|E].
      * rewrite copy_up_inside by lia. rewrite bytes_at_nth by lia. f_equal. lia.
      * rewrite copy_up_overlap by lia. pose proof (Z.mod_pos_bound i gs ltac:(lia)). pose proof (Z.mod_le i gs ltac:(lia) ltac:(lia)).
        by rewrite bytes_at_nth by lia.
    + rewrite <- Hpost. replace (buf g + (pos + gs) + dl) with (buf g + gap_end g) by (unfold dl, gs; lia).
      apply bytes_at_agree. intros x Hx. symmetry. apply copy_up_outside. unfold s0, gs, dl. lia.
Qed.

Lemma gb_move_right_rep g h pos pre post :
  gap_rep g h pre post -> gap_start g <= pos <= gb_text_len g ->
  gap_rep (fst (gb_move_gap g pos h)) (snd (gb_move_gap g pos h)) (take (Z.to_nat pos) (pre ++ post)) (drop (Z.to_nat pos) (pre ++ post)).
Proof.
  intros R Hp. destruct (gap_rep_length _ _ _ _ R) as [Hl Hl2]. pose proof R as [Hi Ho Hg Hpre Hpost]. unfold gb_move_gap, gb_text_len in *.
  destruct (Z.ltb_spec pos (gap_start g)); [lia|]. rewrite take_app_ge, drop_app_ge by lia.
  destruct (Z.ltb_spec (gap_start g) pos); cbn [fst snd].
  2:{ replace (Z.to_nat pos - length pre)%nat with O by lia. by rewrite take_0, drop_0, app_nil_r. }
  set (gs := gap_end g - gap_start g) in *. set (dl := pos - gap_start g).
  replace (Z.to_nat pos - length pre)%nat with (Z.to_nat dl) by lia.
  destruct (gap_write g h (copy_up (Z.to_nat dl) (a_mem h) (buf g + gap_start g) (buf g + gap_end g))) as [Hi' Ho']; [done | done | |].
  { intros x Hx. apply copy_up_outside. unfold dl. lia. }
  assert (post = bytes_at (a_mem h) (buf g + gap_end g) dl ++ bytes_at (a_mem h) (buf g + gap_end g + dl) (buf_size g - gap_end g - dl)) as Ep.
  { rewrite <- Hpost. rewrite <- bytes_at_app by (unfold dl; lia). f_equal. lia. }
  constructor; cbn [buf buf_size gap_start gap_end]; try done; [unfold gs; lia | |]; unfold np_memcpy; rewrite a_mem_set_mem.
  - replace pos with (gap_start g + dl) by (unfold dl; lia). rewrite bytes_at_app by (unfold dl; lia). f_equal.
    + rewrite <- Hpre. apply bytes_at_agree. intros x Hx. symmetry. apply copy_up_outside. lia.
    + rewrite Ep, take_app_le, take_ge by (rewrite bytes_at_length; lia).
      apply bytes_at_eq; [apply bytes_at_length|]. intros i Hi1. rewrite bytes_at_nth by done. rewrite copy_up_inside by lia. f_equal. lia.
  - rewrite Ep, drop_app_ge by (rewrite bytes_at_length; lia). rewrite bytes_at_length, Nat.sub_diag, drop_0.
    replace (buf g + (pos + gs)) with (buf g + gap_end g + dl) by (unfold dl, gs; lia).
    replace (buf_size g - (pos + gs)) with (buf_size g - gap_end g - dl) by (unfold dl, gs; lia).
    apply bytes_at_agree. intros x Hx. symmetry. apply copy_up_outside. unfold dl. lia.
Qed.

(** ** Editing keys *)

Definition cursor_of (pre : list Z) : Z * Z :=
  fold_left (fun lc c => if c =? 10 then (u32 (fst lc + 1), 0) else (fst lc, u32 (snd lc + 1))) pre (0, 0).

Lemma np_cursor_pos_of g h pre post : gap_rep g h pre post -> np_cursor_pos g h = cursor_of pre.
Proof.
  intros [_ _ Hg <- _]. unfold np_cursor_pos, cursor_of, bytes_at.
  set (step := fun (lc : Z * Z) (c : Z) => if c =? 10 then _ else _).
  assert (forall n i s, for_up n i (cursor_step (a_mem h) (buf g)) s =
    fold_left step (map (fun i => a_mem h (buf g + i)) (seqZ i (Z.of_nat n))) s) as Hg2.
  { induction n as [|n IH]; intros i s; [done|]. rewrite seqZ_cons by lia. cbn [for_up map fold_left].
    replace (Z.pred (Z.of_nat (S n))) with (Z.of_nat n) by lia. apply IH. }
  rewrite Hg2. by rewrite Z2Nat.id by lia.
Qed.

(** ** Lines of a text *)

(** Where line [k] begins: behind the [k]-th line feed, or at the end. *)
Fixpoint start_of (t : list Z) (k : nat) : Z :=
  match k, t with
  | S k', c :: t' => 1 + start_of t' (if c =? 10 then k' else k)
  | _, _ => 0
  end.
(** The characters up to the next line feed. *)
Fixpoint run_length (t : list Z) : Z := match t with c :: t' => if c =? 10 then 0 else 1 + run_length t' | [] => 0 end.
Fixpoint line_feeds (t : list Z) : Z := match t with c :: t' => (if c =? 10 then 1 else 0) + line_feeds t' | [] => 0 end.

Definition line_length (t : list Z) (k : nat) : Z := run_length (drop (Z.to_nat (start_of t k)) t).
(** The place in line [k] nearest to column [col]. *)
Definition place_in (t : list Z) (k : nat) (col : Z) : Z := start_of t k + Z.min col (line_length t k).

Lemma start_of_0 t : start_of t 0 = 0.
Proof. by destruct t. Qed.

Lemma start_of_range t k : 0 <= start_of t k <= Z.of_nat (length t).
Proof. revert k. induction t as [|c t IH]; intros [|k]; cbn [start_of length]; try lia. specialize (IH (if c =? 10 then k else S k)). lia. Qed.

Lemma run_length_range t : 0 <= run_length t <= Z.of_nat (length t).
Proof. induction t as [|c t IH]; cbn [run_length length]; [lia|]. destruct (c =? 10); lia. Qed.

Lemma line_feeds_range t : 0 <= line_feeds t <= Z.of_nat (length t).
Proof. induction t as [|c t IH]; cbn [line_feeds length]; [lia|]. destruct (c =? 10); lia. Qed.

Lemma place_in_range t k col : 0 <= col -> 0 <= place_in t k col <= Z.of_nat (length t).
Proof.
  intros Hc. unfold place_in, line_length. pose proof (start_of_range t k). pose proof (run_length_range (drop (Z.to_nat (start_of t k)) t)) as Hr.
  rewrite length_drop in Hr. lia.
Qed.

Lemma cursor_of_range pre : 0 <= fst (cursor_of pre) < 2 ^ 32 /\ 0 <= snd (cursor_of pre) < 2 ^ 32.
Proof.
  unfold cursor_of. set (step := fun _ _ => _). assert (forall l lc, 0 <= fst lc < 2 ^ 32 /\ 0 <= snd lc < 2 ^ 32 -> 0 <= fst (fold_left step l lc) < 2 ^ 32 /\ 0 <= snd (fold_left step l lc) < 2 ^ 32) as H.
  { induction l as [|c l IH]; intros lc Hl; [done|]. cbn [fold_left]. apply IH. unfold step. destruct (c =? 10); cbn [fst snd]; split; try lia; try apply u32_range; apply Hl. }
  apply H. cbn. lia.
Qed.

Lemma cursor_row_le pre : fst (cursor_of pre) <= Z.of_nat (length pre).
Proof.
  unfold cursor_of. set (step := fun _ _ => _). assert (forall l lc, 0 <= fst lc -> fst (fold_left step l lc) <= fst lc + Z.of_nat (length l)) as H.
  { induction l as [|c l IH]; intros lc Hl; cbn [fold_left length]; [lia|]. unfold step at 2. destruct (c =? 10).
    - pose proof (u32_range (fst lc + 1)). specialize (IH (u32 (fst lc + 1), 0) ltac:(cbn; lia)). cbn [fst] in IH. pose proof (Z.mod_le (fst lc + 1) (2 ^ 32) ltac:(lia) ltac:(lia)). unfold u32 in *. lia.
    - specialize (IH (fst lc, u32 (snd lc + 1)) Hl). cbn [fst] in IH. lia. }
  specialize (H pre (0, 0) ltac:(cbn; lia)). cbn [fst] in H. lia.
Qed.

(** The buffer as the text it holds. *)
Section Lines.
Context (g : gap_buf) (h : A) (pre post : list Z).
Hypothesis R : gap_rep g h pre post.
Hypothesis Hsize : buf_size g <= 2 ^ 30.
Let t : list Z := pre ++ post.

Lemma text_length : gb_text_len g = Z.of_nat (length t).
Proof. destruct (gap_rep_length _ _ _ _ R). unfold gb_text_len, t. rewrite length_app. lia. Qed.

Lemma text_small : Z.of_nat (length t) <= 2 ^ 30.
Proof. rewrite <- text_length. unfold gb_text_len. destruct R. lia. Qed.

Lemma text_char i : 0 <= i < Z.of_nat (length t) -> gb_char_at g h i = nth (Z.to_nat i) t 0.
Proof.
  intros Hi. destruct (gap_rep_length _ _ _ _ R) as [L1 L2]. destruct R as [_ _ Hg Hpre Hpost]. unfold t in *. rewrite length_app in Hi. unfold gb_char_at. destruct (Z.ltb_spec i (gap_start g)).
  - rewrite app_nth1 by lia. by rewrite <- Hpre, bytes_at_nth by lia.
  - rewrite app_nth2 by lia. rewrite <- Hpost. replace (Z.to_nat i - length pre)%nat with (Z.to_nat (i - gap_start g)) by lia. rewrite bytes_at_nth by lia. f_equal. lia.
Qed.

Lemma text_drop i : 0 <= i < Z.of_nat (length t) -> drop (Z.to_nat i) t = gb_char_at g h i :: drop (Z.to_nat (i + 1)) t.
Proof.
  intros Hi. rewrite text_char by done. destruct (lookup_lt_is_Some_2 t (Z.to_nat i) ltac:(lia)) as [c Hc].
  rewrite (drop_S t c (Z.to_nat i) Hc). rewrite nth_lookup, Hc. by replace (S (Z.to_nat i)) with (Z.to_nat (i + 1)) by lia.
Qed.

Lemma line_start_loop_ok n i k target : 0 <= i -> i + Z.of_nat n = Z.of_nat (length t) -> 0 <= target - Z.of_nat k -> target < 2 ^ 32 ->
  match line_start_loop n i (target - Z.of_nat k) target g h with Some j => j | None => gb_text_len g end = i + start_of (drop (Z.to_nat i) t) k.
Proof.
  revert i k. induction n as [|n IH]; intros i k Hi Hn Hk Ht; cbn [line_start_loop].
  - rewrite drop_ge by lia. rewrite text_length. destruct k; cbn [start_of]; lia.
  - destruct k as [|k]; [destruct (Z.eqb_spec (target - Z.of_nat 0) target); [rewrite start_of_0; lia | lia]|].
    destruct (Z.eqb_spec (target - Z.of_nat (S k)) target); [lia|]. rewrite text_drop by lia. cbn [start_of].
    destruct (gb_char_at g h i =? 10).
    + rewrite u32_small by lia. replace (target - Z.of_nat (S k) + 1) with (target - Z.of_nat k) by lia. rewrite IH by lia. lia.
    + rewrite IH by lia. lia.
Qed.

Lemma line_start_ok k : 0 <= k < 2 ^ 32 -> np_line_start g h k = start_of t (Z.to_nat k).
Proof.
  intros Hk. unfold np_line_start. pose proof (line_start_loop_ok (length t) 0 (Z.to_nat k) k ltac:(lia) ltac:(lia) ltac:(lia) ltac:(lia)) as E.
  rewrite Z2Nat.id, Z.sub_diag, drop_0 in E by lia. rewrite text_length, Nat2Z.id in *. exact E.
Qed.

Lemma run_ok n i : 0 <= i -> i + Z.of_nat n = Z.of_nat (length t) ->
  match find_up n i (fun j => gb_char_at g h j =? 10) with Some j => j - i | None => Z.of_nat n end = run_length (drop (Z.to_nat i) t).
Proof.
  revert i. induction n as [|n IH]; intros i Hi Hn; cbn [find_up].
  - by rewrite drop_ge by lia.
  - rewrite text_drop by lia. cbn [run_length]. destruct (gb_char_at g h i =? 10); [lia|].
    rewrite <- (IH (i + 1)) by lia. destruct (find_up n (i + 1) _); lia.
Qed.

Lemma line_len_ok k : 0 <= k < 2 ^ 32 -> np_line_len g h k = line_length t (Z.to_nat k).
Proof.
  intros Hk. unfold np_line_len, line_length. rewrite line_start_ok, text_length by done. pose proof (start_of_range t (Z.to_nat k)). pose proof text_small.
  rewrite <- (run_ok (Z.to_nat (Z.of_nat (length t) - start_of t (Z.to_nat k))) (start_of t (Z.to_nat k))) by lia. rewrite Z2Nat.id by lia.
  destruct (find_up _ _ _) as [j|] eqn:E; [|apply u32_small; lia]. apply find_up_Some in E as (E1 & _). apply u32_small. lia.
Qed.

Lemma line_count_ok : np_line_count g h = 1 + line_feeds t.
Proof.
  unfold np_line_count. rewrite text_length, Nat2Z.id. pose proof text_small.
  assert (forall n i x, 0 <= i -> i + Z.of_nat n = Z.of_nat (length t) -> 1 <= x -> x + Z.of_nat n < 2 ^ 32 ->
    for_up n i (fun i lines => if gb_char_at g h i =? 10 then u32 (lines + 1) else lines) x = x + line_feeds (drop (Z.to_nat i) t)) as H'.
  { induction n as [|n IH]; intros i x Hi Hn Hx Hb; cbn [for_up]; [rewrite drop_ge by lia; cbn; lia|]. rewrite text_drop by lia. cbn [line_feeds].
    destruct (gb_char_at g h i =? 10); rewrite ?u32_small by lia; rewrite IH by lia; lia. }
  rewrite H' by lia. by rewrite drop_0.
Qed.
End Lines.

(** ** What the keys mean *)

Inductive edit := EType (c : Z) | EBackspace | EDelete | EGoto (pos : Z) | ENew | EStay.

(** The keys with Ctrl, the keys without a character, and the rest, on a text
    before and after the cursor. *)
Definition ctrl_edit (ascii : Z) (pre post : list Z) : edit :=
  let k := Z.lor ascii 0x20 in
  if k =? 110 then ENew else if k =? 97 then EGoto (Z.of_nat (length (pre ++ post))) else EStay.

Definition move_edit (scancode : Z) (pre post : list Z) : edit :=
  let t := pre ++ post in
  let pos := Z.of_nat (length pre) in
  let '(row, col) := cursor_of pre in
  if scancode =? SC_LEFT then (if 0 <? pos then EGoto (pos - 1) else EStay)
  else if scancode =? SC_RIGHT then (if pos <? Z.of_nat (length t) then EGoto (pos + 1) else EStay)
  else if scancode =? SC_UP then (if 0 <? row then EGoto (place_in t (Z.to_nat (row - 1)) col) else EStay)
  else if scancode =? SC_DOWN then (if row + 1 <? 1 + line_feeds t then EGoto (place_in t (Z.to_nat (row + 1)) col) else EStay)
  else if scancode =? SC_HOME then EGoto (start_of t (Z.to_nat row))
  else if scancode =? SC_END then EGoto (start_of t (Z.to_nat row) + line_length t (Z.to_nat row))
  else if scancode =? SC_DELETE then EDelete
  else EStay.

Definition key_edit (ascii scancode mods : Z) (doc : list Z * list Z) : edit :=
  if negb (Z.land mods MOD_CTRL =? 0) then ctrl_edit ascii (fst doc) (snd doc)
  else if ascii =? 0 then move_edit scancode (fst doc) (snd doc)
  else if (scancode =? SC_BACKSPACE) || (ascii =? 8) then EBackspace
  else if (scancode =? SC_ENTER) || (ascii =? 13) || (ascii =? 10) then EType 10
  else if (0x20 <=? ascii) && (ascii <? 0x7F) then EType ascii
  else EStay.

Definition apply_edit (e : edit) (doc : list Z * list Z) : list Z * list Z :=
  let '(pre, post) := doc in
  match e with
  | EType c => (pre ++ [c], post)
  | EBackspace => (take (length pre - 1) pre, post)
  | EDelete => (pre, drop 1 post)
  | EGoto pos => (take (Z.to_nat pos) (pre ++ post), drop (Z.to_nat pos) (pre ++ post))
  | ENew => ([], [])
  | EStay => doc
  end.

(** A move to the left is no longer than the gap, or the gap is empty: of
    longer ones the text moved is overwritten ([dragged]). *)
Definition short_move (g : gap_buf) (e : edit) : Prop :=
  match e with EGoto pos => gap_start g <= pos + (gap_end g - gap_start g) \/ gap_end g = gap_start g | _ => True end.

Context {F : Type} {SV : Services F}.

Lemma notepad_draw_keeps np h f :
  gbuf (notepad_draw np h f) = gbuf np /\ cursor_line (notepad_draw np h f) = cursor_line np /\
  cursor_col (notepad_draw np h f) = cursor_col np.
Proof. unfold notepad_draw. destruct (window_height _ _); [|done]. by destruct (_ && _). Qed.

Lemma np_auto_scroll_keeps np f :
  gbuf (np_auto_scroll np f) = gbuf np /\ cursor_line (np_auto_scroll np f) = cursor_line np /\
  cursor_col (np_auto_scroll np f) = cursor_col np.
Proof. unfold np_auto_scroll. destruct (window_height _ _); [|done]. by destruct (_ <=? _). Qed.

(** The editor shows the document [pre | post] with the cursor where it is. *)
Definition shows (np : notepad) (h : A) (doc : list Z * list Z) : Prop :=
  buf (gbuf np) <> 0 /\ gap_rep (gbuf np) h (fst doc) (snd doc) /\ (cursor_line np, cursor_col np) = cursor_of (fst doc).

Lemma shows_draw np h f doc : shows np h doc -> shows (notepad_draw np h f) h doc.
Proof. unfold shows. destruct (notepad_draw_keeps np h f) as (-> & -> & ->). done. Qed.

Lemma shows_scroll np h f doc : shows np h doc -> shows (np_auto_scroll np f) h doc.
Proof. unfold shows. destruct (np_auto_scroll_keeps np f) as (-> & -> & ->). done. Qed.

Lemma shows_update np h pre post :
  buf (gbuf np) <> 0 -> gap_rep (gbuf np) h pre post -> shows (np_update_cursor_pos np h) h (pre, post).
Proof.
  intros Hb R. split; [done|]. split; [done|]. unfold np_update_cursor_pos. cbn [set_pos cursor_line cursor_col fst].
  rewrite (np_cursor_pos_of _ _ _ _ R). by destruct (cursor_of pre).
Qed.

Lemma np_goto_shows np h pos pre post :
  buf (gbuf np) <> 0 -> gap_rep (fst (gb_move_gap (gbuf np) pos h)) (snd (gb_move_gap (gbuf np) pos h)) pre post ->
  exists np' h', np_goto np pos h = (np', h') /\ shows np' h' (pre, post).
Proof.
  intros Hb R. unfold np_goto. destruct (gb_move_gap (gbuf np) pos h) as [g h'] eqn:E. eexists _, _. split; [done|].
  apply shows_update; [|done]. cbn [set_gbuf gbuf]. unfold gb_move_gap in E.
  repeat (destruct (_ <? _); [by injection E as <- _|]). by injection E as <- _.
Qed.

Lemma np_type_shows np h c pre post :
  shows np h (pre, post) -> buf_size (gbuf np) <= 2 ^ 30 ->
  exists np' h', np_type np c h = Some (np', h') /\ (shows np' h' (pre ++ [c], post) \/ no_room (gbuf np) h /\ shows np' h' (pre, post)).
Proof.
  intros (Hb & R & _) Hs. unfold np_type.
  destruct (gb_insert_rep (gbuf np) h c pre post R Hb Hs) as (ok & g' & h' & -> & Hb' & R'). cbn [mbind option_bind].
  eexists _, _. split; [done|]. destruct ok; [left; by apply shows_update|]. destruct R' as [R' N]. right. split; [done | by apply shows_update].
Qed.

Lemma gb_init_rep h :
  a_inv h ->
  exists ok g h', gb_init gb_zero h = Some (ok, g, h') /\ a_inv h' /\
    if (ok : bool) then gap_rep g h' [] [] /\ g = mk_gap (buf g) NP_GAP_INITIAL 0 NP_GAP_INITIAL /\ buf g <> 0 else h' = h /\ buf g = 0 /\ a_alloc NP_GAP_INITIAL h = Some (0, h).
Proof.
  intros Hi. unfold gb_init. pose proof a_max_bound.
  destruct (a_alloc_spec NP_GAP_INITIAL h Hi) as (p & h1 & Ea & Hi1 & H0 & H1); [unfold NP_GAP_INITIAL; lia|]. rewrite Ea.
  cbn [mbind option_bind]. destruct (Z.eqb_spec p 0) as [->|Hp]; [assert (h1 = h) as -> by auto; by eexists false, _, h|].
  eexists true, _, h1. split; [done|]. split; [done|]. split; [|done]. destruct (H1 Hp) as [Ho _].
  constructor; cbn [buf buf_size gap_start gap_end]; try done; unfold NP_GAP_INITIAL; lia.
Qed.

Lemma goto_ok np h pos pre post :
  shows np h (pre, post) -> 0 <= pos <= Z.of_nat (length (pre ++ post)) -> short_move (gbuf np) (EGoto pos) ->
  exists np' h', np_goto np pos h = (np', h') /\ shows np' h' (apply_edit (EGoto pos) (pre, post)).
Proof.
  intros (Hb & R & _) Hp Hm. cbn [fst snd] in R. pose proof (gap_rep_length _ _ _ _ R) as [L1 L2]. cbn [short_move] in Hm. cbn [apply_edit].
  apply (np_goto_shows np h pos _ _ Hb). destruct (decide (pos < gap_start (gbuf np))) as [Hlt|Hge].
  - pose proof (gb_move_left_rep _ h pos pre post R ltac:(lia)) as R'. rewrite dragged_id in R' by (rewrite length_drop; lia).
    by rewrite take_app_le, drop_app_le by lia.
  - apply gb_move_right_rep; [done|]. rewrite (text_length _ _ _ _ R). lia.
Qed.

(** The file after the text has been written to [path]. *)
Definition save_text (path pre post : list Z) (f : F) : F :=
  match path with
  | [] => f
  | _ =>
      let '(fd, f) := vfs_open_create path f in
      if fd <? 0 then f
      else
        let f := match pre with [] => f | _ => vfs_write fd pre f end in
        vfs_close fd (match post with [] => f | _ => vfs_write fd post f end)
  end.

Lemma np_save_ok np h f pre post : gap_rep (gbuf np) h pre post ->
  exists ok b, np_save np h f = (ok, set_modified b np, save_text (filepath np) pre post f).
Proof.
  intros R. destruct (gap_rep_length _ _ _ _ R) as [L1 L2]. pose proof R as [_ _ _ Hpre Hpost]. unfold np_save, save_text.
  assert (set_modified (modified np) np = np) as E by by destruct np.
  destruct (filepath np) as [|c path]; [by exists false, (modified np); rewrite E|].
  destruct (vfs_open_create (c :: path) f) as [fd f1]. destruct (fd <? 0); [by exists false, (modified np); rewrite E|].
  exists true, false. f_equal. rewrite Hpre, Hpost.
  destruct pre, post; cbn [length] in *; destruct (Z.ltb_spec 0 (gap_start (gbuf np))), (Z.ltb_spec 0 (buf_size (gbuf np) - gap_end (gbuf np))); (done || lia).
Qed.

Definition save_key (ascii mods : Z) : bool := negb (Z.land mods MOD_CTRL =? 0) && (Z.lor ascii 0x20 =? 115).

(** How an edit fails when the heap has no block: a typed character is dropped
    and the document stays; a new document leaves an editor without a buffer. *)
Definition edit_refused (np : notepad) (h : A) (e : edit) (np' : notepad) (h' : A) (doc : list Z * list Z) : Prop :=
  match e with
  | EType _ => no_room (gbuf np) h /\ shows np' h' doc
  | ENew => buf (gbuf np') = 0 /\ a_alloc NP_GAP_INITIAL h' = Some (0, h')
  | _ => False
  end.

Lemma ctrl_ok np h f ascii pre post (e := ctrl_edit ascii pre post) :
  shows np h (pre, post) -> buf_size (gbuf np) <= 2 ^ 30 -> short_move (gbuf np) e ->
  exists np' h', np_ctrl np ascii h f = Some (np', h', if Z.lor ascii 0x20 =? 115 then save_text (filepath np) pre post f else f) /\
    (shows np' h' (apply_edit e (pre, post)) \/ edit_refused np h e np' h' (pre, post)).
Proof.
  intros Sh Hs Hm. pose proof Sh as (Hb & R & Hc). cbn [fst snd] in R, Hc. unfold np_ctrl. revert e Hm. unfold ctrl_edit. destruct (Z.eqb_spec (Z.lor ascii 0x20) 115) as [->|]; [|destruct (_ =? 110); [|destruct (_ =? 97)]]; cbn zeta; intros Hm.
  - destruct (np_save_ok np h f pre post R) as (ok & b & ->). eexists _, _. split; [done|]. left. cbn. by apply shows_draw.
  - unfold gb_free, np_kfree. destruct (Z.eqb_spec (buf (gbuf np)) 0); [done|]. destruct R as [Hi Ho _ _ _]. destruct (a_free_spec _ _ _ Hi Ho) as (h1 & -> & Hi1 & _). cbn [mbind option_bind].
    destruct (gb_init_rep h1 Hi1) as (ok & g & h2 & -> & _ & HH). cbn [mbind option_bind]. eexists _, _. split; [done|]. destruct ok.
    + left. destruct HH as (R' & _ & Hb'). apply shows_draw. cbn [apply_edit]. split; [done|]. split; [exact R' | done].
    + right. destruct HH as (-> & Hg & Ha). cbn [edit_refused]. rewrite (proj1 (notepad_draw_keeps _ _ _)). cbn [gbuf]. by rewrite Hg.
  - rewrite (text_length _ _ _ _ R). set (np1 := set_sel _ _ np). assert (shows np1 h (pre, post)) as Sh1 by exact Sh.
    destruct (goto_ok np1 h (Z.of_nat (length (pre ++ post))) pre post Sh1 ltac:(lia) Hm) as (np' & h' & -> & S'). eexists _, _. split; [done|]. left. by apply shows_draw.
  - eexists _, _. split; [done|]. by left.
Qed.

Lemma navigate_ok np h sc pre post (e := move_edit sc pre post) :
  shows np h (pre, post) -> buf_size (gbuf np) <= 2 ^ 30 -> short_move (gbuf np) e ->
  match np_navigate np sc h with
  | Some (np', h') => shows np' h' (apply_edit e (pre, post))
  | None => apply_edit e (pre, post) = (pre, post)
  end.
Proof.
  intros Sh Hs. pose proof Sh as (Hb & R & Hc). cbn [fst snd] in R, Hc. destruct (gap_rep_length _ _ _ _ R) as [L1 L2]. destruct (cursor_of_range pre) as [Hrow Hcol]. pose proof (cursor_row_le pre) as Hrl.
  subst e. unfold np_navigate, move_edit, line_target. rewrite (text_length _ _ _ _ R), (line_count_ok _ _ _ _ R Hs), <- L1.
  destruct (cursor_of pre) as [row col]. injection Hc as -> ->. cbn [fst snd] in Hrow, Hcol, Hrl. pose proof (text_small _ _ _ _ R Hs). pose proof (line_feeds_range (pre ++ post)).
  assert (forall pos, 0 <= pos <= Z.of_nat (length (pre ++ post)) -> short_move (gbuf np) (EGoto pos) -> let '(np', h') := np_goto np pos h in shows np' h' (apply_edit (EGoto pos) (pre, post))) as Go.
  { intros pos Hp Hm. by destruct (goto_ok np h pos pre post Sh Hp Hm) as (np' & h' & -> & ?). }
  assert (forall k, 0 <= k < 2 ^ 32 -> np_line_start (gbuf np) h k + (if np_line_len (gbuf np) h k <? col then np_line_len (gbuf np) h k else col) = place_in (pre ++ post) (Z.to_nat k) col) as Pl.
  { intros k Hk. rewrite (line_start_ok _ _ _ _ R k Hk), (line_len_ok _ _ _ _ R Hs k Hk). unfold place_in. destruct (Z.ltb_spec (line_length (pre ++ post) (Z.to_nat k)) col); lia. }
  destruct (sc =? SC_LEFT); [|destruct (sc =? SC_RIGHT); [|destruct (sc =? SC_UP); [|destruct (sc =? SC_DOWN); [|destruct (sc =? SC_HOME); [|destruct (sc =? SC_END); [|destruct (sc =? SC_DELETE)]]]]]].
  - destruct (Z.ltb_spec 0 (Z.of_nat (length pre))); [|done]. intros Hm. apply Go; [rewrite length_app; lia | done].
  - destruct (Z.ltb_spec (Z.of_nat (length pre)) (Z.of_nat (length (pre ++ post)))); [|done]. intros Hm. apply Go; [lia | done].
  - destruct (Z.ltb_spec 0 row); [|done]. intros Hm. rewrite Pl by lia. pose proof (Go _ (place_in_range (pre ++ post) (Z.to_nat (row - 1)) col ltac:(lia)) Hm) as S'.
    destruct (np_goto np _ h) as [np' h']. by destruct (cursor_line np' <? scroll_line np').
  - rewrite u32_small by (rewrite length_app in *; lia). destruct (Z.ltb_spec (row + 1) (1 + line_feeds (pre ++ post))); [|done]. intros Hm. rewrite Pl by (rewrite length_app in *; lia).
    apply Go; [apply place_in_range; lia | done].
  - intros Hm. rewrite (line_start_ok _ _ _ _ R row Hrow) in *. apply Go; [apply start_of_range | done].
  - intros Hm. rewrite (line_start_ok _ _ _ _ R row Hrow), (line_len_ok _ _ _ _ R Hs row Hrow) in *. apply Go; [|done].
    pose proof (start_of_range (pre ++ post) (Z.to_nat row)). pose proof (run_length_range (drop (Z.to_nat (start_of (pre ++ post) (Z.to_nat row))) (pre ++ post))) as Hr. rewrite length_drop in Hr. unfold line_length. lia.
  - intros _. split; [|split; [by apply gb_delete_rep | exact (proj2 (proj2 Sh))]]. cbn. unfold gb_delete. by destruct (_ <? _).
  - intros _. destruct (sc =? SC_PGUP); [exact Sh|]. destruct (sc =? SC_PGDN); [exact Sh | done].
Qed.


(** ** Opening a file *)

Lemma store_bytes_rep g h data :
  a_inv h -> a_owns h (buf g) (buf_size g) -> 0 < buf_size g -> Z.of_nat (length data) <= buf_size g ->
  gap_rep (mk_gap (buf g) (buf_size g) (Z.of_nat (length data)) (buf_size g)) (a_set_mem h (store_bytes (a_mem h) (buf g) data)) data [].
Proof.
  intros Hi Ho Hs Hl.
  destruct (gap_write g h (store_bytes (a_mem h) (buf g) data)) as [Hi' Ho']; [done | done | |].
  { intros x Hx. unfold store_bytes. destruct (Z.leb_spec (buf g) x), (Z.ltb_spec x (buf g + Z.of_nat (length data))); simpl; done || lia. }
  constructor; cbn [buf buf_size gap_start gap_end]; try done; [lia | |]; rewrite a_mem_set_mem.
  - apply bytes_at_eq; [lia|]. intros i Hx. unfold store_bytes.
    destruct (Z.leb_spec (buf g) (buf g + i)), (Z.ltb_spec (buf g + i) (buf g + Z.of_nat (length data))); simpl; try lia.
    f_equal. lia.
  - by replace (buf_size g - buf_size g) with 0 by lia.
Qed.

(** The gap left beside a loaded file of [n] bytes. *)
Definition load_gap (n : Z) : Z := if n <=? NP_GAP_INITIAL then NP_GAP_INITIAL - n else NP_GAP_INITIAL.

(** After opening a file of [n] bytes the cursor is at the start and the
    text is what one forward copy over a gap of [load_gap n] bytes leaves of
    the file: the file itself when it has at most 2048 bytes or exactly 4096,
    and otherwise its first [load_gap n] bytes over and over (unless there is
    no memory, which leaves no editor or an empty one). *)
Theorem notepad_open_text path ticks h f win f0 fd f1 data f2 :
  a_inv h -> path <> [] -> wm_create_window f = (win, f0) -> vfs_open path f0 = (fd, f1) -> 0 <= fd ->
  let n := vfs_size fd f1 in
  0 < n <= NP_MAX_TEXT -> vfs_read fd n f1 = (data, f2) -> Z.of_nat (length data) = n ->
  exists p np h' f',
    notepad_open path ticks h f = Some (p, np, h', f') /\
    (p <> 0 -> exists text, gap_rep (gbuf np) h' [] text /\ (text = [] \/ text = dragged (load_gap n) data)) /\
    (n <= 2048 \/ n = 4096 -> dragged (load_gap n) data = data) /\
    (forall i, 0 < load_gap n -> 0 <= i < n -> dragged (load_gap n) data !! Z.to_nat i = data !! Z.to_nat (i mod load_gap n)).
Proof.
  intros Hi Hpath Ewin Eopen Hfd n Hn Eread Hlen. unfold notepad_open. pose proof a_max_bound.
  assert ((n <= 2048 \/ n = 4096 -> dragged (load_gap n) data = data) /\
    (forall i, 0 < load_gap n -> 0 <= i < n -> dragged (load_gap n) data !! Z.to_nat i = data !! Z.to_nat (i mod load_gap n))) as Hdr.
  { split.
    - intros Hc. apply dragged_id. unfold load_gap, NP_GAP_INITIAL. destruct (Z.leb_spec n 4096); lia.
    - intros i Hg Hx. unfold dragged. rewrite Hlen.
      change (map (fun j => nth (Z.to_nat (if load_gap n =? 0 then j else j mod load_gap n)) data 0) (seqZ 0 n))
        with (bytes_at (fun j => nth (Z.to_nat (if load_gap n =? 0 then j else j mod load_gap n)) data 0) 0 n).
      rewrite bytes_at_lookup by done. rewrite Z.add_0_l. destruct (Z.eqb_spec (load_gap n) 0); [lia|].
      pose proof (Z.mod_pos_bound i (load_gap n) Hg). pose proof (Z.mod_le i (load_gap n) ltac:(lia) Hg).
      rewrite nth_lookup. destruct (lookup_lt_is_Some_2 data (Z.to_nat (i mod load_gap n)) ltac:(lia)) as [v ->]. done. }
  destruct (a_alloc_spec SIZEOF_NOTEPAD h Hi) as (p & h1 & -> & Hi1 & _ & H1); [unfold SIZEOF_NOTEPAD; lia|].
  cbn [mbind option_bind]. destruct (Z.eqb_spec p 0) as [->|Hp].
  { eexists 0, _, _, _. split; [done|]. split; [done|]. done. }
  destruct (gb_init_rep h1 Hi1) as (ok & g & h2 & -> & Hi2 & HH). cbn [mbind option_bind].
  destruct ok; cbn [negb].
  2:{ destruct HH as (-> & _). destruct (H1 Hp) as [Ho1 _]. destruct (a_free_spec p SIZEOF_NOTEPAD h1 Hi1 Ho1) as (h3 & Ef & _ & _).
      unfold np_kfree. destruct (Z.eqb_spec p 0); [done|]. rewrite Ef. cbn [mbind option_bind].
      eexists 0, _, _, _. split; [done|]. split; [done|]. done. }
  destruct HH as (R & Eg & Hb). rewrite Ewin. destruct path as [|c0 path']; [done|]. rewrite Eopen.
  destruct (Z.leb_spec 0 fd); [|lia]. unfold np_load. fold n.
  destruct (Z.ltb_spec 0 n); [|lia]. destruct (Z.leb_spec n NP_MAX_TEXT); [|lia]. cbn [andb gbuf].
  destruct (gb_grow_rep g h2 n [] [] R Hb) as (ok & g' & h3 & -> & HG).
  { unfold NP_MAX_TEXT in *. lia. } { rewrite Eg. cbn. unfold NP_GAP_INITIAL. lia. }
  cbn [mbind option_bind]. destruct ok.
  - destruct HG as (R' & Hgap & Hb' & Hnew). rewrite Eread. cbn [mbind option_bind].
    destruct (Z.ltb_spec 0 (Z.of_nat (length data))); [|lia].
    destruct (gap_rep_length _ _ _ _ R') as [L1 L2]. cbn [length] in L1, L2.
    pose proof R' as [Hi3 Ho3 Hg3 _ _].
    pose proof (store_bytes_rep g' h3 data Hi3 Ho3 ltac:(lia) ltac:(lia)) as Rd.
    set (gl := mk_gap (buf g') (buf_size g') (Z.of_nat (length data)) (buf_size g')) in *.
    set (hl := a_set_mem h3 _) in *.
    pose proof (gb_move_left_rep gl hl 0 data [] Rd ltac:(cbn; lia)) as Rm.
    cbn [set_gbuf set_file gbuf].
    destruct (gb_move_gap gl 0 hl) as [gm hm]. cbn [fst snd] in Rm.
    eexists p, _, hm, _. split; [done|]. split; [|done]. intros _. eexists. split; [|right; reflexivity].
    rewrite (proj1 (notepad_draw_keeps _ _ _)). cbn [set_gbuf gbuf].
    rewrite drop_0, app_nil_r in Rm. cbn [gl gap_end gap_start] in Rm. rewrite take_0 in Rm.
    replace (load_gap n) with (buf_size g' - Z.of_nat (length data)); [done|].
    unfold load_gap. rewrite Eg in Hnew. cbn [gap_end gap_start] in Hnew. rewrite Z.sub_0_r in Hnew.
    destruct (Z.leb_spec n NP_GAP_INITIAL); lia.
  - destruct HG as (-> & -> & _). cbn [mbind option_bind set_gbuf set_file gbuf].
    assert (gb_move_gap g 0 h2 = (g, h2)) as -> by (rewrite Eg; done).
    eexists p, _, h2, _. split; [done|]. split; [|done]. intros _. exists []. split; [|by left].
    by rewrite (proj1 (notepad_draw_keeps _ _ _)).
Qed.

End Spec.

(** ** Concrete instances: an editor over a 64 KB heap *)

Definition demo_edit : gap_buf * heap :=
  match gb_init gb_zero big_heap with Some (_, g, h) => (g, h) | None => (gb_zero, big_heap) end.

Lemma demo_edit_eq : gb_init gb_zero big_heap = Some (true, fst demo_edit, snd demo_edit).
Proof.
  assert ((fun r => fst (fst r)) <$> gb_init gb_zero big_heap = Some true) as H by (vm_compute; reflexivity).
  unfold demo_edit. destruct (gb_init gb_zero big_heap) as [[[ok g] h]|]; [|done]. cbn in H. by injection H as ->.
Qed.

Definition demo_np : notepad := mk_np (fst demo_edit) 0 0 false 0 0 0 false true 0 [] [] 1.

Lemma demo_np_shows : shows demo_np (snd demo_edit) ([], []).
Proof.
  destruct (gb_init_rep big_heap big_heap_inv) as (ok & g & h & E & _ & H). rewrite demo_edit_eq in E.
  injection E as <- <- <-. destruct H as (R & _ & Hb). exact (conj Hb (conj R eq_refl)).
Qed.

(** Services over a state that is just the bytes still to read. *)
#[local] Instance demo_services : Services (list Z) := {|
  window_height := fun _ _ => Some 480;
  wm_create_window := fun f => (1, f);
  wm_destroy_window := fun _ f => f;
  vfs_open := fun _ f => (3, f);
  vfs_open_create := fun _ f => (3, f);
  vfs_size := fun _ f => Z.of_nat (length f);
  vfs_read := fun _ n f => (take (Z.to_nat n) f, drop (Z.to_nat n) f);
  vfs_write := fun _ l f => f ++ l;
  vfs_close := fun _ f => f;
|}.


Lemma notepad_open_text_witness :
  exists p np h' f',
    notepad_open [97] 0 big_heap [104; 101; 108; 108; 111] = Some (p, np, h', f') /\
    (p <> 0 -> exists text, gap_rep (gbuf np) h' [] text /\ (text = [] \/ text = [104; 101; 108; 108; 111])).
Proof.
  destruct (notepad_open_text [97] 0 big_heap
    [104; 101; 108; 108; 111] 1 [104; 101; 108; 108; 111] 3 [104; 101; 108; 108; 111] [104; 101; 108; 108; 111] [] big_heap_inv
    ltac:(discriminate) eq_refl eq_refl ltac:(lia) ltac:(split; [reflexivity | discriminate]) eq_refl eq_refl)
    as (p & np & h' & f' & E & H & _).
  exact (ex_intro _ p (ex_intro _ np (ex_intro _ h' (ex_intro _ f' (conj E H))))).
Defined.
