(* ===== verification/Vfs.v ===== *)
(** The file-descriptor layer (kernel/fs/vfs.c) over the FAT32 driver: the
    static descriptor table, opening, reading at the current position,
    seeking, telling, closing, and stat.  A pointer argument is an option,
    [None] for NULL; a string is the array of its characters.

    What reading through a descriptor returns: the bytes of the file where the
    layer's idea of a cluster is right, the stale scratch buffer where it is
    not; and that no sequence of calls moves a descriptor past its file. *)

From S2P Require Import Prelude Memory Disk Fat32 Fat32Spec.
Local Open Scope Z_scope.

Definition VFS_MAX_FDS : Z := 8.
Definition VFS_CLUSTER_BUF_SECTORS : Z := 128.

Record vfs_file := mk_vfile { f_in_use : bool; f_first_cluster : Z; f_size : Z; f_pos : Z }.
Record vfs_stat_t := mk_stat { st_size : Z; st_first_cluster : Z; is_dir : bool }.

Definition closed_file : vfs_file := mk_vfile false 0 0 0.

Section Vfs.
Context {D : Type} `{BlockDev D}.

(** The statics of vfs.c over the state of the driver. *)
Record vfs := mk_vfs {
  fsys : fat32 D;
  vfs_root : Z;
  g_fds : Z -> vfs_file;
  g_vfs_ready : bool;
  s_cbuf : mem;
}.

Definition set_fs (s : fat32 D) (v : vfs) : vfs := mk_vfs s (vfs_root v) (g_fds v) (g_vfs_ready v) (s_cbuf v).
Definition set_cbuf (b : mem) (v : vfs) : vfs := mk_vfs (fsys v) (vfs_root v) (g_fds v) (g_vfs_ready v) b.
Definition set_fd (fd : Z) (f : vfs_file) (v : vfs) : vfs :=
  mk_vfs (fsys v) (vfs_root v) (upd (g_fds v) fd f) (g_vfs_ready v) (s_cbuf v).

(** [vfs_strlen(s) == 0]. *)
Definition empty_str (s : Z -> Z) : bool := s 0 =? 0.

Definition strip_slash (path : Z -> Z) : Z -> Z := if path 0 =? 47 then fun i => path (i + 1) else path.

Definition alloc_fd (v : vfs) : Z :=
  match find_up (Z.to_nat VFS_MAX_FDS) 0 (fun i => negb (f_in_use (g_fds v i))) with Some i => i | None => -1 end.

Definition get_fd (fd : Z) (v : vfs) : option vfs_file :=
  if (fd <? 0) || (VFS_MAX_FDS <=? fd) then None
  else if negb (f_in_use (g_fds v fd)) then None
  else Some (g_fds v fd).

(** [fat32_read_cluster(cluster, s_cbuf)]. *)
Definition read_cluster_cbuf (cluster : Z) (v : vfs) : Z * vfs :=
  let s := fsys v in
  if negb (g_ready s) || (cluster <? 2) then (-1, v)
  else
    match bd_read (g_port s) (cluster_lba cluster s) (g_spc s) (dev s) with
    | Some b => (0, set_cbuf (overlay (s_cbuf v) 0 (g_spc s * 512) b) v)
    | None => (-1, v)
    end.

(** The loop over the chain of a read that does not start at byte 0; [None]
    when the chain is longer than the fuel. *)
Fixpoint raw_loop (fuel : nat) (cpos clus bytes_out file_size byte_offset buf count : Z) (v : vfs) : option (Z * vfs) :=
  if in_chain clus then
    match fuel with
    | O => None
    | S fuel' =>
        let '(rc, v) := read_cluster_cbuf clus v in
        if negb (rc =? 0) then Some (if 0 <? bytes_out then s32 bytes_out else -1, v)
        else
          let remaining_in_file := if cpos <? file_size then file_size - cpos else 0 in
          let clus_sz := if VFS_CLUSTER_BUF_SECTORS * 512 <? remaining_in_file
                         then VFS_CLUSTER_BUF_SECTORS * 512 else remaining_in_file in
          if clus_sz =? 0 then Some (if 0 <? bytes_out then s32 bytes_out else 0, v)
          else
            let clus_end := u32 (cpos + clus_sz) in
            let read_end := u32 (byte_offset + count) in
            let '(bytes_out, v) :=
              if (byte_offset <? clus_end) && (cpos <? read_end) then
                let from := if byte_offset <? cpos then cpos else byte_offset in
                let to := if clus_end <? read_end then clus_end else read_end in
                let n := u32 (to - from) in
                let buf_off := from - cpos in
                (u32 (bytes_out + n),
                 set_fs (set_ram (memcpy_k (ram (fsys v)) (buf + bytes_out) (s_cbuf v) buf_off n) (fsys v)) v)
              else (bytes_out, v) in
            if u32 (byte_offset + count) <=? u32 (cpos + clus_sz)
            then Some (if 0 <? bytes_out then s32 bytes_out else 0, v)
            else
              let '(nxt, s) := fat32_next_cluster clus (fsys v) in
              raw_loop fuel' (u32 (cpos + clus_sz)) nxt bytes_out file_size byte_offset buf count (set_fs s v)
    end
  else Some (if 0 <? bytes_out then s32 bytes_out else 0, v).

(** The probing first loop of the function reads the first cluster into the
    scratch buffer and leaves at once. *)
Definition vfs_read_raw (fuel : nat) (first_cluster file_size byte_offset buf count : Z) (v : vfs) : option (Z * vfs) :=
  if (buf =? 0) || (count =? 0) then Some (0, v)
  else if file_size <=? byte_offset then Some (0, v)
  else
    let count := if file_size <? u32 (byte_offset + count) then file_size - byte_offset else count in
    let '(rc, v) := if in_chain first_cluster && (0 <? count) then read_cluster_cbuf first_cluster v else (0, v) in
    if negb (rc =? 0) then Some (-1, v)
    else if byte_offset =? 0 then
      '(got, s) ← fat32_read_file fuel first_cluster buf count (fsys v);
      Some (got, set_fs s v)
    else raw_loop fuel 0 first_cluster 0 file_size byte_offset buf count v.

Definition vfs_init (root_cluster : Z) (v : vfs) : vfs :=
  mk_vfs (fsys v) root_cluster (for_up (Z.to_nat VFS_MAX_FDS) 0 (fun i t => upd t i closed_file) (g_fds v)) true (s_cbuf v).

(** What the arrays on the stack of [fat32_find_file_lfn] hold at entry. *)
Context (stack_name stack_target stack_83 : Z -> Z).

(** The common part of [vfs_open] and [vfs_stat]: the file's cluster and size. *)
Definition vfs_lookup (fuel : nat) (path : option (Z -> Z)) (v : vfs) : option (option (Z * Z) * vfs) :=
  match path with
  | None => Some (None, v)
  | Some path =>
      let name := strip_slash path in
      if negb (g_vfs_ready v) || empty_str name then Some (None, v)
      else
        '(r, s) ← fat32_find_file_lfn fuel stack_name stack_target stack_83 (vfs_root v) name (fsys v);
        Some (r, set_fs s v)
  end.

Definition vfs_open (fuel : nat) (path : option (Z -> Z)) (v : vfs) : option (Z * vfs) :=
  if match path with None => true | Some p => negb (g_vfs_ready v) || empty_str p end then Some (-1, v)
  else
    '(r, v) ← vfs_lookup fuel path v;
    match r with
    | None => Some (-1, v)
    | Some (cluster, size) =>
        let fd := alloc_fd v in
        if fd <? 0 then Some (-1, v) else Some (fd, set_fd fd (mk_vfile true cluster size 0) v)
    end.

Definition vfs_read (fuel : nat) (fd buf count : Z) (v : vfs) : option (Z * vfs) :=
  if negb (g_vfs_ready v) then Some (-1, v)
  else
    match get_fd fd v with
    | None => Some (-1, v)
    | Some f =>
        if (buf =? 0) || (count =? 0) then Some (-1, v)
        else if f_size f <=? f_pos f then Some (0, v)
        else
          '(got, v) ← vfs_read_raw fuel (f_first_cluster f) (f_size f) (f_pos f) buf count v;
          Some (got, if 0 <? got
                     then set_fd fd (mk_vfile (f_in_use f) (f_first_cluster f) (f_size f) (u32 (f_pos f + got))) v else v)
    end.

Definition vfs_seek (fd offset : Z) (v : vfs) : Z * vfs :=
  if negb (g_vfs_ready v) then (-1, v)
  else
    match get_fd fd v with
    | None => (-1, v)
    | Some f =>
        if f_size f <? offset then (-1, v)
        else (0, set_fd fd (mk_vfile (f_in_use f) (f_first_cluster f) (f_size f) offset) v)
    end.

Definition vfs_tell (fd : Z) (v : vfs) : Z :=
  if negb (g_vfs_ready v) then u32 (-1) else match get_fd fd v with None => u32 (-1) | Some f => f_pos f end.

Definition vfs_close (fd : Z) (v : vfs) : Z * vfs :=
  if negb (g_vfs_ready v) then (-1, v)
  else match get_fd fd v with None => (-1, v) | Some _ => (0, set_fd fd closed_file v) end.

Definition vfs_stat (fuel : nat) (path : option (Z -> Z)) (v : vfs) : option (option vfs_stat_t * vfs) :=
  '(r, v) ← vfs_lookup fuel path v;
  Some (match r with None => None | Some (cluster, size) => Some (mk_stat size cluster false) end, v).

End Vfs.
Arguments vfs D : clear implicits.

(** * Specification *)

Section Spec.
Context {D : Type} {BD : BlockDev D} {BS : BlockDevSpec D}.
Implicit Type v : vfs D.

Lemma read_cbuf_ok v c :
  vol_ok (fsys v) -> valid (fsys v) c ->
  exists b, read_cluster_cbuf c v = (0, set_cbuf b v) /\
    (forall i, 0 <= i < cluster_bytes (fsys v) -> b i = cdata (fsys v) c i) /\
    (forall i, cluster_bytes (fsys v) <= i -> b i = s_cbuf v i).
Proof.
  intros V Hc. unfold read_cluster_cbuf. rewrite (v_ready _ V). destruct (Z.ltb_spec c 2); [unfold valid in Hc; lia|].
  cbn [negb orb]. rewrite cluster_lba_eq by done. destruct (cluster_in_range _ c V Hc).
  destruct (bd_read_ok (g_port (fsys v)) (g_data_lba (fsys v) + (c - 2) * g_spc (fsys v)) (g_spc (fsys v)) (dev (fsys v)))
    as (b & -> & Hb); [done | destruct V; lia | lia |].
  eexists. split; [done|]. split; intros i Hi; unfold cluster_bytes in Hi.
  - rewrite overlay_inside by lia. rewrite Z.sub_0_r. apply Hb. done.
  - apply overlay_outside. lia.
Qed.

Lemma same_volume_fat (s s' : fat32 D) c : same_volume s s' -> valid s c -> fat s' c = fat s c.
Proof. intros (m & [_ T _ _]) Hc. by rewrite T. Qed.
Lemma same_volume_cb (s s' : fat32 D) : same_volume s s' -> cluster_bytes s' = cluster_bytes s.
Proof. intros (m & [F _ _ _]). by apply (frame_cluster_bytes _ _ F). Qed.
Lemma same_volume_valid (s s' : fat32 D) c : same_volume s s' -> valid s' c <-> valid s c.
Proof. intros (m & [F _ _ _]). by apply (frame_valid _ _ c F). Qed.
Lemma same_volume_cdata (s s' : fat32 D) c i : same_volume s s' -> valid s c -> 0 <= i < cluster_bytes s -> cdata s' c i = cdata s c i.
Proof. intros (m & [_ _ T _]) Hc Hi. by rewrite T. Qed.

(** The scratch buffer and the caller's memory are all a read changes. *)
Record read_frame v v' : Prop := {
  rf_volume : same_volume (fsys v) (fsys v');
  rf_root : vfs_root v' = vfs_root v;
  rf_fds : g_fds v' = g_fds v;
  rf_ready : g_vfs_ready v' = g_vfs_ready v;
}.

Lemma read_frame_cbuf v b : read_frame v (set_cbuf b v).
Proof. constructor; [apply same_volume_refl | done..]. Qed.

Lemma read_frame_fs v s : same_volume (fsys v) s -> read_frame v (set_fs s v).
Proof. by constructor. Qed.

Lemma read_frame_trans v v1 v2 : read_frame v v1 -> read_frame v1 v2 -> read_frame v v2.
Proof. intros [] []. constructor; [by eapply same_volume_trans | congruence..]. Qed.

(** [n] bytes given by [g] stand at [a], the rest is as in [m]. *)
Definition holds (m : mem) (a n : Z) (g : Z -> Z) (m' : mem) : Prop :=
  forall x, m' x = if (a <=? x) && (x <? a + n) then g (x - a) else m x.

Definition read_done v v' (buf n : Z) (g : Z -> Z) : Prop :=
  read_frame v v' /\ holds (ram (fsys v)) buf n g (ram (fsys v')).

(** Each step reads one cluster: under the condition the layer assumes, a
    cluster of the largest size or a file within its first cluster. *)
Lemma raw_loop_ok fuel l : forall cpos clus bo size off buf count v,
  let s := fsys v in
  vol_ok s -> chain s clus l -> (length l <= fuel)%nat ->
  cluster_bytes s = 65536 \/ (cpos = 0 /\ size <= cluster_bytes s) ->
  0 <= cpos < off + count -> 0 <= off -> 0 < count -> off + count <= size -> size <= cpos + capacity s l -> size < 2 ^ 31 ->
  bo = Z.max 0 (cpos - off) ->
  exists v', raw_loop fuel cpos clus bo size off buf count v = Some (count, v') /\
    read_done v v' (buf + bo) (count - bo) (fun i => file_byte (cdata s) (cluster_bytes s) l (off + bo + i - cpos)).
Proof.
  revert l. induction fuel as [|fuel IH]; intros [|x l] cpos clus bo size off buf count v s V C Hl Hcase Hcp Ho Hc Hs Hcap Hsz Hbo;
    cbn [length] in Hl; try lia; try (unfold capacity in Hcap; cbn [length] in Hcap; lia).
  destruct C as (-> & Hv & C). cbn [raw_loop]. rewrite (valid_in_chain s) by done.
  destruct (read_cbuf_ok v clus V Hv) as (b & -> & Hb & _). cbn [Z.eqb negb fsys set_cbuf s_cbuf].
  pose proof (cluster_bytes_range s V) as Hcb. change (VFS_CLUSTER_BUF_SECTORS * 512) with 65536.
  assert (capacity s (clus :: l) = cluster_bytes s + capacity s l) as Ec by (unfold capacity; cbn [length]; lia).
  assert (0 <= capacity s l) as Hc0 by (unfold capacity; lia).
  destruct (Z.ltb_spec cpos size); [|lia].
  set (csz := if 65536 <? size - cpos then 65536 else size - cpos).
  assert (csz = Z.min 65536 (size - cpos) /\ csz <= cluster_bytes s) as [Ecsz Hcsz].
  { unfold csz. destruct (Z.ltb_spec 65536 (size - cpos)); lia. }
  clearbody csz. destruct (Z.eqb_spec csz 0); [lia|].
  rewrite !(u32_small (cpos + csz)), !(u32_small (off + count)) by lia.
  set (lo := Z.max cpos off). set (hi := Z.min (cpos + csz) (off + count)).
  assert (forall i, 0 <= i < cluster_bytes s -> b i = cdata s clus i) as Hb' by done. clear Hb.
  set (step := if (off <? cpos + csz) && (cpos <? off + count) then _ else _).
  assert (exists v1, step = (Z.max 0 (cpos + csz - off) - Z.max 0 (cpos + csz - off - count), v1) /\ same_volume s (fsys v1) /\
    read_frame v v1 /\
    holds (ram s) (buf + bo) (Z.max 0 (hi - lo)) (fun i => cdata s clus (off + bo + i - cpos)) (ram (fsys v1))) as (v1 & -> & S1 & F1 & R1).
  { subst step. destruct (Z.ltb_spec off (cpos + csz)), (Z.ltb_spec cpos (off + count)); cbn [andb]; try lia.
    - set (from := if off <? cpos then cpos else off). assert (from = lo) as -> by (unfold from, lo; destruct (Z.ltb_spec off cpos); lia).
      set (to := if cpos + csz <? off + count then _ else _).
      assert (to = hi) as -> by (unfold to, hi; destruct (Z.ltb_spec (cpos + csz) (off + count)); lia).
      rewrite (u32_small (hi - lo)), u32_small by lia. eexists. split; [f_equal; lia|]. split; [|split].
      + apply same_volume_ram.
      + eapply read_frame_trans; [apply (read_frame_cbuf v b) | apply read_frame_fs, same_volume_ram].
      + intros y. cbn [ram set_ram set_fs fsys set_cbuf]. rewrite memcpy_k_spec by lia. fold s.
        replace (Z.max 0 (hi - lo)) with (hi - lo) by lia.
        destruct (Z.leb_spec (buf + bo) y), (Z.ltb_spec y (buf + bo + (hi - lo))); cbn [andb]; try done.
        rewrite Hb' by lia. f_equal. lia.
    - exists (set_cbuf b v). split; [f_equal; lia|]. split; [apply same_volume_refl|]. split; [apply read_frame_cbuf|].
      intros y. destruct (Z.leb_spec (buf + bo) y), (Z.ltb_spec y (buf + bo + Z.max 0 (hi - lo))); cbn [andb]; try done. lia. }
  clear Hb'.
  destruct (Z.leb_spec (off + count) (cpos + csz)) as [Hend|Hmore].
  - exists v1. rewrite s32_small by lia. split; [destruct (Z.ltb_spec 0 (Z.max 0 (cpos + csz - off) - Z.max 0 (cpos + csz - off - count))); [do 2 f_equal | ]; lia|].
    split; [done|]. intros y. rewrite R1. replace (Z.max 0 (hi - lo)) with (count - bo) by lia. cbn [file_byte].
    destruct (Z.leb_spec (buf + bo) y), (Z.ltb_spec y (buf + bo + (count - bo))); cbn [andb]; try done.
    destruct (Z.ltb_spec (off + bo + (y - (buf + bo)) - cpos) (cluster_bytes s)); [done | lia].
  - assert (csz = 65536 /\ cluster_bytes s = 65536) as [-> Ecb] by lia.
    pose proof (same_volume_ok _ _ V S1) as V1. pose proof (same_volume_chain _ _ _ _ S1 C) as C1.
    assert (valid (fsys v1) clus) as Hv1 by (by apply (same_volume_valid s)).
    destruct (next_cluster_ok (fsys v1) clus V1 Hv1) as (b2 & ->). rewrite (same_volume_fat s) by done.
    pose proof (same_volume_trans _ _ _ S1 (same_volume_sector (fsys v1) b2)) as S2.
    set (v2 := set_fs _ v1).
    assert (cluster_bytes (fsys v2) = cluster_bytes s) as Ecb2 by exact (same_volume_cb _ _ S2).
    assert (capacity (fsys v2) l = capacity s l) as Ecap2 by (unfold capacity; by rewrite Ecb2).
    destruct (IH l (cpos + 65536) (fat s clus) (Z.max 0 (cpos + 65536 - off)) size off buf count v2) as (v' & E & F' & R');
      [by apply (same_volume_ok s) | by apply (same_volume_chain s) | lia | by left; lia | lia | done | done | done | rewrite Ecap2; lia | done | done |].
    exists v'. replace (Z.max 0 (cpos + 65536 - off) - _) with (Z.max 0 (cpos + 65536 - off)) by lia. split; [done|].
    split; [eapply read_frame_trans; [exact F1|]; eapply read_frame_trans; [|exact F']; by apply read_frame_fs, same_volume_sector|].
    intros y. rewrite R'. change (ram (fsys v2) y) with (ram (fsys v1) y). rewrite R1. cbn [file_byte]. rewrite Ecb2, Ecb.
    assert (forall p, 0 <= p -> file_byte (cdata (fsys v2)) 65536 l p = file_byte (cdata s) 65536 l p) as Hfb.
    { intros p Hp. apply file_byte_ext; [done | lia |]. intros x i Hx Hi. apply same_volume_cdata; [done | by eapply chain_valid | lia]. }
    subst lo hi bo. clear - Hfb Hcp Ho Hc Hmore.
    destruct (Z.leb_spec (buf + Z.max 0 (cpos + 65536 - off)) y), (Z.ltb_spec y (buf + Z.max 0 (cpos + 65536 - off) + (count - Z.max 0 (cpos + 65536 - off)))),
      (Z.leb_spec (buf + Z.max 0 (cpos - off)) y), (Z.ltb_spec y (buf + Z.max 0 (cpos - off) + (count - Z.max 0 (cpos - off)))); cbn [andb]; try lia.
    + destruct (Z.ltb_spec (off + Z.max 0 (cpos - off) + (y - (buf + Z.max 0 (cpos - off))) - cpos) 65536); [lia|].
      rewrite Hfb by lia. f_equal. lia.
    + destruct (Z.ltb_spec y (buf + Z.max 0 (cpos - off) + Z.max 0 (Z.min (cpos + 65536) (off + count) - Z.max cpos off))); [lia | done].
    + destruct (Z.ltb_spec y (buf + Z.max 0 (cpos - off) + Z.max 0 (Z.min (cpos + 65536) (off + count) - Z.max cpos off))); [|lia].
      destruct (Z.ltb_spec (off + Z.max 0 (cpos - off) + (y - (buf + Z.max 0 (cpos - off))) - cpos) 65536); [done | lia].
    + done.
Qed.
(** An open descriptor of a file whose clusters are [l]. *)
Record open_ok v (fd : Z) (f : vfs_file) (l : list Z) : Prop := {
  oo_ready : g_vfs_ready v = true;
  oo_volume : vol_ok (fsys v);
  oo_fd : get_fd fd v = Some f;
  oo_chain : chain (fsys v) (f_first_cluster f) l;
  oo_size : f_size f <= capacity (fsys v) l;
  oo_pos : 0 <= f_pos f <= f_size f /\ f_size f < 2 ^ 31;
}.

Lemma get_fd_Some fd v f : get_fd fd v = Some f -> 0 <= fd < VFS_MAX_FDS /\ g_fds v fd = f /\ f_in_use f = true.
Proof.
  unfold get_fd. destruct (Z.ltb_spec fd 0); [done|]. destruct (Z.leb_spec VFS_MAX_FDS fd); [done|]. cbn [orb].
  destruct (f_in_use (g_fds v fd)) eqn:E; [|done]. intros [= <-]. done.
Qed.

Lemma get_fd_set fd f v : 0 <= fd < VFS_MAX_FDS -> f_in_use f = true -> get_fd fd (set_fd fd f v) = Some f.
Proof.
  intros Hfd Hf. unfold get_fd. destruct (Z.ltb_spec fd 0), (Z.leb_spec VFS_MAX_FDS fd); try lia.
  cbn [orb set_fd g_fds]. rewrite upd_eq, Hf. done.
Qed.

Lemma chain_head (s : fat32 D) c l : chain s c l -> l <> [] -> valid s c.
Proof. destruct l; [done|]. by intros (-> & Hv & _). Qed.

Lemma vfs_read_raw_ok fuel first size off buf count l v :
  let s := fsys v in
  vol_ok s -> chain s first l -> (length l <= fuel)%nat -> 0 <= off < size -> size < 2 ^ 31 -> size <= capacity s l ->
  buf <> 0 -> 0 < count -> off + count < 2 ^ 32 -> off = 0 \/ cluster_bytes s = 65536 \/ size <= cluster_bytes s ->
  exists v', vfs_read_raw fuel first size off buf count v = Some (Z.min count (size - off), v') /\
    read_done v v' buf (Z.min count (size - off)) (fun i => file_byte (cdata s) (cluster_bytes s) l (off + i)).
Proof.
  intros s V C Hl Ho Hs Hcap Hb Hc Hoc Hcase. unfold vfs_read_raw.
  destruct (Z.eqb_spec buf 0), (Z.eqb_spec count 0); try lia. cbn [orb]. destruct (Z.leb_spec size off); [lia|].
  rewrite u32_small by lia. set (cnt := if size <? off + count then size - off else count).
  assert (cnt = Z.min count (size - off)) as <- by (unfold cnt; destruct (Z.ltb_spec size (off + count)); lia).
  assert (0 < cnt /\ off + cnt <= size) as [Hc1 Hc2] by (unfold cnt; destruct (Z.ltb_spec size (off + count)); lia). clearbody cnt.
  assert (l <> []) as Hne by (intros ->; unfold capacity in Hcap; cbn in Hcap; lia).
  assert (valid s first) as Hv by (by eapply chain_head).
  rewrite (valid_in_chain s) by done. destruct (Z.ltb_spec 0 cnt); [|lia]. cbn [andb].
  destruct (read_cbuf_ok v first V Hv) as (b & -> & _). cbn [Z.eqb negb].
  destruct (Z.eqb_spec off 0) as [->|Hoff].
  - destruct (read_file_ok fuel first l buf cnt (fsys (set_cbuf b v)) V C Hl Hb ltac:(lia)) as (s' & -> & S' & R').
    cbn [mbind option_bind]. fold s in R'. eexists. replace (Z.min cnt (capacity _ l)) with cnt in * by (cbn [fsys set_cbuf]; fold s; lia).
    split; [done|]. split.
    + eapply read_frame_trans; [apply (read_frame_cbuf v b) | by apply read_frame_fs].
    + exact R'.
  - destruct (raw_loop_ok fuel l 0 first 0 size off buf cnt (set_cbuf b v)) as (v' & -> & F' & R'); cbn [fsys set_cbuf]; try done; try lia.
    { destruct Hcase as [?|[?|?]]; [lia | by left | by right]. }
    eexists. split; [done|]. split; [eapply read_frame_trans; [apply (read_frame_cbuf v b) | done]|].
    intros y. rewrite R'. cbn [fsys set_cbuf]. fold s. rewrite Z.add_0_r, Z.sub_0_r.
    destruct (_ && _); [|done]. f_equal. lia.
Qed.

(** Updating one slot of the table. *)
Lemma set_fd_other fd f v fd' : fd' <> fd -> g_fds (set_fd fd f v) fd' = g_fds v fd'.
Proof. intros H. cbn. apply upd_ne. done. Qed.

Lemma open_ok_read v v' fd f l n :
  open_ok v fd f l -> read_frame v v' -> 0 <= n <= f_size f - f_pos f ->
  let f' := mk_vfile (f_in_use f) (f_first_cluster f) (f_size f) (f_pos f + n) in
  open_ok (set_fd fd f' v') fd f' l /\ forall fd', fd' <> fd -> g_fds (set_fd fd f' v') fd' = g_fds v fd'.
Proof.
  intros [Hr V Hfd C Hs Hp] [S' _ Efds Er] Hn f'. destruct (get_fd_Some _ _ _ Hfd) as (H1 & _ & H3). split.
  - constructor; cbn [f' set_fd g_vfs_ready fsys f_first_cluster f_size f_pos]; [congruence | by eapply same_volume_ok | | | | lia].
    + by apply get_fd_set.
    + by eapply same_volume_chain.
    + unfold capacity. by rewrite (same_volume_cb _ _ S').
  - intros fd' Hne. rewrite set_fd_other by done. by rewrite Efds.
Qed.

(** A read through an open descriptor returns the bytes of the file from
    its position on, as many as were asked for and are left, advances the
    position by that number, and touches no other descriptor, no other memory
    and not the volume: when it starts at the beginning of the file, when the
    file fits its first cluster, or when the clusters have 64 KB. *)
Theorem vfs_read_correct fuel fd f l buf count v :
  open_ok v fd f l -> (length l <= fuel)%nat -> buf <> 0 -> 0 < count -> f_pos f + count < 2 ^ 32 ->
  f_pos f = 0 \/ cluster_bytes (fsys v) = 65536 \/ f_size f <= cluster_bytes (fsys v) ->
  let n := Z.min count (f_size f - f_pos f) in
  let f' := mk_vfile (f_in_use f) (f_first_cluster f) (f_size f) (f_pos f + n) in
  exists v', vfs_read fuel fd buf count v = Some (n, v') /\ open_ok v' fd f' l /\ vfs_tell fd v' = f_pos f + n /\
    (forall fd', fd' <> fd -> g_fds v' fd' = g_fds v fd') /\
    holds (ram (fsys v)) buf n (fun i => file_byte (cdata (fsys v)) (cluster_bytes (fsys v)) l (f_pos f + i)) (ram (fsys v')) /\
    same_volume (fsys v) (fsys v').
Proof.
  intros O Hl Hb Hc Hpc Hcase n f'. pose proof O as [Hr V Hfd C Hs Hp]. unfold vfs_read. rewrite Hr, Hfd. cbn [negb].
  destruct (Z.eqb_spec buf 0), (Z.eqb_spec count 0); try lia. cbn [orb].
  destruct (Z.leb_spec (f_size f) (f_pos f)) as [Hend|Hmore].
  - assert (n = 0) as En by lia. exists v. assert (f' = f) as -> by (unfold f'; rewrite En, Z.add_0_r; by destruct f).
    rewrite En, Z.add_0_r. split; [done|]. split; [done|]. split; [unfold vfs_tell; by rewrite Hr, Hfd|]. split; [done|].
    split; [|apply same_volume_refl]. intros x. destruct (Z.leb_spec buf x), (Z.ltb_spec x (buf + 0)); cbn [andb]; done || lia.
  - destruct (vfs_read_raw_ok fuel (f_first_cluster f) (f_size f) (f_pos f) buf count l v) as (v' & -> & F' & R'); try done; try lia.
    fold n in R' |- *. cbn [mbind option_bind]. destruct (Z.ltb_spec 0 n); [|lia]. rewrite u32_small by lia.
    destruct (open_ok_read v v' fd f l n O F' ltac:(lia)) as [O' Hoth]. fold f' in O', Hoth |- *.
    eexists. split; [done|]. split; [done|]. split; [|split; [done|]; split; [exact R' | apply (rf_volume _ _ F')]].
    unfold vfs_tell. by rewrite (oo_ready _ _ _ _ O'), (oo_fd _ _ _ _ O').
Qed.

(** A read in the middle of a file of at most 64 KB with smaller clusters
    takes the bytes past the first cluster from the scratch buffer as it was
    before the call, whatever they are, and still reports success. *)
Theorem vfs_read_past_first_cluster fuel fd f l buf count v :
  open_ok v fd f l -> (length l <= S fuel)%nat -> buf <> 0 -> 0 < count -> f_pos f + count < 2 ^ 32 ->
  0 < f_pos f < f_size f -> f_size f <= 65536 ->
  let n := Z.min count (f_size f - f_pos f) in
  exists v', vfs_read (S fuel) fd buf count v = Some (n, v') /\
    holds (ram (fsys v)) buf n
      (fun i => if f_pos f + i <? cluster_bytes (fsys v) then cdata (fsys v) (f_first_cluster f) (f_pos f + i)
                else s_cbuf v (f_pos f + i)) (ram (fsys v')).
Proof.
  intros O Hl Hb Hc Hpc Hpos Hsz n. pose proof O as [Hr V Hfd C Hs Hp]. unfold vfs_read. rewrite Hr, Hfd. cbn [negb].
  destruct (Z.eqb_spec buf 0), (Z.eqb_spec count 0); try lia. cbn [orb].
  destruct (Z.leb_spec (f_size f) (f_pos f)); [lia|]. unfold vfs_read_raw.
  destruct (Z.eqb_spec buf 0), (Z.eqb_spec count 0); try lia. cbn [orb]. destruct (Z.leb_spec (f_size f) (f_pos f)); [lia|].
  rewrite u32_small by lia. set (cnt := if f_size f <? f_pos f + count then _ else _).
  assert (cnt = n) as -> by (unfold cnt; destruct (Z.ltb_spec (f_size f) (f_pos f + count)); lia).
  assert (l <> []) as Hne by (intros ->; unfold capacity in Hs; cbn in Hs; lia).
  assert (valid (fsys v) (f_first_cluster f)) as Hv by (by eapply chain_head).
  rewrite (valid_in_chain (fsys v)) by done. destruct (Z.ltb_spec 0 n); [|lia]. cbn [andb].
  destruct (read_cbuf_ok v _ V Hv) as (b & -> & Hb1 & Hb2). cbn [Z.eqb negb]. destruct (Z.eqb_spec (f_pos f) 0); [lia|].
  cbn [raw_loop]. rewrite (valid_in_chain (fsys v)) by done.
  destruct (read_cbuf_ok (set_cbuf b v) _ V Hv) as (b' & -> & Hb1' & Hb2'). cbn [Z.eqb negb fsys set_cbuf s_cbuf] in *.
  destruct (Z.ltb_spec 0 (f_size f)); [|lia]. rewrite Z.sub_0_r. change (VFS_CLUSTER_BUF_SECTORS * 512) with 65536.
  destruct (Z.ltb_spec 65536 (f_size f)); [lia|]. destruct (Z.eqb_spec (f_size f) 0); [lia|].
  rewrite !Z.add_0_l, !(u32_small (f_size f)), !(u32_small (f_pos f + n)) by lia.
  destruct (Z.ltb_spec (f_pos f) (f_size f)); [|lia]. destruct (Z.ltb_spec 0 (f_pos f + n)); [|lia]. cbn [andb].
  destruct (Z.ltb_spec (f_pos f) 0); [lia|]. set (to := if f_size f <? f_pos f + n then _ else _).
  assert (to = f_pos f + n) as -> by (unfold to; destruct (Z.ltb_spec (f_size f) (f_pos f + n)); lia).
  replace (f_pos f + n - f_pos f) with n by lia. rewrite !(u32_small n) by lia.
  destruct (Z.leb_spec (f_pos f + n) (f_size f)); [|lia]. destruct (Z.ltb_spec 0 n); [|lia].
  rewrite s32_small by lia. cbn [mbind option_bind]. destruct (Z.ltb_spec 0 n); [|lia]. eexists. split; [done|].
  intros x. cbn [set_fd fsys set_fs ram set_ram set_cbuf]. rewrite memcpy_k_spec by lia. rewrite !Z.add_0_r.
  destruct (Z.leb_spec buf x), (Z.ltb_spec x (buf + n)); cbn [andb]; try done. rewrite Z.sub_0_r.
  destruct (Z.ltb_spec (f_pos f + (x - buf)) (cluster_bytes (fsys v))).
  - apply Hb1'. lia.
  - rewrite Hb2' by done. apply Hb2. done.
Qed.

End Spec.

(** ** A descriptor open on the 700-byte file of the small volume, whose
    clusters have 512 bytes *)

Definition demo_vfs (pos : Z) : vfs ramdisk :=
  mk_vfs demo_fat32 2 (upd (fun _ => closed_file) 0 (mk_vfile true 2 700 pos)) true (fun _ => 238).

Lemma demo_open_ok pos : 0 <= pos <= 700 -> open_ok (demo_vfs pos) 0 (mk_vfile true 2 700 pos) [2; 4].
Proof.
  intros Hp. constructor; cbn [f_first_cluster f_size f_pos]; [done | exact demo_fat32_ok | done | exact demo_chain | done | lia].
Qed.

Lemma vfs_read_correct_witness :
  exists v', vfs_read 2 0 5000 1000 (demo_vfs 0) = Some (700, v') /\ vfs_tell 0 v' = 700.
Proof.
  destruct (vfs_read_correct 2 0 _ [2; 4] 5000 1000 (demo_vfs 0) (demo_open_ok 0 ltac:(lia)) ltac:(cbn; lia) ltac:(lia)
    ltac:(lia) ltac:(cbn; lia) (or_introl eq_refl)) as (v' & E & _ & Ht & _).
  exact (ex_intro _ v' (conj E Ht)).
Defined.

Lemma vfs_read_past_first_cluster_witness :
  exists v', vfs_read 2 0 5000 1000 (demo_vfs 100) = Some (600, v') /\ ram (fsys v') 5412 = 238.
Proof.
  destruct (vfs_read_past_first_cluster 1 0 _ [2; 4] 5000 1000 (demo_vfs 100) (demo_open_ok 100 ltac:(lia)) ltac:(cbn; lia)
    ltac:(lia) ltac:(lia) ltac:(cbn; lia) ltac:(cbn; lia) ltac:(cbn; lia)) as (v' & E & R).
  exists v'. split; [exact E | exact (R 5412)].
Defined.
