(* ===== verification/BootInfo.v ===== *)
(** The Multiboot2 information block: the walk over its tags, the search for
    the initrd module (kernel/mb2_modules.c) and for the memory map
    (find_mmap_tag of kernel/kernel_main.c).  Physical addresses are used as
    pointers, as the identity map makes them.

    The walk over the Multiboot2 tags visits every tag once and ends on a
    block whose tags have at least their header's size; a tag of size 0 keeps
    it going for ever. *)

From S2P Require Import Prelude Memory.
Local Open Scope Z_scope.

Definition MB2_TAG_TYPE_END : Z := 0.
Definition MB2_TAG_TYPE_MODULE : Z := 3.
Definition MB2_TAG_TYPE_MMAP : Z := 6.

(** Fields of the packed structures. *)
Definition hdr_total_size (m : mem) (a : Z) : Z := load32 m a.
Definition tag_type (m : mem) (a : Z) : Z := load32 m a.
Definition tag_size (m : mem) (a : Z) : Z := load32 m (a + 4).
Definition mod_start (m : mem) (a : Z) : Z := load32 m (a + 8).
Definition mod_end (m : mem) (a : Z) : Z := load32 m (a + 12).
Definition mod_string (a : Z) : Z := a + 16.

(** [(size + 7u) & ~7u]. *)
Definition padded (size : Z) : Z := Z.land (u32 (size + 7)) (Z.lnot 7 mod 2 ^ 32).

(** The inner loop of [m_strstr]: the whole needle stands at [h]. *)
Fixpoint needle_at (m : mem) (h : Z) (needle : list Z) : bool :=
  match needle with
  | [] => true
  | c :: r => if m h =? 0 then false else if m h =? c then needle_at m (h + 1) r else false
  end.

(** [None] when the string does not end within the fuel. *)
Fixpoint m_strstr (fuel : nat) (m : mem) (haystack : Z) (needle : list Z) : option bool :=
  if m haystack =? 0 then Some false
  else if needle_at m haystack needle then Some true
  else match fuel with O => None | S fuel' => m_strstr fuel' m (haystack + 1) needle end.

Section Walk.
Context {C : Type}.

(** [None] when a visitor does not end or the walk takes more steps than the fuel. *)
Fixpoint mb2_walk_loop (fuel : nat) (m : mem) (info offset : Z) (fn : Z -> C -> option C) (ctx : C) : option C :=
  if offset <? hdr_total_size m info then
    match fuel with
    | O => None
    | S fuel' =>
        let tag := info + offset in
        if tag_type m tag =? MB2_TAG_TYPE_END then Some ctx
        else
          ctx ← (if tag_type m tag =? MB2_TAG_TYPE_MODULE then fn tag ctx else Some ctx);
          mb2_walk_loop fuel' m info (u32 (offset + padded (tag_size m tag))) fn ctx
    end
  else Some ctx.

Definition mb2_walk_modules (fuel : nat) (m : mem) (mb2_phys : Z) (fn : Z -> C -> option C) (ctx : C) : option C :=
  mb2_walk_loop fuel m mb2_phys 8 fn ctx.
End Walk.

Record find_ctx := mk_find { fc_phys : Z; fc_size : Z; fc_found : bool }.

Definition INITRD_NEEDLE : list Z := bytes_of "initrd".

Definition visitor_find_initrd (fuel : nat) (m : mem) (tag : Z) (fc : find_ctx) : option find_ctx :=
  if fc_found fc then Some fc
  else
    let s := mod_string tag in
    ok ← (if m s =? 0 then Some true else m_strstr fuel m s INITRD_NEEDLE);
    Some (if (ok : bool) then mk_find (mod_start m tag) (u32 (mod_end m tag - mod_start m tag)) true else fc).

Definition visitor_count (tag : Z) (count : Z) : option Z := Some (u32 (count + 1)).

(** [None] inside: no module was found and the outputs stay as they were. *)
Definition mb2_find_initrd (fuel : nat) (m : mem) (mb2_phys : Z) : option (option (Z * Z)) :=
  fc ← mb2_walk_modules fuel m mb2_phys (visitor_find_initrd fuel m) (mk_find 0 0 false);
  Some (if fc_found fc then Some (fc_phys fc, fc_size fc) else None).

Definition mb2_count_modules (fuel : nat) (m : mem) (mb2_phys : Z) : option Z :=
  mb2_walk_modules fuel m mb2_phys visitor_count 0.

(** The tag's address, 0 when there is none, and its size. *)
Fixpoint find_mmap_loop (fuel : nat) (m : mem) (mb2_addr off : Z) : option (Z * Z) :=
  if off <? load32 m mb2_addr then
    match fuel with
    | O => None
    | S fuel' =>
        let type := load32 m (u32 (mb2_addr + off)) in
        let size := load32 m (u32 (u32 (mb2_addr + off) + 4)) in
        if type =? MB2_TAG_TYPE_END then Some (0, 0)
        else if type =? MB2_TAG_TYPE_MMAP then Some (u32 (mb2_addr + off), size)
        else find_mmap_loop fuel' m mb2_addr (u32 (off + padded size))
    end
  else Some (0, 0).

Definition find_mmap_tag (fuel : nat) (m : mem) (mb2_addr : Z) : option (Z * Z) := find_mmap_loop fuel m mb2_addr 8.

(** * Specification *)

Lemma padded_spec size : 0 <= size <= 2 ^ 32 - 8 -> padded size = (size + 7) / 8 * 8.
Proof.
  intros H. unfold padded. rewrite u32_small by lia. change 7 with (2 ^ 3 - 1) at 2. rewrite (land_align _ 3 32) by lia.
  change (2 ^ 3) with 8. lia.
Qed.

(** The addresses of the tags from [offset] on, up to the end tag or the end
    of the block. *)
Inductive tags_at (m : mem) (info : Z) : Z -> list Z -> Prop :=
  | tags_out offset : hdr_total_size m info <= offset -> tags_at m info offset []
  | tags_end offset :
      0 <= offset < hdr_total_size m info -> tag_type m (info + offset) = MB2_TAG_TYPE_END -> tags_at m info offset []
  | tags_step offset l :
      0 <= offset < hdr_total_size m info -> tag_type m (info + offset) <> MB2_TAG_TYPE_END ->
      8 <= tag_size m (info + offset) <= 2 ^ 32 - 8 ->
      offset + padded (tag_size m (info + offset)) < 2 ^ 32 ->
      tags_at m info (offset + padded (tag_size m (info + offset))) l ->
      tags_at m info offset (info + offset :: l).

(** The string at [a] ends within [n] characters. *)
Definition ends_within (n : nat) (m : mem) (a : Z) : Prop := exists i, 0 <= i <= Z.of_nat n /\ m (a + i) = 0.

Lemma m_strstr_total n m a needle : ends_within n m a -> exists b, m_strstr n m a needle = Some b.
Proof.
  revert a. induction n as [|n IH]; intros a (i & Hi & Hz); cbn [m_strstr].
  - replace i with 0 in Hz by lia. rewrite Z.add_0_r in Hz. rewrite Hz. cbn. by eexists.
  - destruct (Z.eqb_spec (m a) 0); [by eexists|]. destruct (needle_at m a needle); [by eexists|]. apply IH.
    assert (i <> 0) by (intros ->; rewrite Z.add_0_r in Hz; done).
    exists (i - 1). split; [lia|]. rewrite <- Hz. f_equal. lia.
Qed.

(** [needle] stands somewhere in the string at [a]. *)
Definition contains (m : mem) (a : Z) (needle : list Z) : Prop :=
  exists i, 0 <= i /\ (forall j, 0 <= j < i -> m (a + j) <> 0) /\ seg m (a + i) needle.

Lemma needle_at_spec m h needle : Forall (fun c => c <> 0) needle -> needle_at m h needle = true <-> seg m h needle.
Proof.
  revert h. induction needle as [|c r IH]; intros h; cbn [needle_at]; [by intros _|].
  rewrite Forall_cons, seg_cons. intros [Hc Hr]. rewrite <- (IH (h + 1) Hr).
  destruct (Z.eqb_spec (m h) 0), (Z.eqb_spec (m h) c); try (split; [done | intros [? _]; lia]). split; [done | by intros [_ ?]].
Qed.

Lemma m_strstr_spec n m a needle b :
  Forall (fun c => c <> 0) needle -> needle <> [] -> m_strstr n m a needle = Some b -> b = true <-> contains m a needle.
Proof.
  intros Hn Hne. assert (forall x, m x = 0 -> ~ seg m x needle) as Hz.
  { intros x Hx. destruct needle as [|c r]; [done|]. rewrite seg_cons. intros [E _]. apply Forall_cons in Hn as [Hc _]. lia. }
  revert a. induction n as [|n IH]; intros a; cbn [m_strstr]; destruct (Z.eqb_spec (m a) 0) as [E|E].
  1,3: intros [= <-]; split; [done|]; intros (i & Hi & Hj & Hs); destruct (decide (i = 0)) as [->|];
       [rewrite Z.add_0_r in Hs; by destruct (Hz a) | destruct (Hj 0); [lia | by rewrite Z.add_0_r]].
  all: destruct (needle_at m a needle) eqn:En; try done.
  1,2: intros [= <-]; split; [intros _ | done]; exists 0; rewrite Z.add_0_r; split; [lia|]; split; [lia | by apply needle_at_spec].
  intros ->%IH. split; intros (i & Hi & Hj & Hs).
  - exists (i + 1). split; [lia|]. split; [|by replace (a + (i + 1)) with (a + 1 + i) by lia].
    intros j Hj'. destruct (decide (j = 0)) as [->|]; [by rewrite Z.add_0_r|]. replace (a + j) with (a + 1 + (j - 1)) by lia. apply Hj. lia.
  - destruct (decide (i = 0)) as [->|].
    + rewrite Z.add_0_r in Hs. apply needle_at_spec in Hs; [congruence | done].
    + exists (i - 1). split; [lia|]. split; [|by replace (a + 1 + (i - 1)) with (a + i) by lia].
      intros j Hj'. replace (a + 1 + j) with (a + (j + 1)) by lia. apply Hj. lia.
Qed.

(** A module the search accepts: unnamed, or named after the ramdisk. *)
Definition accepted (m : mem) (tag : Z) : Prop :=
  tag_type m tag = MB2_TAG_TYPE_MODULE /\ (m (mod_string tag) = 0 \/ contains m (mod_string tag) INITRD_NEEDLE).

Section Walk.
Context {C : Type} (m : mem) (info : Z).

(** The visitor applied to a tag that is a module. *)
Definition visit (fn : Z -> C -> option C) (acc : option C) (tag : Z) : option C :=
  c ← acc; if tag_type m tag =? MB2_TAG_TYPE_MODULE then fn tag c else Some c.

Lemma visit_None fn tags : fold_left (visit fn) tags None = None.
Proof. by induction tags. Qed.

Lemma walk_loop_ok (fn : Z -> C -> option C) fuel offset tags ctx :
  tags_at m info offset tags -> (length tags < fuel)%nat ->
  mb2_walk_loop fuel m info offset fn ctx = fold_left (visit fn) tags (Some ctx).
Proof.
  intros T. revert fuel ctx. induction T as [offset H|offset H E|offset l H E Hs Ho T IH]; intros [|fuel] ctx Hf; cbn [length] in Hf; try lia;
    cbn [mb2_walk_loop]; destruct (Z.ltb_spec offset (hdr_total_size m info)); try lia; try done.
  - by rewrite E.
  - destruct (Z.eqb_spec (tag_type m (info + offset)) MB2_TAG_TYPE_END); [done|]. cbn [fold_left visit mbind option_bind].
    destruct (if _ =? MB2_TAG_TYPE_MODULE then _ else _) as [c|]; cbn [mbind option_bind]; [|by rewrite visit_None].
    rewrite u32_small; [apply IH; lia|]. rewrite padded_spec in * by lia.
    pose proof (Z.div_pos (tag_size m (info + offset) + 7) 8). lia.
Qed.

(** A tag of size 0 that is not the end tag stops the walk from ending. *)
Lemma walk_stuck (fn : Z -> C -> option C) fuel offset ctx :
  (forall tag c, fn tag c <> None) -> 0 <= offset < 2 ^ 32 -> offset < hdr_total_size m info ->
  tag_type m (info + offset) <> MB2_TAG_TYPE_END -> tag_size m (info + offset) = 0 ->
  mb2_walk_loop fuel m info offset fn ctx = None.
Proof.
  intros Hfn Ho Hlt Ht Hz. revert ctx. induction fuel as [|fuel IH]; intros ctx; cbn [mb2_walk_loop];
    destruct (Z.ltb_spec offset (hdr_total_size m info)); try lia; try done.
  destruct (Z.eqb_spec (tag_type m (info + offset)) MB2_TAG_TYPE_END); [done|]. rewrite Hz. change (padded 0) with 0.
  rewrite Z.add_0_r, u32_small by lia.
  assert (exists c, (if tag_type m (info + offset) =? MB2_TAG_TYPE_MODULE then fn (info + offset) ctx else Some ctx) = Some c) as (c & ->).
  { destruct (_ =? _); [|by eexists]. destruct (fn (info + offset) ctx) eqn:E; [by eexists | by apply Hfn in E]. }
  apply IH.
Qed.
End Walk.

Lemma count_ok m tags k :
  0 <= k -> k + Z.of_nat (length tags) < 2 ^ 32 ->
  fold_left (visit m visitor_count) tags (Some k) =
    Some (k + Z.of_nat (length (filter (fun t => tag_type m t = MB2_TAG_TYPE_MODULE) tags))).
Proof.
  revert k. induction tags as [|t l IH]; intros k H0 H; cbn [length] in H; [cbn; f_equal; lia|].
  cbn [fold_left visit mbind option_bind]. rewrite filter_cons. unfold visitor_count.
  destruct (Z.eqb_spec (tag_type m t) MB2_TAG_TYPE_MODULE), (decide (tag_type m t = MB2_TAG_TYPE_MODULE)); try done.
  - rewrite u32_small by lia. fold visitor_count. rewrite (IH (k + 1)) by lia. f_equal. cbn [length]. lia.
  - by apply IH; lia.
Qed.

(** The walk keeps the first module accepted. *)
Lemma find_ok m n tags fc :
  Forall (fun t => ends_within n m (mod_string t)) tags ->
  exists fc', fold_left (visit m (visitor_find_initrd n m)) tags (Some fc) = Some fc' /\
    (fc_found fc = true -> fc' = fc) /\
    (fc_found fc = false ->
      (fc' = fc /\ Forall (fun t => ~ accepted m t) tags) \/
      exists l1 t l2, tags = l1 ++ t :: l2 /\ Forall (fun t => ~ accepted m t) l1 /\ accepted m t /\
        fc' = mk_find (mod_start m t) (u32 (mod_end m t - mod_start m t)) true).
Proof.
  revert fc. induction tags as [|t l IH]; intros fc Hs; [exists fc; cbn; split; [done|]; split; [done | by left]|].
  apply Forall_cons in Hs as [Ht Hl].
  assert (exists fc1, visit m (visitor_find_initrd n m) (Some fc) t = Some fc1 /\ (fc_found fc = true -> fc1 = fc) /\
    (fc_found fc = false -> fc1 = fc /\ ~ accepted m t \/
       accepted m t /\ fc1 = mk_find (mod_start m t) (u32 (mod_end m t - mod_start m t)) true)) as (fc1 & E & Ht1 & Hf1).
  { unfold visit, accepted. cbn [mbind option_bind]. destruct (Z.eqb_spec (tag_type m t) MB2_TAG_TYPE_MODULE) as [Et|Et].
    2:{ exists fc. split; [done|]. split; [done|]. left. split; [done|]. by intros [? _]. }
    unfold visitor_find_initrd. destruct (fc_found fc) eqn:Ef; [by exists fc|].
    destruct (Z.eqb_spec (m (mod_string t)) 0) as [E0|E0]; cbn [mbind option_bind].
    - eexists. split; [done|]. split; [done|]. intros _. right. split; [by auto | done].
    - destruct (m_strstr_total n m (mod_string t) INITRD_NEEDLE Ht) as (b & Eb). rewrite Eb. cbn [mbind option_bind].
      assert (b = true <-> contains m (mod_string t) INITRD_NEEDLE) as Hb
        by (eapply m_strstr_spec; [repeat constructor; discriminate | discriminate | exact Eb]).
      eexists. split; [done|]. split; [done|]. intros _. destruct b; [right; split; [|done]; split; [done|]; right; by apply Hb|].
      left. split; [done|]. intros [_ [?|Hc]]; [done|]. apply Hb in Hc. done. }
  cbn [fold_left]. rewrite E. destruct (IH fc1 Hl) as (fc' & E' & H1 & H2). exists fc'. split; [done|]. split.
  - intros Hf. rewrite (Ht1 Hf) in *. by apply H1.
  - intros Hf. destruct (Hf1 Hf) as [[-> Hn]|[Ha ->]].
    + destruct (H2 Hf) as [[-> Hall]|(l1 & t' & l2 & -> & Hl1 & Hacc & ->)].
      * left. split; [done|]. by apply Forall_cons.
      * right. exists (t :: l1), t', l2. split; [done|]. split; [by apply Forall_cons|]. done.
    + right. exists [], t, l. split; [done|]. split; [by apply Forall_nil|]. split; [done|]. by apply H1.
Qed.

(** On a well-formed information block, with one more unit of fuel than
    tags, the searches end: the first module that is unnamed or whose name
    contains "initrd" is returned with its bounds, none exactly when there is
    no such module, and the modules are counted; but a tag of size 0 in front
    of the end keeps the walk going for ever, whatever the fuel. *)
Theorem mb2_find_initrd_correct m info tags fuel :
  (tags_at m info 8 tags -> (length tags < fuel)%nat -> Z.of_nat (length tags) < 2 ^ 32 ->
   Forall (fun t => ends_within fuel m (mod_string t)) tags ->
   mb2_count_modules fuel m info =
     Some (Z.of_nat (length (filter (fun t => tag_type m t = MB2_TAG_TYPE_MODULE) tags))) /\
   exists r, mb2_find_initrd fuel m info = Some r /\
     ((r = None /\ Forall (fun t => ~ accepted m t) tags) \/
      exists l1 t l2, tags = l1 ++ t :: l2 /\ Forall (fun t => ~ accepted m t) l1 /\ accepted m t /\
        r = Some (mod_start m t, u32 (mod_end m t - mod_start m t)))) /\
  (8 < hdr_total_size m info -> tag_type m (info + 8) <> MB2_TAG_TYPE_END -> tag_size m (info + 8) = 0 ->
   mb2_count_modules fuel m info = None).
Proof.
  split.
  - intros T Hf Hl Hs. unfold mb2_count_modules, mb2_find_initrd, mb2_walk_modules. rewrite !(walk_loop_ok _ _ _ _ _ tags) by done. split.
    + by rewrite count_ok by lia.
    + destruct (find_ok m fuel tags (mk_find 0 0 false) Hs) as (fc & -> & _ & H). cbn [mbind option_bind]. eexists. split; [done|].
      destruct (H eq_refl) as [[-> Hall]|(l1 & t & l2 & -> & H1 & H2 & ->)]; [by left|]. right. by exists l1, t, l2.
  - intros Ht Hty Hz. apply walk_stuck; [done | lia | done..].
Qed.

(** ** A block with one module between two other tags *)

Definition demo_mb2 : mem :=
  fun a => nth (Z.to_nat a) (flat_map (le_bytes 4) [72; 0;  4; 16; 0; 0;  3; 24; 8192; 8340] ++ bytes_of "initrd" ++ [0; 0] ++
    flat_map (le_bytes 4) [8; 16; 0; 0;  0; 8]) 0.

Lemma demo_mb2_tags : tags_at demo_mb2 0 8 [8; 24; 48].
Proof.
  apply (tags_step demo_mb2 0 8); vm_compute; try (intuition congruence).
  apply (tags_step demo_mb2 0 24); vm_compute; try (intuition congruence).
  apply (tags_step demo_mb2 0 48); vm_compute; try (intuition congruence).
  apply (tags_end demo_mb2 0 64); vm_compute; intuition congruence.
Qed.

Lemma mb2_find_initrd_correct_witness :
  mb2_count_modules 16 demo_mb2 0 = Some 1 /\ exists r, mb2_find_initrd 16 demo_mb2 0 = Some r.
Proof.
  destruct (proj1 (mb2_find_initrd_correct demo_mb2 0 [8; 24; 48] 16) demo_mb2_tags ltac:(cbn; lia) ltac:(cbn; lia)) as (E & r & E' & _).
  - repeat constructor; [exists 6 | exists 6 | exists 8]; split; [lia | reflexivity | lia | reflexivity | lia | reflexivity].
  - split; [exact E | exact (ex_intro _ r E')].
Defined.
