(* ===== verification/Boot.v ===== *)
(** The part of [kernel_main] that sets up memory: the memory map of the boot
    loader, the page allocator and the kernel heap, and that what they manage
    does not overlap. *)

From S2P Require Import Prelude Memory Pmm Alloc Heap BootInfo.
Local Open Scope Z_scope.

Definition MULTIBOOT2_MAGIC : Z := 0x36D76289.
Definition HEAP_SIZE : Z := 2 * 1024 * 1024.

Definition kend_aligned (kernel_end : Z) : Z := Z.land (u64 (kernel_end + PAGE_SIZE - 1)) (Z.lnot (PAGE_SIZE - 1) mod 2 ^ 64).

(** [Some None]: the kernel panics for want of a memory map. *)
Definition memory_init (fuel : nat) (m : mem) (magic addr kernel_start kernel_end : Z) (st : pmm) : option (option (heap * pmm)) :=
  r ← (if magic =? MULTIBOOT2_MAGIC then
         '(mmap_tag, mmap_size) ← find_mmap_tag fuel m addr;
         if mmap_tag =? 0 then Some None
         else st ← pmm_init fuel m mmap_tag mmap_size kernel_start kernel_end st; Some (Some st)
       else Some (Some st));
  match r with
  | None => Some None
  | Some st =>
      let ka := kend_aligned kernel_end in
      Some (Some (heap_init ka HEAP_SIZE m, pmm_mark_used ka (HEAP_SIZE / PAGE_SIZE) st))
  end.

(** ** Finding the memory map *)

Definition is_mmap (m : mem) (tag : Z) : Prop := tag_type m tag = MB2_TAG_TYPE_MMAP.
#[export] Instance is_mmap_dec m tag : Decision (is_mmap m tag).
Proof. unfold is_mmap. apply _. Defined.

Lemma find_mmap_ok m addr fuel offset tags :
  0 <= addr -> addr + hdr_total_size m addr <= 2 ^ 32 - 8 ->
  tags_at m addr offset tags -> (length tags < fuel)%nat ->
  find_mmap_loop fuel m addr offset =
    Some (match list_find (is_mmap m) tags with None => (0, 0) | Some (_, tag) => (tag, tag_size m tag) end).
Proof.
  intros Ha Ht T. revert fuel. induction T as [offset H|offset H E|offset l H E Hs Ho T IH]; intros [|fuel] Hf; cbn [length] in Hf;
    try lia; cbn [find_mmap_loop]; fold (hdr_total_size m addr); destruct (Z.ltb_spec offset (hdr_total_size m addr)); try lia; try done.
  - rewrite u32_small by lia. fold (tag_type m (addr + offset)). rewrite E. done.
  - rewrite (u32_small (addr + offset)), u32_small by lia. fold (tag_type m (addr + offset)) (tag_size m (addr + offset)).
    destruct (Z.eqb_spec (tag_type m (addr + offset)) MB2_TAG_TYPE_END); [done|]. cbn [list_find].
    destruct (Z.eqb_spec (tag_type m (addr + offset)) MB2_TAG_TYPE_MMAP) as [Em|Em], (decide (is_mmap m (addr + offset))); try done.
    rewrite u32_small by (rewrite padded_spec in * by lia; pose proof (Z.div_pos (tag_size m (addr + offset) + 7) 8); lia).
    rewrite IH by lia. destruct (list_find (is_mmap m) l) as [[k t]|]; done.
Qed.

(** ** What the boot sequence leaves *)

Lemma kend_aligned_spec ke : 0 <= ke < 2 ^ 63 -> kend_aligned ke = (ke + PAGE_SIZE - 1) / PAGE_SIZE * PAGE_SIZE.
Proof.
  intros H. unfold kend_aligned, PAGE_SIZE. rewrite u64_small by lia. change (4096 - 1) with (2 ^ 12 - 1).
  rewrite (land_align _ 12 64) by lia. change (2 ^ 12) with 4096. lia.
Qed.

(** The page with number [f] and a range of bytes have nothing in common. *)
Definition page_apart (f a n : Z) : Prop := f * PAGE_SIZE + PAGE_SIZE <= a \/ a + n <= f * PAGE_SIZE.

Lemma pmm_mark_used_ok a n st :
  0 <= a / PAGE_SIZE -> 0 <= n -> pmm_inv st ->
  pmm_inv (pmm_mark_used a n st) /\
  forall g, 0 <= g < MAX_FRAMES ->
    used (pmm_mark_used a n st) g = used st g || ((a / PAGE_SIZE <=? g) && (g <? a / PAGE_SIZE + n)).
Proof.
  intros Ha Hn Hi. destruct (mark_used_loop_spec (Z.to_nat n) (a / PAGE_SIZE) st Ha Hi) as (H1 & _ & H2).
  split; [exact H1|]. intros g Hg. unfold pmm_mark_used. by rewrite H2, Z2Nat.id.
Qed.

Lemma page_outside f a b : ~ (a / PAGE_SIZE <= f < (b + PAGE_SIZE - 1) / PAGE_SIZE) -> page_apart f a (b - a).
Proof. unfold page_apart, PAGE_SIZE. intros H. dlia. Qed.

Lemma page_outside_run f a n : ~ (a <= f < a + n) -> page_apart f (a * PAGE_SIZE) (n * PAGE_SIZE).
Proof. unfold page_apart, PAGE_SIZE. lia. Qed.

(** When the boot loader's block is well formed and has a memory map whose
    available regions do not overlap, the kernel comes up with an empty heap of
    2 MB behind its image and a consistent page allocator, and every page the
    allocator hands out first lies in an available region, above 1 MB, and
    apart from the kernel image and from the heap; without a map it panics. *)
Theorem memory_init_correct fuel m addr tags ks ke st :
  0 < addr -> addr + hdr_total_size m addr <= 2 ^ 32 - 8 -> tags_at m addr 8 tags -> (length tags < fuel)%nat ->
  bytes_ok m -> 0 <= ks <= ke -> 0 < ke -> ke + HEAP_SIZE + PAGE_SIZE <= 2 ^ 32 ->
  match list_find (is_mmap m) tags with
  | None => memory_init fuel m MULTIBOOT2_MAGIC addr ks ke st = Some None
  | Some (_, tag) =>
      let esz := load32 m (tag + 8) in
      let size := tag_size m tag in
      0 < tag -> 0 < esz -> 16 <= size < 2 ^ 32 -> size - 16 + esz <= 2 ^ 32 -> size - 16 <= Z.of_nat fuel * esz ->
      disjoint_map m (tag + 16) esz (size - 16) ->
      exists h st', memory_init fuel m MULTIBOOT2_MAGIC addr ks ke st = Some (Some (h, st')) /\
        heap_inv h [mk_blk (HEAP_SIZE - HEADER_SIZE) true] /\ heap_head h = kend_aligned ke /\ pmm_inv st' /\
        forall p st'', pmm_alloc_page st' = (p, st'') -> p <> PMM_ALLOC_FAIL ->
          exists f, p = f * PAGE_SIZE /\ 256 <= f /\
            (exists k, 0 <= k /\ k * esz < size - 16 /\ covers m (tag + 16) esz k f = true) /\
            page_apart f ks (ke - ks) /\ page_apart f (heap_head h) HEAP_SIZE
  end.
Proof.
  intros Ha Ht T Hf Hb Hk Hke Hke2. unfold memory_init. rewrite Z.eqb_refl. unfold find_mmap_tag.
  rewrite (find_mmap_ok m addr fuel 8 tags) by (done || lia).
  assert (HEAP_SIZE = 2097152) as EH by done. assert (PAGE_SIZE = 4096) as EP by done.
  destruct (list_find (is_mmap m) tags) as [[k tag]|]; [|done]. cbn [mbind option_bind].
  set (esz := load32 m (tag + 8)). set (size := tag_size m tag). intros Htag Hesz Hsz Hsz2 Hfu Hd. destruct (Z.eqb_spec tag 0); [lia|].
  destruct (pmm_init_ok fuel m tag size ks ke st) as (st1 & -> & Hi1 & Hu1); try done; [lia|].
  cbn [mbind option_bind]. pose proof (kend_aligned_spec ke ltac:(lia)) as Eka. set (ka := kend_aligned ke) in *.
  assert (ka / PAGE_SIZE * PAGE_SIZE = ka /\ ke <= ka <= ke + PAGE_SIZE) as [Hka Hka2] by (rewrite EP in *; dlia).
  assert (HEAP_SIZE / PAGE_SIZE * PAGE_SIZE = HEAP_SIZE /\ 0 <= HEAP_SIZE / PAGE_SIZE) as [Hhp Hhp0] by (vm_compute; intuition congruence).
  assert (0 <= ka / PAGE_SIZE) as Hka0 by (apply Z.div_pos; lia).
  destruct (pmm_mark_used_ok ka (HEAP_SIZE / PAGE_SIZE) st1 Hka0 Hhp0 Hi1) as (Hi2 & Hu2).
  generalize dependent (HEAP_SIZE / PAGE_SIZE). intros np Hhp Hhp0 Hi2 Hu2.
  eexists _, _. split; [done|]. split; [|split; [done|split; [done|]]].
  { apply heap_init_correct; unfold HEADER_SIZE; rewrite ?EH; try done; try lia. rewrite <- Hka, EP. dlia. }
  intros p st'' Ep Hp. 
  destruct (pmm_alloc_page_cases _ Hi2) as [[E _]|(f & Hfr & Hfu2 & _ & E)].
  { rewrite E in Ep. destruct Hp. exact (eq_sym (f_equal fst Ep)). }
  rewrite E in Ep. pose proof (f_equal fst Ep) as Ep1. cbn [fst] in Ep1. subst p. clear Ep E.
  exists f. split; [done|]. cbn [heap_init heap_head].
  assert (0 <= f < MAX_FRAMES) as Hf2 by (destruct Hi2; lia).
  rewrite Hu2 in Hfu2 by done. apply orb_false_iff in Hfu2 as [Hfree Hheap]. apply Hu1 in Hfree as (Hreg & Hlow & Hkern); [|done].
  split; [done|]. split; [done|]. split; [by apply page_outside|].
  rewrite <- not_true_iff_false, in_range_iff in Hheap. rewrite <- Hka, <- Hhp. exact (page_outside_run f (ka / PAGE_SIZE) np Hheap).
Qed.

(** ** A block with one region of 64 MB at 1 MB *)

Definition demo_boot : mem :=
  fun a => if (0x9000 <=? a) && (a <? 0x9000 + 64)
           then nth (Z.to_nat (a - 0x9000)) (flat_map (le_bytes 4) [56; 0;  6; 40; 24; 0; 0x100000; 0; 0x4000000; 0; 1; 0;  0; 8]) 0 else 0.

Lemma demo_boot_tags : tags_at demo_boot 0x9000 8 [0x9008].
Proof.
  apply (tags_step demo_boot 0x9000 8); vm_compute; try (intuition congruence).
  apply (tags_end demo_boot 0x9000 48); vm_compute; intuition congruence.
Qed.

Lemma demo_boot_bytes : bytes_ok demo_boot.
Proof.
  intros a. unfold demo_boot. destruct (_ && _); [|lia].
  assert (forall l : list Z, Forall (fun b => 0 <= b < 256) l -> forall n, 0 <= nth n l 0 < 256) as H.
  { induction 1 as [|x l Hx _ IH]; intros [|n]; cbn [nth]; try lia. apply IH. }
  apply H. vm_compute. repeat constructor; discriminate.
Qed.

Lemma memory_init_correct_witness :
  exists h st', memory_init 2 demo_boot MULTIBOOT2_MAGIC 0x9000 0x100000 0x150000 (mk_pmm (fun _ => 0) 0 0) = Some (Some (h, st')) /\
    heap_inv h [mk_blk (HEAP_SIZE - HEADER_SIZE) true] /\ pmm_inv st'.
Proof.
  pose proof (memory_init_correct 2 demo_boot 0x9000 [0x9008] 0x100000 0x150000 (mk_pmm (fun _ => 0) 0 0) ltac:(lia)
    ltac:(vm_compute; discriminate) demo_boot_tags ltac:(cbn; lia) demo_boot_bytes ltac:(lia) ltac:(lia) ltac:(vm_compute; discriminate)) as H.
  assert (list_find (is_mmap demo_boot) [0x9008] = Some (O, 0x9008)) as E by (vm_compute; reflexivity). rewrite E in H.
  cbv zeta in H. assert (load32 demo_boot (0x9008 + 8) = 24) as E1 by (vm_compute; reflexivity).
  assert (tag_size demo_boot 0x9008 = 40) as E2 by (vm_compute; reflexivity). rewrite E1, E2 in H.
  destruct H as (h & st' & E' & H1 & _ & H2 & _); [lia | lia | lia | lia | lia | |].
  - intros j k f Hjk Hk. lia.
  - exact (ex_intro _ h (ex_intro _ st' (conj E' (conj H1 H2)))).
Defined.
