(* ===== verification/Initrd.v ===== *)
(** The ramdisk: the image builder (scripts/mkinitrd.py), mounting an image
    and finding its files (kernel/initrd.c), and opening them by path
    (kernel/fs/vfs_initrd.c).  A string is an array of characters.

    Every file put into a ramdisk image by the builder is found by its path in
    the mounted image, with its contents. *)

From S2P Require Import Prelude Memory.
Local Open Scope Z_scope.

Definition INITRD_MAGIC : Z := 0x41524453.
Definition INITRD_VERSION : Z := 1.
Definition INITRD_NAME_MAX : Z := 48.
Definition INITRD_MAX_FILES : Z := 128.
Definition INITRD_PREFIX : list Z := bytes_of "/initrd/".
Definition INITRD_PREFIX_LEN : Z := 8.
Definition SIZEOF_HEADER : Z := 16.
Definition SIZEOF_ENTRY : Z := 64.

(** ** The image builder *)

(** [struct.pack("<I", v)]. *)
Definition pack_u32 (v : Z) : list Z := le_bytes 4 v.

Definition pack_entry (name : list Z) (offset size : Z) : list Z :=
  let name_bytes := take 47 name in
  name_bytes ++ repeat 0 (48 - length name_bytes) ++ (pack_u32 offset ++ pack_u32 size ++ pack_u32 0) ++ pack_u32 0.

(** The entries of the files whose data starts at [cur]. *)
Fixpoint pack_entries (cur : Z) (pairs : list (list Z * list Z)) : list Z :=
  match pairs with
  | [] => []
  | (name, d) :: r => pack_entry name cur (Z.of_nat (length d)) ++ pack_entries (cur + Z.of_nat (length d)) r
  end.

(** The file [build_image] writes for pairs of a name and a content. *)
Definition build_image (pairs : list (list Z * list Z)) : list Z :=
  let n := Z.of_nat (length pairs) in
  (pack_u32 INITRD_MAGIC ++ pack_u32 INITRD_VERSION ++ pack_u32 n ++ pack_u32 0) ++
  pack_entries (SIZEOF_HEADER + n * SIZEOF_ENTRY) pairs ++ concat (map snd pairs).

(** ** Mounting *)

Record initrd_file := mk_ifile { if_name : Z; if_data : Z; if_size : Z }.
Record initrd := mk_initrd { g_files : Z -> initrd_file; g_num_files : Z; g_mounted : bool }.

Definition initrd_start : initrd := mk_initrd (fun _ => mk_ifile 0 0 0) 0 false.

Definition entry_offset (m : mem) (e : Z) : Z := load32 m (e + 48).
Definition entry_size (m : mem) (e : Z) : Z := load32 m (e + 52).

(** The characters from an address on. *)
Definition str_at (m : mem) (p : Z) : Z -> Z := fun i => m (p + i).

(** The comparison from index [i] on; [None] when it goes beyond the fuel. *)
Fixpoint rd_strcmp (fuel : nat) (a b : Z -> Z) (i : Z) : option Z :=
  if negb (a i =? 0) && (a i =? b i)
  then match fuel with O => None | S fuel' => rd_strcmp fuel' a b (i + 1) end
  else Some (a i - b i).

(** One directory entry. *)
Definition add_entry (m : mem) (base img_size : Z) (i : Z) (s : initrd) : initrd :=
  let e := base + SIZEOF_HEADER + i * SIZEOF_ENTRY in
  if img_size <? entry_offset m e + entry_size m e then s
  else mk_initrd (upd (g_files s) (g_num_files s) (mk_ifile e (base + entry_offset m e) (entry_size m e)))
         (u32 (g_num_files s + 1)) (g_mounted s).

Definition initrd_init (m : mem) (img_phys img_size : Z) (s : initrd) : bool * initrd :=
  if img_size <? SIZEOF_HEADER then (false, s)
  else
    let base := img_phys in
    if negb (load32 m base =? INITRD_MAGIC) then (false, s)
    else if negb (load32 m (base + 4) =? INITRD_VERSION) then (false, s)
    else
      let nf := load32 m (base + 8) in
      let nf := if INITRD_MAX_FILES <? nf then INITRD_MAX_FILES else nf in
      let dir_end := u64 (SIZEOF_HEADER + nf * SIZEOF_ENTRY) in
      if img_size <? dir_end then (false, s)
      else
        let s := for_up (Z.to_nat nf) 0 (add_entry m base img_size) s in
        (true, mk_initrd (g_files s) (g_num_files s) true).

Fixpoint find_loop (n : nat) (fuel : nat) (i : Z) (m : mem) (path : Z -> Z) (s : initrd) : option (option initrd_file) :=
  match n with
  | O => Some None
  | S n' =>
      r ← rd_strcmp fuel (str_at m (if_name (g_files s i))) path 0;
      if r =? 0 then Some (Some (g_files s i)) else find_loop n' fuel (i + 1) m path s
  end.

Definition initrd_find (fuel : nat) (m : mem) (path : Z -> Z) (s : initrd) : option (option initrd_file) :=
  if negb (g_mounted s) then Some None else find_loop (Z.to_nat (g_num_files s)) fuel 0 m path s.

Definition initrd_file_count (s : initrd) : Z := g_num_files s.

Definition initrd_get_file (index : Z) (s : initrd) : option initrd_file :=
  if g_num_files s <=? index then None else Some (g_files s index).

(** ** Paths *)

(** Comparing with the characters of a literal, which are not NUL. *)
Fixpoint iv_strncmp (a : Z -> Z) (i : Z) (b : list Z) : Z :=
  match b with
  | [] => 0
  | c :: r => if negb (a i =? c) then a i - c else if a i =? 0 then 0 else iv_strncmp a (i + 1) r
  end.

(** [rd_path[i] = rest[i-1]] until the end of the string or the array. *)
Fixpoint copy_rest (n : nat) (i : Z) (rest rd_path : Z -> Z) : (Z -> Z) * Z :=
  match n with
  | O => (rd_path, i)
  | S n' => if rest (i - 1) =? 0 then (rd_path, i) else copy_rest n' (i + 1) rest (upd rd_path i (rest (i - 1)))
  end.

(** The array on the stack starts with arbitrary contents. *)
Definition vfs_initrd_open (stack : Z -> Z) (m : mem) (path : Z -> Z) (s : initrd) : option (option (Z * Z)) :=
  if negb (iv_strncmp path 0 INITRD_PREFIX =? 0) then Some None
  else
    let rest := fun i => path (INITRD_PREFIX_LEN + i) in
    let '(rd_path, i) := copy_rest (Z.to_nat (INITRD_NAME_MAX - 2)) 1 rest (upd stack 0 47) in
    let rd_path := upd rd_path i 0 in
    f ← initrd_find (Z.to_nat INITRD_NAME_MAX) m rd_path s;
    Some (match f with None => None | Some f => Some (if_data f, if_size f) end).

(** * Specification *)

(** ** Layout *)

Lemma pack_u32_length v : length (pack_u32 v) = 4%nat.
Proof. apply le_bytes_length. Qed.

Lemma pack_entry_length name off size : length (pack_entry name off size) = 64%nat.
Proof.
  unfold pack_entry. pose proof (length_take name 47) as Hl.
  rewrite !length_app, repeat_length, !pack_u32_length. lia.
Qed.

Lemma load32_pack m a v r : seg m a (pack_u32 v ++ r) -> 0 <= v < 2 ^ 32 -> load32 m a = v.
Proof. intros [H _]%seg_app Hv. unfold load32. rewrite (load_le_seg 4 _ _ v H). by apply Z.mod_small. Qed.

(** The name of an entry, as a string in memory. *)
Definition string_at (m : mem) (p : Z) (s : list Z) : Prop := seg m p (s ++ [0]) /\ Forall (fun c => c <> 0) s.

Lemma entry_fields m e name off size r :
  seg m e (pack_entry name off size ++ r) -> (length name <= 47)%nat -> Forall (fun c => c <> 0) name ->
  0 <= off < 2 ^ 32 -> 0 <= size < 2 ^ 32 ->
  string_at m e name /\ entry_offset m e = off /\ entry_size m e = size /\ seg m (e + 64) r.
Proof.
  intros H Hl Hn Ho Hs. apply seg_app in H as [H Hr]. rewrite pack_entry_length in Hr.
  unfold pack_entry in H. rewrite take_ge in H by done. apply seg_app in H as [H1 H].
  replace (48 - length name)%nat with (S (47 - length name)) in H by lia. cbn [repeat] in H.
  apply seg_app in H as [H2 H]. apply seg_cons in H2 as [H2 _]. cbn [length] in H. rewrite repeat_length in H.
  replace (e + Z.of_nat (length name) + Z.of_nat (S (47 - length name))) with (e + 48) in H by lia.
  apply seg_app in H as [H _]. apply seg_app in H as [H3 H]. apply seg_app in H as [H4 _]. rewrite pack_u32_length in H4.
  split; [split; [|done]|]; [|split; [|split; [|done]]].
  - apply seg_app. split; [done|]. apply seg_cons. split; [done|]. done.
  - apply (load32_pack _ _ _ []); [by rewrite app_nil_r | done].
  - unfold entry_size. replace (e + 52) with (e + 48 + Z.of_nat 4) by lia. apply (load32_pack _ _ _ []); [by rewrite app_nil_r | done].
Qed.

(** ** Comparing strings *)

(** [f] is the string [s] from index [i] on. *)
Definition is_str (f : Z -> Z) (i : Z) (s : list Z) : Prop := seg f i (s ++ [0]) /\ Forall (fun c => c <> 0) s.

Lemma is_str_nil f i : is_str f i [] <-> f i = 0.
Proof. unfold is_str. cbn [app]. rewrite seg_cons. split; [by intros [[? _] _] | by intros ?; split; [split|]]. Qed.

Lemma is_str_cons f i c s : is_str f i (c :: s) <-> f i = c /\ c <> 0 /\ is_str f (i + 1) s.
Proof. unfold is_str. cbn [app]. rewrite seg_cons, Forall_cons. naive_solver. Qed.

Lemma rd_strcmp_stop fuel a b i : a i = 0 \/ a i <> b i -> rd_strcmp fuel a b i = Some (a i - b i).
Proof. intros H. destruct fuel; cbn [rd_strcmp]; destruct (Z.eqb_spec (a i) 0), (Z.eqb_spec (a i) (b i)); cbn [negb andb]; done || lia. Qed.

Lemma rd_strcmp_ok fuel a b i s t :
  is_str a i s -> is_str b i t -> (length t <= fuel)%nat -> exists r, rd_strcmp fuel a b i = Some r /\ (r = 0 <-> s = t).
Proof.
  revert fuel i s. induction t as [|d t IH]; intros fuel i [|c s]; rewrite ?is_str_nil, ?is_str_cons; cbn [length]; intros Ha Hb Hl.
  - exists (a i - b i). rewrite rd_strcmp_stop by lia. split; [done|]. split; [done | lia].
  - exists (a i - b i). rewrite rd_strcmp_stop by lia. split; [done|]. split; [lia | done].
  - exists (a i - b i). rewrite rd_strcmp_stop by lia. split; [done|]. split; [lia | done].
  - destruct (decide (c = d)) as [->|Hne].
    + destruct Ha as (Ha & Hd & Sa), Hb as (Hb & _ & Sb), fuel as [|fuel]; [lia|]. cbn [rd_strcmp]. rewrite Ha, Hb, Z.eqb_refl.
      destruct (Z.eqb_spec d 0); [done|]. cbn [negb andb]. destruct (IH fuel (i + 1) s Sa Sb ltac:(lia)) as (r & E & Hr).
      exists r. split; [done|]. rewrite Hr. split; congruence.
    + exists (a i - b i). rewrite rd_strcmp_stop by lia. split; [done|]. split; [lia | congruence].
Qed.

(** ** Mounting *)

(** Slot [i] on of the table describes the files [pairs]. *)
Fixpoint files_ok (m : mem) (g : Z -> initrd_file) (i : Z) (pairs : list (list Z * list Z)) : Prop :=
  match pairs with
  | [] => True
  | (name, d) :: r =>
      is_str (str_at m (if_name (g i))) 0 name /\ seg m (if_data (g i)) d /\ if_size (g i) = Z.of_nat (length d) /\
      files_ok m g (i + 1) r
  end.

Lemma files_ok_ext m g g' i pairs : (forall j, i <= j -> g' j = g j) -> files_ok m g i pairs -> files_ok m g' i pairs.
Proof.
  revert i. induction pairs as [|[name d] r IH]; intros i E; cbn [files_ok]; [done|]. rewrite (E i) by lia.
  intros (? & ? & ? & ?). split_and!; try done. apply IH; [|done]. intros j Hj. apply E. lia.
Qed.

Definition good_names (pairs : list (list Z * list Z)) : Prop :=
  Forall (fun p => (length (fst p) <= 47)%nat /\ Forall (fun c => c <> 0) (fst p)) pairs.

Definition total_data (pairs : list (list Z * list Z)) : Z := Z.of_nat (length (concat (map snd pairs))).

Lemma str_at_is_str m p s : string_at m p s -> is_str (str_at m p) 0 s.
Proof.
  intros [H1 H2]. split; [|done]. apply bytes_at_eq; [lia|]. intros i Hi. unfold str_at. rewrite Z.add_0_l. by apply seg_nth.
Qed.

Lemma mount_loop m base img_size pairs : forall i cur s,
  seg m (base + SIZEOF_HEADER + i * SIZEOF_ENTRY) (pack_entries cur pairs) -> seg m (base + cur) (concat (map snd pairs)) ->
  0 <= cur -> cur + total_data pairs <= img_size -> img_size < 2 ^ 32 -> good_names pairs ->
  g_num_files s = i -> 0 <= i -> i + Z.of_nat (length pairs) <= INITRD_MAX_FILES ->
  exists s', for_up (length pairs) i (add_entry m base img_size) s = s' /\ g_num_files s' = i + Z.of_nat (length pairs) /\
    (forall j, j < i -> g_files s' j = g_files s j) /\ files_ok m (g_files s') i pairs /\ g_mounted s' = g_mounted s.
Proof.
  induction pairs as [|[name d] r IH]; intros i cur s He Hd Hc Ht Hs Hg Hn Hi Hm.
  - exists s. cbn. split_and!; try done. lia.
  - cbn [for_up length pack_entries map concat snd] in *. apply Forall_cons in Hg as [[Hl Hnz] Hg]. cbn [fst] in Hl, Hnz.
    assert (total_data ((name, d) :: r) = Z.of_nat (length d) + total_data r) as Et
      by (unfold total_data; cbn [map concat snd]; rewrite length_app; lia).
    assert (0 <= total_data r) by (unfold total_data; lia).
    apply seg_app in Hd as [Hd Hdr]. unfold INITRD_MAX_FILES in Hm.
    destruct (entry_fields _ _ _ _ _ _ He Hl Hnz) as (Sn & Eo & Es & He'); [lia | lia |].
    set (e := base + SIZEOF_HEADER + i * SIZEOF_ENTRY) in *.
    assert (add_entry m base img_size i s =
      mk_initrd (upd (g_files s) i (mk_ifile e (base + cur) (Z.of_nat (length d)))) (i + 1) (g_mounted s)) as ->.
    { unfold add_entry. fold e. rewrite Eo, Es, Hn. destruct (Z.ltb_spec img_size (cur + Z.of_nat (length d))); [lia|].
      by rewrite u32_small by lia. }
    destruct (IH (i + 1) (cur + Z.of_nat (length d))
      (mk_initrd (upd (g_files s) i (mk_ifile e (base + cur) (Z.of_nat (length d)))) (i + 1) (g_mounted s)))
      as (s' & -> & En & Ej & Ef & Em); try done; try lia.
    + replace (base + SIZEOF_HEADER + (i + 1) * SIZEOF_ENTRY) with (e + 64) by (unfold e, SIZEOF_ENTRY; lia). done.
    + by rewrite Z.add_assoc.
    + unfold INITRD_MAX_FILES. lia.
    + eexists. split; [done|]. split; [lia|]. split; [|split; [|done]].
      * intros j Hj. rewrite Ej by lia. cbn [g_files]. apply upd_ne. lia.
      * cbn [files_ok]. rewrite Ej by lia. cbn [g_files]. rewrite upd_eq. cbn [if_name if_data if_size].
        split; [by apply str_at_is_str|]. done.
Qed.

(** ** Finding *)

Fixpoint file_named (target : list Z) (pairs : list (list Z * list Z)) : option (list Z) :=
  match pairs with
  | [] => None
  | (name, d) :: r => if decide (name = target) then Some d else file_named target r
  end.

(** [f] describes a file with the content [d], if there is one. *)
Definition describes (m : mem) (f : option initrd_file) (d : option (list Z)) : Prop :=
  match f, d with
  | Some f, Some d => seg m (if_data f) d /\ if_size f = Z.of_nat (length d)
  | None, None => True
  | _, _ => False
  end.

Lemma find_loop_ok fuel m path target s pairs : forall i,
  files_ok m (g_files s) i pairs -> is_str path 0 target -> (length target <= fuel)%nat ->
  exists f, find_loop (length pairs) fuel i m path s = Some f /\ describes m f (file_named target pairs).
Proof.
  induction pairs as [|[name d] r IH]; intros i Hf Ht Hl; cbn [find_loop length file_named]; [by exists None|].
  destruct Hf as (Hs & Hd & Hz & Hr).
  destruct (rd_strcmp_ok fuel _ _ 0 name target Hs Ht Hl) as (c & -> & Hc). cbn [mbind option_bind].
  destruct (decide (name = target)) as [E|E].
  - apply Hc in E as ->. cbn [Z.eqb]. by exists (Some (g_files s i)).
  - destruct (Z.eqb_spec c 0) as [->|]; [by destruct E; apply Hc|]. by apply IH.
Qed.

Lemma copy_rest_ok n rest : forall i s rd,
  is_str rest (i - 1) s -> (length s <= n)%nat ->
  let '(rd', j) := copy_rest n i rest rd in
  j = i + Z.of_nat (length s) /\ seg rd' i s /\ (forall x, x < i -> rd' x = rd x).
Proof.
  induction n as [|n IH]; intros i [|c s] rd Hs Hl; cbn [length] in Hl; try lia; cbn [copy_rest].
  - cbn [length]. split; [lia|]. split; [apply bytes_at_eq; [done | cbn; lia] | done].
  - rewrite is_str_nil in Hs. rewrite Hs. cbn [Z.eqb length]. split; [lia|]. split; [apply bytes_at_eq; [done | cbn; lia] | done].
  - rewrite is_str_cons in Hs. destruct Hs as (E & Hne & Hs). destruct (Z.eqb_spec (rest (i - 1)) 0); [lia|]. rewrite E.
    specialize (IH (i + 1) s (upd rd i c)). replace (i + 1 - 1) with (i - 1 + 1) in IH by lia. specialize (IH Hs ltac:(lia)).
    destruct (copy_rest n (i + 1) rest (upd rd i c)) as [rd' j]. destruct IH as (-> & H1 & H2). split; [cbn [length]; lia|]. split.
    + apply seg_cons. split; [|done]. rewrite H2 by lia. by rewrite upd_eq.
    + intros x Hx. rewrite H2 by lia. apply upd_ne. lia.
Qed.

Lemma iv_strncmp_prefix f i p s : is_str f i (p ++ s) -> iv_strncmp f i p = 0.
Proof.
  revert i. induction p as [|c p IH]; intros i; [done|]. rewrite <- app_comm_cons, is_str_cons. intros (E & Hne & H).
  cbn [iv_strncmp]. rewrite E, Z.eqb_refl. cbn [negb]. destruct (Z.eqb_spec c 0); [done|]. by apply IH.
Qed.

Lemma is_str_app f i p s : is_str f i (p ++ s) -> is_str f (i + Z.of_nat (length p)) s.
Proof.
  unfold is_str. rewrite <- app_assoc, seg_app, Forall_app. by intros [[_ H] [_ H2]].
Qed.

Lemma seg_ext f g a b l : (forall i, 0 <= i < Z.of_nat (length l) -> g (b + i) = f (a + i)) -> seg f a l -> seg g b l.
Proof. intros E H. apply bytes_at_eq; [lia|]. intros i Hi. rewrite E by done. by apply seg_nth. Qed.

Lemma open_path_ok stack m path rest s pairs :
  g_mounted s = true -> g_num_files s = Z.of_nat (length pairs) -> files_ok m (g_files s) 0 pairs ->
  is_str path 0 (INITRD_PREFIX ++ rest) -> (length rest <= 46)%nat ->
  exists f, vfs_initrd_open stack m path s = Some f /\
    match file_named (47 :: rest) pairs with
    | None => f = None
    | Some d => exists p, f = Some (p, Z.of_nat (length d)) /\ seg m p d
    end.
Proof.
  intros Hm Hn Hf Hp Hl. unfold vfs_initrd_open. rewrite (iv_strncmp_prefix _ _ _ _ Hp). cbn [Z.eqb negb].
  apply is_str_app in Hp. change (0 + Z.of_nat (length INITRD_PREFIX)) with 8 in Hp.
  set (rest_f := fun i => path (INITRD_PREFIX_LEN + i)).
  assert (is_str rest_f 0 rest) as Hr.
  { destruct Hp as [H1 H2]. split; [|done]. eapply seg_ext; [|done]. intros i Hi. unfold rest_f, INITRD_PREFIX_LEN. f_equal. }
  pose proof (copy_rest_ok (Z.to_nat (INITRD_NAME_MAX - 2)) rest_f 1 rest (upd stack 0 47) Hr Hl) as HC.
  destruct (copy_rest _ 1 rest_f _) as [rd j]. destruct HC as (-> & Hseg & Hout).
  unfold initrd_find. rewrite Hm. cbn [negb]. rewrite Hn, Nat2Z.id.
  destruct (find_loop_ok (Z.to_nat INITRD_NAME_MAX) m (upd rd (1 + Z.of_nat (length rest)) 0) (47 :: rest) s pairs 0 Hf) as (f & -> & Hd).
  - rewrite is_str_cons. split; [rewrite upd_ne, Hout by lia; by rewrite upd_eq|]. split; [done|].
    destruct Hp as [_ Hnz]. split; [|done]. apply seg_app. split.
    + eapply seg_ext; [|exact Hseg]. intros i Hi. rewrite upd_ne by lia. done.
    + apply seg_cons. split; [|by apply bytes_at_eq; [|cbn; lia]]. rewrite Z.add_0_l. by rewrite upd_eq.
  - unfold INITRD_NAME_MAX. cbn [length]. lia.
  - cbn [mbind option_bind]. eexists. split; [done|]. unfold describes in Hd. destruct f, (file_named _ _); try done.
    destruct Hd as [Hd ->]. by eexists.
Qed.

(** C15: an image of at most 128 files written by the builder is mounted whole,
    and afterwards opening [/initrd/x] yields the contents of the first file
    packed as [/x], or nothing exactly when no file has that name. *)
Theorem initrd_roundtrip pairs m base :
  let img := build_image pairs in
  seg m base img -> Z.of_nat (length img) < 2 ^ 32 -> Z.of_nat (length pairs) <= INITRD_MAX_FILES -> good_names pairs ->
  exists s, initrd_init m base (Z.of_nat (length img)) initrd_start = (true, s) /\
    initrd_file_count s = Z.of_nat (length pairs) /\
    forall stack path rest, is_str path 0 (INITRD_PREFIX ++ rest) -> (length rest <= 46)%nat ->
      exists f, vfs_initrd_open stack m path s = Some f /\
        match file_named (47 :: rest) pairs with
        | None => f = None
        | Some d => exists p, f = Some (p, Z.of_nat (length d)) /\ seg m p d
        end.
Proof.
  intros img Himg Hlen Hn Hg. unfold INITRD_MAX_FILES in Hn. set (n := Z.of_nat (length pairs)) in *.
  assert (forall cur l, Z.of_nat (length (pack_entries cur l)) = Z.of_nat (length l) * 64) as Hpl.
  { intros cur l. revert cur. induction l as [|[nm d] l IH]; intros cur; cbn [pack_entries length]; [done|].
    rewrite length_app, pack_entry_length, Nat2Z.inj_add, IH. lia. }
  assert (Z.of_nat (length img) = 16 + n * 64 + total_data pairs) as Elen.
  { unfold img, build_image, total_data. rewrite !length_app, !pack_u32_length, !Nat2Z.inj_add, Hpl. fold n. lia. }
  assert (0 <= total_data pairs) by (unfold total_data; lia).
  unfold img, build_image in Himg. fold n in Himg. apply seg_app in Himg as [Hh He].
  rewrite !length_app, !pack_u32_length in He. apply seg_app in He as [He Hd]. rewrite Hpl in Hd. fold n in Hd.
  assert (load32 m base = INITRD_MAGIC) as E1 by (by apply (load32_pack _ _ _ _ Hh)). apply seg_app in Hh as [_ Hh].
  rewrite pack_u32_length in Hh.
  assert (load32 m (base + 4) = INITRD_VERSION) as E2 by (by apply (load32_pack _ _ _ _ Hh)). apply seg_app in Hh as [_ Hh].
  rewrite pack_u32_length in Hh.
  assert (load32 m (base + 8) = n) as E3.
  { replace (base + 8) with (base + Z.of_nat 4 + Z.of_nat 4) by lia. apply (load32_pack _ _ _ _ Hh). lia. }
  unfold initrd_init. rewrite E1, E2, E3, !Z.eqb_refl. cbn [negb].
  destruct (Z.ltb_spec (Z.of_nat (length img)) SIZEOF_HEADER); [unfold SIZEOF_HEADER in *; lia|].
  unfold INITRD_MAX_FILES. destruct (Z.ltb_spec 128 n); [lia|]. unfold SIZEOF_HEADER at 1, SIZEOF_ENTRY. rewrite u64_small by lia.
  destruct (Z.ltb_spec (Z.of_nat (length img)) (16 + n * 64)); [lia|]. replace (Z.to_nat n) with (length pairs) by lia.
  destruct (mount_loop m base (Z.of_nat (length img)) pairs 0 (16 + n * 64) initrd_start) as (s & -> & En & _ & Ef & _);
    try done; try (unfold INITRD_MAX_FILES; lia).
  - replace (base + SIZEOF_HEADER + 0 * SIZEOF_ENTRY) with (base + Z.of_nat (4 + (4 + (4 + 4)))) by (unfold SIZEOF_HEADER; lia). done.
  - replace (base + (16 + n * 64)) with (base + Z.of_nat (4 + (4 + (4 + 4))) + n * 64) by lia. done.
  - eexists. split; [done|]. split; [done|]. intros stack path rest Hp Hl. by eapply open_path_ok.
Qed.

(** ** An image with two files *)

Definition demo_pairs : list (list Z * list Z) := [(bytes_of "/vocab.bin", [1; 2; 3]); (bytes_of "/config.bin", [7])].
Definition demo_image : mem := fun a => nth (Z.to_nat (a - 4096)) (build_image demo_pairs) 0.

Lemma initrd_roundtrip_witness :
  exists s p, initrd_init demo_image 4096 148 initrd_start = (true, s) /\
    vfs_initrd_open (fun _ => 0) demo_image (fun i => nth (Z.to_nat i) (bytes_of "/initrd/config.bin") 0) s = Some (Some (p, 1)) /\
    seg demo_image p [7].
Proof.
  destruct (initrd_roundtrip demo_pairs demo_image 4096) as (s & E & _ & H);
    [vm_compute; reflexivity | vm_compute; reflexivity | vm_compute; discriminate | |].
  { repeat constructor; cbn; lia || discriminate. }
  destruct (H (fun _ => 0) (fun i => nth (Z.to_nat i) (bytes_of "/initrd/config.bin") 0) (bytes_of "config.bin")) as (f & Ef & p & -> & Hp).
  - split; [vm_compute; reflexivity | repeat constructor; discriminate].
  - cbn. lia.
  - exists s, p. split; [exact E|]. split; [exact Ef | exact Hp].
Defined.
