(* ===== verification/Ring.v ===== *)
(** The ring buffer the input drivers share (kernel/keyboard.c, kernel/mouse.c,
    kernel/gui/input.c each write it out for their element type): an array of
    [size] elements, a power of two, with head and tail indices and one slot
    left empty; and the bounded queue it implements. *)

From S2P Require Import Prelude.
Local Open Scope Z_scope.

Record ring (X : Type) := mk_ring { r_buf : Z -> X; r_head : Z; r_tail : Z }.
Arguments mk_ring {X} _ _ _.
Arguments r_buf {X} _. Arguments r_head {X} _. Arguments r_tail {X} _.

Section Ring.
Context {X : Type} (size : Z).

(** [(i + 1u) & (size - 1u)]. *)
Definition next_index (i : Z) : Z := Z.land (u32 (i + 1)) (size - 1).

(** Pushing drops the element when the ring is full. *)
Definition ring_push (x : X) (r : ring X) : ring X :=
  let next := next_index (r_head r) in
  if next =? r_tail r then r else mk_ring (upd (r_buf r) (r_head r) x) next (r_tail r).

Definition ring_empty (r : ring X) : bool := r_head r =? r_tail r.

Definition ring_pop (r : ring X) : option X * ring X :=
  if ring_empty r then (None, r)
  else (Some (r_buf r (r_tail r)), mk_ring (r_buf r) (r_head r) (next_index (r_tail r))).

Definition ring_reset (r : ring X) : ring X := mk_ring (r_buf r) 0 0.

(** ** The queue a ring holds *)

Definition ring_items (r : ring X) : list X :=
  map (fun i => r_buf r ((r_tail r + i) mod size)) (seqZ 0 ((r_head r - r_tail r) mod size)).

Record ring_ok (r : ring X) : Prop := {
  ro_head : 0 <= r_head r < size;
  ro_tail : 0 <= r_tail r < size;
}.

(** The abstract queue: at most [size - 1] elements. *)
Definition queue_push (x : X) (q : list X) : list X := if Z.of_nat (length q) <? size - 1 then q ++ [x] else q.
Definition queue_pop (q : list X) : option X * list X := match q with [] => (None, []) | x :: r => (Some x, r) end.

Hypothesis size_pow2 : exists k, 0 <= k <= 31 /\ size = 2 ^ k.

Lemma size_range : 1 <= size <= 2 ^ 31.
Proof.
  destruct size_pow2 as (k & Hk & ->). split.
  - assert (0 < 2 ^ k) by (by apply Z.pow_pos_nonneg; lia). lia.
  - by apply Z.pow_le_mono_r; lia.
Qed.

Lemma next_index_mod i : 0 <= i < size -> next_index i = (i + 1) mod size.
Proof.
  intros Hi. pose proof size_range. unfold next_index. rewrite u32_small by lia.
  destruct size_pow2 as (k & Hk & ->). by apply land_ones_mod; lia.
Qed.

Lemma ring_items_length r : Z.of_nat (length (ring_items r)) = (r_head r - r_tail r) mod size.
Proof.
  pose proof size_range. unfold ring_items. rewrite length_map, length_seqZ.
  pose proof (Z.mod_pos_bound (r_head r - r_tail r) size). lia.
Qed.

Lemma mod_step a : a mod size <> size - 1 -> (a + 1) mod size = a mod size + 1.
Proof.
  pose proof size_range. intros Ha. pose proof (Z.mod_pos_bound a size ltac:(lia)).
  rewrite <- Zplus_mod_idemp_l. apply Z.mod_small. lia.
Qed.

Lemma mod_wrap a : a mod size = size - 1 -> (a + 1) mod size = 0.
Proof.
  pose proof size_range. intros Ha. rewrite <- Zplus_mod_idemp_l, Ha. replace (size - 1 + 1) with size by lia.
  apply Z.mod_same. lia.
Qed.

(** Pushing is pushing on the queue. *)
Lemma ring_push_ok x r : ring_ok r -> ring_ok (ring_push x r) /\ ring_items (ring_push x r) = queue_push x (ring_items r).
Proof.
  intros [Hh Ht]. pose proof size_range as Hs. unfold ring_push, queue_push. rewrite ring_items_length, next_index_mod by done.
  pose proof (Z.mod_pos_bound (r_head r - r_tail r) size ltac:(lia)) as Hm.
  pose proof (Z.mod_pos_bound (r_head r + 1) size ltac:(lia)) as Hn.
  assert ((r_head r + 1) mod size = r_tail r <-> (r_head r - r_tail r) mod size = size - 1) as Hfull.
  { split; intros E.
    - destruct (decide ((r_head r - r_tail r) mod size = size - 1)) as [|Hne]; [done|]. apply mod_step in Hne.
      replace (r_head r - r_tail r + 1) with (r_head r + 1 - r_tail r) in Hne by lia.
      rewrite <- Zminus_mod_idemp_l, E, Z.sub_diag, Z.mod_0_l in Hne by lia. lia.
    - apply mod_wrap in E. replace (r_head r - r_tail r + 1) with (r_head r + 1 - r_tail r) in E by lia.
      rewrite <- Zminus_mod_idemp_l in E. destruct (decide ((r_head r + 1) mod size = r_tail r)) as [|Hne]; [done|].
      destruct (Z.lt_ge_cases ((r_head r + 1) mod size) (r_tail r)).
      + assert (((r_head r + 1) mod size - r_tail r) mod size = (r_head r + 1) mod size - r_tail r + size) as E2
          by (symmetry; apply (Z.mod_unique _ _ (-1)); lia).
        lia.
      + rewrite Z.mod_small in E by lia. lia. }
  destruct (Z.eqb_spec ((r_head r + 1) mod size) (r_tail r)) as [E|E], (Z.ltb_spec ((r_head r - r_tail r) mod size) (size - 1)); try lia.
  { split; [by constructor | done]. }
  split; [constructor; cbn; lia|]. unfold ring_items. cbn [r_head r_tail r_buf].
  assert (((r_head r + 1) mod size - r_tail r) mod size = (r_head r - r_tail r) mod size + 1) as ->.
  { rewrite Zminus_mod_idemp_l. replace (r_head r + 1 - r_tail r) with (r_head r - r_tail r + 1) by lia. apply mod_step. lia. }
  assert ((r_tail r + (r_head r - r_tail r) mod size) mod size = r_head r) as El.
  { rewrite Zplus_mod_idemp_r. replace (r_tail r + (r_head r - r_tail r)) with (r_head r) by lia. by apply Z.mod_small. }
  rewrite seqZ_app, map_app by lia. f_equal.
  - apply map_ext_in. intros i Hi%list_elem_of_In%elem_of_seqZ. apply upd_ne. rewrite <- El. intros E2.
    pose proof (Z.mod_pos_bound (r_tail r + i) size ltac:(lia)).
    assert ((r_tail r + i - r_tail r) mod size = i) as E3 by (rewrite Z.add_simpl_l; apply Z.mod_small; lia).
    rewrite <- Zminus_mod_idemp_l, <- E2, El in E3. lia.
  - rewrite seqZ_cons, seqZ_nil by lia. cbn [map]. by rewrite Z.add_0_l, El, upd_eq.
Qed.

Lemma ring_pop_ok r :
  ring_ok r -> ring_ok (snd (ring_pop r)) /\ queue_pop (ring_items r) = (fst (ring_pop r), ring_items (snd (ring_pop r))).
Proof.
  intros [Hh Ht]. pose proof size_range as Hs. pose proof (Z.mod_pos_bound (r_head r - r_tail r) size ltac:(lia)) as Hm.
  pose proof (Z.mod_pos_bound (r_tail r + 1) size ltac:(lia)) as Hn.
  unfold ring_pop, ring_empty. destruct (Z.eqb_spec (r_head r) (r_tail r)) as [E|E]; cbn [fst snd].
  - split; [by constructor|]. unfold ring_items. by rewrite E, Z.sub_diag, Z.mod_0_l by lia.
  - rewrite next_index_mod by done. split; [constructor; cbn; lia|].
    assert ((r_head r - r_tail r) mod size <> 0) as Hne.
    { intros E2. destruct (Z.lt_ge_cases (r_head r) (r_tail r)).
      - assert ((r_head r - r_tail r) mod size = r_head r - r_tail r + size) by (symmetry; apply (Z.mod_unique _ _ (-1)); lia). lia.
      - rewrite Z.mod_small in E2 by lia. lia. }
    unfold ring_items. cbn [r_head r_tail r_buf]. rewrite seqZ_cons by lia. cbn [map queue_pop]. rewrite Z.add_0_r, (Z.mod_small (r_tail r)) by done.
    f_equal. replace ((r_head r - (r_tail r + 1) mod size) mod size) with (Z.pred ((r_head r - r_tail r) mod size)).
    + change (Z.succ 0) with (0 + 1). rewrite <- (Z.add_0_r (0 + 1)). unfold seqZ. rewrite !map_map. apply map_ext. intros j. f_equal.
      rewrite Zplus_mod_idemp_l. f_equal. lia.
    + rewrite Zminus_mod_idemp_r. replace (r_head r - (r_tail r + 1)) with (r_head r - r_tail r - 1) by lia.
      rewrite <- (Zminus_mod_idemp_l (r_head r - r_tail r)), (Z.mod_small (_ - 1)); lia.
Qed.

Lemma ring_reset_ok r : ring_ok (ring_reset r) /\ ring_items (ring_reset r) = [].
Proof. pose proof size_range. split; [constructor; cbn; lia|]. unfold ring_items. cbn. by rewrite Z.mod_0_l by lia. Qed.

Lemma ring_empty_ok r : ring_ok r -> ring_empty r = true <-> ring_items r = [].
Proof.
  intros R. destruct (ring_pop_ok r R) as [_ H]. unfold ring_pop in H. destruct (ring_empty r); cbn [fst snd] in H.
  - split; [|done]. intros _. destruct (ring_items r); [done|]. cbn in H. congruence.
  - split; [done|]. intros E. rewrite E in H. done.
Qed.

Lemma ring_items_bound r : ring_ok r -> Z.of_nat (length (ring_items r)) <= size - 1.
Proof. intros _. pose proof size_range. rewrite ring_items_length. pose proof (Z.mod_pos_bound (r_head r - r_tail r) size). lia. Qed.
End Ring.

(** Pushing a list of elements keeps the first ones that fit. *)
Lemma queue_push_all {X : Type} (size : Z) (l q : list X) :
  Z.of_nat (length q) <= size - 1 ->
  fold_left (fun q x => queue_push size x q) l q = q ++ take (Z.to_nat (size - 1) - length q) l.
Proof.
  revert q. induction l as [|x l IH]; intros q Hq; cbn [fold_left]; [by rewrite take_nil, app_nil_r|].
  unfold queue_push at 2. destruct (Z.ltb_spec (Z.of_nat (length q)) (size - 1)).
  - rewrite IH by (rewrite length_app; cbn; lia). rewrite <- app_assoc. f_equal. rewrite length_app. cbn [length].
    replace (Z.to_nat (size - 1) - length q)%nat with (S (Z.to_nat (size - 1) - (length q + 1)))%nat by lia. done.
  - rewrite IH by lia. replace (Z.to_nat (size - 1) - length q)%nat with O by lia. by rewrite !take_0.
Qed.
