(* ===== verification/Keyboard.v ===== *)
(** The PS/2 keyboard driver (kernel/keyboard.c): the translation of scan
    codes, the modifier state, the two ring buffers and the callbacks.
    Callbacks are values of a type of function pointers, interpreted on the
    state of the rest of the system; reading an I/O port is an operation of
    that state.

    Typing a text on the keyboard and polling the driver gives the text back. *)

From S2P Require Import Prelude Ring.
Local Open Scope Z_scope.

Definition KBD_DATA_PORT : Z := 0x60.
Definition KBD_STATUS_PORT : Z := 0x64.
Definition KBD_STATUS_OBF : Z := 0x01.
Definition KBD_BUF_SIZE : Z := 64.

Record key_event := mk_key {
  scancode : Z; ascii : Z; pressed : bool; shift : bool; ctrl : bool; alt : bool; caps : bool;
}.

(** *** Scan codes *)

(** Row by row: the first scan code of a run of characters, and the run. *)
Definition table_rows (rows : list (Z * list Z)) (sc : Z) : Z :=
  fold_right (fun '(base, run) rest => if (base <=? sc) && (sc <? base + Z.of_nat (length run))
                                       then nth (Z.to_nat (sc - base)) run 0 else rest) 0 rows.

Definition normal : Z -> Z := table_rows
  [(0x02, bytes_of "1234567890-="); (0x0E, [8; 9]); (0x10, bytes_of "qwertyuiop[]"); (0x1C, [10]);
   (0x1E, bytes_of "asdfghjkl;'`"); (0x2B, [92]); (0x2C, bytes_of "zxcvbnm,./"); (0x39, [32])].

Definition shifted : Z -> Z := table_rows
  [(0x02, bytes_of "!@#$%^&*()_+"); (0x0E, [8; 9]); (0x10, bytes_of "QWERTYUIOP{}"); (0x1C, [10]);
   (0x1E, bytes_of "ASDFGHJKL:" ++ [34; 126]); (0x2B, [124]); (0x2C, bytes_of "ZXCVBNM<>?"); (0x39, [32])].

Definition translate_scancode (sc : Z) (shift caps : bool) : Z :=
  let ch := if shift then shifted sc else normal sc in
  if caps then
    if (97 <=? ch) && (ch <=? 122) then ch - 97 + 65
    else if (65 <=? ch) && (ch <=? 90) then ch - 65 + 97
    else ch
  else ch.

(** *** The driver *)

Section Keyboard.
(** Pointers to functions of the two callback types, the world they act on,
    and port input. *)
Context {G T W : Type} (call_gui : G -> key_event -> W -> W) (call_text : T -> Z -> Z -> bool -> W -> W)
  (inb : Z -> W -> Z * W).

Record keyboard := mk_kbd {
  kbd_buf : ring key_event;
  ascii_buf : ring Z;
  g_shift : bool; g_ctrl : bool; g_alt : bool; g_caps : bool; g_e0 : bool;
  g_gui_cb : option G;
  g_text_cb : option T;
}.

Definition set_mods (sh ct al ca e0 : bool) (k : keyboard) : keyboard :=
  mk_kbd (kbd_buf k) (ascii_buf k) sh ct al ca e0 (g_gui_cb k) (g_text_cb k).

Definition kbd_event_push (ev : key_event) (k : keyboard) : keyboard :=
  mk_kbd (ring_push KBD_BUF_SIZE ev (kbd_buf k)) (ascii_buf k) (g_shift k) (g_ctrl k) (g_alt k) (g_caps k) (g_e0 k)
    (g_gui_cb k) (g_text_cb k).

Definition ascii_push (c : Z) (k : keyboard) : keyboard :=
  mk_kbd (kbd_buf k) (ring_push KBD_BUF_SIZE c (ascii_buf k)) (g_shift k) (g_ctrl k) (g_alt k) (g_caps k) (g_e0 k)
    (g_gui_cb k) (g_text_cb k).

(** The switch on the scan code. *)
Definition update_modifiers (sc : Z) (released : bool) (k : keyboard) : keyboard :=
  if (sc =? 0x2A) || (sc =? 0x36) then set_mods (negb released) (g_ctrl k) (g_alt k) (g_caps k) (g_e0 k) k
  else if sc =? 0x1D then set_mods (g_shift k) (negb released) (g_alt k) (g_caps k) (g_e0 k) k
  else if sc =? 0x38 then set_mods (g_shift k) (g_ctrl k) (negb released) (g_caps k) (g_e0 k) k
  else if sc =? 0x3A then
    (if released then k else set_mods (g_shift k) (g_ctrl k) (g_alt k) (negb (g_caps k)) (g_e0 k) k)
  else k.

Definition keyboard_process_scancode (raw : Z) (k : keyboard) (w : W) : keyboard * W :=
  if raw =? 0xE0 then (set_mods (g_shift k) (g_ctrl k) (g_alt k) (g_caps k) true k, w)
  else
    let released := negb (Z.land raw 0x80 =? 0) in
    let sc := Z.land raw 0x7F in
    let k := update_modifiers sc released k in
    let ev := mk_key (if g_e0 k then Z.lor sc 0x80 else sc)
                (if negb released && negb (g_e0 k) then translate_scancode sc (g_shift k) (g_caps k) else 0)
                (negb released) (g_shift k) (g_ctrl k) (g_alt k) (g_caps k) in
    let k := set_mods (g_shift k) (g_ctrl k) (g_alt k) (g_caps k) false k in
    let k := kbd_event_push ev k in
    let k := if pressed ev && negb (ascii ev =? 0) then ascii_push (ascii ev) k else k in
    match g_gui_cb k, g_text_cb k with
    | Some cb, _ => (k, call_gui cb ev w)
    | None, Some cb => (k, if pressed ev then call_text cb (ascii ev) (scancode ev) (pressed ev) w else w)
    | None, None => (k, w)
    end.

Definition keyboard_set_gui_callback (cb : option G) (k : keyboard) : keyboard :=
  mk_kbd (kbd_buf k) (ascii_buf k) (g_shift k) (g_ctrl k) (g_alt k) (g_caps k) (g_e0 k) cb (g_text_cb k).

Definition keyboard_set_text_callback (cb : option T) (k : keyboard) : keyboard :=
  mk_kbd (kbd_buf k) (ascii_buf k) (g_shift k) (g_ctrl k) (g_alt k) (g_caps k) (g_e0 k) (g_gui_cb k) cb.

(** [while (inb(STATUS) & OBF) inb(DATA);]; [None] when the fuel runs out. *)
Fixpoint flush_loop (fuel : nat) (w : W) : option W :=
  let '(st, w) := inb KBD_STATUS_PORT w in
  if Z.land st KBD_STATUS_OBF =? 0 then Some w
  else match fuel with O => None | S fuel' => flush_loop fuel' (snd (inb KBD_DATA_PORT w)) end.

Definition keyboard_init (fuel : nat) (k : keyboard) (w : W) : option (keyboard * W) :=
  let k := mk_kbd (ring_reset (kbd_buf k)) (ring_reset (ascii_buf k)) false false false false false None None in
  w ← flush_loop fuel w;
  Some (k, w).

Definition keyboard_handle_irq (k : keyboard) (w : W) : keyboard * W :=
  let '(st, w) := inb KBD_STATUS_PORT w in
  if Z.land st KBD_STATUS_OBF =? 0 then (k, w)
  else
    let '(raw, w) := inb KBD_DATA_PORT w in
    keyboard_process_scancode raw k w.

Definition keyboard_get_event (k : keyboard) : option key_event * keyboard :=
  let '(ev, r) := ring_pop KBD_BUF_SIZE (kbd_buf k) in
  (ev, mk_kbd r (ascii_buf k) (g_shift k) (g_ctrl k) (g_alt k) (g_caps k) (g_e0 k) (g_gui_cb k) (g_text_cb k)).

Definition keyboard_has_key (k : keyboard) : bool := negb (ring_empty (ascii_buf k)).

Definition keyboard_poll (k : keyboard) : Z * keyboard :=
  let '(c, r) := ring_pop KBD_BUF_SIZE (ascii_buf k) in
  (match c with Some c => c | None => 0 end,
   mk_kbd (kbd_buf k) r (g_shift k) (g_ctrl k) (g_alt k) (g_caps k) (g_e0 k) (g_gui_cb k) (g_text_cb k)).

(** [wait] is what happens while the processor is halted, the interrupts. *)
Fixpoint keyboard_getc (fuel : nat) (wait : keyboard -> keyboard) (k : keyboard) : option (Z * keyboard) :=
  let '(c, k) := keyboard_poll k in
  if negb (c =? 0) then Some (c, k)
  else match fuel with O => None | S fuel' => keyboard_getc fuel' wait (wait k) end.

End Keyboard.
Arguments keyboard G T : clear implicits.

(** * Specification *)

(** The key and the shift state that produce a character. *)
Definition key_of (c : Z) : option (Z * bool) :=
  match find_up 128 0 (fun sc => normal sc =? c) with
  | Some sc => Some (sc, false)
  | None => match find_up 128 0 (fun sc => shifted sc =? c) with Some sc => Some (sc, true) | None => None end
  end.

(** Pressing and releasing that key, with the left shift key held if needed. *)
Definition keystrokes (c : Z) : list Z :=
  match key_of c with
  | Some (sc, false) => [sc; sc + 0x80]
  | Some (sc, true) => [0x2A; sc; sc + 0x80; 0xAA]
  | None => []
  end.

Definition typable (c : Z) : Prop := 32 <= c <= 126 \/ 8 <= c <= 10.

(** What the proof needs of the tables, checked for every character. *)
Definition key_ok (c : Z) : bool :=
  match key_of c with
  | Some (sc, sh) =>
      (1 <? sc) && (sc <? 0x60) && negb ((sc =? 0x2A) || (sc =? 0x36)) && negb (sc =? 0x1D) && negb (sc =? 0x38) && negb (sc =? 0x3A)
      && (translate_scancode sc sh false =? c)
      && (Z.land sc 0x80 =? 0) && (Z.land sc 0x7F =? sc) && negb (Z.land (sc + 0x80) 0x80 =? 0) && (Z.land (sc + 0x80) 0x7F =? sc)
  | None => false
  end.

Lemma key_ok_typable c : typable c -> key_ok c = true.
Proof.
  intros H. assert (forallb key_ok (seqZ 32 95 ++ seqZ 8 3) = true) as E by (vm_compute; reflexivity).
  rewrite forallb_forall in E. apply E. apply list_elem_of_In, elem_of_app. rewrite !elem_of_seqZ. unfold typable in H. lia.
Qed.

Section Spec.
Context {G T W : Type} (call_gui : G -> key_event -> W -> W) (call_text : T -> Z -> Z -> bool -> W -> W).

Notation step := (fun kw raw => keyboard_process_scancode call_gui call_text raw (fst kw) (snd kw)).

(** The driver fed with a sequence of bytes from the controller. *)
Definition feed (bytes : list Z) (k : keyboard G T) (w : W) : keyboard G T * W := fold_left step bytes (k, w).

Definition mods (k : keyboard G T) := (g_shift k, g_ctrl k, g_alt k, g_caps k, g_e0 k).
Definition cbs (k : keyboard G T) := (g_gui_cb k, g_text_cb k).

(** A byte that is not the prefix, after none. *)
Lemma process_byte raw k w :
  let sc := Z.land raw 0x7F in
  let released := negb (Z.land raw 0x80 =? 0) in
  let k1 := update_modifiers sc released k in
  let c := if released then 0 else translate_scancode sc (g_shift k1) (g_caps k1) in
  let k' := fst (keyboard_process_scancode call_gui call_text raw k w) in
  raw <> 0xE0 -> g_e0 k = false ->
  mods k' = mods k1 /\ cbs k' = cbs k /\
  ascii_buf k' = if negb released && negb (c =? 0) then ring_push KBD_BUF_SIZE c (ascii_buf k) else ascii_buf k.
Proof.
  intros sc released k1 c k' Hraw He. subst k'. unfold keyboard_process_scancode. destruct (Z.eqb_spec raw 0xE0); [done|].
  fold sc released. fold k1. assert (g_e0 k1 = false /\ cbs k1 = cbs k /\ ascii_buf k1 = ascii_buf k) as (He1 & Hc1 & Ha1).
  { unfold k1, update_modifiers. repeat (destruct (_ =? _); cbn [orb]); try done; destruct released; done. }
  clearbody k1. rewrite He1, andb_true_r. cbn [pressed ascii].
  assert ((if negb released then translate_scancode sc (g_shift k1) (g_caps k1) else 0) = c) as -> by (unfold c; by destruct released).
  clearbody c. unfold cbs in *. rewrite <- Ha1, <- Hc1. unfold mods.
  destruct (negb released && negb (c =? 0)); cbn [set_mods kbd_event_push ascii_push g_gui_cb g_text_cb];
    destruct (g_gui_cb k1) eqn:Eg, (g_text_cb k1) eqn:Et;
    cbn [fst g_shift g_ctrl g_alt g_caps g_e0 ascii_buf g_gui_cb g_text_cb set_mods kbd_event_push ascii_push]; by rewrite ?He1, ?Eg, ?Et.
Qed.

(** A key that is not a modifier. *)
Lemma process_plain raw k w :
  let sc := Z.land raw 0x7F in
  let released := negb (Z.land raw 0x80 =? 0) in
  raw <> 0xE0 -> (sc =? 0x2A) || (sc =? 0x36) = false -> sc <> 0x1D -> sc <> 0x38 -> sc <> 0x3A -> g_e0 k = false ->
  let c := if released then 0 else translate_scancode sc (g_shift k) (g_caps k) in
  let k' := fst (keyboard_process_scancode call_gui call_text raw k w) in
  mods k' = mods k /\ cbs k' = cbs k /\
  ascii_buf k' = if negb released && negb (c =? 0) then ring_push KBD_BUF_SIZE c (ascii_buf k) else ascii_buf k.
Proof.
  intros sc released Hraw Hsh Hc Ha Hcl He.
  assert (update_modifiers sc released k = k) as Eu.
  { unfold update_modifiers. rewrite Hsh. by destruct (Z.eqb_spec sc 0x1D), (Z.eqb_spec sc 0x38), (Z.eqb_spec sc 0x3A). }
  pose proof (process_byte raw k w Hraw He) as P. cbv zeta in P. fold sc released in P. by rewrite Eu in P.
Qed.

(** The left shift key. *)
Lemma process_shift raw k w :
  raw = 0x2A \/ raw = 0xAA -> g_e0 k = false ->
  let k' := fst (keyboard_process_scancode call_gui call_text raw k w) in
  mods k' = (raw =? 0x2A, g_ctrl k, g_alt k, g_caps k, false) /\ cbs k' = cbs k /\ ascii_buf k' = ascii_buf k.
Proof.
  intros Hraw He. pose proof (process_byte raw k w ltac:(lia) He) as (M & C & A). cbv zeta. rewrite M, C, A.
  destruct Hraw as [-> | ->].
  2:{ unfold mods, update_modifiers. change (Z.land 0xAA 0x7F) with 0x2A. cbn. by rewrite He. }
  unfold mods, update_modifiers. change (Z.land 0x2A 0x7F) with 0x2A. change (Z.land 0x2A 0x80) with 0. cbn -[translate_scancode].
  rewrite He. split; [done|]. split; [done|].
  assert (translate_scancode 42 true (g_caps k) = 0) as Et by (by destruct (g_caps k)). by rewrite Et.
Qed.

Lemma feed_app l1 l2 k w : feed (l1 ++ l2) k w = feed l2 (fst (feed l1 k w)) (snd (feed l1 k w)).
Proof. unfold feed. rewrite fold_left_app. by destruct (fold_left step l1 (k, w)). Qed.

Lemma feed_one raw k w : feed [raw] k w = keyboard_process_scancode call_gui call_text raw k w.
Proof. done. Qed.

Lemma feed_key c k w :
  typable c -> mods k = (false, false, false, false, false) ->
  let k' := fst (feed (keystrokes c) k w) in
  mods k' = mods k /\ cbs k' = cbs k /\ ascii_buf k' = ring_push KBD_BUF_SIZE c (ascii_buf k).
Proof.
  intros Hc Hm. pose proof (key_ok_typable c Hc) as Hk. unfold key_ok, keystrokes in *.
  destruct (key_of c) as [[sc sh]|]; [|done].
  rewrite !andb_true_iff, !negb_true_iff, !Z.ltb_lt, !Z.eqb_eq, !Z.eqb_neq in Hk.
  destruct Hk as [[[[[[[[[[H1 H2] H3] H4] H5] H6] H7] H8] H9] H10] H11].
  assert (c <> 0) as Hc0 by (unfold typable in Hc; lia).
  (* making and breaking the key under the shift state [sh] *)
  assert (forall k w, mods k = (sh, false, false, false, false) ->
    let k' := fst (feed [sc; sc + 0x80] k w) in
    mods k' = mods k /\ cbs k' = cbs k /\ ascii_buf k' = ring_push KBD_BUF_SIZE c (ascii_buf k)) as Hkey.
  { clear k w Hm. intros k w Hm. unfold feed. cbn [fold_left]. unfold mods in Hm. injection Hm as Hs _ _ Hcap He.
    pose proof (process_plain sc k w) as P1. cbv zeta in P1. rewrite H8, H9, He, Hs, Hcap, H7 in P1. cbn -[translate_scancode ring_push] in P1.
    destruct P1 as (M1 & C1 & A1); [lia | done | done | done | done | done |].
    destruct (Z.eqb_spec c 0); [done|]. cbn in A1. cbn [fst snd].
    destruct (keyboard_process_scancode call_gui call_text sc k w) as [k1 w1]. cbn [fst snd] in *.
    pose proof (process_plain (sc + 0x80) k1 w1) as P2. cbv zeta in P2. rewrite H11 in P2.
    destruct (Z.eqb_spec (Z.land (sc + 0x80) 0x80) 0); [done|]. cbn -[translate_scancode ring_push] in P2.
    destruct P2 as (M2 & C2 & A2); [lia | done | done | done | done | unfold mods in M1; by injection M1; intros; congruence |].
    rewrite M2, C2, A2, M1, C1, A1. done. }
  destruct sh; [|by apply Hkey].
  change [0x2A; sc; sc + 0x80; 0xAA] with ([0x2A] ++ [sc; sc + 0x80] ++ [0xAA]). rewrite feed_app, feed_one.
  unfold mods in Hm. injection Hm as Hs Hct Hal Hcap He.
  destruct (process_shift 0x2A k w) as (M1 & C1 & A1); [by left | done |].
  destruct (keyboard_process_scancode call_gui call_text 0x2A k w) as [k1 w1]. cbn [fst snd] in *.
  rewrite Hct, Hal, Hcap in M1. rewrite feed_app, feed_one. destruct (Hkey k1 w1 M1) as (M2 & C2 & A2).
  destruct (feed [sc; sc + 0x80] k1 w1) as [k2 w2]. cbn [fst snd] in *.
  rewrite M1 in M2. assert (g_e0 k2 = false) as He2 by (unfold mods in M2; by injection M2).
  destruct (process_shift 0xAA k2 w2) as (M3 & C3 & A3); [by right | done |].
  rewrite M3, C3, A3, C2, A2, C1, A1. unfold mods in M2 |- *. injection M2 as _ -> -> -> _. by rewrite Hs, Hct, Hal, Hcap, He.
Qed.

Lemma kbd_size_pow2 : exists k, 0 <= k <= 31 /\ KBD_BUF_SIZE = 2 ^ k.
Proof. by exists 6. Qed.

Lemma feed_text text k w :
  Forall typable text -> mods k = (false, false, false, false, false) -> ring_ok KBD_BUF_SIZE (ascii_buf k) ->
  let k' := fst (feed (flat_map keystrokes text) k w) in
  mods k' = mods k /\ cbs k' = cbs k /\ ring_ok KBD_BUF_SIZE (ascii_buf k') /\
  ring_items KBD_BUF_SIZE (ascii_buf k') = fold_left (fun q c => queue_push KBD_BUF_SIZE c q) text (ring_items KBD_BUF_SIZE (ascii_buf k)).
Proof.
  revert k w. induction text as [|c text IH]; intros k w Ht Hm R; [done|]. apply Forall_cons in Ht as [Hc Ht].
  cbn [flat_map fold_left]. rewrite feed_app. destruct (feed_key c k w Hc Hm) as (M1 & C1 & A1).
  destruct (feed (keystrokes c) k w) as [k1 w1]. cbn [fst snd] in *.
  destruct (ring_push_ok KBD_BUF_SIZE kbd_size_pow2 c _ R) as [R1 E1]. rewrite <- A1 in R1, E1.
  destruct (IH k1 w1 Ht ltac:(by rewrite M1) R1) as (M2 & C2 & R2 & E2). by rewrite M2, C2, M1, C1, E2, E1.
Qed.

(** [n] polls in a row. *)
Fixpoint poll_n (n : nat) (k : keyboard G T) : list Z * keyboard G T :=
  match n with
  | O => ([], k)
  | S n' => let '(c, k) := keyboard_poll k in let '(l, k) := poll_n n' k in (c :: l, k)
  end.

Lemma poll_n_items n k :
  ring_ok KBD_BUF_SIZE (ascii_buf k) -> n = length (ring_items KBD_BUF_SIZE (ascii_buf k)) ->
  fst (poll_n n k) = ring_items KBD_BUF_SIZE (ascii_buf k) /\ keyboard_has_key (snd (poll_n n k)) = false.
Proof.
  revert k. induction n as [|n IH]; intros k R Hn.
  - destruct (ring_items KBD_BUF_SIZE (ascii_buf k)) eqn:E; [|done]. split; [done|]. cbn. unfold keyboard_has_key.
    apply negb_false_iff, (ring_empty_ok KBD_BUF_SIZE kbd_size_pow2); done.
  - destruct (ring_pop_ok KBD_BUF_SIZE kbd_size_pow2 _ R) as [R1 E1]. cbn [poll_n]. unfold keyboard_poll.
    destruct (ring_items KBD_BUF_SIZE (ascii_buf k)) as [|c q] eqn:E; [done|]. cbn [queue_pop] in E1.
    destruct (ring_pop KBD_BUF_SIZE (ascii_buf k)) as [o r]. cbn [fst snd] in *. injection E1 as <- E1.
    match goal with |- context [poll_n n ?k1] => set (k2 := k1) end.
    destruct (IH k2) as [I1 I2]; [done | cbn; rewrite <- E1; cbn in Hn; lia |].
    destruct (poll_n n k2) as [l k3]. cbn [fst snd] in *. rewrite I1. split; [|done]. cbn. by rewrite <- E1.
Qed.

(** C16: a text of printable characters, line feeds, tabs and backspaces, typed
    on the keys of the translation tables while nothing is waiting, is what
    polling the driver returns, as long as it has at most 63 characters, of
    which no more fit; the modifiers end as they were. *)
Theorem keyboard_typing_roundtrip text k w :
  Forall typable text -> mods k = (false, false, false, false, false) ->
  ring_ok KBD_BUF_SIZE (ascii_buf k) -> ring_items KBD_BUF_SIZE (ascii_buf k) = [] ->
  let k' := fst (feed (flat_map keystrokes text) k w) in
  let kept := take 63 text in
  mods k' = mods k /\ fst (poll_n (length kept) k') = kept /\ keyboard_has_key (snd (poll_n (length kept) k')) = false.
Proof.
  intros Ht Hm R E k' kept. destruct (feed_text text k w Ht Hm R) as (M & _ & R' & E'). fold k' in M, R', E'.
  rewrite E, queue_push_all in E' by done. cbn [app] in E'. change (Z.to_nat (KBD_BUF_SIZE - 1) - length [])%nat with 63%nat in E'.
  fold kept in E'. split; [done|]. destruct (poll_n_items (length kept) k' R') as [P1 P2]; [by rewrite E'|]. by rewrite P1, E'.
Qed.
End Spec.

(** ** A driver right after its initialisation *)

Definition demo_kbd : keyboard unit unit :=
  mk_kbd (mk_ring (fun _ => mk_key 0 0 false false false false false) 0 0) (mk_ring (fun _ => 0) 0 0)
    false false false false false None None.

Lemma keyboard_typing_roundtrip_witness :
  let text := bytes_of "Hello, World!" in
  fst (poll_n 13 (fst (feed (fun _ _ w => w) (fun _ _ _ _ w => w) (flat_map keystrokes text) demo_kbd tt))) = text.
Proof.
  refine (proj1 (proj2 (keyboard_typing_roundtrip (fun _ _ w => w) (fun _ _ _ _ w => w) (bytes_of "Hello, World!") demo_kbd tt _ eq_refl _ eq_refl))).
  - apply List.Forall_forall. intros c Hc. vm_compute in Hc. unfold typable. repeat (destruct Hc as [<-|Hc]; [lia|]). destruct Hc.
  - constructor; cbn; unfold KBD_BUF_SIZE; lia.
Defined.
