(* ===== verification/Mouse.v ===== *)
(** The PS/2 mouse driver (kernel/mouse.c): the controller dialogue, the
    assembly of three-byte packets, the decoding of movements, the position on
    the screen and the event ring.

    The mouse driver over any stream of bytes: the position stays on the
    screen, packets are framed by the sync bit and decoded exactly, and events
    come out in the order of the packets. *)

From S2P Require Import Prelude Ring.
Local Open Scope Z_scope.

Definition MOUSE_DATA_PORT : Z := 0x60.
Definition MOUSE_CMD_PORT : Z := 0x64.
Definition MOUSE_STATUS_PORT : Z := 0x64.
Definition MOUSE_STATUS_OBF : Z := 0x01.
Definition MOUSE_STATUS_IBF : Z := 0x02.
Definition MOUSE_STATUS_AUX : Z := 0x20.
Definition MOUSE_BTN_LEFT : Z := 0x01.
Definition MOUSE_BTN_RIGHT : Z := 0x02.
Definition MOUSE_BTN_MIDDLE : Z := 0x04.
Definition MOUSE_BUF_SIZE : Z := 64.
Definition MOUSE_CMD_ENABLE_AUX : Z := 0xA8.
Definition MOUSE_CMD_READ_CB : Z := 0x20.
Definition MOUSE_CMD_WRITE_CB : Z := 0x60.
Definition MOUSE_CMD_WRITE_NEXT : Z := 0xD4.
Definition MOUSE_DEV_ENABLE : Z := 0xF4.
Definition MOUSE_DEV_DEFAULTS : Z := 0xF6.
Definition MOUSE_CB_IRQ1 : Z := 0x01.
Definition MOUSE_CB_IRQ12 : Z := 0x02.
Definition MOUSE_CB_AUX_CLOCK : Z := 0x20.

Record mouse_event := mk_mev { dx : Z; dy : Z; abs_x : Z; abs_y : Z; buttons : Z; prev_buttons : Z }.

Section Mouse.
(** Pointers to the callback's type, the world it acts on, and port access. *)
Context {G W : Type} (call_gui : G -> mouse_event -> W -> W) (inb : Z -> W -> Z * W) (outb : Z -> Z -> W -> W).

Record mouse := mk_mouse {
  mouse_x : Z; mouse_y : Z;
  mouse_buf : ring mouse_event;
  g_packet : Z -> Z; g_packet_index : Z; g_buttons : Z;
  g_gui_mouse_cb : option G;
}.

(** *** The controller *)

(** At most [n] reads of the status port until [ready] holds. *)
Fixpoint mouse_wait (n : nat) (ready : Z -> bool) (w : W) : bool * W :=
  match n with
  | O => (false, w)
  | S n' => let '(st, w) := inb MOUSE_STATUS_PORT w in if ready st then (true, w) else mouse_wait n' ready w
  end.

Definition mouse_wait_input_clear (w : W) : bool * W :=
  mouse_wait (Z.to_nat 100000) (fun st => Z.land st MOUSE_STATUS_IBF =? 0) w.
Definition mouse_wait_output_full (w : W) : bool * W :=
  mouse_wait (Z.to_nat 100000) (fun st => negb (Z.land st MOUSE_STATUS_OBF =? 0)) w.

Definition mouse_write_device (value : Z) (w : W) : W :=
  let '(ok, w) := mouse_wait_input_clear w in
  if negb ok then w
  else
    let w := outb MOUSE_CMD_PORT MOUSE_CMD_WRITE_NEXT w in
    let '(ok, w) := mouse_wait_input_clear w in
    if negb ok then w
    else
      let w := outb MOUSE_DATA_PORT value w in
      let '(full, w) := mouse_wait_output_full w in
      if full then snd (inb MOUSE_DATA_PORT w) else w.

Definition mouse_read_controller_config (w : W) : Z * W :=
  let '(ok, w) := mouse_wait_input_clear w in
  if negb ok then (0, w)
  else
    let w := outb MOUSE_CMD_PORT MOUSE_CMD_READ_CB w in
    let '(full, w) := mouse_wait_output_full w in
    if negb full then (0, w) else inb MOUSE_DATA_PORT w.

Definition mouse_write_controller_config (value : Z) (w : W) : W :=
  let '(ok, w) := mouse_wait_input_clear w in
  if negb ok then w
  else
    let w := outb MOUSE_CMD_PORT MOUSE_CMD_WRITE_CB w in
    let '(ok, w) := mouse_wait_input_clear w in
    if negb ok then w else outb MOUSE_DATA_PORT value w.

(** *** Packets *)

Definition mouse_buffer_push (ev : mouse_event) (s : mouse) : mouse :=
  mk_mouse (mouse_x s) (mouse_y s) (ring_push MOUSE_BUF_SIZE ev (mouse_buf s)) (g_packet s) (g_packet_index s) (g_buttons s)
    (g_gui_mouse_cb s).

(** The result as an [int16_t]. *)
Definition sign_extend_packet_delta (value sign_bit : Z) : Z :=
  if negb (sign_bit =? 0) then s16 (Z.lor value 0xFF00) else value.

Definition clamp (lo hi v : Z) : Z := let v := if v <? lo then lo else v in if hi <? v then hi else v.

Definition clamp_mouse_position (s : mouse) : mouse :=
  mk_mouse (clamp 0 1023 (mouse_x s)) (clamp 0 767 (mouse_y s)) (mouse_buf s) (g_packet s) (g_packet_index s) (g_buttons s)
    (g_gui_mouse_cb s).

Definition set_packet_index (i : Z) (s : mouse) : mouse :=
  mk_mouse (mouse_x s) (mouse_y s) (mouse_buf s) (g_packet s) i (g_buttons s) (g_gui_mouse_cb s).

Definition mouse_process_packet (s : mouse) (w : W) : mouse * W :=
  let flags := g_packet s 0 in
  if Z.land flags 0x08 =? 0 then (set_packet_index 0 s, w)
  else
    let ddx := sign_extend_packet_delta (g_packet s 1) (Z.land flags 0x10) in
    let raw_dy := sign_extend_packet_delta (g_packet s 2) (Z.land flags 0x20) in
    let ddy := s16 (- raw_dy) in
    let prev := g_buttons s in
    let btns := Z.land flags (Z.lor MOUSE_BTN_LEFT (Z.lor MOUSE_BTN_RIGHT MOUSE_BTN_MIDDLE)) in
    let s := clamp_mouse_position
               (mk_mouse (s32 (mouse_x s + ddx)) (s32 (mouse_y s + ddy)) (mouse_buf s) (g_packet s) (g_packet_index s) (g_buttons s)
                  (g_gui_mouse_cb s)) in
    let s := mk_mouse (mouse_x s) (mouse_y s) (mouse_buf s) (g_packet s) (g_packet_index s) btns (g_gui_mouse_cb s) in
    let ev := mk_mev ddx ddy (mouse_x s) (mouse_y s) btns prev in
    let s := mouse_buffer_push ev s in
    (s, match g_gui_mouse_cb s with Some cb => call_gui cb ev w | None => w end).

Definition mouse_set_gui_callback (cb : option G) (s : mouse) : mouse :=
  mk_mouse (mouse_x s) (mouse_y s) (mouse_buf s) (g_packet s) (g_packet_index s) (g_buttons s) cb.

(** One byte from the device. *)
Definition mouse_take_byte (byte : Z) (s : mouse) (w : W) : mouse * W :=
  if (g_packet_index s =? 0) && (Z.land byte 0x08 =? 0) then (s, w)
  else
    let s := mk_mouse (mouse_x s) (mouse_y s) (mouse_buf s) (upd (g_packet s) (g_packet_index s) byte)
               (u8 (g_packet_index s + 1)) (g_buttons s) (g_gui_mouse_cb s) in
    if g_packet_index s =? 3 then mouse_process_packet (set_packet_index 0 s) w else (s, w).

Definition mouse_handle_irq (s : mouse) (w : W) : mouse * W :=
  let '(status, w) := inb MOUSE_STATUS_PORT w in
  let both := Z.lor MOUSE_STATUS_OBF MOUSE_STATUS_AUX in
  if Z.land status both =? both then
    let '(byte, w) := inb MOUSE_DATA_PORT w in
    mouse_take_byte byte s w
  else (s, w).

Definition mouse_get_event (s : mouse) : option mouse_event * mouse :=
  let '(ev, r) := ring_pop MOUSE_BUF_SIZE (mouse_buf s) in
  (ev, mk_mouse (mouse_x s) (mouse_y s) r (g_packet s) (g_packet_index s) (g_buttons s) (g_gui_mouse_cb s)).

Fixpoint drain_loop (fuel : nat) (w : W) : option W :=
  let '(st, w) := inb MOUSE_STATUS_PORT w in
  if Z.land st MOUSE_STATUS_OBF =? 0 then Some w
  else match fuel with O => None | S fuel' => drain_loop fuel' (snd (inb MOUSE_DATA_PORT w)) end.

Definition mouse_init (fuel : nat) (s : mouse) (w : W) : option (mouse * W) :=
  let s := mk_mouse 400 300 (ring_reset (mouse_buf s)) (g_packet s) 0 0 None in
  let '(ok, w) := mouse_wait_input_clear w in
  if negb ok then Some (s, w)
  else
    let w := outb MOUSE_CMD_PORT MOUSE_CMD_ENABLE_AUX w in
    let '(cfg, w) := mouse_read_controller_config w in
    let cfg := Z.lor cfg (Z.lor MOUSE_CB_IRQ1 MOUSE_CB_IRQ12) in
    let cfg := Z.land cfg (Z.lnot MOUSE_CB_AUX_CLOCK mod 2 ^ 8) in
    let w := mouse_write_controller_config cfg w in
    let w := mouse_write_device MOUSE_DEV_DEFAULTS w in
    let w := mouse_write_device MOUSE_DEV_ENABLE w in
    w ← drain_loop fuel w;
    Some (s, w).

End Mouse.
Arguments mouse G : clear implicits.

(** * Specification *)

Definition MAX_X : Z := 1023.
Definition MAX_Y : Z := 767.

Lemma clamp_spec lo hi v : lo <= hi -> clamp lo hi v = Z.max lo (Z.min hi v).
Proof. intros H. unfold clamp. destruct (Z.ltb_spec v lo); [destruct (Z.ltb_spec hi lo) | destruct (Z.ltb_spec hi v)]; lia. Qed.

(** The nine-bit two's complement number of a byte and its sign bit. *)
Lemma sign_extend_spec b sign :
  0 <= b < 256 -> sign_extend_packet_delta b sign = if sign =? 0 then b else b - 256.
Proof.
  intros Hb. unfold sign_extend_packet_delta. destruct (sign =? 0); [done|]. cbn [negb].
  assert (Z.lor b 0xFF00 = 0xFF00 + b) as ->.
  { rewrite Z.lor_comm. exact (lor_disjoint 0xFF00 b 8 ltac:(lia) eq_refl Hb). }
  unfold s16. change (2 ^ 15) with 32768. change (2 ^ 16) with 65536.
  assert ((65280 + b + 32768) mod 65536 = 65280 + b + 32768 - 65536) as ->; [|lia].
  symmetry. apply (Z.mod_unique _ _ 1); lia.
Qed.

(** ** What a stream of bytes means *)

(** The packets of a stream, given the bytes of an unfinished one: a packet
    starts with a byte whose sync bit is set, others are skipped there. *)
Fixpoint packets (part : list Z) (bytes : list Z) : list (Z * Z * Z) :=
  match bytes with
  | [] => []
  | b :: r =>
      match part with
      | [] => if Z.land b 0x08 =? 0 then packets [] r else packets [b] r
      | [b0] => packets [b0; b] r
      | b0 :: b1 :: _ => (b0, b1, b) :: packets [] r
      end
  end.

(** The event of a packet at a position: the movement with its y axis turned,
    the new position kept on the screen, and the button bits. *)
Definition decode (x y btns : Z) (p : Z * Z * Z) : mouse_event :=
  let '(b0, b1, b2) := p in
  let mx := if Z.land b0 0x10 =? 0 then b1 else b1 - 256 in
  let my := if Z.land b0 0x20 =? 0 then b2 else b2 - 256 in
  mk_mev mx (- my) (Z.max 0 (Z.min MAX_X (x + mx))) (Z.max 0 (Z.min MAX_Y (y - my))) (Z.land b0 7) btns.

Fixpoint events (x y btns : Z) (ps : list (Z * Z * Z)) : list mouse_event :=
  match ps with
  | [] => []
  | p :: r => let ev := decode x y btns p in ev :: events (abs_x ev) (abs_y ev) (buttons ev) r
  end.

Section Spec.
Context {G W : Type} (call_gui : G -> mouse_event -> W -> W).
Implicit Type s : mouse G.

(** What holds between interrupts. *)
Record mouse_ok s : Prop := {
  mo_x : 0 <= mouse_x s <= MAX_X;
  mo_y : 0 <= mouse_y s <= MAX_Y;
  mo_index : 0 <= g_packet_index s <= 2;
  mo_sync : 0 < g_packet_index s -> Z.land (g_packet s 0) 0x08 <> 0;
  mo_bytes : forall i, 0 <= i < g_packet_index s -> 0 <= g_packet s i < 256;
  mo_buttons : 0 <= g_buttons s <= 7;
  mo_ring : ring_ok MOUSE_BUF_SIZE (mouse_buf s);
}.

Definition queue s : list mouse_event := ring_items MOUSE_BUF_SIZE (mouse_buf s).

Lemma mouse_size_pow2 : exists k, 0 <= k <= 31 /\ MOUSE_BUF_SIZE = 2 ^ k.
Proof. by exists 6. Qed.

Definition packet_event s (b0 b1 b2 : Z) : mouse_event := decode (mouse_x s) (mouse_y s) (g_buttons s) (b0, b1, b2).

Lemma process_packet_ok s w b0 b1 b2 :
  mouse_ok (set_packet_index 0 s) -> g_packet s 0 = b0 -> g_packet s 1 = b1 -> g_packet s 2 = b2 ->
  Z.land b0 0x08 <> 0 -> 0 <= b0 < 256 -> 0 <= b1 < 256 -> 0 <= b2 < 256 ->
  let '(s', w') := mouse_process_packet call_gui (set_packet_index 0 s) w in
  let ev := packet_event s b0 b1 b2 in
  mouse_ok s' /\ g_packet_index s' = 0 /\ mouse_x s' = abs_x ev /\ mouse_y s' = abs_y ev /\ g_buttons s' = buttons ev /\
  g_gui_mouse_cb s' = g_gui_mouse_cb s /\ queue s' = queue_push MOUSE_BUF_SIZE ev (queue s) /\
  w' = match g_gui_mouse_cb s with Some cb => call_gui cb ev w | None => w end.
Proof.
  intros [Hx Hy _ _ _ Hbt R] E0 E1 E2 Hsync H0 H1 H2. cbn [set_packet_index mouse_x mouse_y g_buttons mouse_buf] in Hx, Hy, Hbt, R.
  unfold mouse_process_packet. cbn [set_packet_index g_packet mouse_x mouse_y mouse_buf g_buttons g_packet_index g_gui_mouse_cb].
  rewrite E0, E1, E2. destruct (Z.eqb_spec (Z.land b0 8) 0); [done|]. rewrite !sign_extend_spec by done.
  change (Z.lor MOUSE_BTN_LEFT (Z.lor MOUSE_BTN_RIGHT MOUSE_BTN_MIDDLE)) with 7.
  unfold packet_event, decode. set (mx := if Z.land b0 16 =? 0 then b1 else b1 - 256). set (my := if Z.land b0 32 =? 0 then b2 else b2 - 256).
  assert (-256 <= mx <= 255 /\ -256 <= my <= 255) as [Hmx Hmy] by (unfold mx, my; destruct (Z.land b0 16 =? 0), (Z.land b0 32 =? 0); lia).
  clearbody mx my. unfold MAX_X, MAX_Y in *. rewrite (s16_small (- my)) by lia.
  unfold clamp_mouse_position. cbn [mouse_x mouse_y mouse_buf g_packet g_packet_index g_buttons g_gui_mouse_cb].
  rewrite !s32_small, !clamp_spec by lia. replace (mouse_y s + - my) with (mouse_y s - my) by lia.
  match goal with |- context [mouse_buffer_push ?e ?t] => set (ev := e); set (s1 := t) end.
  destruct (ring_push_ok MOUSE_BUF_SIZE mouse_size_pow2 ev _ R) as [R' Eq].
  pose proof (Z.land_ones b0 3 ltac:(lia)) as El. change (Z.ones 3) with 7 in El. change (2 ^ 3) with 8 in El.
  pose proof (Z.mod_pos_bound b0 8 ltac:(lia)).
  split; [|split_and!; done]. constructor; cbn -[Z.max Z.min Z.land]; unfold MAX_X, MAX_Y; try done; lia.
Qed.

(** One byte from the device. *)
Lemma take_byte_ok s w byte :
  mouse_ok s -> 0 <= byte < 256 ->
  let '(s', w') := mouse_take_byte call_gui byte s w in
  mouse_ok s' /\ g_gui_mouse_cb s' = g_gui_mouse_cb s /\
  ((g_packet_index s = 0 /\ Z.land byte 0x08 = 0 /\ s' = s /\ w' = w) \/
   (g_packet_index s' = g_packet_index s + 1 /\ (forall i, 0 <= i <= g_packet_index s ->
      g_packet s' i = if i =? g_packet_index s then byte else g_packet s i) /\
    mouse_x s' = mouse_x s /\ mouse_y s' = mouse_y s /\ g_buttons s' = g_buttons s /\ queue s' = queue s /\ w' = w) \/
   (g_packet_index s = 2 /\ g_packet_index s' = 0 /\
    let ev := packet_event s (g_packet s 0) (g_packet s 1) byte in
    mouse_x s' = abs_x ev /\ mouse_y s' = abs_y ev /\ g_buttons s' = buttons ev /\
    queue s' = queue_push MOUSE_BUF_SIZE ev (queue s) /\
    w' = match g_gui_mouse_cb s with Some cb => call_gui cb ev w | None => w end)).
Proof.
  intros O Hb. pose proof O as [Hx Hy Hi Hs Hbs Hbt R]. unfold mouse_take_byte.
  destruct (Z.eqb_spec (g_packet_index s) 0) as [E0|E0], (Z.eqb_spec (Z.land byte 0x08) 0) as [E8|E8]; cbn [andb].
  1:{ split; [done|]. split; [done|]. by left. }
  all: cbn [g_packet_index]; rewrite u8_small by lia; destruct (Z.eqb_spec (g_packet_index s + 1) 3) as [E3|E3]; try lia.
  2,4: (* the packet is complete *)
    assert (g_packet_index s = 2) as Ei by lia;
    match goal with |- context [set_packet_index 0 ?t] => set (s1 := t) end;
    assert (mouse_ok (set_packet_index 0 s1)) as O1 by (constructor; cbn; try done; lia);
    assert (g_packet s1 0 = g_packet s 0 /\ g_packet s1 1 = g_packet s 1 /\ g_packet s1 2 = byte) as (P0 & P1 & P2)
      by (cbn; rewrite Ei, !upd_ne, upd_eq by lia; done);
    pose proof (process_packet_ok s1 w _ _ _ O1 P0 P1 P2 ltac:(apply Hs; lia) ltac:(apply Hbs; lia) ltac:(apply Hbs; lia) Hb) as HP;
    destruct (mouse_process_packet call_gui (set_packet_index 0 s1) w) as [s' w'];
    destruct HP as (O' & I' & X' & Y' & B' & C' & Q' & W'); split; [done|]; split; [done|]; right; right; done.
  all: split; [|split; [done|right; left]].
  1,3,5: constructor; cbn; try done; try lia;
    [ intros _; destruct (decide (g_packet_index s = 0)) as [E|E];
        [by rewrite E, upd_eq | rewrite upd_ne by lia; apply Hs; lia]
    | intros i Hi'; unfold upd; destruct (Z.eqb_spec (g_packet_index s) i); [done | apply Hbs; lia] ].
  all: cbn; split_and!; try done; intros i Hi'; unfold upd; rewrite Z.eqb_sym; done.
Qed.
(** The bytes of the unfinished packet. *)
Definition partial s : list Z := map (g_packet s) (seqZ 0 (g_packet_index s)).

Lemma partial_cases s :
  mouse_ok s ->
  (g_packet_index s = 0 /\ partial s = []) \/ (g_packet_index s = 1 /\ partial s = [g_packet s 0]) \/
  (g_packet_index s = 2 /\ partial s = [g_packet s 0; g_packet s 1]).
Proof.
  intros [_ _ Hi _ _ _ _]. unfold partial. assert (g_packet_index s = 0 \/ g_packet_index s = 1 \/ g_packet_index s = 2) as [->|[->| ->]] by lia; auto.
Qed.

Definition feed (bytes : list Z) s (w : W) : mouse G * W :=
  fold_left (fun sw b => mouse_take_byte call_gui b (fst sw) (snd sw)) bytes (s, w).

Lemma feed_ok bytes s w :
  mouse_ok s -> Forall (fun b => 0 <= b < 256) bytes ->
  let '(s', w') := feed bytes s w in
  let evs := events (mouse_x s) (mouse_y s) (g_buttons s) (packets (partial s) bytes) in
  mouse_ok s' /\ g_gui_mouse_cb s' = g_gui_mouse_cb s /\
  queue s' = fold_left (fun q e => queue_push MOUSE_BUF_SIZE e q) evs (queue s) /\
  w' = fold_left (fun w e => match g_gui_mouse_cb s with Some cb => call_gui cb e w | None => w end) evs w.
Proof.
  revert s w. induction bytes as [|b r IH]; intros s w O Hb; [done|]. apply Forall_cons in Hb as [Hb Hr].
  assert (feed (b :: r) s w = feed r (fst (mouse_take_byte call_gui b s w)) (snd (mouse_take_byte call_gui b s w))) as ->
    by (unfold feed; cbn [fold_left fst snd]; by destruct (mouse_take_byte call_gui b s w)).
  pose proof (take_byte_ok s w b O Hb) as HT. destruct (mouse_take_byte call_gui b s w) as [s1 w1]. cbn [fst snd].
  destruct HT as (O1 & C1 & HT). specialize (IH s1 w1 O1 Hr). destruct (feed r s1 w1) as [s' w'].
  destruct IH as (O' & C' & Q' & W'). split; [done|]. split; [congruence|]. rewrite C1 in W'.
  destruct HT as [(I0 & E8 & -> & ->)|[(I1 & HP & X1 & Y1 & B1 & Q1 & ->)|(I2 & I1 & X1 & Y1 & B1 & Q1 & ->)]].
  - destruct (partial_cases s O) as [[_ Ep]|[[? _]|[? _]]]; try lia. rewrite Ep in *. cbn [packets]. rewrite E8. done.
  - rewrite X1, Y1, B1, Q1 in *.
    assert (packets (partial s) (b :: r) = packets (partial s1) r) as ->; [|done].
    destruct (partial_cases s O) as [[E Ep]|[[E Ep]|[E Ep]]], (partial_cases s1 O1) as [[E1 Ep1]|[[E1 Ep1]|[E1 Ep1]]]; try lia; rewrite Ep, Ep1; cbn [packets].
    + assert (g_packet s1 0 = b) as -> by (rewrite HP, E by lia; done).
      destruct (Z.eqb_spec (Z.land b 8) 0) as [E8|]; [|done]. exfalso. apply (mo_sync _ O1); [lia|]. rewrite HP, E by lia. done.
    + assert (g_packet s1 0 = g_packet s 0 /\ g_packet s1 1 = b) as [-> ->] by (rewrite !HP, E by lia; done). done.
  - destruct (partial_cases s O) as [[E Ep]|[[E Ep]|[E Ep]]]; try lia. destruct (partial_cases s1 O1) as [[_ Ep1]|[[? _]|[? _]]]; try lia.
    rewrite Ep, Ep1, X1, Y1, B1, Q1 in *. done.
Qed.

(** Whatever bytes the device sends, the pointer stays on the 1024 by 768
    screen, and the events queued, and handed to the callback if there is one,
    are those of the packets of the stream in their order: framed by the sync
    bit, with nine-bit movements and the buttons, dropped only when 63 events
    are waiting. *)
Theorem mouse_stream_correct bytes s w :
  mouse_ok s -> g_packet_index s = 0 -> Forall (fun b => 0 <= b < 256) bytes ->
  let '(s', w') := feed bytes s w in
  let evs := events (mouse_x s) (mouse_y s) (g_buttons s) (packets [] bytes) in
  (0 <= mouse_x s' <= 1023 /\ 0 <= mouse_y s' <= 767) /\ mouse_ok s' /\
  queue s' = queue s ++ take (63 - length (queue s)) evs /\
  w' = fold_left (fun w e => match g_gui_mouse_cb s with Some cb => call_gui cb e w | None => w end) evs w.
Proof.
  intros O E Hb. pose proof (feed_ok bytes s w O Hb) as H. destruct (feed bytes s w) as [s' w'].
  destruct H as (O' & _ & Q & Wq). destruct (partial_cases s O) as [[_ Ep]|[[? _]|[? _]]]; try lia. rewrite Ep in *.
  split; [split; apply O'|]. split; [done|]. split; [|done]. rewrite Q.
  apply (queue_push_all MOUSE_BUF_SIZE), (ring_items_bound MOUSE_BUF_SIZE mouse_size_pow2), O.
Qed.
End Spec.

(** ** A driver right after its initialisation, fed with a stray byte, a
    movement to the upper left and a click *)

Definition demo_mouse : mouse unit := mk_mouse 400 300 (mk_ring (fun _ => mk_mev 0 0 0 0 0 0) 0 0) (fun _ => 0) 0 0 None.

Lemma mouse_stream_correct_witness :
  let '(s', _) := feed (fun _ _ w => w) [0x04; 0x18; 250; 10; 0x09; 0; 0] demo_mouse tt in
  queue s' = [mk_mev (-6) (-10) 394 290 0 0; mk_mev 0 0 394 290 1 0].
Proof.
  pose proof (mouse_stream_correct (fun (_ : unit) _ w => w) [0x04; 0x18; 250; 10; 0x09; 0; 0] demo_mouse tt) as H.
  destruct (feed (fun _ _ w => w) [0x04; 0x18; 250; 10; 0x09; 0; 0] demo_mouse tt) as [s' w'].
  refine (proj1 (proj2 (proj2 (H _ eq_refl _)))).
  - constructor; cbn; unfold MAX_X, MAX_Y, MOUSE_BUF_SIZE; try lia. constructor; cbn; lia.
  - repeat constructor; lia.
Defined.
