(* ===== verification/Input.v ===== *)
(** GUI input (kernel/gui/input.c): the mouse state, the queue of GUI events
    and double clicks; and the callbacks that feed it from the drivers
    (kernel/gui/input_wiring.c, input_bridge.c, input_mode.c). *)

From S2P Require Import Prelude Ring Keyboard Mouse.
Local Open Scope Z_scope.

Definition GUI_EVENT_QUEUE_SIZE : Z := 128.
Definition GUI_MOUSE_BUTTON_LEFT : Z := 0x01.
Definition GUI_MOUSE_BUTTON_RIGHT : Z := 0x02.
Definition GUI_MOUSE_BUTTON_MIDDLE : Z := 0x04.
Definition GUI_MOUSE_FLAG_NONE : Z := 0x00.
Definition GUI_MOUSE_FLAG_DOUBLE_CLICK : Z := 0x01.
Definition GUI_MOD_SHIFT : Z := 0x01.
Definition GUI_MOD_CTRL : Z := 0x02.
Definition GUI_MOD_ALT : Z := 0x04.

Inductive gui_event_type :=
  | GUI_EVENT_NONE | GUI_EVENT_MOUSE_MOVE | GUI_EVENT_MOUSE_DOWN | GUI_EVENT_MOUSE_UP | GUI_EVENT_KEY_DOWN | GUI_EVENT_KEY_UP.

#[export] Instance gui_event_type_eq_dec : EqDecision gui_event_type.
Proof. solve_decision. Defined.

Record gui_event := mk_gev {
  ev_type : gui_event_type; time_ms : Z; ev_x : Z; ev_y : Z; ev_buttons : Z; mouse_flags : Z; keycode : Z; modifiers : Z;
}.

Record gui_mouse_state := mk_ms { ms_x : Z; ms_y : Z; ms_buttons : Z }.

(** The statics of input.c. *)
Record gui_input := mk_gui {
  g_events : ring gui_event;
  g_mouse_state : gui_mouse_state;
  g_screen_w : Z; g_screen_h : Z;
  g_last_click_time_ms : Z; g_last_click_x : Z; g_last_click_y : Z;
}.

Definition gui_input_now_ms (pit_ticks : Z) : Z := u32 pit_ticks.

Definition gui_input_enqueue (ev : gui_event) (s : gui_input) : gui_input :=
  mk_gui (ring_push GUI_EVENT_QUEUE_SIZE ev (g_events s)) (g_mouse_state s) (g_screen_w s) (g_screen_h s)
    (g_last_click_time_ms s) (g_last_click_x s) (g_last_click_y s).

Definition gui_input_init (screen_width screen_height : Z) (s : gui_input) : gui_input :=
  let x := s32 (screen_width / 2) in
  let y := s32 (screen_height / 2) in
  mk_gui (ring_reset (g_events s)) (mk_ms x y 0) screen_width screen_height 0 x y.

Definition gui_input_get_mouse_state (s : gui_input) : gui_mouse_state := g_mouse_state s.

Definition gui_input_poll_event (s : gui_input) : option gui_event * gui_input :=
  let '(ev, r) := ring_pop GUI_EVENT_QUEUE_SIZE (g_events s) in
  (ev, mk_gui r (g_mouse_state s) (g_screen_w s) (g_screen_h s) (g_last_click_time_ms s) (g_last_click_x s) (g_last_click_y s)).

(** [wait] is what happens while the thread has yielded. *)
Fixpoint gui_input_wait_event (fuel : nat) (wait : gui_input -> gui_input) (s : gui_input) : option (gui_event * gui_input) :=
  match gui_input_poll_event s with
  | (Some ev, s) => Some (ev, s)
  | (None, s) => match fuel with O => None | S fuel' => gui_input_wait_event fuel' wait (wait s) end
  end.

Definition set_mouse_state (ms : gui_mouse_state) (s : gui_input) : gui_input :=
  mk_gui (g_events s) ms (g_screen_w s) (g_screen_h s) (g_last_click_time_ms s) (g_last_click_x s) (g_last_click_y s).

Definition gui_input_update_mouse_pos_locked (x y : Z) (s : gui_input) : gui_input :=
  let x := if x <? 0 then 0 else x in
  let y := if y <? 0 then 0 else y in
  let x := if (0 <? g_screen_w s) && (s32 (g_screen_w s) <=? x) then s32 (g_screen_w s) - 1 else x in
  let y := if (0 <? g_screen_h s) && (s32 (g_screen_h s) <=? y) then s32 (g_screen_h s) - 1 else y in
  set_mouse_state (mk_ms x y (ms_buttons (g_mouse_state s))) s.

Definition button_event (is_down : bool) (button_mask pit_ticks : Z) (s : gui_input) : gui_event * gui_input :=
  let before := ms_buttons (g_mouse_state s) in
  let now_b := if is_down then Z.lor before button_mask else Z.land before (Z.lnot button_mask mod 2 ^ 8) in
  let s := set_mouse_state (mk_ms (ms_x (g_mouse_state s)) (ms_y (g_mouse_state s)) now_b) s in
  let t := gui_input_now_ms pit_ticks in
  let x := ms_x (g_mouse_state s) in
  let y := ms_y (g_mouse_state s) in
  let ty := if is_down then GUI_EVENT_MOUSE_DOWN else GUI_EVENT_MOUSE_UP in
  if is_down && negb (Z.land button_mask GUI_MOUSE_BUTTON_LEFT =? 0) && (Z.land before GUI_MOUSE_BUTTON_LEFT =? 0) then
    let dt := u32 (t - g_last_click_time_ms s) in
    let ddx := s32 (x - g_last_click_x s) in
    let ddy := s32 (y - g_last_click_y s) in
    let flags := if (dt <=? 300) && (s32 (ddx * ddx + ddy * ddy) <=? 25) then GUI_MOUSE_FLAG_DOUBLE_CLICK else GUI_MOUSE_FLAG_NONE in
    (mk_gev ty t x y now_b flags 0 0, mk_gui (g_events s) (g_mouse_state s) (g_screen_w s) (g_screen_h s) t x y)
  else (mk_gev ty t x y now_b GUI_MOUSE_FLAG_NONE 0 0, s).

Definition gui_input_push_mouse_button_internal (is_down : bool) (button_mask pit_ticks : Z) (s : gui_input) : gui_input :=
  let '(ev, s) := button_event is_down button_mask pit_ticks s in gui_input_enqueue ev s.

Definition button_masks : list Z := [GUI_MOUSE_BUTTON_LEFT; GUI_MOUSE_BUTTON_RIGHT; GUI_MOUSE_BUTTON_MIDDLE].

Definition gui_input_emit_mouse_button_changes (old_buttons new_buttons pit_ticks : Z) (s : gui_input) : gui_input :=
  fold_left (fun s mask =>
    let was_down := negb (Z.land old_buttons mask =? 0) in
    let is_down := negb (Z.land new_buttons mask =? 0) in
    if Bool.eqb was_down is_down then s else gui_input_push_mouse_button_internal is_down mask pit_ticks s) button_masks s.

Definition move_event (pit_ticks btns : Z) (s : gui_input) : gui_event :=
  mk_gev GUI_EVENT_MOUSE_MOVE (gui_input_now_ms pit_ticks) (ms_x (g_mouse_state s)) (ms_y (g_mouse_state s)) btns
    GUI_MOUSE_FLAG_NONE 0 0.

Definition gui_input_push_mouse_delta (ddx ddy btns pit_ticks : Z) (s : gui_input) : gui_input :=
  let old_buttons := ms_buttons (g_mouse_state s) in
  let new_x := s32 (ms_x (g_mouse_state s) + ddx) in
  let new_y := s32 (ms_y (g_mouse_state s) + ddy) in
  let s := gui_input_update_mouse_pos_locked new_x new_y s in
  let s := gui_input_enqueue (move_event pit_ticks btns s) s in
  gui_input_emit_mouse_button_changes old_buttons btns pit_ticks s.

Definition gui_input_push_mouse_absolute (x y btns pit_ticks : Z) (s : gui_input) : gui_input :=
  let old_buttons := ms_buttons (g_mouse_state s) in
  let s := gui_input_update_mouse_pos_locked x y s in
  let s := gui_input_enqueue (move_event pit_ticks btns s) s in
  gui_input_emit_mouse_button_changes old_buttons btns pit_ticks s.

Definition key_gui_event (ty : gui_event_type) (code mods pit_ticks : Z) (s : gui_input) : gui_event :=
  mk_gev ty (gui_input_now_ms pit_ticks) (ms_x (g_mouse_state s)) (ms_y (g_mouse_state s)) (ms_buttons (g_mouse_state s))
    GUI_MOUSE_FLAG_NONE code mods.

Definition gui_input_push_key_down (code mods pit_ticks : Z) (s : gui_input) : gui_input :=
  gui_input_enqueue (key_gui_event GUI_EVENT_KEY_DOWN code mods pit_ticks s) s.

Definition gui_input_push_key_up (code mods pit_ticks : Z) (s : gui_input) : gui_input :=
  gui_input_enqueue (key_gui_event GUI_EVENT_KEY_UP code mods pit_ticks s) s.

(** ** The callbacks *)

Definition gui_modifiers (ke : key_event) : Z :=
  let mods := 0 in
  let mods := if shift ke then Z.lor mods GUI_MOD_SHIFT else mods in
  let mods := if ctrl ke then Z.lor mods GUI_MOD_CTRL else mods in
  if alt ke then Z.lor mods GUI_MOD_ALT else mods.

(** input_wiring.c *)
Definition gui_kbd_callback (pit_ticks : Z) (ke : key_event) (s : gui_input) : gui_input :=
  let mods := gui_modifiers ke in
  let code := if negb (ascii ke =? 0) then u8 (ascii ke) else scancode ke in
  if pressed ke then gui_input_push_key_down code mods pit_ticks s else gui_input_push_key_up code mods pit_ticks s.

Definition gui_mouse_callback (pit_ticks : Z) (me : mouse_event) (s : gui_input) : gui_input :=
  gui_input_push_mouse_absolute (abs_x me) (abs_y me) (buttons me) pit_ticks s.

(** input_bridge.c *)
Definition gui_input_from_key_event (pit_ticks : Z) (ke : key_event) (s : gui_input) : gui_input :=
  let mods := gui_modifiers ke in
  let code := if negb (ascii ke =? 0) then u8 (ascii ke) else u8 (Z.land (scancode ke) 0x7F) in
  if pressed ke then gui_input_push_key_down code mods pit_ticks s else gui_input_push_key_up code mods pit_ticks s.

Definition gui_input_from_mouse_event (pit_ticks : Z) (me : mouse_event) (s : gui_input) : gui_input :=
  gui_input_push_mouse_absolute (abs_x me) (abs_y me) (buttons me) pit_ticks s.

(** The functions the two callback slots of the drivers can point to. *)
Inductive gui_cb := CbWiring | CbBridge.

Definition call_kbd_cb (pit_ticks : Z) (cb : gui_cb) (ke : key_event) (s : gui_input) : gui_input :=
  match cb with CbWiring => gui_kbd_callback pit_ticks ke s | CbBridge => gui_input_from_key_event pit_ticks ke s end.
Definition call_mouse_cb (pit_ticks : Z) (cb : gui_cb) (me : mouse_event) (s : gui_input) : gui_input :=
  match cb with CbWiring => gui_mouse_callback pit_ticks me s | CbBridge => gui_input_from_mouse_event pit_ticks me s end.

(** ** Switching the callbacks *)

Section Mode.
Context {T : Type}.

(** The drivers with the flags of input_mode.c and input_wiring.c. *)
Record input_devices := mk_devices {
  kbd : keyboard gui_cb T; mse : mouse gui_cb; g_gui_input_enabled : bool; g_gui_wiring_active : bool;
}.

Definition gui_input_enable (d : input_devices) : input_devices :=
  if g_gui_input_enabled d then d
  else mk_devices (keyboard_set_gui_callback (Some CbBridge) (keyboard_set_text_callback None (kbd d)))
         (mouse_set_gui_callback (Some CbBridge) (mse d)) true (g_gui_wiring_active d).

Definition gui_input_disable (d : input_devices) : input_devices :=
  if negb (g_gui_input_enabled d) then d
  else mk_devices (keyboard_set_gui_callback None (kbd d)) (mouse_set_gui_callback None (mse d)) false (g_gui_wiring_active d).

Definition gui_wiring_activate (d : input_devices) : input_devices :=
  if g_gui_wiring_active d then d
  else mk_devices (keyboard_set_gui_callback (Some CbWiring) (kbd d)) (mouse_set_gui_callback (Some CbWiring) (mse d))
         (g_gui_input_enabled d) true.

Definition gui_wiring_is_active (d : input_devices) : bool := g_gui_wiring_active d.
End Mode.
