(* ===== verification/Window.v ===== *)
(** Windows (kernel/gui/window.c): heap objects in a doubly linked list kept
    from the top-most to the bottom-most, over the allocator interface; and
    the list of addresses the links represent.

    The window list against an abstract stacking order: creating, raising and
    destroying windows. *)

From S2P Require Import Prelude Memory Alloc Heap.
Local Open Scope Z_scope.

Inductive gui_window_state :=
  | GUI_WINDOW_STATE_NORMAL | GUI_WINDOW_STATE_MOVING | GUI_WINDOW_STATE_RESIZING | GUI_WINDOW_STATE_MINIMIZED
  | GUI_WINDOW_STATE_HIDDEN.

#[export] Instance gui_window_state_eq_dec : EqDecision gui_window_state.
Proof. solve_decision. Defined.

(** The callbacks are pointers, 0 for NULL, as are the title and the data. *)
Record gui_window := mk_win {
  w_id : Z; w_x : Z; w_y : Z; w_width : Z; w_height : Z; w_state : gui_window_state; is_active : bool;
  w_title : Z; w_draw : Z; w_handle_event : Z; w_user_data : Z; w_prev : Z; w_next : Z;
}.

Definition SIZEOF_GUI_WINDOW : Z := 80.

Definition set_links (prev next : Z) (w : gui_window) : gui_window :=
  mk_win (w_id w) (w_x w) (w_y w) (w_width w) (w_height w) (w_state w) (is_active w) (w_title w) (w_draw w) (w_handle_event w)
    (w_user_data w) prev next.
Definition set_active (b : bool) (w : gui_window) : gui_window :=
  mk_win (w_id w) (w_x w) (w_y w) (w_width w) (w_height w) (w_state w) b (w_title w) (w_draw w) (w_handle_event w)
    (w_user_data w) (w_prev w) (w_next w).
Definition set_wstate (st : gui_window_state) (w : gui_window) : gui_window :=
  mk_win (w_id w) (w_x w) (w_y w) (w_width w) (w_height w) st (is_active w) (w_title w) (w_draw w) (w_handle_event w)
    (w_user_data w) (w_prev w) (w_next w).
Definition set_rect (x y width height : Z) (w : gui_window) : gui_window :=
  mk_win (w_id w) x y width height (w_state w) (is_active w) (w_title w) (w_draw w) (w_handle_event w)
    (w_user_data w) (w_prev w) (w_next w).

Section Window.
Context {A : Type} {AL : Allocator A}.

(** The statics of window.c with the window objects and the heap. *)
Record windows := mk_windows {
  wins : Z -> gui_window; g_win_head : Z; g_win_tail : Z; g_next_window_id : Z; wheap : A;
}.

Definition set_wins (f : Z -> gui_window) (s : windows) : windows :=
  mk_windows f (g_win_head s) (g_win_tail s) (g_next_window_id s) (wheap s).
Definition alter_win (p : Z) (f : gui_window -> gui_window) (s : windows) : windows :=
  set_wins (upd (wins s) p (f (wins s p))) s.
Definition set_wprev (p v : Z) (s : windows) : windows := alter_win p (fun w => set_links v (w_next w) w) s.
Definition set_wnext (p v : Z) (s : windows) : windows := alter_win p (fun w => set_links (w_prev w) v w) s.
Definition with_heap (s : windows) (a : A) : windows := mk_windows (wins s) (g_win_head s) (g_win_tail s) (g_next_window_id s) a.
Definition set_head (v : Z) (s : windows) : windows := mk_windows (wins s) v (g_win_tail s) (g_next_window_id s) (wheap s).
Definition set_tail (v : Z) (s : windows) : windows := mk_windows (wins s) (g_win_head s) v (g_next_window_id s) (wheap s).

(** [while (cur) { ...; cur = cur->next; }] applying [f] to every window; [None] for a list longer than the fuel. *)
Fixpoint each_window (fuel : nat) (cur : Z) (f : gui_window -> gui_window) (s : windows) : option windows :=
  if cur =? 0 then Some s
  else
    match fuel with
    | O => None
    | S fuel' => let s := alter_win cur f s in each_window fuel' (w_next (wins s cur)) f s
    end.

Definition gui_window_deactivate_all (fuel : nat) (s : windows) : option windows :=
  each_window fuel (g_win_head s) (set_active false) s.

Definition gui_window_system_init (s : windows) : windows := mk_windows (wins s) 0 0 1 (wheap s).

Definition gui_window_insert_front (p : Z) (s : windows) : windows :=
  let s := set_wprev p 0 s in
  let s := set_wnext p (g_win_head s) s in
  let s := if negb (g_win_head s =? 0) then set_wprev (g_win_head s) p s else s in
  let s := set_head p s in
  if g_win_tail s =? 0 then set_tail p s else s.

Definition gui_window_remove_from_list (p : Z) (s : windows) : windows :=
  let w := wins s p in
  let s := if negb (w_prev w =? 0) then set_wnext (w_prev w) (w_next w) s else set_head (w_next w) s in
  let s := if negb (w_next w =? 0) then set_wprev (w_next w) (w_prev w) s else set_tail (w_prev w) s in
  alter_win p (set_links 0 0) s.

(** The address of the new window, 0 for NULL. *)
Definition gui_create_window (fuel : nat) (x y w h title draw_cb event_cb user_data : Z) (s : windows) : option (Z * windows) :=
  '(p, a) ← a_alloc SIZEOF_GUI_WINDOW (wheap s);
  let s := mk_windows (wins s) (g_win_head s) (g_win_tail s) (g_next_window_id s) a in
  if p =? 0 then Some (0, s)
  else
    s ← gui_window_deactivate_all fuel s;
    let win := mk_win (g_next_window_id s) x y w h GUI_WINDOW_STATE_NORMAL true title draw_cb event_cb user_data 0 0 in
    let s := mk_windows (upd (wins s) p win) (g_win_head s) (g_win_tail s) (u32 (g_next_window_id s + 1)) (wheap s) in
    Some (p, gui_window_insert_front p s).

Definition gui_destroy_window (p : Z) (s : windows) : option windows :=
  if p =? 0 then Some s
  else
    let s := gui_window_remove_from_list p s in
    a ← a_free p (wheap s);
    Some (mk_windows (wins s) (g_win_head s) (g_win_tail s) (g_next_window_id s) a).

Definition gui_window_list_head (s : windows) : Z := g_win_head s.

Definition gui_window_bring_to_front (p : Z) (s : windows) : windows :=
  if (p =? 0) || (p =? g_win_head s) then s
  else gui_window_insert_front p (gui_window_remove_from_list p s).

Definition gui_window_contains_point (w : gui_window) (px py : Z) : bool :=
  if px <? w_x w then false
  else if py <? w_y w then false
  else if s32 (w_x w + s32 (w_width w)) <=? px then false
  else if s32 (w_y w + s32 (w_height w)) <=? py then false
  else true.

(** ** The list the links represent *)

(** From [cur] on, after the window [prev], up to the window [nxt]. *)
Fixpoint dseg (f : Z -> gui_window) (prev cur : Z) (l : list Z) (nxt : Z) : Prop :=
  match l with
  | [] => cur = nxt
  | x :: r => x = cur /\ x <> 0 /\ w_prev (f x) = prev /\ dseg f x (w_next (f x)) r nxt
  end.

(** The windows from the top-most to the bottom-most. *)
Record zorder (s : windows) (l : list Z) : Prop := {
  zo_links : dseg (wins s) 0 (g_win_head s) l 0;
  zo_tail : g_win_tail s = List.last l 0;
  zo_nodup : NoDup l;
}.

Lemma dseg_ext f g prev cur l nxt :
  (forall x, x ∈ l -> w_prev (g x) = w_prev (f x) /\ w_next (g x) = w_next (f x)) -> dseg f prev cur l nxt -> dseg g prev cur l nxt.
Proof.
  revert prev cur. induction l as [|x l IH]; intros prev cur E; cbn [dseg]; [done|].
  destruct (E x) as [E1 E2]; [apply elem_of_cons; by left|]. rewrite E1, E2. intros (H1 & H2 & H3 & H4). split_and!; try done.
  apply IH; [|done]. intros y Hy. apply E. apply elem_of_cons. by right.
Qed.

Lemma dseg_nonzero f prev cur l nxt x : dseg f prev cur l nxt -> x ∈ l -> x <> 0.
Proof.
  revert prev cur. induction l as [|y l IH]; intros prev cur; [by intros _ ?%elem_of_nil|].
  intros (-> & H1 & _ & H2) [->|Hx]%elem_of_cons; [done | by eapply IH].
Qed.

Lemma dseg_app f prev cur l1 l2 nxt :
  dseg f prev cur (l1 ++ l2) nxt <-> exists mid, dseg f prev cur l1 mid /\ dseg f (List.last l1 prev) mid l2 nxt.
Proof.
  revert prev cur. induction l1 as [|x l1 IH]; intros prev cur; cbn [app dseg].
  - cbn [List.last]. split; [by exists cur | by intros (mid & <- & ?)].
  - rewrite IH. assert (forall d, List.last (x :: l1) d = List.last l1 x) as E.
    { clear. revert x. induction l1 as [|y l1 IH]; intros x d; [done|]. cbn [List.last] in *. destruct l1; [done|]. apply IH. }
    rewrite E. naive_solver.
Qed.

Lemma dseg_last_next f prev cur l nxt : dseg f prev cur l nxt -> l <> [] -> w_next (f (List.last l 0)) = nxt.
Proof.
  intros H Hne. destruct (exists_last Hne) as (l' & x & ->).
  rewrite last_last. apply dseg_app in H as (mid & _ & <- & _ & _ & H). done.
Qed.

(** Relinking the ends of a segment. *)
Lemma dseg_set_next f prev cur l nxt v :
  dseg f prev cur l nxt -> l <> [] -> NoDup l ->
  dseg (upd f (List.last l 0) (set_links (w_prev (f (List.last l 0))) v (f (List.last l 0)))) prev cur l v.
Proof.
  intros H Hne Hnd. destruct (exists_last Hne) as (l' & x & ->). rewrite last_last.
  apply NoDup_app in Hnd as (_ & Hd & _). apply dseg_app in H as (mid & H1 & H2 & H3 & H4 & _). subst mid.
  apply dseg_app. exists x. split.
  - eapply dseg_ext; [|exact H1]. intros y Hy. rewrite upd_ne; [done|]. intros ->. apply (Hd y Hy). apply elem_of_cons. by left.
  - cbn [dseg]. rewrite upd_eq. done.
Qed.

Lemma dseg_set_prev f prev cur l nxt v :
  dseg f prev cur l nxt -> l <> [] -> NoDup l -> dseg (upd f cur (set_links v (w_next (f cur)) (f cur))) v cur l nxt.
Proof.
  intros H Hne Hnd. destruct l as [|x l]; [done|]. destruct H as (-> & H1 & H2 & H3). apply NoDup_cons in Hnd as [Hx _].
  cbn [dseg]. rewrite upd_eq. split_and!; try done. eapply dseg_ext; [|exact H3]. intros y Hy.
  rewrite upd_ne; [done|]. by intros ->.
Qed.

Lemma dseg_head f prev cur l nxt : dseg f prev cur l nxt -> cur = hd nxt l.
Proof. destruct l; cbn; [done|]. by intros (-> & _). Qed.

Lemma insert_front_ok p s l :
  zorder s l -> p <> 0 -> p ∉ l -> zorder (gui_window_insert_front p s) (p :: l).
Proof.
  intros [Hl Ht Hnd] Hp Hin. unfold gui_window_insert_front. set (h := g_win_head s).
  assert (h = hd 0 l) as Eh by (by eapply dseg_head). assert (h = 0 <-> l = []) as Eh0.
  { split; [|by intros ->]. destruct l as [|x l]; [done|]. cbn in Eh. intros E.
    destruct (dseg_nonzero _ _ _ _ _ x Hl); [apply elem_of_cons; by left | congruence]. }
  cbn [g_win_head set_wprev set_wnext alter_win set_wins]. fold h.
  destruct (Z.eqb_spec h 0) as [E|E]; cbn [negb].
  - pose proof (proj1 Eh0 E) as ->. cbn in Ht. cbn [set_head g_win_tail set_wnext set_wprev alter_win set_wins]. rewrite Ht. cbn [Z.eqb].
    constructor; cbn; [|done|by apply NoDup_singleton]. rewrite !upd_eq. done.
  - assert (l <> []) as Hne by (intros ->; by destruct E; apply Eh0).
    assert (g_win_tail s <> 0) as Ht0.
    { rewrite Ht. destruct (exists_last Hne) as (l' & x & ->). rewrite last_last. eapply dseg_nonzero; [exact Hl|].
      apply elem_of_app. right. apply elem_of_cons. by left. }
    cbn [set_head g_win_tail set_wprev set_wnext alter_win set_wins]. destruct (Z.eqb_spec (g_win_tail s) 0); [done|].
    assert (h <> p) as Hhp by (intros ->; apply Hin; destruct l; [done|]; cbn in Eh; rewrite Eh; apply elem_of_cons; by left).
    constructor; cbn [g_win_head g_win_tail set_tail].
    + cbn [dseg wins set_wins set_head set_wprev set_wnext alter_win]. rewrite !upd_ne, !upd_eq by done. cbn [w_prev w_next set_links]. split_and!; try done.
      eapply dseg_ext; [|exact (dseg_set_prev _ _ _ _ _ p Hl Hne Hnd)]. intros y Hy.
      assert (y <> p) by (by intros ->). destruct (decide (y = h)) as [->|].
      * fold h. rewrite !upd_eq, !upd_ne by done. done.
      * fold h. by rewrite !upd_ne by done.
    + cbn [set_head set_wprev set_wnext alter_win set_wins g_win_tail]. rewrite Ht. by destruct l.
    + by apply NoDup_cons.
Qed.

(** The empty segment is the one that starts or ends with NULL. *)
Lemma dseg_nil_head f prev cur l : dseg f prev cur l 0 -> cur = 0 <-> l = [].
Proof.
  intros H. split; [|by intros ->]. destruct l as [|x l]; [done|]. intros ->. destruct H as (-> & H & _). done.
Qed.

Lemma dseg_nil_last f cur l nxt : dseg f 0 cur l nxt -> List.last l 0 = 0 <-> l = [].
Proof.
  intros H. split; [|by intros ->]. intros E. destruct (decide (l = [])) as [|Hne]; [done|]. destruct (exists_last Hne) as (l' & x & ->).
  rewrite last_last in E. destruct (dseg_nonzero _ _ _ _ _ x H); [apply elem_of_app; right; apply elem_of_cons; by left | done].
Qed.

Lemma dseg_head_in f prev cur l : dseg f prev cur l 0 -> l <> [] -> cur ∈ l.
Proof. destruct l; [done|]. intros (-> & _) _. apply elem_of_cons. by left. Qed.

Lemma last_in (l : list Z) : l <> [] -> List.last l 0 ∈ l.
Proof. intros Hne. destruct (exists_last Hne) as (l' & x & ->). rewrite last_last. apply elem_of_app. right. apply elem_of_cons. by left. Qed.

Lemma remove_ok p s l1 l2 :
  zorder s (l1 ++ p :: l2) -> zorder (gui_window_remove_from_list p s) (l1 ++ l2).
Proof.
  intros [Hl Ht Hnd]. apply dseg_app in Hl as (mid & H1 & <- & Hp & Hpr & H2).
  apply NoDup_app in Hnd as (N1 & Hd & N2). apply NoDup_cons in N2 as [Hp2 N2].
  assert (p ∉ l1) as Hp1 by (intros Hx; apply (Hd p Hx); apply elem_of_cons; by left).
  assert (forall x, x ∈ l1 -> x ∉ l2) as Hd' by (intros x Hx Hx2; apply (Hd x Hx); apply elem_of_cons; by right).
  unfold gui_window_remove_from_list. rewrite Hpr. set (nx := w_next (wins s p)) in *. set (pv := List.last l1 0).
  pose proof (dseg_nil_last _ _ _ _ H1) as E1. fold pv in E1. pose proof (dseg_nil_head _ _ _ _ H2) as E2.
  set (s1 := if negb (pv =? 0) then _ else _).
  assert (dseg (wins s1) 0 (g_win_head s1) l1 nx /\ dseg (wins s1) p nx l2 0 /\ g_win_tail s1 = g_win_tail s) as (A1 & A2 & A3).
  { unfold s1. destruct (Z.eqb_spec pv 0) as [E|E]; cbn [negb].
    - apply E1 in E as ->. cbn. done.
    - assert (l1 <> []) as Hne by (intros ->; by destruct E; apply E1). split; [by apply (dseg_set_next _ _ _ _ p)|]. split; [|done].
      eapply dseg_ext; [|exact H2]. intros y Hy. cbn. rewrite upd_ne; [done|]. intros <-. apply (Hd' pv); [by apply last_in | done]. }
  clearbody s1. set (s2 := if negb (nx =? 0) then _ else _).
  assert (dseg (wins s2) 0 (g_win_head s2) l1 nx /\ dseg (wins s2) pv nx l2 0 /\ g_win_tail s2 = List.last (l1 ++ l2) 0) as (B1 & B2 & B3).
  { unfold s2. destruct (Z.eqb_spec nx 0) as [E|E]; cbn [negb].
    - apply E2 in E as ->. rewrite app_nil_r. cbn. done.
    - assert (l2 <> []) as Hne by (intros ->; by destruct E; apply E2). split; [|split; [by apply (dseg_set_prev _ p)|]].
      + eapply dseg_ext; [|exact A1]. intros y Hy. cbn. rewrite upd_ne; [done|]. intros <-. apply (Hd' nx Hy). by eapply dseg_head_in.
      + cbn. rewrite A3, Ht. destruct (exists_last Hne) as (l' & x & ->). rewrite app_comm_cons, !app_assoc, !last_last. done. }
  clearbody s2. constructor; cbn [alter_win set_wins g_win_head g_win_tail wins]; [|done|].
  - apply (dseg_ext (wins s2)).
    + intros y Hy. rewrite upd_ne; [done|]. intros <-. by apply elem_of_app in Hy as [Hy|Hy].
    + apply dseg_app. by exists nx.
  - apply NoDup_app. done.
Qed.

(** Everything but the links stays as it is. *)
Definition same_window (w w' : gui_window) : Prop := w' = set_links (w_prev w') (w_next w') w.
Definition same_windows (s s' : windows) : Prop :=
  (forall q, same_window (wins s q) (wins s' q)) /\ g_next_window_id s' = g_next_window_id s /\ wheap s' = wheap s.

Lemma same_windows_refl s : same_windows s s.
Proof. split; [|done]. intros q. unfold same_window. by destruct (wins s q). Qed.

Lemma same_windows_trans s1 s2 s3 : same_windows s1 s2 -> same_windows s2 s3 -> same_windows s1 s3.
Proof.
  intros (H1 & E1 & E1') (H2 & E2 & E2'). split; [|split; congruence]. intros q. specialize (H1 q). specialize (H2 q).
  unfold same_window in *. rewrite H2 at 1. rewrite H1. done.
Qed.

Lemma same_windows_links p a b s t : same_windows s t -> same_windows s (alter_win p (set_links a b) t).
Proof.
  intros H. eapply same_windows_trans; [exact H|]. split; [|done]. intros q. unfold same_window. cbn. unfold upd.
  destruct (Z.eqb_spec p q) as [->|]; destruct (wins t q); done.
Qed.
Lemma same_windows_prev p v s t : same_windows s t -> same_windows s (set_wprev p v t).
Proof. apply (same_windows_links p v (w_next (wins t p))). Qed.
Lemma same_windows_next p v s t : same_windows s t -> same_windows s (set_wnext p v t).
Proof. apply (same_windows_links p (w_prev (wins t p)) v). Qed.
Lemma same_windows_head v s t : same_windows s t -> same_windows s (set_head v t).
Proof. done. Qed.
Lemma same_windows_tail v s t : same_windows s t -> same_windows s (set_tail v t).
Proof. done. Qed.
Lemma same_windows_if (c : bool) s t1 t2 : same_windows s t1 -> same_windows s t2 -> same_windows s (if c then t1 else t2).
Proof. by destruct c. Qed.

Hint Resolve same_windows_refl same_windows_links same_windows_prev same_windows_next same_windows_head same_windows_tail
  same_windows_if : windows.

Lemma insert_front_same p s t : same_windows s t -> same_windows s (gui_window_insert_front p t).
Proof. intros H. unfold gui_window_insert_front. auto 8 with windows. Qed.

Lemma remove_same p s t : same_windows s t -> same_windows s (gui_window_remove_from_list p t).
Proof. intros H. unfold gui_window_remove_from_list. auto 8 with windows. Qed.

(** Taking a window out of a list of distinct windows. *)
Definition without (p : Z) (l : list Z) : list Z := filter (fun q : Z => q <> p) l.

Lemma without_absent p l : p ∉ l -> without p l = l.
Proof.
  unfold without. induction l as [|y l IH]; [done|]. rewrite not_elem_of_cons. intros [Hy Hl]. rewrite filter_cons.
  destruct (decide (y <> p)); [|exfalso; naive_solver]. by rewrite IH.
Qed.

Lemma without_split p l1 l2 : NoDup (l1 ++ p :: l2) -> without p (l1 ++ p :: l2) = l1 ++ l2 /\ p ∉ l1 ++ l2.
Proof.
  intros (N1 & Hd & N2)%NoDup_app. apply NoDup_cons in N2 as [Hp2 _].
  assert (p ∉ l1) as Hp1 by (intros Hx; apply (Hd p Hx); apply elem_of_cons; by left).
  unfold without. rewrite filter_app, filter_cons. destruct (decide (p <> p)); [done|].
  change (without p l1 ++ without p l2 = l1 ++ l2 /\ p ∉ l1 ++ l2). rewrite !without_absent by done. rewrite elem_of_app. tauto.
Qed.

Lemma elem_of_without p q l : q ∈ without p l <-> q ∈ l /\ q <> p.
Proof. unfold without. rewrite list_elem_of_filter. tauto. Qed.

(** Raising a window moves it to the front and changes nothing else. *)
Lemma bring_to_front_ok p s l :
  zorder s l -> p ∈ l -> zorder (gui_window_bring_to_front p s) (p :: without p l) /\ same_windows s (gui_window_bring_to_front p s).
Proof.
  intros ZO Hp. unfold gui_window_bring_to_front. pose proof ZO as [Hl Ht Hnd].
  assert (p <> 0) as Hp0 by (by eapply dseg_nonzero). destruct (Z.eqb_spec p 0); [done|]. cbn [orb].
  apply list_elem_of_split in Hp as (l1 & l2 & ->). destruct (without_split p l1 l2 Hnd) as [-> Hnin].
  destruct (Z.eqb_spec p (g_win_head s)) as [E|E].
  - split; [|apply same_windows_refl]. destruct l1 as [|x l1]; [done|]. exfalso. apply dseg_head in Hl. cbn in Hl.
    apply Hnin. cbn. apply elem_of_cons. left. congruence.
  - split.
    + apply insert_front_ok; [by apply remove_ok | done | done].
    + by apply insert_front_same, remove_same, same_windows_refl.
Qed.

(** Walking over the windows. *)
Lemma each_window_ok fuel prev cur l f s :
  (forall w, w_prev (f w) = w_prev w /\ w_next (f w) = w_next w) ->
  dseg (wins s) prev cur l 0 -> NoDup l -> (length l <= fuel)%nat ->
  exists s', each_window fuel cur f s = Some s' /\
    (forall q, wins s' q = if decide (q ∈ l) then f (wins s q) else wins s q) /\
    g_win_head s' = g_win_head s /\ g_win_tail s' = g_win_tail s /\ g_next_window_id s' = g_next_window_id s /\ wheap s' = wheap s.
Proof.
  intros Hf. revert prev cur l s. induction fuel as [|fuel IH]; intros prev cur [|x l] s Hl Hnd Hlen; cbn [length] in Hlen; try lia;
    cbn [each_window dseg] in *.
  1,2: rewrite Hl; cbn; exists s; split_and!; try done; intros q; by rewrite decide_False by apply not_elem_of_nil.
  destruct Hl as (-> & Hx & Hpr & Hl). apply NoDup_cons in Hnd as [Hxl Hnd]. destruct (Z.eqb_spec cur 0); [done|].
  set (s1 := alter_win cur f s). assert (w_next (wins s1 cur) = w_next (wins s cur)) as -> by (cbn; rewrite upd_eq; apply Hf).
  destruct (IH cur (w_next (wins s cur)) l s1) as (s' & -> & Hq & E1 & E2 & E3 & E4); [| done | lia |].
  { eapply dseg_ext; [|exact Hl]. intros y Hy. cbn. rewrite upd_ne; [done|]. by intros <-. }
  exists s'. split; [done|]. split; [|done]. intros q. rewrite Hq. cbn. unfold upd.
  destruct (decide (q = cur)) as [->|Hqc].
  - rewrite decide_False by done. rewrite Z.eqb_refl, decide_True by (apply elem_of_cons; by left). done.
  - destruct (Z.eqb_spec cur q); [congruence|]. destruct (decide (q ∈ l)).
    + rewrite decide_True by (apply elem_of_cons; by right). done.
    + rewrite decide_False by (rewrite elem_of_cons; tauto). done.
Qed.
End Window.
Arguments windows A : clear implicits.

(** * Specification *)

Section Spec.
Context {A : Type} {AL : Allocator A} {AS : AllocatorSpec A}.
Implicit Type s : windows A.

(** [l] is the stacking order, from the top-most window: the links represent
    it, every window is a live heap object, and the ids are distinct. *)
Record win_inv s (l : list Z) : Prop := {
  wi_order : zorder s l;
  wi_heap : a_inv (wheap s);
  wi_owns p : p ∈ l -> a_owns (wheap s) p SIZEOF_GUI_WINDOW;
  wi_next : 1 <= g_next_window_id s;
  wi_ids p : p ∈ l -> 1 <= w_id (wins s p) < g_next_window_id s;
  wi_inj p q : p ∈ l -> q ∈ l -> w_id (wins s p) = w_id (wins s q) -> p = q;
}.

Lemma same_window_id s s' p : same_windows s s' -> w_id (wins s' p) = w_id (wins s p).
Proof. intros (H & _). specialize (H p). unfold same_window in H. by rewrite H. Qed.

(** An operation that only rearranges the windows. *)
Lemma rearrange_inv s s' l l' :
  win_inv s l -> same_windows s s' -> zorder s' l' -> (forall p, p ∈ l' -> p ∈ l) -> win_inv s' l'.
Proof.
  intros I E ZO Hin. pose proof E as (_ & En & Eh). constructor; rewrite ?En, ?Eh; [done | apply I | | apply I | |].
  - intros p Hp. by apply (wi_owns _ _ I), Hin.
  - intros p Hp. rewrite (same_window_id s s') by done. by apply (wi_ids _ _ I), Hin.
  - intros p q Hp Hq. rewrite !(same_window_id s s') by done. by apply (wi_inj _ _ I); apply Hin.
Qed.

Lemma raise_ok s l p :
  win_inv s l -> p ∈ l ->
  win_inv (gui_window_bring_to_front p s) (p :: without p l) /\ same_windows s (gui_window_bring_to_front p s).
Proof.
  intros I Hp. destruct (bring_to_front_ok p s l (wi_order _ _ I) Hp) as [Z1 S1]. split; [|done].
  eapply rearrange_inv; [done..|]. intros q [->|Hq]%elem_of_cons; [done|]. by apply elem_of_without in Hq as [? _].
Qed.

(** Another heap that keeps the windows. *)
Lemma with_heap_inv s l a :
  win_inv s l -> a_inv a -> (forall p, p ∈ l -> a_owns a p SIZEOF_GUI_WINDOW) -> win_inv (with_heap s a) l.
Proof. intros [[L T N] H1 H2 H3 H4 H5] Ha Ho. by constructor. Qed.

Lemma destroy_ok s l p :
  win_inv s l -> p ∈ l ->
  exists s', gui_destroy_window p s = Some s' /\ win_inv s' (without p l) /\ (forall q, same_window (wins s q) (wins s' q)) /\
    g_next_window_id s' = g_next_window_id s.
Proof.
  intros I Hp. unfold gui_destroy_window. pose proof (wi_order _ _ I) as [Hl Ht Hnd].
  rewrite (proj2 (Z.eqb_neq p 0)) by (by eapply dseg_nonzero). pose proof Hp as Hp'. apply list_elem_of_split in Hp as (l1 & l2 & ->).
  destruct (without_split p l1 l2 Hnd) as [-> Hnin].
  pose proof (remove_same p s s (same_windows_refl s)) as S1. pose proof (remove_ok p s l1 l2 (wi_order _ _ I)) as Z1.
  assert (win_inv (gui_window_remove_from_list p s) (l1 ++ l2)) as I1.
  { eapply rearrange_inv; [done..|]. intros q. rewrite !elem_of_app, elem_of_cons. tauto. }
  set (s1 := gui_window_remove_from_list p s) in *. pose proof S1 as (Sq & En & Eh).
  destruct (a_free_spec p SIZEOF_GUI_WINDOW (wheap s1) (wi_heap _ _ I1)) as (a & Ea & Ia & Hother).
  { rewrite Eh. by apply (wi_owns _ _ I). }
  rewrite Ea. cbn. eexists. split; [done|]. split; [|done]. destruct I1 as [[L1 T1 N1] _ Ow Nx Id Ij]. constructor; cbn; try done.
  intros q Hq. destruct (Hother q SIZEOF_GUI_WINDOW) as [H _]; [by apply Ow | by intros -> | done | done].
Qed.

(** The new window is a fresh object in front of all the others, active while
    the others are not; without memory nothing changes. *)
Lemma create_ok fuel x y w h title draw event data s l :
  win_inv s l -> (length l <= fuel)%nat -> g_next_window_id s < 2 ^ 32 - 1 ->
  exists p s', gui_create_window fuel x y w h title draw event data s = Some (p, s') /\
    (p = 0 -> s' = s) /\
    (p <> 0 -> p ∉ l /\ win_inv s' (p :: l) /\ g_next_window_id s' = g_next_window_id s + 1 /\
      same_window (mk_win (g_next_window_id s) x y w h GUI_WINDOW_STATE_NORMAL true title draw event data 0 0) (wins s' p) /\
      forall q, q ∈ l -> same_window (set_active false (wins s q)) (wins s' q)).
Proof.
  intros I Hf Hid. unfold gui_create_window. pose proof a_max_bound.
  destruct (a_alloc_spec SIZEOF_GUI_WINDOW (wheap s) (wi_heap _ _ I)) as (p & a & -> & Ia & H0 & H1); [unfold SIZEOF_GUI_WINDOW; lia|]. cbn.
  exists p. destruct (Z.eqb_spec p 0) as [->|Hp].
  { eexists. split; [done|]. split; [|done]. intros _. rewrite H0 by done. by destruct s. }
  destruct (H1 Hp) as [Hown Hold]. assert (p ∉ l) as Hpl.
  { intros Hin. destruct (Hold p SIZEOF_GUI_WINDOW (wi_owns _ _ I p Hin)) as (_ & Hd & _); unfold SIZEOF_GUI_WINDOW in *; lia. }
  unfold gui_window_deactivate_all. cbn. destruct (wi_order _ _ I) as [Hl Ht Hnd].
  destruct (each_window_ok fuel 0 (g_win_head s) l (set_active false) (with_heap s a)) as (s1 & E1 & Hq & Eh & Et & En & Ew); try done.
  unfold with_heap in E1. rewrite E1. cbn. set (s2 := mk_windows (upd _ _ _) _ _ _ _).
  eexists. split; [done|]. split; [done|]. intros _.
  assert (zorder s2 l) as Z2.
  { constructor; cbn; rewrite ?Eh, ?Et; try done. eapply dseg_ext; [|exact Hl]. intros q Hin. cbn. rewrite upd_ne by congruence.
    rewrite Hq, decide_True by done. done. }
  pose proof (insert_front_ok p s2 l Z2 Hp Hpl) as Z3. pose proof (insert_front_same p s2 s2 (same_windows_refl s2)) as S3.
  pose proof S3 as (Sq & Sn & Sh). cbn in Sn, Sh. rewrite En in Sn. cbn in Sn.
  rewrite u32_small in Sn by (pose proof (wi_next _ _ I); lia).
  assert (same_window (mk_win (g_next_window_id s) x y w h GUI_WINDOW_STATE_NORMAL true title draw event data 0 0)
            (wins (gui_window_insert_front p s2) p)) as Hnew.
  { specialize (Sq p). cbn in Sq. rewrite upd_eq, En in Sq. done. }
  assert (forall q, q ∈ l -> same_window (set_active false (wins s q)) (wins (gui_window_insert_front p s2) q)) as Hq'.
  { intros q Hin. specialize (Sq q). cbn in Sq. rewrite upd_ne in Sq by congruence. by rewrite Hq, decide_True in Sq by done. }
  split; [done|]. split; [|by split].
  assert (w_id (wins (gui_window_insert_front p s2) p) = g_next_window_id s) as Idp by (rewrite Hnew; done).
  assert (forall q, q ∈ l -> w_id (wins (gui_window_insert_front p s2) q) = w_id (wins s q)) as Idq by (intros q Hin; rewrite (Hq' q Hin); done).
  pose proof (wi_next _ _ I). pose proof (wi_ids _ _ I) as Hids.
  constructor; rewrite ?Sh, ?Sn, ?Ew; cbn; try done; try lia.
  - intros q [->|Hin]%elem_of_cons; [done|]. apply (Hold q); [by apply (wi_owns _ _ I) | done].
  - intros q [->|Hin]%elem_of_cons; [lia|]. rewrite Idq by done. specialize (Hids q Hin). lia.
  - intros q r [->|Hin]%elem_of_cons [->|Hin']%elem_of_cons; rewrite ?Idp, ?Idq by done; [done | | |by apply (wi_inj _ _ I)].
    + specialize (Hids r Hin'). lia.
    + specialize (Hids q Hin). lia.
Qed.

(** C17: the doubly linked list implements a stacking order.  A window is
    created in front of all others, which lose the focus; raising moves a
    window to the front and keeps the order of the rest; destroying takes it
    out and frees it.  The invariant, with distinct window ids and every window
    a live heap object, is preserved by all of them. *)
Theorem window_stack_correct s l :
  win_inv s l ->
  (forall fuel x y w h title draw event data,
    (length l <= fuel)%nat -> g_next_window_id s < 2 ^ 32 - 1 ->
    exists p s', gui_create_window fuel x y w h title draw event data s = Some (p, s') /\
      (p = 0 -> s' = s) /\
      (p <> 0 -> p ∉ l /\ win_inv s' (p :: l) /\ g_next_window_id s' = g_next_window_id s + 1 /\
        same_window (mk_win (g_next_window_id s) x y w h GUI_WINDOW_STATE_NORMAL true title draw event data 0 0) (wins s' p) /\
        forall q, q ∈ l -> same_window (set_active false (wins s q)) (wins s' q))) /\
  (forall p, p ∈ l ->
    win_inv (gui_window_bring_to_front p s) (p :: without p l) /\ same_windows s (gui_window_bring_to_front p s)) /\
  (forall p, p ∈ l ->
    exists s', gui_destroy_window p s = Some s' /\ win_inv s' (without p l) /\ (forall q, same_window (wins s q) (wins s' q)) /\
      g_next_window_id s' = g_next_window_id s).
Proof.
  intros I. split; [|split].
  - intros. by apply create_ok.
  - intros. by apply raise_ok.
  - intros. by apply destroy_ok.
Qed.
End Spec.

Definition no_windows : windows heap :=
  gui_window_system_init (mk_windows (fun _ => mk_win 0 0 0 0 0 GUI_WINDOW_STATE_NORMAL true 0 0 0 0 0 0) 0 0 0 big_heap).

Lemma no_windows_inv : win_inv no_windows [].
Proof. constructor; try (intros; by apply not_elem_of_nil in H); [|apply big_heap_inv|done]. by constructor; [| |apply NoDup_nil]. Qed.

(** On an empty screen. *)
Lemma window_stack_correct_witness :
  exists p s', gui_create_window 1 40 40 648 408 0 0 0 0 no_windows = Some (p, s') /\ (p <> 0 -> win_inv s' [p]).
Proof.
  destruct (proj1 (window_stack_correct no_windows [] no_windows_inv) 1%nat 40 40 648 408 0 0 0 0) as (p & s' & E & _ & H).
  - cbn. lia.
  - reflexivity.
  - exists p, s'. split; [exact E | apply H].
Defined.
