(* ===== verification/Terminal.v ===== *)
(** The GUI terminal (kernel/apps/terminal_gui.c): an 80 by 25 grid of
    characters with a cursor, in a heap object shown by a window; its
    picture is drawn in Apps.v.

    The GUI terminal stays on its grid; what a line feed at the bottom does;
    and the way of a key from the keyboard interrupt to the grid. *)

From S2P Require Import Prelude Memory Alloc Window Ring Keyboard Mouse Input Heap.
Local Open Scope Z_scope.

Definition TGUI_COLS : Z := 80.
Definition TGUI_ROWS : Z := 25.
Definition TGUI_FONT_W : Z := 8.
Definition TGUI_FONT_H : Z := 16.
Definition PADDING : Z := 4.

(** The three arrays are indexed by row and column. *)
Record terminal_gui := mk_tg {
  cells : Z -> Z -> Z; tfg : Z -> Z -> Z; tbg : Z -> Z -> Z;
  cur_col : Z; cur_row : Z; cur_fg : Z; cur_bg : Z; win_id : Z;
}.

Definition set_cursor (row col : Z) (t : terminal_gui) : terminal_gui :=
  mk_tg (cells t) (tfg t) (tbg t) col row (cur_fg t) (cur_bg t) (win_id t).

Definition upd2 (f : Z -> Z -> Z) (r c v : Z) : Z -> Z -> Z := upd f r (upd (f r) c v).

(** One cell of the three arrays. *)
Definition put_cell (r c ch fg bg : Z) (t : terminal_gui) : terminal_gui :=
  mk_tg (upd2 (cells t) r c ch) (upd2 (tfg t) r c fg) (upd2 (tbg t) r c bg) (cur_col t) (cur_row t) (cur_fg t) (cur_bg t) (win_id t).

Definition copy_row (t : terminal_gui) (r : Z) : terminal_gui :=
  for_up (Z.to_nat TGUI_COLS) 0 (fun c t => put_cell (r - 1) c (cells t r c) (tfg t r c) (tbg t r c) t) t.

Definition blank_row (r fg bg : Z) (t : terminal_gui) : terminal_gui :=
  for_up (Z.to_nat TGUI_COLS) 0 (fun c t => put_cell r c 32 fg bg t) t.

Definition tgui_scroll_up (t : terminal_gui) : terminal_gui :=
  let t := for_up (Z.to_nat (TGUI_ROWS - 1)) 1 (fun r t => copy_row t r) t in
  let t := blank_row (TGUI_ROWS - 1) 0x0F 0x00 t in
  if 0 <? cur_row t then set_cursor (cur_row t - 1) (cur_col t) t else t.

(** To the start of the next line. *)
Definition next_line (t : terminal_gui) : terminal_gui :=
  let t := set_cursor (cur_row t) 0 t in
  if TGUI_ROWS <=? cur_row t + 1 then tgui_scroll_up t else set_cursor (u8 (cur_row t + 1)) (cur_col t) t.

Definition tgui_put_char_raw (t : terminal_gui) (c : Z) : terminal_gui :=
  if c =? 10 then next_line t
  else if c =? 13 then set_cursor (cur_row t) 0 t
  else if c =? 9 then
    let next := u8 (Z.land (cur_col t + 4) (Z.lnot 3 mod 2 ^ 32)) in
    if TGUI_COLS <=? next then next_line t else set_cursor (cur_row t) next t
  else if c =? 8 then
    let t := if 0 <? cur_col t then set_cursor (cur_row t) (cur_col t - 1) t else t in
    mk_tg (upd2 (cells t) (cur_row t) (cur_col t) 32) (tfg t) (tbg t) (cur_col t) (cur_row t) (cur_fg t) (cur_bg t) (win_id t)
  else
    let t := if TGUI_COLS <=? cur_col t then next_line t else t in
    let t := put_cell (cur_row t) (cur_col t) c (cur_fg t) (cur_bg t) t in
    set_cursor (cur_row t) (u8 (cur_col t + 1)) t.

(** The terminal that [terminal_gui_open] sets up. *)
Definition tgui_fresh : terminal_gui :=
  let t := mk_tg (fun _ _ => 0) (fun _ _ => 0) (fun _ _ => 0) 0 0 0x0F 0x00 0 in
  for_up (Z.to_nat TGUI_ROWS) 0 (fun r t => blank_row r (cur_fg t) (cur_bg t) t) t.

Section Terminal.
Context {A : Type} {AL : Allocator A}.

(** [g_tgui], the terminals in memory and the window system. *)
Record tgui_sys := mk_tsys { g_tgui : Z; terms : Z -> terminal_gui; twins : windows A }.

Definition on_tgui (f : terminal_gui -> terminal_gui) (s : tgui_sys) : tgui_sys :=
  if g_tgui s =? 0 then s else mk_tsys (g_tgui s) (upd (terms s) (g_tgui s) (f (terms s (g_tgui s)))) (twins s).

Definition terminal_gui_write_char (c : Z) (s : tgui_sys) : tgui_sys := on_tgui (fun t => tgui_put_char_raw t c) s.

(** A string, or its first [len] bytes, as the list of its characters. *)
Definition terminal_gui_write (str : list Z) (s : tgui_sys) : tgui_sys := on_tgui (fun t => fold_left tgui_put_char_raw str t) s.
Definition terminal_gui_write_len (str : list Z) (len : nat) (s : tgui_sys) : tgui_sys :=
  on_tgui (fun t => fold_left tgui_put_char_raw (take len str) t) s.

Definition terminal_gui_move_cursor (col row : Z) (s : tgui_sys) : tgui_sys :=
  let col := if TGUI_COLS <=? col then TGUI_COLS - 1 else col in
  let row := if TGUI_ROWS <=? row then TGUI_ROWS - 1 else row in
  on_tgui (set_cursor row col) s.

Definition terminal_gui_set_color (fg bg : Z) (s : tgui_sys) : tgui_sys :=
  on_tgui (fun t => mk_tg (cells t) (tfg t) (tbg t) (cur_col t) (cur_row t) fg bg (win_id t)) s.
Definition terminal_gui_reset_color (s : tgui_sys) : tgui_sys := terminal_gui_set_color 0x0F 0x00 s.

Definition terminal_gui_clear_line_to_end (s : tgui_sys) : tgui_sys :=
  on_tgui (fun t => for_up (Z.to_nat (TGUI_COLS - cur_col t)) (cur_col t)
                      (fun c t => put_cell (cur_row t) c 32 (cur_fg t) (cur_bg t) t) t) s.
Definition terminal_gui_clear_line (s : tgui_sys) : tgui_sys :=
  on_tgui (fun t => let t := blank_row (cur_row t) (cur_fg t) (cur_bg t) t in set_cursor (cur_row t) 0 t) s.
Definition terminal_gui_clear_screen (s : tgui_sys) : tgui_sys :=
  on_tgui (fun t => let t := for_up (Z.to_nat TGUI_ROWS) 0 (fun r t => blank_row r (cur_fg t) (cur_bg t) t) t in set_cursor 0 0 t) s.

Definition terminal_gui_cursor_col (s : tgui_sys) : Z := if g_tgui s =? 0 then 0 else cur_col (terms s (g_tgui s)).
Definition terminal_gui_cursor_row (s : tgui_sys) : Z := if g_tgui s =? 0 then 0 else cur_row (terms s (g_tgui s)).

Definition PROMPT : list Z := 10 :: bytes_of "AIOS> ".

Definition tgui_handle_event (ev : gui_event) (s : tgui_sys) : tgui_sys :=
  if g_tgui s =? 0 then s
  else if decide (ev_type ev = GUI_EVENT_KEY_DOWN) then
    let key := keycode ev in
    if (key =? 10) || (key =? 13) then terminal_gui_write PROMPT s
    else if key =? 8 then terminal_gui_write_char 8 s
    else if (0x20 <=? key) && (key <=? 0x7E) then terminal_gui_write_char key s
    else s
  else s.

Definition SIZEOF_TERMINAL_GUI : Z := 6008.

(** Stands for the pointers the kernel hands to the terminal's window. *)
Definition TERM_CB : Z := 1.

(** The pointer to the terminal, 0 for NULL.  [title], [draw_cb] and
    [event_cb] are the pointers passed on to the window. *)
Definition terminal_gui_open (fuel : nat) (title draw_cb event_cb : Z) (s : tgui_sys) : option (Z * tgui_sys) :=
  if negb (g_tgui s =? 0) then Some (g_tgui s, s)
  else
    '(p, a) ← a_alloc SIZEOF_TERMINAL_GUI (wheap (twins s));
    let w := mk_windows (wins (twins s)) (g_win_head (twins s)) (g_win_tail (twins s)) (g_next_window_id (twins s)) a in
    if p =? 0 then Some (0, mk_tsys 0 (terms s) w)
    else
      '(win, w) ← gui_create_window fuel 40 40 (TGUI_COLS * TGUI_FONT_W + PADDING * 2) (TGUI_ROWS * TGUI_FONT_H + PADDING * 2)
                    title draw_cb event_cb p w;
      if win =? 0 then
        a ← a_free p (wheap w);
        Some (0, mk_tsys 0 (upd (terms s) p tgui_fresh) (mk_windows (wins w) (g_win_head w) (g_win_tail w) (g_next_window_id w) a))
      else
        let t := tgui_fresh in
        let t := mk_tg (cells t) (tfg t) (tbg t) (cur_col t) (cur_row t) (cur_fg t) (cur_bg t) (w_id (wins w win)) in
        Some (p, terminal_gui_write (bytes_of "AIOS GUI terminal" ++ PROMPT) (mk_tsys p (upd (terms s) p t) w)).

Definition terminal_gui_close (p : Z) (s : tgui_sys) : option tgui_sys :=
  if p =? 0 then Some s
  else
    let g := if g_tgui s =? p then 0 else g_tgui s in
    a ← a_free p (wheap (twins s));
    let w := twins s in
    Some (mk_tsys g (terms s) (mk_windows (wins w) (g_win_head w) (g_win_tail w) (g_next_window_id w) a)).

End Terminal.

(** * Specification *)

Record tg_ok (t : terminal_gui) : Prop := { tg_row : 0 <= cur_row t < TGUI_ROWS; tg_col : 0 <= cur_col t <= TGUI_COLS }.

(** ** The loops over the grid *)

(** Everything of a terminal but its cells. *)
Definition frame_of (t : terminal_gui) := (cur_col t, cur_row t, cur_fg t, cur_bg t, win_id t).

Lemma upd2_spec f r c v x y : upd2 f r c v x y = if decide (r = x /\ c = y) then v else f x y.
Proof.
  unfold upd2, upd. destruct (Z.eqb_spec r x) as [->|]; [destruct (Z.eqb_spec c y) as [->|]|]; destruct (decide _); naive_solver.
Qed.

Lemma blank_cells_ok n r fg bg t :
  let s := for_up n 0 (fun c t => put_cell r c 32 fg bg t) t in
  frame_of s = frame_of t /\ forall x y, cells s x y = if decide (x = r /\ 0 <= y < Z.of_nat n) then 32 else cells t x y.
Proof.
  intros s. subst s. match goal with |- context [for_up n 0 ?b t] => set (body := b) end.
  pose proof (for_up_inv (fun k s => frame_of s = frame_of t /\ forall x y, cells s x y = if decide (x = r /\ 0 <= y < k) then 32 else cells t x y)
    n 0 body t) as H. rewrite Z.add_0_l in H. apply H; clear H.
  - split; [done|]. intros x y. by rewrite decide_False by lia.
  - intros k s Hk [E1 E2]. split; [exact E1|]. intros x y. cbn. rewrite upd2_spec, E2.
    destruct (decide (r = x /\ k = y)), (decide (x = r /\ 0 <= y < k)), (decide (x = r /\ 0 <= y < k + 1)); naive_solver lia.
Qed.

Lemma copy_cells_ok n r t :
  let s := for_up n 0 (fun c t => put_cell (r - 1) c (cells t r c) (tfg t r c) (tbg t r c) t) t in
  frame_of s = frame_of t /\ forall x y, cells s x y = if decide (x = r - 1 /\ 0 <= y < Z.of_nat n) then cells t r y else cells t x y.
Proof.
  intros s. subst s. match goal with |- context [for_up n 0 ?b t] => set (body := b) end.
  pose proof (for_up_inv (fun k s => frame_of s = frame_of t /\
      forall x y, cells s x y = if decide (x = r - 1 /\ 0 <= y < k) then cells t r y else cells t x y) n 0 body t) as H.
  rewrite Z.add_0_l in H. apply H; clear H.
  - split; [done|]. intros x y. by rewrite decide_False by lia.
  - intros k s Hk [E1 E2]. split; [exact E1|]. intros x y. cbn. rewrite upd2_spec, !E2. rewrite (decide_False (P := r = r - 1 /\ _)) by lia.
    repeat case_decide; naive_solver lia.
Qed.

Lemma cols_nat : Z.of_nat (Z.to_nat TGUI_COLS) = TGUI_COLS.
Proof. reflexivity. Qed.

Lemma blank_row_ok r fg bg t :
  frame_of (blank_row r fg bg t) = frame_of t /\
  forall x y, cells (blank_row r fg bg t) x y = if decide (x = r /\ 0 <= y < TGUI_COLS) then 32 else cells t x y.
Proof. unfold blank_row. generalize cols_nat. generalize (Z.to_nat TGUI_COLS). intros n <-. apply blank_cells_ok. Qed.

Lemma copy_row_ok r t :
  frame_of (copy_row t r) = frame_of t /\
  forall x y, cells (copy_row t r) x y = if decide (x = r - 1 /\ 0 <= y < TGUI_COLS) then cells t r y else cells t x y.
Proof. unfold copy_row. generalize cols_nat. generalize (Z.to_nat TGUI_COLS). intros n <-. apply copy_cells_ok. Qed.

Definition on_grid (r c : Z) : Prop := 0 <= r < TGUI_ROWS /\ 0 <= c < TGUI_COLS.

(** The two terminals agree outside the 80 by 25 cells of the arrays. *)
Definition off_grid_same (t t' : terminal_gui) : Prop :=
  forall r c, ~ on_grid r c -> cells t' r c = cells t r c /\ tfg t' r c = tfg t r c /\ tbg t' r c = tbg t r c.

#[local] Instance off_grid_same_refl : Reflexive off_grid_same.
Proof. by intros t r c _. Qed.
#[local] Instance off_grid_same_trans : Transitive off_grid_same.
Proof. intros t u v H1 H2 r c Hg. destruct (H1 r c Hg) as (<- & <- & <-). by apply H2. Qed.

Lemma put_cell_off r c ch fg bg t : on_grid r c -> off_grid_same t (put_cell r c ch fg bg t).
Proof.
  intros Hg x y Hxy. cbn. rewrite !upd2_spec, !decide_False; [done|..]; intros [-> ->]; done.
Qed.

(** A loop of in-range assignments. *)
Lemma loop_off n i (body : Z -> terminal_gui -> terminal_gui) t :
  (forall j u, i <= j < i + Z.of_nat n -> off_grid_same u (body j u)) -> off_grid_same t (for_up n i body t).
Proof.
  intros Hb. apply (for_up_inv (fun _ u => off_grid_same t u)); [reflexivity|]. intros j u Hj Hu. etransitivity; [exact Hu | by apply Hb].
Qed.

Lemma blank_row_off r fg bg t : 0 <= r < TGUI_ROWS -> off_grid_same t (blank_row r fg bg t).
Proof.
  intros Hr. unfold blank_row. generalize cols_nat. generalize (Z.to_nat TGUI_COLS). intros n En. apply loop_off. intros j u Hj.
  apply put_cell_off. split; [done | lia].
Qed.

Lemma copy_row_off r t : 1 <= r < TGUI_ROWS -> off_grid_same t (copy_row t r).
Proof.
  intros Hr. unfold copy_row. generalize cols_nat. generalize (Z.to_nat TGUI_COLS). intros n En. apply loop_off. intros j u Hj.
  apply put_cell_off. split; lia.
Qed.

#[local] Opaque blank_row copy_row.

Lemma shift_rows_ok n t :
  let s := for_up n 1 (fun r t => copy_row t r) t in
  frame_of s = frame_of t /\
  forall x y, 0 <= x -> 0 <= y < TGUI_COLS -> cells s x y = if decide (x < Z.of_nat n) then cells t (x + 1) y else cells t x y.
Proof.
  intros s. subst s.
  pose proof (for_up_inv (fun k s => frame_of s = frame_of t /\
      forall x y, 0 <= x -> 0 <= y < TGUI_COLS -> cells s x y = if decide (x < k - 1) then cells t (x + 1) y else cells t x y)
    n 1 (fun r t => copy_row t r) t) as H. cbv beta in H. rewrite Z.add_simpl_l in H. apply H; clear H.
  - split; [done|]. intros x y Hx Hy. by rewrite decide_False by lia.
  - intros k s Hk [E1 E2]. destruct (copy_row_ok k s) as [F1 F2]. split; [congruence|]. intros x y Hx Hy. rewrite F2, !E2 by lia.
    destruct (decide (x = k - 1 /\ 0 <= y < TGUI_COLS)) as [[-> _]|].
    + rewrite (decide_False (P := k < k - 1)), decide_True by lia. f_equal. lia.
    + destruct (decide (x < k - 1)), (decide (x < k + 1 - 1)); try done; lia.
Qed.

Definition shift_rows (t : terminal_gui) : terminal_gui := for_up (Z.to_nat (TGUI_ROWS - 1)) 1 (fun r t => copy_row t r) t.

Definition cursor_up (t : terminal_gui) : terminal_gui := if 0 <? cur_row t then set_cursor (cur_row t - 1) (cur_col t) t else t.

Lemma scroll_up_eq t : tgui_scroll_up t = cursor_up (blank_row (TGUI_ROWS - 1) 0x0F 0x00 (shift_rows t)).
Proof. reflexivity. Qed.

Lemma rows_nat : Z.of_nat (Z.to_nat (TGUI_ROWS - 1)) = TGUI_ROWS - 1.
Proof. reflexivity. Qed.

#[local] Opaque tgui_scroll_up.

(** Scrolling moves every row up by one, blanks the last row, and takes the
    cursor along. *)
Lemma scroll_up_ok t :
  cur_row (tgui_scroll_up t) = (if 0 <? cur_row t then cur_row t - 1 else cur_row t) /\ cur_col (tgui_scroll_up t) = cur_col t /\
  cur_fg (tgui_scroll_up t) = cur_fg t /\ cur_bg (tgui_scroll_up t) = cur_bg t /\
  forall r c, 0 <= r < TGUI_ROWS -> 0 <= c < TGUI_COLS ->
    cells (tgui_scroll_up t) r c = if decide (r = TGUI_ROWS - 1) then 32 else cells t (r + 1) c.
Proof.
  rewrite scroll_up_eq. destruct (shift_rows_ok (Z.to_nat (TGUI_ROWS - 1)) t) as [E1 E2]. fold (shift_rows t) in E1, E2.
  rewrite rows_nat in E2. generalize dependent (shift_rows t). intros s E1 E2.
  destruct (blank_row_ok (TGUI_ROWS - 1) 0x0F 0x00 s) as [B1 B2]. generalize dependent (blank_row (TGUI_ROWS - 1) 0x0F 0x00 s). intros b B1 B2.
  rewrite E1 in B1. unfold frame_of in B1. injection B1 as C1 C2 C3 C4 _.
  assert (forall r c, 0 <= r < TGUI_ROWS -> 0 <= c < TGUI_COLS -> cells b r c = if decide (r = TGUI_ROWS - 1) then 32 else cells t (r + 1) c) as Hc.
  { intros r c Hr Hc. rewrite B2, E2 by lia. destruct (decide (r = TGUI_ROWS - 1 /\ 0 <= c < TGUI_COLS)), (decide (r = TGUI_ROWS - 1)); try lia; try done.
    by rewrite decide_True by (unfold TGUI_ROWS in *; lia). }
  rewrite <- C1, <- C2, <- C3, <- C4. unfold cursor_up. destruct (Z.ltb_spec 0 (cur_row b)); done.
Qed.

(** ** Staying on the grid *)

Lemma shift_rows_off t : off_grid_same t (shift_rows t).
Proof.
  unfold shift_rows. generalize rows_nat. generalize (Z.to_nat (TGUI_ROWS - 1)). intros n En. apply loop_off. intros j u Hj. apply copy_row_off. lia.
Qed.

Lemma last_row : 0 <= TGUI_ROWS - 1 < TGUI_ROWS.
Proof. unfold TGUI_ROWS. lia. Qed.

Lemma cursor_up_off b : off_grid_same b (cursor_up b).
Proof. unfold cursor_up. by destruct (0 <? cur_row b). Qed.

Lemma scroll_up_off t : off_grid_same t (tgui_scroll_up t).
Proof.
  rewrite scroll_up_eq.
  exact (transitivity (shift_rows_off t) (transitivity (blank_row_off _ _ _ _ last_row) (cursor_up_off _))).
Qed.

(** The operation keeps the cursor in bounds and writes inside the grid only. *)
Definition step_ok (t t' : terminal_gui) : Prop := tg_ok t' /\ off_grid_same t t'.

Lemma next_line_ok t : tg_ok t -> step_ok t (next_line t) /\ cur_col (next_line t) = 0.
Proof.
  intros [Hr Hc]. unfold next_line. cbn [cur_row set_cursor]. unfold TGUI_ROWS, TGUI_COLS in *.
  destruct (Z.leb_spec 25 (cur_row t + 1)).
  - destruct (scroll_up_ok (set_cursor (cur_row t) 0 t)) as (E1 & E2 & _). cbn [cur_row cur_col set_cursor] in E1, E2.
    split; [|done]. split; [|exact (scroll_up_off (set_cursor (cur_row t) 0 t))].
    constructor; rewrite ?E1, ?E2; unfold TGUI_ROWS, TGUI_COLS; [destruct (Z.ltb_spec 0 (cur_row t))|]; lia.
  - cbn [cur_col set_cursor]. split; [|done]. split; [|by intros r c _].
    constructor; cbn; unfold TGUI_ROWS, TGUI_COLS; rewrite ?u8_small; lia.
Qed.

Lemma tab_stop col : 0 <= col <= 80 -> u8 (Z.land (col + 4) (Z.lnot 3 mod 2 ^ 32)) = 4 * ((col + 4) / 4).
Proof.
  intros H. change 3 with (2 ^ 2 - 1) at 1. rewrite (land_align _ 2 32) by lia. change (2 ^ 2) with 4.
  apply u8_small. change (2 ^ 8) with 256. dlia.
Qed.

(** Storing a character and advancing, from a column inside the line. *)
Lemma store_ok t c : tg_ok t -> cur_col t < TGUI_COLS ->
  step_ok t (set_cursor (cur_row t) (u8 (cur_col t + 1)) (put_cell (cur_row t) (cur_col t) c (cur_fg t) (cur_bg t) t)).
Proof.
  intros [Hr Hc] Hlt. unfold TGUI_COLS in *. split.
  - constructor; cbn; [done|]. unfold TGUI_COLS. rewrite u8_small; lia.
  - transitivity (put_cell (cur_row t) (cur_col t) c (cur_fg t) (cur_bg t) t); [|by intros r y _].
    apply put_cell_off. unfold on_grid, TGUI_COLS. lia.
Qed.

Lemma put_char_ok t c : tg_ok t -> step_ok t (tgui_put_char_raw t c).
Proof.
  intros O. pose proof O as [Hr Hc]. destruct (next_line_ok t O) as [On En]. unfold tgui_put_char_raw.
  assert (forall col, 0 <= col <= TGUI_COLS -> step_ok t (set_cursor (cur_row t) col t)) as Hmove by (split; [by constructor | by intros r y _]).
  destruct (c =? 10); [done|]. destruct (c =? 13); [apply Hmove; unfold TGUI_COLS; lia|]. destruct (c =? 9).
  { rewrite tab_stop by done. destruct (Z.leb_spec TGUI_COLS (4 * ((cur_col t + 4) / 4))); [done|].
    apply Hmove. pose proof (Z.div_pos (cur_col t + 4) 4). lia. }
  destruct (c =? 8).
  { set (u := if 0 <? cur_col t then _ else t). assert (tg_ok u /\ cur_col u < TGUI_COLS /\ off_grid_same t u) as (Ou & Hu & Eu).
    { subst u. unfold TGUI_COLS in *. destruct (Z.ltb_spec 0 (cur_col t)); (split; [constructor; cbn; unfold TGUI_COLS; lia|]); cbn; split; try lia; by intros r y _. }
    split; [destruct Ou; by constructor|]. etransitivity; [exact Eu|].
    intros r y Hg. cbn. rewrite upd2_spec, decide_False; [done|]. intros [<- <-]. apply Hg. split; [apply Ou | destruct Ou; lia]. }
  destruct (Z.leb_spec TGUI_COLS (cur_col t)); cbn zeta; [|exact (store_ok t c O H)].
  destruct On as [On1 On2]. destruct (store_ok (next_line t) c) as [S1 S2]; [done | rewrite En; unfold TGUI_COLS; lia|].
  split; [done | by etransitivity].
Qed.

(** The cursor is on a cell of the grid; or it is right behind the last cell of
    its row, in which the printable character [c] has just been put, and the
    next character will begin a new line. *)
Definition on_cell (t : terminal_gui) : Prop := on_grid (cur_row t) (cur_col t).
Definition control (c : Z) : Prop := c = 8 \/ c = 9 \/ c = 10 \/ c = 13.
Definition cursor_after (c : Z) (t : terminal_gui) : Prop :=
  on_cell t \/ ~ control c /\ 0 <= cur_row t < TGUI_ROWS /\ cur_col t = TGUI_COLS /\ cells t (cur_row t) (TGUI_COLS - 1) = c.

Lemma store_cursor t c : tg_ok t -> cur_col t < TGUI_COLS -> ~ control c ->
  cursor_after c (set_cursor (cur_row t) (u8 (cur_col t + 1)) (put_cell (cur_row t) (cur_col t) c (cur_fg t) (cur_bg t) t)).
Proof.
  intros [Hr Hc] Hlt Hn. unfold cursor_after, on_cell, on_grid, TGUI_COLS in *. cbn [cur_row cur_col set_cursor cells put_cell]. rewrite u8_small by lia.
  destruct (decide (cur_col t = 79)) as [E|]; [right | left; lia]. split; [done|]. split; [done|]. split; [lia|]. rewrite E, upd2_spec, decide_True by done. done.
Qed.

Lemma put_char_cursor t c : tg_ok t -> cursor_after c (tgui_put_char_raw t c).
Proof.
  intros O. pose proof O as [Hr Hc]. destruct (next_line_ok t O) as [[On _] En]. unfold tgui_put_char_raw.
  assert (on_cell (next_line t)) as Hn by (unfold on_cell, on_grid; rewrite En; split; [apply On | unfold TGUI_COLS; lia]).
  assert (forall col, 0 <= col < TGUI_COLS -> on_cell (set_cursor (cur_row t) col t)) as Hm by by intros col ?.
  destruct (Z.eqb_spec c 10); [by left|]. destruct (Z.eqb_spec c 13); [left; apply Hm; unfold TGUI_COLS; lia|]. destruct (Z.eqb_spec c 9).
  { left. rewrite tab_stop by done. destruct (Z.leb_spec TGUI_COLS (4 * ((cur_col t + 4) / 4))); [done|]. apply Hm. pose proof (Z.div_pos (cur_col t + 4) 4). lia. }
  destruct (Z.eqb_spec c 8).
  { left. unfold on_cell, on_grid, TGUI_COLS in *. destruct (Z.ltb_spec 0 (cur_col t)); cbn; lia. }
  assert (~ control c) as Hctl by (unfold control; lia).
  destruct (Z.leb_spec TGUI_COLS (cur_col t)); cbn zeta; [apply (store_cursor (next_line t) c) | apply (store_cursor t c)]; done || (rewrite ?En; unfold TGUI_COLS in *; lia).
Qed.

Lemma write_ok str t : tg_ok t -> step_ok t (fold_left tgui_put_char_raw str t).
Proof.
  revert t. induction str as [|c str IH]; intros t O; cbn [fold_left]; [split; [done | reflexivity]|].
  destruct (put_char_ok t c O) as [O1 E1]. destruct (IH _ O1) as [O2 E2]. split; [done | by etransitivity].
Qed.

Lemma term_frame_ok t t' : frame_of t' = frame_of t -> off_grid_same t t' -> tg_ok t -> step_ok t t'.
Proof. unfold frame_of. intros [= E1 E2 _ _ _] E [? ?]. split; [constructor; congruence | done]. Qed.

Lemma clear_to_end_ok t : tg_ok t ->
  step_ok t (for_up (Z.to_nat (TGUI_COLS - cur_col t)) (cur_col t) (fun c t => put_cell (cur_row t) c 32 (cur_fg t) (cur_bg t) t) t).
Proof.
  intros O. pose proof O as [Hr Hc]. apply term_frame_ok; [..|done].
  - apply (for_up_inv (fun _ s => frame_of s = frame_of t)); [done|]. intros k u _ E. exact E.
  - apply (for_up_inv (fun _ u => cur_row u = cur_row t /\ off_grid_same t u)); [split; reflexivity|].
    intros j u Hj [Er Hu]. split; [exact Er|]. etransitivity; [exact Hu|]. apply put_cell_off. rewrite Er. split; [done | lia].
Qed.

Lemma clear_row_ok t : tg_ok t ->
  step_ok t (let t := blank_row (cur_row t) (cur_fg t) (cur_bg t) t in set_cursor (cur_row t) 0 t).
Proof.
  intros O. destruct (blank_row_ok (cur_row t) (cur_fg t) (cur_bg t) t) as [E _].
  pose proof (blank_row_off (cur_row t) (cur_fg t) (cur_bg t) t (tg_row _ O)) as F. generalize dependent (blank_row (cur_row t) (cur_fg t) (cur_bg t) t).
  intros b E F. destruct (term_frame_ok _ _ E F O) as [[Hr _] _]. split; [|exact F]. constructor; cbn; [done | unfold TGUI_COLS; lia].
Qed.

Lemma clear_all_off n t : Z.of_nat n = TGUI_ROWS -> off_grid_same t (for_up n 0 (fun r t => blank_row r (cur_fg t) (cur_bg t) t) t).
Proof. intros En. apply loop_off. intros j u Hj. apply blank_row_off. lia. Qed.

Lemma clear_all_ok t : tg_ok t ->
  step_ok t (let t := for_up (Z.to_nat TGUI_ROWS) 0 (fun r t => blank_row r (cur_fg t) (cur_bg t) t) t in set_cursor 0 0 t).
Proof.
  intros O. assert (Z.of_nat (Z.to_nat TGUI_ROWS) = TGUI_ROWS) as En by reflexivity.
  revert En. generalize (Z.to_nat TGUI_ROWS). intros n En. split; [constructor; cbn; unfold TGUI_ROWS, TGUI_COLS; lia|].
  exact (clear_all_off n t En).
Qed.

Section Sys.
Context {A : Type} {AL : Allocator A}.
Implicit Type s : @tgui_sys A.

Definition sys_ok s : Prop := g_tgui s <> 0 -> tg_ok (terms s (g_tgui s)).

(** What a call of the terminal may do: the cursor stays in bounds, nothing
    outside the grid of the open terminal is written, no other terminal and
    no window changes. *)
Definition call_ok s s' : Prop :=
  sys_ok s' /\ g_tgui s' = g_tgui s /\ twins s' = twins s /\ off_grid_same (terms s (g_tgui s)) (terms s' (g_tgui s)) /\
  forall p, p <> g_tgui s -> terms s' p = terms s p.

Lemma same_call_ok s : sys_ok s -> call_ok s s.
Proof. intros Hs. split; [exact Hs|]. split; [done|]. split; [done|]. split; [reflexivity | done]. Qed.

Lemma on_tgui_ok f s : (forall t, tg_ok t -> step_ok t (f t)) -> sys_ok s -> call_ok s (on_tgui f s).
Proof.
  intros Hf Hs. unfold on_tgui. destruct (Z.eqb_spec (g_tgui s) 0); [by apply same_call_ok|]. destruct (Hf _ (Hs n)) as [H1 H2].
  split; [intros _; cbn; by rewrite upd_eq|]. cbn. split; [done|]. split; [done|]. rewrite upd_eq. split; [done|].
  intros p Hp. by rewrite upd_ne.
Qed.

(** The terminal in use. *)
Definition term s : terminal_gui := terms s (g_tgui s).

Lemma on_tgui_term f s : g_tgui s <> 0 -> term (on_tgui f s) = f (term s).
Proof. intros Hg. unfold on_tgui, term. destruct (Z.eqb_spec (g_tgui s) 0); [done|]. cbn. by rewrite upd_eq. Qed.

Lemma write_cursor str c s : sys_ok s -> g_tgui s <> 0 -> cursor_after c (term (terminal_gui_write (str ++ [c]) s)).
Proof.
  intros Hs Hg. unfold terminal_gui_write. rewrite on_tgui_term, fold_left_app by done. cbn [fold_left].
  apply put_char_cursor, write_ok. by apply Hs.
Qed.

End Sys.

(** ** A line feed at the bottom *)

(** A line feed on the last row scrolls the screen and then puts the
    cursor on the row the finished line has moved to, so the next character
    overwrites the beginning of that line. *)
Theorem newline_at_bottom_overwrites t ch :
  tg_ok t -> cur_row t = TGUI_ROWS - 1 -> 0x20 <= ch <= 0x7E ->
  let t1 := tgui_put_char_raw t 10 in
  let t2 := tgui_put_char_raw t1 ch in
  (forall c, 0 <= c < TGUI_COLS -> cells t1 (cur_row t1) c = cells t (TGUI_ROWS - 1) c) /\ cur_col t1 = 0 /\
  cells t2 (TGUI_ROWS - 2) 0 = ch /\
  (forall c, 0 < c < TGUI_COLS -> cells t2 (TGUI_ROWS - 2) c = cells t (TGUI_ROWS - 1) c) /\
  (forall c, 0 <= c < TGUI_COLS -> cells t2 (TGUI_ROWS - 1) c = 32).
Proof.
  intros O Hr Hch. cbv zeta.
  assert (tgui_put_char_raw t 10 = tgui_scroll_up (set_cursor (cur_row t) 0 t)) as ->.
  { unfold tgui_put_char_raw, next_line. cbn [Z.eqb Pos.eqb cur_row set_cursor]. rewrite Hr. done. }
  destruct (scroll_up_ok (set_cursor (cur_row t) 0 t)) as (E1 & E2 & _ & _ & E3). set (t1 := tgui_scroll_up _) in *.
  cbn [cur_row cur_col set_cursor cells] in E1, E2, E3. rewrite Hr in E1. change (cur_row t1 = 23) in E1. unfold TGUI_ROWS, TGUI_COLS in *.
  change (25 - 1) with 24 in *. change (25 - 2) with 23.
  assert (forall c, 0 <= c < 80 -> cells t1 23 c = cells t 24 c) as H23 by (intros c Hc; by rewrite E3 by lia).
  assert (forall c, 0 <= c < 80 -> cells t1 24 c = 32) as H24 by (intros c Hc; by rewrite E3 by lia).
  assert (tgui_put_char_raw t1 ch = set_cursor 23 1 (put_cell 23 0 ch (cur_fg t1) (cur_bg t1) t1)) as ->.
  { unfold tgui_put_char_raw. destruct (Z.eqb_spec ch 10), (Z.eqb_spec ch 13), (Z.eqb_spec ch 9), (Z.eqb_spec ch 8); try lia.
    rewrite E2. cbn [Z.leb TGUI_COLS Z.compare]. rewrite E1, E2. cbn [cur_row cur_col put_cell]. rewrite E1, E2. done. }
  cbn [cells set_cursor put_cell]. rewrite E1. split; [done|]. split; [done|].
  split; [rewrite upd2_spec; by rewrite decide_True|].
  split; intros c Hc; rewrite upd2_spec, decide_False by lia; [apply H23 | apply H24]; lia.
Qed.

(** ** From the keyboard to the grid *)

Definition gui_queue (s : gui_input) : list gui_event := ring_items GUI_EVENT_QUEUE_SIZE (g_events s).

Lemma gui_size_pow2 : exists k, 0 <= k <= 31 /\ GUI_EVENT_QUEUE_SIZE = 2 ^ k.
Proof. by exists 7. Qed.

(** What the proof needs of a scan code below 0x60, checked for each. *)
Definition raw_ok (raw : Z) : bool :=
  (Z.land raw 0x80 =? 0) && (Z.land raw 0x7F =? raw) && (u8 raw =? raw) &&
  forallb (fun '(sh, ca) => u8 (translate_scancode raw sh ca) =? translate_scancode raw sh ca)
    [(false, false); (false, true); (true, false); (true, true)].

Lemma raw_facts raw : 1 <= raw < 0x60 ->
  Z.land raw 0x80 = 0 /\ Z.land raw 0x7F = raw /\ u8 raw = raw /\
  forall sh ca, u8 (translate_scancode raw sh ca) = translate_scancode raw sh ca.
Proof.
  intros H. assert (forallb raw_ok (seqZ 1 95) = true) as E by (vm_compute; reflexivity).
  rewrite forallb_forall in E. assert (In raw (seqZ 1 95)) as Hin by (apply list_elem_of_In, elem_of_seqZ; lia). specialize (E raw Hin).
  unfold raw_ok in E. cbn [forallb] in E. b2p. split; [done|]. split; [done|]. split; [done|]. intros [|] [|]; done.
Qed.

Lemma update_modifiers_frame {G T : Type} sc released (k : keyboard G T) :
  g_gui_cb (update_modifiers sc released k) = g_gui_cb k /\ g_e0 (update_modifiers sc released k) = g_e0 k.
Proof. unfold update_modifiers. repeat case_match; done. Qed.

(** What either callback queues for a pressed key. *)
Lemma key_callback_queues ticks cb ke gi :
  pressed ke = true -> u8 (ascii ke) = ascii ke -> u8 (Z.land (scancode ke) 0x7F) = scancode ke -> ring_ok GUI_EVENT_QUEUE_SIZE (g_events gi) ->
  exists ev, gui_queue (call_kbd_cb ticks cb ke gi) = queue_push GUI_EVENT_QUEUE_SIZE ev (gui_queue gi) /\
    ev_type ev = GUI_EVENT_KEY_DOWN /\ keycode ev = if ascii ke =? 0 then scancode ke else ascii ke.
Proof.
  intros Hp Ha Hs Hr. set (code := if ascii ke =? 0 then scancode ke else ascii ke).
  assert (call_kbd_cb ticks cb ke gi = gui_input_push_key_down code (gui_modifiers ke) ticks gi) as ->.
  { subst code. destruct cb; cbn [call_kbd_cb]; unfold gui_kbd_callback, gui_input_from_key_event; rewrite Hp, Ha, ?Hs; by destruct (_ =? 0). }
  eexists. split; [apply (ring_push_ok _ gui_size_pow2); done | done].
Qed.

(** The event a key with scan code [raw] queues. *)
Lemma key_queued {T : Type} call_text ticks cb raw (k : keyboard gui_cb T) gi :
  1 <= raw < 0x60 -> g_e0 k = false -> g_gui_cb k = Some cb -> ring_ok GUI_EVENT_QUEUE_SIZE (g_events gi) ->
  let '(k', gi') := keyboard_process_scancode (call_kbd_cb ticks) call_text raw k gi in
  let ch := translate_scancode raw (g_shift k') (g_caps k') in
  exists ev, gui_queue gi' = queue_push GUI_EVENT_QUEUE_SIZE ev (gui_queue gi) /\
    ev_type ev = GUI_EVENT_KEY_DOWN /\ keycode ev = if ch =? 0 then raw else ch.
Proof.
  intros Hraw He Hcb Hr. destruct (raw_facts raw Hraw) as (L1 & L2 & L3 & L4). unfold keyboard_process_scancode.
  rewrite (proj2 (Z.eqb_neq raw 0xE0)), L1, L2 by lia. cbn [negb Z.eqb].
  destruct (update_modifiers_frame raw false k) as [Fc Fe]. set (k1 := update_modifiers raw false k) in *.
  rewrite Fe, He. cbn [negb andb pressed ascii]. set (ch := translate_scancode raw (g_shift k1) (g_caps k1)).
  set (ke := mk_key _ _ _ _ _ _ _).
  match goal with |- context [if negb (ch =? 0) then ?a else ?b] => set (k2 := if negb (ch =? 0) then a else b) end.
  assert (g_gui_cb k2 = Some cb /\ g_shift k2 = g_shift k1 /\ g_caps k2 = g_caps k1) as (E1 & E2 & E3).
  { subst k2. destruct (negb _); cbn; rewrite ?Fc; done. }
  rewrite E1. cbn zeta. rewrite E2, E3. fold ch.
  apply (key_callback_queues ticks cb ke gi); try done; [apply L4 | cbn; by rewrite L2].
Qed.

(** With the GUI callbacks installed, pressing a key with scan code [raw]
    queues one key-down event, and the terminal that handles it writes the
    character of the key, or starts a new prompt for Enter.  A key without a
    character is passed on under its scan code: where that is the code of a
    printable character, as for Shift, Alt, Caps Lock and the function keys,
    the terminal writes that character. *)
Theorem key_reaches_terminal {A T : Type} {AL : Allocator A} call_text ticks cb raw (k : keyboard gui_cb T) gi (s : @tgui_sys A) :
  1 <= raw < 0x60 -> g_e0 k = false -> g_gui_cb k = Some cb -> ring_ok GUI_EVENT_QUEUE_SIZE (g_events gi) ->
  let '(k', gi') := keyboard_process_scancode (call_kbd_cb ticks) call_text raw k gi in
  let ch := translate_scancode raw (g_shift k') (g_caps k') in
  let code := if ch =? 0 then raw else ch in
  exists ev, gui_queue gi' = queue_push GUI_EVENT_QUEUE_SIZE ev (gui_queue gi) /\
    ev_type ev = GUI_EVENT_KEY_DOWN /\ keycode ev = code /\
    (g_tgui s <> 0 ->
     tgui_handle_event ev s =
      (if (code =? 10) || (code =? 13) then terminal_gui_write PROMPT s
       else if (code =? 8) || ((0x20 <=? code) && (code <=? 0x7E)) then terminal_gui_write_char code s
       else s)).
Proof.
  intros Hraw He Hcb Hr. pose proof (key_queued call_text ticks cb raw k gi Hraw He Hcb Hr) as H.
  destruct (keyboard_process_scancode _ _ _ _ _) as [k' gi']. cbv zeta in *. destruct H as (ev & Q1 & Q2 & Q3).
  exists ev. split; [done|]. split; [done|]. split; [done|]. intros Hg. unfold tgui_handle_event.
  rewrite (proj2 (Z.eqb_neq _ _) Hg), decide_True, Q3 by done.
  destruct (_ || (_ =? 13)); [done|]. match goal with |- context [?c =? 8] => destruct (Z.eqb_spec c 8) as [->|]; done end.
Qed.

(** ** Witnesses *)

Definition demo_term (row : Z) : terminal_gui := mk_tg (fun _ c => 97 + c mod 26) (fun _ _ => 15) (fun _ _ => 0) 5 row 15 0 1.
Definition demo_sys : @tgui_sys heap :=
  mk_tsys 1 (fun _ => demo_term 3) (mk_windows (fun _ => mk_win 0 0 0 0 0 GUI_WINDOW_STATE_NORMAL true 0 0 0 0 0 0) 0 0 1 big_heap).
Definition demo_kbd : keyboard gui_cb unit :=
  mk_kbd (mk_ring (fun _ => mk_key 0 0 false false false false false) 0 0) (mk_ring (fun _ => 0) 0 0) false false false false false (Some CbWiring) None.
Definition demo_gui : gui_input :=
  gui_input_init 1024 768 (mk_gui (mk_ring (fun _ => mk_gev GUI_EVENT_NONE 0 0 0 0 0 0 0) 0 0) (mk_ms 0 0 0) 0 0 0 0 0).

Definition no_text_cb (_ : unit) (_ _ : Z) (_ : bool) (w : gui_input) : gui_input := w.


Lemma newline_at_bottom_overwrites_witness :
  cells (tgui_put_char_raw (tgui_put_char_raw (demo_term 24) 10) 65) 23 0 = 65.
Proof.
  refine (proj1 (proj2 (proj2 (newline_at_bottom_overwrites (demo_term 24) 65 _ _ _)))).
  - constructor; cbn; unfold TGUI_ROWS, TGUI_COLS; lia.
  - reflexivity.
  - lia.
Defined.

(** The left Shift key writes an asterisk. *)
Lemma key_reaches_terminal_witness : exists ev,
  gui_queue (snd (keyboard_process_scancode (call_kbd_cb 0) (fun _ _ _ _ w => w) 0x2A demo_kbd demo_gui)) =
    queue_push GUI_EVENT_QUEUE_SIZE ev (gui_queue demo_gui) /\
  tgui_handle_event ev demo_sys = terminal_gui_write_char 42 demo_sys.
Proof.
  destruct (key_reaches_terminal (fun _ _ _ _ w => w) 0 CbWiring 0x2A demo_kbd demo_gui demo_sys) as (ev & H1 & _ & _ & H2).
  - lia.
  - reflexivity.
  - reflexivity.
  - constructor; cbn; unfold GUI_EVENT_QUEUE_SIZE; lia.
  - exists ev. split; [exact H1 | apply H2; discriminate].
Defined.
