(* ===== verification/Wm.v ===== *)
(** The desktop: the task bar (kernel/gui/taskbar.c), the start menu
    (kernel/gui/start_menu.c), the icons (kernel/gui/desktop.c) and the window
    manager that hands them and the windows the input events
    (kernel/gui/wm.c).  The applications are a class: what the window manager
    calls of them.  Of drawing this file has the order of the windows; what is
    painted is in Paint.v. *)

From S2P Require Import Prelude Memory Alloc Window Ring Keyboard Mouse Input.
Local Open Scope Z_scope.

(** ** The applications *)

Inductive app := AppTerminal | AppExplorer | AppNotepad | AppSettings | AppAiChat.

(** [app_open]: the function a menu item or icon calls; [app_event]: the call
    of a window's event callback.  [W] is the state of the applications;
    [None] when a walk over the windows exceeds the fuel, or the heap is
    corrupt. *)
Class GuiApps (A W : Type) := {
  app_open : nat -> app -> windows A -> W -> option (windows A * W);
  app_event : nat -> Z -> Z -> gui_event -> windows A -> W -> option (windows A * W);
}.

(** ** Constants *)

Definition TASKBAR_HEIGHT : Z := 40.
Definition TASKBAR_BTN_W : Z := 120.
Definition TASKBAR_PADDING : Z := 4.
Definition ORB_RADIUS : Z := 17.
Definition ORB_MARGIN_L : Z := 8.

Definition START_MENU_W : Z := 180.
Definition START_MENU_ITEM_H : Z := 30.
Definition START_MENU_PAD : Z := 8.

Definition ICON_SIZE : Z := 48.
Definition ICON_MARGIN_X : Z := 20.
Definition ICON_MARGIN_Y : Z := 24.
Definition ICON_SPACING : Z := 16.
Definition DBLCLICK_TICKS : Z := 500.

Definition TITLE_BAR_H : Z := 20.
Definition BORDER_W : Z := 4.
Definition TASKBAR_H : Z := 40.
Definition BTN_W : Z := 16.
Definition BTN_H : Z := 14.
Definition BTN_PAD : Z := 2.
Definition BTN_TOP : Z := 3.
Definition CASCADE_STEP : Z := 24.

(** ** State *)

Record start_menu := mk_menu { g_open : bool; g_menu_y : Z; g_menu_h : Z }.
Definition g_menu_x : Z := TASKBAR_PADDING.

Record desktop := mk_desk { g_selected : Z; g_last_click_tick : Z -> Z; g_last_click_idx : Z }.

Inductive drag_mode_t := DRAG_NONE | DRAG_MOVE | DRAG_RESIZE.

#[export] Instance drag_mode_eq_dec : EqDecision drag_mode_t.
Proof. solve_decision. Defined.

Record wm_state := mk_wm {
  drag_mode : drag_mode_t; drag_win : Z; drag_origin_x : Z; drag_origin_y : Z;
  win_origin_x : Z; win_origin_y : Z; win_origin_w : Z; win_origin_h : Z; dirty : bool;
}.

(** The geometry of a window; also the statics of the maximise button. *)
Record rect := mk_rect { rc_x : Z; rc_y : Z; rc_w : Z; rc_h : Z }.

#[export] Instance rect_eq_dec : EqDecision rect.
Proof. solve_decision. Defined.

Section Wm.
(** The heap, the applications, and the size of the frame buffer. *)
Context {A : Type} {AL : Allocator A} {W : Type} {GA : GuiApps A W} (fb_width fb_height : Z).

Record gui := mk_gui_sys {
  wnd : windows A; apps : W; bar_w : Z; bar_h : Z; menu : start_menu; desk : desktop; wm : wm_state; saved : rect;
}.

Definition with_wnd (w : windows A) (s : gui) : gui := mk_gui_sys w (apps s) (bar_w s) (bar_h s) (menu s) (desk s) (wm s) (saved s).
Definition with_apps (w : windows A) (x : W) (s : gui) : gui := mk_gui_sys w x (bar_w s) (bar_h s) (menu s) (desk s) (wm s) (saved s).
Definition with_menu (m : start_menu) (s : gui) : gui := mk_gui_sys (wnd s) (apps s) (bar_w s) (bar_h s) m (desk s) (wm s) (saved s).
Definition with_desk (d : desktop) (s : gui) : gui := mk_gui_sys (wnd s) (apps s) (bar_w s) (bar_h s) (menu s) d (wm s) (saved s).
Definition with_wm (st : wm_state) (s : gui) : gui := mk_gui_sys (wnd s) (apps s) (bar_w s) (bar_h s) (menu s) (desk s) st (saved s).
Definition with_saved (r : rect) (s : gui) : gui := mk_gui_sys (wnd s) (apps s) (bar_w s) (bar_h s) (menu s) (desk s) (wm s) r.
Definition on_win (p : Z) (f : gui_window -> gui_window) (s : gui) : gui := with_wnd (alter_win p f (wnd s)) s.

(** Opening an application and calling a window's event callback. *)
Definition run_app (fuel : nat) (a : app) (s : gui) : option gui :=
  '(w, x) ← app_open fuel a (wnd s) (apps s); Some (with_apps w x s).
Definition call_window (fuel : nat) (p : Z) (ev : gui_event) (s : gui) : option gui :=
  let cb := w_handle_event (wins (wnd s) p) in
  if cb =? 0 then Some s else '(w, x) ← app_event fuel cb p ev (wnd s) (apps s); Some (with_apps w x s).

(** ** Walks over the windows *)

(** [while (tail && tail->next) tail = tail->next;] *)
Fixpoint last_window (fuel : nat) (f : Z -> gui_window) (p : Z) : option Z :=
  if (p =? 0) || (w_next (f p) =? 0) then Some p
  else match fuel with O => None | S fuel' => last_window fuel' f (w_next (f p)) end.

Definition hidden (w : gui_window) : bool := bool_decide (w_state w = GUI_WINDOW_STATE_HIDDEN).
Definition minimized (w : gui_window) : bool := bool_decide (w_state w = GUI_WINDOW_STATE_MINIMIZED).
Definition visible (w : gui_window) : bool := negb (minimized w) && negb (hidden w).

(** The windows [wm_redraw_all] draws, in the order it draws them. *)
Fixpoint drawn_from (fuel : nat) (f : Z -> gui_window) (cur : Z) : option (list Z) :=
  if cur =? 0 then Some []
  else
    match fuel with
    | O => None
    | S fuel' => r ← drawn_from fuel' f (w_prev (f cur)); Some (if visible (f cur) then cur :: r else r)
    end.
Definition wm_redraw_all (fuel : nat) (s : gui) : option (list Z * gui) :=
  tail ← last_window fuel (wins (wnd s)) (gui_window_list_head (wnd s));
  order ← drawn_from fuel (wins (wnd s)) tail;
  let st := wm s in
  Some (order, with_wm (mk_wm (drag_mode st) (drag_win st) (drag_origin_x st) (drag_origin_y st)
                          (win_origin_x st) (win_origin_y st) (win_origin_w st) (win_origin_h st) false) s).

(** The window under the pointer, 0 for none. *)
Fixpoint find_hit (fuel : nat) (f : Z -> gui_window) (p px py : Z) : option Z :=
  if p =? 0 then Some 0
  else if visible (f p) && gui_window_contains_point (f p) px py then Some p
  else match fuel with O => None | S fuel' => find_hit fuel' f (w_next (f p)) px py end.

(** Giving a window the focus. *)
Definition focus_window (fuel : nat) (p : Z) (s : gui) : option gui :=
  w ← gui_window_deactivate_all fuel (wnd s);
  Some (on_win p (set_active true) (with_wnd (gui_window_bring_to_front p w) s)).

(** ** The start menu *)

Definition g_items : list app := [AppTerminal; AppNotepad; AppExplorer; AppSettings; AppAiChat].
Definition item_count : Z := Z.of_nat (length g_items).

Definition start_menu_init (s : gui) : gui :=
  with_menu (mk_menu false (g_menu_y (menu s)) (START_MENU_PAD * 2 + item_count * START_MENU_ITEM_H)) s.
Definition start_menu_toggle (s : gui) : gui := with_menu (mk_menu (negb (g_open (menu s))) (g_menu_y (menu s)) (g_menu_h (menu s))) s.
Definition start_menu_is_open (s : gui) : bool := g_open (menu s).
Definition start_menu_close (s : gui) : gui := with_menu (mk_menu false (g_menu_y (menu s)) (g_menu_h (menu s))) s.

Definition recalc_geometry (s : gui) : gui :=
  let h := START_MENU_PAD * 2 + item_count * START_MENU_ITEM_H in
  with_menu (mk_menu (g_open (menu s)) (if TASKBAR_HEIGHT + h <? fb_height then fb_height - TASKBAR_HEIGHT - h else 0) h) s.

Definition left_down (ev : gui_event) : bool :=
  bool_decide (ev_type ev = GUI_EVENT_MOUSE_DOWN) && negb (Z.land (ev_buttons ev) GUI_MOUSE_BUTTON_LEFT =? 0).

Definition start_menu_handle_event (fuel : nat) (ev : gui_event) (s : gui) : option gui :=
  if negb (g_open (menu s)) then Some s
  else
    let s := recalc_geometry s in
    let my := g_menu_y (menu s) in
    if negb (left_down ev) then Some s
    else if (ev_x ev <? g_menu_x) || (s32 (g_menu_x + START_MENU_W) <=? ev_x ev) || (ev_y ev <? s32 my)
            || (s32 (my + g_menu_h (menu s)) <=? ev_y ev) then Some (start_menu_close s)
    else
      let rel_y := s32 (ev_y ev - s32 (my + START_MENU_PAD)) in
      if rel_y <? 0 then Some s
      else
        match g_items !! Z.to_nat (rel_y / START_MENU_ITEM_H) with
        | Some a => run_app fuel a (start_menu_close s)
        | None => Some s
        end.

(** ** The task bar *)

Definition taskbar_init (screen_w screen_h : Z) (s : gui) : gui :=
  mk_gui_sys (wnd s) (apps s) screen_w screen_h (menu s) (desk s) (wm s) (saved s).

(** The window whose button is at [px], 0 for none. *)
Fixpoint taskbar_button (fuel : nat) (f : Z -> gui_window) (cur btn_x px : Z) : option Z :=
  if cur =? 0 then Some 0
  else
    match fuel with
    | O => None
    | S fuel' =>
        if hidden (f cur) then taskbar_button fuel' f (w_prev (f cur)) btn_x px
        else if (s32 btn_x <=? px) && (px <? s32 (btn_x + TASKBAR_BTN_W)) then Some cur
        else taskbar_button fuel' f (w_prev (f cur)) (u32 (btn_x + (TASKBAR_BTN_W + TASKBAR_PADDING))) px
    end.

Definition bar_y (s : gui) : Z := u32 (bar_h s - TASKBAR_HEIGHT).

Definition on_orb (px py : Z) (s : gui) : bool :=
  let orb_cx := ORB_MARGIN_L + ORB_RADIUS in
  let orb_cy := u32 (bar_y s + TASKBAR_HEIGHT / 2) in
  let ddx := s32 (px - s32 orb_cx) in
  let ddy := s32 (py - s32 orb_cy) in
  u32 (ddx * ddx + ddy * ddy) <=? ORB_RADIUS * ORB_RADIUS.

Definition taskbar_handle_mouse_down (fuel : nat) (px py : Z) (s : gui) : option (bool * gui) :=
  if py <? s32 (bar_y s) then Some (false, s)
  else if on_orb px py s then Some (true, start_menu_toggle s)
  else
    tail ← last_window fuel (wins (wnd s)) (gui_window_list_head (wnd s));
    cur ← taskbar_button fuel (wins (wnd s)) tail (ORB_MARGIN_L + 2 * ORB_RADIUS + TASKBAR_PADDING) px;
    if cur =? 0 then Some (true, s)
    else
      let s := if minimized (wins (wnd s) cur) then on_win cur (set_wstate GUI_WINDOW_STATE_NORMAL) s else s in
      s ← focus_window fuel cur s;
      Some (true, s).

(** ** The icons *)

Definition g_icons : list app := [AppTerminal; AppExplorer; AppNotepad; AppAiChat; AppSettings].
Definition ICON_COUNT : Z := Z.of_nat (length g_icons).
Definition NO_ICON : Z := 0xFFFFFFFF.

Definition desktop_init (s : gui) : gui := with_desk (mk_desk NO_ICON (fill (g_last_click_tick (desk s)) 0 ICON_COUNT 0) NO_ICON) s.

Definition icon_y (i : Z) : Z := ICON_MARGIN_Y + i * (ICON_SIZE + ICON_SPACING + 16).
Definition on_icon (px py i : Z) : bool :=
  (ICON_MARGIN_X <=? px) && (px <? ICON_MARGIN_X + ICON_SIZE) && (icon_y i <=? py) && (py <? icon_y i + ICON_SIZE).

Definition desktop_handle_mouse_down (fuel : nat) (px py ticks : Z) (s : gui) : option (bool * gui) :=
  let d := desk s in
  match find_up (Z.to_nat ICON_COUNT) 0 (on_icon px py) with
  | Some i =>
      let dbl := (g_last_click_idx d =? i) && (u64 (ticks - g_last_click_tick d i) <? DBLCLICK_TICKS) in
      let d := mk_desk i (upd (g_last_click_tick d) i ticks) i in
      match g_icons !! Z.to_nat i with
      | Some a =>
          if dbl then
            s ← run_app fuel a (with_desk d s);
            Some (true, with_desk (mk_desk NO_ICON (g_last_click_tick (desk s)) (g_last_click_idx (desk s))) s)
          else Some (true, with_desk d s)
      | None => Some (true, with_desk d s)
      end
  | None => Some (false, with_desk (mk_desk NO_ICON (g_last_click_tick d) NO_ICON) s)
  end.

(** ** The window manager *)

Definition btn_x (w : gui_window) (k : Z) : Z := s32 (s32 (s32 (w_x w + w_width w) - BTN_PAD) - (k + 1) * (BTN_W + BTN_PAD)).
Definition btn_y (w : gui_window) : Z := s32 (w_y w + BTN_TOP).
Definition point_in_btn (w : gui_window) (k px py : Z) : bool :=
  let bx := btn_x w k in
  let by_ := btn_y w in
  (bx <=? px) && (px <? s32 (bx + BTN_W)) && (by_ <=? py) && (py <? s32 (by_ + BTN_H)).
Definition point_in_title_bar (w : gui_window) (px py : Z) : bool :=
  (w_x w <=? px) && (px <? s32 (w_x w + w_width w)) && (w_y w <=? py) && (py <? s32 (w_y w + TITLE_BAR_H)).
Definition point_in_border (w : gui_window) (px py : Z) : bool :=
  let rx := s32 (w_x w + w_width w - BORDER_W) in
  let ry := s32 (w_y w + w_height w - BORDER_W) in
  (rx <=? px) && (px <? s32 (w_x w + w_width w)) && (ry <=? py) && (py <? s32 (w_y w + w_height w)).

Definition set_dirty (b : bool) (s : gui) : gui :=
  let st := wm s in
  with_wm (mk_wm (drag_mode st) (drag_win st) (drag_origin_x st) (drag_origin_y st)
             (win_origin_x st) (win_origin_y st) (win_origin_w st) (win_origin_h st) b) s.

Definition rect_of (w : gui_window) : rect := mk_rect (w_x w) (w_y w) (w_width w) (w_height w).
Definition place (r : rect) : gui_window -> gui_window := set_rect (rc_x r) (rc_y r) (rc_w r) (rc_h r).
Definition full_screen : rect := mk_rect 0 0 fb_width (u32 (fb_height - TASKBAR_H)).

(** The maximise button. *)
Definition toggle_max (p : Z) (s : gui) : gui :=
  let w := wins (wnd s) p in
  if (w_x w =? 0) && (w_y w =? 0) && (w_width w =? fb_width) && (w_height w =? u32 (fb_height - TASKBAR_H))
  then on_win p (place (saved s)) s
  else on_win p (place full_screen) (with_saved (rect_of w) s).

Definition start_drag (mode : drag_mode_t) (p : Z) (ev : gui_event) (s : gui) : gui :=
  let st := wm s in
  let w := wins (wnd s) p in
  with_wm (match mode with
           | DRAG_RESIZE => mk_wm mode p (ev_x ev) (ev_y ev) (win_origin_x st) (win_origin_y st) (w_width w) (w_height w) (dirty st)
           | _ => mk_wm mode p (ev_x ev) (ev_y ev) (w_x w) (w_y w) (win_origin_w st) (win_origin_h st) (dirty st)
           end) s.

(** A left click on the window [hit]. *)
Definition click_window (fuel : nat) (hit : Z) (ev : gui_event) (s : gui) : option gui :=
  s ← focus_window fuel hit s;
  let w := wins (wnd s) hit in
  if point_in_btn w 0 (ev_x ev) (ev_y ev) then Some (on_win hit (set_wstate GUI_WINDOW_STATE_HIDDEN) s)
  else if point_in_btn w 1 (ev_x ev) (ev_y ev) then Some (toggle_max hit s)
  else if point_in_btn w 2 (ev_x ev) (ev_y ev) then
    Some (on_win hit (set_active false) (on_win hit (set_wstate GUI_WINDOW_STATE_MINIMIZED) s))
  else if point_in_border w (ev_x ev) (ev_y ev) then Some (start_drag DRAG_RESIZE hit ev s)
  else if point_in_title_bar w (ev_x ev) (ev_y ev) then Some (start_drag DRAG_MOVE hit ev s)
  else call_window fuel hit ev s.

Definition wm_mouse_down (fuel : nat) (ticks : Z) (ev : gui_event) (s : gui) : option gui :=
  let s := set_dirty true s in
  '(taken, s) ← taskbar_handle_mouse_down fuel (ev_x ev) (ev_y ev) s;
  if (taken : bool) then Some s
  else
    hit ← find_hit fuel (wins (wnd s)) (gui_window_list_head (wnd s)) (ev_x ev) (ev_y ev);
    if negb (hit =? 0) then click_window fuel hit ev s
    else snd <$> desktop_handle_mouse_down fuel (ev_x ev) (ev_y ev) ticks s.

Definition drag_move (ev : gui_event) (s : gui) : gui :=
  let st := wm s in
  let x := s32 (win_origin_x st + s32 (ev_x ev - drag_origin_x st)) in
  let y := s32 (win_origin_y st + s32 (ev_y ev - drag_origin_y st)) in
  let y := if y <? 0 then 0 else y in
  let limit := s32 (fb_height - TASKBAR_H) in
  let y := if limit <=? y then s32 (limit - 1) else y in
  on_win (drag_win st) (fun w => set_rect x y (w_width w) (w_height w) w) s.

Definition drag_resize (ev : gui_event) (s : gui) : gui :=
  let st := wm s in
  let n_w := s32 (s32 (win_origin_w st) + s32 (ev_x ev - drag_origin_x st)) in
  let n_h := s32 (s32 (win_origin_h st) + s32 (ev_y ev - drag_origin_y st)) in
  let n_w := if n_w <? 80 then 80 else n_w in
  let n_h := if n_h <? 40 then 40 else n_h in
  on_win (drag_win st) (fun w => set_rect (w_x w) (w_y w) n_w n_h w) s.

Definition wm_mouse_move (ev : gui_event) (s : gui) : gui :=
  let s := set_dirty true s in
  let st := wm s in
  if bool_decide (drag_mode st = DRAG_MOVE) && negb (drag_win st =? 0) then drag_move ev s
  else if bool_decide (drag_mode st = DRAG_RESIZE) && negb (drag_win st =? 0) then drag_resize ev s
  else s.

(** The head of the list takes an event if it has the focus. *)
Definition head_takes (s : gui) : bool :=
  let head := gui_window_list_head (wnd s) in
  negb (head =? 0) && is_active (wins (wnd s) head) && negb (w_handle_event (wins (wnd s) head) =? 0).

Definition wm_mouse_up (fuel : nat) (ev : gui_event) (s : gui) : option gui :=
  let st := wm s in
  let s := if bool_decide (drag_mode st = DRAG_NONE) then s
           else with_wm (mk_wm DRAG_NONE 0 (drag_origin_x st) (drag_origin_y st)
                           (win_origin_x st) (win_origin_y st) (win_origin_w st) (win_origin_h st) true) s in
  if head_takes s then call_window fuel (gui_window_list_head (wnd s)) ev s else Some s.

Definition wm_key (fuel : nat) (ev : gui_event) (s : gui) : option gui :=
  if head_takes s then s ← call_window fuel (gui_window_list_head (wnd s)) ev s; Some (set_dirty true s) else Some s.

Definition wm_handle_event (fuel : nat) (ticks : Z) (ev : gui_event) (s : gui) : option gui :=
  if start_menu_is_open s then
    s ← start_menu_handle_event fuel ev s;
    Some (set_dirty true s)
  else if left_down ev then wm_mouse_down fuel ticks ev s
  else
    match ev_type ev with
    | GUI_EVENT_MOUSE_MOVE => Some (wm_mouse_move ev s)
    | GUI_EVENT_MOUSE_UP => wm_mouse_up fuel ev s
    | GUI_EVENT_KEY_DOWN | GUI_EVENT_KEY_UP => wm_key fuel ev s
    | _ => Some s
    end.

(** *** The thread *)

(** [cur->x = cur->y = 60 + step * CASCADE_STEP], from the head on. *)
Fixpoint cascade (fuel : nat) (step cur : Z) (w : windows A) : option (windows A) :=
  if cur =? 0 then Some w
  else
    match fuel with
    | O => None
    | S fuel' =>
        let pos := s32 (60 + step * CASCADE_STEP) in
        let w := alter_win cur (fun x => set_rect pos pos (w_width x) (w_height x) x) w in
        cascade fuel' (u32 (step + 1)) (w_next (wins w cur)) w
    end.

Definition wm_open_default_apps (fuel : nat) (s : gui) : option gui :=
  s ← run_app fuel AppTerminal s;
  s ← run_app fuel AppExplorer s;
  w ← cascade fuel 0 (gui_window_list_head (wnd s)) (wnd s);
  Some (with_wnd w s).

(** Up to the event loop; the statics keep their values. *)
Definition wm_init (fuel : nat) (s : gui) : option gui :=
  let s := with_wnd (gui_window_system_init (wnd s)) s in
  let s := start_menu_init (taskbar_init fb_width fb_height (desktop_init s)) in
  s ← wm_open_default_apps fuel s;
  let s := with_wm (mk_wm DRAG_NONE 0 0 0 0 0 0 0 true) s in
  snd <$> wm_redraw_all fuel s.

(** One round of the event loop: the windows drawn, if any. *)
Definition wm_round (fuel : nat) (ticks : Z) (ev : gui_event) (s : gui) : option (list Z * gui) :=
  s ← wm_handle_event fuel ticks ev s;
  if dirty (wm s) then wm_redraw_all fuel s else Some ([], s).

(** The event loop over the events that arrive, each with the tick count. *)
Fixpoint wm_loop (fuel : nat) (evs : list (Z * gui_event)) (s : gui) : option gui :=
  match evs with
  | [] => Some s
  | (ticks, ev) :: evs => '(_, s) ← wm_round fuel ticks ev s; wm_loop fuel evs s
  end.
End Wm.
Arguments gui A W : clear implicits.
