(* ===== verification/WmSpec.v ===== *)
(** The window manager of Wm.v over any applications that only open windows:
    clicks reach the window drawn last under the pointer, every sequence of
    events keeps the windows in order with at most the front one focused,
    dragging follows the pointer, and what closing and maximising leave
    behind. *)

From S2P Require Import Prelude Memory Alloc Heap Window Ring Keyboard Mouse Input Terminal Wm.
Local Open Scope Z_scope.

Section Interface.
Context {A : Type} {AL : Allocator A} {AS : AllocatorSpec A}.

(** Only the top-most window can have the focus. *)
Definition focus_ok (w : windows A) (l : list Z) : Prop := forall p, p ∈ l -> is_active (wins w p) = true -> p = hd 0 l.

(** The window is the same but for its links and the focus. *)
Definition same_body (x y : gui_window) : Prop := exists a b c, y = set_links a b (set_active c x).

(** New windows may have come to the front; the others are what they were. *)
Record grows (w : windows A) (l : list Z) (w' : windows A) (l' : list Z) : Prop := {
  gr_inv : win_inv w' l';
  gr_focus : focus_ok w' l';
  gr_list : exists new, l' = new ++ l;
  gr_body p : p ∈ l -> same_body (wins w p) (wins w' p);
  gr_len : (length l' <= S (length l))%nat;
  gr_id : g_next_window_id w' <= g_next_window_id w + 1;
}.

(** What the window manager relies on: an application's code returns, keeps
    the applications' invariant, and opens at most one window. *)
Class GuiAppsSpec (W : Type) {GA : GuiApps A W} := {
  ga_inv : W -> Prop;
  ga_open fuel a w l x :
    ga_inv x -> win_inv w l -> focus_ok w l -> (length l <= fuel)%nat -> g_next_window_id w < 2 ^ 32 - 1 ->
    exists w' x' l', app_open fuel a w x = Some (w', x') /\ ga_inv x' /\ grows w l w' l';
  ga_event fuel cb p ev w l x :
    ga_inv x -> win_inv w l -> focus_ok w l -> p ∈ l -> (length l <= fuel)%nat -> g_next_window_id w < 2 ^ 32 - 1 ->
    exists w' x' l', app_event fuel cb p ev w x = Some (w', x') /\ ga_inv x' /\ grows w l w' l';
}.
End Interface.

Section Spec.
Context {A : Type} {AL : Allocator A} {AS : AllocatorSpec A} {W : Type} {GA : GuiApps A W} {GS : GuiAppsSpec W} (fb_width fb_height : Z).
Implicit Type s : gui A W.

Record gui_ok s (l : list Z) : Prop := {
  go_inv : win_inv (wnd s) l;
  go_focus : focus_ok (wnd s) l;
  go_drag : drag_win (wm s) = 0 \/ drag_win (wm s) ∈ l;
  go_apps : ga_inv (apps s);
}.

(** ** Bodies *)

Lemma same_body_refl x : same_body x x.
Proof. exists (w_prev x), (w_next x), (is_active x). by destruct x. Qed.

Lemma same_body_trans x y z : same_body x y -> same_body y z -> same_body x z.
Proof. intros (a & b & c & ->) (a' & b' & c' & ->). by exists a', b', c'. Qed.

Lemma same_body_eq x y : same_body x y -> w_state y = w_state x /\ rect_of y = rect_of x /\ w_handle_event y = w_handle_event x.
Proof. by intros (a & b & c & ->). Qed.

Lemma point_in_btn_body x y k px py : same_body x y -> point_in_btn y k px py = point_in_btn x k px py.
Proof. intros (a & b & c & ->). unfold point_in_btn, btn_x, btn_y. cbn [w_x w_y w_width set_links set_active]. reflexivity. Qed.

Lemma same_window_body x y : same_window x y -> same_body x y.
Proof. intros E. exists (w_prev y), (w_next y), (is_active x). unfold same_window in E. rewrite E. by destruct x. Qed.

(** Changing a window in place, its links and its id kept. *)
Lemma alter_inv (p : Z) (f : gui_window -> gui_window) (w : windows A) l :
  (forall x, w_prev (f x) = w_prev x /\ w_next (f x) = w_next x /\ w_id (f x) = w_id x) -> win_inv w l -> win_inv (alter_win p f w) l.
Proof.
  intros Hf [[L T N] H1 H2 H3 H4 H5]. assert (forall q, w_id (wins (alter_win p f w) q) = w_id (wins w q)) as Hid.
  { intros q. cbn. unfold upd. destruct (Z.eqb_spec p q) as [->|]; [apply Hf | done]. }
  constructor; try done.
  - constructor; try done. cbn. eapply dseg_ext; [|exact L]. intros x Hx. unfold upd. destruct (Z.eqb_spec p x) as [->|]; [|done].
    destruct (Hf (wins w x)) as (E1 & E2 & _). done.
  - intros q Hq. rewrite Hid. by apply H4.
  - intros q r. rewrite !Hid. by apply H5.
Qed.

Lemma alter_focus (p : Z) (f : gui_window -> gui_window) (w : windows A) l :
  (forall x, is_active (f x) = true -> is_active x = true) -> focus_ok w l -> focus_ok (alter_win p f w) l.
Proof.
  intros Hf F q Hq. cbn. unfold upd. destruct (Z.eqb_spec p q) as [->|]; [|by apply F]. intros Ha. by apply F, Hf.
Qed.

(** ** The walks *)

Lemma last_window_ok fuel f prev cur l :
  dseg f prev cur l 0 -> (length l <= fuel)%nat -> last_window fuel f cur = Some (List.last l 0).
Proof.
  revert prev cur l. induction fuel as [|fuel IH]; intros prev cur l H Hl.
  - destruct l; [|cbn in Hl; lia]. cbn in *. by subst cur.
  - destruct l as [|x l]; cbn [dseg] in H; [by subst cur|]. destruct H as (-> & Hx & _ & H). cbn [length] in Hl.
    cbn [last_window]. rewrite (proj2 (Z.eqb_neq cur 0)) by done. cbn [orb]. pose proof (dseg_nil_head _ _ _ _ H) as E.
    destruct (Z.eqb_spec (w_next (f cur)) 0).
    + by rewrite (proj1 E) by done.
    + rewrite (IH cur _ l) by (done || lia). destruct l; [tauto | done].
Qed.

Lemma drawn_from_ok f cur l : forall fuel nxt,
  dseg f 0 cur l nxt -> (length l <= fuel)%nat -> drawn_from fuel f (List.last l 0) = Some (filter (fun p => visible (f p) = true) (rev l)).
Proof.
  induction l as [|x l IH] using rev_ind; intros fuel nxt H Hl; [by destruct fuel|].
  apply dseg_app in H as (mid & H1 & <- & Hx & Hp & H2). rewrite length_app in Hl. cbn [length] in Hl.
  rewrite last_last, rev_unit. destruct fuel as [|fuel]; [lia|]. cbn [drawn_from]. rewrite (proj2 (Z.eqb_neq x 0)) by done.
  rewrite Hp, (IH fuel x) by (done || lia). cbn [mbind option_bind]. rewrite filter_cons.
  destruct (visible (f x)) eqn:E; [rewrite decide_True by done | rewrite decide_False by done]; done.
Qed.

Definition shows (f : Z -> gui_window) (px py p : Z) : bool := visible (f p) && gui_window_contains_point (f p) px py.

Lemma find_hit_ok fuel f prev cur l px py :
  dseg f prev cur l 0 -> (length l <= fuel)%nat -> find_hit fuel f cur px py = Some (default 0 (List.find (shows f px py) l)).
Proof.
  revert prev cur l. induction fuel as [|fuel IH]; intros prev cur l H Hl.
  - destruct l; [|cbn in Hl; lia]. cbn in *. by subst cur.
  - destruct l as [|x l]; cbn [dseg] in H; [by subst cur|]. destruct H as (-> & Hx & _ & H). cbn [length] in Hl.
    cbn [find_hit List.find]. rewrite (proj2 (Z.eqb_neq cur 0)) by done. fold (shows f px py cur). destruct (shows f px py cur); [done|].
    apply (IH cur); [done | lia].
Qed.

Lemma taskbar_button_ok f cur l px : forall fuel nxt bx,
  dseg f 0 cur l nxt -> (length l <= fuel)%nat ->
  exists p, taskbar_button fuel f (List.last l 0) bx px = Some p /\ (p = 0 \/ p ∈ l /\ hidden (f p) = false).
Proof.
  induction l as [|x l IH] using rev_ind; intros fuel nxt bx H Hl; [exists 0; destruct fuel; auto|].
  apply dseg_app in H as (mid & H1 & <- & Hx & Hp & H2). rewrite length_app in Hl. cbn [length] in Hl.
  rewrite last_last. destruct fuel as [|fuel]; [lia|]. cbn [taskbar_button]. rewrite (proj2 (Z.eqb_neq x 0)), Hp by done.
  assert (forall bx, exists p, taskbar_button fuel f (List.last l 0) bx px = Some p /\ (p = 0 \/ p ∈ l ++ [x] /\ hidden (f p) = false)) as Hrec.
  { intros bx'. destruct (IH fuel x bx') as (p & E & [->|[? ?]]); [done | lia | by exists 0; auto|].
    exists p. split; [done|]. right. split; [apply elem_of_app; by left | done]. }
  destruct (hidden (f x)) eqn:E; [apply Hrec|]. destruct (_ && _); [|apply Hrec].
  exists x. split; [done|]. right. split; [apply elem_of_app; right; apply elem_of_cons; by left | done].
Qed.

(** ** Focus *)

Lemma focus_window_ok fuel p s l :
  win_inv (wnd s) l -> p ∈ l -> (length l <= fuel)%nat ->
  exists w, focus_window fuel p s = Some (with_wnd w s) /\ win_inv w (p :: without p l) /\
    g_next_window_id w = g_next_window_id (wnd s) /\
    (forall q, q ∈ l -> same_body (wins (wnd s) q) (wins w q) /\ is_active (wins w q) = bool_decide (q = p)).
Proof.
  intros I Hp Hf. pose proof (wi_order _ _ I) as [L T N]. unfold focus_window, gui_window_deactivate_all.
  destruct (each_window_ok fuel 0 (g_win_head (wnd s)) l (set_active false) (wnd s)) as (w1 & -> & Hq & Eh & Et & En & Ew); try done.
  cbn. assert (win_inv w1 l) as I1.
  { destruct I as [_ H1 H2 H3 H4 H5]. assert (forall q, w_id (wins w1 q) = w_id (wins (wnd s) q)) as Hid.
    { intros q. rewrite Hq. by destruct (decide (q ∈ l)). }
    constructor; rewrite ?En, ?Ew; try done.
    - constructor; rewrite ?Eh, ?Et; try done. eapply dseg_ext; [|exact L]. intros x Hx. by rewrite Hq, decide_True.
    - intros q Hin. rewrite Hid. by apply H4.
    - intros q r. rewrite !Hid. by apply H5. }
  destruct (raise_ok w1 l p I1 Hp) as [I2 (S2 & Sn & _)]. set (w2 := gui_window_bring_to_front p w1) in *.
  eexists. split; [reflexivity|]. split; [by apply alter_inv|]. split; [cbn; congruence|].
  intros q Hin. assert (same_body (wins (wnd s) q) (wins w2 q) /\ is_active (wins w2 q) = false) as [B1 B2].
  { pose proof (S2 q) as E. unfold same_window in E. rewrite Hq, decide_True in E by done. rewrite E.
    split; [|done]. by exists (w_prev (wins w2 q)), (w_next (wins w2 q)), false. }
  cbn. unfold upd. destruct (Z.eqb_spec p q) as [->|Hne].
  - rewrite bool_decide_true by done. split; [|done]. eapply same_body_trans; [exact B1|].
    by exists (w_prev (wins w2 q)), (w_next (wins w2 q)), true; destruct (wins w2 q).
  - rewrite bool_decide_false by congruence. done.
Qed.

(** ** Every handler keeps the windows in order *)

(** What any sequence of events leaves of the windows: none is lost, and a
    hidden one stays hidden. *)
Definition keeps s (l : list Z) s' (l' : list Z) : Prop :=
  forall p, p ∈ l -> p ∈ l' /\ (hidden (wins (wnd s) p) = true -> hidden (wins (wnd s') p) = true).

Definition progress s l s' : Prop :=
  exists l', gui_ok s' l' /\ keeps s l s' l' /\ (length l' <= S (length l))%nat /\ g_next_window_id (wnd s') <= g_next_window_id (wnd s) + 1.

(** The step changes neither the list nor any state of a window. *)
Lemma keeps_refl s l : keeps s l s l.
Proof. by intros p Hp. Qed.

Lemma progress_refl s l : gui_ok s l -> progress s l s.
Proof. intros G. exists l. split_and!; [done | apply keeps_refl | lia | lia]. Qed.

(** The parts of the state other than the windows do not matter. *)
Lemma progress_frame s l s' t : wnd t = wnd s' /\ apps t = apps s' -> drag_win (wm t) = drag_win (wm s') \/ drag_win (wm t) = 0 -> progress s l s' -> progress s l t.
Proof.
  intros [Ew Ea] Ed (l' & [I F D P] & K & Hl & Hn). exists l'. split; [|split; [|split; [done | by rewrite Ew]]].
  - constructor; [by rewrite Ew | by rewrite Ew | | by rewrite Ea]. destruct Ed as [->| ->]; auto.
  - intros p Hp. rewrite Ew. by apply K.
Qed.

Lemma hidden_body x y : same_body x y -> hidden y = hidden x.
Proof. intros (E & _)%same_body_eq. unfold hidden. by rewrite E. Qed.

Lemma grows_progress s l w x l' : gui_ok s l -> ga_inv x -> grows (wnd s) l w l' -> progress s l (with_apps w x s).
Proof.
  intros G Hx [H1 H2 (new & ->) H4 H5 H6]. exists (new ++ l). split; [|split; [|done]].
  - constructor; [done | done | | done]. cbn. destruct (go_drag _ _ G); [by left|]. right. apply elem_of_app. by right.
  - intros p Hp. split; [apply elem_of_app; by right|]. cbn. by rewrite (hidden_body _ _ (H4 p Hp)).
Qed.

Lemma run_app_ok fuel a s l :
  gui_ok s l -> (length l <= fuel)%nat -> g_next_window_id (wnd s) < 2 ^ 32 - 1 ->
  exists s', run_app fuel a s = Some s' /\ progress s l s'.
Proof.
  intros G Hf Hid. unfold run_app. destruct (ga_open fuel a (wnd s) l (apps s) (go_apps _ _ G) (go_inv _ _ G) (go_focus _ _ G) Hf Hid) as (w & x & l' & -> & Hx & Hg).
  eexists. split; [done|]. by eapply grows_progress.
Qed.

Lemma call_window_ok fuel p ev s l :
  gui_ok s l -> p ∈ l -> (length l <= fuel)%nat -> g_next_window_id (wnd s) < 2 ^ 32 - 1 ->
  exists s', call_window fuel p ev s = Some s' /\ progress s l s'.
Proof.
  intros G Hp Hf Hid. unfold call_window. destruct (_ =? 0); [exists s; split; [done | by apply progress_refl]|].
  destruct (ga_event fuel (w_handle_event (wins (wnd s) p)) p ev (wnd s) l (apps s) (go_apps _ _ G) (go_inv _ _ G) (go_focus _ _ G) Hp Hf Hid) as (w & x & l' & -> & Hx & Hg).
  eexists. split; [done|]. by eapply grows_progress.
Qed.

(** Writing to one window, keeping links and id and giving it no focus. *)
Definition tame (f : gui_window -> gui_window) : Prop := forall x,
  w_prev (f x) = w_prev x /\ w_next (f x) = w_next x /\ w_id (f x) = w_id x /\ (is_active (f x) = true -> is_active x = true).

Lemma on_win_progress s l t p f :
  tame f -> (hidden (wins (wnd s) p) = true -> forall x, hidden x = true -> hidden (f x) = true) ->
  progress s l t -> progress s l (on_win p f t).
Proof.
  intros Hf Hh (l' & [I F D P] & K & Hl & Hn). exists l'. split; [|split; [|done]].
  - constructor; [|apply alter_focus; [apply Hf | done] | done | done]. apply alter_inv; [|done]. intros x. destruct (Hf x) as (? & ? & ? & _). done.
  - intros q Hq. destruct (K q Hq) as [K1 K2]. split; [done|]. intros Hq'. cbn. unfold upd.
    destruct (Z.eqb_spec p q) as [->|]; [|by apply K2]. by apply Hh, K2.
Qed.

Lemma without_length p l : NoDup l -> p ∈ l -> length (p :: without p l) = length l.
Proof.
  intros N Hp. apply list_elem_of_split in Hp as (l1 & l2 & ->). destruct (without_split p l1 l2 N) as [-> _].
  cbn [length]. rewrite !length_app. cbn [length]. lia.
Qed.

Lemma focus_ok_only p (w : windows A) l : p ∈ l -> (forall q, q ∈ l -> is_active (wins w q) = bool_decide (q = p)) -> focus_ok w (p :: without p l).
Proof.
  intros Hp Hq q [->|Hin]%elem_of_cons Ha; [done|]. apply elem_of_without in Hin as [Hin _]. rewrite Hq in Ha by done.
  by apply bool_decide_eq_true in Ha.
Qed.

(** Raising [p]: the list is rearranged, [p] is in front and focused. *)
Lemma focus_progress fuel p s l :
  gui_ok s l -> p ∈ l -> (length l <= fuel)%nat ->
  exists w, let s1 := with_wnd w s in let l1 := p :: without p l in
    focus_window fuel p s = Some s1 /\ gui_ok s1 l1 /\ keeps s l s1 l1 /\ length l1 = length l /\
    g_next_window_id w = g_next_window_id (wnd s) /\ same_body (wins (wnd s) p) (wins w p) /\
    (forall q, q ∈ l -> is_active (wins w q) = bool_decide (q = p)).
Proof.
  intros G Hp Hf. destruct (focus_window_ok fuel p s l (go_inv _ _ G) Hp Hf) as (w & E & I & En & Hq).
  assert (forall q, q ∈ p :: without p l <-> q ∈ l) as Hin.
  { intros q. rewrite elem_of_cons, elem_of_without. destruct (decide (q = p)) as [->|]; tauto. }
  exists w. cbv zeta. split; [done|]. split_and!; try done.
  - constructor; [done | apply focus_ok_only; [done | by apply Hq] | | apply (go_apps _ _ G)]. cbn. destruct (go_drag _ _ G); [by left | right; by apply Hin].
  - intros q Hq'. split; [by apply Hin|]. cbn. by rewrite (hidden_body _ _ (proj1 (Hq q Hq'))).
  - apply without_length; [|done]. apply (wi_order _ _ (go_inv _ _ G)).
  - by apply Hq.
  - intros q Hq'. by apply Hq.
Qed.

(** A rearrangement followed by a step. *)
Lemma progress_after s l s1 l1 s' :
  keeps s l s1 l1 -> length l1 = length l -> g_next_window_id (wnd s1) = g_next_window_id (wnd s) ->
  progress s1 l1 s' -> progress s l s'.
Proof.
  intros K El En (l' & G & K' & Hl & Hn). exists l'. split; [done|]. split; [|split; [by rewrite <- El | by rewrite <- En]].
  intros p Hp. destruct (K p Hp) as [K1 K2]. destruct (K' p K1) as [K3 K4]. auto.
Qed.

Lemma tame_rect r : tame (place r).
Proof. by intros x. Qed.
Lemma tame_state st : tame (set_wstate st).
Proof. by intros x. Qed.
Lemma tame_unfocus : tame (set_active false).
Proof. by intros x. Qed.

Lemma toggle_max_progress s l t p : progress s l t -> progress s l (toggle_max fb_width fb_height p t).
Proof.
  intros P. unfold toggle_max. destruct (_ && _); (apply on_win_progress; [apply tame_rect | done |]); [done|].
  by eapply progress_frame; [..|exact P]; [|left].
Qed.

Lemma start_drag_progress mode p ev s l : gui_ok s l -> p ∈ l -> progress s l (start_drag mode p ev s).
Proof.
  intros [I F D P] Hp. exists l. split; [|split; [intros q Hq; done | split; [lia | cbn; lia]]].
  constructor; [done | done | right; by destruct mode | done].
Qed.

Lemma visible_hidden w : visible w = true -> hidden w = false.
Proof. unfold visible. by destruct (minimized w), (hidden w). Qed.

Lemma click_window_ok fuel hit ev s l :
  gui_ok s l -> hit ∈ l -> hidden (wins (wnd s) hit) = false -> (length l <= fuel)%nat -> g_next_window_id (wnd s) < 2 ^ 32 - 1 ->
  exists s', click_window fb_width fb_height fuel hit ev s = Some s' /\ progress s l s'.
Proof.
  intros G Hp Hv Hf Hid. destruct (focus_progress fuel hit s l G Hp Hf) as (w & E & G1 & K & El & En & B & _). cbv zeta in E, G1, K, El.
  unfold click_window. rewrite E. cbn [mbind option_bind]. set (s1 := with_wnd w s) in *. set (l1 := hit :: without hit l) in *.
  assert (hit ∈ l1) as Hp1 by (apply elem_of_cons; by left).
  assert (progress s l s1) as P1 by (eapply progress_after; [done..|]; by apply progress_refl).
  assert (forall f, tame f -> progress s l (on_win hit f s1)) as Hset by (intros f Hf'; apply on_win_progress; [done | by rewrite Hv | done]).
  repeat (destruct (point_in_btn _ _ _ _)).
  - eexists. split; [done|]. apply Hset, tame_state.
  - eexists. split; [done|]. by apply toggle_max_progress.
  - eexists. split; [done|]. apply on_win_progress; [apply tame_unfocus | by rewrite Hv|]. apply Hset, tame_state.
  - destruct (point_in_border _ _ _); [|destruct (point_in_title_bar _ _ _)].
    1,2: eexists; split; [done|]; eapply progress_after; [done..|]; by apply start_drag_progress.
    destruct (call_window_ok fuel hit ev s1 l1 G1 Hp1) as (s' & -> & P'); [by rewrite El | by cbn; rewrite En|].
    exists s'. split; [done|]. by eapply progress_after.
Qed.

(** *** Start menu, task bar and icons *)

Lemma with_menu_progress s l t m : progress s l t -> progress s l (with_menu m t).
Proof. intros P. by eapply progress_frame; [..|exact P]; [|left]. Qed.
Lemma with_desk_progress s l t d : progress s l t -> progress s l (with_desk d t).
Proof. intros P. by eapply progress_frame; [..|exact P]; [|left]. Qed.
Lemma set_dirty_progress s l t b : progress s l t -> progress s l (set_dirty b t).
Proof. intros P. by eapply progress_frame; [..|exact P]; [|left]. Qed.

Lemma gui_ok_frame s t l : wnd t = wnd s /\ apps t = apps s -> drag_win (wm t) = drag_win (wm s) -> gui_ok s l -> gui_ok t l.
Proof. intros [Ew Ea] Ed [I F D P]. constructor; [by rewrite Ew | by rewrite Ew | by rewrite Ed | by rewrite Ea]. Qed.

(** A step from a state with the same windows. *)
Lemma progress_from s t l s' : wnd t = wnd s -> progress t l s' -> progress s l s'.
Proof.
  intros Ew (l' & G & K & Hl & Hn). exists l'. split; [done|]. split; [|by rewrite <- Ew].
  intros p Hp. unfold keeps in K. rewrite Ew in K. by apply K.
Qed.

Lemma start_menu_ok fuel ev s l :
  gui_ok s l -> (length l <= fuel)%nat -> g_next_window_id (wnd s) < 2 ^ 32 - 1 ->
  exists s', start_menu_handle_event fb_height fuel ev s = Some s' /\ progress s l s'.
Proof.
  intros G Hf Hid. pose proof (progress_refl s l G) as P. unfold start_menu_handle_event.
  destruct (g_open (menu s)); cbn [negb]; [|eauto]. destruct (left_down ev); cbn [negb].
  2: { eexists. split; [done|]. by apply with_menu_progress. }
  destruct (_ || _). { eexists. split; [done|]. by do 2 apply with_menu_progress. }
  destruct (_ <? 0). { eexists. split; [done|]. by apply with_menu_progress. }
  destruct (g_items !! _) as [a|]. 2: { eexists. split; [done|]. by apply with_menu_progress. }
  set (t := start_menu_close _). destruct (run_app_ok fuel a t l) as (s' & -> & P'); [by eapply gui_ok_frame; [..|exact G] | done | done|].
  exists s'. split; [done|]. by apply (progress_from s t).
Qed.

Lemma taskbar_ok fuel px py s l :
  gui_ok s l -> (length l <= fuel)%nat ->
  exists b s', taskbar_handle_mouse_down fuel px py s = Some (b, s') /\ progress s l s' /\
    (b = true -> g_next_window_id (wnd s') = g_next_window_id (wnd s)) /\
    b = bool_decide (s32 (bar_y s) <= py) /\ (b = false -> s' = s).
Proof.
  intros G Hf. pose proof (progress_refl s l G) as P. pose proof (wi_order _ _ (go_inv _ _ G)) as [L T N]. unfold taskbar_handle_mouse_down.
  destruct (Z.ltb_spec py (s32 (bar_y s))).
  { exists false, s. split_and!; try done. by rewrite bool_decide_false by lia. }
  rewrite bool_decide_true by lia. destruct (on_orb px py s).
  { exists true, (start_menu_toggle s). split_and!; try done. by apply with_menu_progress. }
  unfold gui_window_list_head. rewrite (last_window_ok fuel _ _ _ _ L) by done. cbn [mbind option_bind].
  destruct (taskbar_button_ok (wins (wnd s)) (g_win_head (wnd s)) l px fuel 0 (ORB_MARGIN_L + 2 * ORB_RADIUS + TASKBAR_PADDING) L Hf)
    as (p & -> & Hp). cbn [mbind option_bind]. destruct (Z.eqb_spec p 0); [by exists true, s|]. destruct Hp as [|[Hp Hh]]; [done|].
  set (t := if minimized _ then _ else s).
  assert (gui_ok t l /\ keeps s l t l /\ g_next_window_id (wnd t) = g_next_window_id (wnd s)) as (Gt & Kt & Et).
  { subst t. destruct (minimized _); [|by split; [|split; [apply keeps_refl|]]]. destruct G as [I F D P0]. split; [|split; [|done]].
    - constructor; [by apply alter_inv | by apply alter_focus | done | done].
    - intros q Hq. split; [done|]. intros Hq'. cbn. unfold upd. destruct (Z.eqb_spec p q) as [->|]; [congruence | done]. }
  destruct (focus_progress fuel p t l Gt Hp Hf) as (w & E & G1 & K & El & En & _). cbv zeta in E, G1, K, El. rewrite E. cbn [mbind option_bind].
  exists true, (with_wnd w t). split; [done|]. split; [|split; [cbn; congruence | done]].
  eapply progress_after; [exact Kt | done | done|]. eapply progress_after; [exact K | done | done|]. by apply progress_refl.
Qed.

Lemma desktop_ok fuel px py ticks s l :
  gui_ok s l -> (length l <= fuel)%nat -> g_next_window_id (wnd s) < 2 ^ 32 - 1 ->
  exists b s', desktop_handle_mouse_down fuel px py ticks s = Some (b, s') /\ progress s l s'.
Proof.
  intros G Hf Hid. pose proof (progress_refl s l G) as P. unfold desktop_handle_mouse_down.
  destruct (find_up _ _ _) as [i|]. 2: { eexists _, _. split; [done|]. by apply with_desk_progress. }
  destruct (g_icons !! _) as [a|]. 2: { eexists _, _. split; [done|]. by apply with_desk_progress. }
  destruct (_ && _). 2: { eexists _, _. split; [done|]. by apply with_desk_progress. }
  set (t := with_desk _ s). destruct (run_app_ok fuel a t l) as (s' & -> & P'); [by eapply gui_ok_frame; [..|exact G] | done | done|].
  eexists _, _. split; [done|]. apply with_desk_progress. by apply (progress_from s t).
Qed.

(** *** The window manager's handlers *)

Lemma find_in (f : Z -> bool) (l : list Z) x : List.find f l = Some x -> x ∈ l /\ f x = true.
Proof. intros H. destruct (find_some _ _ H). split; [by apply list_elem_of_In | done]. Qed.

Lemma shows_hidden f px py p : shows f px py p = true -> hidden (f p) = false.
Proof. unfold shows. intros [H _]%andb_prop. by apply visible_hidden. Qed.

Lemma mouse_down_ok fuel ticks ev s l :
  gui_ok s l -> (length l <= fuel)%nat -> g_next_window_id (wnd s) < 2 ^ 32 - 1 ->
  exists s', wm_mouse_down fb_width fb_height fuel ticks ev s = Some s' /\ progress s l s'.
Proof.
  intros G Hf Hid. unfold wm_mouse_down. set (t := set_dirty true s). assert (gui_ok t l) as Gt by (by eapply gui_ok_frame; [..|exact G]).
  destruct (taskbar_ok fuel (ev_x ev) (ev_y ev) t l Gt Hf) as (b & s1 & -> & P1 & _ & _ & Hb). cbn [mbind option_bind]. destruct b.
  { exists s1. split; [done|]. by apply (progress_from s t). }
  rewrite Hb by done. unfold gui_window_list_head.
  rewrite (find_hit_ok fuel _ 0 _ l) by (done || apply (wi_order _ _ (go_inv _ _ Gt))). cbn [mbind option_bind].
  destruct (List.find _ l) as [p|] eqn:Ef.
  - apply find_in in Ef as [Hp Hs]. assert (p <> 0) as Hp0 by (eapply dseg_nonzero; [apply (wi_order _ _ (go_inv _ _ Gt)) | done]).
    cbn [from_option id]. rewrite (proj2 (Z.eqb_neq p 0)) by done. cbn [negb].
    destruct (click_window_ok fuel p ev t l Gt Hp (shows_hidden _ _ _ _ Hs) Hf Hid) as (s' & -> & P).
    exists s'. split; [done|]. by apply (progress_from s t).
  - cbn [from_option negb Z.eqb]. destruct (desktop_ok fuel (ev_x ev) (ev_y ev) ticks t l Gt Hf Hid) as (b & s' & -> & P).
    exists s'. split; [done|]. by apply (progress_from s t).
Qed.

Lemma head_takes_in s l : gui_ok s l -> head_takes s = true -> gui_window_list_head (wnd s) ∈ l.
Proof.
  intros G H. unfold head_takes in H. b2p. pose proof (wi_order _ _ (go_inv _ _ G)) as [L _ _].
  apply (dseg_head_in _ _ _ _ L). intros E. apply (dseg_nil_head _ _ _ _ L) in E. done.
Qed.

Lemma head_event_ok fuel ev s l :
  gui_ok s l -> (length l <= fuel)%nat -> g_next_window_id (wnd s) < 2 ^ 32 - 1 -> head_takes s = true ->
  exists s', call_window fuel (gui_window_list_head (wnd s)) ev s = Some s' /\ progress s l s'.
Proof. intros G Hf Hid Ht. apply call_window_ok; [done | by apply head_takes_in | done | done]. Qed.

Lemma mouse_move_ok ev s l : gui_ok s l -> progress s l (wm_mouse_move fb_height ev s).
Proof.
  intros G. pose proof (set_dirty_progress s l s true (progress_refl s l G)) as P. unfold wm_mouse_move.
  assert (forall g : gui_window -> gui_window, tame g -> (forall x, hidden (g x) = hidden x) -> progress s l (on_win (drag_win (wm s)) g (set_dirty true s))) as Hw.
  { intros g Hg Hh. apply on_win_progress; [done | | done]. intros _ x. by rewrite Hh. }
  destruct (_ && _); [by apply Hw|]. destruct (_ && _); [by apply Hw | done].
Qed.

Lemma handle_event_ok fuel ticks ev s l :
  gui_ok s l -> (length l <= fuel)%nat -> g_next_window_id (wnd s) < 2 ^ 32 - 1 ->
  exists s', wm_handle_event fb_width fb_height fuel ticks ev s = Some s' /\ progress s l s'.
Proof.
  intros G Hf Hid. pose proof (progress_refl s l G) as P. unfold wm_handle_event. destruct (start_menu_is_open s).
  { destruct (start_menu_ok fuel ev s l G Hf Hid) as (s' & -> & P'). eexists. split; [done|]. by apply set_dirty_progress. }
  destruct (left_down ev); [by apply mouse_down_ok|].
  assert (exists s', wm_key fuel ev s = Some s' /\ progress s l s') as Hkey.
  { unfold wm_key. destruct (head_takes s) eqn:Ht; [|eauto]. destruct (head_event_ok fuel ev s l G Hf Hid Ht) as (s' & -> & P').
    eexists. split; [done|]. by apply set_dirty_progress. }
  destruct (ev_type ev); try done; try (exists s; done).
  - eexists. split; [done|]. by apply mouse_move_ok.
  - unfold wm_mouse_up. set (t := if bool_decide _ then s else _). assert (gui_ok t l /\ wnd t = wnd s) as [Gt Et].
    { subst t. destruct (bool_decide _); [done|]. split; [|done]. destruct G as [I F D P0]. constructor; [done | done | by left | done]. }
    destruct (head_takes t) eqn:Ht.
    + destruct (head_event_ok fuel ev t l Gt Hf) as (s' & -> & P'); [by rewrite Et | done|]. exists s'. split; [done|]. by apply (progress_from s t).
    + exists t. split; [done|]. apply (progress_from s t); [done | by apply progress_refl].
Qed.

Lemma redraw_ok fuel s l :
  gui_ok s l -> (length l <= fuel)%nat ->
  wm_redraw_all fuel s = Some (filter (fun p => visible (wins (wnd s) p) = true) (rev l), set_dirty false s).
Proof.
  intros G Hf. pose proof (wi_order _ _ (go_inv _ _ G)) as [L T N]. unfold wm_redraw_all, gui_window_list_head.
  rewrite (last_window_ok fuel _ _ _ _ L) by done. cbn [mbind option_bind]. rewrite (drawn_from_ok _ _ l fuel 0 L) by done. done.
Qed.

Lemma round_ok fuel ticks ev s l :
  gui_ok s l -> (S (length l) <= fuel)%nat -> g_next_window_id (wnd s) < 2 ^ 32 - 1 ->
  exists order s', wm_round fb_width fb_height fuel ticks ev s = Some (order, s') /\ progress s l s'.
Proof.
  intros G Hf Hid. unfold wm_round. destruct (handle_event_ok fuel ticks ev s l G) as (s1 & -> & P); [lia | done|]. cbn [mbind option_bind].
  destruct (dirty (wm s1)); [|by eexists _, _]. pose proof P as (l1 & G1 & _ & Hl & _). rewrite (redraw_ok fuel s1 l1) by (done || lia).
  eexists _, _. split; [done|]. by apply set_dirty_progress.
Qed.

(** Whatever events arrive, each round returns, the windows stay a well-formed
    stacking order of live objects with at most the top-most one focused, the
    window being dragged is one of them, no window is lost and a closed
    (hidden) one never reappears. *)
Lemma wm_loop_ok fuel evs s l :
  gui_ok s l -> (length l + length evs < fuel)%nat -> g_next_window_id (wnd s) + Z.of_nat (length evs) < 2 ^ 32 - 1 ->
  exists s' l', wm_loop fb_width fb_height fuel evs s = Some s' /\ gui_ok s' l' /\ keeps s l s' l'.
Proof.
  revert s l. induction evs as [|[ticks ev] evs IH]; intros s l G Hf Hid; cbn [wm_loop length] in *.
  { exists s, l. split; [done|]. split; [done | apply keeps_refl]. }
  destruct (round_ok fuel ticks ev s l G) as (o & s1 & -> & l1 & G1 & K & Hl & Hn); [lia.. |]. cbn [mbind option_bind].
  destruct (IH s1 l1 G1) as (s' & l' & -> & G' & K'); [lia.. |]. exists s', l'. split; [done|]. split; [done|].
  intros p Hp. destruct (K p Hp) as [K1 K2]. destruct (K' p K1) as [K3 K4]. auto.
Qed.

(** ** From the start *)

Lemma init_ok (w : windows A) : a_inv (wheap w) -> win_inv (gui_window_system_init w) [].
Proof.
  intros H. constructor; cbn; try done; [constructor; cbn; [done | done | by constructor] | intros p Hp; by apply not_elem_of_nil in Hp..| ].
  intros p q Hp. by apply not_elem_of_nil in Hp.
Qed.

Lemma cascade_ok fuel : forall step cur prev l l0 (w : windows A),
  win_inv w l0 -> focus_ok w l0 -> dseg (wins w) prev cur l 0 -> (forall p, p ∈ l -> p ∈ l0) -> (length l <= fuel)%nat ->
  exists w', cascade fuel step cur w = Some w' /\ win_inv w' l0 /\ focus_ok w' l0 /\ g_next_window_id w' = g_next_window_id w.
Proof.
  induction fuel as [|fuel IH]; intros step cur prev l l0 w I F D Hin Hl.
  { destruct l; [|cbn in Hl; lia]. cbn in D. subst cur. by exists w. }
  cbn [cascade]. destruct l as [|x l]; cbn [dseg] in D; [subst cur; by exists w|]. destruct D as (<- & Hx & Hp & D).
  rewrite (proj2 (Z.eqb_neq x 0)) by done. set (w1 := alter_win x _ w).
  assert (win_inv w1 l0) as I1 by (apply alter_inv; [by intros y | done]). assert (focus_ok w1 l0) as F1 by (by apply alter_focus).
  cbn [length] in Hl. destruct (IH (u32 (step + 1)) (w_next (wins w1 x)) x l l0 w1 I1 F1) as (w' & E & I' & F' & En).
  - subst w1. cbn [wins alter_win set_wins]. rewrite upd_eq. cbn [w_next set_rect]. eapply dseg_ext; [|exact D]. intros y Hy. unfold upd.
    destruct (Z.eqb_spec x y) as [->|]; done.
  - intros p Hp'. apply Hin, elem_of_cons. by right.
  - lia.
  - exists w'. done.
Qed.

(** The desktop comes up with at most the two windows it opens. *)
Lemma wm_init_ok fuel s : a_inv (wheap (wnd s)) -> ga_inv (apps s) -> drag_win (wm s) = 0 -> (2 <= fuel)%nat ->
  exists s' l, wm_init fb_width fb_height fuel s = Some s' /\ gui_ok s' l /\ (length l <= 2)%nat /\ g_next_window_id (wnd s') <= 3.
Proof.
  intros Ha Hx Hd Hf. unfold wm_init, wm_open_default_apps. set (s0 := start_menu_init _).
  assert (gui_ok s0 []) as G0.
  { constructor; [by apply init_ok | intros p Hp; by apply not_elem_of_nil in Hp | by left | done]. }
  destruct (run_app_ok fuel AppTerminal s0 [] G0) as (s1 & -> & l1 & G1 & _ & L1 & N1); [cbn; lia | cbn; lia|]. cbn [mbind option_bind length] in *.
  change (g_next_window_id (wnd s0)) with 1 in N1.
  destruct (run_app_ok fuel AppExplorer s1 l1 G1) as (s2 & -> & l2 & G2 & _ & L2 & N2); [lia | lia|]. cbn [mbind option_bind].
  pose proof (wi_order _ _ (go_inv _ _ G2)) as [D _ _].
  destruct (cascade_ok fuel 0 (g_win_head (wnd s2)) 0 l2 l2 (wnd s2) (go_inv _ _ G2) (go_focus _ _ G2) D) as (w & Ec & Iw & Fw & Nw); [done | lia|].
  unfold gui_window_list_head. rewrite Ec. cbn [mbind option_bind]. set (s3 := with_wm _ _).
  assert (gui_ok s3 l2) as G3 by (constructor; [done | done | by left | apply (go_apps _ _ G2)]).
  rewrite (redraw_ok fuel s3 l2 G3) by lia. cbn [fmap option_fmap option_map snd]. exists (set_dirty false s3), l2. split; [done|].
  split; [|split; [lia | cbn; lia]]. by eapply gui_ok_frame; [..|exact G3].
Qed.

(** ** Clicks *)

Lemma last_of_drawn (f g : Z -> bool) l :
  last (filter (fun p => g p = true) (filter (fun p => f p = true) (rev l))) = List.find (fun p => f p && g p) l.
Proof.
  induction l as [|x l IH]; [done|]. cbn [rev List.find]. rewrite !filter_app, !filter_cons, filter_nil.
  destruct (f x); [rewrite (decide_True (P := true = true)) by done | rewrite (decide_False (P := false = true)) by done]; cbn [andb].
  - rewrite filter_cons, filter_nil. destruct (g x).
    + rewrite (decide_True (P := true = true)) by done. by rewrite last_snoc.
    + rewrite (decide_False (P := false = true)) by done. by rewrite app_nil_r.
  - by rewrite filter_nil, app_nil_r.
Qed.

(** The click of an event that neither the menu nor the task bar takes. *)
Definition plain_click ev s : Prop := g_open (menu s) = false /\ left_down ev = true /\ ev_y ev < s32 (bar_y s).

Lemma plain_click_eq fuel ticks ev s l :
  gui_ok s l -> (length l <= fuel)%nat -> plain_click ev s ->
  wm_handle_event fb_width fb_height fuel ticks ev s =
    match List.find (shows (wins (wnd s)) (ev_x ev) (ev_y ev)) l with
    | Some p => click_window fb_width fb_height fuel p ev (set_dirty true s)
    | None => snd <$> desktop_handle_mouse_down fuel (ev_x ev) (ev_y ev) ticks (set_dirty true s)
    end.
Proof.
  intros G Hf (H1 & H2 & H3). unfold wm_handle_event, start_menu_is_open. rewrite H1, H2. unfold wm_mouse_down.
  assert (gui_ok (set_dirty true s) l) as Gt by (by eapply gui_ok_frame; [..|exact G]).
  destruct (taskbar_ok fuel (ev_x ev) (ev_y ev) (set_dirty true s) l Gt Hf) as (b & s1 & -> & _ & _ & Hb & Hs).
  rewrite bool_decide_false in Hb by (cbn; unfold bar_y in *; cbn in *; lia). subst b. rewrite Hs by done. cbn [mbind option_bind].
  unfold gui_window_list_head. rewrite (find_hit_ok fuel _ 0 _ l) by (done || apply (wi_order _ _ (go_inv _ _ Gt))). cbn [mbind option_bind].
  change (wins (wnd (set_dirty true s))) with (wins (wnd s)). destruct (List.find _ l) as [p|] eqn:Ef; cbn [from_option id]; [|done].
  apply find_in in Ef as [Hp _]. rewrite (proj2 (Z.eqb_neq p 0)); [done|]. eapply dseg_nonzero; [apply (wi_order _ _ (go_inv _ _ G)) | done].
Qed.

(** The parts of a window's frame, and its contents. *)
Inductive part := CloseButton | MaxButton | MinButton | Edge | TitleBar | Content.
Definition part_at (w : gui_window) (x y : Z) : part :=
  if point_in_btn w 0 x y then CloseButton else if point_in_btn w 1 x y then MaxButton else if point_in_btn w 2 x y then MinButton
  else if point_in_border w x y then Edge else if point_in_title_bar w x y then TitleBar else Content.

Lemma point_in_border_body x y px py : same_body x y -> point_in_border y px py = point_in_border x px py.
Proof. intros (a & b & c & ->). reflexivity. Qed.
Lemma point_in_title_bar_body x y px py : same_body x y -> point_in_title_bar y px py = point_in_title_bar x px py.
Proof. intros (a & b & c & ->). reflexivity. Qed.
Lemma part_at_body x y px py : same_body x y -> part_at y px py = part_at x px py.
Proof. intros B. unfold part_at. by rewrite !(point_in_btn_body x y), (point_in_border_body x y), (point_in_title_bar_body x y). Qed.

(** What a click on a part of the frame makes of the window, and of the drag. *)
Definition part_effect (b : part) (p : Z) (x : gui_window) (s' : gui A W) : Prop :=
  let x' := wins (wnd s') p in
  match b with
  | CloseButton => same_body (set_wstate GUI_WINDOW_STATE_HIDDEN x) x' /\ is_active x' = true
  | MaxButton => (exists r, same_body (place r x) x') /\ is_active x' = true
  | MinButton => same_body (set_wstate GUI_WINDOW_STATE_MINIMIZED x) x' /\ is_active x' = false
  | Edge => same_body x x' /\ is_active x' = true /\ drag_mode (wm s') = DRAG_RESIZE /\ drag_win (wm s') = p
  | TitleBar => same_body x x' /\ is_active x' = true /\ drag_mode (wm s') = DRAG_MOVE /\ drag_win (wm s') = p
  | Content => False
  end.

Lemma on_win_here p f s : wins (wnd (on_win p f s)) p = f (wins (wnd s) p).
Proof. cbn. by rewrite upd_eq. Qed.
Lemma on_win_other p f s q : q <> p -> wins (wnd (on_win p f s)) q = wins (wnd s) q.
Proof. intros Hq. cbn. by rewrite upd_ne. Qed.
Lemma on_win_order p f s l : tame f -> win_inv (wnd s) l -> win_inv (wnd (on_win p f s)) l.
Proof. intros Hf I. apply alter_inv; [|done]. intros x. destruct (Hf x) as (? & ? & ? & _). done. Qed.

(** The state [s'] after a click on the frame of [p], which was focused and
    raised in [s1]. *)
Lemma frame_click_ok fuel p ev s s1 l :
  focus_window fuel p s = Some s1 -> win_inv (wnd s1) l -> is_active (wins (wnd s1) p) = true ->
  let b := part_at (wins (wnd s1) p) (ev_x ev) (ev_y ev) in
  match b with
  | Content => click_window fb_width fb_height fuel p ev s = call_window fuel p ev s1
  | _ => exists s', click_window fb_width fb_height fuel p ev s = Some s' /\ win_inv (wnd s') l /\
           (forall q, q <> p -> wins (wnd s') q = wins (wnd s1) q) /\ part_effect b p (wins (wnd s1) p) s'
  end.
Proof.
  intros E I Ha. unfold click_window, part_at. rewrite E. cbn [mbind option_bind].
  destruct (point_in_btn _ 0 _ _); [|destruct (point_in_btn _ 1 _ _); [|destruct (point_in_btn _ 2 _ _); [|destruct (point_in_border _ _ _); [|destruct (point_in_title_bar _ _ _); [|done]]]]]; cbn zeta.
  - eexists. split; [done|]. split; [by apply on_win_order|]. split; [intros q Hq; by apply on_win_other|]. unfold part_effect. rewrite on_win_here. split; [apply same_body_refl | exact Ha].
  - assert (exists r t, toggle_max fb_width fb_height p s1 = on_win p (place r) t /\ wnd t = wnd s1) as (rc & t & -> & Et) by (unfold toggle_max; destruct (_ && _); by eexists _, _).
    eexists. split; [done|]. split; [apply on_win_order; [apply tame_rect | by rewrite Et]|]. split; [intros q Hq; rewrite on_win_other, Et by done; done|].
    unfold part_effect. rewrite on_win_here, Et. split; [exists rc; apply same_body_refl | exact Ha].
  - eexists. split; [done|]. split; [apply on_win_order; [apply tame_unfocus|]; by apply on_win_order|]. split; [intros q Hq; by rewrite !on_win_other|].
    unfold part_effect. rewrite !on_win_here. split; [|done]. by eexists _, _, false.
  - eexists. split; [done|]. split; [exact I|]. split; [done|]. split; [apply same_body_refl | done].
  - eexists. split; [done|]. split; [exact I|]. split; [done|]. split; [apply same_body_refl | done].
Qed.

(** C19: what is seen is what is clicked: a left click above the task bar goes
    to the window that the redraw draws last of those containing the point.
    After the click that window is in front, the others keep their order, and it
    alone has the focus: a click on its frame closes, maximises or minimises it
    or starts a drag, and changes no other window otherwise; a click on its
    contents is handed to its application in that state.  If no window contains
    the point, the click goes to the icons. *)
Theorem click_hits_what_is_drawn fuel ticks ev s l :
  gui_ok s l -> (length l <= fuel)%nat -> plain_click ev s ->
  exists order s0, wm_redraw_all fuel s = Some (order, s0) /\
    match last (filter (fun p => gui_window_contains_point (wins (wnd s) p) (ev_x ev) (ev_y ev) = true) order) with
    | Some p =>
        match part_at (wins (wnd s) p) (ev_x ev) (ev_y ev) with
        | Content => exists w, wm_handle_event fb_width fb_height fuel ticks ev s = call_window fuel p ev (with_wnd w (set_dirty true s)) /\ win_inv w (p :: without p l) /\
            forall q, q ∈ l -> same_body (wins (wnd s) q) (wins w q) /\ is_active (wins w q) = bool_decide (q = p)
        | b => exists s', wm_handle_event fb_width fb_height fuel ticks ev s = Some s' /\ win_inv (wnd s') (p :: without p l) /\
            (forall q, q ∈ l -> q <> p -> same_body (wins (wnd s) q) (wins (wnd s') q) /\ is_active (wins (wnd s') q) = false) /\
            exists x, same_body (wins (wnd s) p) x /\ part_effect b p x s'
        end
    | None => wm_handle_event fb_width fb_height fuel ticks ev s =
                snd <$> desktop_handle_mouse_down fuel (ev_x ev) (ev_y ev) ticks (set_dirty true s)
    end.
Proof.
  intros G Hf Hc. eexists _, _. split; [by apply redraw_ok|]. rewrite last_of_drawn, (plain_click_eq _ _ _ _ l) by done.
  change (fun p => _ && _) with (shows (wins (wnd s)) (ev_x ev) (ev_y ev)). destruct (List.find _ l) as [p|] eqn:Ef; [|done].
  apply find_in in Ef as [Hp _].
  destruct (focus_window_ok fuel p (set_dirty true s) l) as (w & E & I & _ & Hq); [apply G | done | done|].
  change (wins (wnd (set_dirty true s))) with (wins (wnd s)) in Hq. destruct (Hq p Hp) as [Bp Ap]. rewrite bool_decide_true in Ap by done.
  pose proof (frame_click_ok fuel p ev _ _ (p :: without p l) E I Ap) as Fc. cbv zeta in Fc. change (wnd (with_wnd w (set_dirty true s))) with w in Fc. rewrite (part_at_body _ _ _ _ Bp) in Fc.
  destruct (part_at (wins (wnd s) p) (ev_x ev) (ev_y ev));
    [destruct Fc as (s' & -> & I' & Ho & Pe); exists s'; split; [done|]; split; [done|]; split; [|by exists (wins w p)];
     intros q Hin Hne; rewrite Ho by done; destruct (Hq q Hin) as [Bq Aq]; rewrite bool_decide_false in Aq by done; done ..|].
  exists w. split; [exact Fc|]. split; [exact I | exact Hq].
Qed.

(** The close button only hides: the closed window stays in the list and
    on the heap, is no longer drawn, and keeps the focus, so that the keys
    typed next still go to its event callback. *)
Theorem closed_window_keeps_focus fuel ticks ev s l p :
  gui_ok s l -> (length l <= fuel)%nat -> plain_click ev s ->
  List.find (shows (wins (wnd s)) (ev_x ev) (ev_y ev)) l = Some p ->
  point_in_btn (wins (wnd s) p) 0 (ev_x ev) (ev_y ev) = true -> w_handle_event (wins (wnd s) p) <> 0 ->
  exists s', wm_handle_event fb_width fb_height fuel ticks ev s = Some s' /\
    gui_ok s' (p :: without p l) /\ hidden (wins (wnd s') p) = true /\
    (forall order s0, wm_redraw_all fuel s' = Some (order, s0) -> p ∉ order) /\
    forall ticks' key, ev_type key = GUI_EVENT_KEY_DOWN ->
      wm_handle_event fb_width fb_height fuel ticks' key s' = s'' ← call_window fuel p key s'; Some (set_dirty true s'').
Proof.
  intros G Hf Hc Ef Hb Hcb. rewrite (plain_click_eq _ _ _ _ l), Ef by done. apply find_in in Ef as [Hp Hs].
  assert (gui_ok (set_dirty true s) l) as Gt by (by eapply gui_ok_frame; [..|exact G]).
  destruct (focus_progress fuel p (set_dirty true s) l Gt Hp Hf) as (w & E & G1 & K & El & En & B & Ha). cbv zeta in E, G1, K, El.
  change (wins (wnd (set_dirty true s))) with (wins (wnd s)) in B.
  unfold click_window. rewrite E. cbn [mbind option_bind]. set (s1 := with_wnd w _) in *.
  rewrite (point_in_btn_body (wins (wnd s) p) (wins (wnd s1) p)) by exact B.
  rewrite Hb. eexists. split; [done|]. set (s2 := on_win p _ s1). assert (gui_ok s2 (p :: without p l)) as G2.
  { destruct G1 as [I F D P0]. constructor; [by apply alter_inv | by apply alter_focus | done | done]. }
  assert (hidden (wins (wnd s2) p) = true) as Hh by (cbn; by rewrite upd_eq).
  split; [done|]. split; [done|]. split.
  - intros order s0. rewrite (redraw_ok fuel s2 (p :: without p l)) by (done || (rewrite El; lia)). intros [= <- _].
    rewrite list_elem_of_filter. intros [Hv _]. assert (visible (wins (wnd s2) p) = true) as Hv2 by exact Hv.
    apply visible_hidden in Hv2. rewrite Hh in Hv2. discriminate Hv2.
  - intros ticks' key Hk. unfold wm_handle_event, start_menu_is_open, left_down. rewrite (proj1 Hc : g_open (menu s2) = false), Hk. cbn [bool_decide].
    rewrite bool_decide_false by done. cbn [andb]. unfold wm_key.
    pose proof (wi_order _ _ (go_inv _ _ G2)) as [L _ _]. apply dseg_head in L. cbn [hd] in L. unfold head_takes, gui_window_list_head. rewrite L.
    rewrite (proj2 (Z.eqb_neq p 0)) by (eapply dseg_nonzero; [apply (wi_order _ _ (go_inv _ _ G)) | done]).
    cbn [wnd s2 on_win with_wnd alter_win set_wins wins]. rewrite upd_eq. cbn [is_active set_wstate w_handle_event s1 wnd with_wnd].
    rewrite Ha by done. rewrite bool_decide_true by done. destruct B as (a & b & c & ->). cbn [w_handle_event set_links set_active].
    rewrite (proj2 (Z.eqb_neq _ 0) Hcb). done.
Qed.

(** The maximise button remembers one geometry for all windows: after
    maximising one window and then another, restoring the first gives it the
    other's place and size. *)
Theorem maximise_mixes_geometry s a b :
  a <> b -> rect_of (wins (wnd s) a) <> full_screen fb_width fb_height -> rect_of (wins (wnd s) b) <> full_screen fb_width fb_height ->
  let tm := toggle_max fb_width fb_height in
  let s' := tm a (tm b (tm a s)) in
  rect_of (wins (wnd (tm a s)) a) = full_screen fb_width fb_height /\
  rect_of (wins (wnd s') a) = rect_of (wins (wnd s) b).
Proof.
  assert (forall p (t : gui A W), toggle_max fb_width fb_height p t =
    if decide (rect_of (wins (wnd t) p) = full_screen fb_width fb_height) then on_win p (place (saved t)) t
    else on_win p (place (full_screen fb_width fb_height)) (with_saved (rect_of (wins (wnd t) p)) t)) as Htm.
  { intros p t. unfold toggle_max. unfold rect_of at 2. destruct (wins (wnd t) p) as [? x y w h]. cbn.
    destruct (decide _) as [[= -> -> -> ->]|Hne]; [by rewrite !Z.eqb_refl|].
    destruct (Z.eqb_spec x 0), (Z.eqb_spec y 0), (Z.eqb_spec w fb_width), (Z.eqb_spec h (u32 (fb_height - TASKBAR_H))); try done.
    subst. by destruct Hne. }
  intros Hab Ha Hb tm s'. subst tm s'. cbn zeta. rewrite (Htm a s), decide_False by done. split; [cbn; by rewrite upd_eq|].
  set (s1 := on_win a _ _). rewrite (Htm b s1), decide_False by (cbn; by rewrite upd_ne).
  set (s2 := on_win b _ _). rewrite (Htm a s2), decide_True by (cbn; rewrite upd_ne, upd_eq by done; done).
  cbn. rewrite upd_eq, (upd_ne _ a b) by done. done.
Qed.

(** ** Dragging *)

(** What a run of mouse moves does to a window being moved: its place follows
    the last one. *)
Definition clamp_y (y : Z) : Z := Z.min (Z.max y 0) (fb_height - TASKBAR_H - 1).

Definition small (x : Z) : Prop := - 2 ^ 29 <= x <= 2 ^ 29.

Record dragging p (w0 : gui_window) (x0 y0 : Z) s : Prop := {
  dg_mode : drag_mode (wm s) = DRAG_MOVE;
  dg_win : drag_win (wm s) = p;
  dg_origin : drag_origin_x (wm s) = x0 /\ drag_origin_y (wm s) = y0;
  dg_base : win_origin_x (wm s) = w_x w0 /\ win_origin_y (wm s) = w_y w0;
  dg_menu : g_open (menu s) = false;
}.

Lemma drag_step fuel ticks ev s l p w0 x0 y0 :
  gui_ok s l -> (length l <= fuel)%nat -> p ∈ l -> dragging p w0 x0 y0 s -> TASKBAR_H < fb_height <= 2 ^ 29 ->
  small x0 -> small y0 -> small (w_x w0) -> small (w_y w0) ->
  ev_type ev = GUI_EVENT_MOUSE_MOVE -> small (ev_x ev) -> small (ev_y ev) ->
  exists order s', wm_round fb_width fb_height fuel ticks ev s = Some (order, s') /\ gui_ok s' l /\ dragging p w0 x0 y0 s' /\
    (forall q, wins (wnd s') q =
       if decide (q = p) then set_rect (w_x w0 + (ev_x ev - x0)) (clamp_y (w_y w0 + (ev_y ev - y0)))
                                (w_width (wins (wnd s) p)) (w_height (wins (wnd s) p)) (wins (wnd s) p)
       else wins (wnd s) q).
Proof.
  intros G Hf Hp [D1 D2 [D3 D4] [D5 D6] D7] Hfb Hx0 Hy0 Hwx Hwy Hev Hex Hey. unfold small in *.
  assert (p <> 0) as Hp0 by (eapply dseg_nonzero; [apply (wi_order _ _ (go_inv _ _ G)) | done]).
  set (s1 := on_win p (fun w => set_rect (w_x w0 + (ev_x ev - x0)) (clamp_y (w_y w0 + (ev_y ev - y0))) (w_width w) (w_height w) w) (set_dirty true s)).
  unfold wm_round. assert (wm_handle_event fb_width fb_height fuel ticks ev s = Some s1) as ->.
  { unfold wm_handle_event, start_menu_is_open, left_down. rewrite D7, Hev, bool_decide_false by done. cbn [andb].
    unfold wm_mouse_move. cbn [wm set_dirty with_wm drag_mode drag_win]. rewrite D1, D2, bool_decide_true, (proj2 (Z.eqb_neq p 0)) by done.
    cbn [negb andb]. unfold drag_move. cbn [wm set_dirty with_wm drag_win win_origin_x win_origin_y drag_origin_x drag_origin_y].
    rewrite D2, D3, D4, D5, D6. unfold TASKBAR_H in *.
    rewrite (s32_small (ev_x ev - x0)), (s32_small (ev_y ev - y0)), (s32_small (w_x w0 + _)), (s32_small (w_y w0 + _)), (s32_small (fb_height - 40)),
      (s32_small (fb_height - 40 - 1)) by lia.
    do 2 f_equal. subst s1. f_equal. unfold clamp_y, TASKBAR_H. generalize (w_y w0 + (ev_y ev - y0)). intros y.
    assert ((if fb_height - 40 <=? (if y <? 0 then 0 else y) then fb_height - 40 - 1 else if y <? 0 then 0 else y) = Z.min (Z.max y 0) (fb_height - 40 - 1)) as ->.
    { destruct (Z.ltb_spec y 0); [destruct (Z.leb_spec (fb_height - 40) 0) | destruct (Z.leb_spec (fb_height - 40) y)]; lia. }
    done. }
  assert (gui_ok s1 l) as G1.
  { destruct G as [I F D P0]. constructor; [by apply alter_inv | by apply alter_focus | done | done]. }
  cbn [mbind option_bind]. change (dirty (wm s1)) with true. cbn match. rewrite (redraw_ok fuel s1 l) by done.
  eexists _, _. split; [done|]. split; [by eapply gui_ok_frame; [..|exact G1]|]. split; [by constructor|].
  intros q. cbn. unfold upd. destruct (Z.eqb_spec p q) as [->|]; [by rewrite decide_True | by rewrite decide_False].
Qed.

(** While the title bar is held, the window follows the pointer without
    drifting: after any number of moves its place is the one it started from
    plus the distance of the last pointer position from the first, kept
    between the top of the screen and the task bar; nothing else changes, and
    releasing the button ends the drag. *)
Theorem drag_follows_pointer fuel p ev0 moves ticks last s l :
  gui_ok s l -> (length l <= fuel)%nat -> p ∈ l -> g_open (menu s) = false -> TASKBAR_H < fb_height <= 2 ^ 29 ->
  small (ev_x ev0) -> small (ev_y ev0) -> small (w_x (wins (wnd s) p)) -> small (w_y (wins (wnd s) p)) ->
  (forall t ev, In (t, ev) (moves ++ [(ticks, last)]) -> ev_type ev = GUI_EVENT_MOUSE_MOVE /\ small (ev_x ev) /\ small (ev_y ev)) ->
  let w0 := wins (wnd s) p in
  exists s', wm_loop fb_width fb_height fuel (moves ++ [(ticks, last)]) (start_drag DRAG_MOVE p ev0 s) = Some s' /\
    wins (wnd s') p = set_rect (w_x w0 + (ev_x last - ev_x ev0)) (clamp_y (w_y w0 + (ev_y last - ev_y ev0))) (w_width w0) (w_height w0) w0 /\
    (forall q, q <> p -> wins (wnd s') q = wins (wnd s) q) /\
    (forall t up, ev_type up = GUI_EVENT_MOUSE_UP -> head_takes s' = false ->
       exists s'', wm_handle_event fb_width fb_height fuel t up s' = Some s'' /\ drag_mode (wm s'') = DRAG_NONE /\ drag_win (wm s'') = 0).
Proof.
  intros G Hf Hp Hm Hfb Hx0 Hy0 Hwx Hwy Hev w0.
  set (s1 := start_drag DRAG_MOVE p ev0 s). assert (gui_ok s1 l /\ dragging p w0 (ev_x ev0) (ev_y ev0) s1) as [G1 D1].
  { destruct G as [I F D P0]. split; [constructor; [done | done | by right | done] | by constructor]. }
  assert (exists x y, wins (wnd s1) p = set_rect x y (w_width w0) (w_height w0) w0) as Hw by (exists (w_x w0), (w_y w0); subst w0; cbn; by destruct (wins (wnd s) p)).
  assert (forall q, q <> p -> wins (wnd s1) q = wins (wnd s) q) as Hq by done. clearbody s1.
  revert s1 G1 D1 Hw Hq. induction moves as [|[t ev] moves IH]; intros s1 G1 D1 Hw Hq; cbn [Datatypes.app wm_loop].
  - destruct (Hev ticks last) as (He & Hex & Hey); [apply in_or_app; right; by left|].
    destruct (drag_step fuel ticks last s1 l p w0 (ev_x ev0) (ev_y ev0)) as (o & s' & -> & G' & D' & Hs); try done.
    cbn [mbind option_bind]. exists s'. split; [done|]. destruct Hw as (x & y & Hw). split; [|split].
    + rewrite Hs, decide_True, Hw by done. by destruct w0.
    + intros q Hne. rewrite Hs, decide_False by done. by apply Hq.
    + intros t up Hup Ht. unfold wm_handle_event, start_menu_is_open, left_down. rewrite (dg_menu _ _ _ _ _ D'), Hup, bool_decide_false by done.
      cbn [andb]. unfold wm_mouse_up. rewrite (dg_mode _ _ _ _ _ D'), bool_decide_false by done. set (u := with_wm _ s').
      assert (head_takes u = false) as -> by exact Ht. by exists u.
  - destruct (Hev t ev) as (He & Hex & Hey); [by left|].
    destruct (drag_step fuel t ev s1 l p w0 (ev_x ev0) (ev_y ev0)) as (o & s2 & -> & G' & D' & Hs); try done. cbn [mbind option_bind].
    apply IH; try done.
    + intros t' ev' Hin. apply (Hev t'). by right.
    + destruct Hw as (x & y & Hw). rewrite Hs, decide_True, Hw by done. exists (w_x w0 + (ev_x ev - ev_x ev0)), (clamp_y (w_y w0 + (ev_y ev - ev_y ev0))). by destruct w0.
    + intros q Hne. rewrite Hs, decide_False by done. by apply Hq.
Qed.
End Spec.

(** ** The terminal as an application *)

(** The desktop with the terminal of Terminal.v as its only application; its
    state is [g_tgui] and the terminals in memory. *)
Section TerminalApp.
Context {A : Type} {AL : Allocator A} {AS : AllocatorSpec A}.

Definition term_sys (w : windows A) (x : Z * (Z -> terminal_gui)) : tgui_sys := mk_tsys (fst x) (snd x) w.
Definition of_sys (t : tgui_sys) : windows A * (Z * (Z -> terminal_gui)) := (twins t, (g_tgui t, terms t)).

#[export] Instance terminal_apps : GuiApps A (Z * (Z -> terminal_gui)) := {
  app_open fuel a w x :=
    match a with
    | AppTerminal => '(_, t) ← terminal_gui_open fuel TERM_CB TERM_CB TERM_CB (term_sys w x); Some (of_sys t)
    | _ => Some (w, x)
    end;
  app_event fuel cb p ev w x := Some (of_sys (tgui_handle_event ev (term_sys w x)));
}.

Lemma grows_refl (w : windows A) l : win_inv w l -> focus_ok w l -> grows w l w l.
Proof. intros I F. constructor; try done; [by exists [] | intros; apply same_body_refl | lia | lia]. Qed.

Lemma grows_heap (w : windows A) l a :
  win_inv w l -> focus_ok w l -> a_inv a -> (forall p, p ∈ l -> a_owns a p SIZEOF_GUI_WINDOW) -> grows w l (with_heap w a) l.
Proof.
  intros I F Ha Ho. constructor; [by apply with_heap_inv | done | by exists [] | intros; apply same_body_refl | lia | cbn; lia].
Qed.

Lemma on_tgui_windows f (t : @tgui_sys A) : twins (on_tgui f t) = twins t.
Proof. unfold on_tgui. by destruct (_ =? 0). Qed.

Lemma handle_event_windows ev (t : @tgui_sys A) : twins (tgui_handle_event ev t) = twins t.
Proof. unfold tgui_handle_event. repeat case_match; try done; apply on_tgui_windows. Qed.

(** A created window, seen from the window manager. *)
Lemma created_grows fuel x y w h title draw event data (s : windows A) l :
  win_inv s l -> (length l <= fuel)%nat -> g_next_window_id s < 2 ^ 32 - 1 ->
  exists p s', gui_create_window fuel x y w h title draw event data s = Some (p, s') /\ (p = 0 -> s' = s) /\ (p <> 0 -> grows s l s' (p :: l)).
Proof.
  intros I Hf Hid. destruct (create_ok fuel x y w h title draw event data s l I Hf Hid) as (p & s' & E & H0 & H1).
  exists p, s'. split; [done|]. split; [done|]. intros Hp. destruct (H1 Hp) as (Hnin & I' & En & _ & Hq).
  assert (forall q, q ∈ l -> is_active (wins s' q) = false) as Ha by (intros q Hin; by rewrite (Hq q Hin)).
  constructor; [done | | by exists [p] | | done | lia].
  - intros q [->|Hin]%elem_of_cons Hact; [done|]. by rewrite Ha in Hact.
  - intros q Hin. pose proof (Hq q Hin) as E'. unfold same_window in E'. rewrite E'. by exists (w_prev (wins s' q)), (w_next (wins s' q)), false.
Qed.

Lemma terminal_open_grows fuel (w : windows A) l x :
  win_inv w l -> focus_ok w l -> (length l <= fuel)%nat -> g_next_window_id w < 2 ^ 32 - 1 ->
  exists p t l', terminal_gui_open fuel TERM_CB TERM_CB TERM_CB (term_sys w x) = Some (p, t) /\ grows w l (twins t) l'.
Proof.
  intros I F Hf Hid. unfold terminal_gui_open. cbn [g_tgui term_sys]. destruct (negb (fst x =? 0)).
  { eexists _, _, l. split; [done|]. by apply grows_refl. }
  pose proof a_max_bound. destruct (a_alloc_spec SIZEOF_TERMINAL_GUI (wheap w) (wi_heap _ _ I)) as (p & a & Ea & Ia & H0 & H1);
    [unfold SIZEOF_TERMINAL_GUI; lia|]. cbn [twins term_sys]. rewrite Ea. cbn [mbind option_bind].
  destruct (Z.eqb_spec p 0) as [->|Hp].
  { eexists _, _, l. split; [done|]. cbn. rewrite H0 by done. destruct w. by apply grows_refl. }
  destruct (H1 Hp) as [Hown Hold]. assert (forall q, q ∈ l -> a_owns a q SIZEOF_GUI_WINDOW /\ q <> p) as Hw.
  { intros q Hin. destruct (Hold q SIZEOF_GUI_WINDOW (wi_owns _ _ I q Hin)) as (Ho & Hd & _); [done|]. split; [done|].
    unfold SIZEOF_GUI_WINDOW, SIZEOF_TERMINAL_GUI in Hd. lia. }
  fold (with_heap w a). assert (win_inv (with_heap w a) l) as Ih by (apply with_heap_inv; [done | done | intros q Hin; by apply Hw]).
  destruct (created_grows fuel 40 40 (TGUI_COLS * TGUI_FONT_W + Terminal.PADDING * 2) (TGUI_ROWS * TGUI_FONT_H + Terminal.PADDING * 2)
              TERM_CB TERM_CB TERM_CB p (with_heap w a) l Ih Hf Hid) as (win & w2 & -> & E0 & E1). cbn [mbind option_bind].
  destruct (Z.eqb_spec win 0) as [->|Hwin].
  - rewrite E0 by done. destruct (a_free_spec p SIZEOF_TERMINAL_GUI a Ia Hown) as (a' & E' & Ia' & Hk). cbn [wheap with_heap]. rewrite E'.
    cbn [mbind option_bind]. eexists _, _, l. split; [done|]. apply (grows_heap w l a'); try done.
    intros q Hin. destruct (Hw q Hin) as [Ho Hne]. by destruct (Hk q SIZEOF_GUI_WINDOW Ho Hne).
  - eexists _, _, (win :: l). split; [done|]. unfold terminal_gui_write. rewrite on_tgui_windows. cbn [twins].
    destruct (E1 Hwin) as [G1 G2 G3 G4 G5 G6]. by constructor.
Qed.

Lemma terminal_apps_open fuel a (w : windows A) l (x : Z * (Z -> terminal_gui)) :
  True -> win_inv w l -> focus_ok w l -> (length l <= fuel)%nat -> g_next_window_id w < 2 ^ 32 - 1 ->
  exists w' x' l', app_open fuel a w x = Some (w', x') /\ True /\ grows w l w' l'.
Proof.
  intros _ I F Hf Hid. destruct a; cbn [app_open terminal_apps]; try (eexists _, _, l; split; [done | split; [done | by apply grows_refl]]).
  destruct (terminal_open_grows fuel w l x I F Hf Hid) as (p & t & l' & -> & Hg). by eexists _, _, l'.
Qed.

Lemma terminal_apps_event fuel cb p ev (w : windows A) l (x : Z * (Z -> terminal_gui)) :
  True -> win_inv w l -> focus_ok w l -> p ∈ l -> (length l <= fuel)%nat -> g_next_window_id w < 2 ^ 32 - 1 ->
  exists w' x' l', app_event fuel cb p ev w x = Some (w', x') /\ True /\ grows w l w' l'.
Proof.
  intros _ I F Hp Hf Hid. cbn [app_event terminal_apps]. unfold of_sys.
  rewrite handle_event_windows. eexists _, _, l. split; [done | split; [done | by apply grows_refl]].
Qed.

#[export] Instance terminal_apps_spec : GuiAppsSpec (Z * (Z -> terminal_gui)) := {
  ga_inv _ := True; ga_open := terminal_apps_open; ga_event := terminal_apps_event;
}.
End TerminalApp.

(** ** Witnesses: a screen of 1024 by 768 with one window *)

Definition demo_created : Z * windows heap :=
  default (0, no_windows) (gui_create_window 1 40 40 648 408 TERM_CB TERM_CB TERM_CB 0 no_windows).
Definition demo_win : Z := fst demo_created.

Lemma demo_created_ok :
  demo_win <> 0 /\ win_inv (snd demo_created) [demo_win] /\ focus_ok (snd demo_created) [demo_win] /\
  same_window (mk_win 1 40 40 648 408 GUI_WINDOW_STATE_NORMAL true TERM_CB TERM_CB TERM_CB 0 0 0) (wins (snd demo_created) demo_win) /\
  g_next_window_id (snd demo_created) = 2.
Proof.
  assert (demo_win = 65568) as E by (vm_compute; reflexivity).
  destruct (create_ok 1 40 40 648 408 TERM_CB TERM_CB TERM_CB 0 no_windows [] no_windows_inv) as (p & s' & Ec & _ & Hc); [cbn; lia | done|].
  assert (demo_created = (p, s')) as Ed by (unfold demo_created; rewrite Ec; done).
  unfold demo_win in *. rewrite Ed in *. cbn [fst snd] in *. destruct (Hc ltac:(lia)) as (_ & I & En & Hw & _).
  split; [lia|]. split; [done|]. split; [|split; [done | by rewrite En]].
  intros q [->|Hq]%elem_of_cons _; [done | by apply not_elem_of_nil in Hq].
Qed.

Definition demo_gui : gui heap (Z * (Z -> terminal_gui)) :=
  mk_gui_sys (snd demo_created) (0, fun _ => tgui_fresh) 1024 768 (mk_menu false 0 0) (mk_desk NO_ICON (fun _ => 0) NO_ICON)
    (mk_wm DRAG_NONE 0 0 0 0 0 0 0 false) (mk_rect 0 0 0 0).

Lemma demo_gui_ok : gui_ok demo_gui [demo_win].
Proof. destruct demo_created_ok as (_ & I & F & _). constructor; [exact I | exact F | by left | exact Logic.I]. Qed.

Definition mouse_at (ty : gui_event_type) (x y : Z) : gui_event := mk_gev ty 0 x y GUI_MOUSE_BUTTON_LEFT 0 0 0.

Lemma demo_next : g_next_window_id (wnd demo_gui) = 2.
Proof. apply demo_created_ok. Qed.

Lemma demo_rect : rect_of (wins (wnd demo_gui) demo_win) = mk_rect 40 40 648 408.
Proof. destruct demo_created_ok as (_ & _ & _ & E & _). change (wnd demo_gui) with (snd demo_created). unfold same_window in E. rewrite E. reflexivity. Qed.

Lemma demo_handler : w_handle_event (wins (wnd demo_gui) demo_win) = TERM_CB.
Proof. destruct demo_created_ok as (_ & _ & _ & E & _). change (wnd demo_gui) with (snd demo_created). unfold same_window in E. rewrite E. reflexivity. Qed.

Lemma demo_shown : visible (wins (wnd demo_gui) demo_win) && gui_window_contains_point (wins (wnd demo_gui) demo_win) 100 50 = true.
Proof. destruct demo_created_ok as (_ & _ & _ & Ew & _). unfold same_window in Ew. change (wnd demo_gui) with (snd demo_created). rewrite Ew. reflexivity. Qed.
Lemma demo_title : part_at (wins (wnd demo_gui) demo_win) 100 50 = TitleBar.
Proof. destruct demo_created_ok as (_ & _ & _ & Ew & _). unfold same_window in Ew. change (wnd demo_gui) with (snd demo_created). rewrite Ew. reflexivity. Qed.

(** A click on the title bar of the only window, which starts a drag. *)
Lemma click_hits_what_is_drawn_witness : exists s',
  wm_handle_event 1024 768 1 0 (mouse_at GUI_EVENT_MOUSE_DOWN 100 50) demo_gui = Some s' /\ win_inv (wnd s') [demo_win] /\
  is_active (wins (wnd s') demo_win) = true /\ drag_mode (wm s') = DRAG_MOVE.
Proof.
  destruct (click_hits_what_is_drawn 1024 768 1 0 (mouse_at GUI_EVENT_MOUSE_DOWN 100 50) demo_gui [demo_win] demo_gui_ok) as (o & s0 & E & H).
  - cbn. lia.
  - split; [reflexivity|]. split; [reflexivity | vm_compute; reflexivity].
  - assert (last (filter (fun p => gui_window_contains_point (wins (wnd demo_gui) p) 100 50 = true) o) = Some demo_win) as Hl.
    { rewrite (redraw_ok 1 demo_gui [demo_win] demo_gui_ok) in E by (cbn; lia). injection E as <- _.
      etrans; [exact (last_of_drawn (fun p => visible (wins (wnd demo_gui) p)) (fun p => gui_window_contains_point (wins (wnd demo_gui) p) 100 50) [demo_win])|].
      cbn [List.find]. by rewrite demo_shown. }
    change (ev_x (mouse_at _ 100 50)) with 100 in H. change (ev_y (mouse_at _ 100 50)) with 50 in H. rewrite Hl, demo_title in H.
    destruct H as (s' & E' & I' & _ & x & _ & Pe). exists s'. split; [exact E'|]. split; [exact I'|]. destruct Pe as (_ & H1 & H2 & _). split; [exact H1 | exact H2].
Defined.

Lemma closed_window_keeps_focus_witness : exists s',
  wm_handle_event 1024 768 1 0 (mouse_at GUI_EVENT_MOUSE_DOWN 672 50) demo_gui = Some s' /\ hidden (wins (wnd s') demo_win) = true.
Proof.
  destruct (closed_window_keeps_focus 1024 768 1 0 (mouse_at GUI_EVENT_MOUSE_DOWN 672 50) demo_gui [demo_win] demo_win demo_gui_ok) as (s' & E & _ & H & _).
  - cbn. lia.
  - split; [reflexivity|]. split; [reflexivity | vm_compute; reflexivity].
  - destruct demo_created_ok as (_ & _ & _ & Ew & _). unfold same_window in Ew. cbn [List.find]. unfold shows. change (wnd demo_gui) with (snd demo_created). rewrite Ew. reflexivity.
  - destruct demo_created_ok as (_ & _ & _ & Ew & _). unfold same_window in Ew. change (wnd demo_gui) with (snd demo_created). rewrite Ew. reflexivity.
  - rewrite demo_handler. discriminate.
  - exists s'. split; [exact E | exact H].
Defined.

Lemma maximise_mixes_geometry_witness :
  rect_of (wins (wnd (toggle_max 1024 768 1 (toggle_max 1024 768 2 (toggle_max 1024 768 1
    (on_win 2 (place (mk_rect 50 60 200 100)) (on_win 1 (place (mk_rect 10 20 300 400)) demo_gui)))))) 1) = mk_rect 50 60 200 100.
Proof.
  refine (proj2 (maximise_mixes_geometry 1024 768 (on_win 2 (place (mk_rect 50 60 200 100)) (on_win 1 (place (mk_rect 10 20 300 400)) demo_gui)) 1 2 _ _ _)).
  - discriminate.
  - vm_compute. discriminate.
  - vm_compute. discriminate.
Defined.

Lemma drag_follows_pointer_witness : exists s',
  wm_loop 1024 768 1 [(0, mouse_at GUI_EVENT_MOUSE_MOVE 130 90); (1, mouse_at GUI_EVENT_MOUSE_MOVE 120 70)]
    (start_drag DRAG_MOVE demo_win (mouse_at GUI_EVENT_MOUSE_DOWN 100 50) demo_gui) = Some s' /\
  w_x (wins (wnd s') demo_win) = 60.
Proof.
  pose proof (f_equal rc_x demo_rect) as Rx. pose proof (f_equal rc_y demo_rect) as Ry. cbn [rc_x rc_y rect_of] in Rx, Ry.
  destruct (drag_follows_pointer 1024 768 1 demo_win (mouse_at GUI_EVENT_MOUSE_DOWN 100 50) [(0, mouse_at GUI_EVENT_MOUSE_MOVE 130 90)] 1
              (mouse_at GUI_EVENT_MOUSE_MOVE 120 70) demo_gui [demo_win] demo_gui_ok) as (s' & E & H & _).
  - cbn. lia.
  - apply elem_of_cons. by left.
  - reflexivity.
  - unfold TASKBAR_H. lia.
  - unfold small. cbn. lia.
  - unfold small. cbn. lia.
  - rewrite Rx. unfold small. lia.
  - rewrite Ry. unfold small. lia.
  - intros t ev [[= <- <-]|[[= <- <-]|[]]]; unfold small; cbn; split; [reflexivity | lia | reflexivity | lia].
  - exists s'. split; [exact E|]. rewrite H. cbn [w_x set_rect ev_x mouse_at]. rewrite Rx. reflexivity.
Defined.
