(* ===== verification/Framebuffer.v ===== *)
(** The frame buffer (kernel/gfx/framebuffer.c): finding it in the boot
    information, and the drawing primitives.  The memory behind it is the
    array [words] of its 32-bit words, which every primitive indexes; index 0
    is at the frame buffer's address.

    The drawing primitives on a frame buffer whose rows are at least as long
    as the screen is wide: which words of the memory they change. *)

From S2P Require Import Prelude Memory Vmm BootInfo.
Local Open Scope Z_scope.

Record framebuffer := mk_fb { width : Z; height : Z; pitch : Z; bpp : Z; fb_type : Z; addr : Z; words : Z -> Z }.

Definition stride (fb : framebuffer) : Z := pitch fb / 4.
Definition usable (fb : framebuffer) : bool := negb (addr fb =? 0) && (bpp fb =? 32).
Definition set_words (f : Z -> Z) (fb : framebuffer) : framebuffer :=
  mk_fb (width fb) (height fb) (pitch fb) (bpp fb) (fb_type fb) (addr fb) f.
Definition set_word (i c : Z) (fb : framebuffer) : framebuffer := set_words (upd (words fb) i c) fb.

(** ** Finding the frame buffer *)

Definition MB2_TAG_TYPE_FRAMEBUFFER : Z := 8.
Definition FB_PAGE_SIZE : Z := 4096.

(** The fields of the tag at [t], and the pages mapped for it. *)
Definition fb_of_tag (m : mem) (t : Z) (fb : framebuffer) : framebuffer :=
  mk_fb (load32 m (t + 20)) (load32 m (t + 24)) (load32 m (t + 16)) (m (t + 28)) (m (t + 29)) (load64 m (t + 8)) (words fb).
Definition fb_page_base (phys : Z) : Z := Z.land phys (Z.lnot (FB_PAGE_SIZE - 1) mod 2 ^ 64).
Definition fb_pages (phys bytes : Z) : Z := u64 (phys - fb_page_base phys + bytes + FB_PAGE_SIZE - 1) / FB_PAGE_SIZE.

(** The page tables are those of [s], their static pool at [pool]; the result
    says whether a tag was found. *)
Fixpoint fb_init_loop (pool : Z) (fuel : nat) (m : mem) (info offset : Z) (s : vmm) (fb : framebuffer) : option (bool * vmm * framebuffer) :=
  if offset <? hdr_total_size m info then
    match fuel with
    | O => None
    | S fuel' =>
        let tag := info + offset in
        if tag_type m tag =? MB2_TAG_TYPE_END then Some (false, s, fb)
        else if tag_type m tag =? MB2_TAG_TYPE_FRAMEBUFFER then
          let fb := fb_of_tag m tag fb in
          s ← vmm_map_mmio pool (fb_page_base (addr fb)) (fb_pages (addr fb) (pitch fb * height fb)) s;
          Some (true, s, fb)
        else fb_init_loop pool fuel' m info (u32 (offset + padded (tag_size m tag))) s fb
    end
  else Some (false, s, fb).
Definition fb_init_from_multiboot (pool : Z) (fuel : nat) (m : mem) (mb2_phys : Z) (s : vmm) (fb : framebuffer) : option (bool * vmm * framebuffer) :=
  fb_init_loop pool fuel m mb2_phys 8 s fb.

(** ** Basic primitives *)

Definition fb_clear (color : Z) (fb : framebuffer) : framebuffer :=
  if negb (usable fb) then fb
  else for_up (Z.to_nat (height fb)) 0 (fun y fb =>
         for_up (Z.to_nat (width fb)) 0 (fun x fb => set_word (u32 (y * stride fb + x)) color fb) fb) fb.

Definition fb_put_pixel (x y color : Z) (fb : framebuffer) : framebuffer :=
  if negb (usable fb) then fb
  else if (width fb <=? x) || (height fb <=? y) then fb
  else set_word (u32 (y * stride fb + x)) color fb.

(** The colour channel at bit [sh]. *)
Definition channel (sh c : Z) : Z := Z.land (Z.shiftr c sh) 0xFF.
Definition blend (sh color bg a : Z) : Z := u32 (channel sh color * a + channel sh bg * (255 - a)) / 255.
Definition fb_blend_pixel (x y color alpha : Z) (fb : framebuffer) : framebuffer :=
  if negb (usable fb) then fb
  else if (width fb <=? x) || (height fb <=? y) then fb
  else
    let i := u32 (y * stride fb) + x in
    let bg := words fb i in
    let r := blend 16 color bg alpha in
    let g := blend 8 color bg alpha in
    let b := blend 0 color bg alpha in
    set_word i (Z.lor (Z.lor (Z.lor 0xFF000000 (u32 (Z.shiftl r 16))) (u32 (Z.shiftl g 8))) b) fb.

(** One row of a rectangle. *)
Definition paint_row (i w color : Z) (fb : framebuffer) : framebuffer :=
  for_up (Z.to_nat w) 0 (fun xx fb => set_word (i + xx) color fb) fb.

Definition clip (x w limit : Z) : Z := if limit <? u32 (x + w) then limit - x else w.

Definition fb_fill_rect (x y w h color : Z) (fb : framebuffer) : framebuffer :=
  if negb (usable fb) then fb
  else if (width fb <=? x) || (height fb <=? y) then fb
  else
    let w := clip x w (width fb) in
    let h := clip y h (height fb) in
    for_up (Z.to_nat h) 0 (fun yy fb => paint_row (u32 (u32 (y + yy) * stride fb) + x) w color fb) fb.

Definition fb_draw_rect (x y w h color : Z) (fb : framebuffer) : framebuffer :=
  if (w =? 0) || (h =? 0) then fb
  else
    let fb := fb_fill_rect x y w 1 color fb in
    if 1 <? h then
      let fb := fb_fill_rect x (u32 (u32 (y + h) - 1)) w 1 color fb in
      if 2 <? h then
        let fb := fb_fill_rect x (u32 (y + 1)) 1 (h - 2) color fb in
        if 1 <? w then fb_fill_rect (u32 (u32 (x + w) - 1)) (u32 (y + 1)) 1 (h - 2) color fb else fb
      else fb
    else fb.

(** [src]: the words of the source image. *)
Definition fb_blit (x y w h : Z) (src : Z -> Z) (fb : framebuffer) : framebuffer :=
  if negb (usable fb) then fb
  else if (width fb <=? x) || (height fb <=? y) then fb
  else
    let w := clip x w (width fb) in
    let h := clip y h (height fb) in
    for_up (Z.to_nat h) 0 (fun yy fb =>
      for_up (Z.to_nat w) 0 (fun xx fb => set_word (u32 (u32 (y + yy) * stride fb) + x + xx) (src (u32 (yy * w) + xx)) fb) fb) fb.

(** ** Circles and rounded rectangles *)

(** [while (px >= py) { ...; py++; if (err < 0) ...; else { px--; ... } }],
    the midpoint algorithm; [body] draws the points of one step. *)
Fixpoint circle_loop (fuel : nat) (px py err : Z) (body : Z -> Z -> framebuffer -> framebuffer) (fb : framebuffer) : option framebuffer :=
  if px <? py then Some fb
  else
    match fuel with
    | O => None
    | S fuel' =>
        let fb := body px py fb in
        let py := s32 (py + 1) in
        if err <? 0 then circle_loop fuel' px py (s32 (err + s32 (2 * py + 1))) body fb
        else
          let px := s32 (px - 1) in
          circle_loop fuel' px py (s32 (err + s32 (2 * s32 (py - px) + 1))) body fb
    end.
Definition circle (radius : Z) (body : Z -> Z -> framebuffer -> framebuffer) (fb : framebuffer) : option framebuffer :=
  circle_loop (Z.to_nat radius + 2) (s32 radius) 0 (s32 (1 - s32 radius)) body fb.

Definition rrect_hspan (x0 x1 y color : Z) (fb : framebuffer) : framebuffer :=
  if height fb <=? y then fb
  else
    let '(x0, x1) := if x1 <? x0 then (x1, x0) else (x0, x1) in
    let x1 := if width fb <=? x1 then u32 (width fb - 1) else x1 in
    fb_fill_rect x0 y (u32 (x1 - x0 + 1)) 1 color fb.

Definition clamp_radius (w h r : Z) : Z := let r := if w / 2 <? r then w / 2 else r in if h / 2 <? r then h / 2 else r.

Definition fb_fill_rounded_rect (x y w h r color : Z) (fb : framebuffer) : option framebuffer :=
  if (w =? 0) || (h =? 0) then Some fb
  else
    let r := clamp_radius w h r in
    if r =? 0 then Some (fb_fill_rect x y w h color fb)
    else
      let fb := fb_fill_rect (u32 (x + r)) y (u32 (w - 2 * r)) r color fb in
      let fb := fb_fill_rect x (u32 (y + r)) w (u32 (h - 2 * r)) color fb in
      let fb := fb_fill_rect (u32 (x + r)) (u32 (y + h - r)) (u32 (w - 2 * r)) r color fb in
      let cx0 := s32 (x + r) in
      let cy0 := s32 (y + r) in
      let cx1 := s32 (x + w - r - 1) in
      let cy1 := s32 (y + h - r - 1) in
      circle r (fun px py fb =>
        let fb := rrect_hspan (u32 (cx0 - px)) (u32 (cx1 + px)) (u32 (cy0 - py)) color fb in
        let fb := rrect_hspan (u32 (cx0 - px)) (u32 (cx1 + px)) (u32 (cy1 + py)) color fb in
        if negb (py =? px) then
          let fb := rrect_hspan (u32 (cx0 - py)) (u32 (cx1 + py)) (u32 (cy0 - px)) color fb in
          rrect_hspan (u32 (cx0 - py)) (u32 (cx1 + py)) (u32 (cy1 + px)) color fb
        else fb) fb.

(** The four mirror images of a point. *)
Definition put4 (xl xr yt yb color : Z) (fb : framebuffer) : framebuffer :=
  fb_put_pixel xr yb color (fb_put_pixel xl yb color (fb_put_pixel xr yt color (fb_put_pixel xl yt color fb))).

Definition fb_draw_rounded_rect (x y w h r color : Z) (fb : framebuffer) : option framebuffer :=
  if (w =? 0) || (h =? 0) then Some fb
  else
    let r := clamp_radius w h r in
    if r =? 0 then Some (fb_draw_rect x y w h color fb)
    else
      let fb := fb_fill_rect (u32 (x + r)) y (u32 (w - 2 * r)) 1 color fb in
      let fb := fb_fill_rect (u32 (x + r)) (u32 (y + h - 1)) (u32 (w - 2 * r)) 1 color fb in
      let fb := fb_fill_rect x (u32 (y + r)) 1 (u32 (h - 2 * r)) color fb in
      let fb := fb_fill_rect (u32 (x + w - 1)) (u32 (y + r)) 1 (u32 (h - 2 * r)) color fb in
      let cx0 := s32 (x + r) in
      let cy0 := s32 (y + r) in
      let cx1 := s32 (x + w - r - 1) in
      let cy1 := s32 (y + h - r - 1) in
      circle r (fun px py fb =>
        let fb := put4 (u32 (cx0 - px)) (u32 (cx1 + px)) (u32 (cy0 - py)) (u32 (cy1 + py)) color fb in
        if negb (py =? px) then put4 (u32 (cx0 - py)) (u32 (cx1 + py)) (u32 (cy0 - px)) (u32 (cy1 + px)) color fb else fb) fb.

Definition fb_fill_circle (cx cy radius color : Z) (fb : framebuffer) : option framebuffer :=
  circle radius (fun px py fb =>
    let fb := fb_fill_rect (u32 (cx - px)) (u32 (cy - py)) (u32 (2 * px + 1)) 1 color fb in
    let fb := fb_fill_rect (u32 (cx - px)) (u32 (cy + py)) (u32 (2 * px + 1)) 1 color fb in
    if negb (py =? px) then
      let fb := fb_fill_rect (u32 (cx - py)) (u32 (cy - px)) (u32 (2 * py + 1)) 1 color fb in
      fb_fill_rect (u32 (cx - py)) (u32 (cy + px)) (u32 (2 * py + 1)) 1 color fb
    else fb) fb.

Definition fb_draw_circle (cx cy radius color : Z) (fb : framebuffer) : option framebuffer :=
  circle radius (fun px py fb =>
    let fb := put4 (u32 (cx + px)) (u32 (cx - px)) (u32 (cy - py)) (u32 (cy + py)) color fb in
    put4 (u32 (cx + py)) (u32 (cx - py)) (u32 (cy - px)) (u32 (cy + px)) color fb) fb.

(** * Specification *)

(** A usable 32-bit frame buffer. *)
Record fb_ok (fb : framebuffer) : Prop := {
  fk_usable : usable fb = true;
  fk_width : 1 <= width fb <= stride fb;
  fk_height : 1 <= height fb;
  fk_size : stride fb * height fb < 2 ^ 32;
  fk_small : width fb <= 2 ^ 30 /\ height fb <= 2 ^ 30;
}.

(** Word [i] is a pixel of the screen: not in the padding of a row, nor
    outside the buffer. *)
Definition on_screen (fb : framebuffer) (i : Z) : Prop := 0 <= i /\ i mod stride fb < width fb /\ i / stride fb < height fb.

Definition same_fb (fb fb' : framebuffer) : Prop := fb' = set_words (words fb') fb.

(** Nothing but pixels of the screen is written. *)
Definition stays (fb fb' : framebuffer) : Prop := same_fb fb fb' /\ forall i, ~ on_screen fb i -> words fb' i = words fb i.

Lemma same_fb_ok fb fb' : same_fb fb fb' -> fb_ok fb -> fb_ok fb'.
Proof. intros -> [H1 H2 H3 H4 H5]. by constructor. Qed.

Lemma same_fb_refl fb : same_fb fb fb.
Proof. unfold same_fb. by destruct fb. Qed.
Lemma same_fb_trans a b c : same_fb a b -> same_fb b c -> same_fb a c.
Proof. unfold same_fb. intros -> H. rewrite H. done. Qed.
Lemma same_fb_eq fb fb' : same_fb fb fb' -> width fb' = width fb /\ height fb' = height fb /\ stride fb' = stride fb /\ usable fb' = usable fb.
Proof. by intros ->. Qed.

#[export] Instance stays_refl : Reflexive stays.
Proof. intros fb. split; [apply same_fb_refl | done]. Qed.
#[export] Instance stays_trans : Transitive stays.
Proof.
  intros a b c [E1 H1] [E2 H2]. split; [by eapply same_fb_trans|]. intros i Hi. rewrite H2; [by apply H1|].
  intros Hb. apply Hi. unfold on_screen in *. by destruct (same_fb_eq a b E1) as (<- & <- & <- & _).
Qed.

Lemma stays_ok fb fb' : stays fb fb' -> fb_ok fb -> fb_ok fb'.
Proof. intros [E _]. by apply same_fb_ok. Qed.

(** ** Rows and rectangles *)

Lemma same_set_word i c fb : same_fb fb (set_word i c fb).
Proof. done. Qed.

Lemma paint_loop_ok n i c fb :
  let fb' := for_up n 0 (fun xx fb => set_word (i + xx) c fb) fb in
  same_fb fb fb' /\ forall j, words fb' j = if (i <=? j) && (j <? i + Z.of_nat n) then c else words fb j.
Proof.
  cbv zeta. pose proof (for_up_inv (fun k t => same_fb fb t /\ forall j, words t j = if (i <=? j) && (j <? i + k) then c else words fb j)
    n 0 (fun xx fb => set_word (i + xx) c fb) fb) as H. rewrite Z.add_0_l in H. apply H; clear H.
  - split; [apply same_fb_refl|]. intros j. destruct (Z.leb_spec i j), (Z.ltb_spec j (i + 0)); cbn; lia || done.
  - intros k t Hk [E Hj]. split; [by eapply same_fb_trans; [exact E|]|]. intros j. cbn. unfold upd. rewrite Hj.
    destruct (Z.eqb_spec (i + k) j), (Z.leb_spec i j), (Z.ltb_spec j (i + k)), (Z.ltb_spec j (i + (k + 1))); cbn; lia || done.
Qed.

Lemma paint_row_ok i w c fb :
  0 <= w -> same_fb fb (paint_row i w c fb) /\
  forall j, words (paint_row i w c fb) j = if (i <=? j) && (j <? i + w) then c else words fb j.
Proof. intros Hw. unfold paint_row. destruct (paint_loop_ok (Z.to_nat w) i c fb) as [H1 H2]. rewrite Z2Nat.id in H2 by done. done. Qed.

Lemma word_index s x y : 0 < s -> 0 <= x < s -> (y * s + x) / s = y /\ (y * s + x) mod s = x.
Proof.
  intros Hs Hx. split.
  - rewrite Z.div_add_l, Z.div_small by lia. lia.
  - rewrite Z.add_comm, Z.mod_add, Z.mod_small by lia. done.
Qed.

(** Word [j] is in the run of [w] words from column [x] of row [r]. *)
Lemma run_index s r x w j :
  0 < s -> 0 <= x -> 0 <= w -> x + w <= s -> r * s + x <= j < r * s + x + w <-> j / s = r /\ x <= j mod s < x + w.
Proof.
  intros Hs Hx Hw Hl. pose proof (Z.div_mod j s ltac:(lia)) as Ej. pose proof (Z.mod_pos_bound j s ltac:(lia)) as Hm. split.
  - intros Hj. assert (j = r * s + (j - r * s)) as E by lia. destruct (word_index s (j - r * s) r) as [E1 E2]; [lia | lia|].
    rewrite <- E in E1, E2. lia.
  - intros [<- H]. lia.
Qed.

Definition in_rect (fb : framebuffer) (x y w h i : Z) : bool :=
  (x <=? i mod stride fb) && (i mod stride fb <? Z.min (x + w) (width fb)) && (y <=? i / stride fb) && (i / stride fb <? Z.min (y + h) (height fb)).

Lemma clip_ok x w limit : 0 <= x < limit -> 0 <= w -> limit + w <= 2 ^ 32 -> clip x w limit = Z.min (x + w) limit - x.
Proof. intros Hx Hw Hl. unfold clip. rewrite u32_small by lia. destruct (Z.ltb_spec limit (x + w)); lia. Qed.

(** Filling rows one after the other. *)
Lemma rows_ok n x y w c fb :
  fb_ok fb -> 0 <= x -> 0 <= w -> x + w <= width fb -> 0 <= y -> y + Z.of_nat n <= height fb ->
  let fb' := for_up n 0 (fun yy fb => paint_row (u32 (u32 (y + yy) * stride fb) + x) w c fb) fb in
  same_fb fb fb' /\ forall i, words fb' i =
    if (x <=? i mod stride fb) && (i mod stride fb <? x + w) && (y <=? i / stride fb) && (i / stride fb <? y + Z.of_nat n) then c else words fb i.
Proof.
  intros [_ Hw1 Hh1 Hsz Hsm] Hx Hw Hxw Hy Hyn. cbv zeta.
  pose proof (for_up_inv (fun k t => same_fb fb t /\ forall i, words t i =
    if (x <=? i mod stride fb) && (i mod stride fb <? x + w) && (y <=? i / stride fb) && (i / stride fb <? y + k) then c else words fb i)
    n 0 (fun yy fb => paint_row (u32 (u32 (y + yy) * stride fb) + x) w c fb) fb) as H. rewrite Z.add_0_l in H. apply H; clear H.
  - split; [apply same_fb_refl|]. intros i. destruct (Z.leb_spec y (i / stride fb)), (Z.ltb_spec (i / stride fb) (y + 0)); cbn; try lia; by rewrite ?andb_false_r.
  - intros k t Hk [E Hj]. destruct (paint_row_ok (u32 (u32 (y + k) * stride t) + x) w c t Hw) as [E2 Hj2].
    split; [by eapply same_fb_trans|]. intros i. rewrite Hj2, Hj. destruct (same_fb_eq _ _ E) as (_ & _ & -> & _).
    rewrite (u32_small (y + k)) by lia. assert (0 <= (y + k) * stride fb < 2 ^ 32) as Hb by nia. rewrite (u32_small _ Hb).
    pose proof (run_index (stride fb) (y + k) x w i ltac:(lia) Hx Hw ltac:(lia)) as R.
    destruct (Z.leb_spec ((y + k) * stride fb + x) i), (Z.ltb_spec i ((y + k) * stride fb + x + w)),
      (Z.leb_spec x (i mod stride fb)), (Z.ltb_spec (i mod stride fb) (x + w)), (Z.leb_spec y (i / stride fb)),
      (Z.ltb_spec (i / stride fb) (y + k)), (Z.ltb_spec (i / stride fb) (y + (k + 1))); cbn; try done; lia.
Qed.

Lemma fill_rect_ok fb x y w h c :
  fb_ok fb -> 0 <= x -> 0 <= y -> 0 <= w -> 0 <= h -> width fb + w <= 2 ^ 32 -> height fb + h <= 2 ^ 32 ->
  same_fb fb (fb_fill_rect x y w h c fb) /\ forall i, words (fb_fill_rect x y w h c fb) i = if in_rect fb x y w h i then c else words fb i.
Proof.
  intros O Hx Hy Hw Hh Hwl Hhl. unfold fb_fill_rect. rewrite (fk_usable _ O). cbn [negb].
  destruct (Z.leb_spec (width fb) x); [|destruct (Z.leb_spec (height fb) y)]; cbn [orb].
  1,2: split; [apply same_fb_refl|]; intros i; unfold in_rect; repeat zcase; cbn; lia || done.
  rewrite !clip_ok by lia. destruct (rows_ok (Z.to_nat (Z.min (y + h) (height fb) - y)) x y (Z.min (x + w) (width fb) - x) c fb) as [E Hi]; try done; try lia.
  split; [exact E|]. intros i. rewrite Hi, Z2Nat.id by lia. unfold in_rect.
  replace (x + (Z.min (x + w) (width fb) - x)) with (Z.min (x + w) (width fb)) by lia.
  replace (y + (Z.min (y + h) (height fb) - y)) with (Z.min (y + h) (height fb)) by lia. done.
Qed.

Lemma put_pixel_ok fb x y c :
  fb_ok fb -> 0 <= x -> 0 <= y ->
  same_fb fb (fb_put_pixel x y c fb) /\
  forall i, words (fb_put_pixel x y c fb) i = if (x <? width fb) && (y <? height fb) && (i =? y * stride fb + x) then c else words fb i.
Proof.
  intros [O Hw1 Hh1 Hsz Hsm] Hx Hy. unfold fb_put_pixel. rewrite O. cbn [negb].
  destruct (Z.leb_spec (width fb) x), (Z.leb_spec (height fb) y), (Z.ltb_spec x (width fb)), (Z.ltb_spec y (height fb)); cbn [orb andb]; try lia;
    try (split; [apply same_fb_refl | done]).
  split; [done|]. intros i. cbn. assert (0 <= y * stride fb + x < 2 ^ 32) as Hb by nia. rewrite (u32_small _ Hb). unfold upd. by rewrite Z.eqb_sym.
Qed.

(** ** Every primitive stays on the screen *)

(** A length that no sum with the screen's size wraps. *)
Definition len_ok (w : Z) : Prop := 0 <= w <= 2 ^ 31.

Lemma in_rect_on_screen fb x y w h i : fb_ok fb -> 0 <= x -> 0 <= y -> in_rect fb x y w h i = true -> on_screen fb i.
Proof.
  intros [_ Hw1 Hh1 _ _] Hx Hy H. unfold in_rect in H. b2p. split; [|lia].
  pose proof (Z.div_mod i (stride fb) ltac:(lia)). nia.
Qed.

Lemma fill_rect_stays fb x y w h c : fb_ok fb -> 0 <= x -> 0 <= y -> len_ok w -> len_ok h -> stays fb (fb_fill_rect x y w h c fb).
Proof.
  intros O Hx Hy Hw Hh. unfold len_ok in *. pose proof (fk_small _ O). destruct (fill_rect_ok fb x y w h c) as [E Hi]; try done; try lia.
  split; [done|]. intros i Hn. rewrite Hi. destruct (in_rect fb x y w h i) eqn:Er; [|done].
  destruct Hn. exact (in_rect_on_screen fb x y w h i O Hx Hy Er).
Qed.

Lemma put_pixel_stays fb x y c : fb_ok fb -> 0 <= x -> 0 <= y -> stays fb (fb_put_pixel x y c fb).
Proof.
  intros O Hx Hy. destruct (put_pixel_ok fb x y c O Hx Hy) as [E Hi]. split; [done|]. intros i Hn. rewrite Hi.
  destruct ((x <? width fb) && (y <? height fb) && (i =? y * stride fb + x)) eqn:Ep; [|done]. b2p. destruct Hn. subst i.
  pose proof (fk_width _ O). destruct (word_index (stride fb) x y) as [E1 E2]; [lia | lia|]. unfold on_screen. rewrite E1, E2. nia.
Qed.

(** Running steps that each stay on the screen. *)
Lemma for_up_stays n i (body : Z -> framebuffer -> framebuffer) fb :
  fb_ok fb -> (forall j t, i <= j < i + Z.of_nat n -> fb_ok t -> stays fb t -> stays t (body j t)) -> stays fb (for_up n i body fb).
Proof.
  intros O Hb. apply (for_up_inv (fun _ t => stays fb t)); [reflexivity|]. intros j t Hj Ht. etransitivity; [exact Ht|].
  apply Hb; [done | by eapply stays_ok | done].
Qed.

Lemma set_word_stays fb x y c i : fb_ok fb -> 0 <= x < width fb -> 0 <= y < height fb -> i = y * stride fb + x -> stays fb (set_word i c fb).
Proof.
  intros O Hx Hy ->. split; [done|]. intros j Hn. cbn. apply upd_ne. intros <-. destruct Hn.
  pose proof (fk_width _ O). destruct (word_index (stride fb) x y) as [E1 E2]; [lia | lia|]. unfold on_screen. rewrite E1, E2. nia.
Qed.

Lemma screen_word fb x y : fb_ok fb -> 0 <= x < width fb -> 0 <= y < height fb -> 0 <= y * stride fb /\ y * stride fb + x < 2 ^ 32.
Proof. intros [_ Hw1 Hh1 Hsz _] Hx Hy. nia. Qed.

Lemma stays_dims fb t : stays fb t -> width t = width fb /\ height t = height fb /\ stride t = stride fb.
Proof. intros [E _]. by destruct (same_fb_eq _ _ E) as (? & ? & ? & _). Qed.

Lemma clear_stays fb c : fb_ok fb -> stays fb (fb_clear c fb).
Proof.
  intros O. unfold fb_clear. rewrite (fk_usable _ O). cbn [negb]. pose proof (fk_width _ O). pose proof (fk_height _ O).
  apply for_up_stays; [done|]. intros y t Hy Ot St. destruct (stays_dims _ _ St) as (Ew & Eh & _). rewrite <- Ew, <- Eh in *.
  apply for_up_stays; [done|]. intros x u Hx Ou Su. destruct (stays_dims _ _ Su) as (Ew' & Eh' & _).
  destruct (screen_word u x y Ou) as [S1 S2]; [lia.. |]. rewrite u32_small by (split; lia). apply (set_word_stays u x y); [done | lia | lia | done].
Qed.

Lemma blend_stays fb x y c a : fb_ok fb -> 0 <= x -> 0 <= y -> stays fb (fb_blend_pixel x y c a fb).
Proof.
  intros O Hx Hy. unfold fb_blend_pixel. rewrite (fk_usable _ O). cbn [negb].
  destruct (Z.leb_spec (width fb) x); [reflexivity|]. destruct (Z.leb_spec (height fb) y); [reflexivity|]. cbn [orb].
  destruct (screen_word fb x y O) as [S1 S2]; [lia.. |]. rewrite (u32_small (y * stride fb)) by lia. apply (set_word_stays fb x y); [done | lia | lia | done].
Qed.

Lemma len_ok_small w : 0 <= w <= 2 ^ 31 -> len_ok w.
Proof. done. Qed.

(** Chains of steps: each is shown for the state before it. *)
Ltac stays_step t := etransitivity; [|apply t]; cycle 1.

Lemma draw_rect_stays fb x y w h c : fb_ok fb -> 0 <= x -> 0 <= y -> len_ok w -> len_ok h -> stays fb (fb_draw_rect x y w h c fb).
Proof.
  intros O Hx Hy Hw Hh. unfold fb_draw_rect. destruct (Z.eqb_spec w 0); [reflexivity|]. destruct (Z.eqb_spec h 0); [reflexivity|]. cbn [orb].
  unfold len_ok in *. assert (forall t x y w h, stays fb t -> 0 <= x -> 0 <= y -> len_ok w -> len_ok h -> stays fb (fb_fill_rect x y w h c t)) as Hf.
  { intros t x' y' w' h' St ? ? ? ?. etransitivity; [exact St|]. apply fill_rect_stays; try done. by eapply stays_ok. }
  pose proof (fun a => proj1 (u32_range a)) as Hu. unfold len_ok in *.
  destruct (Z.ltb_spec 1 h); [destruct (Z.ltb_spec 2 h); [destruct (Z.ltb_spec 1 w)|]|]; repeat (apply Hf; [|done || lia.. ]); reflexivity.
Qed.

Lemma blit_stays fb x y w h src : fb_ok fb -> 0 <= x -> 0 <= y -> len_ok w -> len_ok h -> stays fb (fb_blit x y w h src fb).
Proof.
  intros O Hx Hy Hw Hh. unfold fb_blit, len_ok in *. rewrite (fk_usable _ O). cbn [negb]. pose proof (fk_small _ O).
  destruct (Z.leb_spec (width fb) x); [reflexivity|]. destruct (Z.leb_spec (height fb) y); [reflexivity|]. cbn [orb].
  rewrite !clip_ok by lia. apply for_up_stays; [done|]. intros yy t Hyy Ot St. destruct (stays_dims _ _ St) as (Ew & Eh & _).
  apply for_up_stays; [done|]. intros xx u Hxx Ou Su. destruct (stays_dims _ _ Su) as (Ew' & Eh' & _).
  rewrite (u32_small (y + yy)) by lia. destruct (screen_word u (x + xx) (y + yy) Ou) as [S1 S2]; [lia.. |].
  rewrite (u32_small ((y + yy) * stride u)) by lia. apply (set_word_stays u (x + xx) (y + yy)); [done | lia | lia | lia].
Qed.

Lemma hspan_stays fb x0 x1 y c : fb_ok fb -> 0 <= x0 < 2 ^ 32 -> 0 <= x1 < 2 ^ 32 -> 0 <= y -> stays fb (rrect_hspan x0 x1 y c fb).
Proof.
  intros O H0 H1 Hy. unfold rrect_hspan. destruct (Z.leb_spec (height fb) y); [reflexivity|].
  pose proof (fk_small _ O) as [Hs _]. pose proof (fk_width _ O).
  assert (forall a b, 0 <= a <= b -> b < 2 ^ 32 -> stays fb (fb_fill_rect a y (u32 ((if width fb <=? b then u32 (width fb - 1) else b) - a + 1)) 1 c fb)) as Hf.
  { intros a b Hab Hb. rewrite (u32_small (width fb - 1)) by lia. destruct (Z.leb_spec (width fb) a).
    - unfold fb_fill_rect. rewrite (fk_usable _ O). cbn [negb]. rewrite (proj2 (Z.leb_le (width fb) a)) by done. reflexivity.
    - apply fill_rect_stays; try done; try lia; destruct (Z.leb_spec (width fb) b); rewrite u32_small by lia; unfold len_ok; lia. }
  destruct (Z.ltb_spec x1 x0); apply Hf; lia.
Qed.

(** ** Circles *)

(** [px] is the square root of [r * r - py * py], rounded. *)
Definition near (r px py : Z) : Prop := px * px - px + py * py <= r * r <= px * px + px + py * py.

Lemma circle_loop_ok (P : framebuffer -> Prop) r body : 0 <= r <= 2 ^ 28 ->
  (forall px py t, 0 <= py <= px -> px <= r -> near r px py -> P t -> P (body px py t)) ->
  forall fuel px py err fb, 0 <= px <= r -> 0 <= py <= r + 1 ->
    (py <= px -> near r px py /\ err = (py + 1) * (py + 1) + px * px - px - r * r) ->
    (Z.to_nat (px - py + 1) <= fuel)%nat -> P fb ->
    exists fb', circle_loop fuel px py err body fb = Some fb' /\ P fb'.
Proof.
  intros Hr Hb. induction fuel as [|fuel IH]; intros px py err fb Hpx Hpy Hi Hf HP; cbn [circle_loop].
  { destruct (Z.ltb_spec px py); [eauto | lia]. }
  destruct (Z.ltb_spec px py); [eauto|]. destruct (Hi ltac:(lia)) as [Hn ->].
  pose proof (Hb px py fb ltac:(lia) ltac:(lia) Hn HP) as HP'. unfold near in Hn.
  rewrite (s32_small (py + 1)), (s32_small (2 * (py + 1) + 1)) by lia.
  set (err := (py + 1) * (py + 1) + px * px - px - r * r). assert (- (2 * r) - 1 <= err <= 2 * r + 1) as He by (subst err; nia).
  destruct (Z.ltb_spec err 0).
  - rewrite s32_small by lia. apply IH; try done; try lia. intros Hle. unfold near. subst err. split; [nia | lia].
  - destruct (decide (px = 0)) as [->|Hne].
    + (* only for a circle of radius 0 or 1, and the loop ends *)
      assert (py = 0) as -> by lia. change (s32 (0 - 1)) with (-1). exists (body 0 0 fb). split; [|done].
      by destruct fuel.
    + rewrite (s32_small (px - 1)), (s32_small (py + 1 - (px - 1))), (s32_small (2 * (py + 1 - (px - 1)) + 1)), s32_small by lia.
      apply IH; try done; try lia. intros Hle. unfold near. subst err. split; [nia | lia].
Qed.

Lemma circle_ok (P : framebuffer -> Prop) r body fb : 0 <= r <= 2 ^ 28 ->
  (forall px py t, 0 <= py <= px -> px <= r -> near r px py -> P t -> P (body px py t)) ->
  P fb -> exists fb', circle r body fb = Some fb' /\ P fb'.
Proof.
  intros Hr Hb HP. unfold circle. rewrite (s32_small r), (s32_small (1 - r)) by lia.
  apply (circle_loop_ok P r body Hr Hb); try done; try lia. intros _. unfold near. lia.
Qed.

Lemma put4_stays fb xl xr yt yb c : fb_ok fb -> 0 <= xl -> 0 <= xr -> 0 <= yt -> 0 <= yb -> stays fb (put4 xl xr yt yb c fb).
Proof.
  intros O ? ? ? ?. unfold put4. assert (forall t x y, stays fb t -> 0 <= x -> 0 <= y -> stays fb (fb_put_pixel x y c t)) as Hp.
  { intros t x y St ? ?. etransitivity; [exact St|]. apply put_pixel_stays; try done. by eapply stays_ok. }
  repeat (apply Hp; [|done..]). reflexivity.
Qed.

(** Steps from a state that is still on the screen. *)
Lemma then_stays fb t (f : framebuffer -> framebuffer) : fb_ok fb -> (forall u, fb_ok u -> stays u (f u)) -> stays fb t -> stays fb (f t).
Proof. intros O Hf St. etransitivity; [exact St|]. apply Hf. by eapply stays_ok. Qed.

Lemma u32_nonneg a : 0 <= u32 a.
Proof. apply u32_range. Qed.
Lemma u32_len a : 0 <= u32 a < 2 ^ 32.
Proof. apply u32_range. Qed.
Hint Resolve u32_nonneg u32_len : aios.

Lemma circle_stays fb r body : fb_ok fb -> 0 <= r <= 2 ^ 28 ->
  (forall px py u, 0 <= py <= px -> px <= r -> fb_ok u -> stays u (body px py u)) ->
  exists fb', circle r body fb = Some fb' /\ stays fb fb'.
Proof.
  intros O Hr Hb. apply (circle_ok (fun t => stays fb t)); [done | | reflexivity].
  intros px py t H1 H2 _ St. etransitivity; [exact St|]. apply Hb; [done | done | by eapply stays_ok].
Qed.

Lemma fill_circle_stays fb cx cy r c : fb_ok fb -> 0 <= r <= 2 ^ 28 -> exists fb', fb_fill_circle cx cy r c fb = Some fb' /\ stays fb fb'.
Proof.
  intros O Hr. apply circle_stays; [done | done|]. intros px py u H1 H2 Ou.
  assert (forall t x y k, 0 <= k <= r -> stays u t -> stays u (fb_fill_rect (u32 x) (u32 y) (u32 (2 * k + 1)) 1 c t)) as Hf.
  { intros t x y k Hk St. apply (then_stays u t); [done | | done]. intros v Ov. apply fill_rect_stays; auto with aios; [|unfold len_ok; lia].
    rewrite u32_small by lia. unfold len_ok. lia. }
  destruct (negb _); repeat (apply Hf; [lia|]); reflexivity.
Qed.

Lemma draw_circle_stays fb cx cy r c : fb_ok fb -> 0 <= r <= 2 ^ 28 -> exists fb', fb_draw_circle cx cy r c fb = Some fb' /\ stays fb fb'.
Proof.
  intros O Hr. apply circle_stays; [done | done|]. intros px py u H1 H2 Ou. cbv zeta.
  apply then_stays; [done | intros v Ov; apply put4_stays; auto with aios | apply put4_stays; auto with aios].
Qed.

Lemma clamp_radius_range w h r : 0 <= w -> 0 <= h -> 0 <= r -> 0 <= clamp_radius w h r /\ 2 * clamp_radius w h r <= w /\ 2 * clamp_radius w h r <= h.
Proof.
  intros Hw Hh Hr. unfold clamp_radius. destruct (Z.ltb_spec (w / 2) r) as [H1|H1].
  - destruct (Z.ltb_spec (h / 2) (w / 2)); dlia.
  - destruct (Z.ltb_spec (h / 2) r); dlia.
Qed.

(** A rectangle with rounded corners, of a size up to 2^29. *)
Definition size_ok (w h r : Z) : Prop := 0 <= w <= 2 ^ 29 /\ 0 <= h <= 2 ^ 29 /\ 0 <= r.

Lemma fill_rounded_stays fb x y w h r c :
  fb_ok fb -> 0 <= x -> 0 <= y -> size_ok w h r -> exists fb', fb_fill_rounded_rect x y w h r c fb = Some fb' /\ stays fb fb'.
Proof.
  intros O Hx Hy (Hw & Hh & Hr). unfold fb_fill_rounded_rect. destruct (Z.eqb_spec w 0); [eexists; split; [done | reflexivity]|].
  destruct (Z.eqb_spec h 0); [eexists; split; [done | reflexivity]|]. cbn [orb].
  destruct (clamp_radius_range w h r) as (R0 & R1 & R2); [lia.. |]. set (k := clamp_radius w h r) in *.
  destruct (Z.eqb_spec k 0). { eexists. split; [done|]. apply fill_rect_stays; try done; unfold len_ok; lia. }
  rewrite (u32_small (w - 2 * k)), (u32_small (h - 2 * k)) by lia.
  assert (forall t x y w h, stays fb t -> 0 <= x -> 0 <= y -> len_ok w -> len_ok h -> stays fb (fb_fill_rect x y w h c t)) as Hf.
  { intros t x' y' w' h' St ? ? ? ?. apply (then_stays fb t); [done | intros; by apply fill_rect_stays | done]. }
  unfold len_ok in *. set (t := fb_fill_rect _ _ _ _ c (fb_fill_rect _ _ _ _ c (fb_fill_rect _ _ _ _ c fb))).
  assert (stays fb t) as St by (subst t; repeat (apply Hf; [|auto with aios; lia..]); reflexivity).
  destruct (circle_stays t k (fun px py fb0 =>
        let fb1 := rrect_hspan (u32 (s32 (x + k) - px)) (u32 (s32 (x + w - k - 1) + px)) (u32 (s32 (y + k) - py)) c fb0 in
        let fb2 := rrect_hspan (u32 (s32 (x + k) - px)) (u32 (s32 (x + w - k - 1) + px)) (u32 (s32 (y + h - k - 1) + py)) c fb1 in
        if negb (py =? px) then
          let fb3 := rrect_hspan (u32 (s32 (x + k) - py)) (u32 (s32 (x + w - k - 1) + py)) (u32 (s32 (y + k) - px)) c fb2 in
          rrect_hspan (u32 (s32 (x + k) - py)) (u32 (s32 (x + w - k - 1) + py)) (u32 (s32 (y + h - k - 1) + px)) c fb3
        else fb2)) as (fb' & E & S'); [by eapply stays_ok | lia | |].
  - intros px py u _ _ Ou. cbv zeta.
    assert (forall v a b d, stays u v -> stays u (rrect_hspan (u32 a) (u32 b) (u32 d) c v)) as Hs.
    { intros v a b d Sv. apply (then_stays u v); [done | | done]. intros z Oz. apply hspan_stays; auto with aios. }
    destruct (negb _); repeat apply Hs; reflexivity.
  - exists fb'. split; [exact E | by etransitivity].
Qed.

Lemma draw_rounded_stays fb x y w h r c :
  fb_ok fb -> 0 <= x -> 0 <= y -> size_ok w h r -> exists fb', fb_draw_rounded_rect x y w h r c fb = Some fb' /\ stays fb fb'.
Proof.
  intros O Hx Hy (Hw & Hh & Hr). unfold fb_draw_rounded_rect. destruct (Z.eqb_spec w 0); [eexists; split; [done | reflexivity]|].
  destruct (Z.eqb_spec h 0); [eexists; split; [done | reflexivity]|]. cbn [orb].
  destruct (clamp_radius_range w h r) as (R0 & R1 & R2); [lia.. |]. set (k := clamp_radius w h r) in *.
  destruct (Z.eqb_spec k 0). { eexists. split; [done|]. apply draw_rect_stays; try done; unfold len_ok; lia. }
  rewrite (u32_small (w - 2 * k)), (u32_small (h - 2 * k)) by lia.
  assert (forall t x y w h, stays fb t -> 0 <= x -> 0 <= y -> len_ok w -> len_ok h -> stays fb (fb_fill_rect x y w h c t)) as Hf.
  { intros t x' y' w' h' St ? ? ? ?. apply (then_stays fb t); [done | intros; by apply fill_rect_stays | done]. }
  unfold len_ok in *. set (t := fb_fill_rect _ _ _ _ c (fb_fill_rect _ _ _ _ c (fb_fill_rect _ _ _ _ c (fb_fill_rect _ _ _ _ c fb)))).
  assert (stays fb t) as St by (subst t; repeat (apply Hf; [|auto with aios; lia..]); reflexivity).
  destruct (circle_stays t k (fun px py fb0 =>
        let fb1 := put4 (u32 (s32 (x + k) - px)) (u32 (s32 (x + w - k - 1) + px)) (u32 (s32 (y + k) - py)) (u32 (s32 (y + h - k - 1) + py)) c fb0 in
        if negb (py =? px) then put4 (u32 (s32 (x + k) - py)) (u32 (s32 (x + w - k - 1) + py)) (u32 (s32 (y + k) - px)) (u32 (s32 (y + h - k - 1) + px)) c fb1
        else fb1)) as (fb' & E & S'); [by eapply stays_ok | lia | |].
  - intros px py u _ _ Ou. cbv zeta.
    destruct (negb _); [apply then_stays; [done | intros v Ov|]|]; apply put4_stays; auto with aios.
  - exists fb'. split; [exact E | by etransitivity].
Qed.

(** ** Pixels *)

Definition pixel (fb : framebuffer) (x y : Z) : Z := words fb (y * stride fb + x).

(** Filling a rectangle paints exactly the pixels of its part on the
    screen: the rectangle is clipped at the right and the lower edge, and no
    word of the memory outside it changes. *)
Theorem fb_fill_rect_correct fb x y w h c :
  fb_ok fb -> 0 <= x -> 0 <= y -> 0 <= w -> 0 <= h -> width fb + w <= 2 ^ 32 -> height fb + h <= 2 ^ 32 ->
  let fb' := fb_fill_rect x y w h c fb in
  (forall px py, 0 <= px < width fb -> 0 <= py < height fb ->
     pixel fb' px py = if decide (x <= px < x + w /\ y <= py < y + h) then c else pixel fb px py) /\
  (forall i, ~ on_screen fb i -> words fb' i = words fb i).
Proof.
  intros O Hx Hy Hw Hh Hwl Hhl fb'. subst fb'. destruct (fill_rect_ok fb x y w h c) as [E Hi]; try done. split.
  - intros px py Hpx Hpy. unfold pixel. destruct (same_fb_eq _ _ E) as (_ & _ & -> & _). rewrite Hi. unfold in_rect.
    pose proof (fk_width _ O). destruct (word_index (stride fb) px py) as [-> ->]; [lia.. |].
    destruct (decide _) as [D|D]; repeat zcase; cbn; try done; lia.
  - intros i Hn. rewrite Hi. destruct (in_rect fb x y w h i) eqn:Er; [|done]. destruct Hn. exact (in_rect_on_screen fb x y w h i O Hx Hy Er).
Qed.

(** C20: no drawing primitive writes outside the screen: neither beyond the
    buffer nor into the padding of its rows, wherever the shape is placed and
    however much of it is off the screen, as long as its size stays below
    2^29; and the loops of the circles end. *)
Theorem fb_primitives_stay_on_screen fb x y w h r c :
  fb_ok fb -> 0 <= x -> 0 <= y -> size_ok w h r -> r <= 2 ^ 28 ->
  stays fb (fb_clear c fb) /\ stays fb (fb_put_pixel x y c fb) /\ (forall a, stays fb (fb_blend_pixel x y c a fb)) /\
  stays fb (fb_fill_rect x y w h c fb) /\ stays fb (fb_draw_rect x y w h c fb) /\ (forall src, stays fb (fb_blit x y w h src fb)) /\
  (exists fb', fb_fill_rounded_rect x y w h r c fb = Some fb' /\ stays fb fb') /\
  (exists fb', fb_draw_rounded_rect x y w h r c fb = Some fb' /\ stays fb fb') /\
  (exists fb', fb_fill_circle x y r c fb = Some fb' /\ stays fb fb') /\
  (exists fb', fb_draw_circle x y r c fb = Some fb' /\ stays fb fb').
Proof.
  intros O Hx Hy S Hr. pose proof S as (Hw & Hh & Hr0). assert (len_ok w /\ len_ok h) as [Lw Lh] by (unfold len_ok; lia).
  split_and!; intros; try (by apply clear_stays || by apply put_pixel_stays || by apply blend_stays || by apply fill_rect_stays || by apply draw_rect_stays || by apply blit_stays).
  - by apply fill_rounded_stays.
  - by apply draw_rounded_stays.
  - by apply fill_circle_stays.
  - by apply draw_circle_stays.
Qed.

(** The clipping test wraps: a width whose sum with the left edge is
    2^32 is not clipped, and the row runs on over everything behind it. *)
Theorem fb_fill_rect_wraps fb x y c :
  fb_ok fb -> 0 <= x < width fb -> 0 <= y < height fb ->
  forall j, 0 <= j < 2 ^ 32 - x -> words (fb_fill_rect x y (2 ^ 32 - x) 1 c fb) (y * stride fb + x + j) = c.
Proof.
  intros O Hx Hy j Hj. unfold fb_fill_rect. rewrite (fk_usable _ O). cbn [negb].
  rewrite (proj2 (Z.leb_gt (width fb) x)), (proj2 (Z.leb_gt (height fb) y)) by lia. cbn [orb].
  pose proof (fk_small _ O). pose proof (fk_width _ O).
  assert (clip x (2 ^ 32 - x) (width fb) = 2 ^ 32 - x) as ->.
  { unfold clip. replace (x + (2 ^ 32 - x)) with (2 ^ 32) by lia. change (u32 (2 ^ 32)) with 0. by rewrite (proj2 (Z.ltb_ge (width fb) 0)) by lia. }
  assert (clip y 1 (height fb) = 1) as ->.
  { unfold clip. rewrite u32_small by lia. by rewrite (proj2 (Z.ltb_ge (height fb) (y + 1))) by lia. }
  change (Z.to_nat 1) with 1%nat. cbn [for_up]. rewrite Z.add_0_r, (u32_small y) by lia.
  destruct (screen_word fb x y O) as [S1 S2]; [lia.. |]. rewrite (u32_small (y * stride fb)) by lia.
  destruct (paint_row_ok (y * stride fb + x) (2 ^ 32 - x) c fb) as [_ Hi]; [lia|]. rewrite Hi.
  rewrite (proj2 (Z.leb_le _ (y * stride fb + x + j))), (proj2 (Z.ltb_lt (y * stride fb + x + j) _)) by lia. done.
Qed.

(** The point is at the distances [dx], [dy] of the circle, rounded. *)
Definition on_circle (r dx dy : Z) : Prop := near r (Z.max (Z.abs dx) (Z.abs dy)) (Z.min (Z.abs dx) (Z.abs dy)).

Lemma u32_offset a d x : 0 <= a <= 2 ^ 30 -> - 2 ^ 28 <= d <= 2 ^ 28 -> x < 2 ^ 30 -> u32 (a + d) = x -> x = a + d.
Proof.
  intros Ha Hd Hx E. destruct (Z.lt_ge_cases (a + d) 0).
  - exfalso. unfold u32 in E. rewrite <- (Z.mod_add _ 1), Z.mod_small in E by lia. lia.
  - rewrite u32_small in E by lia. lia.
Qed.

(** A circle is round: every pixel its outline changes gets the colour
    and lies on the circle to the nearest pixel, seen from the axis it is
    closer to: with [a >= b] its distances from the centre along the axes, [a]
    is the square root of [r * r - b * b], rounded. *)
Theorem fb_draw_circle_round fb cx cy r c :
  fb_ok fb -> 0 <= cx <= 2 ^ 30 -> 0 <= cy <= 2 ^ 30 -> 0 <= r <= 2 ^ 28 ->
  exists fb', fb_draw_circle cx cy r c fb = Some fb' /\ stays fb fb' /\
    forall x y, 0 <= x < width fb -> 0 <= y < height fb ->
      pixel fb' x y = pixel fb x y \/ pixel fb' x y = c /\ on_circle r (x - cx) (y - cy).
Proof.
  intros O Hcx Hcy Hr. set (P := fun t => stays fb t /\ forall x y, 0 <= x < width fb -> 0 <= y < height fb ->
    pixel t x y = pixel fb x y \/ pixel t x y = c /\ on_circle r (x - cx) (y - cy)).
  apply (circle_ok P); [done | | split; [reflexivity | by left]].
  assert (forall px py t dx dy, 0 <= py <= px -> px <= r -> near r px py -> (Z.abs dx = px /\ Z.abs dy = py \/ Z.abs dx = py /\ Z.abs dy = px) -> P t ->
    P (fb_put_pixel (u32 (cx + dx)) (u32 (cy + dy)) c t)) as Hput.
  { intros px py t dx dy H1 H2 Hn Hd [St Hp]. pose proof (stays_ok _ _ St O) as Ot. split.
    { etransitivity; [exact St|]. apply put_pixel_stays; auto with aios. }
    intros x y Hx Hy. destruct (put_pixel_ok t (u32 (cx + dx)) (u32 (cy + dy)) c Ot) as [E Hi]; auto with aios.
    destruct (stays_dims _ _ St) as (Ew & Eh & Es). unfold pixel. destruct (same_fb_eq _ _ E) as (_ & _ & -> & _). rewrite Hi.
    match goal with |- context [if ?b then c else _] => destruct b eqn:Eb end; [|exact (Hp x y Hx Hy)]. right. split; [done|]. b2p. pose proof (fk_width _ O). pose proof (fk_small _ O).
    rewrite Es in *. pose proof (u32_nonneg (cx + dx)). pose proof (u32_nonneg (cy + dy)).
    destruct (word_index (stride fb) x y) as [E1 E2]; [lia.. |]. destruct (word_index (stride fb) (u32 (cx + dx)) (u32 (cy + dy))) as [E3 E4]; [lia.. |].
    replace (y * stride fb + x) with (u32 (cy + dy) * stride fb + u32 (cx + dx)) in E1, E2 by lia. rewrite E3 in E1. rewrite E4 in E2.
    apply (u32_offset cx dx x) in E2; [|lia.. ]. apply (u32_offset cy dy y) in E1; [|lia.. ]. subst x y.
    unfold on_circle. replace (cx + dx - cx) with dx by lia. replace (cy + dy - cy) with dy by lia.
    replace (Z.max (Z.abs dx) (Z.abs dy)) with px by lia. replace (Z.min (Z.abs dx) (Z.abs dy)) with py by lia. done. }
  intros px py t H1 H2 Hn Pt. cbv zeta. unfold put4. rewrite <- !Z.add_opp_r.
  repeat (apply (Hput px py); [done | done | done | lia |]). exact Pt.
Qed.

(** ** Witnesses *)

Definition demo_fb : framebuffer := mk_fb 1024 768 4096 32 1 0xFD000000 (fun _ => 0).

Lemma demo_fb_ok : fb_ok demo_fb.
Proof. constructor; [reflexivity | split; vm_compute; discriminate | vm_compute; discriminate | reflexivity | split; vm_compute; discriminate]. Qed.

Lemma fb_fill_rect_correct_witness : pixel (fb_fill_rect 1000 10 100 5 7 demo_fb) 1023 14 = 7.
Proof.
  rewrite (proj1 (fb_fill_rect_correct demo_fb 1000 10 100 5 7 demo_fb_ok ltac:(lia) ltac:(lia) ltac:(lia) ltac:(lia) ltac:(cbn; lia) ltac:(cbn; lia)));
    [reflexivity | cbn; lia | cbn; lia].
Defined.

Lemma fb_primitives_stay_on_screen_witness : stays demo_fb (fb_clear 3 demo_fb).
Proof.
  refine (proj1 (fb_primitives_stay_on_screen demo_fb 1 2 30 40 5 3 demo_fb_ok _ _ _ _)); unfold size_ok; lia.
Defined.

(** A row that runs over the start of the next one. *)
Lemma fb_fill_rect_wraps_witness : words (fb_fill_rect 1000 0 (2 ^ 32 - 1000) 1 7 demo_fb) 2000 = 7.
Proof.
  refine (fb_fill_rect_wraps demo_fb 1000 0 7 demo_fb_ok _ _ 1000 _); cbn; lia.
Defined.

Lemma fb_draw_circle_round_witness : exists fb', fb_draw_circle 33 748 17 5 demo_fb = Some fb' /\ stays demo_fb fb'.
Proof.
  destruct (fb_draw_circle_round demo_fb 33 748 17 5 demo_fb_ok) as (fb' & E & S & _); [lia.. |]. exists fb'. split; [exact E | exact S].
Defined.
