(* ===== verification/Font.v ===== *)
(** Text on the frame buffer (kernel/gfx/font.c): the glyph table, characters
    and strings, and labels centred in a region.  A string is the list of its
    characters.

    Text on the frame buffer: which pixels a character, a string and a
    centred label set. *)

From S2P Require Import Prelude Memory Framebuffer.
Local Open Scope Z_scope.

Record gui_font := mk_font { font_width : Z; font_height : Z }.
Definition g_builtin_font : gui_font := mk_font 8 16.
Definition font_load_builtin : gui_font := g_builtin_font.

(** The glyphs of the table; those of the other characters, and the rows not
    given, are blank. *)
Definition glyph_rows : list (list Z) :=
  [ [];
    [0x18;0x18;0x18;0x18;0x18;0x18;0x18;0x18;0x00;0x18;0x18];
    [0x6c;0x6c;0x24];
    [0x24;0x24;0x7e;0x24;0x24;0x24;0x7e;0x24;0x24];
    [0x18;0x3c;0x66;0x06;0x1c;0x30;0x66;0x3c;0x18;0x18];
    [0x62;0x66;0x0c;0x18;0x30;0x60;0x66;0x46];
    [0x18;0x3c;0x3c;0x18;0x3a;0x6e;0x66;0x3b];
    [0x18;0x18;0x10];
    [0x0c;0x18;0x30;0x30;0x30;0x30;0x30;0x18;0x0c];
    [0x30;0x18;0x0c;0x0c;0x0c;0x0c;0x0c;0x18;0x30] ].
Definition g_font_bitmap (i row : Z) : Z := nth (Z.to_nat row) (nth (Z.to_nat i) glyph_rows []) 0.

(** The index of the glyph; a byte from 128 on is a negative [char]. *)
Definition font_get_glyph (ch : Z) : Z := if (ch <? 32) || (127 <? ch) then 0 else ch - 32.

(** The line a string starts with. *)
Fixpoint first_line (s : list Z) : list Z :=
  match s with
  | [] => []
  | c :: s => if c =? 10 then [] else c :: first_line s
  end.

Definition font_measure_string (font : gui_font) (s : list Z) : Z := u32 (u32 (Z.of_nat (length (first_line s))) * font_width font).

Definition glyph_bit (ch row col : Z) : bool := negb (Z.land (g_font_bitmap (font_get_glyph ch) row) (Z.shiftr 0x80 col) =? 0).

Definition font_draw_char (font : gui_font) (x y ch fg bg : Z) (fb : framebuffer) : framebuffer :=
  let fb := fb_fill_rect x y (font_width font) (font_height font) bg fb in
  for_up (Z.to_nat (font_height font)) 0 (fun row fb =>
    for_up (Z.to_nat (font_width font)) 0 (fun col fb =>
      if glyph_bit ch row col then fb_put_pixel (u32 (x + col)) (u32 (y + row)) fg fb else fb) fb) fb.

Fixpoint draw_chars (font : gui_font) (cx y : Z) (s : list Z) (fg bg : Z) (fb : framebuffer) : framebuffer :=
  match s with
  | [] => fb
  | ch :: s => draw_chars font (u32 (cx + font_width font)) y s fg bg (font_draw_char font cx y ch fg bg fb)
  end.
Definition font_draw_string (font : gui_font) (x y : Z) (s : list Z) (fg bg : Z) (fb : framebuffer) : framebuffer :=
  draw_chars font x y (first_line s) fg bg fb.

(** [buf] holds a string that fits [buf_size] bytes. *)
Definition font_truncate_with_ellipsis (buf : list Z) (buf_size : Z) : list Z :=
  if buf_size <? 4 then buf
  else
    let len := Nat.min (length buf) (Z.to_nat (buf_size - 1)) in
    if (len <? 3)%nat then buf else take (len - 3) buf ++ [46; 46; 46] ++ drop len buf.

(** The text that is drawn and its left edge. *)
Definition centered_text (font : gui_font) (region_w : Z) (s : list Z) : list Z :=
  let tmp := take 63 s in
  if (region_w <? font_measure_string font tmp) && (font_width font * 3 <=? region_w) then
    let max_chars := region_w / font_width font in
    if (3 <=? max_chars) && (max_chars <? 63) then font_truncate_with_ellipsis (take (Z.to_nat max_chars) tmp) (max_chars + 1) else tmp
  else tmp.
Definition centered_x (font : gui_font) (region_x region_w : Z) (tmp : list Z) : Z :=
  let text_w := font_measure_string font tmp in
  if text_w <? region_w then u32 (region_x + (region_w - text_w) / 2) else region_x.

Definition font_draw_string_centered (font : gui_font) (region_x region_y region_w : Z) (s : list Z) (fg bg : Z) (fb : framebuffer) : framebuffer :=
  let tmp := centered_text font region_w s in
  font_draw_string font (centered_x font region_x region_w tmp) region_y tmp fg bg fb.

(** * Specification *)

(** The dots of the glyph of [ch]: the bits of the row of the table, the
    highest first; characters without a glyph are blank. *)
Definition dot (ch row col : Z) : bool := (32 <=? ch) && (ch <=? 127) && Z.testbit (g_font_bitmap (ch - 32) row) (7 - col).

(** The colour of a pixel of the cell of [ch], at row and column of the cell. *)
Definition cell_colour (ch row col fg bg : Z) : Z := if dot ch row col then fg else bg.

Lemma glyph_bit_dot ch row col : 0 <= col < 8 -> glyph_bit ch row col = dot ch row col.
Proof.
  intros Hc. unfold glyph_bit, dot, font_get_glyph.
  assert (Z.shiftr 0x80 col = 2 ^ (7 - col)) as ->.
  { change 0x80 with (2 ^ 7). rewrite Z.shiftr_div_pow2, <- Z.pow_sub_r by lia. done. }
  assert (forall b, negb (Z.land b (2 ^ (7 - col)) =? 0) = Z.testbit b (7 - col)) as Hb.
  { intros b. destruct (Z.testbit b (7 - col)) eqn:E.
    - destruct (Z.eqb_spec (Z.land b (2 ^ (7 - col))) 0) as [E0|]; [|done].
      apply (f_equal (fun x => Z.testbit x (7 - col))) in E0. rewrite Z.land_spec, E, Z.pow2_bits_true, Z.bits_0 in E0 by lia. done.
    - replace (Z.land b (2 ^ (7 - col))) with 0; [done|]. symmetry. apply Z.bits_inj_0. intros n. rewrite Z.land_spec, Z.pow2_bits_eqb by lia.
      destruct (Z.eqb_spec (7 - col) n) as [<-|]; [by rewrite E | by rewrite andb_false_r]. }
  rewrite Hb. destruct (Z.ltb_spec ch 32), (Z.ltb_spec 127 ch), (Z.leb_spec 32 ch), (Z.leb_spec ch 127); cbn [orb andb]; try lia; try done;
    unfold g_font_bitmap; change (Z.to_nat 0) with 0%nat; cbn [glyph_rows nth]; by destruct (Z.to_nat row); rewrite Z.bits_0.
Qed.

(** [t] shows [f] on the screen of [fb], and elsewhere what [fb] holds. *)
Definition shows (fb t : framebuffer) (f : Z -> Z -> Z) : Prop :=
  stays fb t /\ forall px py, 0 <= px < width fb -> 0 <= py < height fb -> pixel t px py = f px py.

Lemma shows_ext fb t f g :
  (forall px py, 0 <= px < width fb -> 0 <= py < height fb -> f px py = g px py) -> shows fb t f -> shows fb t g.
Proof. intros He [H1 H2]. split; [done|]. intros px py Hx Hy. rewrite <- He by done. by apply H2. Qed.

Lemma shows_refl fb : shows fb fb (pixel fb).
Proof. split; [reflexivity | done]. Qed.

(** One pixel more. *)
Lemma shows_put fb t f x y c :
  fb_ok fb -> 0 <= x -> 0 <= y -> shows fb t f ->
  shows fb (fb_put_pixel x y c t) (fun px py => if decide (px = x /\ py = y) then c else f px py).
Proof.
  intros O Hx Hy [St Hf]. pose proof (stays_ok _ _ St O) as Ot. split.
  { etransitivity; [exact St | by apply put_pixel_stays]. }
  intros px py Hpx Hpy. destruct (put_pixel_ok t x y c Ot Hx Hy) as [E Hi]. destruct (stays_dims _ _ St) as (Ew & Eh & Es).
  unfold pixel. destruct (same_fb_eq _ _ E) as (_ & _ & -> & _). rewrite Hi, Ew, Eh. specialize (Hf px py Hpx Hpy). unfold pixel in Hf.
  pose proof (fk_width _ O). rewrite Es in *. destruct (word_index (stride fb) px py) as [E1 E2]; [lia.. |].
  destruct (decide (px = x /\ py = y)) as [[-> ->]|D].
  - by rewrite (proj2 (Z.ltb_lt _ _)), (proj2 (Z.ltb_lt _ _)), Z.eqb_refl by lia.
  - destruct (Z.ltb_spec x (width fb)), (Z.ltb_spec y (height fb)); cbn [andb]; try done.
    destruct (Z.eqb_spec (py * stride fb + px) (y * stride fb + x)) as [E'|]; [|done]. exfalso.
    destruct (word_index (stride fb) x y) as [E3 E4]; [lia.. |]. rewrite E' in E1, E2. apply D. lia.
Qed.

(** A rectangle more. *)
Lemma shows_fill fb t f x y w h c :
  fb_ok fb -> 0 <= x -> 0 <= y -> len_ok w -> len_ok h -> shows fb t f ->
  shows fb (fb_fill_rect x y w h c t) (fun px py => if decide (x <= px < x + w /\ y <= py < y + h) then c else f px py).
Proof.
  intros O Hx Hy Hw Hh [St Hf]. pose proof (stays_ok _ _ St O) as Ot. pose proof (fk_small _ O). unfold len_ok in *.
  destruct (stays_dims _ _ St) as (Ew & Eh & Es). split.
  { etransitivity; [exact St | by apply fill_rect_stays]. }
  intros px py Hpx Hpy. destruct (fill_rect_ok t x y w h c Ot) as [E Hi]; try lia. unfold pixel.
  destruct (same_fb_eq _ _ E) as (_ & _ & -> & _). rewrite Hi. specialize (Hf px py Hpx Hpy). unfold pixel in Hf. rewrite Hf.
  unfold in_rect. pose proof (fk_width _ O). rewrite Es, Ew, Eh. destruct (word_index (stride fb) px py) as [-> ->]; [lia.. |].
  destruct (decide _) as [D|D]; repeat zcase; cbn; try done; lia.
Qed.

(** ** Characters *)

(** The rows of the glyph above [r], and in row [r] its columns left of [k]. *)
Definition partly (x y ch fg bg : Z) (font : gui_font) (r k : Z) (f : Z -> Z -> Z) (px py : Z) : Z :=
  if decide (x <= px < x + font_width font /\ y <= py < y + font_height font) then
    if decide (py < y + r \/ py = y + r /\ px < x + k) then cell_colour ch (py - y) (px - x) fg bg else bg
  else f px py.

Definition font_ok (font : gui_font) : Prop := 1 <= font_width font <= 8 /\ 1 <= font_height font <= 16.

Lemma draw_row_shows fb t f font x y ch fg bg r :
  fb_ok fb -> font_ok font -> 0 <= x <= 2 ^ 31 -> 0 <= y <= 2 ^ 31 -> 0 <= r < font_height font ->
  shows fb t (partly x y ch fg bg font r 0 f) ->
  shows fb (for_up (Z.to_nat (font_width font)) 0 (fun col fb =>
      if glyph_bit ch r col then fb_put_pixel (u32 (x + col)) (u32 (y + r)) fg fb else fb) t) (partly x y ch fg bg font (r + 1) 0 f).
Proof.
  intros O [Fw Fh] Hx Hy Hr H0.
  assert (forall t', shows fb t' (partly x y ch fg bg font r (font_width font) f) -> shows fb t' (partly x y ch fg bg font (r + 1) 0 f)) as Hn.
  { intros t'. apply shows_ext. intros px py _ _. unfold partly. repeat case_decide; try done; lia. }
  apply Hn. pose proof (for_up_inv (fun k t => shows fb t (partly x y ch fg bg font r k f)) (Z.to_nat (font_width font)) 0) as H.
  rewrite Z2Nat.id in H by lia. apply H; [exact H0|]. intros k u Hk Hu. rewrite (u32_small (x + k)), (u32_small (y + r)) by lia. rewrite glyph_bit_dot by lia.
  destruct (dot ch r k) eqn:Eb.
  - eapply shows_ext; [|apply (shows_put fb u _ (x + k) (y + r) fg O ltac:(lia) ltac:(lia) Hu)]. intros px py _ _. cbn beta. unfold partly, cell_colour.
    destruct (decide (px = x + k /\ py = y + r)) as [[-> ->]|D].
    + replace (y + r - y) with r by lia. replace (x + k - x) with k by lia. rewrite Eb. repeat case_decide; done || lia.
    + repeat case_decide; done || lia.
  - eapply shows_ext; [|exact Hu]. intros px py _ _. unfold partly, cell_colour. repeat case_decide; try (done || lia).
    assert (py - y = r) as -> by lia. assert (px - x = k) as -> by lia. by rewrite Eb.
Qed.

Lemma draw_char_shows fb t f font x y ch fg bg :
  fb_ok fb -> font_ok font -> 0 <= x <= 2 ^ 31 -> 0 <= y <= 2 ^ 31 -> shows fb t f ->
  shows fb (font_draw_char font x y ch fg bg t) (fun px py =>
    if decide (x <= px < x + font_width font /\ y <= py < y + font_height font) then cell_colour ch (py - y) (px - x) fg bg else f px py).
Proof.
  intros O F Hx Hy Ht. pose proof F as [Fw Fh]. unfold font_draw_char.
  assert (forall t', shows fb t' (partly x y ch fg bg font (font_height font) 0 f) -> shows fb t' (fun px py =>
    if decide (x <= px < x + font_width font /\ y <= py < y + font_height font) then cell_colour ch (py - y) (px - x) fg bg else f px py)) as Hn.
  { intros t'. apply shows_ext. intros px py _ _. unfold partly. repeat case_decide; try done; lia. }
  apply Hn. pose proof (for_up_inv (fun r t => shows fb t (partly x y ch fg bg font r 0 f)) (Z.to_nat (font_height font)) 0) as H.
  rewrite Z2Nat.id in H by lia. apply H.
  - eapply shows_ext; [|refine (shows_fill fb t f x y (font_width font) (font_height font) bg O _ _ _ _ Ht); unfold len_ok; lia].
    intros px py _ _. unfold partly. repeat case_decide; done || lia.
  - intros r u Hr Hu. by apply draw_row_shows.
Qed.

(** ** Strings *)

(** The text [s] in a row of cells from [x], [y] on, over [f]. *)
Definition text_pixels (font : gui_font) (x y : Z) (s : list Z) (fg bg : Z) (f : Z -> Z -> Z) (px py : Z) : Z :=
  if decide (x <= px < x + font_width font * Z.of_nat (length s) /\ y <= py < y + font_height font) then
    cell_colour (nth (Z.to_nat ((px - x) / font_width font)) s 0) (py - y) ((px - x) mod font_width font) fg bg
  else f px py.

Lemma draw_chars_shows font y fg bg fb :
  fb_ok fb -> font_ok font -> 0 <= y <= 2 ^ 31 -> forall s x t f,
  0 <= x -> x + font_width font * Z.of_nat (length s) <= 2 ^ 31 -> shows fb t f ->
  shows fb (draw_chars font x y s fg bg t) (text_pixels font x y s fg bg f).
Proof.
  intros O F Hy. pose proof F as [Fw Fh]. induction s as [|ch s IH]; intros x t f Hx Hl Ht; cbn [draw_chars length] in *.
  - eapply shows_ext; [|exact Ht]. intros px py _ _. unfold text_pixels. cbn [length]. case_decide; [lia | done].
  - rewrite Nat2Z.inj_succ, Z.mul_succ_r in Hl. rewrite u32_small by nia.
    eapply shows_ext; [|apply IH; [lia | lia | apply (draw_char_shows _ _ f); [done | done | nia | done | exact Ht]]].
    intros px py _ _. unfold text_pixels. cbn [length nth]. rewrite Nat2Z.inj_succ, Z.mul_succ_r. set (w := font_width font) in *.
    destruct (decide (x + w <= px)) as [D|D].
    + assert ((px - x) / w = (px - (x + w)) / w + 1) as ->.
      { replace (px - x) with (px - (x + w) + 1 * w) by lia. rewrite Z.div_add by lia. done. }
      assert ((px - x) mod w = (px - (x + w)) mod w) as ->.
      { replace (px - x) with (px - (x + w) + 1 * w) by lia. rewrite Z.mod_add by lia. done. }
      assert (0 <= (px - (x + w)) / w) by (apply Z.div_pos; lia).
      replace (Z.to_nat ((px - (x + w)) / w + 1)) with (S (Z.to_nat ((px - (x + w)) / w))) by lia.
      repeat case_decide; done || lia.
    + destruct (decide (x <= px)) as [D2|]; [rewrite (Z.div_small (px - x)), (Z.mod_small (px - x)) by lia; change (Z.to_nat 0) with 0%nat; cbn [nth]|];
        repeat case_decide; done || nia.
Qed.

Lemma first_line_length s : (length (first_line s) <= length s)%nat.
Proof. induction s as [|c s IH]; cbn [first_line length]; [lia|]. destruct (Z.eqb_spec c 10); cbn [length]; lia. Qed.

Lemma first_line_no_newline s : 10 ∉ first_line s.
Proof.
  induction s as [|c s IH]; cbn [first_line]; [apply not_elem_of_nil|]. destruct (Z.eqb_spec c 10); [apply not_elem_of_nil|].
  by apply not_elem_of_cons.
Qed.

Lemma first_line_id s : 10 ∉ s -> first_line s = s.
Proof.
  induction s as [|c s IH]; cbn [first_line]; [done|]. intros [H1 H2]%not_elem_of_cons.
  destruct (Z.eqb_spec c 10); [congruence | by rewrite IH].
Qed.

Lemma take_first_line n s : (n <= length (first_line s))%nat -> take n s = take n (first_line s).
Proof.
  revert n. induction s as [|c s IH]; intros [|n] Hn; cbn [first_line length take] in *; try done.
  destruct (Z.eqb_spec c 10); cbn [length take] in *; [lia|]. f_equal. apply IH. lia.
Qed.

(** A line of text is drawn pixel for pixel: the k-th cell of its row
    holds the bits of its k-th character's glyph in the text colour on the
    background colour, up to the first line feed; cells or parts of cells off
    the screen are left out and nothing else changes. *)
Theorem font_draw_string_correct fb font x y s fg bg :
  fb_ok fb -> font_ok font -> 0 <= x -> x + font_width font * Z.of_nat (length (first_line s)) <= 2 ^ 31 -> 0 <= y <= 2 ^ 31 ->
  shows fb (font_draw_string font x y s fg bg fb) (text_pixels font x y (first_line s) fg bg (pixel fb)).
Proof.
  intros O F Hx Hl Hy. apply draw_chars_shows; done || apply shows_refl.
Qed.

(** ** Centred labels *)

Lemma measure_small font s : font_ok font -> (length s <= 63)%nat ->
  font_measure_string font s = Z.of_nat (length (first_line s)) * font_width font.
Proof. intros [Fw _] Hs. pose proof (first_line_length s). unfold font_measure_string. rewrite (u32_small (Z.of_nat _)), u32_small by nia. done. Qed.

Lemma ellipsis_cut n s : (3 <= n <= length s)%nat -> font_truncate_with_ellipsis (take n s) (Z.of_nat n + 1) = take (n - 3) s ++ [46; 46; 46].
Proof.
  intros Hn. unfold font_truncate_with_ellipsis. rewrite (proj2 (Z.ltb_ge _ 4)) by lia. rewrite length_take.
  replace (Z.to_nat (Z.of_nat n + 1 - 1)) with n by lia. replace (Nat.min (Nat.min n (length s)) n) with n by lia.
  rewrite (proj2 (Nat.ltb_ge n 3)) by lia. rewrite take_take, drop_ge by (rewrite length_take; lia).
  replace (Nat.min (n - 3) n) with (n - 3)%nat by lia. by rewrite app_nil_r.
Qed.

(** What is drawn: the line as it is when it fits, else its start and an
    ellipsis; either way it fits. *)
Lemma centered_text_fits font w s :
  font_ok font -> font_width font * 3 <= w -> let line := first_line (take 63 s) in
  let shown := if decide (Z.of_nat (length line) * font_width font <= w) then line
               else take (Z.to_nat (w / font_width font) - 3) line ++ [46; 46; 46] in
  first_line (centered_text font w s) = shown /\ font_measure_string font (centered_text font w s) = Z.of_nat (length shown) * font_width font /\
  Z.of_nat (length shown) * font_width font <= w /\ (length (centered_text font w s) <= 63)%nat.
Proof.
  intros F Hw line shown. pose proof F as [Fw _]. assert (length (take 63 s) <= 63)%nat as Hl by (rewrite length_take; lia).
  pose proof (first_line_length (take 63 s)) as Hf. fold line in Hf.
  assert (font_measure_string font (take 63 s) = Z.of_nat (length line) * font_width font) as Em by by apply measure_small.
  unfold centered_text. rewrite Em. rewrite (proj2 (Z.leb_le _ w)) by done. rewrite andb_true_r. subst shown.
  destruct (Z.ltb_spec w (Z.of_nat (length line) * font_width font)) as [Hlt|Hge]; [rewrite decide_False by lia | rewrite decide_True by lia; split_and!; done || lia].
  set (n := w / font_width font). assert (3 <= n) by (apply Z.div_le_lower_bound; lia).
  assert (n < Z.of_nat (length line)) by (apply Z.div_lt_upper_bound; lia).
  rewrite (proj2 (Z.leb_le 3 n)), (proj2 (Z.ltb_lt n 63)) by lia. cbn [andb].
  assert (take (Z.to_nat n) (take 63 s) = take (Z.to_nat n) line) as -> by (apply take_first_line; fold line; lia).
  replace (n + 1) with (Z.of_nat (Z.to_nat n) + 1) by lia. rewrite ellipsis_cut by lia. set (cut := take _ line ++ _).
  assert (length cut = Z.to_nat n) as El by (subst cut; rewrite length_app, length_take; cbn [length]; lia).
  assert (first_line cut = cut) as Ec.
  { apply first_line_id. subst cut. rewrite elem_of_app. intros [Hin|Hin].
    - apply (first_line_no_newline (take 63 s)). fold line. apply elem_of_take in Hin as (i & Hi & _). by eapply list_elem_of_lookup_2.
    - set_solver. }
  rewrite measure_small, Ec by (done || lia). rewrite El. subst n. split_and!; [done | done | | lia].
  pose proof (Z.mul_div_le w (font_width font) ltac:(lia)). lia.
Qed.

(** A centred label stays in its region: the part of the line that is
    shown (all of it, or its start and an ellipsis when it is too long) is at
    most as wide as the region, equally far from both its ends to the pixel,
    and no pixel outside the region's row of cells changes. *)
Theorem centered_label_fits fb font x y w s fg bg :
  fb_ok fb -> font_ok font -> 0 <= x -> font_width font * 3 <= w -> x + w <= 2 ^ 31 - 2 ^ 10 -> 0 <= y <= 2 ^ 31 ->
  let shown := first_line (centered_text font w s) in
  let left := x + (w - font_width font * Z.of_nat (length shown)) / 2 in
  shows fb (font_draw_string_centered font x y w s fg bg fb) (text_pixels font left y shown fg bg (pixel fb)) /\
  x <= left /\ left + font_width font * Z.of_nat (length shown) <= x + w /\
  (Z.of_nat (length (first_line (take 63 s))) * font_width font <= w -> shown = first_line (take 63 s)) /\
  (w < Z.of_nat (length (first_line (take 63 s))) * font_width font -> exists start, shown = start ++ [46; 46; 46] /\ start `prefix_of` first_line (take 63 s)).
Proof.
  intros O F Hx Hw Hxw Hy shown left. pose proof F as [Fw _].
  destruct (centered_text_fits font w s F Hw) as (E1 & E2 & E3 & E4). fold shown in E1. rewrite <- E1 in E2, E3.
  assert (x <= left /\ left + font_width font * Z.of_nat (length shown) <= x + w) as [L1 L2] by (subst left; dlia).
  assert (centered_x font x w (centered_text font w s) = left) as El.
  { unfold centered_x. rewrite E2. destruct (Z.ltb_spec (Z.of_nat (length shown) * font_width font) w) as [H|H].
    - replace (Z.of_nat (length shown) * font_width font) with (font_width font * Z.of_nat (length shown)) by lia. fold left. rewrite u32_small by lia. done.
    - subst left. replace (w - font_width font * Z.of_nat (length shown)) with 0 by lia. rewrite Z.div_0_l by done. lia. }
  split_and!; [| done | done | |].
  - unfold font_draw_string_centered. rewrite El. apply draw_chars_shows; (done || (fold shown; lia) || apply shows_refl).
  - intros Hle. rewrite E1, decide_True by done. done.
  - intros Hgt. rewrite E1, decide_False by lia. eexists. split; [done|]. apply prefix_take.
Qed.

(** ** Witnesses *)

Lemma builtin_font_ok : font_ok font_load_builtin.
Proof. split; cbn; lia. Qed.

(** The upper left dot of an exclamation mark, in the second cell. *)
Lemma font_draw_string_correct_witness : pixel (font_draw_string font_load_builtin 100 50 [32; 33; 10; 65] 7 9 demo_fb) 111 50 = 7.
Proof.
  destruct (font_draw_string_correct demo_fb font_load_builtin 100 50 [32; 33; 10; 65] 7 9 demo_fb_ok builtin_font_ok ltac:(lia) ltac:(cbn; lia) ltac:(lia)) as [_ H].
  rewrite H; [reflexivity | cbn; lia | cbn; lia].
Defined.

Lemma centered_label_fits_witness : first_line (centered_text font_load_builtin 40 [65; 66; 67; 68; 69; 70; 71]) = [65; 66; 46; 46; 46].
Proof.
  destruct (centered_label_fits demo_fb font_load_builtin 10 10 40 [65; 66; 67; 68; 69; 70; 71] 1 2 demo_fb_ok builtin_font_ok) as (_ & _ & _ & _ & H);
    [lia | cbn; lia | lia | lia |]. destruct (H ltac:(cbn; lia)) as (start & E & _). reflexivity.
Defined.
