(* ===== verification/Acpi.v ===== *)
(** ACPI (kernel/acpi.c): the search for the root pointer, the walk from it
    over the system tables, the fixed table's registers, the scan of the
    differentiated table for the sleep types, and power-off and reset as the
    port writes they come down to.

    What the ACPI walk finds, that the sleep types written into the byte code
    come out again, and what power-off and reset do with them. *)

From S2P Require Import Prelude Memory Pmm Vmm.
Local Open Scope Z_scope.

(** What the driver asks of the memory manager: physical pages mapped one to
    one.  The contents of memory are those of [m]; the tables are apart from
    the page tables the mapping may write. *)
Class Mmio (V : Type) := { map_mmio : Z -> Z -> V -> option V }.
#[export] Instance vmm_mmio (pool : Z) : Mmio vmm := { map_mmio := vmm_map_mmio pool }.

Definition ACPI_PAGE_SIZE : Z := 4096.

(** ** Fields of the packed structures *)

Definition SIZEOF_RSDP_V1 : Z := 20.
Definition SIZEOF_RSDP_V2 : Z := 36.
Definition SIZEOF_SDT_HEADER : Z := 36.
Definition rsdp_revision (m : mem) (r : Z) : Z := m (r + 15).
Definition rsdp_rsdt_address (m : mem) (r : Z) : Z := load32 m (r + 16).
Definition rsdp_xsdt_address (m : mem) (r : Z) : Z := load64 m (r + 24).
Definition sdt_length (m : mem) (h : Z) : Z := load32 m (h + 4).
Definition sdt_revision (m : mem) (h : Z) : Z := m (h + 8).
Definition fadt_dsdt (m : mem) (f : Z) : Z := load32 m (f + 40).
Definition fadt_pm1a_cnt_blk (m : mem) (f : Z) : Z := load32 m (f + 64).
Definition fadt_pm1b_cnt_blk (m : mem) (f : Z) : Z := load32 m (f + 68).
Definition fadt_flags (m : mem) (f : Z) : Z := load32 m (f + 112).
Definition fadt_reset_reg (f : Z) : Z := f + 116.
Definition fadt_reset_value (m : mem) (f : Z) : Z := m (f + 128).
Definition fadt_x_dsdt (m : mem) (f : Z) : Z := load64 m (f + 140).
Definition fadt_x_pm1a_cnt_blk (f : Z) : Z := f + 148.
Definition fadt_x_pm1b_cnt_blk (f : Z) : Z := f + 160.
Definition gas_address_space (m : mem) (g : Z) : Z := m g.
Definition gas_address (m : mem) (g : Z) : Z := load64 m (g + 4).

(** ** The statics *)

Record acpi := mk_acpi {
  g_acpi_ready : bool; g_pm1a_cnt : Z; g_pm1b_cnt : Z; g_slp_typa : Z; g_slp_typb : Z; g_have_slpb : bool;
  g_reset_value : Z; g_reset_space : Z; g_reset_addr : Z; g_have_reset : bool }.
Definition acpi_start : acpi := mk_acpi false 0 0 0 0 false 0 0 0 false.
Definition set_pm1a (p : Z) (a : acpi) : acpi :=
  mk_acpi (g_acpi_ready a) p (g_pm1b_cnt a) (g_slp_typa a) (g_slp_typb a) (g_have_slpb a) (g_reset_value a) (g_reset_space a) (g_reset_addr a) (g_have_reset a).
Definition set_pm1b (p : Z) (a : acpi) : acpi :=
  mk_acpi (g_acpi_ready a) (g_pm1a_cnt a) p (g_slp_typa a) (g_slp_typb a) true (g_reset_value a) (g_reset_space a) (g_reset_addr a) (g_have_reset a).
Definition set_reset (addr space value : Z) (a : acpi) : acpi :=
  mk_acpi (g_acpi_ready a) (g_pm1a_cnt a) (g_pm1b_cnt a) (g_slp_typa a) (g_slp_typb a) (g_have_slpb a) value space addr true.
Definition set_slp (ta tb : Z) (a : acpi) : acpi :=
  mk_acpi (g_acpi_ready a) (g_pm1a_cnt a) (g_pm1b_cnt a) ta tb (g_have_slpb a) (g_reset_value a) (g_reset_space a) (g_reset_addr a) (g_have_reset a).
Definition set_ready (a : acpi) : acpi :=
  mk_acpi true (g_pm1a_cnt a) (g_pm1b_cnt a) (g_slp_typa a) (g_slp_typb a) (g_have_slpb a) (g_reset_value a) (g_reset_space a) (g_reset_addr a) (g_have_reset a).

(** ** Signatures and checksums *)

(** The bytes at [a] against the bytes [s]: 0, or the first difference. *)
Fixpoint acpi_memcmp (m : mem) (a : Z) (s : list Z) : Z :=
  match s with
  | [] => 0
  | c :: s' => if negb (m a =? c) then m a - c else acpi_memcmp m (a + 1) s'
  end.

Definition acpi_checksum (m : mem) (p len : Z) : bool :=
  for_up (Z.to_nat len) 0 (fun i sum => u8 (sum + m (p + i))) 0 =? 0.

(** ** The root pointer *)

Definition RSDP_SIGNATURE : list Z := bytes_of "RSD PTR ".
Definition FACP : list Z := bytes_of "FACP".

(** A root pointer with a good checksum at [addr]. *)
Definition rsdp_at (m : mem) (addr : Z) : bool :=
  (acpi_memcmp m addr RSDP_SIGNATURE =? 0) && acpi_checksum m addr (if 2 <=? rsdp_revision m addr then SIZEOF_RSDP_V2 else SIZEOF_RSDP_V1).

(** Every 16 bytes from [base] on, [n] times; 0 when there is none. *)
Definition scan_rsdp (m : mem) (base : Z) (n : nat) : option Z :=
  i ← find_up n 0 (fun i => rsdp_at m (base + 16 * i)); Some (base + 16 * i).
Definition acpi_find_rsdp (m : mem) : Z :=
  let ebda := Z.shiftl (load16 m 0x40E) 4 in
  match (if (0x80000 <=? ebda) && (ebda <? 0xA0000) then scan_rsdp m ebda 64 else None) with
  | Some r => r
  | None => default 0 (scan_rsdp m 0xE0000 8192)
  end.

Section Tables.
Context {V : Type} `{!Mmio V}.

Definition acpi_map_phys (phys len : Z) (v : V) : option (Z * V) :=
  if (phys =? 0) || (len =? 0) then Some (0, v)
  else
    let base := Z.land phys (Z.lnot (ACPI_PAGE_SIZE - 1) mod 2 ^ 64) in
    v ← map_mmio base (u64 (phys - base + len + ACPI_PAGE_SIZE - 1) / ACPI_PAGE_SIZE) v;
    Some (phys, v).

Definition acpi_map_sdt (m : mem) (phys : Z) (v : V) : option (Z * V) :=
  '(h, v) ← acpi_map_phys phys SIZEOF_SDT_HEADER v;
  if (h =? 0) || (sdt_length m h <? SIZEOF_SDT_HEADER) then Some (0, v)
  else acpi_map_phys phys (sdt_length m h) v.

(** Entries [i], ..., [i + n - 1]; [entry] reads one. *)
Fixpoint table_loop (n : nat) (i : Z) (m : mem) (entry : Z -> Z) (sig : list Z) (v : V) : option (Z * V) :=
  match n with
  | O => Some (0, v)
  | S n' =>
      '(h, v) ← acpi_map_sdt m (entry i) v;
      if h =? 0 then table_loop n' (i + 1) m entry sig v
      else if (acpi_memcmp m h sig =? 0) && acpi_checksum m h (sdt_length m h) then Some (h, v)
      else table_loop n' (i + 1) m entry sig v
  end.

Definition acpi_find_table_rsdt (m : mem) (rsdt : Z) (sig : list Z) (v : V) : option (Z * V) :=
  table_loop (Z.to_nat (u32 ((sdt_length m rsdt - SIZEOF_SDT_HEADER) / 4))) 0 m (fun i => load32 m (rsdt + SIZEOF_SDT_HEADER + 4 * i)) sig v.
Definition acpi_find_table_xsdt (m : mem) (xsdt : Z) (sig : list Z) (v : V) : option (Z * V) :=
  table_loop (Z.to_nat (u32 ((sdt_length m xsdt - SIZEOF_SDT_HEADER) / 8))) 0 m (fun i => load64 m (xsdt + SIZEOF_SDT_HEADER + 8 * i)) sig v.

(** ** The sleep types in the byte code *)

(** One step of the scan: go on, give up, or the two values. *)
Inductive s5_result := S5Next | S5Stop | S5Found (typa typb : Z).

Definition skip_prefix (m : mem) (aml j : Z) : Z := if m (aml + j) =? 0x0A then j + 1 else j.

Definition s5_at (m : mem) (aml aml_len i : Z) : s5_result :=
  if (m (aml + i) =? 0x08) && (m (aml + (i + 1)) =? 95) && (m (aml + (i + 2)) =? 83) && (m (aml + (i + 3)) =? 53) && (m (aml + (i + 4)) =? 95) then
    let j := i + 5 in
    if aml_len <=? j then S5Stop
    else if negb (m (aml + j) =? 0x12) then S5Next
    else
      let j := j + 1 in
      if aml_len <=? j then S5Stop
      else
        let pkg_lead := m (aml + j) in
        let extra_bytes := Z.land (Z.shiftr pkg_lead 6) 0x3 in
        let j := j + 1 + extra_bytes in
        if aml_len <=? j then S5Stop
        else
          let j := j + 1 in
          if aml_len <=? j + 1 then S5Stop
          else
            let j := skip_prefix m aml j in
            if aml_len <=? j then S5Stop
            else
              let typa := m (aml + j) in
              let j := skip_prefix m aml (j + 1) in
              if aml_len <=? j then S5Stop else S5Found typa (m (aml + j))
  else S5Next.

Fixpoint s5_scan (n : nat) (i : Z) (m : mem) (aml aml_len : Z) : option (Z * Z) :=
  match n with
  | O => None
  | S n' =>
      match s5_at m aml aml_len i with
      | S5Next => s5_scan n' (i + 1) m aml aml_len
      | S5Stop => None
      | S5Found a b => Some (a, b)
      end
  end.

Definition acpi_parse_s5 (m : mem) (dsdt : Z) : option (Z * Z) :=
  let aml_len := sdt_length m dsdt - SIZEOF_SDT_HEADER in
  s5_scan (Z.to_nat (aml_len - 7)) 0 m (dsdt + SIZEOF_SDT_HEADER) aml_len.

(** ** Initialisation *)

(** The control registers and the reset register of the fixed table. *)
Definition read_registers (m : mem) (fadt : Z) (a : acpi) : acpi :=
  let x_io g := (3 <=? sdt_revision m fadt) && negb (gas_address m g =? 0) && (gas_address_space m g =? 1) in
  let xa := fadt_x_pm1a_cnt_blk fadt in
  let a := set_pm1a (u16 (if x_io xa then gas_address m xa else fadt_pm1a_cnt_blk m fadt)) a in
  let xb := fadt_x_pm1b_cnt_blk fadt in
  let a := if x_io xb then set_pm1b (u16 (gas_address m xb)) a
           else if negb (fadt_pm1b_cnt_blk m fadt =? 0) then set_pm1b (u16 (fadt_pm1b_cnt_blk m fadt)) a else a in
  if negb (Z.land (fadt_flags m fadt) (Z.shiftl 1 10) =? 0) then
    set_reset (gas_address m (fadt_reset_reg fadt)) (gas_address_space m (fadt_reset_reg fadt)) (fadt_reset_value m fadt) a
  else a.

Definition slp_typ (t : Z) : Z := u16 (Z.shiftl (Z.land t 0x7) 10).

Definition read_s5 (m : mem) (dsdt : Z) (a : acpi) : acpi :=
  if (dsdt =? 0) || negb (acpi_checksum m dsdt (sdt_length m dsdt)) then a
  else
    match acpi_parse_s5 m dsdt with
    | Some (typa, typb) => set_slp (slp_typ typa) (slp_typ typb) a
    | None => set_slp 0x2000 0x2000 a
    end.

(** The fixed table: through the extended table when there is a good one that
    lists it, else through the root table; [None] inside is the error return. *)
Definition find_fadt (m : mem) (rsdp : Z) (v : V) : option (option Z * V) :=
  '(fadt, v) ←
    (if 2 <=? rsdp_revision m rsdp then
       '(xsdt, v) ← acpi_map_sdt m (rsdp_xsdt_address m rsdp) v;
       if negb (xsdt =? 0) && acpi_checksum m xsdt (sdt_length m xsdt) then acpi_find_table_xsdt m xsdt FACP v else Some (0, v)
     else Some (0, v));
  if negb (fadt =? 0) then Some (Some fadt, v)
  else
    '(rsdt, v) ← acpi_map_sdt m (rsdp_rsdt_address m rsdp) v;
    if rsdt =? 0 then Some (None, v)
    else if negb (acpi_checksum m rsdt (sdt_length m rsdt)) then Some (None, v)
    else
      '(fadt, v) ← acpi_find_table_rsdt m rsdt FACP v;
      Some (if fadt =? 0 then None else Some fadt, v).

Definition dsdt_address (m : mem) (fadt : Z) : Z :=
  if (3 <=? sdt_revision m fadt) && negb (fadt_x_dsdt m fadt =? 0) then fadt_x_dsdt m fadt else fadt_dsdt m fadt.

Definition acpi_init (m : mem) (v : V) (a : acpi) : option (bool * V * acpi) :=
  let rsdp := acpi_find_rsdp m in
  if rsdp =? 0 then Some (false, v, a)
  else
    '(fadt, v) ← find_fadt m rsdp v;
    match fadt with
    | None => Some (false, v, a)
    | Some fadt =>
        let a := read_registers m fadt a in
        '(dsdt, v) ← acpi_map_sdt m (dsdt_address m fadt) v;
        Some (true, v, set_ready (read_s5 m dsdt a))
    end.
End Tables.

(** ** Power-off and reset *)

(** What the processor does, in order; the last two end the program. *)
Inductive action := Outw (port val : Z) | Outb (port val : Z) | Store8 (addr val : Z) | Halt | TripleFault.

Definition io_wait : action := Outb 0x80 0.
Definition SLP_EN : Z := 0x2000.

Definition acpi_shutdown (a : acpi) : list action :=
  (if g_acpi_ready a && negb (g_pm1a_cnt a =? 0) then
     [Outw (g_pm1a_cnt a) (Z.lor (g_slp_typa a) SLP_EN); io_wait] ++
     (if g_have_slpb a && negb (g_pm1b_cnt a =? 0) then [Outw (g_pm1b_cnt a) (Z.lor (g_slp_typb a) SLP_EN); io_wait] else [])
   else []) ++ [Outw 0x604 0x2000; Outw 0xB004 0x2000; Outw 0x600 0x34; Halt].

(** Polling the keyboard controller: [status k] is the k-th value read. *)
Fixpoint reboot_wait (timeout k : nat) (status : nat -> Z) : list action :=
  match timeout with
  | O => []
  | S timeout' => if negb (Z.land (status k) 0x02 =? 0) then io_wait :: reboot_wait timeout' (S k) status else []
  end.

Definition acpi_reboot (status : nat -> Z) (a : acpi) : list action :=
  (if g_have_reset a && negb (g_reset_addr a =? 0) then
     if g_reset_space a =? 0 then [Store8 (g_reset_addr a) (g_reset_value a); io_wait]
     else if g_reset_space a =? 1 then [Outb (u16 (g_reset_addr a)) (g_reset_value a); io_wait] else []
   else []) ++ reboot_wait (Z.to_nat 0x100000) 0 status ++ [Outb 0x64 0xFE; io_wait; io_wait; TripleFault].

(** * Specification *)

(** ** The searches *)

(** The addresses that can hold a root pointer, in the order of the search. *)
Definition every16 (base : Z) (n : nat) : list Z := map (fun i => base + 16 * i) (seqZ 0 (Z.of_nat n)).
Definition rsdp_places (m : mem) : list Z :=
  let ebda := 16 * load16 m 0x40E in
  (if decide (0x80000 <= ebda < 0xA0000) then every16 ebda 64 else []) ++ every16 0xE0000 8192.

(** The first element that satisfies [p]. *)
Fixpoint first (p : Z -> bool) (l : list Z) : option Z :=
  match l with
  | [] => None
  | x :: l => if p x then Some x else first p l
  end.

Lemma first_app p l1 l2 : first p (l1 ++ l2) = match first p l1 with Some x => Some x | None => first p l2 end.
Proof. induction l1 as [|x l1 IH]; cbn [Datatypes.app first]; [done|]. by destruct (p x). Qed.

Lemma find_up_map (f : Z -> Z) p n i :
  (k ← find_up n i (fun k => p (f k)); Some (f k)) = first p (map f (seqZ i (Z.of_nat n))).
Proof.
  revert i. induction n as [|n IH]; intros i; [done|]. rewrite seqZ_cons by lia. cbn [find_up map first].
  replace (Z.succ i) with (i + 1) by lia. replace (Z.pred (Z.of_nat (S n))) with (Z.of_nat n) by lia. destruct (p (f i)); [done | apply IH].
Qed.

Lemma scan_rsdp_first m base n : scan_rsdp m base n = first (rsdp_at m) (every16 base n).
Proof. apply (find_up_map (fun i => base + 16 * i)). Qed.

Lemma acpi_find_rsdp_first m : acpi_find_rsdp m = default 0 (first (rsdp_at m) (rsdp_places m)).
Proof.
  unfold acpi_find_rsdp, rsdp_places. rewrite Z.shiftl_mul_pow2 by lia. change (2 ^ 4) with 16. rewrite (Z.mul_comm _ 16), !scan_rsdp_first, first_app.
  set (e := 16 * load16 m 1038). destruct (decide (0x80000 <= e < 0xA0000)) as [D|D]; destruct (Z.leb_spec 0x80000 e), (Z.ltb_spec e 0xA0000);
    cbn [andb first]; try lia; try done. by destruct (first _ (every16 e 64)).
Qed.

(** ** The standard's own terms *)

(** The bytes add up to 0 modulo 256. *)
Definition intact (m : mem) (p len : Z) : bool := fold_right Z.add 0 (bytes_at m p len) mod 256 =? 0.

(** The bytes of [sig] stand at [a]. *)
Definition signed (m : mem) (a : Z) (sig : list Z) : bool := bool_decide (bytes_at m a (Z.of_nat (length sig)) = sig).

(** A root pointer: 20 bytes before version 2 of the standard, 36 from it on. *)
Definition rsdp_ok (m : mem) (addr : Z) : bool :=
  signed m addr (bytes_of "RSD PTR ") && intact m addr (if m (addr + 15) <? 2 then 20 else 36).

(** A description table, an undamaged one, and one with the signature [sig]. *)
Definition sdt_ok (m : mem) (h : Z) : bool := negb (h =? 0) && (SIZEOF_SDT_HEADER <=? sdt_length m h).
Definition good_sdt (m : mem) (h : Z) : bool := sdt_ok m h && intact m h (sdt_length m h).
Definition table_ok (m : mem) (sig : list Z) (h : Z) : bool := good_sdt m h && signed m h sig.

(** The entries of a root table, [w] bytes each. *)
Definition entries (m : mem) (t w : Z) (load : mem -> Z -> Z) : list Z :=
  map (fun i => load m (t + SIZEOF_SDT_HEADER + w * i)) (seqZ 0 ((sdt_length m t - SIZEOF_SDT_HEADER) / w)).

(** The fixed table, as the standard orders the search: by the extended root
    table if the pointer is of version 2 and that table is intact, otherwise,
    or if it is not listed there, by the root table. *)
Definition fadt_of (m : mem) : option Z :=
  rsdp ← first (rsdp_ok m) (rsdp_places m);
  let by_xsdt := if (2 <=? rsdp_revision m rsdp) && good_sdt m (rsdp_xsdt_address m rsdp)
                 then first (table_ok m FACP) (entries m (rsdp_xsdt_address m rsdp) 8 load64) else None in
  match by_xsdt with
  | Some f => Some f
  | None => if good_sdt m (rsdp_rsdt_address m rsdp) then first (table_ok m FACP) (entries m (rsdp_rsdt_address m rsdp) 4 load32) else None
  end.

Lemma first_ext p q l : (forall x, p x = q x) -> first p l = first q l.
Proof. intros E. induction l as [|x l IH]; cbn [first]; [done|]. by rewrite E, IH. Qed.

Lemma checksum_intact m p len : acpi_checksum m p len = intact m p len.
Proof.
  unfold acpi_checksum, intact, bytes_at. assert (forall n i acc, 0 <= acc < 256 ->
    for_up n i (fun i sum => u8 (sum + m (p + i))) acc = (acc + fold_right Z.add 0 (map (fun i => m (p + i)) (seqZ i (Z.of_nat n)))) mod 256) as H.
  { induction n as [|n IH]; intros i acc Ha; [cbn; by rewrite Z.add_0_r, Z.mod_small|]. rewrite seqZ_cons by lia. cbn [for_up map fold_right].
    replace (Z.succ i) with (i + 1) by lia. replace (Z.pred (Z.of_nat (S n))) with (Z.of_nat n) by lia.
    rewrite IH by (apply Z.mod_pos_bound; lia). unfold u8. change (2 ^ 8) with 256. rewrite Zplus_mod_idemp_l. f_equal. lia. }
  rewrite H by lia. replace (seqZ 0 (Z.of_nat (Z.to_nat len))) with (seqZ 0 len); [done|].
  destruct (decide (0 <= len)); [by rewrite Z2Nat.id by lia|]. by rewrite !seqZ_nil by lia.
Qed.

Lemma memcmp_signed m a sig : (acpi_memcmp m a sig =? 0) = signed m a sig.
Proof.
  unfold signed. revert a. induction sig as [|c sig IH]; intros a; [done|]. cbn [acpi_memcmp length].
  rewrite Nat2Z.inj_succ, <- Z.add_1_l, bytes_at_app by lia. change (bytes_at m a 1) with [m (a + 0)]. rewrite Z.add_0_r. cbn [Datatypes.app].
  destruct (Z.eqb_spec (m a) c) as [->|Hne]; cbn [negb].
  - rewrite IH. apply bool_decide_ext. split; [by intros -> | by intros [= ->]].
  - rewrite bool_decide_false by (intros [= ? _]; done). apply Z.eqb_neq. lia.
Qed.

Lemma rsdp_at_ok m a : rsdp_at m a = rsdp_ok m a.
Proof.
  unfold rsdp_at, rsdp_ok. rewrite memcmp_signed, checksum_intact. unfold rsdp_revision. do 2 f_equal.
  by destruct (Z.leb_spec 2 (m (a + 15))), (Z.ltb_spec (m (a + 15)) 2); try lia.
Qed.

(** ** The room the walk needs *)

(** The pages under [len] bytes at [p]; those of a table's header and then, if
    it is a table, of the whole of it. *)
Definition pages_of (p len : Z) : Z := (p mod ACPI_PAGE_SIZE + len + ACPI_PAGE_SIZE - 1) / ACPI_PAGE_SIZE.
Definition sdt_pages (m : mem) (h : Z) : Z :=
  if h =? 0 then 0 else pages_of h SIZEOF_SDT_HEADER + (if sdt_ok m h then pages_of h (sdt_length m h) else 0).

(** A root table and, if it is intact, the tables it lists; all the tables
    the walk may have to map, and the pages they come to. *)
Definition root_tables (m : mem) (t w : Z) (load : mem -> Z -> Z) : list Z := t :: (if good_sdt m t then entries m t w load else []).
Definition walk_tables (m : mem) : list Z :=
  match first (rsdp_ok m) (rsdp_places m) with
  | None => []
  | Some r =>
      (if 2 <=? rsdp_revision m r then root_tables m (rsdp_xsdt_address m r) 8 load64 else []) ++
      root_tables m (rsdp_rsdt_address m r) 4 load32 ++
      match fadt_of m with Some f => [dsdt_address m f] | None => [] end
  end.
Definition sum_pages (m : mem) (l : list Z) : Z := fold_right Z.add 0 (map (sdt_pages m) l).
Definition walk_pages (m : mem) : Z := sum_pages m (walk_tables m).

(** A memory manager that can say how many more pages it is able to map:
    within that room a mapping returns, and uses up no more room than it has
    pages.  Beyond it the kernel may stop ([None]). *)
Class MmioRoom (V : Type) `{!Mmio V} := {
  mmio_room : V -> Z -> Prop;
  mmio_room_le v k k' : k' <= k -> mmio_room v k -> mmio_room v k';
  mmio_room_map base n k v : 0 <= n -> 0 <= k -> mmio_room v (n + k) -> exists v', map_mmio base n v = Some v' /\ mmio_room v' k;
}.

Lemma sum_pages_app m l1 l2 : sum_pages m (l1 ++ l2) = sum_pages m l1 + sum_pages m l2.
Proof. unfold sum_pages. induction l1 as [|x l1 IH]; cbn [Datatypes.app map fold_right]; [done|]. rewrite IH. lia. Qed.

Lemma pages_of_nonneg p len : 0 <= len -> 0 <= pages_of p len.
Proof. intros Hl. unfold pages_of, ACPI_PAGE_SIZE. pose proof (Z.mod_pos_bound p 4096 ltac:(lia)). apply Z.div_pos; lia. Qed.

Lemma sdt_pages_nonneg m h : bytes_ok m -> 0 <= sdt_pages m h.
Proof.
  intros Hm. unfold sdt_pages. pose proof (load32_range m (h + 4) Hm) as Hr. fold (sdt_length m h) in Hr.
  pose proof (pages_of_nonneg h SIZEOF_SDT_HEADER ltac:(done)). pose proof (pages_of_nonneg h (sdt_length m h) ltac:(lia)). repeat case_match; lia.
Qed.

Lemma sum_pages_nonneg m l : bytes_ok m -> 0 <= sum_pages m l.
Proof. intros Hm. unfold sum_pages. induction l as [|h l IH]; cbn [map fold_right]; [done|]. pose proof (sdt_pages_nonneg m h Hm). lia. Qed.

Section Walk.
Context {V : Type} `{!Mmio V, !MmioRoom V}.

Lemma map_phys_ok phys len k (v : V) : 0 <= phys < 2 ^ 64 -> 0 <= len < 2 ^ 33 -> 0 <= k ->
  mmio_room v ((if phys =? 0 then 0 else pages_of phys len) + k) ->
  exists v', acpi_map_phys phys len v = Some (if (phys =? 0) || (len =? 0) then 0 else phys, v') /\ mmio_room v' k.
Proof.
  intros Hp Hl Hk R. unfold acpi_map_phys. destruct (Z.eqb_spec phys 0) as [->|Hne]; cbn [orb]; [eauto|].
  pose proof (pages_of_nonneg phys len ltac:(lia)) as Hn. destruct (Z.eqb_spec len 0); [exists v; split; [done|]; eapply mmio_room_le; [|exact R]; lia|].
  assert (Z.land phys (Z.lnot (ACPI_PAGE_SIZE - 1) mod 2 ^ 64) = 4096 * (phys / 4096)) as -> by (apply (land_align phys 12 64); lia).
  replace (u64 (phys - 4096 * (phys / 4096) + len + ACPI_PAGE_SIZE - 1) / ACPI_PAGE_SIZE) with (pages_of phys len).
  2: { unfold pages_of, ACPI_PAGE_SIZE. rewrite u64_small by dlia. do 4 f_equal. dlia. }
  destruct (mmio_room_map (4096 * (phys / 4096)) (pages_of phys len) k v Hn Hk R) as (v' & E & R'). exists v'. cbv zeta. rewrite E. done.
Qed.

Lemma map_sdt_ok m phys k (v : V) : bytes_ok m -> 0 <= phys < 2 ^ 64 -> 0 <= k -> mmio_room v (sdt_pages m phys + k) ->
  exists v', acpi_map_sdt m phys v = Some (if sdt_ok m phys then phys else 0, v') /\ mmio_room v' k.
Proof.
  intros Hm Hp Hk R. unfold acpi_map_sdt. pose proof (load32_range m (phys + 4) Hm) as Hr. fold (sdt_length m phys) in Hr.
  set (k1 := (if sdt_ok m phys then pages_of phys (sdt_length m phys) else 0) + k).
  assert (0 <= k1) by (pose proof (pages_of_nonneg phys (sdt_length m phys) ltac:(lia)); unfold k1; case_match; lia).
  destruct (map_phys_ok phys SIZEOF_SDT_HEADER k1 v) as (v1 & -> & R1); [done | done | done | |].
  { unfold sdt_pages, k1, sdt_ok in *. destruct (Z.eqb_spec phys 0); cbn [negb andb] in *; [done|]. by rewrite Z.add_assoc. }
  cbn [mbind option_bind]. unfold k1, sdt_ok in *. change (SIZEOF_SDT_HEADER =? 0) with false. rewrite orb_false_r.
  destruct (Z.eqb_spec phys 0) as [->|Hne]; [by exists v1|]. cbn [negb andb] in *. rewrite (proj2 (Z.eqb_neq phys 0)) by done. cbn [orb].
  destruct (Z.ltb_spec (sdt_length m phys) SIZEOF_SDT_HEADER) as [Hl|Hl], (Z.leb_spec SIZEOF_SDT_HEADER (sdt_length m phys)); try lia; [by exists v1|].
  destruct (map_phys_ok phys (sdt_length m phys) k v1) as (v2 & -> & R2); [done | lia | done | by rewrite (proj2 (Z.eqb_neq phys 0)) by done|].
  rewrite (proj2 (Z.eqb_neq phys 0)), (proj2 (Z.eqb_neq (sdt_length _ _) 0)); [by exists v2 | unfold SIZEOF_SDT_HEADER in *; lia | done].
Qed.

Lemma table_loop_ok n i m entry sig k (v : V) : bytes_ok m -> (forall j, 0 <= entry j < 2 ^ 64) -> 0 <= k ->
  mmio_room v (sum_pages m (map entry (seqZ i (Z.of_nat n))) + k) ->
  exists v', table_loop n i m entry sig v = Some (default 0 (first (table_ok m sig) (map entry (seqZ i (Z.of_nat n)))), v') /\ mmio_room v' k.
Proof.
  intros Hm He Hk. revert i v. induction n as [|n IH]; intros i v R; [cbn; eauto|]. rewrite seqZ_cons in R |- * by lia. cbn [table_loop map first] in *.
  replace (Z.succ i) with (i + 1) in * by lia. replace (Z.pred (Z.of_nat (S n))) with (Z.of_nat n) in * by lia.
  set (l := map entry (seqZ (i + 1) (Z.of_nat n))) in *. pose proof (sum_pages_nonneg m l Hm).
  change (sum_pages m (entry i :: l)) with (sdt_pages m (entry i) + sum_pages m l) in R. rewrite <- Z.add_assoc in R.
  destruct (map_sdt_ok m (entry i) (sum_pages m l + k) v Hm (He i) ltac:(lia) R) as (v1 & -> & R1). cbn [mbind option_bind]. unfold table_ok at 1, good_sdt.
  rewrite memcmp_signed, checksum_intact. destruct (sdt_ok m (entry i)) eqn:E; cbn [andb]; [|by apply IH]. unfold sdt_ok in E. b2p.
  rewrite (proj2 (Z.eqb_neq (entry i) 0)) by done. rewrite (andb_comm (intact _ _ _)). destruct (_ && _); [|by apply IH].
  exists v1. split; [done|]. eapply mmio_room_le; [|exact R1]. lia.
Qed.

Lemma first_nonzero m sig l h : first (table_ok m sig) l = Some h -> h <> 0.
Proof.
  induction l as [|x l IH]; cbn [first]; [done|]. destruct (table_ok m sig x) eqn:E; [|done]. intros [= <-].
  unfold table_ok, good_sdt, sdt_ok in E. b2p. done.
Qed.

Lemma entries_ok m t w load k (v : V) sig : bytes_ok m -> (forall a, 0 <= load m a < 2 ^ 64) -> 4 <= w -> SIZEOF_SDT_HEADER <= sdt_length m t -> 0 <= k ->
  mmio_room v (sum_pages m (entries m t w load) + k) ->
  exists v', table_loop (Z.to_nat (u32 ((sdt_length m t - SIZEOF_SDT_HEADER) / w))) 0 m (fun i => load m (t + SIZEOF_SDT_HEADER + w * i)) sig v
    = Some (default 0 (first (table_ok m sig) (entries m t w load)), v') /\ mmio_room v' k.
Proof.
  intros Hm Hld Hw Hl Hk R. unfold entries in *. pose proof (load32_range m (t + 4) Hm) as Hr. fold (sdt_length m t) in Hr. unfold SIZEOF_SDT_HEADER in *.
  assert (0 <= (sdt_length m t - 36) / w) by (apply Z.div_pos; lia). assert ((sdt_length m t - 36) / w <= sdt_length m t - 36) by (apply Z.div_le_upper_bound; nia).
  rewrite u32_small by lia.
  destruct (table_loop_ok (Z.to_nat ((sdt_length m t - 36) / w)) 0 m (fun i => load m (t + 36 + w * i)) sig k v Hm) as (v' & E & R'); [done | done | by rewrite Z2Nat.id by lia|].
  exists v'. rewrite E, Z2Nat.id by lia. done.
Qed.

(** One root table: what the driver finds through it. *)
Definition by_table (m : mem) (t w : Z) (load : mem -> Z -> Z) (sig : list Z) : option Z :=
  if good_sdt m t then first (table_ok m sig) (entries m t w load) else None.

Lemma by_table_ok m t w load k (v : V) sig : bytes_ok m -> (forall a, 0 <= load m a < 2 ^ 64) -> 4 <= w -> 0 <= t < 2 ^ 64 -> 0 <= k ->
  mmio_room v (sum_pages m (root_tables m t w load) + k) ->
  exists x v1, acpi_map_sdt m t v = Some (x, v1) /\ (negb (x =? 0) && acpi_checksum m x (sdt_length m x)) = good_sdt m t /\ (good_sdt m t = true -> x = t) /\
    mmio_room v1 k /\
    (good_sdt m t = true -> exists v2, table_loop (Z.to_nat (u32 ((sdt_length m t - SIZEOF_SDT_HEADER) / w))) 0 m (fun i => load m (t + SIZEOF_SDT_HEADER + w * i)) sig v1
      = Some (default 0 (by_table m t w load sig), v2) /\ mmio_room v2 k).
Proof.
  intros Hm Hld Hw Ht Hk R. set (l := if good_sdt m t then entries m t w load else []) in *. change (root_tables m t w load) with (t :: l) in R.
  change (sum_pages m (t :: l)) with (sdt_pages m t + sum_pages m l) in R. rewrite <- Z.add_assoc in R. pose proof (sum_pages_nonneg m l Hm).
  destruct (map_sdt_ok m t (sum_pages m l + k) v Hm Ht ltac:(lia) R) as (v1 & E & R1). eexists _, v1. split; [exact E|]. rewrite checksum_intact.
  assert (sdt_ok m t = true -> t <> 0 /\ SIZEOF_SDT_HEADER <= sdt_length m t) as Hsd by (unfold sdt_ok; intros Hs; b2p; done).
  unfold by_table. unfold good_sdt in *. destruct (sdt_ok m t); cbn [andb] in *; [|split_and!; [done | done | by eapply mmio_room_le; [|exact R1]; lia | done]].
  destruct (Hsd eq_refl) as [H1 H2]. rewrite (proj2 (Z.eqb_neq t 0)) by done. split_and!; [done | done | by eapply mmio_room_le; [|exact R1]; lia |].
  intros Hi. subst l. rewrite Hi in R1 |- *. by apply entries_ok.
Qed.

Lemma find_fadt_ok m rsdp k (v : V) : bytes_ok m -> first (rsdp_ok m) (rsdp_places m) = Some rsdp -> 0 <= k ->
  mmio_room v (sum_pages m ((if 2 <=? rsdp_revision m rsdp then root_tables m (rsdp_xsdt_address m rsdp) 8 load64 else []) ++
    root_tables m (rsdp_rsdt_address m rsdp) 4 load32) + k) ->
  exists v', find_fadt m rsdp v = Some (fadt_of m, v') /\ mmio_room v' k.
Proof.
  intros Hm Hr Hk R. unfold find_fadt, fadt_of. rewrite Hr. cbn [mbind option_bind].
  rewrite sum_pages_app, <- Z.add_assoc in R. set (xsdt := rsdp_xsdt_address m rsdp) in *. set (rsdt := rsdp_rsdt_address m rsdp) in *.
  pose proof (sum_pages_nonneg m (root_tables m rsdt 4 load32) Hm). set (k1 := sum_pages m (root_tables m rsdt 4 load32) + k) in *.
  assert (forall a, 0 <= load64 m a < 2 ^ 64) as H64 by (intros; by apply load64_range).
  assert (forall a, 0 <= load32 m a < 2 ^ 64) as H32 by (intros a; pose proof (load32_range m a Hm); lia).
  set (bx := if (2 <=? rsdp_revision m rsdp) && good_sdt m xsdt then first (table_ok m FACP) (entries m xsdt 8 load64) else None).
  assert (exists v1, (if 2 <=? rsdp_revision m rsdp then
       '(x, v) ← acpi_map_sdt m xsdt v;
       if negb (x =? 0) && acpi_checksum m x (sdt_length m x) then acpi_find_table_xsdt m x FACP v else Some (0, v)
     else Some (0, v)) = Some (default 0 bx, v1) /\ mmio_room v1 k1) as (v1 & -> & R1).
  { subst bx. destruct (2 <=? rsdp_revision m rsdp); cbn [andb]; [|by exists v].
    destruct (by_table_ok m xsdt 8 load64 k1 v FACP) as (x & v1 & -> & Hg & Hx & R1 & H2); [done | done | lia | apply H64 | lia | done|].
    cbn [mbind option_bind]. rewrite Hg. unfold by_table in H2. destruct (good_sdt m xsdt); [|by exists v1]. rewrite (Hx eq_refl). by apply H2. }
  cbn [mbind option_bind]. destruct bx as [f|] eqn:Eb.
  { assert (f <> 0) by (subst bx; destruct (_ && _); [by eapply first_nonzero | done]). change (default 0 (Some f)) with f. rewrite (proj2 (Z.eqb_neq f 0)) by done.
    exists v1. split; [done|]. eapply mmio_room_le; [|exact R1]. lia. }
  change (default 0 None) with 0. cbn [negb Z.eqb]. unfold k1 in R1.
  destruct (by_table_ok m rsdt 4 load32 k v1 FACP) as (x & v2 & -> & Hg & Hx & R2 & H2); [done | done | lia | apply H32 | lia | done|].
  cbn [mbind option_bind]. unfold by_table in H2. destruct (good_sdt m rsdt).
  - destruct (H2 eq_refl) as (v3 & E3 & R3). rewrite (Hx eq_refl) in Hg |- *. apply andb_prop in Hg as [Hn ->]. destruct (rsdt =? 0); [done|]. cbn [negb].
    unfold acpi_find_table_rsdt. rewrite E3. cbn [mbind option_bind]. exists v3. split; [|done].
    destruct (first (table_ok m FACP) (entries m rsdt 4 load32)) as [f|] eqn:Ef; [|done]. change (default 0 (Some f)) with f.
    by rewrite (proj2 (Z.eqb_neq f 0)) by (by eapply first_nonzero).
  - exists v2. split; [|done]. destruct (x =? 0); [done|]. by destruct (acpi_checksum m x (sdt_length m x)).
Qed.
End Walk.

(** ** Sleep types *)

(** An integer in byte code: the constants 0 and 1, or a byte with a prefix. *)
Definition aml_integer (v : Z) : list Z := if v <=? 1 then [v] else [0x0A; v].

Definition S5_NAME : list Z := 8 :: bytes_of "_S5_".

(** [Name (_S5_, Package (num) { a, b, ... })]: the package length is [lead]
    and the bytes [ext], as many as the upper two bits of [lead] say. *)
Definition s5_object (lead : Z) (ext : list Z) (num a b : Z) : list Z :=
  S5_NAME ++ 0x12 :: lead :: ext ++ num :: aml_integer a ++ aml_integer b.

Lemma s5_scan_find n i m aml len k r :
  i <= k < i + Z.of_nat n -> (forall j, i <= j < k -> s5_at m aml len j = S5Next) -> s5_at m aml len k = S5Found r.1 r.2 ->
  s5_scan n i m aml len = Some r.
Proof.
  revert i. induction n as [|n IH]; intros i Hk Hb Hf; [lia|]. cbn [s5_scan]. destruct (decide (i = k)) as [->|Hne].
  - rewrite Hf. by destruct r.
  - rewrite Hb by lia. apply IH; [lia | intros; apply Hb; lia | done].
Qed.

Lemma skip_integer m aml j v rest : 0 <= v -> seg m (aml + j) (aml_integer v ++ rest) ->
  m (aml + skip_prefix m aml j) = v /\ seg m (aml + (skip_prefix m aml j + 1)) rest /\ skip_prefix m aml j + 1 = j + Z.of_nat (length (aml_integer v)).
Proof.
  intros Hv H. unfold aml_integer, skip_prefix in *. destruct (Z.leb_spec v 1); cbn [Datatypes.app length] in *.
  - apply seg_cons in H as [H1 H2]. rewrite H1, (proj2 (Z.eqb_neq v 10)) by lia. replace (aml + (j + 1)) with (aml + j + 1) by lia. split_and!; done.
  - apply seg_cons in H as [H1 H2]. apply seg_cons in H2 as [H2 H3]. rewrite H1. cbn [Z.eqb Pos.eqb].
    replace (aml + (j + 1)) with (aml + j + 1) by lia. replace (aml + (j + 1 + 1)) with (aml + j + 1 + 1) by lia. split_and!; [done | done | lia].
Qed.

Lemma s5_at_object m aml len k lead ext num a b rest :
  seg m (aml + k) (s5_object lead ext num a b ++ rest) -> k + Z.of_nat (length (s5_object lead ext num a b)) <= len ->
  Z.land (Z.shiftr lead 6) 3 = Z.of_nat (length ext) -> 0 <= a -> 0 <= b -> s5_at m aml len k = S5Found a b.
Proof.
  intros H Hl He Ha Hb. unfold s5_object, S5_NAME in *. cbn [bytes_of Datatypes.app] in H.
  repeat first [rewrite <- app_assoc in H | progress cbn [Datatypes.app] in H]. do 7 (apply seg_cons in H as [?H H]). apply seg_app in H as [_ H]. apply seg_cons in H as [_ H].
  set (j := k + 7 + Z.of_nat (length ext) + 1). replace (aml + k + 1 + 1 + 1 + 1 + 1 + 1 + 1 + Z.of_nat (length ext) + 1) with (aml + j) in H by lia.
  destruct (skip_integer m aml j a (aml_integer b ++ rest) Ha H) as (Va & H' & Ja).
  destruct (skip_integer m aml (skip_prefix m aml j + 1) b rest Hb H') as (Vb & _ & Jb).
  unfold s5_at. replace (aml + (k + 1)) with (aml + k + 1) by lia. replace (aml + (k + 2)) with (aml + k + 1 + 1) by lia.
  replace (aml + (k + 3)) with (aml + k + 1 + 1 + 1) by lia. replace (aml + (k + 4)) with (aml + k + 1 + 1 + 1 + 1) by lia.
  replace (aml + (k + 5)) with (aml + k + 1 + 1 + 1 + 1 + 1) by lia. replace (aml + (k + 5 + 1)) with (aml + k + 1 + 1 + 1 + 1 + 1 + 1) by lia.
  rewrite H0, H1, H2, H3, H4, H5, H6. cbn [Z.eqb Pos.eqb chr andb negb]. rewrite !He.
  rewrite !length_app in Hl. cbn [length bytes_of] in Hl. rewrite !length_app in Hl. cbn [length] in Hl. rewrite !length_app in Hl.
  assert (1 <= length (aml_integer a) /\ 1 <= length (aml_integer b))%nat by (unfold aml_integer; repeat case_match; cbn [length]; lia).
  replace (k + 5 + 1 + 1 + Z.of_nat (length ext) + 1) with j by lia. rewrite Va, Vb.
  repeat (rewrite (proj2 (Z.leb_gt len _)) by lia). done.
Qed.

(** The sleep types come out of the byte code as they were written: the scan finds the [_S5_] package behind any code that does not hold its name,
    whatever the length of the package's length field is and whether its
    values are constants or bytes. *)
Lemma acpi_parse_s5_roundtrip m dsdt pre lead ext num a b post :
  seg m (dsdt + SIZEOF_SDT_HEADER) (pre ++ s5_object lead ext num a b ++ post) ->
  sdt_length m dsdt = SIZEOF_SDT_HEADER + Z.of_nat (length (pre ++ s5_object lead ext num a b ++ post)) ->
  (forall i, (i < length pre)%nat -> take 5 (drop i (pre ++ s5_object lead ext num a b)) <> S5_NAME) ->
  Z.land (Z.shiftr lead 6) 3 = Z.of_nat (length ext) -> 0 <= a < 256 -> 0 <= b < 256 ->
  acpi_parse_s5 m dsdt = Some (a, b).
Proof.
  intros H Hl Hn He Ha Hb. unfold acpi_parse_s5. rewrite Hl. set (aml := dsdt + SIZEOF_SDT_HEADER) in *.
  set (obj := s5_object lead ext num a b) in *. assert (9 <= length obj)%nat as Ho.
  { subst obj. unfold s5_object. rewrite !length_app. cbn [length S5_NAME bytes_of]. rewrite length_app. cbn [length]. rewrite length_app.
    unfold aml_integer. repeat case_match; cbn [length]; lia. }
  replace (SIZEOF_SDT_HEADER + Z.of_nat (length (pre ++ obj ++ post)) - SIZEOF_SDT_HEADER) with (Z.of_nat (length pre + length obj + length post))
    by (rewrite !length_app; lia).
  apply (s5_scan_find _ _ _ _ _ (Z.of_nat (length pre))); [lia | |].
  - intros j Hj. specialize (Hn (Z.to_nat j) ltac:(lia)). unfold s5_at.
    destruct (_ && _) eqn:E; [|done]. b2p. exfalso. apply Hn. apply list_eq. intros i.
    assert (forall i, 0 <= i < Z.of_nat (length pre + length obj) -> (pre ++ obj) !! Z.to_nat i = Some (m (aml + i))) as Hat.
    { intros k Hk. rewrite app_assoc in H. apply seg_app in H as [H _]. unfold seg in H. rewrite <- H. apply bytes_at_lookup. rewrite length_app. lia. }
    destruct (decide (i < 5)%nat) as [Hi|Hi].
    + rewrite lookup_take_lt, lookup_drop by done. replace (Z.to_nat j + i)%nat with (Z.to_nat (j + Z.of_nat i)) by lia. rewrite Hat by lia.
      destruct i as [|[|[|[|[|i]]]]]; cbn; rewrite ?Z.add_0_r; try lia; by f_equal.
    + rewrite !lookup_ge_None_2; [done | cbn; lia | rewrite length_take; lia].
  - apply seg_app in H as [_ H]. apply (s5_at_object _ _ _ _ lead ext num a b post); (done || (fold obj; lia) || lia).
Qed.

(** ** Power *)

Lemma load32_low m a : bytes_ok m -> u16 (load32 m a) = load16 m a.
Proof.
  intros Hm. unfold load32, load16. cbn [load_le]. unfold u16. pose proof (Hm a). pose proof (Hm (a + 1)).
  pose proof (Hm (a + 1 + 1)). pose proof (Hm (a + 1 + 1 + 1)). change (2 ^ 16) with 65536. dlia.
Qed.

Lemma rsdp_places_pos m x : x ∈ rsdp_places m -> 0 < x.
Proof.
  unfold rsdp_places. rewrite elem_of_app. intros [Hx|Hx]; [destruct (decide _); [|by apply not_elem_of_nil in Hx]|];
    apply list_elem_of_fmap in Hx as (i & -> & Hi%elem_of_seqZ); lia.
Qed.

Lemma first_elem p l x : first p l = Some x -> x ∈ l.
Proof. induction l as [|y l IH]; cbn [first]; [done|]. destruct (p y); [intros [= ->]; by left | intros H; right; by apply IH]. Qed.

Lemma dsdt_address_range m f : bytes_ok m -> 0 <= dsdt_address m f < 2 ^ 64.
Proof. intros Hm. unfold dsdt_address. pose proof (load32_range m (f + 40) Hm). case_match; [by apply load64_range | unfold fadt_dsdt; lia]. Qed.

Lemma acpi_init_ok {V} `{!Mmio V, !MmioRoom V} m k (v : V) a : bytes_ok m -> 0 <= k -> mmio_room v (walk_pages m + k) ->
  exists v', mmio_room v' k /\ acpi_init m v a = Some (match fadt_of m with
    | None => (false, v', a)
    | Some f => (true, v', set_ready (read_s5 m (if sdt_ok m (dsdt_address m f) then dsdt_address m f else 0) (read_registers m f a)))
    end).
Proof.
  intros Hm Hk R. unfold acpi_init. rewrite acpi_find_rsdp_first, (first_ext _ _ _ (rsdp_at_ok m)). unfold walk_pages, walk_tables in R.
  destruct (first (rsdp_ok m) (rsdp_places m)) as [r|] eqn:Er.
  - change (default 0 (Some r)) with r. assert (r <> 0) as Hr by (pose proof (rsdp_places_pos m r (first_elem _ _ _ Er)); lia).
    rewrite (proj2 (Z.eqb_neq r 0)) by done. rewrite (app_assoc (if 2 <=? _ then _ else _)), sum_pages_app, <- Z.add_assoc in R.
    set (l := match fadt_of m with Some f => [dsdt_address m f] | None => [] end) in *. pose proof (sum_pages_nonneg m l Hm).
    destruct (find_fadt_ok m r (sum_pages m l + k) v Hm Er ltac:(lia) R) as (v1 & -> & R1). cbn [mbind option_bind].
    destruct (fadt_of m) as [f|]; [|by exists v1].
    destruct (map_sdt_ok m (dsdt_address m f) k v1 Hm (dsdt_address_range m f Hm) Hk) as (v2 & -> & R2); [eapply mmio_room_le; [|exact R1]; subst l; cbn; lia|].
    exists v2. split; [done|]. done.
  - exists v. split; [done|]. unfold fadt_of. by rewrite Er.
Qed.

(** C21: initialisation finds the fixed table by the order of the standard
    (root pointer in the extended BIOS area, then in the ROM; extended root
    table, then root table; each entry in turn, skipping every table that is
    too short, of another signature or whose bytes do not add up to 0) and
    succeeds exactly when there is one; when it fails the driver's statics are
    as they were and power-off uses the emulators' ports only.  It needs room
    in the memory manager for the pages of the tables it looks at, and leaves
    the rest of that room. *)
Theorem acpi_init_correct {V} `{!Mmio V, !MmioRoom V} m k (v : V) a : bytes_ok m -> 0 <= k -> mmio_room v (walk_pages m + k) ->
  exists ok v' a', acpi_init m v a = Some (ok, v', a') /\ mmio_room v' k /\
    (ok = true <-> is_Some (fadt_of m)) /\ g_acpi_ready a' = (ok || g_acpi_ready a) /\
    (ok = false -> a' = a /\ (a = acpi_start -> acpi_shutdown a' = [Outw 0x604 0x2000; Outw 0xB004 0x2000; Outw 0x600 0x34; Halt])) /\
    (forall f, fadt_of m = Some f -> sdt_revision m f < 3 -> g_pm1a_cnt a' = load16 m (f + 64)).
Proof.
  intros Hm Hk R. destruct (acpi_init_ok m k v a Hm Hk R) as (v' & R' & E). destruct (fadt_of m) as [f|] eqn:Ef; (eexists _, v', _; split; [exact E|]; split; [exact R'|]).
  - split; [split; [by exists f | done]|]. split; [done|]. split; [done|]. intros f' [= <-] Hr.
    assert (forall b d, g_pm1a_cnt (set_ready (read_s5 m d b)) = g_pm1a_cnt b) as -> by (intros; unfold read_s5; repeat case_match; done).
    unfold read_registers. rewrite (proj2 (Z.leb_gt 3 _)) by done. cbn [andb].
    assert (forall b, g_pm1a_cnt (if negb (Z.land (fadt_flags m f) (Z.shiftl 1 10) =? 0) then set_reset (gas_address m (fadt_reset_reg f)) (gas_address_space m (fadt_reset_reg f)) (fadt_reset_value m f) b else b) = g_pm1a_cnt b) as ->
      by (intros; by destruct (negb _)).
    rewrite <- (load32_low m (f + 64) Hm). by destruct (negb _).
  - split; [split; [done | intros [? ?]; done]|]. split; [done|]. split; [|done]. intros _. split; [done|]. by intros ->.
Qed.

Lemma slp_value t : 0 <= t < 256 -> Z.lor (slp_typ t) SLP_EN = t mod 8 * 2 ^ 10 + 2 ^ 13.
Proof.
  intros Ht. unfold slp_typ, SLP_EN. change 0x7 with (2 ^ 3 - 1). rewrite land_ones_mod by lia. change (2 ^ 3) with 8.
  rewrite Z.shiftl_mul_pow2 by lia. change 0x2000 with (2 ^ 13). pose proof (Z.mod_pos_bound t 8 ltac:(lia)).
  rewrite u16_small by lia. rewrite Z.lor_comm, (lor_disjoint _ _ 13) by (reflexivity || lia). lia.
Qed.

(** The machine is switched off the way its tables say: with the fixed
    table of version 1, an intact differentiated table whose byte code defines
    the sleep types [a] and [b] of S5, the first word written by the shutdown
    goes to the power management register the fixed table names and holds the
    sleep type [a] and the enable bit, the second does so for [b] if there is a
    second register; the emulators' ports follow. *)
Theorem acpi_power_off {V} `{!Mmio V, !MmioRoom V} m (v : V) f pre lead ext num a b post :
  let dsdt := load32 m (f + 40) in
  bytes_ok m -> mmio_room v (walk_pages m) -> fadt_of m = Some f -> sdt_revision m f < 3 -> load16 m (f + 64) <> 0 -> good_sdt m dsdt = true ->
  seg m (dsdt + SIZEOF_SDT_HEADER) (pre ++ s5_object lead ext num a b ++ post) ->
  sdt_length m dsdt = SIZEOF_SDT_HEADER + Z.of_nat (length (pre ++ s5_object lead ext num a b ++ post)) ->
  (forall i, (i < length pre)%nat -> take 5 (drop i (pre ++ s5_object lead ext num a b)) <> S5_NAME) ->
  Z.land (Z.shiftr lead 6) 3 = Z.of_nat (length ext) -> 0 <= a < 256 -> 0 <= b < 256 ->
  exists v' st, acpi_init m v acpi_start = Some (true, v', st) /\
    acpi_shutdown st = [Outw (load16 m (f + 64)) (a mod 8 * 2 ^ 10 + 2 ^ 13); Outb 0x80 0] ++
      (if load16 m (f + 68) =? 0 then [] else [Outw (load16 m (f + 68)) (b mod 8 * 2 ^ 10 + 2 ^ 13); Outb 0x80 0]) ++
      [Outw 0x604 0x2000; Outw 0xB004 0x2000; Outw 0x600 0x34; Halt].
Proof.
  intros dsdt Hm Rm Ef Hr Hp Hd Hs Hl Hn He Ha Hb. rewrite <- (Z.add_0_r (walk_pages m)) in Rm.
  destruct (acpi_init_ok m 0 v acpi_start Hm ltac:(lia) Rm) as (v' & _ & E). rewrite Ef in E.
  eexists v', _. split; [exact E|]. clear E. assert (dsdt_address m f = dsdt) as ->.
  { unfold dsdt_address. by rewrite (proj2 (Z.leb_gt 3 _)) by done. }
  unfold good_sdt in Hd. apply andb_prop in Hd as [Ho Hc]. rewrite Ho. unfold sdt_ok in Ho. b2p.
  unfold read_s5. rewrite checksum_intact, Hc, (proj2 (Z.eqb_neq dsdt 0)) by done. cbn [negb orb].
  rewrite (acpi_parse_s5_roundtrip m dsdt pre lead ext num a b post) by done.
  unfold read_registers. rewrite (proj2 (Z.leb_gt 3 _)) by done. cbn [andb].
  unfold fadt_pm1a_cnt_blk, fadt_pm1b_cnt_blk. rewrite !load32_low by done.
  set (R := negb (Z.land (fadt_flags m f) (Z.shiftl 1 10) =? 0)). unfold acpi_shutdown.
  pose proof (load32_low m (f + 68) Hm) as E68.
  assert (load16 m (f + 68) <> 0 -> load32 m (f + 68) <> 0) as Hz by (intros Hne Hx; rewrite Hx in E68; by change (u16 0) with 0 in E68).
  set (pa := load16 m (f + 64)) in *. set (pb := load16 m (f + 68)) in *. set (qb := load32 m (f + 68)) in *. clearbody pa pb qb.
  pose proof (slp_value a Ha) as Va. pose proof (slp_value b Hb) as Vb. pose proof (proj2 (Z.eqb_neq pa 0) Hp) as Ep.
  destruct R, (Z.eqb_spec qb 0) as [Z0|Z0], (Z.eqb_spec pb 0) as [Z1|Z1]; try (by destruct (Hz Z1)); cbn; rewrite Ep; cbn; rewrite ?Va, ?Vb;
    first [rewrite (proj2 (Z.eqb_eq pb 0) Z1) | rewrite (proj2 (Z.eqb_neq pb 0) Z1) | idtac]; cbn; by rewrite ?Vb.
Qed.

(** A reset first writes the reset register the tables name, then waits
    for the keyboard controller, at most 2^20 polls and not longer than it is
    busy, and then pulses the reset line whether or not it became ready. *)
Theorem acpi_reboot_correct status a :
  exists k, (k <= Z.to_nat 0x100000)%nat /\ (forall j, (j < k)%nat -> Z.land (status j) 2 <> 0) /\
    ((k < Z.to_nat 0x100000)%nat -> Z.land (status k) 2 = 0) /\
    acpi_reboot status a =
      (if decide (g_have_reset a = true /\ g_reset_addr a <> 0 /\ g_reset_space a = 0) then [Store8 (g_reset_addr a) (g_reset_value a); io_wait]
       else if decide (g_have_reset a = true /\ g_reset_addr a <> 0 /\ g_reset_space a = 1) then [Outb (u16 (g_reset_addr a)) (g_reset_value a); io_wait] else [])
      ++ repeat io_wait k ++ [Outb 0x64 0xFE; io_wait; io_wait; TripleFault].
Proof.
  unfold acpi_reboot. generalize (Z.to_nat 0x100000). intros n.
  assert (forall i, exists k, (k <= n)%nat /\ (forall j, (j < k)%nat -> Z.land (status (i + j)%nat) 2 <> 0) /\ ((k < n)%nat -> Z.land (status (i + k)%nat) 2 = 0) /\
    reboot_wait n i status = repeat io_wait k) as H.
  { induction n as [|n IH]; intros i; cbn [reboot_wait]; [exists 0%nat; split_and!; [done | lia | lia | done]|].
    destruct (Z.eqb_spec (Z.land (status i) 2) 0) as [E|E]; cbn [negb].
    - exists 0%nat. rewrite Nat.add_0_r. split_and!; [lia | lia | done | done].
    - destruct (IH (S i)) as (k & H1 & H2 & H3 & ->). exists (S k). split_and!; [lia | | |done].
      + intros [|j] Hj; [by rewrite Nat.add_0_r|]. replace (i + S j)%nat with (S i + j)%nat by lia. apply H2. lia.
      + intros Hk. replace (i + S k)%nat with (S i + k)%nat by lia. apply H3. lia. }
  destruct (H 0%nat) as (k & H1 & H2 & H3 & ->). exists k. split_and!; [done..|]. f_equal.
  destruct (g_have_reset a), (Z.eqb_spec (g_reset_addr a) 0), (Z.eqb_spec (g_reset_space a) 0), (Z.eqb_spec (g_reset_space a) 1); cbn [andb negb];
    repeat case_decide; done || (exfalso; intuition congruence).
Qed.

(** ** Witnesses *)

(** A memory image from segments; the tables of a small machine. *)
Fixpoint image (l : list (Z * list Z)) (x : Z) : Z :=
  match l with
  | [] => 0
  | (base, bytes) :: l => if (base <=? x) && (x <? base + Z.of_nat (length bytes)) then nth (Z.to_nat (x - base)) bytes 0 else image l x
  end.

(** The bytes with a last one that makes their sum 0. *)
Definition sealed (l : list Z) : list Z := l ++ [u8 (- fold_right Z.add 0 l)].
Definition demo_aml : list Z := [1; 2] ++ s5_object 6 [] 2 5 1 ++ [0; 0].
Definition demo_acpi : mem := image [
  (0xE0010, RSDP_SIGNATURE ++ [u8 (- (fold_right Z.add 0 RSDP_SIGNATURE + 0x10))] ++ repeat 0 7 ++ le_bytes 4 0x1000);
  (0x1000, sealed (bytes_of "RSDT" ++ le_bytes 4 45 ++ repeat 0 28 ++ [0; 0x10; 0; 0] ++ le_bytes 4 0x2000));
  (0x2000, sealed (FACP ++ le_bytes 4 117 ++ repeat 0 32 ++ [0; 0x30; 0; 0] ++ repeat 0 20 ++ le_bytes 4 0x604 ++ repeat 0 48));
  (0x3000, sealed (bytes_of "DSDT" ++ le_bytes 4 52 ++ repeat 0 28 ++ demo_aml))].

(** The kernel's own memory manager has the room it needs: each page takes at
    most three tables of the static pool. *)
Definition vmm_mmio_room (pool : Z) (s : vmm) (k : Z) : Prop := vmm_ok pool s /\ static_pt_used s + 3 * k <= STATIC_PT_PAGES.

Lemma vmm_room_range pool flags n i base k s : pool mod 4096 = 0 -> 0 < pool /\ pool + STATIC_PT_PAGES * 4096 <= 2 ^ 52 -> 0 <= k ->
  vmm_mmio_room pool s (Z.of_nat n + k) -> exists s', map_range_loop pool n i base base flags s = Some s' /\ vmm_mmio_room pool s' k.
Proof.
  intros H1 H2 Hk. revert i s. induction n as [|n IH]; intros i s [R1 R2]; [by exists s|]. cbn [map_range_loop].
  pose proof (map_page_spec pool H1 H2 (u64 (base + i * PAGE_SIZE)) (u64 (base + i * PAGE_SIZE)) flags s R1) as Hp.
  pose proof (missing_range 3 (vmem s) (current_pml4_phys s) (u64 (base + i * PAGE_SIZE))).
  destruct (vmm_map_page _ _ _ _ s) as [s1|]; [|lia]. destruct Hp as (O1 & _ & _ & O2 & _). cbn [mbind option_bind]. apply IH. split; [done | lia].
Qed.

#[export] Instance vmm_room (pool : Z) (H1 : pool mod 4096 = 0) (H2 : 0 < pool /\ pool + STATIC_PT_PAGES * 4096 <= 2 ^ 52) : @MmioRoom vmm (vmm_mmio pool).
Proof.
  refine {| mmio_room := vmm_mmio_room pool |}.
  - intros s k k' Hk [R1 R2]. split; [done | lia].
  - intros base n k s Hn Hk R. apply vmm_room_range; [done..|]. by rewrite Z2Nat.id by lia.
Defined.

Lemma demo_acpi_bytes : bytes_ok demo_acpi.
Proof.
  intros x. unfold demo_acpi. cbn [image]. assert (forall l i, Forall (fun c => 0 <= c < 256) l -> 0 <= nth i l 0 < 256) as Hn.
  { intros l i Hl. destruct (nth_in_or_default i l 0) as [Hi| ->]; [|lia]. rewrite Forall_forall in Hl. apply Hl. by apply list_elem_of_In. }
  repeat case_match; try lia; apply Hn; vm_compute; repeat constructor; discriminate.
Qed.

(** On the kernel's own page tables, right after boot. *)
Lemma demo_room : exists v, vmm_mmio_room demo_pool v (walk_pages demo_acpi).
Proof. destruct demo_booted as (v & Hok & Hu). exists v. split; [exact Hok|]. assert (walk_pages demo_acpi = 8) as -> by (vm_compute; reflexivity). unfold STATIC_PT_PAGES. lia. Qed.

Lemma acpi_init_correct_witness : exists v v' a', acpi_init (Mmio0 := vmm_mmio demo_pool) demo_acpi v acpi_start = Some (true, v', a') /\ g_pm1a_cnt a' = 0x604.
Proof.
  destruct demo_room as (v & R). rewrite <- (Z.add_0_r (walk_pages _)) in R.
  destruct (@acpi_init_correct vmm (vmm_mmio demo_pool) (vmm_room demo_pool eq_refl ltac:(done)) demo_acpi 0 v acpi_start demo_acpi_bytes ltac:(lia) R) as (ok & v' & a' & E & _ & H1 & _ & _ & H2).
  assert (fadt_of demo_acpi = Some 0x2000) as Ef by (vm_compute; reflexivity). exists v, v', a'. split.
  - rewrite E. by rewrite (proj2 H1 (ex_intro _ _ Ef)).
  - rewrite (H2 _ Ef); [vm_compute; reflexivity | vm_compute; reflexivity].
Defined.

(** The sleep types 5 and 1, behind two other bytes. *)
Lemma acpi_power_off_witness : exists v v' st, acpi_init (Mmio0 := vmm_mmio demo_pool) demo_acpi v acpi_start = Some (true, v', st) /\
  take 1 (acpi_shutdown st) = [Outw 0x604 (5 * 2 ^ 10 + 2 ^ 13)].
Proof.
  destruct demo_room as (v & R).
  destruct (@acpi_power_off vmm (vmm_mmio demo_pool) (vmm_room demo_pool eq_refl ltac:(done)) demo_acpi v 0x2000 [1; 2] 6 [] 2 5 1 [0; 0; nth 51 (sealed (bytes_of "DSDT" ++ le_bytes 4 52 ++ repeat 0 28 ++ demo_aml)) 0])
    as (v' & st & E & Es); [exact demo_acpi_bytes | exact R | vm_compute; reflexivity | vm_compute; reflexivity | vm_compute; discriminate | vm_compute; reflexivity
      | vm_compute; reflexivity | vm_compute; reflexivity | | reflexivity | lia | lia |].
  - intros [|[|i]] Hi; [discriminate | discriminate | cbn in Hi; lia].
  - exists v, v', st. split; [exact E|]. rewrite Es. vm_compute. reflexivity.
Defined.
