(* ===== verification/Float.v ===== *)
(** Single-precision floating point: the operations the code uses as a class,
    so that theorems about the order of computation hold for any arithmetic,
    its instance with the machine's IEEE binary32 numbers, and the memory the
    arrays of floats live in. *)

From Stdlib Require Import Floats.SpecFloat.
From S2P Require Import Prelude Memory.
Local Open Scope Z_scope.

(** [fdec m e] is the literal [m * 10^e]; [ftoz] is the conversion to int32_t;
    [fbits] and [fofbits] reinterpret the 32 bits. *)
Class FloatOps (F : Type) := {
  fadd : F -> F -> F; fsub : F -> F -> F; fmul : F -> F -> F; fdiv : F -> F -> F;
  fneg : F -> F; fsqrt : F -> F; frsqrt : F -> F; ffma : F -> F -> F -> F;
  flt : F -> F -> bool; fle : F -> F -> bool; feq : F -> F -> bool;
  fofz : Z -> F; ftoz : F -> Z; fdec : Z -> Z -> F; fbits : F -> Z; fofbits : Z -> F;
}.

Declare Scope float_scope.
Delimit Scope float_scope with float.
Infix "+" := fadd : float_scope.
Infix "-" := fsub : float_scope.
Infix "*" := fmul : float_scope.
Infix "/" := fdiv : float_scope.
Notation "- x" := (fneg x) : float_scope.

Section Literals.
Context {F} `{FloatOps F}.
Definition f0 : F := fdec 0 0.
Definition f1 : F := fdec 1 0.
End Literals.

(** ** The machine's numbers *)

Section Binary32.
Definition prec32 : Z := 24.
Definition emax32 : Z := 128.

Definition b32_of_z (z : Z) : spec_float := binary_normalize prec32 emax32 z 0 false.
Definition b32_dec (m e : Z) : spec_float :=
  if 0 <=? e then b32_of_z (m * 10 ^ e)
  else match m with
       | Z0 => S754_zero false
       | Zpos p => SFdiv prec32 emax32 (S754_finite false p 0) (S754_finite false (Z.to_pos (10 ^ (- e))) 0)
       | Zneg p => SFdiv prec32 emax32 (S754_finite true p 0) (S754_finite false (Z.to_pos (10 ^ (- e))) 0)
       end.

(** Truncation; what does not fit an int32_t gives the "indefinite" value. *)
Definition b32_trunc (x : spec_float) : Z :=
  match x with
  | S754_zero _ => 0
  | S754_finite s m e =>
      let a := if 0 <=? e then Zpos m * 2 ^ e else Zpos m / 2 ^ (- e) in
      let v := if s then - a else a in
      if (- 2 ^ 31 <=? v) && (v <? 2 ^ 31) then v else - 2 ^ 31
  | _ => - 2 ^ 31
  end.

(** Exact product and sum, rounded once. *)
Definition b32_fma (x y z : spec_float) : spec_float :=
  match x, y, z with
  | S754_finite sx mx ex, S754_finite sy my ey, S754_finite sz mz ez =>
      let ep := ex + ey in
      let e := Z.min ep ez in
      let p := Zpos (mx * my) * 2 ^ (ep - e) in
      let q := Zpos mz * 2 ^ (ez - e) in
      binary_normalize prec32 emax32 ((if xorb sx sy then - p else p) + (if sz then - q else q)) e false
  | _, _, _ => SFadd prec32 emax32 (SFmul prec32 emax32 x y) z
  end.

Definition b32_bits (x : spec_float) : Z :=
  match x with
  | S754_zero s => if s then 2 ^ 31 else 0
  | S754_infinity s => (if s then 2 ^ 31 else 0) + 255 * 2 ^ 23
  | S754_nan => 255 * 2 ^ 23 + 2 ^ 22
  | S754_finite s m e => (if s then 2 ^ 31 else 0) + (if Zpos m <? 2 ^ 23 then Zpos m else (e + 150) * 2 ^ 23 + (Zpos m - 2 ^ 23))
  end.
Definition b32_of_bits (b : Z) : spec_float :=
  let s := 2 ^ 31 <=? b in
  let e := b / 2 ^ 23 mod 2 ^ 8 in
  let m := b mod 2 ^ 23 in
  if e =? 0 then match m with Zpos p => S754_finite s p (- 149) | _ => S754_zero s end
  else if e =? 255 then (if m =? 0 then S754_infinity s else S754_nan)
  else S754_finite s (Z.to_pos (2 ^ 23 + m)) (e - 150).

(** The approximate reciprocal square root differs between processors. *)
Definition binary32 (rsqrt : spec_float -> spec_float) : FloatOps spec_float := {|
  fadd := SFadd prec32 emax32; fsub := SFsub prec32 emax32; fmul := SFmul prec32 emax32; fdiv := SFdiv prec32 emax32;
  fneg := SFopp; fsqrt := SFsqrt prec32 emax32; frsqrt := rsqrt; ffma := b32_fma;
  flt := SFltb; fle := SFleb; feq := SFeqb;
  fofz := b32_of_z; ftoz := b32_trunc; fdec := b32_dec; fbits := b32_bits; fofbits := b32_of_bits |}.

(** A processor whose approximation is exact. *)
Definition b32 : FloatOps spec_float := binary32 (fun x => SFdiv prec32 emax32 (b32_of_z 1) (SFsqrt prec32 emax32 x)).
End Binary32.

(** ** Arrays of floats *)

(** Element [i] of the array at address [p] is at [p + 4 * i]. *)
Section Arrays.
Context {F : Type}.

Definition fmem := Z -> F.
Definition ld (m : fmem) (p i : Z) : F := m (p + 4 * i).
Definition st (m : fmem) (p i : Z) (v : F) : fmem := upd m (p + 4 * i) v.

(** [for (i = 0; i < n; i++) out[i] = g(i)]. *)
Definition store_loop (n : Z) (out : Z) (g : Z -> fmem -> F) (m : fmem) : fmem :=
  for_up (Z.to_nat n) 0 (fun i m => st m out i (g i m)) m.

(** Two memories that differ only in the first [n] elements at [p]. *)
Definition same_but (p n : Z) (m m' : fmem) : Prop := forall a, ~ (p <= a < p + 4 * n) -> m' a = m a.

Lemma same_but_refl p n m : same_but p n m m.
Proof. done. Qed.

Lemma same_but_mono p n p' n' m m' : p' <= p -> p + 4 * n <= p' + 4 * n' -> same_but p n m m' -> same_but p' n' m m'.
Proof. intros H1 H2 H a Ha. apply H. lia. Qed.

Lemma same_but_trans p n m1 m2 m3 : same_but p n m1 m2 -> same_but p n m2 m3 -> same_but p n m1 m3.
Proof. intros H1 H2 a Ha. rewrite H2 by done. by apply H1. Qed.

(** A value may depend on what the loop has not overwritten yet, so the
    output may be one of the inputs. *)
Lemma store_loop_ok n out g m :
  0 <= n -> (forall i m', 0 <= i < n -> same_but out i m m' -> g i m' = g i m) ->
  let m' := store_loop n out g m in
  (forall i, 0 <= i < n -> ld m' out i = g i m) /\ same_but out n m m'.
Proof.
  intros Hn Hg. unfold store_loop. pose proof (for_up_inv (fun k m' =>
    (forall i, 0 <= i < k -> ld m' out i = g i m) /\ same_but out k m m') (Z.to_nat n) 0 (fun i m => st m out i (g i m)) m) as H.
  rewrite Z2Nat.id in H by done. apply H; clear H; [split; [intros; lia | done]|].
  intros j m1 Hj [H1 H2]. split.
  - intros i Hi. unfold ld, st. destruct (decide (i = j)) as [->|].
    + rewrite upd_eq. apply Hg; [lia | done].
    + rewrite upd_ne by lia. apply H1. lia.
  - intros a Ha. unfold st. rewrite upd_ne by lia. apply H2. lia.
Qed.

(** The first [n] elements at [p]. *)
Definition vec (m : fmem) (p n : Z) : list F := map (fun i => ld m p i) (seqZ 0 n).

Lemma vec_length m p n : length (vec m p n) = Z.to_nat n.
Proof. unfold vec. by rewrite length_map, length_seqZ. Qed.

Lemma vec_lookup m p n i : 0 <= i < n -> vec m p n !! Z.to_nat i = Some (ld m p i).
Proof. intros Hi. unfold vec. rewrite list_lookup_fmap, lookup_seqZ_lt by lia. cbn. do 2 f_equal. lia. Qed.

Lemma vec_ext m m' p p' n : (forall i, 0 <= i < n -> ld m p i = ld m' p' i) -> vec m p n = vec m' p' n.
Proof. intros H. apply list_fmap_ext. intros i x Hx%lookup_seqZ. apply H. lia. Qed.

Lemma vec_same_but p n q k m m' : same_but p n m m' -> q + 4 * k <= p \/ p + 4 * n <= q -> vec m' q k = vec m q k.
Proof. intros H Hd. apply vec_ext. intros i Hi. unfold ld. apply H. lia. Qed.

Lemma vec_map m p n (g : Z -> F) : (forall i, 0 <= i < n -> ld m p i = g i) -> vec m p n = map g (seqZ 0 n).
Proof. intros H. apply list_fmap_ext. intros i x Hx%lookup_seqZ. apply H. lia. Qed.
End Arrays.
Arguments fmem : clear implicits.
