(* ===== verification/Simd.v ===== *)
(** The vector kernels (kernel/simd.c): each routine with its AVX2, SSE2 and
    scalar paths.  The aligned vector moves fault on an address that is not a
    multiple of the vector's size: the result is [None] then.

    The vector kernels compute the same on every path: elementwise routines
    and matrix products, whatever the processor supports, and what happens to
    pointers that are not aligned. *)

From Stdlib Require Import Floats.SpecFloat.
From S2P Require Import Prelude Memory Float.
Local Open Scope Z_scope.

Record simd_features_t := mk_simd { sse2 : bool; sse4_1 : bool; avx : bool; avx2 : bool; fma : bool; avx512f : bool }.
Definition g_simd_start : simd_features_t := mk_simd false false false false false false.

Record cpuid_regs := mk_regs { eax : Z; ebx : Z; ecx : Z; edx : Z }.
Definition flag (reg bit : Z) : bool := negb (Z.land (Z.shiftr reg bit) 1 =? 0).
Definition simd_detect (cpuid : Z -> Z -> cpuid_regs) : simd_features_t :=
  let l1 := cpuid 1 0 in
  let l7 := cpuid 7 0 in
  mk_simd (flag (edx l1) 26) (flag (ecx l1) 19) (flag (ecx l1) 28) (flag (ebx l7) 5) (flag (ecx l1) 12) (flag (ebx l7) 16).

(** A counted loop whose body can fault. *)
Fixpoint for_opt {S : Type} (n : nat) (i : Z) (body : Z -> S -> option S) (s : S) : option S :=
  match n with
  | O => Some s
  | S n' => s ← body i s; for_opt n' (i + 1) body s
  end.

Section Simd.
Context {F} `{FloatOps F}.
Implicit Types m : fmem F.

(** *** Scalar helpers *)

Definition fm_fabs (x : F) : F := if flt x f0 then fneg x else x.
Definition fm_sqrt (x : F) : F := fsqrt x.
Definition fm_tanh (x : F) : F :=
  if flt (fdec 49 (- 1)) x then f1
  else if flt x (fneg (fdec 49 (- 1))) then fneg f1
  else
    let x2 := (x * x)%float in
    let num := (x * (fdec 135135 0 + x2 * (fdec 17325 0 + x2 * (fdec 378 0 + x2))))%float in
    let den := (fdec 135135 0 + x2 * (fdec 62370 0 + x2 * (fdec 3150 0 + x2 * fdec 28 0)))%float in
    (num / den)%float.
Definition FLT_MAX : F := fdec 340282347 30.
Definition square (x : F) : F := (x * x)%float.
Definition fm_exp (x : F) : F :=
  if flt (fdec 88 0) x then FLT_MAX
  else if flt x (fneg (fdec 88 0)) then f0
  else Nat.iter 8 square (f1 + x * (f1 / fdec 256 0))%float.

(** *** Elementwise routines *)

(** One iteration on [w] lanes: all are computed before any is stored. *)
Definition vec_block (w : Z) (out : Z) (g : Z -> fmem F -> F) (i : Z) (m : fmem F) : fmem F :=
  for_up (Z.to_nat w) i (fun j m' => st m' out j (g j m)) m.

(** [for (; i + w <= len; i += w)] with aligned moves through the pointers
    [ps], and the scalar loop for the rest; [4 * w] bytes are one vector. *)
Definition vec_loop (w : Z) (ps : list Z) (out : Z) (g : Z -> fmem F -> F) (len : Z) (m : fmem F) : option (fmem F) :=
  let blocks := len / w in
  if (0 <? blocks) && negb (forallb (fun p => p mod (4 * w) =? 0) ps) then None
  else
    let m := for_up (Z.to_nat blocks) 0 (fun b m => vec_block w out g (b * w) m) m in
    Some (for_up (Z.to_nat (len - blocks * w)) (blocks * w) (fun i m => st m out i (g i m)) m).

Definition add_at (a b i : Z) (m : fmem F) : F := (ld m a i + ld m b i)%float.
Definition mul_at (a b i : Z) (m : fmem F) : F := (ld m a i * ld m b i)%float.
Definition scale_at (a : Z) (s : F) (i : Z) (m : fmem F) : F := (ld m a i * s)%float.

Definition vec_add_avx2 (a b out len : Z) m : option (fmem F) := vec_loop 8 [a; b; out] out (add_at a b) len m.
Definition vec_add_sse2 (a b out len : Z) m : option (fmem F) := vec_loop 4 [a; b; out] out (add_at a b) len m.
Definition simd_vec_add_f32 (ft : simd_features_t) (a b out len : Z) m : option (fmem F) :=
  if avx2 ft then vec_add_avx2 a b out len m
  else if sse2 ft then vec_add_sse2 a b out len m
  else Some (store_loop len out (add_at a b) m).

Definition vec_mul_avx2 (a b out len : Z) m : option (fmem F) := vec_loop 8 [a; b; out] out (mul_at a b) len m.
Definition simd_vec_mul_f32 (ft : simd_features_t) (a b out len : Z) m : option (fmem F) :=
  if avx2 ft then vec_mul_avx2 a b out len m else Some (store_loop len out (mul_at a b) m).

Definition vec_scale_avx2 (a : Z) (s : F) (out len : Z) m : option (fmem F) := vec_loop 8 [a; out] out (scale_at a s) len m.
Definition simd_vec_scale_f32 (ft : simd_features_t) (a : Z) (scalar : F) (out len : Z) m : option (fmem F) :=
  if avx2 ft then vec_scale_avx2 a scalar out len m else Some (store_loop len out (scale_at a scalar) m).

(** *** Dot product *)

Definition dot_loop (n : nat) (i a b : Z) (acc : F) m : F := for_up n i (fun i acc => (acc + ld m a i * ld m b i)%float) acc.

(** Eight running sums, added up at the end, and the remaining elements. *)
Definition dot_avx2_fma (a b len : Z) m : option F :=
  let blocks := len / 8 in
  if (0 <? blocks) && negb ((a mod 32 =? 0) && (b mod 32 =? 0)) then None
  else
    let lane j := for_up (Z.to_nat blocks) 0 (fun k acc => ffma (ld m a (8 * k + j)) (ld m b (8 * k + j)) acc) f0 in
    let acc := fold_left (fun acc j => (acc + lane j)%float) [1; 2; 3; 4; 5; 6; 7] (lane 0) in
    Some (dot_loop (Z.to_nat (len - 8 * blocks)) (8 * blocks) a b acc m).
Definition simd_dot_f32 (ft : simd_features_t) (a b len : Z) m : option F :=
  if avx2 ft && fma ft then dot_avx2_fma a b len m else Some (dot_loop (Z.to_nat len) 0 a b f0 m).

(** *** Matrix product *)

(** Element [i], [j] of the product. *)
Definition mm_at (A B N K i j : Z) m : F :=
  for_up (Z.to_nat K) 0 (fun k acc => (acc + ld m A (i * K + k) * ld m B (k * N + j))%float) f0.
Definition mm_fma_at (A B N K i j : Z) m : F :=
  for_up (Z.to_nat K) 0 (fun k acc => ffma (ld m A (i * K + k)) (ld m B (k * N + j)) acc) f0.

Definition matmul_scalar (A B C M N K : Z) m : fmem F :=
  for_up (Z.to_nat M) 0 (fun i m => for_up (Z.to_nat N) 0 (fun j m => st m C (i * N + j) (mm_at A B N K i j m)) m) m.

(** Eight columns of row [i] from column [j] on. *)
Definition mm_block (A B C N K i j : Z) m : option (fmem F) :=
  if forallb (fun k => (B + 4 * (k * N + j)) mod 32 =? 0) (seqZ 0 K) && ((C + 4 * (i * N + j)) mod 32 =? 0) then
    Some (for_up 8 j (fun l m' => st m' C (i * N + l) (mm_fma_at A B N K i l m)) m)
  else None.
Definition mm_row (A B C N K i : Z) m : option (fmem F) :=
  let blocks := N / 8 in
  m ← for_opt (Z.to_nat blocks) 0 (fun b m => mm_block A B C N K i (8 * b) m) m;
  Some (for_up (Z.to_nat (N - 8 * blocks)) (8 * blocks) (fun j m => st m C (i * N + j) (mm_at A B N K i j m)) m).
Definition matmul_avx2_fma (A B C M N K : Z) m : option (fmem F) := for_opt (Z.to_nat M) 0 (fun i m => mm_row A B C N K i m) m.

Definition simd_matmul_f32 (ft : simd_features_t) (A B C M N K : Z) m : option (fmem F) :=
  if avx2 ft && fma ft then matmul_avx2_fma A B C M N K m else Some (matmul_scalar A B C M N K m).

(** *** Softmax, activation, normalisation *)

Definition max_loop (x len : Z) m : F := for_up (Z.to_nat (len - 1)) 1 (fun i mx => if flt mx (ld m x i) then ld m x i else mx) (ld m x 0).

Definition simd_softmax_f32 (ft : simd_features_t) (x out len : Z) m : option (fmem F) :=
  if len =? 0 then Some m
  else
    let mx := max_loop x len m in
    let '(m, sum) := for_up (Z.to_nat len) 0 (fun i '(m, sum) => let e := fm_exp (ld m x i - mx)%float in (st m out i e, (sum + e)%float)) (m, f0) in
    simd_vec_scale_f32 ft out (f1 / sum)%float out len m.

Definition GELU_COEFF : F := fdec 7978845608028654 (- 16).
Definition GELU_CUBIC : F := fdec 44715 (- 6).
Definition gelu (xi : F) : F :=
  let inner := (GELU_COEFF * (xi + GELU_CUBIC * xi * xi * xi))%float in
  (fdec 5 (- 1) * xi * (f1 + fm_tanh inner))%float.
Definition simd_gelu_f32 (x out len : Z) m : fmem F := store_loop len out (fun i m => gelu (ld m x i)) m.

Definition sum_loop (n : Z) (g : Z -> F) : F := for_up (Z.to_nat n) 0 (fun i acc => (acc + g i)%float) f0.

Definition simd_rms_norm_f32 (x weight out len : Z) (eps : F) m : fmem F :=
  let ss := (sum_loop len (fun i => ld m x i * ld m x i) / fofz len)%float in
  let rms_inv := (f1 / fm_sqrt (ss + eps))%float in
  store_loop len out (fun i m => (ld m x i * rms_inv * ld m weight i)%float) m.

Definition simd_layer_norm_f32 (x weight bias out len : Z) (eps : F) m : fmem F :=
  let mean := (sum_loop len (fun i => ld m x i) / fofz len)%float in
  let var := (sum_loop len (fun i => square (ld m x i - mean)) / fofz len)%float in
  let inv_std := (f1 / fm_sqrt (var + eps))%float in
  store_loop len out (fun i m => ((ld m x i - mean) * inv_std * ld m weight i + ld m bias i)%float) m.
End Simd.

(** * Specification *)

Section Spec.
Context {F} `{FloatOps F}.
Implicit Types m : fmem F.

(** The first [k] elements at [C] hold [f]; nothing else differs from [m0]. *)
Definition filled (C : Z) (f : Z -> F) (k : Z) (m0 m : fmem F) : Prop :=
  (forall c, 0 <= c < k -> ld m C c = f c) /\ same_but C k m0 m.

Lemma filled_start C f m : filled C f 0 m m.
Proof. split; [intros; lia | done]. Qed.

Lemma filled_step C f k m0 m : 0 <= k -> filled C f k m0 m -> filled C f (k + 1) m0 (st m C k (f k)).
Proof.
  intros Hk [H1 H2]. split.
  - intros c Hc. unfold ld, st. destruct (decide (c = k)) as [->|]; [by rewrite upd_eq|]. rewrite upd_ne by lia. apply H1. lia.
  - intros a Ha. unfold st. rewrite upd_ne by lia. apply H2. lia.
Qed.

(** A loop that stores the elements from [k] on. *)
Lemma filled_loop C f m0 n k (g : Z -> fmem F -> F) m :
  0 <= k -> (forall c m', k <= c < k + Z.of_nat n -> filled C f c m0 m' -> g c m' = f c) ->
  filled C f k m0 m -> filled C f (k + Z.of_nat n) m0 (for_up n k (fun c m => st m C c (g c m)) m).
Proof.
  intros Hk Hg Hf. apply (for_up_inv (fun c m => filled C f c m0 m)); [done|]. intros c m1 Hc H1. rewrite (Hg c m1 Hc H1).
  apply filled_step; [lia | done].
Qed.

(** The lanes of one block, whose values are computed beforehand. *)
Lemma vec_block_filled w out f m0 (g : Z -> fmem F -> F) k m :
  0 <= w -> 0 <= k -> (forall c, k <= c < k + w -> g c m = f c) -> filled out f k m0 m -> filled out f (k + w) m0 (vec_block w out g k m).
Proof.
  intros Hw Hk Hg Hf. unfold vec_block. replace (k + w) with (k + Z.of_nat (Z.to_nat w)) by lia.
  apply (filled_loop out f m0 (Z.to_nat w) k (fun c _ => g c m)); [done | intros; apply Hg; lia | done].
Qed.

(** Storing element [i] may overwrite what it is computed from, not what the
    later ones are. *)
Definition forward (out len : Z) (g : Z -> fmem F -> F) : Prop :=
  forall i m m', 0 <= i < len -> same_but out i m m' -> g i m' = g i m.

Lemma vec_loop_ok w ps out g len m :
  0 < w -> 0 <= len -> Forall (fun p => p mod (4 * w) = 0) ps -> forward out len g ->
  exists m', vec_loop w ps out g len m = Some m' /\ (forall i, 0 <= i < len -> ld m' out i = g i m) /\ same_but out len m m'.
Proof.
  intros Hw Hl Ha Hg. unfold vec_loop. assert (forallb (fun p => p mod (4 * w) =? 0) ps = true) as ->.
  { apply forallb_forall. intros p Hp%list_elem_of_In. rewrite Forall_forall in Ha. by apply Z.eqb_eq, Ha. }
  cbn [negb]. rewrite andb_false_r. eexists. split; [done|]. set (q := len / w).
  pose proof (Z.mul_div_le len w Hw) as Hq. pose proof (Z.div_pos len w Hl Hw) as Hq0. fold q in Hq, Hq0.
  assert (forall c m', 0 <= c -> filled out (fun i => g i m) c m m' -> forall i, c <= i < len -> g i m' = g i m) as Hread.
  { intros c m' Hc [_ Hs] i Hi. apply Hg; [lia|]. apply (same_but_mono out c out i); [lia | lia | done]. }
  enough (filled out (fun i => g i m) len m (for_up (Z.to_nat (len - q * w)) (q * w) (fun i m => st m out i (g i m))
    (for_up (Z.to_nat q) 0 (fun b m => vec_block w out g (b * w) m) m))) as [H1 H2] by done.
  replace len with (q * w + Z.of_nat (Z.to_nat (len - q * w))) at 1 by lia. apply filled_loop; [nia | |].
  - intros c m' Hc Hf. apply (Hread c); [nia | done | lia].
  - pose proof (for_up_inv (fun b m' => filled out (fun i => g i m) (b * w) m m') (Z.to_nat q) 0 (fun b m => vec_block w out g (b * w) m) m) as HI.
    rewrite Z2Nat.id, Z.add_0_l in HI by done. apply HI; [apply filled_start|]. intros b m1 Hb Hf.
    replace ((b + 1) * w) with (b * w + w) by lia. apply vec_block_filled; [lia | nia | | done]. intros c Hc. apply (Hread (b * w)); [nia | done | nia].
Qed.

(** An input that is the output itself or does not overlap it. *)
Definition apart (p n out len : Z) : Prop := p = out \/ p + 4 * n <= out \/ out + 4 * len <= p.

Lemma forward_ld p out len i m m' : apart p len out len -> 0 <= i < len -> same_but out i m m' -> ld m' p i = ld m p i.
Proof. intros Hp Hi Hs. unfold ld. apply Hs. unfold apart in Hp. lia. Qed.

Lemma add_forward a b out len : apart a len out len -> apart b len out len -> forward out len (add_at a b).
Proof. intros Ha Hb i m m' Hi Hs. unfold add_at. by rewrite !(forward_ld _ out len i m m'). Qed.
Lemma mul_forward a b out len : apart a len out len -> apart b len out len -> forward out len (mul_at a b).
Proof. intros Ha Hb i m m' Hi Hs. unfold mul_at. by rewrite !(forward_ld _ out len i m m'). Qed.
Lemma scale_forward a s out len : apart a len out len -> forward out len (scale_at a s).
Proof. intros Ha i m m' Hi Hs. unfold scale_at. by rewrite !(forward_ld _ out len i m m'). Qed.

Definition aligned32 (p : Z) : Prop := p mod 32 = 0.

Lemma aligned32_16 p : aligned32 p -> p mod 16 = 0.
Proof. unfold aligned32. intros. dlia. Qed.

(** What the three elementwise routines leave: [g i] in element [i] of the
    output, everything else as before. *)
Definition computes (out len : Z) (g : Z -> fmem F -> F) m (r : option (fmem F)) : Prop :=
  exists m', r = Some m' /\ (forall i, 0 <= i < len -> ld m' out i = g i m) /\ same_but out len m m'.

Lemma scalar_computes out len g m : 0 <= len -> forward out len g -> computes out len g m (Some (store_loop len out g m)).
Proof.
  intros Hl Hg. eexists. split; [done|]. apply store_loop_ok; [done|]. intros i m' Hi Hs. by apply Hg.
Qed.

Lemma vec_add_computes ft a b out len m :
  0 <= len -> aligned32 a -> aligned32 b -> aligned32 out -> apart a len out len -> apart b len out len ->
  computes out len (add_at a b) m (simd_vec_add_f32 ft a b out len m).
Proof.
  intros Hl Aa Ab Ao Pa Pb. pose proof (add_forward a b out len Pa Pb) as Hg. unfold simd_vec_add_f32, vec_add_avx2, vec_add_sse2.
  destruct (avx2 ft); [apply vec_loop_ok; try done; try lia; by repeat constructor|].
  destruct (sse2 ft); [apply vec_loop_ok; try done; try lia; repeat constructor; by apply aligned32_16 | by apply scalar_computes].
Qed.

Lemma vec_mul_computes ft a b out len m :
  0 <= len -> aligned32 a -> aligned32 b -> aligned32 out -> apart a len out len -> apart b len out len ->
  computes out len (mul_at a b) m (simd_vec_mul_f32 ft a b out len m).
Proof.
  intros Hl Aa Ab Ao Pa Pb. pose proof (mul_forward a b out len Pa Pb) as Hg. unfold simd_vec_mul_f32, vec_mul_avx2.
  destruct (avx2 ft); [apply vec_loop_ok; try done; try lia; by repeat constructor | by apply scalar_computes].
Qed.

Lemma vec_scale_computes ft a s out len m :
  0 <= len -> aligned32 a -> aligned32 out -> apart a len out len ->
  computes out len (scale_at a s) m (simd_vec_scale_f32 ft a s out len m).
Proof.
  intros Hl Aa Ao Pa. pose proof (scale_forward a s out len Pa) as Hg. unfold simd_vec_scale_f32, vec_scale_avx2.
  destruct (avx2 ft); [apply vec_loop_ok; try done; try lia; by repeat constructor | by apply scalar_computes].
Qed.

(** What the vector units compute is what the plain loops compute: on a
    processor with any of the extensions, with 32-byte aligned arrays of any
    length (the last ones in the scalar tail) and an output that may be one of
    the inputs, addition, multiplication and scaling leave exactly the
    elementwise results and touch nothing else. *)
Theorem simd_elementwise_correct ft a b s out len m :
  0 <= len -> aligned32 a -> aligned32 b -> aligned32 out -> apart a len out len -> apart b len out len ->
  computes out len (fun i m => (ld m a i + ld m b i)%float) m (simd_vec_add_f32 ft a b out len m) /\
  computes out len (fun i m => (ld m a i * ld m b i)%float) m (simd_vec_mul_f32 ft a b out len m) /\
  computes out len (fun i m => (ld m a i * s)%float) m (simd_vec_scale_f32 ft a s out len m).
Proof. intros. split; [by apply vec_add_computes | split; [by apply vec_mul_computes | by apply vec_scale_computes]]. Qed.

(** The aligned moves fault: with AVX2 an addition of eight or more
    elements stops the processor if one of the arrays is not 32-byte aligned,
    and the same product plus bias that works without AVX2 does if the rows
    are not a multiple of eight long. *)
Theorem simd_misaligned_faults ft a b out len m :
  avx2 ft = true -> 8 <= len -> ~ aligned32 a \/ ~ aligned32 b \/ ~ aligned32 out -> simd_vec_add_f32 ft a b out len m = None.
Proof.
  intros Hf Hl Hn. unfold simd_vec_add_f32, vec_add_avx2, vec_loop. rewrite Hf.
  assert (0 < len / 8) by (apply Z.div_str_pos; lia). rewrite (proj2 (Z.ltb_lt 0 _)) by done. cbn [forallb andb].
  change (4 * 8) with 32. unfold aligned32 in Hn. repeat zcase; cbn; done || lia.
Qed.

(** ** Matrix products *)

Lemma for_up_fold {T} (g : Z -> T -> T) n i s : for_up n i g s = fold_left (fun acc k => g k acc) (seqZ i (Z.of_nat n)) s.
Proof.
  revert i s. induction n as [|n IH]; intros i s; [done|]. rewrite seqZ_cons by lia. cbn [for_up fold_left].
  rewrite IH. f_equal. f_equal; lia.
Qed.

(** Without the fused operation's single rounding. *)
Definition unfused : Prop := forall a b c, ffma a b c = (c + a * b)%float.

Lemma mm_at_frame A B N K i j m m' : 0 <= N -> 0 <= K -> 0 <= i -> 0 <= j < N ->
  (forall k, 0 <= k < K -> ld m' A (i * K + k) = ld m A (i * K + k)) ->
  (forall k, 0 <= k < K -> ld m' B (k * N + j) = ld m B (k * N + j)) -> mm_at A B N K i j m' = mm_at A B N K i j m.
Proof. intros HN HK Hi Hj HA HB. unfold mm_at. apply for_up_ext. intros k acc Hk. rewrite HA, HB by lia. done. Qed.

Lemma mm_fma_unfused A B N K i j m : unfused -> mm_fma_at A B N K i j m = mm_at A B N K i j m.
Proof. intros Hu. unfold mm_fma_at, mm_at. apply for_up_ext. intros. apply Hu. Qed.

(** The product in the rows of [C]. *)
Definition mm_cell A B N K (m : fmem F) (c : Z) : F := mm_at A B N K (c / N) (c mod N) m.

Lemma cell_index N i j : 0 <= j < N -> (i * N + j) / N = i /\ (i * N + j) mod N = j.
Proof.
  intros Hj. rewrite Z.add_comm, Z.div_add, Z.mod_add, Z.div_small, Z.mod_small by lia. lia.
Qed.

Section Product.
Context (A B C M N K : Z) (m0 : fmem F).
Hypothesis sizes : 0 <= M /\ 0 < N /\ 0 <= K.
Hypothesis A_apart : A + 4 * (M * K) <= C \/ C + 4 * (M * N) <= A.
Hypothesis B_apart : B + 4 * (K * N) <= C \/ C + 4 * (M * N) <= B.

Lemma mm_cell_read i j c m : 0 <= i < M -> 0 <= j < N -> c <= M * N -> filled C (mm_cell A B N K m0) c m0 m ->
  mm_at A B N K i j m = mm_cell A B N K m0 (i * N + j).
Proof.
  intros Hi Hj Hc [_ Hs]. unfold mm_cell. destruct (cell_index N i j Hj) as [-> ->].
  apply mm_at_frame; try lia; intros k Hk; unfold ld; apply Hs; nia.
Qed.

Lemma mm_tail i j m n : 0 <= i < M -> 0 <= j -> j + Z.of_nat n <= N -> filled C (mm_cell A B N K m0) (i * N + j) m0 m ->
  filled C (mm_cell A B N K m0) (i * N + (j + Z.of_nat n)) m0 (for_up n j (fun j m => st m C (i * N + j) (mm_at A B N K i j m)) m).
Proof.
  intros Hi Hj Hn Hf. apply (for_up_inv (fun j m => filled C (mm_cell A B N K m0) (i * N + j) m0 m)); [done|].
  intros c m1 Hc H1. rewrite (mm_cell_read i c (i * N + c)) by (done || nia). replace (i * N + (c + 1)) with (i * N + c + 1) by lia.
  apply filled_step; [nia | done].
Qed.

Lemma matmul_scalar_filled : filled C (mm_cell A B N K m0) (M * N) m0 (matmul_scalar A B C M N K m0).
Proof.
  unfold matmul_scalar. pose proof (for_up_inv (fun i m => filled C (mm_cell A B N K m0) (i * N) m0 m) (Z.to_nat M) 0
    (fun i m => for_up (Z.to_nat N) 0 (fun j m => st m C (i * N + j) (mm_at A B N K i j m)) m) m0) as HI.
  rewrite Z2Nat.id, Z.add_0_l in HI by lia. apply HI; [apply filled_start|]. intros i m Hi Hf.
  pose proof (mm_tail i 0 m (Z.to_nat N) Hi ltac:(lia) ltac:(lia)) as HT. rewrite Z.add_0_r, Z2Nat.id in HT by lia.
  replace ((i + 1) * N) with (i * N + (0 + N)) by lia. by apply HT.
Qed.

(** Invariants of loops that can fault. *)
Lemma for_opt_inv {T} (I : Z -> T -> Prop) n i body s :
  I i s -> (forall j t, i <= j < i + Z.of_nat n -> I j t -> exists t', body j t = Some t' /\ I (j + 1) t') ->
  exists s', for_opt n i body s = Some s' /\ I (i + Z.of_nat n) s'.
Proof.
  revert i s. induction n as [|n IH]; intros i s Hs Hb; cbn [for_opt].
  - exists s. replace (i + Z.of_nat 0) with i by lia. done.
  - destruct (Hb i s ltac:(lia) Hs) as (t & -> & Ht). cbn [mbind option_bind].
    destruct (IH (i + 1) t Ht) as (s' & E & Hs'); [intros; apply Hb; [lia | done]|]. exists s'. split; [done|].
    by replace (i + Z.of_nat (S n)) with (i + 1 + Z.of_nat n) by lia.
Qed.

Lemma matmul_avx2_filled : (8 <= N -> unfused /\ aligned32 B /\ aligned32 C /\ N mod 8 = 0) ->
  exists m', matmul_avx2_fma A B C M N K m0 = Some m' /\ filled C (mm_cell A B N K m0) (M * N) m0 m'.
Proof.
  intros HA. unfold matmul_avx2_fma. pose proof (for_opt_inv (fun i m => filled C (mm_cell A B N K m0) (i * N) m0 m) (Z.to_nat M) 0
    (fun i m => mm_row A B C N K i m) m0) as HI. rewrite Z2Nat.id, Z.add_0_l in HI by lia. apply HI; [apply filled_start|].
  clear HI. intros i m Hi Hf. unfold mm_row. pose proof (Z.mul_div_le N 8 ltac:(lia)) as Hq. pose proof (Z.div_pos N 8 ltac:(lia) ltac:(lia)) as Hq0. set (q := N / 8) in *.
  pose proof (for_opt_inv (fun b m => filled C (mm_cell A B N K m0) (i * N + 8 * b) m0 m) (Z.to_nat q) 0 (fun b m => mm_block A B C N K i (8 * b) m) m) as HB.
  rewrite Z2Nat.id, Z.add_0_l in HB by done. destruct HB as (m1 & -> & H1).
  - by rewrite Z.mul_0_r, Z.add_0_r.
  - intros b t Hb Ht. destruct HA as (Hu & AB & AC & N8); [lia|]. unfold mm_block.
    assert (forallb (fun k => (B + 4 * (k * N + 8 * b)) mod 32 =? 0) (seqZ 0 K) = true) as ->.
    { apply forallb_forall. intros k _. apply Z.eqb_eq. unfold aligned32 in AB. apply Z.mod_divide in AB, N8; try lia.
      destruct AB as [u ->], N8 as [v E]. rewrite E. replace (u * 32 + 4 * (k * (v * 8) + 8 * b)) with ((u + k * v + b) * 32) by lia. by apply Z.mod_mul. }
    assert ((C + 4 * (i * N + 8 * b)) mod 32 =? 0 = true) as ->.
    { apply Z.eqb_eq. unfold aligned32 in AC. apply Z.mod_divide in AC, N8; try lia.
      destruct AC as [u ->], N8 as [v E]. rewrite E. replace (u * 32 + 4 * (i * (v * 8) + 8 * b)) with ((u + i * v + b) * 32) by lia. by apply Z.mod_mul. }
    cbn [andb]. eexists. split; [done|].
    pose proof (for_up_inv (fun j m => filled C (mm_cell A B N K m0) (i * N + j) m0 m) 8 (8 * b) (fun l m' => st m' C (i * N + l) (mm_fma_at A B N K i l t)) t Ht) as HL.
    replace (8 * (b + 1)) with (8 * b + Z.of_nat 8) by lia. apply HL. intros c m2 Hc H2. rewrite mm_fma_unfused by done.
    rewrite (mm_cell_read i c (i * N + 8 * b) t) by (done || nia). replace (i * N + (c + 1)) with (i * N + c + 1) by lia. apply filled_step; [nia | done].
  - cbn [mbind option_bind]. eexists. split; [done|]. pose proof (mm_tail i (8 * q) m1 (Z.to_nat (N - 8 * q)) Hi ltac:(lia) ltac:(lia) H1) as HT.
    replace (8 * q + Z.of_nat (Z.to_nat (N - 8 * q))) with N in HT by lia. by replace ((i + 1) * N) with (i * N + N) by lia.
Qed.
End Product.

Lemma simd_matmul_filled ft A B C M N K m :
  0 <= M /\ 0 < N /\ 0 <= K -> A + 4 * (M * K) <= C \/ C + 4 * (M * N) <= A -> B + 4 * (K * N) <= C \/ C + 4 * (M * N) <= B ->
  (avx2 ft && fma ft = true -> 8 <= N -> unfused /\ aligned32 B /\ aligned32 C /\ N mod 8 = 0) ->
  exists m', simd_matmul_f32 ft A B C M N K m = Some m' /\ filled C (mm_cell A B N K m) (M * N) m m'.
Proof.
  intros Hs HA HB Hf. unfold simd_matmul_f32. destruct (avx2 ft && fma ft); [by apply matmul_avx2_filled; auto|].
  eexists. split; [done|]. by apply matmul_scalar_filled.
Qed.

(** The matrix product is the textbook one on every path: each element of
    [C] is the sum over [k], in order, of [A[i,k] * B[k,j]]; the path with
    fused operations agrees when those do not round differently, and for fewer
    than eight columns (the matrix-vector products of the model have one)
    always. *)
Theorem simd_matmul_correct ft A B C M N K m :
  0 <= M -> 0 < N -> 0 <= K -> A + 4 * (M * K) <= C \/ C + 4 * (M * N) <= A -> B + 4 * (K * N) <= C \/ C + 4 * (M * N) <= B ->
  (avx2 ft && fma ft = true -> 8 <= N -> unfused /\ aligned32 B /\ aligned32 C /\ N mod 8 = 0) ->
  exists m', simd_matmul_f32 ft A B C M N K m = Some m' /\ same_but C (M * N) m m' /\
    forall i j, 0 <= i < M -> 0 <= j < N ->
      ld m' C (i * N + j) = fold_left (fun acc k => (acc + ld m A (i * K + k) * ld m B (k * N + j))%float) (seqZ 0 K) f0.
Proof.
  intros HM HN HK HA HB Hf. destruct (simd_matmul_filled ft A B C M N K m) as (m' & E & H1 & H2); [lia | done | done | done |].
  exists m'. split; [done|]. split; [done|]. intros i j Hi Hj. rewrite H1 by nia. unfold mm_cell. destruct (cell_index N i j Hj) as [-> ->].
  unfold mm_at. rewrite for_up_fold, Z2Nat.id by done. done.
Qed.
End Spec.

(** ** Witnesses *)

#[local] Existing Instance b32.
Definition avx_features : simd_features_t := mk_simd true true true true true false.

(** Ten elements: one block of eight and two more. *)
Definition demo_floats : fmem spec_float := fun a => b32_of_z (a / 4 mod 32).

Lemma simd_elementwise_correct_witness : exists m', simd_vec_add_f32 avx_features 64 128 128 10 demo_floats = Some m' /\ ld m' 128 9 = b32_of_z (25 + 9).
Proof.
  destruct (simd_elementwise_correct avx_features 64 128 (b32_of_z 2) 128 10 demo_floats) as [(m' & E & Hi & _) _];
    [lia | reflexivity | reflexivity | reflexivity | right; left; lia | left; reflexivity |].
  exists m'. split; [exact E|]. rewrite Hi by lia. vm_compute. reflexivity.
Defined.

Lemma simd_misaligned_faults_witness : simd_vec_add_f32 avx_features 64 128 260 8 demo_floats = None.
Proof. apply simd_misaligned_faults; [reflexivity | lia | right; right; discriminate]. Defined.

(** A matrix-vector product on the AVX2 path. *)
Lemma simd_matmul_correct_witness : exists m', simd_matmul_f32 avx_features 0 40 60 2 1 3 demo_floats = Some m' /\ ld m' 60 1 = b32_of_z (3 * 10 + 4 * 11 + 5 * 12).
Proof.
  destruct (simd_matmul_correct avx_features 0 40 60 2 1 3 demo_floats) as (m' & E & _ & Hi); [lia | lia | lia | lia | lia | lia |].
  exists m'. split; [exact E|]. change (ld m' 60 1) with (ld m' 60 (1 * 1 + 0)). rewrite Hi by lia. vm_compute. reflexivity.
Defined.
