(* ===== verification/Arena.v ===== *)
(** The allocator as the language model uses it: blocks for structures
    ([kmalloc]) and 32-byte aligned blocks for floats ([kmalloc_aligned]), as
    an interface with the list of live blocks as its abstract state. *)

From S2P Require Import Prelude Memory Float.
Local Open Scope Z_scope.

(** [ar_alloc al n]: [n] bytes, aligned to 32 when [al]; [None] when the call
    does not return. *)
Class Arena (A : Type) := {
  ar_alloc : bool -> Z -> A -> option (Z * A);
  ar_free : bool -> Z -> A -> option A;
}.

(** Two regions of bytes that share none. *)
Definition disjoint_regions (r1 r2 : Z * Z) : Prop := r1.1 + r1.2 <= r2.1 \/ r2.1 + r2.2 <= r1.1.

Class ArenaSpec (A : Type) `{Arena A} := {
  ar_inv : A -> Prop;
  ar_live : A -> list (Z * Z);
  ar_alloc_ok al n s : ar_inv s -> 0 <= n < 2 ^ 30 ->
    exists p s', ar_alloc al n s = Some (p, s') /\ ar_inv s' /\
      (p = 0 /\ ar_live s' = ar_live s \/
       0 < p /\ ar_live s' = (p, n) :: ar_live s /\ (al = true -> p mod 32 = 0) /\ Forall (disjoint_regions (p, n)) (ar_live s));
  ar_free_ok al p n l1 l2 s : ar_inv s -> ar_live s = l1 ++ (p, n) :: l2 ->
    exists s', ar_free al p s = Some s' /\ ar_inv s' /\ ar_live s' = l1 ++ l2;
  ar_live_range p n s : ar_inv s -> (p, n) ∈ ar_live s -> p + n < 2 ^ 63;
}.

(** An allocator that never reuses memory, below a limit. *)
Record bump := mk_bump { b_next : Z; b_limit : Z; b_live : list (Z * Z) }.
Definition bump_drop (p : Z) (l : list (Z * Z)) : list (Z * Z) := filter (fun r => r.1 <> p) l.
#[export] Instance bump_arena : Arena bump := {
  ar_alloc al n s :=
    let p := 32 * (b_next s / 32 + 1) in
    Some (if p + n <=? b_limit s then (p, mk_bump (p + n) (b_limit s) ((p, n) :: b_live s)) else (0, s));
  ar_free al p s := Some (mk_bump (b_next s) (b_limit s) (bump_drop p (b_live s)));
}.

Definition bump_inv (s : bump) : Prop :=
  (0 <= b_next s < 2 ^ 63 /\ b_limit s < 2 ^ 63) /\ NoDup (b_live s).*1 /\ Forall (fun r => 0 <= r.2 /\ r.1 + r.2 <= b_next s) (b_live s).

Lemma filter_all {B} (P : B -> Prop) `{!forall x, Decision (P x)} l : Forall P l -> filter P l = l.
Proof. induction 1 as [|x l Hx Hl IH]; [done|]. by rewrite filter_cons_True, IH. Qed.

Lemma bump_drop_app l1 p n l2 : NoDup (l1 ++ (p, n) :: l2).*1 -> bump_drop p (l1 ++ (p, n) :: l2) = l1 ++ l2.
Proof.
  intros Hn. unfold bump_drop. rewrite fmap_app, fmap_cons in Hn. cbn [fst] in Hn. apply NoDup_app in Hn as (_ & H1 & H2).
  apply NoDup_cons in H2 as [H2 _]. rewrite filter_app, filter_cons_False by naive_solver. f_equal; apply filter_all.
  - apply Forall_forall. intros [q k] Hq E. cbn [fst] in E. apply (H1 p); [|by left]. apply list_elem_of_fmap. by exists (q, k).
  - apply Forall_forall. intros [q k] Hq E. cbn [fst] in E. apply H2. apply list_elem_of_fmap. by exists (q, k).
Qed.

#[export] Instance bump_arena_spec : ArenaSpec bump.
Proof.
  refine {| ar_inv := bump_inv; ar_live := b_live |}.
  - intros al n s (H0 & Hn & Hf) Hs. cbn. destruct (Z.leb_spec (32 * (b_next s / 32 + 1) + n) (b_limit s)) as [Hl|Hl]; (eexists _, _; split; [done|]).
    2: { split; [done|]. by left. }
    pose proof (Z.mod_pos_bound (b_next s) 32 ltac:(lia)). pose proof (Z.div_mod (b_next s) 32 ltac:(lia)).
    split; [split; [cbn; lia | split]|right]; cbn [b_live b_next b_limit].
    + rewrite fmap_cons. apply NoDup_cons. split; [|done]. cbn [fst]. intros ([q k] & E & Hq)%list_elem_of_fmap. cbn [fst] in E.
      rewrite Forall_forall in Hf. specialize (Hf _ Hq). cbn in Hf. lia.
    + apply Forall_cons. split; [cbn; lia|]. apply (Forall_impl _ _ _ Hf). cbn. intros; lia.
    + split; [lia|]. split; [done|]. split; [intros _; rewrite Z.mul_comm; by apply Z.mod_mul|].
      apply (Forall_impl _ _ _ Hf). intros [q k]. unfold disjoint_regions. cbn. lia.
  - intros al p n l1 l2 s (H0 & Hn & Hf) El. cbn. eexists. split; [done|]. rewrite El in *. cbn [b_live b_next]. rewrite bump_drop_app by done.
    split; [|done]. split; [done|]. cbn [b_live b_next]. split.
    + rewrite fmap_app, fmap_cons in Hn. apply NoDup_app in Hn as (N1 & N2 & N3). apply NoDup_cons in N3 as [N3 N4]. rewrite fmap_app. apply NoDup_app.
      split; [done|]. split; [|done]. intros x Hx Hx'. apply (N2 x Hx). by right.
    + apply Forall_app in Hf as [F1 F2]. apply Forall_cons in F2 as [_ F2]. by apply Forall_app.
  - intros p n s (H0 & _ & Hf) Hin. rewrite Forall_forall in Hf. specialize (Hf _ Hin). cbn in Hf. lia.
Defined.
