(* ===== verification/Tensor.v ===== *)
(** Tensors (kernel/llm/tensor.c): a shape of up to four dimensions over an
    array of floats; allocation, reshaping and slices along the first
    dimension. *)

From S2P Require Import Prelude Memory Float Arena.
Local Open Scope Z_scope.

(** [t_dims]: the array of four dimensions. *)
Record tensor_t := mk_tensor { t_data : Z; t_dims : Z -> Z; t_ndim : Z; t_numel : Z }.

(** 8 + 4 * 4 + 4, padded, + 8. *)
Definition SIZEOF_TENSOR : Z := 40.

(** [size_t n *= dims[i]] over the dimensions, which are int32_t. *)
Fixpoint numel_loop (k : nat) (i n : Z) (dims : Z -> Z) : Z :=
  match k with
  | O => n
  | S k' => if dims i <=? 0 then 0 else numel_loop k' (i + 1) (u64 (n * dims i)) dims
  end.
Definition tensor_numel_from_dims (dims : Z -> Z) (ndim : Z) : Z :=
  if (ndim <=? 0) || (4 <? ndim) then 0 else numel_loop (Z.to_nat ndim) 0 1 dims.

(** The dimensions with 1 in the unused places. *)
Definition padded_dims (dims : Z -> Z) (ndim : Z) (old : Z -> Z) : Z -> Z :=
  for_up 4 0 (fun i d => upd d i (if i <? ndim then dims i else 1)) old.

Section Tensor.
Context {A : Type} `{Arena A}.

(** The tensors in memory, by address, beside the allocator. *)
Definition tensor_alloc (dims : Z -> Z) (ndim : Z) (s : A) (ts : Z -> tensor_t) : option (Z * A * (Z -> tensor_t)) :=
  let numel := tensor_numel_from_dims dims ndim in
  if numel =? 0 then Some (0, s, ts)
  else
    '(t, s) ← ar_alloc false SIZEOF_TENSOR s;
    if t =? 0 then Some (0, s, ts)
    else
      '(data, s) ← ar_alloc true (u64 (numel * 4)) s;
      if data =? 0 then s ← ar_free false t s; Some (0, s, ts)
      else Some (t, s, upd ts t (mk_tensor data (padded_dims dims ndim (t_dims (ts t))) ndim numel)).

Definition tensor_free (t : Z) (s : A) (ts : Z -> tensor_t) : option A :=
  if t =? 0 then Some s
  else
    s ← (if negb (t_data (ts t) =? 0) then ar_free true (t_data (ts t)) s else Some s);
    ar_free false t s.
End Tensor.

(** The result -1 leaves the tensor as it was. *)
Definition tensor_reshape (t : tensor_t) (new_dims : Z -> Z) (new_ndim : Z) : Z * tensor_t :=
  let new_numel := tensor_numel_from_dims new_dims new_ndim in
  if (new_numel =? 0) || negb (new_numel =? t_numel t) then (- 1, t)
  else (0, mk_tensor (t_data t) (padded_dims new_dims new_ndim (t_dims t)) new_ndim (t_numel t)).

(** [None] for the result -1. *)
Definition tensor_slice (t : tensor_t) (dim0_start dim0_count : Z) : option tensor_t :=
  if t_ndim t <=? 0 then None
  else
    let dim0 := t_dims t 0 in
    if (dim0_start <? 0) || (dim0_count <=? 0) then None
    else if dim0 <? s32 (dim0_start + dim0_count) then None
    else
      let stride := if 0 <? dim0 then t_numel t / dim0 else t_numel t in
      Some (mk_tensor (t_data t + 4 * u64 (dim0_start * stride)) (upd (for_up 4 0 (fun i d => upd d i (t_dims t i)) (t_dims t)) 0 dim0_count)
              (t_ndim t) (u64 (dim0_count * stride))).

(** ** Shapes *)

(** The product of the first [k] dimensions. *)
Definition shape_size (dims : Z -> Z) (k : Z) : Z := fold_right Z.mul 1 (map dims (seqZ 0 k)).

Definition shape_ok (dims : Z -> Z) (ndim : Z) : Prop := 1 <= ndim <= 4 /\ Forall (fun i => 1 <= dims i) (seqZ 0 ndim).
#[export] Instance shape_ok_dec dims ndim : Decision (shape_ok dims ndim).
Proof. unfold shape_ok. apply _. Defined.

Lemma shape_dim dims ndim i : shape_ok dims ndim -> 0 <= i < ndim -> 1 <= dims i.
Proof. intros [_ Hd] Hi. rewrite Forall_forall in Hd. apply Hd. rewrite elem_of_seqZ. lia. Qed.

Lemma numel_loop_ok dims k i n :
  0 <= n -> (forall j, i <= j < i + Z.of_nat k -> 1 <= dims j) ->
  numel_loop k i (u64 n) dims = u64 (n * fold_right Z.mul 1 (map dims (seqZ i (Z.of_nat k)))).
Proof.
  revert i n. induction k as [|k IH]; intros i n Hn Hd; cbn [numel_loop]; [cbn; by rewrite Z.mul_1_r|].
  rewrite seqZ_cons by lia. cbn [map fold_right]. replace (Z.succ i) with (i + 1) by lia. replace (Z.pred (Z.of_nat (S k))) with (Z.of_nat k) by lia.
  pose proof (Hd i ltac:(lia)). destruct (Z.leb_spec (dims i) 0); [lia|].
  replace (u64 (u64 n * dims i)) with (u64 (n * dims i)) by (unfold u64; by rewrite Z.mul_mod_idemp_l).
  rewrite IH; [f_equal; lia | nia | intros; apply Hd; lia].
Qed.

Lemma numel_bad dims k i n : (exists j, i <= j < i + Z.of_nat k /\ dims j <= 0) -> numel_loop k i n dims = 0.
Proof.
  revert i n. induction k as [|k IH]; intros i n (j & Hj & Hd); [lia|]. cbn [numel_loop]. destruct (Z.leb_spec (dims i) 0); [done|].
  apply IH. exists j. split; [|done]. destruct (decide (j = i)) as [->|]; lia.
Qed.

Lemma numel_ok dims ndim : shape_ok dims ndim -> tensor_numel_from_dims dims ndim = u64 (shape_size dims ndim).
Proof.
  intros Hok. pose proof Hok as [Hn _]. unfold tensor_numel_from_dims, shape_size. destruct (Z.leb_spec ndim 0), (Z.ltb_spec 4 ndim); try lia. cbn [orb].
  pose proof (numel_loop_ok dims (Z.to_nat ndim) 0 1 ltac:(lia)) as E. change (u64 1) with 1 in E. rewrite E by (intros; apply (shape_dim dims ndim); [done | lia]).
  rewrite Z2Nat.id, Z.mul_1_l by lia. done.
Qed.

Lemma numel_not_ok dims ndim : ~ shape_ok dims ndim -> tensor_numel_from_dims dims ndim = 0.
Proof.
  intros Hn. unfold tensor_numel_from_dims. destruct (Z.leb_spec ndim 0), (Z.ltb_spec 4 ndim); try done. cbn [orb].
  apply numel_bad. rewrite Z2Nat.id, Z.add_0_l by lia.
  destruct (decide (Exists (fun j => dims j <= 0) (seqZ 0 ndim))) as [(j & Hj%elem_of_seqZ & Hd)%Exists_exists|Hx]; [exists j; split; [lia | done]|].
  exfalso. apply Hn. split; [lia|]. apply not_Exists_Forall in Hx; [|apply _]. apply (Forall_impl _ _ _ Hx). cbn. intros; lia.
Qed.

Lemma padded_dims_ok dims ndim old i : 0 <= i < 4 -> padded_dims dims ndim old i = if i <? ndim then dims i else 1.
Proof.
  intros Hi. unfold padded_dims. cbn [for_up]. unfold upd. assert (i = 0 \/ i = 1 \/ i = 2 \/ i = 3) as [->|[->|[->| ->]]] by lia; done.
Qed.

(** Reshaping succeeds exactly for a shape of one to four positive
    dimensions with as many elements; the tensor then has that shape (1 in the
    unused places) over the same array, and otherwise it is unchanged. *)
Theorem tensor_reshape_correct t dims ndim :
  0 < t_numel t -> shape_size dims ndim < 2 ^ 64 ->
  (shape_ok dims ndim /\ shape_size dims ndim = t_numel t ->
     exists t', tensor_reshape t dims ndim = (0, t') /\ t_data t' = t_data t /\ t_numel t' = t_numel t /\ t_ndim t' = ndim /\
       forall i, 0 <= i < 4 -> t_dims t' i = if i <? ndim then dims i else 1) /\
  (~ (shape_ok dims ndim /\ shape_size dims ndim = t_numel t) -> tensor_reshape t dims ndim = (- 1, t)).
Proof.
  intros Hp Hs. unfold tensor_reshape. assert (shape_ok dims ndim -> 0 <= shape_size dims ndim) as H0.
  { intros Hok. unfold shape_size. assert (forall l, Forall (fun j => 0 <= dims j) l -> 0 <= fold_right Z.mul 1 (map dims l)) as Hf.
    { induction 1 as [|x l Hx Hl IH]; cbn; [lia | nia]. }
    apply Hf. apply (Forall_impl _ _ _ (proj2 Hok)). cbn. intros; lia. }
  split.
  - intros [Hok E]. rewrite (numel_ok _ _ Hok), u64_small, E, Z.eqb_refl by (specialize (H0 Hok); lia).
    destruct (Z.eqb_spec (t_numel t) 0); [lia|]. cbn [orb negb]. eexists. split; [done|]. cbn. split_and!; try done. intros i Hi. by apply padded_dims_ok.
  - intros Hn. destruct (decide (shape_ok dims ndim)) as [Hok|Hok].
    + rewrite (numel_ok _ _ Hok), u64_small by (specialize (H0 Hok); lia). destruct (Z.eqb_spec (shape_size dims ndim) 0); [done|].
      destruct (Z.eqb_spec (shape_size dims ndim) (t_numel t)); [|done]. destruct Hn. done.
    + by rewrite (numel_not_ok _ _ Hok).
Qed.

(** A tensor whose count of elements is that of its shape. *)
Record tensor_wf (t : tensor_t) : Prop := {
  tw_shape : shape_ok (t_dims t) (t_ndim t);
  tw_numel : t_numel t = shape_size (t_dims t) (t_ndim t);
  tw_small : t_numel t < 2 ^ 62;
}.

Lemma shape_size_pos dims ndim : shape_ok dims ndim -> 1 <= shape_size dims ndim.
Proof.
  intros [_ Hd]. unfold shape_size. induction Hd as [|x l Hx Hl IH]; cbn; [lia | nia].
Qed.

(** The elements of one index of the first dimension. *)
Lemma shape_size_first dims ndim : shape_ok dims ndim -> shape_size dims ndim = dims 0 * fold_right Z.mul 1 (map dims (seqZ 1 (ndim - 1))) /\ 1 <= fold_right Z.mul 1 (map dims (seqZ 1 (ndim - 1))).
Proof.
  intros Hok. pose proof Hok as [Hn Hd]. unfold shape_size. rewrite seqZ_cons in Hd |- * by lia. cbn [map fold_right].
  replace (Z.succ 0) with 1 in * by lia. replace (Z.pred ndim) with (ndim - 1) in * by lia. split; [done|].
  apply Forall_cons in Hd as [_ Hd]. induction Hd as [|x l Hx Hl IH]; cbn; [lia | nia].
Qed.

(** A slice is a window: row [i] of the view is row [start + i] of the
    tensor, every element of it is an element of the tensor's array, and the
    view is itself a well-formed tensor, so that slices of slices work; a
    start or count outside the tensor is refused. *)
Theorem tensor_slice_correct {F} (m : fmem F) t start count :
  tensor_wf t -> - 2 ^ 31 <= start < 2 ^ 31 -> - 2 ^ 31 <= count < 2 ^ 31 -> start + count < 2 ^ 31 ->
  match tensor_slice t start count with
  | Some v => 0 <= start /\ 1 <= count /\ start + count <= t_dims t 0 /\ tensor_wf v /\
      exists stride, t_numel t = t_dims t 0 * stride /\ t_numel v = count * stride /\
        forall i r, 0 <= i < count -> 0 <= r < stride ->
          0 <= (start + i) * stride + r < t_numel t /\ ld m (t_data v) (i * stride + r) = ld m (t_data t) ((start + i) * stride + r)
  | None => start < 0 \/ count <= 0 \/ t_dims t 0 < start + count
  end.
Proof.
  intros [Hok Hne Hsm] Hs Hc Hsc. pose proof Hok as [Hn _]. pose proof (shape_dim _ _ 0 Hok ltac:(lia)) as Hd0.
  destruct (shape_size_first _ _ Hok) as [Es Hst]. unfold tensor_slice.
  destruct (Z.leb_spec (t_ndim t) 0); [lia|]. destruct (Z.ltb_spec start 0); [by left|]. destruct (Z.leb_spec count 0); [by right; left|]. cbn [orb].
  rewrite s32_small by lia. destruct (Z.ltb_spec (t_dims t 0) (start + count)); [by right; right|].
  rewrite (proj2 (Z.ltb_lt 0 (t_dims t 0))) by lia. rewrite Hne, Es. set (k := fold_right _ _ _) in *. rewrite (Z.mul_comm (t_dims t 0) k), Z.div_mul by lia.
  assert (t_numel t = t_dims t 0 * k) as En by lia. rewrite !u64_small by nia. split_and!; try lia.
  - assert (forall i, upd (for_up 4 0 (fun i d => upd d i (t_dims t i)) (t_dims t)) 0 count i = if i =? 0 then count else t_dims t i) as Ed.
    { intros i. unfold upd at 1. rewrite (Z.eqb_sym 0 i). destruct (Z.eqb_spec i 0); [done|]. cbn [for_up]. unfold upd. repeat zcase; subst; done. }
    assert (shape_ok (fun i => if i =? 0 then count else t_dims t i) (t_ndim t)) as Hok'.
    { split; [done|]. apply Forall_forall. intros i Hi%elem_of_seqZ. destruct (Z.eqb_spec i 0); [lia|]. apply (shape_dim _ _ _ Hok). lia. }
    assert (shape_size (fun i => if i =? 0 then count else t_dims t i) (t_ndim t) = count * k) as Esz.
    { destruct (shape_size_first _ _ Hok') as [-> _]. cbn [Z.eqb]. f_equal. unfold k. f_equal. apply list_fmap_ext.
      intros i x Hx%lookup_seqZ. by rewrite (proj2 (Z.eqb_neq x 0)) by lia. }
    split; cbn [t_dims t_ndim t_numel].
    + split; [done|]. apply (Forall_impl _ _ _ (proj2 Hok')). intros i. by rewrite Ed.
    + rewrite <- Esz. unfold shape_size. f_equal. apply list_fmap_ext. intros i x _. symmetry. apply Ed.
    + nia.
  - exists k. split_and!; [lia | done|]. intros i r Hi Hr. cbn. split; [nia|]. unfold ld. f_equal. lia.
Qed.

Section AllocSpec.
Context {A : Type} `{ArenaSpec A}.

(** A tensor that was allocated is well-formed and has an aligned block of
    four bytes per element of its own; freeing it leaves the allocator's live
    blocks as before; and when memory runs out nothing is kept. *)
Theorem tensor_alloc_correct dims ndim s ts :
  ar_inv s -> shape_ok dims ndim -> 4 * shape_size dims ndim < 2 ^ 30 ->
  exists t s' ts', tensor_alloc dims ndim s ts = Some (t, s', ts') /\ ar_inv s' /\
    (t = 0 -> ar_live s' = ar_live s /\ ts' = ts) /\
    (t <> 0 -> tensor_wf (ts' t) /\ t_ndim (ts' t) = ndim /\ (forall i, 0 <= i < ndim -> t_dims (ts' t) i = dims i) /\
      t_data (ts' t) mod 32 = 0 /\ (forall u, u <> t -> ts' u = ts u) /\
      ar_live s' = (t_data (ts' t), 4 * t_numel (ts' t)) :: (t, SIZEOF_TENSOR) :: ar_live s /\
      Forall (disjoint_regions (t_data (ts' t), 4 * t_numel (ts' t))) ((t, SIZEOF_TENSOR) :: ar_live s) /\
      exists s'', tensor_free t s' ts' = Some s'' /\ ar_inv s'' /\ ar_live s'' = ar_live s).
Proof.
  intros Hi Hok Hs. pose proof Hok as [Hn _]. pose proof (shape_size_pos _ _ Hok). unfold tensor_alloc. rewrite (numel_ok _ _ Hok), u64_small by lia.
  rewrite (proj2 (Z.eqb_neq (shape_size dims ndim) 0)) by lia.
  destruct (ar_alloc_ok false SIZEOF_TENSOR s Hi ltac:(unfold SIZEOF_TENSOR; lia)) as (t & s1 & -> & I1 & [[-> L1]|(Pt & L1 & _ & D1)]).
  { exists 0, s1, ts. split; [done|]. split; [done|]. done. }
  cbn [mbind option_bind]. rewrite (proj2 (Z.eqb_neq t 0)) by lia. rewrite u64_small by lia.
  destruct (ar_alloc_ok true (shape_size dims ndim * 4) s1 I1 ltac:(lia)) as (d & s2 & -> & I2 & Hd). cbn [mbind option_bind].
  destruct Hd as [[-> L2]|(Pd & L2 & Al & D2)].
  - rewrite Z.eqb_refl. rewrite L1 in L2. destruct (ar_free_ok false t SIZEOF_TENSOR [] (ar_live s) s2 I2 L2) as (s3 & -> & I3 & L3).
    exists 0, s3, ts. split; [done|]. split; [done|]. done.
  - rewrite (proj2 (Z.eqb_neq d 0)) by lia. eexists t, s2, _. split; [done|]. split; [done|]. split; [lia|]. intros _. rewrite upd_eq. cbn [t_data t_dims t_ndim t_numel].
    rewrite L1 in L2, D2. rewrite (Z.mul_comm 4). split_and!; [| done | | by apply Al | | done | done |].
    + assert (forall i, 0 <= i < ndim -> padded_dims dims ndim (t_dims (ts t)) i = dims i) as Ep.
      { intros i Hi'. rewrite padded_dims_ok by lia. by rewrite (proj2 (Z.ltb_lt i ndim)) by lia. }
      split; cbn [t_dims t_ndim t_numel].
      * split; [done|]. apply Forall_forall. intros i Hi'%elem_of_seqZ. rewrite Ep by lia. apply (shape_dim _ _ _ Hok). lia.
      * unfold shape_size. f_equal. apply list_fmap_ext. intros i x Hx%lookup_seqZ. rewrite Ep by lia. done.
      * lia.
    + intros i Hi'. rewrite padded_dims_ok by lia. by rewrite (proj2 (Z.ltb_lt i ndim)) by lia.
    + intros u Hu. by rewrite upd_ne.
    + unfold tensor_free. rewrite (proj2 (Z.eqb_neq t 0)), upd_eq by lia. cbn. rewrite (proj2 (Z.eqb_neq d 0)) by lia. cbn [negb].
      destruct (ar_free_ok true d (shape_size dims ndim * 4) [] ((t, SIZEOF_TENSOR) :: ar_live s) s2 I2 L2) as (s3 & -> & I3 & L3).
      cbn [mbind option_bind]. destruct (ar_free_ok false t SIZEOF_TENSOR [] (ar_live s) s3 I3 L3) as (s4 & E4 & I4 & L4). by exists s4.
Qed.

(** The size in bytes wraps: a shape of 2^62 elements is given a block of no
    bytes. *)
Lemma tensor_alloc_wraps s ts t s1 d s2 :
  ar_alloc false SIZEOF_TENSOR s = Some (t, s1) -> t <> 0 -> ar_alloc true 0 s1 = Some (d, s2) -> d <> 0 ->
  exists ts', tensor_alloc (fun i => if i <? 2 then 2 ^ 30 else 4) 3 s ts = Some (t, s2, ts') /\ t_numel (ts' t) = 2 ^ 62.
Proof.
  intros E1 H1 E2 H2. unfold tensor_alloc. change (tensor_numel_from_dims (fun i => if i <? 2 then 2 ^ 30 else 4) 3) with (2 ^ 62). change (2 ^ 62 =? 0) with false.
  cbv iota. rewrite E1. cbn [mbind option_bind]. rewrite (proj2 (Z.eqb_neq t 0)) by done. change (u64 (2 ^ 62 * 4)) with 0. rewrite E2. cbn [mbind option_bind].
  rewrite (proj2 (Z.eqb_neq d 0)) by done. eexists. split; [done|]. by rewrite upd_eq.
Qed.
End AllocSpec.

(** ** Witnesses *)

Definition demo_tensor : tensor_t := mk_tensor 4096 (fun i => if i =? 0 then 6 else if i =? 1 then 4 else 1) 2 24.

Lemma demo_tensor_wf : tensor_wf demo_tensor.
Proof. split; [split; [cbn; lia | vm_compute; repeat constructor; discriminate] | reflexivity | cbn; lia]. Qed.

Lemma tensor_reshape_correct_witness : exists t', tensor_reshape demo_tensor (fun i => 2 + i) 3 = (0, t') /\ t_dims t' 2 = 4.
Proof.
  destruct (tensor_reshape_correct demo_tensor (fun i => 2 + i) 3) as [H _]; [cbn; lia | vm_compute; reflexivity |].
  destruct H as (t' & E & _ & _ & _ & Hd); [split; [split; [lia | vm_compute; repeat constructor; discriminate] | reflexivity]|].
  exists t'. split; [exact E|]. rewrite Hd by lia. reflexivity.
Defined.

(** Rows 2 to 4 of a matrix of six rows. *)
Lemma tensor_slice_correct_witness : exists v, tensor_slice demo_tensor 2 3 = Some v /\ t_numel v = 12.
Proof.
  pose proof (tensor_slice_correct (fun a => a) demo_tensor 2 3 demo_tensor_wf ltac:(lia) ltac:(lia) ltac:(lia)) as H.
  eexists. split; [reflexivity|]. destruct H as (_ & _ & _ & _ & k & E1 & E2 & _). rewrite E2. cbn in E1. lia.
Defined.

Lemma tensor_alloc_correct_witness :
  exists s' ts', tensor_alloc (fun _ => 3) 2 (mk_bump 100 4096 []) (fun _ => demo_tensor) = Some (128, s', ts') /\ t_numel (ts' 128) = 9.
Proof.
  destruct (tensor_alloc_correct (fun _ => 3) 2 (mk_bump 100 4096 []) (fun _ => demo_tensor)) as (t & s' & ts' & E & _ & _ & Ht).
  - split; [cbn; lia | split; constructor].
  - split; [lia | repeat constructor; lia].
  - vm_compute. reflexivity.
  - pose proof E as E'. vm_compute in E'. injection E' as E1 _ _. subst t. exists s', ts'. split; [exact E|].
    destruct (Ht ltac:(lia)) as ([_ Hn _] & H2 & H3 & _). rewrite Hn, H2. unfold shape_size. change (seqZ 0 2) with [0; 1]. cbn [map fold_right]. rewrite !H3 by lia. reflexivity.
Defined.
