(* ===== verification/Quant.v ===== *)
(** Quantised weights (kernel/llm/quant.c): rows of signed bytes with a scale,
    and rows of signed four-bit values, two to a byte, with a scale and a
    zero point. *)

From Stdlib Require Import Floats.SpecFloat.
From S2P Require Import Prelude Memory Float Simd.
Local Open Scope Z_scope.

(** [q_zeros] is used by the four-bit format only; a null pointer is 0. *)
Record quant_t := mk_quant { q_data : Z; q_scales : Z; q_zeros : Z; q_rows : Z; q_cols : Z }.

Definition s8 (b : Z) : Z := if b <? 128 then b else b - 256.

Definition q4k_unpack (byte idx : Z) : Z :=
  let nibble := if idx =? 0 then Z.shiftr byte 4 else Z.land byte 0x0F in
  if negb (Z.land nibble 0x8 =? 0) then s8 (Z.lor nibble 0xF0) else nibble.

Section Quant.
Context {F} `{FloatOps F}.
Implicit Types fm : fmem F.

Definition row_param (p row : Z) (dflt : F) fm : F := if p =? 0 then dflt else ld fm p row.

(** *** Bytes *)

(** Column [c] of the row at [src]. *)
Definition q8_at (m : mem) (src c : Z) : F := fofz (s8 (m (src + c))).

Definition quant_q8_0_dequant_row (m : mem) (q : quant_t) (row dst : Z) fm : fmem F :=
  if q_rows q <=? row then fm
  else
    let src := q_data q + row * q_cols q in
    let scale := row_param (q_scales q) row f1 fm in
    store_loop (q_cols q) dst (fun c _ => (q8_at m src c * scale)%float) fm.

Definition quant_q8_0_matvec (m : mem) (w : quant_t) (x y : Z) fm : fmem F :=
  for_up (Z.to_nat (q_rows w)) 0 (fun r fm =>
    let row := q_data w + r * q_cols w in
    let scale := row_param (q_scales w) r f1 fm in
    let acc := for_up (Z.to_nat (q_cols w)) 0 (fun c acc => (acc + q8_at m row c * scale * ld fm x c)%float) f0 in
    st fm y r acc) fm.

(** *** Four-bit values *)

Definition q4k_bytes (cols : Z) : Z := u32 (cols + 1) / 2.

(** [for (i = 0; i < 2 && col < cols; i++, col++)] for the byte at [src + b]:
    [step] is called with the column and the value. *)
Definition q4k_byte {T} (m : mem) (src cols b : Z) (step : Z -> Z -> T -> T) (s : T) : T :=
  let packed := m (src + b) in
  let s := if 2 * b <? cols then step (2 * b) (q4k_unpack packed 0) s else s in
  if 2 * b + 1 <? cols then step (2 * b + 1) (q4k_unpack packed 1) s else s.
Definition q4k_row {T} (m : mem) (src cols : Z) (step : Z -> Z -> T -> T) (s : T) : T :=
  for_up (Z.to_nat (q4k_bytes cols)) 0 (fun b s => q4k_byte m src cols b step s) s.

Definition q4k_value (qv : Z) (zero scale : F) : F := ((fofz qv - zero) * scale)%float.

Definition quant_q4k_dequant_row (m : mem) (q : quant_t) (row dst : Z) fm : fmem F :=
  if q_rows q <=? row then fm
  else
    let src := q_data q + row * q4k_bytes (q_cols q) in
    let scale := row_param (q_scales q) row f1 fm in
    let zero := row_param (q_zeros q) row f0 fm in
    q4k_row m src (q_cols q) (fun col qv fm => st fm dst col (q4k_value qv zero scale)) fm.

Definition quant_q4k_matvec (m : mem) (w : quant_t) (x y : Z) fm : fmem F :=
  for_up (Z.to_nat (q_rows w)) 0 (fun r fm =>
    let row := q_data w + r * q4k_bytes (q_cols w) in
    let scale := row_param (q_scales w) r f1 fm in
    let zero := row_param (q_zeros w) r f0 fm in
    let acc := q4k_row m row (q_cols w) (fun col qv acc => (acc + q4k_value qv zero scale * ld fm x col)%float) f0 in
    st fm y r acc) fm.
End Quant.

(** ** Four-bit values *)

(** A byte of two signed four-bit values, the first in the upper half. *)
Definition q4k_pack (hi lo : Z) : Z := 16 * (hi mod 16) + lo mod 16.

Lemma q4k_unpack_pack hi lo : - 8 <= hi < 8 -> - 8 <= lo < 8 -> q4k_unpack (q4k_pack hi lo) 0 = hi /\ q4k_unpack (q4k_pack hi lo) 1 = lo.
Proof.
  intros Hh Hl. assert (forallb (fun h => forallb (fun l => (q4k_unpack (q4k_pack h l) 0 =? h) && (q4k_unpack (q4k_pack h l) 1 =? l)) (seqZ (- 8) 16)) (seqZ (- 8) 16) = true) as E by (vm_compute; reflexivity).
  rewrite forallb_forall in E. specialize (E hi). rewrite forallb_forall in E. specialize (E ltac:(apply list_elem_of_In, elem_of_seqZ; lia) lo ltac:(apply list_elem_of_In, elem_of_seqZ; lia)).
  b2p. done.
Qed.

(** The columns in order, each with its half byte. *)
Definition q4k_at (m : mem) (src c : Z) : Z := q4k_unpack (m (src + c / 2)) (c mod 2).

Lemma q4k_bytes_loop {T} m src cols (step : Z -> Z -> T -> T) n b s :
  0 <= b -> 2 * (b + Z.of_nat n) <= cols ->
  for_up n b (fun b s => q4k_byte m src cols b step s) s = for_up (2 * n) (2 * b) (fun c s => step c (q4k_at m src c) s) s.
Proof.
  revert b s. induction n as [|n IH]; intros b s Hb Hn; [done|]. replace (2 * S n)%nat with (S (S (2 * n))) by lia. cbn [for_up].
  rewrite IH by lia. replace (2 * (b + 1)) with (2 * b + 1 + 1) by lia. unfold q4k_byte.
  rewrite (proj2 (Z.ltb_lt (2 * b) cols)), (proj2 (Z.ltb_lt (2 * b + 1) cols)) by lia. f_equal. unfold q4k_at.
  replace ((2 * b) / 2) with b by dlia. replace ((2 * b) mod 2) with 0 by dlia. replace ((2 * b + 1) / 2) with b by dlia. by replace ((2 * b + 1) mod 2) with 1 by dlia.
Qed.

Lemma q4k_row_cols {T} m src cols (step : Z -> Z -> T -> T) s :
  0 <= cols < 2 ^ 32 - 1 -> q4k_row m src cols step s = for_up (Z.to_nat cols) 0 (fun c s => step c (q4k_at m src c) s) s.
Proof.
  intros Hc. unfold q4k_row, q4k_bytes. rewrite u32_small by lia.
  assert (cols = 2 * (cols / 2) \/ cols = 2 * (cols / 2) + 1) as [E|E] by dlia; set (h := cols / 2) in *; assert (0 <= h) by dlia.
  - replace ((cols + 1) / 2) with h by dlia. rewrite q4k_bytes_loop by lia. f_equal. lia.
  - replace ((cols + 1) / 2) with (h + 1) by dlia. replace (Z.to_nat (h + 1)) with (Z.to_nat h + 1)%nat by lia. rewrite for_up_app, (q4k_bytes_loop m src cols step (Z.to_nat h) 0) by lia.
    replace (Z.to_nat cols) with (2 * Z.to_nat h + 1)%nat by lia. rewrite for_up_app. cbn [for_up]. unfold q4k_byte.
    replace (0 + Z.of_nat (Z.to_nat h)) with h by lia. replace (0 + Z.of_nat (2 * Z.to_nat h)) with (2 * h) by lia.
    rewrite (proj2 (Z.ltb_lt (2 * h) cols)), (proj2 (Z.ltb_ge (2 * h + 1) cols)) by lia. unfold q4k_at.
    replace ((2 * h) / 2) with h by dlia. by replace ((2 * h) mod 2) with 0 by dlia.
Qed.

(** ** Products *)

Section Products.
Context {F} `{FloatOps F}.
Implicit Types fm : fmem F.

(** A row of the product: loops that store one row after the other. *)
Lemma rows_loop (g : Z -> fmem F -> F) y rows fm :
  0 <= rows -> (forall r fm', 0 <= r < rows -> same_but y r fm fm' -> g r fm' = g r fm) ->
  let fm' := for_up (Z.to_nat rows) 0 (fun r fm => st fm y r (g r fm)) fm in
  (forall r, 0 <= r < rows -> ld fm' y r = g r fm) /\ same_but y rows fm fm'.
Proof. exact (fun H1 H2 => store_loop_ok rows y g fm H1 H2). Qed.

Lemma row_param_frame p rows r dflt y n fm fm' :
  p = 0 \/ p + 4 * rows <= y \/ y + 4 * n <= p -> 0 <= r < rows -> same_but y n fm fm' -> row_param p r dflt fm' = row_param p r dflt fm.
Proof. intros Hp Hr Hs. unfold row_param. destruct (Z.eqb_spec p 0); [done|]. unfold ld. apply Hs. lia. Qed.

(** A quantised matrix whose parameters and the vector [x] do not overlap the
    output [y]. *)
Record quant_fits (q : quant_t) (x y : Z) : Prop := {
  qf_rows : 0 <= q_rows q;
  qf_cols : 0 <= q_cols q < 2 ^ 32 - 1;
  qf_scales : q_scales q = 0 \/ q_scales q + 4 * q_rows q <= y \/ y + 4 * q_rows q <= q_scales q;
  qf_zeros : q_zeros q = 0 \/ q_zeros q + 4 * q_rows q <= y \/ y + 4 * q_rows q <= q_zeros q;
  qf_x : x + 4 * q_cols q <= y \/ y + 4 * q_rows q <= x;
}.

(** The row dequantised into a buffer, then multiplied with [x]. *)
Definition reference_row (dequant : quant_t -> Z -> Z -> fmem F -> fmem F) (q : quant_t) (r x buf : Z) fm : F :=
  dot_loop (Z.to_nat (q_cols q)) 0 buf x f0 (dequant q r buf fm).

Lemma q8_reference m q r x buf fm : 0 <= r < q_rows q -> 0 <= q_cols q -> x + 4 * q_cols q <= buf \/ buf + 4 * q_cols q <= x ->
  reference_row (quant_q8_0_dequant_row m) q r x buf fm =
  for_up (Z.to_nat (q_cols q)) 0 (fun c acc => (acc + q8_at m (q_data q + r * q_cols q) c * row_param (q_scales q) r f1 fm * ld fm x c)%float) f0.
Proof.
  intros Hr Hc Hb. unfold reference_row, quant_q8_0_dequant_row, dot_loop. rewrite (proj2 (Z.leb_gt _ r)) by lia.
  destruct (store_loop_ok (q_cols q) buf (fun c _ => (q8_at m (q_data q + r * q_cols q) c * row_param (q_scales q) r f1 fm)%float) fm Hc) as [H1 H2]; [done|].
  apply for_up_ext. intros c acc Hcc. rewrite H1 by lia. f_equal. f_equal. unfold ld. apply H2. lia.
Qed.

Lemma q4k_reference m q r x buf fm : 0 <= r < q_rows q -> 0 <= q_cols q < 2 ^ 32 - 1 -> x + 4 * q_cols q <= buf \/ buf + 4 * q_cols q <= x ->
  reference_row (quant_q4k_dequant_row m) q r x buf fm =
  for_up (Z.to_nat (q_cols q)) 0 (fun c acc => (acc + q4k_value (q4k_at m (q_data q + r * q4k_bytes (q_cols q)) c) (row_param (q_zeros q) r f0 fm) (row_param (q_scales q) r f1 fm) * ld fm x c)%float) f0.
Proof.
  intros Hr Hc Hb. unfold reference_row, quant_q4k_dequant_row, dot_loop. rewrite (proj2 (Z.leb_gt _ r)) by lia. rewrite q4k_row_cols by done.
  destruct (store_loop_ok (q_cols q) buf (fun c _ => q4k_value (q4k_at m (q_data q + r * q4k_bytes (q_cols q)) c) (row_param (q_zeros q) r f0 fm) (row_param (q_scales q) r f1 fm)) fm ltac:(lia)) as [H1 H2]; [done|].
  unfold store_loop in H1, H2. apply for_up_ext. intros c acc Hcc. rewrite H1 by lia. f_equal. f_equal. unfold ld. apply H2. lia.
Qed.

(** C22: multiplying a quantised matrix with a vector gives, bit for bit, what
    dequantising each row into a buffer and multiplying that would: for the
    byte format and for the four-bit format (whose values are the signed
    halves of the bytes, the upper half first, and whose rows may be odd). *)
Theorem quant_matvec_correct m q x y buf fm :
  quant_fits q x y -> x + 4 * q_cols q <= buf \/ buf + 4 * q_cols q <= x ->
  (let fm' := quant_q8_0_matvec m q x y fm in
   (forall r, 0 <= r < q_rows q -> ld fm' y r = reference_row (quant_q8_0_dequant_row m) q r x buf fm) /\ same_but y (q_rows q) fm fm') /\
  (let fm' := quant_q4k_matvec m q x y fm in
   (forall r, 0 <= r < q_rows q -> ld fm' y r = reference_row (quant_q4k_dequant_row m) q r x buf fm) /\ same_but y (q_rows q) fm fm') /\
  (forall hi lo, - 8 <= hi < 8 -> - 8 <= lo < 8 -> q4k_unpack (q4k_pack hi lo) 0 = hi /\ q4k_unpack (q4k_pack hi lo) 1 = lo).
Proof.
  intros [Hr Hc Hs Hz Hx] Hb.
  assert (forall r fm', 0 <= r < q_rows q -> same_but y r fm fm' -> forall c, 0 <= c < q_cols q -> ld fm' x c = ld fm x c) as Fx.
  { intros r fm' Hr' Hsb c Hcc. unfold ld. apply Hsb. lia. }
  assert (forall p, p = 0 \/ p + 4 * q_rows q <= y \/ y + 4 * q_rows q <= p -> forall r dflt fm', 0 <= r < q_rows q -> same_but y r fm fm' -> row_param p r dflt fm' = row_param p r dflt fm) as Fp.
  { intros p Hp r dflt fm' Hr' Hsb. apply (row_param_frame p (q_rows q) r dflt y r fm); [lia | done | done]. }
  split; [|split; [|by apply q4k_unpack_pack]].
  - edestruct (rows_loop (fun r fm => for_up (Z.to_nat (q_cols q)) 0 (fun c acc => (acc + q8_at m (q_data q + r * q_cols q) c * row_param (q_scales q) r f1 fm * ld fm x c)%float) f0) y (q_rows q) fm Hr) as [H1 H2].
    + intros r fm' Hr' Hsb. apply for_up_ext. intros c acc Hcc. rewrite (Fp _ Hs), (Fx r) by (done || lia). done.
    + split; [|exact H2]. intros r Hr'. rewrite q8_reference by (done || lia). by apply H1.
  - edestruct (rows_loop (fun r fm => q4k_row m (q_data q + r * q4k_bytes (q_cols q)) (q_cols q)
      (fun col qv acc => (acc + q4k_value qv (row_param (q_zeros q) r f0 fm) (row_param (q_scales q) r f1 fm) * ld fm x col)%float) f0) y (q_rows q) fm Hr) as [H1 H2].
    + intros r fm' Hr' Hsb. rewrite !q4k_row_cols by done. apply for_up_ext. intros c acc Hcc. rewrite (Fp _ Hs), (Fp _ Hz), (Fx r) by (done || lia). done.
    + split; [|exact H2]. intros r Hr'. rewrite q4k_reference by (done || lia). rewrite <- (q4k_row_cols m _ (q_cols q) (fun c qv acc => (acc + q4k_value qv (row_param (q_zeros q) r f0 fm) (row_param (q_scales q) r f1 fm) * ld fm x c)%float)) by done.
      by apply H1.
Qed.
End Products.

(** ** Witness *)

#[local] Existing Instance b32.

(** Two rows of three four-bit values, [1, -2, 3] and [-4, 5, -6]. *)
Definition demo_quant : quant_t := mk_quant 0 0 0 2 3.
Definition demo_quant_bytes : mem := fun a => nth (Z.to_nat a) [q4k_pack 1 (- 2); q4k_pack 3 0; q4k_pack (- 4) 5; q4k_pack (- 6) 0] 0.

Lemma quant_matvec_correct_witness : ld (quant_q4k_matvec demo_quant_bytes demo_quant 40 400 demo_floats) 400 1 = b32_of_z (- 4 * 10 + 5 * 11 - 6 * 12).
Proof.
  destruct (quant_matvec_correct demo_quant_bytes demo_quant 40 400 800 demo_floats) as (_ & [H _] & _);
    [split; cbn; lia | cbn; lia |]. cbn zeta in H. rewrite H by (cbn; lia). vm_compute. reflexivity.
Defined.
