(* ===== verification/Ops.v ===== *)
(** The tensor operations of the language model (kernel/llm/ops.c): scalar
    approximations, elementwise operations, products, normalisation, embedding
    lookup and rotary position embedding. *)

From S2P Require Import Prelude Memory Float Simd Tensor.
Local Open Scope Z_scope.

Section Ops.
Context {F} `{FloatOps F}.
Implicit Types m : fmem F.

(** *** Scalar functions *)

(** Polynomials in Horner form, the constant coefficient first. *)
Fixpoint horner (cs : list F) (x : F) : F :=
  match cs with
  | [] => f0
  | [c] => c
  | c :: cs => (c + x * horner cs x)%float
  end.

Definition rsqrtf (x : F) : F :=
  let y := frsqrt x in (y * (fdec 15 (- 1) - fdec 5 (- 1) * x * y * y))%float.

Definition EXP_COEFFS : list F :=
  [f1; f1; fdec 5 (- 1); fdec 16666667 (- 8); fdec 4166667 (- 8); fdec 833333 (- 8); fdec 1388889 (- 9)].
Definition ops_expf_approx (x : F) : F :=
  if flt (fdec 883762 (- 4)) x then fdec 340282347 30
  else if flt x (fneg (fdec 873365 (- 4))) then f0
  else
    let ln2_inv := fdec 14426950408 (- 10) in
    let ln2_hi := fdec 6931471806 (- 10) in
    let ln2_lo := fdec 19082149293 (- 20) in
    let k := ftoz (x * ln2_inv + fdec 5 (- 1))%float in
    let r := (x - fofz k * ln2_hi - fofz k * ln2_lo)%float in
    let p := horner EXP_COEFFS r in
    let e := s32 (k + 127) in
    if e <=? 0 then f0
    else if 255 <=? e then fdec 340282347 30
    else (p * fofbits (u32 (Z.shiftl e 23)))%float.

Definition ops_sqrtf_approx (x : F) : F := if fle x f0 then f0 else (x * rsqrtf x)%float.

(** Into [-pi, pi]. *)
Definition TWO_PI : F := fdec 628318530718 (- 11).
Definition PI : F := fdec 314159265359 (- 11).
Definition reduce_angle (x : F) : F :=
  let n := ftoz (x / TWO_PI)%float in
  let x := (x - fofz n * TWO_PI)%float in
  let x := if flt PI x then (x - TWO_PI)%float else x in
  if flt x (fneg PI) then (x + TWO_PI)%float else x.
Definition cosf (x : F) : F :=
  let x := reduce_angle x in
  horner [f1; fneg (fdec 5 (- 1)); fdec 4166667 (- 8); fneg (fdec 138889 (- 8)); fdec 2480 (- 8)] (x * x)%float.
Definition sinf (x : F) : F :=
  let x := reduce_angle x in
  (x * horner [f1; fneg (fdec 16666667 (- 8)); fdec 833333 (- 8); fneg (fdec 19841 (- 8)); fdec 27557 (- 10)] (x * x))%float.

(** The exponent and the mantissa as a number in [1, 2). *)
Definition powf_pos (base e : F) : F :=
  let bits := fbits base in
  let e2 := Z.land (Z.shiftr bits 23) 0xFF - 127 in
  let x := fofbits (Z.lor (Z.land bits 0x807FFFFF) (Z.shiftl 0x7F 23)) in
  let r := (x - f1)%float in
  let ln_m := (r * horner [f1; fneg (fdec 5 (- 1)); fdec 33333333 (- 8); fneg (fdec 25 (- 2)); fdec 2 (- 1)] r)%float in
  let ln_x := (ln_m + fofz e2 * fdec 6931471806 (- 10))%float in
  ops_expf_approx (e * ln_x)%float.

(** *** Elementwise operations *)

Definition ops_memcpy_floats (dst src n : Z) m : fmem F := store_loop n dst (fun i m => ld m src i) m.

Definition ops_add (ft : simd_features_t) (a b out : tensor_t) m : option (fmem F) := simd_vec_add_f32 ft (t_data a) (t_data b) (t_data out) (t_numel a) m.
Definition ops_scale (ft : simd_features_t) (t : tensor_t) (scalar : F) (out : tensor_t) m : option (fmem F) :=
  simd_vec_scale_f32 ft (t_data t) scalar (t_data out) (t_numel t) m.
Definition ops_mul (ft : simd_features_t) (a b out : tensor_t) m : option (fmem F) := simd_vec_mul_f32 ft (t_data a) (t_data b) (t_data out) (t_numel a) m.
Definition ops_fill (t : tensor_t) (val : F) m : fmem F := store_loop (t_numel t) (t_data t) (fun _ _ => val) m.
Definition ops_copy (dst src : tensor_t) m : fmem F := ops_memcpy_floats (t_data dst) (t_data src) (t_numel src) m.

(** *** Products *)

Definition ops_matmul (ft : simd_features_t) (A B C : tensor_t) m : option (fmem F) :=
  simd_matmul_f32 ft (t_data A) (t_data B) (t_data C) (t_dims A 0) (t_dims B 1) (t_dims A 1) m.
Definition ops_matmul_add (ft : simd_features_t) (A B bias C : tensor_t) m : option (fmem F) :=
  m ← ops_matmul ft A B C m;
  let N := t_dims B 1 in
  for_opt (Z.to_nat (t_dims A 0)) 0 (fun r m =>
    let c := t_data C + 4 * (r * N) in simd_vec_add_f32 ft c (t_data bias) c N m) m.

(** *** Activation and normalisation *)

Definition ops_softmax (ft : simd_features_t) (t : tensor_t) m : option (fmem F) :=
  let rows := if t_ndim t =? 1 then 1 else t_dims t 0 in
  let V := if t_ndim t =? 1 then s32 (t_numel t) else t_dims t 1 in
  for_opt (Z.to_nat rows) 0 (fun r m => let p := t_data t + 4 * (r * V) in simd_softmax_f32 ft p p V m) m.
Definition ops_gelu (t out : tensor_t) m : fmem F := simd_gelu_f32 (t_data t) (t_data out) (t_numel t) m.
Definition ops_layer_norm (x weight bias out : tensor_t) (eps : F) m : fmem F :=
  simd_layer_norm_f32 (t_data x) (t_data weight) (t_data bias) (t_data out) (t_numel x) eps m.
Definition ops_rms_norm (x weight out : tensor_t) (eps : F) m : fmem F := simd_rms_norm_f32 (t_data x) (t_data weight) (t_data out) (t_numel x) eps m.

(** *** Embedding lookup *)

(** [ids]: the array of token numbers. *)
Definition ops_embedding_lookup (table : tensor_t) (ids : Z -> Z) (seq_len : Z) (out : tensor_t) m : fmem F :=
  let embed_dim := t_dims table 1 in
  for_up (Z.to_nat seq_len) 0 (fun i m =>
    ops_memcpy_floats (t_data out + 4 * (i * embed_dim)) (t_data table + 4 * (ids i * embed_dim)) embed_dim m) m.

(** *** Rotary position embedding *)

(** The pair [x[i], x[i + half]] turned by the angle. *)
Definition rotate (x i half : Z) (cos_t sin_t : F) m : fmem F :=
  let x0 := ld m x i in
  let x1 := ld m x (i + half) in
  let m := st m x i (x0 * cos_t - x1 * sin_t)%float in
  st m x (i + half) (x0 * sin_t + x1 * cos_t)%float.

Definition rope_angle (base : F) (i head_dim cur_pos : Z) : F :=
  let inv_freq := powf_pos base (fneg (fdec 2 0 * fofz i / fofz head_dim)%float) in
  (fofz cur_pos * inv_freq)%float.

(** One head: the pairs of [q] and of [k]. *)
Definition rope_head (qh kh head_dim cur_pos : Z) (base : F) m : fmem F :=
  let half := Z.shiftr head_dim 1 in
  for_up (Z.to_nat half) 0 (fun i m =>
    let theta := rope_angle base i head_dim cur_pos in
    rotate kh i half (cosf theta) (sinf theta) (rotate qh i half (cosf theta) (sinf theta) m)) m.

Definition ops_rope (q k : tensor_t) (pos : Z) (base : F) m : fmem F :=
  let n_heads := t_dims q 1 in
  let head_dim := t_dims q 2 in
  for_up (Z.to_nat (t_dims q 0)) 0 (fun s m =>
    for_up (Z.to_nat n_heads) 0 (fun h m =>
      let base_idx := (s * n_heads + h) * head_dim in
      rope_head (t_data q + 4 * base_idx) (t_data k + 4 * base_idx) head_dim (s32 (pos + s)) base m) m) m.
End Ops.
