(* ===== verification/Attention.v ===== *)
(** Multi-head attention with a key/value cache (kernel/llm/attention.c): one
    token at a time, its keys and values appended to the cache. *)

From S2P Require Import Prelude Memory Float Arena Simd Tensor Ops.
Local Open Scope Z_scope.

Record attn_config_t := mk_attn { n_heads : Z; n_kv_heads : Z; n_embd : Z; max_seq_len : Z; n_layers : Z }.

(** The cache's arrays [kv_k], [kv_v] have the shape
    [n_layers][n_kv_heads][max_seq_len][head_dim]. *)
Record kv_cache_t := mk_kvc { kv_k : Z; kv_v : Z; kv_head_dim : Z; kv_n_layers : Z; kv_n_kv_heads : Z; kv_max_seq_len : Z; kv_cur_len : Z }.

Definition SIZEOF_KV_CACHE : Z := 40.
Definition set_cur_len (n : Z) (kvc : kv_cache_t) : kv_cache_t :=
  mk_kvc (kv_k kvc) (kv_v kvc) (kv_head_dim kvc) (kv_n_layers kvc) (kv_n_kv_heads kvc) (kv_max_seq_len kvc) n.

(** The index is computed with int32_t arithmetic. *)
Definition KV_IDX (kvc : kv_cache_t) (layer h pos d : Z) : Z :=
  s32 (layer * (kv_n_kv_heads kvc * kv_max_seq_len kvc * kv_head_dim kvc) + h * (kv_max_seq_len kvc * kv_head_dim kvc) + pos * kv_head_dim kvc + d).

Section Attention.
Context {F} `{FloatOps F} {A : Type} `{Arena A} (ft : simd_features_t).
Implicit Types (m : fmem F) (s : A).

(** *** Buffers *)

(** A zeroed array of floats; the null pointer for none or no memory. *)
Definition alloc_buf (nelems : Z) s m : option (Z * A * fmem F) :=
  if nelems =? 0 then Some (0, s, m)
  else
    '(p, s) ← ar_alloc true (u64 (nelems * 4)) s;
    Some (p, s, if p =? 0 then m else store_loop nelems p (fun _ _ => f0) m).
Definition free_buf (p : Z) s : option A := if p =? 0 then Some s else ar_free true p s.

Fixpoint alloc_bufs (sizes : list Z) s m : option (list Z * A * fmem F) :=
  match sizes with
  | [] => Some ([], s, m)
  | n :: sizes => '(p, s, m) ← alloc_buf n s m; '(ps, s, m) ← alloc_bufs sizes s m; Some (p :: ps, s, m)
  end.
Fixpoint free_bufs (ps : list Z) s : option A :=
  match ps with
  | [] => Some s
  | p :: ps => s ← free_buf p s; free_bufs ps s
  end.

Definition add_bias (bias out M : Z) m : fmem F :=
  if bias =? 0 then m else store_loop M out (fun i m => (ld m out i + ld m bias i)%float) m.

Definition shape2 (data rows cols : Z) : tensor_t :=
  mk_tensor data (fun i => if i =? 0 then rows else if i =? 1 then cols else 0) 2 (u64 (rows * cols)).
Definition matvec (W x bias out M N : Z) m : option (fmem F) :=
  m ← ops_matmul ft (shape2 W M N) (shape2 x N 1) (shape2 out M 1) m;
  Some (add_bias bias out M m).

(** *** The cache *)

(** The structure in the block at the pointer, beside it its contents; a null
    pointer when memory runs out.  The division by zero heads traps. *)
Definition kvcache_alloc (cfg : attn_config_t) s m : option (option (Z * kv_cache_t) * A * fmem F) :=
  if n_heads cfg =? 0 then None else
  let head_dim := Z.quot (n_embd cfg) (n_heads cfg) in
  let slots := u64 (n_layers cfg * n_kv_heads cfg * max_seq_len cfg * head_dim) in
  '(kvc, s) ← ar_alloc false SIZEOF_KV_CACHE s;
  if kvc =? 0 then Some (None, s, m)
  else
    '(k, s, m) ← alloc_buf slots s m;
    '(v, s, m) ← alloc_buf slots s m;
    if (k =? 0) || (v =? 0) then
      s ← free_buf k s; s ← free_buf v s; s ← ar_free false kvc s; Some (None, s, m)
    else Some (Some (kvc, mk_kvc k v head_dim (n_layers cfg) (n_kv_heads cfg) (max_seq_len cfg) 0), s, m).
Definition kvcache_free (p : Z) (kvc : kv_cache_t) s : option A :=
  if p =? 0 then Some s else s ← free_buf (kv_k kvc) s; s ← free_buf (kv_v kvc) s; ar_free false p s.
Definition kvcache_reset (kvc : kv_cache_t) : kv_cache_t := set_cur_len 0 kvc.

(** *** Softmax *)

Definition clamp_exp (v : F) : F := ops_expf_approx (if flt v (fneg (fdec 80 0)) then fneg (fdec 80 0) else v).
Definition softmax_inplace (arr len : Z) m : fmem F :=
  if len <=? 0 then m
  else
    let mx := max_loop arr len m in
    let '(m, sum) := for_up (Z.to_nat len) 0 (fun i '(m, sum) =>
      let e := clamp_exp (ld m arr i - mx)%float in (st m arr i e, (sum + e)%float)) (m, f0) in
    let inv := if flt (fdec 1 (- 9)) sum then (f1 / sum)%float else f0 in
    store_loop len arr (fun i m => (ld m arr i * inv)%float) m.

(** *** One token *)

(** Rotary embedding of the projected query and key. *)
Definition shape3 (data heads head_dim numel : Z) : tensor_t :=
  mk_tensor data (fun i => if i =? 0 then 1 else if i =? 1 then heads else head_dim) 3 numel.

Definition write_cache (kvc : kv_cache_t) (layer pos k_t v_t kv_heads head_dim : Z) m : fmem F :=
  for_up (Z.to_nat kv_heads) 0 (fun h m =>
    for_up (Z.to_nat head_dim) 0 (fun d m =>
      let at_ := KV_IDX kvc layer h pos 0 + d in
      let m := st m (kv_k kvc) at_ (ld m k_t (h * head_dim + d)) in
      st m (kv_v kvc) at_ (ld m v_t (h * head_dim + d))) m) m.

(** The scores of head [h] against the cached keys of [kv_h]. *)
Definition score_loop (kvc : kv_cache_t) (layer pos q scores h kv_h head_dim : Z) (scale : F) m : fmem F :=
  store_loop (pos + 1) scores (fun t m =>
    (dot_loop (Z.to_nat head_dim) 0 (q + 4 * (h * head_dim)) (kv_k kvc + 4 * KV_IDX kvc layer kv_h t 0) f0 m * scale)%float) m.

(** The weighted sum of the cached values. *)
Definition context_loop (kvc : kv_cache_t) (layer pos scores ctx_h kv_h head_dim : Z) m : fmem F :=
  let m := store_loop head_dim ctx_h (fun _ _ => f0) m in
  for_up (Z.to_nat (pos + 1)) 0 (fun t m =>
    let sc := ld m scores t in
    store_loop head_dim ctx_h (fun d m => (ld m ctx_h d + sc * ld m (kv_v kvc + 4 * KV_IDX kvc layer kv_h t 0) d)%float) m) m.

Definition attend_head (kvc : kv_cache_t) (layer pos q o scores ctx_h heads kv_heads head_dim : Z) (scale : F) (h : Z) m : fmem F :=
  let kv_h := Z.quot (s32 (h * kv_heads)) heads in
  let m := score_loop kvc layer pos q scores h kv_h head_dim scale m in
  let m := softmax_inplace scores (pos + 1) m in
  let m := context_loop kvc layer pos scores ctx_h kv_h head_dim m in
  store_loop head_dim (o + 4 * (h * head_dim)) (fun d m => ld m ctx_h d) m.

(** Null pointers are 0; the result is 0 or -1. *)
Definition attn_forward (cfg : attn_config_t) (x out wq wk wv wo bq bk bv bo : Z) (kvc : kv_cache_t) (layer pos : Z) s m : option (Z * A * fmem F * kv_cache_t) :=
  if existsb (fun p => p =? 0) [x; out; wq; wk; wv; wo] then Some (- 1, s, m, kvc)
  else if (layer <? 0) || (kv_n_layers kvc <=? layer) then Some (- 1, s, m, kvc)
  else if (pos <? 0) || (kv_max_seq_len kvc <=? pos) then Some (- 1, s, m, kvc)
  else if (n_heads cfg <=? 0) || (n_embd cfg <=? 0) then Some (- 1, s, m, kvc)
  else
    let n := n_embd cfg in
    let heads := n_heads cfg in
    let kv_heads := n_kv_heads cfg in
    let head_dim := Z.quot n heads in
    let kv_dim := s32 (kv_heads * head_dim) in
    let scale := (f1 / ops_sqrtf_approx (fofz head_dim))%float in
    '(bufs, s, m) ← alloc_bufs (map u64 [n; kv_dim; kv_dim; n; pos + 1; head_dim]) s m;
    if existsb (fun p => p =? 0) bufs then s ← free_bufs bufs s; Some (- 1, s, m, kvc)
    else
      match bufs with
      | [q; k_t; v_t; o; scores; ctx_h] =>
          m ← matvec wq x bq q n n m;
          m ← matvec wk x bk k_t kv_dim n m;
          m ← matvec wv x bv v_t kv_dim n m;
          let m := ops_rope (shape3 q heads head_dim n) (shape3 k_t kv_heads head_dim kv_dim) pos (fdec 10000 0) m in
          let m := write_cache kvc layer pos k_t v_t kv_heads head_dim m in
          let kvc := if kv_cur_len kvc <? pos + 1 then set_cur_len (pos + 1) kvc else kvc in
          let m := store_loop n o (fun _ _ => f0) m in
          let m := for_up (Z.to_nat heads) 0 (attend_head kvc layer pos q o scores ctx_h heads kv_heads head_dim scale) m in
          m ← matvec wo o bo out n n m;
          s ← free_bufs bufs s;
          Some (0, s, m, kvc)
      | _ => None
      end.

(** The prefill variant: for layer 0 it only resets the cache. *)
Fixpoint prefill_loop (k : nat) (pos : Z) (cfg : attn_config_t) (x_seq out_seq wq wk wv wo bq bk bv bo : Z) (kvc : kv_cache_t) (layer : Z) s m : option (Z * A * fmem F * kv_cache_t) :=
  match k with
  | O => Some (0, s, m, kvc)
  | S k' =>
      '(ret, s, m, kvc) ← attn_forward cfg (x_seq + 4 * (pos * n_embd cfg)) (out_seq + 4 * (pos * n_embd cfg)) wq wk wv wo bq bk bv bo kvc layer pos s m;
      if negb (ret =? 0) then Some (ret, s, m, kvc)
      else prefill_loop k' (pos + 1) cfg x_seq out_seq wq wk wv wo bq bk bv bo kvc layer s m
  end.
Definition attn_forward_full (cfg : attn_config_t) (x_seq out_seq wq wk wv wo bq bk bv bo : Z) (kvc : kv_cache_t) (layer : Z) s m : option (Z * A * fmem F * kv_cache_t) :=
  if (x_seq =? 0) || (out_seq =? 0) then Some (- 1, s, m, kvc)
  else if layer =? 0 then Some (0, s, m, if kv_cur_len kvc =? 0 then kvc else set_cur_len 0 kvc)
  else prefill_loop (Z.to_nat (kv_cur_len kvc)) 0 cfg x_seq out_seq wq wk wv wo bq bk bv bo kvc layer s m.
End Attention.
