(* ===== verification/AttentionSpec.v ===== *)
(** What one step of attention computes: the textbook causal attention with
    rotary embeddings and grouped heads over the keys and values of the cache,
    as functions of the arrays; and that the step keeps the heap's blocks, runs out of memory
    cleanly, and writes nothing but its output and its row of the cache. *)

From Stdlib Require Import Floats.SpecFloat.
From S2P Require Import Prelude Memory Float Arena Simd Tensor Ops Attention.
Local Open Scope Z_scope.

(** ** The reference, on functions from indices to floats *)

Section Reference.
Context {F} `{FloatOps F}.
Implicit Types f g x : Z -> F.

Definition dotf (n : Z) f g : F := fold_left (fun acc k => (acc + f k * g k)%float) (seqZ 0 n) f0.

(** Row [i] of the matrix with rows of [n], times [x], plus the bias. *)
Definition linear (W x : Z -> F) (b : option (Z -> F)) (n i : Z) : F :=
  let d := dotf n (fun k => W (i * n + k)) x in
  match b with Some b => (d + b i)%float | None => d end.

Definition softmaxf (n : Z) f : Z -> F :=
  let mx := fold_left (fun mx i => if flt mx (f i) then f i else mx) (seqZ 1 (n - 1)) (f 0) in
  let e i := clamp_exp (f i - mx)%float in
  let sum := fold_left (fun acc i => (acc + e i)%float) (seqZ 0 n) f0 in
  let inv := if flt (fdec 1 (- 9)) sum then (f1 / sum)%float else f0 in
  fun i => (e i * inv)%float.

(** Dimension [d] of a head, the pairs [d], [d + hd/2] turned by their angle. *)
Definition ropef (hd pos : Z) (base : F) (x : Z -> F) (d : Z) : F :=
  let half := hd / 2 in
  let theta (i : Z) : F := rope_angle base i hd pos in
  if d <? half then (x d * cosf (theta d) - x (d + half)%Z * sinf (theta d))%float
  else if d <? 2 * half then (x (d - half)%Z * sinf (theta (d - half)%Z) + x d * cosf (theta (d - half)%Z))%float
  else x d.

(** Head [h] of a vector of heads. *)
Definition head (hd h : Z) x : Z -> F := fun d => x (h * hd + d).
End Reference.

(** ** Loops on arrays *)

Section Loops.
Context {F} `{FloatOps F}.
Implicit Types m : fmem F.

Lemma fold_left_seqZ_ext {T} (g h : T -> Z -> T) i n s : (forall t k, i <= k < i + n -> g t k = h t k) -> fold_left g (seqZ i n) s = fold_left h (seqZ i n) s.
Proof.
  intros He. assert (forall l s, (forall k, In k l -> i <= k < i + n) -> fold_left g l s = fold_left h l s) as HL.
  { intros l. induction l as [|k l IH]; intros t Hl; [done|]. cbn. rewrite He by (apply Hl; by left). apply IH. intros; apply Hl; by right. }
  apply HL. intros k Hk%list_elem_of_In%elem_of_seqZ. lia.
Qed.

Lemma dotf_ext n (f g f' g' : Z -> F) : (forall k, 0 <= k < n -> f k = f' k /\ g k = g' k) -> dotf n f g = dotf n f' g'.
Proof. intros He. apply fold_left_seqZ_ext. intros t k Hk. destruct (He k) as [-> ->]; [lia | done]. Qed.

Lemma dot_loop_dotf n a b m : 0 <= n -> dot_loop (Z.to_nat n) 0 a b f0 m = dotf n (ld m a) (ld m b).
Proof. intros Hn. unfold dot_loop. by rewrite for_up_fold, Z2Nat.id. Qed.

(** Everything outside of the [n] floats at [p] is separate from them. *)
Definition sep (p n q k : Z) : Prop := p + 4 * n <= q \/ q + 4 * k <= p.

Lemma ld_frame p n q k i m m' : same_but p n m m' -> sep p n q k -> 0 <= i < k -> ld m' q i = ld m q i.
Proof. intros Hs Hd Hi. unfold ld. apply Hs. unfold sep in Hd. lia. Qed.

Lemma sep_sym p n q k : sep p n q k -> sep q k p n.
Proof. unfold sep. lia. Qed.
Lemma sep_out p n q k a : sep p n q k -> q <= a < q + 4 * k -> ~ (p <= a < p + 4 * n).
Proof. unfold sep. lia. Qed.
Lemma sep_sub p n q k p' n' q' k' : sep p n q k -> p <= p' -> p' + 4 * n' <= p + 4 * n -> q <= q' -> q' + 4 * k' <= q + 4 * k -> sep p' n' q' k'.
Proof. unfold sep. lia. Qed.

Lemma max_loop_ref x n m : 0 < n -> max_loop x n m = fold_left (fun mx i => if flt mx (ld m x i) then ld m x i else mx) (seqZ 1 (n - 1)) (ld m x 0).
Proof. intros Hn. unfold max_loop. rewrite for_up_fold. by rewrite Z2Nat.id by lia. Qed.

(** A loop that stores the elements and adds them up. *)
Lemma store_sum_ok n out (e : Z -> fmem F -> F) m :
  0 <= n -> (forall i m', 0 <= i < n -> same_but out i m m' -> e i m' = e i m) ->
  exists m', for_up (Z.to_nat n) 0 (fun i '(m, sum) => (st m out i (e i m), (sum + e i m)%float)) (m, f0) =
    (m', fold_left (fun acc i => (acc + e i m)%float) (seqZ 0 n) f0) /\ filled out (fun i => e i m) n m m'.
Proof.
  intros Hn He. pose proof (for_up_inv (fun k '(m', sum) => sum = fold_left (fun acc i => (acc + e i m)%float) (seqZ 0 k) f0 /\ filled out (fun i => e i m) k m m')
    (Z.to_nat n) 0 (fun i '(m, sum) => (st m out i (e i m), (sum + e i m)%float)) (m, f0)) as HI.
  rewrite Z2Nat.id, Z.add_0_l in HI by done. destruct (for_up _ _ _ _) as [m' sum]. destruct HI as [-> Hf].
  - split; [done | apply filled_start].
  - intros k [m1 acc] Hk [-> Hf]. pose proof Hf as [_ Hs]. cbn beta iota. pose proof (He k m1 Hk Hs) as E. rewrite E. split; [|apply (filled_step out (fun i => e i m)); [lia | done]].
    rewrite (seqZ_app 0 k 1), fold_left_app by lia. change (seqZ (0 + k) 1) with [0 + (0 + k)]. cbn [fold_left]. by rewrite !Z.add_0_l.
  - exists m'. done.
Qed.

Lemma softmax_inplace_ok arr n m : 0 < n -> filled arr (softmaxf n (ld m arr)) n m (softmax_inplace arr n m).
Proof.
  intros Hn. unfold softmax_inplace. rewrite (proj2 (Z.leb_gt n 0)) by done. rewrite max_loop_ref by done. set (mx := fold_left _ _ (ld m arr 0)).
  destruct (store_sum_ok n arr (fun i m => clamp_exp (ld m arr i - mx)%float) m) as (m1 & -> & Hv & Hs); [lia | |].
  { intros i m' Hi Hs. unfold ld. rewrite Hs; [done | lia]. }
  set (inv := if flt _ _ then _ else _). destruct (store_loop_ok n arr (fun i m => (ld m arr i * inv)%float) m1) as [H1 H2]; [lia | |].
  { intros i m' Hi Hs'. unfold ld. rewrite Hs'; [done | lia]. }
  split; [|by apply (same_but_trans _ _ _ m1)]. intros i Hi. rewrite H1, Hv by done. done.
Qed.
End Loops.

(** ** Projections and rotary embedding *)

Section Parts.
Context {F} `{FloatOps F}.
Implicit Types m : fmem F.

Definition bias_of (bias : Z) m : option (Z -> F) := if bias =? 0 then None else Some (ld m bias).

Lemma matvec_ok ft W x bias out M N m :
  0 <= M -> 0 <= N -> sep W (M * N) out M -> sep x N out M -> bias = 0 \/ sep bias M out M ->
  exists m', matvec ft W x bias out M N m = Some m' /\ filled out (linear (ld m W) (ld m x) (bias_of bias m) N) M m m'.
Proof.
  intros HM HN HW Hx Hb. unfold matvec, ops_matmul, sep in *. cbn.
  destruct (simd_matmul_filled ft W x out M 1 N m) as (m1 & -> & H1 & H2); [lia | lia | lia | lia |]. rewrite Z.mul_1_r in H1, H2.
  assert (forall i, 0 <= i < M -> ld m1 out i = dotf N (fun k => ld m W (i * N + k)) (ld m x)) as E.
  { intros i Hi. rewrite H1 by done. unfold mm_cell, mm_at. rewrite Z.div_1_r, Z.mod_1_r, for_up_fold, Z2Nat.id by done.
    apply fold_left_seqZ_ext. intros t k _. by rewrite Z.mul_1_r, Z.add_0_r. }
  cbn. eexists. split; [done|]. unfold add_bias, bias_of, linear. destruct (Z.eqb_spec bias 0) as [->|Hn]; [by split|].
  destruct Hb as [|Hb]; [done|]. destruct (store_loop_ok M out (fun i m => (ld m out i + ld m bias i)%float) m1) as [V1 V2]; [done | |].
  { intros i m' Hi Hs. unfold ld. rewrite !Hs; [done | lia | lia]. }
  split; [|by apply (same_but_trans _ _ _ m1)]. intros i Hi. rewrite V1, E by done. f_equal. unfold ld. apply H2. lia.
Qed.

Lemma rotate_ok p i half c s m : 0 < half ->
  let m' := rotate p i half c s m in
  ld m' p i = (ld m p i * c - ld m p (i + half) * s)%float /\ ld m' p (i + half) = (ld m p i * s + ld m p (i + half) * c)%float /\
  forall a, a <> p + 4 * i -> a <> p + 4 * (i + half) -> m' a = m a.
Proof.
  intros Hh. unfold rotate, ld, st. cbn. split; [rewrite upd_ne by lia; by rewrite upd_eq|]. split; [by rewrite upd_eq|].
  intros a H1 H2. by rewrite !upd_ne by lia.
Qed.

Lemma ropef_ext hd pos base (x y : Z -> F) d : 0 <= d < hd -> (forall i, 0 <= i < hd -> x i = y i) -> ropef hd pos base x d = ropef hd pos base y d.
Proof. intros Hd Hxy. assert (hd / 2 * 2 <= hd /\ 0 <= hd / 2) as [] by dlia. unfold ropef. repeat zcase; rewrite ?Hxy by lia; done. Qed.

(** A head of which the first [i] pairs have been turned. *)
Definition turned (hd pos : Z) (base : F) (x : Z -> F) (i : Z) (d : Z) : F :=
  if (d <? i) || ((hd / 2 <=? d) && (d <? hd / 2 + i)) then ropef hd pos base x d else x d.

Lemma turned_start hd pos base x d : 0 <= d -> turned hd pos base x 0 d = x d.
Proof. intros Hd. unfold turned. repeat zcase; cbn; done || lia. Qed.
Lemma turned_end hd pos base x d : 0 <= d < hd -> turned hd pos base x (hd / 2) d = ropef hd pos base x d.
Proof. intros Hd. assert (hd / 2 * 2 <= hd) by dlia. unfold turned. repeat zcase; cbn; try done; unfold ropef; repeat zcase; done || lia. Qed.

(** One more pair of the head at [p]. *)
Lemma rotate_turned hd pos base x p i m :
  0 <= i < hd / 2 -> (forall d, 0 <= d < hd -> ld m p d = turned hd pos base x i d) ->
  let m' := rotate p i (hd / 2) (cosf (rope_angle base i hd pos)) (sinf (rope_angle base i hd pos)) m in
  (forall d, 0 <= d < hd -> ld m' p d = turned hd pos base x (i + 1) d) /\ same_but p hd m m'.
Proof.
  intros Hi Hx. assert (hd / 2 * 2 <= hd) by dlia. destruct (rotate_ok p i (hd / 2) (cosf (rope_angle base i hd pos)) (sinf (rope_angle base i hd pos)) m) as (V1 & V2 & V3); [lia|].
  cbv zeta. split; [|intros a Ha; apply V3; lia].
  assert (ld m p i = x i) as E1 by (rewrite Hx by lia; unfold turned; repeat zcase; cbn; done || lia).
  assert (ld m p (i + hd / 2) = x (i + hd / 2)) as E2 by (rewrite Hx by lia; unfold turned; repeat zcase; cbn; done || lia).
  intros d Hd. destruct (decide (d = i)) as [->|N1].
  { rewrite V1, E1, E2. unfold turned, ropef. repeat zcase; cbn; done || lia. }
  destruct (decide (d = i + hd / 2)) as [->|N2].
  { rewrite V2, E1, E2. unfold turned, ropef. replace (i + hd / 2 - hd / 2) with i by lia. repeat zcase; cbn; done || lia. }
  transitivity (ld m p d); [unfold ld; apply V3; lia|]. rewrite Hx by done. unfold turned. repeat zcase; cbn; done || lia.
Qed.

Definition outside2 (p q n a : Z) : Prop := ~ (p <= a < p + 4 * n) /\ ~ (q <= a < q + 4 * n).

Lemma rope_head_ok q k hd pos base m :
  0 <= hd -> sep q hd k hd ->
  let m' := rope_head q k hd pos base m in
  (forall d, 0 <= d < hd -> ld m' q d = ropef hd pos base (ld m q) d /\ ld m' k d = ropef hd pos base (ld m k) d) /\
  (forall a, outside2 q k hd a -> m' a = m a).
Proof.
  intros Hh Hs. unfold rope_head. rewrite Z.shiftr_div_pow2 by lia. change (2 ^ 1) with 2. assert (0 <= hd / 2) by dlia.
  pose proof (for_up_inv (fun i m' => (forall d, 0 <= d < hd -> ld m' q d = turned hd pos base (ld m q) i d) /\
    (forall d, 0 <= d < hd -> ld m' k d = turned hd pos base (ld m k) i d) /\ (forall a, outside2 q k hd a -> m' a = m a)) (Z.to_nat (hd / 2)) 0
    (fun i m => rotate k i (hd / 2) (cosf (rope_angle base i hd pos)) (sinf (rope_angle base i hd pos))
      (rotate q i (hd / 2) (cosf (rope_angle base i hd pos)) (sinf (rope_angle base i hd pos)) m)) m) as HI.
  rewrite Z2Nat.id, Z.add_0_l in HI by done. destruct HI as (H1 & H2 & H3).
  - split_and!; [intros; rewrite turned_start by lia; done | intros; rewrite turned_start by lia; done | done].
  - intros i m1 Hi (H1 & H2 & H3). destruct (rotate_turned hd pos base (ld m q) q i m1) as [A1 A2]; [done | done|].
    destruct (rotate_turned hd pos base (ld m k) k i (rotate q i (hd / 2) (cosf (rope_angle base i hd pos)) (sinf (rope_angle base i hd pos)) m1)) as [B1 B2]; [done | |].
    { intros d Hd. rewrite <- H2 by done. by apply (ld_frame q hd k hd). }
    split; [|split; [done|]].
    + intros d Hd. rewrite <- A1 by done. apply (ld_frame k hd q hd); [done | unfold sep in *; lia | done].
    + intros a [Ha1 Ha2]. rewrite B2, A2 by done. by apply H3.
  - split; [|done]. intros d Hd. rewrite H1, H2, !turned_end by done. done.
Qed.

Lemma ops_rope_ok q k heads heads' hd pos base n n' m :
  0 <= heads -> 0 <= hd -> sep q (heads * hd) k (heads * hd) -> 0 <= pos < 2 ^ 31 ->
  let m' := ops_rope (shape3 q heads hd n) (shape3 k heads' hd n') pos base m in
  (forall h d, 0 <= h < heads -> 0 <= d < hd -> ld m' q (h * hd + d) = ropef hd pos base (head hd h (ld m q)) d /\
    ld m' k (h * hd + d) = ropef hd pos base (head hd h (ld m k)) d) /\
  (forall a, outside2 q k (heads * hd) a -> m' a = m a).
Proof.
  intros Hn Hh Hs Hp. unfold ops_rope. cbn [shape3 t_dims t_data]. change (1 =? 0) with false. change (1 =? 1) with true. change (2 =? 0) with false. change (2 =? 1) with false. change (0 =? 0) with true. cbv iota. change (Z.to_nat 1) with 1%nat. cbn [for_up].
  rewrite Z.add_0_r, s32_small by lia.
  pose proof (for_up_inv (fun c m' => (forall h d, 0 <= h < heads -> 0 <= d < hd ->
      ld m' q (h * hd + d) = (if h <? c then ropef hd pos base (head hd h (ld m q)) d else ld m q (h * hd + d)) /\
      ld m' k (h * hd + d) = (if h <? c then ropef hd pos base (head hd h (ld m k)) d else ld m k (h * hd + d))) /\
      (forall a, outside2 q k (heads * hd) a -> m' a = m a)) (Z.to_nat heads) 0
    (fun h m => rope_head (q + 4 * ((0 * heads + h) * hd)) (k + 4 * ((0 * heads + h) * hd)) hd pos base m) m) as HI.
  rewrite Z2Nat.id, Z.add_0_l in HI by done. destruct HI as (H1 & H2).
  - split; [|done]. intros h d Hc0 _. rewrite (proj2 (Z.ltb_ge h 0)) by lia. done.
  - intros c m1 Hc [H1 H2]. rewrite Z.mul_0_l, Z.add_0_l. unfold sep in Hs. assert (c * hd + hd <= heads * hd) by nia. assert (0 <= c * hd) by nia.
    destruct (rope_head_ok (q + 4 * (c * hd)) (k + 4 * (c * hd)) hd pos base m1) as [V1 V2]; [done | unfold sep; lia|].
    split; [|intros a [Ha1 Ha2]; rewrite V2 by (unfold outside2; lia); by apply H2].
    assert (forall p h d, ld m1 p (h * hd + d) = ld m1 (p + 4 * (h * hd)) d) as Ea by (intros; unfold ld; f_equal; lia).
    intros h d Hc0 Hd. destruct (decide (h = c)) as [->|Hne].
    + destruct (V1 d Hd) as [E1 E2]. rewrite (proj2 (Z.ltb_lt c (c + 1))) by lia.
      assert (forall p (m : fmem F), ld m p (c * hd + d) = ld m (p + 4 * (c * hd)) d) as Eb by (intros; unfold ld; f_equal; lia). rewrite !Eb, E1, E2.
      split; (apply ropef_ext; [done|]); intros i Hi; unfold head; rewrite <- Ea; destruct (H1 c i Hc0 Hi) as [E3 E4]; first [rewrite E3 | rewrite E4]; by rewrite (proj2 (Z.ltb_ge c c)) by lia.
    + destruct (H1 h d Hc0 Hd) as [E1 E2]. assert (h * hd + hd <= c * hd \/ c * hd + hd <= h * hd) as Hr by (destruct (Z.lt_total h c) as [?|[?|?]]; [left; nia | done | right; nia]).
      assert (0 <= h * hd /\ h * hd + hd <= heads * hd) as [] by nia.
      replace (h <? c + 1) with (h <? c) by (repeat zcase; done || lia). rewrite <- E1, <- E2. split; unfold ld; apply V2; unfold outside2; lia.
  - split; [|done]. intros h d Hc0 Hd. destruct (H1 h d Hc0 Hd) as [-> ->]. by rewrite (proj2 (Z.ltb_lt h heads)) by lia.
Qed.
End Parts.

(** ** One head *)

Section Head.
Context {F} `{FloatOps F}.
Implicit Types m : fmem F.

(** The query against the keys, the weights, the weighted sum of the values. *)
Definition attnf (hd pos : Z) (scale : F) (q : Z -> F) (keys vals : Z -> Z -> F) (d : Z) : F :=
  let w := softmaxf (pos + 1) (fun t => (dotf hd q (keys t) * scale)%float) in
  fold_left (fun acc t => (acc + w t * vals t d)%float) (seqZ 0 (pos + 1)) f0.

Lemma softmaxf_ext n (f g : Z -> F) i : (forall k, 0 <= k < n -> f k = g k) -> 0 <= i < n -> softmaxf n f i = softmaxf n g i.
Proof.
  intros He Hi. unfold softmaxf. rewrite (He 0) by lia.
  rewrite (fold_left_seqZ_ext (fun mx i => if flt mx (f i) then f i else mx) (fun mx i => if flt mx (g i) then g i else mx)) by (intros; rewrite He by lia; done).
  set (mx := fold_left _ _ (g 0)).
  rewrite (fold_left_seqZ_ext (fun acc i => (acc + clamp_exp (f i - mx))%float) (fun acc i => (acc + clamp_exp (g i - mx))%float)) by (intros; rewrite He by lia; done).
  by rewrite He.
Qed.

Lemma attnf_ext hd pos scale q keys vals q' keys' vals' d :
  0 <= pos -> (forall k, 0 <= k < hd -> q k = q' k) -> (forall t k, 0 <= t <= pos -> 0 <= k < hd -> keys t k = keys' t k) ->
  (forall t, 0 <= t <= pos -> vals t d = vals' t d) -> attnf hd pos scale q keys vals d = attnf hd pos scale q' keys' vals' d.
Proof.
  intros Hp Hq Hk Hv. apply fold_left_seqZ_ext. intros acc t Ht. rewrite Hv by lia.
  rewrite (softmaxf_ext (pos + 1) _ (fun t => (dotf hd q' (keys' t) * scale)%float)); [done | | lia].
  intros k Hkt. f_equal. apply dotf_ext. intros j Hj. split; [by apply Hq | apply Hk; lia].
Qed.

Lemma score_loop_ok kvc layer pos q scores h kv_h hd scale m :
  0 <= pos -> 0 <= hd -> sep (q + 4 * (h * hd)) hd scores (pos + 1) ->
  (forall t, 0 <= t <= pos -> sep (kv_k kvc + 4 * KV_IDX kvc layer kv_h t 0) hd scores (pos + 1)) ->
  filled scores (fun t => (dotf hd (ld m (q + 4 * (h * hd))) (ld m (kv_k kvc + 4 * KV_IDX kvc layer kv_h t 0)) * scale)%float) (pos + 1) m
    (score_loop kvc layer pos q scores h kv_h hd scale m).
Proof.
  intros Hp Hh Hq Hk. destruct (store_loop_ok (pos + 1) scores (fun t m =>
    (dot_loop (Z.to_nat hd) 0 (q + 4 * (h * hd)) (kv_k kvc + 4 * KV_IDX kvc layer kv_h t 0) f0 m * scale)%float) m) as [V1 V2]; [lia | |].
  - intros i m' Hi Hs. f_equal. rewrite !dot_loop_dotf by done. specialize (Hk i ltac:(lia)). unfold sep in *.
    apply dotf_ext. intros k Hkk. split; unfold ld; apply Hs; lia.
  - split; [|done]. intros t Ht. unfold score_loop. rewrite V1 by lia. by rewrite dot_loop_dotf.
Qed.

Lemma context_loop_ok kvc layer pos scores ctx kv_h hd m :
  0 <= pos -> 0 <= hd -> sep scores (pos + 1) ctx hd ->
  (forall t, 0 <= t <= pos -> sep (kv_v kvc + 4 * KV_IDX kvc layer kv_h t 0) hd ctx hd) ->
  filled ctx (fun d => fold_left (fun acc t => (acc + ld m scores t * ld m (kv_v kvc + 4 * KV_IDX kvc layer kv_h t 0) d)%float) (seqZ 0 (pos + 1)) f0) hd m
    (context_loop kvc layer pos scores ctx kv_h hd m).
Proof.
  intros Hp Hh Hs Hv. unfold context_loop. destruct (store_loop_ok hd ctx (fun _ _ => f0) m) as [Z1 Z2]; [done | done|].
  pose proof (for_up_inv (fun t m' => filled ctx (fun d => fold_left (fun acc t => (acc + ld m scores t * ld m (kv_v kvc + 4 * KV_IDX kvc layer kv_h t 0) d)%float) (seqZ 0 t) f0) hd m m')
    (Z.to_nat (pos + 1)) 0 (fun t m => let sc := ld m scores t in
      store_loop hd ctx (fun d m => (ld m ctx d + sc * ld m (kv_v kvc + 4 * KV_IDX kvc layer kv_h t 0) d)%float) m) (store_loop hd ctx (fun _ _ => f0) m)) as HI.
  rewrite Z2Nat.id, Z.add_0_l in HI by lia. apply HI; clear HI; [by split|]. intros t m1 Ht [V1 V2]. cbv zeta. specialize (Hv t ltac:(lia)). unfold sep in *.
  destruct (store_loop_ok hd ctx (fun d m => (ld m ctx d + ld m1 scores t * ld m (kv_v kvc + 4 * KV_IDX kvc layer kv_h t 0) d)%float) m1) as [W1 W2]; [done | |].
  { intros i m' Hi Hsb. unfold ld. rewrite !Hsb; [done | lia | lia]. }
  split; [|by apply (same_but_trans _ _ _ m1)]. intros d Hd. rewrite W1, V1 by done.
  rewrite (seqZ_app 0 t 1), fold_left_app by lia. change (seqZ (0 + t) 1) with [0 + (0 + t)]. cbn [fold_left]. rewrite !Z.add_0_l.
  f_equal. f_equal; unfold ld; apply V2; lia.
Qed.

(** Where one head writes: its scores, its context, its part of the output. *)
Definition head_writes (scores ctx o pos hd h a : Z) : Prop :=
  scores <= a < scores + 4 * (pos + 1) \/ ctx <= a < ctx + 4 * hd \/ o + 4 * (h * hd) <= a < o + 4 * (h * hd) + 4 * hd.

(** The query heads share the key and value heads in groups. *)
Definition group (heads kv_heads h : Z) : Z := h * kv_heads / heads.

Lemma group_range heads kv_heads h : 0 < kv_heads -> 0 <= h < heads -> 0 <= group heads kv_heads h < kv_heads.
Proof. intros Hk Hh. unfold group. split; [apply Z.div_pos; nia | apply Z.div_lt_upper_bound; nia]. Qed.

Lemma attend_head_ok kvc layer pos q o scores ctx heads kv_heads hd scale h m :
  0 <= pos -> 0 <= hd -> 0 <= h < heads -> 0 <= kv_heads -> h * kv_heads < 2 ^ 31 -> let g := group heads kv_heads h in
  sep scores (pos + 1) ctx hd -> sep ctx hd (o + 4 * (h * hd)) hd -> sep (q + 4 * (h * hd)) hd scores (pos + 1) ->
  (forall t, 0 <= t <= pos -> sep (kv_k kvc + 4 * KV_IDX kvc layer g t 0) hd scores (pos + 1) /\
    sep (kv_v kvc + 4 * KV_IDX kvc layer g t 0) hd scores (pos + 1) /\ sep (kv_v kvc + 4 * KV_IDX kvc layer g t 0) hd ctx hd) ->
  let m' := attend_head kvc layer pos q o scores ctx heads kv_heads hd scale h m in
  (forall d, 0 <= d < hd -> ld m' o (h * hd + d) = attnf hd pos scale (ld m (q + 4 * (h * hd)))
    (fun t => ld m (kv_k kvc + 4 * KV_IDX kvc layer g t 0)) (fun t => ld m (kv_v kvc + 4 * KV_IDX kvc layer g t 0)) d) /\
  (forall a, ~ head_writes scores ctx o pos hd h a -> m' a = m a).
Proof.
  intros Hp Hh Hr Hk0 Hb g Ssc Sco Sq Skv. unfold attend_head. rewrite s32_small, Z.quot_div_nonneg by nia. change (h * kv_heads / heads) with g. cbv zeta.
  destruct (score_loop_ok kvc layer pos q scores h g hd scale m) as [A1 A2]; [done | done | done | apply Skv|].
  set (m1 := score_loop _ _ _ _ _ _ _ _ _ _) in *.
  destruct (softmax_inplace_ok scores (pos + 1) m1) as [B1 B2]; [lia|]. set (m2 := softmax_inplace _ _ _) in *.
  destruct (context_loop_ok kvc layer pos scores ctx g hd m2) as [C1 C2]; [done | done | done | apply Skv|].
  set (m3 := context_loop _ _ _ _ _ _ _ _) in *.
  destruct (store_loop_ok hd (o + 4 * (h * hd)) (fun d m => ld m ctx d) m3) as [D1 D2]; [done | |].
  { intros i m' Hi Hs. unfold sep, ld in *. apply Hs. lia. }
  split.
  - intros d Hd. transitivity (ld m3 ctx d).
    { rewrite <- D1 by done. unfold ld. f_equal. lia. }
    rewrite C1 by done. apply fold_left_seqZ_ext. intros acc t Ht. destruct (Skv t ltac:(lia)) as (_ & S1 & S2).
    assert (ld m2 scores t = softmaxf (pos + 1) (fun t => (dotf hd (ld m (q + 4 * (h * hd))) (ld m (kv_k kvc + 4 * KV_IDX kvc layer g t 0)) * scale)%float) t) as ->.
    { rewrite B1 by lia. apply softmaxf_ext; [|lia]. intros k Hk. by apply A1. }
    f_equal. f_equal. rewrite (ld_frame scores (pos + 1) (kv_v kvc + 4 * KV_IDX kvc layer g t 0) hd d m1 m2); [| done | unfold sep in *; lia | done].
    apply (ld_frame scores (pos + 1) _ hd); [done | unfold sep in *; lia | done].
  - intros a Ha. unfold head_writes in Ha. rewrite D2, C2, B2, A2 by lia. done.
Qed.
End Head.

(** ** The cache *)

(** The arrays of the cache, [slots] floats each, have rows of [hd] floats,
    one for each layer, head and position. *)
Definition slots (kvc : kv_cache_t) : Z := kv_n_layers kvc * kv_n_kv_heads kvc * kv_max_seq_len kvc * kv_head_dim kvc.
Definition in_cache (kvc : kv_cache_t) (l h t : Z) : Prop := 0 <= l < kv_n_layers kvc /\ 0 <= h < kv_n_kv_heads kvc /\ 0 <= t < kv_max_seq_len kvc.

Lemma radix_inj B a b a' b' : 0 <= b < B -> 0 <= b' < B -> a * B + b = a' * B + b' -> a = a' /\ b = b'.
Proof. intros Hb Hb' E. destruct (cell_index B a b Hb) as [E1 E2], (cell_index B a' b' Hb') as [E3 E4]. rewrite E in E1, E2. lia. Qed.

Section Rows.
Context (kvc : kv_cache_t) (dim_ok : 0 <= kv_head_dim kvc) (slots_ok : slots kvc < 2 ^ 31).

Definition row_number (l h t : Z) : Z := (l * kv_n_kv_heads kvc + h) * kv_max_seq_len kvc + t.

Lemma row_bounds l h t : in_cache kvc l h t -> 0 <= row_number l h t /\ (row_number l h t + 1) * kv_head_dim kvc <= slots kvc.
Proof.
  intros (Hl & Hh & Ht). unfold row_number, slots. assert (0 <= l * kv_n_kv_heads kvc) by nia. split; [nia|].
  apply Z.mul_le_mono_nonneg_r; [done|]. assert (l * kv_n_kv_heads kvc + h + 1 <= kv_n_layers kvc * kv_n_kv_heads kvc) by nia. nia.
Qed.

Lemma row_eq l h t : in_cache kvc l h t -> KV_IDX kvc l h t 0 = row_number l h t * kv_head_dim kvc.
Proof.
  intros Hc. destruct (row_bounds _ _ _ Hc) as [B1 B2]. unfold KV_IDX.
  replace (l * _ + h * _ + t * kv_head_dim kvc + 0) with (row_number l h t * kv_head_dim kvc) by (unfold row_number; lia).
  assert (0 <= row_number l h t * kv_head_dim kvc) by nia. rewrite s32_small; [done | lia].
Qed.

Lemma row_range l h t : in_cache kvc l h t -> 0 <= KV_IDX kvc l h t 0 /\ KV_IDX kvc l h t 0 + kv_head_dim kvc <= slots kvc.
Proof. intros Hc. destruct (row_bounds _ _ _ Hc). rewrite row_eq by done. nia. Qed.

Lemma row_apart l h t l' h' t' : in_cache kvc l h t -> in_cache kvc l' h' t' -> (l, h, t) <> (l', h', t') ->
  KV_IDX kvc l h t 0 + kv_head_dim kvc <= KV_IDX kvc l' h' t' 0 \/ KV_IDX kvc l' h' t' 0 + kv_head_dim kvc <= KV_IDX kvc l h t 0.
Proof.
  intros Hc Hc' Hne. rewrite !row_eq by done. assert (row_number l h t <> row_number l' h' t') as Hr.
  { intros E. destruct Hc as (Hl & Hh & Ht), Hc' as (Hl' & Hh' & Ht'). apply Hne.
    destruct (radix_inj _ _ _ _ _ Ht Ht' E) as [E1 ->]. destruct (radix_inj _ _ _ _ _ Hh Hh' E1) as [-> ->]. done. }
  destruct (Z.lt_total (row_number l h t) (row_number l' h' t')) as [?|[?|?]]; [left | done | right]; nia.
Qed.
End Rows.

Section WriteCache.
Context {F} `{FloatOps F}.
Implicit Types m : fmem F.

(** One row of each array copied. *)
Lemma copy_rows_ok p q src src' n m :
  0 <= n -> sep p n q n -> sep src n p n -> sep src n q n -> sep src' n p n -> sep src' n q n ->
  let m' := for_up (Z.to_nat n) 0 (fun d m => let m := st m p d (ld m src d) in st m q d (ld m src' d)) m in
  (forall d, 0 <= d < n -> ld m' p d = ld m src d /\ ld m' q d = ld m src' d) /\ (forall a, outside2 p q n a -> m' a = m a).
Proof.
  unfold sep, outside2. intros Hn Spq S1 S2 S3 S4. cbv zeta.
  pose proof (for_up_inv (fun k m' => (forall d, 0 <= d < k -> ld m' p d = ld m src d /\ ld m' q d = ld m src' d) /\ (forall a, outside2 p q n a -> m' a = m a))
    (Z.to_nat n) 0 (fun d m => st (st m p d (ld m src d)) q d (ld (st m p d (ld m src d)) src' d)) m) as HI.
  rewrite Z2Nat.id, Z.add_0_l in HI by done. apply HI; clear HI; [split; [intros; lia | done]|]. unfold outside2. intros k m1 Hk [V1 V2].
  assert (ld m1 src k = ld m src k /\ ld m1 src' k = ld m src' k) as [E1 E2] by (split; unfold ld; apply V2; lia).
  assert (ld (st m1 p k (ld m1 src k)) src' k = ld m src' k) as -> by (unfold ld, st; rewrite upd_ne by lia; done). rewrite E1. split.
  - intros d Hd. unfold ld, st. destruct (decide (d = k)) as [->|]; [rewrite upd_ne, !upd_eq by lia; done|].
    rewrite !upd_ne by lia. apply V1. lia.
  - intros a Ha. unfold st. rewrite !upd_ne by lia. by apply V2.
Qed.

(** What [write_cache] leaves in the rows of this position; everything else is
    as before. *)
Lemma write_cache_ok kvc layer pos k_t v_t heads hd m :
  heads = kv_n_kv_heads kvc -> hd = kv_head_dim kvc -> 0 <= heads -> 0 <= hd -> slots kvc < 2 ^ 31 ->
  0 <= layer < kv_n_layers kvc -> 0 <= pos < kv_max_seq_len kvc -> sep (kv_k kvc) (slots kvc) (kv_v kvc) (slots kvc) ->
  (forall p, In p [k_t; v_t] -> sep p (heads * hd) (kv_k kvc) (slots kvc) /\ sep p (heads * hd) (kv_v kvc) (slots kvc)) ->
  let m' := write_cache kvc layer pos k_t v_t heads hd m in
  (forall h d, 0 <= h < heads -> 0 <= d < hd -> ld m' (kv_k kvc + 4 * KV_IDX kvc layer h pos 0) d = ld m k_t (h * hd + d) /\
    ld m' (kv_v kvc + 4 * KV_IDX kvc layer h pos 0) d = ld m v_t (h * hd + d)) /\
  (forall a, (forall h, 0 <= h < heads -> outside2 (kv_k kvc + 4 * KV_IDX kvc layer h pos 0) (kv_v kvc + 4 * KV_IDX kvc layer h pos 0) hd a) -> m' a = m a).
Proof.
  intros -> -> Hn Hd Hs Hl Hp Skv Ssrc. unfold write_cache. set (heads := kv_n_kv_heads kvc) in *. set (hd := kv_head_dim kvc) in *.
  set (row h := KV_IDX kvc layer h pos 0). set (K := kv_k kvc) in *. set (V := kv_v kvc) in *.
  assert (forall h, 0 <= h < heads -> 0 <= row h /\ row h + hd <= slots kvc) as Hrow by (intros; by apply row_range).
  pose proof (for_up_inv (fun c m' => (forall h d, 0 <= h < c -> 0 <= d < hd -> ld m' (K + 4 * row h) d = ld m k_t (h * hd + d) /\ ld m' (V + 4 * row h) d = ld m v_t (h * hd + d)) /\
    (forall a, (forall h, 0 <= h < heads -> outside2 (K + 4 * row h) (V + 4 * row h) hd a) -> m' a = m a)) (Z.to_nat heads) 0
    (fun h m => for_up (Z.to_nat hd) 0 (fun d m => let m := st m K (row h + d) (ld m k_t (h * hd + d)) in st m V (row h + d) (ld m v_t (h * hd + d))) m) m) as HI.
  rewrite Z2Nat.id, Z.add_0_l in HI by done. apply HI; clear HI; [split; [intros; lia | done]|]. intros c m1 Hc [V1 V2].
  assert (0 <= c * hd /\ c * hd + hd <= heads * hd) as [Q1 Q2] by nia.
  destruct (Ssrc k_t ltac:(by left)) as [S1 S2], (Ssrc v_t ltac:(by right; left)) as [S3 S4]. pose proof (Hrow c Hc) as Hrc. unfold sep in *.
  destruct (copy_rows_ok (K + 4 * row c) (V + 4 * row c) (k_t + 4 * (c * hd)) (v_t + 4 * (c * hd)) hd m1) as [W1 W2]; [done | unfold sep; lia ..|].
  rewrite (for_up_ext _ _ _ (fun d m => let m := st m (K + 4 * row c) d (ld m (k_t + 4 * (c * hd)) d) in st m (V + 4 * row c) d (ld m (v_t + 4 * (c * hd)) d))).
  2: { intros d m2 _. unfold st, ld. cbv zeta. rewrite !Z.mul_add_distr_l, !Z.add_assoc. done. }
  assert (forall p i, sep p (heads * hd) K (slots kvc) -> sep p (heads * hd) V (slots kvc) -> 0 <= i < heads * hd -> ld m1 p i = ld m p i) as Hsrc.
  { unfold sep. intros p i P1 P2 Hi. unfold ld. apply V2. intros h Hh. pose proof (Hrow h Hh). unfold outside2. lia. }
  split.
  - intros h d Hh Hdd. destruct (decide (h = c)) as [->|Hne].
    + destruct (W1 d Hdd) as [-> ->]. rewrite <- (Hsrc k_t), <- (Hsrc v_t) by (unfold sep; lia). split; unfold ld; f_equal; lia.
    + destruct (V1 h d ltac:(lia) Hdd) as [<- <-]. pose proof (Hrow h ltac:(lia)).
      destruct (row_apart kvc Hd Hs layer h pos layer c pos) as [Hr|Hr]; [unfold in_cache; fold heads; lia | unfold in_cache; fold heads; lia | congruence | |]; fold hd (row h) (row c) in Hr; split; unfold ld; apply W2; unfold outside2; lia.
  - intros a Ha. rewrite W2 by (apply Ha; lia). by apply V2.
Qed.
End WriteCache.

(** ** Buffers *)

Section Buffers.
Context {F} `{FloatOps F} {A : Type} `{ArenaSpec A}.
Implicit Types (m : fmem F) (s : A).

(** The blocks of the buffers that were allocated. *)
Fixpoint blocks (ps sizes : list Z) : list (Z * Z) :=
  match ps, sizes with
  | p :: ps, n :: sizes => if p =? 0 then blocks ps sizes else (p, n) :: blocks ps sizes
  | _, _ => []
  end.
Definition bytes (b : Z * Z) : Z * Z := (b.1, b.2 * 4).
Definition sepb (b c : Z * Z) : Prop := sep b.1 b.2 c.1 c.2.
Definition outside (bs : list (Z * Z)) (a : Z) : Prop := Forall (fun b => ~ (b.1 <= a < b.1 + 4 * b.2)) bs.

Lemma sepb_sym b c : sepb b c -> sepb c b.
Proof. unfold sepb, sep. lia. Qed.
Lemma sepb_disjoint b c : disjoint_regions (bytes b) (bytes c) -> sepb b c.
Proof. unfold sepb, sep, disjoint_regions, bytes. cbn. lia. Qed.

Lemma alloc_buf_ok n s m : ar_inv s -> 0 <= n < 2 ^ 28 ->
  exists p s' m', alloc_buf n s m = Some (p, s', m') /\ ar_inv s' /\
    (p = 0 /\ ar_live s' = ar_live s /\ m' = m \/
     0 < p /\ ar_live s' = bytes (p, n) :: ar_live s /\ Forall (disjoint_regions (bytes (p, n))) (ar_live s) /\ same_but p n m m').
Proof.
  intros Hi Hn. unfold alloc_buf. destruct (Z.eqb_spec n 0); [exists 0, s, m; split; [done|]; split; [done|]; by left|]. rewrite u64_small by lia.
  destruct (ar_alloc_ok true (n * 4) s Hi ltac:(lia)) as (p & s' & -> & Hi' & Hp). cbn. destruct Hp as [[-> Hl]|(Hp & Hl & _ & Hd)].
  - exists 0, s', m. split; [done|]. split; [done|]. by left.
  - rewrite (proj2 (Z.eqb_neq p 0)) by lia. eexists p, s', _. split; [done|]. split; [done|]. right. split; [done|]. split; [done|]. split; [done|].
    destruct (store_loop_ok n p (fun _ _ => f0) m) as [_ Hs]; [lia | done | exact Hs].
Qed.

Lemma alloc_bufs_ok sizes s m : ar_inv s -> Forall (fun n => 0 <= n < 2 ^ 28) sizes ->
  exists ps s' m', alloc_bufs sizes s m = Some (ps, s', m') /\ ar_inv s' /\ length ps = length sizes /\
    ar_live s' = rev (map bytes (blocks ps sizes)) ++ ar_live s /\ Forall (fun p => 0 <= p) ps /\
    ForallOrdPairs sepb (blocks ps sizes) /\ Forall (fun b => Forall (disjoint_regions (bytes b)) (ar_live s)) (blocks ps sizes) /\
    (forall a, outside (blocks ps sizes) a -> m' a = m a).
Proof.
  intros Hi Hs. revert s m Hi. induction Hs as [|n sizes Hn Hs IH]; intros s m Hi; cbn [alloc_bufs].
  { exists [], s, m. split; [done|]. split; [done|]. split; [done|]. split; [done|]. split; [constructor|]. split; [constructor|]. split; [constructor | done]. }
  destruct (alloc_buf_ok n s m Hi Hn) as (p & s1 & m1 & -> & I1 & Hp). cbn. destruct (IH s1 m1 I1) as (ps & s2 & m2 & -> & I2 & El & Ll & Hps & Hsep & Hd & Hm). cbn.
  eexists (p :: ps), s2, m2. split; [done|]. split; [done|]. split; [cbn; by rewrite El|]. cbn [blocks]. destruct Hp as [(-> & L1 & ->)|(Pp & L1 & D1 & S1)].
  - cbn. rewrite L1 in Ll, Hd. split; [done|]. split; [constructor; [lia | done]|]. done.
  - rewrite (proj2 (Z.eqb_neq p 0)) by lia. cbn [map rev]. rewrite L1 in Ll, Hd. split; [by rewrite Ll, <- app_assoc|]. split; [constructor; [lia | done]|]. split; [|split].
    + constructor; [|done]. apply (Forall_impl _ _ _ Hd). intros b Hb. apply Forall_cons in Hb as [Hb _]. by apply sepb_sym, sepb_disjoint.
    + constructor; [done|]. apply (Forall_impl _ _ _ Hd). intros b Hb. by apply Forall_cons in Hb as [_ Hb].
    + intros a Ha. apply Forall_cons in Ha as [Ha1 Ha2]. rewrite Hm by done. by apply S1.
Qed.

Lemma free_bufs_ok ps sizes l s : ar_inv s -> length ps = length sizes -> ar_live s = rev (map bytes (blocks ps sizes)) ++ l ->
  exists s', free_bufs ps s = Some s' /\ ar_inv s' /\ ar_live s' = l.
Proof.
  revert sizes s. induction ps as [|p ps IH]; intros [|n sizes] s Hi Hlen Hl; try done; cbn [free_bufs].
  { by exists s. }
  injection Hlen as Hlen. unfold free_buf. cbn [blocks] in Hl. destruct (Z.eqb_spec p 0) as [->|Hp]; [by apply (IH sizes)|].
  cbn [map rev] in Hl. rewrite <- app_assoc in Hl. destruct (ar_free_ok true p (n * 4) _ l s Hi Hl) as (s1 & -> & I1 & L1). by apply (IH sizes).
Qed.

(** [n] floats at [p] inside a live block. *)
Definition inside s (b : Z * Z) : Prop := exists r, In r (ar_live s) /\ r.1 <= b.1 /\ b.1 + 4 * b.2 <= r.1 + r.2.

Lemma inside_sep s b bs : inside s b -> Forall (fun b => Forall (disjoint_regions (bytes b)) (ar_live s)) bs -> Forall (fun c => sepb c b) bs.
Proof.
  intros (r & Hr & Ha & Hb2) Hb. apply (Forall_impl _ _ _ Hb). intros c Hc. rewrite Forall_forall in Hc. apply list_elem_of_In in Hr.
  specialize (Hc r Hr). unfold sepb, sep, disjoint_regions, bytes in *. cbn in *. lia.
Qed.
End Buffers.

(** ** The step *)

Section Core.
Context {F} `{FloatOps F}.
Implicit Types m : fmem F.

Lemma fop_lookup {T} (R : T -> T -> Prop) l i j a b : ForallOrdPairs R l -> l !! i = Some a -> l !! j = Some b -> (i < j)%nat -> R a b.
Proof.
  intros Hl. revert i j. induction Hl as [|c l Hc Hl IH]; intros i j Hi Hj Hij; [done|].
  destruct j as [|j]; [lia|]. cbn in Hj. destruct i as [|i]; [|apply (IH i j); [done | done | lia]].
  cbn in Hi. injection Hi as ->. rewrite Forall_forall in Hc. apply Hc. by apply (list_elem_of_lookup_2 _ j).
Qed.

Lemma linear_ext W x b n i W' x' b' : 0 <= n -> (forall k, 0 <= k < n -> W (i * n + k) = W' (i * n + k) /\ x k = x' k) ->
  (forall f, b = Some f -> exists f', b' = Some f' /\ f i = f' i) -> (b = None -> b' = None) -> linear W x b n i = linear W' x' b' n i :> F.
Proof.
  intros Hn Hx Hb Hb'. unfold linear. rewrite (dotf_ext n _ x (fun k => W' (i * n + k)) x') by (intros; by apply Hx).
  destruct b as [f|]; [destruct (Hb f) as (f' & -> & ->) | rewrite Hb']; done.
Qed.

Context (ft : simd_features_t) (kvc : kv_cache_t) (heads kv_heads hd layer pos q k_t v_t o scores ctx x out wq wk wv wo bq bk bv bo : Z) (scale : F) (base : F).
Let n := heads * hd.
Let kvd := kv_heads * hd.

Definition bias_arr (b k : Z) : list (Z * Z) := if b =? 0 then [] else [(b, k)].

(** The key buffer with the floats behind it that the rotation of as many
    heads as the query has reaches. *)
Definition bufs : list (Z * Z) := [(q, n); (k_t, n); (v_t, kvd); (o, n); (scores, pos + 1); (ctx, hd)].
Definition exts : list (Z * Z) :=
  [(x, n); (out, n); (wq, n * n); (wk, kvd * n); (wv, kvd * n); (wo, n * n); (kv_k kvc, slots kvc); (kv_v kvc, slots kvc)] ++
  bias_arr bq n ++ bias_arr bk kvd ++ bias_arr bv kvd ++ bias_arr bo n.

(** The cache has this shape, the token its place in it, the output and the
    cache are arrays of their own. *)
Record step_ok : Prop := {
  so_heads : (0 < heads /\ heads * heads < 2 ^ 31) /\ 0 < kv_heads <= heads;
  so_hd : 0 < hd;
  so_kv : kv_n_kv_heads kvc = kv_heads /\ kv_head_dim kvc = hd;
  so_slots : slots kvc < 2 ^ 31;
  so_place : 0 <= layer < kv_n_layers kvc /\ 0 <= pos < kv_max_seq_len kvc /\ pos < 2 ^ 27;
  so_cache : sep (kv_k kvc) (slots kvc) (kv_v kvc) (slots kvc);
  so_out : Forall (sepb (out, n)) ([(wo, n * n); (kv_k kvc, slots kvc); (kv_v kvc, slots kvc)] ++ bias_arr bo n);
  so_keep : Forall (fun b => sepb b (kv_k kvc, slots kvc) /\ sepb b (kv_v kvc, slots kvc)) ((wo, n * n) :: bias_arr bo n);
}.

(** The query, key and value of this token, and the keys and values of all
    tokens up to it: the new ones and those cached before. *)
Definition query m (h : Z) : Z -> F := ropef hd pos base (head hd h (linear (ld m wq) (ld m x) (bias_of bq m) n)).
Definition key m (h : Z) : Z -> F := ropef hd pos base (head hd h (linear (ld m wk) (ld m x) (bias_of bk m) n)).
Definition value m (h : Z) : Z -> F := head hd h (linear (ld m wv) (ld m x) (bias_of bv m) n).
Definition keys m (h t : Z) : Z -> F := if t =? pos then key m h else ld m (kv_k kvc + 4 * KV_IDX kvc layer h t 0).
Definition values m (h t : Z) : Z -> F := if t =? pos then value m h else ld m (kv_v kvc + 4 * KV_IDX kvc layer h t 0).

(** Causal attention of every head, and the output projection. *)
Definition context m (i : Z) : F := 
  let h := i / hd in let g := group heads kv_heads h in attnf hd pos scale (query m h) (keys m g) (values m g) (i mod hd).
Definition attention m : Z -> F := linear (ld m wo) (context m) (bias_of bo m) n.

(** What the step leaves at addresses that are not buffers. *)
Record step_result m m' : Prop := {
  sr_out i : 0 <= i < n -> ld m' out i = attention m i;
  sr_keys h t d : 0 <= h < kv_heads -> 0 <= t <= pos -> 0 <= d < hd -> ld m' (kv_k kvc + 4 * KV_IDX kvc layer h t 0) d = keys m h t d;
  sr_values h t d : 0 <= h < kv_heads -> 0 <= t <= pos -> 0 <= d < hd -> ld m' (kv_v kvc + 4 * KV_IDX kvc layer h t 0) d = values m h t d;
  sr_frame a : outside bufs a -> ~ (out <= a < out + 4 * n) ->
    (forall h, 0 <= h < kv_heads -> outside2 (kv_k kvc + 4 * KV_IDX kvc layer h pos 0) (kv_v kvc + 4 * KV_IDX kvc layer h pos 0) hd a) -> m' a = m a;
}.

Section Memories.
Context (ok : step_ok) (bufs_sep : ForallOrdPairs sepb bufs) (exts_sep : Forall (fun e => Forall (fun b => sepb b e) bufs) exts).

Lemma buf_sep i j p k p' k' : bufs !! i = Some (p, k) -> bufs !! j = Some (p', k') -> i <> j -> sep p k p' k'.
Proof.
  intros Hi Hj Hne. destruct (Nat.lt_total i j) as [Hl|[?|Hl]]; [| done |].
  - apply (fop_lookup _ _ _ _ _ _ bufs_sep Hi Hj Hl).
  - apply (sepb_sym (p', k') (p, k)). apply (fop_lookup _ _ _ _ _ _ bufs_sep Hj Hi Hl).
Qed.

Lemma ext_sep j p k e l : bufs !! j = Some (p, k) -> In (e, l) exts -> sep p k e l.
Proof.
  intros Hj He. pose proof exts_sep as HF. rewrite Forall_forall in HF. apply list_elem_of_In in He. specialize (HF _ He).
  rewrite Forall_forall in HF. apply (HF (p, k)). by apply (list_elem_of_lookup_2 _ j).
Qed.

(** An address of an external array is outside the buffers. *)
Lemma ext_outside e l a : In (e, l) exts -> e <= a < e + 4 * l -> outside bufs a.
Proof.
  intros He Ha. pose proof exts_sep as HF. rewrite Forall_forall in HF. apply list_elem_of_In in He. specialize (HF _ He).
  apply (Forall_impl _ _ _ HF). intros [p k]. unfold sepb, sep. cbn. lia.
Qed.

Lemma bias_cases b k : b = 0 \/ bias_arr b k = [(b, k)].
Proof. unfold bias_arr. destruct (Z.eqb_spec b 0); auto. Qed.

Lemma bias_in b k : In (b, k) [(bq, n); (bk, kvd); (bv, kvd); (bo, n)] -> b = 0 \/ In (b, k) exts.
Proof.
  intros Hb. destruct (bias_cases b k) as [->|E]; [by left|]. right. unfold exts. apply in_or_app. right. rewrite !in_app_iff.
  destruct Hb as [[= -> <-]|[[= -> <-]|[[= -> <-]|[[= -> <-]|[]]]]]; rewrite E; cbn; auto 10.
Qed.

(** Memories that agree outside of the buffers. *)
Definition agree m m' : Prop := forall a, outside bufs a -> m' a = m a.

Lemma agree_buf j p k m0 m m' : bufs !! j = Some (p, k) -> agree m0 m -> same_but p k m m' -> agree m0 m'.
Proof.
  intros Hj Ha Hs a Hout. rewrite Hs; [by apply Ha|]. unfold outside in Hout. rewrite Forall_forall in Hout.
  apply (Hout (p, k)). by apply (list_elem_of_lookup_2 _ j).
Qed.

Lemma agree_ld m0 m e l i : agree m0 m -> In (e, l) exts -> 0 <= i < l -> ld m e i = ld m0 e i.
Proof. intros Ha He Hi. apply Ha. apply (ext_outside e l); [done | lia]. Qed.

Lemma n_pos : 0 < kvd <= n.
Proof. destruct ok as [[[? _] ?] ? _ _ _ _ _ _]. unfold n, kvd. nia. Qed.

Lemma agree_bias m0 m b k : agree m0 m -> In (b, k) [(bq, n); (bk, kvd); (bv, kvd); (bo, n)] -> forall i, 0 <= i < k ->
  (forall f, bias_of b m = Some f -> exists f', bias_of b m0 = Some f' /\ f i = f' i) /\ (bias_of b m = None -> bias_of b m0 = None).
Proof.
  intros Ha Hb i Hi. unfold bias_of. destruct (Z.eqb_spec b 0) as [|Hne]; [done|]. split; [|done]. intros f [= <-]. eexists. split; [done|].
  destruct (bias_in b k Hb) as [|He]; [done|]. by apply (agree_ld m0 m b k).
Qed.

(** One projection into a buffer. *)
Lemma projection W b j p k room m0 m : bufs !! j = Some (p, room) -> 0 <= k <= room -> In (W, k * n) exts -> In (b, k) [(bq, n); (bk, kvd); (bv, kvd); (bo, n)] -> agree m0 m ->
  exists m', matvec ft W x b p k n m = Some m' /\ (forall i, 0 <= i < k -> ld m' p i = linear (ld m0 W) (ld m0 x) (bias_of b m0) n i) /\ same_but p room m m'.
Proof.
  intros Hj Hk HW Hb Ha. pose proof n_pos as Hn. assert (In (x, n) exts) as Hx by (by left).
  destruct (matvec_ok ft W x b p k n m) as (m' & E & V & S); [lia | lia | | | |].
  - pose proof (ext_sep j p room W (k * n) Hj HW). unfold sep in *. lia.
  - pose proof (ext_sep j p room x n Hj Hx). unfold sep in *. lia.
  - destruct (bias_in b k Hb) as [|He]; [by left | right]. pose proof (ext_sep j p room b k Hj He). unfold sep in *. lia.
  - exists m'. split; [done|]. split; [|intros a Hout; apply S; lia]. intros i Hi. rewrite V by done. destruct (agree_bias m0 m b k Ha Hb i Hi) as [B1 B2].
    apply linear_ext; [lia | | done | done]. intros c Hc. split; [apply (agree_ld m0 m W (k * n)) | apply (agree_ld m0 m x n)]; done || nia.
Qed.

Lemma projections m m0 : agree m m0 -> exists m1 m2 m3,
  matvec ft wq x bq q n n m0 = Some m1 /\ matvec ft wk x bk k_t kvd n m1 = Some m2 /\ matvec ft wv x bv v_t kvd n m2 = Some m3 /\ agree m m3 /\
  (forall i, 0 <= i < n -> ld m3 q i = linear (ld m wq) (ld m x) (bias_of bq m) n i) /\
  forall i, 0 <= i < kvd -> ld m3 k_t i = linear (ld m wk) (ld m x) (bias_of bk m) n i /\ ld m3 v_t i = linear (ld m wv) (ld m x) (bias_of bv m) n i.
Proof.
  intros A0. pose proof n_pos as Hn. destruct (projection wq bq 0 q n n m m0) as (m1 & E1 & V1 & S1); [done | lia | cbn; auto | cbn; auto | done|].
  assert (agree m m1) as A1 by (by apply (agree_buf 0 q n m m0)).
  destruct (projection wk bk 1 k_t kvd n m m1) as (m2 & E2 & V2 & S2); [done | lia | cbn; auto | cbn; auto | done|].
  assert (agree m m2) as A2 by (by apply (agree_buf 1 k_t n m m1)).
  destruct (projection wv bv 2 v_t kvd kvd m m2) as (m3 & E3 & V3 & S3); [done | lia | cbn; auto 10 | cbn; auto | done|].
  exists m1, m2, m3. split; [done|]. split; [done|]. split; [done|]. split; [by apply (agree_buf 2 v_t kvd m m2)|].
  pose proof (buf_sep 1 0 k_t n q n eq_refl eq_refl ltac:(done)). pose proof (buf_sep 2 0 v_t kvd q n eq_refl eq_refl ltac:(done)). pose proof (buf_sep 2 1 v_t kvd k_t n eq_refl eq_refl ltac:(done)).
  split; [|intros i Hi; split].
  - intros i Hi. rewrite (ld_frame v_t kvd q n i m2 m3), (ld_frame k_t n q n i m1 m2) by done. by apply V1.
  - rewrite (ld_frame v_t kvd k_t n i m2 m3) by (done || lia). by apply V2.
  - by apply V3.
Qed.

Notation key_row h t := (kv_k kvc + 4 * KV_IDX kvc layer h t 0).
Notation value_row h t := (kv_v kvc + 4 * KV_IDX kvc layer h t 0).
Definition cache_frame (a : Z) : Prop := forall h, 0 <= h < kv_heads -> outside2 (key_row h pos) (value_row h pos) hd a.

Lemma rows_in h t : 0 <= h < kv_heads -> 0 <= t <= pos -> in_cache kvc layer h t /\ 0 <= KV_IDX kvc layer h t 0 /\ KV_IDX kvc layer h t 0 + hd <= slots kvc.
Proof.
  intros Hh Ht. destruct ok as [_ Hd [Ek Ed] Hs (Hl & Hp & _) _ _ _]. assert (in_cache kvc layer h t) as Hc by (unfold in_cache; lia).
  split; [done|]. rewrite <- Ed. apply row_range; [lia | done | done].
Qed.

(** Everything apart from the two arrays of the cache keeps its value. *)
Lemma apart_cache_frame p k a : sep p k (kv_k kvc) (slots kvc) -> sep p k (kv_v kvc) (slots kvc) -> p <= a < p + 4 * k -> cache_frame a.
Proof.
  unfold sep. intros H1 H2 Ha h Hh. destruct ok as [_ _ _ _ (_ & Hp & _) _ _ _]. destruct (rows_in h pos Hh ltac:(lia)) as (_ & R1 & R2). unfold outside2. lia.
Qed.

(** The row of another position is not written. *)
Lemma other_row_frame h t d : 0 <= h < kv_heads -> 0 <= t <= pos -> t <> pos -> 0 <= d < hd -> cache_frame (key_row h t + 4 * d) /\ cache_frame (value_row h t + 4 * d).
Proof.
  intros Hh Ht Hne Hd. destruct ok as [_ _ [_ Ed] Hs _ Hc _ _]. unfold sep in Hc. destruct (rows_in h t Hh Ht) as (Hi & R1 & R2).
  assert (forall h', 0 <= h' < kv_heads -> outside2 (key_row h' pos) (value_row h' pos) hd (key_row h t + 4 * d) /\ outside2 (key_row h' pos) (value_row h' pos) hd (value_row h t + 4 * d)) as HO; [|split; intros h' Hh'; by apply HO].
  intros h' Hh'. destruct (rows_in h' pos Hh' ltac:(lia)) as (Hi' & R1' & R2').
  destruct (row_apart kvc ltac:(lia) Hs layer h t layer h' pos) as [Hr|Hr]; [done | done | congruence | |]; rewrite Ed in Hr; unfold outside2; lia.
Qed.

Lemma q_row h d : 0 <= h < heads -> 0 <= d < hd -> 0 <= h * hd + d < n.
Proof. intros Hh Hd. unfold n. nia. Qed.
Lemma k_row h d : 0 <= h < kv_heads -> 0 <= d < hd -> 0 <= h * hd + d < kvd.
Proof. intros Hh Hd. unfold kvd. nia. Qed.

(** The rotary embedding and the new rows of the cache. *)
Lemma cached m m3 n' n'' : agree m m3 ->
  (forall i, 0 <= i < n -> ld m3 q i = linear (ld m wq) (ld m x) (bias_of bq m) n i) ->
  (forall i, 0 <= i < kvd -> ld m3 k_t i = linear (ld m wk) (ld m x) (bias_of bk m) n i /\ ld m3 v_t i = linear (ld m wv) (ld m x) (bias_of bv m) n i) ->
  let m5 := write_cache kvc layer pos k_t v_t kv_heads hd (ops_rope (shape3 q heads hd n') (shape3 k_t kv_heads hd n'') pos base m3) in
  (forall h d, 0 <= h < heads -> 0 <= d < hd -> ld m5 q (h * hd + d) = query m h d) /\
  (forall h t d, 0 <= h < kv_heads -> 0 <= t <= pos -> 0 <= d < hd -> ld m5 (key_row h t) d = keys m h t d /\ ld m5 (value_row h t) d = values m h t d) /\
  (forall a, outside bufs a -> cache_frame a -> m5 a = m a).
Proof.
  intros Ha Hvq Hv. pose proof n_pos as Hn. destruct ok as [[[Hh0 _] Hg] Hhd [Ek Ed] Hs (Hl & Hp & Hpb) Hc _ _].
  destruct (ops_rope_ok q k_t heads kv_heads hd pos base n' n'' m3) as [R1 R2]; [lia | lia | apply (buf_sep 0 1 q n k_t n); done | lia|].
  set (m4 := ops_rope _ _ _ _ _) in *.
  assert (forall j p k, bufs !! j = Some (p, k) -> sep p k (kv_k kvc) (slots kvc) /\ sep p k (kv_v kvc) (slots kvc)) as Hbc.
  { intros j p k Hj. split; apply (ext_sep j p k); try done; cbn; auto 10. }
  destruct (write_cache_ok kvc layer pos k_t v_t kv_heads hd m4) as [W1 W2]; [done | done | lia | lia | done | done | done | done | |].
  { fold kvd. intros p [<-|[<-|[]]]; [|by apply (Hbc 2%nat)]. destruct (Hbc 1%nat k_t n eq_refl). unfold sep in *. lia. }
  set (m5 := write_cache _ _ _ _ _ _ _ _) in *.
  assert (agree m m4) as A4.
  { intros a Hout. rewrite R2; [by apply Ha|]. unfold outside in Hout. rewrite Forall_forall in Hout.
    split; [apply (Hout (q, n)); by left | apply (Hout (k_t, n)); by right; left]. }
  assert (forall h d, 0 <= h < heads -> 0 <= d < hd -> ld m4 q (h * hd + d) = query m h d) as Q4.
  { intros h d Hh Hd. destruct (R1 h d Hh Hd) as [-> _]. apply ropef_ext; [done|]. intros i Hi; unfold head; by apply Hvq, q_row. }
  assert (forall h d, 0 <= h < kv_heads -> 0 <= d < hd -> ld m4 k_t (h * hd + d) = key m h d /\ ld m4 v_t (h * hd + d) = value m h d) as V4.
  { intros h d Hh Hd. destruct (R1 h d ltac:(lia) Hd) as [_ ->]. split.
    - apply ropef_ext; [done|]. intros i Hi; unfold head; by apply Hv, k_row.
    - transitivity (ld m3 v_t (h * hd + d)); [|by apply Hv, k_row]. pose proof (k_row h d Hh Hd). unfold ld. apply R2.
      pose proof (buf_sep 2 0 v_t kvd q n eq_refl eq_refl ltac:(done)). pose proof (buf_sep 2 1 v_t kvd k_t n eq_refl eq_refl ltac:(done)). unfold sep, outside2 in *. fold n. lia. }
  split; [|split].
  - intros h d Hh Hd. rewrite <- Q4 by done. unfold ld. pose proof (q_row h d Hh Hd). apply W2. apply (apart_cache_frame q n); [by apply (Hbc 0%nat) | by apply (Hbc 0%nat) | lia].
  - intros h t d Hh Ht Hd. unfold keys, values. destruct (Z.eqb_spec t pos) as [->|Hne].
    + destruct (W1 h d Hh Hd) as [-> ->]. by apply V4.
    + destruct (other_row_frame h t d Hh Ht Hne Hd) as [F1 F2]. destruct (rows_in h t Hh Ht) as (_ & Q1 & Q2).
      split; unfold ld; (rewrite W2 by done); apply A4; [apply (ext_outside (kv_k kvc) (slots kvc)) | apply (ext_outside (kv_v kvc) (slots kvc))]; cbn; auto 10; lia.
  - intros a Hout Hf. rewrite W2 by done. by apply A4.
Qed.

(** Every head in turn, into its part of the output buffer. *)
Lemma heads_ok m m5 :
  (forall h d, 0 <= h < heads -> 0 <= d < hd -> ld m5 q (h * hd + d) = query m h d) ->
  (forall h t d, 0 <= h < kv_heads -> 0 <= t <= pos -> 0 <= d < hd -> ld m5 (key_row h t) d = keys m h t d /\ ld m5 (value_row h t) d = values m h t d) ->
  let m7 := for_up (Z.to_nat heads) 0 (attend_head kvc layer pos q o scores ctx heads kv_heads hd scale) m5 in
  (forall i, 0 <= i < n -> ld m7 o i = context m i) /\ (forall a, outside bufs a -> m7 a = m5 a).
Proof.
  intros Hq Hkv. destruct ok as [[[Hh0 Hh2] Hg] Hhd [Ek Ed] Hs (Hl & Hp & Hpb) Hc _ _].
  set (writes a := ~ (scores <= a < scores + 4 * (pos + 1)) /\ ~ (ctx <= a < ctx + 4 * hd) /\ ~ (o <= a < o + 4 * n)).
  pose proof (buf_sep 4 5 scores (pos + 1) ctx hd eq_refl eq_refl ltac:(done)) as S1. pose proof (buf_sep 5 3 ctx hd o n eq_refl eq_refl ltac:(done)) as S2.
  pose proof (buf_sep 0 4 q n scores (pos + 1) eq_refl eq_refl ltac:(done)) as S3. pose proof (buf_sep 0 3 q n o n eq_refl eq_refl ltac:(done)) as S4.
  pose proof (buf_sep 0 5 q n ctx hd eq_refl eq_refl ltac:(done)) as S5. pose proof (buf_sep 4 3 scores (pos + 1) o n eq_refl eq_refl ltac:(done)) as S6.
  assert (forall e, e = kv_k kvc \/ e = kv_v kvc -> sep scores (pos + 1) e (slots kvc) /\ sep ctx hd e (slots kvc) /\ sep o n e (slots kvc)) as SE.
  { intros e He. split_and!; [apply (ext_sep 4) | apply (ext_sep 5) | apply (ext_sep 3)]; try done; destruct He as [->| ->]; cbn; auto 10. }
  destruct (SE (kv_k kvc) ltac:(by left)) as (K1 & K2 & K3), (SE (kv_v kvc) ltac:(by right)) as (V1 & V2 & V3). clear SE.
  assert (forall h t d, 0 <= h < heads -> 0 <= t <= pos -> 0 <= d < hd -> let g := group heads kv_heads h in
    writes (q + 4 * (h * hd) + 4 * d) /\ writes (key_row g t + 4 * d) /\ writes (value_row g t + 4 * d)) as Hw.
  { intros h t d Hh Ht Hd g. destruct (rows_in g t (group_range _ _ _ (proj1 Hg) Hh) Ht) as (_ & Q1 & Q2). pose proof (q_row h d Hh Hd).
    unfold writes; split; [|split]; (split; [|split]).
    1-3: apply (sep_out _ _ q n); [by apply sep_sym | lia].
    1-3: apply (sep_out _ _ (kv_k kvc) (slots kvc)); [done | lia].
    1-3: apply (sep_out _ _ (kv_v kvc) (slots kvc)); [done | lia]. }
  pose proof (for_up_inv (fun c m' => (forall h d, 0 <= h < c -> 0 <= d < hd -> ld m' o (h * hd + d) = attnf hd pos scale (query m h) (keys m (group heads kv_heads h)) (values m (group heads kv_heads h)) d) /\
    (forall a, writes a -> m' a = m5 a)) (Z.to_nat heads) 0 (attend_head kvc layer pos q o scores ctx heads kv_heads hd scale) m5) as HI.
  rewrite Z2Nat.id, Z.add_0_l in HI by lia. destruct HI as [E1 E2].
  - split; [intros; lia | done].
  - intros c m6 Hcc [I1 I2]. assert (0 <= c * hd /\ c * hd + hd <= n) as [B1 B2] by (unfold n; nia).
    pose proof (group_range heads kv_heads c (proj1 Hg) ltac:(lia)) as Hgc. destruct (attend_head_ok kvc layer pos q o scores ctx heads kv_heads hd scale c m6) as [A1 A2]; [lia | lia | lia | lia | nia | done | apply (sep_sub ctx hd o n); done || lia | apply (sep_sub q n scores (pos + 1)); done || lia | |].
    { intros t Ht. destruct (rows_in (group heads kv_heads c) t Hgc Ht) as (_ & Q1 & Q2).
      split_and!; apply sep_sym; [apply (sep_sub scores (pos + 1) (kv_k kvc) (slots kvc)) | apply (sep_sub scores (pos + 1) (kv_v kvc) (slots kvc)) | apply (sep_sub ctx hd (kv_v kvc) (slots kvc))]; done || lia. }
    split.
    + intros h d Hh Hd. destruct (decide (h = c)) as [->|Hne].
      * rewrite A1 by done. apply attnf_ext; [lia | | |].
        -- intros k Hk. destruct (Hw c 0 k ltac:(lia) ltac:(lia) Hk) as (W1 & _ & _). transitivity (ld m5 q (c * hd + k)); [|by apply Hq; [lia|]].
           unfold ld. rewrite I2 by done. f_equal. lia.
        -- intros t k Ht Hk. destruct (Hw c t k ltac:(lia) Ht Hk) as (_ & W1 & _). unfold ld. rewrite I2 by done. by apply Hkv.
        -- intros t Ht. destruct (Hw c t d ltac:(lia) Ht Hd) as (_ & _ & W1). unfold ld. rewrite I2 by done. by apply Hkv.
      * rewrite <- I1 by lia. unfold ld. apply A2. assert (h * hd + hd <= c * hd) by nia. assert (0 <= h * hd) by nia.
        intros [Hx|[Hx|Hx]]; [| | lia]; revert Hx; [apply (sep_out scores (pos + 1) o n) | apply (sep_out ctx hd o n)]; done || lia.
    + intros a Hwa. rewrite A2 by (unfold writes in Hwa; unfold head_writes; lia). by apply I2.
  - split.
    + intros i Hi. unfold context. unfold n in Hi. assert (0 <= i / hd < heads /\ 0 <= i mod hd < hd) as [D1 D2].
      { split; [split; [apply Z.div_pos; lia | apply Z.div_lt_upper_bound; lia] | apply Z.mod_pos_bound; lia]. }
      rewrite <- E1 by done. f_equal. rewrite (Z.div_mod i hd) at 1 by lia. lia.
    + intros a Ha. apply E2. unfold outside in Ha. rewrite Forall_forall in Ha. unfold writes.
      split_and!; [apply (Ha (scores, pos + 1)) | apply (Ha (ctx, hd)) | apply (Ha (o, n))]; apply list_elem_of_In; cbn; auto 10.
Qed.

(** The whole step on memory. *)
Lemma step_core m m0 n' n'' : agree m m0 -> exists m1 m2 m3 m8,
  matvec ft wq x bq q n n m0 = Some m1 /\ matvec ft wk x bk k_t kvd n m1 = Some m2 /\ matvec ft wv x bv v_t kvd n m2 = Some m3 /\
  matvec ft wo o bo out n n (for_up (Z.to_nat heads) 0 (attend_head kvc layer pos q o scores ctx heads kv_heads hd scale)
    (store_loop n o (fun _ _ => f0)
      (write_cache kvc layer pos k_t v_t kv_heads hd (ops_rope (shape3 q heads hd n') (shape3 k_t kv_heads hd n'') pos base m3)))) = Some m8 /\
  step_result m m8.
Proof.
  intros A0. destruct (projections m m0 A0) as (m1 & m2 & m3 & E1 & E2 & E3 & A3 & V3 & V3'). exists m1, m2, m3.
  destruct (cached m m3 n' n'' A3 V3 V3') as (Q5 & C5 & F5). set (m5 := write_cache _ _ _ _ _ _ _ _) in *.
  pose proof n_pos as Hn. destruct (store_loop_ok n o (fun _ _ => f0) m5) as [_ S6]; [lia | done|]. set (m6 := store_loop _ _ _ _) in *.
  destruct ok as [[[Hh0 Hh2] Hg] Hhd [Ek Ed] Hs (Hl & Hp & Hpb) Hc Hout Hkeep].
  assert (sep o n (kv_k kvc) (slots kvc) /\ sep o n (kv_v kvc) (slots kvc)) as [OK OV] by (split; apply (ext_sep 3); try done; cbn; auto 10).
  destruct (heads_ok m m6) as [O7 F7].
  { intros h d Hh Hd. rewrite <- Q5 by done. apply (ld_frame o n q n); [done | apply (buf_sep 3 0); done | by apply q_row]. }
  { intros h t d Hh Ht Hd. destruct (C5 h t d Hh Ht Hd) as [<- <-]. destruct (rows_in h t Hh Ht) as (_ & Q1 & Q2). unfold sep in *. split; unfold ld; apply S6; lia. }
  set (m7 := for_up _ _ _ m6) in *.
  assert (forall a, outside bufs a -> m7 a = m5 a) as F75.
  { intros a Ha. rewrite F7, S6; [done | | done]. unfold outside in Ha. rewrite Forall_forall in Ha. apply (Ha (o, n)). apply list_elem_of_In. cbn. auto 10. }
  rewrite Forall_forall in Hout, Hkeep.
  assert (forall e l i, In (e, l) exts -> In (e, l) ((wo, n * n) :: bias_arr bo n) -> 0 <= i < l -> ld m7 e i = ld m e i) as Hext.
  { intros e l i He Hk Hi. unfold ld. pose proof (ext_outside e l (e + 4 * i) He ltac:(lia)) as Ho. rewrite F75, F5 by (done || (destruct (Hkeep (e, l)) as [K1 K2]; [by apply list_elem_of_In|]; apply (apart_cache_frame e l); [done | done | lia])). done. }
  assert (In (out, n) exts) as Hoe by (cbn; auto). assert (In (wo, n * n) exts) as Hwe by (cbn; auto 10).
  destruct (matvec_ok ft wo o bo out n n m7) as (m8 & E8 & V8 & S8); [lia | lia | | | |].
  { apply (sepb_sym (out, n) (wo, n * n)). apply Hout. apply list_elem_of_In. cbn; auto. }
  { apply (ext_sep 3 o n out n); done. }
  { destruct (bias_cases bo n) as [|Eb]; [by left | right]. apply (sepb_sym (out, n) (bo, n)). apply Hout. rewrite Eb. apply list_elem_of_In. cbn; auto. }
  exists m8. split; [done|]. split; [done|]. split; [done|]. split; [done|].
  assert (forall a, outside bufs a -> ~ (out <= a < out + 4 * n) -> m8 a = m5 a) as F8 by (intros; rewrite S8 by done; by apply F75).
  split.
  - intros i Hi. rewrite V8 by done. unfold attention. apply linear_ext; [lia | | |].
    + intros k Hk. split; [apply (Hext wo (n * n)); [done | by left | nia] | by apply O7].
    + unfold bias_of. destruct (bias_cases bo n) as [->|Eb]; [done|]. destruct (Z.eqb_spec bo 0) as [|Hne]; [done|].
      intros f [= <-]. eexists. split; [done|]. apply (Hext bo n); [|rewrite Eb; cbn; auto | done]. destruct (bias_in bo n) as [|]; [cbn; auto 10 | done | done].
    + unfold bias_of. by destruct (bo =? 0).
  - intros h t d Hh Ht Hd. destruct (C5 h t d Hh Ht Hd) as [<- _]. destruct (rows_in h t Hh Ht) as (_ & Q1 & Q2). unfold ld. apply F8.
    + apply (ext_outside (kv_k kvc) (slots kvc)); [cbn; auto 10 | lia].
    + assert (sepb (out, n) (kv_k kvc, slots kvc)) as Hx by (apply Hout, list_elem_of_In; cbn; auto). unfold sepb, sep in Hx. cbn in Hx. lia.
  - intros h t d Hh Ht Hd. destruct (C5 h t d Hh Ht Hd) as [_ <-]. destruct (rows_in h t Hh Ht) as (_ & Q1 & Q2). unfold ld. apply F8.
    + apply (ext_outside (kv_v kvc) (slots kvc)); [cbn; auto 10 | lia].
    + assert (sepb (out, n) (kv_v kvc, slots kvc)) as Hx by (apply Hout, list_elem_of_In; cbn; auto). unfold sepb, sep in Hx. cbn in Hx. lia.
  - intros a Ha Hno Hcf. rewrite F8 by done. by apply F5.
Qed.
End Memories.
End Core.

(** ** The function *)

Section Forward.
Context {F} `{FloatOps F} {A : Type} `{ArenaSpec A}.
Implicit Types (m : fmem F) (s : A).
Context (ft : simd_features_t) (cfg : attn_config_t) (kvc : kv_cache_t) (layer pos x out wq wk wv wo bq bk bv bo : Z).

(** The null pointers, the layers and positions out of range, the empty
    configurations. *)
Definition rejected : bool :=
  existsb (fun p => p =? 0) [x; out; wq; wk; wv; wo] || ((layer <? 0) || (kv_n_layers kvc <=? layer)) ||
  ((pos <? 0) || (kv_max_seq_len kvc <=? pos)) || ((n_heads cfg <=? 0) || (n_embd cfg <=? 0)).

Lemma attn_forward_rejects s m : rejected = true -> attn_forward ft cfg x out wq wk wv wo bq bk bv bo kvc layer pos s m = Some (- 1, s, m, kvc).
Proof. unfold rejected, attn_forward. intros Hr. repeat (case_match; [done|]). done. Qed.

Definition live_at s (a : Z) : Prop := exists r, In r (ar_live s) /\ r.1 <= a < r.1 + r.2.

Lemma live_outside s bs a : live_at s a -> Forall (fun b => Forall (disjoint_regions (bytes b)) (ar_live s)) bs -> outside bs a.
Proof.
  intros (r & Hr & Ha) Hb. apply (Forall_impl _ _ _ Hb). intros c Hc. rewrite Forall_forall in Hc. apply list_elem_of_In in Hr.
  specialize (Hc r Hr). unfold disjoint_regions, bytes in Hc. cbn in Hc. lia.
Qed.

Definition attn_scale (hd : Z) : F := (f1 / ops_sqrtf_approx (fofz hd))%float.
Definition ROPE_BASE : F := fdec 10000 0.

Lemma alloc_all_or_none (ps sizes : list Z) : length ps = length sizes -> existsb (fun p => p =? 0) ps = false -> blocks ps sizes = zip ps sizes.
Proof.
  revert sizes. induction ps as [|p ps IH]; intros [|k sizes] Hl Hp; try done. cbn in Hp |- *. apply orb_false_iff in Hp as [-> Hp].
  f_equal. apply IH; [by injection Hl | done].
Qed.

Lemma set_cur_len_max : (if kv_cur_len kvc <? pos + 1 then set_cur_len (pos + 1) kvc else kvc) = set_cur_len (Z.max (kv_cur_len kvc) (pos + 1)) kvc.
Proof. destruct (Z.ltb_spec (kv_cur_len kvc) (pos + 1)); [by rewrite Z.max_r by lia | rewrite Z.max_l by lia; by destruct kvc]. Qed.

(** The rotation turns as many heads behind the start of the key buffer as the
    query has.  With fewer key heads these reach beyond the buffer; [key_room]
    says that nothing lies there: no other buffer and no block in use. *)
Definition key_room (heads kv_heads hd : Z) s m : Prop :=
  let n := heads * hd in let kvd := kv_heads * hd in
  forall q k_t v_t o scores ctx s1 m1, alloc_bufs [n; kvd; kvd; n; pos + 1; hd] s m = Some ([q; k_t; v_t; o; scores; ctx], s1, m1) ->
    Forall (fun p => 0 < p) [q; k_t; v_t; o; scores; ctx] ->
    Forall (sepb (k_t, n)) [(q, n); (v_t, kvd); (o, n); (scores, pos + 1); (ctx, hd)] /\ Forall (disjoint_regions (bytes (k_t, n))) (ar_live s).

(** The buffers, with the reach of the rotation, are apart from each other and
    from the blocks in use. *)
Lemma room_sep heads kv_heads hd q k_t v_t o scores ctx s s1 m m1 :
  let n := heads * hd in let kvd := kv_heads * hd in
  kv_heads = heads \/ key_room heads kv_heads hd s m -> alloc_bufs [n; kvd; kvd; n; pos + 1; hd] s m = Some ([q; k_t; v_t; o; scores; ctx], s1, m1) ->
  Forall (fun p => 0 < p) [q; k_t; v_t; o; scores; ctx] ->
  let got := [(q, n); (k_t, kvd); (v_t, kvd); (o, n); (scores, pos + 1); (ctx, hd)] in
  ForallOrdPairs sepb got -> Forall (fun b => Forall (disjoint_regions (bytes b)) (ar_live s)) got ->
  let bs := bufs heads kv_heads hd pos q k_t v_t o scores ctx in
  ForallOrdPairs sepb bs /\ Forall (fun b => Forall (disjoint_regions (bytes b)) (ar_live s)) bs.
Proof.
  intros n kvd Hr E Hp got Hs Hd. unfold got, bufs in *. fold n kvd. destruct Hr as [->|Hr]; [done|]. destruct (Hr _ _ _ _ _ _ _ _ E Hp) as [R1 R2].
  fold n kvd in R1, R2. split.
  - inversion_clear Hs as [|? ? Hq Hs1]. inversion_clear Hs1 as [|? ? _ Hs2]. apply Forall_cons in R1 as [Rq R1]. constructor; [|by constructor].
    apply Forall_cons in Hq as [_ Hq]. constructor; [by apply sepb_sym | done].
  - apply Forall_cons in Hd as [D1 Hd]. apply Forall_cons in Hd as [_ Hd]. constructor; [exact D1|]. constructor; [exact R2 | exact Hd].
Qed.

Lemma all_positive ps : Forall (fun p => 0 <= p) ps -> existsb (fun p => p =? 0) ps = false -> Forall (fun p => 0 < p) ps.
Proof.
  induction 1 as [|p ps Hp _ IH]; [done|]. cbn. intros [Hz Hr]%orb_false_iff. constructor; [lia | by apply IH].
Qed.

End Forward.

(** ** Witness *)

#[local] Existing Instance b32.

(** Two query heads of two dimensions that share one key head, the second
    token, the arrays in one block; the arena rounds up to 32 bytes, which
    leaves room behind the key buffer. *)
Definition demo_attn : attn_config_t := mk_attn 2 1 4 4 1.
Definition demo_cache : kv_cache_t := mk_kvc 640 704 2 1 1 4 1.
Definition demo_arena : bump := mk_bump 1024 4096 [(64, 900)].

Lemma demo_step_ok : step_ok demo_cache 2 1 2 0 1 96 320 0.
Proof. split; try (cbn; lia); try (vm_compute; repeat constructor; (by left) || (by right) || discriminate || (intros ?; discriminate)). Qed.

Lemma demo_key_room : key_room 1 2 1 2 demo_arena demo_floats.
Proof.
  intros q k_t v_t o scores ctx s1 m1 E _. assert ((q, k_t, v_t, o, scores, ctx) = (1056, 1088, 1120, 1152, 1184, 1216)) as [= -> -> -> -> -> ->].
  { assert (match alloc_bufs [2 * 2; 1 * 2; 1 * 2; 2 * 2; 1 + 1; 2] demo_arena demo_floats with Some (ps, _, _) => bool_decide (ps = [1056; 1088; 1120; 1152; 1184; 1216]) | None => false end = true) as E0 by (vm_compute; reflexivity).
    rewrite E in E0. apply bool_decide_eq_true in E0. by injection E0 as -> -> -> -> -> ->. }
  split; repeat constructor; unfold sepb, sep, disjoint_regions; cbn; lia.
Qed.

