(* ===== verification/Transformer.v ===== *)
(** One decoder block (kernel/llm/transformer.c): normalisation, attention, the
    feed-forward network and the two residual additions, in the GPT-2 and the
    LLaMA style.

    A block without a feed-forward size, as kernel/llm/model.c fills them in,
    gets no memory for its buffers and refuses every token. *)

From Stdlib Require Import Floats.SpecFloat.
From S2P Require Import Prelude Memory Float Arena Simd Tensor Ops Attention AttentionSpec.
Local Open Scope Z_scope.

Definition TRANSFORMER_STYLE_GPT2 : Z := 0.
Definition TRANSFORMER_STYLE_LLAMA : Z := 1.

(** Pointers to the weights; null pointers are 0. *)
Record transformer_block_t := mk_block {
  norm1_gamma : Z; norm1_beta : Z; norm2_gamma : Z; norm2_beta : Z;
  b_wq : Z; b_wk : Z; b_wv : Z; b_wo : Z; b_bq : Z; b_bk : Z; b_bv : Z; b_bo : Z;
  b_w1 : Z; b_w2 : Z; b_w_gate : Z; b_b1 : Z; b_b2 : Z;
  ffn_hidden : Z; style : Z }.

Section Transformer.
Context {F} `{FloatOps F} {A : Type} `{Arena A} (ft : simd_features_t).
Implicit Types (m : fmem F) (s : A).

Definition LAYERNORM_EPS : F := fdec 1 (- 5).
Definition RMSNORM_EPS : F := fdec 1 (- 6).

(** The same two helpers as [alloc_buf] and [free_buf] of attention.c. *)
Definition alloc_scratch (n : Z) s m : option (Z * A * fmem F) := alloc_buf n s m.
Definition free_scratch (p : Z) s : option A := free_buf p s.

(** A view of one dimension. *)
Definition shape1 (data n : Z) : tensor_t := mk_tensor data (fun i => if i =? 0 then n else 0) 1 (u64 n).

Definition layer_norm_forward (x gamma beta out n : Z) m : fmem F :=
  ops_layer_norm (shape1 x n) (shape1 gamma n) (shape1 beta n) (shape1 out n) LAYERNORM_EPS m.

Definition rms_norm_forward (x gamma out n : Z) m : fmem F :=
  let ss := (sum_loop n (fun i => ld m x i * ld m x i) / fofz n + RMSNORM_EPS)%float in
  let inv_rms := (f1 / ops_sqrtf_approx ss)%float in
  store_loop n out (fun i m => (ld m gamma i * (ld m x i * inv_rms))%float) m.

(** The same product as [matvec] of attention.c. *)
Definition matvec_add (W x bias out M N : Z) m : option (fmem F) := matvec ft W x bias out M N m.

Definition gelu_inplace (x n : Z) m : fmem F := ops_gelu (shape1 x n) (shape1 x n) m.
Definition swiglu (g u : F) : F :=
  let sig := (f1 / (f1 + ops_expf_approx (fneg g)))%float in (u * (g * sig))%float.
Definition swiglu_inplace (gate_buf up_buf n : Z) m : fmem F :=
  store_loop n up_buf (fun i m => swiglu (ld m gate_buf i) (ld m up_buf i)) m.
Definition vec_add (out src n : Z) m : fmem F := store_loop n out (fun i m => (ld m out i + ld m src i)%float) m.
Definition vec_copy (dst src n : Z) m : fmem F := store_loop n dst (fun i m => ld m src i) m.

(** Attention of [normed], added to [x] in [h]; the result of [attn_forward]
    beside the state. *)
Definition attend (block : transformer_block_t) (cfg : attn_config_t) (biases : list Z) (x normed attn_o h n : Z) (kvc : kv_cache_t) (layer pos : Z) s m : option (Z * A * fmem F * kv_cache_t) :=
  '(ret, s, m, kvc) ← attn_forward ft cfg normed attn_o (b_wq block) (b_wk block) (b_wv block) (b_wo block)
    (nth 0 biases 0) (nth 1 biases 0) (nth 2 biases 0) (nth 3 biases 0) kvc layer pos s m;
  Some (ret, s, if ret =? 0 then vec_add h attn_o n (vec_copy h x n m) else m, kvc).

(** The two styles from the normalised input on; the result is that of
    [attn_forward]. *)
Definition forward_gpt2 (block : transformer_block_t) (cfg : attn_config_t) (x out normed attn_o h normed2 mlp_h : Z) (kvc : kv_cache_t) (layer pos : Z) s m : option (Z * A * fmem F * kv_cache_t) :=
  let n := n_embd cfg in
  let m := layer_norm_forward x (norm1_gamma block) (norm1_beta block) normed n m in
  '(ret, s, m, kvc) ← attend block cfg [b_bq block; b_bk block; b_bv block; b_bo block] x normed attn_o h n kvc layer pos s m;
  if negb (ret =? 0) then Some (ret, s, m, kvc)
  else
    let m := layer_norm_forward h (norm2_gamma block) (norm2_beta block) normed2 n m in
    m ← matvec_add (b_w1 block) normed2 (b_b1 block) mlp_h (ffn_hidden block) n m;
    let m := gelu_inplace mlp_h (ffn_hidden block) m in
    m ← matvec_add (b_w2 block) mlp_h (b_b2 block) out n (ffn_hidden block) m;
    Some (0, s, vec_add out h n m, kvc).

Definition forward_llama (block : transformer_block_t) (cfg : attn_config_t) (x out normed attn_o h normed2 mlp_h gate : Z) (kvc : kv_cache_t) (layer pos : Z) s m : option (Z * A * fmem F * kv_cache_t) :=
  let n := n_embd cfg in
  let m := rms_norm_forward x (norm1_gamma block) normed n m in
  '(ret, s, m, kvc) ← attend block cfg [0; 0; 0; 0] x normed attn_o h n kvc layer pos s m;
  if negb (ret =? 0) then Some (ret, s, m, kvc)
  else
    let m := rms_norm_forward h (norm2_gamma block) normed2 n m in
    m ← matvec_add (b_w_gate block) normed2 0 gate (ffn_hidden block) n m;
    m ← matvec_add (b_w1 block) normed2 0 mlp_h (ffn_hidden block) n m;
    let m := swiglu_inplace gate mlp_h (ffn_hidden block) m in
    m ← matvec_add (b_w2 block) mlp_h 0 out n (ffn_hidden block) m;
    Some (0, s, vec_add out h n m, kvc).

(** The checks of the arguments. *)
Definition block_args_bad (block : transformer_block_t) (x out : Z) : bool :=
  existsb (fun p => p =? 0) [x; out; norm1_gamma block; norm2_gamma block; b_wq block; b_wk block; b_wv block; b_wo block; b_w1 block; b_w2 block] ||
  ((style block =? TRANSFORMER_STYLE_LLAMA) && (b_w_gate block =? 0)).

Definition transformer_block_forward (block : transformer_block_t) (cfg : attn_config_t) (x out : Z) (kvc : kv_cache_t) (layer pos : Z) s m : option (Z * A * fmem F * kv_cache_t) :=
  if block_args_bad block x out then Some (- 1, s, m, kvc)
  else
    let n := u64 (n_embd cfg) in
    let ffn_h := u64 (ffn_hidden block) in
    let llama := style block =? TRANSFORMER_STYLE_LLAMA in
    '(bufs, s, m) ← alloc_bufs [n; n; n; n; ffn_h] s m;
    '(gate, s, m) ← (if llama then alloc_scratch ffn_h s m else Some (0, s, m));
    if existsb (fun p => p =? 0) bufs || (llama && (gate =? 0)) then s ← free_bufs (bufs ++ [gate]) s; Some (- 1, s, m, kvc)
    else
      match bufs with
      | [normed; attn_o; h; normed2; mlp_h] =>
          '(ret, s, m, kvc) ←
            (if style block =? TRANSFORMER_STYLE_GPT2 then forward_gpt2 block cfg x out normed attn_o h normed2 mlp_h kvc layer pos s m
             else if llama then forward_llama block cfg x out normed attn_o h normed2 mlp_h gate kvc layer pos s m
             else Some (- 1, s, m, kvc));
          s ← free_bufs (bufs ++ [gate]) s;
          Some (if ret =? 0 then 0 else - 1, s, m, kvc)
      | _ => None
      end.
End Transformer.

(** * Specification *)

Section Scratch.
Context {F} `{FloatOps F} {A : Type} `{ArenaSpec A}.
Implicit Types (m : fmem F) (s : A).

(** The gate buffer is the last of six, of no size in the style without it. *)
Lemma alloc_bufs_split (llama : bool) sizes k s m ps s2 m2 :
  alloc_bufs (sizes ++ [if llama then k else 0]) s m = Some (ps, s2, m2) ->
  exists qs gate s1 m1, ps = qs ++ [gate] /\ alloc_bufs sizes s m = Some (qs, s1, m1) /\ (if llama then alloc_scratch k s1 m1 else Some (0, s1, m1)) = Some (gate, s2, m2).
Proof.
  revert s m ps. induction sizes as [|n sizes IH]; intros s m ps; cbn [Datatypes.app alloc_bufs].
  - intros E. assert (exists gate, (if llama then alloc_scratch k s m else Some (0, s, m)) = Some (gate, s2, m2) /\ ps = [gate]) as (gate & Eg & ->); [|by exists [], gate, s, m].
    destruct llama; [unfold alloc_scratch; destruct (alloc_buf k s m) as [[[p s1] m1]|]; [|done] | change (alloc_buf 0 s m) with (Some (0, s, m)) in E]; cbn in E; injection E as <- <- <-; eauto.
  - destruct (alloc_buf n s m) as [[[p s1] m1]|]; [|done]. cbn. intros E.
    destruct (alloc_bufs (sizes ++ _) s1 m1) as [[[ps' s3] m3]|] eqn:E1; [|done]. cbn in E. injection E as <- <- <-.
    destruct (IH _ _ _ E1) as (qs & gate & s4 & m4 & -> & -> & Eg). exists (p :: qs), gate, s4, m4. done.
Qed.

Lemma alloc_bufs_none sizes s m ps s' m' : alloc_bufs sizes s m = Some (ps, s', m') -> In 0 sizes -> existsb (fun p => p =? 0) ps = true.
Proof.
  revert s m ps. induction sizes as [|n sizes IH]; intros s m ps E Hin; [done|]. destruct Hin as [Hn|Hin]; cbn [alloc_bufs] in E.
  - subst n. change (alloc_buf 0 s m) with (Some (0, s, m)) in E. cbn in E. destruct (alloc_bufs sizes s m) as [[[qs s1] m1]|]; [|done]. cbn in E. by injection E as <- <- <-.
  - destruct (alloc_buf n s m) as [[[p s1] m1]|]; [|done]. cbn in E. destruct (alloc_bufs sizes s1 m1) as [[[qs s2] m2]|] eqn:E1; [|done]. cbn in E. injection E as <- <- <-.
    cbn. rewrite (IH _ _ _ E1 Hin). apply orb_true_r.
Qed.

(** The blocks of a model as the kernel builds it have no feed-forward size;
    the block then returns -1 without having changed anything. *)
Lemma block_without_ffn ft block cfg x out kvc layer pos s m :
  ar_inv s -> 0 <= n_embd cfg < 2 ^ 28 -> ffn_hidden block = 0 ->
  exists s' m', transformer_block_forward ft block cfg x out kvc layer pos s m = Some (- 1, s', m', kvc) /\ ar_inv s' /\ ar_live s' = ar_live s /\
    (forall a, live_at s a -> m' a = m a).
Proof.
  intros Hi Hn Hf. unfold transformer_block_forward. destruct (block_args_bad block x out); [exists s, m; done|]. rewrite Hf, !u64_small by lia.
  set (n := n_embd cfg) in *. set (llama := style block =? TRANSFORMER_STYLE_LLAMA).
  destruct (alloc_bufs_ok ([n; n; n; n; 0] ++ [if llama then 0 else 0]) s m Hi) as (ps & s2 & m2 & Ea & I2 & El & L2 & _ & _ & Hd & Hm); [repeat constructor; destruct llama; lia|].
  destruct (free_bufs_ok ps _ (ar_live s) s2 I2 El L2) as (s3 & Ef & I3 & L3).
  destruct (alloc_bufs_split llama _ 0 _ _ _ _ _ Ea) as (qs & gate & s1 & m1 & -> & E1 & E2). rewrite E1. cbn [mbind option_bind]. rewrite E2. cbn [mbind option_bind].
  rewrite (alloc_bufs_none _ _ _ _ _ _ E1) by (cbn; auto 10). cbn [orb]. rewrite Ef. cbn [mbind option_bind]. exists s3, m2. split; [done|]. split; [done|]. split; [done|].
  intros a Ha. apply Hm. by apply (live_outside s).
Qed.
End Scratch.
