(* ===== verification/Model.v ===== *)
(** The model (kernel/llm/model.c): its allocation, one forward step of a
    token through all blocks to the logits, and the choice of the next token
    from them.

    The forward step of the model as the kernel builds it, the model's memory,
    and the choice of the next token. *)

From Stdlib Require Import Floats.SpecFloat.
From S2P Require Import Prelude Memory Float Arena Simd Tensor Ops Attention Transformer AttentionSpec.
Local Open Scope Z_scope.

Definition MAX_EMBD : Z := 4096.
Definition MAX_LAYERS : Z := 128.

Inductive model_arch_t : Type := MODEL_ARCH_GPT2 | MODEL_ARCH_LLAMA.
#[export] Instance model_arch_eq_dec : EqDecision model_arch_t.
Proof. solve_decision. Defined.

Record model_config_t (F : Type) := mk_model_config {
  arch : model_arch_t; vocab_size : Z; mc_n_embd : Z; mc_n_layers : Z; mc_n_heads : Z; mc_n_kv_heads : Z;
  mc_ffn_hidden : Z; mc_max_seq_len : Z; layer_norm_eps : F; tie_weights : bool }.
Arguments mk_model_config {F}.
Arguments arch {F}.
Arguments vocab_size {F}.
Arguments mc_n_embd {F}.
Arguments mc_n_layers {F}.
Arguments mc_n_heads {F}.
Arguments mc_n_kv_heads {F}.
Arguments mc_ffn_hidden {F}.
Arguments mc_max_seq_len {F}.
Arguments layer_norm_eps {F}.
Arguments tie_weights {F}.

Record sample_config_t (F : Type) := mk_sample_config { temperature : F; top_k : Z; top_p : F; rng_seed : Z }.
Arguments mk_sample_config {F}.
Arguments temperature {F}.
Arguments top_k {F}.
Arguments top_p {F}.
Arguments rng_seed {F}.

(** The blocks and the cache are behind pointers, kept beside them. *)
Record aios_model_t := mk_model {
  wte : tensor_t; wpe : tensor_t; blocks_ptr : Z; m_blocks : Z -> transformer_block_t;
  ln_f_w : tensor_t; ln_f_b : tensor_t; lm_head : tensor_t; kvc_ptr : Z; m_kvc : kv_cache_t }.

Definition SIZEOF_MODEL : Z := 216.
Definition SIZEOF_BLOCK : Z := 144.
Definition no_tensor : tensor_t := mk_tensor 0 (fun _ => 0) 0 0.
Definition no_block : transformer_block_t := mk_block 0 0 0 0 0 0 0 0 0 0 0 0 0 0 0 0 0 0 0.
Definition set_kvc (kvc : kv_cache_t) (md : aios_model_t) : aios_model_t :=
  mk_model (wte md) (wpe md) (blocks_ptr md) (m_blocks md) (ln_f_w md) (ln_f_b md) (lm_head md) (kvc_ptr md) kvc.

(** *** The generator of random numbers *)

Definition xorshift64 (x : Z) : Z :=
  let x := Z.lxor x (u64 (Z.shiftl x 13)) in
  let x := Z.lxor x (Z.shiftr x 7) in
  Z.lxor x (u64 (Z.shiftl x 17)).

Section Model.
Context {F} `{FloatOps F} {A : Type} `{Arena A} (ft : simd_features_t).
Implicit Types (m : fmem F) (s : A) (md : aios_model_t) (cfg : model_config_t F).

Definition attn_config cfg : attn_config_t :=
  mk_attn (s32 (mc_n_heads cfg)) (s32 (mc_n_kv_heads cfg)) (s32 (mc_n_embd cfg)) (s32 (mc_max_seq_len cfg)) (s32 (mc_n_layers cfg)).

(** *** Allocation *)

(** The structure starts zeroed; the weights are filled in by the loader. *)
Definition model_alloc cfg s m : option (option (Z * aios_model_t) * A * fmem F) :=
  if MAX_EMBD <? mc_n_embd cfg then Some (None, s, m)
  else if MAX_LAYERS <? mc_n_layers cfg then Some (None, s, m)
  else
    '(p, s) ← ar_alloc false SIZEOF_MODEL s;
    if p =? 0 then Some (None, s, m)
    else
      '(b, s) ← ar_alloc false (SIZEOF_BLOCK * mc_n_layers cfg) s;
      if b =? 0 then s ← ar_free false p s; Some (None, s, m)
      else
        '(k, s, m) ← kvcache_alloc (attn_config cfg) s m;
        match k with
        | None => s ← ar_free false b s; s ← ar_free false p s; Some (None, s, m)
        | Some (kp, kvc) => Some (Some (p, mk_model no_tensor no_tensor b (fun _ => no_block) no_tensor no_tensor no_tensor kp kvc), s, m)
        end.

Definition model_free (p : Z) md s : option A :=
  if p =? 0 then Some s
  else
    s ← (if kvc_ptr md =? 0 then Some s else kvcache_free (kvc_ptr md) (m_kvc md) s);
    s ← (if blocks_ptr md =? 0 then Some s else ar_free false (blocks_ptr md) s);
    ar_free false p s.

Definition model_reset_kvcache md : aios_model_t := if kvc_ptr md =? 0 then md else set_kvc (kvcache_reset (m_kvc md)) md.

(** *** One step *)

(** The addresses of the two static arrays of MAX_EMBD floats. *)
Context (x_buf y_buf : Z).

Definition model_memcpy_f (dst src n : Z) m : fmem F := store_loop n dst (fun i m => ld m src i) m.

(** Layer [l]; the result of the block is not looked at. *)
Definition run_block cfg md (pos l : Z) s m (kvc : kv_cache_t) : option (A * fmem F * kv_cache_t) :=
  if kvc_ptr md =? 0 then Some (s, m, kvc)
  else '(_, s, m, kvc) ← transformer_block_forward ft (m_blocks md l) (attn_config cfg) x_buf y_buf kvc (s32 l) (s32 pos) s m; Some (s, m, kvc).
Definition layer_step cfg md (pos l : Z) (st : A * fmem F * kv_cache_t) : option (A * fmem F * kv_cache_t) :=
  '(s, m, kvc) ← run_block cfg md pos l st.1.1 st.1.2 st.2;
  Some (s, model_memcpy_f x_buf y_buf (mc_n_embd cfg) m, kvc).

(** The embedding of the token, and of its position. *)
Definition embed cfg md (token_id pos : Z) m : fmem F :=
  let D := mc_n_embd cfg in
  let m := model_memcpy_f x_buf (t_data (wte md) + 4 * (token_id * D)) D m in
  if bool_decide (arch cfg = MODEL_ARCH_GPT2) && negb (t_data (wpe md) =? 0) then
    store_loop D x_buf (fun i m => (ld m x_buf i + ld m (t_data (wpe md) + 4 * (pos * D)) i)%float) m
  else m.

Definition final_norm cfg md m : fmem F :=
  let D := mc_n_embd cfg in
  let view p := shape1 p (s32 D) in
  if bool_decide (arch cfg = MODEL_ARCH_LLAMA) then ops_rms_norm (view x_buf) (view (t_data (ln_f_w md))) (view x_buf) (layer_norm_eps cfg) m
  else ops_layer_norm (view x_buf) (view (t_data (ln_f_w md))) (view (t_data (ln_f_b md))) (view x_buf) (layer_norm_eps cfg) m.

Definition project cfg md (logits_out : Z) m : fmem F :=
  let D := mc_n_embd cfg in
  store_loop (vocab_size cfg) logits_out (fun v m => dot_loop (Z.to_nat D) 0 (t_data (lm_head md) + 4 * (v * D)) x_buf f0 m) m.

Definition model_forward md cfg (token_id pos logits_out : Z) s m : option (Z * A * fmem F * aios_model_t) :=
  if logits_out =? 0 then Some (- 1, s, m, md)
  else if vocab_size cfg <=? token_id then Some (- 1, s, m, md)
  else if mc_max_seq_len cfg <=? pos then Some (- 1, s, m, md)
  else if MAX_EMBD <? mc_n_embd cfg then Some (- 1, s, m, md)
  else
    '(s, m, kvc) ← for_opt (Z.to_nat (mc_n_layers cfg)) 0 (layer_step cfg md pos) (s, embed cfg md token_id pos m, m_kvc md);
    let m := project cfg md logits_out (final_norm cfg md m) in
    Some (0, s, m, set_kvc (if kvc_ptr md =? 0 then kvc else set_cur_len (s32 (kv_cur_len kvc + 1)) kvc) md).

(** *** Sampling *)

(** [(uint32_t)-1] *)
Definition NO_INDEX : Z := 2 ^ 32 - 1.

(** Entries are moved down behind [ins] while they are empty or smaller. *)
Fixpoint shift_down (scores : Z -> F) (sv : F) (ins : nat) (idx : Z -> Z) : Z * (Z -> Z) :=
  match ins with
  | O => (0, idx)
  | S ins' =>
      let prev := idx (Z.of_nat ins') in
      if (prev =? NO_INDEX) || flt (scores prev) sv then shift_down scores sv ins' (upd idx (Z.of_nat ins) prev)
      else (Z.of_nat ins, idx)
  end.

Definition NEG_HUGE : F := fneg (fdec 1 38).
Definition topk_insert (scores : Z -> F) (k v : Z) (idx : Z -> Z) : Z -> Z :=
  let sv := scores v in
  let last := idx (k - 1) in
  let worst := if last =? NO_INDEX then NEG_HUGE else scores last in
  if fle sv worst && negb (last =? NO_INDEX) then idx
  else let '(ins, idx) := shift_down scores sv (Z.to_nat (k - 1)) idx in upd idx ins v.

Definition topk_sort (scores : Z -> F) (n k : Z) (idx : Z -> Z) : Z -> Z :=
  let idx := for_up (Z.to_nat k) 0 (fun i idx => upd idx i NO_INDEX) idx in
  for_up (Z.to_nat n) 0 (topk_insert scores k) idx.

(** The first largest element. *)
Definition argmax_step (logits : Z -> F) (v : Z) (b : Z * F) : Z * F := if flt b.2 (logits v) then (v, logits v) else b.
Definition argmax (logits : Z -> F) (n : Z) : Z := (for_up (Z.to_nat (n - 1)) 1 (argmax_step logits) (0, logits 0)).1.

(** [for (v = 0; v < n; v++) a[v] = g(v)] on a static array. *)
Definition fill_loop {T} (n : Z) (g : Z -> (Z -> T) -> T) (a : Z -> T) : Z -> T := for_up (Z.to_nat n) 0 (fun v a => upd a v (g v a)) a.
Definition total (probs : Z -> F) (n : Z) : F := for_up (Z.to_nat n) 0 (fun v sum => (sum + probs v)%float) f0.
Definition renormalise (probs : Z -> F) (n : Z) : Z -> F :=
  let sum := total probs n in
  if flt f0 sum then let inv_sum := (f1 / sum)%float in fill_loop n (fun v probs => (probs v * inv_sum)%float) probs else probs.

Definition softmax_probs (scfg : sample_config_t F) (logits : Z -> F) (n : Z) (probs : Z -> F) : Z -> F :=
  let inv_temp := (f1 / temperature scfg)%float in
  let max_l := for_up (Z.to_nat (n - 1)) 1 (fun v mx => if flt mx (logits v) then logits v else mx) (logits 0) in
  let probs := fill_loop n (fun v _ => ops_expf_approx ((logits v - max_l) * inv_temp)%float) probs in
  let inv_sum := (f1 / total probs n)%float in
  fill_loop n (fun v probs => (probs v * inv_sum)%float) probs.

Definition top_k_filter (scfg : sample_config_t F) (n : Z) (probs : Z -> F) (idx : Z -> Z) : (Z -> F) * (Z -> Z) :=
  if (0 <? top_k scfg) && (top_k scfg <? n) then
    let k := if top_k scfg <? 128 then top_k scfg else 128 in
    let idx := topk_sort probs n k idx in
    let keep := for_up (Z.to_nat k) 0 (fun i keep => if idx i =? NO_INDEX then keep else upd keep (idx i) true) (fun _ => false) in
    (renormalise (fill_loop n (fun v probs => if keep v then probs v else f0) probs) n, idx)
  else (probs, idx).

(** The probability at which the cumulated sum of the sorted tokens reaches
    [p]; the loop before it in the source computes nothing that is used. *)
Fixpoint nucleus_threshold (fuel : nat) (i : Z) (probs : Z -> F) (idx : Z -> Z) (p cumsum : F) : F :=
  match fuel with
  | O => f0
  | S fuel =>
      let v := idx i in
      if v =? NO_INDEX then f0
      else
        let cumsum := (cumsum + probs v)%float in
        if fle p cumsum then probs v else nucleus_threshold fuel (i + 1) probs idx p cumsum
  end.

Definition top_p_filter (scfg : sample_config_t F) (n : Z) (probs : Z -> F) (idx : Z -> Z) : Z -> F :=
  if flt f0 (top_p scfg) && flt (top_p scfg) f1 then
    let lim := if n <? 128 then n else 128 in
    let idx := topk_sort probs n lim idx in
    let thresh := nucleus_threshold (Z.to_nat lim) 0 probs idx (top_p scfg) f0 in
    renormalise (fill_loop n (fun v probs => if flt (probs v) thresh then f0 else probs v) probs) n
  else probs.

(** The first token at which the sum of the probabilities reaches [u]. *)
Fixpoint inverse_cdf (fuel : nat) (v : Z) (probs : Z -> F) (u cdf : F) : option Z :=
  match fuel with
  | O => None
  | S fuel => let cdf := (cdf + probs v)%float in if fle u cdf then Some v else inverse_cdf fuel (v + 1) probs u cdf
  end.
Fixpoint last_positive (fuel : nat) (probs : Z -> F) : Z :=
  match fuel with
  | O => 0
  | S v => if flt f0 (probs (Z.of_nat v)) then Z.of_nat v else last_positive v probs
  end.

Definition RNG_XOR : Z := 0xdeadbeefcafe1234.
Definition RNG_ZERO : Z := 0xc0ffee12345678.
Definition rng_float (state : Z) : F := (fofz (Z.shiftr (xorshift64 state) 11) * (f1 / fofz (2 ^ 53)))%float.
Definition seed_rng (scfg : sample_config_t F) : Z :=
  let rng := Z.lxor (rng_seed scfg) RNG_XOR in if rng =? 0 then RNG_ZERO else rng.

(** [probs0], [idx0]: what the static arrays hold from earlier calls; [None]
    for the null configuration. *)
Definition model_sample (logits : Z -> F) (vocab : Z) (scfg : option (sample_config_t F)) (probs0 : Z -> F) (idx0 : Z -> Z) : Z :=
  match scfg with
  | None => argmax logits vocab
  | Some scfg =>
      if feq (temperature scfg) f0 then argmax logits vocab
      else
        let n := if vocab <? 131072 then vocab else 131072 in
        let probs := softmax_probs scfg logits n probs0 in
        let '(probs, idx) := top_k_filter scfg n probs idx0 in
        let probs := top_p_filter scfg n probs idx in
        let u := rng_float (seed_rng scfg) in
        match inverse_cdf (Z.to_nat n) 0 probs u f0 with
        | Some v => v
        | None => last_positive (Z.to_nat n) probs
        end
  end.
End Model.

(** * Specification *)

(** ** Sampling *)

Section Sampling.
Context {F} `{FloatOps F}.
Implicit Types (sc logits probs : Z -> F) (idx : Z -> Z).

(** The comparisons order the elements, as they do when none is a NaN. *)
Record ordered sc (n : Z) : Prop := {
  ord_le a b : 0 <= a < n -> 0 <= b < n -> fle (sc a) (sc b) = negb (flt (sc b) (sc a));
  ord_irrefl a : 0 <= a < n -> flt (sc a) (sc a) = false;
  ord_trans a b c : 0 <= a < n -> 0 <= b < n -> 0 <= c < n -> flt (sc a) (sc b) = true -> flt (sc b) (sc c) = true -> flt (sc a) (sc c) = true;
  ord_cotrans a b c : 0 <= a < n -> 0 <= b < n -> 0 <= c < n -> flt (sc a) (sc b) = false -> flt (sc b) (sc c) = false -> flt (sc a) (sc c) = false;
}.

Lemma shift_down_ok sc sv ins idx :
  exists p idx', shift_down sc sv ins idx = (p, idx') /\ 0 <= p <= Z.of_nat ins /\
    (0 < p -> idx (p - 1) <> NO_INDEX /\ flt (sc (idx (p - 1))) sv = false) /\
    (forall j, p <= j < Z.of_nat ins -> idx j = NO_INDEX \/ flt (sc (idx j)) sv = true) /\
    (forall j, idx' j = if (p <? j) && (j <=? Z.of_nat ins) then idx (j - 1) else idx j).
Proof.
  revert idx. induction ins as [|i IH]; intros idx; cbn [shift_down].
  - exists 0, idx. split; [done|]. split; [lia|]. split; [lia|]. split; [lia|]. intros j. repeat zcase; cbn; done || lia.
  - destruct ((idx (Z.of_nat i) =? NO_INDEX) || flt (sc (idx (Z.of_nat i))) sv) eqn:E.
    + destruct (IH (upd idx (Z.of_nat (S i)) (idx (Z.of_nat i)))) as (p & idx' & -> & Hp & H1 & H2 & H3). exists p, idx'. split; [done|]. split; [lia|]. split; [|split].
      * intros Hpp. rewrite upd_ne in H1 by lia. auto.
      * intros j Hj. destruct (decide (j = Z.of_nat i)) as [->|].
        -- apply orb_true_iff in E as [E|E]; [left; lia | by right].
        -- specialize (H2 j ltac:(lia)). rewrite upd_ne in H2 by lia. done.
      * intros j. rewrite H3. destruct (decide (j = Z.of_nat (S i))) as [->|].
        -- rewrite upd_eq. repeat zcase; cbn; try lia. f_equal. lia.
        -- destruct (decide (j - 1 = Z.of_nat (S i))); [repeat zcase; cbn; try lia; rewrite upd_ne by lia; done|].
           rewrite !upd_ne by lia. repeat zcase; cbn; done || lia.
    + apply orb_false_iff in E as [E1 E2]. exists (Z.of_nat (S i)), idx. split; [done|]. split; [lia|]. split; [|split].
      * intros _. replace (Z.of_nat (S i) - 1) with (Z.of_nat i) by lia. split; [lia | done].
      * lia.
      * intros j. repeat zcase; cbn; done || lia.
Qed.

(** After the elements below [v]: the best [min k v] of them in order. *)
Record best sc (k v : Z) idx : Prop := {
  best_in i : 0 <= i < Z.min k v -> 0 <= idx i < v;
  best_free i : Z.min k v <= i < k -> idx i = NO_INDEX;
  best_inj i j : 0 <= i < j -> j < Z.min k v -> idx i <> idx j;
  best_sorted i j : 0 <= i < j -> j < Z.min k v -> flt (sc (idx i)) (sc (idx j)) = false;
  best_all u : 0 <= u < v -> (exists i, 0 <= i < Z.min k v /\ idx i = u) \/ (k <= v /\ forall i, 0 <= i < k -> flt (sc (idx i)) (sc u) = false);
}.

Lemma topk_insert_best sc n k v idx : ordered sc n -> 0 < k -> n <= NO_INDEX -> 0 <= v < n -> best sc k v idx -> best sc k (v + 1) (topk_insert sc k v idx).
Proof.
  intros Ho Hk Hn Hv [B1 B2 B3 B4 B5]. unfold topk_insert.
  destruct (fle (sc v) (if idx (k - 1) =? NO_INDEX then NEG_HUGE else sc (idx (k - 1))) && negb (idx (k - 1) =? NO_INDEX)) eqn:Efull.
  - apply andb_true_iff in Efull as [E1 E2]. destruct (Z.eqb_spec (idx (k - 1)) NO_INDEX) as [|Hne]; [done|].
    assert (k <= v) as Hkv. { destruct (Z.le_gt_cases k v) as [|Hlt]; [done|]. exfalso. apply Hne, B2. lia. }
    rewrite Z.min_l in * by lia. assert (flt (sc (idx (k - 1))) (sc v) = false) as Hlast.
    { rewrite (ord_le _ _ Ho) in E1 by (try apply B1; specialize (B1 (k - 1)); lia). by destruct (flt _ _). }
    split; rewrite ?Z.min_l by lia; auto.
    + intros i Hi. specialize (B1 i Hi). lia.
    + intros u Hu. destruct (decide (u = v)) as [->|]; [|destruct (B5 u ltac:(lia)) as [|[_ Hb]]; [by left | right; split; [lia | done]]].
      right. split; [lia|]. intros i Hi. destruct (decide (i = k - 1)) as [->|]; [done|].
      pose proof (B1 i Hi). pose proof (B1 (k - 1) ltac:(lia)). apply (ord_cotrans _ _ Ho _ (idx (k - 1))); try lia; [apply B4; lia | done].
  - destruct (shift_down_ok sc (sc v) (Z.to_nat (k - 1)) idx) as (p & idx' & -> & Hp & S1 & S2 & S3). rewrite Z2Nat.id in * by lia.
    assert (p <= Z.min k v) as Hpc.
    { destruct (Z.le_gt_cases p (Z.min k v)) as [|Hlt]; [done|]. exfalso. destruct (S1 ltac:(lia)) as [Hx _]. apply Hx, B2. lia. }
    assert (forall j, 0 <= j < k -> upd idx' p v j = if j <? p then idx j else if j =? p then v else idx (j - 1)) as E.
    { intros j Hj. destruct (decide (j = p)) as [->|]; [rewrite upd_eq; repeat zcase; done || lia|]. rewrite upd_ne, S3 by lia. repeat zcase; cbn; done || lia. }
    assert (forall j, p <= j < Z.min k v -> j < k - 1 -> flt (sc (idx j)) (sc v) = true) as Hlow.
    { intros j Hj Hjk. destruct (S2 j ltac:(lia)) as [Hx|]; [|done]. pose proof (B1 j ltac:(lia)). unfold NO_INDEX in *. lia. }
    assert (forall j, 0 <= j < p -> flt (sc (idx j)) (sc v) = false) as Hhigh.
    { intros j Hj. destruct (S1 ltac:(lia)) as [_ Hx]. destruct (decide (j = p - 1)) as [->|]; [done|].
      pose proof (B1 j ltac:(lia)). pose proof (B1 (p - 1) ltac:(lia)). apply (ord_cotrans _ _ Ho _ (idx (p - 1))); try lia; [apply B4; lia | done]. }
    assert (forall a b, 0 <= a < n -> 0 <= b < n -> flt (sc a) (sc b) = true -> flt (sc b) (sc a) = false) as Hasym.
    { intros a b Ha Hb Hab. destruct (flt (sc b) (sc a)) eqn:Hba; [|done]. rewrite <- (ord_irrefl _ _ Ho a Ha). symmetry. by apply (ord_trans _ _ Ho a b a). }
    split.
    + intros i Hi. rewrite E by lia. repeat zcase; [specialize (B1 i ltac:(lia)) | | specialize (B1 (i - 1) ltac:(lia))]; lia.
    + intros i Hi. rewrite E by lia. repeat zcase; try lia. apply B2. lia.
    + intros i j Hij Hj. rewrite !E by lia. repeat zcase; try lia; try (apply B3; lia).
      * specialize (B1 i ltac:(lia)). lia.
      * specialize (B1 (j - 1) ltac:(lia)). lia.
    + intros i j Hij Hj. rewrite !E by lia. repeat zcase; try lia; try (apply B4; lia).
      * apply Hhigh. lia.
      * apply Hasym; [specialize (B1 (j - 1) ltac:(lia)); lia | lia | apply Hlow; lia].
    + intros u Hu. destruct (decide (u = v)) as [->|].
      * destruct (decide (p < k)); [left; exists p; split; [lia|]; rewrite E by lia; repeat zcase; done || lia|]. lia.
      * destruct (B5 u ltac:(lia)) as [(i & Hi & <-)|[Hkv Hb]].
        -- destruct (decide (i < p)); [left; exists i; split; [lia|]; rewrite E by lia; repeat zcase; done || lia|].
           destruct (decide (i = k - 1)) as [->|]; [|left; exists (i + 1); split; [lia|]; rewrite E by lia; repeat zcase; try lia; f_equal; lia].
           right. split; [lia|]. pose proof (B1 (k - 1) ltac:(lia)). intros j Hj. rewrite E by lia. repeat zcase.
           ++ apply B4; lia.
           ++ subst j. apply andb_false_iff in Efull. destruct (Z.eqb_spec (idx (k - 1)) NO_INDEX) as [Hx|_]; [unfold NO_INDEX in *; lia|]. destruct Efull as [Hf|]; [|done].
              rewrite (ord_le _ _ Ho) in Hf by lia. apply Hasym; [lia | lia|]. by destruct (flt (sc (idx (k - 1))) (sc v)).
           ++ destruct (decide (j - 1 = k - 1)); [lia|]. apply B4; lia.
        -- right. split; [lia|]. intros j Hj. rewrite E by lia. repeat zcase; [apply Hb; lia | | apply Hb; lia].
           subst j. rewrite Z.min_l in * by lia. pose proof (B1 (k - 1) ltac:(lia)). apply (ord_cotrans _ _ Ho _ (idx (k - 1))); try lia; [|apply Hb; lia].
           apply andb_false_iff in Efull. destruct (Z.eqb_spec (idx (k - 1)) NO_INDEX) as [Hx|_]; [unfold NO_INDEX in *; lia|]. destruct Efull as [Hf|]; [|done].
           rewrite (ord_le _ _ Ho) in Hf by lia. apply Hasym; [lia | lia|]. by destruct (flt (sc (idx (k - 1))) (sc v)).
Qed.

Lemma topk_sort_best sc n k idx : ordered sc n -> 0 < k -> 0 <= n <= NO_INDEX -> best sc k n (topk_sort sc n k idx).
Proof.
  intros Ho Hk Hn. unfold topk_sort. set (idx1 := for_up (Z.to_nat k) 0 _ idx). assert (forall i, 0 <= i < k -> idx1 i = NO_INDEX) as E1.
  { intros i Hi. unfold idx1. rewrite for_up_fill. unfold fill. repeat zcase; cbn; done || lia. }
  pose proof (for_up_inv (fun v idx => best sc k v idx) (Z.to_nat n) 0 (topk_insert sc k) idx1) as HI. rewrite Z2Nat.id, Z.add_0_l in HI by lia. apply HI; clear HI.
  - split; intros; try lia. apply E1. lia.
  - intros v idx' Hv HB. apply (topk_insert_best sc n); [done | done | lia | done | done].
Qed.

(** The selection behind top-k and nucleus sampling is right whenever the
    scores compare as numbers do: of [n] scores it gives the [k] largest, or
    all of them when there are fewer, each once, in decreasing order, and
    marks the places left over. *)
Theorem topk_sort_correct sc n k idx : ordered sc n -> 0 < k -> 0 <= n < 2 ^ 32 ->
  let r := topk_sort sc n k idx in
  let c := Z.min k n in
  (forall i, 0 <= i < c -> 0 <= r i < n) /\ (forall i, c <= i < k -> r i = NO_INDEX) /\
  (forall i j, 0 <= i < j -> j < c -> r i <> r j /\ flt (sc (r i)) (sc (r j)) = false) /\
  (forall u, 0 <= u < n -> (forall i, 0 <= i < c -> r i <> u) -> forall i, 0 <= i < c -> flt (sc (r i)) (sc u) = false).
Proof.
  intros Ho Hk Hn r c. destruct (topk_sort_best sc n k idx Ho Hk) as [B1 B2 B3 B4 B5]; [unfold NO_INDEX; lia|]. fold r in B1, B2, B3, B4, B5.
  split; [done|]. split; [done|]. split; [intros i j Hij Hj; split; [by apply B3 | by apply B4]|].
  intros u Hu Hno i Hi. destruct (B5 u Hu) as [(j & Hj & E)|[_ Hb]]; [by destruct (Hno j Hj) | apply Hb; unfold c in Hi; lia].
Qed.

(** ** The sampled token *)

Lemma argmax_ok logits n : 0 < n ->
  let '(r, b) := for_up (Z.to_nat (n - 1)) 1 (argmax_step logits) (0, logits 0) in
  0 <= r < n /\ b = logits r /\ (ordered logits n -> (forall v, 0 <= v < n -> flt (logits r) (logits v) = false) /\ (forall v, 0 <= v < r -> flt (logits v) (logits r) = true)).
Proof.
  intros Hn. pose proof (for_up_inv (fun k '(r, b) => 0 <= r < k /\ b = logits r /\ (ordered logits n ->
    (forall v, 0 <= v < k -> flt (logits r) (logits v) = false) /\ (forall v, 0 <= v < r -> flt (logits v) (logits r) = true)))
    (Z.to_nat (n - 1)) 1 (argmax_step logits) (0, logits 0)) as HI. rewrite Z2Nat.id in HI by lia. replace (1 + (n - 1)) with n in HI by lia. apply HI; clear HI.
  - split; [lia|]. split; [done|]. intros Ho. split; [|lia]. intros v Hv. replace v with 0 by lia. apply (ord_irrefl _ _ Ho). lia.
  - intros k [r b] Hk (Hr & -> & Ha). unfold argmax_step. cbn [snd]. destruct (flt (logits r) (logits k)) eqn:E.
    + split; [lia|]. split; [done|]. intros Ho. destruct (Ha Ho) as [A1 A2].
      assert (forall v, 0 <= v < k -> flt (logits v) (logits k) = true) as Hbelow.
      { intros v Hv. destruct (flt (logits v) (logits k)) eqn:Ev; [done|]. rewrite <- E. symmetry. apply (ord_cotrans _ _ Ho r v k); try lia; [apply A1; lia | done]. }
      split; [|done]. intros v Hv. destruct (decide (v = k)) as [->|]; [apply (ord_irrefl _ _ Ho); lia|].
      destruct (flt (logits k) (logits v)) eqn:Ev; [|done]. rewrite <- (ord_irrefl _ _ Ho v) by lia. symmetry. apply (ord_trans _ _ Ho v k v); try lia; [apply Hbelow; lia | done].
    + split; [lia|]. split; [done|]. intros Ho. destruct (Ha Ho) as [A1 A2]. split; [|done]. intros v Hv. destruct (decide (v = k)) as [->|]; [done | apply A1; lia].
Qed.

Lemma inverse_cdf_range fuel v probs u cdf r : inverse_cdf fuel v probs u cdf = Some r -> v <= r < v + Z.of_nat fuel.
Proof.
  revert v cdf. induction fuel as [|fuel IH]; intros v cdf; cbn [inverse_cdf]; [done|]. destruct (fle _ _); [intros [= <-]; lia|]. intros E%IH. lia.
Qed.
Lemma last_positive_range n probs : 0 < Z.of_nat n -> 0 <= last_positive n probs < Z.of_nat n.
Proof.
  induction n as [|n IH]; intros Hn; cbn [last_positive]; [lia|]. destruct (flt _ _); [lia|]. destruct n as [|n]; [cbn; lia | lia].
Qed.

Lemma argmax_range logits n : 0 < n -> 0 <= argmax logits n < n.
Proof. intros Hn. pose proof (argmax_ok logits n Hn) as Ha. unfold argmax. destruct (for_up _ _ _ _) as [r b]. by destruct Ha. Qed.

Lemma model_sample_range logits vocab scfg probs0 idx0 : 0 < vocab -> 0 <= model_sample logits vocab scfg probs0 idx0 < vocab.
Proof.
  intros Hv. unfold model_sample. destruct scfg as [c|]; [|by apply argmax_range]. destruct (feq _ _); [by apply argmax_range|].
  set (n := if vocab <? 131072 then vocab else 131072). assert (0 < n <= vocab) as Hn by (unfold n; repeat zcase; lia).
  destruct (top_k_filter _ _ _ _) as [p i]. destruct (inverse_cdf _ _ _ _ _) as [r|] eqn:E.
  - apply inverse_cdf_range in E. rewrite Z2Nat.id in E by lia. lia.
  - pose proof (last_positive_range (Z.to_nat n) (top_p_filter c n p i)). lia.
Qed.

(** The next token is always one of the vocabulary, whatever the logits
    are; without a temperature it is the first of those with the largest
    logit. *)
Theorem model_sample_correct logits vocab scfg probs0 idx0 : 0 < vocab < 2 ^ 32 ->
  let r := model_sample logits vocab scfg probs0 idx0 in
  0 <= r < vocab /\
  (match scfg with None => true | Some c => feq (temperature c) f0 end = true -> ordered logits vocab ->
    (forall v, 0 <= v < vocab -> flt (logits r) (logits v) = false) /\ (forall v, 0 <= v < r -> flt (logits v) (logits r) = true)).
Proof.
  intros Hv r. split; [apply model_sample_range; lia|]. intros Ht Ho.
  assert (r = argmax logits vocab) as -> by (unfold r, model_sample; destruct scfg as [c|]; [by rewrite Ht | done]).
  pose proof (argmax_ok logits vocab ltac:(lia)) as Ha. unfold argmax. destruct (for_up _ _ _ _) as [x b]. destruct Ha as (_ & _ & H2). by apply H2.
Qed.
End Sampling.

(** ** The forward step *)

Section Forward.
Context {F} `{FloatOps F} {A : Type} `{ArenaSpec A} (ft : simd_features_t) (x_buf y_buf : Z).
Implicit Types (m : fmem F) (s : A) (md : aios_model_t) (cfg : model_config_t F).

(** Normalisation of a vector, in either style. *)
Definition normf (a : model_arch_t) (eps : F) (D : Z) (w b x : Z -> F) (i : Z) : F :=
  match a with
  | MODEL_ARCH_LLAMA => let ss := (sum_loop D (fun i => x i * x i) / fofz D)%float in (x i * (f1 / fm_sqrt (ss + eps)) * w i)%float
  | MODEL_ARCH_GPT2 =>
      let mean := (sum_loop D x / fofz D)%float in
      let var := (sum_loop D (fun i => square (x i - mean)) / fofz D)%float in
      ((x i - mean) * (f1 / fm_sqrt (var + eps)) * w i + b i)%float
  end.

(** The two static vectors, apart from all that the heap hands out; weights
    and logits apart from them. *)
Record statics_ok s (D : Z) : Prop := {
  st_x : inside s (x_buf, MAX_EMBD);
  st_y : inside s (y_buf, MAX_EMBD);
  st_sep : sep x_buf MAX_EMBD y_buf MAX_EMBD;
  st_dim : 0 < D <= MAX_EMBD;
}.

Lemma live_range s p n i : inside s (p, n) -> 0 <= i < n -> live_at s (p + 4 * i).
Proof. intros (r & Hr & Ha & Hb) Hi. cbn in Ha, Hb. exists r. split; [done | lia]. Qed.

Lemma inside_live s s' b : ar_live s' = ar_live s -> inside s b -> inside s' b.
Proof. unfold inside. by intros ->. Qed.

Lemma copy_ok dst src n k m : 0 <= n <= k -> sep dst k src k -> let m' := model_memcpy_f dst src n m in
  (forall i, 0 <= i < n -> ld m' dst i = ld m src i) /\ same_but dst n m m'.
Proof.
  intros Hn Hs. apply (store_loop_ok n dst (fun i m => ld m src i) m); [lia|]. intros i m' Hi Hsb. unfold ld, sep in *. apply Hsb. lia.
Qed.

Lemma run_block_fails cfg md pos l s m : ar_inv s -> 0 <= mc_n_embd cfg <= MAX_EMBD -> ffn_hidden (m_blocks md l) = 0 ->
  exists s' m', run_block ft x_buf y_buf cfg md pos l s m (m_kvc md) = Some (s', m', m_kvc md) /\ ar_inv s' /\ ar_live s' = ar_live s /\ (forall a, live_at s a -> m' a = m a).
Proof.
  intros Hi Hd Hf. unfold run_block, MAX_EMBD in *. destruct (kvc_ptr md =? 0); [by exists s, m|].
  destruct (block_without_ffn ft (m_blocks md l) (attn_config cfg) x_buf y_buf (m_kvc md) (s32 l) (s32 pos) s m Hi) as (s2 & m2 & -> & I2 & L2 & F2); [|done|by exists s2, m2].
  cbn. rewrite s32_small by lia. lia.
Qed.

(** The layers of a model whose blocks have no feed-forward size: each fails,
    and its output vector, which nothing has written, becomes the state. *)
Lemma layers_fail cfg md pos s m : ar_inv s -> statics_ok s (mc_n_embd cfg) -> (forall l, ffn_hidden (m_blocks md l) = 0) ->
  exists s' m', for_opt (Z.to_nat (mc_n_layers cfg)) 0 (layer_step ft x_buf y_buf cfg md pos) (s, m, m_kvc md) = Some (s', m', m_kvc md) /\ ar_inv s' /\ ar_live s' = ar_live s /\
    (forall a, live_at s a -> ~ (x_buf <= a < x_buf + 4 * mc_n_embd cfg) -> m' a = m a) /\
    (0 < mc_n_layers cfg -> forall i, 0 <= i < mc_n_embd cfg -> ld m' x_buf i = ld m y_buf i).
Proof.
  intros Hi [Hx Hy Hs Hd] Hf. set (D := mc_n_embd cfg) in *. unfold MAX_EMBD in *.
  destruct (for_opt_inv (fun l '(s', m', kvc) => kvc = m_kvc md /\ ar_inv s' /\ ar_live s' = ar_live s /\
    (forall a, live_at s a -> ~ (x_buf <= a < x_buf + 4 * D) -> m' a = m a) /\ (0 < l -> forall i, 0 <= i < D -> ld m' x_buf i = ld m y_buf i))
    (Z.to_nat (mc_n_layers cfg)) 0 (layer_step ft x_buf y_buf cfg md pos) (s, m, m_kvc md)) as ([[s' m'] kvc] & E & -> & I & L & Hm & Hv).
  - split; [done|]. split; [done|]. split; [done|]. split; [done | lia].
  - intros l [[s1 m1] kvc] Hl (-> & I1 & L1 & F1 & _). unfold layer_step. cbv beta iota.
    destruct (run_block_fails cfg md pos l s1 m1 I1) as (s2 & m2 & E & I2 & L2 & F2); [fold D; unfold MAX_EMBD; lia | done|].
    cbn [fst snd]. rewrite E. clear E. rewrite L1 in L2. assert (forall a, live_at s a -> m2 a = m1 a) as F2' by (intros a Ha; apply F2; unfold live_at in *; by rewrite L1). clear F2. rename F2' into F2.
    cbn. eexists (s2, _, _). split; [done|]. destruct (copy_ok x_buf y_buf D 4096 m2) as [C1 C2]; [lia | done|]. fold D in C1, C2 |- *.
    split; [done|]. split; [done|]. split; [done|]. split.
    + intros a Ha Hna. rewrite C2 by done. rewrite F2 by done. by apply F1.
    + intros _ i Hii. rewrite C1 by done. pose proof (live_range s y_buf 4096 i Hy ltac:(lia)) as Hl'. unfold ld. rewrite F2 by done. apply F1; [done|]. unfold sep in Hs. lia.
  - exists s', m'. split; [done|]. split; [done|]. split; [done|]. split; [done|]. intros Hn. apply Hv. lia.
Qed.

Lemma embed_frame cfg md tok pos m : 0 <= mc_n_embd cfg -> same_but x_buf (mc_n_embd cfg) m (embed x_buf cfg md tok pos m).
Proof.
  intros Hd. unfold embed, model_memcpy_f. assert (forall g m, same_but x_buf (mc_n_embd cfg) m (store_loop (mc_n_embd cfg) x_buf g m)) as Hst.
  { intros g m1 a Ha. unfold store_loop. apply (for_up_inv (fun k m' => m' a = m1 a)); [done|]. intros k m2 Hk E. unfold st. rewrite upd_ne by lia. done. }
  destruct (_ && _); [|apply Hst]. eapply same_but_trans; apply Hst.
Qed.

Lemma final_norm_ok cfg md m (D := mc_n_embd cfg) : 0 < D <= MAX_EMBD -> sep (t_data (ln_f_w md)) D x_buf D -> sep (t_data (ln_f_b md)) D x_buf D ->
  filled x_buf (normf (arch cfg) (layer_norm_eps cfg) D (ld m (t_data (ln_f_w md))) (ld m (t_data (ln_f_b md))) (ld m x_buf)) D m (final_norm x_buf cfg md m).
Proof.
  intros Hd Hw Hb. unfold MAX_EMBD in Hd. unfold final_norm. fold D. unfold ops_rms_norm, ops_layer_norm, simd_rms_norm_f32, simd_layer_norm_f32. cbn [shape1 t_data t_numel]. rewrite s32_small, u64_small by lia.
  unfold sep in *. destruct (arch cfg) eqn:Ea; cbn [bool_decide decide_rel]; (case_bool_decide as Hc; [try done | try done]); apply store_loop_ok; try lia; intros i m' Hi Hs; unfold normf, ld; rewrite !Hs by lia; done.
Qed.

Lemma project_ok cfg md logits m (D := mc_n_embd cfg) : 0 < D -> 0 <= vocab_size cfg -> sep (t_data (lm_head md)) (vocab_size cfg * D) logits (vocab_size cfg) -> sep x_buf D logits (vocab_size cfg) ->
  filled logits (fun v => dotf D (fun i => ld m (t_data (lm_head md)) (v * D + i)) (ld m x_buf)) (vocab_size cfg) m (project x_buf cfg md logits m).
Proof.
  intros Hd Hv Hw Hx. unfold project. fold D. unfold sep in *.
  assert (forall v m', dot_loop (Z.to_nat D) 0 (t_data (lm_head md) + 4 * (v * D)) x_buf f0 m' = dotf D (fun i => ld m' (t_data (lm_head md)) (v * D + i)) (ld m' x_buf)) as Edot.
  { intros v m'. rewrite dot_loop_dotf by lia. apply dotf_ext. intros k Hk. split; [|done]. unfold ld. f_equal. lia. }
  destruct (store_loop_ok (vocab_size cfg) logits (fun v m => dot_loop (Z.to_nat D) 0 (t_data (lm_head md) + 4 * (v * D)) x_buf f0 m) m) as [V1 V2]; [done | |].
  - intros v m' Hvv Hs. rewrite !Edot. apply dotf_ext. intros k Hk. split; unfold ld; apply Hs; nia.
  - split; [|done]. intros v Hvv. by rewrite V1, Edot.
Qed.

(** The step with blocks that fail: the hidden state is what [y] held. *)
Lemma model_forward_const cfg md token pos logits s m (D := mc_n_embd cfg) :
  ar_inv s -> statics_ok s D -> (forall l, ffn_hidden (m_blocks md l) = 0) -> 0 < mc_n_layers cfg ->
  0 <= token < vocab_size cfg -> 0 <= pos < mc_max_seq_len cfg -> logits <> 0 ->
  Forall (fun b => inside s b /\ sepb b (x_buf, MAX_EMBD)) [(t_data (ln_f_w md), D); (t_data (ln_f_b md), D); (t_data (lm_head md), vocab_size cfg * D); (logits, vocab_size cfg)] ->
  sep (t_data (lm_head md)) (vocab_size cfg * D) logits (vocab_size cfg) ->
  exists s' m' md', model_forward ft x_buf y_buf md cfg token pos logits s m = Some (0, s', m', md') /\ ar_inv s' /\ ar_live s' = ar_live s /\
    (forall a, live_at s a -> ~ (x_buf <= a < x_buf + 4 * D) -> ~ (logits <= a < logits + 4 * vocab_size cfg) -> m' a = m a) /\
    forall v, 0 <= v < vocab_size cfg -> ld m' logits v = dotf D (fun i => ld m (t_data (lm_head md)) (v * D + i))
      (normf (arch cfg) (layer_norm_eps cfg) D (ld m (t_data (ln_f_w md))) (ld m (t_data (ln_f_b md))) (ld m y_buf)).
Proof.
  intros Hi Hst Hf Hn Ht Hp Hl Hin Hll. pose proof Hst as [Hx Hy Hs Hd]. unfold MAX_EMBD in *.
  apply Forall_cons in Hin as [[Iw Sw] Hin]. apply Forall_cons in Hin as [[Ib Sb] Hin]. apply Forall_cons in Hin as [[Ih Sh] Hin]. apply Forall_cons in Hin as [[Il Sl] _].
  unfold model_forward. rewrite (proj2 (Z.eqb_neq logits 0)), !(proj2 (Z.leb_gt _ _)), (proj2 (Z.ltb_ge MAX_EMBD _)) by (unfold MAX_EMBD; lia). fold D in Hst |- *.
  pose proof (embed_frame cfg md token pos m ltac:(lia)) as Ee. set (m1 := embed _ _ _ _ _ m) in *.
  destruct (layers_fail cfg md pos s m1 Hi Hst Hf) as (s2 & m2 & -> & I2 & L2 & F2 & V2). cbn [mbind option_bind]. fold D in F2, V2, Ee. specialize (V2 Hn).
  unfold sepb, sep in Sw, Sb, Sh, Sl. cbn in Sw, Sb, Sh, Sl.
  destruct (final_norm_ok cfg md m2) as [N1 N2]; [done | unfold sep; fold D; lia | unfold sep; fold D; lia|]. fold D in N1, N2. set (m3 := final_norm _ _ _ m2) in *.
  destruct (project_ok cfg md logits m3) as [P1 P2]; [lia | lia | done | unfold sep; fold D; lia|]. fold D in P1, P2. set (m4 := project _ _ _ _ m3) in *.
  assert (forall a, live_at s a -> ~ (x_buf <= a < x_buf + 4 * D) -> m3 a = m a) as F3 by (intros a Ha Hno; rewrite N2, F2, Ee by done; done).
  eexists s2, m4, _. split; [done|]. split; [done|]. split; [done|]. split.
  - intros a Ha Hx' Hl'. rewrite P2 by done. by apply F3.
  - intros v Hv. rewrite P1 by done. apply dotf_ext. intros k Hk. split.
    + unfold ld. apply F3; [apply (live_range s _ (vocab_size cfg * D)); [done | nia] | nia].
    + rewrite N1 by done.
      assert (forall w, inside s (w, D) -> (w + 4 * D <= x_buf \/ x_buf + 4 * 4096 <= w) -> forall i, 0 <= i < D -> ld m2 w i = ld m w i) as Hw.
      { intros w Hwi Hws i Hii. unfold ld. rewrite F2, Ee; [done | lia | by apply (live_range s _ D) | lia]. }
      assert (forall i, 0 <= i < D -> ld m2 x_buf i = ld m y_buf i) as Hy'.
      { intros i Hii. rewrite V2 by done. unfold ld, sep in *. apply Ee. lia. }
      assert (forall g g' : Z -> F, (forall i, 0 <= i < D -> g i = g' i) -> sum_loop D g = sum_loop D g') as Hsum.
      { intros g g' Hg. unfold sum_loop. apply for_up_ext. intros i acc Hii. rewrite Hg by lia. done. }
      unfold normf. destruct (arch cfg); rewrite (Hw _ Iw ltac:(lia) k Hk), ?(Hw _ Ib ltac:(lia) k Hk), (Hy' k Hk).
      * rewrite (Hsum (ld m2 x_buf) (ld m y_buf)) by done.
        rewrite (Hsum (fun i => square (ld m2 x_buf i - sum_loop D (ld m y_buf) / fofz D)%float) (fun i => square (ld m y_buf i - sum_loop D (ld m y_buf) / fofz D)%float)); [done|]. intros i Hii. by rewrite Hy'.
      * rewrite (Hsum _ (fun i => (ld m y_buf i * ld m y_buf i)%float)); [done|]. intros i Hii. by rewrite Hy'.
Qed.
(** A defect, and its consequence.  The blocks of a model are zeroed when
    it is allocated and the loader does not set their feed-forward size, so
    every block fails; the result is not looked at, and the vector the block
    should have filled, which is still zero, becomes the hidden state.  The
    logits are therefore those of the zero vector: the same for every token at
    every position, whatever the weights of the layers. *)
Theorem model_forward_ignores_token cfg md tok1 pos1 tok2 pos2 logits s m (D := mc_n_embd cfg) :
  ar_inv s -> statics_ok s D -> (forall l, ffn_hidden (m_blocks md l) = 0) -> 0 < mc_n_layers cfg ->
  0 <= tok1 < vocab_size cfg -> 0 <= pos1 < mc_max_seq_len cfg -> 0 <= tok2 < vocab_size cfg -> 0 <= pos2 < mc_max_seq_len cfg -> logits <> 0 ->
  Forall (fun b => inside s b /\ sepb b (x_buf, MAX_EMBD)) [(t_data (ln_f_w md), D); (t_data (ln_f_b md), D); (t_data (lm_head md), vocab_size cfg * D); (logits, vocab_size cfg)] ->
  sep (t_data (lm_head md)) (vocab_size cfg * D) logits (vocab_size cfg) ->
  exists s1 m1 md1 s2 m2 md2,
    model_forward ft x_buf y_buf md cfg tok1 pos1 logits s m = Some (0, s1, m1, md1) /\
    model_forward ft x_buf y_buf md cfg tok2 pos2 logits s m = Some (0, s2, m2, md2) /\
    ar_live s1 = ar_live s /\ ar_live s2 = ar_live s /\ forall v, 0 <= v < vocab_size cfg -> ld m1 logits v = ld m2 logits v.
Proof.
  intros Hi Hst Hf Hn Ht1 Hp1 Ht2 Hp2 Hl Hin Hll.
  destruct (model_forward_const cfg md tok1 pos1 logits s m) as (s1 & m1 & md1 & E1 & _ & L1 & _ & V1); try done.
  destruct (model_forward_const cfg md tok2 pos2 logits s m) as (s2 & m2 & md2 & E2 & _ & L2 & _ & V2); try done.
  exists s1, m1, md1, s2, m2, md2. do 4 (split; [done|]). intros v Hv. by rewrite V1, V2.
Qed.
End Forward.

(** ** Allocation *)

Section Allocation.
Context {F} `{FloatOps F} {A : Type} `{ArenaSpec A}.
Implicit Types (m : fmem F) (s : A) (md : aios_model_t) (cfg : model_config_t F).

(** A zeroed buffer. *)
Lemma alloc_buf_zero n s m : ar_inv s -> 0 <= n < 2 ^ 28 ->
  exists p s' m', alloc_buf n s m = Some (p, s', m') /\ ar_inv s' /\
    (p = 0 /\ ar_live s' = ar_live s /\ m' = m \/
     0 < p /\ ar_live s' = (p, n * 4) :: ar_live s /\ Forall (disjoint_regions (p, n * 4)) (ar_live s) /\ filled p (fun _ => f0) n m m').
Proof.
  intros Hi Hn. destruct (alloc_buf_ok n s m Hi Hn) as (p & s' & m' & E & I & [Hp|(Hp & L & D & S)]); exists p, s', m'; (split; [done|]); (split; [done|]); [by left|].
  right. split; [done|]. split; [done|]. split; [done|]. split; [|done]. unfold alloc_buf in E. destruct (Z.eqb_spec n 0) as [->|]; [intros; lia|].
  destruct (ar_alloc true (u64 (n * 4)) s) as [[q s2]|]; [|done]. cbn in E. injection E as -> <- <-. rewrite (proj2 (Z.eqb_neq p 0)) by lia.
  destruct (store_loop_ok n p (fun _ _ => f0) m) as [V _]; [lia | done | exact V].
Qed.

Definition cache_slots (cfg : attn_config_t) : Z := n_layers cfg * n_kv_heads cfg * max_seq_len cfg * Z.quot (n_embd cfg) (n_heads cfg).

Lemma kvcache_alloc_ok (cfg : attn_config_t) s m : ar_inv s -> n_heads cfg <> 0 -> 0 <= cache_slots cfg < 2 ^ 28 ->
  exists r s' m', kvcache_alloc cfg s m = Some (r, s', m') /\ ar_inv s' /\
    match r with
    | None => ar_live s' = ar_live s /\ forall a, live_at s a -> m' a = m a
    | Some (p, kvc) =>
        kvc = mk_kvc (kv_k kvc) (kv_v kvc) (Z.quot (n_embd cfg) (n_heads cfg)) (n_layers cfg) (n_kv_heads cfg) (max_seq_len cfg) 0 /\
        0 < p /\ (forall i, 0 <= i < cache_slots cfg -> ld m' (kv_k kvc) i = f0 /\ ld m' (kv_v kvc) i = f0) /\ (forall a, live_at s a -> m' a = m a) /\
        0 < kv_k kvc /\ 0 < kv_v kvc /\
        ar_live s' = (kv_v kvc, cache_slots cfg * 4) :: (kv_k kvc, cache_slots cfg * 4) :: (p, SIZEOF_KV_CACHE) :: ar_live s
    end.
Proof.
  intros Hi Hh Hs. unfold kvcache_alloc. rewrite (proj2 (Z.eqb_neq _ _) Hh). fold (cache_slots cfg). set (n := cache_slots cfg) in *. rewrite u64_small by lia.
  destruct (ar_alloc_ok false SIZEOF_KV_CACHE s Hi ltac:(unfold SIZEOF_KV_CACHE; lia)) as (p & s1 & -> & I1 & Hp). cbn [mbind option_bind].
  destruct (Z.eqb_spec p 0) as [->|Hp0]; [destruct Hp as [[_ L1]|(? & _)]; [|lia]; by exists None, s1, m|]. destruct Hp as [[? _]|(Hpp & L1 & _ & D1)]; [done|].
  destruct (alloc_buf_zero n s1 m I1 Hs) as (k & s2 & m2 & -> & I2 & Hk). cbn [mbind option_bind].
  destruct (alloc_buf_zero n s2 m2 I2 Hs) as (v & s3 & m3 & -> & I3 & Hv). cbn [mbind option_bind].
  assert (forall q l b (mm mm' : fmem F), 0 < q -> Forall (disjoint_regions (q, n * 4)) l -> same_but q n mm mm' -> In b l -> forall a, b.1 <= a < b.1 + b.2 -> mm' a = mm a) as Hfr.
  { intros q l b mm mm' _ Hd Hsb Hb a Ha. apply Hsb. rewrite Forall_forall in Hd. apply list_elem_of_In in Hb. specialize (Hd b Hb). unfold disjoint_regions in Hd. cbn in Hd. lia. }
  assert (forall a, live_at s a -> m2 a = m a) as Hm2.
  { intros a (r & Hr & Ha). destruct Hk as [(_ & _ & ->)|(Hk & _ & Dk & _ & Sk)]; [done|]. apply (Hfr k (ar_live s1) r m m2 Hk Dk Sk); [rewrite L1; by right | done]. }
  assert (forall a, live_at s a -> m3 a = m2 a) as Hm3.
  { intros a (r & Hr & Ha). destruct Hv as [(_ & _ & ->)|(Hv & _ & Dv & _ & Sv)]; [done|]. apply (Hfr v (ar_live s2) r m2 m3 Hv Dv Sv); [|done].
    destruct Hk as [(_ & -> & _)|(_ & -> & _)]; rewrite L1; cbn; auto. }
  destruct ((k =? 0) || (v =? 0)) eqn:Ez.
  - set (kb := if k =? 0 then [] else [(k, n * 4)]). set (vb := if v =? 0 then [] else [(v, n * 4)]).
    assert (ar_live s3 = vb ++ kb ++ (p, SIZEOF_KV_CACHE) :: ar_live s) as L3.
    { unfold vb, kb. destruct Hv as [(-> & -> & _)|(Hv & -> & _)]; destruct Hk as [(-> & -> & _)|(Hk & -> & _)]; rewrite L1; repeat zcase; cbn; done || lia. }
    assert (exists s4, free_buf k s3 = Some s4 /\ ar_inv s4 /\ ar_live s4 = vb ++ (p, SIZEOF_KV_CACHE) :: ar_live s) as (s4 & -> & I4 & L4).
    { unfold free_buf, kb in *. destruct (k =? 0); [by exists s3|]. by apply (ar_free_ok true k (n * 4) vb _ s3). }
    cbn [mbind option_bind]. assert (exists s5, free_buf v s4 = Some s5 /\ ar_inv s5 /\ ar_live s5 = (p, SIZEOF_KV_CACHE) :: ar_live s) as (s5 & -> & I5 & L5).
    { unfold free_buf, vb in *. destruct (v =? 0); [by exists s4|]. by apply (ar_free_ok true v (n * 4) [] _ s4). }
    cbn [mbind option_bind]. destruct (ar_free_ok false p SIZEOF_KV_CACHE [] (ar_live s) s5 I5 L5) as (s6 & -> & I6 & L6). cbn [mbind option_bind].
    exists None, s6, m3. split; [done|]. split; [done|]. split; [done|]. intros a Ha. by rewrite Hm3, Hm2.
  - apply orb_false_iff in Ez as [Ek Ev]. destruct Hk as [(-> & _)|(Hk & L2 & Dk & Vk & Sk)]; [done|]. destruct Hv as [(-> & _)|(Hv & L3 & Dv & Vv & Sv)]; [done|].
    eexists (Some (p, _)), s3, m3. split; [done|]. split; [done|]. cbn [kv_k kv_v]. split; [done|]. split; [done|]. split.
    + intros i Hii. split; [|by apply Vv]. transitivity (ld m2 k i); [|by apply Vk]. unfold ld.
      apply (Hfr v (ar_live s2) (k, n * 4) m2 m3 Hv Dv Sv); [rewrite L2; by left | cbn; lia].
    + split; [intros a Ha; by rewrite Hm3, Hm2|]. split; [done|]. split; [done|]. by rewrite L3, L2, L1.
Qed.

(** What a model owns: the cache, the blocks, its structure. *)
Definition model_owns cfg (p : Z) md : list (Z * Z) :=
  let n := cache_slots (attn_config cfg) * 4 in
  [(kv_v (m_kvc md), n); (kv_k (m_kvc md), n); (kvc_ptr md, SIZEOF_KV_CACHE); (blocks_ptr md, SIZEOF_BLOCK * mc_n_layers cfg); (p, SIZEOF_MODEL)].

Lemma model_free_ok cfg p md l1 l2 s : ar_inv s -> Forall (fun r => r.1 <> 0) (model_owns cfg p md) -> ar_live s = l1 ++ model_owns cfg p md ++ l2 ->
  exists s', model_free p md s = Some s' /\ ar_inv s' /\ ar_live s' = l1 ++ l2.
Proof.
  intros Hi Hz L. repeat (apply Forall_cons in Hz as [?%Z.eqb_neq Hz]; cbn [fst] in *). unfold model_free, kvcache_free, free_buf.
  repeat match goal with H : (_ =? 0) = false |- _ => rewrite H; clear H end. cbn [model_owns Datatypes.app] in L. set (n := cache_slots _ * 4) in L.
  destruct (ar_free_ok true _ _ (l1 ++ [_]) _ s Hi ltac:(rewrite <- app_assoc; exact L)) as (s1 & -> & I1 & L1). cbn [mbind option_bind]. rewrite <- app_assoc in L1. cbn [Datatypes.app] in L1.
  destruct (ar_free_ok true _ _ l1 _ s1 I1 L1) as (s2 & -> & I2 & L2). cbn [mbind option_bind].
  destruct (ar_free_ok false _ _ l1 _ s2 I2 L2) as (s3 & -> & I3 & L3). cbn [mbind option_bind].
  destruct (ar_free_ok false _ _ l1 _ s3 I3 L3) as (s4 & -> & I4 & L4). cbn [mbind option_bind]. apply (ar_free_ok false _ _ l1 _ s4 I4 L4).
Qed.

Lemma model_alloc_ok cfg s m (ac := attn_config cfg) :
  ar_inv s -> n_heads ac <> 0 -> 0 <= cache_slots ac < 2 ^ 28 -> 0 <= mc_n_layers cfg ->
  exists r s' m', model_alloc cfg s m = Some (r, s', m') /\ ar_inv s' /\ (forall a, live_at s a -> m' a = m a) /\
    match r with
    | None => ar_live s' = ar_live s
    | Some (p, md) =>
        0 < p /\ mc_n_embd cfg <= MAX_EMBD /\ mc_n_layers cfg <= MAX_LAYERS /\
        (forall l, m_blocks md l = no_block) /\ wte md = no_tensor /\ wpe md = no_tensor /\ ln_f_w md = no_tensor /\ ln_f_b md = no_tensor /\ lm_head md = no_tensor /\
        kv_cur_len (m_kvc md) = 0 /\ slots (m_kvc md) = cache_slots ac /\
        (forall i, 0 <= i < cache_slots ac -> ld m' (kv_k (m_kvc md)) i = f0 /\ ld m' (kv_v (m_kvc md)) i = f0) /\
        Forall (fun r => r.1 <> 0) (model_owns cfg p md) /\ ar_live s' = model_owns cfg p md ++ ar_live s
    end.
Proof.
  intros Hi Hh Hs Hl. unfold model_alloc. destruct (Z.ltb_spec MAX_EMBD (mc_n_embd cfg)) as [|He]; [by exists None, s, m|].
  destruct (Z.ltb_spec MAX_LAYERS (mc_n_layers cfg)) as [|Hly]; [by exists None, s, m|]. unfold MAX_LAYERS in Hly.
  destruct (ar_alloc_ok false SIZEOF_MODEL s Hi ltac:(unfold SIZEOF_MODEL; lia)) as (p & s1 & -> & I1 & Hp). cbn [mbind option_bind].
  destruct (Z.eqb_spec p 0) as [->|Hp0]; [destruct Hp as [[_ L1]|(? & _)]; [|lia]; by exists None, s1, m|]. destruct Hp as [[? _]|(Hpp & L1 & _ & D1)]; [done|].
  destruct (ar_alloc_ok false (SIZEOF_BLOCK * mc_n_layers cfg) s1 I1 ltac:(unfold SIZEOF_BLOCK; lia)) as (b & s2 & -> & I2 & Hb). cbn [mbind option_bind].
  destruct (Z.eqb_spec b 0) as [->|Hb0].
  { destruct Hb as [[_ L2]|(? & _)]; [|lia]. rewrite L1 in L2. destruct (ar_free_ok false p SIZEOF_MODEL [] (ar_live s) s2 I2 L2) as (s3 & -> & I3 & L3). by exists None, s3, m. }
  destruct Hb as [[? _]|(Hbp & L2 & _ & D2)]; [done|]. rewrite L1 in L2.
  destruct (kvcache_alloc_ok ac s2 m I2 Hh Hs) as (r & s3 & m3 & Ek & I3 & Hr). fold ac. rewrite Ek. cbn [mbind option_bind].
  assert (forall a, live_at s a -> live_at s2 a) as Hlive by (intros a (x & Hx & Ha); exists x; split; [rewrite L2; cbn; auto | done]).
  destruct r as [[kp kvc]|].
  - destruct Hr as (Ekv & Hkp & Hz & Hm & Hk & Hv & L3). exists (Some (p, mk_model no_tensor no_tensor b (fun _ => no_block) no_tensor no_tensor no_tensor kp kvc)), s3, m3.
    split; [done|]. split; [done|]. split; [intros a Ha; by apply Hm, Hlive|]. cbn [m_blocks m_kvc wte wpe ln_f_w ln_f_b lm_head]. do 9 (split; [done|]). split; [by rewrite Ekv|].
    split; [unfold slots, cache_slots; rewrite Ekv; cbn; lia|]. split; [done|].
    split; [|unfold model_owns; cbn [m_kvc kvc_ptr blocks_ptr]; by rewrite L3, L2].
    repeat constructor; cbn; lia.
  - destruct Hr as [L3 Hm]. rewrite L2 in L3. destruct (ar_free_ok false b _ [] _ s3 I3 L3) as (s4 & -> & I4 & L4). cbn [mbind option_bind Datatypes.app] in *.
    destruct (ar_free_ok false p _ [] _ s4 I4 L4) as (s5 & -> & I5 & L5). cbn [mbind option_bind Datatypes.app] in *.
    exists None, s5, m3. split; [done|]. split; [done|]. split; [intros a Ha; by apply Hm, Hlive | done].
Qed.

(** A model is allocated whole or not at all: with its structure, its
    zeroed blocks and a zeroed cache of the configuration's shape, which
    [model_free] gives back to the last byte; or, when any of the five
    allocations fails or the configuration is too large, nothing is kept. *)
Theorem model_alloc_correct cfg s m (ac := attn_config cfg) :
  ar_inv s -> n_heads ac <> 0 -> 0 <= cache_slots ac < 2 ^ 28 -> 0 <= mc_n_layers cfg ->
  exists r s' m', model_alloc cfg s m = Some (r, s', m') /\ ar_inv s' /\ (forall a, live_at s a -> m' a = m a) /\
    match r with
    | None => ar_live s' = ar_live s
    | Some (p, md) =>
        0 < p /\ mc_n_embd cfg <= MAX_EMBD /\ mc_n_layers cfg <= MAX_LAYERS /\
        (forall l, m_blocks md l = no_block) /\ wte md = no_tensor /\ lm_head md = no_tensor /\
        kv_cur_len (m_kvc md) = 0 /\ slots (m_kvc md) = cache_slots ac /\
        (forall i, 0 <= i < cache_slots ac -> ld m' (kv_k (m_kvc md)) i = f0 /\ ld m' (kv_v (m_kvc md)) i = f0) /\
        exists s'', model_free p md s' = Some s'' /\ ar_inv s'' /\ ar_live s'' = ar_live s
    end.
Proof.
  intros Hi Hh Hs Hl. destruct (model_alloc_ok cfg s m Hi Hh Hs Hl) as (r & s' & m' & E & I & M & Hr). exists r, s', m'. do 3 (split; [done|]).
  destruct r as [[p md]|]; [|done]. destruct Hr as (? & ? & ? & ? & ? & _ & _ & _ & ? & ? & ? & ? & Hz & L). do 9 (split; [done|]).
  apply (model_free_ok cfg p md [] (ar_live s) s' I Hz L).
Qed.
End Allocation.

(** ** Witnesses *)

#[local] Existing Instance b32.

Definition demo_scores : Z -> spec_float := fun i => b32_of_z (if i =? 1 then 7 else if i =? 3 then 5 else 2).
Definition demo_greedy : sample_config_t spec_float := mk_sample_config f0 0 f1 0.

Lemma four_cases (P : Z -> Prop) : P 0 -> P 1 -> P 2 -> P 3 -> forall a, 0 <= a < 4 -> P a.
Proof. intros P0 P1 P2 P3 a Ha. assert (a = 0 \/ a = 1 \/ a = 2 \/ a = 3) as [->|[->|[->| ->]]] by lia; done. Qed.

Lemma demo_scores_ordered : ordered demo_scores 4.
Proof.
  split.
  - intros a b Ha Hb. revert a Ha b Hb. do 2 refine (four_cases _ _ _ _ _); vm_compute; reflexivity.
  - refine (four_cases _ _ _ _ _); vm_compute; reflexivity.
  - intros a b c Ha Hb Hc. revert a Ha b Hb c Hc. do 3 refine (four_cases _ _ _ _ _); vm_compute; congruence.
  - intros a b c Ha Hb Hc. revert a Ha b Hb c Hc. do 3 refine (four_cases _ _ _ _ _); vm_compute; congruence.
Qed.

Lemma topk_sort_correct_witness : topk_sort demo_scores 4 2 (fun _ => 0) 0 <> topk_sort demo_scores 4 2 (fun _ => 0) 1.
Proof.
  destruct (topk_sort_correct demo_scores 4 2 (fun _ => 0) demo_scores_ordered) as (_ & _ & H & _); [lia | lia|].
  destruct (H 0 1) as [Hn _]; [lia | lia | exact Hn].
Defined.

(** Greedy: the second token has the largest logit. *)
Lemma model_sample_correct_witness : 0 <= model_sample demo_scores 4 (Some demo_greedy) (fun _ => f0) (fun _ => 0) < 4 /\ flt (demo_scores (model_sample demo_scores 4 (Some demo_greedy) (fun _ => f0) (fun _ => 0))) (demo_scores 1) = false.
Proof.
  destruct (model_sample_correct demo_scores 4 (Some demo_greedy) (fun _ => f0) (fun _ => 0)) as [H1 H2]; [lia|].
  split; [exact H1|]. destruct H2 as [H3 _]; [vm_compute; reflexivity | exact demo_scores_ordered|]. apply H3. lia.
Defined.

(** Two layers, three tokens, vectors of two floats. *)
Definition demo_model_cfg : model_config_t spec_float := mk_model_config MODEL_ARCH_GPT2 3 2 2 1 1 8 4 (fdec 1 (- 5)) false.
Definition demo_block : transformer_block_t := mk_block 8 8 8 8 8 8 8 8 8 8 8 8 8 8 8 8 8 0 0.
Definition demo_weights (p n : Z) : tensor_t := mk_tensor p (fun _ => n) 1 n.
Definition demo_model : aios_model_t := mk_model (demo_weights 64 6) no_tensor 8 (fun _ => demo_block) (demo_weights 128 2) (demo_weights 160 2) (demo_weights 192 6) 8 demo_cache.
Definition demo_model_arena : bump := mk_bump 65536 131072 [(64, 900); (1024, 16384); (20480, 16384)].

Lemma demo_model_inv : ar_inv demo_model_arena.
Proof. split; [cbn; lia|]. split; [repeat constructor; cbn; set_solver | repeat constructor; cbn; lia]. Qed.

(** The first and the last token get the same logits. *)
Lemma model_forward_ignores_token_witness : exists s1 m1 md1 s2 m2 md2,
  model_forward avx_features 1024 20480 demo_model demo_model_cfg 0 0 320 demo_model_arena demo_floats = Some (0, s1, m1, md1) /\
  model_forward avx_features 1024 20480 demo_model demo_model_cfg 2 3 320 demo_model_arena demo_floats = Some (0, s2, m2, md2) /\ ld m1 320 1 = ld m2 320 1.
Proof.
  destruct (model_forward_ignores_token avx_features 1024 20480 demo_model_cfg demo_model 0 0 2 3 320 demo_model_arena demo_floats) as (s1 & m1 & md1 & s2 & m2 & md2 & E1 & E2 & _ & _ & Hv).
  - exact demo_model_inv.
  - split; [exists (1024, 16384) | exists (20480, 16384) | |]; cbn; try lia; try (split; [auto 10 | unfold MAX_EMBD; lia]); unfold sep, MAX_EMBD; lia.
  - reflexivity.
  - cbn; lia.
  - cbn; lia.
  - cbn; lia.
  - cbn; lia.
  - cbn; lia.
  - lia.
  - repeat (apply Forall_cons; split; [split; [exists (64, 900); cbn; split; [auto | lia] | unfold sepb, sep, MAX_EMBD; cbn; lia]|]). apply Forall_nil; exact I.
  - unfold sep. cbn. lia.
  - exists s1, m1, md1, s2, m2, md2. split; [exact E1|]. split; [exact E2|]. apply Hv. cbn. lia.
Defined.

Lemma model_alloc_correct_witness : exists p md s' m' s'', model_alloc demo_model_cfg demo_model_arena demo_floats = Some (Some (p, md), s', m') /\
  model_free p md s' = Some s'' /\ ar_live s'' = ar_live demo_model_arena.
Proof.
  destruct (model_alloc_correct demo_model_cfg demo_model_arena demo_floats) as (r & s' & m' & E & _ & _ & Hr); [exact demo_model_inv | vm_compute; discriminate | vm_compute; split; [discriminate | reflexivity] | cbn; lia|].
  assert (match model_alloc demo_model_cfg demo_model_arena demo_floats with Some (Some _, _, _) => true | _ => false end = true) as E0 by (vm_compute; reflexivity). rewrite E in E0.
  destruct r as [[p md]|]; [|discriminate]. destruct Hr as (_ & _ & _ & _ & _ & _ & _ & _ & _ & s'' & Ef & _ & L). exists p, md, s', m', s''. split; [exact E|]. split; [exact Ef | exact L].
Defined.
