(* ===== verification/Gguf.v ===== *)
(** The weight file (kernel/llm/loader.c, the part that reads bytes): the
    cursor, the metadata, the entries of the tensors, half-precision numbers
    and the dequantisation of blocks.  The file is a function from offsets to
    bytes; what lies behind its last byte is whatever memory holds there.

    The weight file: half-precision numbers keep their value, what a writer of
    the format puts down is what the loader reads, dequantisation writes
    exactly the tensor's numbers, and a file on which the loader never stops. *)

From Stdlib Require Import Floats.SpecFloat.
From S2P Require Import Prelude Memory Float Quant.
Local Open Scope Z_scope.

Definition GGUF_MAGIC : Z := 0x46554747.
Definition GGUF_VER_MIN : Z := 2.
Definition GGUF_VER_MAX : Z := 3.
Definition GGUF_ALIGN : Z := 32.
Definition MAX_TENSOR_NAME : Z := 128.
Definition MAX_TENSOR_DIMS : Z := 4.
Definition MAX_TENSORS : Z := 512.
Definition Q4K_BLOCK_SIZE : Z := 256.
Definition Q4K_BYTES_PER_BLK : Z := 144.
Definition Q80_BLOCK_SIZE : Z := 32.
Definition Q80_BYTES_PER_BLK : Z := 34.
Definition GGML_TYPE_F32 : Z := 0.
Definition GGML_TYPE_F16 : Z := 1.
Definition GGML_TYPE_Q8_0 : Z := 8.
Definition GGML_TYPE_Q4_K : Z := 12.

(** *** Half precision *)

(** [while (!(mantissa & 0x400)) { mantissa <<= 1; exponent--; }], at most ten
    times for a mantissa that is not zero. *)
Fixpoint normalise (fuel : nat) (mantissa exponent : Z) : Z * Z :=
  match fuel with
  | O => (mantissa, exponent)
  | S fuel => if Z.land mantissa 0x400 =? 0 then normalise fuel (u32 (Z.shiftl mantissa 1)) (u32 (exponent - 1)) else (mantissa, exponent)
  end.

(** The bits of the result. *)
Definition f16_bits (h : Z) : Z :=
  let sign := Z.shiftl (Z.shiftr h 15) 31 in
  let exponent := Z.land (Z.shiftr h 10) 0x1F in
  let mantissa := Z.land h 0x3FF in
  if (exponent =? 0) && (mantissa =? 0) then sign
  else if exponent =? 31 then Z.lor (Z.lor sign 0x7F800000) (Z.shiftl mantissa 13)
  else
    let '(mantissa, exponent) :=
      if exponent =? 0 then let '(mt, e) := normalise 10 mantissa 1 in (Z.land mt 0x3FF, e) else (mantissa, exponent) in
    Z.lor (Z.lor sign (u32 (Z.shiftl (u32 (exponent + 112)) 23))) (Z.shiftl mantissa 13).

(** *** The cursor *)

Record cursor_t := mk_cursor { c_size : Z; c_pos : Z }.

Definition cur_ok (c : cursor_t) (need : Z) : bool := u64 (c_pos c + need) <=? c_size c.
Definition cur_skip (n : Z) (c : cursor_t) : cursor_t := mk_cursor (c_size c) (u64 (c_pos c + n)).
Definition cur_u32 (b : mem) (c : cursor_t) : Z * cursor_t := (load32 b (c_pos c), cur_skip 4 c).
Definition cur_u64 (b : mem) (c : cursor_t) : Z * cursor_t := (load64 b (c_pos c), cur_skip 8 c).
Definition cur_align (a : Z) (c : cursor_t) : cursor_t :=
  let rem := c_pos c mod a in if rem =? 0 then c else cur_skip (a - rem) c.

(** *** Metadata *)

Definition skip_fixed (n : Z) (c : cursor_t) : bool * cursor_t := if cur_ok c n then (true, cur_skip n c) else (false, c).

Definition skip_string (b : mem) (c : cursor_t) : bool * cursor_t :=
  if negb (cur_ok c 8) then (false, c)
  else let '(len, c) := cur_u64 b c in skip_fixed len c.

(** The elements of an array; [None] when one of them does not return. *)
Fixpoint skip_elements (skip : cursor_t -> option (bool * cursor_t)) (n : nat) (c : cursor_t) : option (bool * cursor_t) :=
  match n with
  | O => Some (true, c)
  | S n => '(ok, c) ← skip c; if ok : bool then skip_elements skip n c else Some (false, c)
  end.

(** [fuel] bounds the depth of arrays in arrays. *)
Fixpoint skip_meta_value (fuel : nat) (b : mem) (vtype : Z) (c : cursor_t) : option (bool * cursor_t) :=
  match fuel with
  | O => None
  | S fuel =>
      if vtype <=? 1 then Some (skip_fixed 1 c)
      else if vtype <=? 3 then Some (skip_fixed 2 c)
      else if vtype <=? 7 then Some (skip_fixed 4 c)
      else if vtype =? 8 then Some (skip_string b c)
      else if vtype =? 9 then
        if negb (cur_ok c 12) then Some (false, c)
        else
          let '(etype, c) := cur_u32 b c in
          let '(cnt, c) := cur_u64 b c in
          skip_elements (skip_meta_value fuel b etype) (Z.to_nat cnt) c
      else if vtype <=? 12 then Some (skip_fixed 8 c)
      else Some (false, c)
  end.

(** One key and its value. *)
Definition skip_pair (fuel : nat) (b : mem) (c : cursor_t) : option (bool * cursor_t) :=
  let '(ok, c) := skip_string b c in
  if negb ok || negb (cur_ok c 4) then Some (false, c)
  else let '(vtype, c) := cur_u32 b c in skip_meta_value fuel b vtype c.

(** *** The header *)

Inductive loader_err_t : Type :=
  LOADER_OK | LOADER_ERR_NOT_FOUND | LOADER_ERR_BAD_MAGIC | LOADER_ERR_BAD_VER | LOADER_ERR_OOM | LOADER_ERR_BAD_TENSOR | LOADER_ERR_MISMATCH | LOADER_ERR_IO.
#[export] Instance loader_err_eq_dec : EqDecision loader_err_t.
Proof. solve_decision. Defined.

(** Up to the metadata's end; [None] when the skipping does not return. *)
Definition read_header (fuel : nat) (b : mem) (size : Z) : option (loader_err_t + Z * Z * cursor_t) :=
  let c := mk_cursor size 0 in
  if negb (cur_ok c 4) then Some (inl LOADER_ERR_BAD_MAGIC)
  else
    let '(magic, c) := cur_u32 b c in
    if negb (magic =? GGUF_MAGIC) then Some (inl LOADER_ERR_BAD_MAGIC)
    else
      let '(version, c) := cur_u32 b c in
      if (version <? GGUF_VER_MIN) || (GGUF_VER_MAX <? version) then Some (inl LOADER_ERR_BAD_VER)
      else
        let '(n_tensors, c) := cur_u64 b c in
        let '(n_kv, c) := cur_u64 b c in
        '(ok, c) ← skip_elements (skip_pair fuel b) (Z.to_nat n_kv) c;
        Some (if ok : bool then inr (version, n_tensors, c) else inl LOADER_ERR_IO).

(** *** Entries of tensors *)

(** The name up to its terminating NUL. *)
Record tinfo_t := mk_tinfo { ti_name : list Z; ti_n_elem : Z; ti_type : Z; ti_raw_offset : Z; ti_raw_bytes : Z }.

Definition tensor_bytes (type ne : Z) : Z :=
  if type =? GGML_TYPE_F32 then u64 (ne * 4)
  else if type =? GGML_TYPE_F16 then u64 (ne * 2)
  else if type =? GGML_TYPE_Q8_0 then u64 (ne / Q80_BLOCK_SIZE * Q80_BYTES_PER_BLK)
  else if type =? GGML_TYPE_Q4_K then u64 (ne / Q4K_BLOCK_SIZE * Q4K_BYTES_PER_BLK)
  else 0.

(** The product of the dimensions, modulo 2^64. *)
Fixpoint read_dims (n : nat) (b : mem) (ne : Z) (c : cursor_t) : option (Z * cursor_t) :=
  match n with
  | O => Some (ne, c)
  | S n => if negb (cur_ok c 8) then None else let '(d, c) := cur_u64 b c in read_dims n b (u64 (ne * d)) c
  end.

(** [None]: the entry is refused. *)
Definition read_tensor (b : mem) (c : cursor_t) : option (tinfo_t * cursor_t) :=
  if negb (cur_ok c 8) then None
  else
    let '(nlen, c) := cur_u64 b c in
    if (MAX_TENSOR_NAME <=? nlen) || negb (cur_ok c nlen) then None
    else
      let name := bytes_at b (c_pos c) nlen in
      let c := cur_skip nlen c in
      if negb (cur_ok c 4) then None
      else
        let '(n_dims, c) := cur_u32 b c in
        if MAX_TENSOR_DIMS <? n_dims then None
        else
          '(ne, c) ← read_dims (Z.to_nat n_dims) b 1 c;
          if negb (cur_ok c 4) then None
          else
            let '(type, c) := cur_u32 b c in
            if negb (cur_ok c 8) then None
            else
              let '(off, c) := cur_u64 b c in
              Some (mk_tinfo name ne type off (tensor_bytes type ne), c).

(** The entries in order, and the floats they need together. *)
Fixpoint read_tensors (n : nat) (b : mem) (arena_floats : Z) (c : cursor_t) : option (list tinfo_t * Z * cursor_t) :=
  match n with
  | O => Some ([], arena_floats, c)
  | S n =>
      '(ti, c) ← read_tensor b c;
      '(tis, arena_floats, c) ← read_tensors n b (u64 (arena_floats + ti_n_elem ti)) c;
      Some (ti :: tis, arena_floats, c)
  end.

(** *** Dequantisation *)

Section Dequant.
Context {F} `{FloatOps F}.
Implicit Types m : fmem F.

Definition f16_to_f32 (h : Z) : F := fofbits (f16_bits h).

Definition copy_f32 (b : mem) (src dst raw_bytes : Z) m : fmem F := store_loop (raw_bytes / 4) dst (fun i _ => fofbits (load32 b (src + 4 * i))) m.

Definition dequant_f16 (b : mem) (src dst n_elem : Z) m : fmem F := store_loop n_elem dst (fun i _ => f16_to_f32 (load16 b (src + 2 * i))) m.

Definition dequant_q8_0 (b : mem) (src dst n_elem : Z) m : fmem F :=
  for_up (Z.to_nat (n_elem / Q80_BLOCK_SIZE)) 0 (fun k m =>
    let blk := src + k * Q80_BYTES_PER_BLK in
    let d := f16_to_f32 (load16 b blk) in
    store_loop Q80_BLOCK_SIZE (dst + 4 * (k * Q80_BLOCK_SIZE)) (fun i _ => (d * fofz (s8 (b (blk + 2 + i)%Z)))%float) m) m.

(** The 6-bit scales and minima of the eight parts of a block, packed into
    twelve bytes. *)
Definition q4k_scales (b : mem) (sc i : Z) : Z :=
  if i <? 4 then Z.land (b (sc + i)) 0x3F
  else Z.lor (Z.land (b (sc + i + 4)) 0x0F) (Z.shiftl (Z.shiftr (b (sc + i - 4)) 6) 4).
Definition q4k_mins (b : mem) (sc i : Z) : Z :=
  if i <? 4 then Z.land (b (sc + i + 4)) 0x3F
  else Z.lor (Z.shiftr (b (sc + i + 4)) 4) (Z.shiftl (Z.shiftr (b (sc + i)) 6) 4).

Definition dequant_part (b : mem) (q o : Z) (sc_f min_f : F) m : fmem F :=
  for_up 16 0 (fun j m =>
    let m := st m o (j * 2) (sc_f * fofz (Z.land (b (q + j)%Z) 0x0F) - min_f)%float in
    st m o (j * 2 + 1) (sc_f * fofz (Z.shiftr (b (q + j)%Z) 4) - min_f)%float) m.

Definition dequant_q4_k (b : mem) (src dst n_elem : Z) m : fmem F :=
  for_up (Z.to_nat (n_elem / Q4K_BLOCK_SIZE)) 0 (fun k m =>
    let blk := src + k * Q4K_BYTES_PER_BLK in
    let d := f16_to_f32 (load16 b blk) in
    let dmin := f16_to_f32 (load16 b (blk + 2)) in
    for_up 8 0 (fun s m =>
      dequant_part b (blk + 16 + s * 16) (dst + 4 * (k * Q4K_BLOCK_SIZE + s * 32))
        (d * fofz (q4k_scales b (blk + 4) s))%float (dmin * fofz (q4k_mins b (blk + 4) s))%float m) m) m.

(** The tensor's data at offset [src] into the floats at [dst]; no other type
    has bytes. *)
Definition dequant (b : mem) (ti : tinfo_t) (src dst : Z) m : fmem F :=
  if ti_type ti =? GGML_TYPE_F32 then copy_f32 b src dst (ti_raw_bytes ti) m
  else if ti_type ti =? GGML_TYPE_F16 then dequant_f16 b src dst (ti_n_elem ti) m
  else if ti_type ti =? GGML_TYPE_Q8_0 then dequant_q8_0 b src dst (ti_n_elem ti) m
  else dequant_q4_k b src dst (ti_n_elem ti) m.
End Dequant.

(** * Specification *)

(** ** What the format says *)

Notation len l := (Z.of_nat (length l)).

Definition encode_string (s : list Z) : list Z := le_bytes 8 (len s) ++ s.

(** A value of the metadata: a number by its type and bytes, a string, or an
    array of values of one type. *)
Inductive meta : Type := MFixed (t : Z) (d : list Z) | MString (s : list Z) | MArray (t : Z) (vs : list meta).

Definition meta_type (v : meta) : Z := match v with MFixed t _ => t | MString _ => 8 | MArray _ _ => 9 end.
Fixpoint encode_meta (v : meta) : list Z :=
  match v with
  | MFixed _ d => d
  | MString s => encode_string s
  | MArray t vs => le_bytes 4 t ++ le_bytes 8 (len vs) ++ concat (map encode_meta vs)
  end.
Fixpoint meta_depth (v : meta) : nat := match v with MArray _ vs => S (foldr (fun v => Nat.max (meta_depth v)) O vs) | _ => 1%nat end.

(** The bytes of a number. *)
Definition fixed_width (t : Z) : Z := if t <=? 1 then 1 else if t <=? 3 then 2 else if t <=? 7 then 4 else 8.
Definition fixed_type (t : Z) : Prop := 0 <= t <= 12 /\ t <> 8 /\ t <> 9.
Fixpoint meta_ok (v : meta) : Prop :=
  match v with
  | MFixed t d => fixed_type t /\ len d = fixed_width t
  | MString s => True
  | MArray t vs => 0 <= t < 2 ^ 32 /\ foldr (fun v P => meta_type v = t /\ meta_ok v /\ P) True vs
  end.

(** The cursor of a file of [size] bytes, at [pos]. *)
Lemma cur_ok_in size pos n : 0 <= pos -> 0 <= n -> pos + n <= size < 2 ^ 63 -> cur_ok (mk_cursor size pos) n = true.
Proof. intros. unfold cur_ok. cbn. rewrite u64_small by lia. lia. Qed.
Lemma cur_skip_in size pos n : 0 <= pos -> 0 <= n -> pos + n <= size < 2 ^ 63 -> cur_skip n (mk_cursor size pos) = mk_cursor size (pos + n).
Proof. intros. unfold cur_skip. cbn. by rewrite u64_small by lia. Qed.
Lemma cur_u32_in b size pos v r : seg b pos (le_bytes 4 v ++ r) -> 0 <= v < 2 ^ 32 -> 0 <= pos -> pos + 4 <= size < 2 ^ 63 ->
  cur_u32 b (mk_cursor size pos) = (v, mk_cursor size (pos + 4)).
Proof.
  intros [Hs _]%seg_app Hv H1 H2. unfold cur_u32. cbn [c_pos]. rewrite cur_skip_in by lia. unfold load32. rewrite (load_le_seg _ _ _ _ Hs).
  f_equal. apply Z.mod_small. lia.
Qed.
Lemma cur_u64_in b size pos v r : seg b pos (le_bytes 8 v ++ r) -> 0 <= v < 2 ^ 64 -> 0 <= pos -> pos + 8 <= size < 2 ^ 63 ->
  cur_u64 b (mk_cursor size pos) = (v, mk_cursor size (pos + 8)).
Proof.
  intros [Hs _]%seg_app Hv H1 H2. unfold cur_u64. cbn [c_pos]. rewrite cur_skip_in by lia. unfold load64. rewrite (load_le_seg _ _ _ _ Hs).
  f_equal. apply Z.mod_small. lia.
Qed.
Lemma seg_skip b pos n v r : seg b pos (le_bytes n v ++ r) -> seg b (pos + Z.of_nat n) r.
Proof. intros [_ Hs]%seg_app. by rewrite le_bytes_length in Hs. Qed.

Ltac cur := repeat first [rewrite cur_ok_in by lia | rewrite cur_skip_in by lia]; cbn [negb].

Lemma skip_fixed_ok size pos n : 0 <= pos -> 0 <= n -> pos + n <= size < 2 ^ 63 -> skip_fixed n (mk_cursor size pos) = (true, mk_cursor size (pos + n)).
Proof. intros. unfold skip_fixed. by cur. Qed.

Lemma skip_string_ok b size pos s r : seg b pos (encode_string s ++ r) -> 0 <= pos -> pos + len (encode_string s) <= size < 2 ^ 63 ->
  skip_string b (mk_cursor size pos) = (true, mk_cursor size (pos + len (encode_string s))).
Proof.
  unfold encode_string. rewrite <- app_assoc, length_app, le_bytes_length. intros Hs Hp Hl. unfold skip_string. cur.
  rewrite (cur_u64_in _ _ _ _ _ Hs) by lia. rewrite skip_fixed_ok by lia. do 2 f_equal. lia.
Qed.

(** A list of encoded things, skipped one by one. *)
Lemma skip_elements_ok {T} (enc : T -> list Z) (skip : cursor_t -> option (bool * cursor_t)) b size l pos r :
  (forall x pos r, x ∈ l -> seg b pos (enc x ++ r) -> 0 <= pos -> pos + len (enc x) <= size -> skip (mk_cursor size pos) = Some (true, mk_cursor size (pos + len (enc x)))) ->
  seg b pos (concat (map enc l) ++ r) -> 0 <= pos -> pos + len (concat (map enc l)) <= size ->
  skip_elements skip (length l) (mk_cursor size pos) = Some (true, mk_cursor size (pos + len (concat (map enc l)))).
Proof.
  revert pos. induction l as [|x l IH]; intros pos Hx Hs Hp Hl; cbn [length skip_elements map concat] in *; [by rewrite Z.add_0_r|].
  rewrite <- app_assoc in Hs. rewrite length_app in *. rewrite (Hx x pos _ ltac:(by left) Hs) by lia. cbn [mbind option_bind].
  rewrite IH; [do 3 f_equal; lia | | by apply seg_app in Hs as [_ Hs] | lia..]. intros y q r' Hy. apply Hx. by right.
Qed.

Lemma meta_nonempty v : meta_ok v -> 1 <= len (encode_meta v).
Proof.
  destruct v as [t d|s|t vs]; cbn [encode_meta meta_ok]; unfold encode_string.
  - intros [_ ->]. unfold fixed_width. repeat zcase; lia.
  - rewrite length_app, le_bytes_length. lia.
  - rewrite !length_app, !le_bytes_length. lia.
Qed.

Lemma concat_length_ge {T} (enc : T -> list Z) l : (forall x, x ∈ l -> 1 <= len (enc x)) -> len l <= len (concat (map enc l)).
Proof.
  induction l as [|x l IH]; intros Hx; cbn [length map concat]; [lia|]. rewrite length_app.
  pose proof (Hx x ltac:(by left)). specialize (IH ltac:(intros; apply Hx; by right)). lia.
Qed.

Lemma array_elements t vs : foldr (fun v P => meta_type v = t /\ meta_ok v /\ P) True vs -> forall v, v ∈ vs -> meta_type v = t /\ meta_ok v.
Proof. induction vs as [|w vs IH]; cbn [foldr]; intros Hf v Hv; [by inv Hv|]. destruct Hf as (H1 & H2 & H3). inv Hv; [done | by apply IH]. Qed.
Lemma array_depth vs v : v ∈ vs -> (meta_depth v <= foldr (fun v => Nat.max (meta_depth v)) O vs)%nat.
Proof. induction 1; cbn [foldr]; lia. Qed.

(** Skipping a value moves the cursor exactly behind it, for any nesting. *)
Lemma skip_meta_value_ok fuel b size : size < 2 ^ 63 -> forall v pos r, meta_ok v -> (meta_depth v <= fuel)%nat -> seg b pos (encode_meta v ++ r) -> 0 <= pos ->
  pos + len (encode_meta v) <= size -> skip_meta_value fuel b (meta_type v) (mk_cursor size pos) = Some (true, mk_cursor size (pos + len (encode_meta v))).
Proof.
  intros Hz. induction fuel as [|fuel IH]; intros v pos r Hv Hd Hs Hp Hl; [destruct v; cbn in Hd; lia|].
  cbn [skip_meta_value]. destruct v as [t d|s|t vs]; cbn [meta_type encode_meta meta_ok meta_depth] in *.
  - destruct Hv as [(Ht & H8 & H9) Hw]. revert Hw. unfold fixed_width. repeat zcase; intros Hw; try lia; by rewrite Hw, skip_fixed_ok by lia.
  - change (8 <=? 1) with false. change (8 <=? 3) with false. change (8 <=? 7) with false. change (8 =? 8) with true. cbn match.
    by rewrite (skip_string_ok _ _ _ _ _ Hs) by lia.
  - change (9 <=? 1) with false. change (9 <=? 3) with false. change (9 <=? 7) with false. change (9 =? 8) with false. change (9 =? 9) with true. cbn match.
    destruct Hv as [Ht Hf]. rewrite <- !app_assoc in Hs. rewrite !length_app, !le_bytes_length in *. cur.
    rewrite (cur_u32_in _ _ _ _ _ Hs) by lia. apply seg_skip in Hs.
    assert (len vs <= len (concat (map encode_meta vs))) by (apply concat_length_ge; intros v' Hv'; apply meta_nonempty; eapply array_elements; eauto).
    rewrite (cur_u64_in _ _ _ _ _ Hs) by lia. apply seg_skip in Hs. rewrite Nat2Z.id. rewrite (skip_elements_ok encode_meta _ b size vs _ r); [do 3 f_equal; lia | | exact Hs | lia..].
    intros v' q r' Hv' Hs' Hq Hl'. destruct (array_elements _ _ Hf _ Hv') as [<- Hok]. apply (IH v' q r'); try done.
    pose proof (array_depth _ _ Hv'). lia.
Qed.

(** Entries of tensors. *)
Record gtensor := mk_gtensor { g_name : list Z; g_dims : list Z; g_type : Z; g_offset : Z }.
Definition encode_tensor (t : gtensor) : list Z :=
  encode_string (g_name t) ++ le_bytes 4 (len (g_dims t)) ++ concat (map (le_bytes 8) (g_dims t)) ++ le_bytes 4 (g_type t) ++ le_bytes 8 (g_offset t).
Definition tensor_ok (t : gtensor) : Prop :=
  len (g_name t) < MAX_TENSOR_NAME /\ len (g_dims t) <= MAX_TENSOR_DIMS /\ Forall (fun d => 0 <= d < 2 ^ 64) (g_dims t) /\
  0 <= g_type t < 2 ^ 32 /\ 0 <= g_offset t < 2 ^ 64.
#[export] Instance tensor_ok_dec t : Decision (tensor_ok t).
Proof. unfold tensor_ok. apply _. Defined.
Definition elements (t : gtensor) : Z := fold_left (fun ne d => u64 (ne * d)) (g_dims t) 1.
Definition tinfo_of (t : gtensor) : tinfo_t := mk_tinfo (g_name t) (elements t) (g_type t) (g_offset t) (tensor_bytes (g_type t) (elements t)).
Definition floats_of (ts : list gtensor) (a : Z) : Z := fold_left (fun a t => u64 (a + elements t)) ts a.

Lemma read_dims_ok b size dims ne pos r : Forall (fun d => 0 <= d < 2 ^ 64) dims -> seg b pos (concat (map (le_bytes 8) dims) ++ r) -> 0 <= pos ->
  pos + len (concat (map (le_bytes 8) dims)) <= size < 2 ^ 63 ->
  read_dims (length dims) b ne (mk_cursor size pos) = Some (fold_left (fun ne d => u64 (ne * d)) dims ne, mk_cursor size (pos + len (concat (map (le_bytes 8) dims)))).
Proof.
  revert ne pos. induction dims as [|d dims IH]; intros ne pos Hd Hs Hp Hl; cbn [length read_dims map concat fold_left] in *; [by rewrite Z.add_0_r|].
  apply Forall_cons in Hd as [Hd Hds]. rewrite <- app_assoc in Hs. rewrite length_app, le_bytes_length in *. cur.
  rewrite (cur_u64_in _ _ _ _ _ Hs) by lia. apply seg_skip in Hs. rewrite IH by (done || lia). do 3 f_equal. lia.
Qed.

Lemma read_tensor_ok b size t pos r : tensor_ok t -> seg b pos (encode_tensor t ++ r) -> 0 <= pos -> pos + len (encode_tensor t) <= size < 2 ^ 63 ->
  read_tensor b (mk_cursor size pos) = Some (tinfo_of t, mk_cursor size (pos + len (encode_tensor t))).
Proof.
  intros (Hn & Hd & Hds & Ht & Ho) Hs Hp. unfold encode_tensor, encode_string in *. rewrite <- !app_assoc in Hs. rewrite !length_app, !le_bytes_length. intros Hl.
  unfold read_tensor. cur. rewrite (cur_u64_in _ _ _ _ _ Hs) by (unfold MAX_TENSOR_NAME in Hn; lia). apply seg_skip in Hs. apply seg_app in Hs as [Hname Hs].
  rewrite cur_ok_in by lia. zcase; [lia|]. cbn [orb negb]. cur. rewrite (cur_u32_in _ _ _ _ _ Hs) by (unfold MAX_TENSOR_DIMS in Hd; lia). apply seg_skip in Hs.
  zcase; [lia|]. rewrite Nat2Z.id. rewrite (read_dims_ok _ _ _ _ _ _ Hds Hs) by lia. cbn [mbind option_bind]. apply seg_app in Hs as [_ Hs].
  cur. rewrite (cur_u32_in _ _ _ _ _ Hs) by lia. apply seg_skip in Hs. cur.
  rewrite (cur_u64_in _ _ _ _ _ Hs) by lia. cbn [c_pos]. unfold seg in Hname. change (Z.of_nat 8) with 8 in Hname. rewrite Hname. unfold tinfo_of, elements. do 3 f_equal. lia.
Qed.

Lemma read_tensors_ok b size ts a pos r : Forall tensor_ok ts -> seg b pos (concat (map encode_tensor ts) ++ r) -> 0 <= pos ->
  pos + len (concat (map encode_tensor ts)) <= size < 2 ^ 63 ->
  read_tensors (length ts) b a (mk_cursor size pos) = Some (map tinfo_of ts, floats_of ts a, mk_cursor size (pos + len (concat (map encode_tensor ts)))).
Proof.
  revert a pos. induction ts as [|t ts IH]; intros a pos Ht Hs Hp Hl; cbn [length read_tensors map concat] in *; [by rewrite Z.add_0_r|].
  apply Forall_cons in Ht as [Ht Hts]. rewrite <- app_assoc in Hs. rewrite length_app in *. rewrite (read_tensor_ok _ _ _ _ _ Ht Hs) by lia. cbn [mbind option_bind].
  apply seg_app in Hs as [_ Hs]. rewrite IH by (done || lia). cbn [mbind option_bind]. unfold floats_of. cbn [fold_left]. do 3 f_equal. lia.
Qed.

(** A whole file: header, metadata, entries, padding to a multiple of 32,
    data. *)
Record gguf := mk_gguf { g_version : Z; g_kvs : list (list Z * meta); g_tensors : list gtensor; g_data : list Z }.
Definition encode_pair (kv : list Z * meta) : list Z := encode_string kv.1 ++ le_bytes 4 (meta_type kv.2) ++ encode_meta kv.2.
Definition encode_head (f : gguf) : list Z :=
  le_bytes 4 GGUF_MAGIC ++ le_bytes 4 (g_version f) ++ le_bytes 8 (len (g_tensors f)) ++ le_bytes 8 (len (g_kvs f)) ++ concat (map encode_pair (g_kvs f)) ++ concat (map encode_tensor (g_tensors f)).
Definition padding (n : Z) : list Z := replicate (Z.to_nat ((- n) mod GGUF_ALIGN)) 0.
Definition encode_gguf (f : gguf) : list Z := encode_head f ++ padding (len (encode_head f)) ++ g_data f.
(** Where the data starts. *)
Definition data_at (f : gguf) : Z := len (encode_head f) + len (padding (len (encode_head f))).
Definition gguf_ok (f : gguf) : Prop :=
  GGUF_VER_MIN <= g_version f <= GGUF_VER_MAX /\ Forall (fun kv => meta_ok kv.2) (g_kvs f) /\ Forall tensor_ok (g_tensors f) /\
  len (g_tensors f) <= MAX_TENSORS.
Definition gguf_depth (f : gguf) : nat := foldr (fun kv => Nat.max (meta_depth kv.2)) O (g_kvs f).

Lemma skip_pair_ok fuel b size kv pos r : size < 2 ^ 63 -> meta_ok kv.2 -> (meta_depth kv.2 <= fuel)%nat -> seg b pos (encode_pair kv ++ r) -> 0 <= pos ->
  pos + len (encode_pair kv) <= size -> skip_pair fuel b (mk_cursor size pos) = Some (true, mk_cursor size (pos + len (encode_pair kv))).
Proof.
  destruct kv as [k v]. cbn [fst snd]. unfold encode_pair. cbn [fst snd]. rewrite <- !app_assoc, !length_app, le_bytes_length. intros Hz Hv Hd Hs Hp Hl.
  unfold skip_pair. rewrite (skip_string_ok _ _ _ _ _ Hs) by lia. apply seg_app in Hs as [_ Hs]. cbn [negb orb]. cur.
  assert (0 <= meta_type v < 2 ^ 32) by (destruct v; cbn in *; unfold fixed_type in *; lia).
  rewrite (cur_u32_in _ _ _ _ _ Hs) by lia. apply seg_skip in Hs. change (Z.of_nat 4) with 4 in Hs. rewrite (skip_meta_value_ok _ _ _ Hz _ _ _ Hv Hd Hs) by lia. do 3 f_equal. lia.
Qed.

Lemma cur_align_ok size pos : 0 <= pos -> pos + (- pos) mod GGUF_ALIGN < 2 ^ 63 -> cur_align GGUF_ALIGN (mk_cursor size pos) = mk_cursor size (pos + (- pos) mod GGUF_ALIGN).
Proof.
  intros Hp Hl. unfold cur_align, GGUF_ALIGN in *. cbn [c_pos]. pose proof (Z.mod_pos_bound pos 32). zcase.
  - rewrite Z.mod_opp_l_z by lia. by rewrite Z.add_0_r.
  - rewrite Z.mod_opp_l_nz in * by lia. unfold cur_skip. cbn [c_pos c_size]. by rewrite u64_small by lia.
Qed.

Lemma pairs_depth (kvs : list (list Z * meta)) kv : kv ∈ kvs -> (meta_depth kv.2 <= foldr (fun kv => Nat.max (meta_depth kv.2)) O kvs)%nat.
Proof. induction 1; cbn [foldr]; lia. Qed.

Lemma read_header_ok f b fuel size r : gguf_ok f -> (gguf_depth f <= fuel)%nat -> len (encode_head f) <= size < 2 ^ 63 -> seg b 0 (encode_head f ++ r) ->
  read_header fuel b size = Some (inr (g_version f, len (g_tensors f), mk_cursor size (24 + len (concat (map encode_pair (g_kvs f)))))).
Proof.
  intros (Hv & Hk & Ht & Hn) Hd Hl Hs. unfold encode_head in *. rewrite <- !app_assoc in Hs. rewrite !length_app, !le_bytes_length in Hl.
  unfold GGUF_VER_MIN, GGUF_VER_MAX, MAX_TENSORS in *. unfold read_header. cur.
  rewrite (cur_u32_in _ _ _ _ _ Hs) by (unfold GGUF_MAGIC; lia). apply seg_skip in Hs. rewrite Z.eqb_refl. cbn [negb].
  rewrite (cur_u32_in _ _ _ _ _ Hs) by lia. apply seg_skip in Hs. unfold GGUF_VER_MIN, GGUF_VER_MAX. do 2 (zcase; [lia|]). cbn [orb].
  rewrite (cur_u64_in _ _ _ _ _ Hs) by lia. apply seg_skip in Hs.
  assert (len (g_kvs f) <= len (concat (map encode_pair (g_kvs f)))).
  { apply concat_length_ge. intros kv _. unfold encode_pair. rewrite !length_app, le_bytes_length. lia. }
  rewrite (cur_u64_in _ _ _ _ _ Hs) by lia. apply seg_skip in Hs. rewrite Nat2Z.id.
  rewrite (skip_elements_ok encode_pair _ b size (g_kvs f) _ (concat (map encode_tensor (g_tensors f)) ++ r)); [done | | exact Hs | lia..].
  intros kv q r' Hkv Hs' Hq Hl'. pose proof (pairs_depth _ _ Hkv). unfold gguf_depth in Hd.
  apply (skip_pair_ok _ _ _ _ _ r'); try done; [lia | exact (proj1 (Forall_forall _ _) Hk kv Hkv) | lia].
Qed.

(** What a writer of the format puts down is what the loader reads: for
    any file of at most 512 tensors, with any nesting of metadata, the header
    is accepted, the metadata are skipped exactly, every entry is read with its
    name, number of elements, type and offset, and the cursor, aligned, stands
    at the data. *)
Theorem gguf_parse_roundtrip f b fuel (size := len (encode_gguf f)) :
  gguf_ok f -> (gguf_depth f <= fuel)%nat -> size < 2 ^ 63 -> seg b 0 (encode_gguf f) ->
  exists c c', read_header fuel b size = Some (inr (g_version f, len (g_tensors f), c)) /\
    read_tensors (Z.to_nat (Z.min (len (g_tensors f)) MAX_TENSORS)) b 0 c = Some (map tinfo_of (g_tensors f), floats_of (g_tensors f) 0, c') /\
    cur_align GGUF_ALIGN c' = mk_cursor size (data_at f) /\ seg b (data_at f) (g_data f).
Proof.
  intros Hok Hd Hz Hs. unfold encode_gguf in *. unfold size in *. clear size. rewrite !length_app in *.
  assert (Hpad : len (padding (len (encode_head f))) = (- len (encode_head f)) mod GGUF_ALIGN).
  { unfold padding, GGUF_ALIGN. rewrite length_replicate, Z2Nat.id; [done|]. apply Z.mod_pos_bound. lia. }
  eexists _, _. split; [eapply (read_header_ok f _ _ _ _ Hok Hd); [lia | exact Hs]|].
  destruct Hok as (_ & _ & Ht & Hn). assert (El : len (encode_head f) = 24 + len (concat (map encode_pair (g_kvs f))) + len (concat (map encode_tensor (g_tensors f)))).
  { unfold encode_head. rewrite !length_app, !le_bytes_length. lia. }
  pose proof Hs as Hdata. apply seg_app in Hdata as [_ Hdata]. apply seg_app in Hdata as [_ Hdata].
  unfold encode_head in Hs. rewrite <- !app_assoc in Hs. do 4 apply seg_skip in Hs. apply seg_app in Hs as [_ Hs].
  rewrite Z.min_l, Nat2Z.id by done. split; [apply (read_tensors_ok _ _ _ _ _ _ Ht Hs); lia|].
  replace (24 + _ + _) with (len (encode_head f)) by done. rewrite cur_align_ok, <- Hpad by lia. done.
Qed.

(** ** Files that break the format *)

(** A number whose bytes are cut off, or that counts more than is left. *)
Inductive bad_string (r : list Z) : Prop :=
  | bad_string_short : len r < 8 -> bad_string r
  | bad_string_cut n r' : r = le_bytes 8 n ++ r' -> len r' < n < 2 ^ 63 -> bad_string r.

(** The bytes [r] up to the end of the file hold no whole value of type [t]:
    the type does not exist, or the value, or the first element of an array
    that is not whole, is cut off.  [k] bounds the nesting. *)
Inductive bad_value : nat -> Z -> list Z -> Prop :=
  | bad_value_type k t r : 12 < t -> bad_value (S k) t r
  | bad_value_fixed k t r : fixed_type t -> len r < fixed_width t -> bad_value (S k) t r
  | bad_value_string k r : bad_string r -> bad_value (S k) 8 r
  | bad_value_array k r : len r < 12 -> bad_value (S k) 9 r
  | bad_value_element k t n vs r : 0 <= t < 2 ^ 32 -> len vs < n < 2 ^ 64 ->
      Forall (fun v => meta_type v = t /\ meta_ok v /\ (meta_depth v <= k)%nat) vs -> bad_value k t r ->
      bad_value (S k) 9 (le_bytes 4 t ++ le_bytes 8 n ++ concat (map encode_meta vs) ++ r).
Inductive bad_pair (k : nat) : list Z -> Prop :=
  | bad_pair_key r : bad_string r -> bad_pair k r
  | bad_pair_type key r : len r < 4 -> bad_pair k (encode_string key ++ r)
  | bad_pair_value key t r : 0 <= t < 2 ^ 32 -> bad_value k t r -> bad_pair k (encode_string key ++ le_bytes 4 t ++ r).

(** No whole entry of a tensor: the name is cut off or too long, there are too
    many dimensions, or the rest is cut off. *)
Inductive bad_tensor : list Z -> Prop :=
  | bad_tensor_name r : bad_string r -> bad_tensor r
  | bad_tensor_long n r : 128 <= n < 2 ^ 64 -> bad_tensor (le_bytes 8 n ++ r)
  | bad_tensor_count name r : len name < 128 -> len r < 4 -> bad_tensor (encode_string name ++ r)
  | bad_tensor_dims name n r : len name < 128 -> 4 < n < 2 ^ 32 -> bad_tensor (encode_string name ++ le_bytes 4 n ++ r)
  | bad_tensor_dim name n ds r : len name < 128 -> len ds < n <= 4 -> Forall (fun d => 0 <= d < 2 ^ 64) ds -> len r < 8 ->
      bad_tensor (encode_string name ++ le_bytes 4 n ++ concat (map (le_bytes 8) ds) ++ r)
  | bad_tensor_tail name ds r : len name < 128 -> len ds <= 4 -> Forall (fun d => 0 <= d < 2 ^ 64) ds -> len r < 12 ->
      bad_tensor (encode_string name ++ le_bytes 4 (len ds) ++ concat (map (le_bytes 8) ds) ++ r).

(** The letters GGUF, the version, the numbers of tensors and of pairs. *)
Definition GGUF_LETTERS : list Z := [71; 71; 85; 70].
Definition head_bytes (v nt nk : Z) : list Z := GGUF_LETTERS ++ le_bytes 4 v ++ le_bytes 8 nt ++ le_bytes 8 nk.

(** What is wrong first, and the error that stands for it. *)
Inductive malformed (k : nat) (data : list Z) : loader_err_t -> Prop :=
  | malformed_magic : Forall (fun c => 0 <= c < 256) data -> take 4 data <> GGUF_LETTERS -> malformed k data LOADER_ERR_BAD_MAGIC
  | malformed_version v r : data = GGUF_LETTERS ++ le_bytes 4 v ++ r -> 0 <= v < 2 ^ 32 -> v < 2 \/ 3 < v -> malformed k data LOADER_ERR_BAD_VER
  | malformed_meta v nt nk kvs r : data = head_bytes v nt nk ++ concat (map encode_pair kvs) ++ r -> 2 <= v <= 3 -> 0 <= nt < 2 ^ 64 -> len kvs < nk < 2 ^ 64 ->
      Forall (fun kv => meta_ok kv.2 /\ (meta_depth kv.2 <= k)%nat) kvs -> bad_pair k r -> malformed k data LOADER_ERR_IO
  | malformed_tensor v nt kvs ts r : data = head_bytes v nt (len kvs) ++ concat (map encode_pair kvs) ++ concat (map encode_tensor ts) ++ r ->
      2 <= v <= 3 -> len ts < nt < 2 ^ 64 -> len ts < 512 ->
      Forall (fun kv => meta_ok kv.2 /\ (meta_depth kv.2 <= k)%nat) kvs -> Forall tensor_ok ts -> bad_tensor r -> malformed k data LOADER_ERR_BAD_TENSOR.

(** What the readers make of the file. *)
Definition verdict (fuel : nat) (b : mem) (size : Z) (e : loader_err_t) : Prop :=
  match read_header fuel b size with
  | Some (inl e') => e' = e
  | Some (inr (_, n, c)) => read_tensors (Z.to_nat (Z.min n MAX_TENSORS)) b 0 c = None /\ e = LOADER_ERR_BAD_TENSOR
  | None => False
  end.

Section Broken.
Context (b : mem) (size : Z) (size_ok : size < 2 ^ 63).

(** The bytes from [pos] to the end of the file. *)
Definition rest (pos : Z) (r : list Z) : Prop := seg b pos r /\ 0 <= pos /\ pos + len r = size.

Lemma rest_skip pos l r : rest pos (l ++ r) -> rest (pos + len l) r.
Proof. intros ([_ Hs]%seg_app & Hp & Hl). rewrite length_app in Hl. split; [done | lia]. Qed.

Lemma cur_ok_out pos n r : rest pos r -> len r < n < 2 ^ 63 -> cur_ok (mk_cursor size pos) n = false.
Proof. intros (_ & Hp & Hl) Hn. unfold cur_ok. cbn. rewrite u64_small by lia. lia. Qed.
Lemma cur_ok_rest pos n r : rest pos r -> 0 <= n <= len r -> cur_ok (mk_cursor size pos) n = true.
Proof. intros (_ & Hp & Hl) Hn. apply cur_ok_in; lia. Qed.
Lemma cur_u32_rest pos v r : rest pos (le_bytes 4 v ++ r) -> 0 <= v < 2 ^ 32 -> cur_ok (mk_cursor size pos) 4 = true /\ cur_u32 b (mk_cursor size pos) = (v, mk_cursor size (pos + 4)) /\ rest (pos + 4) r.
Proof.
  intros Hr Hv. pose proof (rest_skip _ _ _ Hr) as Hr'. rewrite le_bytes_length in Hr'. destruct Hr as (Hs & Hp & Hl). rewrite length_app, le_bytes_length in Hl.
  split_and!; [apply cur_ok_in; lia | apply (cur_u32_in _ _ _ _ _ Hs); lia | done].
Qed.
Lemma cur_u64_rest pos v r : rest pos (le_bytes 8 v ++ r) -> 0 <= v < 2 ^ 64 -> cur_ok (mk_cursor size pos) 8 = true /\ cur_u64 b (mk_cursor size pos) = (v, mk_cursor size (pos + 8)) /\ rest (pos + 8) r.
Proof.
  intros Hr Hv. pose proof (rest_skip _ _ _ Hr) as Hr'. rewrite le_bytes_length in Hr'. destruct Hr as (Hs & Hp & Hl). rewrite length_app, le_bytes_length in Hl.
  split_and!; [apply cur_ok_in; lia | apply (cur_u64_in _ _ _ _ _ Hs); lia | done].
Qed.
Lemma skip_string_rest pos s r : rest pos (encode_string s ++ r) -> skip_string b (mk_cursor size pos) = (true, mk_cursor size (pos + len (encode_string s))) /\ rest (pos + len (encode_string s)) r.
Proof. intros Hr. split; [|by apply rest_skip]. destruct Hr as (Hs & Hp & Hl). rewrite length_app in Hl. apply (skip_string_ok _ _ _ _ r Hs); lia. Qed.

Lemma skip_string_bad pos r : rest pos r -> bad_string r -> exists c, skip_string b (mk_cursor size pos) = (false, c).
Proof.
  intros Hr [Hs|n r' -> Hn]; unfold skip_string; [by rewrite (cur_ok_out _ _ _ Hr) by lia; eexists|].
  destruct (cur_u64_rest _ _ _ Hr ltac:(lia)) as (-> & -> & Hr'). cbn [negb]. unfold skip_fixed. rewrite (cur_ok_out _ _ _ Hr') by lia. by eexists.
Qed.

(** Whole elements, and then one that is not. *)
Lemma skip_elements_bad {T} (enc : T -> list Z) (skip : cursor_t -> option (bool * cursor_t)) l n pos r :
  (forall x pos r, x ∈ l -> rest pos (enc x ++ r) -> skip (mk_cursor size pos) = Some (true, mk_cursor size (pos + len (enc x)))) ->
  (forall pos, rest pos r -> exists c, skip (mk_cursor size pos) = Some (false, c)) -> (length l < n)%nat ->
  rest pos (concat (map enc l) ++ r) -> exists c, skip_elements skip n (mk_cursor size pos) = Some (false, c).
Proof.
  intros Hx Hbad. revert n pos. induction l as [|x l IH]; intros [|n] pos Hn Hr; cbn [length map concat skip_elements] in *; try lia.
  - destruct (Hbad pos Hr) as [c ->]. cbn. by eexists.
  - rewrite <- app_assoc in Hr. rewrite (Hx x pos _ ltac:(by left) Hr). cbn [mbind option_bind]. apply IH; [|lia | by apply rest_skip]. intros y p r' Hy. apply Hx. by right.
Qed.

Lemma skip_meta_value_bad k fuel t pos r : bad_value k t r -> (k <= fuel)%nat -> rest pos r -> exists c, skip_meta_value fuel b t (mk_cursor size pos) = Some (false, c).
Proof.
  intros Hb. revert fuel pos. induction Hb as [k t r Ht|k t r (Ht & H8 & H9) Hl|k r Hb|k r Hl|k t n vs r Ht Hn Hvs Hb IH]; intros [|fuel] pos Hk Hr; try lia; cbn [skip_meta_value].
  - repeat (zcase; [lia|]). by eexists.
  - unfold skip_fixed. unfold fixed_width in Hl. repeat (zcase; try lia); (rewrite (cur_ok_out _ _ _ Hr) by (revert Hl; repeat zcase; lia)); by eexists.
  - change (8 <=? 1) with false. change (8 <=? 3) with false. change (8 <=? 7) with false. change (8 =? 8) with true. cbn match.
    destruct (skip_string_bad _ _ Hr Hb) as [c ->]. by eexists.
  - change (9 <=? 1) with false. change (9 <=? 3) with false. change (9 <=? 7) with false. change (9 =? 8) with false. change (9 =? 9) with true. cbn match.
    rewrite (cur_ok_out _ _ _ Hr) by lia. by eexists.
  - change (9 <=? 1) with false. change (9 <=? 3) with false. change (9 <=? 7) with false. change (9 =? 8) with false. change (9 =? 9) with true. cbn match.
    rewrite (cur_ok_rest _ _ _ Hr) by (rewrite !length_app, !le_bytes_length; lia). cbn [negb].
    destruct (cur_u32_rest _ _ _ Hr Ht) as (_ & -> & Hr1). destruct (cur_u64_rest _ _ _ Hr1 ltac:(lia)) as (_ & -> & Hr2).
    apply (skip_elements_bad encode_meta _ vs _ _ r); [| | lia | done].
    + intros v p r' Hv Hr'. destruct (proj1 (Forall_forall _ _) Hvs v Hv) as (<- & Hok & Hd). destruct Hr' as (Hs & Hp & Hl). rewrite length_app in Hl.
      apply (skip_meta_value_ok _ _ _ size_ok _ _ r'); (done || lia).
    + intros p Hp. apply IH; [lia | done].
Qed.

Lemma skip_pair_bad k fuel pos r : bad_pair k r -> (k <= fuel)%nat -> rest pos r -> exists c, skip_pair fuel b (mk_cursor size pos) = Some (false, c).
Proof.
  intros Hb Hk Hr. unfold skip_pair. destruct Hb as [r Hb|key r Hl|key t r Ht Hb].
  - destruct (skip_string_bad _ _ Hr Hb) as [c ->]. cbn. by eexists.
  - destruct (skip_string_rest _ _ _ Hr) as [-> Hr']. cbn [negb orb]. rewrite (cur_ok_out _ _ _ Hr') by lia. by eexists.
  - destruct (skip_string_rest _ _ _ Hr) as [-> Hr']. destruct (cur_u32_rest _ _ _ Hr' Ht) as (-> & -> & Hr2). cbn [negb orb]. by apply (skip_meta_value_bad k _ _ _ r).
Qed.

Lemma read_dims_bad ds n ne pos r : Forall (fun d => 0 <= d < 2 ^ 64) ds -> (length ds < n)%nat -> len r < 8 -> rest pos (concat (map (le_bytes 8) ds) ++ r) -> read_dims n b ne (mk_cursor size pos) = None.
Proof.
  revert n ne pos. induction ds as [|d ds IH]; intros [|n] ne pos Hd Hn Hl Hr; cbn [length map concat read_dims] in *; try lia.
  - change ([] ++ r) with r in Hr. by rewrite (cur_ok_out _ _ _ Hr) by lia.
  - apply Forall_cons in Hd as [Hd Hds]. rewrite <- app_assoc in Hr. destruct (cur_u64_rest _ _ _ Hr Hd) as (-> & -> & Hr'). cbn [negb]. apply IH; (done || lia).
Qed.

(** The name of an entry. *)
Lemma entry_name pos name r : rest pos (encode_string name ++ r) -> len name < 128 ->
  exists nlen, cur_ok (mk_cursor size pos) 8 = true /\ cur_u64 b (mk_cursor size pos) = (nlen, mk_cursor size (pos + 8)) /\
    (MAX_TENSOR_NAME <=? nlen) || negb (cur_ok (mk_cursor size (pos + 8)) nlen) = false /\
    cur_skip nlen (mk_cursor size (pos + 8)) = mk_cursor size (pos + len (encode_string name)) /\ rest (pos + len (encode_string name)) r.
Proof.
  intros Hr Hn. pose proof (rest_skip _ _ _ Hr) as Hr'. unfold encode_string in *. rewrite <- app_assoc in Hr.
  destruct (cur_u64_rest _ _ _ Hr ltac:(lia)) as (E1 & E2 & Hr2). exists (len name). split; [done|]. split; [done|].
  destruct Hr2 as (_ & Hp & Hl). rewrite length_app in Hl. rewrite cur_ok_in, cur_skip_in by lia. split; [unfold MAX_TENSOR_NAME; zcase; [lia | done]|].
  split; [|done]. f_equal. rewrite length_app, le_bytes_length. lia.
Qed.

Lemma read_tensor_bad pos r : bad_tensor r -> rest pos r -> read_tensor b (mk_cursor size pos) = None.
Proof.
  assert (forall name r, rest pos (encode_string name ++ r) -> len name < 128 -> exists p, rest p r /\
    read_tensor b (mk_cursor size pos) = (if negb (cur_ok (mk_cursor size p) 4) then None else
      let '(n_dims, c) := cur_u32 b (mk_cursor size p) in if MAX_TENSOR_DIMS <? n_dims then None else
      '(ne, c) ← read_dims (Z.to_nat n_dims) b 1 c; if negb (cur_ok c 4) then None else let '(type, c) := cur_u32 b c in
      if negb (cur_ok c 8) then None else let '(off, c) := cur_u64 b c in Some (mk_tinfo (bytes_at b (pos + 8) (len name)) ne type off (tensor_bytes type ne), c))) as Hname.
  { intros name r' Hr Hn. destruct (entry_name _ _ _ Hr Hn) as (nlen & E1 & E2 & E3 & E4 & Hr'). exists (pos + len (encode_string name)). split; [done|].
    unfold encode_string in Hr. rewrite <- app_assoc in Hr. destruct (cur_u64_rest _ _ _ Hr ltac:(lia)) as (_ & E5 & _). rewrite E5 in E2. injection E2 as <-.
    unfold read_tensor. rewrite E1, E5, E3, E4. done. }
  intros Hb Hr. destruct Hb as [r Hb|n r Hn|name r Hn Hl|name n r Hn Hd|name n ds r Hn Hd Hds Hl|name ds r Hn Hd Hds Hl].
  - unfold read_tensor. destruct Hb as [Hl|n r' -> Hn]; [by rewrite (cur_ok_out _ _ _ Hr) by lia|].
    destruct (cur_u64_rest _ _ _ Hr ltac:(lia)) as (-> & -> & Hr'). by rewrite (cur_ok_out _ _ _ Hr'), orb_true_r by lia.
  - unfold read_tensor. destruct (cur_u64_rest _ _ _ Hr ltac:(lia)) as (-> & -> & _). unfold MAX_TENSOR_NAME. by rewrite (proj2 (Z.leb_le _ _)) by lia.
  - destruct (Hname _ _ Hr Hn) as (p & Hr' & ->). by rewrite (cur_ok_out _ _ _ Hr') by lia.
  - destruct (Hname _ _ Hr Hn) as (p & Hr' & ->). destruct (cur_u32_rest _ _ _ Hr' ltac:(lia)) as (-> & -> & _). unfold MAX_TENSOR_DIMS. by rewrite (proj2 (Z.ltb_lt _ _)) by lia.
  - destruct (Hname _ _ Hr Hn) as (p & Hr' & ->). destruct (cur_u32_rest _ _ _ Hr' ltac:(lia)) as (-> & -> & Hr2). cbn [negb]. rewrite (proj2 (Z.ltb_ge _ _)) by (unfold MAX_TENSOR_DIMS; lia).
    by rewrite (read_dims_bad ds _ _ _ r) by (done || lia).
  - destruct (Hname _ _ Hr Hn) as (p & Hr' & ->). destruct (cur_u32_rest _ _ _ Hr' ltac:(lia)) as (-> & -> & Hr2). cbn [negb]. rewrite (proj2 (Z.ltb_ge _ _)) by (unfold MAX_TENSOR_DIMS; lia).
    pose proof (rest_skip _ _ _ Hr2) as Hr3. destruct Hr2 as (Hs & Hp & Hlen). rewrite length_app in Hlen. rewrite Nat2Z.id, (read_dims_ok b size ds 1 _ r Hds Hs) by lia. cbn [mbind option_bind].
    destruct (cur_ok (mk_cursor size _) 4) eqn:E4; [|done]. cbn [negb]. unfold cur_u32, cur_skip. cbn [c_pos c_size].
    destruct Hr3 as (_ & Hp3 & Hl3). unfold cur_ok in E4 |- *. cbn [c_pos c_size] in *. rewrite u64_small in E4 by lia.
    match goal with |- context [u64 (u64 (?x + 4) + 8)] => rewrite (u64_small (x + 4)), (u64_small (x + 4 + 8)) by lia end. by rewrite (proj2 (Z.leb_gt _ _)) by lia.
Qed.

Lemma read_tensors_bad ts n a pos r : Forall tensor_ok ts -> (length ts < n)%nat -> bad_tensor r -> rest pos (concat (map encode_tensor ts) ++ r) -> read_tensors n b a (mk_cursor size pos) = None.
Proof.
  revert n a pos. induction ts as [|t ts IH]; intros [|n] a pos Ht Hn Hb Hr; cbn [length map concat read_tensors] in *; try lia.
  - by rewrite (read_tensor_bad _ _ Hb Hr).
  - apply Forall_cons in Ht as [Ht Hts]. rewrite <- app_assoc in Hr. pose proof (rest_skip _ _ _ Hr) as Hr'. destruct Hr as (Hs & Hp & Hl). rewrite length_app in Hl.
    rewrite (read_tensor_ok b size t pos _ Ht Hs) by lia. cbn [mbind option_bind]. by rewrite (IH n _ _) by (done || lia).
Qed.

(** Up to the metadata. *)
Lemma read_header_start fuel v nt nk r : rest 0 (head_bytes v nt nk ++ r) -> 2 <= v <= 3 -> 0 <= nt < 2 ^ 64 -> 0 <= nk < 2 ^ 64 -> rest 24 r /\
  read_header fuel b size = '(ok, c) ← skip_elements (skip_pair fuel b) (Z.to_nat nk) (mk_cursor size 24); Some (if ok : bool then inr (v, nt, c) else inl LOADER_ERR_IO).
Proof.
  intros Hr Hv Hnt Hnk. unfold head_bytes in Hr. change GGUF_LETTERS with (le_bytes 4 GGUF_MAGIC) in Hr. rewrite <- !app_assoc in Hr.
  destruct (cur_u32_rest _ _ _ Hr ltac:(unfold GGUF_MAGIC; lia)) as (E1 & E2 & Hr1). destruct (cur_u32_rest _ _ _ Hr1 ltac:(lia)) as (_ & E3 & Hr2).
  destruct (cur_u64_rest _ _ _ Hr2 Hnt) as (_ & E4 & Hr3). destruct (cur_u64_rest _ _ _ Hr3 Hnk) as (_ & E5 & Hr4). split; [done|].
  unfold read_header. rewrite E1, E2, E3, E4, E5, Z.eqb_refl. cbn [negb]. unfold GGUF_VER_MIN, GGUF_VER_MAX. by do 2 (zcase; [lia|]).
Qed.

(** Every way to break the format leads to the error that stands for it. *)
Lemma malformed_verdict k fuel data e : malformed k data e -> (k <= fuel)%nat -> len data = size -> seg b 0 data -> verdict fuel b size e.
Proof.
  intros Hm Hk El Hs. assert (rest 0 data) as Hr by (by split_and!).
  destruct Hm as [Hby Hne|v r -> Hv Hbad|v nt nk kvs r -> Hv Hnt Hnk Hkv Hb|v nt kvs ts r -> Hv Hnt Hts Hkv Htok Hb]; unfold verdict.
  - unfold read_header. destruct (Z_lt_le_dec (len data) 4) as [Hl|Hl]; [by rewrite (cur_ok_out _ _ _ Hr) by lia|]. rewrite (cur_ok_rest _ _ _ Hr) by lia. cbn [negb].
    unfold cur_u32. cbn [c_pos]. destruct (Z.eqb_spec (load32 b 0) GGUF_MAGIC) as [E|]; [exfalso | done]. apply Hne.
    destruct data as [|c0 [|c1 [|c2 [|c3 data]]]]; cbn [length] in Hl; try lia. repeat (apply Forall_cons in Hby as [? Hby]).
    apply seg_cons in Hs as [E0 Hs]. apply seg_cons in Hs as [E1 Hs]. apply seg_cons in Hs as [E2 Hs]. apply seg_cons in Hs as [E3 _].
    unfold load32, GGUF_MAGIC in E. cbn [load_le] in E. rewrite E0, E1, E2, E3 in E. cbn [take]. unfold GGUF_LETTERS. repeat f_equal; lia.
  - change GGUF_LETTERS with (le_bytes 4 GGUF_MAGIC) in Hr. destruct (cur_u32_rest _ _ _ Hr ltac:(unfold GGUF_MAGIC; lia)) as (E1 & E2 & Hr1).
    destruct (cur_u32_rest _ _ _ Hr1 Hv) as (_ & E3 & _). unfold read_header. rewrite E1, E2, E3, Z.eqb_refl. cbn [negb]. unfold GGUF_VER_MIN, GGUF_VER_MAX. repeat (zcase; try done; try lia).
  - destruct (read_header_start fuel _ _ _ _ Hr Hv Hnt ltac:(lia)) as [Hr' ->].
    destruct (skip_elements_bad encode_pair (skip_pair fuel b) kvs (Z.to_nat nk) 24 r) as [c ->]; [| | lia | done | done].
    + intros kv p r' Hin (Hs' & Hp & Hl). destruct (proj1 (Forall_forall _ _) Hkv kv Hin) as [H1 H2]. rewrite length_app in Hl. apply (skip_pair_ok _ _ _ _ _ r'); (done || lia).
    + intros p Hp. by apply (skip_pair_bad k _ _ r).
  - destruct (read_header_start fuel _ _ _ _ Hr Hv ltac:(lia) ltac:(unfold head_bytes in *; pose proof (concat_length_ge encode_pair kvs); destruct Hr as (_ & _ & Hl); rewrite !length_app in Hl; enough (len kvs <= len (concat (map encode_pair kvs))) by lia;
      apply concat_length_ge; intros kv _; unfold encode_pair; rewrite !length_app, le_bytes_length; lia)) as [Hr' ->].
    pose proof (rest_skip _ _ _ Hr') as Hr2. destruct Hr' as (Hs' & Hp' & Hl'). rewrite length_app in Hl'. rewrite Nat2Z.id.
    rewrite (skip_elements_ok encode_pair _ b size kvs 24 (concat (map encode_tensor ts) ++ r)); [| |done | lia | lia].
    + cbn [mbind option_bind]. split; [|done]. apply (read_tensors_bad ts _ _ _ r); [done | unfold MAX_TENSORS; lia | done | done].
    + intros kv p r' Hin Hs2 Hp Hl. destruct (proj1 (Forall_forall _ _) Hkv kv Hin) as [H1 H2]. apply (skip_pair_ok _ _ _ _ _ r'); (done || lia).
Qed.
End Broken.

(** ** A file that is never read to its end *)

(** A string whose length is just below 2^64 passes the check of its size,
    since the sum wraps, and moves the cursor back. *)
Lemma backward_string b size pos n : 0 <= n <= pos + 8 -> pos + 8 <= size < 2 ^ 63 -> 0 <= pos -> seg b pos (le_bytes 8 (2 ^ 64 - n)) -> 0 < n ->
  skip_string b (mk_cursor size pos) = (true, mk_cursor size (pos + 8 - n)).
Proof.
  intros Hn Hl Hp Hs Hn'. unfold skip_string. cur. rewrite <- (app_nil_r (le_bytes _ _)) in Hs. rewrite (cur_u64_in _ _ _ _ _ Hs) by lia.
  assert (Hw : u64 (pos + 8 + (2 ^ 64 - n)) = pos + 8 - n).
  { unfold u64. replace (pos + 8 + (2 ^ 64 - n)) with (pos + 8 - n + 1 * 2 ^ 64) by lia. rewrite Z.mod_add by lia. apply Z.mod_small. lia. }
  unfold skip_fixed, cur_ok, cur_skip. cbn [c_pos c_size]. rewrite Hw. zcase; [done | lia].
Qed.

(** An array of two arrays; the first holds one string that moves the cursor
    back to the array's own start. *)
Definition loop_value : list Z := le_bytes 4 9 ++ le_bytes 8 2 ++ le_bytes 4 8 ++ le_bytes 8 1 ++ le_bytes 8 (2 ^ 64 - 32).

Lemma skip_array fuel b c : skip_meta_value (S fuel) b 9 c =
  if negb (cur_ok c 12) then Some (false, c)
  else let '(etype, c) := cur_u32 b c in let '(cnt, c) := cur_u64 b c in skip_elements (skip_meta_value fuel b etype) (Z.to_nat cnt) c.
Proof. done. Qed.

Lemma array_header fuel b size p t n r : 0 <= p -> p + 12 <= size < 2 ^ 63 -> 0 <= t < 2 ^ 32 -> 0 <= n < 2 ^ 64 -> seg b p (le_bytes 4 t ++ le_bytes 8 n ++ r) ->
  skip_meta_value (S fuel) b 9 (mk_cursor size p) = skip_elements (skip_meta_value fuel b t) (Z.to_nat n) (mk_cursor size (p + 12)) /\ seg b (p + 12) r.
Proof.
  intros Hp Hl Ht Hn Hs. rewrite skip_array. cur. rewrite (cur_u32_in _ _ _ _ _ Hs) by lia. apply seg_skip in Hs. rewrite (cur_u64_in _ _ _ _ _ Hs) by lia.
  apply seg_skip in Hs. replace (p + 12) with (p + 4 + 8) by lia. done.
Qed.

Lemma loop_value_loops fuel b size p : 0 <= p -> p + 32 <= size < 2 ^ 63 -> seg b p loop_value -> skip_meta_value fuel b 9 (mk_cursor size p) = None.
Proof.
  intros Hp Hl Hs. induction fuel as [|fuel IH]; [done|]. unfold loop_value in Hs.
  destruct (array_header fuel b size p 9 2 _ Hp ltac:(lia) ltac:(lia) ltac:(lia) Hs) as [-> Hs2]. change (Z.to_nat 2) with 2%nat. cbn [skip_elements].
  destruct fuel as [|fuel]; [done|]. destruct (array_header fuel b size (p + 12) 8 1 _ ltac:(lia) ltac:(lia) ltac:(lia) ltac:(lia) Hs2) as [-> Hs3].
  change (Z.to_nat 1) with 1%nat. cbn [skip_elements]. destruct fuel as [|fuel]; [done|].
  change (skip_meta_value (S fuel) b 8 ?c) with (Some (skip_string b c)). rewrite (backward_string _ _ _ 32); [|lia|lia|lia|exact Hs3|lia].
  cbn [mbind option_bind]. replace (p + 12 + 12 + 8 - 32) with p by lia. by rewrite IH.
Qed.

(** A file of one metadata pair with an empty key. *)
Definition loop_file : list Z := le_bytes 4 GGUF_MAGIC ++ le_bytes 4 3 ++ le_bytes 8 0 ++ le_bytes 8 1 ++ le_bytes 8 0 ++ le_bytes 4 9 ++ loop_value.
Definition bytes_of (l : list Z) : mem := fun i => nth (Z.to_nat i) l 0.

(** There is a file of 68 bytes on which the loader never returns: the
    check of a string's size wraps, so arrays nest without end (the kernel's
    stack runs out). *)
Theorem loop_file_never_read fuel : read_header fuel (bytes_of loop_file) (len loop_file) = None.
Proof.
  assert (Hs : seg (bytes_of loop_file) 0 loop_file) by (vm_compute; reflexivity).
  replace (len loop_file) with 68 by (vm_compute; reflexivity). revert Hs. generalize (bytes_of loop_file). intros b Hs.
  unfold loop_file in Hs. unfold read_header. cur.
  rewrite (cur_u32_in _ _ _ _ _ Hs) by (unfold GGUF_MAGIC; lia). apply seg_skip in Hs. rewrite Z.eqb_refl. cbn [negb].
  rewrite (cur_u32_in _ _ _ _ _ Hs) by lia. apply seg_skip in Hs. change ((3 <? GGUF_VER_MIN) || (GGUF_VER_MAX <? 3)) with false. cbn match.
  do 2 (rewrite (cur_u64_in _ _ _ _ _ Hs) by lia; apply seg_skip in Hs). change (Z.to_nat 1) with 1%nat. cbn [skip_elements]. unfold skip_pair.
  replace (0 + _ + _ + _ + _) with 24 in * by lia.
  rewrite (skip_string_ok b 68 24 [] _ Hs) by (rewrite ?le_bytes_length; cbn; lia). apply seg_skip in Hs. change (len (encode_string [])) with 8. cbn [negb orb]. cur.
  rewrite (cur_u32_in _ _ _ _ _ Hs) by lia. apply seg_skip in Hs. rewrite loop_value_loops by (done || lia). done.
Qed.

(** ** Dequantisation *)

Section Dequant.
Context {F} `{FloatOps F}.
Implicit Types m : fmem F.

(** Number [i] of a tensor whose data stand at [src]. *)
Definition weight (b : mem) (t src i : Z) : F :=
  if t =? GGML_TYPE_F32 then fofbits (load32 b (src + 4 * i))
  else if t =? GGML_TYPE_F16 then f16_to_f32 (load16 b (src + 2 * i))
  else if t =? GGML_TYPE_Q8_0 then
    let blk := src + i / 32 * 34 in (f16_to_f32 (load16 b blk) * fofz (s8 (b (blk + 2 + i mod 32)%Z)))%float
  else
    let blk := src + i / 256 * 144 in
    let s := i mod 256 / 32 in
    let byte := b (blk + 16 + s * 16 + i mod 32 / 2)%Z in
    let q := if i mod 2 =? 0 then Z.land byte 15 else Z.shiftr byte 4 in
    (f16_to_f32 (load16 b blk) * fofz (q4k_scales b (blk + 4) s) * fofz q - f16_to_f32 (load16 b (blk + 2)) * fofz (q4k_mins b (blk + 4) s))%float.

(** A loop over pieces of [w] floats each. *)
Lemma pieces_ok n w (step : Z -> fmem F -> fmem F) (g : Z -> F) dst m : 0 <= n -> 0 <= w ->
  (forall k m, 0 <= k < n -> (forall i, 0 <= i < w -> ld (step k m) dst (w * k + i) = g (w * k + i)) /\ same_but (dst + 4 * (w * k)) w m (step k m)) ->
  let m' := for_up (Z.to_nat n) 0 step m in (forall i, 0 <= i < n * w -> ld m' dst i = g i) /\ same_but dst (n * w) m m'.
Proof.
  intros Hn Hw Hstep. pose proof (for_up_inv (fun k m' => (forall i, 0 <= i < k * w -> ld m' dst i = g i) /\ same_but dst (k * w) m m') (Z.to_nat n) 0 step m) as Hi.
  rewrite Z2Nat.id in Hi by done. apply Hi; clear Hi; [split; [intros; lia | done]|].
  intros k m1 Hk [H1 H2]. destruct (Hstep k m1 ltac:(lia)) as [H3 H4]. split.
  - intros i Hi. destruct (decide (i < k * w)).
    + rewrite <- H1 by lia. unfold ld. apply H4. lia.
    + replace i with (w * k + (i - w * k)) by lia. apply H3. lia.
  - intros a Ha. rewrite H4 by nia. apply H2. nia.
Qed.

Lemma ld_shift m p j i : ld m (p + 4 * j) i = ld m p (j + i).
Proof. unfold ld. f_equal. lia. Qed.
(** The numbers come in blocks of so many. *)
Definition block_of (t : Z) : Z := if t =? GGML_TYPE_Q8_0 then 32 else if t =? GGML_TYPE_Q4_K then 256 else 1.
Definition known_type (t : Z) : Prop := t = GGML_TYPE_F32 \/ t = GGML_TYPE_F16 \/ t = GGML_TYPE_Q8_0 \/ t = GGML_TYPE_Q4_K.

#[export] Instance known_type_dec t : Decision (known_type t).
Proof. unfold known_type. apply _. Defined.

Lemma dequant_q8_0_ok b src dst n m : 0 <= n ->
  let m' := dequant_q8_0 b src dst (n * 32) m in (forall i, 0 <= i < n * 32 -> ld m' dst i = weight b GGML_TYPE_Q8_0 src i) /\ same_but dst (n * 32) m m'.
Proof.
  intros Hn. unfold dequant_q8_0. change Q80_BLOCK_SIZE with 32. rewrite Z.div_mul by lia. apply pieces_ok; [lia..|]. intros k m1 Hk.
  destruct (store_loop_ok 32 (dst + 4 * (k * 32)) (fun i _ => (f16_to_f32 (load16 b (src + k * Q80_BYTES_PER_BLK)) * fofz (s8 (b (src + k * Q80_BYTES_PER_BLK + 2 + i)%Z)))%float) m1) as [H1 H2]; [lia | done|].
  split; [|by replace (32 * k) with (k * 32) by lia]. intros i Hi. replace (32 * k + i) with (k * 32 + i) by lia. rewrite <- ld_shift, H1 by lia.
  unfold weight. change (GGML_TYPE_Q8_0 =? GGML_TYPE_F32) with false. change (GGML_TYPE_Q8_0 =? GGML_TYPE_F16) with false. change (GGML_TYPE_Q8_0 =? GGML_TYPE_Q8_0) with true. cbn match.
  replace ((k * 32 + i) / 32) with k by dlia. by replace ((k * 32 + i) mod 32) with i by dlia.
Qed.

Lemma dequant_part_ok b q o sc_f min_f m :
  let m' := dequant_part b q o sc_f min_f m in
  (forall i, 0 <= i < 32 -> ld m' o i = (sc_f * fofz (if i mod 2 =? 0 then Z.land (b (q + i / 2)%Z) 15 else Z.shiftr (b (q + i / 2)%Z) 4) - min_f)%float) /\ same_but o 32 m m'.
Proof.
  apply (pieces_ok 16 2); [lia..|]. intros k m1 Hk. unfold st, ld. split.
  - intros i Hi. replace (2 * k + i) with (i + k * 2) by lia. rewrite Z.mod_add, Z.div_add by lia. destruct (decide (i = 0)) as [->|].
    + change (0 mod 2 =? 0) with true. change (0 / 2) with 0. rewrite upd_ne by lia. by replace (o + 4 * (0 + k * 2)) with (o + 4 * (k * 2)) by lia; rewrite upd_eq.
    + replace i with 1 by lia. change (1 mod 2 =? 0) with false. change (1 / 2) with 0. by replace (1 + k * 2) with (k * 2 + 1) by lia; rewrite upd_eq.
  - intros a Ha. by rewrite !upd_ne by lia.
Qed.

Lemma dequant_q4_k_ok b src dst n m : 0 <= n ->
  let m' := dequant_q4_k b src dst (n * 256) m in (forall i, 0 <= i < n * 256 -> ld m' dst i = weight b GGML_TYPE_Q4_K src i) /\ same_but dst (n * 256) m m'.
Proof.
  intros Hn. unfold dequant_q4_k. change Q4K_BLOCK_SIZE with 256. rewrite Z.div_mul by lia. apply pieces_ok; [lia..|]. intros k m1 Hk.
  set (blk := src + k * Q4K_BYTES_PER_BLK). set (out := dst + 4 * (256 * k)).
  destruct (pieces_ok 8 32 (fun s m => dequant_part b (blk + 16 + s * 16) (dst + 4 * (k * 256 + s * 32))
    (f16_to_f32 (load16 b blk) * fofz (q4k_scales b (blk + 4) s))%float (f16_to_f32 (load16 b (blk + 2)) * fofz (q4k_mins b (blk + 4) s))%float m)
    (fun r => weight b GGML_TYPE_Q4_K src (256 * k + r)) out m1) as [H1 H2]; [lia..| |].
  - intros s m2 Hs. replace (out + 4 * (32 * s)) with (dst + 4 * (k * 256 + s * 32)) by (unfold out; lia).
    edestruct dequant_part_ok as [H1 H2]. split; [|exact H2]. intros i Hi. unfold out. rewrite ld_shift. replace (256 * k + (32 * s + i)) with (k * 256 + s * 32 + i) by lia.
    rewrite <- ld_shift, H1 by done. unfold weight. change (GGML_TYPE_Q4_K =? GGML_TYPE_F32) with false. change (GGML_TYPE_Q4_K =? GGML_TYPE_F16) with false. change (GGML_TYPE_Q4_K =? GGML_TYPE_Q8_0) with false. cbn match.
    replace ((k * 256 + s * 32 + i) / 256) with k by dlia. replace ((k * 256 + s * 32 + i) mod 256 / 32) with s by dlia.
    replace ((k * 256 + s * 32 + i) mod 32) with i by dlia. replace ((k * 256 + s * 32 + i) mod 2) with (i mod 2) by dlia. done.
  - split; [|exact H2]. intros i Hi. rewrite <- ld_shift. apply H1. lia.
Qed.

(** Every type with data: exactly the tensor's numbers are written. *)
Lemma dequant_ok b ti src dst m : known_type (ti_type ti) -> 0 <= ti_n_elem ti < 2 ^ 61 -> ti_n_elem ti mod block_of (ti_type ti) = 0 -> ti_raw_bytes ti = tensor_bytes (ti_type ti) (ti_n_elem ti) ->
  let m' := dequant b ti src dst m in (forall i, 0 <= i < ti_n_elem ti -> ld m' dst i = weight b (ti_type ti) src i) /\ same_but dst (ti_n_elem ti) m m'.
Proof.
  destruct ti as [nm n t off rb]. cbn [ti_type ti_n_elem ti_raw_bytes]. intros Ht Hn Hb ->. unfold dequant. cbn [ti_type ti_n_elem ti_raw_bytes].
  destruct Ht as [-> | [-> | [-> | ->]]]; cbn [Z.eqb GGML_TYPE_F32 GGML_TYPE_F16 GGML_TYPE_Q8_0 GGML_TYPE_Q4_K Pos.eqb].
  - unfold copy_f32, tensor_bytes. cbn [Z.eqb GGML_TYPE_F32]. rewrite u64_small, Z.div_mul by lia. apply store_loop_ok; [lia | done].
  - apply store_loop_ok; [lia | done].
  - replace n with (n / 32 * 32) by (unfold block_of in Hb; cbn in Hb; dlia). apply dequant_q8_0_ok. dlia.
  - replace n with (n / 256 * 256) by (unfold block_of in Hb; cbn in Hb; dlia). apply dequant_q4_k_ok. dlia.
Qed.
(** A number depends on the bytes of its tensor only. *)
Lemma weight_agree b b' t src src' n i : known_type t -> 0 <= n < 2 ^ 61 -> n mod block_of t = 0 -> 0 <= i < n ->
  (forall j, 0 <= j < tensor_bytes t n -> b (src + j) = b' (src' + j)) -> weight b t src i = weight b' t src' i.
Proof.
  intros Ht Hn Hb Hi Hj.
  assert (Hld : forall k o, 0 <= o -> o + Z.of_nat k <= tensor_bytes t n -> load_le k b (src + o) = load_le k b' (src' + o)).
  { intros k. induction k as [|k IH]; intros o Ho Hk; cbn [load_le]; [done|]. rewrite Hj by lia. f_equal. f_equal. rewrite <- !Z.add_assoc. apply IH; lia. }
  destruct Ht as [-> | [-> | [-> | ->]]]; unfold weight, tensor_bytes, block_of, load16, load32 in *;
    cbn [Z.eqb GGML_TYPE_F32 GGML_TYPE_F16 GGML_TYPE_Q8_0 GGML_TYPE_Q4_K Pos.eqb] in *.
  - rewrite u64_small in Hld by lia. rewrite Hld by lia. done.
  - rewrite u64_small in Hld by lia. rewrite Hld by lia. done.
  - unfold Q80_BLOCK_SIZE, Q80_BYTES_PER_BLK in *. rewrite u64_small in Hld, Hj by dlia. rewrite Hld by dlia. repeat f_equal.
    rewrite <- !Z.add_assoc. apply Hj. dlia.
  - unfold Q4K_BLOCK_SIZE, Q4K_BYTES_PER_BLK in *. rewrite u64_small in Hld, Hj by dlia.
    assert (Hb1 : 0 <= i / 256 * 144 /\ i / 256 * 144 + 144 <= n / 256 * 144) by dlia.
    assert (Hs : 0 <= i mod 256 / 32 < 8) by dlia. assert (Hq : 0 <= i mod 32 / 2 < 16) by dlia.
    assert (Hbyte : forall j, 0 <= j < 144 -> b (src + i / 256 * 144 + j) = b' (src' + i / 256 * 144 + j)) by (intros j Hjj; rewrite <- !Z.add_assoc; apply Hj; lia).
    set (blk := src + i / 256 * 144) in *. set (blk' := src' + i / 256 * 144) in *. set (s := i mod 256 / 32) in *. set (r := i mod 32 / 2) in *.
    replace (load_le 2 b blk) with (load_le 2 b' blk') by (symmetry; apply Hld; lia).
    replace (load_le 2 b (blk + 2)) with (load_le 2 b' (blk' + 2)) by (unfold blk, blk'; rewrite <- !Z.add_assoc; symmetry; apply Hld; lia).
    unfold q4k_scales, q4k_mins. rewrite <- !Z.add_assoc, <- !Z.add_sub_assoc. rewrite !Hbyte by lia. destruct (Z.ltb_spec s 4); rewrite ?Hbyte by lia; done.
Qed.
End Dequant.

(** ** Half precision *)

(** The numbers of an IEEE format: [(-1)^s * m * 2^e]. *)
Inductive number : Type := Finite (s : bool) (m e : Z) | Infinite (s : bool) | NaN (s : bool) (payload : Z).

(** The number with [mw] bits of mantissa and [ew] of exponent. *)
Definition number_of (mw ew x : Z) : number :=
  let s := 2 ^ (mw + ew) <=? x in
  let e := x / 2 ^ mw mod 2 ^ ew in
  let m := x mod 2 ^ mw in
  let bias := 2 ^ (ew - 1) - 1 in
  if e =? 2 ^ ew - 1 then (if m =? 0 then Infinite s else NaN s m)
  else if e =? 0 then Finite s m (1 - bias - mw)
  else Finite s (m + 2 ^ mw) (e - bias - mw).

(** Equality of values; the payload of a NaN moves to the upper end. *)
Definition same_number (shift : Z) (a b : number) : bool :=
  match a, b with
  | Finite s m e, Finite s' m' e' => bool_decide (s = s') && (if e <=? e' then m =? m' * 2 ^ (e' - e) else m * 2 ^ (e - e') =? m')
  | Infinite s, Infinite s' => bool_decide (s = s')
  | NaN s p, NaN s' p' => bool_decide (s = s') && (p * 2 ^ shift =? p')
  | _, _ => false
  end.

Definition half_exact (h : Z) : bool :=
  let b := f16_bits h in (0 <=? b) && (b <? 2 ^ 32) && same_number 13 (number_of 10 5 h) (number_of 23 8 b).
Definition half_numbers : nat := Z.to_nat 65536.

Lemma half_inexact_none : find_up half_numbers 0 (fun h => negb (half_exact h)) = None.
Proof. vm_compute. reflexivity. Qed.

(** Every one of the 65536 half-precision patterns becomes the 32-bit
    pattern of the same number: same sign, same value (subnormal numbers
    included), infinities and NaNs preserved. *)
Theorem f16_bits_exact h : 0 <= h < 2 ^ 16 -> 0 <= f16_bits h < 2 ^ 32 /\ same_number 13 (number_of 10 5 h) (number_of 23 8 (f16_bits h)) = true.
Proof.
  intros Hh. pose proof (proj1 (find_up_None _ _ _) half_inexact_none h) as E. cbv beta in E. rewrite negb_false_iff in E.
  unfold half_exact in E. specialize (E ltac:(unfold half_numbers; rewrite Z2Nat.id; lia)). b2p. done.
Qed.

(** 0x0001, the smallest positive one, is 2^-24. *)
Lemma f16_bits_exact_witness : same_number 13 (number_of 10 5 1) (number_of 23 8 (f16_bits 1)) = true /\ number_of 23 8 (f16_bits 1) = Finite false (2 ^ 23) (- 47).
Proof. split; [apply (f16_bits_exact 1); lia | reflexivity]. Defined.

(** ** An example *)

Definition demo_name : list Z := [111; 117; 116; 112; 117; 116; 46; 119; 101; 105; 103; 104; 116].
Definition demo_gguf : gguf := mk_gguf 3
  [([97], MArray 9 [MArray 4 [MFixed 4 [1; 0; 0; 0]; MFixed 4 [2; 0; 0; 0]]; MArray 8 [MString [120]; MString []]]); ([98; 99], MFixed 7 [1; 2; 3; 4])]
  [mk_gtensor demo_name [2; 2] GGML_TYPE_F16 0; mk_gtensor [98; 108; 107; 46; 49; 46; 97; 116; 116; 110; 95; 107; 46; 119; 101; 105; 103; 104; 116] [2] GGML_TYPE_F32 8]
  [0; 60; 0; 64; 0; 66; 0; 68; 0; 0; 128; 63; 0; 0; 0; 64].

Lemma demo_gguf_ok : gguf_ok demo_gguf.
Proof.
  unfold gguf_ok, GGUF_VER_MIN, GGUF_VER_MAX, tensor_ok. repeat first [split | constructor | apply Forall_nil_2]; cbn; unfold fixed_type, MAX_TENSOR_NAME, MAX_TENSOR_DIMS, MAX_TENSORS, GGML_TYPE_F16, GGML_TYPE_F32; try lia; done.
Qed.

Lemma gguf_parse_roundtrip_witness : exists c c', read_header 3 (bytes_of (encode_gguf demo_gguf)) (len (encode_gguf demo_gguf)) = Some (inr (3, 2, c)) /\
  read_tensors 2 (bytes_of (encode_gguf demo_gguf)) 0 c = Some (map tinfo_of (g_tensors demo_gguf), 6, c') /\ c_pos (cur_align GGUF_ALIGN c') = 224.
Proof.
  destruct (gguf_parse_roundtrip demo_gguf (bytes_of (encode_gguf demo_gguf)) 3) as (c & c' & H1 & H2 & H3 & _).
  - apply demo_gguf_ok.
  - apply Nat.leb_le. vm_compute. reflexivity.
  - vm_compute. reflexivity.
  - vm_compute. reflexivity.
  - exists c, c'. split; [exact H1|]. split; [exact H2|]. rewrite H3. vm_compute. reflexivity.
Defined.
