(* ===== verification/Files.v ===== *)
(** The four file calls of kernel/fs/vfs.h as its clients use them (the
    weight loader of kernel/llm/loader.c, the file explorer of
    kernel/apps/explorer.c): a class, its laws for files that do not change,
    and the file layer of Vfs.v as the implementation. *)

From S2P Require Import Prelude Memory Disk Fat32 Vfs.
Local Open Scope Z_scope.

(** The four calls of kernel/fs/vfs.h; [fs_read fd buf count] also gives the
    bytes read, counted from 0. *)
Class FileSys (V : Type) := {
  fs_stat : list Z -> V -> option (option Z * V);
  fs_open : list Z -> V -> option (Z * V);
  fs_read : Z -> Z -> Z -> V -> option (Z * mem * V);
  fs_close : Z -> V -> V;
}.

(** What a file system with files that do not change promises. *)
Class FileSysSpec (V : Type) `{FileSys V} := {
  fs_inv : V -> Prop;
  fs_file : V -> list Z -> option (list Z);
  fs_opened : V -> Z -> list Z -> Prop;
  fs_stat_ok path v : fs_inv v -> exists v', fs_stat path v = Some (Z.of_nat ∘ length <$> fs_file v path, v') /\ fs_inv v' /\ fs_file v' = fs_file v;
  fs_open_ok path v : fs_inv v ->
    exists fd v', fs_open path v = Some (fd, v') /\ fs_inv v' /\ fs_file v' = fs_file v /\
      (fd < 0 \/ exists data, fs_file v path = Some data /\ fs_opened v' fd data);
  fs_read_ok fd buf data v : fs_inv v -> fs_opened v fd data ->
    exists nread b v', fs_read fd buf (Z.of_nat (length data)) v = Some (nread, b, v') /\ fs_inv v' /\ fs_file v' = fs_file v /\
      (nread = Z.of_nat (length data) -> seg b 0 data);
  fs_close_ok fd v : fs_inv v -> fs_inv (fs_close fd v) /\ fs_file (fs_close fd v) = fs_file v;
}.

(** kernel/fs/vfs.c is one: the fuel bounds its walks along cluster chains,
    the stack arrays are those of its path look-up. *)
Definition path_fun (l : list Z) : Z -> Z := fun i => nth (Z.to_nat i) l 0.
Definition vfs_files {D} `{BlockDev D} (stack_name stack_target stack_83 : Z -> Z) (fuel : nat) : FileSys (vfs D) := {|
  fs_stat path v := match vfs_stat stack_name stack_target stack_83 fuel (Some (path_fun path)) v with Some (r, v) => Some (st_size <$> r, v) | None => None end;
  fs_open path v := vfs_open stack_name stack_target stack_83 fuel (Some (path_fun path)) v;
  fs_read fd buf count v := match vfs_read fuel fd buf count v with Some (got, v) => Some (got, fun i => ram (fsys v) (buf + i), v) | None => None end;
  fs_close fd v := (vfs_close fd v).2;
|}.

(** ** An example *)

(** Files in a table; a descriptor is the file's place in it. *)
Definition table := list (list Z * list Z).
Definition table_find (path : list Z) (v : table) : option nat := fst <$> list_find (fun e => e.1 = path) v.
Definition table_file (v : table) (path : list Z) : option (list Z) := i ← table_find path v; snd <$> v !! i.
#[export] Instance table_files : FileSys table := {|
  fs_stat path v := Some ((fun d => Z.of_nat (length d)) <$> table_file v path, v);
  fs_open path v := Some (match table_find path v with Some i => Z.of_nat i | None => - 1 end, v);
  fs_read fd _ count v := match v !! Z.to_nat fd with Some e => Some (Z.min count (Z.of_nat (length e.2)), path_fun e.2, v) | None => Some (- 1, fun _ => 0, v) end;
  fs_close _ v := v;
|}.

Lemma path_fun_seg l : seg (path_fun l) 0 l.
Proof. unfold seg. apply bytes_at_eq; [lia|]. intros i Hi. done. Qed.

#[export] Instance table_files_spec : FileSysSpec table.
Proof.
  refine {| fs_inv _ := True; fs_file := table_file; fs_opened v fd data := exists e, v !! Z.to_nat fd = Some e /\ e.2 = data |}.
  - intros path v _. exists v. done.
  - intros path v _. eexists _, v. split; [done|]. split; [done|]. split; [done|]. unfold table_file, table_find. destruct (list_find _ v) as [[i e]|] eqn:E; [right | left; cbn; lia].
    apply list_find_Some in E as (E & _ & _). exists e.2. split; [exact (f_equal (fmap snd) E)|]. exists e. split; [cbn [fst fmap option_fmap option_map]; rewrite Nat2Z.id; exact E | done].
  - intros fd buf data v _ (e & E & <-). cbn. rewrite E. eexists _, _, v. split; [done|]. split; [done|]. split; [done|]. intros _. apply path_fun_seg.
  - done.
Defined.
