(* ===== verification/Loader.v ===== *)
(** The loader of weights (kernel/llm/loader.c): the file is read whole,
    checked and taken apart, its tensors are dequantised into one array of
    floats and the model's pointers are set to them.

    What loading a weight file gives: every named slot of the model points to
    the dequantised numbers of its tensor, and no memory is lost; which errors
    it reports, and what it keeps then. *)

From Stdlib Require Import String Ascii.
From S2P Require Import Prelude Memory Float Arena Simd Tensor Attention Transformer Model Gguf Files AttentionSpec.
Local Open Scope Z_scope.

(** ** Names of tensors *)

Definition chars (s : string) : list Z := map (fun c => Z.of_nat (nat_of_ascii c)) (list_ascii_of_string s).

Fixpoint ldr_strncmp (n : nat) (a b : list Z) : Z :=
  match n with
  | O => 0
  | S n =>
      let ca := nth 0 a 0 in
      let cb := nth 0 b 0 in
      if negb (ca =? cb) then ca - cb else if ca =? 0 then 0 else ldr_strncmp n (tl a) (tl b)
  end.
(** Every comparison of the table takes as many characters as the constant
    has. *)
Definition begins (name : list Z) (s : string) : bool := ldr_strncmp (String.length s) name (chars s) =? 0.

(** Where a pointer to the floats is stored: a tensor of the model, or a field
    of a block. *)
Inductive block_field : Type := FNorm1Gamma | FNorm1Beta | FNorm2Gamma | FNorm2Beta | FWq | FWk | FWv | FWo | FW1 | FW2 | FWGate.
Inductive slot : Type := SWte | SWpe | SLnFW | SLnFB | SLmHead | SBlock (layer : Z) (f : block_field).
#[export] Instance block_field_eq_dec : EqDecision block_field.
Proof. solve_decision. Defined.
#[export] Instance slot_eq_dec : EqDecision slot.
Proof. solve_decision. Defined.

Definition is_digit (c : Z) : bool := (48 <=? c) && (c <=? 57).
(** The number of the layer and what follows it. *)
Fixpoint parse_layer (name : list Z) (layer : Z) : Z * list Z :=
  match name with
  | c :: rest => if is_digit c then parse_layer rest (u32 (layer * 10 + (c - 48))) else (layer, name)
  | [] => (layer, [])
  end.

(** The first entry whose constant the name begins with. *)
Fixpoint lookup_name {T} (table : list (string * T)) (name : list Z) : option T :=
  match table with
  | [] => None
  | (s, t) :: table => if begins name s then Some t else lookup_name table name
  end.
Definition model_names : list (string * slot) :=
  [("token_embd.weight", SWte); ("position_embd.weight", SWpe); ("output_norm.weight", SLnFW); ("output_norm.bias", SLnFB); ("output.weight", SLmHead)]%string.
Definition block_names : list (string * block_field) :=
  [("attn_norm.weight", FNorm1Gamma); ("attn_norm.bias", FNorm1Beta); ("attn_q.weight", FWq); ("attn_k.weight", FWk); ("attn_v.weight", FWv);
   ("attn_output.weight", FWo); ("ffn_norm.weight", FNorm2Gamma); ("ffn_norm.bias", FNorm2Beta);
   ("ffn_gate.weight", FW1); ("ffn_up.weight", FW2); ("ffn_down.weight", FWGate)]%string.

Definition find_tensor_slot (n_layers : Z) (name : list Z) : option slot :=
  match lookup_name model_names name with
  | Some sl => Some sl
  | None =>
      if Z.of_nat (length name) <? 5 then None
      else if negb (bool_decide (take 4 name = chars "blk.")) then None
      else
        let '(layer, rest) := parse_layer (drop 4 name) 0 in
        match rest with
        | 46 :: sub => if n_layers <=? layer then None else SBlock layer <$> lookup_name block_names sub
        | _ => None
        end
  end.

Definition set_data (p : Z) (t : tensor_t) : tensor_t := mk_tensor p (t_dims t) (t_ndim t) (t_numel t).
Definition set_field (f : block_field) (p : Z) (b : transformer_block_t) : transformer_block_t :=
  let '(mk_block g1 e1 g2 e2 wq wk wv wo bq bk bv bo w1 w2 wg b1 b2 ffn st) := b in
  match f with
  | FNorm1Gamma => mk_block p e1 g2 e2 wq wk wv wo bq bk bv bo w1 w2 wg b1 b2 ffn st
  | FNorm1Beta => mk_block g1 p g2 e2 wq wk wv wo bq bk bv bo w1 w2 wg b1 b2 ffn st
  | FNorm2Gamma => mk_block g1 e1 p e2 wq wk wv wo bq bk bv bo w1 w2 wg b1 b2 ffn st
  | FNorm2Beta => mk_block g1 e1 g2 p wq wk wv wo bq bk bv bo w1 w2 wg b1 b2 ffn st
  | FWq => mk_block g1 e1 g2 e2 p wk wv wo bq bk bv bo w1 w2 wg b1 b2 ffn st
  | FWk => mk_block g1 e1 g2 e2 wq p wv wo bq bk bv bo w1 w2 wg b1 b2 ffn st
  | FWv => mk_block g1 e1 g2 e2 wq wk p wo bq bk bv bo w1 w2 wg b1 b2 ffn st
  | FWo => mk_block g1 e1 g2 e2 wq wk wv p bq bk bv bo w1 w2 wg b1 b2 ffn st
  | FW1 => mk_block g1 e1 g2 e2 wq wk wv wo bq bk bv bo p w2 wg b1 b2 ffn st
  | FW2 => mk_block g1 e1 g2 e2 wq wk wv wo bq bk bv bo w1 p wg b1 b2 ffn st
  | FWGate => mk_block g1 e1 g2 e2 wq wk wv wo bq bk bv bo w1 w2 p b1 b2 ffn st
  end.
Definition set_slot (sl : slot) (p : Z) (md : aios_model_t) : aios_model_t :=
  let '(mk_model te pe bp bl nw nb lm kp kv) := md in
  match sl with
  | SWte => mk_model (set_data p te) pe bp bl nw nb lm kp kv
  | SWpe => mk_model te (set_data p pe) bp bl nw nb lm kp kv
  | SLnFW => mk_model te pe bp bl (set_data p nw) nb lm kp kv
  | SLnFB => mk_model te pe bp bl nw (set_data p nb) lm kp kv
  | SLmHead => mk_model te pe bp bl nw nb (set_data p lm) kp kv
  | SBlock l f => mk_model te pe bp (upd bl l (set_field f p (bl l))) nw nb lm kp kv
  end.

(** ** Loading *)

Definition loader_err_str (err : loader_err_t) : string :=
  match err with
  | LOADER_OK => "ok"
  | LOADER_ERR_NOT_FOUND => "file not found"
  | LOADER_ERR_BAD_MAGIC => "not a GGUF file"
  | LOADER_ERR_BAD_VER => "unsupported GGUF version (need v2/v3)"
  | LOADER_ERR_OOM => "out of memory"
  | LOADER_ERR_BAD_TENSOR => "corrupt or unsupported tensor"
  | LOADER_ERR_MISMATCH => "tensor dims mismatch model config"
  | LOADER_ERR_IO => "VFS read error"
  end.

Record loader_ctx_t := mk_ctx { float_arena : Z; arena_bytes : Z; raw_blob : Z; raw_bytes : Z; n_tensors : Z; gguf_version : Z }.
Definition SIZEOF_CTX : Z := 40.
Definition SIZEOF_TINFO : Z := 168.

Definition s64 (x : Z) : Z := (x + 2 ^ 63) mod 2 ^ 64 - 2 ^ 63.

Section Loader.
Context {F} `{FloatOps F} {A : Type} `{Arena A} {V : Type} `{FileSys V}.
Implicit Types (m : fmem F) (s : A) (cfg : model_config_t F) (v : V).

(** One tensor: dequantised at the arena's pointer, which moves behind it. *)
Definition load_tensor cfg (b : mem) (total data_start : Z) (ti : tinfo_t) (st : fmem F * aios_model_t * Z) : fmem F * aios_model_t * Z :=
  let '(m, md, arena_ptr) := st in
  if ti_raw_bytes ti =? 0 then (m, md, arena_ptr)
  else if total <? u64 (data_start + ti_raw_offset ti + ti_raw_bytes ti) then (m, md, arena_ptr)
  else
    let m := dequant b ti (s64 (data_start + ti_raw_offset ti)) arena_ptr m in
    let md := match find_tensor_slot (mc_n_layers cfg) (ti_name ti) with Some sl => set_slot sl arena_ptr md | None => md end in
    (m, md, u64 (arena_ptr + 4 * ti_n_elem ti)).
Fixpoint load_tensors cfg (b : mem) (total data_start : Z) (tis : list tinfo_t) (st : fmem F * aios_model_t * Z) : fmem F * aios_model_t * Z :=
  match tis with
  | [] => st
  | ti :: tis => load_tensors cfg b total data_start tis (load_tensor cfg b total data_start ti st)
  end.

Definition tie cfg (md : aios_model_t) : aios_model_t :=
  if tie_weights cfg && negb (t_data (wte md) =? 0) && (t_data (lm_head md) =? 0)
  then mk_model (wte md) (wpe md) (blocks_ptr md) (m_blocks md) (ln_f_w md) (ln_f_b md) (wte md) (kvc_ptr md) (m_kvc md) else md.

(** The result: the error, and on success the model and the context with
    their addresses. *)
Definition load_result : Type := loader_err_t * option (Z * aios_model_t * (Z * loader_ctx_t)).
Definition failed (e : loader_err_t) : load_result := (e, None).

(** The labels at the end of the function. *)
Definition free_blob (raw ctx : Z) s : option A := s ← ar_free false raw s; ar_free false ctx s.
Definition out_of_memory (arena raw ctx : Z) s : option A :=
  s ← (if arena =? 0 then Some s else ar_free true arena s); free_blob raw ctx s.

(** From the bytes of the file on. *)
Definition load_blob (fuel : nat) cfg (b : mem) (ctx raw total : Z) s m : option (load_result * A * fmem F) :=
  r ← read_header fuel b total;
  match r with
  | inl e => s ← free_blob raw ctx s; Some (failed e, s, m)
  | inr (version, n_tens, c) =>
      '(tinfos, s) ← ar_alloc false (SIZEOF_TINFO * MAX_TENSORS) s;
      if tinfos =? 0 then s ← out_of_memory 0 raw ctx s; Some (failed LOADER_ERR_OOM, s, m)
      else
        match read_tensors (Z.to_nat (Z.min n_tens MAX_TENSORS)) b 0 c with
        | None => s ← free_blob raw ctx s; Some (failed LOADER_ERR_BAD_TENSOR, s, m)
        | Some (tis, arena_floats, c) =>
            let data_start := c_pos (cur_align GGUF_ALIGN c) in
            let abytes := u64 (arena_floats * 4) in
            '(arena, s) ← ar_alloc true abytes s;
            if arena =? 0 then s ← ar_free false tinfos s; s ← out_of_memory 0 raw ctx s; Some (failed LOADER_ERR_OOM, s, m)
            else
              '(md, s, m) ← model_alloc cfg s m;
              match md with
              | None => s ← ar_free false tinfos s; s ← out_of_memory arena raw ctx s; Some (failed LOADER_ERR_OOM, s, m)
              | Some (p, md) =>
                  let '(m, md, _) := load_tensors cfg b total data_start (take (Z.to_nat (u32 n_tens)) tis) (m, md, arena) in
                  s ← ar_free false tinfos s;
                  Some ((LOADER_OK, Some (p, tie cfg md, (ctx, mk_ctx arena abytes raw total (u32 n_tens) version))), s, m)
              end
        end
  end.

Definition loader_load (fuel : nat) (path : list Z) cfg v s m : option (load_result * V * A * fmem F) :=
  '(st, v) ← fs_stat path v;
  match st with
  | None => Some (failed LOADER_ERR_NOT_FOUND, v, s, m)
  | Some size =>
      if size =? 0 then Some (failed LOADER_ERR_IO, v, s, m)
      else
        '(fd, v) ← fs_open path v;
        if fd <? 0 then Some (failed LOADER_ERR_NOT_FOUND, v, s, m)
        else
          '(ctx, s) ← ar_alloc false SIZEOF_CTX s;
          if ctx =? 0 then Some (failed LOADER_ERR_OOM, fs_close fd v, s, m)
          else
            '(raw, s) ← ar_alloc false size s;
            if raw =? 0 then s ← ar_free false ctx s; Some (failed LOADER_ERR_OOM, fs_close fd v, s, m)
            else
              '(nread, b, v) ← fs_read fd raw size v;
              let v := fs_close fd v in
              if negb (nread =? s32 size) then s ← free_blob raw ctx s; Some (failed LOADER_ERR_IO, v, s, m)
              else '(r, s, m) ← load_blob fuel cfg b ctx raw size s m; Some (r, v, s, m)
  end.

Definition loader_close (ctx : Z) (c : loader_ctx_t) s : option A :=
  if ctx =? 0 then Some s
  else
    s ← (if float_arena c =? 0 then Some s else ar_free true (float_arena c) s);
    s ← (if raw_blob c =? 0 then Some s else ar_free false (raw_blob c) s);
    ar_free false ctx s.
End Loader.

(** * Specification *)

(** ** Slots *)

Definition get_field (f : block_field) (b : transformer_block_t) : Z :=
  match f with
  | FNorm1Gamma => norm1_gamma b | FNorm1Beta => norm1_beta b | FNorm2Gamma => norm2_gamma b | FNorm2Beta => norm2_beta b
  | FWq => b_wq b | FWk => b_wk b | FWv => b_wv b | FWo => b_wo b | FW1 => b_w1 b | FW2 => b_w2 b | FWGate => b_w_gate b
  end.
Definition get_slot (sl : slot) (md : aios_model_t) : Z :=
  match sl with
  | SWte => t_data (wte md) | SWpe => t_data (wpe md) | SLnFW => t_data (ln_f_w md) | SLnFB => t_data (ln_f_b md) | SLmHead => t_data (lm_head md)
  | SBlock l f => get_field f (m_blocks md l)
  end.

Lemma get_set_field f f' p b : get_field f' (set_field f p b) = if decide (f' = f) then p else get_field f' b.
Proof. destruct b, f, f'; reflexivity. Qed.

Lemma get_set_slot sl sl' p md : get_slot sl' (set_slot sl p md) = if decide (sl' = sl) then p else get_slot sl' md.
Proof.
  destruct md as [te pe bp bl nw nb lm kp kv], sl as [| | | | |l f], sl' as [| | | | |l' f']; try reflexivity.
  cbn [set_slot get_slot m_blocks]. rewrite upd_spec. destruct (decide (l = l')) as [->|Hl].
  - rewrite get_set_field. repeat case_decide; congruence.
  - case_decide; congruence.
Qed.

(** What the slots do not reach. *)
Record same_frame (md md' : aios_model_t) : Prop := {
  sf_kvc : m_kvc md' = m_kvc md;
  sf_kvc_ptr : kvc_ptr md' = kvc_ptr md;
  sf_blocks : blocks_ptr md' = blocks_ptr md;
  sf_ffn : forall l, ffn_hidden (m_blocks md' l) = ffn_hidden (m_blocks md l);
}.
Lemma same_frame_refl md : same_frame md md.
Proof. done. Qed.
Lemma same_frame_trans md1 md2 md3 : same_frame md1 md2 -> same_frame md2 md3 -> same_frame md1 md3.
Proof. intros [] []. split; try congruence. Qed.
Lemma set_slot_frame sl p md : same_frame md (set_slot sl p md).
Proof.
  destruct md as [te pe bp bl nw nb lm kp kv], sl as [| | | | |l f]; cbn; try done. split; cbn; try done. intros l'. rewrite upd_spec.
  case_decide; [|done]. subst l'. by destruct (bl l), f.
Qed.

(** ** Loading the tensors one by one *)

Section Loader.
Context {F} `{FloatOps F} {A : Type} `{ArenaSpec A} {V : Type} `{FileSysSpec V}.
Implicit Types (m : fmem F) (s : A) (cfg : model_config_t F) (v : V).

(** Tensors whose data lie in the file, in whole blocks. *)
Definition data_ok (total data_start : Z) (t : gtensor) : Prop :=
  known_type (g_type t) /\ 0 < tensor_bytes (g_type t) (elements t) /\ 0 <= elements t < 2 ^ 28 /\ elements t mod block_of (g_type t) = 0 /\
  data_start + g_offset t + tensor_bytes (g_type t) (elements t) <= total.

#[export] Instance data_ok_dec total data_start t : Decision (data_ok total data_start t).
Proof. unfold data_ok. apply _. Defined.

(** The sum of the elements. *)
Definition all_elements (ts : list gtensor) : Z := foldr (fun t a => elements t + a) 0 ts.

(** Where the slot points after the tensors from [p] on: to the last tensor of
    its name. *)
Fixpoint last_place (n_layers : Z) (sl : slot) (ts : list gtensor) (p d : Z) : Z :=
  match ts with
  | [] => d
  | t :: ts => last_place n_layers sl ts (p + 4 * elements t) (if decide (find_tensor_slot n_layers (g_name t) = Some sl) then p else d)
  end.

(** The numbers of every tensor stand one after the other from [p] on. *)
Fixpoint loaded (b : mem) (data_start : Z) (ts : list gtensor) (p : Z) m : Prop :=
  match ts with
  | [] => True
  | t :: ts => (forall i, 0 <= i < elements t -> ld m p i = weight b (g_type t) (data_start + g_offset t) i) /\ loaded b data_start ts (p + 4 * elements t) m
  end.

Lemma all_elements_nonneg total data ts : Forall (data_ok total data) ts -> 0 <= all_elements ts.
Proof. induction 1 as [|t ts (_ & _ & He & _) _ IH]; [done|]. unfold all_elements in *. cbn [foldr]. lia. Qed.

Lemma load_tensors_ok cfg b total data ts m md p : 0 <= data -> total < 2 ^ 63 -> Forall (data_ok total data) ts -> Forall tensor_ok ts -> 0 < p -> p + 4 * all_elements ts < 2 ^ 64 ->
  exists m' md', load_tensors cfg b total data (map tinfo_of ts) (m, md, p) = (m', md', p + 4 * all_elements ts) /\
    loaded b data ts p m' /\ same_but p (all_elements ts) m m' /\ same_frame md md' /\
    forall sl, get_slot sl md' = last_place (mc_n_layers cfg) sl ts p (get_slot sl md).
Proof.
  intros Hd Ht Hts Hok. revert m md p. induction Hts as [|t ts (Hk & Hb & He & Hm & Hl) Hts IH]; intros m md p Hp Hsum; cbn [map load_tensors all_elements foldr] in *.
  { exists m, md. rewrite Z.mul_0_r, Z.add_0_r. done. }
  fold (all_elements ts) in *. apply Forall_cons in Hok as [(_ & _ & _ & _ & Ho) Hok]. pose proof (all_elements_nonneg _ _ _ Hts).
  unfold load_tensor. cbn [ti_raw_bytes ti_raw_offset ti_n_elem ti_name ti_type tinfo_of]. rewrite (proj2 (Z.eqb_neq _ 0)), u64_small, (proj2 (Z.ltb_ge _ _)) by lia.
  destruct (dequant_ok b (tinfo_of t) (data + g_offset t) p m) as [D1 D2]; [done | cbn; lia | done | done|]. cbn [tinfo_of ti_n_elem ti_type] in D1, D2. change (mk_tinfo (g_name t) _ _ _ _) with (tinfo_of t).
  replace (s64 (data + g_offset t)) with (data + g_offset t) by (unfold s64; rewrite Z.mod_small; lia). rewrite (u64_small (p + _)) by lia.
  set (m1 := dequant _ _ _ _ _) in *. set (md1 := match find_tensor_slot _ _ with Some sl => _ | None => _ end).
  destruct (IH Hok m1 md1 (p + 4 * elements t)) as (m' & md' & E & L & S & Fr & G); [lia..|].
  exists m', md'. split; [rewrite E; f_equal; lia|]. split; [split; [|done]|split; [|split]].
  - intros i Hi. rewrite <- D1 by done. unfold ld. apply S. lia.
  - intros a Ha. rewrite S, D2 by lia. done.
  - eapply same_frame_trans; [|done]. unfold md1. destruct (find_tensor_slot _ _); [apply set_slot_frame | done].
  - intros sl. rewrite G. cbn [last_place]. f_equal. unfold md1. destruct (find_tensor_slot _ _) as [sl'|]; [|case_decide; done].
    rewrite get_set_slot. repeat case_decide; congruence.
Qed.
(** The last tensor of a name: its numbers are where the slot points. *)
Definition last_of (n_layers : Z) (ts : list gtensor) (k : nat) (sl : slot) : Prop :=
  (exists t, ts !! k = Some t /\ find_tensor_slot n_layers (g_name t) = Some sl) /\
  forall j t, (k < j)%nat -> ts !! j = Some t -> find_tensor_slot n_layers (g_name t) <> Some sl.
Definition unnamed (n_layers : Z) (ts : list gtensor) (sl : slot) : Prop := forall t, t ∈ ts -> find_tensor_slot n_layers (g_name t) <> Some sl.

Lemma last_place_unnamed n_layers ts sl p d : unnamed n_layers ts sl -> last_place n_layers sl ts p d = d.
Proof.
  revert p d. induction ts as [|t ts IH]; intros p d Hu; cbn [last_place]; [done|].
  rewrite decide_False by (apply Hu; by left). apply IH. intros t' Ht'. apply Hu. by right.
Qed.

Lemma last_place_loaded n_layers b data ts sl k t p d m : last_of n_layers ts k sl -> ts !! k = Some t -> loaded b data ts p m -> 0 < p -> Forall (fun t => 0 <= elements t) ts ->
  (p <= last_place n_layers sl ts p d /\ last_place n_layers sl ts p d + 4 * elements t <= p + 4 * all_elements ts) /\ forall i, 0 <= i < elements t -> ld m (last_place n_layers sl ts p d) i = weight b (g_type t) (data + g_offset t) i.
Proof.
  unfold all_elements. revert k p d. induction ts as [|t0 ts IH]; intros k p d [(t' & E' & Hn) Hl] Ek L Hp He; cbn [last_place loaded foldr] in *; [done|].
  apply Forall_cons in He as [He0 He]. destruct L as [L0 L]. destruct k as [|k]; cbn in Ek, E'.
  - injection Ek as ->. injection E' as ->. rewrite decide_True by done. rewrite last_place_unnamed.
    + split; [|done]. assert (0 <= foldr (fun t a => elements t + a) 0 ts) by (clear - He; induction He; cbn; lia). lia.
    + intros t'' (j & Hj)%list_elem_of_lookup. by apply (Hl (S j)); [lia|].
  - destruct (IH k (p + 4 * elements t0) (if decide (find_tensor_slot n_layers (g_name t0) = Some sl) then p else d)) as [B W]; try done; [|lia | split; [lia | done]].
    split; [by exists t'|]. intros j t'' Hj Ej. by apply (Hl (S j)); [lia|].
Qed.

(** ** The whole file *)

Definition file_ok (f : gguf) : Prop :=
  gguf_ok f /\ Forall (data_ok (len (g_data f)) 0) (g_tensors f) /\ 4 * all_elements (g_tensors f) < 2 ^ 30 /\ len (encode_gguf f) < 2 ^ 30.
Definition cfg_ok cfg : Prop := n_heads (attn_config cfg) <> 0 /\ 0 <= cache_slots (attn_config cfg) < 2 ^ 28 /\ 0 <= mc_n_layers cfg.

Lemma floats_of_sum ts a : Forall (fun t => 0 <= elements t) ts -> 0 <= a -> a + all_elements ts < 2 ^ 64 -> floats_of ts a = a + all_elements ts.
Proof.
  unfold floats_of, all_elements. revert a. induction ts as [|t ts IH]; intros a He Ha Hs; cbn [fold_left foldr] in *; [lia|].
  apply Forall_cons in He as [He0 He]. assert (0 <= foldr (fun t a => elements t + a) 0 ts) by (clear - He; induction He; cbn; lia).
  rewrite u64_small by lia. rewrite IH by (done || lia). lia.
Qed.

(** Giving memory back, with more of it still in use in front. *)
Lemma free_blob_ok raw n ctx k l1 l2 s : ar_inv s -> ar_live s = l1 ++ (raw, n) :: (ctx, k) :: l2 ->
  exists s', free_blob raw ctx s = Some s' /\ ar_inv s' /\ ar_live s' = l1 ++ l2.
Proof.
  intros Hi L. unfold free_blob. destruct (ar_free_ok false raw n l1 _ s Hi L) as (s1 & -> & I1 & L1). cbn [mbind option_bind].
  by apply (ar_free_ok false ctx k l1 l2 s1).
Qed.

Lemma out_of_memory_ok arena z raw n ctx k l s : ar_inv s -> ar_live s = (if arena =? 0 then [] else [(arena, z)]) ++ (raw, n) :: (ctx, k) :: l ->
  exists s', out_of_memory arena raw ctx s = Some s' /\ ar_inv s' /\ ar_live s' = l.
Proof.
  intros Hi L. unfold out_of_memory. destruct (arena =? 0); cbn [Datatypes.app] in L.
  - cbn [mbind option_bind]. by apply (free_blob_ok raw n ctx k [] l).
  - destruct (ar_free_ok true arena z [] _ s Hi L) as (s1 & -> & I1 & L1). cbn [mbind option_bind]. by apply (free_blob_ok raw n ctx k [] l).
Qed.

(** What the caller gets: the model's slots, and how all memory comes back. *)
Record loaded_model cfg (f : gguf) (l0 : list (Z * Z)) (p : Z) (md : aios_model_t) (ctx : Z) (c : loader_ctx_t) s m : Prop := {
  lm_addr : 0 < p;
  lm_weights k t sl : last_of (mc_n_layers cfg) (g_tensors f) k sl -> g_tensors f !! k = Some t ->
    0 < get_slot sl md /\ forall i, 0 <= i < elements t -> ld m (get_slot sl md) i = weight (bytes_of (g_data f)) (g_type t) (g_offset t) i;
  lm_unnamed sl : unnamed (mc_n_layers cfg) (g_tensors f) sl -> get_slot sl md = (if decide (sl = SLmHead) then if tie_weights cfg then t_data (wte md) else 0 else 0);
  lm_place : exists r, r ∈ ar_live s /\ Forall (disjoint_regions r) l0 /\ forall k t sl, last_of (mc_n_layers cfg) (g_tensors f) k sl -> g_tensors f !! k = Some t ->
    r.1 <= get_slot sl md /\ get_slot sl md + 4 * elements t <= r.1 + r.2;
  lm_keeps r : r ∈ l0 -> r ∈ ar_live s;
  lm_version : gguf_version c = g_version f /\ Loader.n_tensors c = len (g_tensors f);
  lm_ffn l : ffn_hidden (m_blocks md l) = 0;
  lm_cache : kv_cur_len (m_kvc md) = 0;
  lm_release : exists s1 s2, model_free p md s = Some s1 /\ loader_close ctx c s1 = Some s2 /\ ar_inv s2 /\ ar_live s2 = l0;
}.

(** The tensors of a well-formed file, in the model that was just allocated. *)
Lemma tensors_loaded cfg f b m md arena : file_ok f -> seg b (data_at f) (g_data f) -> 0 < arena -> arena + 4 * all_elements (g_tensors f) < 2 ^ 63 ->
  (forall sl, get_slot sl md = 0) ->
  exists m' md', load_tensors cfg b (len (encode_gguf f)) (data_at f) (map tinfo_of (g_tensors f)) (m, md, arena) = (m', md', arena + 4 * all_elements (g_tensors f)) /\
    same_but arena (all_elements (g_tensors f)) m m' /\ same_frame md md' /\
    (forall k t sl, last_of (mc_n_layers cfg) (g_tensors f) k sl -> g_tensors f !! k = Some t ->
      (arena <= get_slot sl md' /\ get_slot sl md' + 4 * elements t <= arena + 4 * all_elements (g_tensors f)) /\
      forall i, 0 <= i < elements t -> ld m' (get_slot sl md') i = weight (bytes_of (g_data f)) (g_type t) (g_offset t) i) /\
    forall sl, unnamed (mc_n_layers cfg) (g_tensors f) sl -> get_slot sl md' = 0.
Proof.
  intros ((_ & _ & Hok & _) & Hd & Hs & Hz) Hseg Ha Hlim Hmd.
  assert (Hlen : len (encode_gguf f) = data_at f + len (g_data f)) by (unfold encode_gguf, data_at; rewrite !length_app; lia).
  assert (Hd0 : 0 <= data_at f) by (unfold data_at; lia).
  assert (Hdata : Forall (data_ok (len (encode_gguf f)) (data_at f)) (g_tensors f)) by (apply (Forall_impl _ _ _ Hd); intros t (K1 & K2 & K3 & K4 & K5); unfold data_ok; split_and!; done || lia).
  destruct (load_tensors_ok cfg b (len (encode_gguf f)) (data_at f) (g_tensors f) m md arena Hd0 ltac:(lia) Hdata Hok Ha ltac:(lia)) as (m' & md' & E & L & S & Fr & G).
  exists m', md'. do 3 (split; [done|]). split.
  - intros k t sl Hl Ek. rewrite G. assert (He : Forall (fun t => 0 <= elements t) (g_tensors f)) by (apply (Forall_impl _ _ _ Hd); intros ? (_ & _ & [? _] & _); done).
    destruct (last_place_loaded _ b _ _ _ _ _ _ (get_slot sl md) m' Hl Ek L Ha He) as [P W]. split; [done|]. intros i Hi. rewrite W by done.
    destruct (proj1 (Forall_lookup _ _) Hd k t Ek) as (Hk & Hb & Hel & Hm & Hle). pose proof (proj1 (Forall_lookup _ _) Hok k t Ek) as (_ & _ & _ & _ & Ho).
    apply (weight_agree _ _ _ _ _ (elements t)); [done | lia | done | done|]. intros j Hj. rewrite <- Z.add_assoc. rewrite (seg_nth _ _ _ _ Hseg) by lia. done.
  - intros sl Hu. rewrite G, last_place_unnamed by done. apply Hmd.
Qed.

(** After the raw bytes have been read. *)
Lemma load_blob_ok fuel cfg f b ctx raw l0 s m : file_ok f -> cfg_ok cfg -> (gguf_depth f <= fuel)%nat -> ar_inv s -> seg b 0 (encode_gguf f) -> 0 < ctx -> 0 < raw ->
  ar_live s = (raw, len (encode_gguf f)) :: (ctx, SIZEOF_CTX) :: l0 ->
  exists e r s' m', load_blob fuel cfg b ctx raw (len (encode_gguf f)) s m = Some ((e, r), s', m') /\ ar_inv s' /\ (forall a, live_at s a -> m' a = m a) /\
    match r with None => e = LOADER_ERR_OOM /\ ar_live s' = l0 | Some (p, md, (cx, c)) => e = LOADER_OK /\ loaded_model cfg f l0 p md cx c s' m' end.
Proof.
  intros Hf (Hh & Hc & Hly) Hd Hi Hs Hctx Hraw L. pose proof Hf as (Hok & Hdata & Hsum & Hz).
  destruct (gguf_parse_roundtrip f b fuel Hok Hd ltac:(lia) Hs) as (c & c' & E1 & E2 & E3 & Hseg). unfold load_blob. rewrite E1. cbn [mbind option_bind].
  destruct (ar_alloc_ok false (SIZEOF_TINFO * MAX_TENSORS) s Hi ltac:(unfold SIZEOF_TINFO, MAX_TENSORS; lia)) as (ti & s1 & -> & I1 & Hti). cbn [mbind option_bind].
  destruct (Z.eqb_spec ti 0) as [->|Hti0].
  { destruct Hti as [[_ L1]|[? _]]; [|lia]. destruct (out_of_memory_ok 0 0 raw (len (encode_gguf f)) ctx SIZEOF_CTX l0 s1 I1 ltac:(rewrite L1; exact L)) as (s2 & -> & I2 & L2). cbn [mbind option_bind].
    by exists LOADER_ERR_OOM, None, s2, m. }
  destruct Hti as [[? _]|(Htip & L1 & _ & _)]; [done|]. rewrite L in L1. rewrite E2, E3. cbn [c_pos].
  assert (He : Forall (fun t => 0 <= elements t) (g_tensors f)) by (apply (Forall_impl _ _ _ Hdata); intros ? (_ & _ & [? _] & _); done).
  pose proof (all_elements_nonneg _ _ _ Hdata). rewrite floats_of_sum, Z.add_0_l by (done || lia). rewrite u64_small by lia.
  destruct (ar_alloc_ok true (all_elements (g_tensors f) * 4) s1 I1 ltac:(lia)) as (arena & s2 & -> & I2 & Ha). cbn [mbind option_bind].
  destruct (Z.eqb_spec arena 0) as [->|Ha0].
  { destruct Ha as [[_ L2]|[? _]]; [|lia]. rewrite L1 in L2. destruct (ar_free_ok false ti _ [] _ s2 I2 L2) as (s3 & -> & I3 & L3). cbn [mbind option_bind].
    destruct (out_of_memory_ok 0 0 raw (len (encode_gguf f)) ctx SIZEOF_CTX l0 s3 I3 L3) as (s4 & -> & I4 & L4). cbn [mbind option_bind]. by exists LOADER_ERR_OOM, None, s4, m. }
  destruct Ha as [[? _]|(Hap & L2 & _ & D2)]; [done|].
  assert (Hl2 : forall a, live_at s a -> live_at s2 a) by (intros a (r & Hr & Hra); exists r; split; [rewrite L2, L1; rewrite L in Hr; cbn in *; intuition | done]).
  destruct (model_alloc_ok cfg s2 m I2 Hh Hc Hly) as (r & s3 & m3 & -> & I3 & M3 & Hr). cbn [mbind option_bind]. rewrite L1 in L2.
  destruct r as [[p md]|].
  2: { rewrite L2 in Hr. destruct (ar_free_ok false ti _ [_] _ s3 I3 Hr) as (s4 & -> & I4 & L4). cbn [mbind option_bind].
       destruct (out_of_memory_ok arena (all_elements (g_tensors f) * 4) raw (len (encode_gguf f)) ctx SIZEOF_CTX l0 s4 I4) as (s5 & -> & I5 & L5); [by rewrite (proj2 (Z.eqb_neq arena 0)) by done|].
       cbn [mbind option_bind]. exists LOADER_ERR_OOM, None, s5, m3. split; [done|]. split; [done|]. split; [|done]. intros a Hal. by apply M3, Hl2. }
  destruct Hr as (Hp & _ & _ & Hbl & Ew & Epe & Enw & Enb & Elm & Hcur & _ & _ & Hown & L3).
  replace (take _ _) with (map tinfo_of (g_tensors f)) by (symmetry; apply take_ge; rewrite length_map; destruct Hok as (_ & _ & _ & Hn); unfold MAX_TENSORS in Hn; rewrite u32_small by lia; lia).
  pose proof (ar_live_range arena (all_elements (g_tensors f) * 4) s2 I2 ltac:(rewrite L2; by left)) as Hlim.
  destruct (tensors_loaded cfg f b m3 md arena Hf Hseg Hap ltac:(lia)) as (m' & md' & -> & S & Fr & W & U).
  { intros [| | | | |l fd]; cbn [get_slot]; rewrite ?Ew, ?Epe, ?Enw, ?Enb, ?Elm, ?Hbl; [done..|]. by destruct fd. }
  rewrite L2 in L3. destruct (ar_free_ok false ti _ (model_owns cfg p md ++ [(arena, all_elements (g_tensors f) * 4)]) ((raw, len (encode_gguf f)) :: (ctx, SIZEOF_CTX) :: l0) s3 I3 ltac:(rewrite <- app_assoc; exact L3)) as (s4 & -> & I4 & L4).
  rewrite <- app_assoc in L4. cbn [mbind option_bind Datatypes.app] in *. eexists LOADER_OK, (Some _), s4, m'. split; [done|]. split; [done|]. split.
  { intros a Hal. rewrite S; [by apply M3, Hl2|]. destruct Hal as (r & Hr & Hra). rewrite Forall_forall in D2. specialize (D2 r). unfold disjoint_regions in D2. cbn [fst snd] in D2.
    enough (arena + all_elements (g_tensors f) * 4 <= r.1 \/ r.1 + r.2 <= arena) by lia. apply D2. rewrite L1. apply list_elem_of_In. rewrite L in Hr. by right. }
  split; [done|]. destruct Fr as [Fk Fp Fb Ff].
  assert (Etie : forall sl, get_slot sl (tie cfg md') = (if decide (sl = SLmHead) then if tie_weights cfg && (t_data (lm_head md') =? 0) then t_data (wte md') else t_data (lm_head md') else get_slot sl md')).
  { intros sl. unfold tie. destruct (tie_weights cfg); cbn [andb]; [|case_decide; [by subst sl | done]]. destruct (Z.eqb_spec (t_data (wte md')) 0) as [E|E]; cbn [negb andb]; [rewrite E|];
      (destruct (Z.eqb_spec (t_data (lm_head md')) 0) as [E'|E']; case_decide; subst; cbn [get_slot t_data lm_head]; try done; by destruct sl). }
  assert (Hframe : model_owns cfg p (tie cfg md') = model_owns cfg p md /\ m_blocks (tie cfg md') = m_blocks md' /\ m_kvc (tie cfg md') = m_kvc md /\ wte (tie cfg md') = wte md').
  { unfold tie. destruct (tie_weights cfg && negb (t_data (wte md') =? 0) && (t_data (lm_head md') =? 0)); unfold model_owns; cbn [m_kvc kvc_ptr blocks_ptr m_blocks wte]; rewrite ?Fk, ?Fp, ?Fb; split_and!; done. }
  destruct Hframe as (Ho & Hbk & Hkv & Hwte).
  assert (Enamed : forall k t sl, last_of (mc_n_layers cfg) (g_tensors f) k sl -> g_tensors f !! k = Some t -> get_slot sl (tie cfg md') = get_slot sl md').
  { intros k t sl Hl Ek. rewrite Etie. case_decide; [|done]. subst sl. destruct (W k t _ Hl Ek) as [W1 _]. cbn [get_slot] in *. rewrite (proj2 (Z.eqb_neq _ 0)) by lia. by rewrite andb_false_r. }
  constructor; [done|..].
  - intros k t sl Hl Ek. rewrite (Enamed k t sl Hl Ek). destruct (W k t sl Hl Ek) as [W1 W2]. split; [lia | done].
  - intros sl Hu. rewrite Etie, (U sl Hu), Hwte. case_decide; [|done]. subst sl. specialize (U _ Hu). cbn [get_slot] in U. rewrite U. by destruct (tie_weights cfg).
  - exists (arena, all_elements (g_tensors f) * 4). split; [rewrite L4; apply elem_of_app; right; by left|]. split.
    + rewrite L1 in D2. by do 3 (apply Forall_cons in D2 as [_ D2]).
    + intros k t sl Hl Ek. rewrite (Enamed k t sl Hl Ek). destruct (W k t sl Hl Ek) as [W1 _]. cbn [fst snd]. lia.
  - intros r Hr. rewrite L4. apply elem_of_app. right. by do 3 right.
  - cbn [gguf_version Loader.n_tensors]. split; [done|]. destruct Hok as (_ & _ & _ & Hn). unfold MAX_TENSORS in Hn. by rewrite u32_small by lia.
  - intros l. rewrite Hbk, Ff, Hbl. done.
  - by rewrite Hkv.
  - destruct (model_free_ok cfg p (tie cfg md') [] _ s4 I4 ltac:(by rewrite Ho) ltac:(rewrite Ho; exact L4)) as (s5 & -> & I5 & L5). cbn [Datatypes.app] in L5.
    unfold loader_close. cbn [float_arena raw_blob]. rewrite !(proj2 (Z.eqb_neq _ 0)) by lia.
    destruct (ar_free_ok true arena _ [] _ s5 I5 L5) as (s6 & E6 & I6 & L6). cbn [Datatypes.app] in L6.
    destruct (ar_free_ok false raw _ [] _ s6 I6 L6) as (s7 & E7 & I7 & L7). cbn [Datatypes.app] in L7.
    destruct (ar_free_ok false ctx _ [] _ s7 I7 L7) as (s8 & E8 & I8 & L8). exists s5, s8. split; [done|]. rewrite E6. cbn [mbind option_bind]. rewrite E7. done.
Qed.

(** Up to the bytes of the file: they are read whole, or an error is reported
    and nothing is kept. *)
(** What can come between a load and the file's contents: the file is not
    opened, the reading ends early, or there is no block for the context, the
    file or the table of the tensors. *)
Definition hindered (path data : list Z) v s (e : loader_err_t) : Prop :=
  exists st v1 fd v2, fs_stat path v = Some (st, v1) /\ fs_open path v1 = Some (fd, v2) /\
    (e = LOADER_ERR_NOT_FOUND /\ fd < 0 \/
     exists ctx s1, ar_alloc false SIZEOF_CTX s = Some (ctx, s1) /\
       (e = LOADER_ERR_OOM /\ ctx = 0 \/
        exists raw s2, ar_alloc false (len data) s1 = Some (raw, s2) /\
          (e = LOADER_ERR_OOM /\ raw = 0 \/
           e = LOADER_ERR_IO /\ (exists n b v3, fs_read fd raw (len data) v2 = Some (n, b, v3) /\ n <> len data) \/
           e = LOADER_ERR_OOM /\ exists s3, ar_alloc false (SIZEOF_TINFO * MAX_TENSORS) s2 = Some (0, s3)))).

Lemma hindered_errors path data v s e : hindered path data v s e -> In e [LOADER_ERR_NOT_FOUND; LOADER_ERR_OOM; LOADER_ERR_IO].
Proof.
  intros (st & v1 & fd & v2 & _ & _ & [[-> _]|(ctx & s1 & _ & [[-> _]|(raw & s2 & _ & [[-> _]|[[-> _]|[-> _]]])])]); cbn; auto.
Qed.

(** Up to the bytes of the file. *)
Lemma loader_load_reads fuel path cfg data v s m : fs_inv v -> ar_inv s -> fs_file v path = Some data -> 0 < len data < 2 ^ 30 ->
  exists v', fs_inv v' /\ fs_file v' = fs_file v /\
    ((exists e s', loader_load fuel path cfg v s m = Some (failed e, v', s', m) /\ hindered path data v s e /\ ar_inv s' /\ ar_live s' = ar_live s) \/
     (exists ctx raw b s1, loader_load fuel path cfg v s m = ('(r, s, m) ← load_blob fuel cfg b ctx raw (len data) s1 m; Some (r, v', s, m)) /\ seg b 0 data /\ ar_inv s1 /\
       0 < ctx /\ 0 < raw /\ ar_live s1 = (raw, len data) :: (ctx, SIZEOF_CTX) :: ar_live s /\
       forall s3, ar_alloc false (SIZEOF_TINFO * MAX_TENSORS) s1 = Some (0, s3) -> hindered path data v s LOADER_ERR_OOM)).
Proof.
  intros Hv Hi Ef Hz. unfold loader_load. destruct (fs_stat_ok path v Hv) as (v1 & Es & V1 & F1). rewrite Es, Ef. cbn [mbind option_bind fmap option_fmap option_map compose].
  rewrite (proj2 (Z.eqb_neq _ 0)) by lia. destruct (fs_open_ok path v1 V1) as (fd & v2 & Eo & V2 & F2 & Hfd). rewrite Eo. cbn [mbind option_bind]. rewrite F1 in F2.
  destruct (fs_close_ok fd v2 V2) as [V2c F2c]. rewrite F2 in F2c.
  destruct (Z.ltb_spec fd 0) as [Hneg|Hpos]; [exists v2; split; [done|]; split; [done|]; left; eexists _, s; split; [done|]; split; [|done]; eexists _, v1, fd, v2; by eauto|].
  destruct Hfd as [|(data' & Ed & Ho)]; [lia|]. rewrite F1, Ef in Ed. injection Ed as <-.
  destruct (ar_alloc_ok false SIZEOF_CTX s Hi ltac:(unfold SIZEOF_CTX; lia)) as (ctx & s1 & Ec & I1 & Hc). rewrite Ec. cbn [mbind option_bind].
  destruct (Z.eqb_spec ctx 0) as [->|Hc0].
  { destruct Hc as [[_ L1]|[? _]]; [|lia]. exists (fs_close fd v2). do 2 (split; [done|]). left. eexists _, s1. split; [done|]. split; [|done].
    eexists _, v1, fd, v2. do 2 (split; [done|]). right. exists 0, s1. eauto. }
  destruct Hc as [[? _]|(Hc & L1 & _ & _)]; [done|]. destruct (ar_alloc_ok false (len data) s1 I1 ltac:(lia)) as (raw & s2 & Er & I2 & Hr). rewrite Er. cbn [mbind option_bind].
  assert (forall e, (e = LOADER_ERR_OOM /\ raw = 0 \/ e = LOADER_ERR_IO /\ (exists n b v3, fs_read fd raw (len data) v2 = Some (n, b, v3) /\ n <> len data) \/
    e = LOADER_ERR_OOM /\ exists s3, ar_alloc false (SIZEOF_TINFO * MAX_TENSORS) s2 = Some (0, s3)) -> hindered path data v s e) as Hh.
  { intros e He. unfold hindered. eexists _, v1, fd, v2. split; [exact Es|]. split; [exact Eo|]. right. exists ctx, s1. split; [done|]. right. by exists raw, s2. }
  destruct (Z.eqb_spec raw 0) as [->|Hr0].
  { destruct Hr as [[_ L2]|[? _]]; [|lia]. rewrite L1 in L2. destruct (ar_free_ok false ctx _ [] _ s2 I2 L2) as (s3 & -> & I3 & L3). cbn [mbind option_bind].
    exists (fs_close fd v2). do 2 (split; [done|]). left. eexists _, s3. split; [done|]. split; [apply Hh; by left | done]. }
  destruct Hr as [[? _]|(Hr & L2 & _ & _)]; [done|]. rewrite L1 in L2.
  destruct (fs_read_ok fd raw data v2 V2 Ho) as (nread & b & v3 & Ern & V3 & F3 & Hb). rewrite Ern. cbn [mbind option_bind]. rewrite F2 in F3.
  destruct (fs_close_ok fd v3 V3) as [V3c F3c]. rewrite F3 in F3c. exists (fs_close fd v3). do 2 (split; [done|]). rewrite s32_small by lia.
  destruct (Z.eqb_spec nread (len data)) as [->|Hne]; cbn [negb].
  - right. exists ctx, raw, b, s2. do 6 (split; [by auto|]). intros s3 E3. apply Hh. right. right. eauto.
  - left. destruct (free_blob_ok raw _ ctx _ [] _ s2 I2 L2) as (s3 & -> & I3 & L3). cbn [mbind option_bind]. eexists _, s3. split; [done|]. split; [|done].
    apply Hh. right. left. split; [done|]. by exists nread, b, v3.
Qed.

Lemma loader_load_ok fuel path cfg f v s m :
  fs_inv v -> ar_inv s -> fs_file v path = Some (encode_gguf f) -> file_ok f -> cfg_ok cfg -> (gguf_depth f <= fuel)%nat ->
  exists e r v' s' m', loader_load fuel path cfg v s m = Some ((e, r), v', s', m') /\ fs_inv v' /\ fs_file v' = fs_file v /\ ar_inv s' /\ (forall a, live_at s a -> m' a = m a) /\
    match r with
    | None => In e [LOADER_ERR_NOT_FOUND; LOADER_ERR_OOM; LOADER_ERR_IO] /\ ar_live s' = ar_live s
    | Some (p, md, (cx, c)) => e = LOADER_OK /\ loaded_model cfg f (ar_live s) p md cx c s' m'
    end.
Proof.
  intros Hv Hi Ef Hf Hc Hd. pose proof Hf as (_ & _ & _ & Hz). assert (0 < len (encode_gguf f)) by (unfold encode_gguf, encode_head; rewrite !length_app, !le_bytes_length; lia).
  destruct (loader_load_reads fuel path cfg _ v s m Hv Hi Ef ltac:(lia)) as (v' & V' & F' & [(e & s' & E & He & I' & L')|(ctx & raw & b & s1 & E & Hs & I1 & Hcx & Hr & L1 & Hti0)]).
  - exists e, None, v', s', m. do 5 (split; [done|]). split; [by eapply hindered_errors | done].
  - destruct (load_blob_ok fuel cfg f b ctx raw (ar_live s) s1 m Hf Hc Hd I1 Hs Hcx Hr L1) as (e & r & s' & m' & Eb & I' & Hm & Hr'). rewrite E, Eb. cbn [mbind option_bind].
    exists e, r, v', s', m'. do 4 (split; [done|]). split.
    + intros a (x & Hx & Ha). apply Hm. exists x. split; [rewrite L1; cbn; auto | done].
    + destruct r as [[[p md] [cx c]]|]; [done|]. destruct Hr' as [-> ->]. split; [by right; left | done].
Qed.


Lemma read_header_error fuel b size e : read_header fuel b size = Some (inl e) -> In e [LOADER_ERR_BAD_MAGIC; LOADER_ERR_BAD_VER; LOADER_ERR_IO].
Proof.
  unfold read_header. destruct (negb (cur_ok _ 4)); [intros [= <-]; by left|]. destruct (cur_u32 b _) as [mg c1]. destruct (negb (mg =? GGUF_MAGIC)); [intros [= <-]; by left|].
  destruct (cur_u32 b c1) as [ver c2]. destruct (_ || _); [intros [= <-]; by right; left|]. destruct (cur_u64 b c2) as [n c3]. destruct (cur_u64 b c3) as [nk c4].
  destruct (skip_elements _ _ _) as [[[] c]|]; cbn; intros [= <-]. by right; right; left.
Qed.

End Loader.

(** ** Examples *)

#[local] Existing Instance b32.

Definition demo_load_arena : bump := mk_bump 0 1048576 [].
Lemma demo_load_inv : ar_inv demo_load_arena.
Proof. split; [cbn; lia|]. split; constructor. Qed.
Definition demo_store : table := [([98], [1]); ([97], encode_gguf demo_gguf)].

Lemma demo_file_ok : file_ok demo_gguf.
Proof.
  split; [exact demo_gguf_ok|]. split; [|split; vm_compute; reflexivity].
  assert (forall t, t ∈ g_tensors demo_gguf -> t = mk_gtensor demo_name [2; 2] GGML_TYPE_F16 0 \/ g_type t = GGML_TYPE_F32 /\ g_dims t = [2] /\ g_offset t = 8) as Hc.
  { intros t Ht. cbn in Ht. repeat (apply elem_of_cons in Ht as [->|Ht]; [auto|]). by inv Ht. }
  apply Forall_forall. intros t Ht. destruct (Hc t Ht) as [->|(E1 & E2 & E3)]; unfold data_ok, elements, known_type; rewrite ?E1, ?E2, ?E3; cbn; vm_compute; intuition congruence.
Qed.


(** A tensor with five dimensions behind a whole pair of metadata; the table of
    the entries stays. *)
Definition demo_broken : list Z :=
  head_bytes 3 1 1 ++ encode_pair ([97; 98], MString [99]) ++ encode_string demo_name ++ le_bytes 4 5 ++ [1; 2; 3].

Lemma demo_broken_malformed : malformed 1 demo_broken LOADER_ERR_BAD_TENSOR.
Proof.
  apply (malformed_tensor 1 demo_broken 3 1 [([97; 98], MString [99])] [] (encode_string demo_name ++ le_bytes 4 5 ++ [1; 2; 3])); try (cbn; lia); try done.
  - constructor; [cbn; split; [exact I | lia] | constructor].
  - apply bad_tensor_dims; [reflexivity | lia].
Qed.

