(* ===== verification/Inference.v ===== *)
(** The inference manager (kernel/llm/inference.c): one engine out of the
    loader, the tokenizer, the model and the sampler, which streams the text of
    its reply to a callback.

    What the inference manager does with the files it is given: the engine
    starts or leaves an error, and every reply is empty. *)

From Stdlib Require Import Floats.SpecFloat.
From S2P Require Import Prelude Memory Float Arena Alloc Simd Tensor Attention Transformer Model Gguf Files Loader Tokenizer AttentionSpec TokenizerSpec.
Local Open Scope Z_scope.

Definition INF_MAX_VOCAB : Z := 65536.
Definition INF_MAX_TOKENS : Z := 4096.
Definition TEXT_BUF : Z := 256.

Record inference_config_t (F : Type) := mk_inference_config {
  model_cfg : model_config_t F; tok_cfg : tokenizer_config; sample_cfg : sample_config_t F; max_tokens : Z }.
Arguments mk_inference_config {F}.
Arguments model_cfg {F}.
Arguments tok_cfg {F}.
Arguments sample_cfg {F}.
Arguments max_tokens {F}.

(** The statics of the file: the model and the loader's context with their
    addresses (0: NULL). *)
Record engine (F : Type) := mk_engine {
  g_model : Z; g_model_at : aios_model_t; g_loader_ctx : Z; g_ctx_at : loader_ctx_t;
  g_model_cfg : model_config_t F; g_tok : tokenizer; g_cfg : inference_config_t F; g_inited : bool; g_logits : Z; g_ids : Z }.
Arguments mk_engine {F}.
Arguments g_model {F}.
Arguments g_model_at {F}.
Arguments g_loader_ctx {F}.
Arguments g_ctx_at {F}.
Arguments g_model_cfg {F}.
Arguments g_tok {F}.
Arguments g_cfg {F}.
Arguments g_inited {F}.
Arguments g_logits {F}.
Arguments g_ids {F}.

Section Inference.
Context {F} `{FloatOps F} {A : Type} `{Arena A} `{Allocator A} {V : Type} `{FileSys V} (ft : simd_features_t) (x_buf y_buf : Z).
(** What the static arrays of the sampler hold from earlier calls. *)
Context (probs0 : Z -> F) (idx0 : Z -> Z).
Implicit Types (m : fmem F) (s : A) (e : engine F) (v : V).

Definition set_model (md : aios_model_t) e : engine F :=
  mk_engine (g_model e) md (g_loader_ctx e) (g_ctx_at e) (g_model_cfg e) (g_tok e) (g_cfg e) (g_inited e) (g_logits e) (g_ids e).

(** [if (p) kfree(p)]. *)
Definition free_some (p : Z) s : option A := if p =? 0 then Some s else ar_free false p s.

Definition inference_shutdown e s : option (engine F * A) :=
  if negb (g_inited e) then Some (e, s)
  else
    s ← free_some (g_logits e) s;
    s ← free_some (g_ids e) s;
    '(tok, s) ← tokenizer_free (g_tok e) s;
    s ← (if g_model e =? 0 then Some s else model_free (g_model e) (g_model_at e) s);
    s ← (if g_loader_ctx e =? 0 then Some s else loader_close (g_loader_ctx e) (g_ctx_at e) s);
    Some (mk_engine 0 (g_model_at e) 0 (g_ctx_at e) (g_model_cfg e) tok (g_cfg e) false 0 0, s).

(** The tokenizer is built from no strings: the vocabulary is empty. *)
Definition build_empty_tokenizer (cfg : inference_config_t F) s : option (tok_err * tokenizer * A) :=
  tokenizer_build (fun _ => []) None 0 (fun _ => 0) (fun _ => 0) 0 (tok_cfg cfg) s.

(** From the checked arguments on. *)
Definition init_engine (fuel : nat) (path : list Z) (cfg : inference_config_t F) e v s m : option (Z * engine F * V * A * fmem F) :=
  '(e, s) ← (if g_inited e then inference_shutdown e s else Some (e, s));
  let mcfg := model_cfg cfg in
  '(r, v, s, m) ← loader_load fuel path mcfg v s m;
  match r with
  | (LOADER_OK, Some (p, md, (ctx, c))) =>
      '(_, tok, s) ← build_empty_tokenizer cfg s;
      let vocab := if INF_MAX_VOCAB <? Model.vocab_size mcfg then INF_MAX_VOCAB else Model.vocab_size mcfg in
      '(logits, s) ← ar_alloc false (4 * vocab) s;
      '(ids, s) ← ar_alloc false (4 * INF_MAX_TOKENS) s;
      let e := mk_engine p md ctx c mcfg tok cfg (g_inited e) logits ids in
      if (logits =? 0) || (ids =? 0) then '(e, s) ← inference_shutdown e s; Some (- 1, e, v, s, m)
      else Some (0, mk_engine p md ctx c mcfg tok cfg true logits ids, v, s, m)
  | _ => Some (- 1, mk_engine 0 (g_model_at e) 0 (g_ctx_at e) mcfg (g_tok e) cfg (g_inited e) (g_logits e) (g_ids e), v, s, m)
  end.

(** [None]: a null pointer; the merges' path is not looked at. *)
Definition inference_init (fuel : nat) (model_path vocab_path : option (list Z)) (cfg : option (inference_config_t F)) e v s m : option (Z * engine F * V * A * fmem F) :=
  match model_path, vocab_path, cfg with
  | Some path, Some _, Some cfg => init_engine fuel path cfg e v s m
  | _, _, _ => Some (- 1, e, v, s, m)
  end.

Definition inference_reset e : engine F :=
  if negb (g_inited e) || (g_model e =? 0) then e else set_model (model_reset_kvcache (g_model_at e)) e.

Definition forward (token pos : Z) e s m : option (Z * A * fmem F * engine F) :=
  '(r, s, m, md) ← model_forward ft x_buf y_buf (g_model_at e) (g_model_cfg e) token pos (g_logits e) s m;
  Some (r, s, m, set_model md e).

(** All tokens of the prompt but the last. *)
Fixpoint prime (ids : list Z) (pos : Z) e s m : option (Z * Z * A * fmem F * engine F) :=
  match ids with
  | [] | [_] => Some (0, pos, s, m, e)
  | id :: rest =>
      '(r, s, m, e) ← forward id pos e s m;
      if negb (r =? 0) then Some (r, pos, s, m, e)
      else prime rest (pos + 1) e s m
  end.

(** The reply, token by token: the texts given to the callback, in order. *)
Fixpoint generate (steps : nat) (cur pos : Z) e (out : list (list Z)) s m : option (Z * list (list Z) * A * fmem F * engine F) :=
  match steps with
  | O => Some (0, out, s, m, e)
  | S steps =>
      '(r, s, m, e) ← forward cur pos e s m;
      if negb (r =? 0) then Some (- 1, out, s, m, e)
      else
        let next := model_sample (ld m (g_logits e)) (Model.vocab_size (g_model_cfg e)) (Some (sample_cfg (g_cfg e))) probs0 idx0 in
        if next =? eos_id (tok_cfg (g_cfg e)) then Some (0, out, s, m, e)
        else
          let '(d, text) := tokenizer_decode (g_tok e) [next] TEXT_BUF in
          if negb (bool_decide (d = TOK_OK)) then Some (- 1, out, s, m, e)
          else generate steps next (u32 (pos + 1)) e (match text with [] => out | _ => out ++ [text] end) s m
  end.

(** [cb]: a callback is given. *)
Definition inference_generate (cb : bool) (prompt : option (list Z)) (prompt_len : Z) e s m : option (Z * list (list Z) * A * fmem F * engine F) :=
  if negb (g_inited e) || (g_model e =? 0) || negb cb then Some (- 1, [], s, m, e)
  else
    let '(prompt, prompt_len) := match prompt with Some p => (p, prompt_len) | None => ([], 0) end in
    '(err, ids, n) ← tokenizer_encode (g_tok e) prompt prompt_len INF_MAX_TOKENS;
    if negb (bool_decide (err = TOK_OK)) then Some (- 1, [], s, m, e)
    else
      '(r, pos, s, m, e) ← prime ids 0 e s m;
      if negb (r =? 0) then Some (- 1, [], s, m, e)
      else
        let cur := match last ids with Some id => id | None => bos_id (tok_cfg (g_cfg e)) end in
        let max_new := if max_tokens (g_cfg e) =? 0 then 128 else max_tokens (g_cfg e) in
        generate (Z.to_nat max_new) cur pos e [] s m.
End Inference.

(** * Specification *)

(** ** The empty tokenizer *)

Lemma zero_str_to_token s n : tokenizer_str_to_token zero_tok s n = 0.
Proof. done. Qed.
Lemma zero_byte_to_token b : byte_to_token_id zero_tok b = 0.
Proof. done. Qed.

Lemma zero_emit_char text n i ids mx : emit_char zero_tok text n i ids mx = if mx <=? len ids then None else Some (ids ++ [0], i + 1).
Proof. unfold emit_char. rewrite zero_str_to_token, zero_byte_to_token. change (negb (0 =? unk_id (tcfg zero_tok))) with false. by rewrite andb_false_r. Qed.
Lemma zero_emit_marker text n i ids mx : emit_marker zero_tok text n i ids mx = if mx <=? len ids then None else Some (inl (ids ++ [0])).
Proof. unfold emit_marker. rewrite !zero_str_to_token. change (negb (0 =? unk_id (tcfg zero_tok))) with false. by rewrite andb_false_r. Qed.

Definition all_zero (l : list Z) : Prop := forall x, x ∈ l -> x = 0.
Lemma all_zero_snoc l : all_zero l -> all_zero (l ++ [0]).
Proof. intros Hl x [Hx|Hx]%elem_of_app; [by apply Hl | by apply list_elem_of_singleton in Hx]. Qed.

Lemma zero_pre_tokenize fuel text n i ids mx : all_zero ids -> all_zero (pre_tokenize_loop fuel zero_tok text n i ids mx).
Proof.
  assert (Hnil : all_zero []) by (intros x Hx; by apply elem_of_nil in Hx).
  revert i ids. induction fuel as [|fuel IH]; intros i ids Hz; cbn [pre_tokenize_loop]; (destruct (i <? n); [|done]); [done|].
  assert (Hc : forall ids, all_zero ids -> all_zero match emit_char zero_tok text n i ids mx with Some (ids, i) => pre_tokenize_loop fuel zero_tok text n i ids mx | None => [] end).
  { intros ids' Hz'. rewrite zero_emit_char. destruct (mx <=? len ids'); [done|]. by apply IH, all_zero_snoc. }
  destruct (tok_isspace _); [by apply IH|]. destruct (word_start text i); [|by apply Hc].
  rewrite zero_emit_marker. destruct (mx <=? len ids); [done|]. by apply Hc, all_zero_snoc.
Qed.

(** Encoding returns, with zeros only. *)
Lemma zero_encode text n mx : 0 <= n -> 0 <= mx -> exists e ids k, tokenizer_encode zero_tok text n mx = Some (e, ids, k) /\ all_zero ids.
Proof.
  intros Hn Hm. assert (Hnil : all_zero []) by (intros x Hx; by apply elem_of_nil in Hx). unfold tokenizer_encode.
  destruct (Z.eqb_spec n 0); [by eexists _, _, _|]. destruct (Z.ltb_spec TOK_MAX_TEXT n); [by eexists _, _, _|].
  set (ids := pre_tokenize zero_tok text n MAX_NODES). assert (Hz : all_zero ids) by (by apply zero_pre_tokenize).
  destruct (Z.eqb_spec (len ids) 0) as [|Hne]; [by eexists _, _, _|]. change (negb (p_index zero_tok =? 0)) with false. change (add_bos (tcfg zero_tok)) with false. change (add_eos (tcfg zero_tok)) with false.
  cbn [mbind option_bind]. destruct (pre_tokenize_loop_ok (Z.to_nat n) zero_tok text n 0 []) as (Hlen & _ & _); [lia..| |].
  { pose proof (slack_range text 0). cbn. lia. }
  fold (pre_tokenize zero_tok text n MAX_NODES) in Hlen. fold ids in Hlen.
  destruct (init_nodes_path ids) as [P E]; [unfold NODE_NONE, TOK_MAX_TEXT in *; lia | by intros E; rewrite E in Hne|].
  assert (Hids : forall x, x ∈ ids_of (init_nodes ids) (seqZ 0 (len ids)) -> x <> NODE_NONE) by (rewrite E; intros x Hx; rewrite (Hz x Hx); done).
  rewrite (collect_spec _ _ _ _ _ [] P) by (try done; cbn; rewrite ?length_seqZ; lia). cbn [mbind option_bind Datatypes.app]. rewrite E.
  destruct (len ids <=? mx); eexists _, _, _; (split; [done|]); [done|]. intros x Hx. apply Hz. by apply elem_of_take in Hx as (j & Hj & _); apply list_elem_of_lookup; exists j.
Qed.

(** Decoding gives no text. *)
Lemma zero_decode id n : tokenizer_decode zero_tok [id] n = (TOK_OK, []).
Proof.
  unfold tokenizer_decode. cbn [decode_loop]. replace (decode_token zero_tok 0 id n []) with (Some (@nil Z)); [done|].
  unfold decode_token. destruct (_ || _); [done|]. by destruct (vocab_size zero_tok <=? id).
Qed.

(** Splits a conclusion and closes its parts. *)
Ltac ends := split_and!; first [done | by left | by right].

(** ** The engine *)

Section Engine.
Context {F} `{FloatOps F} {A : Type} `{ArenaSpec A} `{Allocator A} {V : Type} `{FileSysSpec V} (ft : simd_features_t) (x_buf y_buf : Z) (probs0 : Z -> F) (idx0 : Z -> Z).
Implicit Types (m : fmem F) (s : A) (e : engine F) (v : V).

Lemma set_kvc_same md : set_kvc (m_kvc md) md = md.
Proof. by destruct md. Qed.

Lemma model_forward_md md (cfg : model_config_t F) tok pos logits s m r s' m' md' : model_forward ft x_buf y_buf md cfg tok pos logits s m = Some (r, s', m', md') ->
  (r = 0 \/ r = - 1) /\ exists kvc, md' = set_kvc kvc md.
Proof.
  unfold model_forward. repeat (match goal with |- context [if ?b then _ else _] => destruct b eqn:?; [intros [= <- <- <- <-]; split; [by right|]; exists (m_kvc md); by rewrite set_kvc_same|] end).
  destruct (for_opt _ _ _ _) as [[[s1 m1] kvc]|]; cbn [mbind option_bind]; [|done]. intros [= <- <- <- <-]. split; [by left|]. by eexists.
Qed.

(** The engine after a start on a file with the three tensors behind the last
    block: its tokenizer knows no token, its blocks have no feed-forward
    size. *)
Record silent e s : Prop := {
  si_inited : g_inited e = true;
  si_model : g_model e <> 0;
  si_tok : g_tok e = zero_tok;
  si_ffn l : ffn_hidden (m_blocks (g_model_at e) l) = 0;
  si_layers : 0 < mc_n_layers (g_model_cfg e);
  si_statics : statics_ok x_buf y_buf s (mc_n_embd (g_model_cfg e));
  si_logits : g_logits e <> 0;
  si_inside : let D := mc_n_embd (g_model_cfg e) in let n := Model.vocab_size (g_model_cfg e) in
    Forall (fun b => inside s b /\ sepb b (x_buf, MAX_EMBD)) [(t_data (ln_f_w (g_model_at e)), D); (t_data (ln_f_b (g_model_at e)), D); (t_data (lm_head (g_model_at e)), n * D); (g_logits e, n)] /\
    sep (t_data (lm_head (g_model_at e))) (n * D) (g_logits e) n;
}.

Lemma silent_live e s s' : ar_live s' = ar_live s -> silent e s -> silent e s'.
Proof.
  intros L [? ? ? ? ? [Ix Iy ? ?] ? [Hin ?]]. split; try done; [split; try done; by apply (inside_live s)|]. split; [|done].
  apply (Forall_impl _ _ _ Hin). intros b [Hb ?]. split; [|done]. by apply (inside_live s).
Qed.
Lemma silent_kvc e s kvc : silent e s -> silent (set_model (set_kvc kvc (g_model_at e)) e) s.
Proof. intros []. by split. Qed.

(** One step of a silent engine, at any token and position. *)
Lemma forward_silent tok pos e s m : ar_inv s -> silent e s -> 0 <= tok -> 0 <= pos ->
  exists r s' m' e', forward ft x_buf y_buf tok pos e s m = Some (r, s', m', e') /\ ar_inv s' /\ ar_live s' = ar_live s /\ silent e' s' /\ (r = 0 \/ r = - 1) /\
    (r = 0 -> 0 < Model.vocab_size (g_model_cfg e')) /\ g_cfg e' = g_cfg e.
Proof.
  intros Hi Hs Ht Hp. unfold forward. pose proof Hs as [? ? ? ? ? ? ? [? ?]].
  assert (exists r s' m' md', model_forward ft x_buf y_buf (g_model_at e) (g_model_cfg e) tok pos (g_logits e) s m = Some (r, s', m', md') /\ ar_inv s' /\ ar_live s' = ar_live s /\ (r = 0 -> 0 < Model.vocab_size (g_model_cfg e)))
    as (r & s' & m' & md' & E & I & L & Hv).
  { destruct (decide (tok < Model.vocab_size (g_model_cfg e))), (decide (pos < mc_max_seq_len (g_model_cfg e))).
    - destruct (model_forward_const ft x_buf y_buf (g_model_cfg e) (g_model_at e) tok pos (g_logits e) s m) as (s' & m' & md' & E & I & L & _); try done.
      exists 0, s', m', md'. do 3 (split; [done|]). lia.
    - exists (- 1), s, m, (g_model_at e). split; [|done]. unfold model_forward. rewrite (proj2 (Z.eqb_neq _ 0)), (proj2 (Z.leb_gt _ tok)), (proj2 (Z.leb_le _ pos)) by (done || lia). done.
    - exists (- 1), s, m, (g_model_at e). split; [|done]. unfold model_forward. rewrite (proj2 (Z.eqb_neq _ 0)), (proj2 (Z.leb_le _ tok)) by (done || lia). done.
    - exists (- 1), s, m, (g_model_at e). split; [|done]. unfold model_forward. rewrite (proj2 (Z.eqb_neq _ 0)), (proj2 (Z.leb_le _ tok)) by (done || lia). done. }
  destruct (model_forward_md _ _ _ _ _ _ _ _ _ _ _ E) as [Hr [kvc ->]]. rewrite E. cbn [mbind option_bind]. eexists r, s', m', _. split; [done|]. split; [done|]. split; [done|].
  split; [by apply silent_kvc, (silent_live e s)|]. done.
Qed.

Lemma prime_silent ids pos e s m : ar_inv s -> silent e s -> all_zero ids -> 0 <= pos ->
  exists r pos' s' m' e', prime ft x_buf y_buf ids pos e s m = Some (r, pos', s', m', e') /\ ar_inv s' /\ ar_live s' = ar_live s /\ silent e' s' /\ 0 <= pos' /\ g_cfg e' = g_cfg e.
Proof.
  intros Hi Hs Hz Hp. revert pos e s m Hi Hs Hp. induction ids as [|id [|id' rest] IH]; intros pos e s m Hi Hs Hp.
  - by exists 0, pos, s, m, e.
  - by exists 0, pos, s, m, e.
  - cbn [prime]. destruct (forward_silent id pos e s m Hi Hs ltac:(by rewrite (Hz id ltac:(by left))) Hp) as (r & s1 & m1 & e1 & -> & I1 & L1 & S1 & _ & _ & G1). cbn [mbind option_bind].
    destruct (negb (r =? 0)); [by exists r, pos, s1, m1, e1|].
    destruct (IH ltac:(intros x Hx; apply Hz; by right) (pos + 1) e1 s1 m1 I1 S1 ltac:(lia)) as (r' & pos' & s' & m' & e' & E & I' & L' & S' & P' & G').
    exists r', pos', s', m', e'. split; [exact E|]. split; [done|]. split; [by rewrite L', L1|]. split; [done|]. split; [done|]. by rewrite G', G1.
Qed.

Lemma generate_silent steps cur pos e s m : ar_inv s -> silent e s -> 0 <= cur -> 0 <= pos ->
  exists r s' m' e', generate ft x_buf y_buf probs0 idx0 steps cur pos e [] s m = Some (r, [], s', m', e') /\ ar_inv s' /\ ar_live s' = ar_live s /\ silent e' s' /\ (r = 0 \/ r = - 1) /\ g_cfg e' = g_cfg e.
Proof.
  revert cur pos e s m. induction steps as [|steps IH]; intros cur pos e s m Hi Hs Hc Hp; cbn [generate]; [exists 0, s, m, e; ends|].
  destruct (forward_silent cur pos e s m Hi Hs Hc Hp) as (r & s1 & m1 & e1 & -> & I1 & L1 & S1 & Hr & Hv & G1). cbn [mbind option_bind].
  destruct (Z.eqb_spec r 0) as [Hr0|]; cbn [negb]; [|exists (- 1), s1, m1, e1; ends].
  set (next := model_sample _ _ _ _ _). assert (0 <= next) by (apply (model_sample_range (ld m1 (g_logits e1))); auto).
  destruct (_ =? eos_id _); [exists 0, s1, m1, e1; auto 10|]. rewrite (si_tok _ _ S1), zero_decode. cbn [negb bool_decide decide_rel]. rewrite bool_decide_eq_true_2 by done. cbn [negb].
  destruct (IH next (u32 (pos + 1)) e1 s1 m1 I1 S1 ltac:(done) ltac:(apply u32_range)) as (r' & s' & m' & e' & E & I' & L' & S' & R' & G'). exists r', s', m', e'.
  split; [done|]. split; [done|]. split; [by rewrite L', L1|]. split; [done|]. split; [done|]. by rewrite G', G1.
Qed.

(** A reply of a silent engine. *)
Lemma inference_generate_silent prompt n e s m : ar_inv s -> silent e s -> 0 <= n -> 0 <= bos_id (tok_cfg (g_cfg e)) ->
  exists r s' m' e', inference_generate ft x_buf y_buf probs0 idx0 true prompt n e s m = Some (r, [], s', m', e') /\ ar_inv s' /\ ar_live s' = ar_live s /\ silent e' s' /\ (r = 0 \/ r = - 1) /\ g_cfg e' = g_cfg e.
Proof.
  intros Hi Hs Hn Hb. unfold inference_generate. rewrite (si_inited _ _ Hs), (proj2 (Z.eqb_neq _ _) (si_model _ _ Hs)), (si_tok _ _ Hs). cbn [negb orb].
  destruct (match prompt with Some p => (p, n) | None => ([], 0) end) as [p k] eqn:Ep. assert (0 <= k) by (destruct prompt; injection Ep as <- <-; lia).
  destruct (zero_encode p k INF_MAX_TOKENS) as (err & ids & c & -> & Hz); [done | done|]. cbn [mbind option_bind].
  destruct (negb _); [exists (- 1), s, m, e; auto 10|].
  destruct (prime_silent ids 0 e s m Hi Hs Hz ltac:(done)) as (r & pos & s1 & m1 & e1 & -> & I1 & L1 & S1 & P1 & G1). cbn [mbind option_bind].
  destruct (negb (r =? 0)); [exists (- 1), s1, m1, e1; auto 10|].
  set (cur := match last ids with Some id => id | None => _ end).
  assert (0 <= cur) by (unfold cur; destruct (last ids) as [x|] eqn:El; [by rewrite (Hz x (last_Some_elem_of _ _ El)) | by rewrite G1]).
  destruct (generate_silent (Z.to_nat (if max_tokens (g_cfg e1) =? 0 then 128 else max_tokens (g_cfg e1))) cur pos e1 s1 m1 I1 S1) as (r' & s' & m' & e' & E & I' & L' & S' & R' & G'); try done.
  exists r', s', m', e'. split; [done|]. split; [done|]. split; [by rewrite L', L1|]. split; [done|]. split; [done|]. by rewrite G', G1.
Qed.

(** Any number of calls for a reply, one after the other, each with its own
    prompt: the results, and the texts the callback got. *)
Fixpoint replies (prompts : list (option (list Z) * Z)) e s m : option (list (Z * list (list Z)) * A * fmem F * engine F) :=
  match prompts with
  | [] => Some ([], s, m, e)
  | (prompt, n) :: prompts =>
      '(r, texts, s, m, e) ← inference_generate ft x_buf y_buf probs0 idx0 true prompt n e s m;
      '(rs, s, m, e) ← replies prompts e s m;
      Some ((r, texts) :: rs, s, m, e)
  end.

Lemma replies_silent prompts e s m : ar_inv s -> silent e s -> Forall (fun c => 0 <= c.2) prompts -> 0 <= bos_id (tok_cfg (g_cfg e)) ->
  exists rs s' m' e', replies prompts e s m = Some (rs, s', m', e') /\ ar_live s' = ar_live s /\ length rs = length prompts /\ Forall (fun r => r.2 = []) rs.
Proof.
  intros Hi Hs Hp Hb. revert e s m Hi Hs Hb. induction Hp as [|[prompt n] prompts Hn Hp IH]; intros e s m Hi Hs Hb; cbn [replies length]; [by exists [], s, m, e|].
  destruct (inference_generate_silent prompt n e s m Hi Hs Hn Hb) as (r & s1 & m1 & e1 & -> & I1 & L1 & S1 & _ & G1). cbn [mbind option_bind].
  destruct (IH e1 s1 m1 I1 S1 ltac:(by rewrite G1)) as (rs & s' & m' & e' & -> & L' & El & Hrs). cbn [mbind option_bind].
  exists ((r, []) :: rs), s', m', e'. split; [done|]. split; [by rewrite L'|]. split; [cbn; lia | by constructor].
Qed.

(** The file has a tensor of that name, of [n] numbers. *)
Definition has_tensor (mcfg : model_config_t F) (f : gguf) (sl : slot) (n : Z) : Prop :=
  exists k t, last_of (mc_n_layers mcfg) (g_tensors f) k sl /\ g_tensors f !! k = Some t /\ n <= elements t.

(** A loaded model's tensor is inside the block of floats, apart from what was
    in use before. *)
Lemma tensor_inside mcfg f l0 p md cx c s m sl n b : loaded_model mcfg f l0 p md cx c s m -> has_tensor mcfg f sl n -> (exists r, In r l0 /\ r.1 <= b.1 /\ b.1 + 4 * b.2 <= r.1 + r.2) ->
  inside s (get_slot sl md, n) /\ sepb (get_slot sl md, n) b.
Proof.
  intros [_ _ _ (r & Hr & Hd & Hp) _ _ _ _ _] (k & t & Hl & Ek & Hn) (x & Hx & Hx1 & Hx2). destruct (Hp k t sl Hl Ek) as [P1 P2]. split.
  - exists r. cbn [fst snd]. split; [by apply list_elem_of_In | lia].
  - rewrite Forall_forall in Hd. specialize (Hd x ltac:(by apply list_elem_of_In)). unfold disjoint_regions, sepb, sep in *. cbn [fst snd]. lia.
Qed.

(** C26: An engine started on a model file answers nothing.  The start returns,
    with the engine ready or with an error; and when it is ready, in any
    sequence of calls for a reply every call returns, gives back the memory it
    used, and has not called the callback once: the tokenizer it built has no
    vocabulary, so no token has a text. *)
Theorem inference_never_answers fuel path vocab cfg f e v s m (mcfg := model_cfg cfg) (D := mc_n_embd mcfg) :
  fs_inv v -> ar_inv s -> fs_file v path = Some (encode_gguf f) -> file_ok f -> cfg_ok mcfg -> (gguf_depth f <= fuel)%nat ->
  g_inited e = false -> 0 < mc_n_layers mcfg -> 0 < Model.vocab_size mcfg <= INF_MAX_VOCAB -> statics_ok x_buf y_buf s D -> 0 <= bos_id (tok_cfg cfg) ->
  has_tensor mcfg f SLnFW D -> has_tensor mcfg f SLnFB D -> has_tensor mcfg f SLmHead (Model.vocab_size mcfg * D) ->
  exists r e' v' s' m', inference_init fuel (Some path) (Some vocab) (Some cfg) e v s m = Some (r, e', v', s', m') /\
    (r = - 1 \/ r = 0 /\ forall prompts, Forall (fun c => 0 <= c.2) prompts -> exists rs s2 m2 e2,
      replies prompts e' s' m' = Some (rs, s2, m2, e2) /\ ar_live s2 = ar_live s' /\ length rs = length prompts /\ Forall (fun r => r.2 = []) rs).
Proof.
  intros Hv Hi Ef Hf Hc Hd Hin Hly Hvo Hst Hb Hw Hbias Hh. pose proof Hst as [Hx Hy Hxy HD]. unfold inference_init, init_engine. rewrite Hin. cbn [mbind option_bind]. fold mcfg.
  destruct (loader_load_ok fuel path mcfg f v s m Hv Hi Ef Hf Hc Hd) as (er & r & v1 & s1 & m1 & -> & _ & _ & I1 & _ & Hr). cbn [mbind option_bind].
  destruct r as [[[p md] [cx c]]|]; [|by destruct er; eexists (- 1), _, _, _, _; (split; [done | left])].
  destruct Hr as [-> Hl]. unfold build_empty_tokenizer. change (tokenizer_build _ _ _ _ _ _ _ _) with (Some (TOK_ERR_INVALID, zero_tok, s1)). cbn [mbind option_bind].
  rewrite (proj2 (Z.ltb_ge _ _)) by lia. set (V0 := Model.vocab_size mcfg) in *. unfold INF_MAX_VOCAB in Hvo.
  destruct (ar_alloc_ok false (4 * V0) s1 I1 ltac:(lia)) as (lg & s2 & -> & I2 & Hlg). cbn [mbind option_bind].
  destruct (ar_alloc_ok false (4 * INF_MAX_TOKENS) s2 I2 ltac:(unfold INF_MAX_TOKENS; lia)) as (ids & s3 & -> & I3 & Hids). cbn [mbind option_bind].
  destruct ((lg =? 0) || (ids =? 0)) eqn:Ez; [unfold inference_shutdown; cbn [g_inited negb]; rewrite Hin; eexists (- 1), _, _, _, _; (split; [done | by left])|].
  apply orb_false_iff in Ez as [Elg%Z.eqb_neq Eids%Z.eqb_neq]. destruct Hlg as [[? _]|(Plg & L2 & _ & D2)]; [done|]. destruct Hids as [[? _]|(_ & L3 & _ & _)]; [done|].
  eexists 0, _, v1, s3, m1. split; [done|]. right. split; [done|]. intros prompts Hn.
  assert (Hup : forall b, inside s1 b -> inside s3 b) by (intros b (x & Hx1 & Hx2); exists x; split; [rewrite L3, L2; by do 2 right | done]).
  assert (Hkeep : forall b, inside s b -> inside s3 b) by (intros b (x & Hx1 & Hx2); apply Hup; exists x; split; [apply list_elem_of_In, (lm_keeps _ _ _ _ _ _ _ _ _ Hl), list_elem_of_In | ]; done).
  apply (replies_silent prompts (mk_engine p md cx c mcfg zero_tok cfg true lg ids) s3 m1 I3); [|done|done].
  assert (Hlgb : forall b, inside s1 b -> sepb (lg, V0) b).
  { intros b (x & Hx1 & Hx2). rewrite Forall_forall in D2. specialize (D2 x ltac:(by apply list_elem_of_In)). unfold disjoint_regions, sepb, sep in *. cbn [fst snd] in *. lia. }
  assert (Hin1 : forall sl n, has_tensor mcfg f sl n -> inside s1 (get_slot sl md, n) /\ sepb (get_slot sl md, n) (x_buf, MAX_EMBD)).
  { intros sl k Hk. apply (tensor_inside mcfg f _ _ _ _ _ _ _ _ _ _ Hl Hk). done. }
  assert (Hx1 : inside s1 (x_buf, MAX_EMBD)) by (destruct Hx as (x & Hx1 & Hx2); exists x; split; [apply list_elem_of_In, (lm_keeps _ _ _ _ _ _ _ _ _ Hl), list_elem_of_In | ]; done).
  constructor; cbn [g_inited g_model g_tok g_model_at g_model_cfg g_logits]; try done.
  - pose proof (lm_addr _ _ _ _ _ _ _ _ _ Hl). lia.
  - apply (lm_ffn _ _ _ _ _ _ _ _ _ Hl).
  - split; [by apply Hkeep | by apply Hkeep | done | done].
  - split.
    + repeat (apply Forall_cons; split); [| | | |by apply Forall_nil]; split;
        [apply Hup, (proj1 (Hin1 SLnFW D Hw)) | exact (proj2 (Hin1 SLnFW D Hw)) | apply Hup, (proj1 (Hin1 SLnFB D Hbias)) | exact (proj2 (Hin1 SLnFB D Hbias)) |
        apply Hup, (proj1 (Hin1 SLmHead _ Hh)) | exact (proj2 (Hin1 SLmHead _ Hh)) | | by apply Hlgb].
      exists (lg, 4 * V0). cbn [fst snd]. split; [rewrite L3, L2; by right; left | lia].
    + destruct (Hin1 SLmHead _ Hh) as [Hih _]. specialize (Hlgb _ Hih). unfold sepb, sep in *. cbn [fst snd get_slot] in *. lia.
Qed.
End Engine.

(** ** An example *)

#[local] Existing Instance b32.
#[local] Instance bump_allocator : Allocator bump := {| a_alloc := ar_alloc false; a_free := ar_free false; a_mem _ := fun _ => 0; a_set_mem s _ := s |}.

Definition floats (n : nat) : list Z := concat (replicate n [0; 0; 128; 63]).
Definition demo_model_file : gguf := mk_gguf 2 []
  [mk_gtensor (chars "output_norm.weight") [2] GGML_TYPE_F32 0; mk_gtensor (chars "output_norm.bias") [2] GGML_TYPE_F32 8; mk_gtensor (chars "output.weight") [2; 3] GGML_TYPE_F32 16] (floats 10).
Definition demo_statics : bump := mk_bump 65536 1048576 [(1024, 16384); (20480, 16384)].
Definition demo_inference : inference_config_t spec_float := mk_inference_config demo_model_cfg zero_config demo_greedy 4.
Definition cold : engine spec_float := mk_engine 0 demo_model 0 (mk_ctx 0 0 0 0 0 0) demo_model_cfg zero_tok demo_inference false 0 0.

Lemma demo_model_file_ok : file_ok demo_model_file.
Proof.
  split; [unfold gguf_ok; split_and!|split; [|split; vm_compute; reflexivity]].
  - vm_compute; discriminate.
  - vm_compute; discriminate.
  - apply Forall_nil; exact I.
  - apply (bool_decide_unpack _). vm_compute. exact I.
  - vm_compute; discriminate.
  - apply (bool_decide_unpack _). vm_compute. exact I.
Qed.

Lemma demo_has sl k n : find_tensor_slot 2 (g_name (nth k (g_tensors demo_model_file) (mk_gtensor [] [] 0 0))) = Some sl -> (k < 3)%nat ->
  (forall j, (k < j < 3)%nat -> find_tensor_slot 2 (g_name (nth j (g_tensors demo_model_file) (mk_gtensor [] [] 0 0))) <> Some sl) ->
  n <= elements (nth k (g_tensors demo_model_file) (mk_gtensor [] [] 0 0)) -> has_tensor demo_model_cfg demo_model_file sl n.
Proof.
  intros E Hk Hj Hn. assert (forall j, (j < 3)%nat -> g_tensors demo_model_file !! j = Some (nth j (g_tensors demo_model_file) (mk_gtensor [] [] 0 0))) as Hnth by (intros [|[|[|j]]] Hl; [done..|lia]).
  exists k, (nth k (g_tensors demo_model_file) (mk_gtensor [] [] 0 0)). split; [|split; [by apply Hnth | done]]. split; [eexists; split; [by apply Hnth | done]|].
  intros j t Hlt Et. pose proof (lookup_lt_Some _ _ _ Et) as Hl. cbn [length g_tensors demo_model_file] in Hl. rewrite Hnth in Et by done. injection Et as <-. by apply Hj.
Qed.

(** Two prompts, the second empty. *)
Lemma inference_never_answers_witness : exists e' v' s' m' rs s2 m2 e2,
  inference_init 1 (Some [97]) (Some [98]) (Some demo_inference) cold [([97], encode_gguf demo_model_file)] demo_statics demo_floats = Some (0, e', v', s', m') /\
  replies avx_features 1024 20480 (fun _ => f0) (fun _ => 0) [(Some [104; 105], 2); (None, 0)] e' s' m' = Some (rs, s2, m2, e2) /\ length rs = 2%nat /\ Forall (fun r => r.2 = []) rs.
Proof.
  destruct (inference_never_answers avx_features 1024 20480 (fun _ => f0) (fun _ => 0) 1 [97] [98] demo_inference demo_model_file cold [([97], encode_gguf demo_model_file)] demo_statics demo_floats)
    as (r & e' & v' & s' & m' & E & Hr).
  - exact I.
  - split; [cbn; lia|]. split; [repeat constructor; cbn; set_solver | repeat constructor; cbn; lia].
  - reflexivity.
  - exact demo_model_file_ok.
  - vm_compute. intuition congruence.
  - apply Nat.leb_le. reflexivity.
  - reflexivity.
  - reflexivity.
  - vm_compute. split; [reflexivity | discriminate].
  - split; [exists (1024, 16384) | exists (20480, 16384) | |]; cbn; try lia; try (split; [auto 10 | unfold MAX_EMBD; lia]); unfold sep, MAX_EMBD; lia.
  - vm_compute. discriminate.
  - apply (demo_has SLnFW 0); [reflexivity | lia | | vm_compute; discriminate]. intros [|[|[|j]]] Hj; [lia | vm_compute; discriminate.. | lia].
  - apply (demo_has SLnFB 1); [reflexivity | lia | | vm_compute; discriminate]. intros [|[|[|j]]] Hj; [lia.. | vm_compute; discriminate | lia].
  - apply (demo_has SLmHead 2); [reflexivity | lia | | vm_compute; discriminate]. intros [|[|[|j]]] Hj; lia.
  - assert (match inference_init 1 (Some [97]) (Some [98]) (Some demo_inference) cold [([97], encode_gguf demo_model_file)] demo_statics demo_floats with Some (0, _, _, _, _) => true | _ => false end = true) as E0 by (vm_compute; reflexivity).
    rewrite E in E0. destruct Hr as [->|[-> Hr]]; [discriminate|]. destruct (Hr [(Some [104; 105], 2); (None, 0)]) as (rs & s2 & m2 & e2 & E2 & _ & El & Hrs); [repeat constructor; cbn; lia|].
    exists e', v', s', m', rs, s2, m2, e2. split; [exact E|]. split; [exact E2|]. split; [exact El | exact Hrs].
Defined.
