(* ===== verification/Canvas.v ===== *)
(** What the desktop applications share in drawing (kernel/apps/explorer.c,
    terminal_gui.c, settings.c and ai_chat_simple.c have a copy each): the
    rectangle filled pixel by pixel where it is on the screen, and a line of
    text from signed coordinates; and that neither leaves the screen. *)

From S2P Require Import Prelude Memory Framebuffer Font.
Local Open Scope Z_scope.

Definition ex_fill_rect (x y w h col : Z) (fb : framebuffer) : framebuffer :=
  for_up (Z.to_nat (s32 (y + h) - y)) y (fun yy fb =>
    if (yy <? 0) || (s32 (height fb) <=? yy) then fb
    else
      for_up (Z.to_nat (s32 (x + w) - x)) x (fun xx fb =>
        if (xx <? 0) || (s32 (width fb) <=? xx) then fb else fb_put_pixel (u32 xx) (u32 yy) col fb) fb) fb.

(** [x] moves by [cw], the width of a character. *)
Fixpoint ex_draw_string (font : gui_font) (cw x y : Z) (s : list Z) (fg bg : Z) (fb : framebuffer) : framebuffer :=
  match s with
  | [] => fb
  | c :: s => ex_draw_string font cw (s32 (x + cw)) y s fg bg (font_draw_char font (u32 x) (u32 y) c fg bg fb)
  end.

(** ** Only the screen is written *)

Lemma font_draw_char_stays font x y c fg bg fb :
  fb_ok fb -> font_ok font -> 0 <= x -> 0 <= y -> stays fb (font_draw_char font x y c fg bg fb).
Proof.
  intros O [Fw Fh] Hx Hy. unfold font_draw_char.
  assert (stays fb (fb_fill_rect x y (font_width font) (font_height font) bg fb)) as S.
  { apply fill_rect_stays; unfold len_ok; done || lia. }
  etransitivity; [exact S|]. apply for_up_stays; [by eapply stays_ok|]. intros r t _ Ot _.
  apply for_up_stays; [done|]. intros k u _ Ou _. destruct (glyph_bit _ _ _); [|reflexivity].
  apply put_pixel_stays; [done | apply u32_range..].
Qed.

Lemma ex_draw_string_stays font cw y s fg bg : font_ok font ->
  forall x fb, fb_ok fb -> stays fb (ex_draw_string font cw x y s fg bg fb).
Proof.
  intros F. induction s as [|c s IH]; intros x fb O; cbn [ex_draw_string]; [reflexivity|].
  assert (stays fb (font_draw_char font (u32 x) (u32 y) c fg bg fb)) as S.
  { apply font_draw_char_stays; [done | done | apply u32_range..]. }
  etransitivity; [exact S|]. apply IH. by eapply stays_ok.
Qed.

Lemma ex_fill_rect_stays x y w h col fb : fb_ok fb -> stays fb (ex_fill_rect x y w h col fb).
Proof.
  intros O. unfold ex_fill_rect. apply for_up_stays; [done|]. intros yy t _ Ot _. destruct (_ || _); [reflexivity|].
  apply for_up_stays; [done|]. intros xx u _ Ou _. destruct (_ || _); [reflexivity|].
  apply put_pixel_stays; [done | apply u32_range..].
Qed.

(** The pixels of the rectangle that are on the screen get the colour, the
    others stay as they are. *)
Lemma ex_fill_row fb t x w yy col :
  fb_ok fb -> stays fb t -> - 2 ^ 30 <= x <= 2 ^ 30 -> 0 <= w < 2 ^ 30 -> 0 <= yy < height fb ->
  let t' := for_up (Z.to_nat (s32 (x + w) - x)) x (fun xx fb =>
      if (xx <? 0) || (s32 (width fb) <=? xx) then fb else fb_put_pixel (u32 xx) (u32 yy) col fb) t in
  stays fb t' /\ forall px py, 0 <= px < width fb -> 0 <= py < height fb ->
    pixel t' px py = if decide (x <= px < x + w /\ py = yy) then col else pixel t px py.
Proof.
  intros O St Hx Hw Hy. cbv zeta. pose proof (fk_small _ O) as Hs. pose proof (fk_width _ O) as Hfw. pose proof (fk_height _ O) as Hfh. rewrite s32_small by lia.
  pose proof (for_up_inv (fun k u => stays fb u /\ forall px py, 0 <= px < width fb -> 0 <= py < height fb ->
    pixel u px py = if decide (x <= px < k /\ py = yy) then col else pixel t px py)
    (Z.to_nat (x + w - x)) x (fun xx fb => if (xx <? 0) || (s32 (width fb) <=? xx) then fb else fb_put_pixel (u32 xx) (u32 yy) col fb) t) as H.
  replace (x + Z.of_nat (Z.to_nat (x + w - x))) with (x + w) in H by lia. apply H; clear H.
  - split; [done|]. intros px py _ _. by rewrite decide_False by lia.
  - intros k u Hk [Su Hu]. destruct (stays_dims _ _ Su) as (Ew & Eh & _). rewrite Ew, s32_small by lia.
    destruct (Z.ltb_spec k 0); [|destruct (Z.leb_spec (width fb) k)]; cbn [orb];
      [split; [done|]; intros px py Hpx Hpy; rewrite Hu by done; repeat case_decide; done || lia.. |].
    rewrite !u32_small by lia. destruct (shows_put fb u (pixel u) k yy col O ltac:(lia) ltac:(lia)) as [S1 S2]; [split; done|].
    split; [done|]. intros px py Hpx Hpy. rewrite S2, Hu by done. repeat case_decide; done || lia.
Qed.

Lemma ex_fill_rect_shows fb t f x y w h col :
  fb_ok fb -> - 2 ^ 30 <= x <= 2 ^ 30 -> - 2 ^ 30 <= y <= 2 ^ 30 -> 0 <= w < 2 ^ 30 -> 0 <= h < 2 ^ 30 -> shows fb t f ->
  shows fb (ex_fill_rect x y w h col t) (fun px py => if decide (x <= px < x + w /\ y <= py < y + h) then col else f px py).
Proof.
  intros O Hx Hy Hw Hh [St Hf]. pose proof (fk_small _ O) as Hs. pose proof (fk_width _ O) as Hfw. pose proof (fk_height _ O) as Hfh. unfold ex_fill_rect. rewrite (s32_small (y + h)) by lia.
  match goal with |- shows _ (for_up ?n _ ?b _) _ => set (body := b); set (m := n) end.
  pose proof (for_up_inv (fun k u => shows fb u (fun px py => if decide (x <= px < x + w /\ y <= py < k) then col else f px py)) m y body t) as H.
  replace (y + Z.of_nat m) with (y + h) in H by lia. apply H; clear H.
  - split; [done|]. intros px py Hpx Hpy. rewrite decide_False by lia. by apply Hf.
  - intros k u Hk [Su Hu]. unfold body. destruct (stays_dims _ _ Su) as (Ew & Eh & _). rewrite Eh, (s32_small (height fb)) by lia.
    destruct (Z.ltb_spec k 0); [|destruct (Z.leb_spec (height fb) k)]; cbn [orb];
      [split; [done|]; intros px py Hpx Hpy; rewrite Hu by done; repeat case_decide; done || lia.. |].
    destruct (ex_fill_row fb u x w k col O Su Hx Hw ltac:(lia)) as [S1 S2]. split; [done|].
    intros px py Hpx Hpy. rewrite S2, Hu by done. repeat case_decide; done || lia.
Qed.

(** ** Pictures *)

(** A picture drawn over another. *)
Definition over (fb t : framebuffer) : Prop := stays fb t /\ fb_ok t.

Lemma over_refl fb : fb_ok fb -> over fb fb.
Proof. by split. Qed.
Lemma over_step fb t t' : over fb t -> (fb_ok t -> stays t t') -> over fb t'.
Proof. intros [S O] H. specialize (H O). split; [by etransitivity | by eapply stays_ok]. Qed.
Lemma over_rect fb t x y w h c : over fb t -> over fb (ex_fill_rect x y w h c t).
Proof. intros H. eapply over_step; [exact H|]. apply ex_fill_rect_stays. Qed.
Lemma over_text fb t cw x y l fg bg : over fb t -> over fb (ex_draw_string font_load_builtin cw x y l fg bg t).
Proof. intros H. eapply over_step; [exact H|]. apply ex_draw_string_stays, builtin_font_ok. Qed.
Lemma over_char fb t x y c fg bg : over fb t -> 0 <= x -> 0 <= y -> over fb (font_draw_char font_load_builtin x y c fg bg t).
Proof. intros H Hx Hy. eapply over_step; [exact H|]. intros O. apply font_draw_char_stays; [done | apply builtin_font_ok | done | done]. Qed.
Lemma over_fill fb t x y w h c : over fb t -> 0 <= x -> 0 <= y -> len_ok w -> len_ok h -> over fb (fb_fill_rect x y w h c t).
Proof. intros H ? ? ? ?. eapply over_step; [exact H|]. intros O. by apply fill_rect_stays. Qed.
Lemma over_box fb t x y w h c : over fb t -> 0 <= x -> 0 <= y -> len_ok w -> len_ok h -> over fb (fb_draw_rect x y w h c t).
Proof. intros H ? ? ? ?. eapply over_step; [exact H|]. intros O. by apply draw_rect_stays. Qed.
Lemma over_pixel fb t x y c : over fb t -> 0 <= x -> 0 <= y -> over fb (fb_put_pixel x y c t).
Proof. intros H ? ?. eapply over_step; [exact H|]. intros O. by apply put_pixel_stays. Qed.
Lemma over_clear fb t c : over fb t -> over fb (fb_clear c t).
Proof. intros H. eapply over_step; [exact H|]. intros O. by apply clear_stays. Qed.

(** A loop over pictures. *)
Lemma over_loop fb t n i body : over fb t -> (forall j u, i <= j -> over fb u -> over fb (body j u)) -> over fb (for_up n i body t).
Proof. intros H Hb. apply (for_up_inv (fun _ u => over fb u)); [done|]. intros j u Hj Hu. apply Hb; [lia | done]. Qed.

Lemma over_chars fb font y s fg bg : font_ok font -> 0 <= y -> forall x t, over fb t -> 0 <= x -> over fb (draw_chars font x y s fg bg t).
Proof.
  intros F Hy. induction s as [|c s IH]; intros x t H Hx; cbn [draw_chars]; [done|]. apply IH; [|apply u32_range].
  eapply over_step; [exact H|]. intros O. by apply font_draw_char_stays.
Qed.
Lemma over_line fb t font x y s fg bg : font_ok font -> over fb t -> 0 <= x -> 0 <= y -> over fb (font_draw_string font x y s fg bg t).
Proof. intros F H Hx Hy. by apply over_chars. Qed.
Lemma over_label fb t font x y w s fg bg : font_ok font -> over fb t -> 0 <= x -> 0 <= y -> over fb (font_draw_string_centered font x y w s fg bg t).
Proof.
  intros F H Hx Hy. unfold font_draw_string_centered. apply over_line; [done | done | | done]. unfold centered_x.
  destruct (_ <? _); [apply u32_range | done].
Qed.

(** Steps that may fail. *)
Definition paints (fb : framebuffer) (r : option framebuffer) : Prop := exists t, r = Some t /\ over fb t.

Lemma paints_some fb t : over fb t -> paints fb (Some t).
Proof. intros H. by exists t. Qed.
Lemma paints_bind fb r f : paints fb r -> (forall t, over fb t -> paints fb (f t)) -> paints fb (t ← r; f t).
Proof. intros (t & -> & H) Hf. by apply Hf. Qed.
Lemma paints_stays fb t r : over fb t -> (fb_ok t -> exists t', r = Some t' /\ stays t t') -> paints fb r.
Proof. intros H Hr. pose proof H as [_ O]. destruct (Hr O) as (t' & -> & S). exists t'. split; [done|]. by eapply over_step. Qed.
