(* ===== verification/AppLife.v ===== *)
(** What opening an application does to the windows: the objects it has
    allocated so far are apart from each other and from the windows, a failure
    gives them back, and a created window comes to the front. *)

From S2P Require Import Prelude Memory Alloc Window Ring Keyboard Mouse Input Terminal Wm WmSpec.
Local Open Scope Z_scope.

Section Life.
Context {A : Type} {AL : Allocator A} {AS : AllocatorSpec A}.

(** The windows [l] and the live objects [objs] (address and size). *)
Record holds (w : windows A) (l : list Z) (objs : list (Z * Z)) : Prop := {
  ho_inv : win_inv w l;
  ho_owns p n : (p, n) ∈ objs -> a_owns (wheap w) p n /\ 0 < n /\ p ∉ l;
  ho_apart : NoDup (map fst objs);
}.

Lemma holds_nil w l : win_inv w l -> holds w l [].
Proof. intros I. constructor; [done | | by constructor]. intros p n H. by apply not_elem_of_nil in H. Qed.

(** A new object. *)
Lemma holds_alloc n w l objs : holds w l objs -> 0 < n <= 2 ^ 31 ->
  exists p a, a_alloc n (wheap w) = Some (p, a) /\ (p = 0 -> with_heap w a = w) /\ (p <> 0 -> holds (with_heap w a) l ((p, n) :: objs)).
Proof.
  intros [I O N] Hn. pose proof a_max_bound. destruct (a_alloc_spec n (wheap w) (wi_heap _ _ I)) as (p & a & E & Ia & H0 & H1); [lia|].
  exists p, a. split; [done|]. split; [intros ->; rewrite H0 by done; by destruct w|]. intros Hp. destruct (H1 Hp) as [Hown Hold].
  assert (forall q k, a_owns (wheap w) q k -> 0 < k -> a_owns a q k /\ q <> p) as Hk.
  { intros q k Hq Hk. destruct (Hold q k Hq) as (Ho & Hd & _); [lia|]. split; [done | lia]. }
  constructor.
  - apply with_heap_inv; [done | done|]. intros q Hq. by apply Hk; [apply (wi_owns _ _ I)|].
  - intros q k [[= -> ->]|Hq]%elem_of_cons; cbn [wheap with_heap].
    + split; [done|]. split; [lia|]. intros Hin. by apply (Hk p SIZEOF_GUI_WINDOW (wi_owns _ _ I p Hin)).
    + destruct (O q k Hq) as (Ho & Hpos & Hl). split; [by apply Hk | done].
  - cbn [map fst]. apply NoDup_cons. split; [|done]. intros Hin. apply list_elem_of_fmap in Hin as ([q k] & -> & Hq).
    destruct (O q k Hq) as (Ho & Hpos & _). by apply (Hk q k Ho Hpos).
Qed.

(** One of the objects freed. *)
Lemma holds_free p n w l o1 o2 : holds w l (o1 ++ (p, n) :: o2) ->
  exists a, a_free p (wheap w) = Some a /\ holds (with_heap w a) l (o1 ++ o2).
Proof.
  intros [I O N]. destruct (O p n) as (Ho & Hn & Hl); [apply elem_of_app; right; apply elem_of_cons; by left|].
  destruct (a_free_spec p n (wheap w) (wi_heap _ _ I) Ho) as (a & E & Ia & Hk). exists a. split; [done|].
  rewrite map_app in N. cbn [map fst] in N. apply NoDup_app in N as (N1 & Nd & N2). apply NoDup_cons in N2 as [Np N2]. constructor.
  - apply with_heap_inv; [done | done|]. intros q Hq. apply Hk; [by apply (wi_owns _ _ I) | by intros -> | done].
  - intros q k Hq. assert ((q, k) ∈ o1 ++ (p, n) :: o2) as Hq'.
    { apply elem_of_app in Hq as [Hq|Hq]; apply elem_of_app; [by left | right; apply elem_of_cons; by right]. }
    destruct (O q k Hq') as (Hoq & Hkp & Hlq). split; [|done]. apply Hk; [done | | lia]. intros ->.
    apply elem_of_app in Hq as [Hq|Hq]; apply (list_elem_of_fmap_2 fst) in Hq; cbn in Hq; [|done].
    apply (Nd p Hq). apply elem_of_cons. by left.
  - rewrite map_app. apply NoDup_app. split; [done|]. split; [|done]. intros x Hx Hx2. apply (Nd x Hx). apply elem_of_cons. by right.
Qed.

(** An object whose pointer may be NULL. *)
Definition obj (p n : Z) : list (Z * Z) := if decide (p = 0) then [] else [(p, n)].

Lemma holds_alloc_obj n w l objs : holds w l objs -> 0 < n <= 2 ^ 31 ->
  exists p a, a_alloc n (wheap w) = Some (p, a) /\ holds (with_heap w a) l (obj p n ++ objs).
Proof.
  intros H Hn. destruct (holds_alloc n w l objs H Hn) as (p & a & E & H0 & H1). exists p, a. split; [done|]. unfold obj.
  destruct (decide (p = 0)) as [->|Hp]; [by rewrite H0 | by apply H1].
Qed.

(** What is left when the application did not open. *)
Lemma holds_grows w l a objs : win_inv w l -> focus_ok w l -> holds (with_heap w a) l objs -> grows w l (with_heap w a) l.
Proof. intros I F [I' _ _]. apply grows_heap; [done | done | apply (wi_heap _ _ I') | apply (wi_owns _ _ I')]. Qed.

(** A window created over the objects: it is none of them. *)
Lemma holds_create fuel x y ww hh title draw event data w a l objs :
  holds (with_heap w a) l objs -> (length l <= fuel)%nat -> g_next_window_id w < 2 ^ 32 - 1 ->
  exists p s, gui_create_window fuel x y ww hh title draw event data (with_heap w a) = Some (p, s) /\
    (p = 0 -> s = with_heap w a) /\ (p <> 0 -> grows w l s (p :: l)).
Proof.
  intros H Hf Hid. destruct (created_grows fuel x y ww hh title draw event data (with_heap w a) l (ho_inv _ _ _ H) Hf Hid) as (p & s & E & H0 & H1).
  exists p, s. split; [done|]. split; [done|]. intros Hp. destruct (H1 Hp) as [G1 G2 G3 G4 G5 G6]. by constructor.
Qed.
End Life.
