(* ===== verification/Notes.v ===== *)
(** The text window the kernel is built with (kernel/apps/notepad_simple.c;
    the editor of kernel/apps/notepad.c, Notepad.v, has the same header and is
    left out of the build): text is only put in and taken away at its end.

    The text window: typing edits a text of bounded length at its end, the
    drawing stays on the screen of a window that has room for a line of text,
    and leaves it for the smallest window the mouse can make. *)

From S2P Require Import Prelude Memory Alloc Window Ring Keyboard Mouse Input Framebuffer Font Notepad Heap Terminal Wm WmSpec Canvas AppLife.
Local Open Scope Z_scope.

Definition NP_FONT_W : Z := 8.
Definition NP_FONT_H : Z := 16.
Definition NP_PAD : Z := 8.
Definition NP_STATUS_H : Z := 22.
Definition NP_TEXT_CAP : Z := 4096.
Definition NP_COL_BG : Z := 0xFFFFFFFF.
Definition NP_COL_TEXT : Z := 0xFF1E1E1E.
Definition NP_COL_CURSOR : Z := 0xFF0066CC.
Definition NP_COL_STATUS_BG : Z := 0xFF2D5FA8.
Definition NP_COL_STATUS_FG : Z := 0xFFFFFFFF.

(** A [notepad_t] with the bytes at [gbuf.buf]. *)
Record note := mk_note { np : notepad; text : Z -> Z }.

Definition np_insert_char (c : Z) (n : note) : note :=
  let g := gbuf (np n) in
  if buf g =? 0 then n
  else if buf_size g <=? u64 (gap_start g + 1) then n
  else
    let t := upd (text n) (gap_start g) c in
    let g := mk_gap (buf g) (buf_size g) (u64 (gap_start g + 1)) (gap_end g) in
    mk_note (set_modified true (set_gbuf g (np n))) (upd t (gap_start g) 0).

Definition np_backspace (n : note) : note :=
  let g := gbuf (np n) in
  if gap_start g =? 0 then n
  else
    let g := mk_gap (buf g) (buf_size g) (gap_start g - 1) (gap_end g) in
    mk_note (set_modified true (set_gbuf g (np n))) (upd (text n) (gap_start g) 0).

(** ** The window's callbacks *)

(** The characters up to [gap_start], while a line is left: the position
    after them, and the picture. *)
Fixpoint np_draw_text (k : nat) (i x y line_x max_y : Z) (win : gui_window) (t : Z -> Z) (font : gui_font) (fb : framebuffer) : Z * Z * framebuffer :=
  match k with
  | O => (x, y, fb)
  | S k =>
      if max_y <? y then (x, y, fb)
      else
        let c := t i in
        if c =? 10 then np_draw_text k (i + 1) line_x (u32 (y + NP_FONT_H)) line_x max_y win t font fb
        else
          let c := if c =? 9 then 32 else c in
          let c := if (c <? 0x20) || (0x7F <=? c) then 46 else c in
          let fb := font_draw_char font x y c NP_COL_TEXT NP_COL_BG fb in
          let x := u32 (x + NP_FONT_W) in
          if u32 (u32 (w_x win) + w_width win - NP_PAD) <=? u32 (x + NP_FONT_W)
          then np_draw_text k (i + 1) line_x (u32 (y + NP_FONT_H)) line_x max_y win t font fb
          else np_draw_text k (i + 1) x y line_x max_y win t font fb
  end.

Fixpoint np_draw_string (font : gui_font) (x y : Z) (s : list Z) (fg bg : Z) (fb : framebuffer) : framebuffer :=
  match s with
  | [] => fb
  | c :: s => np_draw_string font (u32 (x + NP_FONT_W)) y s fg bg (font_draw_char font x y c fg bg fb)
  end.

Definition np_status (n : note) : list Z :=
  bytes_of (if modified (np n) then "* " else "  ") ++ (match filename (np n) with [] => bytes_of "Untitled" | name => name end).

Definition np_body_y (win : gui_window) : Z := u32 (u32 (w_y win) + 20).
Definition np_status_y (win : gui_window) : Z := u32 (u32 (w_y win) + w_height win - NP_STATUS_H).

(** The two rectangles. *)
Definition np_backdrop (win : gui_window) (fb : framebuffer) : framebuffer :=
  let fb := fb_fill_rect (u32 (u32 (w_x win) + 1)) (np_body_y win) (u32 (w_width win - 2)) (u32 (w_height win - 20 - NP_STATUS_H)) NP_COL_BG fb in
  fb_fill_rect (u32 (u32 (w_x win) + 1)) (np_status_y win) (u32 (w_width win - 2)) NP_STATUS_H NP_COL_STATUS_BG fb.

Definition notepad_draw_cb (win : gui_window) (n : note) (fb : framebuffer) : framebuffer :=
  if w_user_data win =? 0 then fb
  else
    let font := font_load_builtin in
    let status_y := np_status_y win in
    let fb := np_backdrop win fb in
    let x := u32 (u32 (w_x win) + NP_PAD) in
    let y := u32 (np_body_y win + NP_PAD) in
    let max_y := if NP_FONT_H <? status_y then status_y - NP_FONT_H else status_y in
    let t := if buf (gbuf (np n)) =? 0 then fun _ => 0 else text n in
    let '(x, y, fb) := np_draw_text (Z.to_nat (gap_start (gbuf (np n)))) 0 x y x max_y win t font fb in
    let fb := if y <=? max_y then fb_fill_rect x y 2 NP_FONT_H NP_COL_CURSOR fb else fb in
    np_draw_string font (u32 (u32 (w_x win) + NP_PAD)) (u32 (status_y + 3)) (np_status n) NP_COL_STATUS_FG NP_COL_STATUS_BG fb.

Definition notepad_event_cb (win : gui_window) (ev : gui_event) (n : note) : note :=
  if (w_user_data win =? 0) || negb (bool_decide (ev_type ev = GUI_EVENT_KEY_DOWN)) then n
  else
    let key := keycode ev in
    if (key =? 8) || (key =? 0x0E) then np_backspace n
    else if (key =? 13) || (key =? 10) || (key =? 0x1C) then np_insert_char 10 n
    else if (0x20 <=? key) && (key <? 0x7F) then np_insert_char key n
    else n.

(** ** The calls *)

(** [ascii] is a signed character. *)
Definition notepad_on_key (ascii scancode : Z) (n : note) : note :=
  if (ascii =? 8) || (scancode =? 0x0E) then np_backspace n
  else if (ascii =? 10) || (ascii =? 13) || (scancode =? 0x1C) then np_insert_char 10 n
  else if (0x20 <=? ascii) && (ascii <? 0x7F) then np_insert_char ascii n
  else n.

(** What [np_strcpy] leaves in the [cap] bytes of its target; [None] when the
    copy runs past them. *)
Definition np_strcpy (cap : Z) (src : list Z) : option (list Z) :=
  if Z.of_nat (length src) <? cap then Some src else None.

Section Calls.
Context {A : Type} {AL : Allocator A}.

(** The windows and the editors in memory. *)
Record note_sys := mk_nsys { notes : Z -> note; nwins : windows A }.

(** The pointers handed to the window. *)
Definition NOTE_CB : Z := 3.

Definition note_fresh (b : Z) (name : list Z) : note :=
  mk_note (mk_np (mk_gap b NP_TEXT_CAP 0 NP_TEXT_CAP) 0 0 false 0 0 0 false true 0 [] name 0) (fun _ => 0).
Definition set_win_id (id : Z) (n : note) : note :=
  let m := np n in
  mk_note (mk_np (gbuf m) (np_cursor m) (sel_start m) (has_sel m) (scroll_line m) (cursor_line m) (cursor_col m) (modified m)
             (cursor_visible m) (last_blink_tick m) (filepath m) (filename m) id) (text n).

(** [path] is [None] for NULL.  The pointer to the editor, 0 for NULL. *)
Definition notepad_open (fuel : nat) (path : option (list Z)) (s : note_sys) : option (Z * note_sys) :=
  '(p, a) ← a_alloc SIZEOF_NOTEPAD (wheap (nwins s));
  let w := with_heap (nwins s) a in
  if p =? 0 then Some (0, mk_nsys (notes s) w)
  else
    '(b, a) ← a_alloc NP_TEXT_CAP (wheap w);
    let w := with_heap w a in
    if b =? 0 then a ← a_free p (wheap w); Some (0, mk_nsys (notes s) (with_heap w a))
    else
      name ← np_strcpy NP_MAX_FILENAME (match path with Some (c :: l) => c :: l | _ => bytes_of "Untitled" end);
      let n := note_fresh b name in
      '(win, w) ← gui_create_window fuel 120 80 520 340 NOTE_CB NOTE_CB NOTE_CB p w;
      if win =? 0 then
        a ← a_free b (wheap w);
        a ← a_free p a;
        Some (0, mk_nsys (upd (notes s) p n) (with_heap w a))
      else Some (p, mk_nsys (upd (notes s) p (set_win_id (w_id (wins w win)) n)) w).

Definition notepad_close (p : Z) (s : note_sys) : option note_sys :=
  if p =? 0 then Some s
  else
    let b := buf (gbuf (np (notes s p))) in
    a ← (if b =? 0 then Some (wheap (nwins s)) else a_free b (wheap (nwins s)));
    a ← a_free p a;
    Some (mk_nsys (notes s) (with_heap (nwins s) a)).
End Calls.
Arguments note_sys A : clear implicits.

(** * Specification *)

(** ** The text *)

(** The text shown: the characters before the gap. *)
Definition content (n : note) : list Z := bytes_at (text n) 0 (gap_start (gbuf (np n))).

Record note_ok (n : note) : Prop := {
  nk_buf : buf (gbuf (np n)) <> 0;
  nk_size : buf_size (gbuf (np n)) = NP_TEXT_CAP;
  nk_gap : 0 <= gap_start (gbuf (np n)) < NP_TEXT_CAP;
  nk_end : text n (gap_start (gbuf (np n))) = 0;
}.

(** The editor a user expects of keys that are typed: a text that holds one
    character less than the buffer. *)
Definition put_char (c : Z) (l : list Z) : list Z := if Z.of_nat (length l) <? NP_TEXT_CAP - 1 then l ++ [c] else l.
Definition edit (key : Z) (l : list Z) : list Z :=
  if bool_decide (key ∈ [8; 0x0E]) then removelast l
  else if bool_decide (key ∈ [10; 13; 0x1C]) then put_char 10 l
  else if bool_decide (0x20 <= key < 0x7F) then put_char key l
  else l.

Lemma bytes_at_one m a : bytes_at m a 1 = [m a].
Proof. unfold bytes_at. change (seqZ 0 1) with [0]. cbn [map]. by rewrite Z.add_0_r. Qed.

Lemma content_length n : note_ok n -> Z.of_nat (length (content n)) = gap_start (gbuf (np n)).
Proof. intros [_ _ ? _]. unfold content. rewrite bytes_at_length. lia. Qed.

Lemma insert_char_ok c n : note_ok n -> note_ok (np_insert_char c n) /\ content (np_insert_char c n) = put_char c (content n).
Proof.
  intros O. pose proof (content_length n O) as El. pose proof O as [Hb Hs Hg He]. unfold np_insert_char, put_char. rewrite El, (proj2 (Z.eqb_neq _ 0)) by done.
  assert (NP_TEXT_CAP = 4096) as Ec by done. rewrite u64_small, Hs by lia. destruct (Z.leb_spec NP_TEXT_CAP (gap_start (gbuf (np n)) + 1)).
  { rewrite (proj2 (Z.ltb_ge _ _)) by lia. done. }
  rewrite (proj2 (Z.ltb_lt _ _)) by lia. split.
  - constructor; cbn [np text gbuf buf buf_size gap_start set_modified set_gbuf]; [done | done | lia | by rewrite upd_eq].
  - unfold content. cbn [np text gbuf gap_start set_modified set_gbuf]. rewrite bytes_at_app by lia.
    rewrite bytes_at_one, upd_ne, Z.add_0_l, upd_eq by lia. f_equal.
    apply bytes_at_agree. intros x Hx. rewrite !upd_ne by lia. done.
Qed.

Lemma backspace_ok n : note_ok n -> note_ok (np_backspace n) /\ content (np_backspace n) = removelast (content n).
Proof.
  intros [Hb Hs Hg He]. unfold np_backspace. destruct (Z.eqb_spec (gap_start (gbuf (np n))) 0) as [E|E].
  { split; [by constructor|]. unfold content. by rewrite E. }
  split.
  - constructor; cbn [np text gbuf buf buf_size gap_start set_modified set_gbuf]; [done | done | lia | by rewrite upd_eq].
  - unfold content. cbn [np text gbuf gap_start set_modified set_gbuf]. set (g := gap_start (gbuf (np n))) in *.
    replace g with (g - 1 + 1) at 3 by lia. rewrite (bytes_at_app (text n)) by lia.
    rewrite bytes_at_one, removelast_last.
    apply bytes_at_agree. intros x Hx. by rewrite upd_ne by lia.
Qed.

Definition key_down (key : Z) : gui_event := mk_gev GUI_EVENT_KEY_DOWN 0 0 0 0 0 key 0.

Lemma event_ok win ev n : w_user_data win <> 0 -> note_ok n ->
  note_ok (notepad_event_cb win ev n) /\
  content (notepad_event_cb win ev n) = (if decide (ev_type ev = GUI_EVENT_KEY_DOWN) then edit (keycode ev) (content n) else content n).
Proof.
  intros Hu O. unfold notepad_event_cb. rewrite (proj2 (Z.eqb_neq _ 0)) by done. cbn [orb]. destruct (decide _) as [E|E].
  2: { by rewrite bool_decide_false. }
  rewrite bool_decide_true by done. cbn [negb]. unfold edit. set (k := keycode ev).
  pose proof (backspace_ok n O). pose proof (fun c => insert_char_ok c n O) as Hi.
  destruct (decide (k = 8 \/ k = 0x0E)) as [H1|H1].
  { rewrite (bool_decide_true (k ∈ _)) by (rewrite !elem_of_cons; tauto). destruct H1 as [-> | ->]; done. }
  rewrite (bool_decide_false (k ∈ [8; _])) by (rewrite !elem_of_cons, elem_of_nil; tauto).
  rewrite (proj2 (Z.eqb_neq k 8)), (proj2 (Z.eqb_neq k 0x0E)) by tauto. cbn [orb].
  destruct (decide (k = 10 \/ k = 13 \/ k = 0x1C)) as [H2|H2].
  { rewrite (bool_decide_true (k ∈ _)) by (rewrite !elem_of_cons; tauto). destruct H2 as [-> | [-> | ->]]; apply Hi. }
  rewrite (bool_decide_false (k ∈ [10; _; _])) by (rewrite !elem_of_cons, elem_of_nil; tauto).
  rewrite (proj2 (Z.eqb_neq k 13)), (proj2 (Z.eqb_neq k 10)), (proj2 (Z.eqb_neq k 0x1C)) by tauto. cbn [orb].
  destruct (Z.leb_spec 0x20 k), (Z.ltb_spec k 0x7F); cbn [andb];
    [rewrite bool_decide_true by done; apply Hi | rewrite bool_decide_false by lia; done..].
Qed.

(** Whatever events reach the window, the text is what the keys among
    them make of it one by one, up to 4095 characters: Backspace takes the
    last one away, Enter and the printable characters are appended. *)
Theorem typing_edits_text win evs n :
  w_user_data win <> 0 -> note_ok n ->
  let n' := fold_left (fun n ev => notepad_event_cb win ev n) evs n in
  note_ok n' /\ content n' = fold_left (fun l ev => if decide (ev_type ev = GUI_EVENT_KEY_DOWN) then edit (keycode ev) l else l) evs (content n).
Proof.
  intros Hu. revert n. induction evs as [|ev evs IH]; intros n O; cbn [fold_left]; [done|].
  destruct (event_ok win ev n Hu O) as [O' E]. rewrite <- E. by apply IH.
Qed.

(** ** Drawing *)

(** A drawing step after others. *)
Lemma stays_after (f : framebuffer -> framebuffer) fb t : fb_ok fb -> stays fb t -> (fb_ok t -> stays t (f t)) -> stays fb (f t).
Proof. intros O S H. etransitivity; [exact S|]. apply H. by eapply stays_ok. Qed.

Lemma np_draw_text_stays win t line_x max_y k : 0 <= line_x -> forall i x y fb, fb_ok fb -> 0 <= x -> 0 <= y ->
  let '(x', y', fb') := np_draw_text k i x y line_x max_y win t font_load_builtin fb in 0 <= x' /\ 0 <= y' /\ stays fb fb'.
Proof.
  intros Hl. induction k as [|k IH]; intros i x y fb O Hx Hy; cbn [np_draw_text]; [done|]. destruct (max_y <? y); [done|].
  destruct (t i =? 10); [apply IH; [done | done | apply u32_range]|].
  set (c := if _ || _ then _ else _). set (fb1 := font_draw_char _ _ _ _ _ _ fb).
  assert (stays fb fb1) as S by (apply font_draw_char_stays; [done | apply builtin_font_ok | done | done]).
  assert (fb_ok fb1) as O1 by (by eapply stays_ok). set (x1 := u32 (x + NP_FONT_W)).
  assert (0 <= x1) as Hx1 by apply u32_range. pose proof (proj1 (u32_range (y + NP_FONT_H))) as Hy1.
  assert (forall x y, 0 <= x -> 0 <= y -> let '(x', y', fb') := np_draw_text k (i + 1) x y line_x max_y win t font_load_builtin fb1 in
    0 <= x' /\ 0 <= y' /\ stays fb fb') as P.
  { intros u v Hu Hv. specialize (IH (i + 1) u v fb1 O1 Hu Hv). destruct (np_draw_text _ _ _ _ _ _ _ _ _ _) as [[x' y'] fb'].
    destruct IH as (P1 & P2 & P3). split; [done|]. split; [done | by etransitivity]. }
  clearbody fb1 x1. clear c. destruct (_ <=? _); by apply P.
Qed.

Lemma np_draw_string_stays y s fg bg : 0 <= y -> forall x fb, fb_ok fb -> 0 <= x -> stays fb (np_draw_string font_load_builtin x y s fg bg fb).
Proof.
  intros Hy. induction s as [|c s IH]; intros x fb O Hx; cbn [np_draw_string]; [reflexivity|].
  apply (stays_after (np_draw_string font_load_builtin (u32 (x + NP_FONT_W)) y s fg bg) fb (font_draw_char font_load_builtin x y c fg bg fb));
    [done | apply font_draw_char_stays; [done | apply builtin_font_ok | done | done]|].
  intros O'. apply IH; [done | apply u32_range].
Qed.

(** All but the two rectangles stays on the screen. *)
Lemma notepad_draw_text_stays win n fb : fb_ok (np_backdrop win fb) -> w_user_data win <> 0 -> stays (np_backdrop win fb) (notepad_draw_cb win n fb).
Proof.
  intros O Hu. unfold notepad_draw_cb. rewrite (proj2 (Z.eqb_neq _ 0)) by done. cbv zeta. set (t := np_backdrop win fb) in *.
  match goal with |- context [np_draw_text ?k ?i ?x ?y ?l ?m ?w ?f ?font ?t] =>
    pose proof (np_draw_text_stays w f l m k (proj1 (u32_range _)) i x y t O (proj1 (u32_range _)) (proj1 (u32_range _))) as P;
    destruct (np_draw_text k i x y l m w f font t) as [[x' y'] fb'] end.
  destruct P as (P1 & P2 & P3). etransitivity; [exact P3|]. assert (fb_ok fb') as O' by (by eapply stays_ok).
  destruct (_ <=? _).
  - eapply stays_after; [done | apply fill_rect_stays; unfold len_ok; cbn; done || lia|]. intros O2. apply np_draw_string_stays; [apply u32_range | done | apply u32_range].
  - apply np_draw_string_stays; [apply u32_range | done | apply u32_range].
Qed.

(** The window has room for the title bar and the status line. *)
Definition roomy (win : gui_window) : Prop := 2 <= w_width win <= 2 ^ 31 /\ 42 <= w_height win <= 2 ^ 31.

Lemma notepad_draw_stays win n fb : fb_ok fb -> roomy win -> stays fb (notepad_draw_cb win n fb).
Proof.
  intros O [Hw Hh]. destruct (decide (w_user_data win = 0)) as [E|E].
  { unfold notepad_draw_cb. rewrite E. reflexivity. }
  assert (stays fb (np_backdrop win fb)) as S.
  { unfold np_backdrop, NP_STATUS_H. cbv zeta. rewrite (u32_small (w_width win - 2)), (u32_small (w_height win - 20 - 22)) by lia.
    eapply stays_after; [done | apply fill_rect_stays; unfold len_ok, np_body_y; try apply u32_range; done || lia|].
    intros O'. apply fill_rect_stays; unfold len_ok, np_status_y; try apply u32_range; done || lia. }
  etransitivity; [exact S|]. apply notepad_draw_text_stays; [by eapply stays_ok | done].
Qed.

(** ** The smallest window *)

(** Rows painted one after the other: a word of one of them has the colour. *)
Lemma rows_reach n k x y w c fb j :
  0 <= k < Z.of_nat n -> 0 <= w -> u32 (u32 (y + k) * stride fb) + x <= j < u32 (u32 (y + k) * stride fb) + x + w ->
  let fb' := for_up n 0 (fun yy fb => paint_row (u32 (u32 (y + yy) * stride fb) + x) w c fb) fb in same_fb fb fb' /\ words fb' j = c.
Proof.
  intros Hk Hw Hj. cbv zeta.
  pose proof (for_up_inv (fun i t => same_fb fb t /\ (k < i -> words t j = c)) n 0 (fun yy fb => paint_row (u32 (u32 (y + yy) * stride fb) + x) w c fb) fb) as H.
  rewrite Z.add_0_l in H. destruct H as [H1 H2]; [split; [apply same_fb_refl | lia] | | split; [exact H1 | apply H2; lia]].
  intros i t Hi [E Ht]. destruct (paint_row_ok (u32 (u32 (y + i) * stride t) + x) w c t Hw) as [E2 Hp].
  split; [by eapply same_fb_trans|]. intros Hki. rewrite Hp. destruct (same_fb_eq _ _ E) as (_ & _ & Es & _).
  destruct (decide (i = k)) as [->|Hne].
  - rewrite Es, (proj2 (Z.leb_le _ _)), (proj2 (Z.ltb_lt _ _)) by lia. done.
  - destruct (_ && _); [done|]. apply Ht. lia.
Qed.

(** In a window too low for the status line the height of the text area
    wraps around. *)
Lemma low_notepad_paints win n fb :
  fb_ok fb -> w_user_data win <> 0 -> 20 <= w_height win < 42 -> 3 <= w_width win <= 2 ^ 31 ->
  0 <= w_x win -> w_x win + 1 < width fb -> 2 <= w_y win -> w_y win + 20 < height fb -> w_x win + w_width win <= width fb ->
  let behind := height fb * stride fb + (w_x win + 1) in
  ~ on_screen fb behind /\ words (notepad_draw_cb win n fb) behind = NP_COL_BG.
Proof.
  intros O Hu Hh Hw Hx Hxw Hy Hyh Hr. cbv zeta. set (j := height fb * stride fb + (w_x win + 1)).
  pose proof (fk_small _ O) as Hs. pose proof (fk_width _ O) as Hfw. pose proof (fk_height _ O) as Hfh. pose proof (fk_size _ O) as Hsz.
  destruct (word_index (stride fb) (w_x win + 1) (height fb)) as [D M]; [lia | lia|]. fold j in D, M.
  assert (~ on_screen fb j) as Hoff by (unfold on_screen; lia). split; [done|].
  set (fb1 := fb_fill_rect (w_x win + 1) (w_y win + 20) (w_width win - 2) (2 ^ 32 + (w_height win - 42)) NP_COL_BG fb).
  assert (same_fb fb fb1 /\ words fb1 j = NP_COL_BG) as [E1 W1].
  { unfold fb1, fb_fill_rect. rewrite (fk_usable _ O). cbn [negb]. rewrite (proj2 (Z.leb_gt _ _)), (proj2 (Z.leb_gt _ _)) by lia. cbn [orb]. cbv zeta.
    assert (clip (w_y win + 20) (2 ^ 32 + (w_height win - 42)) (height fb) = 2 ^ 32 + (w_height win - 42)) as ->.
    { unfold clip. replace (u32 _) with (w_y win + 20 + (w_height win - 42)); [by rewrite (proj2 (Z.ltb_ge _ _)) by lia|].
      unfold u32. rewrite <- (Z.mod_small (w_y win + 20 + _) (2 ^ 32)) at 1 by lia. rewrite <- (Z_mod_plus_full _ 1). f_equal. lia. }
    rewrite (clip_ok _ (w_width win - 2)) by lia.
    apply (rows_reach _ (height fb - (w_y win + 20))); [lia | lia|].
    replace (w_y win + 20 + (height fb - (w_y win + 20))) with (height fb) by lia. rewrite (u32_small (height fb)), u32_small by nia. subst j. lia. }
  assert (np_backdrop win fb = fb_fill_rect (w_x win + 1) (np_status_y win) (w_width win - 2) NP_STATUS_H NP_COL_STATUS_BG fb1) as Eb.
  { unfold np_backdrop, np_body_y, fb1, NP_STATUS_H. cbv zeta. rewrite !(u32_small (w_x win)), !(u32_small (w_y win)), !(u32_small (w_x win + 1)),
      !(u32_small (w_y win + 20)), !(u32_small (w_width win - 2)) by lia.
    replace (u32 (w_height win - 20 - 22)) with (2 ^ 32 + (w_height win - 42)); [done|].
    unfold u32. rewrite <- (Z_mod_plus_full _ 1). rewrite Z.mod_small by lia. lia. }
  assert (stays fb1 (np_backdrop win fb)) as S1.
  { rewrite Eb. apply fill_rect_stays; [by eapply same_fb_ok | lia | apply u32_range | unfold len_ok; lia | unfold len_ok, NP_STATUS_H; lia]. }
  pose proof (stays_ok _ _ S1 (same_fb_ok _ _ E1 O)) as O2. pose proof (notepad_draw_text_stays win n fb O2 Hu) as S2.
  assert (stays fb1 (notepad_draw_cb win n fb)) as [_ S] by (by etransitivity). rewrite S; [done|].
  destruct (same_fb_eq _ _ E1) as (-> & -> & -> & _) || (unfold on_screen; destruct (same_fb_eq _ _ E1) as (-> & -> & -> & _)). exact Hoff.
Qed.

(** A window of the text editor that the mouse makes as low as it can
    gets 40 rows, two less than its title bar and status line take; the height
    of the text area wraps around, and drawing the window paints rows below
    the screen, from the words right behind the frame buffer on. *)
Theorem smallest_notepad_paints_past_screen {A W} ev (s : gui A W) n fb :
  let win := wins (wnd (drag_resize ev s)) (drag_win (wm s)) in
  fb_ok fb -> w_user_data win <> 0 -> s32 (s32 (win_origin_h (wm s)) + s32 (ev_y ev - drag_origin_y (wm s))) < 40 ->
  0 <= w_x win -> w_x win + w_width win <= width fb -> 2 <= w_y win -> w_y win + 20 < height fb ->
  let behind := height fb * stride fb + (w_x win + 1) in
  w_height win = 40 /\ ~ on_screen fb behind /\ words (notepad_draw_cb win n fb) behind = NP_COL_BG.
Proof.
  intros win O Hu Hn Hx Hr Hy Hyh. cbv zeta. pose proof (fk_small _ O).
  assert (w_height win = 40 /\ 80 <= w_width win) as [Eh Hw].
  { subst win. cbn. rewrite upd_eq. cbn. rewrite (proj2 (Z.ltb_lt _ 40)) by done. split; [done|]. match goal with |- context [?a <? 80] => destruct (Z.ltb_spec a 80); lia end. }
  split; [done|]. apply low_notepad_paints; done || lia.
Qed.

Lemma note_fresh_ok b name : b <> 0 -> note_ok (note_fresh b name).
Proof. intros Hb. constructor; cbn; [done | done | unfold NP_TEXT_CAP; lia | done]. Qed.

Lemma typing_edits_text_witness :
  content (fold_left (fun n ev => notepad_event_cb (mk_win 1 0 0 0 0 GUI_WINDOW_STATE_NORMAL true 0 0 0 8 0 0) ev n)
             (map key_down [72; 105; 33; 8; 10]) (note_fresh 64 [])) = [72; 105; 10].
Proof.
  refine (eq_trans (proj2 (typing_edits_text _ _ (note_fresh 64 []) _ _)) _).
  - discriminate.
  - apply note_fresh_ok. discriminate.
  - reflexivity.
Defined.

(** The window of a fresh text editor, its lower edge dragged up by 310. *)
Definition low_gui : gui heap (Z * (Z -> terminal_gui)) :=
  mk_gui_sys (mk_windows (upd (fun _ => mk_win 0 0 0 0 0 GUI_WINDOW_STATE_HIDDEN false 0 0 0 0 0 0) 8
                (mk_win 1 120 80 520 340 GUI_WINDOW_STATE_NORMAL true NOTE_CB NOTE_CB NOTE_CB 16 0 0)) 8 8 2 (wheap no_windows))
    (0, fun _ => tgui_fresh) 1024 768 (mk_menu false 0 0) (mk_desk NO_ICON (fun _ => 0) NO_ICON)
    (mk_wm DRAG_RESIZE 8 638 418 120 80 520 340 false) (mk_rect 0 0 0 0).

Lemma smallest_notepad_paints_past_screen_witness :
  words (notepad_draw_cb (wins (wnd (drag_resize (mk_gev GUI_EVENT_MOUSE_MOVE 0 638 108 GUI_MOUSE_BUTTON_LEFT 0 0 0) low_gui)) 8) (note_fresh 64 []) demo_fb)
    (768 * 1024 + 121) = NP_COL_BG.
Proof.
  refine (proj2 (proj2 (smallest_notepad_paints_past_screen (mk_gev GUI_EVENT_MOUSE_MOVE 0 638 108 GUI_MOUSE_BUTTON_LEFT 0 0 0) low_gui (note_fresh 64 [])
    demo_fb demo_fb_ok _ _ _ _ _ _))); cbn; done || lia.
Defined.
