(* ===== verification/Explorer.v ===== *)
(** The file explorer (kernel/apps/explorer.c): its list of entries, the
    walk through paths, the window's callbacks and the calls.  A string is the
    list of its characters; an array of [n] characters takes strings shorter
    than [n], and [None] stands for a copy past its end.  The file calls are
    those of Files.v, files are opened by Notes.v.

    The file explorer: what it lists of a directory, how it goes up, which
    file a double click opens, and that its strings fit their arrays. *)

From S2P Require Import Prelude Memory Alloc Window Ring Keyboard Mouse Input Framebuffer Font Canvas Files Heap Terminal Notepad Notes.
Local Open Scope Z_scope.

Definition EXPL_MAX_ENTRIES : Z := 128.
Definition EXPL_MAX_NAME : Z := 64.
Definition EXPL_PATH_MAX : Z := 256.
Definition EXPL_FONT_W : Z := 8.
Definition PADDING : Z := 4.
Definition HEADER_H : Z := 20.
Definition ROW_H : Z := 18.
Definition EXPL_COL_BG : Z := 0xFFF5F5F5.
Definition EXPL_COL_LIST_BG : Z := 0xFFFFFFFF.
Definition EXPL_COL_TEXT : Z := 0xFF202020.
Definition EXPL_COL_SEL_BG : Z := 0xFF2D5FA8.
Definition EXPL_COL_SEL_FG : Z := 0xFFFFFFFF.
Definition EXPL_COL_HEADER_BG : Z := 0xFFE0E0E0.
Definition EXPL_COL_HEADER_FG : Z := 0xFF000000.

Record explorer_entry := mk_entry { e_name : list Z; is_dir : bool; e_size : Z }.

(** [entries]: the first [entry_count] ones. *)
Record explorer := mk_expl { cwd : list Z; entries : list explorer_entry; selected : Z; scroll : Z; ex_win_id : Z }.

Definition entry_count (ex : explorer) : Z := Z.of_nat (length (entries ex)).
Definition set_cwd (p : list Z) (ex : explorer) : explorer := mk_expl p (entries ex) (selected ex) (scroll ex) (ex_win_id ex).
Definition set_entries (l : list explorer_entry) (ex : explorer) : explorer := mk_expl (cwd ex) l (selected ex) (scroll ex) (ex_win_id ex).
Definition set_selected (i : Z) (ex : explorer) : explorer := mk_expl (cwd ex) (entries ex) i (scroll ex) (ex_win_id ex).
Definition set_first_row (i : Z) (ex : explorer) : explorer := mk_expl (cwd ex) (entries ex) (selected ex) i (ex_win_id ex).

(** ** Strings *)

Definition ex_strcpy (cap : Z) (s : list Z) : option (list Z) := if Z.of_nat (length s) <? cap then Some s else None.
Definition ex_strcat (cap : Z) (d s : list Z) : option (list Z) := ex_strcpy cap (d ++ s).

Fixpoint ex_strcmp (a b : list Z) : Z :=
  match a, b with
  | [], [] => 0
  | [], y :: _ => 0 - y
  | x :: _, [] => x - 0
  | x :: a, y :: b => if x =? y then ex_strcmp a b else x - y
  end.

Definition SLASH : list Z := bytes_of "/".
Definition at_root (p : list Z) : bool := ex_strcmp p SLASH =? 0.
Definition ends_in_slash (p : list Z) : bool := negb (Z.of_nat (length p) =? 0) && (List.last p 0 =? 47).

(** [p], a slash unless it ends in one, and [name]. *)
Definition join_path (p name : list Z) : option (list Z) :=
  if at_root p then p ← ex_strcpy EXPL_PATH_MAX SLASH; ex_strcat EXPL_PATH_MAX p name
  else
    p ← (if negb (Z.of_nat (length p) =? 0) && negb (List.last p 0 =? 47) then ex_strcat EXPL_PATH_MAX p SLASH else Some p);
    ex_strcat EXPL_PATH_MAX p name.

(** [while (len > 0 && cwd[len-1] != '/') len--;]: the first [len] characters
    of [p], given reversed. *)
Fixpoint drop_component (r : list Z) : list Z :=
  match r with
  | [] => []
  | c :: r' => if c =? 47 then r else drop_component r'
  end.

Section Explorer.
Context {A : Type} {AL : Allocator A} {V : Type} {FS : FileSys V}.

(** ** The list of entries *)

Definition push_entry (name : list Z) (dir : bool) (size : Z) (ex : explorer) : option explorer :=
  n ← ex_strcpy EXPL_MAX_NAME name;
  if entry_count ex <? EXPL_MAX_ENTRIES then Some (set_entries (entries ex ++ [mk_entry n dir size]) ex) else None.

(** The file, if there is one. *)
Definition list_file (name : list Z) (ex : explorer) (v : V) : option (explorer * V) :=
  '(st, v) ← fs_stat name v;
  match st with
  | Some size => ex ← push_entry name false size ex; Some (ex, v)
  | None => Some (ex, v)
  end.

Definition explorer_load_dummy (ex : explorer) (v : V) : option (explorer * V) :=
  let ex := set_entries [] ex in
  ex ← (if negb (at_root (cwd ex)) then push_entry (bytes_of "..") true 0 ex else Some ex);
  '(ex, v) ← list_file (bytes_of "README.TXT") ex v;
  '(ex, v) ← list_file (bytes_of "weights.gguf") ex v;
  ex ← (if entry_count ex =? 0 then push_entry (bytes_of "(empty)") false 0 ex else Some ex);
  Some (set_first_row 0 (set_selected (if 0 <? entry_count ex then 0 else -1) ex), v).

(** ** Navigation *)

Definition explorer_open_file (fuel : nat) (ex : explorer) (name : list Z) (s : note_sys A) : option (note_sys A) :=
  path ← join_path (cwd ex) name; snd <$> notepad_open fuel (Some path) s.

Definition explorer_go_up (ex : explorer) (v : V) : option (explorer * V) :=
  if at_root (cwd ex) then Some (ex, v)
  else if Z.of_nat (length (cwd ex)) =? 0 then Some (set_cwd SLASH ex, v)
  else
    let p := if (1 <? Z.of_nat (length (cwd ex))) && (List.last (cwd ex) 0 =? 47) then removelast (cwd ex) else cwd ex in
    let q := rev (drop_component (rev p)) in
    let q := if Z.of_nat (length q) =? 0 then SLASH else q in
    explorer_load_dummy (set_cwd q ex) v.

Definition explorer_enter (fuel : nat) (ex : explorer) (v : V) (s : note_sys A) : option (explorer * V * note_sys A) :=
  if (selected ex <? 0) || (entry_count ex <=? selected ex) then Some (ex, v, s)
  else
    match entries ex !! Z.to_nat (selected ex) with
    | Some e =>
        if is_dir e then
          if ex_strcmp (e_name e) (bytes_of "..") =? 0 then '(ex, v) ← explorer_go_up ex v; Some (ex, v, s)
          else
            p ← join_path (cwd ex) (e_name e);
            '(ex, v) ← explorer_load_dummy (set_cwd p ex) v; Some (ex, v, s)
        else s ← explorer_open_file fuel ex (e_name e) s; Some (ex, v, s)
    | None => Some (ex, v, s)
    end.

(** ** The window's callbacks *)

Definition entry_label (e : explorer_entry) : option (list Z) :=
  if is_dir e then
    l ← ex_strcat (EXPL_MAX_NAME + 4) (bytes_of "[") (e_name e); ex_strcat (EXPL_MAX_NAME + 4) l (bytes_of "]")
  else ex_strcpy (EXPL_MAX_NAME + 4) (e_name e).

(** [for (int i = 0; i < max_rows; i++)] with its exit. *)
Fixpoint draw_rows (n : nat) (idx x0 row_y w : Z) (ex : explorer) (fb : framebuffer) : option framebuffer :=
  match n with
  | O => Some fb
  | S n =>
      if (idx <? 0) || (entry_count ex <=? idx) then Some fb
      else
        match entries ex !! Z.to_nat idx with
        | Some e =>
            let sel := idx =? selected ex in
            let bg := if sel then EXPL_COL_SEL_BG else EXPL_COL_LIST_BG in
            let fg := if sel then EXPL_COL_SEL_FG else EXPL_COL_TEXT in
            let fb := ex_fill_rect x0 (s32 (row_y - 2)) w ROW_H bg fb in
            l ← entry_label e;
            let fb := ex_draw_string font_load_builtin EXPL_FONT_W (s32 (x0 + 4)) row_y l fg bg fb in
            draw_rows n (s32 (idx + 1)) x0 (s32 (row_y + ROW_H)) w ex fb
        | None => Some fb
        end
  end.

Definition list_y (win : gui_window) : Z := s32 (s32 (s32 (w_y win + PADDING) + HEADER_H) + PADDING).

Definition explorer_draw_cb (win : gui_window) (ex : explorer) (fb : framebuffer) : option framebuffer :=
  if w_user_data win =? 0 then Some fb
  else
    let ww := s32 (w_width win) in
    let wh := s32 (w_height win) in
    let fb := ex_fill_rect (w_x win) (w_y win) ww wh EXPL_COL_BG fb in
    let x0 := s32 (w_x win + PADDING) in
    let y0 := s32 (w_y win + PADDING) in
    let iw := s32 (ww - PADDING * 2) in
    let fb := ex_fill_rect x0 y0 iw HEADER_H EXPL_COL_HEADER_BG fb in
    let fb := ex_draw_string font_load_builtin EXPL_FONT_W (s32 (x0 + 4)) (s32 (y0 + 2)) (cwd ex) EXPL_COL_HEADER_FG EXPL_COL_HEADER_BG fb in
    let ly := list_y win in
    let list_h := s32 (s32 (wh - s32 (ly - w_y win)) - PADDING) in
    let fb := ex_fill_rect x0 ly iw list_h EXPL_COL_LIST_BG fb in
    draw_rows (Z.to_nat (list_h ÷ ROW_H)) (scroll ex) x0 (s32 (ly + 2)) iw ex fb.

(** A key; what it does not use of the event is not looked at. *)
Definition explorer_key (fuel : nat) (key : Z) (ex : explorer) (v : V) (s : note_sys A) : option (explorer * V * note_sys A) :=
  if key =? 0x48 then
    if 0 <? selected ex then
      let ex := set_selected (selected ex - 1) ex in
      Some (if selected ex <? scroll ex then set_first_row (selected ex) ex else ex, v, s)
    else Some (ex, v, s)
  else if key =? 0x50 then
    Some (if u32 (selected ex + 1) <? entry_count ex then set_selected (selected ex + 1) ex else ex, v, s)
  else if key =? 0x0E then '(ex, v) ← explorer_go_up ex v; Some (ex, v, s)
  else if key =? 0x1C then explorer_enter fuel ex v s
  else Some (ex, v, s).

Definition explorer_click (fuel : nat) (win : gui_window) (ev : gui_event) (ex : explorer) (v : V) (s : note_sys A) : option (explorer * V * note_sys A) :=
  if ev_y ev <? list_y win then Some (ex, v, s)
  else
    let idx := s32 (scroll ex + s32 (ev_y ev - list_y win) ÷ ROW_H) in
    if (0 <=? idx) && (idx <? entry_count ex) then
      if (selected ex =? idx) && negb (Z.land (mouse_flags ev) GUI_MOUSE_FLAG_DOUBLE_CLICK =? 0) then explorer_enter fuel ex v s
      else Some (set_selected idx ex, v, s)
    else Some (ex, v, s).

Definition explorer_event_cb (fuel : nat) (win : gui_window) (ev : gui_event) (ex : explorer) (v : V) (s : note_sys A) : option (explorer * V * note_sys A) :=
  if w_user_data win =? 0 then Some (ex, v, s)
  else
  '(ex, v, s) ← (if bool_decide (ev_type ev = GUI_EVENT_KEY_DOWN) then explorer_key fuel (keycode ev) ex v s else Some (ex, v, s));
  if bool_decide (ev_type ev = GUI_EVENT_MOUSE_DOWN) && negb (Z.land (ev_buttons ev) GUI_MOUSE_BUTTON_LEFT =? 0)
  then explorer_click fuel win ev ex v s
  else Some (ex, v, s).

(** ** The calls *)

(** The explorers in memory, the files, and the windows with the editors. *)
Record expl_sys := mk_esys { expls : Z -> explorer; files : V; esys : note_sys A }.

Definition SIZEOF_EXPLORER : Z := 9488.

(** The pointers handed to the window. *)
Definition EXPL_CB : Z := 2.

Definition start_dir (path : option (list Z)) : list Z :=
  match path with
  | Some (c :: p) =>
      let len := Z.of_nat (length (c :: p)) in
      let len := if EXPL_PATH_MAX <=? len then EXPL_PATH_MAX - 1 else len in
      take (Z.to_nat len) (c :: p)
  | _ => SLASH
  end.

(** The pointer to the explorer, 0 for NULL. *)
Definition explorer_open (fuel : nat) (start_path : option (list Z)) (s : expl_sys) : option (Z * expl_sys) :=
  let n := esys s in
  '(p, a) ← a_alloc SIZEOF_EXPLORER (wheap (nwins n));
  let w := with_heap (nwins n) a in
  if p =? 0 then Some (0, mk_esys (expls s) (files s) (mk_nsys (notes n) w))
  else
    '(ex, v) ← explorer_load_dummy (mk_expl (start_dir start_path) [] 0 0 0) (files s);
    '(win, w) ← gui_create_window fuel 80 80 480 360 EXPL_CB EXPL_CB EXPL_CB p w;
    if win =? 0 then
      a ← a_free p (wheap w);
      Some (0, mk_esys (upd (expls s) p ex) v (mk_nsys (notes n) (with_heap w a)))
    else
      let ex := mk_expl (cwd ex) (entries ex) (selected ex) (scroll ex) (w_id (wins w win)) in
      Some (p, mk_esys (upd (expls s) p ex) v (mk_nsys (notes n) w)).

Definition explorer_close (p : Z) (s : expl_sys) : option expl_sys :=
  if p =? 0 then Some s
  else
    let n := esys s in
    a ← a_free p (wheap (nwins n));
    Some (mk_esys (expls s) (files s) (mk_nsys (notes n) (with_heap (nwins n) a))).
End Explorer.
Arguments expl_sys A V : clear implicits.

(** * Specification *)

(** A string of C. *)
Definition c_string (s : list Z) : Prop := Forall (fun c => 0 < c) s.

Lemma c_string_app a b : c_string (a ++ b) <-> c_string a /\ c_string b.
Proof. apply Forall_app. Qed.

Lemma strcmp_eq a b : c_string a -> c_string b -> ex_strcmp a b = 0 <-> a = b.
Proof.
  revert b. induction a as [|x a IH]; intros [|y b] Ha Hb; cbn [ex_strcmp]; [done | | |].
  - apply Forall_inv in Hb. split; [lia | done].
  - apply Forall_inv in Ha. split; [lia | done].
  - apply Forall_cons in Ha as [Hx Ha]. apply Forall_cons in Hb as [Hy Hb]. destruct (Z.eqb_spec x y) as [->|].
    + rewrite IH by done. split; [by intros -> | by intros [= ->]].
    + split; [lia | by intros [= -> ->]].
Qed.

Lemma slash_string : c_string SLASH.
Proof. by repeat constructor. Qed.

Lemma at_root_eq p : c_string p -> at_root p = bool_decide (p = SLASH).
Proof.
  intros Hp. unfold at_root. pose proof (strcmp_eq p SLASH Hp slash_string) as H. destruct (Z.eqb_spec (ex_strcmp p SLASH) 0) as [E|E].
  - rewrite bool_decide_true by (by apply H). done.
  - rewrite bool_decide_false by (intros ->; by apply E, H). done.
Qed.

Section Spec.
Context {A : Type} {AL : Allocator A} {V : Type} {FS : FileSys V} {FSS : FileSysSpec V}.

(** ** The list *)

Definition present_entry (f : list Z -> option (list Z)) (name : list Z) : list explorer_entry :=
  match f name with
  | Some data => [mk_entry name false (Z.of_nat (length data))]
  | None => []
  end.
Definition UP : explorer_entry := mk_entry (bytes_of "..") true 0.
Definition NOTHING : explorer_entry := mk_entry (bytes_of "(empty)") false 0.

(** What is shown of directory [p]: the way up unless it is the root, and the
    two files the explorer knows of, if they exist. *)
Definition listing (f : list Z -> option (list Z)) (p : list Z) : list explorer_entry :=
  let l := (if decide (p = SLASH) then [] else [UP]) ++ present_entry f (bytes_of "README.TXT") ++ present_entry f (bytes_of "weights.gguf") in
  match l with [] => [NOTHING] | _ => l end.

Lemma push_ok name dir size ex :
  Z.of_nat (length name) < EXPL_MAX_NAME -> entry_count ex < EXPL_MAX_ENTRIES ->
  push_entry name dir size ex = Some (set_entries (entries ex ++ [mk_entry name dir size]) ex).
Proof. intros H1 H2. unfold push_entry, ex_strcpy. rewrite (proj2 (Z.ltb_lt _ _) H1). cbn [mbind option_bind]. by rewrite (proj2 (Z.ltb_lt _ _) H2). Qed.

Lemma list_file_ok name ex v :
  Z.of_nat (length name) < EXPL_MAX_NAME -> entry_count ex < EXPL_MAX_ENTRIES -> fs_inv v ->
  exists v', list_file name ex v = Some (set_entries (entries ex ++ present_entry (fs_file v) name) ex, v') /\ fs_inv v' /\ fs_file v' = fs_file v.
Proof.
  intros H1 H2 Iv. unfold list_file, present_entry. destruct (fs_stat_ok name v Iv) as (v' & -> & Iv' & Ef). exists v'. cbn [mbind option_bind].
  destruct (fs_file v name) as [data|]; cbn [fmap option_fmap option_map].
  - rewrite push_ok by done. done.
  - rewrite app_nil_r. by destruct ex.
Qed.

Lemma present_entry_length f name : (length (present_entry f name) <= 1)%nat.
Proof. unfold present_entry. destruct (f name); cbn; lia. Qed.

Lemma load_ok ex v :
  c_string (cwd ex) -> fs_inv v ->
  exists v', explorer_load_dummy ex v = Some (mk_expl (cwd ex) (listing (fs_file v) (cwd ex)) 0 0 (ex_win_id ex), v') /\
    fs_inv v' /\ fs_file v' = fs_file v.
Proof.
  intros Hc Iv. unfold explorer_load_dummy. cbn [cwd set_entries]. rewrite at_root_eq by done.
  set (l0 := if decide (cwd ex = SLASH) then [] else [UP]).
  assert ((if negb (bool_decide (cwd ex = SLASH)) then push_entry (bytes_of "..") true 0 (set_entries [] ex) else Some (set_entries [] ex))
          = Some (set_entries l0 ex)) as ->.
  { subst l0. destruct (decide (cwd ex = SLASH)); [rewrite bool_decide_true by done | rewrite bool_decide_false by done]; [done|].
    cbn [negb]. rewrite push_ok by done. done. }
  cbn [mbind option_bind]. assert (length l0 <= 1)%nat as H0 by (subst l0; destruct (decide _); cbn; lia).
  destruct (list_file_ok (bytes_of "README.TXT") (set_entries l0 ex) v) as (v1 & -> & I1 & E1); [done | unfold entry_count, EXPL_MAX_ENTRIES; cbn; lia | done|].
  cbn [mbind option_bind entries set_entries]. set (l1 := present_entry (fs_file v) (bytes_of "README.TXT")).
  pose proof (present_entry_length (fs_file v) (bytes_of "README.TXT")) as H1. fold l1 in H1.
  destruct (list_file_ok (bytes_of "weights.gguf") (set_entries (l0 ++ l1) ex) v1) as (v2 & E & I2 & E2);
    [done | unfold entry_count, EXPL_MAX_ENTRIES; cbn; rewrite length_app; lia | done|].
  unfold set_entries in E |- *. cbn [cwd selected scroll ex_win_id] in *. rewrite E. clear E. cbn [mbind option_bind entries]. rewrite E1.
  set (l2 := present_entry (fs_file v) (bytes_of "weights.gguf")). exists v2. rewrite E2, E1.
  assert (listing (fs_file v) (cwd ex) = match l0 ++ l1 ++ l2 with [] => [NOTHING] | _ => l0 ++ l1 ++ l2 end) as -> by done. rewrite <- app_assoc.
  destruct (l0 ++ l1 ++ l2) as [|e l]; done.
Qed.

(** ** Invariant *)

Definition entry_ok (e : explorer_entry) : Prop :=
  Z.of_nat (length (e_name e)) <= 12 /\ (is_dir e = true -> e_name e = bytes_of "..").

(** [k] bounds the path; no window lists more than three entries. *)
Record expl_ok (k : Z) (ex : explorer) : Prop := {
  xo_cwd : c_string (cwd ex);
  xo_len : Z.of_nat (length (cwd ex)) <= k;
  xo_entries : Forall entry_ok (entries ex);
  xo_count : entry_count ex <= 3;
  xo_sel : 0 <= selected ex < Z.max 1 (entry_count ex);
  xo_scroll : 0 <= scroll ex < Z.max 1 (entry_count ex);
}.

Lemma listing_ok f p : Forall entry_ok (listing f p) /\ 1 <= Z.of_nat (length (listing f p)) <= 3.
Proof.
  unfold listing, present_entry. destruct (decide (p = SLASH)), (f (bytes_of "README.TXT")), (f (bytes_of "weights.gguf"));
    cbn [app length]; (split; [|lia]); repeat constructor; done.
Qed.

Lemma loaded_ok k f ex : c_string (cwd ex) -> Z.of_nat (length (cwd ex)) <= k -> expl_ok k (mk_expl (cwd ex) (listing f (cwd ex)) 0 0 (ex_win_id ex)).
Proof. intros Hc Hl. destruct (listing_ok f (cwd ex)) as [H1 H2]. constructor; unfold entry_count; cbn [cwd entries selected scroll]; done || lia. Qed.

(** ** Going up *)

Lemma drop_component_app name r : 47 ∉ name -> drop_component (name ++ r) = drop_component r.
Proof.
  induction name as [|c name IH]; intros H; cbn [app drop_component]; [done|]. apply not_elem_of_cons in H as [H1 H2].
  rewrite (proj2 (Z.eqb_neq c 47)) by done. by apply IH.
Qed.

Lemma drop_component_suffix r : exists s, r = s ++ drop_component r.
Proof.
  induction r as [|c r (s & IH)]; [by exists []|]. cbn [drop_component]. destruct (c =? 47); [by exists []|]. exists (c :: s). cbn. by rewrite <- IH.
Qed.

Lemma go_up_ok k ex v : expl_ok k ex -> 1 <= k -> fs_inv v ->
  exists ex' v', explorer_go_up ex v = Some (ex', v') /\ expl_ok k ex' /\ fs_inv v' /\ fs_file v' = fs_file v.
Proof.
  intros O Hk Iv. pose proof O as [Hc Hl He Hn Hs Hr]. unfold explorer_go_up. destruct (at_root (cwd ex)); [by exists ex, v|].
  destruct (Z.eqb_spec (Z.of_nat (length (cwd ex))) 0) as [E|E].
  { eexists _, _. split; [done|]. split; [|done]. unfold set_cwd. constructor; cbn [cwd entries selected scroll]; try done. apply slash_string. }
  set (p := if _ && _ then _ else _). assert (exists t, cwd ex = p ++ t) as (t & Et).
  { subst p. destruct (_ && _); [|exists []; by rewrite app_nil_r]. exists [List.last (cwd ex) 0]. apply app_removelast_last. by destruct (cwd ex). }
  destruct (drop_component_suffix (rev p)) as (u & Eu). set (q := rev (drop_component (rev p))).
  assert (p = q ++ rev u) as Ep by (subst q; rewrite <- rev_app_distr, <- Eu, rev_involutive; done).
  rewrite Ep in Et. set (r := if Z.of_nat (length q) =? 0 then SLASH else q).
  assert (c_string r /\ Z.of_nat (length r) <= k) as [Hr1 Hr2].
  { subst r. destruct (_ =? 0); [split; [apply slash_string | cbn; lia]|]. rewrite Et, !length_app in Hl. rewrite Et, !c_string_app in Hc.
    split; [tauto | lia]. }
  destruct (load_ok (set_cwd r ex) v) as (v' & -> & Iv' & Ef); [done | done|]. eexists _, v'. split; [done|]. split; [|done].
  by apply (loaded_ok k (fs_file v) (set_cwd r ex)).
Qed.

(** Going up from directory [name] of [q], written with a slash at its
    end or not, leads to [q] and lists it; from the root there is no way up. *)
Theorem explorer_go_up_correct q name tail ex v :
  c_string (q ++ name) -> name <> [] -> 47 ∉ name -> tail = [] \/ tail = SLASH -> cwd ex = q ++ SLASH ++ name ++ tail -> fs_inv v ->
  exists v', explorer_go_up ex v = Some (mk_expl (q ++ SLASH) (listing (fs_file v) (q ++ SLASH)) 0 0 (ex_win_id ex), v') /\
    fs_inv v' /\ fs_file v' = fs_file v /\
    explorer_go_up (set_cwd SLASH ex) v = Some (set_cwd SLASH ex, v).
Proof.
  intros Hc Hne Hns Ht Ew Iv. apply c_string_app in Hc as [Hq Hn]. assert (c_string (q ++ SLASH)) as Hqs by (apply c_string_app; split; [done | apply slash_string]).
  assert (c_string (cwd ex)) as Hcw.
  { rewrite Ew, app_assoc. apply c_string_app. split; [done|]. apply c_string_app. split; [done|]. destruct Ht as [-> | ->]; [constructor | apply slash_string]. }
  unfold explorer_go_up. rewrite at_root_eq by done.
  assert (length name <> 0)%nat as Hln by (by destruct name). assert (length (cwd ex) = length q + 1 + length name + length tail)%nat as El by (rewrite Ew, !length_app; cbn; lia).
  rewrite bool_decide_false by (intros E; rewrite E in El; cbn in El; lia). rewrite (proj2 (Z.eqb_neq (Z.of_nat _) 0)) by lia.
  rewrite (proj2 (Z.ltb_lt 1 _)) by lia. cbn [andb].
  assert (List.last (cwd ex) 0 =? 47 = bool_decide (tail = SLASH) /\ (tail = SLASH -> removelast (cwd ex) = q ++ SLASH ++ name)) as [-> Hrm].
  { destruct Ht as [-> | ->].
    - rewrite Ew, app_nil_r. split; [|done]. destruct (exists_last Hne) as (n' & c & ->). rewrite !app_assoc, last_last.
      apply not_elem_of_app in Hns as [_ Hns]. rewrite bool_decide_false by done. apply Z.eqb_neq. intros ->. apply Hns, elem_of_cons. by left.
    - rewrite Ew, bool_decide_true by done. replace (q ++ SLASH ++ name ++ SLASH) with ((q ++ SLASH ++ name) ++ [47]) by (by rewrite <- !app_assoc).
      rewrite last_last, removelast_last. done. }
  set (p := if bool_decide (tail = SLASH) then removelast (cwd ex) else cwd ex).
  assert (p = q ++ SLASH ++ name) as ->.
  { subst p. destruct Ht as [-> | ->]; [by rewrite bool_decide_false, Ew, app_nil_r by done | rewrite bool_decide_true by done; by apply Hrm]. }
  assert (drop_component (rev (q ++ SLASH ++ name)) = rev (q ++ SLASH)) as ->.
  { rewrite app_assoc, (rev_app_distr _ name), drop_component_app by (intros H; apply Hns, list_elem_of_In, in_rev, list_elem_of_In, H).
    rewrite rev_app_distr. done. }
  rewrite rev_involutive. rewrite (proj2 (Z.eqb_neq (Z.of_nat (length (q ++ SLASH))) 0)) by (rewrite length_app; cbn; lia).
  destruct (load_ok (set_cwd (q ++ SLASH) ex) v Hqs Iv) as (v' & -> & Iv' & Ef). exists v'. split; [done|]. split; [done|]. split; [done|].
  cbn [cwd set_cwd]. by rewrite at_root_eq by apply slash_string.
Qed.

(** ** Paths *)

Lemma strcpy_ok cap l : Z.of_nat (length l) < cap -> ex_strcpy cap l = Some l.
Proof. intros H. unfold ex_strcpy. by rewrite (proj2 (Z.ltb_lt _ _) H). Qed.

Lemma strcat_ok cap d l : Z.of_nat (length d) + Z.of_nat (length l) < cap -> ex_strcat cap d l = Some (d ++ l).
Proof. intros H. apply strcpy_ok. rewrite length_app. lia. Qed.

(** The path of [name] in directory [p]. *)
Definition path_of (p name : list Z) : list Z := (if decide (p = [] \/ List.last p 0 = 47) then p else p ++ SLASH) ++ name.

Lemma join_ok p name : c_string p -> Z.of_nat (length p) + Z.of_nat (length name) + 1 < EXPL_PATH_MAX -> join_path p name = Some (path_of p name).
Proof.
  intros Hc Hl. unfold join_path, path_of. rewrite at_root_eq by done. destruct (decide (p = SLASH)) as [->|Hp].
  { rewrite bool_decide_true, decide_True by (done || by right). rewrite strcpy_ok by done. cbn [mbind option_bind]. apply strcat_ok. cbn in *. lia. }
  rewrite bool_decide_false by done. destruct (decide (p = [] \/ List.last p 0 = 47)) as [H|H].
  - assert (negb (Z.of_nat (length p) =? 0) && negb (List.last p 0 =? 47) = false) as ->.
    { destruct H as [-> | ->]; [done|]. by rewrite andb_false_r. }
    cbn [mbind option_bind]. apply strcat_ok. lia.
  - assert (negb (Z.of_nat (length p) =? 0) && negb (List.last p 0 =? 47) = true) as ->.
    { apply andb_true_iff. split; apply negb_true_iff, Z.eqb_neq; [destruct p; [tauto | cbn; lia] | tauto]. }
    assert (length SLASH = 1%nat) by done. rewrite strcat_ok by lia. cbn [mbind option_bind]. apply strcat_ok. rewrite length_app. lia.
Qed.

Lemma path_of_length p name : Z.of_nat (length (path_of p name)) <= Z.of_nat (length p) + 1 + Z.of_nat (length name).
Proof. unfold path_of. destruct (decide _); rewrite !length_app; cbn [SLASH bytes_of length]; lia. Qed.

Lemma path_of_nonempty p name : name <> [] -> path_of p name <> [].
Proof. intros Hn E. unfold path_of in E. apply app_eq_nil in E as [_ E]. done. Qed.

(** ** Opening files *)

(** The row of the list at [py]. *)
Definition row_at (win : gui_window) (ex : explorer) (py : Z) : Z := scroll ex + (py - list_y win) / ROW_H.

Lemma click_row win ev ex : list_y win <= ev_y ev < 2 ^ 20 -> - 2 ^ 20 <= w_y win <= 2 ^ 20 -> 0 <= scroll ex <= 2 ^ 20 ->
  s32 (scroll ex + s32 (ev_y ev - list_y win) ÷ ROW_H) = row_at win ex (ev_y ev).
Proof.
  intros He Hw Hs. unfold row_at, list_y, PADDING, HEADER_H, ROW_H in *. rewrite !(s32_small (w_y win + 4)), !(s32_small (w_y win + 4 + 20)) in * by (rewrite ?s32_small; lia).
  rewrite !(s32_small (w_y win + 4 + 20 + 4)) in * by lia. rewrite (s32_small (ev_y ev - _)) by lia. rewrite Z.quot_div_nonneg by lia.
  apply s32_small. dlia.
Qed.

Definition left_click (flags x y : Z) : gui_event := mk_gev GUI_EVENT_MOUSE_DOWN 0 x y GUI_MOUSE_BUTTON_LEFT flags 0 0.

(** A click on the row of a file selects it, and the double click that
    follows opens the text editor on the path of that file in the directory
    shown; the explorer itself does not change. *)
Theorem explorer_double_click_opens fuel win ex v (s : note_sys A) x y x' y' e :
  expl_ok (EXPL_PATH_MAX - 14) ex -> w_user_data win <> 0 -> - 2 ^ 20 <= w_y win <= 2 ^ 20 ->
  list_y win <= y < 2 ^ 20 -> list_y win <= y' < 2 ^ 20 -> row_at win ex y' = row_at win ex y ->
  entries ex !! Z.to_nat (row_at win ex y) = Some e -> is_dir e = false ->
  let sel := set_selected (row_at win ex y) ex in
  explorer_event_cb fuel win (left_click GUI_MOUSE_FLAG_NONE x y) ex v s = Some (sel, v, s) /\
  explorer_event_cb fuel win (left_click GUI_MOUSE_FLAG_DOUBLE_CLICK x' y') sel v s =
    ('(_, s) ← notepad_open fuel (Some (path_of (cwd ex) (e_name e))) s; Some (sel, v, s)).
Proof.
  intros O Hu Hw Hy Hy' Er He Hd sel. destruct O as [Hc Hl Hes Hn Hs Hr]. pose proof (lookup_lt_Some _ _ _ He) as Hlt.
  assert (0 <= row_at win ex y) as H0.
  { unfold row_at, ROW_H. destruct Hr. assert (0 <= (y - list_y win) / 18) by (apply Z.div_pos; lia). lia. }
  assert (row_at win ex y < entry_count ex) as H1 by (unfold entry_count; lia).
  assert (Z.of_nat (length (e_name e)) <= 12) as Hen by (apply (Forall_lookup_1 _ _ _ _ Hes He)).
  unfold explorer_event_cb. rewrite (proj2 (Z.eqb_neq _ 0)) by done. cbn [ev_type left_click].
  rewrite (bool_decide_false (GUI_EVENT_MOUSE_DOWN = GUI_EVENT_KEY_DOWN)), (bool_decide_true (GUI_EVENT_MOUSE_DOWN = GUI_EVENT_MOUSE_DOWN)) by done.
  cbn [mbind option_bind]. cbn [ev_buttons left_click andb].
  change (negb (Z.land GUI_MOUSE_BUTTON_LEFT GUI_MOUSE_BUTTON_LEFT =? 0)) with true. cbn iota. unfold explorer_click. cbn [ev_y mouse_flags left_click].
  assert (0 <= scroll ex <= 2 ^ 20) as Hsc by lia.
  pose proof (click_row win (left_click 0 x y) ex Hy Hw Hsc) as C1. pose proof (click_row win (left_click 1 x' y') sel Hy' Hw Hsc) as C2. cbn [ev_y left_click] in C1, C2.
  change (row_at win sel y') with (row_at win ex y') in C2. change (scroll sel) with (scroll ex) in C2 |- *. rewrite C1, C2, Er.
  change (entry_count sel) with (entry_count ex). change (selected sel) with (row_at win ex y).
  rewrite (proj2 (Z.ltb_ge y _)), (proj2 (Z.ltb_ge y' _)), (proj2 (Z.leb_le 0 _)), (proj2 (Z.ltb_lt (row_at win ex y) _)), Z.eqb_refl by lia. cbn [andb].
  change (negb (Z.land GUI_MOUSE_FLAG_NONE GUI_MOUSE_FLAG_DOUBLE_CLICK =? 0)) with false. rewrite andb_false_r.
  change (negb (Z.land GUI_MOUSE_FLAG_DOUBLE_CLICK GUI_MOUSE_FLAG_DOUBLE_CLICK =? 0)) with true. split; [done|].
  unfold explorer_enter. change (selected sel) with (row_at win ex y). change (entry_count sel) with (entry_count ex).
  rewrite (proj2 (Z.ltb_ge _ 0)), (proj2 (Z.leb_gt _ _)) by lia. cbn [orb]. change (entries sel) with (entries ex). rewrite He, Hd.
  unfold explorer_open_file. change (cwd sel) with (cwd ex). rewrite join_ok by (done || unfold EXPL_PATH_MAX in *; lia). cbn [mbind option_bind].
  rewrite Z.eqb_refl. cbn [andb]. destruct (notepad_open _ _ _) as [[p s']|]; done.
Qed.

(** ** Keys *)

(** A scan code after the prefix E0, under the callback the desktop installs. *)
Lemma prefixed_key_queued {T : Type} call_text ticks raw (k : keyboard gui_cb T) gi :
  1 <= raw < 0x60 -> g_e0 k = true -> g_gui_cb k = Some CbWiring -> ring_ok GUI_EVENT_QUEUE_SIZE (g_events gi) ->
  let '(k', gi') := keyboard_process_scancode (call_kbd_cb ticks) call_text raw k gi in
  exists ev, gui_queue gi' = queue_push GUI_EVENT_QUEUE_SIZE ev (gui_queue gi) /\ ev_type ev = GUI_EVENT_KEY_DOWN /\ keycode ev = Z.lor raw 0x80.
Proof.
  intros Hraw He Hcb Hr. destruct (raw_facts raw Hraw) as (L1 & L2 & L3 & L4). unfold keyboard_process_scancode.
  rewrite (proj2 (Z.eqb_neq raw 0xE0)), L1, L2 by lia. cbn [negb Z.eqb].
  destruct (update_modifiers_frame raw false k) as [Fc Fe]. set (k1 := update_modifiers raw false k) in *.
  rewrite Fe, He. cbn [negb andb pressed ascii Z.eqb]. cbn [g_gui_cb set_mods kbd_event_push]. rewrite Fc, Hcb. cbn [call_kbd_cb].
  eexists. split; [apply (ring_push_ok _ gui_size_pow2); done | done].
Qed.

(** Neither the codes of Backspace and Enter the explorer looks for, nor any
    after the prefix, come from a key. *)
Definition deaf_code (raw : Z) : bool :=
  forallb (fun '(sh, ca) => let ch := translate_scancode raw sh ca in let code := if ch =? 0 then raw else ch in negb (code =? 0x0E) && negb (code =? 0x1C))
    [(false, false); (false, true); (true, false); (true, true)] &&
  forallb (fun c => negb (Z.lor raw 0x80 =? c)) [0x48; 0x50; 0x0E; 0x1C].

Lemma deaf_codes raw : 1 <= raw < 0x60 ->
  (forall sh ca, let ch := translate_scancode raw sh ca in let code := if ch =? 0 then raw else ch in code <> 0x0E /\ code <> 0x1C) /\
  Forall (fun c => Z.lor raw 0x80 <> c) [0x48; 0x50; 0x0E; 0x1C].
Proof.
  intros H. assert (forallb deaf_code (seqZ 1 95) = true) as E by (vm_compute; reflexivity).
  rewrite forallb_forall in E. assert (In raw (seqZ 1 95)) as Hin by (apply list_elem_of_In, elem_of_seqZ; lia). specialize (E raw Hin).
  unfold deaf_code in E. cbn [forallb] in E. b2p. split; [by intros [|] [|]|]. by repeat constructor.
Qed.

(** On the desktop, where the callback of input_wiring.c translates the
    keys, no key makes the explorer enter a directory, open a file or go up:
    Enter and Backspace arrive as characters, not as the scan codes it looks
    for.  The arrow keys, which follow the prefix E0, do not even move the
    selection. *)
Theorem explorer_ignores_its_keys {T : Type} call_text ticks raw (k : keyboard gui_cb T) gi fuel win ex v (s : note_sys A) :
  1 <= raw < 0x60 -> g_gui_cb k = Some CbWiring -> ring_ok GUI_EVENT_QUEUE_SIZE (g_events gi) -> w_user_data win <> 0 ->
  let '(k', gi') := keyboard_process_scancode (call_kbd_cb ticks) call_text raw k gi in
  exists ev ex', gui_queue gi' = queue_push GUI_EVENT_QUEUE_SIZE ev (gui_queue gi) /\ ev_type ev = GUI_EVENT_KEY_DOWN /\
    explorer_event_cb fuel win ev ex v s = Some (ex', v, s) /\ cwd ex' = cwd ex /\ entries ex' = entries ex /\ (g_e0 k = true -> ex' = ex).
Proof.
  intros Hraw Hcb Hr Hu. destruct (deaf_codes raw Hraw) as [D1 D2]. rewrite !Forall_cons in D2. destruct D2 as (N1 & N2 & N3 & N4 & _).
  assert (forall ev, ev_type ev = GUI_EVENT_KEY_DOWN -> explorer_event_cb fuel win ev ex v s = explorer_key fuel (keycode ev) ex v s) as Hev.
  { intros ev Ht. unfold explorer_event_cb. rewrite (proj2 (Z.eqb_neq _ 0)), Ht, (bool_decide_true (GUI_EVENT_KEY_DOWN = GUI_EVENT_KEY_DOWN)),
      (bool_decide_false (GUI_EVENT_KEY_DOWN = GUI_EVENT_MOUSE_DOWN)) by done. cbn [andb].
    by destruct (explorer_key _ _ _ _ _) as [[[ex' v'] s']|]. }
  destruct (g_e0 k) eqn:He.
  - pose proof (prefixed_key_queued call_text ticks raw k gi Hraw He Hcb Hr) as H. destruct (keyboard_process_scancode _ _ _ _ _) as [k' gi'].
    destruct H as (ev & Q1 & Q2 & Q3). exists ev, ex. split; [done|]. split; [done|]. split; [|done]. rewrite Hev, Q3 by done. unfold explorer_key.
    by rewrite !(proj2 (Z.eqb_neq _ _)).
  - pose proof (key_queued call_text ticks CbWiring raw k gi Hraw He Hcb Hr) as H. destruct (keyboard_process_scancode _ _ _ _ _) as [k' gi'].
    cbv zeta in H. destruct H as (ev & Q1 & Q2 & Q3). destruct (D1 (g_shift k') (g_caps k')) as [M1 M2]. rewrite <- Q3 in M1, M2.
    exists ev. rewrite (Hev ev Q2). unfold explorer_key. rewrite (proj2 (Z.eqb_neq _ 0x0E)), (proj2 (Z.eqb_neq _ 0x1C)) by done.
    destruct (_ =? 0x48); [destruct (0 <? _); [destruct (_ <? _)|]|destruct (_ =? 0x50); [destruct (_ <? _)|]]; eexists; repeat (split; [done|]); done.
Qed.
End Spec.

(** ** Examples *)

Definition demo_table : table := [(bytes_of "README.TXT", [104; 105])].
Definition demo_explorer (p : list Z) : explorer := mk_expl p (listing (table_file demo_table) p) 0 0 7.
Definition demo_expl_win : gui_window := mk_win 7 80 80 480 360 GUI_WINDOW_STATE_NORMAL true EXPL_CB EXPL_CB EXPL_CB 96 0 0.

Lemma explorer_go_up_correct_witness : exists v',
  explorer_go_up (demo_explorer (bytes_of "/a/b/")) demo_table = Some (mk_expl (bytes_of "/a/") [UP; mk_entry (bytes_of "README.TXT") false 2] 0 0 7, v').
Proof.
  destruct (explorer_go_up_correct (bytes_of "/a") (bytes_of "b") SLASH (demo_explorer (bytes_of "/a/b/")) demo_table) as (v' & E & _).
  - repeat constructor.
  - discriminate.
  - apply (bool_decide_unpack _). vm_compute. exact Logic.I.
  - right. reflexivity.
  - reflexivity.
  - exact Logic.I.
  - exists v'. exact E.
Defined.

Definition demo_notes : note_sys heap := mk_nsys (fun _ => mk_note (mk_np (mk_gap 0 0 0 0) 0 0 false 0 0 0 false false 0 [] [] 0) (fun _ => 0)) no_windows.

Lemma explorer_double_click_opens_witness :
  explorer_event_cb 9 demo_expl_win (left_click GUI_MOUSE_FLAG_DOUBLE_CLICK 120 118) (set_selected 0 (demo_explorer SLASH)) demo_table demo_notes =
    ('(_, s) ← notepad_open 9 (Some (bytes_of "/README.TXT")) demo_notes; Some (set_selected 0 (demo_explorer SLASH), demo_table, s)).
Proof.
  refine (proj2 (explorer_double_click_opens 9 demo_expl_win (demo_explorer SLASH) demo_table demo_notes 118 115 120 118
    (mk_entry (bytes_of "README.TXT") false 2) _ _ _ _ _ _ _ _)).
  - constructor; [repeat constructor | | repeat constructor; discriminate | | |]; apply (bool_decide_unpack _); vm_compute; exact Logic.I.
  - discriminate.
  - cbn. lia.
  - apply (bool_decide_unpack _). vm_compute. exact Logic.I.
  - apply (bool_decide_unpack _). vm_compute. exact Logic.I.
  - reflexivity.
  - reflexivity.
  - reflexivity.
Defined.


(** The Down key, after its prefix. *)
Lemma explorer_ignores_its_keys_witness : exists ev,
  gui_queue (snd (keyboard_process_scancode (call_kbd_cb 0) no_text_cb 0x50 (set_mods false false false false true demo_kbd) demo_gui)) =
    queue_push GUI_EVENT_QUEUE_SIZE ev (gui_queue demo_gui) /\
  explorer_event_cb 9 demo_expl_win ev (demo_explorer SLASH) demo_table demo_notes = Some (demo_explorer SLASH, demo_table, demo_notes).
Proof.
  destruct (explorer_ignores_its_keys no_text_cb 0 0x50 (set_mods false false false false true demo_kbd) demo_gui 9 demo_expl_win (demo_explorer SLASH) demo_table demo_notes)
    as (ev & ex' & H1 & _ & H2 & _ & _ & H3).
  - lia.
  - reflexivity.
  - constructor; cbn; unfold GUI_EVENT_QUEUE_SIZE; lia.
  - discriminate.
  - exists ev. split; [exact H1|]. rewrite (H3 eq_refl) in H2. exact H2.
Defined.
