(* ===== verification/AiChat.v ===== *)
(** The chat window the kernel is built with (kernel/apps/ai_chat_simple.c):
    the log, the input line, the window's callbacks and the calls.

    The chat window: keys edit the input line, Enter moves it to the log with
    the fixed reply, and nothing is written outside the two buffers. *)

From S2P Require Import Prelude Memory Alloc Window Ring Keyboard Mouse Input Framebuffer Font Canvas Notes.
Local Open Scope Z_scope.

Definition AI_CHAT_LOG_DEFAULT : Z := 16 * 1024.
Definition AI_CHAT_INPUT_DEFAULT : Z := 256.
Definition CHAT_FONT_W : Z := 8.
Definition CHAT_FONT_H : Z := 16.
Definition CHAT_PAD : Z := 6.
Definition CHAT_INPUT_H : Z := CHAT_FONT_H + 10.
Definition CHAT_COL_BG : Z := 0xFF101418.
Definition CHAT_COL_TEXT : Z := 0xFFECE7D8.
Definition CHAT_COL_ASSIST : Z := 0xFFA8E07A.
Definition CHAT_COL_INPUT_BG : Z := 0xFF202830.
Definition CHAT_COL_INPUT_FG : Z := 0xFFFFFFFF.

(** An [ai_chat_t] with the bytes at [log_buf] and at [input_buf]. *)
Record ai_chat := mk_chat {
  ch_win_id : Z; log_buf : Z; log_size : Z; log_len : Z; input_buf : Z; input_size : Z; input_len : Z;
  log : Z -> Z; input : Z -> Z;
}.

Definition set_log (len : Z) (f : Z -> Z) (c : ai_chat) : ai_chat :=
  mk_chat (ch_win_id c) (log_buf c) (log_size c) len (input_buf c) (input_size c) (input_len c) f (input c).
Definition set_input (len : Z) (f : Z -> Z) (c : ai_chat) : ai_chat :=
  mk_chat (ch_win_id c) (log_buf c) (log_size c) (log_len c) (input_buf c) (input_size c) len (log c) f.

Fixpoint chat_memcpy (f : Z -> Z) (dst : Z) (src : list Z) : Z -> Z :=
  match src with
  | [] => f
  | c :: src => chat_memcpy (upd f dst c) (dst + 1) src
  end.

(** [text]: the [len] characters to append. *)
Definition log_append (prefix text : list Z) (c : ai_chat) : ai_chat :=
  let pfx_len := Z.of_nat (length prefix) in
  let len := Z.of_nat (length text) in
  let need := pfx_len + len + 1 in
  if log_size c <=? log_len c + need then c
  else
    let f := chat_memcpy (log c) (log_len c) prefix in
    let dst := log_len c + pfx_len in
    let f := chat_memcpy f dst text in
    set_log (dst + (len + 1)) (upd f (dst + len) 10) c.

(** ** The window's callbacks *)

Definition REPLY : list Z := bytes_of "AI: LLM backend disabled in this debug build; GUI input is working.".
Definition HELLO : list Z := bytes_of "AI Chat ready. Press Enter after typing.".

(** The line typed so far. *)
Definition input_line (c : ai_chat) : list Z := map (input c) (seqZ 0 (input_len c)).

Definition ai_chat_handle_event (win : gui_window) (ev : gui_event) (c : ai_chat) : ai_chat :=
  if (w_user_data win =? 0) || negb (bool_decide (ev_type ev = GUI_EVENT_KEY_DOWN)) then c
  else
    let key := keycode ev in
    if (key =? 8) || (key =? 0x0E) then (if 0 <? input_len c then set_input (input_len c - 1) (input c) c else c)
    else if (key =? 13) || (key =? 10) || (key =? 0x1C) then
      if input_len c =? 0 then c
      else
        let c := log_append (bytes_of "You: ") (input_line c) c in
        let c := log_append [] REPLY c in
        set_input 0 (input c) c
    else if (0x20 <=? key) && (key <? 0x7F) && (input_len c + 1 <? input_size c)
    then set_input (input_len c + 1) (upd (input c) (input_len c) key) c
    else c.

(** The same loops as [ex_fill_rect]. *)
Definition chat_fill_rect (x y w h col : Z) (fb : framebuffer) : framebuffer := ex_fill_rect x y w h col fb.

(** The log, while a line is left above the input line at [input_y]. *)
Fixpoint draw_log (k : nat) (i x y left right input_y : Z) (f : Z -> Z) (font : gui_font) (fb : framebuffer) : framebuffer :=
  match k with
  | O => fb
  | S k =>
      let c := f i in
      let next_y := s32 (y + CHAT_FONT_H) in
      let full := input_y <=? s32 (next_y + CHAT_FONT_H) in
      if c =? 10 then if full then fb else draw_log k (i + 1) left next_y left right input_y f font fb
      else
        let fb := font_draw_char font (u32 x) (u32 y) c CHAT_COL_TEXT CHAT_COL_BG fb in
        let x := s32 (x + CHAT_FONT_W) in
        if right <=? s32 (x + CHAT_FONT_W) then if full then fb else draw_log k (i + 1) left next_y left right input_y f font fb
        else draw_log k (i + 1) x y left right input_y f font fb
  end.

Definition ai_chat_draw (win : gui_window) (c : ai_chat) (fb : framebuffer) : framebuffer :=
  if w_user_data win =? 0 then fb
  else
    let font := font_load_builtin in
    let x0 := w_x win in
    let y0 := s32 (w_y win + 20) in
    let w := s32 (w_width win) in
    let h := s32 (s32 (w_height win) - 20) in
    let input_y := s32 (s32 (y0 + h) - CHAT_INPUT_H) in
    let fb := chat_fill_rect (s32 (x0 + 1)) y0 (s32 (w - 2)) h CHAT_COL_BG fb in
    let fb := chat_fill_rect (s32 (x0 + 1)) input_y (s32 (w - 2)) CHAT_INPUT_H CHAT_COL_INPUT_BG fb in
    let left := s32 (x0 + CHAT_PAD) in
    let fb := draw_log (Z.to_nat (log_len c)) 0 left (s32 (y0 + CHAT_PAD)) left (s32 (s32 (x0 + w) - CHAT_PAD)) input_y (log c) font fb in
    let ty := s32 (input_y + (CHAT_INPUT_H - CHAT_FONT_H) ÷ 2) in
    let fb := ex_draw_string font CHAT_FONT_W left ty (input_line c) CHAT_COL_INPUT_FG CHAT_COL_INPUT_BG fb in
    let tx := s32 (left + CHAT_FONT_W * input_len c) in
    chat_fill_rect tx ty 2 CHAT_FONT_H CHAT_COL_ASSIST fb.

(** ** The calls *)

Section Calls.
Context {A : Type} {AL : Allocator A}.

Record chat_sys := mk_csys { g_chat : Z; chats : Z -> ai_chat; cwins : windows A }.

Definition SIZEOF_AI_CHAT : Z := 56.

(** The pointers handed to the window. *)
Definition CHAT_CB : Z := 5.

Definition chat_fresh (l i : Z) : ai_chat :=
  mk_chat 0 l AI_CHAT_LOG_DEFAULT 0 i AI_CHAT_INPUT_DEFAULT 0 (fun _ => 0) (fun _ => 0).

(** [if (p) kfree(p);] *)
Definition kfree_if (p : Z) (a : A) : option A := if p =? 0 then Some a else a_free p a.

(** The pointer to the chat, 0 for NULL. *)
Definition ai_chat_open (fuel : nat) (s : chat_sys) : option (Z * chat_sys) :=
  if negb (g_chat s =? 0) then Some (g_chat s, s)
  else
    '(p, a) ← a_alloc SIZEOF_AI_CHAT (wheap (cwins s));
    if p =? 0 then Some (0, mk_csys 0 (chats s) (with_heap (cwins s) a))
    else
      '(l, a) ← a_alloc AI_CHAT_LOG_DEFAULT a;
      '(i, a) ← a_alloc AI_CHAT_INPUT_DEFAULT a;
      if (l =? 0) || (i =? 0) then
        a ← kfree_if l a;
        a ← kfree_if i a;
        a ← a_free p a;
        Some (0, mk_csys 0 (chats s) (with_heap (cwins s) a))
      else
        let c := chat_fresh l i in
        '(win, w) ← gui_create_window fuel 150 100 540 360 CHAT_CB CHAT_CB CHAT_CB p (with_heap (cwins s) a);
        if win =? 0 then
          a ← a_free l (wheap w);
          a ← a_free i a;
          a ← a_free p a;
          Some (0, mk_csys 0 (upd (chats s) p c) (with_heap w a))
        else
          let c := mk_chat (w_id (wins w win)) l AI_CHAT_LOG_DEFAULT 0 i AI_CHAT_INPUT_DEFAULT 0 (log c) (input c) in
          Some (p, mk_csys p (upd (chats s) p (log_append [] HELLO c)) w).

Definition ai_chat_close (p : Z) (s : chat_sys) : option chat_sys :=
  if p =? 0 then Some s
  else
    let g := if g_chat s =? p then 0 else g_chat s in
    a ← kfree_if (log_buf (chats s p)) (wheap (cwins s));
    a ← kfree_if (input_buf (chats s p)) a;
    a ← a_free p a;
    Some (mk_csys g (chats s) (with_heap (cwins s) a)).
End Calls.
Arguments chat_sys A : clear implicits.

(** * Specification *)

Record chat_ok (c : ai_chat) : Prop := {
  ck_log : 0 <= log_len c <= log_size c;
  ck_log_size : log_size c <= AI_CHAT_LOG_DEFAULT;
  ck_input : 0 <= input_len c <= input_size c;
  ck_input_size : input_size c <= AI_CHAT_INPUT_DEFAULT;
}.

(** The text of the log. *)
Definition log_text (c : ai_chat) : list Z := bytes_at (log c) 0 (log_len c).

Lemma memcpy_spec src : forall f dst x,
  chat_memcpy f dst src x = if decide (dst <= x < dst + Z.of_nat (length src)) then nth (Z.to_nat (x - dst)) src 0 else f x.
Proof.
  induction src as [|c src IH]; intros f dst x; cbn [chat_memcpy length].
  { by rewrite decide_False by lia. }
  rewrite IH. destruct (decide (x = dst)) as [->|Hne].
  - rewrite decide_False, decide_True, upd_eq by lia. by rewrite Z.sub_diag.
  - rewrite upd_ne by done. destruct (decide (dst + 1 <= x < _)) as [Hd|Hd]; [rewrite decide_True by lia | by rewrite decide_False by lia].
    replace (Z.to_nat (x - dst)) with (S (Z.to_nat (x - (dst + 1)))) by lia. done.
Qed.

Lemma memcpy_bytes src f dst : bytes_at (chat_memcpy f dst src) dst (Z.of_nat (length src)) = src.
Proof.
  apply bytes_at_eq; [lia|]. intros i Hi. rewrite memcpy_spec, decide_True by lia. by replace (dst + i - dst) with i by lia.
Qed.

(** A line is added whole, or not at all when it would not leave a byte of
    the buffer free. *)
Lemma log_append_ok prefix text c : chat_ok c ->
  chat_ok (log_append prefix text c) /\
  log_text (log_append prefix text c) =
    (if decide (log_len c + Z.of_nat (length prefix + length text) + 1 < log_size c) then log_text c ++ prefix ++ text ++ [10] else log_text c) /\
  (forall x, ~ (0 <= x < log_size c) -> log (log_append prefix text c) x = log c x) /\
  input_len (log_append prefix text c) = input_len c /\ input (log_append prefix text c) = input c /\
  log_size (log_append prefix text c) = log_size c /\ input_size (log_append prefix text c) = input_size c.
Proof.
  intros [H1 H2 H3 H4]. unfold log_append. cbv zeta. destruct (Z.leb_spec (log_size c) (log_len c + (Z.of_nat (length prefix) + Z.of_nat (length text) + 1))).
  { rewrite decide_False by lia. split; [by constructor | by repeat split]. }
  rewrite decide_True by lia. split; [|split; [|split]].
  - constructor; cbn [set_log log_len log_size input_len input_size]; lia.
  - unfold log_text. cbn [set_log log log_len].
    replace (log_len c + Z.of_nat (length prefix) + (Z.of_nat (length text) + 1)) with (log_len c + (Z.of_nat (length prefix) + (Z.of_nat (length text) + 1))) by lia.
    rewrite !bytes_at_app by lia. rewrite bytes_at_one, upd_spec, decide_True by lia. f_equal; [|f_equal; [|f_equal]].
    + apply bytes_at_agree. intros x Hx. rewrite upd_ne, !memcpy_spec, !decide_False by lia. done.
    + etransitivity; [|apply (memcpy_bytes prefix (log c) (0 + log_len c))]. apply bytes_at_agree. intros x Hx. symmetry.
      rewrite upd_ne, memcpy_spec, decide_False by lia. by rewrite Z.add_0_l.
    + etransitivity; [|apply (memcpy_bytes text (chat_memcpy (log c) (log_len c) prefix))]. apply bytes_at_agree.
      intros x Hx. by rewrite upd_ne by lia.
  - intros x Hx. cbn [set_log log]. rewrite upd_ne, !memcpy_spec, !decide_False by lia. done.
  - done.
Qed.

Lemma input_line_length c : chat_ok c -> Z.of_nat (length (input_line c)) = input_len c.
Proof. intros [_ _ H _]. unfold input_line. rewrite length_map, length_seqZ. lia. Qed.

Lemma input_line_bytes c : input_line c = bytes_at (input c) 0 (input_len c).
Proof. unfold input_line, bytes_at. apply map_ext. intros i. by rewrite Z.add_0_l. Qed.

Definition chat_safe (c c' : ai_chat) : Prop :=
  chat_ok c' /\ (forall x, ~ (0 <= x < log_size c) -> log c' x = log c x) /\ (forall x, ~ (0 <= x < input_size c) -> input c' x = input c x).

Lemma chat_send c : chat_ok c ->
  let c1 := log_append (bytes_of "You: ") (input_line c) c in
  let c2 := log_append [] REPLY c1 in
  chat_safe c (set_input 0 (input c2) c2) /\
  (log_len c + input_len c + Z.of_nat (length REPLY) + 7 < log_size c ->
     log_text c2 = log_text c ++ bytes_of "You: " ++ input_line c ++ [10] ++ REPLY ++ [10]).
Proof.
  intros O c1 c2. pose proof (input_line_length c O) as El.
  destruct (log_append_ok (bytes_of "You: ") (input_line c) c O) as (O1 & T1 & W1 & I1 & J1 & S1 & R1). fold c1 in O1, T1, W1, I1, J1, S1, R1.
  destruct (log_append_ok [] REPLY c1 O1) as (O2 & T2 & W2 & I2 & J2 & S2 & R2). fold c2 in O2, T2, W2, I2, J2, S2, R2. split.
  - split; [|split].
    + destruct O2 as [H1 H2 H3 H4]. constructor; cbn [set_input log_len log_size input_len input_size]; done || lia.
    + intros x Hx. cbn [set_input log]. rewrite W2 by (by rewrite S1). by apply W1.
    + intros x _. cbn [set_input input]. by rewrite J2, J1.
  - intros Hroom. assert (length (bytes_of "You: ") = 5%nat) as E5 by done. rewrite decide_True in T1 by lia.
    assert (log_len c1 = log_len c + input_len c + 6) as Ec1.
    { destruct O1 as [G1 _ _ _]. apply (f_equal length) in T1. unfold log_text in T1. rewrite !length_app, !bytes_at_length in T1. cbn [length] in T1.
      destruct O as [G _ _ _]. lia. }
    rewrite decide_True in T2 by (rewrite S1, Ec1; cbn [length]; lia). rewrite T2, T1. by rewrite <- !app_assoc.
Qed.

Lemma chat_type c key : chat_ok c -> input_len c + 1 < input_size c ->
  let c' := set_input (input_len c + 1) (upd (input c) (input_len c) key) c in
  chat_safe c c' /\ input_line c' = input_line c ++ [key].
Proof.
  intros [H1 H2 H3 H4] Hr c'. split; [split; [|split; [done|]]|].
  - constructor; cbn [c' set_input log_len log_size input_len input_size]; done || lia.
  - intros x Hx. cbn [c' set_input input]. by rewrite upd_ne by lia.
  - rewrite !input_line_bytes. cbn [c' set_input input input_len]. rewrite bytes_at_app, bytes_at_one, upd_spec, decide_True by lia. f_equal.
    apply bytes_at_agree. intros x Hx. by rewrite upd_ne by lia.
Qed.

Lemma chat_erase c : chat_ok c -> 0 < input_len c ->
  let c' := set_input (input_len c - 1) (input c) c in chat_safe c c' /\ input_line c' = removelast (input_line c).
Proof.
  intros [H1 H2 H3 H4] Hp c'. split; [split; [|done]|].
  - constructor; cbn [c' set_input log_len log_size input_len input_size]; done || lia.
  - rewrite !input_line_bytes. cbn [c' set_input input input_len]. replace (input_len c) with (input_len c - 1 + 1) at 2 by lia.
    by rewrite bytes_at_app, bytes_at_one, removelast_last by lia.
Qed.

Lemma chat_safe_refl c : chat_ok c -> chat_safe c c.
Proof. by split. Qed.

Lemma chat_event_ok win ev c : chat_ok c -> chat_safe c (ai_chat_handle_event win ev c).
Proof.
  intros O. unfold ai_chat_handle_event. destruct (_ || negb _); [by apply chat_safe_refl|]. set (k := keycode ev).
  destruct (_ || (k =? 14)).
  { destruct (Z.ltb_spec 0 (input_len c)); [by apply chat_erase | by apply chat_safe_refl]. }
  destruct (_ || _ || _). { destruct (_ =? 0); [by apply chat_safe_refl | by apply chat_send]. }
  destruct ((_ <=? k) && _); cbn [andb]; [|by apply chat_safe_refl]. destruct (Z.ltb_spec (input_len c + 1) (input_size c)); [by apply chat_type | by apply chat_safe_refl].
Qed.

(** A line sent with Enter is answered: if there is room, the log grows
    by the line after "You: " and by the fixed reply, and the input line is
    emptied; keys only change the input line, which stays in its buffer, and
    nothing outside the two buffers is written. *)
Theorem chat_event_correct win ev c : w_user_data win <> 0 -> ev_type ev = GUI_EVENT_KEY_DOWN -> chat_ok c ->
  let c' := ai_chat_handle_event win ev c in
  chat_safe c c' /\
  (keycode ev = 10 -> 0 < input_len c -> log_len c + input_len c + Z.of_nat (length REPLY) + 7 < log_size c ->
     log_text c' = log_text c ++ bytes_of "You: " ++ input_line c ++ [10] ++ REPLY ++ [10] /\ input_line c' = []) /\
  (0x20 <= keycode ev < 0x7F -> log_text c' = log_text c /\
     input_line c' = if decide (input_len c + 1 < input_size c) then input_line c ++ [keycode ev] else input_line c) /\
  (keycode ev = 8 -> log_text c' = log_text c /\ input_line c' = removelast (input_line c)).
Proof.
  intros Hu Ht O c'. split; [by apply chat_event_ok|]. subst c'. unfold ai_chat_handle_event. rewrite (proj2 (Z.eqb_neq _ 0)), bool_decide_true by done.
  cbn [negb orb]. set (k := keycode ev). split; [|split].
  - intros -> Hl Hroom. cbn [Z.eqb orb Pos.eqb]. rewrite (proj2 (Z.eqb_neq (input_len c) 0)) by lia. destruct (chat_send c O) as [_ H]. cbv zeta in *.
    split; [by apply H | done].
  - intros Hk. rewrite !(proj2 (Z.eqb_neq k _)) by lia. cbn [orb]. rewrite (proj2 (Z.leb_le _ _)), (proj2 (Z.ltb_lt k _)) by lia. cbn [andb].
    destruct (Z.ltb_spec (input_len c + 1) (input_size c)); [rewrite decide_True by done | rewrite decide_False by lia; done]. split; [done|]. by apply chat_type.
  - intros ->. cbn [Z.eqb orb Pos.eqb]. destruct (Z.ltb_spec 0 (input_len c)); [split; [done|]; by apply chat_erase|]. split; [done|].
    destruct O as [_ _ H3 _]. assert (input_len c = 0) as E by lia. by rewrite input_line_bytes, E.
Qed.

(** A fresh chat with a line typed. *)
Definition demo_chat : ai_chat :=
  fold_left (fun c k => ai_chat_handle_event (mk_win 1 0 0 0 0 GUI_WINDOW_STATE_NORMAL true 0 0 0 8 0 0) (key_down k) c) [72; 105; 33; 8] (chat_fresh 64 128).

Lemma demo_chat_ok : chat_ok demo_chat.
Proof. constructor; apply (bool_decide_unpack _); vm_compute; exact Logic.I. Qed.

Lemma chat_event_correct_witness :
  log_text (ai_chat_handle_event (mk_win 1 0 0 0 0 GUI_WINDOW_STATE_NORMAL true 0 0 0 8 0 0) (key_down 10) demo_chat)
  = bytes_of "You: Hi" ++ [10] ++ REPLY ++ [10].
Proof.
  refine (proj1 (proj1 (proj2 (chat_event_correct (mk_win 1 0 0 0 0 GUI_WINDOW_STATE_NORMAL true 0 0 0 8 0 0) (key_down 10) demo_chat _ _ demo_chat_ok)) _ _ _)).
  - discriminate.
  - reflexivity.
  - reflexivity.
  - reflexivity.
  - reflexivity.
Defined.
