(* ===== verification/Settings.v ===== *)
(** The settings window (kernel/apps/settings.c): a placeholder that shows
    five labels. *)

From S2P Require Import Prelude Memory Alloc Window Ring Keyboard Mouse Input Framebuffer Font Canvas Notes.
Local Open Scope Z_scope.

Definition SETTINGS_FONT_W : Z := 8.
Definition SETTINGS_FONT_H : Z := 16.
Definition PADDING : Z := 6.
Definition COL_BG : Z := 0xFF101010.
Definition COL_LABEL : Z := 0xFFEFEFEF.

(** The same loops as [ex_fill_rect]. *)
Definition st_fill_rect (x y w h col : Z) (fb : framebuffer) : framebuffer := ex_fill_rect x y w h col fb.

(** [st_draw_label] *)
Definition st_draw_label (x y : Z) (s : list Z) (fb : framebuffer) : framebuffer :=
  ex_draw_string font_load_builtin SETTINGS_FONT_W x y s COL_LABEL COL_BG fb.

(** The labels: how often [PADDING] goes into the left edge, the height
    after them and the text. *)
Definition labels : list (Z * Z * list Z) :=
  [ (1, 2, bytes_of "Settings (placeholder)"); (1, 1, bytes_of "Future options:"); (2, 1, bytes_of "- Display / theme");
    (2, 1, bytes_of "- Keyboard / input"); (2, 1, bytes_of "- LLM parameters") ].

Fixpoint draw_labels (x0 y : Z) (l : list (Z * Z * list Z)) (fb : framebuffer) : framebuffer :=
  match l with
  | [] => fb
  | (k, h, t) :: l => draw_labels x0 (s32 (y + SETTINGS_FONT_H * h)) l (st_draw_label (s32 (x0 + PADDING * k)) y t fb)
  end.

Definition settings_draw (win : gui_window) (fb : framebuffer) : framebuffer :=
  let fb := st_fill_rect (w_x win) (w_y win) (s32 (w_width win)) (s32 (w_height win)) COL_BG fb in
  draw_labels (w_x win) (s32 (w_y win + PADDING)) labels fb.

Section Calls.
Context {A : Type} {AL : Allocator A}.

(** [settings]: the window id of each object. *)
Record settings_sys := mk_ssys { g_settings : Z; settings : Z -> Z; swins : windows A }.

Definition SIZEOF_SETTINGS : Z := 4.

(** The pointers handed to the window. *)
Definition SETTINGS_CB : Z := 4.

(** The pointer to the settings, 0 for NULL. *)
Definition settings_open (fuel : nat) (s : settings_sys) : option (Z * settings_sys) :=
  if negb (g_settings s =? 0) then Some (g_settings s, s)
  else
    '(p, a) ← a_alloc SIZEOF_SETTINGS (wheap (swins s));
    let w := with_heap (swins s) a in
    if p =? 0 then Some (0, mk_ssys 0 (settings s) w)
    else
      '(win, w) ← gui_create_window fuel 160 110 420 260 SETTINGS_CB SETTINGS_CB SETTINGS_CB p w;
      if win =? 0 then a ← a_free p (wheap w); Some (0, mk_ssys 0 (settings s) (with_heap w a))
      else Some (p, mk_ssys p (upd (settings s) p (w_id (wins w win))) w).

Definition settings_close (p : Z) (s : settings_sys) : option settings_sys :=
  if p =? 0 then Some s
  else
    let g := if g_settings s =? p then 0 else g_settings s in
    a ← a_free p (wheap (swins s));
    Some (mk_ssys g (settings s) (with_heap (swins s) a)).
End Calls.
Arguments settings_sys A : clear implicits.
