(* ===== verification/Apps.v ===== *)
(** The five applications of the desktop together (kernel/apps/): what the
    start menu and the icons open, and the callbacks of their windows, as the
    window manager of Wm.v calls them. *)

From S2P Require Import Prelude Memory Alloc Window Ring Keyboard Mouse Input Terminal Wm Framebuffer Font Canvas Files Notes Explorer AiChat Settings.
Local Open Scope Z_scope.

(** ** The terminal's picture (kernel/apps/terminal_gui.c) *)

Definition TGUI_COL_BG : Z := 0xFF000000.
Definition TGUI_COL_FG : Z := 0xFFFFFFFF.
Definition TGUI_COL_CUR : Z := 0xFF00FF00.

(** The same loops as [ex_fill_rect]. *)
Definition tgui_fill_rect (x y w h col : Z) (fb : framebuffer) : framebuffer := ex_fill_rect x y w h col fb.

Definition tgui_draw (win : gui_window) (t : terminal_gui) (fb : framebuffer) : framebuffer :=
  if w_user_data win =? 0 then fb
  else
    let fb := tgui_fill_rect (w_x win) (w_y win) (s32 (w_width win)) (s32 (w_height win)) TGUI_COL_BG fb in
    let x0 := s32 (w_x win + Terminal.PADDING) in
    let y0 := s32 (w_y win + Terminal.PADDING) in
    let fb := for_up (Z.to_nat TGUI_ROWS) 0 (fun r fb =>
      for_up (Z.to_nat TGUI_COLS) 0 (fun c fb =>
        let ch := cells t r c in
        font_draw_char font_load_builtin (u32 (x0 + c * TGUI_FONT_W)) (u32 (y0 + r * TGUI_FONT_H)) (if ch =? 0 then 32 else ch) TGUI_COL_FG TGUI_COL_BG fb) fb) fb in
    let cx := s32 (x0 + cur_col t * TGUI_FONT_W) in
    let cy := s32 (y0 + cur_row t * TGUI_FONT_H) in
    tgui_fill_rect cx (s32 (cy + TGUI_FONT_H - 2)) TGUI_FONT_W 2 TGUI_COL_CUR fb.

Section Apps.
Context {A : Type} {AL : Allocator A} {V : Type} {FS : FileSys V}.

(** Their statics, the objects they have in memory, and the files. *)
Record app_state := mk_apps {
  a_terminal : Z * (Z -> terminal_gui);
  a_explorers : Z -> explorer;
  a_notes : Z -> note;
  a_settings : Z * (Z -> Z);
  a_chat : Z * (Z -> ai_chat);
  a_files : V;
}.

(** Each application's view of the windows and of its own part. *)
Definition term_of (w : windows A) (x : app_state) : tgui_sys := mk_tsys (fst (a_terminal x)) (snd (a_terminal x)) w.
Definition note_of (w : windows A) (x : app_state) : note_sys A := mk_nsys (a_notes x) w.
Definition expl_of (w : windows A) (x : app_state) : expl_sys A V := mk_esys (a_explorers x) (a_files x) (note_of w x).
Definition settings_of (w : windows A) (x : app_state) : settings_sys A := mk_ssys (fst (a_settings x)) (snd (a_settings x)) w.
Definition chat_of (w : windows A) (x : app_state) : chat_sys A := mk_csys (fst (a_chat x)) (snd (a_chat x)) w.

Definition put_term (t : tgui_sys) (x : app_state) : windows A * app_state :=
  (twins t, mk_apps (g_tgui t, terms t) (a_explorers x) (a_notes x) (a_settings x) (a_chat x) (a_files x)).
Definition put_note (n : note_sys A) (x : app_state) : windows A * app_state :=
  (nwins n, mk_apps (a_terminal x) (a_explorers x) (notes n) (a_settings x) (a_chat x) (a_files x)).
Definition put_expl (e : expl_sys A V) (x : app_state) : windows A * app_state :=
  (nwins (esys e), mk_apps (a_terminal x) (expls e) (notes (esys e)) (a_settings x) (a_chat x) (files e)).
Definition put_settings (s : settings_sys A) (x : app_state) : windows A * app_state :=
  (swins s, mk_apps (a_terminal x) (a_explorers x) (a_notes x) (g_settings s, settings s) (a_chat x) (a_files x)).
Definition put_chat (c : chat_sys A) (x : app_state) : windows A * app_state :=
  (cwins c, mk_apps (a_terminal x) (a_explorers x) (a_notes x) (a_settings x) (g_chat c, chats c) (a_files x)).

(** [launch_terminal] .. [launch_settings] of kernel/gui/start_menu.c and
    desktop.c *)
Definition launch (fuel : nat) (a : app) (w : windows A) (x : app_state) : option (windows A * app_state) :=
  match a with
  | AppTerminal => '(_, t) ← terminal_gui_open fuel TERM_CB TERM_CB TERM_CB (term_of w x); Some (put_term t x)
  | AppExplorer => '(_, e) ← explorer_open fuel None (expl_of w x); Some (put_expl e x)
  | AppNotepad => '(_, n) ← notepad_open fuel None (note_of w x); Some (put_note n x)
  | AppAiChat => '(_, c) ← ai_chat_open fuel (chat_of w x); Some (put_chat c x)
  | AppSettings => '(_, s) ← settings_open fuel (settings_of w x); Some (put_settings s x)
  end.

(** The event callback [cb] of the window at [p]. *)
Definition handle (fuel : nat) (cb p : Z) (ev : gui_event) (w : windows A) (x : app_state) : option (windows A * app_state) :=
  let win := wins w p in
  let obj := w_user_data win in
  if cb =? TERM_CB then Some (put_term (tgui_handle_event ev (term_of w x)) x)
  else if cb =? EXPL_CB then
    '(ex, v, n) ← explorer_event_cb fuel win ev (a_explorers x obj) (a_files x) (note_of w x);
    Some (put_expl (mk_esys (upd (a_explorers x) obj ex) v n) x)
  else if cb =? NOTE_CB then
    Some (put_note (mk_nsys (upd (a_notes x) obj (notepad_event_cb win ev (a_notes x obj))) w) x)
  else if cb =? CHAT_CB then
    let '(g, chats) := a_chat x in
    Some (put_chat (mk_csys g (upd chats obj (ai_chat_handle_event win ev (chats obj))) w) x)
  else Some (w, x).

(** The draw callback of the window. *)
Definition draw_app (win : gui_window) (x : app_state) (fb : framebuffer) : option framebuffer :=
  let cb := w_draw win in
  let obj := w_user_data win in
  if cb =? TERM_CB then Some (tgui_draw win (snd (a_terminal x) obj) fb)
  else if cb =? EXPL_CB then explorer_draw_cb win (a_explorers x obj) fb
  else if cb =? NOTE_CB then Some (notepad_draw_cb win (a_notes x obj) fb)
  else if cb =? SETTINGS_CB then Some (settings_draw win fb)
  else if cb =? CHAT_CB then Some (ai_chat_draw win (snd (a_chat x) obj) fb)
  else Some fb.

#[export] Instance desktop_apps : GuiApps A app_state := { app_open := launch; app_event := handle }.
End Apps.
Arguments app_state V : clear implicits.
