(* ===== verification/AppsSpec.v ===== *)
(** The five applications under the window manager: opening and using them
    never fails, keeps their objects well formed, and opens at most one window
    at a time, so that the promises of WmSpec.v hold of the desktop the kernel
    has; and their drawing stays on the screen. *)

From S2P Require Import Prelude Memory Alloc Heap Window Ring Keyboard Mouse Input Terminal Wm WmSpec Framebuffer Font Canvas Files Notepad Notes Explorer AiChat Settings Apps AppLife.
Local Open Scope Z_scope.

Section Spec.
Context {A : Type} {AL : Allocator A} {AS : AllocatorSpec A} {V : Type} {FS : FileSys V} {FSS : FileSysSpec V}.

(** ** Opening *)

(** The editor of a pointer that was never handed out is all zero. *)
Definition note_safe (n : note) : Prop := note_ok n \/ buf (gbuf (np n)) = 0 /\ gap_start (gbuf (np n)) = 0.

Definition opens (w : windows A) (l : list Z) (w' : windows A) : Prop := exists l', grows w l w' l'.

(** What each call may rely on. *)
Record ready (fuel : nat) (w : windows A) (l : list Z) : Prop := {
  rd_inv : win_inv w l;
  rd_focus : focus_ok w l;
  rd_fuel : (length l <= fuel)%nat;
  rd_id : g_next_window_id w < 2 ^ 32 - 1;
}.

Lemma set_win_id_ok id n : note_ok n -> note_ok (set_win_id id n).
Proof. intros [H1 H2 H3 H4]. by constructor. Qed.

Lemma upd_all {B} (P : B -> Prop) f i v : P v -> (forall p, P (f p)) -> forall p, P (upd f i v p).
Proof. intros Hv Hf p. unfold upd. by destruct (i =? p). Qed.

Lemma opens_refl fuel w l : ready fuel w l -> opens w l w.
Proof. intros [I F _ _]. exists l. by apply grows_refl. Qed.

(** Objects that are given back leave the windows as they were. *)
Lemma opens_heap fuel w l a objs : ready fuel w l -> holds (with_heap w a) l objs -> opens w l (with_heap w a).
Proof. intros [I F _ _] H. exists l. by eapply holds_grows. Qed.


Lemma notepad_open_ok fuel path (s : note_sys A) l :
  ready fuel (nwins s) l -> (forall p, note_safe (notes s p)) -> match path with Some name => Z.of_nat (length name) < NP_MAX_FILENAME | None => True end ->
  exists p s', notepad_open fuel path s = Some (p, s') /\ opens (nwins s) l (nwins s') /\ forall q, note_safe (notes s' q).
Proof.
  intros R Hn Hp. pose proof R as [I F Hf Hid]. unfold notepad_open. set (w := nwins s) in *.
  destruct (holds_alloc SIZEOF_NOTEPAD w l [] (holds_nil w l I)) as (p & a & -> & E0 & H1); [unfold SIZEOF_NOTEPAD; lia|].
  cbn [mbind option_bind]. cbv zeta. destruct (Z.eqb_spec p 0) as [->|Hp0].
  { eexists _, _. split; [done|]. split; [|done]. cbn [nwins]. rewrite E0 by done. by eapply opens_refl. }
  destruct (holds_alloc NP_TEXT_CAP _ l _ (H1 Hp0)) as (b & a2 & -> & Eb & H2); [unfold NP_TEXT_CAP; lia|].
  cbn [mbind option_bind]. change (with_heap (with_heap w a) a2) with (with_heap w a2) in *. destruct (Z.eqb_spec b 0) as [->|Hb0].
  { rewrite Eb by done. destruct (holds_free p SIZEOF_NOTEPAD _ l [] [] (H1 Hp0)) as (a3 & -> & H3). cbn [mbind option_bind].
    eexists _, _. split; [done|]. split; [by apply (opens_heap fuel w l a3 [])|done]. }
  set (name := match path with Some (c :: l0) => c :: l0 | _ => bytes_of "Untitled" end).
  assert (np_strcpy NP_MAX_FILENAME name = Some name) as ->.
  { unfold np_strcpy. rewrite (proj2 (Z.ltb_lt _ _)); [done|]. subst name. by destruct path as [[|c l0]|]. }
  cbn [mbind option_bind]. destruct (holds_create fuel 120 80 520 340 NOTE_CB NOTE_CB NOTE_CB p w a2 l _ (H2 Hb0) Hf Hid) as (win & w2 & -> & E3 & H3).
  cbn [mbind option_bind]. assert (note_ok (note_fresh b name)) as Ok by (by apply note_fresh_ok). destruct (Z.eqb_spec win 0) as [->|Hw0].
  - rewrite E3 by done. destruct (holds_free b NP_TEXT_CAP _ l [] _ (H2 Hb0)) as (a4 & -> & H4). cbn [mbind option_bind].
    destruct (holds_free p SIZEOF_NOTEPAD _ l [] [] H4) as (a5 & E5 & H5). cbn [wheap with_heap] in E5. rewrite E5. cbn [mbind option_bind].
    eexists _, _. split; [done|]. split; [by apply (opens_heap fuel w l a5 [])|]. cbn [notes]. apply upd_all; [by left | done].
  - eexists _, _. split; [done|]. split; [exists (win :: l); by apply H3|]. cbn [notes]. apply upd_all; [left; by apply set_win_id_ok | done].
Qed.

Lemma explorer_open_ok fuel path (s : expl_sys A V) l k :
  ready fuel (nwins (esys s)) l -> fs_inv (files s) -> c_string (start_dir path) -> Z.of_nat (length (start_dir path)) <= k -> (forall p, expl_ok k (expls s p)) ->
  exists p s', explorer_open fuel path s = Some (p, s') /\ opens (nwins (esys s)) l (nwins (esys s')) /\ fs_inv (files s') /\
    fs_file (files s') = fs_file (files s) /\ notes (esys s') = notes (esys s) /\ (forall q, expl_ok k (expls s' q)) /\
    (p <> 0 -> cwd (expls s' p) = start_dir path /\ entries (expls s' p) = listing (fs_file (files s)) (start_dir path)).
Proof.
  intros R Iv Hc Hl Hx. pose proof R as [I F Hf Hid]. unfold explorer_open. set (w := nwins (esys s)) in *.
  destruct (holds_alloc SIZEOF_EXPLORER w l [] (holds_nil w l I)) as (p & a & -> & E0 & H1); [unfold SIZEOF_EXPLORER; lia|].
  cbn [mbind option_bind]. cbv zeta. destruct (Z.eqb_spec p 0) as [->|Hp0].
  { eexists _, _. split; [done|]. cbn [nwins esys]. rewrite E0 by done. split; [by eapply opens_refl | done]. }
  destruct (load_ok (mk_expl (start_dir path) [] 0 0 0) (files s) Hc Iv) as (v' & -> & Iv' & Ef). cbn [mbind option_bind cwd ex_win_id].
  destruct (holds_create fuel 80 80 480 360 EXPL_CB EXPL_CB EXPL_CB p w a l _ (H1 Hp0) Hf Hid) as (win & w2 & -> & E3 & H3). cbn [mbind option_bind].
  pose proof (loaded_ok k (fs_file (files s)) (mk_expl (start_dir path) [] 0 0 0) Hc Hl) as Ok. cbn [cwd ex_win_id] in Ok.
  destruct (Z.eqb_spec win 0) as [->|Hw0].
  - rewrite E3 by done. destruct (holds_free p SIZEOF_EXPLORER _ l [] [] (H1 Hp0)) as (a4 & -> & H4). cbn [mbind option_bind].
    eexists _, _. split; [done|]. split; [by apply (opens_heap fuel w l a4 [])|]. cbn [files esys notes expls]. split; [done|]. split; [done|]. split; [done|].
    split; [by apply upd_all | done].
  - eexists _, _. split; [done|]. split; [exists (win :: l); by apply H3|]. cbn [files esys notes expls]. split; [done|]. split; [done|]. split; [done|].
    split; [|rewrite upd_eq; done]. apply upd_all; [|done]. destruct Ok as [O1 O2 O3 O4 O5 O6]. by constructor.
Qed.

Lemma settings_open_ok fuel (s : settings_sys A) l :
  ready fuel (swins s) l -> exists p s', settings_open fuel s = Some (p, s') /\ opens (swins s) l (swins s').
Proof.
  intros R. pose proof R as [I F Hf Hid]. unfold settings_open. destruct (negb _); [eexists _, _; split; [done | by eapply opens_refl]|]. set (w := swins s) in *.
  destruct (holds_alloc SIZEOF_SETTINGS w l [] (holds_nil w l I)) as (p & a & -> & E0 & H1); [unfold SIZEOF_SETTINGS; lia|].
  cbn [mbind option_bind]. cbv zeta. destruct (Z.eqb_spec p 0) as [->|Hp0].
  { eexists _, _. split; [done|]. cbn [swins]. rewrite E0 by done. by eapply opens_refl. }
  destruct (holds_create fuel 160 110 420 260 SETTINGS_CB SETTINGS_CB SETTINGS_CB p w a l _ (H1 Hp0) Hf Hid) as (win & w2 & -> & E3 & H3). cbn [mbind option_bind].
  destruct (Z.eqb_spec win 0) as [->|Hw0].
  - rewrite E3 by done. destruct (holds_free p SIZEOF_SETTINGS _ l [] [] (H1 Hp0)) as (a4 & -> & H4). cbn [mbind option_bind].
    eexists _, _. split; [done|]. by apply (opens_heap fuel w l a4 []).
  - eexists _, _. split; [done|]. exists (win :: l). by apply H3.
Qed.

Lemma kfree_if_ok p n w l o1 o2 : holds w l (o1 ++ obj p n ++ o2) ->
  exists a, kfree_if p (wheap w) = Some a /\ holds (with_heap w a) l (o1 ++ o2).
Proof.
  intros H. unfold kfree_if, obj in *. destruct (decide (p = 0)) as [->|Hp].
  - exists (wheap w). split; [done|]. by destruct w.
  - rewrite (proj2 (Z.eqb_neq p 0)) by done. by apply (holds_free p n).
Qed.

Lemma chat_fresh_ok l i : chat_ok (chat_fresh l i).
Proof. constructor; cbn [chat_fresh log_len log_size input_len input_size]; unfold AI_CHAT_LOG_DEFAULT, AI_CHAT_INPUT_DEFAULT; lia. Qed.

Lemma ai_chat_open_ok fuel (s : chat_sys A) l :
  ready fuel (cwins s) l -> (forall p, chat_ok (chats s p)) ->
  exists p s', ai_chat_open fuel s = Some (p, s') /\ opens (cwins s) l (cwins s') /\ forall q, chat_ok (chats s' q).
Proof.
  intros R Hc. pose proof R as [I F Hf Hid]. unfold ai_chat_open. destruct (negb _); [eexists _, _; split; [done | split; [by eapply opens_refl | done]]|].
  set (w := cwins s) in *.
  destruct (holds_alloc SIZEOF_AI_CHAT w l [] (holds_nil w l I)) as (p & a & -> & E0 & H1); [unfold SIZEOF_AI_CHAT; lia|].
  cbn [mbind option_bind]. cbv zeta. destruct (Z.eqb_spec p 0) as [->|Hp0].
  { eexists _, _. split; [done|]. cbn [cwins]. rewrite E0 by done. split; [by eapply opens_refl | done]. }
  destruct (holds_alloc_obj AI_CHAT_LOG_DEFAULT _ l _ (H1 Hp0)) as (lg & a2 & E2 & H2); [unfold AI_CHAT_LOG_DEFAULT; lia|].
  cbn [wheap with_heap] in E2. rewrite E2. cbn [mbind option_bind].
  destruct (holds_alloc_obj AI_CHAT_INPUT_DEFAULT _ l _ H2) as (i & a3 & E3 & H3); [unfold AI_CHAT_INPUT_DEFAULT; lia|].
  cbn [wheap with_heap] in E3. rewrite E3. cbn [mbind option_bind].
  change (with_heap (with_heap (with_heap w a) a2) a3) with (with_heap w a3) in H3.
  (* every way back frees the three objects *)
  assert (exists a4 a5 a6, kfree_if lg a3 = Some a4 /\ kfree_if i a4 = Some a5 /\ a_free p a5 = Some a6 /\ holds (with_heap w a6) l []) as (a4 & a5 & a6 & F4 & F5 & F6 & H6).
  { destruct (kfree_if_ok lg AI_CHAT_LOG_DEFAULT _ l (obj i AI_CHAT_INPUT_DEFAULT) _ H3) as (a4 & F4 & H4).
    destruct (kfree_if_ok i AI_CHAT_INPUT_DEFAULT _ l [] _ H4) as (a5 & F5 & H5). destruct (holds_free p SIZEOF_AI_CHAT _ l [] [] H5) as (a6 & F6 & H6).
    by exists a4, a5, a6. }
  destruct ((lg =? 0) || (i =? 0)) eqn:Ez.
  { rewrite F4. cbn [mbind option_bind]. rewrite F5. cbn [mbind option_bind]. rewrite F6. cbn [mbind option_bind].
    eexists _, _. split; [done|]. split; [by apply (opens_heap fuel w l a6 [])|done]. }
  apply orb_false_iff in Ez as [Elg Ei]. destruct (holds_create fuel 150 100 540 360 CHAT_CB CHAT_CB CHAT_CB p w a3 l _ H3 Hf Hid) as (win & w2 & -> & E7 & H7).
  cbn [mbind option_bind]. pose proof (chat_fresh_ok lg i) as Ok. destruct (Z.eqb_spec win 0) as [->|Hw0].
  - rewrite E7 by done. cbn [wheap with_heap]. unfold kfree_if in F4, F5. rewrite Elg in F4. rewrite Ei in F5.
    rewrite F4. cbn [mbind option_bind]. rewrite F5. cbn [mbind option_bind]. rewrite F6. cbn [mbind option_bind].
    eexists _, _. split; [done|]. split; [by apply (opens_heap fuel w l a6 [])|]. cbn [chats]. by apply upd_all.
  - eexists _, _. split; [done|]. split; [exists (win :: l); by apply H7|]. cbn [chats]. apply upd_all; [|done].
    apply log_append_ok. destruct Ok as [O1 O2 O3 O4]. by constructor.
Qed.

(** ** Events *)

Lemma note_event_safe win ev n : note_safe n -> note_safe (notepad_event_cb win ev n).
Proof.
  intros [O|[H1 H2]]; [left|right].
  - destruct (decide (w_user_data win = 0)) as [E|E]; [|by apply event_ok]. unfold notepad_event_cb. by rewrite E.
  - unfold notepad_event_cb, np_backspace, np_insert_char. rewrite H1, H2. repeat case_match; done.
Qed.

Lemma entry_path_short k ex e : expl_ok k ex -> k <= 49 -> e ∈ entries ex -> Z.of_nat (length (path_of (cwd ex) (e_name e))) < NP_MAX_FILENAME.
Proof.
  intros [_ H1 H2 _ _ _] Hk He. pose proof (path_of_length (cwd ex) (e_name e)). rewrite Forall_forall in H2. destruct (H2 e He) as [H3 _].
  unfold NP_MAX_FILENAME. lia.
Qed.

(** The outcome of an event in the explorer. *)
Definition explored (k : Z) (l : list Z) (v : V) (s : note_sys A) (r : option (explorer * V * note_sys A)) : Prop :=
  exists ex' v' s', r = Some (ex', v', s') /\ expl_ok k ex' /\ fs_inv v' /\ fs_file v' = fs_file v /\
    opens (nwins s) l (nwins s') /\ forall q, note_safe (notes s' q).

Lemma explored_refl fuel k l ex v s :
  expl_ok k ex -> fs_inv v -> ready fuel (nwins s) l -> (forall p, note_safe (notes s p)) -> explored k l v s (Some (ex, v, s)).
Proof. intros O Iv R Hn. exists ex, v, s. repeat (split; [done|]). split; [by eapply opens_refl | done]. Qed.

Lemma explored_go_up fuel k l ex v s :
  expl_ok k ex -> 1 <= k -> fs_inv v -> ready fuel (nwins s) l -> (forall p, note_safe (notes s p)) ->
  explored k l v s ('(ex, v) ← explorer_go_up ex v; Some (ex, v, s)).
Proof.
  intros O Hk Iv R Hn. destruct (go_up_ok k ex v O Hk Iv) as (ex' & v' & -> & O' & Iv' & Ef). exists ex', v', s.
  repeat (split; [done|]). split; [by eapply opens_refl | done].
Qed.

Lemma explored_enter fuel k l ex v s :
  expl_ok k ex -> 1 <= k <= 49 -> fs_inv v -> ready fuel (nwins s) l -> (forall p, note_safe (notes s p)) ->
  explored k l v s (explorer_enter fuel ex v s).
Proof.
  intros O Hk Iv R Hn. unfold explorer_enter. destruct (_ || _); [by eapply explored_refl|].
  destruct (entries ex !! _) as [e|] eqn:He; [|by eapply explored_refl]. apply list_elem_of_lookup_2 in He.
  destruct (is_dir e) eqn:Hd.
  - assert (e_name e = bytes_of "..") as -> by (destruct O as [_ _ H _ _ _]; rewrite Forall_forall in H; by apply (H e He)).
    change (ex_strcmp (bytes_of "..") (bytes_of "..")) with 0. cbn [Z.eqb]. apply (explored_go_up fuel); done || lia.
  - unfold explorer_open_file. pose proof O as [Hc Hl Hes _ _ _]. rewrite Forall_forall in Hes. destruct (Hes e He) as [Hlen _].
    rewrite join_ok by (done || unfold EXPL_PATH_MAX; lia). cbn [mbind option_bind].
    destruct (notepad_open_ok fuel (Some (path_of (cwd ex) (e_name e))) s l R Hn) as (p & s' & -> & Ho & Hn'); [by apply (entry_path_short k); [..|lia|]|].
    exists ex, v, s'. done.
Qed.

Lemma set_selected_ok k i ex : expl_ok k ex -> 0 <= i < entry_count ex -> expl_ok k (set_selected i ex).
Proof. intros [H1 H2 H3 H4 H5 H6] Hi. unfold entry_count in *. constructor; unfold entry_count; cbn [set_selected cwd entries selected scroll]; done || lia. Qed.

Lemma set_first_row_ok k i ex : expl_ok k ex -> 0 <= i < Z.max 1 (entry_count ex) -> expl_ok k (set_first_row i ex).
Proof. intros [H1 H2 H3 H4 H5 H6] Hi. by constructor. Qed.

Lemma explored_event fuel k l win ev ex v s :
  expl_ok k ex -> 1 <= k <= 49 -> fs_inv v -> ready fuel (nwins s) l -> (forall p, note_safe (notes s p)) ->
  explored k l v s (explorer_event_cb fuel win ev ex v s).
Proof.
  intros O Hk Iv R Hn. unfold explorer_event_cb. destruct (_ =? 0); [by eapply explored_refl|]. pose proof O as [_ _ _ Hcnt Hsel Hscr].
  destruct (decide (ev_type ev = GUI_EVENT_KEY_DOWN)) as [E|E].
  - rewrite E, (bool_decide_true (GUI_EVENT_KEY_DOWN = GUI_EVENT_KEY_DOWN)), (bool_decide_false (GUI_EVENT_KEY_DOWN = GUI_EVENT_MOUSE_DOWN)) by done. cbn [andb].
    assert (forall r, explored k l v s r -> explored k l v s ('(ex, v, s) ← r; Some (ex, v, s))) as Hr by (by intros r (ex' & v' & s' & -> & H); exists ex', v', s').
    apply Hr. unfold explorer_key. destruct (_ =? 0x48).
    { destruct (Z.ltb_spec 0 (selected ex)); [|by eapply explored_refl]. cbv zeta.
      assert (expl_ok k (set_selected (selected ex - 1) ex)) as O1 by (apply set_selected_ok; done || lia).
      destruct (_ <? _); (eapply explored_refl; [|done..]); [apply set_first_row_ok; [done|]; cbn [selected set_selected]; unfold entry_count in *; cbn; lia | done]. }
    destruct (_ =? 0x50).
    { destruct (Z.ltb_spec (u32 (selected ex + 1)) (entry_count ex)); [|by eapply explored_refl]. rewrite u32_small in * by lia.
      eapply explored_refl; [apply set_selected_ok; done || lia | done..]. }
    destruct (_ =? 0x0E); [apply (explored_go_up fuel); done || lia|].
    destruct (_ =? 0x1C); [by apply explored_enter | by eapply explored_refl].
  - rewrite (bool_decide_false (ev_type ev = GUI_EVENT_KEY_DOWN)) by done. cbn [mbind option_bind]. destruct (_ && _); [|by eapply explored_refl]. unfold explorer_click.
    destruct (_ <? _); [by eapply explored_refl|]. destruct ((0 <=? _) && _) eqn:Ei; [|by eapply explored_refl]. b2p.
    destruct (_ && _); [by apply explored_enter|]. eapply explored_refl; [by apply set_selected_ok | done..].
Qed.
(** ** The terminal *)

Definition terms_ok (t : @tgui_sys A) : Prop := forall p, tg_ok (terms t p).

Lemma fresh_tg_ok : tg_ok tgui_fresh.
Proof. constructor; apply (bool_decide_unpack _); vm_compute; exact Logic.I. Qed.

Lemma on_tgui_terms f (t : @tgui_sys A) : (forall u, tg_ok u -> tg_ok (f u)) -> terms_ok t -> terms_ok (on_tgui f t).
Proof. intros Hf Ht. unfold on_tgui. destruct (_ =? 0); [done|]. intros p. cbn [terms]. apply upd_all; [by apply Hf | done]. Qed.

Lemma tgui_event_terms ev (t : @tgui_sys A) : terms_ok t -> terms_ok (tgui_handle_event ev t).
Proof.
  intros Ht. unfold tgui_handle_event, terminal_gui_write, terminal_gui_write_char.
  repeat case_match; try done; apply on_tgui_terms; try done; intros u Hu; [by apply write_ok | by apply put_char_ok..].
Qed.

Lemma terminal_open_terms fuel x y z (t : @tgui_sys A) p t' : terminal_gui_open fuel x y z t = Some (p, t') -> terms_ok t -> terms_ok t'.
Proof.
  intros E Ht. unfold terminal_gui_open in E. destruct (negb _); [by simplify_eq|].
  destruct (a_alloc _ _) as [[q a]|]; cbn [mbind option_bind] in E; [|done]. cbv zeta in E. destruct (q =? 0); [by simplify_eq|].
  destruct (gui_create_window _ _ _ _ _ _ _ _ _ _) as [[win w]|]; cbn [mbind option_bind] in E; [|done]. destruct (win =? 0).
  - destruct (a_free _ _); cbn [mbind option_bind] in E; [|done]. simplify_eq. intros r. cbn [terms]. apply upd_all; [apply fresh_tg_ok | done].
  - simplify_eq. unfold terminal_gui_write. apply on_tgui_terms; [intros u Hu; by apply write_ok|]. intros r. cbn [terms].
    apply upd_all; [|done]. destruct fresh_tg_ok as [F1 F2]. by constructor.
Qed.

(** ** All together *)

(** The objects of the applications are well formed: the terminals' cursors
    are on their grids, the explorers list the root, texts fit their buffers. *)
Record apps_ok (x : app_state V) : Prop := {
  ao_term p : tg_ok (snd (a_terminal x) p);
  ao_expl p : expl_ok 1 (a_explorers x p);
  ao_note p : note_safe (a_notes x p);
  ao_chat p : chat_ok (snd (a_chat x) p);
  ao_files : fs_inv (a_files x);
}.

Lemma launch_ok fuel a (w : windows A) l x :
  apps_ok x -> win_inv w l -> focus_ok w l -> (length l <= fuel)%nat -> g_next_window_id w < 2 ^ 32 - 1 ->
  exists w' x' l', app_open fuel a w x = Some (w', x') /\ apps_ok x' /\ grows w l w' l'.
Proof.
  intros [T E N C Fi] I F Hf Hid. assert (ready fuel w l) as R by done. cbn [app_open desktop_apps]. unfold launch. destruct a.
  - destruct (terminal_open_grows fuel w l (a_terminal x) I F Hf Hid) as (p & t & l' & Et & Hg). unfold term_of. fold (term_sys w (a_terminal x)). rewrite Et.
    cbn [mbind option_bind put_term]. eexists _, _, l'. split; [done|]. split; [|done]. constructor; cbn [a_terminal a_explorers a_notes a_chat a_files snd]; try done.
    by apply (terminal_open_terms fuel _ _ _ _ _ _ Et).
  - destruct (explorer_open_ok fuel None (expl_of w x) l 1 R Fi) as (p & s' & -> & (l' & Hg) & Iv & _ & En & Ho & _); [apply slash_string | cbn; lia | done|].
    cbn [mbind option_bind put_expl]. eexists _, _, l'. split; [done|]. split; [|done]. constructor; cbn [a_terminal a_explorers a_notes a_chat a_files snd]; try done.
    by rewrite En.
  - destruct (notepad_open_ok fuel None (note_of w x) l R N) as (p & s' & -> & (l' & Hg) & Ho); [done|].
    cbn [mbind option_bind put_note]. eexists _, _, l'. split; [done|]. by split.
  - destruct (settings_open_ok fuel (settings_of w x) l R) as (p & s' & -> & (l' & Hg)).
    cbn [mbind option_bind put_settings]. eexists _, _, l'. split; [done|]. by split.
  - destruct (ai_chat_open_ok fuel (chat_of w x) l R C) as (p & s' & -> & (l' & Hg) & Ho).
    cbn [mbind option_bind put_chat]. eexists _, _, l'. split; [done|]. by split.
Qed.

Lemma handle_ok fuel cb p ev (w : windows A) l x :
  apps_ok x -> win_inv w l -> focus_ok w l -> p ∈ l -> (length l <= fuel)%nat -> g_next_window_id w < 2 ^ 32 - 1 ->
  exists w' x' l', app_event fuel cb p ev w x = Some (w', x') /\ apps_ok x' /\ grows w l w' l'.
Proof.
  intros [T E N C Fi] I F Hp Hf Hid. assert (ready fuel w l) as R by done. cbn [app_event desktop_apps]. unfold handle. cbv zeta.
  pose proof (grows_refl w l I F) as G. destruct (cb =? TERM_CB).
  { eexists _, _, l. split; [done|]. cbn [put_term]. rewrite handle_event_windows. split; [|done].
    constructor; cbn [a_terminal a_explorers a_notes a_chat a_files snd]; try done. by apply tgui_event_terms. }
  destruct (cb =? EXPL_CB).
  { destruct (explored_event fuel 1 l (wins w p) ev (a_explorers x (w_user_data (wins w p))) (a_files x) (note_of w x))
      as (ex' & v' & s' & -> & O' & Iv' & _ & (l' & Hg) & Hn); [done | lia | done..|].
    cbn [mbind option_bind put_expl]. eexists _, _, l'. split; [done|]. split; [|done].
    constructor; cbn [a_terminal a_explorers a_notes a_chat a_files snd expls esys files]; try done. by apply upd_all. }
  destruct (cb =? NOTE_CB).
  { eexists _, _, l. split; [done|]. split; [|done]. constructor; cbn [a_terminal a_explorers a_notes a_chat a_files snd notes]; try done.
    apply upd_all; [by apply note_event_safe | done]. }
  destruct (cb =? CHAT_CB).
  { destruct (a_chat x) as [g cs] eqn:Ec. eexists _, _, l. split; [done|]. split; [|done].
    constructor; cbn [a_terminal a_explorers a_notes a_chat a_files snd chats]; try done. apply upd_all; [by apply chat_event_ok | done]. }
  by eexists _, _, l.
Qed.

#[export] Instance desktop_apps_spec : GuiAppsSpec (app_state V) := { ga_inv := apps_ok; ga_open := launch_ok; ga_event := handle_ok }.

(** C27: the desktop with its five applications runs for ever: brought up on a
    working heap and a working file layer, it handles whatever events arrive;
    after any number of them the windows are a well-formed stacking order of
    live objects with at most the top-most one focused, and the objects of the
    applications are well formed. *)
Theorem desktop_runs fb_width fb_height fuel evs (s : gui A (app_state V)) :
  a_inv (wheap (wnd s)) -> apps_ok (apps s) -> drag_win (wm s) = 0 -> (length evs + 2 < fuel)%nat -> Z.of_nat (length evs) < 2 ^ 32 - 4 ->
  exists s1 s2 l, wm_init fb_width fb_height fuel s = Some s1 /\ wm_loop fb_width fb_height fuel evs s1 = Some s2 /\
    win_inv (wnd s2) l /\ focus_ok (wnd s2) l /\ (drag_win (wm s2) = 0 \/ drag_win (wm s2) ∈ l) /\ apps_ok (apps s2).
Proof.
  intros Ha Hx Hd Hf Hn. destruct (wm_init_ok (GS := desktop_apps_spec) fb_width fb_height fuel s Ha Hx Hd) as (s1 & l1 & E1 & G1 & L1 & N1); [lia|].
  destruct (wm_loop_ok (GS := desktop_apps_spec) fb_width fb_height fuel evs s1 l1 G1) as (s2 & l2 & E2 & [I F D P] & _); [lia | lia|].
  by exists s1, s2, l2.
Qed.

(** ** Drawing *)

Lemma tgui_draw_stays win t fb : fb_ok fb -> stays fb (tgui_draw win t fb).
Proof.
  intros O. unfold tgui_draw. destruct (_ =? 0); [reflexivity|]. cbv zeta.
  match goal with |- stays _ (tgui_fill_rect ?x ?y ?w ?h ?c ?t) => apply (stays_after (ex_fill_rect x y w h c) fb t); [done | | by apply ex_fill_rect_stays] end.
  match goal with |- stays _ (for_up ?n ?i ?b ?t) => apply (stays_after (for_up n i b) fb t); [done | by apply ex_fill_rect_stays|] end.
  intros O1. apply for_up_stays; [done|]. intros r t1 _ O2 _. apply for_up_stays; [done|]. intros c t2 _ O3 _.
  apply font_draw_char_stays; [done | apply builtin_font_ok | apply u32_range..].
Qed.

Lemma entry_label_ok e : entry_ok e -> exists l, entry_label e = Some l.
Proof.
  intros [H _]. unfold entry_label. destruct (is_dir e).
  - unfold EXPL_MAX_NAME. rewrite strcat_ok by (cbn [bytes_of length]; lia). cbn [mbind option_bind]. rewrite strcat_ok by (cbn [bytes_of length Datatypes.app]; lia). by eexists.
  - rewrite strcpy_ok by (unfold EXPL_MAX_NAME; lia). by eexists.
Qed.

Lemma draw_rows_stays k x0 w ex n : expl_ok k ex -> forall idx row_y fb, fb_ok fb -> exists fb', draw_rows n idx x0 row_y w ex fb = Some fb' /\ stays fb fb'.
Proof.
  intros O. induction n as [|n IH]; intros idx row_y fb Ofb; cbn [draw_rows]; [by exists fb|]. destruct (_ || _); [by exists fb|].
  destruct (entries ex !! _) as [e|] eqn:He; [|by exists fb]. destruct O as [_ _ Hes _ _ _]. destruct (entry_label_ok e (Forall_lookup_1 _ _ _ _ Hes He)) as (lb & El).
  cbv zeta. rewrite El. cbn [mbind option_bind].
  match goal with |- context [draw_rows n ?i x0 ?y w ex ?t] => destruct (IH i y t) as (fb' & -> & S); [|exists fb'; split; [done|]; etransitivity; [|exact S]] end.
  - eapply stays_ok; [|exact Ofb]. etransitivity; [by apply ex_fill_rect_stays|]. apply ex_draw_string_stays; [apply builtin_font_ok|].
    eapply stays_ok; [by apply ex_fill_rect_stays | done].
  - etransitivity; [by apply ex_fill_rect_stays|]. apply ex_draw_string_stays; [apply builtin_font_ok|].
    eapply stays_ok; [by apply ex_fill_rect_stays | done].
Qed.

Lemma explorer_draw_stays k win ex fb : fb_ok fb -> expl_ok k ex -> exists fb', explorer_draw_cb win ex fb = Some fb' /\ stays fb fb'.
Proof.
  intros O Oe. unfold explorer_draw_cb. destruct (_ =? 0); [by exists fb|]. cbv zeta.
  match goal with |- context [draw_rows ?n ?i ?x ?y ?w ex ?t] => assert (over fb t) as [S Ot] by (by apply over_rect, over_text, over_rect, over_rect, over_refl);
    destruct (draw_rows_stays k x w ex n Oe i y t Ot) as (fb' & -> & S') end.
  exists fb'. split; [done | by etransitivity].
Qed.

Lemma draw_labels_over x0 l : forall y fb t, over fb t -> over fb (draw_labels x0 y l t).
Proof. induction l as [|[[k h] t0] l IH]; intros y fb t H; cbn [draw_labels]; [done|]. by apply IH, over_text. Qed.

Lemma settings_draw_stays win fb : fb_ok fb -> stays fb (settings_draw win fb).
Proof.
  intros O. assert (over fb (settings_draw win fb)) as [S _]; [|exact S]. unfold settings_draw. by apply draw_labels_over, over_rect, over_refl.
Qed.

Lemma draw_log_over left right input_y f k : forall i x y fb t, over fb t -> over fb (draw_log k i x y left right input_y f font_load_builtin t).
Proof.
  induction k as [|k IH]; intros i x y fb t H; cbn [draw_log]; [done|]. cbv zeta. destruct (f i =? 10); [destruct (_ <=? _); [done | by apply IH]|].
  set (t1 := font_draw_char _ _ _ _ _ _ t). assert (over fb t1) as H1 by (apply over_char; [done | apply u32_range..]). clearbody t1.
  destruct (right <=? _); [destruct (_ <=? _); [done | by apply IH] | by apply IH].
Qed.

Lemma ai_chat_draw_stays win c fb : fb_ok fb -> stays fb (ai_chat_draw win c fb).
Proof.
  intros O. assert (over fb (ai_chat_draw win c fb)) as [S _]; [|exact S]. unfold ai_chat_draw. destruct (_ =? 0); [by apply over_refl|]. cbv zeta.
  by apply over_rect, over_text, draw_log_over, over_rect, over_rect, over_refl.
Qed.

(** Whatever window of the desktop is drawn, only pixels of the screen
    change, provided that a text editor's window has room for its lines. *)
Lemma draw_app_stays win x fb : fb_ok fb -> apps_ok x -> (w_draw win = NOTE_CB -> roomy win) ->
  exists fb', draw_app win x fb = Some fb' /\ stays fb fb'.
Proof.
  intros O [T E N C Fi] Hr. unfold draw_app. cbv zeta.
  destruct (_ =? TERM_CB); [eexists; split; [done | by apply tgui_draw_stays]|].
  destruct (_ =? EXPL_CB); [by apply (explorer_draw_stays 1)|].
  destruct (Z.eqb_spec (w_draw win) NOTE_CB); [eexists; split; [done | apply notepad_draw_stays; auto]|].
  destruct (_ =? SETTINGS_CB); [eexists; split; [done | by apply settings_draw_stays]|].
  destruct (_ =? CHAT_CB); [eexists; split; [done | by apply ai_chat_draw_stays]|].
  by exists fb.
Qed.
End Spec.

(** ** Examples *)

(** The applications before the first is opened, over a table of files. *)
Definition fresh_apps (files : table) : app_state table :=
  mk_apps (0, fun _ => tgui_fresh) (fun _ => mk_expl [] [] 0 0 0) (fun _ => mk_note (mk_np (mk_gap 0 0 0 0) 0 0 false 0 0 0 false false 0 [] [] 0) (fun _ => 0))
    (0, fun _ => 0) (0, fun _ => mk_chat 0 0 0 0 0 0 0 (fun _ => 0) (fun _ => 0)) files.

Lemma fresh_apps_ok files : apps_ok (fresh_apps files).
Proof.
  constructor; cbn [fresh_apps a_terminal a_explorers a_notes a_chat a_files snd]; intros; [apply fresh_tg_ok | | by right | | done].
  - constructor; unfold entry_count; cbn; try lia; constructor.
  - constructor; cbn; unfold AI_CHAT_LOG_DEFAULT, AI_CHAT_INPUT_DEFAULT; lia.
Qed.

Definition demo_files : table := [(bytes_of "README.TXT", [104; 105])].

Definition fresh_desktop : gui heap (app_state table) :=
  mk_gui_sys no_windows (fresh_apps demo_files) 0 0 (mk_menu false 0 0) (mk_desk NO_ICON (fun _ => 0) NO_ICON)
    (mk_wm DRAG_NONE 0 0 0 0 0 0 0 false) (mk_rect 0 0 0 0).

Lemma desktop_runs_witness : exists s1 s2,
  wm_init 1024 768 9 fresh_desktop = Some s1 /\
  wm_loop 1024 768 9 [(0, mouse_at GUI_EVENT_MOUSE_DOWN 25 748); (5, mouse_at GUI_EVENT_MOUSE_DOWN 30 700); (9, key_down 65)] s1 = Some s2.
Proof.
  destruct (desktop_runs 1024 768 9 [(0, mouse_at GUI_EVENT_MOUSE_DOWN 25 748); (5, mouse_at GUI_EVENT_MOUSE_DOWN 30 700); (9, key_down 65)] fresh_desktop)
    as (s1 & s2 & l & E1 & E2 & _).
  - exact (wi_heap _ _ no_windows_inv).
  - exact (fresh_apps_ok demo_files).
  - reflexivity.
  - cbn. lia.
  - cbn. lia.
  - exists s1, s2. split; [exact E1 | exact E2].
Defined.
