(* ===== verification/Paint.v ===== *)
(** What the window manager draws: the desktop with its icons
    (kernel/gui/desktop.c), the frames of the windows and the pointer
    (kernel/gui/wm.c), the task bar with its clock (kernel/gui/taskbar.c), the
    start menu (kernel/gui/start_menu.c), and the full redraw with the
    applications' own drawing.

    The full redraw: it returns, and changes nothing but pixels of the screen;
    and what the clock of the task bar shows. *)

From S2P Require Import Prelude Memory Alloc Window Ring Keyboard Mouse Input Terminal Wm Framebuffer Font Canvas Files Notes Explorer AiChat Settings Apps Heap WmSpec AppsSpec.
Local Open Scope Z_scope.

(** ** Colours (kernel/gfx/colors.h) *)

Definition UI_COLOR_DESKTOP_BG : Z := 0xFF1A2A3A.
Definition UI_COLOR_WINDOW_BG : Z := 0xFF2E2E2E.
Definition UI_COLOR_WINDOW_BORDER : Z := 0xFF3C3C3C.
Definition UI_COLOR_WINDOW_TITLE_ACTIVE_BG : Z := 0xFF005A9E.
Definition UI_COLOR_WINDOW_TITLE_INACTIVE_BG : Z := 0xFF3A3A3A.
Definition UI_COLOR_ACCENT : Z := 0xFF0078D4.
Definition UI_COLOR_TASKBAR_BG : Z := 0xFF1E1E1E.
Definition UI_COLOR_TEXT_FG : Z := 0xFFFFFFFF.

(** ** Windows *)

Definition WIN_RADIUS : Z := 4.
Definition BTN_CLOSE_COL : Z := 0xFFD9534F.
Definition BTN_MAX_COL : Z := 0xFF5CB85C.
Definition BTN_MIN_COL : Z := 0xFFF0AD4E.
Definition BTN_GLYPH_COL : Z := 0xFFFFFFFF.

Definition draw_btn (font : gui_font) (bx by_ bg : Z) (glyph : list Z) (fb : framebuffer) : option framebuffer :=
  fb ← fb_fill_rounded_rect (u32 bx) (u32 by_) BTN_W BTN_H 2 bg fb;
  let gx := u32 (u32 bx + u32 (BTN_W - (if font_width font =? 0 then 8 else font_width font)) / 2) in
  let gy := u32 (u32 by_ + u32 (BTN_H - (if font_height font =? 0 then 8 else font_height font)) / 2) in
  Some (font_draw_string font gx gy glyph BTN_GLYPH_COL bg fb).

(** The room for the title beside the buttons. *)
Definition title_max_w (w : Z) : Z :=
  let k := 3 * (BTN_W + BTN_PAD) + 12 + 8 in if k <? w then w - k else 0.

(** [title]: the characters at the window's title, [None] for NULL. *)
Definition wm_draw_window_frame (win : gui_window) (title : option (list Z)) (font : gui_font) (fb : framebuffer) : option framebuffer :=
  if negb (visible win) then Some fb
  else
    let x := u32 (w_x win) in
    let y := u32 (w_y win) in
    let w := w_width win in
    let h := w_height win in
    if (w <? 60) || (h <? TITLE_BAR_H + 4) then Some fb
    else
      let frame_col := if is_active win then UI_COLOR_ACCENT else UI_COLOR_WINDOW_BORDER in
      let title_bg := if is_active win then UI_COLOR_WINDOW_TITLE_ACTIVE_BG else UI_COLOR_WINDOW_TITLE_INACTIVE_BG in
      fb ← fb_draw_rounded_rect x y w h WIN_RADIUS frame_col fb;
      let fb := fb_fill_rect (u32 (x + 1)) (u32 (y + 1)) (w - 2) TITLE_BAR_H title_bg fb in
      let fb := fb_fill_rect (u32 (x + 1)) (u32 (y + 1 + TITLE_BAR_H)) (w - 2) (h - TITLE_BAR_H - 2) UI_COLOR_WINDOW_BG fb in
      let fb := match title with
                | Some t => if 0 <? title_max_w w
                            then font_draw_string_centered font (u32 (x + 4)) (u32 (y + 2)) (title_max_w w) t UI_COLOR_TEXT_FG title_bg fb else fb
                | None => fb
                end in
      fb ← draw_btn font (btn_x win 0) (btn_y win) BTN_CLOSE_COL (bytes_of "x") fb;
      fb ← draw_btn font (btn_x win 1) (btn_y win) BTN_MAX_COL (bytes_of "+") fb;
      fb ← draw_btn font (btn_x win 2) (btn_y win) BTN_MIN_COL (bytes_of "-") fb;
      Some (fb_fill_rect (u32 (x + w - BORDER_W)) (u32 (y + h - BORDER_W)) BORDER_W BORDER_W frame_col fb).

(** The width of each row of the pointer. *)
Definition arrow : list Z := [1; 2; 3; 4; 5; 6; 7; 6; 5; 4; 3; 2].
Definition wm_draw_cursor (cx cy : Z) (fb : framebuffer) : framebuffer :=
  for_up (length arrow) 0 (fun row fb =>
    for_up (Z.to_nat (nth (Z.to_nat row) arrow 0)) 0 (fun c fb => fb_put_pixel (u32 (cx + c)) (u32 (cy + row)) UI_COLOR_TEXT_FG fb) fb) fb.

(** ** The desktop *)

Definition ICON_RADIUS : Z := 6.
Definition LABEL_GAP : Z := 4.
Definition WATERMARK_TEXT : list Z := bytes_of "AIOS v0.1".

(** Label, glyph and colour of each icon. *)
Definition icon_faces : list (list Z * list Z * Z) :=
  [ (bytes_of "Terminal", bytes_of ">>", 0xFF1A3A1A); (bytes_of "Explorer", bytes_of "EX", 0xFF1A2A3A); (bytes_of "Notepad", bytes_of "NP", 0xFF2A1A3A);
    (bytes_of "AI Chat", bytes_of "AI", 0xFF3A1A2A); (bytes_of "Settings", bytes_of "ST", 0xFF2A2A1A) ].

(** One channel of the band at the top. *)
Definition band_channel (sh alpha : Z) : Z :=
  let acc := channel sh UI_COLOR_ACCENT in
  let bg := channel sh UI_COLOR_DESKTOP_BG in
  acc + ((bg - acc) * alpha) ÷ 255.
Definition band_color (row band_h : Z) : Z :=
  let alpha := u32 (row * 0xFF) / (if band_h =? 0 then 1 else band_h) in
  Z.lor (Z.lor (Z.lor 0xFF000000 (u32 (Z.shiftl (u32 (band_channel 16 alpha)) 16))) (u32 (Z.shiftl (u32 (band_channel 8 alpha)) 8))) (u32 (band_channel 0 alpha)).

Definition brighten (c : Z) : Z := if 0xFF <? c + 0x30 then 0xFF else c + 0x30.
Definition tile_color (selected : bool) (bg : Z) : Z :=
  if selected then
    Z.lor (Z.lor (Z.lor 0xFF000000 (u32 (Z.shiftl (brighten (channel 16 bg)) 16))) (u32 (Z.shiftl (brighten (channel 8 bg)) 8))) (brighten (channel 0 bg))
  else bg.

Definition draw_icon (font : gui_font) (i : Z) (face : list Z * list Z * Z) (selected : bool) (fb : framebuffer) : option framebuffer :=
  let '(label, glyph, bg) := face in
  let ix := ICON_MARGIN_X in
  let iy := u32 (icon_y i) in
  let tile_col := tile_color selected bg in
  let border_col := if selected then UI_COLOR_ACCENT else UI_COLOR_WINDOW_BORDER in
  fb ← fb_fill_rounded_rect ix iy ICON_SIZE ICON_SIZE ICON_RADIUS tile_col fb;
  fb ← fb_draw_rounded_rect ix iy ICON_SIZE ICON_SIZE ICON_RADIUS border_col fb;
  let fw := if font_width font =? 0 then 8 else font_width font in
  let fh := if font_height font =? 0 then 16 else font_height font in
  let fb := font_draw_string font (u32 (ix + u32 (ICON_SIZE - u32 (2 * fw)) / 2)) (u32 (iy + u32 (ICON_SIZE - fh) / 2)) glyph UI_COLOR_TEXT_FG tile_col fb in
  let lw := u32 (8 * fw) in
  Some (font_draw_string_centered font (u32 (ix + ICON_SIZE / 2 - lw / 2)) (u32 (iy + ICON_SIZE + LABEL_GAP)) lw label UI_COLOR_TEXT_FG UI_COLOR_DESKTOP_BG fb).

Fixpoint draw_icons (font : gui_font) (i : Z) (faces : list (list Z * list Z * Z)) (g_selected : Z) (fb : framebuffer) : option framebuffer :=
  match faces with
  | [] => Some fb
  | face :: faces => fb ← draw_icon font i face (g_selected =? i) fb; draw_icons font (i + 1) faces g_selected fb
  end.

Definition desktop_draw (font : gui_font) (g_selected : Z) (fb : framebuffer) : option framebuffer :=
  let fb := fb_clear UI_COLOR_DESKTOP_BG fb in
  let band_h := height fb / 5 in
  let fb := for_up (Z.to_nat band_h) 0 (fun row fb => fb_fill_rect 0 row (width fb) 1 (band_color row band_h) fb) fb in
  fb ← draw_icons font 0 icon_faces g_selected fb;
  let text_y := u32 (height fb - 40 - (if font_height font =? 0 then 16 else font_height font) - 6) in
  Some (font_draw_string_centered font 0 text_y (width fb) WATERMARK_TEXT UI_COLOR_WINDOW_BORDER UI_COLOR_DESKTOP_BG fb).

(** ** The task bar *)

(** [while (v && i < sizeof(tmp) - 1)]: the digits, the lowest first. *)
Fixpoint dec_digits (room : nat) (v : Z) : list Z :=
  match room with
  | O => []
  | S room => if v =? 0 then [] else (48 + v mod 10) :: dec_digits room (v / 10)
  end.
Definition u64_to_dec (v buflen : Z) : list Z :=
  if buflen <? 2 then []
  else
    let tmp := if v =? 0 then [48] else dec_digits 23 v in
    take (Z.to_nat (buflen - 1)) (rev tmp).

(** [if (pos < buflen - 1) buf[pos++] = c;] *)
Definition put_if_room (buflen : Z) (buf : list Z) (c : Z) : list Z := if Z.of_nat (length buf) <? buflen - 1 then buf ++ [c] else buf.

Definition format_uptime (buflen g_ticks : Z) : list Z :=
  let secs := g_ticks / 1000 in
  let mm := secs / 60 in
  let ss := secs mod 60 in
  let buf := fold_left (put_if_room buflen) (u64_to_dec mm 16) [] in
  let buf := put_if_room buflen buf 58 in
  let buf := if ss <? 10 then put_if_room buflen buf 48 else buf in
  fold_left (put_if_room buflen) (u64_to_dec ss 8) buf.

Definition draw_start_orb (orb_cx orb_cy : Z) (pressed : bool) (fb : framebuffer) : option framebuffer :=
  fb ← fb_fill_circle orb_cx orb_cy ORB_RADIUS (if pressed then UI_COLOR_ACCENT else 0xFF005FB8) fb;
  fb ← fb_draw_circle (u32 (orb_cx - 3)) (u32 (orb_cy - 4)) (ORB_RADIUS - 4) 0xFF60A8F0 fb;
  fb_draw_circle orb_cx orb_cy ORB_RADIUS UI_COLOR_ACCENT fb.

Section Paint.
Context {A : Type} {V : Type}.
Implicit Type s : gui A (app_state V).

(** The titles the applications give their windows, under the pointers that
    stand for them. *)
Definition title_at (p : Z) : option (list Z) :=
  if p =? TERM_CB then Some (bytes_of "Terminal")
  else if p =? EXPL_CB then Some (bytes_of "Explorer")
  else if p =? NOTE_CB then Some (bytes_of "Notepad")
  else if p =? SETTINGS_CB then Some (bytes_of "Settings")
  else if p =? CHAT_CB then Some (bytes_of "AI Chat")
  else None.

(** The button of a window. *)
Definition draw_task_button (font : gui_font) (btn_x bar_y text_y : Z) (win : gui_window) (fb : framebuffer) : framebuffer :=
  let btn_bg := if is_active win then UI_COLOR_ACCENT else UI_COLOR_WINDOW_TITLE_INACTIVE_BG in
  let y := u32 (bar_y + TASKBAR_PADDING) in
  let h := TASKBAR_HEIGHT - 2 * TASKBAR_PADDING in
  let fb := fb_fill_rect btn_x y TASKBAR_BTN_W h btn_bg fb in
  let fb := fb_draw_rect btn_x y TASKBAR_BTN_W h UI_COLOR_WINDOW_BORDER fb in
  let title := match title_at (w_title win) with Some t => t | None => bytes_of "?" end in
  font_draw_string_centered font btn_x text_y TASKBAR_BTN_W title UI_COLOR_TEXT_FG btn_bg fb.

(** From the last window on. *)
Fixpoint draw_task_buttons (fuel : nat) (font : gui_font) (f : Z -> gui_window) (cur btn_x bar_y text_y : Z) (fb : framebuffer) : option framebuffer :=
  if cur =? 0 then Some fb
  else
    match fuel with
    | O => None
    | S fuel' =>
        if hidden (f cur) then draw_task_buttons fuel' font f (w_prev (f cur)) btn_x bar_y text_y fb
        else draw_task_buttons fuel' font f (w_prev (f cur)) (u32 (btn_x + (TASKBAR_BTN_W + TASKBAR_PADDING))) bar_y text_y
               (draw_task_button font btn_x bar_y text_y (f cur) fb)
    end.

Definition taskbar_draw (fuel : nat) (font : gui_font) (g_ticks : Z) s (fb : framebuffer) : option framebuffer :=
  let y := bar_y s in
  let fb := fb_fill_rect 0 y (bar_w s) TASKBAR_HEIGHT UI_COLOR_TASKBAR_BG fb in
  let fb := fb_fill_rect 0 y (bar_w s) 1 UI_COLOR_ACCENT fb in
  let orb_cx := ORB_MARGIN_L + ORB_RADIUS in
  let orb_cy := u32 (y + TASKBAR_HEIGHT / 2) in
  fb ← draw_start_orb orb_cx orb_cy (start_menu_is_open s) fb;
  let text_y := u32 (y + u32 (TASKBAR_HEIGHT - font_height font) / 2) in
  tail ← last_window fuel (wins (wnd s)) (gui_window_list_head (wnd s));
  fb ← draw_task_buttons fuel font (wins (wnd s)) tail (ORB_MARGIN_L + 2 * ORB_RADIUS + TASKBAR_PADDING) y text_y fb;
  let uptime := format_uptime 16 g_ticks in
  let cw := u32 (Z.of_nat (length uptime) * (if font_width font =? 0 then 8 else font_width font) + 8) in
  let clk_x := u32 (bar_w s - cw - TASKBAR_PADDING) in
  Some (font_draw_string_centered font clk_x text_y cw uptime UI_COLOR_TEXT_FG UI_COLOR_TASKBAR_BG fb).

(** ** The start menu *)

Definition item_labels : list (list Z) :=
  [bytes_of "Terminal"; bytes_of "Notepad"; bytes_of "Explorer"; bytes_of "Settings"; bytes_of "AI Chat"].

Definition draw_item (font : gui_font) (iy : Z) (label : list Z) (fb : framebuffer) : framebuffer :=
  let fb := fb_fill_rect (g_menu_x + START_MENU_PAD) iy (START_MENU_W - START_MENU_PAD * 2) (START_MENU_ITEM_H - 2) UI_COLOR_WINDOW_TITLE_INACTIVE_BG fb in
  font_draw_string font (g_menu_x + START_MENU_PAD + 8) (u32 (iy + u32 (START_MENU_ITEM_H - font_height font) / 2)) label
    UI_COLOR_TEXT_FG UI_COLOR_WINDOW_TITLE_INACTIVE_BG fb.

Fixpoint draw_items (font : gui_font) (i : Z) (labels : list (list Z)) s (fb : framebuffer) : framebuffer :=
  match labels with
  | [] => fb
  | label :: labels => draw_items font (i + 1) labels s (draw_item font (u32 (g_menu_y (menu s) + START_MENU_PAD + i * START_MENU_ITEM_H)) label fb)
  end.

Definition start_menu_draw (font : gui_font) s (fb : framebuffer) : gui A (app_state V) * framebuffer :=
  if negb (g_open (menu s)) then (s, fb)
  else
    let s := recalc_geometry (height fb) s in
    let y := g_menu_y (menu s) in
    let h := g_menu_h (menu s) in
    let fb := fb_fill_rect g_menu_x y START_MENU_W h UI_COLOR_WINDOW_BG fb in
    let fb := fb_draw_rect g_menu_x y START_MENU_W h UI_COLOR_ACCENT fb in
    (s, draw_items font 0 item_labels s fb).

(** ** The full redraw *)

(** The windows, in the order given. *)
Fixpoint paint_windows (font : gui_font) (order : list Z) s (fb : framebuffer) : option framebuffer :=
  match order with
  | [] => Some fb
  | p :: order =>
      let win := wins (wnd s) p in
      fb ← wm_draw_window_frame win (title_at (w_title win)) font fb;
      fb ← (if w_draw win =? 0 then Some fb else draw_app win (apps s) fb);
      paint_windows font order s fb
  end.

(** [wm_redraw_all] with its picture; [ms] is the mouse. *)
Definition wm_paint (fuel : nat) (font : gui_font) (g_ticks : Z) (ms : gui_mouse_state) s (fb : framebuffer) : option (gui A (app_state V) * framebuffer) :=
  fb ← desktop_draw font (g_selected (desk s)) fb;
  '(order, s) ← wm_redraw_all fuel s;
  fb ← paint_windows font order s fb;
  fb ← taskbar_draw fuel font g_ticks s fb;
  let '(s, fb) := if start_menu_is_open s then start_menu_draw font s fb else (s, fb) in
  Some (s, wm_draw_cursor (ms_x ms) (ms_y ms) fb).
End Paint.

(** * Specification *)

#[local] Hint Resolve u32_nonneg u32_len : aios.

(** Sides of a frame that are not absurdly long. *)
Definition frame_ok (win : gui_window) : Prop := 0 <= w_width win <= 2 ^ 29 /\ 0 <= w_height win <= 2 ^ 29 /\ (w_draw win = NOTE_CB -> roomy win).

Section Pictures.
Context (font : gui_font) (F : font_ok font) (fb : framebuffer).

Lemma over_rounded t x y w h r c : over fb t -> 0 <= x -> 0 <= y -> size_ok w h r -> paints fb (fb_fill_rounded_rect x y w h r c t).
Proof. intros H Hx Hy Hs. eapply paints_stays; [exact H|]. intros O. by apply fill_rounded_stays. Qed.
Lemma over_outline t x y w h r c : over fb t -> 0 <= x -> 0 <= y -> size_ok w h r -> paints fb (fb_draw_rounded_rect x y w h r c t).
Proof. intros H Hx Hy Hs. eapply paints_stays; [exact H|]. intros O. by apply draw_rounded_stays. Qed.
Lemma over_disc t x y r c : over fb t -> 0 <= r <= 2 ^ 28 -> paints fb (fb_fill_circle x y r c t).
Proof. intros H Hr. eapply paints_stays; [exact H|]. intros O. by apply fill_circle_stays. Qed.
Lemma over_circle t x y r c : over fb t -> 0 <= r <= 2 ^ 28 -> paints fb (fb_draw_circle x y r c t).
Proof. intros H Hr. eapply paints_stays; [exact H|]. intros O. by apply draw_circle_stays. Qed.

Lemma draw_btn_over t bx by_ bg glyph : over fb t -> paints fb (draw_btn font bx by_ bg glyph t).
Proof.
  intros H. unfold draw_btn. apply paints_bind; [apply over_rounded; auto with aios; unfold size_ok, BTN_W, BTN_H; lia|]. intros u Hu.
  apply paints_some. by apply over_line; auto with aios.
Qed.

Lemma frame_over t win title : over fb t -> frame_ok win -> paints fb (wm_draw_window_frame win title font t).
Proof.
  intros H (Hw & Hh & _). unfold wm_draw_window_frame. destruct (negb _); [by apply paints_some|]. cbv zeta.
  destruct (Z.ltb_spec (w_width win) 60); [by apply paints_some|]. unfold TITLE_BAR_H. destruct (Z.ltb_spec (w_height win) (20 + 4)); [by apply paints_some|].
  cbn [orb]. apply paints_bind; [apply over_outline; auto with aios; unfold size_ok, WIN_RADIUS; lia|]. intros t1 Ht1.
  match goal with |- paints fb (_ ← draw_btn _ _ _ _ _ ?u; _) => assert (over fb u) as H2 end.
  { assert (forall u, over fb u -> over fb (match title with
        | Some ti => if 0 <? title_max_w (w_width win) then font_draw_string_centered font (u32 (u32 (w_x win) + 4)) (u32 (u32 (w_y win) + 2))
              (title_max_w (w_width win)) ti UI_COLOR_TEXT_FG (if is_active win then UI_COLOR_WINDOW_TITLE_ACTIVE_BG else UI_COLOR_WINDOW_TITLE_INACTIVE_BG) u else u
        | None => u end)) as Ht.
    { intros u Hu. destruct title; [|done]. destruct (0 <? _); [|done]. by apply over_label; auto with aios. }
    apply Ht. apply over_fill; auto with aios; [|unfold len_ok; lia..]. apply over_fill; auto with aios; unfold len_ok; lia. }
  do 3 (apply paints_bind; [by apply draw_btn_over | intros ? ?]). apply paints_some. apply over_fill; auto with aios; unfold len_ok, BORDER_W; lia.
Qed.

Lemma cursor_over t cx cy : over fb t -> over fb (wm_draw_cursor cx cy t).
Proof. intros H. apply over_loop; [done|]. intros r u _ Hu. apply over_loop; [done|]. intros c v _ Hv. apply over_pixel; auto with aios. Qed.

Lemma icons_over sel : forall faces i t, over fb t -> paints fb (draw_icons font i faces sel t).
Proof.
  induction faces as [|[[label glyph] bg] faces IH]; intros i t H; cbn [draw_icons]; [by apply paints_some|].
  apply paints_bind; [|intros u Hu; by apply IH]. unfold draw_icon.
  assert (size_ok ICON_SIZE ICON_SIZE ICON_RADIUS) as Hsz by (unfold size_ok, ICON_SIZE, ICON_RADIUS; lia). assert (0 <= ICON_MARGIN_X) as Hmx by (unfold ICON_MARGIN_X; lia).
  apply paints_bind; [apply over_rounded; auto with aios|]. intros t1 H1. apply paints_bind; [apply over_outline; auto with aios|]. intros t2 H2.
  apply paints_some. apply over_label; auto with aios. apply over_line; auto with aios.
Qed.

Lemma desktop_over sel t : over fb t -> width fb <= 2 ^ 31 -> paints fb (desktop_draw font sel t).
Proof.
  intros H Hw. unfold desktop_draw. apply paints_bind; [apply icons_over, over_loop; [by apply over_clear|]|].
  - intros j u Hj Hu. pose proof Hu as [[E _] O]. destruct (same_fb_eq _ _ E) as (Ew & _). pose proof (fk_width _ O).
    apply over_fill; [done | lia | lia | unfold len_ok; rewrite ?Ew; lia | unfold len_ok; lia].
  - intros t1 H1. apply paints_some. apply over_label; auto with aios. lia.
Qed.

Lemma orb_over t cx cy b : over fb t -> paints fb (draw_start_orb cx cy b t).
Proof.
  intros H. unfold draw_start_orb, ORB_RADIUS. apply paints_bind; [apply over_disc; [done | lia]|]. intros t1 H1.
  apply paints_bind; [apply over_circle; [done | lia]|]. intros t2 H2. apply over_circle; [done | lia].
Qed.

Lemma task_button_over t x y ty win : over fb t -> 0 <= x -> 0 <= ty -> over fb (draw_task_button font x y ty win t).
Proof.
  intros H Hx Hty. unfold draw_task_button. cbv zeta. unfold TASKBAR_BTN_W, TASKBAR_HEIGHT, TASKBAR_PADDING.
  apply over_label; [done | | done | done]. apply over_box; auto with aios; [|unfold len_ok; lia..]. apply over_fill; auto with aios; unfold len_ok; lia.
Qed.

Lemma task_buttons_over fuel f y ty : 0 <= ty -> forall cur l nxt x t, dseg f 0 cur l nxt -> (length l <= fuel)%nat -> over fb t -> 0 <= x ->
  paints fb (draw_task_buttons fuel font f (List.last l 0) x y ty t).
Proof.
  intros Hty cur l. revert fuel cur. induction l as [|p l IH] using rev_ind; intros fuel cur nxt x t D Hl H Hx.
  { destruct fuel; by apply paints_some. }
  apply dseg_app in D as (mid & D1 & <- & Hp & Hprev & D2). rewrite length_app in Hl. cbn [length] in Hl. destruct fuel as [|fuel]; [lia|].
  rewrite last_last. cbn [draw_task_buttons]. rewrite (proj2 (Z.eqb_neq p 0)), Hprev by done.
  destruct (hidden (f p)); [by eapply IH; [exact D1 | lia|..]|]. eapply IH; [exact D1 | lia | by apply task_button_over | auto with aios].
Qed.

Lemma items_over {A V} (s : gui A (app_state V)) : forall labels i t, over fb t -> over fb (draw_items font i labels s t).
Proof.
  induction labels as [|label labels IH]; intros i t H; cbn [draw_items]; [done|]. apply IH. unfold draw_item, g_menu_x, TASKBAR_PADDING, START_MENU_PAD, START_MENU_W, START_MENU_ITEM_H.
  apply over_line; [done | | lia | auto with aios]. apply over_fill; auto with aios; unfold len_ok; lia.
Qed.
End Pictures.

Section Redraw.
Context {A : Type} {AL : Allocator A} {AS : AllocatorSpec A} {V : Type} {FS : FileSys V} {FSS : FileSysSpec V}.
Implicit Type s : gui A (app_state V).

Lemma windows_over font fb s : font_ok font -> apps_ok (apps s) -> forall order t, over fb t -> (forall p, p ∈ order -> frame_ok (wins (wnd s) p)) ->
  paints fb (paint_windows font order s t).
Proof.
  intros F X. induction order as [|p order IH]; intros t H Hp; cbn [paint_windows]; [by apply paints_some|]. cbv zeta.
  assert (frame_ok (wins (wnd s) p)) as Fp by (apply Hp, elem_of_cons; by left).
  apply paints_bind; [by apply frame_over|]. intros t1 H1. apply paints_bind.
  - destruct (_ =? 0); [by apply paints_some|]. eapply paints_stays; [exact H1|]. intros O. apply draw_app_stays; [done | done | apply Fp].
  - intros t2 H2. apply IH; [done|]. intros q Hq. apply Hp, elem_of_cons. by right.
Qed.

Lemma taskbar_over fuel font ticks s l fb t : font_ok font -> win_inv (wnd s) l -> (length l <= fuel)%nat -> 0 <= bar_w s <= 2 ^ 31 -> over fb t ->
  paints fb (taskbar_draw fuel font ticks s t).
Proof.
  intros F I Hf Hw H. pose proof (wi_order _ _ I) as [D _ _]. unfold taskbar_draw. cbv zeta. apply paints_bind.
  { apply orb_over. apply over_fill; unfold bar_y, len_ok; auto with aios; try lia. apply over_fill; unfold bar_y, len_ok, TASKBAR_HEIGHT; auto with aios; lia. }
  intros t1 H1. unfold gui_window_list_head. rewrite (last_window_ok fuel _ _ _ _ D Hf). cbn [mbind option_bind].
  apply paints_bind; [eapply task_buttons_over; [done | auto with aios | exact D | done | done | unfold ORB_MARGIN_L, ORB_RADIUS, TASKBAR_PADDING; lia]|].
  intros t2 H2. apply paints_some, over_label; auto with aios.
Qed.

Lemma start_menu_over font s fb t : font_ok font -> height t <= 2 ^ 31 -> over fb t -> over fb (snd (start_menu_draw font s t)).
Proof.
  intros F Hh H. unfold start_menu_draw. destruct (negb _); [done|]. cbv zeta. cbn [snd]. apply items_over; [done|].
  set (s1 := recalc_geometry (height t) s). assert (0 <= g_menu_y (menu s1) /\ g_menu_h (menu s1) = 166) as [Hy E].
  { subst s1. unfold recalc_geometry, with_menu. cbn [menu g_menu_y g_menu_h]. unfold START_MENU_PAD, START_MENU_ITEM_H, TASKBAR_HEIGHT. change item_count with 5.
    destruct (Z.ltb_spec (40 + (8 * 2 + 5 * 30)) (height t)); lia. }
  rewrite E. unfold g_menu_x, TASKBAR_PADDING, START_MENU_W.
  apply over_box; unfold len_ok; try lia. apply over_fill; unfold len_ok; try lia. done.
Qed.

(** C28: a redraw of the whole desktop returns and writes nothing but pixels
    of the screen, wherever the windows have been moved to, as long as no
    text editor has been made too low for its lines. *)
Theorem redraw_stays_on_screen fuel g_ticks ms s l fb :
  gui_ok s l -> fb_ok fb -> (length l <= fuel)%nat -> bar_w s = width fb ->
  (forall p, p ∈ l -> frame_ok (wins (wnd s) p)) ->
  exists s' fb', wm_paint fuel font_load_builtin g_ticks ms s fb = Some (s', fb') /\ stays fb fb' /\ wnd s' = wnd s /\ apps s' = apps s /\ dirty (wm s') = false.
Proof.
  intros G O Hf Hb Hfr. pose proof (fk_small _ O) as Hs. pose proof (fk_width _ O) as Hw. unfold wm_paint.
  destruct (desktop_over font_load_builtin builtin_font_ok fb (g_selected (desk s)) fb (over_refl fb O)) as (t0 & -> & H0); [lia|]. cbn [mbind option_bind].
  rewrite (redraw_ok fuel s l G Hf). cbn [mbind option_bind]. set (s1 := set_dirty false s).
  destruct (windows_over font_load_builtin fb s1 builtin_font_ok (go_apps _ _ G) (filter (fun p => visible (wins (wnd s) p) = true) (rev l)) t0 H0) as (t1 & -> & H1).
  { intros p Hp. apply list_elem_of_filter in Hp as [_ Hp]. apply Hfr. by apply list_elem_of_In, in_rev, list_elem_of_In. }
  cbn [mbind option_bind].
  destruct (taskbar_over fuel font_load_builtin g_ticks s1 l fb t1 builtin_font_ok (go_inv _ _ G) Hf) as (t2 & -> & H2); [change (bar_w s1) with (bar_w s); lia | done|].
  cbn [mbind option_bind]. destruct (start_menu_is_open s1) eqn:Eo.
  - pose proof H2 as [[E2 _] _]. destruct (same_fb_eq _ _ E2) as (_ & Eh & _).
    pose proof (start_menu_over font_load_builtin s1 fb t2 builtin_font_ok ltac:(lia) H2) as H3. destruct (start_menu_draw font_load_builtin s1 t2) as [s2 t3] eqn:E.
    cbn [snd] in H3. eexists _, _. split; [done|]. split; [apply cursor_over; exact H3|].
    apply (f_equal fst) in E. cbn [fst] in E. rewrite <- E. unfold start_menu_draw. by destruct (negb _).
  - eexists _, _. split; [done|]. split; [apply cursor_over; exact H2 | done].
Qed.
End Redraw.

(** ** The clock *)

(** Reading a number back. *)
Definition parse_dec (l : list Z) : Z := fold_left (fun a c => 10 * a + (c - 48)) l 0.
Definition digit (c : Z) : Prop := 48 <= c <= 57.

Lemma parse_snoc l c : parse_dec (l ++ [c]) = 10 * parse_dec l + (c - 48).
Proof. unfold parse_dec. by rewrite fold_left_app. Qed.

Lemma dec_digits_ok room : forall v, 0 <= v < 10 ^ Z.of_nat room ->
  Forall digit (dec_digits room v) /\ parse_dec (rev (dec_digits room v)) = v /\ (0 < v -> dec_digits room v <> []) /\
  (forall k, v < 10 ^ Z.of_nat k -> (length (dec_digits room v) <= k)%nat).
Proof.
  induction room as [|room IH]; intros v Hv; cbn [dec_digits].
  { change (10 ^ Z.of_nat 0) with 1 in Hv. split; [constructor|]. split; [cbn; lia|]. split; [lia | cbn; lia]. }
  destruct (Z.eqb_spec v 0) as [->|Hne]; [split; [constructor|]; split; [done|]; split; [lia | cbn; lia]|].
  rewrite Nat2Z.inj_succ, Z.pow_succ_r in Hv by lia. destruct (IH (v / 10)) as (H1 & H2 & _ & H4).
  { split; [apply Z.div_pos; lia | apply Z.div_lt_upper_bound; lia]. }
  pose proof (Z.mod_pos_bound v 10 ltac:(lia)). split; [constructor; [unfold digit; lia | done]|]. split; [|split; [done|]].
  - cbn [rev]. rewrite parse_snoc, H2. pose proof (Z.div_mod v 10). lia.
  - intros [|k] Hk; [change (10 ^ Z.of_nat 0) with 1 in Hk; lia|]. cbn [length]. apply le_n_S, H4.
    rewrite Nat2Z.inj_succ, Z.pow_succ_r in Hk by lia. apply Z.div_lt_upper_bound; lia.
Qed.

(** What a buffer with room shows of a number. *)
Lemma to_dec_ok v buflen k : 0 <= v < 10 ^ Z.of_nat k -> (1 <= k <= 23)%nat -> Z.of_nat k < buflen ->
  Forall digit (u64_to_dec v buflen) /\ parse_dec (u64_to_dec v buflen) = v /\ (1 <= length (u64_to_dec v buflen) <= k)%nat.
Proof.
  intros Hv Hk Hb. unfold u64_to_dec. rewrite (proj2 (Z.ltb_ge _ _)) by lia. cbv zeta. destruct (Z.eqb_spec v 0) as [->|Hne].
  { rewrite firstn_all2 by (cbn; lia). split; [by repeat constructor|]. split; [done | cbn; lia]. }
  destruct (dec_digits_ok 23 v) as (H1 & H2 & H3 & H4).
  { split; [lia|]. apply (Z.lt_le_trans _ (10 ^ Z.of_nat k)); [lia | apply Z.pow_le_mono_r; lia]. }
  specialize (H3 ltac:(lia)). specialize (H4 k ltac:(lia)). rewrite firstn_all2 by (rewrite length_rev; lia).
  split; [by apply Forall_rev|]. split; [done|]. rewrite length_rev. destruct (dec_digits 23 v); [done | cbn in *; lia].
Qed.

Lemma put_all buflen l : forall buf, Z.of_nat (length buf + length l) <= buflen - 1 -> fold_left (put_if_room buflen) l buf = buf ++ l.
Proof.
  induction l as [|c l IH]; intros buf H; cbn [fold_left length] in *; [by rewrite app_nil_r|].
  unfold put_if_room at 2. rewrite (proj2 (Z.ltb_lt _ _)) by lia. rewrite IH by (rewrite length_app; cbn [length]; lia). by rewrite <- app_assoc.
Qed.

(** The clock shows the minutes since the start in decimal, a colon and
    the seconds with two digits, for as long as the minutes have at most
    twelve digits. *)
Theorem uptime_shown_correct g_ticks : 0 <= g_ticks < 60000 * 10 ^ 12 ->
  exists mm ss, format_uptime 16 g_ticks = mm ++ [58] ++ ss /\ Forall digit mm /\ Forall digit ss /\ mm <> [] /\ length ss = 2%nat /\
    parse_dec mm = g_ticks / 60000 /\ parse_dec ss = g_ticks / 1000 mod 60.
Proof.
  intros Ht. unfold format_uptime. cbv zeta. rewrite Z.div_div by lia. change (1000 * 60) with 60000.
  assert (0 <= g_ticks / 60000 < 10 ^ Z.of_nat 12) as Hm by (split; [apply Z.div_pos; lia | apply Z.div_lt_upper_bound; lia]).
  destruct (to_dec_ok (g_ticks / 60000) 16 12 Hm) as (M1 & M2 & M3); [lia | lia|]. set (mm := u64_to_dec (g_ticks / 60000) 16) in *.
  set (s := g_ticks / 1000 mod 60). assert (0 <= s < 60) as Hs by (apply Z.mod_pos_bound; lia).
  rewrite (put_all 16 mm []) by (cbn [length]; lia). cbn [Datatypes.app].
  assert (forall buf c, (length buf < 15)%nat -> put_if_room 16 buf c = buf ++ [c]) as Hp.
  { intros buf c Hb. unfold put_if_room. by rewrite (proj2 (Z.ltb_lt _ _)) by lia. }
  rewrite (Hp mm 58) by lia. destruct (Z.ltb_spec s 10).
  - destruct (to_dec_ok s 8 1) as (S1 & S2 & S3); [cbn; lia | lia | lia|]. set (ss := u64_to_dec s 8) in *.
    rewrite Hp by (rewrite length_app; cbn [length]; lia). rewrite put_all by (rewrite !length_app; cbn [length]; lia).
    exists mm, (48 :: ss). split; [by rewrite <- !app_assoc|]. split; [done|]. split; [constructor; [unfold digit; lia | done]|].
    split; [intros ->; cbn in M3; lia|]. split; [cbn [length]; lia|]. split; [done|]. exact S2.
  - destruct (to_dec_ok s 8 2) as (S1 & S2 & S3); [cbn; lia | lia | lia|]. set (ss := u64_to_dec s 8) in *.
    rewrite put_all by (rewrite !length_app; cbn [length]; lia). exists mm, ss. split; [by rewrite <- !app_assoc|].
    split; [done|]. split; [done|]. split; [intros ->; cbn in M3; lia|]. split; [|done].
    destruct ss as [|a [|b [|c r]]]; cbn [length] in *; try lia. exfalso. apply Forall_inv in S1. unfold digit in S1.
    unfold parse_dec in S2. cbn in S2. lia.
Qed.

(** ** Examples *)

(** The desktop of WmSpec.v's example, with its terminal's window. *)
Definition demo_desktop : gui heap (app_state table) :=
  mk_gui_sys (snd demo_created) (fresh_apps demo_files) 1024 768 (mk_menu true 0 0) (mk_desk NO_ICON (fun _ => 0) NO_ICON)
    (mk_wm DRAG_NONE 0 0 0 0 0 0 0 true) (mk_rect 0 0 0 0).

Lemma demo_desktop_ok : gui_ok demo_desktop [demo_win].
Proof. destruct demo_created_ok as (_ & I & F & _). constructor; [exact I | exact F | by left | apply fresh_apps_ok]. Qed.

Lemma redraw_stays_on_screen_witness : exists s' fb',
  wm_paint 1 font_load_builtin 61000 (mk_ms 1020 760 0) demo_desktop demo_fb = Some (s', fb') /\ stays demo_fb fb'.
Proof.
  destruct (redraw_stays_on_screen 1 61000 (mk_ms 1020 760 0) demo_desktop [demo_win] demo_fb demo_desktop_ok demo_fb_ok) as (s' & fb' & E & S & _).
  - cbn. lia.
  - reflexivity.
  - intros p [->|Hp]%elem_of_cons; [|by apply not_elem_of_nil in Hp]. destruct demo_created_ok as (_ & _ & _ & E & _).
    change (wnd demo_desktop) with (snd demo_created). unfold same_window in E. rewrite E. unfold frame_ok. cbn. split; [lia|]. split; [lia | discriminate].
  - exists s', fb'. split; [exact E | exact S].
Defined.

Lemma uptime_shown_correct_witness : exists mm ss, format_uptime 16 754321 = mm ++ [58] ++ ss /\ parse_dec mm = 12 /\ parse_dec ss = 34.
Proof.
  destruct (uptime_shown_correct 754321) as (mm & ss & E & _ & _ & _ & _ & Hm & Hs).
  - lia.
  - exists mm, ss. split; [exact E|]. split; [exact Hm | exact Hs].
Defined.
