(* ===== verification/Ports.v ===== *)
(** Port input and output as the drivers use it: the instructions in, out on
    bytes, words and double words, as operations of the world outside the
    program, and a world that only keeps a log. *)

From S2P Require Import Prelude.
Local Open Scope Z_scope.

Class Ports (W : Type) := {
  outb : Z -> Z -> W -> W;
  outw : Z -> Z -> W -> W;
  outl : Z -> Z -> W -> W;
  inb : Z -> W -> Z * W;
  inl : Z -> W -> Z * W;
}.

(** The writes, latest first; every port reads as zero. *)
Definition port_log := list (Z * Z).
#[export] Instance port_log_ports : Ports port_log := {
  outb p v w := (p, v) :: w; outw p v w := (p, v) :: w; outl p v w := (p, v) :: w;
  inb _ w := (0, w); inl _ w := (0, w);
}.

(** ** Single bits of a device register *)

Lemma land_bit_spec x k : 0 <= k -> Z.land x (2 ^ k) = if Z.testbit x k then 2 ^ k else 0.
Proof.
  intros Hk. apply Z.bits_inj'. intros i Hi. rewrite Z.land_spec, Z.pow2_bits_eqb by lia.
  destruct (Z.eqb_spec k i) as [->|N].
  - rewrite andb_true_r. destruct (Z.testbit x i); [by rewrite Z.pow2_bits_true | by rewrite Z.bits_0].
  - rewrite andb_false_r. destruct (Z.testbit x k); [by rewrite Z.pow2_bits_false | by rewrite Z.bits_0].
Qed.

Lemma land_bit x k : 0 <= k -> (Z.land x (2 ^ k) =? 0) = negb (Z.testbit x k).
Proof.
  intros Hk. rewrite land_bit_spec by done. destruct (Z.testbit x k); [|done]. apply Z.eqb_neq.
  pose proof (Z.pow_pos_nonneg 2 k ltac:(lia) Hk). lia.
Qed.
