(* ===== verification/Vga.v ===== *)
(** The text screen (kernel/vga.c): 80 by 25 cells in the memory of the
    display adapter, the cursor, scrolling, and the printing of strings and
    numbers.  A cell is the 16-bit word at its address.

    What the text screen shows: the screen is a window of 25 rows over an
    endless roll of paper, printing writes on the roll, and scrolling by copying
    moves the window; the hardware cursor stands where the next character goes;
    numbers are printed as their numerals. *)

From S2P Require Import Prelude Ports.
Local Open Scope Z_scope.

Definition VGA_MEMORY : Z := 0xB8000.
Definition VGA_REG_CTRL : Z := 0x3D4.
Definition VGA_REG_DATA : Z := 0x3D5.
Definition VGA_WIDTH : Z := 80.
Definition VGA_HEIGHT : Z := 25.
Definition VGA_COLOR_BLACK : Z := 0.
Definition VGA_COLOR_RED : Z := 4.
Definition VGA_COLOR_BROWN : Z := 6.
Definition VGA_COLOR_LIGHT_GREY : Z := 7.
Definition VGA_COLOR_LIGHT_GREEN : Z := 10.
Definition VGA_COLOR_LIGHT_CYAN : Z := 11.
Definition VGA_COLOR_LIGHT_RED : Z := 12.
Definition VGA_COLOR_WHITE : Z := 15.

Section Vga.
Context {W : Type} `{Ports W}.

(** The statics, the words of memory by their addresses, and the ports. *)
Record vga := mk_vga { col : Z; row : Z; color : Z; vga_buf : Z; cells : Z -> Z; ports : W }.

Definition set_cursor (c r : Z) (v : vga) : vga := mk_vga c r (color v) (vga_buf v) (cells v) (ports v).
Definition set_color (k : Z) (v : vga) : vga := mk_vga (col v) (row v) k (vga_buf v) (cells v) (ports v).
Definition set_cells (t : Z -> Z) (v : vga) : vga := mk_vga (col v) (row v) (color v) (vga_buf v) t (ports v).
Definition set_ports (w : W) (v : vga) : vga := mk_vga (col v) (row v) (color v) (vga_buf v) (cells v) w.

Definition vga_entry (c col_attr : Z) : Z := Z.lor c (Z.shiftl col_attr 8).
Definition vga_color (fg bg : Z) : Z := Z.lor (Z.land fg 0x0F) (u8 (Z.shiftl (Z.land bg 0x0F) 4)).

(** [vga_buf[i]] of the words [t]. *)
Definition cell (b i : Z) (t : Z -> Z) : Z := t (u64 (b + 2 * i)).
Definition put_cell (b i e : Z) (t : Z -> Z) : Z -> Z := upd t (u64 (b + 2 * i)) e.

Definition hw_cursor_update (v : vga) : vga :=
  let pos := u16 (row v * VGA_WIDTH + col v) in
  let w := outb VGA_REG_DATA (u8 (Z.land pos 0xFF)) (outb VGA_REG_CTRL 0x0F (ports v)) in
  set_ports (outb VGA_REG_DATA (u8 (Z.land (Z.shiftr pos 8) 0xFF)) (outb VGA_REG_CTRL 0x0E w)) v.

Definition hw_cursor_enable (v : vga) : vga :=
  let w := outb VGA_REG_CTRL 0x0A (ports v) in
  let '(x, w) := inb VGA_REG_DATA w in
  let w := outb VGA_REG_DATA (u8 (Z.lor (Z.land x 0xC0) 0x0D)) w in
  let w := outb VGA_REG_CTRL 0x0B w in
  let '(x, w) := inb VGA_REG_DATA w in
  set_ports (outb VGA_REG_DATA (u8 (Z.lor (Z.land x 0xE0) 0x0F)) w) v.

Definition scroll (v : vga) : vga :=
  let b := vga_buf v in
  let t := for_up (Z.to_nat (VGA_HEIGHT - 1)) 1 (fun r t =>
    for_up (Z.to_nat VGA_WIDTH) 0 (fun c t => put_cell b ((r - 1) * VGA_WIDTH + c) (cell b (r * VGA_WIDTH + c) t) t) t) (cells v) in
  let t := for_up (Z.to_nat VGA_WIDTH) 0 (fun c t => put_cell b ((VGA_HEIGHT - 1) * VGA_WIDTH + c) (vga_entry 32 (color v)) t) t in
  set_cursor (col v) (VGA_HEIGHT - 1) (set_cells t v).

(** Every cell a space in the current colour. *)
Definition blank (v : vga) : vga :=
  set_cells (for_up (Z.to_nat (VGA_WIDTH * VGA_HEIGHT)) 0 (fun i t => put_cell (vga_buf v) i (vga_entry 32 (color v)) t) (cells v)) v.

Definition vga_init (v : vga) : vga :=
  let v := mk_vga 0 0 (vga_color VGA_COLOR_LIGHT_GREY VGA_COLOR_BLACK) VGA_MEMORY (cells v) (ports v) in
  hw_cursor_update (hw_cursor_enable (blank v)).

Definition vga_clear (v : vga) : vga := hw_cursor_update (set_cursor 0 0 (blank v)).

Definition vga_set_color (fg bg : Z) (v : vga) : vga := set_color (vga_color fg bg) v.

Definition vga_set_cursor_pos (c r : Z) (v : vga) : vga := hw_cursor_update (set_cursor c r v).

(** [if (++row >= VGA_HEIGHT) scroll();]. *)
Definition next_row (v : vga) : vga :=
  let v := set_cursor (col v) (u64 (row v + 1)) v in
  if VGA_HEIGHT <=? row v then scroll v else v.

(** [if (col >= VGA_WIDTH) { col = 0; ... }]. *)
Definition wrap_col (v : vga) : vga := if VGA_WIDTH <=? col v then next_row (set_cursor 0 (row v) v) else v.

(** [vga_buf[row * VGA_WIDTH + col] = e]. *)
Definition put_here (e : Z) (v : vga) : vga := set_cells (put_cell (vga_buf v) (u64 (row v * VGA_WIDTH + col v)) e (cells v)) v.

Definition vga_putchar (c : Z) (v : vga) : vga :=
  hw_cursor_update
    (if c =? 10 then next_row (set_cursor 0 (row v) v)
     else if c =? 13 then set_cursor 0 (row v) v
     else if c =? 9 then wrap_col (set_cursor (Z.land (u64 (col v + 8)) 0xFFFFFFF8) (row v) v)
     else if c =? 8 then
       let v := if 0 <? col v then set_cursor (col v - 1) (row v) v
                else if 0 <? row v then set_cursor (VGA_WIDTH - 1) (row v - 1) v else v in
       put_here (vga_entry 32 (color v)) v
     else
       let v := put_here (vga_entry c (color v)) v in
       wrap_col (set_cursor (u64 (col v + 1)) (row v) v)).

Definition vga_backspace (v : vga) : vga := vga_putchar 8 v.

(** A string is the list of its characters. *)
Definition vga_puts (s : list Z) (v : vga) : vga := fold_left (fun v c => vga_putchar c v) s v.

Definition vga_puts_color (s : list Z) (fg bg : Z) (v : vga) : vga :=
  let saved := color v in set_color saved (vga_puts s (set_color (vga_color fg bg) v)).

(** ** Numbers *)

Definition hex : list Z := bytes_of "0123456789ABCDEF".
Definition hex_digit (x : Z) : Z := nth (Z.to_nat (Z.land x 0xF)) hex 0.

(** The 16 digits, highest first. *)
Definition hex_digits (val : Z) : list Z := map (fun k => hex_digit (Z.shiftr val (60 - 4 * k))) (seqZ 0 16).

Definition vga_puthex (val : Z) (v : vga) : vga :=
  for_up 16 0 (fun k v => vga_putchar (hex_digit (Z.shiftr val (60 - 4 * k))) v) (vga_puts (bytes_of "0x") v).

(** The digits as they are put into [buf], lowest first: at most 20 for 64
    bits. *)
Fixpoint digits (fuel : nat) (val : Z) : list Z :=
  match fuel with
  | O => []
  | S fuel' => if 0 <? val then (48 + val mod 10) :: digits fuel' (val / 10) else []
  end.

Definition vga_putdec (val : Z) (v : vga) : vga :=
  if val =? 0 then vga_putchar 48 v else vga_puts (rev (digits 20 val)) v.
End Vga.
Arguments vga W : clear implicits.

(** * Specification *)

(** ** The specification: a roll of rows of 80 cells *)

Record roll := mk_roll { r_top : Z; r_pos : Z; r_cell : Z -> Z }.

(** The place of the next character moves to [p]; a new row at the bottom
    comes in blank. *)
Definition feed (color p : Z) (r : roll) : roll :=
  if p / 80 <? r_top r + 25 then mk_roll (r_top r) p (r_cell r)
  else mk_roll (r_top r + 1) p (fill (r_cell r) (p / 80 * 80) 80 (vga_entry 32 color)).

Definition roll_putchar (color c : Z) (r : roll) : roll :=
  let p := r_pos r in
  if c =? 10 then feed color ((p / 80 + 1) * 80) r
  else if c =? 13 then mk_roll (r_top r) (p / 80 * 80) (r_cell r)
  else if c =? 9 then feed color ((p / 8 + 1) * 8) r
  else if c =? 8 then
    let p := if r_top r * 80 <? p then p - 1 else p in
    mk_roll (r_top r) p (upd (r_cell r) p (vga_entry 32 color))
  else feed color (p + 1) (mk_roll (r_top r) p (upd (r_cell r) p (vga_entry c color))).

Definition roll_puts (color : Z) (s : list Z) (r : roll) : roll := fold_left (fun r c => roll_putchar color c r) s r.

(** The adapter's cursor registers behind the two ports. *)
Class Crtc (W : Type) `{Ports W} := {
  crtc : W -> Z -> Z;
  crtc_write i v w j : 0 <= i < 256 -> 0 <= v < 256 -> crtc (outb VGA_REG_DATA v (outb VGA_REG_CTRL i w)) j = if j =? i then v else crtc w j;
}.

Section Spec.
Context {W : Type} `{Crtc W}.
Implicit Type v : vga W.

(** The words [t] show [f] on the screen and are those of [t0] elsewhere. *)
Definition window (t0 t : Z -> Z) (f : Z -> Z) : Prop :=
  (forall i, 0 <= i < 2000 -> t (VGA_MEMORY + 2 * i) = f i) /\
  forall a, (forall i, 0 <= i < 2000 -> a <> VGA_MEMORY + 2 * i) -> t a = t0 a.

Record shows (t0 : Z -> Z) v (r : roll) : Prop := {
  sh_buf : vga_buf v = VGA_MEMORY;
  sh_col : 0 <= col v < 80;
  sh_row : 0 <= row v < 25;
  sh_pos : r_pos r = (r_top r + row v) * 80 + col v;
  sh_top : 0 <= r_top r;
  sh_cells : window t0 (cells v) (fun i => r_cell r (r_top r * 80 + i));
}.

Definition cursor_shown v : Prop := crtc (ports v) 0x0F + 256 * crtc (ports v) 0x0E = row v * 80 + col v.

(** ** The cells *)

Lemma cell_addr i : 0 <= i < 2000 -> u64 (VGA_MEMORY + 2 * i) = VGA_MEMORY + 2 * i.
Proof. intros Hi. apply u64_small. unfold VGA_MEMORY. lia. Qed.

Lemma window_ext t0 t f g : window t0 t f -> (forall i, 0 <= i < 2000 -> f i = g i) -> window t0 t g.
Proof. intros [H1 H2] E. split; [|done]. intros i Hi. by rewrite H1, E. Qed.

Lemma window_put t0 t f i e : window t0 t f -> 0 <= i < 2000 -> window t0 (put_cell VGA_MEMORY i e t) (upd f i e).
Proof.
  intros [H1 H2] Hi. unfold put_cell. rewrite cell_addr by done. split.
  - intros j Hj. destruct (decide (j = i)) as [->|N]; [by rewrite !upd_eq|]. rewrite !upd_ne by lia. by apply H1.
  - intros a Ha. rewrite upd_ne by (intros E; by apply (Ha i)). by apply H2.
Qed.

Lemma window_cell t0 t f i : window t0 t f -> 0 <= i < 2000 -> cell VGA_MEMORY i t = f i.
Proof. intros [H1 _] Hi. unfold cell. rewrite cell_addr by done. by apply H1. Qed.

Lemma window_fill t0 t f k n e : window t0 t f -> 0 <= k -> k + Z.of_nat n <= 2000 ->
  window t0 (for_up n 0 (fun c t => put_cell VGA_MEMORY (k + c) e t) t) (fill f k (Z.of_nat n) e).
Proof.
  intros Hw Hk Hn. refine (for_up_inv (fun j t => window t0 t (fill f k j e)) n 0 _ t _ _).
  - apply (window_ext _ _ f); [done|]. intros j Hj. unfold fill. by repeat zcase; try lia.
  - intros c u Hc Hu. apply (window_ext _ _ (upd (fill f k c e) (k + c) e)); [apply window_put; [done | lia]|].
    intros j Hj. unfold upd, fill. by repeat zcase; try lia.
Qed.

(** Copying row by row moves every row up by one. *)
Lemma window_scroll t0 v f : vga_buf v = VGA_MEMORY -> window t0 (cells v) f ->
  window t0 (cells (scroll v)) (fun i => if i <? 1920 then f (i + 80) else vga_entry 32 (color v)).
Proof.
  intros Hb Hw. unfold scroll. rewrite Hb. cbn [cells set_cursor set_cells].
  change (Z.to_nat (VGA_HEIGHT - 1)) with 24%nat. change (Z.to_nat VGA_WIDTH) with 80%nat. unfold VGA_WIDTH, VGA_HEIGHT.
  set (g := fun k i => if i <? k then f (i + 80) else f i).
  set (rows := for_up 24 1 _ (cells v)). assert (window t0 rows (g 1920)) as Hr.
  { refine (for_up_inv (fun r t => window t0 t (g ((r - 1) * 80))) 24 1 _ _ _ _).
    - apply (window_ext _ _ f); [done|]. intros i Hi. unfold g. by zcase; [lia|].
    - intros r t Hr Ht. change ((r + 1 - 1) * 80) with ((r + 1 - 1) * 80). replace ((r + 1 - 1) * 80) with ((r - 1) * 80 + (0 + Z.of_nat 80)) by lia.
      refine (for_up_inv (fun c t => window t0 t (g ((r - 1) * 80 + c))) 80 0 _ _ _ _); [by rewrite Z.add_0_r|].
      intros c u Hc Hu. set (i := (r - 1) * 80 + c) in *. apply (window_ext _ _ (upd (g i) i (f (i + 80)))).
      + replace (cell VGA_MEMORY (r * 80 + c) u) with (f (i + 80)); [apply window_put; [done | lia]|].
        rewrite (window_cell t0 u (g i)) by (done || lia). unfold g. zcase; [lia|]. f_equal. lia.
      + intros j Hj. unfold upd, g. by repeat zcase; try lia; subst. }
  apply (window_ext _ _ (fill (g 1920) 1920 80 (vga_entry 32 (color v)))).
  - exact (window_fill t0 rows (g 1920) 1920 80 _ Hr ltac:(lia) ltac:(lia)).
  - intros i Hi. unfold fill, g. by repeat zcase; try lia.
Qed.

(** ** The cursor *)

Lemma shows_index t0 v r : shows t0 v r -> u64 (row v * VGA_WIDTH + col v) = row v * 80 + col v.
Proof. intros [_ Hc Hr _ _ _]. unfold VGA_WIDTH. apply u64_small. lia. Qed.

Lemma put_here_ok t0 e v r : shows t0 v r -> shows t0 (put_here e v) (mk_roll (r_top r) (r_pos r) (upd (r_cell r) (r_pos r) e)).
Proof.
  intros S. pose proof (shows_index _ _ _ S) as E. destruct S as [Hb Hc Hr Hp Ht Hw]. split; cbn; try done. rewrite E, Hb.
  apply (window_ext _ _ (upd (fun i => r_cell r (r_top r * 80 + i)) (row v * 80 + col v) e)); [apply window_put; [done | lia]|].
  intros i Hi. rewrite !upd_spec. repeat case_decide; done || lia.
Qed.

Lemma move_ok t0 c' p v r : shows t0 v r -> 0 <= c' < 80 -> p = (r_top r + row v) * 80 + c' -> shows t0 (set_cursor c' (row v) v) (mk_roll (r_top r) p (r_cell r)).
Proof. intros [Hb Hc Hr Hp Ht Hw] Hc' ->. by split. Qed.

Lemma next_row_ok t0 v r : shows t0 v r -> shows t0 (next_row (set_cursor 0 (row v) v)) (feed (color v) ((r_pos r / 80 + 1) * 80) r).
Proof.
  intros [Hb Hc Hr Hp Ht Hw]. unfold next_row, feed. rewrite Z.div_mul by lia.
  assert (r_pos r / 80 = r_top r + row v) as -> by (rewrite Hp, Z.div_add_l, Z.div_small by lia; lia).
  cbn [col row set_cursor]. rewrite (u64_small (row v + 1)) by lia. unfold VGA_HEIGHT. destruct (Z.leb_spec 25 (row v + 1)), (Z.ltb_spec (r_top r + row v + 1) (r_top r + 25)); try lia.
  - assert (row v = 24) as E by lia. split; try done; cbn [vga_buf scroll set_cursor set_cells r_pos r_top r_cell col row]; try lia; unfold VGA_HEIGHT; try lia.
    refine (window_ext _ _ _ _ (window_scroll t0 (set_cursor 0 (row v + 1) v) _ Hb Hw) _). intros i Hi. cbn [color set_cursor]. unfold fill.
    repeat zcase; try lia; [f_equal; lia | done].
  - split; try done; cbn; lia.
Qed.

Lemma wrap_col_ok t0 c' v r : shows t0 v r -> col v < c' <= 80 ->
  shows t0 (wrap_col (set_cursor c' (row v) v)) (feed (color v) (r_pos r - col v + c') r).
Proof.
  intros S Hc'. pose proof S as [Hb Hc Hr Hp Ht Hw]. unfold wrap_col. cbn [col row set_cursor]. unfold VGA_WIDTH. zcase.
  - assert (c' = 80) as -> by lia. pose proof (next_row_ok t0 v r S) as N. replace ((r_pos r / 80 + 1) * 80) with (r_pos r - col v + 80) in N; [exact N|].
    rewrite Hp at 2. rewrite Z.div_add_l, Z.div_small by lia. lia.
  - unfold feed. replace ((r_pos r - col v + c') / 80) with (r_top r + row v) by (rewrite Hp; dlia).
    zcase; [|lia]. apply move_ok; [done | lia | lia].
Qed.

Lemma hw_cursor_ok t0 v r : shows t0 v r -> shows t0 (hw_cursor_update v) r /\ cursor_shown (hw_cursor_update v).
Proof.
  intros S. pose proof S as [Hb Hc Hr Hp Ht Hw]. split; [by split|]. unfold cursor_shown, hw_cursor_update. cbn [ports set_ports row col]. unfold VGA_WIDTH.
  rewrite (u16_small (row v * 80 + col v)) by lia. set (n := row v * 80 + col v). assert (0 <= n < 2000) as Hn by lia.
  change 0xFF with (2 ^ 8 - 1). rewrite !land_ones_mod, Z.shiftr_div_pow2 by lia. rewrite !u8_small by dlia.
  rewrite !crtc_write by dlia. cbn [Z.eqb Pos.eqb]. dlia.
Qed.

(** ** Printing *)

Lemma back_ok v : (0 <? col v) || (0 <? row v) = false -> 0 <= col v -> 0 <= row v -> col v = 0 /\ row v = 0.
Proof. rewrite orb_false_iff, !Z.ltb_ge. lia. Qed.

Lemma putchar_ok t0 c v r : shows t0 v r ->
  shows t0 (vga_putchar c v) (roll_putchar (color v) c r) /\ cursor_shown (vga_putchar c v).
Proof.
  intros S. pose proof S as [Hb Hc Hr Hp Ht Hw]. unfold vga_putchar, roll_putchar. apply hw_cursor_ok.
  destruct (c =? 10); [by apply next_row_ok|]. destruct (c =? 13); [apply move_ok; [done | lia | rewrite Hp; dlia]|].
  destruct (c =? 9).
  - assert (Z.land (u64 (col v + 8)) 0xFFFFFFF8 = (col v / 8 + 1) * 8) as ->.
    { rewrite u64_small by lia. change 0xFFFFFFF8 with (Z.lnot (2 ^ 3 - 1) mod 2 ^ 32). rewrite (land_align _ 3 32) by lia. dlia. }
    replace ((r_pos r / 8 + 1) * 8) with (r_pos r - col v + (col v / 8 + 1) * 8) by (rewrite Hp; dlia). apply wrap_col_ok; [done | dlia].
  - destruct (c =? 8).
    + set (p := if r_top r * 80 <? r_pos r then r_pos r - 1 else r_pos r).
      set (v' := if 0 <? col v then _ else _). assert (shows t0 v' (mk_roll (r_top r) p (r_cell r)) /\ color v' = color v) as [S' <-].
      { subst v' p. destruct (Z.ltb_spec 0 (col v)), (Z.ltb_spec (r_top r * 80) (r_pos r)); try lia.
        - split; [apply move_ok; [done | lia | lia] | done].
        - destruct (Z.ltb_spec 0 (row v)); [|lia]. unfold VGA_WIDTH. split; [|done]. split; cbn; done || lia.
        - destruct (Z.ltb_spec 0 (row v)); [lia|]. split; [by destruct r | done]. }
      apply (put_here_ok t0 _ v' _ S').
    + cbv zeta. set (v' := put_here _ v). change (col v') with (col v). rewrite (u64_small (col v + 1)) by lia.
      pose proof (wrap_col_ok t0 (col v + 1) _ _ (put_here_ok t0 (vga_entry c (color v)) v r S) ltac:(cbn; lia)) as Hp'. cbn [row col color put_here set_cells r_pos] in Hp'.
      replace (r_pos r - col v + (col v + 1)) with (r_pos r + 1) in Hp' by lia. exact Hp'.
Qed.

Lemma next_row_color v : color (next_row v) = color v.
Proof. unfold next_row. by destruct (VGA_HEIGHT <=? _). Qed.

Lemma putchar_color c v : color (vga_putchar c v) = color v.
Proof.
  unfold vga_putchar, wrap_col. cbn [color hw_cursor_update set_ports].
  destruct (c =? 10); [by rewrite next_row_color|]. destruct (c =? 13); [done|]. destruct (c =? 9); [destruct (VGA_WIDTH <=? _); by rewrite ?next_row_color|].
  destruct (c =? 8); [destruct (0 <? col v); [done | by destruct (0 <? row v)] | destruct (VGA_WIDTH <=? _); by rewrite ?next_row_color].
Qed.

Lemma puts_color s v : color (vga_puts s v) = color v.
Proof. revert v. induction s as [|c s IH]; intros v; [done|]. cbn [vga_puts fold_left]. etrans; [apply IH | apply putchar_color]. Qed.

Lemma puts_ok t0 s v r : shows t0 v r -> shows t0 (vga_puts s v) (roll_puts (color v) s r).
Proof.
  revert v r. induction s as [|c s IH]; intros v r S; [done|]. pose proof (IH _ _ (proj1 (putchar_ok t0 c v r S))) as Hi.
  rewrite putchar_color in Hi. exact Hi.
Qed.

Lemma vga_init_ok v : exists r, shows (cells v) (vga_init v) r /\ r_pos r = 0 /\ r_top r = 0.
Proof.
  set (e := vga_entry 32 (vga_color VGA_COLOR_LIGHT_GREY VGA_COLOR_BLACK)).
  exists (mk_roll 0 0 (fill (fun i => cells v (VGA_MEMORY + 2 * i)) 0 2000 e)). split; [|done].
  unfold vga_init. assert (forall u : vga W, vga_buf (hw_cursor_enable u) = vga_buf u /\ col (hw_cursor_enable u) = col u /\ row (hw_cursor_enable u) = row u /\ cells (hw_cursor_enable u) = cells u) as E.
  { intros u. unfold hw_cursor_enable. by repeat destruct (inb _ _). }
  match goal with |- shows _ (hw_cursor_update ?u) ?r => apply (fun S => proj1 (hw_cursor_ok (cells v) u r S)) end.
  match goal with |- shows _ (hw_cursor_enable ?u) _ => destruct (E u) as (E1 & E2 & E3 & E4) end.
  split; rewrite ?E1, ?E2, ?E3, ?E4; [reflexivity | change (0 <= 0 < 80); lia | change (0 <= 0 < 25); lia | reflexivity | cbn [r_top]; lia|].
  apply (window_ext _ _ (fill (fun i => cells v (VGA_MEMORY + 2 * i)) 0 2000 e)); [|by intros].
  refine (window_fill (cells v) (cells v) (fun i => cells v (VGA_MEMORY + 2 * i)) 0 2000 e _ _ _); [by split | lia | lia].
Qed.

(** ** Text on the roll *)

(** Characters that are printed as such. *)
Definition printable (c : Z) : Prop := c <> 10 /\ c <> 13 /\ c <> 9 /\ c <> 8.

(** Where the next character goes is on a row of the window. *)
Definition in_window (r : roll) : Prop := 0 <= r_pos r /\ r_pos r / 80 < r_top r + 25.

Lemma line_feed_ok k q r : in_window r -> r_pos r <= q <= (r_pos r / 80 + 1) * 80 ->
  in_window (feed k q r) /\ r_pos (feed k q r) = q /\ forall i, i < q -> r_cell (feed k q r) i = r_cell r i.
Proof.
  intros [H1 H2] Hq. unfold feed. zcase; (split; [split; cbn [r_pos r_top]; dlia|]; split; [done|]); [done|].
  intros i Hi. cbn [r_cell]. unfold fill. repeat zcase; try done. dlia.
Qed.

Lemma roll_text k s r : in_window r -> Forall printable s ->
  let r' := roll_puts k s r in
  in_window r' /\ r_pos r' = r_pos r + Z.of_nat (length s) /\
  (forall i c, s !! i = Some c -> r_cell r' (r_pos r + Z.of_nat i) = vga_entry c k) /\
  forall j, j < r_pos r -> r_cell r' j = r_cell r j.
Proof.
  revert r. induction s as [|c s IH]; intros r Hr Hs; cbv zeta.
  { split; [done|]. split; [cbn; lia|]. split; [by intros|done]. }
  apply Forall_cons in Hs as [(N1 & N2 & N3 & N4) Hs]. cbn [roll_puts fold_left].
  set (r1 := roll_putchar k c r). assert (r1 = feed k (r_pos r + 1) (mk_roll (r_top r) (r_pos r) (upd (r_cell r) (r_pos r) (vga_entry c k)))) as E1.
  { subst r1. unfold roll_putchar. by rewrite !(proj2 (Z.eqb_neq _ _)). }
  destruct (line_feed_ok k (r_pos r + 1) (mk_roll (r_top r) (r_pos r) (upd (r_cell r) (r_pos r) (vga_entry c k))) Hr) as (F1 & F2 & F3); [cbn; destruct Hr; dlia|].
  rewrite <- E1 in F1, F2, F3. destruct (IH r1 F1 Hs) as (I1 & I2 & I3 & I4). split; [exact I1|]. split; [etrans; [exact I2|]; rewrite F2; cbn [length]; lia|]. split.
  - intros [|i] c' Hi.
    + injection Hi as ->. etrans; [apply I4; lia|]. rewrite F3 by lia. cbn [r_cell]. rewrite Z.add_0_r. apply upd_eq.
    + replace (r_pos r + Z.of_nat (S i)) with (r_pos r1 + Z.of_nat i) by lia. by apply I3.
  - intros j Hj. etrans; [apply I4; lia|]. rewrite F3 by lia. cbn [r_cell]. apply upd_ne. lia.
Qed.

(** C37: printing writes on an endless roll of paper of which the screen shows
    25 rows: whatever is printed, the screen shows the roll, only its 2000
    words are written, and the hardware cursor stands where the next character
    goes; plain text stands on the roll in its order and colour, and leaves
    what was printed before as it was. *)
Theorem screen_shows_roll t0 s v r : shows t0 v r -> s <> [] ->
  let r' := roll_puts (color v) s r in
  shows t0 (vga_puts s v) r' /\ cursor_shown (vga_puts s v) /\
  (Forall printable s ->
   r_pos r' = r_pos r + Z.of_nat (length s) /\
   (forall i c, s !! i = Some c -> r_cell r' (r_pos r + Z.of_nat i) = vga_entry c (color v)) /\
   forall j, j < r_pos r -> r_cell r' j = r_cell r j).
Proof.
  intros S Hs. cbv zeta. split; [by apply puts_ok|]. split.
  - destruct s as [|c s _] using rev_ind; [done|]. unfold vga_puts. rewrite fold_left_app. cbn [fold_left].
    exact (proj2 (putchar_ok t0 c _ _ (puts_ok t0 s v r S))).
  - intros Hp. apply roll_text; [|done]. destruct S as [_ Hc Hr Hpos Ht _]. split; dlia.
Qed.

(** ** Numbers *)

Definition read_dec (s : list Z) : Z := fold_left (fun a c => 10 * a + (c - 48)) s 0.
Definition numeral (val : Z) : list Z := if val =? 0 then [48] else rev (digits 20 val).

Lemma digits_read n val : 0 <= val < 10 ^ Z.of_nat n -> fold_right (fun c a => 10 * a + (c - 48)) 0 (digits n val) = val.
Proof.
  revert val. induction n as [|n IH]; intros val Hv; [cbn in *; lia|]. cbn [digits]. destruct (Z.ltb_spec 0 val); [|cbn; lia].
  cbn [fold_right]. rewrite IH; [dlia|]. rewrite Nat2Z.inj_succ, Z.pow_succ_r in Hv by lia. dlia.
Qed.

Lemma digits_range n val : 0 <= val -> Forall (fun c => 48 <= c <= 57) (digits n val).
Proof.
  revert val. induction n as [|n IH]; intros val Hv; [constructor|]. cbn [digits]. destruct (0 <? val); [|constructor].
  constructor; [dlia | apply IH; dlia].
Qed.

Lemma digits_more n val : 0 <= val < 10 ^ Z.of_nat n -> forall m, digits (n + m) val = digits n val.
Proof.
  revert val. induction n as [|n IH]; intros val Hv m; [cbn in *; destruct m; [done|]; cbn; by destruct (Z.ltb_spec 0 val); [lia|]|].
  cbn [digits Nat.add]. destruct (0 <? val); [|done]. f_equal. apply IH. rewrite Nat2Z.inj_succ, Z.pow_succ_r in Hv by lia. dlia.
Qed.

Lemma numeral_ok val : 0 <= val < 2 ^ 64 -> read_dec (numeral val) = val /\ Forall (fun c => 48 <= c <= 57) (numeral val).
Proof.
  intros Hv. unfold numeral, read_dec. destruct (Z.eqb_spec val 0) as [->|]; [split; [done|]; repeat constructor; lia|].
  split; [|apply Forall_rev, digits_range; lia].
  rewrite <- fold_left_rev_right, rev_involutive. apply digits_read. change (10 ^ Z.of_nat 20) with (10 ^ 20). lia.
Qed.

Lemma putdec_ok val v : vga_putdec val v = vga_puts (numeral val) v.
Proof. unfold vga_putdec, numeral. by destruct (val =? 0). Qed.
End Spec.

(** ** An adapter *)

(** The index register and the registers behind it. *)
Record crtc_dev := mk_crtc { crtc_index : Z; crtc_regs : Z -> Z }.
#[export] Instance crtc_ports : Ports crtc_dev := {
  outb p v d := if p =? VGA_REG_CTRL then mk_crtc v (crtc_regs d) else if p =? VGA_REG_DATA then mk_crtc (crtc_index d) (upd (crtc_regs d) (crtc_index d) v) else d;
  outw _ _ d := d; outl _ _ d := d;
  inb p d := (if p =? VGA_REG_DATA then crtc_regs d (crtc_index d) else 0, d); inl _ d := (0, d);
}.
#[export] Instance crtc_dev_crtc : Crtc crtc_dev.
Proof. refine {| crtc := crtc_regs |}. intros i v w j Hi Hv. cbn. unfold upd. by rewrite Z.eqb_sym. Defined.

Definition demo_vga : vga crtc_dev := vga_init (mk_vga 0 0 0 0 (fun _ => 0) (mk_crtc 0 (fun _ => 0))).

Lemma demo_vga_shows : exists r, shows (fun _ => 0) demo_vga r /\ r_pos r = 0.
Proof. destruct (vga_init_ok (mk_vga 0 0 0 0 (fun _ => 0) (mk_crtc 0 (fun _ => 0)))) as (r & S & P & _). by exists r. Qed.

(** The first text after initialisation stands at the start of the roll. *)
Lemma screen_shows_roll_witness : exists r,
  shows (fun _ => 0) (vga_puts (bytes_of "AIOS") demo_vga) r /\ r_pos r = 4 /\ r_cell r 2 = vga_entry 79 7.
Proof.
  destruct demo_vga_shows as (r & S & P).
  destruct (screen_shows_roll (fun _ => 0) (bytes_of "AIOS") demo_vga r S ltac:(done)) as (H1 & _ & H2).
  destruct H2 as (H3 & H4 & _); [by repeat constructor|]. eexists. split; [exact H1|]. rewrite P in H3, H4. split; [exact H3|]. exact (H4 2%nat 79 eq_refl).
Defined.
