(* ===== verification/Readline.v ===== *)
(** The text terminal (kernel/shell/terminal.c): the line the keyboard
    interrupt edits, and the reader that sleeps until it is complete.  That the
    reader first installs the interrupt's callback is left out.

    What reading a line gives: the keys that arrive until the reader wakes,
    edited one by one, whatever the interrupts are bunched into. *)

From S2P Require Import Prelude Ports Vga Memory.
Local Open Scope Z_scope.

Definition LINE_MAX : Z := 256.

Section Readline.
Context {W : Type} `{Ports W}.

Record console := mk_console { g_line : Z -> Z; g_line_len : Z; g_line_ready : bool; screen : vga W }.

Definition set_screen (v : vga W) (t : console) : console := mk_console (g_line t) (g_line_len t) (g_line_ready t) v.

Definition terminal_init (t : console) : console := mk_console (g_line t) 0 false (screen t).

(** The callback of the keyboard interrupt; [ascii] is a signed char. *)
Definition terminal_feed (ascii scancode : Z) (pressed : bool) (t : console) : console :=
  if negb pressed then t
  else if (ascii =? 13) || (ascii =? 10) then mk_console (upd (g_line t) (g_line_len t) 0) (g_line_len t) true (screen t)
  else if ascii =? 8 then
    if 0 <? g_line_len t then mk_console (g_line t) (g_line_len t - 1) (g_line_ready t) (vga_backspace (screen t)) else t
  else if (0x20 <=? ascii) && (g_line_len t <? LINE_MAX - 1) then
    mk_console (upd (g_line t) (g_line_len t) ascii) (u64 (g_line_len t + 1)) (g_line_ready t) (vga_putchar ascii (screen t))
  else t.

(** A key as the interrupt delivers it: character, scan code, pressed. *)
Definition key := (Z * Z * bool)%type.
Definition feed_key (t : console) (k : key) : console := terminal_feed k.1.1 k.1.2 k.2 t.

(** [while (!g_line_ready) hlt;]: every element of [wakes] is what the
    keyboard delivers until the reader looks again; [None] when the line is
    never completed. *)
Fixpoint wait_line (wakes : list (list key)) (t : console) : option (list (list key) * console) :=
  if g_line_ready t then Some (wakes, t)
  else match wakes with [] => None | ks :: wakes => wait_line wakes (fold_left feed_key ks t) end.

(** The result, the caller's buffer, and the wake-ups left. *)
Definition terminal_readline (maxlen : Z) (buf : Z -> Z) (wakes : list (list key)) (t : console) : option (Z * (Z -> Z) * list (list key) * console) :=
  '(wakes, t) ← wait_line wakes (mk_console (g_line t) 0 false (screen t));
  let n := if g_line_len t <? maxlen - 1 then g_line_len t else maxlen - 1 in
  Some (n, upd (for_up (Z.to_nat n) 0 (fun i b => upd b i (g_line t i)) buf) n 0, wakes, t).

Definition terminal_write (s : list Z) (t : console) : console := set_screen (vga_puts s (screen t)) t.
Definition terminal_write_len (s : list Z) (len : nat) (t : console) : console := set_screen (vga_puts (take len s) (screen t)) t.
End Readline.
Arguments console W : clear implicits.

(** * Specification *)

(** The edited line, and what is echoed. *)
Definition edit_key (e : list Z * list Z) (k : key) : list Z * list Z :=
  let c := k.1.1 in
  if negb k.2 then e
  else if (c =? 13) || (c =? 10) then e
  else if c =? 8 then match e.1 with [] => e | _ => (removelast e.1, e.2 ++ [8]) end
  else if (0x20 <=? c) && (Z.of_nat (length e.1) <? 255) then (e.1 ++ [c], e.2 ++ [c])
  else e.
Definition edit (ks : list key) : list Z * list Z := fold_left edit_key ks ([], []).

Definition is_enter (k : key) : bool := k.2 && ((k.1.1 =? 13) || (k.1.1 =? 10)).

(** ** Lines in an array *)

Lemma seg_upd_behind f a i l c : a + Z.of_nat (length l) <= i -> seg f a l -> seg (upd f i c) a l.
Proof. intros Hi Hs. unfold seg in *. rewrite <- Hs at 2. apply bytes_at_agree. intros j Hj. symmetry. apply upd_ne. lia. Qed.

Lemma seg_snoc f a l c : seg f a l -> seg (upd f (a + Z.of_nat (length l)) c) a (l ++ [c]).
Proof.
  intros Hs. apply seg_app. split; [apply seg_upd_behind; [lia | done]|]. apply seg_cons. split; [apply upd_eq | done].
Qed.

Lemma seg_removelast f a l : seg f a l -> seg f a (removelast l).
Proof.
  intros Hs. destruct l as [|c l _] using rev_ind; [done|]. rewrite removelast_last. by apply seg_app in Hs as [Hs _].
Qed.

Lemma seg_copy g f l : seg g 0 l -> seg (for_up (length l) 0 (fun i b => upd b i (g i)) f) 0 l.
Proof.
  intros Hs. apply bytes_at_eq; [lia|]. intros i Hi. rewrite Z.add_0_l, <- (seg_nth g 0 l i Hs Hi), Z.add_0_l.
  assert (forall j, 0 <= j < Z.of_nat (length l) -> for_up (length l) 0 (fun i b => upd b i (g i)) f j = g j) as E; [|by apply E].
  refine (for_up_inv (fun n b => forall j, 0 <= j < n -> b j = g j) (length l) 0 _ f _ _); [lia|].
  intros j b Hj Hb k Hk. rewrite upd_spec. case_decide; [by subst | apply Hb; lia].
Qed.

Section Spec.
Context {W : Type} `{Ports W}.
Implicit Type t : console W.

(** The console [t] has come from [t0] with the line and the echo [e]. *)
Record editing t0 t (e : list Z * list Z) : Prop := {
  ed_len : g_line_len t = Z.of_nat (length e.1);
  ed_room : (length e.1 <= 255)%nat;
  ed_line : seg (g_line t) 0 e.1;
  ed_echo : screen t = vga_puts e.2 (screen t0);
}.

Lemma puts_app s1 s2 (v : vga W) : vga_puts (s1 ++ s2) v = vga_puts s2 (vga_puts s1 v).
Proof. apply fold_left_app. Qed.

Lemma feed_line_ok t0 t e k : editing t0 t e ->
  editing t0 (feed_key t k) (edit_key e k) /\ g_line_ready (feed_key t k) = g_line_ready t || is_enter k.
Proof.
  intros [Hl Hr Hs He]. destruct k as [[c sc] p], e as [l o]. unfold feed_key, terminal_feed, edit_key, is_enter. cbn [fst snd] in *.
  destruct p; cbn [negb andb]; [|by rewrite orb_false_r].
  destruct ((c =? 13) || (c =? 10)).
  { split; [|by rewrite orb_true_r]. split; cbn [g_line_len g_line screen fst snd]; try done. apply seg_upd_behind; [lia | done]. }
  rewrite orb_false_r, Hl. destruct (c =? 8).
  - destruct (Z.ltb_spec 0 (Z.of_nat (length l))), l as [|a l']; cbn [length] in *; try lia; [|done]. split; [|done].
    assert (Z.of_nat (length (removelast (a :: l'))) = Z.of_nat (S (length l')) - 1) as E by (rewrite removelast_firstn_len, length_firstn; cbn; lia).
    split; cbn [g_line_len g_line screen fst snd]; [lia | lia | by apply seg_removelast|]. rewrite puts_app, <- He. done.
  - unfold LINE_MAX. change (256 - 1) with 255. destruct ((0x20 <=? c) && (Z.of_nat (length l) <? 255)) eqn:E; [|done]. apply andb_prop in E as [_ E%Z.ltb_lt].
    split; [|done]. split; cbn [g_line_len g_line screen fst snd]; rewrite ?length_app; cbn [length].
    + rewrite u64_small; lia.
    + lia.
    + exact (seg_snoc _ 0 l c Hs).
    + rewrite puts_app, <- He. done.
Qed.

Lemma feeds_ok t0 ks t e : editing t0 t e ->
  editing t0 (fold_left feed_key ks t) (fold_left edit_key ks e) /\ g_line_ready (fold_left feed_key ks t) = g_line_ready t || existsb is_enter ks.
Proof.
  revert t e. induction ks as [|k ks IH]; intros t e Hed; cbn [fold_left existsb]; [by rewrite orb_false_r|].
  destruct (feed_line_ok t0 t e k Hed) as [H1 R1]. destruct (IH _ _ H1) as [H2 R2]. split; [done|]. by rewrite R2, R1, orb_assoc.
Qed.

Lemma wait_line_ok t0 quiet ks later t e : editing t0 t e -> g_line_ready t = false ->
  Forall (fun k => is_enter k = false) (concat quiet) -> existsb is_enter ks = true ->
  exists t', wait_line (quiet ++ ks :: later) t = Some (later, t') /\ editing t0 t' (fold_left edit_key (concat quiet ++ ks) e).
Proof.
  revert t e. induction quiet as [|q quiet IH]; intros t e Hed Hn Hq Hk; cbn [app wait_line concat]; rewrite Hn.
  - destruct (feeds_ok t0 ks t e Hed) as [H1 R1]. rewrite Hk, orb_true_r in R1. exists (fold_left feed_key ks t). split; [|done].
    destruct later; cbn [wait_line]; by rewrite R1.
  - cbn [concat] in Hq. apply Forall_app in Hq as [Hq1 Hq2]. destruct (feeds_ok t0 q t e Hed) as [H1 R1]. rewrite Hn in R1.
    assert (existsb is_enter q = false) as Eq. { clear -Hq1. induction Hq1 as [|k q Hk _ IH]; [done|]. cbn. by rewrite Hk, IH. }
    rewrite Eq in R1. rewrite <- app_assoc, fold_left_app. by apply IH.
Qed.

(** The line read is what the keys make of it that arrive up to the wake-up
    in which Enter is pressed, edited one by one and cut at 255 characters;
    every change is echoed; the keys of that wake-up behind Enter belong to the
    line too. *)
Lemma readline_ok quiet ks later buf t :
  Forall (fun k => is_enter k = false) (concat quiet) -> existsb is_enter ks = true ->
  let e := edit (concat quiet ++ ks) in
  exists buf' t', terminal_readline LINE_MAX buf (quiet ++ ks :: later) t = Some (Z.of_nat (length e.1), buf', later, t') /\
    seg buf' 0 (e.1 ++ [0]) /\ screen t' = vga_puts e.2 (screen t).
Proof.
  intros Hq Hk. cbv zeta. set (t0 := mk_console (g_line t) 0 false (screen t)).
  destruct (wait_line_ok t0 quiet ks later t0 ([], [])) as (t' & E & [L1 L2 L3 L4]); try done; [by split; cbn; lia || done|].
  unfold terminal_readline. fold t0. rewrite E. cbn [mbind option_bind]. unfold edit. set (e := fold_left edit_key _ _) in *.
  rewrite L1. unfold LINE_MAX. assert ((if Z.of_nat (length e.1) <? 256 - 1 then Z.of_nat (length e.1) else 256 - 1) = Z.of_nat (length e.1)) as -> by (zcase; lia).
  eexists _, t'. split; [done|]. split; [|done]. rewrite Nat2Z.id. exact (seg_snoc _ 0 e.1 0 (seg_copy _ buf e.1 L3)).
Qed.

(** Without Enter the reader sleeps. *)
Lemma readline_waits wakes buf t : Forall (fun k => is_enter k = false) (concat wakes) -> terminal_readline LINE_MAX buf wakes t = None.
Proof.
  intros Hq. unfold terminal_readline. set (t0 := mk_console _ _ _ _). 
  assert (forall u, g_line_ready u = false -> wait_line wakes u = None) as E; [|by rewrite E].
  induction wakes as [|q wakes IH]; intros u Hu; cbn [wait_line]; rewrite Hu; [done|]. cbn [concat] in Hq. apply Forall_app in Hq as [Hq1 Hq2].
  apply (IH Hq2). clear -Hq1 Hu. revert u Hu. induction Hq1 as [|k q Hk _ IH]; intros u Hu; cbn [fold_left]; [done|]. apply IH.
  destruct k as [[c sc] p]. unfold is_enter in Hk. cbn [fst snd] in Hk. unfold feed_key, terminal_feed. cbn [fst snd].
  destruct p; [|done]. cbn [andb negb] in *. rewrite Hk. by repeat case_match.
Qed.
End Spec.
