(* ===== verification/Shell.v ===== *)
(** The shell (kernel/shell/shell.c): the splitting of a line into words, the
    built-in commands, and the loop that prompts, reads and runs, over the
    text terminal, the file calls and the few calls it makes into the rest of
    the kernel.  A word handed to a command is the string at its pointer.

    What the shell does with a line: it runs the command its words name. *)

From S2P Require Import Prelude Memory Ports Vga Readline Files Task Acpi Ring Keyboard.
Local Open Scope Z_scope.

Definition SHELL_LINE_MAX : Z := 256.
Definition SHELL_ARGC_MAX : Z := 16.

(** ** Words *)

Definition is_blank (c : Z) : bool := (c =? 32) || (c =? 9).
Definition in_quote (c : Z) : bool := negb (c =? 0) && negb (c =? 39).
Definition in_word (c : Z) : bool := negb (c =? 0) && negb (is_blank c).

(** [while (f( *p)) p++;]. *)
Fixpoint skip_while (fuel : nat) (f : Z -> bool) (buf : Z -> Z) (p : Z) : option Z :=
  if f (buf p) then match fuel with O => None | S fuel => skip_while fuel f buf (p + 1) end else Some p.

(** [if ( *p) *p++ = 0;]. *)
Definition end_word (buf : Z -> Z) (p : Z) : (Z -> Z) * Z := if buf p =? 0 then (buf, p) else (upd buf p 0, p + 1).

Fixpoint tokenize_loop (fuel : nat) (argv_max : Z) (argv : list Z) (buf : Z -> Z) (p : Z) : option (list Z * (Z -> Z)) :=
  if negb (buf p =? 0) && (Z.of_nat (length argv) <? argv_max) then
    match fuel with
    | O => None
    | S fuel' =>
        p ← skip_while fuel is_blank buf p;
        if buf p =? 0 then Some (argv, buf)
        else if buf p =? 39 then
          q ← skip_while fuel in_quote buf (p + 1);
          let '(buf, r) := end_word buf q in
          tokenize_loop fuel' argv_max (argv ++ [p + 1]) buf r
        else
          q ← skip_while fuel in_word buf p;
          let '(buf, r) := end_word buf q in
          tokenize_loop fuel' argv_max (argv ++ [p]) buf r
    end
  else Some (argv, buf).

(** The pointers into the buffer, and the buffer with a zero behind each
    word. *)
Definition shell_tokenize (fuel : nat) (buf : Z -> Z) (argv_max : Z) : option (list Z * (Z -> Z)) := tokenize_loop fuel argv_max [] buf 0.

Fixpoint sh_strcmp (a b : list Z) : Z :=
  match a, b with
  | c :: a, d :: b => if c =? d then sh_strcmp a b else u8 c - u8 d
  | _, _ => u8 (hd 0 a) - u8 (hd 0 b)
  end.

(** ** The kernel as the shell calls it *)

(** The page counts, the walk over the task table, the frame buffer's width
    ([None] without one), the switch to the desktop, sleeping, and power-off. *)
Class ShellKernel (K : Type) := {
  k_total_pages : K -> Z;
  k_free_pages : K -> Z;
  k_foreach : forall T : Type, (task -> T -> T) -> T -> K -> T;
  k_fb_width : K -> option Z;
  k_gui_input_enable : K -> K;
  k_wm_start : K -> option K;
  k_sleep : Z -> K -> K;
  k_acpi_shutdown : K -> list action;
}.
Arguments k_foreach {K _ T} cb ctx k.

Section Shell.
Context {W V K : Type} `{Ports W} `{FileSys V} `{ShellKernel K}.
(** Where the two static buffers for file contents are. *)
Context (cat_buf dump_buf : Z).

Record shell := mk_shell { term : console W; sfiles : V; kernel : K; g_gui_started : bool }.

Definition set_term (t : console W) (s : shell) : shell := mk_shell t (sfiles s) (kernel s) (g_gui_started s).
Definition set_files (v : V) (s : shell) : shell := mk_shell (term s) v (kernel s) (g_gui_started s).
Definition set_kernel (k : K) (s : shell) : shell := mk_shell (term s) (sfiles s) k (g_gui_started s).
Definition set_gui_started (s : shell) : shell := mk_shell (term s) (sfiles s) (kernel s) true.

(** A call of the screen driver. *)
Definition with_screen (f : vga W -> vga W) (s : shell) : shell := set_term (set_screen (f (screen (term s))) (term s)) s.

Definition sh_puts (str : list Z) (s : shell) : shell := with_screen (vga_puts str) s.
Definition sh_putchar (c : Z) (s : shell) : shell := with_screen (vga_putchar c) s.
Definition sh_title (str : list Z) (s : shell) : shell := with_screen (vga_puts_color str VGA_COLOR_LIGHT_CYAN VGA_COLOR_BLACK) s.

Definition sh_puthex64 (v : Z) (s : shell) : shell :=
  for_up 16 0 (fun k s => sh_putchar (hex_digit (Z.shiftr v (60 - 4 * k))) s) (sh_puts (bytes_of "0x") s).

Definition sh_putdec (v : Z) (s : shell) : shell := if v =? 0 then sh_putchar 48 s else sh_puts (rev (digits 24 v)) s.

(** A command returns, or takes the machine down: by a pulse on the reset
    line (and, should that not work, an interrupt without a table), or by the
    writes of the power-off, which end in a halt. *)
Inductive outcome := Back (s : shell) | Reset (s : shell) | PowerOff (acts : list action) (s : shell).

(** ** The commands *)

Definition help_lines : list (list Z) := map (fun l => bytes_of l ++ [10])
  [ "  help          show this help"; "  clear         clear the screen"; "  echo [args]   print arguments"; "  mem           show memory statistics";
    "  ps            list kernel tasks"; "  ls            list known VFS paths"; "  cat FILE      print file contents";
    "  hexdump FILE  hex dump first 256 bytes of file"; "  reboot        reboot the machine"; "  shutdown      power off (ACPI)";
    "  startx        launch graphical desktop" ]%string.

Definition cmd_help (s : shell) : shell :=
  fold_left (fun s l => sh_puts l s) help_lines (sh_title (bytes_of "AIOS Shell — Built-in Commands" ++ [10]) s).

Definition cmd_clear (s : shell) : shell := with_screen vga_clear s.

Fixpoint echo_args (args : list (list Z)) (s : shell) : shell :=
  match args with
  | [] => s
  | [a] => sh_puts a s
  | a :: args => echo_args args (sh_putchar 32 (sh_puts a s))
  end.
Definition cmd_echo (argv : list (list Z)) (s : shell) : shell := sh_putchar 10 (echo_args (tl argv) s).

Definition mem_line (label : list Z) (n : Z) (s : shell) : shell :=
  sh_puts (bytes_of " KiB)" ++ [10]) (sh_putdec (u64 (n * 4)) (sh_puts (bytes_of " pages (") (sh_putdec n (sh_puts label s)))).
Definition cmd_mem (s : shell) : shell :=
  let total := k_total_pages (kernel s) in
  let free := k_free_pages (kernel s) in
  let used := u64 (total - free) in
  let s := sh_title (bytes_of "Physical Memory:" ++ [10]) s in
  mem_line (bytes_of "  Free  : ") free (mem_line (bytes_of "  Used  : ") used (mem_line (bytes_of "  Total : ") total s)).

Definition state_name (st : task_state) : list Z :=
  match st with
  | TASK_READY => bytes_of "READY" | TASK_RUNNING => bytes_of "RUNNING" | TASK_SLEEPING => bytes_of "SLEEPING"
  | TASK_BLOCKED => bytes_of "BLOCKED" | TASK_DEAD => bytes_of "?"
  end.
Definition ps_print_one (t : task) (s : shell) : shell :=
  let s := sh_puts (bytes_of "  ") (sh_putdec (u64 (pid t)) (sh_puts (bytes_of "  PID ") s)) in
  let s := sh_puts (cstr (Z.to_nat TASK_NAME_LEN) (name t) 0) s in
  sh_putchar 10 (sh_puts (state_name (state t)) (sh_puts (bytes_of "  state=") s)).
Definition cmd_ps (s : shell) : shell :=
  let s := sh_title (bytes_of "Kernel Tasks:" ++ [10]) s in k_foreach ps_print_one s (kernel s).

Definition g_known_paths : list (list Z) := map bytes_of
  [ "/TEST.TXT"; "/tokenizer/vocab.bin"; "/tokenizer/config.bin"; "/weights.bin"; "/kernel.bin"; "/initrd.img" ]%string.
Fixpoint ls_paths (paths : list (list Z)) (s : shell) : option shell :=
  match paths with
  | [] => Some s
  | p :: paths =>
      '(st, v) ← fs_stat p (sfiles s);
      let s := set_files v s in
      ls_paths paths
        (match st with
         | Some size => sh_puts (bytes_of " B)" ++ [10]) (sh_putdec size (sh_puts (bytes_of "  (") (sh_puts p (sh_puts (bytes_of "  [FILE] ") s))))
         | None => s
         end)
  end.
Definition cmd_ls (s : shell) : option shell :=
  s ← ls_paths g_known_paths (sh_title (bytes_of "VFS known files:" ++ [10]) s);
  Some (sh_puts (bytes_of "  (use 'cat FILE' to read a file)" ++ [10]) s).

Definition cannot_open (cmd path : list Z) (s : shell) : shell :=
  sh_puts (bytes_of "'" ++ [10]) (sh_puts path (sh_puts (cmd ++ bytes_of ": cannot open '") s)).

Fixpoint cat_loop (fuel : nat) (fd : Z) (s : shell) : option shell :=
  match fuel with
  | O => None
  | S fuel =>
      '(got, b, v) ← fs_read fd cat_buf 256 (sfiles s);
      let s := set_files v s in
      if 0 <? got then cat_loop fuel fd (for_up (Z.to_nat got) 0 (fun i s => sh_putchar (b i) s) s) else Some s
  end.
Definition cmd_cat (fuel : nat) (argv : list (list Z)) (s : shell) : option shell :=
  match argv with
  | _ :: path :: _ =>
      '(fd, v) ← fs_open path (sfiles s);
      let s := set_files v s in
      if fd <? 0 then Some (cannot_open (bytes_of "cat") path s)
      else
        s ← cat_loop fuel fd s;
        let s := sh_putchar 10 s in
        Some (set_files (fs_close fd (sfiles s)) s)
  | _ => Some (sh_puts (bytes_of "Usage: cat FILE" ++ [10]) s)
  end.

Definition dump_byte (b : mem) (i : Z) (s : shell) : shell :=
  let s := if Z.land i 0xF =? 0 then sh_puts (bytes_of ": ") (sh_puthex64 i s) else s in
  let s := sh_putchar 32 (sh_putchar (hex_digit (b i)) (sh_putchar (hex_digit (Z.shiftr (b i) 4)) s)) in
  if Z.land i 0xF =? 0xF then sh_putchar 10 s else s.
Definition cmd_hexdump (argv : list (list Z)) (s : shell) : option shell :=
  match argv with
  | _ :: path :: _ =>
      '(fd, v) ← fs_open path (sfiles s);
      let s := set_files v s in
      if fd <? 0 then Some (cannot_open (bytes_of "hexdump") path s)
      else
        '(got, b, v) ← fs_read fd dump_buf 256 (sfiles s);
        let s := set_files (fs_close fd v) s in
        if got <=? 0 then Some (sh_puts (bytes_of "(empty)" ++ [10]) s)
        else Some (sh_putchar 10 (for_up (Z.to_nat got) 0 (dump_byte b) s))
  | _ => Some (sh_puts (bytes_of "Usage: hexdump FILE" ++ [10]) s)
  end.

(** The wait for the keyboard controller to take a command. *)
Fixpoint wait_8042 (fuel : nat) (w : W) : option W :=
  match fuel with
  | O => None
  | S fuel => let '(x, w) := inb 0x64 w in if Z.land x 2 =? 0 then Some w else wait_8042 fuel w
  end.
Definition cmd_reboot (fuel : nat) (s : shell) : option outcome :=
  let s := sh_puts (bytes_of "Rebooting..." ++ [10]) s in
  w ← wait_8042 fuel (ports (screen (term s)));
  Some (Reset (with_screen (set_ports (outb 0x64 0xFE w)) s)).

Definition cmd_shutdown (s : shell) : outcome :=
  let s := sh_puts (bytes_of "Shutting down..." ++ [10]) s in PowerOff (k_acpi_shutdown (kernel s)) s.

Definition cmd_startx (s : shell) : option shell :=
  if g_gui_started s then Some (sh_puts (bytes_of "GUI is already running." ++ [10]) s)
  else
    match k_fb_width (kernel s) with
    | None | Some 0 => Some (sh_puts (bytes_of "No framebuffer available. Boot with -vga std." ++ [10]) s)
    | Some _ =>
        let s := sh_puts (bytes_of "Starting AIOS GUI desktop..." ++ [10]) (set_gui_started s) in
        k ← k_wm_start (k_gui_input_enable (kernel s));
        Some (set_kernel (k_sleep 0x7FFFFFFF k) s)
    end.

(** ** The table, and the loop *)

Inductive builtin := Help | Clear | Echo | Mem | Ps | Ls | Cat | Hexdump | Reboot | Shutdown | Startx.

Definition g_builtins : list (list Z * builtin) :=
  [ (bytes_of "help", Help); (bytes_of "clear", Clear); (bytes_of "echo", Echo); (bytes_of "mem", Mem); (bytes_of "ps", Ps); (bytes_of "ls", Ls);
    (bytes_of "cat", Cat); (bytes_of "hexdump", Hexdump); (bytes_of "reboot", Reboot); (bytes_of "shutdown", Shutdown);
    (bytes_of "startx", Startx); (bytes_of "gui", Startx) ].

Definition run_builtin (fuel : nat) (b : builtin) (argv : list (list Z)) (s : shell) : option outcome :=
  match b with
  | Help => Some (Back (cmd_help s))
  | Clear => Some (Back (cmd_clear s))
  | Echo => Some (Back (cmd_echo argv s))
  | Mem => Some (Back (cmd_mem s))
  | Ps => Some (Back (cmd_ps s))
  | Ls => Back <$> cmd_ls s
  | Cat => Back <$> cmd_cat fuel argv s
  | Hexdump => Back <$> cmd_hexdump argv s
  | Reboot => cmd_reboot fuel s
  | Shutdown => Some (cmd_shutdown s)
  | Startx => Back <$> cmd_startx s
  end.

Definition shell_print_help (s : shell) : shell := cmd_help s.

(** The strings at the pointers, and the rest of [dispatch] on them. *)
Definition dispatch_words (fuel : nat) (argv : list (list Z)) (s : shell) : option outcome :=
  match argv with
  | [] => Some (Back s)
  | cmd :: _ =>
      match list_find (fun e => sh_strcmp cmd e.1 = 0) g_builtins with
      | Some (_, (_, b)) => run_builtin fuel b argv s
      | None => Some (Back (sh_puts (bytes_of "'. Type 'help'." ++ [10]) (sh_puts cmd (sh_puts (bytes_of "Unknown command: '") s))))
      end
  end.

Definition dispatch (fuel : nat) (line : Z -> Z) (s : shell) : option ((Z -> Z) * outcome) :=
  '(argv, line) ← shell_tokenize (Z.to_nat SHELL_LINE_MAX) line SHELL_ARGC_MAX;
  o ← dispatch_words fuel (map (cstr (Z.to_nat SHELL_LINE_MAX) line) argv) s;
  Some (line, o).

Definition prompt (s : shell) : shell :=
  let s := with_screen (vga_set_color VGA_COLOR_LIGHT_GREEN VGA_COLOR_BLACK) s in
  let s := with_screen (vga_puts (bytes_of "AIOS> ")) s in
  with_screen (vga_set_color VGA_COLOR_WHITE VGA_COLOR_BLACK) s.

(** One turn of the loop, on the line buffer and the wake-ups to come. *)
Definition shell_step (fuel : nat) (line : Z -> Z) (wakes : list (list key)) (s : shell) : option ((Z -> Z) * list (list key) * outcome) :=
  let s := prompt s in
  '(_, line, wakes, t) ← terminal_readline SHELL_LINE_MAX line wakes (term s);
  let s := sh_putchar 10 (set_term t s) in
  '(line, o) ← dispatch fuel line s;
  Some (line, wakes, o).

Definition banner : list Z :=
  10 :: bytes_of "====================================================" ++ 10 :: bytes_of "  AIOS Shell — Phase 5.2" ++
  10 :: bytes_of "  Type 'help' for commands, 'startx' for GUI." ++ 10 :: bytes_of "====================================================" ++ [10; 10].

Definition shell_start (s : shell) : shell :=
  let s := set_term (terminal_init (term s)) s in
  let s := with_screen (vga_set_color VGA_COLOR_LIGHT_GREEN VGA_COLOR_BLACK) s in
  let s := with_screen (vga_puts banner) s in
  with_screen (vga_set_color VGA_COLOR_WHITE VGA_COLOR_BLACK) s.

(** At most [turns] turns of the endless loop; it ends before when a command
    takes the machine down, and is stuck when no line is completed. *)
Fixpoint shell_loop (turns fuel : nat) (line : Z -> Z) (wakes : list (list key)) (s : shell) : option (list (list key) * outcome) :=
  match turns with
  | O => Some (wakes, Back s)
  | S turns =>
      '(line, wakes, o) ← shell_step fuel line wakes s;
      match o with Back s => shell_loop turns fuel line wakes s | _ => Some (wakes, o) end
  end.
Definition shell_run (turns fuel : nat) (line : Z -> Z) (wakes : list (list key)) (s : shell) : option (list (list key) * outcome) :=
  shell_loop turns fuel line wakes (shell_start s).
End Shell.
Arguments shell W V K : clear implicits.

(** * Specification *)

(** ** Words *)

(** The words of a line, character by character: between words, inside a word,
    or inside quotes. *)
Inductive mode := Between | Word (w : list Z) | Quoted (w : list Z).

Fixpoint split_line (m : mode) (s : list Z) : list (list Z) :=
  match s, m with
  | [], Between => []
  | [], Word w | [], Quoted w => [w]
  | c :: s, Between => if is_blank c then split_line Between s else if c =? 39 then split_line (Quoted []) s else split_line (Word [c]) s
  | c :: s, Word w => if is_blank c then w :: split_line Between s else split_line (Word (w ++ [c])) s
  | c :: s, Quoted w => if c =? 39 then w :: split_line Between s else split_line (Quoted (w ++ [c])) s
  end.
Definition words (s : list Z) : list (list Z) := split_line Between s.

(** The characters [s] and the closing zero stand at [p]. *)
Definition zstring (buf : Z -> Z) (p : Z) (s : list Z) : Prop := seg buf p (s ++ [0]) /\ Forall (fun c => c <> 0) s.

Lemma zstring_nil buf p : zstring buf p [] <-> buf p = 0.
Proof. unfold zstring. cbn [app]. rewrite seg_cons. split; [by intros [[H _] _] | done]. Qed.

Lemma zstring_cons buf p c s : zstring buf p (c :: s) <-> buf p = c /\ c <> 0 /\ zstring buf (p + 1) s.
Proof. unfold zstring. cbn [app]. rewrite seg_cons, Forall_cons. tauto. Qed.

Lemma zstring_cstr buf p s fuel : zstring buf p s -> (length s < fuel)%nat -> cstr fuel buf p = s.
Proof.
  revert p fuel. induction s as [|c s IH]; intros p [|fuel] Hs Hf; cbn [length] in Hf; try lia; cbn [cstr].
  - apply zstring_nil in Hs. by rewrite Hs.
  - apply zstring_cons in Hs as (-> & Hc & Hs). rewrite (proj2 (Z.eqb_neq c 0)) by done. f_equal. apply IH; [done | lia].
Qed.

Lemma zstring_agree buf buf' p s : zstring buf p s -> (forall i, p <= i <= p + Z.of_nat (length s) -> buf' i = buf i) -> zstring buf' p s.
Proof.
  intros [Hs Hz] E. split; [|done]. unfold seg in *. rewrite <- Hs at 2. apply bytes_at_agree. intros i Hi. rewrite length_app in Hi. cbn in Hi. symmetry. apply E. lia.
Qed.

(** The characters of [s] up to the first outside [f]. *)
Fixpoint span (f : Z -> bool) (s : list Z) : list Z * list Z :=
  match s with [] => ([], []) | c :: s => if f c then (c :: (span f s).1, (span f s).2) else ([], c :: s) end.

Lemma span_app f s : s = (span f s).1 ++ (span f s).2.
Proof. induction s as [|c s IH]; cbn [span]; [done|]. destruct (f c); [|done]. cbn. by f_equal. Qed.

Lemma skip_while_ok f buf s fuel p : zstring buf p s -> f 0 = false -> (length s <= fuel)%nat ->
  skip_while fuel f buf p = Some (p + Z.of_nat (length (span f s).1)).
Proof.
  revert p fuel. induction s as [|c s IH]; intros p fuel Hs Hf0 Hl; cbn [span].
  - apply zstring_nil in Hs. destruct fuel; cbn [skip_while]; rewrite Hs, Hf0; cbn [fst length]; f_equal; lia.
  - apply zstring_cons in Hs as (E & Hc & Hs). cbn [length] in Hl. destruct fuel as [|fuel]; [lia|]. cbn [skip_while]. rewrite E. destruct (f c); [|cbn [fst length]; f_equal; lia].
    rewrite (IH (p + 1) fuel Hs Hf0) by lia. cbn [fst length]. f_equal. lia.
Qed.

Lemma split_between s : split_line Between s = split_line Between (span is_blank s).2.
Proof. induction s as [|c s IH]; cbn [span split_line]; [done|]. destruct (is_blank c) eqn:E; cbn [snd]; [done|]. cbn [split_line]. by rewrite E. Qed.

Lemma split_word w s : Forall (fun c => c <> 0) s -> split_line (Word w) s = (w ++ (span in_word s).1) :: split_line Between (tl (span in_word s).2).
Proof.
  intros Hs. revert w. induction Hs as [|c s Hc _ IH]; intros w; cbn [span split_line]; [by rewrite app_nil_r|].
  assert (in_word c = negb (is_blank c)) as -> by (unfold in_word; by rewrite (proj2 (Z.eqb_neq c 0))).
  destruct (is_blank c); cbn [negb fst snd tl]; [by rewrite app_nil_r|]. by rewrite IH, <- app_assoc.
Qed.

Lemma split_quoted w s : Forall (fun c => c <> 0) s -> split_line (Quoted w) s = (w ++ (span in_quote s).1) :: split_line Between (tl (span in_quote s).2).
Proof.
  intros Hs. revert w. induction Hs as [|c s Hc _ IH]; intros w; cbn [span split_line]; [by rewrite app_nil_r|].
  assert (in_quote c = negb (c =? 39)) as -> by (unfold in_quote; by rewrite (proj2 (Z.eqb_neq c 0))).
  destruct (c =? 39); cbn [negb fst snd tl]; [by rewrite app_nil_r|]. by rewrite IH, <- app_assoc.
Qed.

(** The word [a] at [p], ended where the next character is outside [f]. *)
Lemma end_word_ok f buf p s : zstring buf p s -> f 0 = false ->
  let a := (span f s).1 in let r := (span f s).2 in
  let '(buf', q) := end_word buf (p + Z.of_nat (length a)) in
  zstring buf' p a /\ zstring buf' q (tl r) /\ p <= q /\ p + Z.of_nat (length a) <= q /\ q + Z.of_nat (length (tl r)) = p + Z.of_nat (length s) /\
  (r <> [] -> p + Z.of_nat (length a) < q) /\ forall i, i < p \/ p + Z.of_nat (length s) <= i -> buf' i = buf i.
Proof.
  intros Hz Hf. cbv zeta. pose proof (span_app f s) as E. revert E. generalize (span f s). intros [a r] E. cbn [fst snd] in *. subst s.
  destruct Hz as [Hs Hz]. rewrite <- app_assoc in Hs. apply seg_app in Hs as [Ha Hr]. apply Forall_app in Hz as [Za Zr]. rewrite length_app.
  destruct r as [|c r]; cbn [app] in Hr; apply seg_cons in Hr as [Hc Hr]; unfold end_word; rewrite Hc; cbn [tl length].
  - cbn [Z.eqb]. repeat split; try done; try lia; [by apply seg_app; split; [|apply seg_cons] | by apply seg_cons].
  - apply Forall_cons in Zr as [Nc Zr]. rewrite (proj2 (Z.eqb_neq c 0)) by done.
    split; [split; [|done]; apply seg_snoc; done|]. split; [split; [|done]|].
    { unfold seg in *. rewrite <- Hr at 2. apply bytes_at_agree. intros i Hi. symmetry. apply upd_ne. lia. }
    split; [lia|]. split; [lia|]. split; [lia|]. split; [lia|]. intros i Hi. apply upd_ne. lia.
Qed.

Lemma zstring_app buf p s1 s2 : zstring buf p (s1 ++ s2) -> zstring buf (p + Z.of_nat (length s1)) s2.
Proof. intros [Hs Hz]. rewrite <- app_assoc in Hs. apply seg_app in Hs as [_ Hs]. apply Forall_app in Hz as [_ Hz]. done. Qed.

Lemma span_stops f s c r : (span f s).2 = c :: r -> f c = false.
Proof. induction s as [|d s IH]; cbn [span]; [done|]. destruct (f d) eqn:E; [exact IH|]. cbn. by intros [= -> _]. Qed.

Lemma span_word_length f s : (length (tl (span f s).2) <= length s)%nat.
Proof. rewrite (span_app f s) at 2. rewrite length_app. destruct (span f s).2; cbn; lia. Qed.

(** What the loop promises for a string of at most [fuel] characters. *)
Definition tokenizes (fuel : nat) : Prop := forall s p buf argv argv_max,
  zstring buf p s -> (length s <= fuel)%nat -> 0 <= argv_max ->
  exists found buf', tokenize_loop fuel argv_max argv buf p = Some (argv ++ found, buf') /\
    Forall2 (zstring buf') found (take (Z.to_nat argv_max - length argv) (words s)) /\
    (forall i, i < p \/ p + Z.of_nat (length s) <= i -> buf' i = buf i).

(** One turn: the word at [p], then the rest. *)
Lemma tokenize_turn fuel : tokenizes fuel -> forall f s p buf argv argv_max p0 n,
  zstring buf p s -> f 0 = false -> (length (tl (span f s).2) <= fuel)%nat -> 0 <= argv_max -> Z.of_nat (length argv) < argv_max ->
  p0 <= p -> p + Z.of_nat (length s) <= p0 + n ->
  exists found buf', (let '(buf, r) := end_word buf (p + Z.of_nat (length (span f s).1)) in tokenize_loop fuel argv_max (argv ++ [p]) buf r) = Some (argv ++ found, buf') /\
    Forall2 (zstring buf') found (take (Z.to_nat argv_max - length argv) ((span f s).1 :: words (tl (span f s).2))) /\
    (forall i, i < p0 \/ p0 + n <= i -> buf' i = buf i).
Proof.
  intros IH f s p buf argv argv_max p0 n Hz Hf Hl Hm Hroom Hp Hn. pose proof (end_word_ok f buf p s Hz Hf) as E. cbv zeta in E.
  destruct (end_word buf _) as [buf1 q]. destruct E as (Hw & Hr & E1 & E2 & E3 & E4 & E5).
  destruct (IH (tl (span f s).2) q buf1 (argv ++ [p]) argv_max Hr Hl Hm) as (found & buf' & -> & F & A). exists (p :: found), buf'. rewrite <- app_assoc. split; [done|]. split.
  - rewrite length_app in F. cbn [length] in F. replace (Z.to_nat argv_max - length argv)%nat with (S (Z.to_nat argv_max - (length argv + 1))) by lia. cbn [take].
    constructor; [|exact F]. apply (zstring_agree buf1); [done|]. intros i Hi. apply A. destruct (span f s).2 as [|c r]; [cbn; lia | left; assert (c :: r <> []) as N by done; specialize (E4 N); lia].
  - intros i Hi. rewrite A by lia. apply E5. lia.
Qed.

Lemma tokenize_ok fuel : tokenizes fuel.
Proof.
  induction fuel as [|fuel IH]; intros s p buf argv argv_max Hz Hl Hm; cbn [tokenize_loop];
    [destruct s; [|cbn in Hl; lia]; pose proof (proj1 (zstring_nil _ _) Hz) as ->; exists [], buf; rewrite app_nil_r; split; [done|]; split; [by destruct (_ - _)%nat|done]|].
  destruct (negb (buf p =? 0) && (Z.of_nat (length argv) <? argv_max)) eqn:Ego.
  2: { exists [], buf. rewrite app_nil_r. split; [done|]. split; [|done]. apply andb_false_iff in Ego as [Ego|Ego%Z.ltb_ge].
       - apply negb_false_iff, Z.eqb_eq in Ego. destruct s as [|c s]; [by destruct (_ - _)%nat|]. apply zstring_cons in Hz as (E & Hc & _). congruence.
       - by replace (Z.to_nat argv_max - length argv)%nat with 0%nat by lia. }
  apply andb_prop in Ego as [_ Hroom%Z.ltb_lt]. rewrite (skip_while_ok is_blank buf s) by (done || lia). cbn [mbind option_bind].
  unfold words. rewrite split_between. pose proof (span_app is_blank s) as Es. pose proof (span_stops is_blank s) as Hstop.
  revert Es Hstop. generalize (span is_blank s). intros [b s1] Es Hstop. cbn [fst snd] in *.
  set (p1 := p + Z.of_nat (length b)). assert (zstring buf p1 s1) as Hz1 by (rewrite Es in Hz; by apply zstring_app in Hz).
  assert (length s = length b + length s1)%nat as El by (rewrite Es; apply length_app).
  destruct s1 as [|c s2]; [pose proof (proj1 (zstring_nil _ _) Hz1) as ->; exists [], buf; rewrite app_nil_r; split; [done|]; split; [by destruct (_ - _)%nat|done]|].
  pose proof (proj1 (zstring_cons _ _ _ _) Hz1) as (Ec & Nc & Hz2). rewrite Ec, (proj2 (Z.eqb_neq c 0)) by done. cbn [split_line]. rewrite (Hstop c s2 eq_refl).
  cbn [length] in El. destruct (c =? 39) eqn:Eq.
  - rewrite (skip_while_ok in_quote buf s2) by (done || lia). cbn [mbind option_bind]. rewrite split_quoted by apply Hz2.
    pose proof (span_word_length in_quote s2). apply (tokenize_turn fuel IH in_quote s2 (p1 + 1) buf argv argv_max p (Z.of_nat (length s))); done || lia.
  - rewrite (skip_while_ok in_word buf (c :: s2)) by (done || cbn [length]; lia). cbn [mbind option_bind]. rewrite split_word by apply Hz2.
    assert (span in_word (c :: s2) = (c :: (span in_word s2).1, (span in_word s2).2)) as Esp.
    { cbn [span]. unfold in_word at 1. by rewrite (proj2 (Z.eqb_neq c 0)), (Hstop c s2 eq_refl). }
    pose proof (span_word_length in_word s2). pose proof (tokenize_turn fuel IH in_word (c :: s2) p1 buf argv argv_max p (Z.of_nat (length s))) as T. rewrite Esp in T |- *.
    cbn [fst snd app] in T |- *. apply T; try done; cbn [length]; lia.
Qed.

(** C38: splitting a line in place, by writing zeros over separators, finds the
    words that reading it character by character gives, blanks between them and
    quoted ones taken whole, the first [argv_max] of them; nothing outside the
    line is written. *)
Theorem shell_tokenize_correct s buf argv_max : zstring buf 0 s -> 0 <= argv_max ->
  exists argv buf', shell_tokenize (length s) buf argv_max = Some (argv, buf') /\
    Forall2 (zstring buf') argv (take (Z.to_nat argv_max) (words s)) /\
    forall i, i < 0 \/ Z.of_nat (length s) <= i -> buf' i = buf i.
Proof.
  intros Hz Hm. destruct (tokenize_ok (length s) s 0 buf [] argv_max Hz (le_n _) Hm) as (argv & buf' & E & F & A).
  exists argv, buf'. cbn [length app] in *. rewrite Nat.sub_0_r in F. done.
Qed.

(** Quoting words and splitting the line gives them back. *)
Definition quote (w : list Z) : list Z := 39 :: w ++ [39].

Lemma words_quoted w s : Forall (fun c => c <> 39) w -> forall acc, split_line (Quoted acc) (w ++ 39 :: s) = (acc ++ w) :: words s.
Proof.
  induction 1 as [|c w Hc _ IH]; intros acc; cbn [app split_line]; [by rewrite app_nil_r|].
  rewrite (proj2 (Z.eqb_neq c 39)) by done. by rewrite IH, <- app_assoc.
Qed.

Lemma words_roundtrip ws : Forall (Forall (fun c => c <> 39)) ws -> words (flat_map (fun w => quote w ++ [32]) ws) = ws.
Proof.
  induction 1 as [|w ws Hw _ IH]; [done|]. cbn [flat_map]. unfold words, quote at 1. rewrite <- !app_assoc. cbn [app split_line].
  change (is_blank 39) with false. change (39 =? 39) with true. cbn iota. rewrite <- app_assoc. cbn [app]. rewrite words_quoted by done. cbn [app]. f_equal.
  unfold words. cbn [split_line]. exact IH.
Qed.

(** ** Lengths *)

Definition mode_len (m : mode) : nat := match m with Between => 0 | Word w | Quoted w => length w end.

Lemma split_lengths m s : Forall (fun w => (length w <= mode_len m + length s)%nat) (split_line m s).
Proof.
  revert m. induction s as [|c s IH]; intros m; cbn [split_line]; [destruct m; repeat constructor; cbn; lia|].
  assert (forall m', (mode_len m' <= mode_len m + 1)%nat -> Forall (fun w => (length w <= mode_len m + length (c :: s))%nat) (split_line m' s)) as Hm'.
  { intros m' Hm'. eapply Forall_impl; [apply IH|]. cbn [length]. lia. }
  destruct m as [|w|w]; cbn [mode_len] in *; repeat case_match; try (constructor; [cbn; lia|]); apply Hm'; cbn [mode_len]; rewrite ?length_app; cbn; lia.
Qed.

Lemma sh_strcmp_eq a b : Forall (fun c => 0 < c < 256) a -> Forall (fun c => 0 < c < 256) b -> sh_strcmp a b = 0 <-> a = b.
Proof.
  intros Ha. revert b. induction Ha as [|c a Hc Ha IH]; intros b Hb; destruct Hb as [|d b Hd Hb]; cbn [sh_strcmp hd].
  - done.
  - change (u8 0) with 0. unfold u8. rewrite Z.mod_small by lia. split; [lia | done].
  - change (u8 0) with 0. unfold u8. rewrite Z.mod_small by lia. split; [lia | done].
  - destruct (Z.eqb_spec c d) as [->|N]; [rewrite IH by done; split; congruence|]. unfold u8. rewrite !Z.mod_small by lia. split; [lia | congruence].
Qed.

(** ** A line and the command it names *)

(** The command of that name in the table. *)
Definition named (cmd : list Z) : option builtin := (fun x => x.2.2) <$> list_find (fun e => e.1 = cmd) g_builtins.

Definition text_chars (s : list Z) : Prop := Forall (fun c => 0 < c < 256) s.

Lemma builtins_chars : Forall (fun e => text_chars e.1) g_builtins.
Proof. unfold text_chars. repeat constructor. Qed.

Lemma find_named cmd l : text_chars cmd -> Forall (fun e : list Z * builtin => text_chars e.1) l ->
  list_find (fun e => sh_strcmp cmd e.1 = 0) l = list_find (fun e => e.1 = cmd) l.
Proof.
  intros Hc. induction 1 as [|e l He _ IH]; [done|]. cbn [list_find]. rewrite IH. pose proof (sh_strcmp_eq cmd e.1 Hc He) as E.
  destruct (decide (sh_strcmp cmd e.1 = 0)) as [H1|H1], (decide (e.1 = cmd)) as [H2|H2]; try done; exfalso; [by apply H2; symmetry; apply E | by apply H1, E].
Qed.

Lemma text_chars_nz s : text_chars s -> Forall (fun c => c <> 0) s.
Proof. intros H. eapply Forall_impl; [exact H|]. cbn. lia. Qed.

Lemma split_chars (P : Z -> Prop) m s : Forall P s -> (match m with Between => True | Word w | Quoted w => Forall P w end) -> Forall (Forall P) (split_line m s).
Proof.
  intros Hs. revert m. induction Hs as [|c s Hc Hs IH]; intros m Hm; cbn [split_line]; [destruct m; repeat constructor; done|].
  destruct m as [|w|w]; repeat case_match; try (constructor; [done|]); apply IH; done || (repeat constructor; done) || (apply Forall_app; split; [done|]; by constructor).
Qed.

Lemma bind_some {A B : Type} (f : A -> option B) x : Some x ≫= f = f x.
Proof. done. Qed.

Section Run.
Context {W V K : Type} {PW : Ports W} {FV : FileSys V} {SK : ShellKernel K} (cat_buf dump_buf : Z).
Notation shell := (shell W V K).
Implicit Type s : shell.

(** What is said of a command that is not in the table. *)
Definition unknown (cmd : list Z) s : shell := sh_puts (bytes_of "Unknown command: '" ++ cmd ++ bytes_of "'. Type 'help'." ++ [10]) s.

Definition run_words (fuel : nat) (argv : list (list Z)) s : option outcome :=
  match argv with
  | [] => Some (Back s)
  | cmd :: _ => match named cmd with Some b => run_builtin cat_buf dump_buf fuel b argv s | None => Some (Back (unknown cmd s)) end
  end.

Lemma sh_puts_app l1 l2 s : sh_puts (l1 ++ l2) s = sh_puts l2 (sh_puts l1 s).
Proof. unfold sh_puts, with_screen, set_term, set_screen. cbn. do 2 f_equal. apply puts_app. Qed.

Lemma dispatch_words_ok fuel argv s : Forall text_chars argv -> dispatch_words cat_buf dump_buf fuel argv s = run_words fuel argv s.
Proof.
  intros Ha. destruct Ha as [|cmd argv Hc _]; [done|]. unfold dispatch_words, run_words, named.
  rewrite (find_named cmd g_builtins Hc builtins_chars). destruct (list_find _ _) as [[i [nm b]]|]; [done|]. cbn [fmap option_fmap option_map].
  unfold unknown. by rewrite !sh_puts_app.
Qed.

Lemma dispatch_ok fuel line txt s : zstring line 0 txt -> text_chars txt -> (length txt <= 255)%nat ->
  exists line', dispatch cat_buf dump_buf fuel line s = o ← run_words fuel (take 16 (words txt)) s; Some (line', o).
Proof.
  intros Hz Ht Hl. destruct (tokenize_ok 256 txt 0 line [] SHELL_ARGC_MAX Hz ltac:(lia) ltac:(done)) as (argv & line' & E & F & _).
  exists line'. unfold dispatch, shell_tokenize. change (Z.to_nat SHELL_LINE_MAX) with 256%nat. rewrite E. cbn [mbind option_bind app]. clear E.
  change (Z.to_nat SHELL_ARGC_MAX - length [])%nat with 16%nat in F. 
  assert (Forall (fun w => (length w < 256)%nat) (take 16 (words txt))) as Hw by (apply Forall_take; eapply Forall_impl; [apply split_lengths|]; cbn; lia).
  assert (Forall text_chars (take 16 (words txt))) as Hc by (apply Forall_take, split_chars; done).
  assert (map (cstr 256 line') argv = take 16 (words txt)) as ->.
  { clear -F Hw. induction F as [|p w argv ws Hp _ IH]; [done|]. apply Forall_cons in Hw as [H1 H2]. cbn [map]. by rewrite (zstring_cstr _ _ w), IH. }
  by rewrite dispatch_words_ok.
Qed.

(** The characters of an edited line are those the keys gave it. *)
Lemma edit_chars ks e : Forall (fun k : key => k.1.1 < 128) ks -> text_chars e.1 -> text_chars (fold_left edit_key ks e).1.
Proof.
  intros Hk. revert e. induction Hk as [|[[c sc] p] ks Hc _ IH]; intros [l o] He; cbn [fold_left]; [done|]. apply IH. unfold edit_key. cbn [fst snd] in *.
  destruct p; [|done]. cbn [negb]. destruct (_ || _); [done|]. destruct (c =? 8).
  - destruct l as [|c' l]; [done|]. cbn [fst]. rewrite removelast_firstn_len. by apply Forall_take.
  - destruct (_ && _) eqn:E; [|done]. apply andb_prop in E as [E%Z.leb_le _]. cbn [fst]. apply Forall_app. split; [done|]. constructor; [lia | done].
Qed.

Lemma edit_length ks e : (length e.1 <= 255)%nat -> (length (fold_left edit_key ks e).1 <= 255)%nat.
Proof.
  revert e. induction ks as [|[[c sc] p] ks IH]; intros [l o] He; cbn [fold_left]; [done|]. apply IH. unfold edit_key. cbn [fst snd] in *.
  destruct p; [|done]. cbn [negb]. destruct (_ || _); [done|]. destruct (c =? 8).
  - destruct l as [|c' l]; [done|]. cbn [fst]. rewrite removelast_firstn_len, length_firstn. lia.
  - destruct (_ && _) eqn:E; [|done]. apply andb_prop in E as [_ E%Z.ltb_lt]. cbn [fst]. rewrite length_app. cbn [length]. lia.
Qed.

(** Only the console of the state is touched by what goes to the screen. *)
Lemma screen_with f s : screen (term (with_screen f s)) = f (screen (term s)).
Proof. done. Qed.
Lemma set_term_with t f s : set_term t (with_screen f s) = set_term t s.
Proof. done. Qed.
Lemma with_set_term f t s : with_screen f (set_term t s) = set_term (set_screen (f (screen t)) t) s.
Proof. done. Qed.

(** The screen when the line has been read: the prompt, the echo, and the
    line feed. *)
Definition prompted (echo : list Z) (v : vga W) : vga W :=
  let v := vga_puts (bytes_of "AIOS> ") (vga_set_color VGA_COLOR_LIGHT_GREEN VGA_COLOR_BLACK v) in
  vga_puts (echo ++ [10]) (vga_set_color VGA_COLOR_WHITE VGA_COLOR_BLACK v).

Lemma prompt_screen echo s : vga_putchar 10 (vga_puts echo (screen (term (prompt s)))) = prompted echo (screen (term s)).
Proof. unfold prompt, prompted. rewrite !screen_with, puts_app. generalize (vga_puts echo (vga_set_color VGA_COLOR_WHITE VGA_COLOR_BLACK (vga_puts (bytes_of "AIOS> ") (vga_set_color VGA_COLOR_LIGHT_GREEN VGA_COLOR_BLACK (screen (term s)))))). done. Qed.

Lemma set_term_prompt t s : set_term t (prompt s) = set_term t s.
Proof. unfold prompt. by rewrite !set_term_with. Qed.

Lemma after_line t' echo s : screen t' = vga_puts echo (screen (term (prompt s))) ->
  sh_putchar 10 (set_term t' (prompt s)) = set_term (set_screen (prompted echo (screen (term s))) t') s.
Proof. intros Hv. unfold sh_putchar. rewrite set_term_prompt, with_set_term, Hv. f_equal. f_equal. exact (prompt_screen echo s). Qed.

Lemma shell_step_read fuel line wakes s n buf' wakes' t' : terminal_readline LINE_MAX line wakes (term (prompt s)) = Some (n, buf', wakes', t') ->
  shell_step cat_buf dump_buf fuel line wakes s =
    '(line, o) ← dispatch cat_buf dump_buf fuel buf' (sh_putchar 10 (set_term t' (prompt s))); Some (line, wakes', o).
Proof. intros E. unfold shell_step. change SHELL_LINE_MAX with LINE_MAX. rewrite E, bind_some. reflexivity. Qed.

Lemma shell_step_ok fuel line quiet ks later s :
  Forall (fun k => is_enter k = false) (concat quiet) -> existsb is_enter ks = true -> Forall (fun k : key => k.1.1 < 128) (concat quiet ++ ks) ->
  let e := edit (concat quiet ++ ks) in
  exists line' t', screen t' = prompted e.2 (screen (term s)) /\
    shell_step cat_buf dump_buf fuel line (quiet ++ ks :: later) s =
      (o ← run_words fuel (take 16 (words e.1)) (set_term t' s); Some (line', later, o)).
Proof.
  intros Hq Hk Hc. cbv zeta. destruct (readline_ok quiet ks later line (term (prompt s)) Hq Hk) as (buf' & t' & E & Hs & Hv).
  rewrite (shell_step_read _ _ _ _ _ _ _ _ E), (after_line _ _ _ Hv). clear E. revert Hs Hv.
  assert (text_chars (edit (concat quiet ++ ks)).1) as Ht by (apply edit_chars; [done | constructor]).
  assert (length (edit (concat quiet ++ ks)).1 <= 255)%nat as Hl by (apply edit_length; cbn; lia).
  revert Ht Hl. generalize (edit (concat quiet ++ ks)). intros e Ht Hl Hs Hv. set (t2 := set_screen _ t').
  destruct (dispatch_ok fuel buf' e.1 (set_term t2 s)) as (line' & Ed); [by split; [|apply text_chars_nz] | done..|].
  exists line', t2. split; [done|]. rewrite Ed. by destruct (run_words _ _ _).
Qed.
End Run.

(** ** From the keys of the keyboard to the command *)

Section Typing.
Context {G T : Type} (call_gui : G -> key_event -> list key -> list key).

(** What reaches the text callback, in order. *)
Definition log_key (cb : T) (c sc : Z) (p : bool) (log : list key) : list key := log ++ [(c, sc, p)].
Notation feed := (Keyboard.feed call_gui log_key).
Notation process := (keyboard_process_scancode call_gui log_key).

Definition sent_char (k : key) : option Z := if k.1.1 =? 0 then None else Some k.1.1.

(** The text callback, and no other, is installed. *)
Definition text_mode (k : keyboard G T) : Prop := g_gui_cb k = None /\ is_Some (g_text_cb k).

Lemma text_mode_cbs k k' : cbs k' = cbs k -> text_mode k -> text_mode k'.
Proof. unfold cbs, text_mode. by intros [= -> ->]. Qed.

Lemma process_sends raw k w : raw <> 0xE0 -> g_e0 k = false -> text_mode k ->
  let sc := Z.land raw 0x7F in
  let released := negb (Z.land raw 0x80 =? 0) in
  let k1 := update_modifiers sc released k in
  snd (process raw k w) = if released then w else w ++ [(translate_scancode sc (g_shift k1) (g_caps k1), sc, true)].
Proof.
  intros Hraw He [Hg [cb Ht]]. cbv zeta. unfold keyboard_process_scancode. rewrite (proj2 (Z.eqb_neq raw 0xE0)) by done.
  set (released := negb (Z.land raw 0x80 =? 0)). set (k1 := update_modifiers _ _ k).
  assert (g_e0 k1 = g_e0 k /\ g_gui_cb k1 = g_gui_cb k /\ g_text_cb k1 = g_text_cb k) as (E1 & E2 & E3).
  { subst k1. unfold update_modifiers. by repeat case_match. }
  rewrite E1, He. destruct released; cbn [negb andb];
    [cbn [pressed andb g_gui_cb g_text_cb kbd_event_push set_mods]; by rewrite E2, E3, Hg, Ht|].
  cbn [pressed ascii andb]. destruct (negb (_ =? 0)); cbn [g_gui_cb g_text_cb kbd_event_push ascii_push set_mods pressed]; by rewrite E2, E3, Hg, Ht.
Qed.

Lemma feed_sends c k w : typable c -> mods k = (false, false, false, false, false) -> text_mode k ->
  exists pre sc, snd (feed (keystrokes c) k w) = w ++ pre ++ [(c, sc, true)] /\ Forall (fun x => x.1.1 = 0 /\ x.2 = true) pre.
Proof.
  intros Hc Hm Htm. pose proof (key_ok_typable c Hc) as Hk. unfold key_ok, keystrokes in *. destruct (key_of c) as [[sc sh]|]; [|done].
  rewrite !andb_true_iff, !negb_true_iff, !Z.ltb_lt, !Z.eqb_eq, !Z.eqb_neq in Hk. destruct Hk as [[[[[[[[[[H1 H2] H3] H4] H5] H6] H7] H8] H9] H10] H11].
  assert (c <> 0) as Hc0 by (unfold typable in Hc; lia).
  assert (forall k w, mods k = (sh, false, false, false, false) -> text_mode k -> snd (feed [sc; sc + 0x80] k w) = w ++ [(c, sc, true)]) as Hkey.
  { clear k w Hm Htm. intros k w Hm Htm. unfold Keyboard.feed. cbn [fold_left fst snd]. unfold mods in Hm. injection Hm as Hs _ _ Hcap He.
    pose proof (process_sends sc k w ltac:(lia) He Htm) as P1. pose proof (process_plain call_gui log_key sc k w) as Q1. cbv zeta in P1, Q1. rewrite H8, H9 in P1, Q1.
    assert (update_modifiers sc false k = k) as Eu by (unfold update_modifiers; by rewrite H3, !(proj2 (Z.eqb_neq _ _))). cbn [Z.eqb negb] in P1, Q1. rewrite Eu, Hs, Hcap, H7 in P1.
    destruct Q1 as (M1 & C1 & _); [lia | done..|]. destruct (process sc k w) as [k1 w1]. cbn [fst snd] in *. rewrite P1.
    assert (g_e0 k1 = false) as He1 by (unfold mods in M1; injection M1; congruence).
    pose proof (process_sends (sc + 0x80) k1 (w ++ [(c, sc, true)]) ltac:(lia) He1 (text_mode_cbs _ _ C1 Htm)) as P2. cbv zeta in P2.
    rewrite (proj2 (Z.eqb_neq (Z.land (sc + 0x80) 0x80) 0)) in P2 by done. exact P2. }
  destruct sh; [|exists [], sc; split; [by apply Hkey | constructor]].
  change [0x2A; sc; sc + 0x80; 0xAA] with ([0x2A] ++ [sc; sc + 0x80] ++ [0xAA]). rewrite feed_app, feed_one. unfold mods in Hm. injection Hm as Hs Hct Hal Hcap He.
  destruct (process_shift call_gui log_key 0x2A k w) as (M1 & C1 & _); [by left | done|].
  pose proof (process_sends 0x2A k w ltac:(lia) He Htm) as P1. cbv zeta in P1. change (Z.land 0x2A 0x7F) with 0x2A in P1. change (Z.land 0x2A 0x80) with 0 in P1. cbn [Z.eqb negb] in P1.
  assert (translate_scancode 42 (g_shift (update_modifiers 42 false k)) (g_caps (update_modifiers 42 false k)) = 0) as E0 by (unfold update_modifiers; cbn; by rewrite Hcap). rewrite E0 in P1.
  destruct (process 0x2A k w) as [k1 w1]. cbn [fst snd] in *. subst w1. rewrite Hct, Hal, Hcap in M1. pose proof (text_mode_cbs _ _ C1 Htm) as T1.
  rewrite feed_app, feed_one. pose proof (Hkey k1 (w ++ [(0, 42, true)]) M1 T1) as P2.
  assert (mods (fst (feed [sc; sc + 0x80] k1 (w ++ [(0, 42, true)]))) = mods k1 /\ cbs (fst (feed [sc; sc + 0x80] k1 (w ++ [(0, 42, true)]))) = cbs k1) as [M2 C2].
  { clear P2. unfold Keyboard.feed. cbn [fold_left fst snd]. assert (g_e0 k1 = false) as He1 by (unfold mods in M1; injection M1; congruence).
    pose proof (process_plain call_gui log_key sc k1 (w ++ [(0, 42, true)])) as Q1. cbv zeta in Q1. rewrite H9 in Q1. destruct Q1 as (M2 & C2 & _); [lia | done..|].
    destruct (process sc k1 _) as [k2 w2]. cbn [fst snd] in *. pose proof (process_plain call_gui log_key (sc + 0x80) k2 w2) as Q2. cbv zeta in Q2. rewrite H11 in Q2.
    destruct Q2 as (M3 & C3 & _); [lia | done.. | unfold mods in M2; injection M2; congruence|]. by rewrite M3, C3. }
  destruct (feed [sc; sc + 0x80] k1 _) as [k2 w2]. cbn [fst snd] in *. subst w2.
  assert (g_e0 k2 = false) as He2 by (rewrite M1 in M2; unfold mods in M2; injection M2; congruence).
  pose proof (process_sends 0xAA k2 ((w ++ [(0, 42, true)]) ++ [(c, sc, true)]) ltac:(lia) He2 (text_mode_cbs _ _ C2 T1)) as P3. cbv zeta in P3.
  change (negb (Z.land 0xAA 0x80 =? 0)) with true in P3. cbn iota in P3. exists [(0, 42, true)], sc. rewrite P3, <- app_assoc. split; [done|]. by repeat constructor.
Qed.

Lemma omap_silent pre : Forall (fun x : key => x.1.1 = 0 /\ x.2 = true) pre -> omap sent_char pre = [].
Proof. induction 1 as [|x pre [Hx _] _ IH]; [done|]. cbn [omap list_omap]. unfold sent_char at 1. by rewrite Hx. Qed.

Lemma text_sends text k w : Forall typable text -> mods k = (false, false, false, false, false) -> text_mode k ->
  let k' := fst (feed (flat_map keystrokes text) k w) in
  mods k' = mods k /\ text_mode k' /\
  exists sent, snd (feed (flat_map keystrokes text) k w) = w ++ sent /\ omap sent_char sent = text /\ Forall (fun x => x.2 = true) sent.
Proof.
  intros Ht. revert k w. induction Ht as [|c text Hc Ht IH]; intros k w Hm Htm; cbv zeta; [split; [done|]; split; [done|]; exists []; by rewrite app_nil_r|].
  cbn [flat_map]. rewrite feed_app. destruct (feed_sends c k w Hc Hm Htm) as (pre & sc & E & Hp). destruct (Keyboard.feed_key call_gui log_key c k w Hc Hm) as (M1 & C1 & _).
  destruct (feed (keystrokes c) k w) as [k1 w1]. cbn [fst snd] in *. subst w1. pose proof (text_mode_cbs _ _ C1 Htm) as T1.
  destruct (IH k1 (w ++ pre ++ [(c, sc, true)])) as (M2 & T2 & sent & E & Eo & Hs); [by rewrite M1 | done|]. rewrite M2, M1. split; [done|]. split; [done|].
  exists (pre ++ (c, sc, true) :: sent). rewrite E, <- !app_assoc. split; [done|]. split.
  - rewrite omap_app, (omap_silent pre Hp). cbn [app omap list_omap]. change (sent_char (c, sc, true)) with (if c =? 0 then None else Some c).
    rewrite (proj2 (Z.eqb_neq c 0)) by (unfold typable in Hc; lia). by rewrite Eo.
  - apply Forall_app. split; [eapply Forall_impl; [exact Hp|]; by intros x [_ ?] | by constructor].
Qed.

(** The line depends on the characters alone. *)
Lemma edit_sent sent e : Forall (fun x : key => x.2 = true) sent ->
  fold_left edit_key sent e = fold_left (fun e c => edit_key e (c, 0, true)) (omap sent_char sent) e.
Proof.
  intros Hs. revert e. induction Hs as [|[[c sc] p] sent Hp _ IH]; intros e; [done|]. cbn [fst snd] in *. subst p.
  cbn [fold_left omap list_omap]. change (sent_char (c, sc, true)) with (if c =? 0 then None else Some c).
  destruct (Z.eqb_spec c 0) as [->|N]; [|cbn [fold_left]; apply IH]. rewrite IH. f_equal.
Qed.

Lemma edit_plain text l o : Forall (fun c => 32 <= c <= 126) text -> (length l + length text <= 255)%nat ->
  fold_left (fun e c => edit_key e (c, 0, true)) text (l, o) = (l ++ text, o ++ text).
Proof.
  intros Ht. revert l o. induction Ht as [|c text Hc _ IH]; intros l o Hl; cbn [fold_left]; [by rewrite !app_nil_r|]. cbn [length] in Hl.
  assert (edit_key (l, o) (c, 0, true) = (l ++ [c], o ++ [c])) as ->.
  { unfold edit_key. cbn [fst snd negb]. rewrite !(proj2 (Z.eqb_neq _ _)) by lia. cbn [orb]. rewrite (proj2 (Z.leb_le _ _)), (proj2 (Z.ltb_lt _ _)) by lia. done. }
  rewrite IH by (rewrite length_app; cbn; lia). by rewrite <- !app_assoc.
Qed.
End Typing.

Section Command.
Context {G T W V K : Type} {PW : Ports W} {FV : FileSys V} {SK : ShellKernel K} (cat_buf dump_buf : Z) (call_gui : G -> key_event -> list key -> list key).

(** C39: a command line typed on the keyboard runs: the key presses the
    interrupt handler makes of [text] and Enter, however they are bunched
    between two looks of the shell, are echoed behind the prompt, and the
    command the first word names is run with the words of the text; a name
    that is not in the table is answered so. *)
Theorem typed_command_runs text (k : keyboard G T) quiet last later fuel line (s : shell W V K) :
  Forall (fun c => 32 <= c <= 126) text -> (length text <= 255)%nat -> mods k = (false, false, false, false, false) -> text_mode k ->
  snd (Keyboard.feed call_gui (log_key (T := T)) (flat_map keystrokes (text ++ [10])) k []) = concat quiet ++ last -> last <> [] ->
  exists line' t', screen t' = prompted text (screen (term s)) /\
    shell_step cat_buf dump_buf fuel line (quiet ++ last :: later) s =
      (o ← run_words cat_buf dump_buf fuel (take 16 (words text)) (set_term t' s); Some (line', later, o)).
Proof.
  intros Ht Hl Hm Htm E Hlast. rewrite flat_map_app, feed_app in E. cbn [flat_map] in E. rewrite app_nil_r in E.
  assert (Forall typable text) as Hty by (eapply Forall_impl; [exact Ht|]; unfold typable; lia).
  destruct (text_sends call_gui text k [] Hty Hm Htm) as (M & T1 & sent & Es & Eo & Hs). destruct (Keyboard.feed call_gui log_key (flat_map keystrokes text) k []) as [k1 w1]. cbn [fst snd] in *.
  cbn [app] in Es. subst w1. destruct (feed_sends call_gui 10 k1 sent) as (pre & sc & E2 & Hp); [right; lia | by rewrite M | done|]. rewrite E2 in E. clear E2.
  rewrite app_assoc in E. assert (exists last', last = last' ++ [(10, sc, true)] /\ sent ++ pre = concat quiet ++ last') as (last' & -> & E').
  { destruct last as [|x last' _] using rev_ind; [done|]. rewrite app_assoc in E. apply app_inj_tail in E as [E' <-]. by exists last'. }
  assert (Forall (fun x : key => x.2 = true) (sent ++ pre)) as Hpr by (apply Forall_app; split; [done|]; eapply Forall_impl; [exact Hp|]; by intros x [_ ?]).
  assert (omap sent_char (sent ++ pre) = text) as Eom.
  { by rewrite omap_app, Eo, (omap_silent pre Hp), app_nil_r. }
  assert (Forall (fun x : key => x.1.1 = 0 \/ 32 <= x.1.1 <= 126) (sent ++ pre)) as Hch.
  { apply List.Forall_forall. intros x Hx. destruct (decide (x.1.1 = 0)) as [?|N]; [by left|]. right. rewrite List.Forall_forall in Ht. apply Ht. rewrite <- Eom.
    apply list_elem_of_In, list_elem_of_omap. exists x. split; [by apply list_elem_of_In|]. unfold sent_char. by rewrite (proj2 (Z.eqb_neq _ _)). }
  assert (concat quiet ++ last' ++ [(10, sc, true)] = (sent ++ pre) ++ [(10, sc, true)]) as Eall by done.
  destruct (shell_step_ok cat_buf dump_buf fuel line quiet (last' ++ [(10, sc, true)]) later s) as (line' & t' & H1 & H2).
  - rewrite E' in Hch. apply Forall_app in Hch as [Hch _]. eapply Forall_impl; [exact Hch|]. intros [[c sc'] p] Hx. cbn in Hx. unfold is_enter. cbn [fst snd]. rewrite (proj2 (Z.eqb_neq c 13)), (proj2 (Z.eqb_neq c 10)) by lia. apply andb_false_r.
  - rewrite existsb_app. cbn. apply orb_true_r.
  - rewrite Eall. apply Forall_app. split; [eapply Forall_impl; [exact Hch|]; intros [[c sc'] p] Hx; cbn in *; lia|]. constructor; [cbn; lia | constructor].
  - exists line', t'. cbv zeta in H1, H2. assert (edit (concat quiet ++ last' ++ [(10, sc, true)]) = (text, text)) as Ee; [|rewrite Ee in H1, H2; done].
    rewrite Eall.     unfold edit. rewrite fold_left_app, (edit_sent _ _ Hpr), Eom, (edit_plain text [] [] Ht Hl). done.
Qed.
End Command.

(** ** Examples *)

(** A kernel without a frame buffer. *)
#[export] Instance bare_kernel : ShellKernel unit := {
  k_total_pages _ := 0; k_free_pages _ := 0; k_foreach _ _ ctx _ := ctx; k_fb_width _ := None; k_gui_input_enable k := k;
  k_wm_start k := Some k; k_sleep _ k := k; k_acpi_shutdown _ := [Halt];
}.

Definition demo_shell : shell port_log table unit :=
  mk_shell (mk_console (fun _ => 0) 0 false (mk_vga 0 0 7 VGA_MEMORY (fun _ => 0) [])) [] tt false.

Definition demo_line : Z -> Z := path_fun (bytes_of "echo 'a b'  c").

Lemma shell_tokenize_correct_witness : exists argv buf',
  shell_tokenize 13 demo_line 16 = Some (argv, buf') /\ Forall2 (zstring buf') argv [bytes_of "echo"; bytes_of "a b"; bytes_of "c"].
Proof.
  destruct (shell_tokenize_correct (bytes_of "echo 'a b'  c") demo_line 16) as (argv & buf' & E & F & _).
  - split; [|by repeat constructor]. apply bytes_at_eq; [done|]. intros i Hi. cbn in Hi. unfold demo_line, path_fun.
    assert (forallb (fun i => nth (Z.to_nat (0 + i)) (bytes_of "echo 'a b'  c") 0 =? nth (Z.to_nat i) (bytes_of "echo 'a b'  c" ++ [0]) 0) (seqZ 0 14) = true) as Ef by (vm_compute; reflexivity).
    rewrite forallb_forall in Ef. apply Z.eqb_eq, Ef, list_elem_of_In, elem_of_seqZ. lia.
  - lia.
  - exists argv, buf'. split; [exact E | exact F].
Defined.

Definition text_kbd : keyboard unit unit :=
  mk_kbd (mk_ring (fun _ => mk_key 0 0 false false false false false) 0 0) (mk_ring (fun _ => 0) 0 0) false false false false false None (Some tt).

Definition demo_sent : list key := snd (Keyboard.feed (fun _ _ w => w) (log_key (T := unit)) (flat_map keystrokes (bytes_of "echo HI" ++ [10])) text_kbd []).

(** "echo HI" and Enter, handled between two looks of the shell. *)
Lemma typed_command_runs_witness : exists line' t',
  shell_step 5000 6000 1 (fun _ => 0) [demo_sent] demo_shell = Some (line', [], Back (sh_puts (bytes_of "HI" ++ [10]) (set_term t' demo_shell))).
Proof.
  destruct (typed_command_runs 5000 6000 (fun _ _ w => w) (bytes_of "echo HI") text_kbd [] demo_sent [] 1 (fun _ => 0) demo_shell) as (line' & t' & _ & E).
  - apply (bool_decide_unpack _). vm_compute. exact Logic.I.
  - cbn. lia.
  - reflexivity.
  - split; [reflexivity | by exists tt].
  - unfold demo_sent. cbn [concat app]. reflexivity.
  - intros E. apply (f_equal (@length key)) in E. vm_compute in E. discriminate E.
  - exists line', t'. exact E.
Defined.
