(* ===== verification/ShellKernel.v ===== *)
(** The rest of the kernel as the shell reaches it: the page allocator, the
    task table behind the kernel threads and the scheduler, the frame buffer,
    the input devices and the power management. *)

From S2P Require Import Prelude Memory Pmm Alloc Task Sched Kthread Ring Keyboard Mouse Input Framebuffer Ports Vga Acpi Readline Files Shell.
Local Open Scope Z_scope.

Section Kernel.
Context {A : Type} `{Allocator A} {T : Type}.
(** The addresses of the trampolines and of the window manager's thread. *)
Variables task_entry_trampoline kthread_trampoline_addr wm_thread_main : Z.

Record kernel_state := mk_kernel {
  ks_pmm : pmm; ks_threads : kthreads A; ks_cpu : cpu; ks_fb : option framebuffer;
  ks_input : @input_devices T; ks_acpi : acpi;
}.

Definition set_threads (t : kthreads A) (k : kernel_state) : kernel_state := mk_kernel (ks_pmm k) t (ks_cpu k) (ks_fb k) (ks_input k) (ks_acpi k).

Definition gui_wm_start (k : kernel_state) : option kernel_state :=
  '(_, t) ← kthread_create task_entry_trampoline kthread_trampoline_addr wm_thread_main 0 65536 (Some (c_string (bytes_of "gui_wm"))) (ks_threads k);
  Some (set_threads t k).

Definition kernel_sleep (ms : Z) (k : kernel_state) : kernel_state :=
  let t := ks_threads k in
  let '(c, s) := sched_sleep ms (ks_cpu k) (sch t) in
  mk_kernel (ks_pmm k) (mk_kthreads s (g_slots t) (g_slots_init t)) c (ks_fb k) (ks_input k) (ks_acpi k).

Definition kernel_calls : ShellKernel kernel_state := {|
  k_total_pages k := pmm_get_total_pages (ks_pmm k);
  k_free_pages k := pmm_get_free_pages (ks_pmm k);
  k_foreach T cb ctx k := task_foreach (fun i c => cb (tk (sch (ks_threads k)) i) c) ctx (ts (sch (ks_threads k)));
  k_fb_width k := width <$> ks_fb k;
  k_gui_input_enable k := mk_kernel (ks_pmm k) (ks_threads k) (ks_cpu k) (ks_fb k) (gui_input_enable (ks_input k)) (ks_acpi k);
  k_wm_start := gui_wm_start;
  k_sleep := kernel_sleep;
  k_acpi_shutdown k := acpi_shutdown (ks_acpi k);
|}.
End Kernel.
