(* ===== verification/CommandSpec.v ===== *)
(** What the commands print: echo its words, cat the file, piece by piece;
    and the file layer of Vfs.v behind cat. *)

From S2P Require Import Prelude Memory Disk Fat32 Fat32Spec Vfs Ports Vga Readline Files Task Acpi Shell.
Local Open Scope Z_scope.

(** Reading a file through a descriptor, a piece at a time: [fs_rest fd v rest]
    holds when [rest] is still to be read. *)
Class FileStream (V : Type) `{FileSys V} := {
  fs_rest : Z -> V -> list Z -> Prop;
  fs_read_rest fd buf count rest v : buf <> 0 -> 0 < count < 2 ^ 31 -> fs_rest fd v rest ->
    exists b v', fs_read fd buf count v = Some (Z.min count (Z.of_nat (length rest)), b, v') /\
      seg b 0 (take (Z.to_nat count) rest) /\ fs_rest fd v' (drop (Z.to_nat count) rest);
}.

Section Commands.
Context {W V K : Type} {PW : Ports W} {FV : FileSys V} {SK : ShellKernel K} (cat_buf dump_buf : Z).
Implicit Type s : shell W V K.

(** What [s] has when [str] is printed. *)
Lemma sh_putchar_puts c s : sh_putchar c s = sh_puts [c] s.
Proof. done. Qed.

Lemma echo_args_ok args s : echo_args args s = sh_puts (match args with [] => [] | a :: l => a ++ flat_map (fun w => 32 :: w) l end) s.
Proof.
  revert s. induction args as [|a args IH]; intros s; [by destruct s as [[] ? ? ?]|]. destruct args as [|b args]; cbn [echo_args flat_map]; [by rewrite app_nil_r|].
  cbn [echo_args] in IH. by rewrite IH, sh_putchar_puts, <- !sh_puts_app.
Qed.

Lemma cmd_echo_ok cmd args s : cmd_echo (cmd :: args) s = sh_puts (match args with [] => [] | a :: l => a ++ flat_map (fun w => 32 :: w) l end ++ [10]) s.
Proof. unfold cmd_echo. cbn [tl]. by rewrite echo_args_ok, sh_putchar_puts, <- sh_puts_app. Qed.

(** Putting the bytes [l] of a buffer one after the other. *)
Lemma put_bytes b l s : seg b 0 l -> for_up (length l) 0 (fun i s => sh_putchar (b i) s) s = sh_puts l s.
Proof.
  intros Hs. assert (forall n i s, (forall j, 0 <= j < Z.of_nat (length n) -> b (i + j) = nth (Z.to_nat j) n 0) -> for_up (length n) i (fun i s => sh_putchar (b i) s) s = sh_puts n s) as E.
  { clear. intros n. induction n as [|c n IH]; intros i s Hn; cbn [length for_up]; [by destruct s as [[] ? ? ?]|].
    pose proof (Hn 0 ltac:(cbn; lia)) as H0. rewrite Z.add_0_r in H0. cbn in H0. rewrite H0, sh_putchar_puts, IH, <- sh_puts_app; [done|].
    intros j Hj. replace (i + 1 + j) with (i + (j + 1)) by lia. rewrite Hn by (cbn; lia). by replace (Z.to_nat (j + 1)) with (S (Z.to_nat j)) by lia. }
  apply E. intros j Hj. by apply (seg_nth b 0 l j Hs).
Qed.

Lemma sh_puts_files str v s : sh_puts str (set_files v s) = set_files v (sh_puts str s).
Proof. done. Qed.

Context {FST : FileStream V}.

Lemma cat_loop_ok n : forall fuel fd data s, fs_rest fd (sfiles s) data -> cat_buf <> 0 -> (length data <= 256 * n)%nat -> (n < fuel)%nat ->
  exists v, cat_loop cat_buf fuel fd s = Some (set_files v (sh_puts data s)) /\ fs_rest fd v [].
Proof.
  induction n as [|n IH]; intros [|fuel] fd data s Hr Hb Hd Hf; try lia; cbn [cat_loop];
    destruct (fs_read_rest fd cat_buf 256 data (sfiles s) Hb ltac:(lia) Hr) as (b & v' & -> & Hs & Hr'); cbn [mbind option_bind].
  - destruct data; [|cbn in Hd; lia]. exists v'. split; [cbn; by destruct s as [[] ? ? ?] | by rewrite drop_nil in Hr'].
  - destruct (Z.ltb_spec 0 (Z.min 256 (Z.of_nat (length data)))) as [Hp|Hp].
    + assert (Z.to_nat (Z.min 256 (Z.of_nat (length data))) = length (take (Z.to_nat 256) data)) as -> by (rewrite length_take; lia). rewrite (put_bytes b _ _ Hs).
      destruct (IH fuel fd (drop (Z.to_nat 256) data) (sh_puts (take (Z.to_nat 256) data) (set_files v' s))) as (v & -> & Hv); [done | done | rewrite length_drop; lia | lia|].
      exists v. split; [by rewrite <- sh_puts_app, take_drop | done].
    + destruct data; [|cbn in Hp; lia]. exists v'. split; [cbn; by destruct s as [[] ? ? ?] | by rewrite drop_nil in Hr'].
Qed.

(** cat on any stream: the bytes all in order and a line feed, and nothing
    left to read when the file is closed; or the message. *)
Lemma cat_stream_ok fuel cmd path args fd v data s :
  fs_open path (sfiles s) = Some (fd, v) -> cat_buf <> 0 -> (0 <= fd -> fs_rest fd v data /\ (length data + 256 <= 256 * fuel)%nat) ->
  if fd <? 0 then run_builtin cat_buf dump_buf fuel Cat (cmd :: path :: args) s =
    Some (Back (set_files v (sh_puts (bytes_of "cat: cannot open '" ++ path ++ bytes_of "'" ++ [10]) s)))
  else exists v', fs_rest fd v' [] /\
    run_builtin cat_buf dump_buf fuel Cat (cmd :: path :: args) s = Some (Back (set_files (fs_close fd v') (sh_puts (data ++ [10]) s))).
Proof.
  intros Ho Hb Hr. cbn [run_builtin cmd_cat]. unfold cmd_cat. rewrite Ho. cbn [mbind option_bind]. destruct (Z.ltb_spec fd 0) as [Hn|Hn].
  - cbn [fmap option_fmap option_map]. unfold cannot_open. by rewrite <- !sh_puts_app, sh_puts_files, <- !app_assoc.
  - destruct (Hr Hn) as [Hd Hl]. destruct (cat_loop_ok (fuel - 1) fuel fd data (set_files v s)) as (v' & -> & Hv); [done | done | lia | lia|].
    cbn [mbind option_bind fmap option_fmap option_map]. exists v'. split; [done|]. rewrite sh_putchar_puts, sh_puts_files, <- sh_puts_app. done.
Qed.
End Commands.

(** ** Behind cat: files of the FAT32 volume *)

Section Volume.
Context {D : Type} {BD : BlockDev D} {BS : BlockDevSpec D} (stack_name stack_target stack_83 : Z -> Z) (vfuel : nat).

#[local] Instance volume_files : FileSys (vfs D) := vfs_files stack_name stack_target stack_83 vfuel.

(** The bytes of a file with the clusters [l]. *)
Definition file_data (v : vfs D) (f : vfs_file) (l : list Z) : list Z :=
  bytes_at (file_byte (cdata (fsys v)) (cluster_bytes (fsys v)) l) 0 (f_size f).

(** The bytes of an open file from its position on. *)
Definition file_rest (v : vfs D) (f : vfs_file) (l : list Z) : list Z :=
  bytes_at (file_byte (cdata (fsys v)) (cluster_bytes (fsys v)) l) (f_pos f) (f_size f - f_pos f).

(** A file that fits one cluster, or lies in clusters of 64 KB, can be read
    piece by piece; of others the pieces behind the first are wrong.  Since
    [v0] the volume and the other descriptors have not changed. *)
Definition piecewise (v : vfs D) (f : vfs_file) : Prop := cluster_bytes (fsys v) = 65536 \/ f_size f <= cluster_bytes (fsys v).
Definition vfs_rest (v0 : vfs D) (fd : Z) (v : vfs D) (rest : list Z) : Prop :=
  exists f l, open_ok v fd f l /\ (length l <= vfuel)%nat /\ piecewise v f /\ rest = file_rest v f l /\
    same_volume (fsys v0) (fsys v) /\ forall fd', fd' <> fd -> g_fds v fd' = g_fds v0 fd'.

Lemma bytes_split g a total count : 0 <= total -> 0 <= count -> let n := Z.min count total in
  take (Z.to_nat count) (bytes_at g a total) = bytes_at g a n /\ drop (Z.to_nat count) (bytes_at g a total) = bytes_at g (a + n) (total - n).
Proof.
  intros Ht Hc n. assert (bytes_at g a total = bytes_at g a n ++ bytes_at g (a + n) (total - n)) as -> by (rewrite <- bytes_at_app by lia; f_equal; lia).
  destruct (decide (total < count)) as [Hlt|Hge].
  - replace (total - n) with 0 by lia. rewrite app_nil_r. split; [apply take_ge | rewrite drop_ge; [done|]]; rewrite bytes_at_length; lia.
  - assert (length (bytes_at g a n) = Z.to_nat count) as <- by (rewrite bytes_at_length; lia). split; [apply take_app_length | apply drop_app_length].
Qed.

Definition vfs_stream (v0 : vfs D) : FileStream (vfs D).
Proof.
  refine {| fs_rest := vfs_rest v0 |}. intros fd buf count rest v Hb Hc (f & l & O & Hl & Hf & -> & S0 & G0). pose proof O as [_ V _ C Hcap [Hp Hs]].
  destruct (vfs_read_correct vfuel fd f l buf count v O Hl Hb ltac:(lia) ltac:(lia) ltac:(unfold piecewise in Hf; tauto)) as (v' & E & O' & _ & Go & R & Sv).
  destruct (bytes_split (file_byte (cdata (fsys v)) (cluster_bytes (fsys v)) l) (f_pos f) (f_size f - f_pos f) count ltac:(lia) ltac:(lia)) as [Etake Edrop].
  set (n := Z.min count (f_size f - f_pos f)) in *. unfold file_rest at 1 2 3. rewrite Etake, Edrop, bytes_at_length, Z2Nat.id by lia. fold n. cbn [volume_files vfs_files fs_read]. rewrite E.
  eexists _, v'. split; [done|]. split.
  - apply bytes_at_eq; [lia|]. intros i Hi. rewrite bytes_at_length in Hi. rewrite R. destruct (Z.leb_spec buf (buf + (0 + i))), (Z.ltb_spec (buf + (0 + i)) (buf + n)); cbn [andb]; try lia.
    rewrite bytes_at_nth by lia. f_equal. lia.
  - eexists _, l. split; [exact O'|]. unfold piecewise. cbn [f_size f_pos]. rewrite (same_volume_cb _ _ Sv). split; [done|]. split; [done|]. split; [|split].
    + unfold file_rest. cbn [f_size f_pos]. rewrite (same_volume_cb _ _ Sv). replace (f_size f - (f_pos f + n)) with (f_size f - f_pos f - n) by lia.
      apply bytes_at_agree. intros i Hi. symmetry. apply file_byte_ext; [lia | pose proof (v_spc _ V); unfold cluster_bytes; lia|].
      intros c j Hcl Hj. symmetry. apply same_volume_cdata; [done | by eapply chain_valid | done].
    + by eapply same_volume_trans.
    + intros fd' Hne. by rewrite Go, G0.
Defined.

(** A descriptor that was just opened stands at the beginning. *)
Lemma open_pos path v0 fd v f : fs_open path v0 = Some (fd, v) -> 0 <= fd -> get_fd fd v = Some f -> f_pos f = 0.
Proof.
  cbn [fs_open volume_files vfs_files]. unfold vfs_open. destruct (negb _ || _); [intros [= <- <-]; lia|].
  destruct (vfs_lookup _ _ _ _ _ _) as [[[[c n]|] v1]|]; cbn [mbind option_bind]; [|intros [= <- <-]; lia | done].
  destruct (Z.ltb_spec (alloc_fd v1) 0); [intros [= <- <-]; lia|]. intros [= <- <-] _ Hg. apply get_fd_Some in Hg as (_ & Hg & _). cbn [set_fd g_fds] in Hg. rewrite upd_eq in Hg. by subst f.
Qed.

Lemma closed_fd v fd : g_vfs_ready v = true -> get_fd fd (fs_close fd v) = None /\ fsys (fs_close fd v) = fsys v /\ forall fd', fd' <> fd -> g_fds (fs_close fd v) fd' = g_fds v fd'.
Proof.
  intros Hr. cbn [fs_close volume_files vfs_files]. unfold vfs_close. rewrite Hr. cbn [negb]. destruct (get_fd fd v) as [f|] eqn:E; cbn [snd]; [|done].
  split; [|split; [done | intros fd' Hne; by apply set_fd_other]]. unfold get_fd. cbn [set_fd g_fds]. rewrite upd_eq. cbn [f_in_use closed_file negb]. by destruct (_ || _).
Qed.

End Volume.

(** ** An example *)

(** A volume with one file of 300 digits in the cluster 3, named F in the root
    directory, the cluster 2. *)
Definition cat_disk : ramdisk :=
  mk_ramdisk (fun x => if (2048 <=? x) && (x <? 2348) then 48 + (x - 2048) mod 10 else
    store32 (store16 (store8 (store8 (for_up 10 1 (fun i m => store8 m (1536 + i) 32) (store32 (store32 (store32 (store32 (fun _ => 0) (512 + 8) FAT32_EOC_MIN) (512 + 12) FAT32_EOC_MIN)
      (1024 + 8) FAT32_EOC_MIN) (1024 + 12) FAT32_EOC_MIN)) 1536 70) (1536 + 11) 0x20) (1536 + 26) 3) (1536 + 28) 300 x) 11.
Definition cat_volume : vfs ramdisk :=
  mk_vfs (mk_fat32 cat_disk (fun _ => 0) 0 0 1 3 2 1 true 2 1 8 (fun _ => 0) (fun _ => 0)) 2 (fun _ => closed_file) true (fun _ => 0).
#[local] Instance cat_files : FileSys (vfs ramdisk) := volume_files (fun _ => 0) (fun _ => 0) (fun _ => 0) 4.
Definition cat_opened : vfs ramdisk := default cat_volume (snd <$> fs_open (bytes_of "F") cat_volume).

Lemma cat_opens : fs_open (bytes_of "F") cat_volume = Some (0, cat_opened).
Proof.
  assert (match fs_open (bytes_of "F") cat_volume with Some (fd, _) => fd =? 0 | None => false end = true) as E by (vm_compute; reflexivity).
  unfold cat_opened. destruct (fs_open _ _) as [[fd v]|]; [|done]. apply Z.eqb_eq in E. by subst fd.
Qed.

Lemma cat_open_ok : open_ok cat_opened 0 (mk_vfile true 3 300 0) [3].
Proof.
  assert (vol_ok (fsys cat_opened)) as V.
  { constructor; apply (bool_decide_unpack _); vm_compute; exact Logic.I. }
  constructor; [vm_compute; reflexivity | exact V | vm_compute; reflexivity | | apply (bool_decide_unpack _); vm_compute; exact Logic.I | cbn; lia].
  cbn [chain f_first_cluster]. split; [done|]. split; [|vm_compute; reflexivity]. unfold valid. apply (bool_decide_unpack _); vm_compute; exact Logic.I.
Qed.

Definition cat_shell : shell port_log (vfs ramdisk) unit :=
  mk_shell (mk_console (fun _ => 0) 0 false (mk_vga 0 0 7 VGA_MEMORY (fun _ => 0) [])) cat_volume tt false.

