(* ===== verification/Gdt.v ===== *)
(** The segment tables (kernel/gdt.c): the packed descriptors in memory, the
    task state segment, and the loads of the segment registers; what the
    processor reads in the table afterwards.

    The processor reads back from a descriptor what was put into it, and the
    segments it runs on after [gdt_init] are those meant. *)

From S2P Require Import Prelude Memory.
Local Open Scope Z_scope.

Definition GDT_NULL_SEG : Z := 0.
Definition GDT_KERNEL_CODE_SEG : Z := 1.
Definition GDT_KERNEL_DATA_SEG : Z := 2.
Definition GDT_USER_CODE_SEG : Z := 3.
Definition GDT_USER_DATA_SEG : Z := 4.
Definition GDT_TSS_SEG_LOW : Z := 5.
Definition GDT_ENTRY_COUNT : Z := 7.
Definition GDT_KERNEL_CS : Z := Z.shiftl GDT_KERNEL_CODE_SEG 3.
Definition GDT_KERNEL_DS : Z := Z.shiftl GDT_KERNEL_DATA_SEG 3.
Definition GDT_USER_CS : Z := Z.lor (Z.shiftl GDT_USER_CODE_SEG 3) 3.
Definition GDT_USER_DS : Z := Z.lor (Z.shiftl GDT_USER_DATA_SEG 3) 3.
Definition GDT_TSS_SEL : Z := Z.shiftl GDT_TSS_SEG_LOW 3.
Definition SIZEOF_TSS : Z := 104.

Definition ACCESS_PRESENT : Z := Z.shiftl 1 7.
Definition ACCESS_DPL (x : Z) : Z := Z.shiftl (Z.land x 3) 5.
Definition ACCESS_S : Z := Z.shiftl 1 4.
Definition ACCESS_EXEC : Z := Z.shiftl 1 3.
Definition ACCESS_RW : Z := Z.shiftl 1 1.
Definition FLAG_GRAN_4K : Z := Z.shiftl 1 7.
Definition FLAG_32BIT : Z := Z.shiftl 1 6.
Definition FLAG_64BIT : Z := Z.shiftl 1 5.
Definition TSS_TYPE_AVAIL : Z := Z.lor ACCESS_PRESENT 9.

Section Gdt.
(** Where [gdt], [gdt_ptr] and [g_tss] are. *)
Variables gdt gdt_ptr g_tss : Z.

Definition gdt_set_entry (idx base limit access flags : Z) (m : mem) : mem :=
  let e := gdt + 8 * idx in
  let m := store16 m (e + 2) (u16 (Z.land base 0xFFFF)) in
  let m := store8 m (e + 4) (u8 (Z.land (Z.shiftr base 16) 0xFF)) in
  let m := store8 m (e + 7) (u8 (Z.land (Z.shiftr base 24) 0xFF)) in
  let m := store16 m e (u16 (Z.land limit 0xFFFF)) in
  let m := store8 m (e + 6) (u8 (Z.lor (Z.land (Z.shiftr limit 16) 0x0F) (Z.land flags 0xF0))) in
  store8 m (e + 5) access.

Definition gdt_set_tss (base limit : Z) (m : mem) : mem :=
  let d := gdt + 8 * GDT_TSS_SEG_LOW in
  let m := store16 m d (u16 (Z.land limit 0xFFFF)) in
  let m := store16 m (d + 2) (u16 (Z.land base 0xFFFF)) in
  let m := store8 m (d + 4) (u8 (Z.land (Z.shiftr base 16) 0xFF)) in
  let m := store8 m (d + 5) TSS_TYPE_AVAIL in
  let m := store8 m (d + 6) (u8 (Z.land (Z.shiftr limit 16) 0x0F)) in
  let m := store8 m (d + 7) (u8 (Z.land (Z.shiftr base 24) 0xFF)) in
  let m := store32 m (d + 8) (u32 (Z.land (Z.shiftr base 32) 0xFFFFFFFF)) in
  store32 m (d + 12) 0.

(** The registers the two loads set; the table register is limit and base. *)
Record seg_regs := mk_segs { gdtr : Z * Z; sel_cs : Z; sel_ds : Z; sel_es : Z; sel_fs : Z; sel_gs : Z; sel_ss : Z; task_reg : Z }.

Definition gdt_flush (m : mem) (r : seg_regs) : seg_regs :=
  mk_segs (load16 m gdt_ptr, load64 m (gdt_ptr + 2)) 0x08 0x10 0x10 0x10 0x10 0x10 (task_reg r).

(** The processor marks the segment busy in the table. *)
Definition tss_load (m : mem) (r : seg_regs) : mem * seg_regs :=
  let d := (gdtr r).2 + GDT_TSS_SEL in
  (store8 m (d + 5) (Z.lor (load8 m (d + 5)) 2),
   mk_segs (gdtr r) (sel_cs r) (sel_ds r) (sel_es r) (sel_fs r) (sel_gs r) (sel_ss r) GDT_TSS_SEL).

Definition lors (l : list Z) : Z := fold_right Z.lor 0 l.

Definition gdt_init (m : mem) (r : seg_regs) : mem * seg_regs :=
  let m := gdt_set_entry GDT_NULL_SEG 0 0 0 0 m in
  let m := gdt_set_entry GDT_KERNEL_CODE_SEG 0 0xFFFFF (lors [ACCESS_PRESENT; ACCESS_DPL 0; ACCESS_S; ACCESS_EXEC; ACCESS_RW]) (lors [FLAG_GRAN_4K; FLAG_64BIT]) m in
  let m := gdt_set_entry GDT_KERNEL_DATA_SEG 0 0xFFFFF (lors [ACCESS_PRESENT; ACCESS_DPL 0; ACCESS_S; ACCESS_RW]) (lors [FLAG_GRAN_4K; FLAG_32BIT]) m in
  let m := gdt_set_entry GDT_USER_CODE_SEG 0 0xFFFFF (lors [ACCESS_PRESENT; ACCESS_DPL 3; ACCESS_S; ACCESS_EXEC; ACCESS_RW]) (lors [FLAG_GRAN_4K; FLAG_64BIT]) m in
  let m := gdt_set_entry GDT_USER_DATA_SEG 0 0xFFFFF (lors [ACCESS_PRESENT; ACCESS_DPL 3; ACCESS_S; ACCESS_RW]) (lors [FLAG_GRAN_4K; FLAG_32BIT]) m in
  let m := store16 m (g_tss + 102) SIZEOF_TSS in
  let m := gdt_set_tss g_tss (SIZEOF_TSS - 1) m in
  let m := store16 m gdt_ptr (GDT_ENTRY_COUNT * 8 - 1) in
  let m := store64 m (gdt_ptr + 2) gdt in
  tss_load m (gdt_flush m r).
End Gdt.

(** ** What the processor reads in a descriptor at [e] *)

Definition desc_base (m : mem) (e : Z) : Z := load16 m (e + 2) + 2 ^ 16 * m (e + 4) + 2 ^ 24 * m (e + 7).
Definition desc_limit (m : mem) (e : Z) : Z := load16 m e + 2 ^ 16 * (m (e + 6) mod 16).
Definition desc_access (m : mem) (e : Z) : Z := m (e + 5).
Definition desc_flags (m : mem) (e : Z) : Z := m (e + 6) / 16 * 16.
(** The 16-byte descriptor of a system segment. *)
Definition sys_base (m : mem) (e : Z) : Z := desc_base m e + 2 ^ 32 * load32 m (e + 8).

(** A descriptor as the processor understands it: the last byte it covers, who
    may use it and how. *)
Record segment := mk_segment { seg_base : Z; seg_last : Z; seg_present : bool; seg_ring : Z; seg_memory : bool; seg_code : bool; seg_rw : bool; seg_long : bool; seg_32 : bool }.

Definition segment_of (base limit access flags : Z) : segment :=
  mk_segment base (if Z.testbit flags 7 then 4096 * limit + 4095 else limit) (Z.testbit access 7) (Z.land (Z.shiftr access 5) 3) (Z.testbit access 4)
    (Z.testbit access 3) (Z.testbit access 1) (Z.testbit flags 5) (Z.testbit flags 6).

Definition segment_at (m : mem) (e : Z) : segment := segment_of (desc_base m e) (desc_limit m e) (desc_access m e) (desc_flags m e).

(** The descriptor a selector names, when the table reaches that far. *)
Definition select (m : mem) (table : Z * Z) (sel : Z) : option segment :=
  let i := Z.shiftr sel 3 in
  if 8 * i + 7 <=? table.1 then Some (segment_at m (table.2 + 8 * i)) else None.

(** The whole address space, for code in long mode and for data. *)
Definition flat_code (ring : Z) : segment := mk_segment 0 (2 ^ 32 - 1) true ring true true true true false.
Definition flat_data (ring : Z) : segment := mk_segment 0 (2 ^ 32 - 1) true ring true false true false true.

(** * Specification *)

Lemma load8_le (m : mem) a : m a = load_le 1 m a.
Proof. cbn [load_le]. lia. Qed.

Lemma low_byte x : u8 (Z.land x 0xFF) = x mod 256.
Proof. change 0xFF with (2 ^ 8 - 1). rewrite land_ones_mod by lia. apply u8_small. dlia. Qed.
Lemma low_word x : u16 (Z.land x 0xFFFF) = x mod 65536.
Proof. change 0xFFFF with (2 ^ 16 - 1). rewrite land_ones_mod by lia. apply u16_small. dlia. Qed.
Lemma low_dword x : u32 (Z.land x 0xFFFFFFFF) = x mod 2 ^ 32.
Proof. change 0xFFFFFFFF with (2 ^ 32 - 1). rewrite land_ones_mod by lia. apply u32_small. apply Z.mod_pos_bound. lia. Qed.
Lemma low_nibble x : Z.land x 0x0F = x mod 16.
Proof. change 0x0F with (2 ^ 4 - 1). by rewrite land_ones_mod. Qed.

Lemma limit_flags limit flags : 0 <= flags < 256 -> u8 (Z.lor (Z.land limit 0x0F) (Z.land flags 0xF0)) = limit mod 16 + flags / 16 * 16.
Proof.
  intros Hf. rewrite low_nibble. change 0xF0 with (Z.lnot (2 ^ 4 - 1) mod 2 ^ 8). rewrite (land_align flags 4 8) by lia.
  rewrite Z.lor_comm, (lor_disjoint _ _ 4) by (lia || dlia). change (2 ^ 4) with 16. rewrite u8_small by dlia. lia.
Qed.

(** A number from its fields. *)
Lemma word_fields x : x mod 65536 + 2 ^ 16 * (x / 2 ^ 16) = x.
Proof. change (2 ^ 16) with 65536. dlia. Qed.
Lemma high_bytes x : (x / 2 ^ 16) mod 256 + 2 ^ 8 * (x / 2 ^ 24) = x / 2 ^ 16.
Proof. replace (2 ^ 24) with (2 ^ 16 * 2 ^ 8) by done. rewrite <- Z.div_div by lia. generalize (x / 2 ^ 16). intros y. change (2 ^ 8) with 256. dlia. Qed.
Lemma dword_high x : x / 2 ^ 24 = (x / 2 ^ 24) mod 256 + 2 ^ 8 * (x / 2 ^ 32).
Proof. replace (2 ^ 32) with (2 ^ 24 * 2 ^ 8) by done. rewrite <- Z.div_div by lia. generalize (x / 2 ^ 24). intros y. change (2 ^ 8) with 256. dlia. Qed.
Lemma base_fields x : x mod 65536 + 2 ^ 16 * ((x / 2 ^ 16) mod 256) + 2 ^ 24 * ((x / 2 ^ 24) mod 256) + 2 ^ 32 * (x / 2 ^ 32) = x.
Proof. pose proof (word_fields x). pose proof (high_bytes x). pose proof (dword_high x). lia. Qed.
Lemma limit_fields x : 0 <= x < 2 ^ 20 -> x mod 65536 + 2 ^ 16 * ((x / 2 ^ 16) mod 16) = x.
Proof. intros Hx. change (2 ^ 16) with 65536. dlia. Qed.

(** The fields of the eight bytes as they are stored. *)
Lemma entry_stores m e v0 v2 v4 v5 v6 v7 :
  let m' := store8 (store8 (store16 (store8 (store8 (store16 m (e + 2) v2) (e + 4) v4) (e + 7) v7) e v0) (e + 6) v6) (e + 5) v5 in
  load16 m' e = u16 v0 /\ load16 m' (e + 2) = u16 v2 /\ m' (e + 4) = u8 v4 /\ m' (e + 5) = u8 v5 /\ m' (e + 6) = u8 v6 /\ m' (e + 7) = u8 v7 /\
  forall x, x < e \/ e + 8 <= x -> m' x = m x.
Proof.
  cbv zeta. repeat (apply conj); [mem_simpl; reflexivity | mem_simpl; reflexivity | rewrite load8_le; mem_simpl; reflexivity | rewrite load8_le; mem_simpl; reflexivity
    | rewrite load8_le; mem_simpl; reflexivity | rewrite load8_le; mem_simpl; reflexivity |].
  intros x Hx. unfold store8, store16. by rewrite !store_le_outside by lia.
Qed.

Lemma tss_stores m e v0 v2 v4 v5 v6 v7 v8 :
  let m' := store32 (store32 (store8 (store8 (store8 (store8 (store16 (store16 m e v0) (e + 2) v2) (e + 4) v4) (e + 5) v5) (e + 6) v6) (e + 7) v7) (e + 8) v8) (e + 12) 0 in
  load16 m' e = u16 v0 /\ load16 m' (e + 2) = u16 v2 /\ m' (e + 4) = u8 v4 /\ m' (e + 5) = u8 v5 /\ m' (e + 6) = u8 v6 /\ m' (e + 7) = u8 v7 /\
  load32 m' (e + 8) = u32 v8 /\ forall x, x < e \/ e + 16 <= x -> m' x = m x.
Proof.
  cbv zeta. repeat (apply conj); [mem_simpl; reflexivity | mem_simpl; reflexivity | rewrite load8_le; mem_simpl; reflexivity | rewrite load8_le; mem_simpl; reflexivity
    | rewrite load8_le; mem_simpl; reflexivity | rewrite load8_le; mem_simpl; reflexivity | mem_simpl; reflexivity |].
  intros x Hx. unfold store8, store16, store32. by rewrite !store_le_outside by lia.
Qed.

Lemma limit_bits limit flags : 0 <= flags < 256 -> flags mod 16 = 0 -> let lf := (limit / 2 ^ 16) mod 16 + flags / 16 * 16 in
  u8 lf = lf /\ lf mod 16 = (limit / 2 ^ 16) mod 16 /\ lf / 16 * 16 = flags.
Proof. generalize (limit / 2 ^ 16). intros y Hf H0. cbv zeta. split; [apply u8_small|]; dlia. Qed.

Lemma u8_mod x : u8 (x mod 256) = x mod 256.
Proof. apply u8_small. dlia. Qed.
Lemma u16_mod x : u16 (x mod 65536) = x mod 65536.
Proof. apply u16_small. dlia. Qed.

Section Spec.
Variable gdt : Z.

Lemma gdt_set_entry_ok idx base limit access flags m :
  0 <= base < 2 ^ 32 -> 0 <= limit < 2 ^ 20 -> 0 <= access < 256 -> 0 <= flags < 256 -> flags mod 16 = 0 ->
  let m' := gdt_set_entry gdt idx base limit access flags m in let e := gdt + 8 * idx in
  desc_base m' e = base /\ desc_limit m' e = limit /\ desc_access m' e = access /\ desc_flags m' e = flags /\ forall x, x < e \/ e + 8 <= x -> m' x = m x.
Proof.
  intros Hb Hl Ha Hf Hf0. cbv zeta. unfold gdt_set_entry. rewrite !low_word, !low_byte, limit_flags by done. rewrite !Z.shiftr_div_pow2 by lia.
  destruct (limit_bits limit flags Hf Hf0) as (L1 & L2 & L3).
  destruct (entry_stores m (gdt + 8 * idx) (limit mod 65536) (base mod 65536) ((base / 2 ^ 16) mod 256) access ((limit / 2 ^ 16) mod 16 + flags / 16 * 16) ((base / 2 ^ 24) mod 256))
    as (E0 & E2 & E4 & E5 & E6 & E7 & Eo).
  unfold desc_base, desc_limit, desc_access, desc_flags. rewrite E0, E2, E4, E5, E6, E7, !u16_mod, !u8_mod, L1, L2, L3, (u8_small access) by lia.
  split; [pose proof (base_fields base) as B; by rewrite (Z.div_small base (2 ^ 32)), Z.mul_0_r, Z.add_0_r in B by lia|]. split; [by apply limit_fields|]. done.
Qed.

Lemma set_tss_ok base limit m : 0 <= base < 2 ^ 64 -> 0 <= limit < 2 ^ 20 ->
  let m' := gdt_set_tss gdt base limit m in let d := gdt + 8 * GDT_TSS_SEG_LOW in
  sys_base m' d = base /\ desc_limit m' d = limit /\ desc_access m' d = TSS_TYPE_AVAIL /\ desc_flags m' d = 0 /\ forall x, x < d \/ d + 16 <= x -> m' x = m x.
Proof.
  intros Hb Hl. cbv zeta. unfold gdt_set_tss. rewrite !low_word, !low_byte, low_dword, low_nibble. rewrite !Z.shiftr_div_pow2 by lia.
  destruct (limit_bits limit 0 ltac:(lia) eq_refl) as (L1 & L2 & L3). change (0 / 16 * 16) with 0 in L1, L2, L3. rewrite Z.add_0_r in L1, L2, L3.
  destruct (tss_stores m (gdt + 8 * GDT_TSS_SEG_LOW) (limit mod 65536) (base mod 65536) ((base / 2 ^ 16) mod 256) TSS_TYPE_AVAIL (u8 ((limit / 2 ^ 16) mod 16)) ((base / 2 ^ 24) mod 256) ((base / 2 ^ 32) mod 2 ^ 32))
    as (E0 & E2 & E4 & E5 & E6 & E7 & E8 & Eo).
  unfold sys_base, desc_base, desc_limit, desc_access, desc_flags. rewrite E0, E2, E4, E5, E6, E7, E8, !u16_mod, !u8_mod, !L1, L2, L3.
  assert (base / 2 ^ 32 < 2 ^ 32) as Hh by (apply Z.div_lt_upper_bound; lia). assert (0 <= base / 2 ^ 32) as Hh0 by (apply Z.div_pos; lia).
  rewrite (Z.mod_small (base / 2 ^ 32)), u32_small by lia. split; [apply base_fields|]. split; [by apply limit_fields|].
  split; [reflexivity|]. split; [reflexivity|]. intros x Hx. unfold store8, store16, store32. by rewrite !store_le_outside by lia.
Qed.
End Spec.

(** ** The whole table *)

(** The fields of one descriptor, and that they are of its eight bytes only. *)
Definition holds (m : mem) (e base limit access flags : Z) : Prop :=
  desc_base m e = base /\ desc_limit m e = limit /\ desc_access m e = access /\ desc_flags m e = flags.

Lemma holds_frame m m' e base limit access flags : (forall x, e <= x < e + 8 -> m' x = m x) -> holds m e base limit access flags -> holds m' e base limit access flags.
Proof.
  intros Hx (H1 & H2 & H3 & H4). unfold holds, desc_base, desc_limit, desc_access, desc_flags in *. unfold load16 in *.
  rewrite !(load_le_agree 2 m' m) by (intros ? ?; apply Hx; lia). rewrite !Hx by lia. done.
Qed.

Lemma holds_segment m e base limit access flags : holds m e base limit access flags -> segment_at m e = segment_of base limit access flags.
Proof. intros (<- & <- & <- & <-). done. Qed.

Section Table.
Variables gdt gdt_ptr g_tss : Z.

Lemma entry_holds idx limit access flags m : 0 <= limit < 2 ^ 20 -> 0 <= access < 256 -> 0 <= flags < 256 -> flags mod 16 = 0 ->
  holds (gdt_set_entry gdt idx 0 limit access flags m) (gdt + 8 * idx) 0 limit access flags.
Proof. intros. destruct (gdt_set_entry_ok gdt idx 0 limit access flags m) as (? & ? & ? & ? & ?); [lia|done..|]. by repeat apply conj. Qed.

Lemma entry_outside idx limit access flags m x : x < gdt + 8 * idx \/ gdt + 8 * idx + 8 <= x -> gdt_set_entry gdt idx 0 limit access flags m x = m x.
Proof. intros Hx. unfold gdt_set_entry, store8, store16. by rewrite !store_le_outside by lia. Qed.

Lemma tss_outside base limit m x : x < gdt + 40 \/ gdt + 56 <= x -> gdt_set_tss gdt base limit m x = m x.
Proof. intros Hx. unfold gdt_set_tss, store8, store16, store32, GDT_TSS_SEG_LOW. by rewrite !store_le_outside by lia. Qed.

(** The three objects of the file do not overlap. *)
Definition apart (a n b k : Z) : Prop := a + n <= b \/ b + k <= a.
Definition gdt_layout : Prop := apart gdt 56 gdt_ptr 10 /\ apart gdt 56 g_tss 104 /\ apart gdt_ptr 10 g_tss 104.

(** The memory when the table is loaded. *)
Definition entries (m : mem) : mem :=
  gdt_set_entry gdt 4 0 0xFFFFF 0xF2 0xC0 (gdt_set_entry gdt 3 0 0xFFFFF 0xFA 0xA0
    (gdt_set_entry gdt 2 0 0xFFFFF 0x92 0xC0 (gdt_set_entry gdt 1 0 0xFFFFF 0x9A 0xA0 (gdt_set_entry gdt 0 0 0 0 0 m)))).
Definition tables (m : mem) : mem :=
  store64 (store16 (gdt_set_tss gdt g_tss 103 (store16 (entries m) (g_tss + 102) 104)) gdt_ptr 55) (gdt_ptr + 2) gdt.

Ltac outside := unfold store8, store16, store32, store64; repeat first [rewrite entry_outside by lia | rewrite tss_outside by lia | rewrite store_le_outside by lia].

Lemma entries_hold m : holds (entries m) (gdt + 8 * 0) 0 0 0 0 /\ holds (entries m) (gdt + 8 * 1) 0 0xFFFFF 0x9A 0xA0 /\ holds (entries m) (gdt + 8 * 2) 0 0xFFFFF 0x92 0xC0 /\
  holds (entries m) (gdt + 8 * 3) 0 0xFFFFF 0xFA 0xA0 /\ holds (entries m) (gdt + 8 * 4) 0 0xFFFFF 0xF2 0xC0.
Proof.
  unfold entries. repeat (apply conj); (eapply holds_frame; [intros x Hx; outside; reflexivity | apply entry_holds; done]).
Qed.

Lemma tables_entry m i limit access flags : gdt_layout -> 0 <= i <= 4 -> holds (entries m) (gdt + 8 * i) 0 limit access flags ->
  holds (store8 (tables m) (gdt + 45) 0x8B) (gdt + 8 * i) 0 limit access flags.
Proof.
  intros (A1 & A2 & A3) Hi. unfold apart in *. apply holds_frame. intros x Hx. unfold tables. outside. done.
Qed.

Lemma tables_tss m : gdt_layout -> 0 <= g_tss < 2 ^ 64 -> let m' := store8 (tables m) (gdt + 45) 0x8B in
  sys_base m' (gdt + 40) = g_tss /\ desc_limit m' (gdt + 40) = 103 /\ desc_access m' (gdt + 40) = 0x8B /\ load16 m' (g_tss + 102) = 104.
Proof.
  intros (A1 & A2 & A3) Hb. unfold apart in *. cbv zeta.
  set (mt := gdt_set_tss gdt g_tss 103 (store16 (entries m) (g_tss + 102) 104)).
  destruct (set_tss_ok gdt g_tss 103 (store16 (entries m) (g_tss + 102) 104) Hb ltac:(lia)) as (T1 & T2 & T3 & T4 & _). fold mt in T1, T2, T3, T4. change (gdt + 8 * GDT_TSS_SEG_LOW) with (gdt + 40) in *.
  set (m' := store8 (tables m) (gdt + 45) 0x8B).
  assert (forall x, gdt + 40 <= x < gdt + 56 -> x <> gdt + 45 -> m' x = mt x) as Hx by (intros x ? ?; unfold m', tables; fold mt; outside; done).
  split; [|split; [|split]].
  - rewrite <- T1. unfold sys_base, desc_base, load16, load32. rewrite (load_le_agree 2 m' mt), (load_le_agree 4 m' mt) by (intros ? ?; apply Hx; lia). rewrite !Hx by lia. done.
  - rewrite <- T2. unfold desc_limit, load16. rewrite (load_le_agree 2 m' mt) by (intros ? ?; apply Hx; lia). rewrite Hx by lia. done.
  - unfold desc_access. replace (gdt + 40 + 5) with (gdt + 45) by lia. unfold m'. rewrite load8_le. unfold store8. rewrite load_le_store_le. done.
  - rewrite (load_le_agree 2 m' (store16 (entries m) (g_tss + 102) 104)); [by rewrite load16_store16|]. intros x Hx'. unfold m', tables, mt. outside. done.
Qed.

Lemma tables_outside m x : ~ gdt <= x < gdt + 56 -> ~ gdt_ptr <= x < gdt_ptr + 10 -> ~ g_tss + 102 <= x < g_tss + 104 -> store8 (tables m) (gdt + 45) 0x8B x = m x.
Proof. intros X1 X2 X3. unfold tables, entries. outside. done. Qed.

Lemma gdt_init_memory m r : gdt_layout -> 0 <= gdt < 2 ^ 64 ->
  gdt_init gdt gdt_ptr g_tss m r = (store8 (tables m) (gdt + 45) 0x8B, mk_segs (55, gdt) 0x08 0x10 0x10 0x10 0x10 0x10 0x28).
Proof.
  intros (A1 & A2 & A3) Hg. unfold apart in *. unfold gdt_init. change (gdt_set_entry gdt GDT_USER_DATA_SEG _ _ _ _ _) with (entries m).
  change (store64 (store16 _ gdt_ptr _) (gdt_ptr + 2) gdt) with (tables m). 
  assert (load16 (tables m) gdt_ptr = 55) as E1 by (unfold tables; mem_simpl; done).
  assert (load64 (tables m) (gdt_ptr + 2) = gdt) as E2 by (unfold tables; rewrite load64_store64; by apply u64_small).
  unfold tss_load, gdt_flush. cbn [gdtr snd sel_cs sel_ds sel_es sel_fs sel_gs sel_ss]. rewrite E1, E2.
  change (gdt + GDT_TSS_SEL) with (gdt + 40). replace (gdt + 40 + 5) with (gdt + 45) by lia.
  assert (load8 (tables m) (gdt + 45) = TSS_TYPE_AVAIL) as ->; [|done].
  unfold tables, gdt_set_tss, load8. change (gdt + 8 * GDT_TSS_SEG_LOW) with (gdt + 40). replace (gdt + 40 + 5) with (gdt + 45) by lia. rewrite load8_le. destruct A1; mem_simpl; done.
Qed.
End Table.

(** The segments the selectors of a processor name. *)
Definition runs_on (m : mem) (r : seg_regs) (sel : Z) (s : segment) : Prop := select m (gdtr r) sel = Some s.

Lemma runs_on_entry m r gdt i ring base limit access flags s : gdtr r = (55, gdt) -> 0 <= i <= 4 -> 0 <= ring < 8 -> holds m (gdt + 8 * i) base limit access flags ->
  segment_of base limit access flags = s -> runs_on m r (8 * i + ring) s.
Proof.
  intros Hr Hi Hk Hh <-. unfold runs_on, select. rewrite Hr. cbn [fst snd]. rewrite Z.shiftr_div_pow2 by lia. change (2 ^ 3) with 8.
  assert ((8 * i + ring) / 8 = i) as -> by dlia. destruct (Z.leb_spec (8 * i + 7) 55); [|lia]. f_equal. by apply holds_segment.
Qed.

(** C31: After gdt_init the processor's table register covers the seven
    entries; the code and stack selectors it runs on name present ring 0
    segments over the whole address space, the code segment one of long mode;
    the selectors for user programs name the same segments in ring 3; the null
    selector names nothing present; the task register names the task state
    segment, marked busy, over exactly the 104 bytes of g_tss whose permission
    map lies beyond its end.  Of memory only the 56 bytes of the table, the 10
    of its pointer and the two of that segment's map offset are written. *)
Theorem gdt_init_correct gdt gdt_ptr g_tss m r :
  gdt_layout gdt gdt_ptr g_tss -> 0 <= gdt < 2 ^ 64 -> 0 <= g_tss < 2 ^ 64 ->
  let (m', r') := gdt_init gdt gdt_ptr g_tss m r in
  gdtr r' = (8 * GDT_ENTRY_COUNT - 1, gdt) /\
  runs_on m' r' (sel_cs r') (flat_code 0) /\ Forall (fun s => runs_on m' r' s (flat_data 0)) [sel_ds r'; sel_es r'; sel_fs r'; sel_gs r'; sel_ss r'] /\
  runs_on m' r' GDT_USER_CS (flat_code 3) /\ runs_on m' r' GDT_USER_DS (flat_data 3) /\
  (exists s, runs_on m' r' 0 s /\ seg_present s = false) /\
  task_reg r' = GDT_TSS_SEL /\
  (let e := gdt + task_reg r' in sys_base m' e = g_tss /\ desc_limit m' e = SIZEOF_TSS - 1 /\ desc_access m' e = Z.lor TSS_TYPE_AVAIL 2 /\ desc_limit m' e < load16 m' (g_tss + 102)) /\
  (forall x, ~ gdt <= x < gdt + 56 -> ~ gdt_ptr <= x < gdt_ptr + 10 -> ~ g_tss + 102 <= x < g_tss + 104 -> m' x = m x).
Proof.
  intros Hl Hg Ht. rewrite gdt_init_memory by done. cbn [gdtr sel_cs sel_ds sel_es sel_fs sel_gs sel_ss task_reg].
  destruct (entries_hold gdt m) as (H0 & H1 & H2 & H3 & H4).
  apply (tables_entry gdt gdt_ptr g_tss m) in H0, H1, H2, H3, H4; try (done || lia).
  destruct (tables_tss gdt gdt_ptr g_tss m Hl Ht) as (T1 & T2 & T3 & T4).
  set (m' := store8 (tables gdt gdt_ptr g_tss m) (gdt + 45) 0x8B) in *. set (r' := mk_segs _ _ _ _ _ _ _ _).
  assert (gdtr r' = (55, gdt)) as Hr by done.
  assert (runs_on m' r' 0x10 (flat_data 0)) as Hd by (by apply (runs_on_entry m' r' gdt 2 0 _ _ _ _ _ Hr ltac:(lia) ltac:(lia) H2)).
  split; [done|]. split; [by apply (runs_on_entry m' r' gdt 1 0 _ _ _ _ _ Hr ltac:(lia) ltac:(lia) H1)|].
  split; [by repeat constructor|].
  split; [by apply (runs_on_entry m' r' gdt 3 3 _ _ _ _ _ Hr ltac:(lia) ltac:(lia) H3)|].
  split; [by apply (runs_on_entry m' r' gdt 4 3 _ _ _ _ _ Hr ltac:(lia) ltac:(lia) H4)|].
  split; [eexists; split; [by apply (runs_on_entry m' r' gdt 0 0 _ _ _ _ _ Hr ltac:(lia) ltac:(lia) H0)|done]|].
  split; [done|]. split; [change (gdt + 0x28) with (gdt + 40); by rewrite T1, T2, T3, T4|].
  intros x X1 X2 X3. by apply tables_outside.
Qed.

Lemma gdt_init_correct_witness :
  gdt_layout 0x110000 0x110040 0x110080 /\ runs_on (gdt_init 0x110000 0x110040 0x110080 (fun _ => 0xCC) (mk_segs (0, 0) 8 16 16 16 16 16 0)).1
    (gdt_init 0x110000 0x110040 0x110080 (fun _ => 0xCC) (mk_segs (0, 0) 8 16 16 16 16 16 0)).2 GDT_USER_CS (flat_code 3).
Proof.
  assert (gdt_layout 0x110000 0x110040 0x110080) as Hl by (unfold gdt_layout, apart; lia). split; [exact Hl|].
  pose proof (gdt_init_correct 0x110000 0x110040 0x110080 (fun _ => 0xCC) (mk_segs (0, 0) 8 16 16 16 16 16 0) Hl ltac:(lia) ltac:(lia)) as H.
  destruct (gdt_init _ _ _ _ _) as [m' r']. exact (proj1 (proj2 (proj2 (proj2 H)))).
Defined.
