(* ===== verification/Serial.v ===== *)
(** The serial line (kernel/serial.c): setting up the line, sending characters,
    strings and numbers, receiving characters.  The busy waits are bounded by
    [polls]; [None] is a wait beyond the bound, or the fault of the division by
    a baud rate of zero. *)

From S2P Require Import Prelude Ports Vga.
Local Open Scope Z_scope.

Definition SERIAL_COM1 : Z := 0x3F8.

Section Serial.
Context {W : Type} `{Ports W}.
Variable polls : nat.

(** [while (!(inb(port) & mask));]. *)
Fixpoint wait_bit (fuel : nat) (port mask : Z) (w : W) : option W :=
  match fuel with
  | O => None
  | S fuel' => let '(x, w) := inb port w in if Z.land x mask =? 0 then wait_bit fuel' port mask w else Some w
  end.

Definition serial_putchar (port c : Z) (w : W) : option W :=
  w ← wait_bit polls (u16 (port + 5)) 0x20 w; Some (outb port (u8 c) w).

Fixpoint serial_puts (port : Z) (s : list Z) (w : W) : option W :=
  match s with
  | [] => Some w
  | c :: s' =>
      w ← (if c =? 10 then serial_putchar port 13 w else Some w);
      w ← serial_putchar port c w;
      serial_puts port s' w
  end.

(** The characters of [buf] from the last down. *)
Fixpoint put_all (port : Z) (s : list Z) (w : W) : option W :=
  match s with
  | [] => Some w
  | c :: s' => w ← serial_putchar port c w; put_all port s' w
  end.

Definition serial_putdec (port val : Z) (w : W) : option W :=
  if val =? 0 then serial_putchar port 48 w else put_all port (rev (digits 20 val)) w.

Definition serial_puthex (port val : Z) (w : W) : option W :=
  w ← serial_puts port (bytes_of "0x") w; put_all port (hex_digits val) w.

Definition serial_init (port baud : Z) (w : W) : option W :=
  if baud =? 0 then None else
  let divisor := u16 (115200 / baud) in
  let w := outb (u16 (port + 1)) 0x00 w in
  let w := outb (u16 (port + 3)) 0x80 w in
  let w := outb (u16 (port + 0)) (u8 (Z.land divisor 0xFF)) w in
  let w := outb (u16 (port + 1)) (u8 (Z.land (Z.shiftr divisor 8) 0xFF)) w in
  let w := outb (u16 (port + 3)) 0x03 w in
  let w := outb (u16 (port + 2)) 0xC7 w in
  let w := outb (u16 (port + 4)) 0x0B w in
  let w := outb (u16 (port + 4)) 0x1E w in
  let w := outb (u16 (port + 0)) 0xAE w in
  let '(x, w) := inb (u16 (port + 0)) w in
  if negb (x =? 0xAE) then Some w else
  let w := outb (u16 (port + 4)) 0x0F w in
  w ← serial_puts port (bytes_of "[AIOS] Serial online @ ") w;
  w ← serial_putdec port baud w;
  serial_puts port (bytes_of " baud" ++ [13; 10]) w.

Definition serial_getchar (port : Z) (w : W) : option (Z * W) :=
  w ← wait_bit polls (u16 (port + 5)) 0x01 w; Some (inb port w).

Definition serial_available (port : Z) (w : W) : Z * W :=
  let '(x, w) := inb (u16 (port + 5)) w in (Z.land x 0x01, w).
End Serial.

(** ** A line *)

(** A transmitter that takes a while over each character: how many more
    readings of the status say busy, and what went out. *)
Class Uart (W : Type) `{Ports W} (polls : nat) := {
  uart_online : W -> Prop;
  uart_busy : W -> nat;
  uart_sent : W -> list Z;
  uart_bound w : uart_online w -> (uart_busy w < polls)%nat;
  uart_status w x w' : uart_online w -> inb (SERIAL_COM1 + 5) w = (x, w') ->
    uart_online w' /\ uart_sent w' = uart_sent w /\ uart_busy w' = pred (uart_busy w) /\ Z.testbit x 5 = bool_decide (uart_busy w = 0%nat);
  uart_write v w : uart_online w -> uart_busy w = 0%nat -> uart_online (outb SERIAL_COM1 v w) /\ uart_sent (outb SERIAL_COM1 v w) = uart_sent w ++ [v];
}.

(** What a terminal on the line gets for a string. *)
Definition crlf (s : list Z) : list Z := flat_map (fun c => if c =? 10 then [13; 10] else [u8 c]) s.

Section Spec.
Context {W : Type} {polls : nat} `{Uart W polls}.

(** From [w] the line sent [s] on the way to [o]. *)
Definition sends (s : list Z) (w : W) (o : option W) : Prop := exists w', o = Some w' /\ uart_online w' /\ uart_sent w' = uart_sent w ++ s.

Lemma sends_nil w : uart_online w -> sends [] w (Some w).
Proof. intros Ho. exists w. by rewrite app_nil_r. Qed.

Lemma sends_bind s1 s2 w o (k : W -> option W) : sends s1 w o -> (forall w', uart_online w' -> sends s2 w' (k w')) -> sends (s1 ++ s2) w (o ≫= k).
Proof.
  intros (w1 & -> & O1 & E1) Hk. destruct (Hk w1 O1) as (w2 & E & O2 & E2). exists w2. by rewrite E2, E1, app_assoc.
Qed.

Lemma wait_bit_ok n w : uart_online w -> (uart_busy w < n)%nat ->
  exists w', wait_bit n (SERIAL_COM1 + 5) 0x20 w = Some w' /\ uart_online w' /\ uart_busy w' = 0%nat /\ uart_sent w' = uart_sent w.
Proof.
  revert w. induction n as [|n IH]; intros w Ho Hn; [lia|]. cbn [wait_bit]. destruct (inb _ w) as [x w1] eqn:E.
  destruct (uart_status w x w1 Ho E) as (O1 & S1 & B1 & T1).
  assert ((Z.land x 0x20 =? 0) = negb (Z.testbit x 5)) as -> by (change 0x20 with (2 ^ 5); rewrite land_bit; [by destruct (Z.testbit x 5)|lia]).
  rewrite T1. case_bool_decide as Hb; cbn [negb].
  - exists w1. by rewrite B1, Hb.
  - destruct (IH w1 O1 ltac:(lia)) as (w2 & E2 & O2 & B2 & S2). exists w2. by rewrite S2.
Qed.

Lemma putchar_sends c w : uart_online w -> sends [u8 c] w (serial_putchar polls SERIAL_COM1 c w).
Proof.
  intros Ho. unfold serial_putchar. change (u16 (SERIAL_COM1 + 5)) with (SERIAL_COM1 + 5).
  destruct (wait_bit_ok polls w Ho (uart_bound w Ho)) as (w1 & -> & O1 & B1 & S1). cbn [mbind option_bind].
  destruct (uart_write (u8 c) w1 O1 B1) as [O2 S2]. eexists. split; [done|]. by rewrite S2, S1.
Qed.

Lemma puts_sends s w : uart_online w -> sends (crlf s) w (serial_puts polls SERIAL_COM1 s w).
Proof.
  revert w. induction s as [|c s IH]; intros w Ho; [by apply sends_nil|]. cbn [serial_puts crlf flat_map]. destruct (Z.eqb_spec c 10) as [->|].
  - change ([13; 10] ++ ?l) with ([13] ++ [10] ++ l). apply sends_bind; [exact (putchar_sends 13 w Ho)|]. intros w1 O1.
    apply sends_bind; [exact (putchar_sends 10 w1 O1) | exact IH].
  - cbn [mbind option_bind]. apply sends_bind; [by apply putchar_sends | exact IH].
Qed.

Lemma put_all_sends s w : uart_online w -> sends (map u8 s) w (put_all polls SERIAL_COM1 s w).
Proof.
  revert w. induction s as [|c s IH]; intros w Ho; [by apply sends_nil|]. exact (sends_bind [u8 c] _ w _ _ (putchar_sends c w Ho) IH).
Qed.

Lemma hex_digit_byte x : u8 (hex_digit x) = hex_digit x.
Proof.
  unfold hex_digit. change 0xF with (2 ^ 4 - 1). rewrite land_ones_mod by lia. assert (0 <= x mod 2 ^ 4 < 16) as Hx by (apply Z.mod_pos_bound; lia).
  apply u8_small. assert (Forall (fun c => 0 <= c < 256) hex) as Hf by (apply (bool_decide_unpack _); vm_compute; exact Logic.I).
  eapply Forall_nth; [exact Hf|]. change (length hex) with 16%nat. lia.
Qed.

Lemma puthex_sends v w : uart_online w -> sends (bytes_of "0x" ++ hex_digits v) w (serial_puthex polls SERIAL_COM1 v w).
Proof.
  intros Ho. unfold serial_puthex. apply sends_bind; [exact (puts_sends (bytes_of "0x") w Ho)|]. intros w1 O1.
  replace (hex_digits v) with (map u8 (hex_digits v)) at 1; [by apply put_all_sends|]. unfold hex_digits. rewrite map_map. apply map_ext. intros k. apply hex_digit_byte.
Qed.

Lemma putdec_sends v w : 0 <= v -> uart_online w -> sends (numeral v) w (serial_putdec polls SERIAL_COM1 v w).
Proof.
  intros Hv Ho. unfold serial_putdec, numeral. destruct (v =? 0); [exact (putchar_sends 48 w Ho)|].
  replace (rev (digits 20 v)) with (map u8 (rev (digits 20 v))) at 1; [by apply put_all_sends|].
  transitivity (map (fun c => c) (rev (digits 20 v))); [|apply map_id]. apply map_ext_in. intros c Hc. apply u8_small.
  pose proof (digits_range 20 v Hv) as Hd. rewrite List.Forall_forall in Hd. apply in_rev, Hd in Hc. lia.
Qed.
End Spec.
