(* ===== verification/Idt.v ===== *)
(** Interrupts (kernel/idt.c, isr_stubs.asm): the table of gates, the stubs that
    build and undo the interrupt frame, the dispatch to the registered
    handlers, and the report of an exception nobody handles.  The machine has
    the integer registers; what a handler does is a parameter.

    After [idt_init] every vector enters its stub; an interrupt is invisible to
    the code it interrupts unless the handler changes the frame; what is
    dispatched where. *)

From S2P Require Import Prelude Memory Ports Vga Gdt.
Local Open Scope Z_scope.

Definition IDT_ENTRIES : Z := 256.
Definition IDT_INTERRUPT_GATE : Z := 0x8E.
Definition IDT_TRAP_GATE : Z := 0x8F.

(** ** The interrupt frame *)

Inductive reg := RAX | RBX | RCX | RDX | RSI | RDI | RBP | R8 | R9 | R10 | R11 | R12 | R13 | R14 | R15.
#[export] Instance reg_eq : EqDecision reg.
Proof. solve_decision. Defined.

(** [interrupt_frame_t] at [f]: the 15 registers in this order, then the
    numbers and what the processor pushed. *)
Definition frame_regs : list reg := [RAX; RBX; RCX; RDX; RSI; RDI; RBP; R8; R9; R10; R11; R12; R13; R14; R15].
Definition reg_index (r : reg) : Z :=
  match r with RAX => 0 | RBX => 1 | RCX => 2 | RDX => 3 | RSI => 4 | RDI => 5 | RBP => 6 | R8 => 7 | R9 => 8 | R10 => 9 | R11 => 10 | R12 => 11 | R13 => 12 | R14 => 13 | R15 => 14 end.
Definition OFF_INT_NUM : Z := 120.
Definition OFF_ERR_CODE : Z := 128.
Definition OFF_RIP : Z := 136.
Definition OFF_CS : Z := 144.
Definition OFF_RFLAGS : Z := 152.
Definition OFF_RSP : Z := 160.
Definition OFF_SS : Z := 168.
Definition f_reg (m : mem) (f : Z) (r : reg) : Z := load64 m (f + 8 * reg_index r).
Definition f_int_num (m : mem) (f : Z) : Z := load64 m (f + OFF_INT_NUM).
Definition f_err_code (m : mem) (f : Z) : Z := load64 m (f + OFF_ERR_CODE).
Definition f_rip (m : mem) (f : Z) : Z := load64 m (f + OFF_RIP).
Definition f_cs (m : mem) (f : Z) : Z := load64 m (f + OFF_CS).
Definition f_rflags (m : mem) (f : Z) : Z := load64 m (f + OFF_RFLAGS).
Definition f_rsp (m : mem) (f : Z) : Z := load64 m (f + OFF_RSP).
Definition f_ss (m : mem) (f : Z) : Z := load64 m (f + OFF_SS).

Definition exception_names : list (list Z) := map bytes_of
  ["#DE  Divide-by-Zero"; "#DB  Debug"; "#NMI Non-Maskable Interrupt"; "#BP  Breakpoint"; "#OF  Overflow"; "#BR  Bound Range Exceeded"; "#UD  Invalid Opcode";
   "#NM  Device Not Available"; "#DF  Double Fault"; "     Coprocessor Segment Overrun (reserved)"; "#TS  Invalid TSS"; "#NP  Segment Not Present"; "#SS  Stack-Segment Fault";
   "#GP  General Protection Fault"; "#PF  Page Fault"; "     Reserved (vector 15)"; "#MF  x87 Floating-Point Exception"; "#AC  Alignment Check"; "#MC  Machine Check";
   "#XF  SIMD Floating-Point Exception"; "#VE  Virtualization Exception"; "#CP  Control-Protection Exception"; "     Reserved (vector 22)"; "     Reserved (vector 23)";
   "     Reserved (vector 24)"; "     Reserved (vector 25)"; "     Reserved (vector 26)"; "     Reserved (vector 27)"; "#HV  Hypervisor Injection Exception";
   "#VC  VMM Communication Exception"; "#SX  Security Exception"; "     Reserved (vector 31)"]%string.

Section Idt.
Context {W : Type} `{Ports W}.
(** Where the two static tables are, and where the linker put the stubs. *)
Variables idt idt_ptr : Z.
Variable isr_stub_table : Z -> Z.

Record kstate := mk_kstate { kmem : mem; isr_handlers : Z -> Z; idtr : Z * Z; kscreen : vga W }.

Definition set_mem (m : mem) (s : kstate) : kstate := mk_kstate m (isr_handlers s) (idtr s) (kscreen s).
Definition set_handlers (h : Z -> Z) (s : kstate) : kstate := mk_kstate (kmem s) h (idtr s) (kscreen s).
Definition set_kscreen (v : vga W) (s : kstate) : kstate := mk_kstate (kmem s) (isr_handlers s) (idtr s) v.

(** ** The table *)

Definition put_gate (vec off_low sel ist type_attr off_mid off_high : Z) (m : mem) : mem :=
  let e := idt + 16 * vec in
  let m := store16 m e off_low in
  let m := store16 m (e + 2) sel in
  let m := store8 m (e + 4) ist in
  let m := store8 m (e + 5) type_attr in
  let m := store16 m (e + 6) off_mid in
  let m := store32 m (e + 8) off_high in
  store32 m (e + 12) 0.

Definition idt_set_gate (vec addr flags : Z) (m : mem) : mem :=
  put_gate vec (u16 (Z.land addr 0xFFFF)) 0x08 0 flags (u16 (Z.land (Z.shiftr addr 16) 0xFFFF)) (u32 (Z.land (Z.shiftr addr 32) 0xFFFFFFFF)) m.

Definition idt_register_handler (vector handler : Z) (s : kstate) : kstate := set_handlers (upd (isr_handlers s) vector handler) s.

Definition idt_flush (s : kstate) : kstate :=
  mk_kstate (kmem s) (isr_handlers s) (load16 (kmem s) idt_ptr, load64 (kmem s) (idt_ptr + 2)) (kscreen s).

Definition idt_init (s : kstate) : kstate :=
  let s := for_up (Z.to_nat IDT_ENTRIES) 0 (fun i s => set_handlers (upd (isr_handlers s) i 0) (set_mem (put_gate i 0 0 0 0 0 0 (kmem s)) s)) s in
  let m := for_up 32 0 (fun i m => idt_set_gate (u8 i) (isr_stub_table i) IDT_TRAP_GATE m) (kmem s) in
  let m := for_up (Z.to_nat (IDT_ENTRIES - 32)) 32 (fun i m => idt_set_gate (u8 i) (isr_stub_table i) IDT_INTERRUPT_GATE m) m in
  let m := store16 m idt_ptr (u16 (16 * IDT_ENTRIES - 1)) in
  let m := store64 m (idt_ptr + 2) idt in
  let s := idt_flush (set_mem m s) in
  set_kscreen (vga_puts_color (bytes_of "  [ OK ] IDT: 256 gates installed" ++ [10]) VGA_COLOR_LIGHT_GREEN VGA_COLOR_BLACK (kscreen s)) s.

(** ** The report of an exception *)

Definition label (s : string) (fg : Z) (v : vga W) : vga W := vga_puts_color (bytes_of s) fg VGA_COLOR_BLACK v.
Definition label_line (s : string) (fg : Z) (v : vga W) : vga W := vga_puts_color (bytes_of s ++ [10]) fg VGA_COLOR_BLACK v.
(** A label and a value. *)
Definition show (s : string) (fg x : Z) (v : vga W) : vga W := vga_puthex x (label s fg v).
Definition newline (v : vga W) : vga W := vga_putchar 10 v.
Definition show2 (s1 : string) (x1 : Z) (s2 : string) (x2 fg : Z) (v : vga W) : vga W := newline (show s2 fg x2 (show s1 fg x1 v)).

(** What it prints; then the processor halts. *)
Definition exception_dump (m : mem) (f : Z) (v : vga W) : vga W :=
  let v := vga_puts_color [10] VGA_COLOR_WHITE VGA_COLOR_RED v in
  let v := vga_puts_color (bytes_of " *** KERNEL EXCEPTION (PANIC) ***" ++ [10]) VGA_COLOR_WHITE VGA_COLOR_RED v in
  let v := vga_puts_color (bytes_of " ") VGA_COLOR_WHITE VGA_COLOR_RED v in
  let v := show " Vector 0x" VGA_COLOR_LIGHT_RED (f_int_num m f) v in
  let v := label "  " VGA_COLOR_WHITE v in
  let v := vga_puts_color (if f_int_num m f <? 32 then nth (Z.to_nat (f_int_num m f)) exception_names [] else bytes_of "(unknown exception)") VGA_COLOR_LIGHT_RED VGA_COLOR_BLACK v in
  let v := vga_puts_color [10] VGA_COLOR_WHITE VGA_COLOR_BLACK v in
  let v := newline (show " Error code : 0x" VGA_COLOR_LIGHT_CYAN (f_err_code m f) v) in
  let v := label_line "---------- Registers ----------" VGA_COLOR_LIGHT_GREY v in
  let v := show2 " RAX=0x" (f_reg m f RAX) "  RBX=0x" (f_reg m f RBX) VGA_COLOR_LIGHT_CYAN v in
  let v := show2 " RCX=0x" (f_reg m f RCX) "  RDX=0x" (f_reg m f RDX) VGA_COLOR_LIGHT_CYAN v in
  let v := show2 " RSI=0x" (f_reg m f RSI) "  RDI=0x" (f_reg m f RDI) VGA_COLOR_LIGHT_CYAN v in
  let v := show2 " RBP=0x" (f_reg m f RBP) "  RSP=0x" (f_rsp m f) VGA_COLOR_LIGHT_CYAN v in
  let v := show2 "  R8=0x" (f_reg m f R8) "   R9=0x" (f_reg m f R9) VGA_COLOR_LIGHT_CYAN v in
  let v := show2 " R10=0x" (f_reg m f R10) "  R11=0x" (f_reg m f R11) VGA_COLOR_LIGHT_CYAN v in
  let v := show2 " R12=0x" (f_reg m f R12) "  R13=0x" (f_reg m f R13) VGA_COLOR_LIGHT_CYAN v in
  let v := show2 " R14=0x" (f_reg m f R14) "  R15=0x" (f_reg m f R15) VGA_COLOR_LIGHT_CYAN v in
  let v := label_line "---------- Control/IP ---------" VGA_COLOR_LIGHT_GREY v in
  let v := show2 " RIP=0x" (f_rip m f) "   CS=0x" (f_cs m f) VGA_COLOR_LIGHT_GREEN v in
  let v := show2 " RFLAGS=0x" (f_rflags m f) "  SS=0x" (f_ss m f) VGA_COLOR_LIGHT_GREEN v in
  let v := label_line "-------------------------------" VGA_COLOR_LIGHT_GREY v in
  label_line " System halted." VGA_COLOR_LIGHT_RED v.

(** ** Dispatch *)

Inductive outcome := Returned (s : kstate) | Halted (s : kstate).

(** What the function at an address does with a frame. *)
Variable call : Z -> Z -> kstate -> outcome.

Definition isr_dispatch (frame : Z) (s : kstate) : outcome :=
  let vec := f_int_num (kmem s) frame in
  if vec <? 32 then
    if negb (isr_handlers s vec =? 0) then call (isr_handlers s vec) frame s
    else Halted (set_kscreen (exception_dump (kmem s) frame (kscreen s)) s)
  else if negb (isr_handlers s vec =? 0) then call (isr_handlers s vec) frame s
  else Returned s.

(** ** The stubs *)

Record cpu := mk_cpu { gpr : reg -> Z; rip : Z; cs : Z; rflags : Z; rsp : Z; ss : Z }.

Definition push (x : Z) (st : Z * mem) : Z * mem := (u64 (st.1 - 8), store64 st.2 (u64 (st.1 - 8)) x).

(** What the processor does on its own stack when it takes an interrupt: it
    aligns the stack and pushes the state, and for some exceptions an error
    code. *)
Definition deliver (err : option Z) (c : cpu) (m : mem) : Z * mem :=
  let st := (16 * (rsp c / 16), m) in
  let st := push (rip c) (push (cs c) (push (rflags c) (push (rsp c) (push (ss c) st)))) in
  match err with Some e => push e st | None => st end.

(** [ISR_ERR] and [ISR_NOERR]. *)
Definition isr_err (v : Z) : bool := bool_decide (v ∈ [8; 10; 11; 12; 13; 14; 17]).
Definition isr_stub (v : Z) (st : Z * mem) : Z * mem := push v (if isr_err v then st else push 0 st).

Definition push_regs (g : reg -> Z) (l : list reg) (st : Z * mem) : Z * mem := fold_left (fun st r => push (g r) st) l st.

Fixpoint pop_regs (m : mem) (l : list reg) (sp : Z) (g : reg -> Z) : Z * (reg -> Z) :=
  match l with
  | [] => (sp, g)
  | r :: l' => pop_regs m l' (u64 (sp + 8)) (fun r' => if decide (r' = r) then load64 m sp else g r')
  end.

(** [iretq]. *)
Definition iretq (m : mem) (sp : Z) (g : reg -> Z) : cpu :=
  mk_cpu g (load64 m sp) (load64 m (sp + 8)) (load64 m (sp + 16)) (load64 m (sp + 24)) (load64 m (sp + 32)).

Definition isr_common_handler (c : cpu) (st : Z * mem) (s : kstate) : outcome * option cpu :=
  let '(sp, m) := push_regs (gpr c) [R15; R14; R13; R12; R11; R10; R9; R8; RBP; RDI; RSI; RDX; RCX; RBX; RAX] st in
  match isr_dispatch sp (set_mem m s) with
  | Halted s' => (Halted s', None)
  | Returned s' =>
      let '(sp', g) := pop_regs (kmem s') [RAX; RBX; RCX; RDX; RSI; RDI; RBP; R8; R9; R10; R11; R12; R13; R14; R15] sp (gpr c) in
      (Returned s', Some (iretq (kmem s') (u64 (sp' + 16)) g))
  end.

(** An interrupt from its delivery until the interrupted code goes on. *)
Definition interrupt (v : Z) (err : option Z) (c : cpu) (s : kstate) : outcome * option cpu :=
  isr_common_handler c (isr_stub v (deliver err c (kmem s))) s.
End Idt.
Arguments kstate W : clear implicits.
Arguments outcome W : clear implicits.

(** * Specification *)

(** ** What the processor reads in a gate *)

Record gate := mk_gate { g_offset : Z; g_selector : Z; g_ist : Z; g_present : bool; g_ring : Z; g_keeps_if : bool }.

Definition gate_offset (m : mem) (e : Z) : Z := load16 m e + 2 ^ 16 * load16 m (e + 6) + 2 ^ 32 * load32 m (e + 8).
Definition gate_of (offset selector ist attr : Z) : gate :=
  mk_gate offset selector (ist mod 8) (Z.testbit attr 7) (Z.land (Z.shiftr attr 5) 3) (Z.land attr 0xF =? 0xF).
Definition gate_at (m : mem) (table : Z * Z) (v : Z) : option gate :=
  let e := table.2 + 16 * v in
  if 16 * v + 15 <=? table.1 then Some (gate_of (gate_offset m e) (load16 m (e + 2)) (m (e + 4)) (m (e + 5))) else None.

Lemma put_gate_ok idt v ol sel ist ty om oh m :
  let m' := put_gate idt v ol sel ist ty om oh m in let e := idt + 16 * v in
  load16 m' e = u16 ol /\ load16 m' (e + 2) = u16 sel /\ m' (e + 4) = u8 ist /\ m' (e + 5) = u8 ty /\ load16 m' (e + 6) = u16 om /\ load32 m' (e + 8) = u32 oh /\
  forall x, x < e \/ e + 16 <= x -> m' x = m x.
Proof.
  cbv zeta. unfold put_gate. repeat (apply conj); [mem_simpl; reflexivity | mem_simpl; reflexivity | rewrite load8_le; mem_simpl; reflexivity | rewrite load8_le; mem_simpl; reflexivity
    | mem_simpl; reflexivity | mem_simpl; reflexivity |].
  intros x Hx. unfold store8, store16, store32. by rewrite !store_le_outside by lia.
Qed.

Lemma offset_fields a : 0 <= a < 2 ^ 64 -> a mod 65536 + 2 ^ 16 * ((a / 2 ^ 16) mod 65536) + 2 ^ 32 * (a / 2 ^ 32) = a.
Proof.
  intros Ha. replace (2 ^ 32) with (2 ^ 16 * 2 ^ 16) at 2 by done. rewrite <- Z.div_div by lia. pose proof (word_fields a). pose proof (word_fields (a / 2 ^ 16)). lia.
Qed.

Section Table.
Variables idt idt_ptr : Z.

(** The gate of vector [v] leads to [a], with the attribute byte [flags]. *)
Definition leads (m : mem) (v a flags : Z) : Prop :=
  let e := idt + 16 * v in gate_offset m e = a /\ load16 m (e + 2) = 0x08 /\ m (e + 4) = 0 /\ m (e + 5) = flags.

Lemma set_gate_leads v a flags m : 0 <= a < 2 ^ 64 -> 0 <= flags < 256 -> leads (idt_set_gate idt v a flags m) v a flags.
Proof.
  intros Ha Hf. unfold leads, idt_set_gate. rewrite !low_word, low_dword, !Z.shiftr_div_pow2 by lia.
  destruct (put_gate_ok idt v (a mod 65536) 0x08 0 flags ((a / 2 ^ 16) mod 65536) ((a / 2 ^ 32) mod 2 ^ 32) m) as (E0 & E2 & E4 & E5 & E6 & E8 & _).
  unfold gate_offset. rewrite E0, E2, E4, E5, E6, E8, !u16_mod, (u8_small flags) by lia.
  assert (a / 2 ^ 32 < 2 ^ 32) as Hh by (apply Z.div_lt_upper_bound; lia). assert (0 <= a / 2 ^ 32) as Hh0 by (apply Z.div_pos; lia).
  rewrite (Z.mod_small (a / 2 ^ 32)), u32_small by lia. by rewrite offset_fields.
Qed.

Lemma leads_frame m m' v a flags : (forall x, idt + 16 * v <= x < idt + 16 * v + 16 -> m' x = m x) -> leads m v a flags -> leads m' v a flags.
Proof.
  intros Hx (H1 & H2 & H3 & H4). unfold leads, gate_offset in *. unfold load16, load32 in *.
  rewrite !(load_le_agree 2 m' m), !(load_le_agree 4 m' m) by (intros ? ?; apply Hx; lia). rewrite !Hx by lia. done.
Qed.

Lemma set_gate_outside v a flags m x : x < idt + 16 * v \/ idt + 16 * v + 16 <= x -> idt_set_gate idt v a flags m x = m x.
Proof. intros Hx. unfold idt_set_gate, put_gate, store8, store16, store32. by rewrite !store_le_outside by lia. Qed.

(** A run of gates of one kind. *)
Lemma gates_run (stub : Z -> Z) n lo flags m : 0 <= flags < 256 -> 0 <= lo -> lo + Z.of_nat n <= 256 -> (forall v, 0 <= v < 256 -> 0 <= stub v < 2 ^ 64) ->
  let m' := for_up n lo (fun i m => idt_set_gate idt (u8 i) (stub i) flags m) m in
  (forall v, lo <= v < lo + Z.of_nat n -> leads m' v (stub v) flags) /\ forall x, x < idt + 16 * lo \/ idt + 16 * (lo + Z.of_nat n) <= x -> m' x = m x.
Proof.
  intros Hf Hlo Hn Hs.
  refine (for_up_inv (fun k m' => (forall v, lo <= v < k -> leads m' v (stub v) flags) /\ forall x, x < idt + 16 * lo \/ idt + 16 * k <= x -> m' x = m x) n lo _ m _ _).
  - split; [lia|done].
  - intros i u Hi [H1 H2]. rewrite u8_small by lia. split.
    + intros v Hv. destruct (decide (v = i)) as [->|]; [apply set_gate_leads; [apply Hs; lia | done]|].
      apply (leads_frame u); [intros x Hx; apply set_gate_outside; lia | apply H1; lia].
    + intros x Hx. rewrite set_gate_outside by lia. apply H2. lia.
Qed.
End Table.

Section Init.
Context {W : Type} `{Ports W}.
Variables idt idt_ptr : Z.
Variable isr_stub_table : Z -> Z.

(** The state behind the clearing loop. *)
Definition cleared (s : kstate W) : kstate W :=
  for_up (Z.to_nat IDT_ENTRIES) 0 (fun i s => set_handlers (upd (isr_handlers s) i 0) (set_mem (put_gate idt i 0 0 0 0 0 0 (kmem s)) s)) s.

Lemma clear_loop (s : kstate W) :
  (forall v, 0 <= v < 256 -> isr_handlers (cleared s) v = 0) /\ (forall x, x < idt \/ idt + 4096 <= x -> kmem (cleared s) x = kmem s x).
Proof.
  refine (for_up_inv (fun k s' => (forall v, 0 <= v < k -> isr_handlers s' v = 0) /\ forall x, x < idt \/ idt + 4096 <= x -> kmem s' x = kmem s x)
    (Z.to_nat IDT_ENTRIES) 0 _ s _ _); [split; [lia|done]|].
  unfold IDT_ENTRIES. intros i u Hi (H1 & H2). cbn [isr_handlers kmem set_handlers set_mem]. split.
  - intros v Hv. rewrite upd_spec. case_decide; [done | apply H1; lia].
  - intros x Hx. destruct (put_gate_ok idt i 0 0 0 0 0 0 (kmem u)) as (_ & _ & _ & _ & _ & _ & Ho). rewrite Ho by lia. by apply H2.
Qed.

(** The memory behind the clearing loop. *)
Definition gates (m : mem) : mem :=
  let m := for_up 32 0 (fun i m => idt_set_gate idt (u8 i) (isr_stub_table i) IDT_TRAP_GATE m) m in
  let m := for_up (Z.to_nat (IDT_ENTRIES - 32)) 32 (fun i m => idt_set_gate idt (u8 i) (isr_stub_table i) IDT_INTERRUPT_GATE m) m in
  store64 (store16 m idt_ptr (u16 (16 * IDT_ENTRIES - 1))) (idt_ptr + 2) idt.

Lemma gates_ok m : apart idt 4096 idt_ptr 10 -> 0 <= idt < 2 ^ 64 -> (forall v, 0 <= v < 256 -> 0 <= isr_stub_table v < 2 ^ 64) ->
  (forall v, 0 <= v < 256 -> leads idt (gates m) v (isr_stub_table v) (if v <? 32 then IDT_TRAP_GATE else IDT_INTERRUPT_GATE)) /\
  load16 (gates m) idt_ptr = 4095 /\ load64 (gates m) (idt_ptr + 2) = idt /\
  forall x, x < idt \/ idt + 4096 <= x -> x < idt_ptr \/ idt_ptr + 10 <= x -> gates m x = m x.
Proof.
  intros Hp Hi Hs. unfold apart in Hp. unfold gates. cbv zeta.
  destruct (gates_run idt isr_stub_table 32 0 IDT_TRAP_GATE m) as [T1 T2]; [done.. | lia | exact Hs |].
  set (m1 := for_up 32 0 _ m) in *. assert (Z.of_nat (Z.to_nat (IDT_ENTRIES - 32)) = 224) as N by done.
  destruct (gates_run idt isr_stub_table (Z.to_nat (IDT_ENTRIES - 32)) 32 IDT_INTERRUPT_GATE m1) as [I1 I2]; [done.. | lia | exact Hs |]. rewrite N in I1, I2.
  set (m2 := for_up _ 32 _ m1) in *. change (u16 (16 * IDT_ENTRIES - 1)) with 4095. clearbody m1 m2. set (m3 := store64 (store16 m2 idt_ptr 4095) (idt_ptr + 2) idt).
  assert (forall x, x < idt_ptr \/ idt_ptr + 10 <= x -> m3 x = m2 x) as M3 by (intros x Hx; unfold m3, store64, store16; by rewrite !store_le_outside by lia).
  split; [|split; [unfold m3; mem_simpl; done | split; [unfold m3; rewrite load64_store64; by apply u64_small|]]].
  - intros v Hv. apply (leads_frame idt m2); [intros x Hx; apply M3; lia|]. destruct (Z.ltb_spec v 32); [|apply I1; lia].
    apply (leads_frame idt m1); [intros x Hx; apply I2; lia | apply T1; lia].
  - intros x Hx1 Hx2. by rewrite M3, I2, T2 by lia.
Qed.

(** [idt_init] behind the clearing loop. *)
Definition idt_fill (s : kstate W) : kstate W :=
  let s := idt_flush idt_ptr (set_mem (gates (kmem s)) s) in
  set_kscreen (vga_puts_color (bytes_of "  [ OK ] IDT: 256 gates installed" ++ [10]) VGA_COLOR_LIGHT_GREEN VGA_COLOR_BLACK (kscreen s)) s.

Lemma idt_init_fill s : idt_init idt idt_ptr isr_stub_table s = idt_fill (cleared s).
Proof. unfold idt_init, idt_fill, gates, cleared. cbv zeta. reflexivity. Qed.

Lemma idt_fill_fields (s : kstate W) : kmem (idt_fill s) = gates (kmem s) /\ isr_handlers (idt_fill s) = isr_handlers s /\
  idtr (idt_fill s) = (load16 (gates (kmem s)) idt_ptr, load64 (gates (kmem s)) (idt_ptr + 2)).
Proof.
  unfold idt_fill. cbv zeta. generalize (gates (kmem s)). intros m. match goal with |- context [vga_puts_color ?a ?b ?c ?d] => generalize (vga_puts_color a b c d) end.
  intros v. split; [reflexivity | split; reflexivity].
Qed.

(** C32: After idt_init the processor's table has exactly 256 gates; the gate
    of every vector is present, of ring 0 and leads to that vector's stub in
    the kernel's code segment on the current stack, leaving interrupts enabled
    for the 32 exceptions and disabling them for all others; no handler is
    registered; and nothing outside the two tables is written. *)
Theorem idt_init_correct (s : kstate W) : apart idt 4096 idt_ptr 10 -> 0 <= idt < 2 ^ 64 -> (forall v, 0 <= v < 256 -> 0 <= isr_stub_table v < 2 ^ 64) ->
  let s' := idt_init idt idt_ptr isr_stub_table s in
  (forall v, 0 <= v < 256 -> gate_at (kmem s') (idtr s') v = Some (mk_gate (isr_stub_table v) GDT_KERNEL_CS 0 true 0 (v <? 32))) /\
  gate_at (kmem s') (idtr s') 256 = None /\
  (forall v, 0 <= v < 256 -> isr_handlers s' v = 0) /\
  forall x, x < idt \/ idt + 4096 <= x -> x < idt_ptr \/ idt_ptr + 10 <= x -> kmem s' x = kmem s x.
Proof.
  intros Hp Hi Hs. cbv zeta. rewrite idt_init_fill. destruct (clear_loop s) as [C1 C2]. generalize dependent (cleared s). intros s0 C1 C2. destruct (idt_fill_fields s0) as (-> & -> & ->).
  destruct (gates_ok (kmem s0) Hp Hi Hs) as (L & E1 & E2 & Ho). rewrite E1, E2. split; [|split; [|split]].
  - intros v Hv. unfold gate_at. cbn [fst snd]. destruct (Z.leb_spec (16 * v + 15) 4095); [|lia].
    destruct (L v Hv) as (L1 & L2 & L3 & L4). rewrite L1, L2, L3, L4. destruct (v <? 32); vm_compute; reflexivity.
  - unfold gate_at. cbn [fst snd]. destruct (Z.leb_spec (16 * 256 + 15) 4095); [lia | reflexivity].
  - exact C1.
  - intros x Hx1 Hx2. by rewrite Ho, C2.
Qed.
End Init.

Lemma idt_init_correct_witness :
  gate_at (kmem (idt_init 0x200000 0x202000 (fun v => 0x101000 + 16 * v) (mk_kstate (fun _ => 0xCC) (fun _ => 7) (0, 0) demo_vga)))
    (idtr (idt_init 0x200000 0x202000 (fun v => 0x101000 + 16 * v) (mk_kstate (fun _ => 0xCC) (fun _ => 7) (0, 0) demo_vga))) 0x21 = Some (mk_gate 0x101210 8 0 true 0 false).
Proof.
  refine (proj1 (idt_init_correct 0x200000 0x202000 (fun v => 0x101000 + 16 * v) (mk_kstate (fun _ => 0xCC) (fun _ => 7) (0, 0) demo_vga) _ _ _) 0x21 _); [unfold apart; lia | lia | lia | lia].
Defined.

(** ** The stack *)

Definition push_list (xs : list Z) (st : Z * mem) : Z * mem := fold_left (fun st x => push x st) xs st.

Lemma push_list_ok xs sp m : 8 * Z.of_nat (length xs) <= sp < 2 ^ 64 -> Forall (fun x => 0 <= x < 2 ^ 64) xs ->
  let st := push_list xs (sp, m) in
  st.1 = sp - 8 * Z.of_nat (length xs) /\
  (forall i x, xs !! i = Some x -> load64 st.2 (sp - 8 * (Z.of_nat i + 1)) = x) /\
  forall a, a < sp - 8 * Z.of_nat (length xs) \/ sp <= a -> st.2 a = m a.
Proof.
  revert sp m. induction xs as [|x xs IH]; intros sp m Hsp Hx; cbv zeta.
  { split; [cbn; lia|]. split; [by intros|done]. }
  apply Forall_cons in Hx as [Hx Hxs]. cbn [length] in *. unfold push_list. cbn [fold_left]. unfold push at 2 4 6. cbn [fst snd]. rewrite u64_small by lia.
  destruct (IH (sp - 8) (store64 m (sp - 8) x)) as (I1 & I2 & I3); [lia|done|]. unfold push_list in *. split; [rewrite I1; lia|]. split.
  - intros [|i] y Hi.
    + injection Hi as ->. replace (sp - 8 * (Z.of_nat 0 + 1)) with (sp - 8) by lia.
      transitivity (load64 (store64 m (sp - 8) y) (sp - 8)); [|by rewrite load64_store64, u64_small]. apply load_le_agree. intros a Ha. apply I3. lia.
    + cbn in Hi. replace (sp - 8 * (Z.of_nat (S i) + 1)) with (sp - 8 - 8 * (Z.of_nat i + 1)) by lia. by apply I2.
  - intros a Ha. rewrite I3 by lia. unfold store64. apply store_le_outside. lia.
Qed.

Lemma pop_regs_ok m l sp g : 0 <= sp -> sp + 8 * Z.of_nat (length l) < 2 ^ 64 -> NoDup l ->
  let '(sp', g') := pop_regs m l sp g in
  sp' = sp + 8 * Z.of_nat (length l) /\ (forall i r, l !! i = Some r -> g' r = load64 m (sp + 8 * Z.of_nat i)) /\ forall r, r ∉ l -> g' r = g r.
Proof.
  revert sp g. induction l as [|r l IH]; intros sp g H0 H1 Hd; cbn [pop_regs].
  { split; [cbn; lia|]. split; [by intros|done]. }
  apply NoDup_cons in Hd as [Hr Hd]. cbn [length] in *. rewrite u64_small by lia.
  specialize (IH (sp + 8) (fun r' => if decide (r' = r) then load64 m sp else g r') ltac:(lia) ltac:(lia) Hd). destruct (pop_regs _ _ _ _) as [sp' g'].
  destruct IH as (I1 & I2 & I3). split; [lia|]. split.
  - intros [|i] r' Hi.
    + injection Hi as ->. rewrite I3 by done. rewrite decide_True by done. f_equal. lia.
    + cbn in Hi. rewrite (I2 i r' Hi). f_equal. lia.
  - intros r' Hn. apply not_elem_of_cons in Hn as [N1 N2]. rewrite I3 by done. by rewrite decide_False.
Qed.

Lemma frame_regs_index r : frame_regs !! Z.to_nat (reg_index r) = Some r /\ 0 <= reg_index r < 15.
Proof. by destruct r. Qed.
Lemma frame_regs_nodup : NoDup frame_regs.
Proof. apply (bool_decide_unpack _). vm_compute. exact Logic.I. Qed.

(** ** An interrupt *)

Definition word (x : Z) : Prop := 0 <= x < 2 ^ 64.

Record cpu_words (c : cpu) : Prop := {
  cw_gpr r : word (gpr c r); cw_rip : word (rip c); cw_cs : word (cs c); cw_rflags : word (rflags c); cw_rsp : 512 <= rsp c < 2 ^ 64; cw_ss : word (ss c);
}.

(** The frame at [f] is that of an interrupt [v] of [c]. *)
Record frame_of (m : mem) (f v err : Z) (c : cpu) : Prop := {
  fo_reg r : f_reg m f r = gpr c r;
  fo_num : f_int_num m f = v;
  fo_err : f_err_code m f = err;
  fo_rip : f_rip m f = rip c; fo_cs : f_cs m f = cs c; fo_rflags : f_rflags m f = rflags c; fo_rsp : f_rsp m f = rsp c; fo_ss : f_ss m f = ss c;
}.

(** Code goes on with the state the frame holds. *)
Record resumes (m : mem) (f : Z) (c : cpu) : Prop := {
  re_gpr r : gpr c r = f_reg m f r;
  re_rip : rip c = f_rip m f; re_cs : cs c = f_cs m f; re_rflags : rflags c = f_rflags m f; re_rsp : rsp c = f_rsp m f; re_ss : ss c = f_ss m f;
}.

Definition same_cpu (c c' : cpu) : Prop :=
  (forall r, gpr c r = gpr c' r) /\ rip c = rip c' /\ cs c = cs c' /\ rflags c = rflags c' /\ rsp c = rsp c' /\ ss c = ss c'.

Lemma frame_resumes m m' f v err c c' : frame_of m f v err c -> (forall x, f <= x < f + 176 -> m' x = m x) -> resumes m' f c' -> same_cpu c' c.
Proof.
  intros [F1 F2 F3 F4 F5 F6 F7 F8] Hx [R1 R2 R3 R4 R5 R6].
  assert (forall k, 0 <= k <= 168 -> load64 m' (f + k) = load64 m (f + k)) as E by (intros k Hk; apply load_le_agree; intros x Hx'; apply Hx; lia).
  unfold f_reg, f_rip, f_cs, f_rflags, f_rsp, f_ss, OFF_RIP, OFF_CS, OFF_RFLAGS, OFF_RSP, OFF_SS in *. rewrite E in R2, R3, R4, R5, R6 by lia.
  split; [|by repeat split; congruence]. intros r. rewrite R1, E by (pose proof (frame_regs_index r); lia). apply F1.
Qed.

(** What is on the stack, from the top down. *)
Definition pushed (v : Z) (err : option Z) (c : cpu) : list Z :=
  [ss c; rsp c; rflags c; cs c; rip c; default 0 err; v] ++ map (gpr c) (rev frame_regs).

Lemma isr_stack v err c m : isr_err v = bool_decide (is_Some err) ->
  push_regs (gpr c) [R15; R14; R13; R12; R11; R10; R9; R8; RBP; RDI; RSI; RDX; RCX; RBX; RAX] (isr_stub v (deliver err c m)) = push_list (pushed v err c) (16 * (rsp c / 16), m).
Proof. intros He. unfold isr_stub. rewrite He. by destruct err. Qed.

Lemma stack_frame v err c m : cpu_words c -> word v -> word (default 0 err) ->
  let f := 16 * (rsp c / 16) - 176 in let st := push_list (pushed v err c) (16 * (rsp c / 16), m) in
  st.1 = f /\ frame_of st.2 f v (default 0 err) c /\ forall x, x < f \/ f + 176 <= x -> st.2 x = m x.
Proof.
  intros [C1 C2 C3 C4 C5 C6] Hv He. cbv zeta. set (sp := 16 * (rsp c / 16)). assert (496 <= sp < 2 ^ 64) as Hsp by (unfold sp; dlia).
  assert (Forall (fun x => 0 <= x < 2 ^ 64) (pushed v err c)) as Hf.
  { unfold pushed. apply Forall_app. split; [repeat (constructor; [unfold word in *; done || lia|]); constructor|]. apply Forall_map, Forall_true. intros r. apply C1. }
  destruct (push_list_ok (pushed v err c) sp m) as (P1 & P2 & P3); [change (length (pushed v err c)) with 22%nat; lia | exact Hf|].
  change (length (pushed v err c)) with 22%nat in *. destruct (push_list _ _) as [sp' m']. cbn [fst snd] in *.
  split; [lia|]. split; [|intros x Hx; apply P3; lia].
  assert (forall i k x, pushed v err c !! i = Some x -> Z.of_nat i = 21 - k -> load64 m' (sp - 176 + 8 * k) = x) as P.
  { intros i k x Hi Hk. rewrite <- (P2 i x Hi). f_equal. lia. }
  split.
  - intros r. apply (P (Z.to_nat (21 - reg_index r))); by destruct r.
  - by apply (P 6%nat 15).
  - by apply (P 5%nat 16).
  - by apply (P 4%nat 17).
  - by apply (P 3%nat 18).
  - by apply (P 2%nat 19).
  - by apply (P 1%nat 20).
  - by apply (P 0%nat 21).
Qed.

(** ** Dispatch *)

Section Dispatch.
Context {W : Type} `{Ports W}.
Variable call : Z -> Z -> kstate W -> outcome W.
Implicit Type s : kstate W.

(** The interrupted code goes on only if the handler returned. *)
Definition outcome_agrees (f : Z) (o : outcome W) (r : outcome W * option cpu) : Prop :=
  match o with
  | Halted s' => r = (Halted s', None)
  | Returned s' => exists c', r = (Returned s', Some c') /\ resumes (kmem s') f c'
  end.

Lemma interrupt_frame v err c s : cpu_words c -> word v -> word (default 0 err) -> isr_err v = bool_decide (is_Some err) ->
  let f := 16 * (rsp c / 16) - 176 in
  exists m, frame_of m f v (default 0 err) c /\ (forall x, x < f \/ f + 176 <= x -> m x = kmem s x) /\
    outcome_agrees f (isr_dispatch call f (set_mem m s)) (interrupt call v err c s).
Proof.
  intros Hc Hv He Hi. cbv zeta. destruct (stack_frame v err c (kmem s) Hc Hv He) as (S1 & S2 & S3). unfold interrupt, isr_common_handler. rewrite isr_stack by done.
  destruct (push_list _ _) as [sp m]. cbn [fst snd] in S1, S2, S3. exists m. split; [done|]. split; [done|]. rewrite S1.
  pose proof (cw_rsp c Hc) as Hr. set (f := 16 * (rsp c / 16) - 176) in *. assert (320 <= f < 2 ^ 64 - 176) as Hf by (unfold f; dlia).
  destruct (isr_dispatch call f _) as [s'|s']; [|done]. cbn [outcome_agrees].
  pose proof (pop_regs_ok (kmem s') frame_regs f (gpr c) ltac:(lia) ltac:(change (length frame_regs) with 15%nat; lia) frame_regs_nodup) as Hp.
  change [RAX; RBX; RCX; RDX; RSI; RDI; RBP; R8; R9; R10; R11; R12; R13; R14; R15] with frame_regs. destruct (pop_regs _ _ _ _) as [sp' g'].
  destruct Hp as (P1 & P2 & _). change (length frame_regs) with 15%nat in P1. eexists. split; [done|]. rewrite (u64_small (sp' + 16)) by lia.
  replace (sp' + 16) with (f + 136) by lia. unfold iretq.
  split; cbn [gpr rip cs rflags rsp ss]; unfold f_rip, f_cs, f_rflags, f_rsp, f_ss, OFF_RIP, OFF_CS, OFF_RFLAGS, OFF_RSP, OFF_SS; try (f_equal; lia).
  intros r. destruct (frame_regs_index r) as [Hr1 Hr2]. rewrite (P2 _ _ Hr1). unfold f_reg. f_equal. lia.
Qed.

(** The exceptions with an error code, by the manuals of the two makers of the
    processor: double fault, invalid task state segment, segment not present,
    stack fault, general protection, page fault, alignment check; and later
    control protection, virtualisation and security. *)
Definition code_vectors : list Z := [8; 10; 11; 12; 13; 14; 17; 21; 29; 30].
(** The last three, whose stubs take them for exceptions without one. *)
Definition late_vectors : list Z := [21; 29; 30].
Definition error_code (v e : Z) : option Z := if decide (v ∈ code_vectors) then Some e else None.

Lemma stub_agrees v e : 0 <= v < 256 -> v ∉ late_vectors -> isr_err v = bool_decide (is_Some (error_code v e)).
Proof.
  intros Hv Hl. unfold isr_err, error_code, code_vectors, late_vectors in *. case_decide as D.
  - rewrite !bool_decide_true; [done | by eexists | set_solver].
  - rewrite !bool_decide_false; [done | by intros [? ?] | set_solver].
Qed.

(** C29: An interrupt is invisible to the code it interrupts.  The processor
    pushes the error code [e] for the exceptions that have one, and the stubs
    give the handler registered for the vector a frame with the interrupted
    registers, the vector and the error code (0 where there is none), on an
    aligned stack below the interrupted one, and write nothing else; when the
    handler returns, the code goes on with exactly the state the frame then
    holds, hence with its own state when the handler left the frame alone.
    Without a handler an exception is reported and the machine halts, and any
    other vector is passed over without a trace.  The vectors 21, 29 and 30 are
    left out: their stubs are wrong.  (Of the registers, the general ones,
    the instruction pointer, the stack, the flags and the two selectors are
    meant: the stubs save no SSE registers.) *)
Theorem interrupt_transparent v e c s : cpu_words c -> 0 <= v < 256 -> v ∉ late_vectors -> word e ->
  let err := error_code v e in let f := 16 * (rsp c / 16) - 176 in let h := isr_handlers s v in
  exists m, frame_of m f v (default 0 err) c /\ f mod 16 = 0 /\ (forall x, x < f \/ f + 176 <= x -> m x = kmem s x) /\
    if h =? 0 then
      if v <? 32 then interrupt call v err c s = (Halted (set_kscreen (exception_dump m f (kscreen s)) (set_mem m s)), None)
      else exists c', interrupt call v err c s = (Returned (set_mem m s), Some c') /\ same_cpu c' c
    else match call h f (set_mem m s) with
         | Halted s' => interrupt call v err c s = (Halted s', None)
         | Returned s' => exists c', interrupt call v err c s = (Returned s', Some c') /\ resumes (kmem s') f c' /\
                            ((forall x, f <= x < f + 176 -> kmem s' x = m x) -> same_cpu c' c)
         end.
Proof.
  intros Hc Hv Hl Hw. cbv zeta. pose proof (stub_agrees v e Hv Hl) as Hi. assert (word (default 0 (error_code v e))) as He by (unfold error_code, word in *; case_decide; cbn; lia).
  revert Hi He. generalize (error_code v e). intros err Hi He. destruct (interrupt_frame v err c s Hc) as (m & F & O & A); [unfold word; lia|done..|]. exists m. split; [done|]. split; [dlia|]. split; [done|].
  set (f := 16 * (rsp c / 16) - 176) in *. unfold isr_dispatch in A. cbn [kmem isr_handlers set_mem] in A. rewrite (fo_num _ _ _ _ _ F) in A.
  destruct (isr_handlers s v =? 0); cbn [negb] in A.
  - destruct (v <? 32); cbn [outcome_agrees] in A; [exact A|]. destruct A as (c' & A & R). exists c'. split; [exact A|]. by apply (frame_resumes m m f v (default 0 err)).
  - assert (outcome_agrees f (call (isr_handlers s v) f (set_mem m s)) (interrupt call v err c s)) as B by (destruct (v <? 32); exact A). clear A.
    destruct (call _ f _) as [s'|s']; [|exact B]. destruct B as (c' & B & R). exists c'. split; [exact B|]. split; [exact R|].
    intros Hx. by apply (frame_resumes m (kmem s') f v (default 0 err)).
Qed.
End Dispatch.

(** A breakpoint at an odd stack whose handler skips one byte: the frame moves
    the instruction pointer of the code that goes on. *)
Definition skip_one (h f : Z) (s : kstate crtc_dev) : outcome crtc_dev := Returned (set_mem (store64 (kmem s) (f + OFF_RIP) (f_rip (kmem s) f + 1)) s).
Definition demo_regs : cpu := mk_cpu (fun r => 1000 + reg_index r) 0x100500 8 0x202 0x9003 16.
Definition demo_kstate (h : Z -> Z) : kstate crtc_dev := mk_kstate (fun _ => 0) h (4095, 0x200000) demo_vga.

(** The breakpoint; a line without a handler; a page fault with its code. *)
Lemma interrupt_transparent_witness :
  cpu_words demo_regs /\ (exists s' c', interrupt skip_one 3 None demo_regs (demo_kstate (fun v => if v =? 3 then 0x101234 else 0)) = (Returned s', Some c') /\ resumes (kmem s') (0x9000 - 176) c') /\
  (exists s' c', interrupt skip_one 0x40 None demo_regs (demo_kstate (fun v => if v =? 3 then 0x101234 else 0)) = (Returned s', Some c') /\ same_cpu c' demo_regs) /\
  exists m, frame_of m (0x9000 - 176) 14 7 demo_regs /\ interrupt skip_one 14 (Some 7) demo_regs (demo_kstate (fun _ => 0)) = (Halted (set_kscreen (exception_dump m (0x9000 - 176) demo_vga) (set_mem m (demo_kstate (fun _ => 0)))), None).
Proof.
  assert (cpu_words demo_regs) as Hc by (split; unfold word; cbn; try lia; intros r; pose proof (frame_regs_index r); lia).
  split; [exact Hc|]. split; [|split].
  - destruct (interrupt_transparent skip_one 3 0 demo_regs (demo_kstate (fun v => if v =? 3 then 0x101234 else 0)) Hc ltac:(lia) ltac:(apply (bool_decide_unpack _); vm_compute; exact Logic.I) ltac:(unfold word; lia)) as (m & _ & _ & _ & A).
    destruct A as (c' & A & R & _). eexists _, c'. split; [exact A | exact R].
  - destruct (interrupt_transparent skip_one 0x40 0 demo_regs (demo_kstate (fun v => if v =? 3 then 0x101234 else 0)) Hc ltac:(lia) ltac:(apply (bool_decide_unpack _); vm_compute; exact Logic.I) ltac:(unfold word; lia)) as (m & _ & _ & _ & A).
    destruct A as (c' & A & R). eexists _, c'. split; [exact A | exact R].
  - destruct (interrupt_transparent skip_one 14 7 demo_regs (demo_kstate (fun _ => 0)) Hc ltac:(lia) ltac:(apply (bool_decide_unpack _); vm_compute; exact Logic.I) ltac:(unfold word; lia)) as (m & F & _ & _ & A).
    exists m. split; [exact F | exact A].
Defined.
