(* ===== verification/ReportSpec.v ===== *)
(** Reports on the text screen: a sequence of coloured texts, where each of
    them stands once all is printed, and that it is still in sight. *)

From S2P Require Import Prelude Memory Ports Vga.
Local Open Scope Z_scope.

(** ** Texts on the roll *)

Definition advance1 (p c : Z) : Z := if c =? 10 then (p / 80 + 1) * 80 else p + 1.
Definition advance (p : Z) (s : list Z) : Z := fold_left advance1 s p.

(** Characters that move forward. *)
Definition plain (c : Z) : Prop := c <> 13 /\ c <> 9 /\ c <> 8.

Definition run : Type := Z * list Z.
Definition roll_runs (l : list run) (r : roll) : roll := fold_left (fun r x => roll_puts x.1 x.2 r) l r.
Definition text_of (l : list run) : list Z := concat (map snd l).
Definition plain_runs (l : list run) : Prop := Forall plain (text_of l).

Lemma printable_plain s : Forall printable s -> Forall plain s.
Proof. intros Hs. apply (Forall_impl _ _ _ Hs). by intros c (? & ? & ? & ?). Qed.

Lemma roll_runs_app l1 l2 r : roll_runs (l1 ++ l2) r = roll_runs l2 (roll_runs l1 r).
Proof. unfold roll_runs. apply fold_left_app. Qed.
Lemma text_of_app l1 l2 : text_of (l1 ++ l2) = text_of l1 ++ text_of l2.
Proof. unfold text_of. by rewrite map_app, concat_app. Qed.
Lemma text_of_cons k s l : text_of ((k, s) :: l) = s ++ text_of l.
Proof. done. Qed.
Lemma plain_app l1 l2 : plain_runs (l1 ++ l2) <-> plain_runs l1 /\ plain_runs l2.
Proof. unfold plain_runs. rewrite text_of_app. apply Forall_app. Qed.
Lemma plain_cons k s l : plain_runs ((k, s) :: l) <-> Forall plain s /\ plain_runs l.
Proof. unfold plain_runs. rewrite text_of_cons. apply Forall_app. Qed.

Lemma advance_app p s1 s2 : advance p (s1 ++ s2) = advance (advance p s1) s2.
Proof. unfold advance. apply fold_left_app. Qed.

Lemma advance_text p s : Forall printable s -> advance p s = p + Z.of_nat (length s).
Proof.
  revert p. induction s as [|c s IH]; intros p Hs; [cbn; lia|]. apply Forall_cons in Hs as [(N & _) Hs]. cbn [advance fold_left].
  unfold advance1 at 2. destruct (Z.eqb_spec c 10); [done|]. fold (advance (p + 1) s). rewrite IH by done. cbn [length]. lia.
Qed.

Lemma advance_ge p s : p <= advance p s.
Proof.
  revert p. induction s as [|c s IH]; intros p; [done|]. cbn [advance fold_left]. etrans; [|apply IH]. unfold advance1. destruct (c =? 10); dlia.
Qed.

(** At most so far does a text move. *)
Definition weight (s : list Z) : Z := Z.of_nat (length s) + 79 * Z.of_nat (length (filter (fun c => c = 10) s)).

Lemma weight_app s1 s2 : weight (s1 ++ s2) = weight s1 + weight s2.
Proof. unfold weight. rewrite filter_app, !length_app. lia. Qed.

Lemma weight_text s : Forall printable s -> weight s = Z.of_nat (length s).
Proof.
  intros Hs. unfold weight. replace (filter (fun c => c = 10) s) with (@nil Z); [cbn [length]; lia|].
  induction Hs as [|c s [N _] _ IH]; [done|]. by rewrite filter_cons_False.
Qed.

Lemma advance_weight p s : advance p s <= p + weight s.
Proof.
  revert p. induction s as [|c s IH]; intros p; [change (p <= p + 0); lia|]. cbn [advance fold_left]. etrans; [apply IH|]. unfold advance1, weight. rewrite filter_cons.
  destruct (Z.eqb_spec c 10); [rewrite decide_True by done | rewrite decide_False by done]; cbn [length]; dlia.
Qed.

(** Counting from the start of a row. *)
Lemma advance_row q c s : advance (80 * q + c) s = 80 * q + advance c s.
Proof.
  revert c. induction s as [|x s IH]; intros c; [done|]. cbn [advance fold_left]. unfold advance1 at 2 4. destruct (x =? 10).
  - replace ((80 * q + c) / 80 + 1) with (q + (c / 80 + 1)) by dlia. replace ((q + (c / 80 + 1)) * 80) with (80 * q + (c / 80 + 1) * 80) by lia. apply IH.
  - replace (80 * q + c + 1) with (80 * q + (c + 1)) by lia. apply IH.
Qed.

(** The window moves only as far as it must. *)
Definition window_at (r : roll) (top : Z) : Prop := r_top r = Z.max top (r_pos r / 80 - 24).

Lemma roll_step k c r : in_window r -> plain c -> let r' := roll_putchar k c r in
  in_window r' /\ r_pos r' = advance1 (r_pos r) c /\ (forall top, window_at r top -> window_at r' top) /\ forall j, j < r_pos r -> r_cell r' j = r_cell r j.
Proof.
  intros Hw (N1 & N2 & N3). cbv zeta. unfold roll_putchar, advance1. rewrite (proj2 (Z.eqb_neq c 13)), (proj2 (Z.eqb_neq c 9)), (proj2 (Z.eqb_neq c 8)) by done.
  assert (forall q x : Z, r_pos r <= q <= (r_pos r / 80 + 1) * 80 -> forall r1, r_top r1 = r_top r -> r_pos r1 = r_pos r -> (forall j, j < r_pos r -> r_cell r1 j = r_cell r j) ->
    let r' := feed k q r1 in in_window r' /\ r_pos r' = q /\ (forall top, window_at r top -> window_at r' top) /\ forall j, j < r_pos r -> r_cell r' j = r_cell r j) as F.
  { intros q _ Hq r1 E1 E2 E3. destruct (line_feed_ok k q r1) as (F1 & F2 & F3); [unfold in_window in *; by rewrite E1, E2 | by rewrite E2|].
    split; [done|]. split; [done|]. split; [|intros j Hj; rewrite F3 by lia; by apply E3].
    intros top Ht. unfold window_at in *. rewrite F2. unfold feed. destruct Hw as [Hw1 Hw2]. zcase; cbn [r_top]; rewrite E1 in *; dlia. }
  destruct (c =? 10); [apply (F _ 0); try done; destruct Hw; dlia|].
  apply (F _ 0); [destruct Hw; dlia | done | done |]. intros j Hj. cbn [r_cell]. apply upd_ne. lia.
Qed.

Lemma roll_plain k s r : in_window r -> Forall plain s -> let r' := roll_puts k s r in
  in_window r' /\ r_pos r' = advance (r_pos r) s /\ (forall top, window_at r top -> window_at r' top) /\ forall j, j < r_pos r -> r_cell r' j = r_cell r j.
Proof.
  revert r. induction s as [|c s IH]; intros r Hw Hs; cbv zeta; [done|]. apply Forall_cons in Hs as [Hc Hs]. cbn [roll_puts fold_left advance].
  destruct (roll_step k c r Hw Hc) as (S1 & S2 & S3 & S4). destruct (IH _ S1 Hs) as (I1 & I2 & I3 & I4).
  split; [exact I1|]. split; [etrans; [exact I2|]; by rewrite S2|]. split; [intros top Ht; apply I3, S3, Ht|].
  intros j Hj. etrans; [apply I4 | by apply S4]. rewrite S2. unfold advance1. destruct (c =? 10); dlia.
Qed.

Lemma runs_plain l r : in_window r -> plain_runs l -> let r' := roll_runs l r in
  in_window r' /\ r_pos r' = advance (r_pos r) (text_of l) /\ (forall top, window_at r top -> window_at r' top) /\ forall j, j < r_pos r -> r_cell r' j = r_cell r j.
Proof.
  revert r. induction l as [|[k s] l IH]; intros r Hw Hs; cbv zeta; [done|]. unfold plain_runs, text_of in *. cbn [map concat snd] in *. apply Forall_app in Hs as [Hs Hl].
  cbn [roll_runs fold_left fst snd]. destruct (roll_plain k s r Hw Hs) as (S1 & S2 & S3 & S4). destruct (IH _ S1 Hl) as (I1 & I2 & I3 & I4).
  split; [exact I1|]. split; [etrans; [exact I2|]; by rewrite S2, advance_app|]. split; [intros top Ht; apply I3, S3, Ht|].
  intros j Hj. etrans; [apply I4 | by apply S4]. rewrite S2. pose proof (advance_ge (r_pos r) s). lia.
Qed.

(** The text [t] stands on the roll at [p] in the colour [k]. *)
Definition stands (r : roll) (p k : Z) (t : list Z) : Prop := forall i c, t !! i = Some c -> r_cell r (p + Z.of_nat i) = vga_entry c k.

Lemma run_stands a k t b r : in_window r -> plain_runs (a ++ (k, t) :: b) -> Forall printable t ->
  stands (roll_runs (a ++ (k, t) :: b) r) (advance (r_pos r) (text_of a)) k t.
Proof.
  intros Hw Hp Ht. unfold plain_runs, text_of in Hp. rewrite map_app, concat_app in Hp. cbn [map concat snd] in Hp. apply Forall_app in Hp as [Ha Hb]. apply Forall_app in Hb as [_ Hb].
  unfold roll_runs. rewrite fold_left_app. cbn [fold_left fst snd]. destruct (runs_plain a r Hw Ha) as (A1 & A2 & _ & _). fold (roll_runs a r) in *.
  set (ra := roll_runs a r) in *. rewrite <- A2. destruct (roll_text k t ra A1 Ht) as (T1 & T2 & T3 & _).
  destruct (runs_plain b _ T1 Hb) as (_ & _ & _ & B4). intros i c Hi. etrans; [apply B4|by apply T3]. rewrite T2. apply lookup_lt_Some in Hi. lia.
Qed.

(** ** On the screen *)

Section Spec.
Context {W : Type} `{Ports W}.
Implicit Type v : vga W.

(** [f] prints the texts [l]. *)
Definition prints (f : vga W -> vga W) (k0 : Z) (l : list run) : Prop :=
  forall t0 v r, shows t0 v r -> color v = k0 -> shows t0 (f v) (roll_runs l r) /\ color (f v) = k0.

(** Somewhere on the screen the text is to be read. *)
Definition on_screen v (k : Z) (t : list Z) : Prop :=
  exists j, 0 <= j /\ j + Z.of_nat (length t) <= 2000 /\ forall i c, t !! i = Some c -> cells v (VGA_MEMORY + 2 * (j + Z.of_nat i)) = vga_entry c k.

Lemma prints_then f g k0 l1 l2 : prints f k0 l1 -> prints g k0 l2 -> prints (fun v => g (f v)) k0 (l1 ++ l2).
Proof.
  intros Hf Hg t0 v r S C. destruct (Hf t0 v r S C) as [S1 C1]. destruct (Hg t0 _ _ S1 C1) as [S2 C2]. split; [|done].
  unfold roll_runs. rewrite fold_left_app. exact S2.
Qed.

Lemma prints_puts_color `{!Crtc W} s fg bg k0 : prints (vga_puts_color s fg bg) k0 [(vga_color fg bg, s)].
Proof.
  intros t0 v r S C. unfold vga_puts_color. cbv zeta. assert (shows t0 (set_color (vga_color fg bg) v) r) as S1 by (destruct S; by split).
  split; [|done]. pose proof (puts_ok t0 s _ _ S1) as S2. cbn [roll_runs fold_left fst snd color set_color] in *. destruct S2. by split.
Qed.

Lemma prints_puts `{!Crtc W} s k0 : prints (vga_puts s) k0 [(k0, s)].
Proof. intros t0 v r S C. split; [rewrite <- C; by apply puts_ok | by rewrite puts_color]. Qed.

Lemma for_up_puts (g : Z -> Z) n i v : for_up n i (fun k v => vga_putchar (g k) v) v = vga_puts (map g (seqZ i (Z.of_nat n))) v.
Proof.
  revert i v. induction n as [|n IH]; intros i v; [done|]. cbn [for_up]. rewrite IH, (seqZ_cons i (Z.of_nat (S n))) by lia. cbn [map vga_puts fold_left].
  replace (Z.pred (Z.of_nat (S n))) with (Z.of_nat n) by lia. by replace (Z.succ i) with (i + 1) by lia.
Qed.

Lemma prints_puthex `{!Crtc W} x k0 : prints (vga_puthex x) k0 [(k0, bytes_of "0x"); (k0, hex_digits x)].
Proof.
  intros t0 v r S C. unfold vga_puthex. rewrite for_up_puts. change (Z.of_nat 16) with 16. fold (hex_digits x).
  exact (prints_then _ _ k0 _ _ (prints_puts (bytes_of "0x") k0) (prints_puts (hex_digits x) k0) t0 v r S C).
Qed.

Lemma prints_putchar `{!Crtc W} c k0 : prints (vga_putchar c) k0 [(k0, [c])].
Proof. exact (prints_puts [c] k0). Qed.

Lemma hex_digit_printable x : printable (hex_digit x).
Proof.
  unfold hex_digit. change 0xF with (2 ^ 4 - 1). rewrite land_ones_mod by lia. assert (0 <= x mod 2 ^ 4 < 16) as Hx by (apply Z.mod_pos_bound; lia).
  assert (Forall printable hex) as Hf by (unfold printable; apply (bool_decide_unpack _); vm_compute; exact Logic.I).
  eapply Forall_nth; [exact Hf|]. change (length hex) with 16%nat. lia.
Qed.

Lemma hex_digits_printable x : Forall printable (hex_digits x) /\ length (hex_digits x) = 16%nat.
Proof. split; [|done]. unfold hex_digits. apply Forall_map, Forall_true. intros k. apply hex_digit_printable. Qed.

(** The digits are those of the number. *)
Definition hex_value (c : Z) : Z := if c <? 58 then c - 48 else c - 55.
Definition read_hex (s : list Z) : Z := fold_left (fun a c => 16 * a + hex_value c) s 0.

Lemma hex_digit_value x : hex_value (hex_digit x) = x mod 16.
Proof.
  unfold hex_digit. change 0xF with (2 ^ 4 - 1). rewrite land_ones_mod by lia. change (2 ^ 4) with 16. pose proof (Z.mod_pos_bound x 16 ltac:(lia)) as Hx.
  generalize dependent (x mod 16). intros y Hy.
  assert (Forall (fun i => hex_value (nth (Z.to_nat i) hex 0) = i) (seqZ 0 16)) as Hf by (apply (bool_decide_unpack _); vm_compute; exact Logic.I).
  rewrite Forall_forall in Hf. apply Hf, elem_of_seqZ. lia.
Qed.

Lemma hex_digits_read x : 0 <= x < 2 ^ 64 -> read_hex (hex_digits x) = x.
Proof.
  intros Hx. unfold read_hex, hex_digits.
  assert (forall k, (k <= 16)%nat -> fold_left (fun a c => 16 * a + hex_value c) (map (fun k => hex_digit (Z.shiftr x (60 - 4 * k))) (seqZ 0 (Z.of_nat k))) 0 = x / 2 ^ (64 - 4 * Z.of_nat k)) as G.
  { induction k as [|k IH]; intros Hk; [symmetry; apply Z.div_small, Hx|]. rewrite seqZ_S, map_app, fold_left_app, IH by lia. cbn [map fold_left].
    rewrite hex_digit_value, Z.shiftr_div_pow2 by lia. rewrite !Z.add_0_l. replace (64 - 4 * Z.of_nat (S k)) with (60 - 4 * Z.of_nat k) by lia.
    replace (64 - 4 * Z.of_nat k) with (60 - 4 * Z.of_nat k + 4) by lia. rewrite Z.pow_add_r, <- Z.div_div by lia. change (2 ^ 4) with 16. dlia. }
  change 16 with (Z.of_nat 16) at 2. rewrite (G 16%nat (Nat.le_refl _)). apply Z.div_1_r.
Qed.

Lemma shows_in_window t0 v r : shows t0 v r -> in_window r.
Proof. intros [_ Hc Hr Hp Ht _]. split; rewrite Hp; dlia. Qed.

Lemma stands_on_screen t0 v r p k t : shows t0 v r -> stands r p k t -> r_top r * 80 <= p -> p + Z.of_nat (length t) <= (r_top r + 25) * 80 -> on_screen v k t.
Proof.
  intros S Ht H1 H2. exists (p - r_top r * 80). split; [lia|]. split; [lia|]. intros i c Hi. pose proof (lookup_lt_Some _ _ _ Hi) as Hl.
  destruct S as [_ _ _ _ _ [Hw _]]. rewrite Hw by lia. rewrite <- (Ht i c Hi). f_equal. lia.
Qed.

(** A text of a report is on the screen when the report ends, provided not too
    much came behind it. *)
Lemma report_on_screen a k t b t0 v v' r : shows t0 v r -> shows t0 v' (roll_runs (a ++ (k, t) :: b) r) -> plain_runs (a ++ (k, t) :: b) -> Forall printable t ->
  advance (r_pos r) (text_of (a ++ (k, t) :: b)) / 80 - 24 <= advance (r_pos r) (text_of a) / 80 ->
  on_screen v' k t.
Proof.
  intros S S' Hp Ht Hb. pose proof (shows_in_window _ _ _ S) as Hw.
  destruct (runs_plain _ r Hw Hp) as (W1 & W2 & W3 & _). set (p := advance (r_pos r) (text_of a)) in *.
  assert (window_at r (r_top r)) as Hat by (unfold window_at; destruct Hw; lia). specialize (W3 _ Hat). unfold window_at in W3.
  pose proof (advance_ge (r_pos r) (text_of a)) as Hge. fold p in Hge.
  assert (p + Z.of_nat (length t) <= advance (r_pos r) (text_of (a ++ (k, t) :: b))) as Hend.
  { unfold text_of. rewrite map_app, concat_app. cbn [map concat snd]. rewrite !advance_app. fold (text_of a) (text_of b) p. rewrite (advance_text p t) by done. apply advance_ge. }
  apply (stands_on_screen t0 _ _ p k t S'); [by apply run_stands | |].
  - rewrite W3, W2. assert (r_top r <= p / 80); [|dlia]. destruct S as [_ Hc Hr Hpos Hto _]. assert (r_top r = r_pos r / 80 - row v) as -> by (rewrite Hpos; dlia). dlia.
  - destruct W1 as [_ W1]. rewrite W2 in W1. dlia.
Qed.

Lemma report_visible a k t b t0 v v' r : shows t0 v r -> shows t0 v' (roll_runs (a ++ (k, t) :: b) r) -> plain_runs (a ++ (k, t) :: b) -> Forall printable t ->
  weight (t ++ text_of b) <= 1920 -> on_screen v' k t.
Proof.
  intros S S' Hp Ht Hw. apply (report_on_screen a k t b t0 v v' r S S' Hp Ht). unfold text_of in *. rewrite map_app, concat_app. cbn [map concat snd].
  rewrite advance_app. set (p := advance (r_pos r) (concat (map snd a))). pose proof (advance_weight p (t ++ concat (map snd b))). dlia.
Qed.

(** Everything in a short report is to be read at its end. *)
Lemma short_report l k t t0 v v' r : shows t0 v r -> shows t0 v' (roll_runs l r) -> plain_runs l -> weight (text_of l) <= 1920 ->
  (k, t) ∈ l -> Forall printable t -> on_screen v' k t.
Proof.
  intros S S' Hp Hw Hin Ht. apply list_elem_of_split in Hin as (a & b & ->). apply (report_visible a k t b t0 v v' r S S' Hp Ht).
  rewrite text_of_app, text_of_cons, weight_app in Hw. assert (0 <= weight (text_of a)) by (unfold weight; lia). lia.
Qed.

(** Several texts in a row, as characters with their colours, are to be read
    on the screen without anything in between. *)
Definition stretch (l : list run) : list (Z * Z) := concat (map (fun x => map (pair x.1) x.2) l).
Definition stretch_on_screen v (l : list run) : Prop :=
  exists j, 0 <= j /\ j + Z.of_nat (length (stretch l)) <= 2000 /\ forall i k c, stretch l !! i = Some (k, c) -> cells v (VGA_MEMORY + 2 * (j + Z.of_nat i)) = vga_entry c k.

Lemma stretch_length l : length (stretch l) = length (text_of l).
Proof. induction l as [|[k t] l IH]; [done|]. unfold stretch, text_of in *. cbn [map concat fst snd]. rewrite !length_app, length_map. lia. Qed.

Lemma stretch_stands a l b r i k c : in_window r -> plain_runs (a ++ l ++ b) -> Forall printable (text_of l) -> stretch l !! i = Some (k, c) ->
  r_cell (roll_runs (a ++ l ++ b) r) (advance (r_pos r) (text_of a) + Z.of_nat i) = vga_entry c k.
Proof.
  intros Hw. revert a i. induction l as [|[k0 t] l IH]; intros a i Hp Ht Hi; [done|]. rewrite text_of_cons in Ht. apply Forall_app in Ht as [Ht Hl].
  unfold stretch in Hi. cbn [map concat fst snd] in Hi. fold (stretch l) in Hi. apply lookup_app_Some in Hi as [Hi|[Hge Hi]].
  - apply list_lookup_fmap_Some in Hi as (c' & E & Hi). injection E as -> ->. by apply (run_stands a k0 t (l ++ b) r Hw Hp Ht).
  - rewrite length_map in Hge, Hi. specialize (IH (a ++ [(k0, t)]) (i - length t)%nat). rewrite <- app_assoc in IH. specialize (IH Hp Hl Hi). rewrite <- IH. f_equal.
    rewrite text_of_app, advance_app. change (text_of [(k0, t)]) with (t ++ []). rewrite app_nil_r, (advance_text _ t) by done. lia.
Qed.

Lemma report_stretch a l b t0 v v' r : shows t0 v r -> shows t0 v' (roll_runs (a ++ l ++ b) r) -> plain_runs (a ++ l ++ b) -> Forall printable (text_of l) ->
  weight (text_of (l ++ b)) <= 1920 -> stretch_on_screen v' l.
Proof.
  intros S S' Hp Ht Hb. pose proof (shows_in_window _ _ _ S) as Hw.
  destruct (runs_plain _ r Hw Hp) as (W1 & W2 & W3 & _). set (p := advance (r_pos r) (text_of a)) in *.
  assert (window_at r (r_top r)) as Hat by (unfold window_at; destruct Hw; lia). specialize (W3 _ Hat). unfold window_at in W3.
  pose proof (advance_ge (r_pos r) (text_of a)) as Hge. fold p in Hge. rewrite text_of_app, advance_app in W2. fold p in W2.
  pose proof (advance_weight p (text_of (l ++ b))) as Hwt. assert (p + Z.of_nat (length (text_of l)) <= advance p (text_of (l ++ b))) as Hend.
  { rewrite text_of_app, advance_app, (advance_text p (text_of l)) by done. apply advance_ge. }
  set (rf := roll_runs (a ++ l ++ b) r) in *. exists (p - r_top rf * 80). rewrite stretch_length. split; [|split].
  - rewrite W3, W2. assert (r_top r <= p / 80); [|dlia]. destruct S as [_ Hc Hr Hpos Hto _]. assert (r_top r = r_pos r / 80 - row v) as -> by (rewrite Hpos; dlia). dlia.
  - destruct W1 as [_ W1]. rewrite W2 in W1. dlia.
  - intros i k c Hi. pose proof (lookup_lt_Some _ _ _ Hi) as Hlt. rewrite stretch_length in Hlt.
    assert (0 <= p - r_top rf * 80) as H0 by (rewrite W3, W2; assert (r_top r <= p / 80); [|dlia]; destruct S as [_ Hc Hr Hpos Hto _]; assert (r_top r = r_pos r / 80 - row v) as -> by (rewrite Hpos; dlia); dlia).
    destruct W1 as [_ W1]. rewrite W2 in W1. destruct S' as [_ _ _ _ _ [Hs _]]. rewrite Hs by dlia.
    rewrite <- (stretch_stands a l b r i k c Hw Hp Ht Hi). fold rf p. f_equal. lia.
Qed.

(** The composition of reports, and reports that depend on a condition. *)
Lemma prints_line `{!Crtc W} s fg bg k0 : prints (vga_puts_color (s ++ [10]) fg bg) k0 [(vga_color fg bg, s); (vga_color fg bg, [10])].
Proof.
  intros t0 v r S C. destruct (prints_puts_color (s ++ [10]) fg bg k0 t0 v r S C) as [H1 H2]. split; [|done].
  cbn [roll_runs fold_left fst snd] in *. unfold roll_puts in *. by rewrite fold_left_app in H1.
Qed.

(** The same step by step, from the last text back. *)
Definition showing (k0 : Z) (t0 : Z -> Z) v (r : roll) : Prop := shows t0 v r /\ color v = k0.

Lemma step_puts `{!Crtc W} s fg bg k0 t0 v r : showing k0 t0 v r -> showing k0 t0 (vga_puts_color s fg bg v) (roll_puts (vga_color fg bg) s r).
Proof. intros [S C]. exact (prints_puts_color s fg bg k0 t0 v r S C). Qed.
Lemma step_line `{!Crtc W} s fg bg k0 t0 v r : showing k0 t0 v r ->
  showing k0 t0 (vga_puts_color (s ++ [10]) fg bg v) (roll_puts (vga_color fg bg) [10] (roll_puts (vga_color fg bg) s r)).
Proof. intros [S C]. exact (prints_line s fg bg k0 t0 v r S C). Qed.
Lemma step_hex `{!Crtc W} x k0 t0 v r : showing k0 t0 v r -> showing k0 t0 (vga_puthex x v) (roll_puts k0 (hex_digits x) (roll_puts k0 (bytes_of "0x") r)).
Proof. intros [S C]. exact (prints_puthex x k0 t0 v r S C). Qed.
Lemma step_char `{!Crtc W} c k0 t0 v r : showing k0 t0 v r -> showing k0 t0 (vga_putchar c v) (roll_puts k0 [c] r).
Proof. intros [S C]. exact (prints_putchar c k0 t0 v r S C). Qed.

Lemma prints_if (b : bool) f k0 l : prints f k0 l -> prints (fun v => if b then f v else v) k0 (if b then l else []).
Proof. intros Hf t0 v r S C. destruct b; [by apply Hf | done]. Qed.
End Spec.

(** A fact about a given text. *)
Ltac decided := unfold plain_runs, printable, plain; apply (bool_decide_unpack _); vm_compute; exact Logic.I.

(** A report printed text by text, back to what is shown before. *)
Ltac printing_steps :=
  repeat match goal with
  | |- showing _ _ (vga_puts_color (_ ++ [10]) _ _ _) (roll_puts _ [10] _) => apply step_line
  | |- showing _ _ (vga_puts_color _ _ _ _) _ => apply step_puts
  | |- showing _ _ (vga_puthex _ _) _ => apply step_hex
  | |- showing _ _ (vga_putchar _ _) _ => apply step_char
  end.
Ltac printing :=
  match goal with |- shows ?t0 ?u ?q /\ color _ = ?k0 => change (showing k0 t0 u q) end; printing_steps.
