(* ===== verification/Panic.v ===== *)
(** The kernel's last words (kernel/panic.c) and the page fault report
    (kernel/pf_handler.c): what they put on the screen and on the serial line
    before the machine halts.  [None] is a serial line that does not take a
    character within the bound.

    A panic is reported on the screen and on the serial line, and so is the
    page fault that led to it. *)

From S2P Require Import Prelude Memory Ports Vga Serial Idt ReportSpec.
Local Open Scope Z_scope.

Section Panic.
Context {W : Type} `{Ports W}.
Variable polls : nat.

(** Output to COM1 through the ports the screen driver uses too. *)
Definition on_line (f : W -> option W) (v : vga W) : option (vga W) := w ← f (ports v); Some (set_ports w v).
Definition com_puts (s : list Z) (v : vga W) : option (vga W) := on_line (serial_puts polls SERIAL_COM1 s) v.

Definition vga_rule (v : vga W) : vga W :=
  vga_puts_color (bytes_of "======================================================" ++ [10]) VGA_COLOR_LIGHT_RED VGA_COLOR_BLACK v.

(** Interrupts are off from the first instruction, and after this the
    processor only halts. *)
Definition kernel_panic (msg : list Z) (v : vga W) : option (vga W) :=
  let v := vga_puts_color [10] VGA_COLOR_LIGHT_RED VGA_COLOR_BLACK v in
  let v := vga_rule v in
  let v := label_line "  *** KERNEL PANIC ***" VGA_COLOR_WHITE v in
  let v := label "  " VGA_COLOR_LIGHT_RED v in
  let v := vga_puts_color msg VGA_COLOR_LIGHT_RED VGA_COLOR_BLACK v in
  let v := vga_puts_color [10] VGA_COLOR_LIGHT_RED VGA_COLOR_BLACK v in
  let v := vga_rule v in
  let v := label_line "  System halted.  Reboot to continue." VGA_COLOR_LIGHT_GREY v in
  v ← com_puts ([13; 10] ++ bytes_of "=== KERNEL PANIC ===" ++ [13; 10]) v;
  v ← com_puts msg v;
  com_puts ([13; 10] ++ bytes_of "System halted." ++ [13; 10]) v.

Definition ser_hex (lbl : string) (val : Z) (v : vga W) : option (vga W) :=
  v ← com_puts (bytes_of lbl) v; v ← on_line (serial_puthex polls SERIAL_COM1 val) v; com_puts [13; 10] v.

(** A remark of the error code, when its bit is set. *)
Definition remark (ecode bit : Z) (s : string) (v : vga W) : vga W := if negb (Z.land ecode bit =? 0) then label s VGA_COLOR_LIGHT_RED v else v.
Definition either (ecode bit : Z) (yes no : string) (v : vga W) : vga W := label (if negb (Z.land ecode bit =? 0) then yes else no) VGA_COLOR_BROWN v.

Definition pf_handler (m : mem) (frame cr2 : Z) (v : vga W) : option (vga W) :=
  let ecode := f_err_code m frame in
  let v := vga_puts_color ([10] ++ bytes_of "[#PF] PAGE FAULT" ++ [10]) VGA_COLOR_LIGHT_RED VGA_COLOR_BLACK v in
  let v := newline (show "  Faulting address : 0x" VGA_COLOR_LIGHT_RED cr2 v) in
  let v := show "  Error code       : 0x" VGA_COLOR_LIGHT_RED ecode v in
  let v := label " (" VGA_COLOR_LIGHT_GREY v in
  let v := either ecode 1 "protection-violation" "not-present" v in
  let v := label ", " VGA_COLOR_LIGHT_GREY v in
  let v := either ecode 2 "write" "read" v in
  let v := label ", " VGA_COLOR_LIGHT_GREY v in
  let v := either ecode 4 "user" "supervisor" v in
  let v := remark ecode 8 ", RSVD-bit" v in
  let v := remark ecode 16 ", NX-violation" v in
  let v := remark ecode 32 ", PK-violation" v in
  let v := remark ecode 64 ", shadow-stack" v in
  let v := label_line ")" VGA_COLOR_LIGHT_GREY v in
  let v := show "  RIP : 0x" VGA_COLOR_LIGHT_CYAN (f_rip m frame) v in
  let v := show "  CS  : 0x" VGA_COLOR_LIGHT_CYAN (f_cs m frame) v in
  let v := newline v in
  v ← com_puts ([13; 10] ++ bytes_of "[#PF] PAGE FAULT" ++ [13; 10]) v;
  v ← ser_hex "  CR2 (fault addr) = " cr2 v;
  v ← ser_hex "  Error code       = " ecode v;
  v ← ser_hex "  RIP              = " (f_rip m frame) v;
  v ← ser_hex "  CS               = " (f_cs m frame) v;
  kernel_panic (bytes_of "Unhandled page fault") v.
End Panic.

(** * Specification *)

(** The screen's cursor registers are not the serial line. *)
Class QuietScreen (W : Type) (polls : nat) `{Uart W polls} := {
  quiet_online p v w : p = VGA_REG_CTRL \/ p = VGA_REG_DATA -> uart_online w -> uart_online (outb p v w);
  quiet_sent p v w : p = VGA_REG_CTRL \/ p = VGA_REG_DATA -> uart_sent (outb p v w) = uart_sent w;
}.

Section Spec.
Context {W : Type} {polls : nat} `{Ports W} `{!Crtc W} `{!Uart W polls} `{!QuietScreen W polls}.
Implicit Type v : vga W.

(** ** The serial line while the screen is written *)

Definition quiet (f : vga W -> vga W) : Prop :=
  forall v, (uart_online (ports v) -> uart_online (ports (f v))) /\ uart_sent (ports (f v)) = uart_sent (ports v).

Lemma quiet_then f g : quiet f -> quiet g -> quiet (fun v => g (f v)).
Proof. intros Hf Hg v. destruct (Hf v) as [F1 F2], (Hg (f v)) as [G1 G2]. split; [tauto | by rewrite G2]. Qed.

Lemma cursor_quiet : quiet hw_cursor_update.
Proof.
  intros v. unfold hw_cursor_update. cbn [ports set_ports]. split.
  - intros Ho. by repeat (apply quiet_online; [unfold VGA_REG_CTRL, VGA_REG_DATA; tauto|]).
  - by rewrite !quiet_sent by tauto.
Qed.

Lemma next_row_ports v : ports (next_row v) = ports v.
Proof. unfold next_row. by destruct (VGA_HEIGHT <=? _). Qed.

Lemma putchar_quiet c : quiet (vga_putchar c).
Proof.
  intros v. unfold vga_putchar. match goal with |- context [hw_cursor_update ?u] => assert (ports u = ports v) as E; [|destruct (cursor_quiet u) as [C1 C2]; by rewrite E in C1, C2] end.
  unfold wrap_col. destruct (c =? 10); [by rewrite next_row_ports|]. destruct (c =? 13); [done|]. destruct (c =? 9); [destruct (VGA_WIDTH <=? _); by rewrite ?next_row_ports|].
  destruct (c =? 8); [destruct (0 <? col v); [done | by destruct (0 <? row v)] | destruct (VGA_WIDTH <=? _); by rewrite ?next_row_ports].
Qed.

Lemma puts_quiet s : quiet (vga_puts s).
Proof.
  induction s as [|c s IH]; [by intros v|]. exact (quiet_then (vga_putchar c) (vga_puts s) (putchar_quiet c) IH).
Qed.

Lemma puts_color_quiet s fg bg : quiet (vga_puts_color s fg bg).
Proof. intros v. exact (puts_quiet s (set_color (vga_color fg bg) v)). Qed.

Lemma puthex_quiet x : quiet (vga_puthex x).
Proof. intros v. unfold vga_puthex. rewrite for_up_puts. exact (quiet_then _ _ (puts_quiet _) (puts_quiet _) v). Qed.

(** Step by step from the last text back. *)
Definition hushed v0 v : Prop := (uart_online (ports v0) -> uart_online (ports v)) /\ uart_sent (ports v) = uart_sent (ports v0).
Lemma hushed_step f v0 v : quiet f -> hushed v0 v -> hushed v0 (f v).
Proof. intros Hf [H1 H2]. destruct (Hf v) as [F1 F2]. split; [tauto | by rewrite F2]. Qed.
Lemma hushed_puts s fg bg v0 v : hushed v0 v -> hushed v0 (vga_puts_color s fg bg v).
Proof. apply (hushed_step (vga_puts_color s fg bg)), puts_color_quiet. Qed.
Lemma hushed_hex x v0 v : hushed v0 v -> hushed v0 (vga_puthex x v).
Proof. apply (hushed_step (vga_puthex x)), puthex_quiet. Qed.
Lemma hushed_char c v0 v : hushed v0 v -> hushed v0 (vga_putchar c v).
Proof. apply (hushed_step (vga_putchar c)), putchar_quiet. Qed.
Lemma hushed_refl v : hushed v v.
Proof. done. Qed.
Ltac hushing :=
  try match goal with |- (uart_online (ports ?v0) -> uart_online (ports ?u)) /\ _ => change (hushed v0 u) end;
  repeat match goal with
  | |- hushed _ (vga_puts_color _ _ _ _) => apply hushed_puts
  | |- hushed _ (vga_puthex _ _) => apply hushed_hex
  | |- hushed _ (vga_putchar _ _) => apply hushed_char
  end.

(** ** The line *)

(** [s] went out, the screen is as it was. *)
Definition reports (s : list Z) v (o : option (vga W)) : Prop :=
  exists w, o = Some (set_ports w v) /\ uart_online w /\ uart_sent w = uart_sent (ports v) ++ s.

Lemma on_line_ok s f v : sends s (ports v) (f (ports v)) -> reports s v (on_line f v).
Proof. intros (w & E & O & S). unfold on_line. rewrite E. eexists. split; [reflexivity|]. done. Qed.

Lemma reports_bind s1 s2 v o (k : vga W -> option (vga W)) : reports s1 v o -> (forall w, uart_online w -> reports s2 (set_ports w v) (k (set_ports w v))) ->
  reports (s1 ++ s2) v (o ≫= k).
Proof.
  intros (w1 & -> & O1 & E1) Hk. destruct (Hk w1 O1) as (w2 & E & O2 & E2). exists w2. split; [exact E|]. split; [done|]. rewrite E2. cbn [ports set_ports]. by rewrite E1, app_assoc.
Qed.

Lemma reports_then s v o : reports s v o -> exists w, uart_online w /\ uart_sent w = uart_sent (ports v) ++ s /\ forall k : vga W -> option (vga W), o ≫= k = k (set_ports w v).
Proof. intros (w & -> & O & E). by exists w. Qed.

Lemma com_puts_ok s v : uart_online (ports v) -> reports (crlf s) v (com_puts polls s v).
Proof. intros Ho. apply on_line_ok, puts_sends, Ho. Qed.

Lemma ser_hex_ok lbl x v : uart_online (ports v) ->
  reports (crlf (bytes_of lbl) ++ (bytes_of "0x" ++ hex_digits x) ++ crlf [13; 10]) v (ser_hex polls lbl x v).
Proof.
  intros Ho. unfold ser_hex. apply reports_bind; [by apply com_puts_ok|]. intros w1 O1. apply reports_bind; [apply on_line_ok, puthex_sends, O1|].
  intros w2 O2. by apply com_puts_ok.
Qed.

(** ** The panic *)

Definition attr (fg : Z) : Z := vga_color fg VGA_COLOR_BLACK.
Definition rule : list Z := bytes_of "======================================================".
Definition panic_title : list Z := bytes_of "  *** KERNEL PANIC ***".
Definition line_run (fg : Z) (s : list Z) : list run := [(attr fg, s); (attr fg, [10])].

(** What a panic puts on the screen. *)
Definition panic_head : list run := (attr VGA_COLOR_LIGHT_RED, [10]) :: line_run VGA_COLOR_LIGHT_RED rule.
Definition panic_tail : list run :=
  (attr VGA_COLOR_LIGHT_RED, [10]) :: line_run VGA_COLOR_LIGHT_RED rule ++ line_run VGA_COLOR_LIGHT_GREY (bytes_of "  System halted.  Reboot to continue.").
Definition panic_runs (msg : list Z) : list run :=
  panic_head ++ line_run VGA_COLOR_WHITE panic_title ++ [(attr VGA_COLOR_LIGHT_RED, bytes_of "  "); (attr VGA_COLOR_LIGHT_RED, msg)] ++ panic_tail.

(** And on the line. *)
Definition panic_line (msg : list Z) : list Z :=
  crlf ([13; 10] ++ bytes_of "=== KERNEL PANIC ===" ++ [13; 10]) ++ crlf msg ++ crlf ([13; 10] ++ bytes_of "System halted." ++ [13; 10]).

(** The part of [kernel_panic] on the screen. *)
Definition panic_screen (msg : list Z) v : vga W :=
  let v := vga_rule (vga_puts_color [10] VGA_COLOR_LIGHT_RED VGA_COLOR_BLACK v) in
  let v := label "  " VGA_COLOR_LIGHT_RED (label_line "  *** KERNEL PANIC ***" VGA_COLOR_WHITE v) in
  let v := vga_puts_color [10] VGA_COLOR_LIGHT_RED VGA_COLOR_BLACK (vga_puts_color msg VGA_COLOR_LIGHT_RED VGA_COLOR_BLACK v) in
  label_line "  System halted.  Reboot to continue." VGA_COLOR_LIGHT_GREY (vga_rule v).

Lemma panic_prints msg k0 : prints (panic_screen msg) k0 (panic_runs msg).
Proof.
  intros t0 v r S C. unfold panic_screen, vga_rule, label, label_line, panic_runs, panic_head, panic_tail, line_run, attr, rule, panic_title. cbv zeta.
  cbn [app roll_runs fold_left fst snd]. printing. exact (conj S C).
Qed.

Lemma panic_quiet msg : quiet (panic_screen msg).
Proof. intros v. unfold panic_screen, vga_rule, label, label_line. cbv zeta. hushing. apply hushed_refl. Qed.

Lemma kernel_panic_ok msg v : uart_online (ports v) ->
  exists w, kernel_panic polls msg v = Some (set_ports w (panic_screen msg v)) /\ uart_sent w = uart_sent (ports v) ++ panic_line msg.
Proof.
  intros Ho. destruct (panic_quiet msg v) as [Q1 Q2]. unfold kernel_panic. change (label_line "  System halted.  Reboot to continue." _ _) with (panic_screen msg v).
  destruct (reports_bind (crlf ([13; 10] ++ bytes_of "=== KERNEL PANIC ===" ++ [13; 10])) (crlf msg ++ crlf ([13; 10] ++ bytes_of "System halted." ++ [13; 10])) (panic_screen msg v)
    (com_puts polls ([13; 10] ++ bytes_of "=== KERNEL PANIC ===" ++ [13; 10]) (panic_screen msg v))
    (fun v => v ← com_puts polls msg v; com_puts polls ([13; 10] ++ bytes_of "System halted." ++ [13; 10]) v)) as (w & E & _ & S).
  - apply com_puts_ok. by apply Q1.
  - intros w1 O1. apply reports_bind; [by apply com_puts_ok|]. intros w2 O2. by apply com_puts_ok.
  - exists w. split; [exact E|]. by rewrite S, Q2.
Qed.

Lemma shows_ports t0 w v r : shows t0 v r -> shows t0 (set_ports w v) r.
Proof. intros [? ? ? ? ? ?]. by split. Qed.

Lemma panic_plain msg : Forall printable msg -> plain_runs (panic_runs msg).
Proof.
  intros Hm. unfold panic_runs. rewrite !plain_app, !plain_cons. repeat apply conj; try (unfold plain_runs, plain; apply (bool_decide_unpack _); vm_compute; exact Logic.I).
  by apply printable_plain.
Qed.

(** A text that stands early enough in a panic, or in a report with a panic at
    its end, is to be read when the machine halts. *)
Lemma panic_msg_weight msg : Forall printable msg -> weight (msg ++ text_of panic_tail) = Z.of_nat (length msg) + 331.
Proof. intros Hm. rewrite weight_app, weight_text by done. reflexivity. Qed.

(** A panic tells on both channels: for any message of plain text of at
    most twelve rows, kernel_panic gets to the halt, where the title and the
    whole message stand on the screen in their colours, and the serial line has
    sent the announcement, the message and the farewell, with nothing left out
    or in between. *)
Theorem kernel_panic_reports t0 msg v r : shows t0 v r -> uart_online (ports v) -> Forall printable msg -> (length msg <= 960)%nat ->
  exists v', kernel_panic polls msg v = Some v' /\
    on_screen v' (attr VGA_COLOR_WHITE) panic_title /\ on_screen v' (attr VGA_COLOR_LIGHT_RED) msg /\
    uart_sent (ports v') = uart_sent (ports v) ++ panic_line msg.
Proof.
  intros S Ho Hm Hl. destruct (kernel_panic_ok msg v Ho) as (w & E & L). eexists. split; [exact E|].
  destruct (panic_prints msg (color v) t0 v r S eq_refl) as [S' _]. apply (shows_ports t0 w) in S'. pose proof (panic_plain msg Hm) as Pl. split; [|split; [|exact L]].
  - refine (report_visible panic_head _ panic_title _ t0 v _ r S S' Pl _ _); [unfold printable; apply (bool_decide_unpack _); vm_compute; exact Logic.I|].
    change (text_of _) with ([10] ++ bytes_of "  " ++ msg ++ text_of panic_tail). rewrite !weight_app, <- weight_app, panic_msg_weight by done.
    change (weight panic_title) with 22. change (weight [10]) with 80. change (weight (bytes_of "  ")) with 2. lia.
  - refine (report_visible (panic_head ++ line_run VGA_COLOR_WHITE panic_title ++ [_]) _ msg panic_tail t0 v _ r S S' Pl Hm _). rewrite panic_msg_weight by done. lia.
Qed.

(** ** The page fault *)

Section PageFault.
Variables (m : mem) (frame cr2 k0 : Z).
Let ecode : Z := f_err_code m frame.

Definition bit_text (bit : Z) (yes no : string) : list Z := bytes_of (if negb (Z.land ecode bit =? 0) then yes else no).
Definition bit_remark (bit : Z) (s : string) : list Z := if negb (Z.land ecode bit =? 0) then bytes_of s else [].
Definition show_run (s : string) (fg x : Z) : list run := [(attr fg, bytes_of s); (k0, bytes_of "0x"); (k0, hex_digits x)].

Definition pf_addr : list run := show_run "  Faulting address : 0x" VGA_COLOR_LIGHT_RED cr2 ++ [(k0, [10])].
Definition pf_code : list run :=
  show_run "  Error code       : 0x" VGA_COLOR_LIGHT_RED ecode ++
  [(attr VGA_COLOR_LIGHT_GREY, bytes_of " ("); (attr VGA_COLOR_BROWN, bit_text 1 "protection-violation" "not-present");
   (attr VGA_COLOR_LIGHT_GREY, bytes_of ", "); (attr VGA_COLOR_BROWN, bit_text 2 "write" "read");
   (attr VGA_COLOR_LIGHT_GREY, bytes_of ", "); (attr VGA_COLOR_BROWN, bit_text 4 "user" "supervisor");
   (attr VGA_COLOR_LIGHT_RED, bit_remark 8 ", RSVD-bit"); (attr VGA_COLOR_LIGHT_RED, bit_remark 16 ", NX-violation");
   (attr VGA_COLOR_LIGHT_RED, bit_remark 32 ", PK-violation"); (attr VGA_COLOR_LIGHT_RED, bit_remark 64 ", shadow-stack")] ++ line_run VGA_COLOR_LIGHT_GREY (bytes_of ")").
Definition pf_regs : list run :=
  show_run "  RIP : 0x" VGA_COLOR_LIGHT_CYAN (f_rip m frame) ++ show_run "  CS  : 0x" VGA_COLOR_LIGHT_CYAN (f_cs m frame) ++ [(k0, [10])].
Definition pf_runs : list run := (attr VGA_COLOR_LIGHT_RED, [10] ++ bytes_of "[#PF] PAGE FAULT" ++ [10]) :: pf_addr ++ pf_code ++ pf_regs.

(** The part of [pf_handler] on the screen. *)
Definition pf_screen v : vga W :=
  let v := vga_puts_color ([10] ++ bytes_of "[#PF] PAGE FAULT" ++ [10]) VGA_COLOR_LIGHT_RED VGA_COLOR_BLACK v in
  let v := show "  Error code       : 0x" VGA_COLOR_LIGHT_RED ecode (newline (show "  Faulting address : 0x" VGA_COLOR_LIGHT_RED cr2 v)) in
  let v := either ecode 1 "protection-violation" "not-present" (label " (" VGA_COLOR_LIGHT_GREY v) in
  let v := either ecode 2 "write" "read" (label ", " VGA_COLOR_LIGHT_GREY v) in
  let v := either ecode 4 "user" "supervisor" (label ", " VGA_COLOR_LIGHT_GREY v) in
  let v := remark ecode 32 ", PK-violation" (remark ecode 16 ", NX-violation" (remark ecode 8 ", RSVD-bit" v)) in
  let v := label_line ")" VGA_COLOR_LIGHT_GREY (remark ecode 64 ", shadow-stack" v) in
  newline (show "  CS  : 0x" VGA_COLOR_LIGHT_CYAN (f_cs m frame) (show "  RIP : 0x" VGA_COLOR_LIGHT_CYAN (f_rip m frame) v)).

Lemma step_remark bit s t0 v r : showing k0 t0 v r -> showing k0 t0 (remark ecode bit s v) (roll_puts (attr VGA_COLOR_LIGHT_RED) (bit_remark bit s) r).
Proof. intros HS. unfold remark, bit_remark. destruct (negb _); [apply (step_puts (bytes_of s)), HS | exact HS]. Qed.

Lemma hushed_remark bit s v0 v : hushed v0 v -> hushed v0 (remark ecode bit s v).
Proof. intros HS. unfold remark. destruct (negb _); [apply (hushed_puts (bytes_of s)), HS | exact HS]. Qed.

Lemma pf_prints : prints pf_screen k0 pf_runs.
Proof.
  intros t0 v r S C. unfold pf_screen, pf_runs, pf_addr, pf_code, pf_regs, show_run, line_run, show, newline, either, label, label_line, bit_text. cbv zeta.
  unfold attr at 1 2 3 4 5 6 7 8 13 14 15 16. cbn [app roll_runs fold_left fst snd].
  printing. do 4 (apply step_remark; printing_steps).
  exact (conj S C).
Qed.

Lemma pf_quiet : quiet pf_screen.
Proof.
  intros v. unfold pf_screen, show, newline, either, label, label_line. cbv zeta.
  hushing. do 4 (apply hushed_remark; hushing). apply hushed_refl.
Qed.

(** And on the line. *)
Definition ser_line (s : string) (x : Z) : list Z := crlf (bytes_of s) ++ (bytes_of "0x" ++ hex_digits x) ++ crlf [13; 10].
Definition pf_line : list Z :=
  crlf ([13; 10] ++ bytes_of "[#PF] PAGE FAULT" ++ [13; 10]) ++ ser_line "  CR2 (fault addr) = " cr2 ++ ser_line "  Error code       = " ecode ++
  ser_line "  RIP              = " (f_rip m frame) ++ ser_line "  CS               = " (f_cs m frame).
Definition pf_msg : list Z := bytes_of "Unhandled page fault".

Lemma pf_handler_ok v : uart_online (ports v) ->
  exists w w1, pf_handler polls m frame cr2 v = Some (set_ports w (panic_screen pf_msg (set_ports w1 (pf_screen v)))) /\ uart_sent w = uart_sent (ports v) ++ pf_line ++ panic_line pf_msg.
Proof.
  intros Ho. destruct (pf_quiet v) as [Q1 Q2]. unfold pf_handler. cbv zeta. change (newline (show "  CS  : 0x" _ _ _)) with (pf_screen v).
  unfold pf_line, ser_line. fold ecode pf_msg.
  destruct (reports_then _ _ _ (com_puts_ok ([13; 10] ++ bytes_of "[#PF] PAGE FAULT" ++ [13; 10]) (pf_screen v) (Q1 Ho))) as (w1 & O1 & L1 & B1). rewrite B1. clear B1.
  destruct (reports_then _ _ _ (ser_hex_ok "  CR2 (fault addr) = " cr2 (set_ports w1 (pf_screen v)) O1)) as (w2 & O2 & L2 & B2). rewrite B2. clear B2.
  destruct (reports_then _ _ _ (ser_hex_ok "  Error code       = " ecode (set_ports w2 (set_ports w1 (pf_screen v))) O2)) as (w3 & O3 & L3 & B3). rewrite B3. clear B3.
  destruct (reports_then _ _ _ (ser_hex_ok "  RIP              = " (f_rip m frame) (set_ports w3 (set_ports w2 (set_ports w1 (pf_screen v)))) O3)) as (w4 & O4 & L4 & B4). rewrite B4. clear B4.
  destruct (reports_then _ _ _ (ser_hex_ok "  CS               = " (f_cs m frame) (set_ports w4 (set_ports w3 (set_ports w2 (set_ports w1 (pf_screen v))))) O4)) as (w5 & O5 & L5 & B5). rewrite B5. clear B5.
  cbn [ports set_ports] in *. destruct (kernel_panic_ok pf_msg (set_ports w5 (pf_screen v)) O5) as (w & E & L). exists w, w5. split; [exact E|].
  rewrite L. cbn [ports set_ports]. by rewrite L5, L4, L3, L2, L1, Q2, <- !app_assoc.
Qed.

Lemma bit_text_ok bit yes no n : Forall printable (bytes_of yes) -> Forall printable (bytes_of no) -> (length (bytes_of yes) <= n)%nat -> (length (bytes_of no) <= n)%nat ->
  Forall printable (bit_text bit yes no) /\ weight (bit_text bit yes no) <= Z.of_nat n.
Proof. intros H1 H2 H3 H4. unfold bit_text. destruct (negb _); rewrite weight_text by done; (split; [done | lia]). Qed.

Lemma bit_remark_ok bit s n : Forall printable (bytes_of s) -> (length (bytes_of s) <= n)%nat ->
  Forall printable (bit_remark bit s) /\ weight (bit_remark bit s) <= Z.of_nat n.
Proof. intros H1 H2. unfold bit_remark. destruct (negb _); [rewrite weight_text by done; split; [done | lia] | change (weight []) with 0; split; [constructor | lia]]. Qed.

Lemma hex_weight x : weight (hex_digits x) = 16.
Proof. destruct (hex_digits_printable x) as [H1 H2]. by rewrite weight_text, H2. Qed.


Ltac weigh :=
  repeat match goal with
  | |- context [weight (bytes_of ?s)] => let x := eval vm_compute in (weight (bytes_of s)) in change (weight (bytes_of s)) with x
  end.

Lemma pf_words_ok :
  (Forall printable (bit_text 1 "protection-violation" "not-present") /\ weight (bit_text 1 "protection-violation" "not-present") <= 20) /\
  (Forall printable (bit_text 2 "write" "read") /\ weight (bit_text 2 "write" "read") <= 20) /\
  (Forall printable (bit_text 4 "user" "supervisor") /\ weight (bit_text 4 "user" "supervisor") <= 20) /\
  (Forall printable (bit_remark 8 ", RSVD-bit") /\ weight (bit_remark 8 ", RSVD-bit") <= 20) /\
  (Forall printable (bit_remark 16 ", NX-violation") /\ weight (bit_remark 16 ", NX-violation") <= 20) /\
  (Forall printable (bit_remark 32 ", PK-violation") /\ weight (bit_remark 32 ", PK-violation") <= 20) /\
  (Forall printable (bit_remark 64 ", shadow-stack") /\ weight (bit_remark 64 ", shadow-stack") <= 20).
Proof. repeat apply conj; first [apply (bit_text_ok _ _ _ 20) | apply (bit_remark_ok _ _ 20)]; decided. Qed.

Lemma pf_report_ok : plain_runs (pf_runs ++ panic_runs pf_msg) /\ weight (text_of (pf_runs ++ panic_runs pf_msg)) <= 1920.
Proof.
  destruct pf_words_ok as ([P1 W1] & [P2 W2] & [P3 W3] & [P4 W4] & [P5 W5] & [P6 W6] & [P7 W7]). split.
  - unfold pf_runs, pf_addr, pf_code, pf_regs, show_run, line_run. rewrite !plain_app, !plain_cons, !plain_app, !plain_cons.
    repeat apply conj; try (by apply printable_plain); try (apply printable_plain, hex_digits_printable); decided.
  - unfold pf_runs, pf_addr, pf_code, pf_regs, show_run, line_run. rewrite !text_of_app, !text_of_cons, !weight_app, !text_of_app, !text_of_cons, !weight_app, !hex_weight.
    weigh. change (weight [10]) with 80. change (weight (text_of [])) with 0.
    let x := eval vm_compute in (weight (text_of (panic_runs pf_msg))) in change (weight (text_of (panic_runs pf_msg))) with x. lia.
Qed.
End PageFault.

(** What the processor's manual says the seven bits mean, in words. *)
Definition fault_words (e : Z) : list run :=
  [(attr VGA_COLOR_LIGHT_GREY, bytes_of " ("); (attr VGA_COLOR_BROWN, bytes_of (if Z.testbit e 0 then "protection-violation" else "not-present"));
   (attr VGA_COLOR_LIGHT_GREY, bytes_of ", "); (attr VGA_COLOR_BROWN, bytes_of (if Z.testbit e 1 then "write" else "read"));
   (attr VGA_COLOR_LIGHT_GREY, bytes_of ", "); (attr VGA_COLOR_BROWN, bytes_of (if Z.testbit e 2 then "user" else "supervisor"))] ++
  (if Z.testbit e 3 then [(attr VGA_COLOR_LIGHT_RED, bytes_of ", RSVD-bit")] else []) ++ (if Z.testbit e 4 then [(attr VGA_COLOR_LIGHT_RED, bytes_of ", NX-violation")] else []) ++
  (if Z.testbit e 5 then [(attr VGA_COLOR_LIGHT_RED, bytes_of ", PK-violation")] else []) ++ (if Z.testbit e 6 then [(attr VGA_COLOR_LIGHT_RED, bytes_of ", shadow-stack")] else []) ++
  [(attr VGA_COLOR_LIGHT_GREY, bytes_of ")")].

(** The handler's words are these. *)
Lemma fault_words_stretch m frame k0 : stretch ((k0, hex_digits (f_err_code m frame)) :: fault_words (f_err_code m frame)) =
  stretch (take 12 (drop 2 (pf_code m frame k0))).
Proof.
  unfold pf_code, show_run, line_run, bit_text, bit_remark, fault_words. cbn [app drop take]. set (e := f_err_code m frame).
  change (Z.land e 1) with (Z.land e (2 ^ 0)). change (Z.land e 2) with (Z.land e (2 ^ 1)). change (Z.land e 4) with (Z.land e (2 ^ 2)). change (Z.land e 8) with (Z.land e (2 ^ 3)).
  change (Z.land e 16) with (Z.land e (2 ^ 4)). change (Z.land e 32) with (Z.land e (2 ^ 5)). change (Z.land e 64) with (Z.land e (2 ^ 6)). rewrite !land_bit, !negb_involutive by lia.
  unfold stretch. cbn [map concat fst snd]. do 8 f_equal. by destruct (Z.testbit e 3), (Z.testbit e 4), (Z.testbit e 5), (Z.testbit e 6).
Qed.

(** C33: A page fault is reported completely before the machine halts: the
    handler gets to the halt of the panic, where the faulting address, the
    error code, the instruction pointer and the code selector stand on the
    screen in hexadecimal, right behind the error code, in brackets, what each
    of its seven bits means, and the message of the panic; and the serial line
    has sent the same four numbers and the panic. *)
Theorem page_fault_reported t0 m frame cr2 v r : shows t0 v r -> uart_online (ports v) ->
  exists v', pf_handler polls m frame cr2 v = Some v' /\
    Forall (fun x => on_screen v' (color v) (hex_digits x)) [cr2; f_err_code m frame; f_rip m frame; f_cs m frame] /\
    stretch_on_screen v' ((color v, hex_digits (f_err_code m frame)) :: fault_words (f_err_code m frame)) /\
    on_screen v' (attr VGA_COLOR_LIGHT_RED) pf_msg /\
    uart_sent (ports v') = uart_sent (ports v) ++ pf_line m frame cr2 ++ panic_line pf_msg.
Proof.
  intros S Ho. destruct (pf_handler_ok m frame cr2 v Ho) as (w & w1 & E & L). eexists. split; [exact E|].
  destruct (pf_prints m frame cr2 (color v) t0 v r S eq_refl) as [S1 C1]. apply (shows_ports t0 w1) in S1.
  destruct (panic_prints pf_msg (color v) t0 _ _ S1 C1) as [S2 _]. apply (shows_ports t0 w) in S2. rewrite <- roll_runs_app in S2.
  destruct (pf_report_ok m frame cr2 (color v)) as [P Wt].
  set (v' := set_ports w _) in *. set (l := pf_runs m frame cr2 (color v) ++ panic_runs pf_msg) in *.
  assert (forall i k t, l !! i = Some (k, t) -> Forall printable t -> on_screen v' k t) as V.
  { intros i k t Hi Ht. apply (short_report l k t t0 v v' r S S2 P Wt); [by apply list_elem_of_lookup_2 with i | done]. }
  split; [|split; [|split; [|exact L]]].
  - repeat constructor; [apply (V 3%nat) | apply (V 7%nat) | apply (V 22%nat) | apply (V 25%nat)]; try apply hex_digits_printable; reflexivity.
  - unfold stretch_on_screen. rewrite fault_words_stretch. change (stretch_on_screen v' (take 12 (drop 2 (pf_code m frame (color v))))).
    assert (l = take 7 l ++ take 12 (drop 7 l) ++ drop 19 l) as El by reflexivity.
    assert (take 12 (drop 2 (pf_code m frame (color v))) = take 12 (drop 7 l)) as Ec by reflexivity. rewrite Ec.
    rewrite El in S2, P, Wt. apply (report_stretch (take 7 l) (take 12 (drop 7 l)) (drop 19 l) t0 v v' r S S2 P).
    + rewrite <- Ec. destruct (pf_words_ok m frame) as ([P1 _] & [P2 _] & [P3 _] & [P4 _] & [P5 _] & [P6 _] & [P7 _]).
      unfold pf_code, show_run, line_run. cbn [app drop take]. rewrite !text_of_cons, !Forall_app. repeat apply conj; try done; try apply hex_digits_printable; decided.
    + rewrite text_of_app, weight_app in Wt. assert (0 <= weight (text_of (take 7 l))) by (unfold weight; lia). lia.
  - apply (V 33%nat); [reflexivity | decided].
Qed.
End Spec.

(** ** A machine with both devices *)

Record pc_dev := mk_pc { pc_crtc : crtc_dev; pc_busy : nat; pc_sent : list Z }.
#[export] Instance pc_ports : Ports pc_dev := {
  outb p v d := if p =? SERIAL_COM1 then mk_pc (pc_crtc d) 2 (pc_sent d ++ [v]) else mk_pc (outb p v (pc_crtc d)) (pc_busy d) (pc_sent d);
  outw _ _ d := d; outl _ _ d := d;
  inb p d := if p =? SERIAL_COM1 + 5 then (match pc_busy d with O => 0x20 | S _ => 0 end, mk_pc (pc_crtc d) (pred (pc_busy d)) (pc_sent d)) else (0, d);
  inl _ d := (0, d);
}.
#[export] Instance pc_has_crtc : Crtc pc_dev.
Proof. refine {| crtc := fun d => crtc_regs (pc_crtc d) |}. intros i v w j Hi Hv. exact (crtc_write i v (pc_crtc w) j Hi Hv). Defined.
#[export] Instance pc_uart : Uart pc_dev 4.
Proof.
  refine {| uart_online := fun d => (pc_busy d <= 3)%nat; uart_busy := pc_busy; uart_sent := pc_sent |}.
  - intros w Hw. lia.
  - intros [c b s] x w' Hw E. cbn in E. injection E as <- <-. cbn in *. split; [lia|]. by destruct b.
  - intros v [c b s] Hw Hb. cbn. split; [lia | done].
Defined.
#[export] Instance pc_quiet : QuietScreen pc_dev 4.
Proof. split; intros p v [c b s] [-> | ->]; done. Defined.

Definition demo_pc : vga pc_dev := vga_init (mk_vga 0 0 0 0 (fun _ => 0) (mk_pc (mk_crtc 0 (fun _ => 0)) 0 [])).

Lemma demo_pc_ok : (exists r, shows (fun _ => 0) demo_pc r) /\ uart_online (ports demo_pc) /\ uart_sent (ports demo_pc) = [].
Proof.
  split; [|by vm_compute; split; [lia|]]. destruct (vga_init_ok (mk_vga 0 0 0 0 (fun _ => 0) (mk_pc (mk_crtc 0 (fun _ => 0)) 0 []))) as (r & S & _). by exists r.
Qed.

Lemma kernel_panic_reports_witness : exists v', kernel_panic 4 (bytes_of "out of memory") demo_pc = Some v' /\ on_screen v' 12 (bytes_of "out of memory") /\ uart_sent (ports v') = panic_line (bytes_of "out of memory").
Proof.
  destruct demo_pc_ok as ((r & S) & O & E).
  destruct (kernel_panic_reports (fun _ => 0) (bytes_of "out of memory") demo_pc r S O) as (v' & H1 & _ & H2 & H3); [decided | vm_compute; lia|].
  exists v'. split; [exact H1|]. split; [exact H2|]. by rewrite H3, E.
Defined.

(** A write by the kernel to a page that is not present, with a reserved bit
    set. *)
Lemma page_fault_reported_witness : exists v', pf_handler 4 (store64 (fun _ => 0) (0x8000 + OFF_ERR_CODE) 10) 0x8000 0xDEAD000 demo_pc = Some v' /\
  on_screen v' 7 (bytes_of "000000000DEAD000") /\ text_of (fault_words 10) = bytes_of " (not-present, write, supervisor, RSVD-bit)" /\
  stretch_on_screen v' ((7, bytes_of "000000000000000A") :: fault_words 10).
Proof.
  destruct demo_pc_ok as ((r & S) & O & _).
  destruct (page_fault_reported (fun _ => 0) (store64 (fun _ => 0) (0x8000 + OFF_ERR_CODE) 10) 0x8000 0xDEAD000 demo_pc r S O) as (v' & H1 & H2 & H3 & _).
  exists v'. split; [exact H1|]. apply Forall_inv in H2. split; [exact H2|]. split; [vm_compute; reflexivity | exact H3].
Defined.
