(* ===== verification/Pci.v ===== *)
(** The PCI bus (kernel/pci.c): configuration reads and writes through the two
    ports, the scan of all functions into the table of devices, and the search
    of the table.

    The scan of the PCI bus finds the functions that are there, in order, up to
    the size of the table. *)

From S2P Require Import Prelude Ports Vga ReportSpec.
Local Open Scope Z_scope.

Definition PCI_CONFIG_ADDR : Z := 0xCF8.
Definition PCI_CONFIG_DATA : Z := 0xCFC.
Definition PCI_MAX_BUS : Z := 256.
Definition PCI_MAX_DEVICE : Z := 32.
Definition PCI_MAX_FUNCTION : Z := 8.
Definition PCI_MAX_DEVICES : Z := 64.

Record pci_device := mk_pci_device {
  bus : Z; device : Z; function : Z; vendor_id : Z; device_id : Z; class_code : Z; subclass : Z; prog_if : Z; header_type : Z; bar : list Z; irq_line : Z;
}.

Section Pci.
Context {W : Type} `{Ports W}.

Definition config_addr (bus dev fn offset : Z) : Z :=
  Z.lor (Z.lor (Z.lor (Z.lor (Z.shiftl 1 31) (u32 (Z.shiftl bus 16))) (u32 (Z.shiftl dev 11))) (u32 (Z.shiftl fn 8))) (Z.land offset 0xFC).

Definition pci_read (bus dev fn offset : Z) (w : W) : Z * W := inl PCI_CONFIG_DATA (outl PCI_CONFIG_ADDR (config_addr bus dev fn offset) w).
Definition pci_write (bus dev fn offset val : Z) (w : W) : W := outl PCI_CONFIG_DATA val (outl PCI_CONFIG_ADDR (config_addr bus dev fn offset) w).

(** The table, and the screen with the ports. *)
Record pci := mk_pci { devices : Z -> pci_device; device_count : Z; pscreen : vga W }.

(** A read while scanning. *)
Definition pci_get (bus dev fn offset : Z) (v : vga W) : Z * vga W :=
  let '(x, w) := pci_read bus dev fn offset (ports v) in (x, set_ports w v).

Fixpoint read_bars (n : nat) (b bus dev fn : Z) (v : vga W) : list Z * vga W :=
  match n with
  | O => ([], v)
  | S n' =>
      let '(x, v) := pci_get bus dev fn (u8 (0x10 + b * 4)) v in
      let '(l, v) := read_bars n' (b + 1) bus dev fn v in (x :: l, v)
  end.

(** The entry filled in for a function whose first register is [id]. *)
Definition read_device (bus dev fn id : Z) (v : vga W) : pci_device * vga W :=
  let '(cls, v) := pci_get bus dev fn 0x08 v in
  let '(hdr, v) := pci_get bus dev fn 0x0C v in
  let '(bars, v) := read_bars 6 0 bus dev fn v in
  let '(irq, v) := pci_get bus dev fn 0x3C v in
  (mk_pci_device bus dev fn (Z.land id 0xFFFF) (Z.land (Z.shiftr id 16) 0xFFFF) (Z.land (Z.shiftr cls 24) 0xFF) (Z.land (Z.shiftr cls 16) 0xFF) (Z.land (Z.shiftr cls 8) 0xFF)
     (Z.land (Z.shiftr hdr 16) 0xFF) bars (Z.land irq 0xFF), v).

(** The three loops; the boolean is the jump to [done]. *)
Fixpoint scan_functions (n : nat) (bus dev fn : Z) (s : pci) : bool * pci :=
  match n with
  | O => (false, s)
  | S n' =>
      let '(id, v) := pci_get bus dev fn 0x00 (pscreen s) in
      let s := mk_pci (devices s) (device_count s) v in
      if Z.land id 0xFFFF =? 0xFFFF then scan_functions n' bus dev (fn + 1) s else
      if PCI_MAX_DEVICES <=? device_count s then (true, s) else
      let '(d, v) := read_device bus dev fn id (pscreen s) in
      let s := mk_pci (upd (devices s) (device_count s) d) (device_count s + 1) v in
      if (fn =? 0) && (Z.land (header_type d) 0x80 =? 0) then (false, s) else scan_functions n' bus dev (fn + 1) s
  end.

Fixpoint scan_devices (n : nat) (bus dev : Z) (s : pci) : bool * pci :=
  match n with
  | O => (false, s)
  | S n' =>
      let '(full, s) := scan_functions (Z.to_nat PCI_MAX_FUNCTION) bus dev 0 s in
      if (full : bool) then (true, s) else scan_devices n' bus (dev + 1) s
  end.

Fixpoint scan_buses (n : nat) (bus : Z) (s : pci) : bool * pci :=
  match n with
  | O => (false, s)
  | S n' =>
      let '(full, s) := scan_devices (Z.to_nat PCI_MAX_DEVICE) bus 0 s in
      if (full : bool) then (true, s) else scan_buses n' (bus + 1) s
  end.

Definition pci_enumerate (s : pci) : pci :=
  let '(_, s) := scan_buses (Z.to_nat PCI_MAX_BUS) 0 (mk_pci (devices s) 0 (pscreen s)) in
  let v := vga_set_color VGA_COLOR_LIGHT_GREEN VGA_COLOR_BLACK (pscreen s) in
  let v := vga_putdec (device_count s) (vga_puts (bytes_of "  [ OK ] PCI enumerated — ") v) in
  let v := vga_puts (bytes_of " device(s) found" ++ [10]) v in
  mk_pci (devices s) (device_count s) (vga_set_color VGA_COLOR_LIGHT_GREY VGA_COLOR_BLACK v).

Definition pci_init (s : pci) : pci := pci_enumerate s.

(** A pointer into the table is its index. *)
Fixpoint find_from (n : nat) (i class sub : Z) (s : pci) : option Z :=
  match n with
  | O => None
  | S n' => if (class_code (devices s i) =? class) && (subclass (devices s i) =? sub) then Some i else find_from n' (i + 1) class sub s
  end.
Definition pci_find_device (class sub : Z) (s : pci) : option Z := find_from (Z.to_nat (device_count s)) 0 class sub s.

Definition pci_get_device_count (s : pci) : Z := device_count s.

Definition dump_device (d : pci_device) (v : vga W) : vga W :=
  let v := vga_putdec (bus d) (vga_puts (bytes_of "  PCI ") v) in
  let v := vga_putdec (device d) (vga_putchar 58 v) in
  let v := vga_putdec (function d) (vga_putchar 46 v) in
  let v := vga_putdec (vendor_id d) (vga_puts (bytes_of " Vendor=") v) in
  let v := vga_putdec (class_code d) (vga_puts (bytes_of " Class=") v) in
  let v := vga_putdec (subclass d) (vga_putchar 46 v) in
  vga_putchar 10 v.

Definition pci_dump (s : pci) : pci :=
  mk_pci (devices s) (device_count s) (for_up (Z.to_nat (device_count s)) 0 (fun i v => dump_device (devices s i) v) (pscreen s)).
End Pci.
Arguments pci W : clear implicits.

(** * Specification *)

(** The registers of the functions, behind the address and the data port. *)
Definition config : Type := Z -> Z -> Z -> Z -> Z.
Class PciBus (W : Type) `{Ports W} := {
  pci_cfg : W -> config;
  pci_cfg_range w b d f o : 0 <= pci_cfg w b d f o < 2 ^ 32;
  pci_cfg_read w b d f o : 0 <= b < 256 -> 0 <= d < 32 -> 0 <= f < 8 -> 0 <= o < 256 -> o mod 4 = 0 ->
    exists w', inl PCI_CONFIG_DATA (outl PCI_CONFIG_ADDR (2 ^ 31 + 2 ^ 16 * b + 2 ^ 11 * d + 2 ^ 8 * f + o) w) = (pci_cfg w b d f o, w') /\ pci_cfg w' = pci_cfg w;
}.

(** ** What is on the bus *)

Section Bus.
Variable c : config.

Definition present (b d f : Z) : bool := negb (c b d f 0 mod 2 ^ 16 =? 0xFFFF).
(** Bit 7 of the header type of function 0. *)
Definition multi_function (b d : Z) : bool := Z.testbit (c b d 0 0x0C) 23.

(** A device answers with its function 0 alone, unless it says that it has
    more. *)
Definition functions_of (b d : Z) : list Z := if present b d 0 && negb (multi_function b d) then [0] else filter (fun f => present b d f = true) (seqZ 0 8).
Definition all_functions : list (Z * Z * Z) :=
  b ← seqZ 0 256; d ← seqZ 0 32; map (fun f => (b, d, f)) (functions_of b d).

Definition describe (x : Z * Z * Z) : pci_device :=
  let '(b, d, f) := x in
  mk_pci_device b d f (c b d f 0 mod 2 ^ 16) (c b d f 0 / 2 ^ 16) (c b d f 0x08 / 2 ^ 24) (c b d f 0x08 / 2 ^ 16 mod 256) (c b d f 0x08 / 2 ^ 8 mod 256)
    (c b d f 0x0C / 2 ^ 16 mod 256) (map (fun i => c b d f (0x10 + 4 * i)) (seqZ 0 6)) (c b d f 0x3C mod 256).

(** The functions of one device from [fn] on, as the loop takes them. *)
Fixpoint items (n : nat) (b d fn : Z) : list (Z * Z * Z) :=
  match n with
  | O => []
  | S n' => if present b d fn then (b, d, fn) :: (if (fn =? 0) && negb (multi_function b d) then [] else items n' b d (fn + 1)) else items n' b d (fn + 1)
  end.

Lemma items_later n b d fn : 0 < fn -> items n b d fn = map (fun f => (b, d, f)) (filter (fun f => present b d f = true) (seqZ fn (Z.of_nat n))).
Proof.
  revert fn. induction n as [|n IH]; intros fn Hf; [done|]. cbn [items]. rewrite (seqZ_cons fn (Z.of_nat (S n))), filter_cons by lia.
  replace (Z.pred (Z.of_nat (S n))) with (Z.of_nat n) by lia. replace (Z.succ fn) with (fn + 1) by lia. rewrite IH by lia.
  destruct (Z.eqb_spec fn 0); [lia|]. cbn [andb]. by destruct (present b d fn).
Qed.

Lemma items_all b d : items (Z.to_nat PCI_MAX_FUNCTION) b d 0 = map (fun f => (b, d, f)) (functions_of b d).
Proof.
  change (Z.to_nat PCI_MAX_FUNCTION) with 8%nat. unfold functions_of.
  change (items 8 b d 0) with (if present b d 0 then (b, d, 0) :: (if negb (multi_function b d) then [] else items 7 b d (0 + 1)) else items 7 b d (0 + 1)).
  rewrite items_later by lia.
  rewrite (seqZ_cons 0 8), filter_cons by lia. change (Z.pred 8) with (Z.of_nat 7). change (Z.succ 0) with (0 + 1).
  destruct (present b d 0); [|done]. by destruct (multi_function b d).
Qed.
End Bus.

(** ** Reading a register *)

Lemma addr_fields b d f o : 0 <= b < 256 -> 0 <= d < 32 -> 0 <= f < 8 -> 0 <= o < 256 -> o mod 4 = 0 ->
  config_addr b d f o = 2 ^ 31 + 2 ^ 16 * b + 2 ^ 11 * d + 2 ^ 8 * f + o.
Proof.
  intros Hb Hd Hf Ho Hm. unfold config_addr. rewrite !Z.shiftl_mul_pow2 by lia. rewrite !u32_small by lia.
  change 0xFC with (Z.lnot (2 ^ 2 - 1) mod 2 ^ 8). rewrite (land_align o 2 8) by (lia || (change (2 ^ 8) with 256; lia)).
  replace (2 ^ 2 * (o / 2 ^ 2)) with o by (change (2 ^ 2) with 4; dlia).
  rewrite (lor_disjoint (1 * 2 ^ 31) (b * 2 ^ 16) 24); [|lia|done|lia].
  rewrite (lor_disjoint _ (d * 2 ^ 11) 16); [|lia|change (2 ^ 16) with 65536; dlia|lia].
  rewrite (lor_disjoint _ (f * 2 ^ 8) 11); [|lia|change (2 ^ 11) with 2048; dlia|lia].
  rewrite (lor_disjoint _ o 8); [|lia|change (2 ^ 8) with 256; dlia|lia]. lia.
Qed.

Section Spec.
Context {W : Type} `{PciBus W}.
Implicit Type v : vga W.

Definition place (b d f : Z) : Prop := 0 <= b < 256 /\ 0 <= d < 32 /\ 0 <= f < 8.

(** The bus behind the ports of the screen driver's state, and all else of it. *)
Definition same_screen v v' : Prop := pci_cfg (ports v') = pci_cfg (ports v) /\ v' = set_ports (ports v') v.

Lemma same_screen_refl v : same_screen v v.
Proof. split; [done | by destruct v]. Qed.
Lemma same_screen_trans v1 v2 v3 : same_screen v1 v2 -> same_screen v2 v3 -> same_screen v1 v3.
Proof. intros [C1 E1] [C2 E2]. split; [by rewrite C2|]. rewrite E2, E1. by destruct v1. Qed.

Lemma get_ok b d f o v : place b d f -> 0 <= o < 256 -> o mod 4 = 0 ->
  exists v', pci_get b d f o v = (pci_cfg (ports v) b d f o, v') /\ same_screen v v'.
Proof.
  intros (Hb & Hd & Hf) Ho Hm. unfold pci_get, pci_read. rewrite addr_fields by done.
  destruct (pci_cfg_read (ports v) b d f o Hb Hd Hf Ho Hm) as (w' & -> & E). eexists. split; [done|]. by split.
Qed.

Lemma bars_ok n k b d f v : place b d f -> 0 <= k -> k + Z.of_nat n <= 6 ->
  exists v', read_bars n k b d f v = (map (fun i => pci_cfg (ports v) b d f (0x10 + 4 * i)) (seqZ k (Z.of_nat n)), v') /\ same_screen v v'.
Proof.
  revert k v. induction n as [|n IH]; intros k v Hp Hk Hn; cbn [read_bars]; [exists v; split; [done | apply same_screen_refl]|].
  rewrite u8_small by lia. destruct (get_ok b d f (0x10 + k * 4) v Hp) as (v1 & -> & S1); [lia | dlia|].
  destruct (IH (k + 1) v1 Hp) as (v2 & -> & S2); [lia..|]. eexists. split; [|exact (same_screen_trans _ _ _ S1 S2)]. f_equal.
  rewrite (seqZ_cons k (Z.of_nat (S n))) by lia. cbn [map]. replace (Z.pred (Z.of_nat (S n))) with (Z.of_nat n) by lia. replace (Z.succ k) with (k + 1) by lia.
  rewrite (proj1 S1). f_equal. f_equal. lia.
Qed.

Lemma byte_field x k : 0 <= k -> Z.land (Z.shiftr x k) 0xFF = x / 2 ^ k mod 256.
Proof. intros Hk. rewrite Z.shiftr_div_pow2 by lia. change 0xFF with (2 ^ 8 - 1). by rewrite land_ones_mod by lia. Qed.
Lemma word_field x : Z.land x 0xFFFF = x mod 2 ^ 16.
Proof. change 0xFFFF with (2 ^ 16 - 1). by rewrite land_ones_mod by lia. Qed.

Lemma read_device_ok b d f v : place b d f ->
  exists v', read_device b d f (pci_cfg (ports v) b d f 0) v = (describe (pci_cfg (ports v)) (b, d, f), v') /\ same_screen v v'.
Proof.
  intros Hp. unfold read_device. destruct (get_ok b d f 0x08 v Hp) as (v1 & -> & S1); [lia|done|].
  destruct (get_ok b d f 0x0C v1 Hp) as (v2 & -> & S2); [lia|done|]. destruct (bars_ok 6 0 b d f v2 Hp) as (v3 & -> & S3); [lia..|].
  destruct (get_ok b d f 0x3C v3 Hp) as (v4 & -> & S4); [lia|done|].
  pose proof (same_screen_trans _ _ _ S1 S2) as S12. pose proof (same_screen_trans _ _ _ S12 S3) as S13.
  exists v4. split; [|exact (same_screen_trans _ _ _ S13 S4)]. rewrite (proj1 S1), (proj1 S12), (proj1 S13). unfold describe. f_equal.
  rewrite !word_field, !byte_field by lia. rewrite Z.shiftr_div_pow2 by lia. change 0xFF with (2 ^ 8 - 1). rewrite land_ones_mod by lia.
  pose proof (pci_cfg_range (ports v) b d f 0). pose proof (pci_cfg_range (ports v) b d f 8).
  rewrite (Z.mod_small (_ / 2 ^ 16) (2 ^ 16)) by (split; [apply Z.div_pos; lia | apply Z.div_lt_upper_bound; lia]).
  rewrite (Z.mod_small (_ / 2 ^ 24) 256) by (split; [apply Z.div_pos; lia | apply Z.div_lt_upper_bound; lia]). done.
Qed.

(** ** The scan *)

Section Scan.
Variables (c : config) (d0 : Z -> pci_device) (v0 : vga W).
Hypothesis Hc : pci_cfg (ports v0) = c.

(** The table holds the functions [l]. *)
Record holds (l : list (Z * Z * Z)) (s : pci W) : Prop := {
  ho_count : device_count s = Z.of_nat (length l);
  ho_room : (length l <= 64)%nat;
  ho_entry i x : l !! i = Some x -> devices s (Z.of_nat i) = describe c x;
  ho_rest i : Z.of_nat (length l) <= i -> devices s i = d0 i;
  ho_screen : same_screen v0 (pscreen s);
}.

(** The scan of [l], which may fill the table. *)
Definition scanned (l : list (Z * Z * Z)) (r : bool * pci W) : Prop := holds (take 64 l) r.2 /\ r.1 = bool_decide (64 < length l)%nat.

Lemma scanned_whole l s : holds l s -> scanned l (false, s).
Proof.
  intros Hh. pose proof (ho_room l s Hh). split; cbn [fst snd]; [by rewrite take_ge|]. symmetry. apply bool_decide_eq_false. lia.
Qed.

Lemma scanned_full l s x l' : holds l s -> length l = 64%nat -> scanned (l ++ x :: l') (true, s).
Proof.
  intros Hh Hl. split; cbn [fst snd]; [by rewrite take_app_length'|]. symmetry. apply bool_decide_eq_true. rewrite length_app. cbn [length]. lia.
Qed.

(** One loop behind another. *)
Lemma scanned_then l1 l2 (r : bool * pci W) (k : pci W -> bool * pci W) : scanned l1 r -> (forall s, holds l1 s -> scanned (l1 ++ l2) (k s)) ->
  scanned (l1 ++ l2) (let '(full, s) := r in if (full : bool) then (true, s) else k s).
Proof.
  destruct r as [b s]. intros [H1 H2] Hk. cbn [fst snd] in *. subst b. case_bool_decide as Hb.
  - split; cbn [fst snd]; [by rewrite take_app_le by lia|]. symmetry. apply bool_decide_eq_true. rewrite length_app. lia.
  - apply Hk. by rewrite take_ge in H1 by lia.
Qed.

Lemma holds_screen l s v : holds l s -> same_screen (pscreen s) v -> holds l (mk_pci (devices s) (device_count s) v).
Proof. intros [? ? ? ? S] Hs. split; try done. exact (same_screen_trans _ _ _ S Hs). Qed.

Lemma holds_add l s x d v : holds l s -> (length l < 64)%nat -> d = describe c x -> same_screen (pscreen s) v ->
  holds (l ++ [x]) (mk_pci (upd (devices s) (device_count s) d) (device_count s + 1) v).
Proof.
  intros [C R E Rs S] Hl -> Hs. split; cbn [devices device_count pscreen]; rewrite ?length_app; cbn [length]; [lia | lia | | | exact (same_screen_trans _ _ _ S Hs)].
  - intros i y Hi. destruct (decide (i = length l)) as [->|N].
    + rewrite list_lookup_middle in Hi by done. injection Hi as <-. by rewrite C, upd_eq.
    + pose proof (lookup_lt_Some _ _ _ Hi) as Hlt. rewrite length_app in Hlt. cbn [length] in Hlt. rewrite lookup_app_l in Hi by lia. rewrite upd_ne by lia. by apply E.
  - intros i Hi. rewrite upd_ne by lia. apply Rs. lia.
Qed.

Lemma cfg_of l s : holds l s -> pci_cfg (ports (pscreen s)) = c.
Proof. intros [_ _ _ _ [S _]]. by rewrite S. Qed.

Lemma multi_bit b d f : (Z.land (header_type (describe c (b, d, f))) 0x80 =? 0) = negb (Z.testbit (c b d f 0x0C) 23).
Proof.
  cbn [header_type describe]. change 0x80 with (2 ^ 7). rewrite land_bit by lia. f_equal. change 256 with (2 ^ 8).
  rewrite Z.mod_pow2_bits_low by lia. rewrite <- Z.shiftr_div_pow2, Z.shiftr_spec by lia. done.
Qed.

Lemma scan_functions_ok n b d fn l s : 0 <= b < 256 -> 0 <= d < 32 -> 0 <= fn -> fn + Z.of_nat n <= 8 -> holds l s ->
  scanned (l ++ items c n b d fn) (scan_functions n b d fn s).
Proof.
  intros Hb Hd. revert fn l s. induction n as [|n IH]; intros fn l s Hf Hn Hh; cbn [scan_functions items]; [rewrite app_nil_r; by apply scanned_whole|].
  assert (place b d fn) as Hp by (unfold place; lia). destruct (get_ok b d fn 0x00 (pscreen s) Hp) as (v1 & -> & S1); [lia|done|].
  pose proof (holds_screen l s v1 Hh S1) as H1. rewrite (cfg_of l s Hh), word_field. unfold present.
  destruct (Z.eqb_spec (c b d fn 0 mod 2 ^ 16) 0xFFFF) as [_|_]; cbn [negb]; [apply IH; [lia|lia|done]|]. cbn [device_count pscreen devices].
  unfold PCI_MAX_DEVICES. destruct (Z.leb_spec 64 (device_count s)) as [Hfull|Hroom].
  { pose proof (ho_count l s Hh). pose proof (ho_room l s Hh). apply scanned_full; [done|lia]. }
  assert (pci_cfg (ports v1) = c) as C1 by (exact (cfg_of _ _ H1)).
  destruct (read_device_ok b d fn v1 Hp) as (v2 & E2 & S2). rewrite C1 in E2. rewrite E2.
  pose proof (ho_count l s Hh) as Hcnt. pose proof (holds_add l _ (b, d, fn) _ v2 H1 ltac:(lia) eq_refl S2) as H2. cbn [devices device_count] in H2.
  rewrite multi_bit. unfold multi_function. destruct (Z.eqb_spec fn 0) as [->|N]; cbn [andb].
  - destruct (Z.testbit (c b d 0 12) 23); cbn [negb]; [|by apply scanned_whole].
    rewrite cons_middle, app_assoc. apply IH; [lia|lia|done].
  - rewrite cons_middle, app_assoc. apply IH; [lia|lia|done].
Qed.

Lemma scan_devices_ok n b d l s : 0 <= b < 256 -> 0 <= d -> d + Z.of_nat n <= 32 -> holds l s ->
  scanned (l ++ (d ← seqZ d (Z.of_nat n); map (fun f => (b, d, f)) (functions_of c b d))) (scan_devices n b d s).
Proof.
  intros Hb. revert d l s. induction n as [|n IH]; intros d l s Hd Hn Hh; cbn [scan_devices]; [rewrite app_nil_r; by apply scanned_whole|].
  rewrite (seqZ_cons d (Z.of_nat (S n))) by lia. cbn [mbind list_bind]. rewrite app_assoc. replace (Z.pred (Z.of_nat (S n))) with (Z.of_nat n) by lia. replace (Z.succ d) with (d + 1) by lia.
  apply scanned_then.
  - rewrite <- items_all. apply scan_functions_ok; [done | lia | lia | done | done].
  - intros s' Hs'. apply IH; [lia | lia | done].
Qed.

Lemma scan_buses_ok n b l s : 0 <= b -> b + Z.of_nat n <= 256 -> holds l s ->
  scanned (l ++ (b ← seqZ b (Z.of_nat n); d ← seqZ 0 32; map (fun f => (b, d, f)) (functions_of c b d))) (scan_buses n b s).
Proof.
  revert b l s. induction n as [|n IH]; intros b l s Hb Hn Hh; cbn [scan_buses]; [rewrite app_nil_r; by apply scanned_whole|].
  rewrite (seqZ_cons b (Z.of_nat (S n))) by lia. cbn [mbind list_bind]. rewrite app_assoc. replace (Z.pred (Z.of_nat (S n))) with (Z.of_nat n) by lia. replace (Z.succ b) with (b + 1) by lia.
  apply scanned_then.
  - exact (scan_devices_ok (Z.to_nat PCI_MAX_DEVICE) b 0 l s ltac:(lia) ltac:(lia) ltac:(done) Hh).
  - intros s' Hs'. apply IH; [lia | lia | done].
Qed.
End Scan.

(** ** The search *)

Definition of_class (c : config) (class sub : Z) (x : Z * Z * Z) : Prop := class_code (describe c x) = class /\ subclass (describe c x) = sub.
#[export] Instance of_class_dec c class sub x : Decision (of_class c class sub x).
Proof. unfold of_class. apply _. Defined.

Lemma find_from_ok c class sub (s : pci W) l k : (forall i x, l !! i = Some x -> devices s (k + Z.of_nat i) = describe c x) ->
  find_from (length l) k class sub s = (fun x => k + Z.of_nat (fst x)) <$> list_find (of_class c class sub) l.
Proof.
  revert k. induction l as [|x l IH]; intros k Hl; [done|]. cbn [length find_from list_find].
  pose proof (Hl 0%nat x eq_refl) as Hx0. rewrite Z.add_0_r in Hx0. rewrite Hx0. rewrite (IH (k + 1)) by (intros i y Hi; rewrite <- (Hl (S i) y Hi); f_equal; lia).
  case_decide as Hx; unfold of_class in Hx.
  - destruct Hx as [-> ->]. rewrite !Z.eqb_refl. cbn. by rewrite Z.add_0_r.
  - assert ((class_code (describe c x) =? class) && (subclass (describe c x) =? sub) = false) as -> by (apply not_true_is_false; rewrite andb_true_iff, !Z.eqb_eq; done).
    destruct (list_find _ l) as [[j y]|]; [|done]. cbn. f_equal. lia.
Qed.

(** C35: The scan of the bus finds what is there: the table holds, in the order
    of their addresses and as many as it has room for, exactly the functions
    that answer, each with its registers; a function other than the first of
    its device counts only when the first one is absent or says that there are
    more; and the search returns the first entry of the class asked for,
    whenever the table has one. *)
Theorem pci_scan_finds (s : pci W) c : pci_cfg (ports (pscreen s)) = c ->
  let s' := pci_enumerate s in let found := take 64 (all_functions c) in
  device_count s' = Z.of_nat (length found) /\
  (forall i x, found !! i = Some x -> devices s' (Z.of_nat i) = describe c x) /\
  forall class sub, pci_find_device class sub s' = (fun x => Z.of_nat (fst x)) <$> list_find (of_class c class sub) found.
Proof.
  intros Hc. cbv zeta. unfold pci_enumerate.
  assert (holds c (devices s) (pscreen s) [] (mk_pci (devices s) 0 (pscreen s))) as Hz by (split; try done; [cbn; lia | apply same_screen_refl]).
  pose proof (scan_buses_ok c (devices s) (pscreen s) Hc (Z.to_nat PCI_MAX_BUS) 0 [] _ ltac:(lia) ltac:(done) Hz) as [Hs _].
  change (Z.of_nat (Z.to_nat PCI_MAX_BUS)) with 256 in Hs. fold (all_functions c) in Hs.
  set (r := scan_buses _ _ _) in *. destruct r as [full s']. cbn [fst snd app] in Hs. destruct Hs as [C _ E _ _].
  cbn [device_count devices]. split; [exact C|]. split; [exact E|]. intros class sub. unfold pci_find_device. cbn [device_count]. rewrite C, Nat2Z.id.
  match goal with |- find_from _ _ _ _ ?st = _ => exact (find_from_ok c class sub st (take 64 (all_functions c)) 0 E) end.
Qed.
End Spec.

(** ** A bus with a host bridge, a controller with two functions and a disk
    controller *)

Record pci_dev := mk_pci_dev { pd_addr : Z; pd_cfg : config; pd_log : list (Z * Z) }.
#[export] Instance pci_dev_ports : Ports pci_dev := {
  outb _ _ d := d; outw _ _ d := d;
  outl p v d := if p =? PCI_CONFIG_ADDR then mk_pci_dev v (pd_cfg d) (pd_log d) else d;
  inb _ d := (0, d);
  inl p d := if p =? PCI_CONFIG_DATA then (u32 (pd_cfg d (pd_addr d / 2 ^ 16 mod 256) (pd_addr d / 2 ^ 11 mod 32) (pd_addr d / 2 ^ 8 mod 8) (pd_addr d mod 256)), d) else (0, d);
}.
#[export] Instance pci_dev_bus : PciBus pci_dev.
Proof.
  refine {| pci_cfg := fun d b dv f o => u32 (pd_cfg d b dv f o) |}.
  - intros. unfold u32. apply Z.mod_pos_bound. lia.
  - intros w b d f o Hb Hd Hf Ho _. exists (outl PCI_CONFIG_ADDR (2 ^ 31 + 2 ^ 16 * b + 2 ^ 11 * d + 2 ^ 8 * f + o) w). split; [|reflexivity]. cbn -[Z.pow Z.mul]. f_equal. f_equal.
    f_equal; dlia.
Defined.

Definition demo_config : config := fun b d f o =>
  if (b =? 0) && (d =? 0) && (f =? 0) then if o =? 0 then 0x12378086 else if o =? 8 then 0x06000002 else 0
  else if (b =? 0) && (d =? 1) && (f <? 2) then if o =? 0 then 0x70008086 + 0x100000 * f else if o =? 8 then 0x06010000 else if o =? 12 then 0x800000 else 0
  else if (b =? 2) && (d =? 4) && (f =? 0) then if o =? 0 then 0x29228086 else if o =? 8 then 0x01060100 else if o =? 0x24 then 0xFEBB1000 else 0
  else 0xFFFFFFFF.

Lemma pci_scan_finds_witness :
  pci_find_device 0x01 0x06 (pci_enumerate (mk_pci (fun _ => mk_pci_device 0 0 0 0 0 0 0 0 0 [] 0) 0 (mk_vga 0 0 0 0 (fun _ => 0) (mk_pci_dev 0 demo_config [])))) = Some 3.
Proof.
  destruct (pci_scan_finds (mk_pci (fun _ => mk_pci_device 0 0 0 0 0 0 0 0 0 [] 0) 0 (mk_vga 0 0 0 0 (fun _ => 0) (mk_pci_dev 0 demo_config []))) _ eq_refl) as (_ & _ & H).
  rewrite H. vm_compute. reflexivity.
Defined.
