(* ===== verification/Apic.v ===== *)
(** The interrupt controllers (kernel/apic.c): the legacy controllers are
    remapped and silenced, the local controller of the processor is switched
    on, and the I/O controller routes the lines to vectors through its table.
    Device registers in memory and model-specific registers are operations of
    the world outside the program.

    Routing a line makes exactly that line live, with its vector and its target,
    and never half of an entry; masking and unmasking change one bit.  What the
    screen, the serial line and the local controller do leaves the routing
    alone. *)

From S2P Require Import Prelude Ports Vga Acpi ReportSpec Serial Panic.
Local Open Scope Z_scope.

Class DeviceRegs (W : Type) := {
  mmio_read : Z -> W -> Z * W;
  mmio_write : Z -> Z -> W -> W;
  rdmsr_raw : Z -> W -> (Z * Z) * W;
  wrmsr_raw : Z -> Z * Z -> W -> W;
}.

Definition LAPIC_BASE : Z := 0xFEE00000.
Definition LAPIC_ID : Z := 0x020.
Definition LAPIC_TPR : Z := 0x080.
Definition LAPIC_EOI : Z := 0x0B0.
Definition LAPIC_SVR : Z := 0x0F0.
Definition LAPIC_ICR_LOW : Z := 0x300.
Definition LAPIC_ICR_HIGH : Z := 0x310.
Definition LAPIC_TIMER_LVT : Z := 0x320.
Definition LAPIC_LINT0_LVT : Z := 0x350.
Definition LAPIC_LINT1_LVT : Z := 0x360.
Definition LAPIC_ERROR_LVT : Z := 0x370.
Definition LAPIC_TIMER_INIT : Z := 0x380.
Definition LAPIC_TIMER_DIVIDE : Z := 0x3E0.
Definition LAPIC_SVR_ENABLE : Z := Z.shiftl 1 8.
Definition LAPIC_SVR_SPURIOUS : Z := 0xFF.
Definition LAPIC_LVT_MASKED : Z := Z.shiftl 1 16.
Definition LAPIC_TIMER_PERIODIC : Z := Z.shiftl 1 17.
Definition IOAPIC_BASE : Z := 0xFEC00000.
Definition IOAPIC_REGSEL : Z := 0x00.
Definition IOAPIC_IOWIN : Z := 0x10.
Definition IOAPIC_REG_VER : Z := 0x01.
Definition IOAPIC_REDTBL_BASE : Z := 0x10.
Definition IOAPIC_DELMOD_FIXED : Z := 0.
Definition IOAPIC_DESTMOD_PHYS : Z := 0.
Definition IOAPIC_MASKED : Z := Z.shiftl 1 16.
Definition IA32_APIC_BASE_MSR : Z := 0x1B.
Definition IA32_APIC_BASE_EN : Z := Z.shiftl 1 11.
Definition PIC1_CMD : Z := 0x20.
Definition PIC1_DATA : Z := 0x21.
Definition PIC2_CMD : Z := 0xA0.
Definition PIC2_DATA : Z := 0xA1.
Definition PIC_REMAP_MASTER : Z := 0xA0.
Definition PIC_REMAP_SLAVE : Z := 0xA8.

Section Apic.
Context {W V : Type} `{Ports W} `{DeviceRegs W} `{Mmio V}.

Definition io_wait (w : W) : W := outb 0x80 0 w.

Definition lapic_read (off : Z) (w : W) : Z * W := mmio_read (LAPIC_BASE + off) w.
Definition lapic_write (off val : Z) (w : W) : W := mmio_write (LAPIC_BASE + off) val w.

Definition ioapic_write_reg (reg val : Z) (w : W) : W := mmio_write (IOAPIC_BASE + IOAPIC_IOWIN) val (mmio_write (IOAPIC_BASE + IOAPIC_REGSEL) reg w).
Definition ioapic_read_reg (reg : Z) (w : W) : Z * W := mmio_read (IOAPIC_BASE + IOAPIC_IOWIN) (mmio_write (IOAPIC_BASE + IOAPIC_REGSEL) reg w).

(** The halves are in two registers, low first. *)
Definition rdmsr (msr : Z) (w : W) : Z * W := let '((lo, hi), w) := rdmsr_raw msr w in (Z.lor (Z.shiftl hi 32) lo, w).
Definition wrmsr (msr val : Z) (w : W) : W := wrmsr_raw msr (u32 (Z.land val 0xFFFFFFFF), u32 (Z.shiftr val 32)) w.

(** A byte to a port of the legacy controller, with the pause behind it. *)
Definition pic_out (port val : Z) (w : W) : W := io_wait (outb port val w).

Definition pic_remap_and_disable (w : W) : W :=
  let w := pic_out PIC1_DATA 0x01 (pic_out PIC1_DATA 0x04 (pic_out PIC1_DATA PIC_REMAP_MASTER (pic_out PIC1_CMD 0x11 w))) in
  let w := pic_out PIC2_DATA 0x01 (pic_out PIC2_DATA 0x02 (pic_out PIC2_DATA PIC_REMAP_SLAVE (pic_out PIC2_CMD 0x11 w))) in
  outb PIC2_DATA 0xFF (outb PIC1_DATA 0xFF w).

Definition lapic_enable (w : W) : W :=
  let '(msr, w) := rdmsr IA32_APIC_BASE_MSR w in
  let w := wrmsr IA32_APIC_BASE_MSR (Z.lor msr IA32_APIC_BASE_EN) w in
  let w := lapic_write LAPIC_SVR (Z.lor LAPIC_SVR_ENABLE LAPIC_SVR_SPURIOUS) w in
  let w := lapic_write LAPIC_TPR 0 w in
  let w := lapic_write LAPIC_LINT0_LVT LAPIC_LVT_MASKED w in
  let w := lapic_write LAPIC_LINT1_LVT LAPIC_LVT_MASKED w in
  let w := lapic_write LAPIC_ERROR_LVT LAPIC_LVT_MASKED w in
  lapic_write LAPIC_EOI 0 w.

Definition apic_send_eoi (w : W) : W := lapic_write LAPIC_EOI 0 w.

Definition apic_get_id (w : W) : Z * W := let '(x, w) := lapic_read LAPIC_ID w in (Z.land (Z.shiftr x 24) 0xFF, w).

Definition apic_send_ipi (dest_apic_id vector : Z) (w : W) : W :=
  lapic_write LAPIC_ICR_LOW (Z.lor (Z.shiftl 1 14) vector) (lapic_write LAPIC_ICR_HIGH (u32 (Z.shiftl dest_apic_id 24)) w).

Definition apic_timer_init (initial_count : Z) (w : W) : W :=
  lapic_write LAPIC_TIMER_INIT initial_count (lapic_write LAPIC_TIMER_LVT (Z.lor LAPIC_TIMER_PERIODIC 0x20) (lapic_write LAPIC_TIMER_DIVIDE 0x03 w)).

(** The lower register of a line's entry; the upper one follows. *)
Definition reg_lo (irq : Z) : Z := u8 (IOAPIC_REDTBL_BASE + u8 (irq * 2)).

Definition ioapic_route (irq vector dest_apic_id : Z) (w : W) : W :=
  let w := ioapic_write_reg (u8 (reg_lo irq + 1)) (u32 (Z.shiftl dest_apic_id 24)) w in
  ioapic_write_reg (reg_lo irq) (Z.lor (Z.lor IOAPIC_DELMOD_FIXED IOAPIC_DESTMOD_PHYS) vector) w.

Definition ioapic_mask (irq : Z) (w : W) : W :=
  let '(val, w) := ioapic_read_reg (reg_lo irq) w in ioapic_write_reg (reg_lo irq) (Z.lor val IOAPIC_MASKED) w.

Definition ioapic_unmask (irq : Z) (w : W) : W :=
  let '(val, w) := ioapic_read_reg (reg_lo irq) w in ioapic_write_reg (reg_lo irq) (Z.land val (Z.lnot IOAPIC_MASKED mod 2 ^ 32)) w.

(** The initialisation works on the page tables and on the screen, which has
    the ports. *)
Definition ok_line (s : string) (v : vga W) : vga W := vga_puts_color (bytes_of s ++ [10]) VGA_COLOR_LIGHT_GREEN VGA_COLOR_BLACK v.

(** The part behind the mapping of the registers. *)
Definition apic_start (v : vga W) : vga W :=
  let v := ok_line "  [ OK ] APIC MMIO mapped (LAPIC=0xFEE00000, IOAPIC=0xFEC00000)" v in
  let v := set_ports (pic_remap_and_disable (ports v)) v in
  let v := ok_line "  [ OK ] Legacy PIC remapped (0xA0-0xAF) and fully masked" v in
  let v := set_ports (lapic_enable (ports v)) v in
  let v := ok_line "  [ OK ] Local APIC enabled via MSR, SVR=0xFF, TPR=0" v in
  let v := vga_puts_color (bytes_of "  [ OK ] Local APIC ID = ") VGA_COLOR_LIGHT_GREEN VGA_COLOR_BLACK v in
  let '(id, w) := apic_get_id (ports v) in
  let v := vga_putchar 10 (vga_putdec id (set_ports w v)) in
  let '(ioapic_ver, w) := ioapic_read_reg IOAPIC_REG_VER (ports v) in
  let max_redir := u8 (Z.land (Z.shiftr ioapic_ver 16) 0xFF) in
  let v := vga_puts_color (bytes_of "  [ OK ] I/O APIC version=0x") VGA_COLOR_LIGHT_GREEN VGA_COLOR_BLACK (set_ports w v) in
  let v := vga_puts_color (bytes_of "  max_redir=") VGA_COLOR_LIGHT_GREY VGA_COLOR_BLACK (vga_puthex (Z.land ioapic_ver 0xFF) v) in
  vga_puts_color (bytes_of " entries" ++ [10]) VGA_COLOR_LIGHT_GREY VGA_COLOR_BLACK (vga_putdec (max_redir + 1) v).

Definition apic_init (p : V) (v : vga W) : option (V * vga W) :=
  p ← map_mmio LAPIC_BASE 1 p;
  p ← map_mmio IOAPIC_BASE 1 p;
  Some (p, apic_start v).
End Apic.

(** * Specification *)

(** The I/O controller's registers behind the selector and the window. *)
Class IoApic (W : Type) `{Ports W} `{DeviceRegs W} := {
  ioapic_reg : W -> Z -> Z;
  ioapic_range w r : 0 <= ioapic_reg w r < 2 ^ 32;
  ioapic_select r w j : ioapic_reg (mmio_write (IOAPIC_BASE + IOAPIC_REGSEL) r w) j = ioapic_reg w j;
  ioapic_store r x w j : 0x10 <= r < 0x40 -> 0 <= x < 2 ^ 32 ->
    ioapic_reg (mmio_write (IOAPIC_BASE + IOAPIC_IOWIN) x (mmio_write (IOAPIC_BASE + IOAPIC_REGSEL) r w)) j = if j =? r then x else ioapic_reg w j;
  ioapic_load r w : exists w', mmio_read (IOAPIC_BASE + IOAPIC_IOWIN) (mmio_write (IOAPIC_BASE + IOAPIC_REGSEL) r w) = (ioapic_reg w r, w') /\ forall j, ioapic_reg w' j = ioapic_reg w j;
  ioapic_outb p v w j : ioapic_reg (outb p v w) j = ioapic_reg w j;
  ioapic_inb p w j : ioapic_reg (inb p w).2 j = ioapic_reg w j;
  ioapic_lapic_write off x w j : 0 <= off < 0x1000 -> ioapic_reg (mmio_write (LAPIC_BASE + off) x w) j = ioapic_reg w j;
  ioapic_lapic_read off w j : 0 <= off < 0x1000 -> ioapic_reg (mmio_read (LAPIC_BASE + off) w).2 j = ioapic_reg w j;
  ioapic_rdmsr r w j : ioapic_reg (rdmsr_raw r w).2 j = ioapic_reg w j;
  ioapic_wrmsr r x w j : ioapic_reg (wrmsr_raw r x w) j = ioapic_reg w j;
}.

Section Spec.
Context {W : Type} `{IoApic W}.

(** ** The entries of the table *)

Record redirection := mk_redir { rd_vector : Z; rd_mode : Z; rd_masked : bool; rd_dest : Z }.
(** Vector, the bits between it and the mask (delivery and destination mode,
    polarity, trigger), mask, physical destination. *)
Definition entry_of (w : W) (irq : Z) : redirection :=
  let lo := ioapic_reg w (0x10 + 2 * irq) in
  mk_redir (lo mod 256) (lo / 256 mod 256) (Z.testbit lo 16) (ioapic_reg w (0x10 + 2 * irq + 1) / 2 ^ 24).

Definition io_same (w w' : W) : Prop := forall j, ioapic_reg w' j = ioapic_reg w j.
#[export] Instance io_same_equiv : Equivalence io_same.
Proof. split; [by intros w j | by intros w w' E j; rewrite E | intros w1 w2 w3 E1 E2 j; by rewrite E2, E1]. Qed.

Lemma entry_same w w' irq : io_same w w' -> entry_of w' irq = entry_of w irq.
Proof. intros E. unfold entry_of. by rewrite !E. Qed.

Lemma reg_lo_ok irq : 0 <= irq < 24 -> reg_lo irq = 0x10 + 2 * irq /\ u8 (reg_lo irq + 1) = 0x10 + 2 * irq + 1.
Proof. intros Hi. unfold reg_lo, IOAPIC_REDTBL_BASE. rewrite (u8_small (irq * 2)), !u8_small by lia. lia. Qed.

Lemma ioapic_write_ok r x w j : 0x10 <= r < 0x40 -> 0 <= x < 2 ^ 32 -> ioapic_reg (ioapic_write_reg r x w) j = if j =? r then x else ioapic_reg w j.
Proof. apply ioapic_store. Qed.

Lemma route_ok irq vector dest w : 0 <= irq < 24 -> 0 <= vector < 256 -> 0 <= dest < 256 ->
  entry_of (ioapic_route irq vector dest w) irq = mk_redir vector 0 false dest /\
  forall i, 0 <= i < 24 -> i <> irq -> entry_of (ioapic_route irq vector dest w) i = entry_of w i.
Proof.
  intros Hi Hv Hd. destruct (reg_lo_ok irq Hi) as [E1 E2]. unfold ioapic_route. rewrite E2, E1. change (Z.lor (Z.lor IOAPIC_DELMOD_FIXED IOAPIC_DESTMOD_PHYS) vector) with vector.
  assert (u32 (Z.shiftl dest 24) = dest * 2 ^ 24) as -> by (rewrite Z.shiftl_mul_pow2 by lia; apply u32_small; lia).
  assert (forall j, ioapic_reg (ioapic_write_reg (16 + 2 * irq) vector (ioapic_write_reg (16 + 2 * irq + 1) (dest * 2 ^ 24) w)) j =
    if j =? 16 + 2 * irq then vector else if j =? 16 + 2 * irq + 1 then dest * 2 ^ 24 else ioapic_reg w j) as R by (intros j; by rewrite !ioapic_write_ok by lia).
  split.
  - unfold entry_of. rewrite !R. repeat zcase; try lia. rewrite Z.div_mul by lia. f_equal; [apply Z.mod_small; lia | by rewrite (Z.div_small vector) by lia |].
    apply (testbit_above _ _ 8); lia.
  - intros i Hi2 N. unfold entry_of. rewrite !R. by repeat zcase; try lia.
Qed.

(** Routing makes exactly one line live, and at once: after ioapic_route the
    line's entry delivers the vector to the processor asked for, with fixed
    delivery, and every other entry is as before; and between the two writes
    the entry's vector, mode and mask are still the old ones, so that a line
    that was masked cannot deliver with half of its entry. *)
Theorem ioapic_route_correct irq vector dest w : 0 <= irq < 24 -> 0 <= vector < 256 -> 0 <= dest < 256 ->
  entry_of (ioapic_route irq vector dest w) irq = mk_redir vector 0 false dest /\
  (forall i, 0 <= i < 24 -> i <> irq -> entry_of (ioapic_route irq vector dest w) i = entry_of w i) /\
  let half := ioapic_write_reg (u8 (reg_lo irq + 1)) (u32 (Z.shiftl dest 24)) w in
  ioapic_route irq vector dest w = ioapic_write_reg (reg_lo irq) vector half /\
  forall i, 0 <= i < 24 -> rd_vector (entry_of half i) = rd_vector (entry_of w i) /\ rd_mode (entry_of half i) = rd_mode (entry_of w i) /\ rd_masked (entry_of half i) = rd_masked (entry_of w i).
Proof.
  intros Hi Hv Hd. destruct (route_ok irq vector dest w Hi Hv Hd) as [R1 R2]. split; [exact R1|]. split; [exact R2|]. split; [done|].
  destruct (reg_lo_ok irq Hi) as [_ E2]. rewrite E2. assert (u32 (Z.shiftl dest 24) = dest * 2 ^ 24) as -> by (rewrite Z.shiftl_mul_pow2 by lia; apply u32_small; lia).
  intros i Hi2. unfold entry_of. cbn [rd_vector rd_mode rd_masked]. rewrite !ioapic_write_ok by lia. by repeat zcase; try lia.
Qed.

(** Masking sets the one bit, unmasking clears it. *)
Lemma ioapic_mask_ok irq w : 0 <= irq < 24 ->
  (forall i, 0 <= i < 24 -> entry_of (ioapic_mask irq w) i =
     let e := entry_of w i in mk_redir (rd_vector e) (rd_mode e) (if i =? irq then true else rd_masked e) (rd_dest e)) /\
  (forall i, 0 <= i < 24 -> entry_of (ioapic_unmask irq w) i =
     let e := entry_of w i in mk_redir (rd_vector e) (rd_mode e) (if i =? irq then false else rd_masked e) (rd_dest e)).
Proof.
  intros Hi. destruct (reg_lo_ok irq Hi) as [E1 _]. unfold ioapic_mask, ioapic_unmask, ioapic_read_reg. rewrite E1.
  destruct (ioapic_load (16 + 2 * irq) w) as (w' & -> & R). pose proof (ioapic_range w (16 + 2 * irq)) as Hr. set (x := ioapic_reg w (16 + 2 * irq)) in *.
  assert (forall k, 0 <= k < 16 -> Z.testbit IOAPIC_MASKED k = false) as M1 by (intros k Hk; change IOAPIC_MASKED with (2 ^ 16); apply Z.pow2_bits_false; lia).
  assert (forall y, (forall k, 0 <= k < 16 -> Z.testbit y k = Z.testbit x k) -> y mod 256 = x mod 256 /\ y / 256 mod 256 = x / 256 mod 256) as F.
  { intros y Hy. change 256 with (2 ^ 8). split; apply Z.bits_inj'; intros n Hn; (destruct (Z.ltb_spec n 8); [rewrite !Z.mod_pow2_bits_low by lia | by rewrite !Z.mod_pow2_bits_high by lia]).
    - apply Hy. lia.
    - rewrite <- !Z.shiftr_div_pow2, !Z.shiftr_spec by lia. apply Hy. lia. }
  assert (0 <= Z.lor x IOAPIC_MASKED < 2 ^ 32) as B1 by (apply lor_bound; [lia|lia|vm_compute; intuition congruence]).
  assert (0 <= Z.land x (Z.lnot IOAPIC_MASKED mod 2 ^ 32) < 2 ^ 32) as B2.
  { split; [apply Z.land_nonneg; lia|]. destruct (decide (Z.land x (Z.lnot IOAPIC_MASKED mod 2 ^ 32) = 0)) as [->|N]; [lia|].
    apply Z.log2_lt_pow2; [pose proof (Z.land_nonneg x (Z.lnot IOAPIC_MASKED mod 2 ^ 32)); lia|]. pose proof (Z.log2_land x (Z.lnot IOAPIC_MASKED mod 2 ^ 32) ltac:(lia) ltac:(vm_compute; discriminate)).
    assert (Z.log2 (Z.lnot IOAPIC_MASKED mod 2 ^ 32) = 31) as L by reflexivity. lia. }
  assert (forall y, 0 <= y < 2 ^ 32 -> (forall k, 0 <= k < 16 -> Z.testbit y k = Z.testbit x k) -> forall i, 0 <= i < 24 ->
    entry_of (ioapic_write_reg (16 + 2 * irq) y w') i = let e := entry_of w i in mk_redir (rd_vector e) (rd_mode e) (if i =? irq then Z.testbit y 16 else rd_masked e) (rd_dest e)) as G.
  { intros y Hy Hk i Hi2. destruct (F y Hk) as [F1 F2]. unfold entry_of. cbn [rd_vector rd_mode rd_masked rd_dest]. rewrite !ioapic_write_ok, !R by lia.
    repeat zcase; try lia; [subst i; by rewrite F1, F2 | done]. }
  split; intros i Hi2.
  - rewrite (G _ B1); [|intros k Hk; by rewrite Z.lor_spec, M1, orb_false_r | done]. cbv zeta. rewrite Z.lor_spec. by rewrite orb_true_r.
  - rewrite (G _ B2); [|intros k Hk; rewrite Z.land_spec, Z.mod_pow2_bits_low, Z.lnot_spec, M1 by lia; apply andb_true_r | done].
    cbv zeta. rewrite Z.land_spec, Z.mod_pow2_bits_low by lia. by rewrite andb_false_r.
Qed.
End Spec.
