(* ===== verification/Pit.v ===== *)
(** The timer (kernel/pit.c): programming the channel, the time since the start
    in milliseconds, and the busy wait.  The counter of ticks is changed by the
    interrupt at any time, so the wait is over the readings it gets.

    The timer runs at least as fast as asked for, and a wait takes as long as it
    should. *)

From S2P Require Import Prelude Ports Vga.
Local Open Scope Z_scope.

Definition PIT_CHANNEL0 : Z := 0x40.
Definition PIT_COMMAND : Z := 0x43.
Definition PIT_BASE_FREQ : Z := 1193182.
Definition PIT_DEFAULT_HZ : Z := 1000.

(** The two statics. *)
Record pit := mk_pit { pit_ticks : Z; g_tick_hz : Z }.

Definition pit_divisor (hz : Z) : Z :=
  let divisor := u32 (PIT_BASE_FREQ / hz) in
  let divisor := if 0xFFFF <? divisor then 0xFFFF else divisor in
  if divisor =? 0 then 1 else divisor.

Definition pit_init {W} `{Ports W} (hz : Z) (v : vga W) : pit * vga W :=
  let hz := if hz =? 0 then PIT_DEFAULT_HZ else hz in
  let divisor := pit_divisor hz in
  let w := outb PIT_COMMAND 0x34 (ports v) in
  let w := outb PIT_CHANNEL0 (u8 (Z.land divisor 0xFF)) w in
  let w := outb PIT_CHANNEL0 (u8 (Z.land (Z.shiftr divisor 8) 0xFF)) w in
  let v := vga_puts_color (bytes_of "  [ OK ] PIT channel 0 @ ") VGA_COLOR_LIGHT_GREEN VGA_COLOR_BLACK (set_ports w v) in
  let v := vga_puts_color (bytes_of " Hz (divisor=") VGA_COLOR_LIGHT_GREY VGA_COLOR_BLACK (vga_putdec hz v) in
  let v := vga_puts_color (bytes_of ")" ++ [10]) VGA_COLOR_LIGHT_GREY VGA_COLOR_BLACK (vga_putdec divisor v) in
  (mk_pit 0 hz, v).

Definition pit_get_ticks (p : pit) : Z := pit_ticks p.
Definition pit_get_ms (p : pit) : Z := u64 (pit_ticks p * 1000) / g_tick_hz p.

(** [obs i] is the counter at the [i]-th reading; the result is the number of
    readings the loop made. *)
Fixpoint sleep_loop (fuel : nat) (hz deadline : Z) (obs : nat -> Z) (i : nat) : option nat :=
  match fuel with
  | O => None
  | S fuel' => if pit_get_ms (mk_pit (obs i) hz) <? deadline then sleep_loop fuel' hz deadline obs (S i) else Some i
  end.
Definition pit_sleep_ms (fuel : nat) (hz ms : Z) (obs : nat -> Z) : option nat :=
  sleep_loop fuel hz (u64 (pit_get_ms (mk_pit (obs 0%nat) hz) + ms)) obs 1.

(** * Specification *)

(** The divisor for a rate the 16-bit counter can give: the next faster rate;
    slower rates get the slowest one. *)
Lemma pit_divisor_ok hz : 19 <= hz <= PIT_BASE_FREQ ->
  let d := pit_divisor hz in 1 <= d < 2 ^ 16 /\ d * hz <= PIT_BASE_FREQ < (d + 1) * hz /\ u8 (Z.land d 0xFF) + 2 ^ 8 * u8 (Z.land (Z.shiftr d 8) 0xFF) = d.
Proof.
  intros Hh. cbv zeta. unfold pit_divisor, PIT_BASE_FREQ in *. assert (1 <= 1193182 / hz <= 62799) as Hd.
  { split; [apply Z.div_le_lower_bound; lia|]. transitivity (1193182 / 19); [apply Z.div_le_compat_l; lia | vm_compute; discriminate]. }
  pose proof (Z.div_mod 1193182 hz ltac:(lia)) as E. pose proof (Z.mod_pos_bound 1193182 hz ltac:(lia)) as Hm.
  rewrite u32_small by lia. destruct (Z.ltb_spec 0xFFFF (1193182 / hz)); [lia|]. destruct (Z.eqb_spec (1193182 / hz) 0); [lia|].
  set (d := 1193182 / hz) in *. split; [lia|]. split; [lia|].
  change 0xFF with (2 ^ 8 - 1). rewrite !land_ones_mod, Z.shiftr_div_pow2 by lia. rewrite !u8_small by dlia. change (2 ^ 8) with 256. dlia.
Qed.

Lemma pit_divisor_slow hz : 0 < hz < 19 -> pit_divisor hz = 0xFFFF.
Proof.
  intros Hh. assert (hz ∈ seqZ 1 18) as Hin by (apply elem_of_seqZ; lia).
  assert (Forall (fun h => pit_divisor h = 0xFFFF) (seqZ 1 18)) as Hf by (apply (bool_decide_unpack _); vm_compute; exact Logic.I).
  rewrite Forall_forall in Hf. by apply Hf.
Qed.

(** ** The wait *)

Section Wait.
Variables (hz : Z) (obs : nat -> Z).
Hypothesis Hrange : forall i, 0 <= obs i * 1000 < 2 ^ 64.

Lemma get_ms_obs i : pit_get_ms (mk_pit (obs i) hz) = obs i * 1000 / hz.
Proof. unfold pit_get_ms. cbn [pit_ticks g_tick_hz]. by rewrite u64_small by apply Hrange. Qed.

Lemma sleep_loop_ok deadline n fuel i : (i <= n)%nat -> (n < fuel + i)%nat -> deadline <= obs n * 1000 / hz ->
  exists k, sleep_loop fuel hz deadline obs i = Some k /\ (i <= k <= n)%nat /\ deadline <= obs k * 1000 / hz /\
    forall j, (i <= j < k)%nat -> obs j * 1000 / hz < deadline.
Proof.
  revert i. induction fuel as [|fuel IH]; intros i Hi Hf Hn; [lia|]. cbn [sleep_loop]. rewrite get_ms_obs.
  destruct (Z.ltb_spec (obs i * 1000 / hz) deadline) as [Hl|Hl].
  - assert (i <> n) by (intros ->; lia). destruct (IH (S i)) as (k & E & Hk & Hd & Hm); [lia|lia|done|]. exists k. split; [done|]. split; [lia|]. split; [done|].
    intros j Hj. destruct (decide (j = i)) as [->|]; [done | apply Hm; lia].
  - exists i. split; [done|]. split; [lia|]. split; [done|]. lia.
Qed.
End Wait.

(** C36: A busy wait ends as soon as it may: when the counter gets far enough,
    pit_sleep_ms returns; at that reading more than (ms - 1) milliseconds worth
    of ticks have passed, and at every earlier reading fewer ticks than ms
    milliseconds are. *)
Theorem pit_sleep_correct hz ms obs n fuel : 0 < hz -> (forall i, 0 <= obs i * 1000 < 2 ^ 64) -> 0 <= ms -> obs 0%nat * 1000 / hz + ms < 2 ^ 64 ->
  (1 <= n <= fuel)%nat -> ms * hz <= (obs n - obs 0%nat) * 1000 ->
  exists k, pit_sleep_ms fuel hz ms obs = Some k /\ (1 <= k <= n)%nat /\
    (ms - 1) * hz < (obs k - obs 0%nat) * 1000 /\ forall j, (1 <= j < k)%nat -> (obs j - obs 0%nat) * 1000 < ms * hz.
Proof.
  intros Hh Hr Hms Ho Hn Hfar. unfold pit_sleep_ms. rewrite (get_ms_obs hz obs Hr).
  pose proof (Z.div_mod (obs 0%nat * 1000) hz ltac:(lia)) as E0. pose proof (Z.mod_pos_bound (obs 0%nat * 1000) hz Hh) as M0.
  assert (0 <= obs 0%nat * 1000 / hz) as Hp by (apply Z.div_pos; [apply Hr | lia]). rewrite u64_small by lia.
  set (q0 := obs 0%nat * 1000 / hz) in *.
  destruct (sleep_loop_ok hz obs Hr (q0 + ms) n fuel 1) as (k & E & Hk & Hd & Hm); [lia|lia| |].
  { apply Z.div_le_lower_bound; lia. }
  exists k. split; [done|]. split; [done|]. split.
  - pose proof (Z.div_mod (obs k * 1000) hz ltac:(lia)). pose proof (Z.mod_pos_bound (obs k * 1000) hz Hh). nia.
  - intros j Hj. specialize (Hm j Hj). pose proof (Z.div_mod (obs j * 1000) hz ltac:(lia)). pose proof (Z.mod_pos_bound (obs j * 1000) hz Hh). nia.
Qed.

(** Ten milliseconds at 1000 Hz, with three readings in each tick. *)
Lemma pit_sleep_correct_witness : exists k, pit_sleep_ms 100 1000 10 (fun i => 500 + Z.of_nat (Nat.min i 90) / 3) = Some k /\ (1 <= k <= 90)%nat.
Proof.
  destruct (pit_sleep_correct 1000 10 (fun i => 500 + Z.of_nat (Nat.min i 90) / 3) 90 100) as (k & E & Hk & _); [lia | | lia | vm_compute; reflexivity | lia | vm_compute; discriminate |].
  - intros i. pose proof (Nat.le_min_r i 90). assert (0 <= Z.of_nat (Nat.min i 90) / 3 <= 30) by dlia. lia.
  - exists k. split; [exact E | exact Hk].
Defined.
