(* ===== verification/Irqs.v ===== *)
(** The interrupts of the kernel (kernel/kernel_main.c): the steps in which
    [kernel_main] registers the handlers and routes the lines, the handlers of
    the keyboard and the mouse, and the handler of the boot test of the
    exceptions.  The statements are kept as a list, so that the state between
    any two of them can be spoken of.

    No line is live without a handler, at any point of the start-up; and the
    start-up goes on behind its own test of the exceptions. *)

From S2P Require Import Prelude Memory Ports Vga Serial Idt Panic Acpi Apic Pit Ring Keyboard Mouse ReportSpec Gdt.
Local Open Scope Z_scope.

Section Irqs.
Context {W V G T : Type} `{Ports W} `{DeviceRegs W} `{Mmio V}.
(** The bound on a busy wait, and where the handlers are. *)
Variables (polls : nat) (pit_irq_handler kbd_isr mouse_isr : Z).

Record machine := mk_machine { idts : kstate W; paging : V; kbd : keyboard G T; mse : mouse G; timer : pit }.

Definition set_idts (k : kstate W) (s : machine) : machine := mk_machine k (paging s) (kbd s) (mse s) (timer s).
Definition with_vga (f : vga W -> vga W) (s : machine) : machine := set_idts (set_kscreen (f (kscreen (idts s))) (idts s)) s.
Definition with_ports (f : W -> W) (s : machine) : machine := with_vga (fun v => set_ports (f (ports v)) v) s.

Definition klog (msg : list Z) (v : vga W) : option (vga W) := com_puts polls msg v.
Definition print_tag (tag : string) (fg : Z) (msg : string) (s : machine) : option machine :=
  let v := vga_puts_color (bytes_of tag) fg VGA_COLOR_BLACK (kscreen (idts s)) in
  let v := vga_putchar 10 (vga_puts (bytes_of msg) v) in
  v ← klog (bytes_of tag) v; v ← klog (bytes_of msg) v; v ← klog [13; 10] v;
  Some (set_idts (set_kscreen v (idts s)) s).
Definition print_ok (msg : string) (s : machine) : option machine := print_tag "[ OK ] " VGA_COLOR_LIGHT_GREEN msg s.
Definition print_warn (msg : string) (s : machine) : option machine := print_tag "[WARN] " VGA_COLOR_BROWN msg s.

(** ** The statements *)

Definition do_apic_init (s : machine) : option machine :=
  '(p, v) ← apic_init (paging s) (kscreen (idts s)); Some (mk_machine (set_kscreen v (idts s)) p (kbd s) (mse s) (timer s)).
Definition do_register (vector handler : Z) (s : machine) : option machine := Some (set_idts (idt_register_handler vector handler (idts s)) s).
Definition do_route (irq vector dest : Z) (s : machine) : option machine := Some (with_ports (ioapic_route irq vector dest) s).
Definition do_pit_init (hz : Z) (s : machine) : option machine :=
  let '(t, v) := pit_init hz (kscreen (idts s)) in Some (mk_machine (set_kscreen v (idts s)) (paging s) (kbd s) (mse s) t).
Definition do_keyboard_init (s : machine) : option machine :=
  let v := kscreen (idts s) in
  '(k, w) ← keyboard_init inb polls (kbd s) (ports v); Some (mk_machine (set_kscreen (set_ports w v) (idts s)) (paging s) k (mse s) (timer s)).
Definition do_mouse_init (s : machine) : option machine :=
  let v := kscreen (idts s) in
  '(m, w) ← mouse_init inb outb polls (mse s) (ports v); Some (mk_machine (set_kscreen (set_ports w v) (idts s)) (paging s) (kbd s) m (timer s)).

Definition irq_steps : list (machine -> option machine) :=
  [ do_apic_init;
    print_ok "APIC: legacy PIC dead, LAPIC active";
    do_register 0x20 pit_irq_handler;
    do_route 0 0x20 0;
    do_route 2 0x20 0;
    do_pit_init 1000;
    print_ok "PIT: 1000 Hz, IOAPIC IRQ0/2 → vec 0x20";
    do_register 0x21 kbd_isr;
    do_route 1 0x21 0;
    do_keyboard_init;
    print_ok "Keyboard: IRQ1 → vec 0x21";
    do_register 0x2C mouse_isr;
    do_route 12 0x2C 0;
    do_mouse_init;
    print_ok "Mouse: IRQ12 → vec 0x2C" ].

Fixpoint run_steps (l : list (machine -> option machine)) (s : machine) : option machine :=
  match l with
  | [] => Some s
  | f :: l' => s ← f s; run_steps l' s
  end.

Definition irqs_init (s : machine) : option machine := run_steps irq_steps s.

(** ** The handlers *)

(** [keyboard_handle_irq] and [mouse_handle_irq] call what the windows
    registered. *)
Variables (call_gui : G -> key_event -> W -> W) (call_text : T -> Z -> Z -> bool -> W -> W) (call_mouse : G -> mouse_event -> W -> W).

Definition kbd_irq (s : machine) : machine :=
  let v := kscreen (idts s) in
  let '(k, w) := keyboard_handle_irq call_gui call_text inb (kbd s) (ports v) in
  with_ports apic_send_eoi (mk_machine (set_kscreen (set_ports w v) (idts s)) (paging s) k (mse s) (timer s)).

Definition mouse_irq (s : machine) : machine :=
  let v := kscreen (idts s) in
  let '(m, w) := mouse_handle_irq call_mouse inb (mse s) (ports v) in
  with_ports apic_send_eoi (mk_machine (set_kscreen (set_ports w v) (idts s)) (paging s) (kbd s) m (timer s)).
End Irqs.
Arguments machine W V G T : clear implicits.

(** The handler that steps over the test division: it prints and moves the
    instruction pointer of the frame. *)
Definition de_test_handler {W} `{Ports W} (frame : Z) (s : kstate W) : kstate W :=
  let m := kmem s in
  let v := vga_puts_color (bytes_of "  [ OK ] #DE handler fired — vector=0x") VGA_COLOR_LIGHT_GREEN VGA_COLOR_BLACK (kscreen s) in
  let v := vga_puts_color (bytes_of "  RIP=0x") VGA_COLOR_LIGHT_CYAN VGA_COLOR_BLACK (vga_puthex (f_int_num m frame) v) in
  let v := vga_putchar 10 (vga_puthex (f_rip m frame) v) in
  set_kscreen v (set_mem (store64 m (frame + OFF_RIP) (u64 (f_rip m frame + 3))) s).

(** * Specification *)

(** ** What leaves the routing alone *)

Section Kept.
Context {W : Type} `{IoApic W}.
Implicit Type v : vga W.

Lemma outb_same p x w : io_same w (outb p x w).
Proof. intros j. apply ioapic_outb. Qed.
Lemma inb_same p w : io_same w (inb p w).2.
Proof. intros j. apply ioapic_inb. Qed.
Lemma inb_same_eq p w x w' : inb p w = (x, w') -> io_same w w'.
Proof. intros E. pose proof (inb_same p w) as S. by rewrite E in S. Qed.
Lemma same_then w1 w2 w3 : io_same w1 w2 -> io_same w2 w3 -> io_same w1 w3.
Proof. intros E1 E2. by rewrite E1. Qed.

Definition kept v v' : Prop := io_same (ports v) (ports v').
Lemma kept_refl v : kept v v.
Proof. by intros j. Qed.
Lemma kept_then v1 v2 v3 : kept v1 v2 -> kept v2 v3 -> kept v1 v3.
Proof. apply same_then. Qed.

Lemma cursor_kept v : kept v (hw_cursor_update v).
Proof. unfold kept, hw_cursor_update. cbn [ports set_ports]. intros j. by rewrite !ioapic_outb. Qed.

Lemma row_ports v : ports (next_row v) = ports v.
Proof. unfold next_row. by destruct (VGA_HEIGHT <=? _). Qed.

Lemma putchar_kept c v : kept v (vga_putchar c v).
Proof.
  unfold vga_putchar. match goal with |- kept v (hw_cursor_update ?u) => assert (ports u = ports v) as E; [|pose proof (cursor_kept u) as C; unfold kept in *; by rewrite E in C] end.
  unfold wrap_col. destruct (c =? 10); [by rewrite row_ports|]. destruct (c =? 13); [done|]. destruct (c =? 9); [destruct (VGA_WIDTH <=? _); by rewrite ?row_ports|].
  destruct (c =? 8); [destruct (0 <? col v); [done | by destruct (0 <? row v)] | destruct (VGA_WIDTH <=? _); by rewrite ?row_ports].
Qed.

Lemma puts_kept s v : kept v (vga_puts s v).
Proof. revert v. induction s as [|c s IH]; intros v; [apply kept_refl|]. exact (kept_then _ _ _ (putchar_kept c v) (IH _)). Qed.
Lemma puts_color_kept s fg bg v : kept v (vga_puts_color s fg bg v).
Proof. exact (puts_kept s (set_color (vga_color fg bg) v)). Qed.
Lemma puthex_kept x v : kept v (vga_puthex x v).
Proof. unfold vga_puthex. rewrite for_up_puts. exact (kept_then _ _ _ (puts_kept _ _) (puts_kept _ _)). Qed.
Lemma putdec_kept x v : kept v (vga_putdec x v).
Proof. rewrite putdec_ok. apply puts_kept. Qed.
Lemma ports_kept w v v' : kept v v' -> io_same (ports v') w -> kept v (set_ports w v').
Proof. apply same_then. Qed.

(** Text by text, from the last back. *)
Lemma kept_puts s v v' : kept v v' -> kept v (vga_puts s v').
Proof. intros K. exact (kept_then _ _ _ K (puts_kept s v')). Qed.
Lemma kept_color s fg bg v v' : kept v v' -> kept v (vga_puts_color s fg bg v').
Proof. intros K. exact (kept_then _ _ _ K (puts_color_kept s fg bg v')). Qed.
Lemma kept_hex x v v' : kept v v' -> kept v (vga_puthex x v').
Proof. intros K. exact (kept_then _ _ _ K (puthex_kept x v')). Qed.
Lemma kept_dec x v v' : kept v v' -> kept v (vga_putdec x v').
Proof. intros K. exact (kept_then _ _ _ K (putdec_kept x v')). Qed.
Lemma kept_char c v v' : kept v v' -> kept v (vga_putchar c v').
Proof. intros K. exact (kept_then _ _ _ K (putchar_kept c v')). Qed.
Ltac keeping :=
  repeat match goal with
  | |- kept _ (vga_puts _ _) => apply kept_puts
  | |- kept _ (vga_puts_color _ _ _ _) => apply kept_color
  | |- kept _ (vga_puthex _ _) => apply kept_hex
  | |- kept _ (vga_putdec _ _) => apply kept_dec
  | |- kept _ (vga_putchar _ _) => apply kept_char
  | |- kept _ (set_ports _ _) => apply ports_kept
  end.

(** *** The serial line *)

Lemma wait_bit_same n p mask w w' : wait_bit n p mask w = Some w' -> io_same w w'.
Proof.
  revert w. induction n as [|n IH]; intros w E; [done|]. cbn [wait_bit] in E. destruct (inb p w) as [x w1] eqn:Ei. pose proof (inb_same_eq _ _ _ _ Ei) as S.
  destruct (_ =? 0); [exact (same_then _ _ _ S (IH _ E)) | by injection E as <-].
Qed.

Lemma serial_putchar_same n p c w w' : serial_putchar n p c w = Some w' -> io_same w w'.
Proof.
  unfold serial_putchar. destruct (wait_bit _ _ _ _) as [w1|] eqn:E; [|done]. cbn [mbind option_bind]. intros Hs. injection Hs as <-.
  exact (same_then _ _ _ (wait_bit_same _ _ _ _ _ E) (outb_same _ _ _)).
Qed.

Lemma serial_puts_same n p s w w' : serial_puts n p s w = Some w' -> io_same w w'.
Proof.
  revert w. induction s as [|c s IH]; intros w E; cbn [serial_puts] in E; [by injection E as <-|].
  destruct (if c =? 10 then _ else _) as [w1|] eqn:E1; [|done]. cbn [mbind option_bind] in E. destruct (serial_putchar n p c w1) as [w2|] eqn:E2; [|done]. cbn [mbind option_bind] in E.
  assert (io_same w w1) as S1 by (destruct (c =? 10); [exact (serial_putchar_same _ _ _ _ _ E1) | by injection E1 as <-]).
  exact (same_then _ _ _ S1 (same_then _ _ _ (serial_putchar_same _ _ _ _ _ E2) (IH _ E))).
Qed.

Lemma com_puts_kept n s v v' : com_puts n s v = Some v' -> kept v v'.
Proof. unfold com_puts, on_line. destruct (serial_puts _ _ _ _) as [w|] eqn:E; [|done]. cbn [mbind option_bind]. intros Hs. injection Hs as <-. exact (serial_puts_same _ _ _ _ _ E). Qed.

(** *** The other drivers *)

Lemma pic_same w : io_same w (pic_remap_and_disable w).
Proof. intros j. unfold pic_remap_and_disable, pic_out, io_wait. by rewrite !ioapic_outb. Qed.

Lemma lapic_same w : io_same w (lapic_enable w).
Proof.
  unfold lapic_enable, rdmsr, wrmsr, lapic_write. pose proof (fun j => ioapic_rdmsr IA32_APIC_BASE_MSR w j) as R. destruct (rdmsr_raw _ _) as [[lo hi] w1]. cbn [snd] in R.
  intros j. rewrite !ioapic_lapic_write by (unfold LAPIC_EOI, LAPIC_ERROR_LVT, LAPIC_LINT1_LVT, LAPIC_LINT0_LVT, LAPIC_TPR, LAPIC_SVR; lia). by rewrite ioapic_wrmsr, R.
Qed.

Lemma apic_start_kept v : kept v (apic_start v).
Proof.
  unfold apic_start, ok_line, apic_get_id, lapic_read, ioapic_read_reg. cbv zeta.
  match goal with |- context [mmio_read (LAPIC_BASE + LAPIC_ID) (ports ?u)] =>
    assert (kept v u) as K1 by (keeping; [apply kept_refl | apply pic_same | apply lapic_same]);
    pose proof (fun j => ioapic_lapic_read LAPIC_ID (ports u) j ltac:(unfold LAPIC_ID; lia)) as R; destruct (mmio_read (LAPIC_BASE + LAPIC_ID) (ports u)) as [x w1]; cbn [snd] in R; generalize dependent u end.
  intros u K1 R. match goal with |- context [mmio_write (IOAPIC_BASE + IOAPIC_REGSEL) IOAPIC_REG_VER (ports ?u2)] =>
    assert (kept v u2) as K2 by (keeping; [exact K1 | exact R]); destruct (ioapic_load IOAPIC_REG_VER (ports u2)) as (w2 & -> & R2); generalize dependent u2 end.
  intros u2 K2 R2. keeping; [exact K2 | exact R2].
Qed.

Lemma pit_init_kept hz v : kept v (pit_init hz v).2.
Proof. unfold pit_init. cbn [snd]. keeping; [apply kept_refl|]. intros j. by rewrite !ioapic_outb. Qed.

Lemma flush_same n w w' : Keyboard.flush_loop inb n w = Some w' -> io_same w w'.
Proof.
  revert w. induction n as [|n IH]; intros w E; cbn [Keyboard.flush_loop] in E; destruct (inb KBD_STATUS_PORT w) as [st w1] eqn:E1; pose proof (inb_same_eq _ _ _ _ E1) as S1; (destruct (_ =? 0); [by injection E as <-|]); [done|].
  exact (same_then _ _ _ S1 (same_then _ _ _ (inb_same KBD_DATA_PORT w1) (IH _ E))).
Qed.

Lemma drain_same n w w' : drain_loop inb n w = Some w' -> io_same w w'.
Proof.
  revert w. induction n as [|n IH]; intros w E; cbn [drain_loop] in E; destruct (inb MOUSE_STATUS_PORT w) as [st w1] eqn:E1; pose proof (inb_same_eq _ _ _ _ E1) as S1; (destruct (_ =? 0); [by injection E as <-|]); [done|].
  exact (same_then _ _ _ S1 (same_then _ _ _ (inb_same MOUSE_DATA_PORT w1) (IH _ E))).
Qed.

Lemma mouse_wait_same n f w : io_same w (mouse_wait inb n f w).2.
Proof.
  revert w. induction n as [|n IH]; intros w; [by intros j|]. cbn [mouse_wait]. destruct (inb MOUSE_STATUS_PORT w) as [st w1] eqn:E1. pose proof (inb_same_eq _ _ _ _ E1) as S1.
  destruct (f st); [exact S1 | exact (same_then _ _ _ S1 (IH w1))].
Qed.
Lemma input_clear_same w : io_same w (mouse_wait_input_clear inb w).2.
Proof. apply mouse_wait_same. Qed.
Lemma output_full_same w : io_same w (mouse_wait_output_full inb w).2.
Proof. apply mouse_wait_same. Qed.

(** A wait and what follows it. *)
Lemma after_clear w w0 (f : bool -> W -> W) : io_same w0 w -> (forall b w', io_same w0 w' -> io_same w0 (f b w')) ->
  io_same w0 (let '(ok, w') := mouse_wait_input_clear inb w in f ok w').
Proof. intros S Hf. pose proof (input_clear_same w) as C. destruct (mouse_wait_input_clear inb w) as [ok w1]. apply Hf. exact (same_then _ _ _ S C). Qed.
Lemma after_full w w0 (f : bool -> W -> W) : io_same w0 w -> (forall b w', io_same w0 w' -> io_same w0 (f b w')) ->
  io_same w0 (let '(ok, w') := mouse_wait_output_full inb w in f ok w').
Proof. intros S Hf. pose proof (output_full_same w) as C. destruct (mouse_wait_output_full inb w) as [ok w1]. apply Hf. exact (same_then _ _ _ S C). Qed.
Lemma then_outb p x w0 w : io_same w0 w -> io_same w0 (outb p x w).
Proof. intros S. exact (same_then _ _ _ S (outb_same p x w)). Qed.

Lemma write_device_same x w : io_same w (mouse_write_device inb outb x w).
Proof.
  unfold mouse_write_device. apply (after_clear w w (fun ok w => if negb ok then w else _)); [by intros j|]. intros [|] w1 S1; cbn [negb]; [|done].
  apply (after_clear _ w (fun ok w => if negb ok then w else _)); [by apply then_outb|]. intros [|] w2 S2; cbn [negb]; [|done].
  apply (after_full _ w (fun full w => if full then _ else w)); [by apply then_outb|]. intros [|] w3 S3; [|done]. exact (same_then _ _ _ S3 (inb_same _ _)).
Qed.

Lemma write_config_same x w : io_same w (mouse_write_controller_config inb outb x w).
Proof.
  unfold mouse_write_controller_config. apply (after_clear w w (fun ok w => if negb ok then w else _)); [by intros j|]. intros [|] w1 S1; cbn [negb]; [|done].
  apply (after_clear _ w (fun ok w => if negb ok then w else _)); [by apply then_outb|]. intros [|] w2 S2; cbn [negb]; [by apply then_outb | done].
Qed.

Lemma read_config_same w : io_same w (mouse_read_controller_config inb outb w).2.
Proof.
  unfold mouse_read_controller_config. pose proof (input_clear_same w) as C. destruct (mouse_wait_input_clear inb w) as [[|] w1]; cbn [negb snd] in *; [|done].
  pose proof (output_full_same (outb MOUSE_CMD_PORT MOUSE_CMD_READ_CB w1)) as F. destruct (mouse_wait_output_full inb _) as [full w2]. cbn [snd] in F.
  pose proof (same_then _ _ _ (then_outb MOUSE_CMD_PORT MOUSE_CMD_READ_CB _ _ C) F) as S2. destruct full; cbn [negb snd]; [|exact S2]. exact (same_then _ _ _ S2 (inb_same _ _)).
Qed.

Lemma mouse_init_same {G} n (m m' : mouse G) w w' : mouse_init inb outb n m w = Some (m', w') -> io_same w w'.
Proof.
  unfold mouse_init. pose proof (input_clear_same w) as C. destruct (mouse_wait_input_clear inb w) as [[|] w1]; cbn [negb snd] in *; [|intros E; injection E as <- <-; exact C].
  pose proof (read_config_same (outb MOUSE_CMD_PORT MOUSE_CMD_ENABLE_AUX w1)) as R. destruct (mouse_read_controller_config _ _ _) as [cfg w2]. cbn [snd] in R.
  pose proof (same_then _ _ _ (then_outb MOUSE_CMD_PORT MOUSE_CMD_ENABLE_AUX _ _ C) R) as S2. intros E.
  match type of E with (drain_loop _ _ ?u ≫= _) = _ => assert (io_same w u) as S3; [|destruct (drain_loop inb n u) as [w3|] eqn:Ed; [|done]] end.
  { exact (same_then _ _ _ (same_then _ _ _ (same_then _ _ _ S2 (write_config_same _ _)) (write_device_same _ _)) (write_device_same _ _)). }
  cbn [mbind option_bind] in E. injection E as <- <-. exact (same_then _ _ _ S3 (drain_same _ _ _ Ed)).
Qed.

Lemma keyboard_init_same {G T} n (k k' : keyboard G T) w w' : keyboard_init inb n k w = Some (k', w') -> io_same w w'.
Proof.
  unfold keyboard_init. destruct (Keyboard.flush_loop inb n w) as [w1|] eqn:E; [|done]. cbn [mbind option_bind]. intros Hs. injection Hs as <- <-. exact (flush_same _ _ _ E).
Qed.
End Kept.

(** ** The start-up *)

Section Startup.
Context {W V G T : Type} `{IoApic W} `{Mmio V}.
Variables (polls : nat) (pit_isr kbd_isr mouse_isr : Z).
Hypothesis Hisr : 0 < pit_isr /\ 0 < kbd_isr /\ 0 < mouse_isr.
Implicit Type s : machine W V G T.

Definition io_of s : W := ports (kscreen (idts s)).
Definition handler_of s : Z -> Z := isr_handlers (idts s).

(** Every live line leads to a registered handler. *)
Definition handled s : Prop := forall irq, 0 <= irq < 24 -> rd_masked (entry_of (io_of s) irq) = false -> handler_of s (rd_vector (entry_of (io_of s) irq)) <> 0.

(** A statement that changes neither the routing nor the handlers. *)
Definition neutral (f : machine W V G T -> option (machine W V G T)) : Prop :=
  forall s s', f s = Some s' -> io_same (io_of s) (io_of s') /\ handler_of s' = handler_of s.

Lemma neutral_handled f s s' : neutral f -> f s = Some s' -> handled s -> handled s'.
Proof.
  intros Hn E Hh irq Hi. destruct (Hn s s' E) as [S ->]. rewrite (entry_same _ _ irq S). by apply Hh.
Qed.

Lemma print_neutral tag fg msg : neutral (print_tag polls tag fg msg).
Proof.
  intros s s'. unfold print_tag, klog. cbv zeta. match goal with |- (com_puts _ _ ?u ≫= _) = _ -> _ => assert (kept (kscreen (idts s)) u) as K0 by (apply kept_char, kept_puts, kept_color, kept_refl); generalize dependent u end.
  intros u K0. destruct (com_puts polls (bytes_of tag) u) as [v1|] eqn:E1; [|done]. cbn [mbind option_bind]. destruct (com_puts polls (bytes_of msg) v1) as [v2|] eqn:E2; [|done]. cbn [mbind option_bind].
  destruct (com_puts polls [13; 10] v2) as [v3|] eqn:E3; [|done]. cbn [mbind option_bind]. intros Hs. injection Hs as <-. split; [|done].
  exact (kept_then _ _ _ K0 (kept_then _ _ _ (com_puts_kept _ _ _ _ E1) (kept_then _ _ _ (com_puts_kept _ _ _ _ E2) (com_puts_kept _ _ _ _ E3)))).
Qed.

Lemma apic_neutral : neutral do_apic_init.
Proof.
  intros s s'. unfold do_apic_init, apic_init. destruct (map_mmio LAPIC_BASE 1 _) as [p1|]; [|done]. cbn [mbind option_bind]. destruct (map_mmio IOAPIC_BASE 1 p1) as [p2|]; [|done].
  cbn [mbind option_bind]. intros Hs. injection Hs as <-. split; [exact (apic_start_kept _) | done].
Qed.

Lemma pit_neutral hz : neutral (do_pit_init hz).
Proof.
  intros s s'. unfold do_pit_init. pose proof (pit_init_kept hz (kscreen (idts s))) as K. destruct (pit_init hz _) as [t v]. intros Hs. injection Hs as <-. by split.
Qed.

Lemma keyboard_neutral : neutral (do_keyboard_init polls).
Proof.
  intros s s'. unfold do_keyboard_init. destruct (keyboard_init inb polls _ _) as [[k w]|] eqn:E; [|done]. cbn [mbind option_bind]. intros Hs. injection Hs as <-. split; [exact (keyboard_init_same _ _ _ _ _ E) | done].
Qed.

Lemma mouse_neutral : neutral (do_mouse_init polls).
Proof.
  intros s s'. unfold do_mouse_init. destruct (mouse_init inb outb polls _ _) as [[k w]|] eqn:E; [|done]. cbn [mbind option_bind]. intros Hs. injection Hs as <-. split; [exact (mouse_init_same _ _ _ _ _ E) | done].
Qed.

Lemma register_handled v h s s' : h <> 0 -> do_register v h s = Some s' -> handled s -> handled s' /\ handler_of s' v = h.
Proof.
  intros Hh E Hs. injection E as <-. split; [|unfold handler_of; cbn; apply upd_eq]. intros irq Hi Hm. unfold handler_of. cbn [isr_handlers idts set_idts idt_register_handler set_handlers].
  rewrite upd_spec. case_decide; [done|]. by apply Hs.
Qed.

Lemma route_handled irq v s s' : 0 <= irq < 24 -> 0 <= v < 256 -> handler_of s v <> 0 -> do_route irq v 0 s = Some s' -> handled s -> handled s' /\ handler_of s' = handler_of s.
Proof.
  intros Hi Hv Hh E Hs. injection E as <-. split; [|done]. intros i Hi2. change (io_of (with_ports (ioapic_route irq v 0) s)) with (ioapic_route irq v 0 (io_of s)).
  change (handler_of (with_ports (ioapic_route irq v 0) s)) with (handler_of s).
  destruct (route_ok irq v 0 (io_of s) Hi Hv ltac:(lia)) as [R1 R2]. destruct (decide (i = irq)) as [->|N]; [by rewrite R1 | rewrite (R2 i Hi2 N); by apply Hs].
Qed.

(** The lines of [l] are live, each with its vector and its handler. *)
Definition routes s (l : list (Z * Z * Z)) : Prop :=
  Forall (fun x => entry_of (io_of s) x.1.1 = mk_redir x.1.2 0 false 0 /\ handler_of s x.1.2 = x.2) l.
Definition good (l : list (Z * Z * Z)) s : Prop := handled s /\ routes s l.

Lemma neutral_good f l s s' : neutral f -> f s = Some s' -> good l s -> good l s'.
Proof.
  intros Hn E [Hh Hr]. split; [exact (neutral_handled f s s' Hn E Hh)|]. destruct (Hn s s' E) as [S Eh]. unfold routes. rewrite Eh.
  apply (Forall_impl _ _ _ Hr). intros x [R1 R2]. by rewrite (entry_same _ _ _ S).
Qed.

Lemma register_good v h l s s' : 0 < h -> Forall (fun x => x.1.2 <> v) l -> do_register v h s = Some s' -> good l s -> good l s' /\ handler_of s' v = h.
Proof.
  intros Hp Hv E [Hh Hr]. destruct (register_handled v h s s' ltac:(lia) E Hh) as [J1 J2]. split; [|done]. split; [done|]. injection E as <-. unfold routes in *.
  rewrite Forall_forall in Hr, Hv |- *. intros x Hx. destruct (Hr x Hx) as [R1 R2]. split; [done|]. unfold handler_of. cbn [isr_handlers idts set_idts idt_register_handler set_handlers].
  rewrite upd_ne; [done | intros E; by apply (Hv x Hx)].
Qed.

Lemma route_good irq v h l s s' : 0 <= irq < 24 -> 0 <= v < 256 -> 0 < h -> Forall (fun x => 0 <= x.1.1 < 24 /\ x.1.1 <> irq) l -> handler_of s v = h ->
  do_route irq v 0 s = Some s' -> good l s -> good ((irq, v, h) :: l) s' /\ handler_of s' = handler_of s.
Proof.
  intros Hi Hv Hp Hl Hh E [Hd Hr]. destruct (route_handled irq v s s' Hi Hv ltac:(lia) E Hd) as [J1 J2]. split; [|done]. split; [done|]. injection E as <-.
  destruct (route_ok irq v 0 (io_of s) Hi Hv ltac:(lia)) as [R1 R2]. constructor; [by split|]. unfold routes in *.
  rewrite Forall_forall in Hr, Hl |- *. intros x Hx. destruct (Hr x Hx) as [Q1 Q2], (Hl x Hx) as [L1 L2]. split; [|done].
  change (io_of (with_ports (ioapic_route irq v 0) s)) with (ioapic_route irq v 0 (io_of s)). by rewrite R2.
Qed.

(** [Q] between any two statements, and [R] at the end. *)
Fixpoint along (Q R : machine W V G T -> Prop) (l : list (machine W V G T -> option (machine W V G T))) s : Prop :=
  match l with
  | [] => Q s /\ R s
  | f :: l' => Q s /\ forall s', f s = Some s' -> along Q R l' s'
  end.

Lemma along_prefix Q R l1 l2 s s' : along Q R (l1 ++ l2) s -> run_steps l1 s = Some s' -> Q s' /\ (l2 = [] -> R s').
Proof.
  revert s. induction l1 as [|f l1 IH]; intros s Ha E; cbn [run_steps app along] in *.
  - injection E as <-. destruct l2; [by destruct Ha|]. by destruct Ha.
  - destruct (f s) as [s1|] eqn:E1; [|done]. cbn [mbind option_bind] in E. exact (IH s1 (proj2 Ha s1 eq_refl) E).
Qed.

Lemma along_neutral f l k s R : neutral f -> good k s -> (forall s', good k s' -> along handled R l s') -> along handled R (f :: l) s.
Proof. intros Hn Hg Hl. split; [apply Hg|]. intros s' E. apply Hl. exact (neutral_good f k s s' Hn E Hg). Qed.

Definition boot_routes : list (Z * Z * Z) := [(12, 0x2C, mouse_isr); (1, 0x21, kbd_isr); (2, 0x20, pit_isr); (0, 0x20, pit_isr)].

Lemma startup_along s : (forall irq, 0 <= irq < 24 -> rd_masked (entry_of (io_of s) irq) = true) ->
  along handled (fun s => routes s boot_routes) (irq_steps polls pit_isr kbd_isr mouse_isr) s.
Proof.
  destruct Hisr as (P1 & P2 & P3). intros Hm. assert (good [] s) as Hg by (split; [intros irq Hi E; by rewrite Hm in E | constructor]). unfold irq_steps.
  apply (along_neutral _ _ [] s _ apic_neutral Hg). clear s Hm Hg. intros s Hg.
  apply (along_neutral _ _ [] s _ (print_neutral _ _ _) Hg). clear s Hg. intros s Hg.
  split; [apply Hg|]. intros s1 E1. destruct (register_good 0x20 pit_isr [] s s1 P1 ltac:(constructor) E1 Hg) as [G1 F1]. clear s E1 Hg.
  split; [apply G1|]. intros s2 E2. destruct (route_good 0 0x20 pit_isr [] s1 s2 ltac:(lia) ltac:(lia) P1 ltac:(constructor) F1 E2 G1) as [G2 F2]. assert (handler_of s2 0x20 = pit_isr) as F3 by (rewrite F2; exact F1). clear s1 E2 F1 F2 G1.
  split; [apply G2|]. intros s3 E3. destruct (route_good 2 0x20 pit_isr [(0, 0x20, pit_isr)] s2 s3 ltac:(lia) ltac:(lia) P1 ltac:(repeat constructor; cbn; lia) F3 E3 G2) as [G3 _]. clear s2 E3 F3 G2.
  apply (along_neutral _ _ _ s3 _ (pit_neutral _) G3). clear s3 G3. intros s Hg.
  apply (along_neutral _ _ _ s _ (print_neutral _ _ _) Hg). clear s Hg. intros s Hg.
  split; [apply Hg|]. intros s1 E1. destruct (register_good 0x21 kbd_isr [(2, 0x20, pit_isr); (0, 0x20, pit_isr)] s s1 P2 ltac:(repeat constructor; cbn; lia) E1 Hg) as [G1 F1]. clear s E1 Hg.
  split; [apply G1|]. intros s2 E2. destruct (route_good 1 0x21 kbd_isr [(2, 0x20, pit_isr); (0, 0x20, pit_isr)] s1 s2 ltac:(lia) ltac:(lia) P2 ltac:(repeat constructor; cbn; lia) F1 E2 G1) as [G2 _]. clear s1 E2 F1 G1.
  apply (along_neutral _ _ _ s2 _ keyboard_neutral G2). clear s2 G2. intros s Hg.
  apply (along_neutral _ _ _ s _ (print_neutral _ _ _) Hg). clear s Hg. intros s Hg.
  split; [apply Hg|]. intros s1 E1. destruct (register_good 0x2C mouse_isr [(1, 0x21, kbd_isr); (2, 0x20, pit_isr); (0, 0x20, pit_isr)] s s1 P3 ltac:(repeat constructor; cbn; lia) E1 Hg) as [G1 F1]. clear s E1 Hg.
  split; [apply G1|]. intros s2 E2. destruct (route_good 12 0x2C mouse_isr [(1, 0x21, kbd_isr); (2, 0x20, pit_isr); (0, 0x20, pit_isr)] s1 s2 ltac:(lia) ltac:(lia) P3 ltac:(repeat constructor; cbn; lia) F1 E2 G1) as [G2 _]. clear s1 E2 F1 G1.
  apply (along_neutral _ _ _ s2 _ mouse_neutral G2). clear s2 G2. intros s Hg.
  apply (along_neutral _ _ _ s _ (print_neutral _ _ _) Hg). clear s Hg. intros s Hg. exact Hg.
Qed.

(** C30: No interrupt without a handler: from a machine whose lines are all
    masked, at every point between the statements with which kernel_main starts
    the interrupt controllers, the timer, the keyboard and the mouse, every
    line that is live leads to a vector with a registered handler; and at the
    end the timer's two lines, the keyboard's and the mouse's are live and lead
    to their own handlers. *)
Theorem live_lines_have_handlers s l1 l2 s' : irq_steps polls pit_isr kbd_isr mouse_isr = l1 ++ l2 -> run_steps l1 s = Some s' ->
  (forall irq, 0 <= irq < 24 -> rd_masked (entry_of (io_of s) irq) = true) ->
  (forall irq, 0 <= irq < 24 -> rd_masked (entry_of (io_of s') irq) = false -> handler_of s' (rd_vector (entry_of (io_of s') irq)) <> 0) /\
  (l2 = [] -> Forall (fun x => entry_of (io_of s') x.1.1 = mk_redir x.1.2 0 false 0 /\ handler_of s' x.1.2 = x.2) boot_routes).
Proof.
  intros El Er Hm. pose proof (startup_along s Hm) as A. rewrite El in A. exact (along_prefix _ _ l1 l2 s s' A Er).
Qed.
End Startup.

(** ** The test of the exceptions *)

(** The handler of the boot test, called through its address. *)
Definition call_de {W} `{Ports W} (h f : Z) (s : kstate W) : outcome W := Returned (de_test_handler f s).

(** The kernel survives its own division by zero: with the test handler
    registered for vector 0, the exception at an instruction returns to the
    third byte behind it, with every register, the flags and the stack as they
    were, whatever they were. *)
Theorem division_test_resumes {W} `{Ports W} (c : cpu) (s : kstate W) h : cpu_words c -> rip c + 3 < 2 ^ 64 -> isr_handlers s 0 = h -> h <> 0 ->
  exists s' c', interrupt call_de 0 None c s = (Returned s', Some c') /\
    rip c' = rip c + 3 /\ (forall r, gpr c' r = gpr c r) /\ cs c' = cs c /\ rflags c' = rflags c /\ rsp c' = rsp c /\ ss c' = ss c.
Proof.
  intros Hc Hr Eh Hh. destruct (interrupt_frame call_de 0 None c s Hc ltac:(unfold word; lia) ltac:(unfold word; cbn; lia) eq_refl) as (m & F & _ & A).
  set (f := 16 * (rsp c / 16) - 176) in *. unfold isr_dispatch in A. cbn [kmem isr_handlers set_mem] in A. rewrite (fo_num _ _ _ _ _ F), Eh in A. change (0 <? 32) with true in A.
  destruct (Z.eqb_spec h 0); [done|]. cbn [negb] in A. unfold call_de in A at 1. destruct A as (c' & A & R). eexists _, c'. split; [exact A|].
  unfold de_test_handler in R. cbn [kmem set_kscreen set_mem] in R. rewrite (fo_rip _ _ _ _ _ F), u64_small in R by (pose proof (cw_rip c Hc); unfold word in *; lia).
  set (m' := store64 m (f + OFF_RIP) (rip c + 3)) in *. destruct F as [F1 F2 F3 F4 F5 F6 F7 F8], R as [R1 R2 R3 R4 R5 R6].
  assert (forall k, 0 <= k <= 168 -> k <> 136 -> (8 | k) -> load64 m' (f + k) = load64 m (f + k)) as E.
  { intros k Hk N [q Hq]. unfold m', store64, load64, OFF_RIP. apply load_le_store_other. lia. }
  assert (load64 m' (f + 136) = rip c + 3) as E2 by (unfold m'; rewrite load64_store64; apply u64_small; pose proof (cw_rip c Hc); unfold word in *; lia).
  unfold f_reg, f_rip, f_cs, f_rflags, f_rsp, f_ss, OFF_RIP, OFF_CS, OFF_RFLAGS, OFF_RSP, OFF_SS in *.
  split; [by rewrite R2|]. split; [intros r; pose proof (frame_regs_index r); rewrite R1, E; [apply F1 | lia | lia | by exists (reg_index r); lia]|].
  split; [rewrite R3, E; [done | lia | lia | by exists 18]|]. split; [rewrite R4, E; [done | lia | lia | by exists 19]|].
  split; [rewrite R5, E; [done | lia | lia | by exists 20] | rewrite R6, E; [done | lia | lia | by exists 21]].
Qed.

Lemma division_test_resumes_witness : exists s' c',
  interrupt call_de 0 None demo_regs (demo_kstate (fun v => if v =? 0 then 0x105000 else 0)) = (Returned s', Some c') /\ rip c' = 0x100503 /\ gpr c' RCX = gpr demo_regs RCX.
Proof.
  assert (cpu_words demo_regs) as Hc by (split; unfold word; cbn; try lia; intros r; pose proof (frame_regs_index r); lia).
  destruct (division_test_resumes demo_regs (demo_kstate (fun v => if v =? 0 then 0x105000 else 0)) 0x105000 Hc ltac:(cbn; lia) eq_refl ltac:(lia)) as (s' & c' & A & R & G & _).
  exists s', c'. split; [exact A|]. split; [exact R | exact (G RCX)].
Defined.

(** ** A machine *)

(** The selector and the registers of the I/O controller; every other device is
    ready and silent. *)
Record io_dev := mk_io { io_sel : Z; io_regs : Z -> Z }.
#[export] Instance io_ports : Ports io_dev := {
  outb _ _ d := d; outw _ _ d := d; outl _ _ d := d;
  inb p d := (if p =? SERIAL_COM1 + 5 then 0x20 else 0, d); inl _ d := (0, d);
}.
#[export] Instance io_device_regs : DeviceRegs io_dev := {
  mmio_read a d := (if a =? IOAPIC_BASE + IOAPIC_IOWIN then u32 (io_regs d (io_sel d)) else 0, d);
  mmio_write a x d := if a =? IOAPIC_BASE + IOAPIC_REGSEL then mk_io x (io_regs d) else if a =? IOAPIC_BASE + IOAPIC_IOWIN then mk_io (io_sel d) (upd (io_regs d) (io_sel d) x) else d;
  rdmsr_raw _ d := ((0, 0), d); wrmsr_raw _ _ d := d;
}.
#[export] Instance io_ioapic : IoApic io_dev.
Proof.
  refine {| ioapic_reg := fun d r => u32 (io_regs d r) |}; try done.
  - intros w r. unfold u32. apply Z.mod_pos_bound. lia.
  - intros r x w j Hr Hx. change (u32 (upd (io_regs w) r x j) = if j =? r then x else u32 (io_regs w j)). rewrite upd_spec. destruct (Z.eqb_spec j r); case_decide; try done. by apply u32_small.
  - intros r w. by eexists.
  - intros off x w j Ho. cbn. unfold LAPIC_BASE, IOAPIC_BASE, IOAPIC_REGSEL, IOAPIC_IOWIN. by repeat zcase; try lia.
Defined.
#[export] Instance unit_mmio : Mmio unit := { map_mmio _ _ v := Some v }.

Definition demo_machine : machine io_dev unit unit unit :=
  mk_machine (mk_kstate (fun _ => 0) (fun _ => 0) (4095, 0x200000) (vga_init (mk_vga 0 0 0 0 (fun _ => 0) (mk_io 0 (fun _ => IOAPIC_MASKED))))) tt
    (mk_kbd (mk_ring (fun _ => mk_key 0 0 false false false false false) 0 0) (mk_ring (fun _ => 0) 0 0) false false false false false None None)
    (mk_mouse 0 0 (mk_ring (fun _ => mk_mev 0 0 0 0 0 0) 0 0) (fun _ => 0) 0 0 None) (mk_pit 0 0).

Definition demo_steps : list (machine io_dev unit unit unit -> option (machine io_dev unit unit unit)) := irq_steps 2 0x101000 0x102000 0x103000.

Lemma live_lines_have_handlers_witness : exists s', run_steps demo_steps demo_machine = Some s' /\
  entry_of (io_of s') 1 = mk_redir 0x21 0 false 0 /\ handler_of s' 0x21 = 0x102000.
Proof.
  assert (match run_steps demo_steps demo_machine with Some _ => true | None => false end = true) as E by (vm_compute; reflexivity).
  destruct (run_steps demo_steps demo_machine) as [s'|] eqn:Er; [|discriminate]. exists s'. split; [reflexivity|].
  assert (0 < 0x101000 /\ 0 < 0x102000 /\ 0 < 0x103000) as Hp by lia.
  destruct (live_lines_have_handlers 2 0x101000 0x102000 0x103000 Hp demo_machine demo_steps [] s') as [_ H]; [symmetry; apply app_nil_r | exact Er | |].
  - intros irq Hi. reflexivity.
  - specialize (H eq_refl). apply Forall_inv_tail, Forall_inv in H. exact H.
Defined.

Lemma ioapic_route_correct_witness : entry_of (ioapic_route 14 0x2E 3 (mk_io 0 (fun _ => IOAPIC_MASKED))) 14 = mk_redir 0x2E 0 false 3.
Proof. exact (proj1 (ioapic_route_correct 14 0x2E 3 (mk_io 0 (fun _ => IOAPIC_MASKED)) ltac:(lia) ltac:(lia) ltac:(lia))). Defined.
