(* ===== verification/Ahci.v ===== *)
(** The driver of the disk controller (kernel/ahci.c): finding and resetting the
    controller, bringing up its ports, and the transfer of sectors by a command
    table in memory that the controller reads on its own.  Reading a register
    of the controller or the tick counter is an operation of the world, which
    may also change memory: that is how a transfer arrives.  [polls] bounds the
    busy waits; [None] is a wait beyond it.

    A transfer does what the file system relies on: the command the driver puts
    into memory is the one the controller reads there, and a controller that
    keeps to its specification then moves exactly the sectors named between the
    disk and the buffer. *)

From S2P Require Import Prelude Memory Ports Vga Serial Idt Panic Pci Disk Gdt.
Local Open Scope Z_scope.

Class HbaRegs (W : Type) := {
  hba_read : Z -> mem * W -> Z * (mem * W);
  hba_write : Z -> Z -> mem * W -> mem * W;
  tick_read : mem * W -> Z * (mem * W);
}.

Definition AHCI_HBA_GHC : Z := 0x04.
Definition AHCI_HBA_PI : Z := 0x0C.
Definition AHCI_GHC_AHCI_ENABLE : Z := Z.shiftl 1 31.
Definition AHCI_GHC_RESET : Z := Z.shiftl 1 0.
Definition PxCLB : Z := 0x00.
Definition PxCLBU : Z := 0x04.
Definition PxFB : Z := 0x08.
Definition PxFBU : Z := 0x0C.
Definition PxIS : Z := 0x10.
Definition PxCMD : Z := 0x18.
Definition PxTFD : Z := 0x20.
Definition PxSIG : Z := 0x24.
Definition PxSSTS : Z := 0x28.
Definition PxSERR : Z := 0x30.
Definition PxCI : Z := 0x38.
Definition CMD_ST : Z := Z.shiftl 1 0.
Definition CMD_FRE : Z := Z.shiftl 1 4.
Definition CMD_FR : Z := Z.shiftl 1 14.
Definition CMD_CR : Z := Z.shiftl 1 15.
Definition PXTFD_ERR : Z := Z.shiftl 1 0.
Definition TFD_DRQ : Z := Z.shiftl 1 3.
Definition TFD_BSY : Z := Z.shiftl 1 7.
Definition SSTS_DET_PRESENT : Z := 3.
Definition SSTS_IPM_ACTIVE : Z := 1.
Definition AHCI_SIG_ATAPI : Z := 0xEB140101.
Definition ATA_CMD_READ_DMA_EXT : Z := 0x25.
Definition ATA_CMD_WRITE_DMA_EXT : Z := 0x35.
Definition FIS_TYPE_REG_H2D : Z := 0x27.
Definition SIZEOF_CMD_HEADER : Z := 32.
Definition SIZEOF_CMD_TABLE : Z := 144.
Definition OFF_PRDT : Z := 128.
Definition ALL_ONES : Z := 0xFFFFFFFF.

Definition PORT_BASE (hba p : Z) : Z := u32 (u32 (hba + 0x100) + u32 (p * 0x80)).

Section Ahci.
Context {W : Type} `{Ports W} `{HbaRegs W}.
Variable polls : nat.
(** Where the static arrays are. *)
Variables cmd_list fis_buf cmd_table : Z.

Record sata := mk_sata { hba_base : Z; port_mask : Z; dram : mem; scr : vga W }.

Definition set_base (b : Z) (s : sata) : sata := mk_sata b (port_mask s) (dram s) (scr s).
Definition set_mask (k : Z) (s : sata) : sata := mk_sata (hba_base s) k (dram s) (scr s).
Definition set_dram (m : mem) (s : sata) : sata := mk_sata (hba_base s) (port_mask s) m (scr s).
Definition set_scr (v : vga W) (s : sata) : sata := mk_sata (hba_base s) (port_mask s) (dram s) v.
Definition put_world (mw : mem * W) (s : sata) : sata := mk_sata (hba_base s) (port_mask s) mw.1 (set_ports mw.2 (scr s)).
Definition world (s : sata) : mem * W := (dram s, ports (scr s)).

Definition mmio32 (a : Z) (s : sata) : Z * sata := let '(x, mw) := hba_read a (world s) in (x, put_world mw s).
Definition mmio32_set (a x : Z) (s : sata) : sata := put_world (hba_write a x (world s)) s.
Definition mmio32_or (a x : Z) (s : sata) : sata := let '(y, s) := mmio32 a s in mmio32_set a (Z.lor y x) s.
Definition mmio32_and_not (a x : Z) (s : sata) : sata := let '(y, s) := mmio32 a s in mmio32_set a (Z.land y (Z.lnot x mod 2 ^ 32)) s.
Definition pit_get_ticks (s : sata) : Z * sata := let '(t, mw) := tick_read (world s) in (t, put_world mw s).

Definition klog (msg : list Z) (s : sata) : option sata := v ← com_puts polls msg (scr s); Some (set_scr v s).
Definition klog_hex (x : Z) (s : sata) : option sata := v ← on_line (serial_puthex polls SERIAL_COM1 x) (scr s); Some (set_scr v s).
Definition klog_dec (x : Z) (s : sata) : option sata := v ← on_line (serial_putdec polls SERIAL_COM1 x) (scr s); Some (set_scr v s).
Definition say (msg : list Z) (fg : Z) (s : sata) : sata := set_scr (vga_puts_color msg fg VGA_COLOR_BLACK (scr s)) s.

Definition memzero (dst n : Z) (m : mem) : mem := set_up (Z.to_nat n) m dst 0.

Fixpoint wait_clear_loop (fuel : nat) (reg mask deadline : Z) (s : sata) : option (bool * sata) :=
  match fuel with
  | O => None
  | S fuel' =>
      let '(x, s) := mmio32 reg s in
      if Z.land x mask =? 0 then Some (true, s) else
      let '(t, s) := pit_get_ticks s in
      if deadline <=? t then Some (false, s) else wait_clear_loop fuel' reg mask deadline s
  end.
Definition wait_clear (reg mask ms : Z) (s : sata) : option (bool * sata) :=
  let '(t, s) := pit_get_ticks s in wait_clear_loop polls reg mask (u64 (t + ms)) s.

Definition port_stop (p : Z) (s : sata) : option sata :=
  let pb := PORT_BASE (hba_base s) p in
  let s := mmio32_and_not (u32 (pb + PxCMD)) CMD_ST s in
  '(_, s) ← wait_clear (u32 (pb + PxCMD)) CMD_CR 500 s;
  let s := mmio32_and_not (u32 (pb + PxCMD)) CMD_FRE s in
  '(_, s) ← wait_clear (u32 (pb + PxCMD)) CMD_FR 500 s;
  Some s.

Definition port_start (p : Z) (s : sata) : option sata :=
  let pb := PORT_BASE (hba_base s) p in
  '(_, s) ← wait_clear (u32 (pb + PxCMD)) CMD_CR 500 s;
  let s := mmio32_or (u32 (pb + PxCMD)) CMD_FRE s in
  Some (mmio32_or (u32 (pb + PxCMD)) CMD_ST s).

(** ** Bringing up a port *)

(** The port has an active device that is not a packet device. *)
Definition port_present (p : Z) (s : sata) : bool * sata :=
  let pb := PORT_BASE (hba_base s) p in
  let '(ssts, s) := mmio32 (u32 (pb + PxSSTS)) s in
  let det := u8 (Z.land ssts 0x0F) in
  let ipm := u8 (Z.land (Z.shiftr ssts 8) 0x0F) in
  if negb (det =? SSTS_DET_PRESENT) || negb (ipm =? SSTS_IPM_ACTIVE) then (false, s)
  else let '(sig, s) := mmio32 (u32 (pb + PxSIG)) s in (negb (sig =? AHCI_SIG_ATAPI), s).

Definition port_setup (p : Z) (s : sata) : option sata :=
  let pb := PORT_BASE (hba_base s) p in
  let s := set_mask (Z.lor (port_mask s) (Z.shiftl 1 p)) s in
  s ← port_stop p s;
  let s := mmio32_set (u32 (pb + PxCLBU)) 0 s in
  let s := mmio32_set (u32 (pb + PxCLB)) (u32 (cmd_list + 1024 * p)) s in
  let s := mmio32_set (u32 (pb + PxFBU)) 0 s in
  let s := mmio32_set (u32 (pb + PxFB)) (u32 (fis_buf + 256 * p)) s in
  let s := set_dram (memzero (cmd_list + 1024 * p) 1024 (dram s)) s in
  let s := set_dram (memzero (fis_buf + 256 * p) 256 (dram s)) s in
  let s := mmio32_set (u32 (pb + PxSERR)) ALL_ONES s in
  let s := mmio32_set (u32 (pb + PxIS)) ALL_ONES s in
  s ← port_start p s;
  let s := say (bytes_of "  [ OK ] AHCI port ") VGA_COLOR_LIGHT_GREEN s in
  let s := say (bytes_of " SATA device detected" ++ [10]) VGA_COLOR_LIGHT_GREEN (set_scr (vga_putdec p (scr s)) s) in
  s ← klog (bytes_of "[AHCI] port ") s; s ← klog_dec p s; klog (bytes_of " SATA ready" ++ [13; 10]) s.

Fixpoint ports_loop (n : nat) (p pi : Z) (s : sata) : option sata :=
  match n with
  | O => Some s
  | S n' =>
      if Z.land pi (Z.shiftl 1 p) =? 0 then ports_loop n' (p + 1) pi s else
      let '(here, s) := port_present p s in
      s ← (if (here : bool) then port_setup p s else Some s);
      ports_loop n' (p + 1) pi s
  end.

(** [t] is the table of PCI devices. *)
Definition ahci_init (t : pci W) (s : sata) : option (Z * sata) :=
  match pci_find_device 0x01 0x06 t with
  | None =>
      s ← klog (bytes_of "[AHCI] No AHCI controller found." ++ [13; 10]) (say (bytes_of "[AHCI] No AHCI controller found on PCI bus." ++ [10]) VGA_COLOR_BROWN s);
      Some (-1, s)
  | Some i =>
      let s := set_base (Z.land (nth 5 (bar (devices t i)) 0) (Z.lnot 0xF mod 2 ^ 32)) s in
      if hba_base s =? 0 then Some (-1, say (bytes_of "[AHCI] BAR5 is zero — HBA MMIO not mapped." ++ [10]) VGA_COLOR_BROWN s) else
      s ← klog (bytes_of "[AHCI] HBA at BAR5=0x") s; s ← klog_hex (hba_base s) s; s ← klog [13; 10] s;
      let ghc := u32 (hba_base s + AHCI_HBA_GHC) in
      let s := mmio32_or ghc AHCI_GHC_AHCI_ENABLE s in
      let s := mmio32_or ghc AHCI_GHC_RESET s in
      '(ok, s) ← wait_clear ghc AHCI_GHC_RESET 1000 s;
      if negb ok then Some (-1, say (bytes_of "[AHCI] HBA reset timeout." ++ [10]) VGA_COLOR_LIGHT_RED s) else
      let s := mmio32_or ghc AHCI_GHC_AHCI_ENABLE s in
      let '(pi, s) := mmio32 (u32 (hba_base s + AHCI_HBA_PI)) s in
      s ← ports_loop 32 0 pi (set_mask 0 s);
      Some (0, if port_mask s =? 0 then say (bytes_of "[AHCI] No SATA drives found." ++ [10]) VGA_COLOR_BROWN s else s)
  end.

Definition ahci_port_available (port : Z) (s : sata) : bool :=
  (0 <=? port) && (port <? 32) && negb (Z.land (port_mask s) (Z.shiftl 1 port) =? 0).

(** ** A transfer *)

(** The command table and the command header in memory. *)
Definition put_command (port lba count buf : Z) (write : bool) (m : mem) : mem :=
  let ct := cmd_table + SIZEOF_CMD_TABLE * port in
  let m := memzero ct SIZEOF_CMD_TABLE m in
  let m := store8 m ct FIS_TYPE_REG_H2D in
  let m := store8 m (ct + 1) 0x80 in
  let m := store8 m (ct + 2) (if write then ATA_CMD_WRITE_DMA_EXT else ATA_CMD_READ_DMA_EXT) in
  let m := store8 m (ct + 7) (Z.shiftl 1 6) in
  let m := store8 m (ct + 4) lba in
  let m := store8 m (ct + 5) (Z.shiftr lba 8) in
  let m := store8 m (ct + 6) (Z.shiftr lba 16) in
  let m := store8 m (ct + 8) (Z.shiftr lba 24) in
  let m := store8 m (ct + 9) (Z.shiftr lba 32) in
  let m := store8 m (ct + 10) (Z.shiftr lba 40) in
  let m := store16 m (ct + 12) count in
  let m := store32 m (ct + OFF_PRDT) buf in
  let m := store32 m (ct + OFF_PRDT + 4) 0 in
  let m := store32 m (ct + OFF_PRDT + 12) (Z.land (u32 (count * 512 - 1)) 0x3FFFFF) in
  let hdr := cmd_list + 1024 * port in
  let m := memzero hdr SIZEOF_CMD_HEADER m in
  let m := store8 m hdr (Z.lor 5 (if write then Z.shiftl 1 6 else 0)) in
  let m := store16 m (hdr + 2) 1 in
  let m := store32 m (hdr + 8) ct in
  store32 m (hdr + 12) 0.

(** The wait for the command to finish. *)
Fixpoint command_loop (fuel : nat) (pb deadline : Z) (s : sata) : option (Z * sata) :=
  match fuel with
  | O => None
  | S fuel' =>
      let '(ci, s) := mmio32 (u32 (pb + PxCI)) s in
      if Z.land ci 1 =? 0 then Some (0, s) else
      let '(t, s) := pit_get_ticks s in
      if deadline <=? t then s ← klog (bytes_of "[AHCI] command timeout" ++ [13; 10]) s; Some (-1, s) else
      let '(tfd, s) := mmio32 (u32 (pb + PxTFD)) s in
      if negb (Z.land tfd PXTFD_ERR =? 0) then
        s ← klog (bytes_of "[AHCI] device error TFD=0x") s; s ← klog_hex tfd s; s ← klog [13; 10] s; Some (-1, s)
      else command_loop fuel' pb deadline s
  end.

Definition ahci_do_rw (port lba count buf : Z) (write : bool) (s : sata) : option (Z * sata) :=
  if negb (ahci_port_available port s) then Some (-1, s) else
  if (count =? 0) || (128 <? count) then Some (-1, s) else
  let pb := PORT_BASE (hba_base s) port in
  '(ready, s) ← wait_clear (u32 (pb + PxTFD)) (Z.lor TFD_BSY TFD_DRQ) 500 s;
  if negb ready then s ← klog (bytes_of "[AHCI] port busy timeout before command" ++ [13; 10]) s; Some (-1, s) else
  let s := set_dram (put_command port lba count buf write (dram s)) s in
  let s := mmio32_set (u32 (pb + PxIS)) ALL_ONES s in
  let s := mmio32_set (u32 (pb + PxCI)) 1 s in
  let '(t, s) := pit_get_ticks s in
  command_loop polls pb (u64 (t + 500)) s.

Definition ahci_read_sectors (port lba count buf : Z) (s : sata) : option (Z * sata) := ahci_do_rw port lba count buf false s.
Definition ahci_write_sectors (port lba count buf : Z) (s : sata) : option (Z * sata) := ahci_do_rw port lba count buf true s.

(** ** The test of the first sector, with its static buffer at [sector_buf] *)

Definition show_byte (sector_buf i : Z) (s : sata) : option sata :=
  let b := load8 (dram s) (sector_buf + i) in
  klog [hex_digit (Z.shiftr b 4); hex_digit (Z.land b 0xF); 32] s.

Fixpoint show_bytes (n : nat) (sector_buf i : Z) (s : sata) : option sata :=
  match n with
  | O => Some s
  | S n' => s ← show_byte sector_buf i s; show_bytes n' sector_buf (i + 1) s
  end.

Definition ahci_sector0_test (sector_buf port : Z) (s : sata) : option sata :=
  s ← klog (bytes_of "[AHCI] Reading sector 0 from port ") s; s ← klog_dec port s; s ← klog (bytes_of "..." ++ [13; 10]) s;
  '(r, s) ← ahci_read_sectors port 0 1 sector_buf s;
  if negb (r =? 0) then klog (bytes_of "[AHCI] Sector-0 read FAILED" ++ [13; 10]) (say (bytes_of "[AHCI] Sector-0 read FAILED" ++ [10]) VGA_COLOR_LIGHT_RED s)
  else
    s ← klog (bytes_of "[AHCI] Sector 0 bytes 0-15:" ++ [13; 10; 32; 32]) s;
    s ← show_bytes 16 sector_buf 0 s; s ← klog [13; 10] s;
    if (load8 (dram s) (sector_buf + 510) =? 0x55) && (load8 (dram s) (sector_buf + 511) =? 0xAA) then
      klog (bytes_of "[AHCI] MBR 0x55AA OK" ++ [13; 10]) (say (bytes_of "  [ OK ] AHCI sector-0: MBR signature 0x55AA found" ++ [10]) VGA_COLOR_LIGHT_GREEN s)
    else
      klog (bytes_of "[AHCI] no MBR signature" ++ [13; 10]) (say (bytes_of "  [WARN] AHCI sector-0: no MBR signature" ++ [10]) VGA_COLOR_BROWN s).
End Ahci.
Arguments sata W : clear implicits.

(** * Specification *)

(** ** The command as the controller reads it *)

Record command := mk_command { c_write : bool; c_lba : Z; c_count : Z; c_buf : Z }.

(** The address in a header must be on a boundary of 128 bytes: its low bits
    are not looked at. *)
Definition table_of (m : mem) (hdr : Z) : Z := load32 m (hdr + 8) / 128 * 128 + 2 ^ 32 * load32 m (hdr + 12).
Definition fis_lba (m : mem) (ct : Z) : Z := m (ct + 4) + 2 ^ 8 * m (ct + 5) + 2 ^ 16 * m (ct + 6) + 2 ^ 24 * m (ct + 8) + 2 ^ 32 * m (ct + 9) + 2 ^ 40 * m (ct + 10).
Definition prdt_bytes (m : mem) (ct : Z) : Z := load32 m (ct + 0x80 + 12) mod 2 ^ 22 + 1.

Definition read_command (m : mem) (hdr : Z) : option command :=
  let ct := table_of m hdr in
  let write := Z.testbit (m hdr) 6 in
  let count := load16 m (ct + 12) in
  if (m hdr mod 32 =? 5) && (load16 m (hdr + 2) =? 1) && (m ct =? 0x27) && Z.testbit (m (ct + 1)) 7 && (m (ct + 2) =? if write then 0x35 else 0x25)
     && Z.testbit (m (ct + 7)) 6 && (prdt_bytes m ct =? 512 * count)
  then Some (mk_command write (fis_lba m ct) count (load32 m (ct + 0x80) + 2 ^ 32 * load32 m (ct + 0x80 + 4))) else None.

(** The six bytes of a sector number. *)
Lemma lba_bytes x : 0 <= x < 2 ^ 48 ->
  x mod 256 + 2 ^ 8 * ((x / 2 ^ 8) mod 256) + 2 ^ 16 * ((x / 2 ^ 16) mod 256) + 2 ^ 24 * ((x / 2 ^ 24) mod 256) + 2 ^ 32 * ((x / 2 ^ 32) mod 256) + 2 ^ 40 * ((x / 2 ^ 40) mod 256) = x.
Proof.
  intros Hx. assert (forall k, 0 <= k -> x / 2 ^ k = (x / 2 ^ k) mod 256 + 256 * (x / 2 ^ (k + 8))) as S.
  { intros k Hk. rewrite Z.pow_add_r, <- Z.div_div by lia. generalize (x / 2 ^ k). intros y. change (2 ^ 8) with 256. dlia. }
  pose proof (S 0 ltac:(lia)) as S0. pose proof (S 8 ltac:(lia)) as S1. pose proof (S 16 ltac:(lia)) as S2. pose proof (S 24 ltac:(lia)) as S3. pose proof (S 32 ltac:(lia)) as S4. pose proof (S 40 ltac:(lia)) as S5.
  rewrite Z.div_1_r in S0. cbn [Z.add Pos.add] in *. change (0 + 8) with 8 in S0. rewrite (Z.div_small x (2 ^ (40 + 8))) in S5 by (change (40 + 8) with 48; lia).
  change (8 + 8) with 16 in S1. change (16 + 8) with 24 in S2. change (24 + 8) with 32 in S3. change (32 + 8) with 40 in S4.
  generalize dependent (x / 2 ^ 8). generalize dependent (x / 2 ^ 16). generalize dependent (x / 2 ^ 24). generalize dependent (x / 2 ^ 32). generalize dependent (x / 2 ^ 40). intros. lia.
Qed.

(** ** What the driver puts into memory *)

Lemma memzero_outside d n m x : 0 <= n -> x < d \/ d + n <= x -> memzero d n m x = m x.
Proof. intros Hn Hx. unfold memzero. rewrite set_up_spec. by repeat zcase; try lia. Qed.

Section Put.
Variables (cmd_list cmd_table port lba count buf : Z) (write : bool).
Hypothesis Hlba : 0 <= lba < 2 ^ 48.
Hypothesis Hcount : 0 < count <= 128.
Hypothesis Hbuf : 0 <= buf < 2 ^ 32.
Let ct : Z := cmd_table + SIZEOF_CMD_TABLE * port.
Let hdr : Z := cmd_list + 1024 * port.
Hypothesis Hct : 0 <= ct < 2 ^ 32.
Hypothesis Halign : ct mod 128 = 0.
Hypothesis Hapart : apart hdr SIZEOF_CMD_HEADER ct SIZEOF_CMD_TABLE.

(** The table, and then the header. *)
Definition put_table (m : mem) : mem :=
  let m := memzero ct SIZEOF_CMD_TABLE m in
  let m := store8 (store8 (store8 m ct FIS_TYPE_REG_H2D) (ct + 1) 0x80) (ct + 2) (if write then ATA_CMD_WRITE_DMA_EXT else ATA_CMD_READ_DMA_EXT) in
  let m := store8 (store8 (store8 (store8 m (ct + 7) (Z.shiftl 1 6)) (ct + 4) lba) (ct + 5) (Z.shiftr lba 8)) (ct + 6) (Z.shiftr lba 16) in
  let m := store8 (store8 (store8 m (ct + 8) (Z.shiftr lba 24)) (ct + 9) (Z.shiftr lba 32)) (ct + 10) (Z.shiftr lba 40) in
  let m := store32 (store32 (store16 m (ct + 12) count) (ct + OFF_PRDT) buf) (ct + OFF_PRDT + 4) 0 in
  store32 m (ct + OFF_PRDT + 12) (Z.land (u32 (count * 512 - 1)) 0x3FFFFF).

Definition put_header (m : mem) : mem :=
  let m := store8 (memzero hdr SIZEOF_CMD_HEADER m) hdr (Z.lor 5 (if write then Z.shiftl 1 6 else 0)) in
  store32 (store32 (store16 m (hdr + 2) 1) (hdr + 8) ct) (hdr + 12) 0.

Lemma put_command_parts m : put_command cmd_list cmd_table port lba count buf write m = put_header (put_table m).
Proof. done. Qed.

Lemma put_table_outside m x : x < ct \/ ct + SIZEOF_CMD_TABLE <= x -> put_table m x = m x.
Proof.
  unfold SIZEOF_CMD_TABLE. intros Hx. unfold put_table, store8, store16, store32, OFF_PRDT. rewrite !store_le_outside by lia. apply memzero_outside; unfold SIZEOF_CMD_TABLE; lia.
Qed.

Lemma put_header_outside m x : x < hdr \/ hdr + SIZEOF_CMD_HEADER <= x -> put_header m x = m x.
Proof.
  unfold SIZEOF_CMD_HEADER. intros Hx. unfold put_header, store8, store16, store32. rewrite !store_le_outside by lia. apply memzero_outside; unfold SIZEOF_CMD_HEADER; lia.
Qed.

Lemma put_table_fields m : let m' := put_table m in
  m' ct = 0x27 /\ m' (ct + 1) = 0x80 /\ m' (ct + 2) = (if write then 0x35 else 0x25) /\ m' (ct + 7) = 0x40 /\ load16 m' (ct + 12) = count /\
  load32 m' (ct + 0x80) = buf /\ load32 m' (ct + 0x80 + 4) = 0 /\ load32 m' (ct + 0x80 + 12) = count * 512 - 1.
Proof.
  cbv zeta. unfold put_table, OFF_PRDT. generalize (memzero ct SIZEOF_CMD_TABLE m). intros m0.
  change 0x3FFFFF with (2 ^ 22 - 1). rewrite (u32_small (count * 512 - 1)), land_ones_mod, (Z.mod_small _ (2 ^ 22)) by lia.
  do 2 (split; [rewrite load8_le; mem_simpl; reflexivity|]). split; [rewrite load8_le; mem_simpl; by destruct write|]. split; [rewrite load8_le; mem_simpl; reflexivity|].
  split; [mem_simpl; apply u16_small; lia|]. split; [mem_simpl; apply u32_small; lia|]. split; [mem_simpl; reflexivity | mem_simpl; apply u32_small; lia].
Qed.

Lemma put_table_lba m : fis_lba (put_table m) ct = lba.
Proof.
  unfold fis_lba, put_table, OFF_PRDT. generalize (memzero ct SIZEOF_CMD_TABLE m). intros m0.
  match goal with |- context [store32 ?u (ct + 128 + 12) ?x] => set (mt := store32 u (ct + 128 + 12) x) end.
  assert (mt (ct + 4) = u8 lba) as -> by (unfold mt; rewrite load8_le; mem_simpl; reflexivity).
  assert (mt (ct + 5) = u8 (Z.shiftr lba 8)) as -> by (unfold mt; rewrite load8_le; mem_simpl; reflexivity).
  assert (mt (ct + 6) = u8 (Z.shiftr lba 16)) as -> by (unfold mt; rewrite load8_le; mem_simpl; reflexivity).
  assert (mt (ct + 8) = u8 (Z.shiftr lba 24)) as -> by (unfold mt; rewrite load8_le; mem_simpl; reflexivity).
  assert (mt (ct + 9) = u8 (Z.shiftr lba 32)) as -> by (unfold mt; rewrite load8_le; mem_simpl; reflexivity).
  assert (mt (ct + 10) = u8 (Z.shiftr lba 40)) as -> by (unfold mt; rewrite load8_le; mem_simpl; reflexivity).
  unfold u8. rewrite !Z.shiftr_div_pow2 by lia. by apply lba_bytes.
Qed.

Lemma put_header_fields m : let m' := put_header m in
  m' hdr = (if write then 69 else 5) /\ load16 m' (hdr + 2) = 1 /\ load32 m' (hdr + 8) = ct /\ load32 m' (hdr + 12) = 0.
Proof.
  cbv zeta. unfold put_header. generalize (memzero hdr SIZEOF_CMD_HEADER m). intros m0.
  split; [rewrite load8_le; mem_simpl; by destruct write|]. split; [mem_simpl; reflexivity|]. split; [mem_simpl; apply u32_small; lia | mem_simpl; reflexivity].
Qed.

(** The controller reads back exactly the command meant. *)
Lemma put_command_decodes m : read_command (put_command cmd_list cmd_table port lba count buf write m) hdr = Some (mk_command write lba count buf).
Proof.
  rewrite put_command_parts. destruct (put_header_fields (put_table m)) as (H1 & H2 & H3 & H4). destruct (put_table_fields m) as (T1 & T2 & T3 & T4 & T5 & T6 & T7 & T8).
  pose proof (put_table_lba m) as T9. set (mt := put_table m) in *. set (m' := put_header mt) in *.
  assert (forall x, ct <= x < ct + SIZEOF_CMD_TABLE -> m' x = mt x) as Hx.
  { intros x Hx. apply put_header_outside. unfold apart in Hapart. lia. }
  unfold SIZEOF_CMD_TABLE in Hx.
  assert (table_of m' hdr = ct) as Et by (unfold table_of; rewrite H3, H4; dlia).
  unfold read_command. rewrite Et. unfold prdt_bytes, fis_lba, load16, load32 in *. rewrite H1, H2.
  rewrite (load_le_agree 2 m' mt), !(load_le_agree 4 m' mt (ct + 128)), (load_le_agree 4 m' mt (ct + 128 + 4)), (load_le_agree 4 m' mt (ct + 128 + 12)) by (intros ? ?; apply Hx; lia).
  rewrite !Hx by lia. rewrite T1, T2, T3, T4, T5, T6, T7, T8, T9. rewrite (Z.mod_small (count * 512 - 1)) by lia.
  assert ((count * 512 - 1 + 1 =? 512 * count) = true) as -> by (apply Z.eqb_eq; lia).
  destruct write; cbn -[Z.mul Z.add Z.pow]; by rewrite Z.mul_0_r, Z.add_0_r.
Qed.
End Put.

(** ** The controller *)

(** A register of port [p] of the controller at [base]. *)
Definition port_reg (base p off : Z) : Z := base + 0x100 + 0x80 * p + off.
(** The controller's own area of a port: the command list and the received
    frames. *)
Definition owned (clb fb x : Z) : Prop := clb <= x < clb + 1024 \/ fb <= x < fb + 256.
Definition in_buffer (c : command) (x : Z) : Prop := c_buf c <= x < c_buf c + SECTOR * c_count c.

(** What a port that is not busy is like: its disk and its two addresses. *)
Record port_state := mk_ps { ps_disk : mem; ps_capacity : Z; ps_clb : Z; ps_fb : Z }.

(** A transfer leaves this in memory and on the disk. *)
Record transferred (c : command) (st st' : port_state) (m m' : mem) : Prop := {
  tr_capacity : ps_capacity st' = ps_capacity st; tr_clb : ps_clb st' = ps_clb st; tr_fb : ps_fb st' = ps_fb st;
  tr_read : c_write c = false -> (forall i, 0 <= i < SECTOR * c_count c -> m' (c_buf c + i) = ps_disk st (SECTOR * c_lba c + i)) /\ forall x, ps_disk st' x = ps_disk st x;
  tr_write : c_write c = true -> forall x, ps_disk st' x = overlay (ps_disk st) (SECTOR * c_lba c) (SECTOR * c_count c) (fun i => m (c_buf c + i)) x;
  tr_rest x : ~ owned (ps_clb st) (ps_fb st) x -> (c_write c = false -> ~ in_buffer c x) -> m' x = m x;
}.

(** While it is under way only the area and the buffer of a read may change. *)
Definition untouched (c : command) (st : port_state) (m m' : mem) : Prop :=
  forall x, ~ owned (ps_clb st) (ps_fb st) x -> (c_write c = false -> ~ in_buffer c x) -> m' x = m x.

(** A controller that keeps to its specification, and a disk that is fast
    enough: [hba_ready] is a port that is started, with a device and no command;
    [hba_busy] a port with a command issued at a time, from a memory, that will
    be reported for so many more readings. *)
Class Hba (W : Type) `{HbaRegs W} (base : Z) (bound : nat) := {
  hba_ready : Z -> port_state -> W -> Prop;
  hba_busy : Z -> command -> port_state -> mem -> Z -> nat -> mem * W -> Prop;
  hba_tfd p st m w : hba_ready p st w -> exists x w', hba_read (port_reg base p PxTFD) (m, w) = (x, (m, w')) /\ Z.land x 0x88 = 0 /\ hba_ready p st w';
  hba_tick p st m w : hba_ready p st w -> exists t w', tick_read (m, w) = (t, (m, w')) /\ hba_ready p st w';
  hba_is p st m w : hba_ready p st w -> exists w', hba_write (port_reg base p PxIS) ALL_ONES (m, w) = (m, w') /\ hba_ready p st w';
  hba_issue p st m w c : hba_ready p st w -> read_command m (ps_clb st) = Some c -> 0 < c_count c -> c_lba c + c_count c <= ps_capacity st ->
    exists mw n t, hba_write (port_reg base p PxCI) 1 (m, w) = mw /\ hba_busy p c st m t n mw /\ (n < bound)%nat /\ 0 <= t /\ t + 1000 < 2 ^ 64;
  hba_busy_memory p c st m t n m1 w1 : hba_busy p c st m t n (m1, w1) -> untouched c st m m1;
  hba_busy_tick p c st m t n mw : hba_busy p c st m t n mw -> exists t' mw', tick_read mw = (t', mw') /\ t <= t' < t + 500 /\ hba_busy p c st m t n mw';
  hba_busy_tfd p c st m t n mw : hba_busy p c st m t n mw -> exists x mw', hba_read (port_reg base p PxTFD) mw = (x, mw') /\ Z.land x 1 = 0 /\ hba_busy p c st m t n mw';
  hba_busy_ci p c st m t n mw : hba_busy p c st m t (S n) mw -> exists x mw', hba_read (port_reg base p PxCI) mw = (x, mw') /\ Z.land x 1 <> 0 /\ hba_busy p c st m t n mw';
  hba_done p c st m t mw : hba_busy p c st m t 0 mw ->
    exists x m' w' st', hba_read (port_reg base p PxCI) mw = (x, (m', w')) /\ Z.land x 1 = 0 /\ hba_ready p st' w' /\ transferred c st st' m m';
}.

Section Transfer.
Context {W : Type} {base : Z} {bound : nat} `{Ports W} `{HbaRegs W} `{!Hba W base bound}.
Variables (polls : nat) (cmd_list fis_buf cmd_table port : Z).
Hypothesis Hpolls : (bound < polls)%nat.
Hypothesis Hbase : 0 <= base /\ base + 0x1100 <= 2 ^ 32.
Hypothesis Hport : 0 <= port < 32.

Lemma reg_addr off : 0 <= off < 0x80 -> u32 (PORT_BASE base port + off) = port_reg base port off.
Proof. intros Ho. unfold PORT_BASE, port_reg. rewrite (u32_small (base + 0x100)), (u32_small (port * 0x80)), (u32_small (base + 0x100 + port * 0x80)), u32_small by lia. lia. Qed.

Lemma reg_ci : u32 (PORT_BASE base port + PxCI) = port_reg base port PxCI.
Proof. apply reg_addr. unfold PxCI. lia. Qed.
Lemma reg_tfd : u32 (PORT_BASE base port + PxTFD) = port_reg base port PxTFD.
Proof. apply reg_addr. unfold PxTFD. lia. Qed.
Lemma reg_is : u32 (PORT_BASE base port + PxIS) = port_reg base port PxIS.
Proof. apply reg_addr. unfold PxIS. lia. Qed.

(** The rest of the driver's state does not change during a transfer. *)
Definition same_driver (s s' : sata W) : Prop :=
  hba_base s' = hba_base s /\ port_mask s' = port_mask s /\ scr s' = set_ports (ports (scr s')) (scr s).

Lemma same_driver_put mw s : same_driver s (put_world mw s).
Proof. by split; [|split]. Qed.
Lemma same_driver_trans s1 s2 s3 : same_driver s1 s2 -> same_driver s2 s3 -> same_driver s1 s3.
Proof. intros (A1 & A2 & A3) (B1 & B2 & B3). split; [congruence|]. split; [congruence|]. rewrite B3, A3. by destruct (scr s1). Qed.

Lemma world_put mw (s : sata W) : world (put_world mw s) = mw.
Proof. by destruct mw. Qed.

Lemma command_loop_ok c st m t n fuel deadline s : hba_base s = base -> (n < fuel)%nat -> t + 500 <= deadline -> hba_busy port c st m t n (world s) ->
  exists s' st', command_loop polls fuel (PORT_BASE base port) deadline s = Some (0, s') /\ same_driver s s' /\ hba_ready port st' (world s').2 /\ transferred c st st' m (dram s').
Proof.
  revert n s. induction fuel as [|fuel IH]; intros n s Hb Hn Hd Hbusy; [lia|]. cbn [command_loop]. unfold mmio32 at 1. rewrite reg_ci. destruct n as [|n].
  - destruct (hba_done _ _ _ _ _ _ Hbusy) as (x & m' & w' & st' & -> & Hx & Hr & Ht). rewrite Hx. change (0 =? 0) with true. cbn match.
    eexists _, st'. split; [reflexivity|]. split; [apply same_driver_put|]. split; [exact Hr | exact Ht].
  - destruct (hba_busy_ci _ _ _ _ _ _ _ Hbusy) as (x & mw1 & -> & Hx & B1). destruct (Z.eqb_spec (Z.land x 1) 0); [done|].
    unfold pit_get_ticks. rewrite world_put. destruct (hba_busy_tick _ _ _ _ _ _ _ B1) as (t' & mw2 & -> & Ht' & B2). destruct (Z.leb_spec deadline t'); [lia|].
    unfold mmio32. rewrite world_put, reg_tfd. destruct (hba_busy_tfd _ _ _ _ _ _ _ B2) as (y & mw3 & -> & Hy & B3).
    change PXTFD_ERR with 1. rewrite Hy. change (negb (0 =? 0)) with false. cbn match.
    destruct (IH n (put_world mw3 (put_world mw2 (put_world mw1 s))) Hb ltac:(lia) Hd) as (s' & st' & E & S & R & T); [by rewrite world_put|].
    exists s', st'. split; [exact E|]. split; [|by split]. refine (same_driver_trans _ _ _ _ S). refine (same_driver_trans _ _ _ (same_driver_trans _ _ _ (same_driver_put mw1 s) (same_driver_put mw2 _)) (same_driver_put mw3 _)).
Qed.

(** The port is available to the driver, and the controller has the addresses
    the driver gave it; the driver's structures are apart. *)
Record port_up (st : port_state) (s : sata W) : Prop := {
  pu_base : hba_base s = base;
  pu_available : ahci_port_available port s = true;
  pu_ready : hba_ready port st (world s).2;
  pu_clb : ps_clb st = cmd_list + 1024 * port;
  pu_capacity : ps_capacity st <= 2 ^ 48;
  pu_table : 0 <= cmd_table + SIZEOF_CMD_TABLE * port < 2 ^ 32;
  pu_apart : apart (ps_clb st) 1024 (cmd_table + SIZEOF_CMD_TABLE * port) SIZEOF_CMD_TABLE;
}.

(** A buffer of [n] bytes the controller can reach, apart from them. *)
Record buffer_ok (st : port_state) (buf n : Z) : Prop := {
  bo_range : 0 <= buf < 2 ^ 32;
  bo_table : apart buf n (cmd_table + SIZEOF_CMD_TABLE * port) SIZEOF_CMD_TABLE;
  bo_list : apart buf n (ps_clb st) 1024;
}.

(** Memory but for the command table, the controller's own area and, after a
    read, the buffer. *)
Definition rest_kept (st : port_state) (write : bool) (buf n : Z) (s s' : sata W) : Prop :=
  forall x, ~ owned (ps_clb st) (ps_fb st) x -> ~ (cmd_table + SIZEOF_CMD_TABLE * port <= x < cmd_table + SIZEOF_CMD_TABLE * port + SIZEOF_CMD_TABLE) ->
    (write = false -> ~ (buf <= x < buf + n)) -> dram s' x = dram s x.

Lemma wait_clear_ready st s ms : hba_base s = base -> hba_ready port st (world s).2 ->
  exists w', wait_clear polls (port_reg base port PxTFD) (Z.lor TFD_BSY TFD_DRQ) ms s = Some (true, put_world (dram s, w') s) /\ hba_ready port st w'.
Proof.
  intros Hb Hr. unfold wait_clear, pit_get_ticks. change (world s) with (dram s, (world s).2). destruct (hba_tick _ _ (dram s) _ Hr) as (t & w1 & -> & R1).
  destruct polls as [|k]; [lia|]. cbn [wait_clear_loop]. unfold mmio32. rewrite world_put. destruct (hba_tfd _ _ (dram s) _ R1) as (x & w2 & -> & Hx & R2).
  change (Z.lor TFD_BSY TFD_DRQ) with 0x88. rewrite Hx. change (0 =? 0) with true. cbn match. exists w2. split; [|done]. by destruct s as [? ? ? []].
Qed.

Lemma do_rw_refuses lba count buf (write : bool) (s : sata W) :
  ahci_port_available port s = false \/ count = 0 \/ 128 < count -> ahci_do_rw polls cmd_list cmd_table port lba count buf write s = Some (-1, s).
Proof.
  clear Hpolls Hbase Hport. intros He. unfold ahci_do_rw. destruct (ahci_port_available port s); cbn [negb]; [|done].
  destruct (Z.eqb_spec count 0), (Z.ltb_spec 128 count); cbn [orb]; try done. destruct He as [?|[?|?]]; done || lia.
Qed.

(** One transfer, where the command table is aligned as the controller asks. *)
Lemma do_rw_ok st lba count buf (write : bool) (s : sata W) : (cmd_table + SIZEOF_CMD_TABLE * port) mod 128 = 0 ->
  port_up st s -> buffer_ok st buf (SECTOR * count) -> 0 <= lba -> 0 < count <= 128 -> lba + count <= ps_capacity st ->
  exists s' st', ahci_do_rw polls cmd_list cmd_table port lba count buf write s = Some (0, s') /\ port_up st' s' /\ same_driver s s' /\
    ps_capacity st' = ps_capacity st /\
    (forall x, ps_disk st' x = if write then overlay (ps_disk st) (SECTOR * lba) (SECTOR * count) (fun i => dram s (buf + i)) x else ps_disk st x) /\
    (write = false -> forall i, 0 <= i < SECTOR * count -> dram s' (buf + i) = ps_disk st (SECTOR * lba + i)) /\
    rest_kept st write buf (SECTOR * count) s s'.
Proof.
  intros Al [Bs Av Rd Clb Cap Tb Ap] [Bf Bt Bl] Hl Hc Hcap. unfold rest_kept, apart, SIZEOF_CMD_TABLE, SECTOR in *.
  assert (apart (cmd_list + 1024 * port) SIZEOF_CMD_HEADER (cmd_table + SIZEOF_CMD_TABLE * port) SIZEOF_CMD_TABLE) as Ah by (unfold apart, SIZEOF_CMD_HEADER, SIZEOF_CMD_TABLE; lia).
  unfold ahci_do_rw. rewrite Av, Bs. cbn [negb]. destruct (Z.eqb_spec count 0), (Z.ltb_spec 128 count); try lia. cbn [orb]. rewrite reg_tfd, reg_is, reg_ci.
  destruct (wait_clear_ready st s 500 Bs Rd) as (w1 & -> & R1). cbn [mbind option_bind negb].
  set (m := put_command cmd_list cmd_table port lba count buf write (dram s)). set (s1 := set_dram m (put_world (dram s, w1) s)). change (set_dram _ (put_world (dram s, w1) s)) with s1.
  assert (world s1 = (m, w1)) as E1 by done. unfold mmio32_set. rewrite E1. destruct (hba_is _ _ m _ R1) as (w2 & -> & R2). rewrite world_put.
  assert (read_command m (ps_clb st) = Some (mk_command write lba count buf)) as Ec.
  { rewrite Clb. apply put_command_decodes; try done; lia. }
  destruct (hba_issue _ _ m _ _ R2 Ec) as (mw & k & t & -> & B & Hk & Ht0 & Ht); [cbn; lia | cbn; lia|].
  unfold pit_get_ticks. rewrite world_put. destruct (hba_busy_tick _ _ _ _ _ _ _ B) as (t' & mw' & -> & Ht' & B2). rewrite u64_small by lia.
  set (s2 := put_world mw' _). destruct (command_loop_ok _ st m t k polls (t' + 500) s2 Bs ltac:(lia) ltac:(lia) ltac:(unfold s2; rewrite world_put; exact B2)) as (s' & st' & E & S & R & T).
  assert (same_driver s s') as Sd by (refine (same_driver_trans _ _ _ _ S); by split; [|split]).
  destruct T as [T1 T2 T3 T4 T5 T6]. cbn [c_write c_lba c_count c_buf] in *. unfold in_buffer, SECTOR in *. cbn [c_buf c_count] in T6.
  exists s', st'. split; [exact E|]. split.
  { destruct Sd as (D1 & D2 & _). split; [congruence | by unfold ahci_port_available in *; rewrite D2 | exact R | congruence | congruence | done | by rewrite T2]. }
  split; [exact Sd|].
  pose proof (put_table_outside cmd_list cmd_table port lba count buf write (dram s)) as Ot. pose proof (put_header_outside cmd_list cmd_table port write) as Oh.
  assert (forall x, ~ (ps_clb st <= x < ps_clb st + 1024) -> ~ (cmd_table + 144 * port <= x < cmd_table + 144 * port + 144) -> m x = dram s x) as Om.
  { intros x Hx1 Hx2. unfold m. rewrite put_command_parts. unfold SIZEOF_CMD_TABLE, SIZEOF_CMD_HEADER in *. rewrite Oh by lia. apply Ot. lia. }
  split; [exact T1|]. split; [|split].
  + intros x. destruct write; [|by apply T4]. rewrite T5 by done. unfold overlay. destruct (Z.leb_spec (512 * lba) x), (Z.ltb_spec x (512 * lba + 512 * count)); cbn [andb]; try done. apply Om; lia.
  + intros Hw. by apply T4.
  + intros x Hx1 Hx2 Hx3. rewrite T6 by done. apply Om; [unfold owned in Hx1; lia | done].
Qed.
End Transfer.

(** ** The disk under the file system *)

Section Device.
Context {W : Type} {base : Z} {bound : nat} `{Ports W} `{HbaRegs W} `{!Hba W base bound}.
Variables (polls : nat) (cmd_list cmd_table : Z).
Hypothesis Hpolls : (bound < polls)%nat.
Hypothesis Hbase : 0 <= base /\ base + 0x1100 <= 2 ^ 32.

(** The disk of a port as the block device the file system is verified on. *)
Definition disk_of (st : port_state) : ramdisk := mk_ramdisk (ps_disk st) (ps_capacity st).

(** C34: The two entry points of the driver implement the block device under
    the file system, on port 0: when the port is up and the device would read
    or write the sectors (1 to 128 of them, within the capacity), so does the
    driver.  It returns success; a read leaves the device's bytes in the
    buffer and the disk as it was, a write leaves the disk of the device,
    written with the buffer's bytes; nothing else of memory changes but the
    driver's command table and the controller's own area, and the port is up
    for the next transfer.  On any port, one that is not available, no sectors,
    or more than 128 are refused with nothing touched.  Of the other ports
    nothing more is said: the elements of the array of command tables have 144
    bytes, so only that of port 0 is aligned to 128 as the controller demands. *)
Theorem ahci_transfer_correct st lba count buf (s : sata W) : cmd_table mod 128 = 0 ->
  (forall port, ahci_port_available port s = false \/ count = 0 \/ 128 < count ->
    ahci_read_sectors polls cmd_list cmd_table port lba count buf s = Some (-1, s) /\ ahci_write_sectors polls cmd_list cmd_table port lba count buf s = Some (-1, s)) /\
  (port_up (base := base) (bound := bound) cmd_list cmd_table 0 st s -> buffer_ok cmd_table 0 st buf (SECTOR * count) ->
    (forall bytes, bd_read 0 lba count (disk_of st) = Some bytes ->
      exists s' st', ahci_read_sectors polls cmd_list cmd_table 0 lba count buf s = Some (0, s') /\ port_up (base := base) (bound := bound) cmd_list cmd_table 0 st' s' /\ same_driver s s' /\
        (forall i, 0 <= i < SECTOR * count -> dram s' (buf + i) = bytes i) /\
        ps_capacity st' = ps_capacity st /\ (forall x, ps_disk st' x = ps_disk st x) /\ rest_kept cmd_table 0 st false buf (SECTOR * count) s s') /\
    (forall d', bd_write 0 lba count (fun i => dram s (buf + i)) (disk_of st) = Some d' ->
      exists s' st', ahci_write_sectors polls cmd_list cmd_table 0 lba count buf s = Some (0, s') /\ port_up (base := base) (bound := bound) cmd_list cmd_table 0 st' s' /\ same_driver s s' /\
        ps_capacity st' = rd_sectors d' /\ (forall x, ps_disk st' x = rd_bytes d' x) /\ rest_kept cmd_table 0 st true buf (SECTOR * count) s s')).
Proof.
  intros Hal. split; [intros port He; by split; apply do_rw_refuses|]. intros Up Bo.
  assert ((cmd_table + SIZEOF_CMD_TABLE * 0) mod 128 = 0) as Al by (by rewrite Z.mul_0_r, Z.add_0_r).
  pose proof (fun write => do_rw_ok (base := base) (bound := bound) polls cmd_list cmd_table 0 Hpolls Hbase ltac:(lia) st lba count buf write s Al Up Bo) as Rw.
  unfold ahci_read_sectors, ahci_write_sectors. cbn [bd_read bd_write ramdisk_dev]. split.
  - intros bytes. destruct (rd_in_range _ _ _) eqn:Hr; [|done]. intros [= <-]. unfold rd_in_range in Hr. cbn [rd_sectors disk_of] in Hr. b2p.
    destruct (Rw false) as (s' & st' & E & U & D & C & K & B & R); [lia..|].
    exists s', st'. split; [by rewrite E|]. split; [exact U|]. split; [exact D|]. split; [|by split].
    intros i Hi. rewrite (B eq_refl i Hi). cbn [rd_bytes disk_of]. f_equal. lia.
  - intros d'. destruct (rd_in_range _ _ _) eqn:Hr; [|done]. intros [= <-]. unfold rd_in_range in Hr. cbn [rd_sectors disk_of] in Hr. b2p.
    destruct (Rw true) as (s' & st' & E & U & D & C & K & _ & R); [lia..|].
    exists s', st'. split; [by rewrite E|]. split; [exact U|]. split; [exact D|]. split; [exact C|]. split; [|exact R].
    intros x. rewrite K. cbn [rd_bytes disk_of]. by rewrite (Z.mul_comm SECTOR lba), (Z.mul_comm SECTOR count).
Qed.
End Device.

(** ** A controller *)

(** One disk; a command is reported for three readings and done at the last. *)
Record disk_dev := mk_dd { dd_state : port_state; dd_cmd : option (command * nat) }.
Definition dd_base : Z := 0xFEBB0000.
Definition dd_off (a : Z) : Z := (a - dd_base - 0x100) mod 0x80.
Definition with_disk (d : mem) (st : port_state) : port_state := mk_ps d (ps_capacity st) (ps_clb st) (ps_fb st).

#[export] Instance dd_ports : Ports disk_dev := { outb _ _ d := d; outw _ _ d := d; outl _ _ d := d; inb _ d := (0, d); inl _ d := (0, d) }.
#[export] Instance dd_regs : HbaRegs disk_dev := {
  hba_read a mw :=
    let '(m, w) := mw in let st := dd_state w in
    if dd_off a =? PxCI then
      match dd_cmd w with
      | Some (c, S n) => (1, (m, mk_dd st (Some (c, n))))
      | Some (c, O) =>
          if c_write c then (0, (m, mk_dd (with_disk (overlay (ps_disk st) (SECTOR * c_lba c) (SECTOR * c_count c) (fun i => m (c_buf c + i))) st) None))
          else (0, (overlay m (c_buf c) (SECTOR * c_count c) (fun i => ps_disk st (SECTOR * c_lba c + i)), mk_dd st None))
      | None => (0, mw)
      end
    else (if dd_off a =? PxTFD then 0x50 else 0, mw);
  hba_write a x mw :=
    let '(m, w) := mw in
    if (dd_off a =? PxCI) && (x =? 1) then
      match read_command m (ps_clb (dd_state w)) with
      | Some c => (m, mk_dd (dd_state w) (Some (c, 2%nat)))
      | None => mw
      end
    else mw;
  tick_read mw := (7, mw);
}.

Lemma dd_off_reg p off : 0 <= off < 0x80 -> dd_off (port_reg dd_base p off) = off.
Proof. intros Ho. unfold dd_off, port_reg. dlia. Qed.

#[export] Instance dd_hba : Hba disk_dev dd_base 3.
Proof.
  refine {| hba_ready := fun p st w => w = mk_dd st None; hba_busy := fun p c st m t n mw => mw = (m, mk_dd st (Some (c, n))) /\ t = 7 |}.
  - intros p st m w ->. eexists _, _. cbn [hba_read dd_regs]. rewrite dd_off_reg by (unfold PxTFD; lia). split; [reflexivity | by split].
  - intros p st m w ->. by eexists _, _.
  - intros p st m w ->. eexists. cbn [hba_write dd_regs]. rewrite dd_off_reg by (unfold PxIS; lia). by split.
  - intros p st m w c -> Hc _ _. eexists _, 2%nat, 7. cbn [hba_write dd_regs]. rewrite dd_off_reg by (unfold PxCI; lia). cbn [dd_state]. rewrite Hc. cbn. split; [reflexivity|]. split; [done|]. lia.
  - intros p c st m t n m1 w1 [E _] x _ _. by injection E as -> _.
  - intros p c st m t n mw [-> ->]. eexists _, _. split; [reflexivity|]. split; [lia | done].
  - intros p c st m t n mw [-> ->]. eexists _, _. cbn [hba_read dd_regs]. rewrite dd_off_reg by (unfold PxTFD; lia). split; [reflexivity | by split].
  - intros p c st m t n mw [-> ->]. eexists _, _. cbn [hba_read dd_regs]. rewrite dd_off_reg by (unfold PxCI; lia). split; [reflexivity | by split].
  - intros p c st m t mw [-> ->]. cbn [hba_read dd_regs]. rewrite dd_off_reg by (unfold PxCI; lia). rewrite Z.eqb_refl. cbn [dd_cmd dd_state].
    destruct (c_write c) eqn:Ew; eexists _, _, _, _; (split; [reflexivity|]; split; [reflexivity|]; split; [reflexivity|]); split; try done.
    + by rewrite Ew.
    + intros _. split; [|done]. intros i Hi. rewrite overlay_inside by lia. f_equal. lia.
    + by rewrite Ew.
    + intros x _ Hx. specialize (Hx Ew). unfold in_buffer in Hx. by apply overlay_outside.
Defined.

Definition demo_disk : port_state := mk_ps (fun x => x mod 251) 1000 0x300000 0x301000.
Definition demo_sata : sata disk_dev := mk_sata dd_base 1 (fun _ => 0) (mk_vga 0 0 7 VGA_MEMORY (fun _ => 0) (mk_dd demo_disk None)).

Lemma demo_sata_ready : port_up (base := dd_base) (bound := 3) 0x300000 0x302000 0 demo_disk demo_sata /\ buffer_ok 0x302000 0 demo_disk 0x400000 (SECTOR * 2).
Proof. split; split; try reflexivity; unfold apart, SECTOR, SIZEOF_CMD_TABLE; cbn; lia. Qed.

(** Two sectors read, two written. *)
Lemma ahci_transfer_correct_witness :
  (exists s', ahci_read_sectors 5 0x300000 0x302000 0 5 2 0x400000 demo_sata = Some (0, s') /\ dram s' (0x400000 + 3) = (5 * SECTOR + 3) mod 251) /\
  exists s' st', ahci_write_sectors 5 0x300000 0x302000 0 5 2 0x400000 demo_sata = Some (0, s') /\ hba_ready 0 st' (world s').2 /\ ps_disk st' (SECTOR * 6) = 0.
Proof.
  destruct demo_sata_ready as [U B].
  destruct (ahci_transfer_correct (base := dd_base) (bound := 3) 5 0x300000 0x302000 ltac:(lia) ltac:(unfold dd_base; lia) demo_disk 5 2 0x400000 demo_sata eq_refl) as [_ H].
  destruct (H U B) as [R Wr]. split.
  - destruct (R _ eq_refl) as (s' & st' & E & _ & _ & Hb & _). exists s'. split; [exact E|]. exact (Hb 3 ltac:(unfold SECTOR; lia)).
  - destruct (Wr _ eq_refl) as (s' & st' & E & Up & _ & _ & D & _). exists s', st'. split; [exact E|]. split; [exact (pu_ready _ _ _ _ _ Up)|]. rewrite D. vm_compute. reflexivity.
Defined.
